(* ===== verification/_CoqProject ===== *)
-Q . S2P
Prelude.v
Text.v
Params.v
Settle.v
Address.v
MarketTypes.v
Machine.v
Conservation.v
Accounting.v
Quote.v
MockDeal.v
MockDealInv.v
MockDealOps.v
MockDealLive.v
MockMarket.v
MockInvariant.v
MockReach.v
MockOrders.v
MockLife.v
MockSafety.v
MockReads.v
MockSample.v
Capacity.v
CapacityRun.v
CapacityInv.v
CapacitySafety.v
Backend.v
Offer.v
Trace.v
Advance.v
AdvanceSafety.v
Keeper.v
KeeperDeal.v
KeeperLive.v
Json.v
Diagnostics.v
DiagnosticsSafety.v
WithdrawGate.v
Accumulator.v
BookFold.v
BookFoldSpec.v
Handover.v
ModelId.v
Verify.v
Probe.v
Routing.v
RoutingSafety.v
Continuity.v
ContinuitySafety.v
Session.v
SessionSafety.v
Budget.v
BudgetSafety.v
Getters.v
GettersSafety.v
Rows.v
Receipt.v
ReceiptSpec.v
Supervise.v
LivenessSafety.v
LivenessSpec.v
Select.v
SelectSpec.v
Settlement.v
Stop.v
SettlementSafety.v
SettlementSpec.v
StopSafety.v
SettlementSample.v
Buy.v
BuySafety.v
BuySpec.v
BuyDurable.v
BuySample.v
Seller.v
SellerSafety.v
Journal.v
JournalSafety.v
JournalSpec.v
ClientSample.v
