(* ===== verification/Prelude.v ===== *)
(** * dexdo: a verification of the market, its accounting and its two clients

    dexdo is a client of an exchange for inference streams.  A seller lists a
    volume of ticks under a TokenContract, a buyer fills the listing with an
    escrow, the seller opens a stream, and after a probe tick the seller claims
    delivered tokens while the buyer can stop or dispute.  The crate
    [src/crates/core] holds the rules of that exchange in Rust: the parameters
    and formulas, the stream machine, the accounting before every money submit, a
    conservation ledger, the readers of the chain, and an offline backend
    ([market/mock.rs]) that implements the whole market over two files.  The
    crate [src/crates/dexdo] holds the two clients: the seller's runtime
    ([seller/]) and the buyer's ([buyer/]), with the command line around them.
    This library models those parts and proves what they promise.

    ** Parts and files

    The rules of the market (src/crates/core/src):
    - [Prelude] and [Text]: outcomes ([Ok], [Err], [Panic]) with their notation,
      integers at their machine width with checked, saturating and wrapping
      operations, stable sorting, and Rust strings as lists of characters.
    - [Params]: [params.rs]; [Settle]: [settle.rs], fee, rebate and burns;
      [Address]: [address.rs], the two spellings of an address.
    - [MarketTypes]: the records, enums and predicates of [market/types.rs] and its
      match cursor; [Getters], [GettersSafety]: its five strict decoders of contract
      getters.
    - [Machine]: [machine.rs], the tick-level stream machine.
    - [Conservation]: [market/deal_conservation.rs], the ledger of money flows.
    - [Accounting], [Quote]: [market/accounting.rs], escrow, quotes, pre-flight
      checks and monitor sums.
    - [MockDeal], [MockDealInv], [MockDealOps], [MockDealLive]: one deal of
      [market/mock.rs], its invariant by phase, its preservation, the exits that
      always succeed, the panics that never happen.
    - [MockMarket], [MockInvariant], [MockReach], [MockLife], [MockOrders]: the
      state file and every method of the backend, the market invariant, the step
      relation, the abstract lifecycle every call refines, subscription orders.
      [MockSafety], [MockReads] are the theorems about every run from
      an empty file, [MockSample] sample runs.
    - [Backend]: the part of the [ChainBackend] trait the drivers and the router
      call, as a class that the offline market implements, and the programs ([prog])
      the clients are written in.
    - [Json], [Diagnostics], [DiagnosticsSafety]: [onchain_diagnostics.rs], the
      verdict on a submit response; [WithdrawGate]: [note_withdraw_gate.rs] beside
      the guards of the contract; [Accumulator]: [accumulator.rs], exchange plans;
      [BookFold], [BookFoldSpec]: [chain/book_events.rs], the order book folded from
      its events; [Handover]: [handover.rs]; [ModelId]: [manifest.rs].

    The chain client (src/crates/core/src/chain/backends.rs and client.rs):
    - [Trace]: worlds that record the calls made on them, triples on the record,
      programs that always end, what a program learns from the calls it adds, and what
      each post of a record comes after.
    - [Rows]: the rows of a stored book as a view and as a strict scan for one deal,
      and the note's own record of its balance.
    - [Select], [SelectSpec]: the ask a buy would cross, beside the
      book's own walk, [_match] of InferenceOrderBook.sol.
    - [Buy]: a buy from its preflight to its fill, and the buyer's settled week.
      [BuySafety] has what each read teaches, [BuySpec] what a post comes after,
      [BuyDurable] the durable buy, the wait for its fill and the week, [BuySample]
      a desk with two deals.
    - [Seller]: the seller's backend, the coherent snapshot of a deal, the gas step, the
      bond, the confirmed writes and the offer; [SellerSafety]: what each signature
      comes after, what a call that returned has read, the one instant of a snapshot,
      and a deal at its stall.
    - [Settlement]: the five settlement actions of [client.rs], from the history
      check to the confirmed receipt; [Stop]: the explicit stop of [backends.rs] with
      its slot per deal.  [SettlementSafety], [SettlementSpec] and [StopSafety] are
      the theorems, [SettlementSample] sample runs.

    The seller (src/crates/dexdo/src/seller):
    - [Capacity], [CapacityRun], [CapacityInv], [CapacitySafety]: [capacity.rs],
      the durable delivery capacity under interleaved requests, failing writes and
      crashes.
    - [Advance], [AdvanceSafety]: [advance.rs], the claim driver; [Keeper],
      [KeeperDeal], [KeeperLive]: [keeper.rs], the subscription keeper.
    - [Offer], [Supervise]: [mod.rs] and [liveness.rs], the checks on the
      one resting ask, its startup, the confirmed cancel, the reap of an expired
      ask, supervision and relisting.  [LivenessSafety] logs every call of a world
      and has one lemma per program, [LivenessSpec] the theorems and a
      run that relists once.

    The buyer (src/crates/dexdo/src/buyer, cli):
    - [Verify]: [verify.rs], the checks on a stream; [Probe]:
      [mod.rs], the requests that make them; [Routing], [RoutingSafety]:
      [routing.rs], one buy across many sellers.
    - [Continuity], [ContinuitySafety]: [continuity.rs], the planner of deals.
    - [Session], [SessionSafety]: [api/mod.rs], how the service ends a deal;
      [Budget], [BudgetSafety]: the tokens a route may still deliver.
    - [Journal]: the durable money record of [cli/buyer.rs], from its validation and its
      older schemas to the submit over it, the reconciliation of a pending one by fills
      and by the book's facts, the resume, the adoption and the operator's close.
      [JournalSafety] keeps a law on the trace of a desk through every program,
      [JournalSpec] has the theorems and a desk with one note.
    - [Receipt], [ReceiptSpec]: [cli/settlement_receipt.rs], the
      settlement receipt and its exit gate.
    - [ClientSample]: sample runs of the clients.

    ** How the code is translated

    A method that reads and writes the backend is a function from the files to an
    outcome and the files it leaves; an error or an equal-value retry stores
    nothing.  Rust's unsigned integers are integers with the checked operation of
    the source written out; a [u64] addition the source leaves unchecked wraps.
    Each call of the clock is a separate argument of the backend ([t0] for the
    load, then [t1], [t2] in the order of the source), because the code reads the
    clock more than once in a call; a step requires them to be non-decreasing and
    to fit [i64].  A [panic!] or [unreachable!] is the outcome [Panic].  Error texts
    are fixed strings without the interpolated values.  The state file is kept as
    the store leaves it: the address fields are normalised by [reload_state] as
    serde does.  The hash behind an order id is a parameter ([order_id_of]), as is
    every protocol constant ([ProtocolConsts], with [canonical] as the shipped
    value).

    A client is a program ([prog] of [Backend]) over any world that offers the
    calls it makes, one class per group of calls ([ChainBackend], [SessionChain],
    [OfferBook], [Supervision], [SettlementChain], [BuyChain], [SellerChain],
    [MoneyDesk], [Clock], [Timer]);
    its theorems hold for every world, and the offline market is one.  Code that
    runs under a lock is one step ([Session], [Capacity]); atomics are one step per
    operation, in any order ([Budget]); a [select!] is the world's choice among the branches that are
    polled; [timeout_at] runs its program and then asks the world whether the timer
    had fired, so a cut program's answer is dropped.  The buyer's commands end in an
    error chain of their own and are written in a monad over the same states ([money] of
    [Journal]); a file is what the JSON library parses out of it, with the schema it
    declares, or an invalid document when a number of it is too large for that parser.  The lock of a note is a call that may be refused; another process may
    still change the file, and the theorems say when they need that it does not.  Ratios the source keeps in
    doubles are exact rationals.

    Loops of the source that wait on the outside take fuel, and running out is the
    separate result [None], never a value.  That they end is proved: the claim driver
    by [advance_terminates], the keeper by [keeper_ends_the_subscription], the reap
    by [reap_terminates], a settlement action by [settlement_actions_end], the wait for
    a fill by [fill_waits_end], a command over the money record by [money_commands_end], each with the fuel spelled out.  The readiness loop has
    the fuel of its own attempt limit.  Structural loops need none; the repeated
    prefix removal of [trim_start_matches] has the length of the text.

    ** What the theorems show

    Money: in every reachable file the amounts of a deal add up to its value, an
    ended deal has paid all of it out and settles in the independent ledger
    without a residue; a receipt that says "conserved" replays there too, and the
    exit gate passes nothing else.  Life: every call moves every contract by one
    step of the lifecycle; an order leaves the book once with its escrow.
    Progress: a buyer can always stop, a dispute always resolves, both to the unit, a
    never-opened deal is refunded, the keeper ends a subscription.  Bounds: claims are limited
    in volume and rate, move no money but weekly charges, and are backed by what was
    delivered beyond the probe; capacity and route grants are
    never oversold, probes stay within their grant.  Files and readers: no run over
    stable names leaves a file that fails to load, a money record that was written reads
    back when its numbers fit 64 bits, and is closed exactly by facts that prove its escrow released, an incremental read of the book is a full
    one, the getter decoders accept exactly what the contract can report, a submit
    response is accepted only when nothing in it reports a failure, the withdraw
    gate answers what the contract's guards would, the predicted ask is the one the
    book fills.  Money messages: a buy posts only over an unused deal, which the book's
    own walk fills when the client judged its rows rightly; a durable buy is written down before its first POST and
    takes no fill but its own; the buyer's command posts only over a record of that very
    message and of its own terms, removes the record only on proof, and posts nothing in
    recovery; a settlement action posts once and its receipt is
    proved by the deal's log, a STOP is posted again only after a POST that provably
    did not land.  The seller signs
    nothing without the reads that justify it, takes nothing as done before it has
    read it, and a snapshot is the deal at one instant.  Clients: a session's terminal
    write is its last, a route orders each seller of its ranking once, a cancelled or relisted ask rests on
    what the chain just said.

    The theorems on runs assume names that a store leaves unchanged ([stable]),
    32-byte keys and a forward clock; [public_name_bricks_the_file] shows what
    happens to a name that is not stable.  Theorems on progress also assume that
    the value of the deal fits 128 bits, where the code's checked sums would fail.

    ** What is not modelled

    The network side of the chain client (transport, ABI encoding, cryptography)
    and the Solidity contracts are external: where the clients rely on them they
    are parameters; of the contracts only the book's walk and the withdraw guards
    are written out.  Of the chain client the decoding of note events, provisioning,
    the facts a resumed buyer checks, and the seller's watched cancel and fill poll are
    not modelled; the seller's stop and the release of a dispute are those of
    [Settlement] behind a gas step.  The seller's gateway and its model upstream, and the buyer's
    HTTP handlers, are asynchronous servers around the parts above.  The command
    line parses arguments, keeps keys and prints; of it the receipt, the buyer's
    money record, the facts of the buyer's monitor and its recovery are modelled; the
    subscription store with its commands, the quote a buy starts from and the blocks
    printed to the operator are not.  Display texts, tracing
    and I/O errors outside [Capacity] are left out. *)
From Stdlib Require Export ZArith Lia Sorting.Sorted.
From stdpp Require Export prelude strings gmap fin_maps.
From stdpp Require Export list.

#[global] Open Scope Z_scope.

(** ** Outcomes of fallible code

    [outcome E A] is Rust's [Result<A, E>] plus a third case, [Panic], for
    [panic!], [unwrap] on [None] and [assert!].  A [Panic] unwinds through [?]
    like an error but is a different observation, so theorems can exclude it. *)
Inductive outcome (E A : Type) : Type :=
| Ok (a : A)
| Err (e : E)
| Panic.
Arguments Ok {E A} a.
Arguments Err {E A} e.
Arguments Panic {E A}.

Declare Scope outcome_scope.
Delimit Scope outcome_scope with outcome.
#[global] Open Scope outcome_scope.

(** The [?] operator: the notation expands to a [match], so that case analysis
    sees the source's branches. *)
Notation "'let*' x ':=' m 'in' k" :=
  (match m with Ok x => k | Err e => Err e | Panic => Panic end)
  (at level 10, x name, m at level 100, k at level 200,
   format "'[v' 'let*'  x  ':='  m  'in' '/' k ']'") : outcome_scope.
Notation "'let*' ' p ':=' m 'in' k" :=
  (match m with Ok p => k | Err e => Err e | Panic => Panic end)
  (at level 10, p strict pattern, m at level 100, k at level 200) : outcome_scope.
(** An early return: [if b { return Err(e) }]. *)
Notation "'fail_if' b 'with' e 'in' k" :=
  (if b then Err e else k)
  (at level 10, b at level 100, e at level 100, k at level 200,
   format "'[v' 'fail_if'  b  'with'  e  'in' '/' k ']'") : outcome_scope.

(** [Option::ok_or]. *)
Definition ok_or {E A} (o : option A) (e : E) : outcome E A :=
  match o with Some a => Ok a | None => Err e end.

(** [Option::or_else]. *)
Definition or_else {A} (o o' : option A) : option A :=
  match o with Some a => Some a | None => o' end.

(** [Result::map_err] on an outcome whose error carries no data. *)
Definition map_err {E E' A} (f : E -> E') (o : outcome E A) : outcome E' A :=
  match o with Ok a => Ok a | Err e => Err (f e) | Panic => Panic end.

Definition is_ok {E A} (o : outcome E A) : bool :=
  match o with Ok _ => true | _ => false end.

(** Run a check on every entry of a map; the first failure, in the map's own
    order, is the result.  Rust's [HashMap] order is unspecified, so only the
    [Ok] verdict of such a loop is meaningful. *)
Definition check_all {E K V} `{Countable K} (f : K -> V -> outcome E unit)
    (m : gmap K V) : outcome E unit :=
  foldr (fun '(k, v) acc => let* _ := f k v in acc) (Ok tt) (map_to_list m).

Lemma check_list_ok {E A} (f : A -> outcome E unit) (l : list A) :
  foldr (fun x acc => let* _ := f x in acc) (Ok tt) l = Ok tt <->
  Forall (fun x => f x = Ok tt) l.
Proof.
  induction l as [|x l IH]; simpl; [by split|].
  rewrite Forall_cons, <- IH. destruct (f x) as [[]| |]; intuition congruence.
Qed.

Lemma check_all_ok {E K V} `{Countable K} (f : K -> V -> outcome E unit) (m : gmap K V) :
  check_all f m = Ok tt <-> forall k v, m !! k = Some v -> f k v = Ok tt.
Proof.
  unfold check_all.
  assert (forall l, foldr (fun '(k, v) acc => let* _ := f k v in acc) (Ok tt) l = Ok tt <->
     Forall (fun '(k, v) => f k v = Ok tt) l) as Hl.
  { induction l as [|[k v] l IH]; simpl; [by split|].
    rewrite Forall_cons, <- IH. destruct (f k v) as [[]| |]; intuition congruence. }
  rewrite Hl, Forall_forall. split.
  - intros Hf k v Hk. apply (Hf (k, v)). by apply elem_of_map_to_list.
  - intros Hf [k v] Hin. apply Hf. by apply elem_of_map_to_list.
Qed.

(** ** Machine integers

    A [w]-bit integer is a [Z]; its range is a predicate, and each arithmetic
    method of the source has its own definition. *)
Definition U8_MAX : Z := 255.
Definition U32_MAX : Z := 4294967295.
Definition U64_MAX : Z := 18446744073709551615.
Definition I64_MAX : Z := 9223372036854775807.
Definition U128_MAX : Z := 340282366920938463463374607431768211455.
Definition I128_MAX : Z := 170141183460469231731687303715884105727.
Definition I128_MIN : Z := - 170141183460469231731687303715884105728.

Definition in_u8 (z : Z) : Prop := 0 <= z <= U8_MAX.
Definition in_u32 (z : Z) : Prop := 0 <= z <= U32_MAX.
Definition in_u64 (z : Z) : Prop := 0 <= z <= U64_MAX.
Definition in_u128 (z : Z) : Prop := 0 <= z <= U128_MAX.

(** Checked operations at a width given by its maximum. *)
Definition checked_add (max a b : Z) : option Z :=
  if a + b <=? max then Some (a + b) else None.
Definition checked_mul (max a b : Z) : option Z :=
  if a * b <=? max then Some (a * b) else None.
Definition checked_sub (a b : Z) : option Z :=
  if b <=? a then Some (a - b) else None.
Definition saturating_add (max a b : Z) : Z := Z.min (a + b) max.
Definition saturating_mul (max a b : Z) : Z := Z.min (a * b) max.
Definition saturating_sub (a b : Z) : Z := Z.max (a - b) 0.
(** [uN::try_from] of an unsigned value. *)
Definition try_from (max a : Z) : option Z := if a <=? max then Some a else None.
(** [uN::try_from(a).unwrap_or(uN::MAX)]. *)
Definition saturate (max a : Z) : Z := if a <=? max then a else max.
(** Unchecked [+] in a release build. *)
Definition wrapping (max a : Z) : Z := a mod (max + 1).
Definition div_ceil (a b : Z) : Z := (a + b - 1) / b.

Definition u64_checked_add := checked_add U64_MAX.
Definition u128_checked_add := checked_add U128_MAX.
Definition u128_checked_mul := checked_mul U128_MAX.

(** ** Automation *)

Create HintDb dexdo.

(** Constants of the widths, folded out of sight of [lia] until asked for. *)
Ltac unfold_ints :=
  unfold in_u8, in_u32, in_u64, in_u128, saturating_add, saturating_sub, saturating_mul,
    U8_MAX, U32_MAX, U64_MAX, I64_MAX, U128_MAX, I128_MAX, I128_MIN in *.

(** First with the maxima as atoms, then with their values. *)
Ltac ilia :=
  first [ unfold in_u8, in_u32, in_u64, in_u128 in *; lia | unfold_ints; lia ].

(** Break one layer of a computation known to succeed (or to have a given
    result): destructs the scrutinee of the outermost [match]/[if]. *)
Ltac ok_step H :=
  let E := fresh "E" in
  lazymatch type of H with
  | (match ?m with Ok _ => _ | Err _ => _ | Panic => _ end) = _ =>
      destruct m eqn:E; [| discriminate H | discriminate H]
  | (if ?b then _ else _) = _ => destruct b eqn:E; try discriminate H
  | (match ?o with Some _ => _ | None => _ end) = _ =>
      destruct o eqn:E; try discriminate H
  | (let '(_, _) := ?p in _) = _ => destruct p eqn:E
  | ok_or ?o _ = Ok _ => destruct o eqn:E; simpl in H; [| discriminate H]
  end.

Ltac inv_ok H := repeat (ok_step H); try (injection H as H; subst).

Lemma ok_or_ok {E A} (o : option A) (e : E) a : ok_or o e = Ok a <-> o = Some a.
Proof. destruct o; simpl; naive_solver. Qed.

Lemma checked_add_some max a b c :
  checked_add max a b = Some c <-> c = a + b /\ a + b <= max.
Proof. unfold checked_add. destruct (Z.leb_spec (a + b) max); intuition (congruence || lia). Qed.
Lemma checked_mul_some max a b c :
  checked_mul max a b = Some c <-> c = a * b /\ a * b <= max.
Proof. unfold checked_mul. destruct (Z.leb_spec (a * b) max); intuition (congruence || lia). Qed.
Lemma checked_sub_some a b c : checked_sub a b = Some c <-> c = a - b /\ b <= a.
Proof. unfold checked_sub. destruct (Z.leb_spec b a); intuition (congruence || lia). Qed.
Lemma try_from_some max a b : try_from max a = Some b <-> b = a /\ a <= max.
Proof. unfold try_from. destruct (Z.leb_spec a max); intuition (congruence || lia). Qed.

Lemma saturating_add_exact max a b : a + b <= max -> saturating_add max a b = a + b.
Proof. unfold saturating_add. lia. Qed.
Lemma wrapping_small max a : 0 <= a <= max -> wrapping max a = a.
Proof. intros. unfold wrapping. apply Z.mod_small. lia. Qed.

(** Turn every successful checked operation of the context into its meaning. *)
Ltac checked_facts :=
  repeat match goal with
  | H : ok_or _ _ = Ok _ |- _ => apply ok_or_ok in H
  | H : u64_checked_add _ _ = Some _ |- _ => apply checked_add_some in H as [? ?]
  | H : u128_checked_add _ _ = Some _ |- _ => apply checked_add_some in H as [? ?]
  | H : u128_checked_mul _ _ = Some _ |- _ => apply checked_mul_some in H as [? ?]
  | H : checked_sub _ _ = Some _ |- _ => apply checked_sub_some in H as [? ?]
  | H : try_from _ _ = Some _ |- _ => apply try_from_some in H as [? ?]
  end.

(** ** Floor division *)

Lemma div_split_mul v m d :
  0 < d -> (v / d) * m + ((v mod d) * m) / d = (v * m) / d.
Proof.
  intros Hd. rewrite (Z.div_mod v d) at 3 by lia.
  replace ((d * (v / d) + v mod d) * m) with ((v mod d) * m + (v / d * m) * d) by ring.
  rewrite Z.div_add by lia. lia.
Qed.

Lemma div_add_floor a b d : 0 < d -> a / d + b / d <= (a + b) / d.
Proof.
  intros Hd. apply Z.div_le_lower_bound; [lia|].
  pose proof (Z.mul_div_le a d Hd). pose proof (Z.mul_div_le b d Hd). lia.
Qed.

Lemma div_ceil_bounds a b : 0 < b -> a <= b * div_ceil a b < a + b.
Proof.
  intros Hb. unfold div_ceil.
  pose proof (Z.div_mod (a + b - 1) b ltac:(lia)) as H1.
  pose proof (Z.mod_pos_bound (a + b - 1) b Hb). lia.
Qed.

Lemma div_ceil_mono a a' b : 0 < b -> a <= a' -> div_ceil a b <= div_ceil a' b.
Proof. intros. unfold div_ceil. apply Z.div_le_mono; lia. Qed.

Lemma div_ceil_mul k b : 0 < b -> div_ceil (k * b) b = k.
Proof.
  intros. unfold div_ceil. replace (k * b + b - 1) with ((b - 1) + k * b) by lia.
  rewrite Z.div_add by lia. rewrite Z.div_small by lia. lia.
Qed.

(** ** Stable sorting

    [slice::sort_by] and [sort_by_key] are stable: an element never passes one
    that is not greater. *)
Fixpoint insert_by {A} (le : A -> A -> bool) (x : A) (l : list A) : list A :=
  match l with
  | [] => [x]
  | y :: l' => if le x y then x :: l else y :: insert_by le x l'
  end.
Definition sort_by {A} (le : A -> A -> bool) (l : list A) : list A := foldr (insert_by le) [] l.

Lemma insert_by_perm {A} (le : A -> A -> bool) x l : insert_by le x l ≡ₚ x :: l.
Proof.
  induction l as [|y l IH]; simpl; [done|]. destruct (le x y); [done|].
  rewrite IH. apply Permutation_swap.
Qed.
Lemma sort_by_perm {A} (le : A -> A -> bool) l : sort_by le l ≡ₚ l.
Proof. induction l as [|x l IH]; simpl; [done|]. by rewrite insert_by_perm, IH. Qed.

(** The result is ordered, for a total order [le]. *)
Lemma insert_by_sorted {A} (le : A -> A -> bool) x l :
  (forall a b, le a b = false -> le b a = true) ->
  Sorted (fun a b => le a b = true) l -> Sorted (fun a b => le a b = true) (insert_by le x l).
Proof.
  intros Htot. induction 1 as [|y l Hs IH Hd]; simpl; [repeat constructor|].
  destruct (le x y) eqn:E; [by repeat constructor|].
  constructor; [done|]. destruct l as [|z l]; simpl; [constructor; by apply Htot|].
  destruct (le x z); constructor; [by apply Htot|by inversion Hd].
Qed.
Lemma sort_by_sorted {A} (le : A -> A -> bool) l :
  (forall a b, le a b = false -> le b a = true) ->
  Sorted (fun a b => le a b = true) (sort_by le l).
Proof. intros Htot. induction l; simpl; [constructor|]. by apply insert_by_sorted. Qed.
