(* ===== verification/Text.v ===== *)
(** * Text: the string operations the sources use

    Text is a [list ascii]: the sources' amounts, addresses and identifiers are
    ASCII, and every method modelled here ([trim], [split_once], [parse],
    [to_ascii_lowercase], [strip_prefix], [contains]) is the restriction of
    Rust's to ASCII text.  Decimal printing ([u128::to_string], [{:09}]) and
    parsing ([str::parse::<u128>]) are defined with their round trip. *)
From Stdlib Require Import Ascii.
From S2P Require Import Prelude.

Abbreviation text := (list ascii).

Definition to_text (s : string) : text := String.list_ascii_of_string s.
Definition of_text (t : text) : string := String.string_of_list_ascii t.

Lemma of_to_text s : of_text (to_text s) = s.
Proof. apply String.string_of_list_ascii_of_string. Qed.
Lemma to_of_text t : to_text (of_text t) = t.
Proof. apply String.list_ascii_of_string_of_list_ascii. Qed.
Lemma to_text_length s : length (to_text s) = String.length s.
Proof. unfold to_text. induction s as [|c s IH]; simpl; [done|]. by f_equal. Qed.

Definition code (c : ascii) : Z := Z.of_N (N_of_ascii c).

Definition is_ws (c : ascii) : bool :=
  (code c =? 32) || ((9 <=? code c) && (code c <=? 13)).
Definition is_digit (c : ascii) : bool := (48 <=? code c) && (code c <=? 57).
Definition is_hexdigit (c : ascii) : bool :=
  is_digit c || ((97 <=? code c) && (code c <=? 102)) || ((65 <=? code c) && (code c <=? 70)).
Definition lower (c : ascii) : ascii :=
  if (65 <=? code c) && (code c <=? 90) then ascii_of_N (Z.to_N (code c + 32)) else c.

(** [str::to_ascii_lowercase]. *)
Definition to_ascii_lowercase (t : text) : text := map lower t.
(** [str::eq_ignore_ascii_case]. *)
Definition eq_ignore_ascii_case (a b : text) : bool :=
  bool_decide (to_ascii_lowercase a = to_ascii_lowercase b).

Fixpoint trim_start (t : text) : text :=
  match t with
  | [] => []
  | c :: t' => if is_ws c then trim_start t' else t
  end.
(** [str::trim]. *)
Definition trim (t : text) : text := rev (trim_start (rev (trim_start t))).

(** [str::split_once(char)]. *)
Fixpoint split_once (c : ascii) (t : text) : option (text * text) :=
  match t with
  | [] => None
  | d :: t' => if bool_decide (c = d) then Some ([], t')
               else match split_once c t' with
                    | Some (a, b) => Some (d :: a, b)
                    | None => None
                    end
  end.

(** [str::split_once("::")] for a two-character separator. *)
Fixpoint split_once2 (c1 c2 : ascii) (t : text) : option (text * text) :=
  match t with
  | [] => None
  | d :: t' =>
      match t' with
      | e :: t'' =>
          if bool_decide (c1 = d) && bool_decide (c2 = e) then Some ([], t'')
          else match split_once2 c1 c2 t' with
               | Some (a, b) => Some (d :: a, b)
               | None => None
               end
      | [] => None
      end
  end.

(** [str::strip_prefix]. *)
Fixpoint strip_prefix (p t : text) : option text :=
  match p, t with
  | [], _ => Some t
  | a :: p', b :: t' => if bool_decide (a = b) then strip_prefix p' t' else None
  | _ :: _, [] => None
  end.

(** [str::contains] for a pattern. *)
Fixpoint contains_text (p t : text) : bool :=
  match strip_prefix p t with
  | Some _ => true
  | None => match t with [] => false | _ :: t' => contains_text p t' end
  end.

Definition contains (c : ascii) (t : text) : bool := existsb (fun d => bool_decide (c = d)) t.

(** ** Decimal numerals *)

Definition digit_char (d : Z) : ascii := ascii_of_N (Z.to_N (48 + d)).
Definition char_digit (c : ascii) : Z := code c - 48.

(** Most significant digit first; [fuel] digits at most. *)
Fixpoint dec_digits (fuel : nat) (n : Z) (acc : list Z) : list Z :=
  match fuel with
  | O => acc
  | S f => if n <? 10 then n :: acc else dec_digits f (n / 10) (n mod 10 :: acc)
  end.
Definition dec_value (ds : list Z) : Z := fold_left (fun a d => 10 * a + d) ds 0.

(** [u128::to_string]: 39 digits hold every [u128]. *)
Definition print_u128 (n : Z) : text := map digit_char (dec_digits 39 n []).

(** Exactly [w] digits, zero padded: the [{:0w}] of a number below [10^w]. *)
Fixpoint fixed_digits (w : nat) (n : Z) : list Z :=
  match w with
  | O => []
  | S w' => fixed_digits w' (n / 10) ++ [n mod 10]
  end.

(** The digits of [str::parse] for an unsigned type: non-empty, all decimal
    digits, within the maximum. *)
Definition parse_digits (max : Z) (t : text) : option Z :=
  match t with
  | [] => None
  | _ => if forallb is_digit t
         then try_from max (dec_value (map char_digit t))
         else None
  end.
(** [str::parse::<uN>]: a single leading ['+'] is accepted. *)
Definition parse_uint (max : Z) (t : text) : option Z :=
  match t with
  | c :: t' => if bool_decide (c = "+"%char) then parse_digits max t' else parse_digits max t
  | [] => None
  end.

(** *** Lemmas *)

Definition digits_ok (ds : list Z) : Prop := Forall (fun d => 0 <= d <= 9) ds.

Lemma digit_cases d : 0 <= d <= 9 ->
  d = 0 \/ d = 1 \/ d = 2 \/ d = 3 \/ d = 4 \/ d = 5 \/ d = 6 \/ d = 7 \/ d = 8 \/ d = 9.
Proof. lia. Qed.

Ltac each_digit Hd :=
  apply digit_cases in Hd;
  repeat match type of Hd with _ \/ _ => destruct Hd as [->|Hd] | _ => rewrite Hd in * end.

Lemma char_digit_char d : 0 <= d <= 9 -> char_digit (digit_char d) = d.
Proof. intros Hd. each_digit Hd; reflexivity. Qed.
Lemma digit_char_is_digit d : 0 <= d <= 9 -> is_digit (digit_char d) = true.
Proof. intros Hd. each_digit Hd; reflexivity. Qed.
Lemma digit_char_ne d c : is_digit c = false -> 0 <= d <= 9 -> c <> digit_char d.
Proof. intros Hc Hd ->. by rewrite digit_char_is_digit in Hc. Qed.
Lemma digit_char_not_ws d : 0 <= d <= 9 -> is_ws (digit_char d) = false.
Proof. intros Hd. each_digit Hd; reflexivity. Qed.

Lemma dec_value_app a b :
  dec_value (a ++ b) = dec_value a * 10 ^ Z.of_nat (length b) + dec_value b.
Proof.
  unfold dec_value. revert a. induction b as [|x b IH] using rev_ind; intros a; simpl.
  - rewrite app_nil_r. lia.
  - rewrite app_assoc, (fold_left_app _ (a ++ b)), (fold_left_app _ b), length_app.
    cbn [fold_left length]. rewrite IH.
    rewrite Nat.add_1_r, Nat2Z.inj_succ, Z.pow_succ_r by lia. lia.
Qed.

Lemma dec_value_cons d ds : dec_value (d :: ds) = d * 10 ^ Z.of_nat (length ds) + dec_value ds.
Proof. apply (dec_value_app [d] ds). Qed.

Lemma dec_digits_spec fuel n acc :
  0 <= n < 10 ^ Z.of_nat fuel -> (0 < fuel)%nat -> digits_ok acc ->
  digits_ok (dec_digits fuel n acc) /\ dec_digits fuel n acc <> [] /\
  dec_value (dec_digits fuel n acc) = n * 10 ^ Z.of_nat (length acc) + dec_value acc.
Proof.
  revert n acc. induction fuel as [|f IH]; intros n acc Hn Hf Hacc; [lia|]. simpl.
  rewrite Nat2Z.inj_succ, Z.pow_succ_r in Hn by lia.
  destruct (Z.ltb_spec n 10) as [Hlt|Hge].
  - split_and!; [constructor; [lia|done] | done | apply dec_value_cons].
  - destruct f as [|f]; [simpl in Hn; lia|].
    destruct (IH (n / 10) (n mod 10 :: acc)) as (H1 & H2 & H3).
    + split; [apply Z.div_pos; lia | apply Z.div_lt_upper_bound; lia].
    + lia.
    + constructor; [|done]. pose proof (Z.mod_pos_bound n 10). lia.
    + split_and!; [done..|]. rewrite H3, dec_value_cons. cbn [length].
      rewrite Nat2Z.inj_succ, Z.pow_succ_r by lia.
      pose proof (Z.div_mod n 10 ltac:(lia)). nia.
Qed.

Lemma fixed_digits_spec w n :
  0 <= n -> digits_ok (fixed_digits w n) /\ length (fixed_digits w n) = w /\
  dec_value (fixed_digits w n) = n mod 10 ^ Z.of_nat w.
Proof.
  revert n. induction w as [|w IH]; intros n Hn; cbn [fixed_digits].
  - split_and!; [constructor | done |]. by rewrite Z.mod_1_r.
  - destruct (IH (n / 10)) as (H1 & H2 & H3); [apply Z.div_pos; lia|].
    pose proof (Z.mod_pos_bound n 10 ltac:(lia)). split_and!.
    + apply Forall_app; split; [done|]. constructor; [lia|constructor].
    + rewrite length_app, H2. simpl. lia.
    + rewrite dec_value_app, H3. rewrite (Nat2Z.inj_succ w), Z.pow_succ_r by lia.
      rewrite (Z.rem_mul_r n 10) by lia. unfold dec_value. simpl. lia.
Qed.

Lemma parse_print_digits max ds :
  digits_ok ds -> ds <> [] -> dec_value ds <= max ->
  parse_digits max (map digit_char ds) = Some (dec_value ds).
Proof.
  intros Hok Hne Hmax. unfold parse_digits.
  assert (map char_digit (map digit_char ds) = ds) as ->.
  { clear Hne Hmax. induction Hok as [|d ds Hd _ IH]; simpl; [done|].
    rewrite char_digit_char, IH; done. }
  assert (forallb is_digit (map digit_char ds) = true) as ->.
  { clear Hne Hmax. induction Hok as [|d ds Hd _ IH]; simpl; [done|].
    rewrite digit_char_is_digit, IH; done. }
  destruct ds; [done|]. simpl. apply try_from_some. done.
Qed.

Lemma parse_uint_print max ds :
  digits_ok ds -> ds <> [] -> dec_value ds <= max ->
  parse_uint max (map digit_char ds) = Some (dec_value ds).
Proof.
  intros Hok Hne Hmax. rewrite <- (parse_print_digits max ds) by done.
  unfold parse_uint. destruct Hok as [|d ds Hd Hok]; [done|]. cbn [map].
  rewrite bool_decide_eq_false_2; [done|]. intros Heq.
  by apply (digit_char_ne d "+"%char).
Qed.

Lemma print_parse_u128 n :
  in_u128 n -> parse_uint U128_MAX (print_u128 n) = Some n.
Proof.
  intros Hn. destruct (dec_digits_spec 39 n []) as (H1 & H2 & H3); [ilia|lia|constructor|].
  unfold print_u128. rewrite parse_uint_print; [|done|done|].
  - rewrite H3. unfold dec_value. simpl. f_equal. lia.
  - rewrite H3. unfold dec_value. simpl. ilia.
Qed.

Lemma trim_start_id t : Forall (fun c => is_ws c = false) t -> trim_start t = t.
Proof. intros [|c t' Hc _]; simpl; [done|]. by rewrite Hc. Qed.
Lemma trim_id t : Forall (fun c => is_ws c = false) t -> trim t = t.
Proof.
  intros Ht. unfold trim. rewrite (trim_start_id t) by done.
  rewrite trim_start_id by (apply Forall_rev; done). apply rev_involutive.
Qed.

Lemma split_once_none c t : contains c t = false -> split_once c t = None.
Proof.
  induction t as [|d t IH]; simpl; [done|].
  rewrite orb_false_iff. intros [Hd Ht]. by rewrite Hd, IH.
Qed.
Lemma split_once_app c a b : contains c a = false -> split_once c (a ++ c :: b) = Some (a, b).
Proof.
  induction a as [|d a IH]; simpl; [by rewrite bool_decide_eq_true_2|].
  rewrite orb_false_iff. intros [Hd Ht]. by rewrite Hd, IH.
Qed.

Lemma digits_no_ws ds : digits_ok ds -> Forall (fun c => is_ws c = false) (map digit_char ds).
Proof. intros H. apply Forall_map. eapply Forall_impl; [done|]. intros d Hd. by apply digit_char_not_ws. Qed.
Lemma digits_not_contains c ds :
  is_digit c = false -> digits_ok ds -> contains c (map digit_char ds) = false.
Proof.
  intros Hc Hok. induction Hok as [|d ds Hd _ IH]; simpl; [done|].
  rewrite IH, orb_false_r. apply bool_decide_eq_false_2. by apply digit_char_ne.
Qed.
Lemma contains_app c a b : contains c (a ++ b) = contains c a || contains c b.
Proof. apply existsb_app. Qed.
Lemma contains_cons c d t : contains c (d :: t) = bool_decide (c = d) || contains c t.
Proof. done. Qed.

Lemma trim_start_idem t : trim_start (trim_start t) = trim_start t.
Proof. induction t as [|c t IH]; simpl; [done|]. destruct (is_ws c) eqn:E; [done|]. simpl. by rewrite E. Qed.
Lemma trim_start_snoc t c :
  is_ws c = false -> trim_start (t ++ [c]) = trim_start t ++ [c].
Proof. intros Hc. induction t as [|d t IH]; simpl; [by rewrite Hc|]. by destruct (is_ws d). Qed.
(** Trimming the end keeps a text that starts with a visible character. *)
Lemma trim_start_rev_trim_start t :
  trim_start t = t -> trim_start (rev (trim_start (rev t))) = rev (trim_start (rev t)).
Proof.
  destruct t as [|c t]; [done|]. simpl. destruct (is_ws c) eqn:E.
  - intros H. exfalso. assert (length (trim_start t) <= length t)%nat.
    { clear. induction t as [|d t IH]; simpl; [lia|]. destruct (is_ws d); simpl; lia. }
    rewrite H in H0. simpl in H0. lia.
  - intros _. rewrite trim_start_snoc by done. rewrite rev_app_distr. simpl. by rewrite E.
Qed.
Lemma trim_trim t : trim (trim t) = trim t.
Proof.
  unfold trim. rewrite (trim_start_rev_trim_start (trim_start t)) by apply trim_start_idem.
  by rewrite rev_involutive, trim_start_idem.
Qed.
