(* ===== verification/Params.v ===== *)
(** * Params: protocol constants and the SHELL amount grammar
    (crates/core/src/params.rs)

    The constants every money path shares, [ProtocolConsts]/[DobParams], the
    claim limit, the deal gas reserve, and the two text functions by which an
    amount is printed ([shell_amount]) and read back ([shell_amount_raw]). *)
From Stdlib Require Import Ascii.
From S2P Require Import Prelude Text.

(** ** Constants *)
Definition PRICE_STEP : Z := 1000000000.
Definition SHELL_UNIT : Z := 1000000000.
Definition ROOT_PN_GAS_DEPOSIT_RAW : Z := 250000000000.
Definition MAX_NOTE_NOMINAL_SHELL : Z := 1000000.
Definition MIN_STREAM_BUY_TICKS : Z := 2.
Definition TICK_SIZE : Z := 1000000.
Definition PROBE_SEED_TOKENS : Z := TICK_SIZE.
Definition PLATFORM_FEE_BPS : Z := 250.
Definition MAX_CLAIM_DELTA : Z := TICK_SIZE.
Definition SUB_WEEK_LEN : Z := 604800.
Definition SUBSCRIPTION_WEEKS : Z := 4.
Definition SUB_TICKS_PER_WEEK : Z := 10080.
Definition SUBSCRIPTION_MAX_TICKS : Z := SUB_TICKS_PER_WEEK * SUBSCRIPTION_WEEKS.
Definition SUBSCRIPTION_BUYER_BOND_TICKS : Z := 2.
Definition MATCH_OPEN_TIMEOUT_SECS : Z := 600.
Definition PROBE_WINDOW : Z := 180.
Definition DEFAULT_BUY_TTL : Z := 3600.
Definition MAX_SELL_TTL : Z := 3600.

Definition note_deploy_wallet_funding_raw (nominal_raw : Z) : Z :=
  nominal_raw + ROOT_PN_GAS_DEPOSIT_RAW.

Definition price_ceiling_shell (raw : Z) : Z := div_ceil raw PRICE_STEP.
Definition price_raw_from_shell (shell : Z) : option Z := u128_checked_mul shell PRICE_STEP.

(** [serde_price_shell::serialize]: the whole SHELL written to the file. *)
Definition serialize_price (raw : Z) : outcome string Z :=
  fail_if negb (raw mod PRICE_STEP =? 0) with "price_per_tick is not a whole number of SHELL" in
  Ok (raw / PRICE_STEP).
(** [serde_price_shell::deserialize]: the file's whole SHELL into raw units. *)
Definition deserialize_price (shell : Z) : outcome string Z :=
  fail_if MAX_NOTE_NOMINAL_SHELL <? shell with "price_per_tick is above the largest note" in
  ok_or (price_raw_from_shell shell) "price_per_tick is beyond the range of a price".

Definition probe_seed_owed (probe_accepted : bool) (price_per_tick : Z) : Z :=
  if probe_accepted then price_per_tick else 0.

Definition default_buy_deadline (now : Z) : option Z := u64_checked_add now DEFAULT_BUY_TTL.
Definition cli_buy_deadline_is_valid (deadline now : Z) : bool :=
  negb (deadline =? 0) && (now <? deadline).

(** ** Protocol constants; durations are whole seconds *)
Record ProtocolConsts : Type := mkConsts {
  platform_fee_bps : Z;
  min_claim_interval : Z;
  min_seconds_per_tick : Z;
  claim_promote_window : Z;
  probe_window : Z;
  dispute_window : Z;
  rebate_max_bps : Z;
  rebate_slope_bps : Z
}.

Definition canonical : ProtocolConsts := {|
  platform_fee_bps := PLATFORM_FEE_BPS;
  min_claim_interval := 60;
  min_seconds_per_tick := 60;
  claim_promote_window := 60;
  probe_window := PROBE_WINDOW;
  dispute_window := 600;
  rebate_max_bps := 200;
  rebate_slope_bps := 4 |}.

(** The ranges of the Rust field types ([u32] rates, [u64] seconds). *)
Definition consts_typed (c : ProtocolConsts) : Prop :=
  in_u32 (platform_fee_bps c) /\ in_u64 (min_claim_interval c) /\
  in_u64 (min_seconds_per_tick c) /\ in_u64 (claim_promote_window c) /\
  in_u64 (probe_window c) /\ in_u64 (dispute_window c) /\
  in_u32 (rebate_max_bps c) /\ in_u32 (rebate_slope_bps c).

(** What [canonical] asserts and a market relies on: rates below one, and the
    anti-wash inequality. *)
Definition consts_sane (c : ProtocolConsts) : Prop :=
  consts_typed c /\ rebate_max_bps c < platform_fee_bps c <= 10000.

Lemma canonical_sane : consts_sane canonical.
Proof. unfold consts_sane, consts_typed; simpl. unfold PLATFORM_FEE_BPS, PROBE_WINDOW. ilia. Qed.

(** Elapsed seconds and the rate floor bound one claim. *)
Definition claim_delta_limit (elapsed min_seconds : Z) : Z :=
  let rate_limit :=
    if min_seconds =? 0 then MAX_CLAIM_DELTA else elapsed * TICK_SIZE / min_seconds in
  if rate_limit <? MAX_CLAIM_DELTA then rate_limit else MAX_CLAIM_DELTA.
Definition max_claim_delta (c : ProtocolConsts) (elapsed : Z) : Z :=
  claim_delta_limit elapsed (min_seconds_per_tick c).

Record DobParams : Type := mkDobParams { tick_size : Z }.
Definition dob_canonical : DobParams := {| tick_size := TICK_SIZE |}.

(** ** Deal gas reserve *)
Definition DEAL_BURN_DEPLOY_RAW : Z := 100000000.
Definition DEAL_BURN_TERMINAL_RAW : Z := 45000000.
Definition DEAL_BURN_POST_FROM_NOTE_RAW : Z := 25000000.
Definition DEAL_BURN_FUND_FROM_BOOK_RAW : Z := 20000000.
Definition DEAL_BURN_OPEN_RAW : Z := 15000000.
Definition DEAL_BURN_ACCEPT_PROBE_RAW : Z := 15000000.
Definition DEAL_BURN_CLAIM_RAW : Z := 15000000.
Definition DEAL_BURN_SETTLE_RAW : Z := 15000000.
Definition DEAL_BURN_FUND_DEAL_RAW : Z := 10000000.
Definition DEAL_BURN_LIGHT_RAW : Z := 5000000.

Definition deal_gas_reserve_raw (max_ticks : Z) : Z :=
  let once := DEAL_BURN_DEPLOY_RAW + DEAL_BURN_POST_FROM_NOTE_RAW
    + DEAL_BURN_FUND_FROM_BOOK_RAW + DEAL_BURN_FUND_DEAL_RAW + DEAL_BURN_OPEN_RAW
    + DEAL_BURN_ACCEPT_PROBE_RAW + DEAL_BURN_SETTLE_RAW + DEAL_BURN_LIGHT_RAW * 2
    + DEAL_BURN_TERMINAL_RAW * 2 in
  saturating_add U128_MAX once
    (saturating_mul U128_MAX DEAL_BURN_CLAIM_RAW (Z.max max_ticks 1)).
Definition resolve_deal_gas_overhead_raw (supplied_raw : option Z) : outcome string Z :=
  Ok (default 0 supplied_raw).
Definition deal_gas_requirement_raw_with_overhead (max_ticks operator_surplus_raw : Z) : Z :=
  saturating_add U128_MAX (deal_gas_reserve_raw max_ticks) operator_surplus_raw.
Definition deal_gas_requirement_raw (max_ticks : Z) : Z :=
  deal_gas_requirement_raw_with_overhead max_ticks 0.
Definition min_deploy_shells_with_overhead (max_ticks overhead : Z) : Z :=
  Z.max (div_ceil (deal_gas_requirement_raw_with_overhead max_ticks overhead) SHELL_UNIT) 1.
Definition min_deploy_shells (max_ticks : Z) : Z := min_deploy_shells_with_overhead max_ticks 0.
Definition deal_gas_health_floor_raw_with_overhead (max_ticks overhead : Z) : Z :=
  deal_gas_requirement_raw_with_overhead max_ticks overhead.
Definition deal_gas_health_target_raw_with_overhead (max_ticks overhead : Z) : Z :=
  saturating_mul U128_MAX (min_deploy_shells_with_overhead max_ticks overhead) SHELL_UNIT.

(** ** SHELL amounts as text *)

(** Drop the trailing zeros of the nine decimals. *)
Fixpoint strip_leading_zeros (ds : list Z) : list Z :=
  match ds with
  | [] => []
  | d :: ds' => if d =? 0 then strip_leading_zeros ds' else ds
  end.
Definition strip_trailing_zeros (ds : list Z) : list Z := rev (strip_leading_zeros (rev ds)).

Definition shell_amount (raw : Z) : text :=
  let whole := raw / SHELL_UNIT in
  let rest := raw mod SHELL_UNIT in
  if rest =? 0 then print_u128 whole
  else print_u128 whole ++ "."%char ::
       map digit_char (strip_trailing_zeros (fixed_digits 9 rest)).

Definition shell_amount_of_text (raw : text) : text :=
  match parse_uint U128_MAX (trim raw) with
  | Some value => shell_amount value
  | None => raw
  end.

Definition parse_part (what : string) (t : text) : outcome string Z :=
  if bool_decide (t = []) then Ok 0 else ok_or (parse_uint U128_MAX t) what.

Definition shell_amount_raw (input : text) : outcome string Z :=
  let text := trim input in
  fail_if bool_decide (text = []) with "amount is empty" in
  let '(whole_text, decimals_text) :=
    match split_once "."%char text with Some (w, d) => (w, d) | None => (text, []) end in
  fail_if (9 <? length decimals_text)%nat with "amount is finer than one raw unit" in
  fail_if contains "+"%char text with "a sign has no place in an amount" in
  let* whole := parse_part "the part before the point" whole_text in
  let* decimals := parse_part "the part after the point" decimals_text in
  let scale := 10 ^ (9 - Z.of_nat (length decimals_text)) in
  match u128_checked_mul whole SHELL_UNIT with
  | Some raw =>
      match u128_checked_mul decimals scale with
      | Some part => ok_or (u128_checked_add raw part) "amount is beyond the range of an amount"
      | None => Err "amount is beyond the range of an amount"
      end
  | None => Err "amount is beyond the range of an amount"
  end.

(** *** Lemmas on the decimals *)

Lemma strip_leading_zeros_app ds :
  exists n, ds = replicate n 0 ++ strip_leading_zeros ds.
Proof.
  induction ds as [|d ds [n IH]]; simpl; [by exists O|].
  destruct (Z.eqb_spec d 0) as [->|Hd]; [|by exists O].
  exists (S n). simpl. by f_equal.
Qed.

Lemma strip_trailing_zeros_app ds :
  exists n, ds = strip_trailing_zeros ds ++ replicate n 0.
Proof.
  destruct (strip_leading_zeros_app (rev ds)) as [n Hn]. exists n.
  unfold strip_trailing_zeros. rewrite <- (rev_involutive ds) at 1.
  rewrite Hn at 1. rewrite rev_app_distr. f_equal.
  rewrite rev_alt. apply reverse_replicate.
Qed.

Lemma dec_value_replicate n : dec_value (replicate n 0) = 0.
Proof. induction n as [|n IH]; simpl; [done|]. rewrite dec_value_cons, IH. lia. Qed.

(** The stripped decimals state the same fraction of a SHELL. *)
Lemma strip_trailing_zeros_value ds :
  length ds = 9%nat -> digits_ok ds ->
  digits_ok (strip_trailing_zeros ds) /\ (length (strip_trailing_zeros ds) <= 9)%nat /\
  dec_value (strip_trailing_zeros ds) *
    10 ^ (9 - Z.of_nat (length (strip_trailing_zeros ds))) = dec_value ds.
Proof.
  intros Hlen Hok. destruct (strip_trailing_zeros_app ds) as [n Hn].
  set (s := strip_trailing_zeros ds) in *. clearbody s. subst ds.
  rewrite length_app, length_replicate in Hlen. apply Forall_app in Hok as [Hok _].
  split_and!; [done|lia|].
  rewrite dec_value_app, dec_value_replicate, length_replicate.
  replace (9 - Z.of_nat (length s)) with (Z.of_nat n) by lia. lia.
Qed.

Lemma strip_trailing_zeros_nonzero ds :
  dec_value ds <> 0 -> strip_trailing_zeros ds <> [].
Proof.
  intros Hv Hnil. destruct (strip_trailing_zeros_app ds) as [n Hn].
  rewrite Hnil in Hn. simpl in Hn. subst ds. by rewrite dec_value_replicate in Hv.
Qed.

Lemma parse_part_digits what ds :
  digits_ok ds -> ds <> [] -> dec_value ds <= U128_MAX ->
  parse_part what (map digit_char ds) = Ok (dec_value ds).
Proof.
  intros. unfold parse_part. rewrite bool_decide_eq_false_2; [|by destruct ds].
  rewrite parse_uint_print by done. done.
Qed.

(** Reading a printed integer part followed by printed decimals. *)
Lemma shell_amount_raw_parts (w : list Z) (d : option (list Z)) :
  digits_ok w -> w <> [] -> dec_value w * SHELL_UNIT <= U128_MAX -> 0 <= dec_value w ->
  from_option digits_ok True d ->
  from_option (fun ds => ds <> [] /\ (length ds <= 9)%nat /\ 0 <= dec_value ds <= U128_MAX /\
    dec_value w * SHELL_UNIT + dec_value ds * 10 ^ (9 - Z.of_nat (length ds)) <= U128_MAX) True d ->
  shell_amount_raw (map digit_char w ++
    match d with Some ds => "."%char :: map digit_char ds | None => [] end)
  = Ok (dec_value w * SHELL_UNIT +
        from_option (fun ds => dec_value ds * 10 ^ (9 - Z.of_nat (length ds))) 0 d).
Proof.
  intros Hw Hwne Hwmax Hwpos Hd Hdd. unfold shell_amount_raw.
  assert (Hpt : is_digit "."%char = false) by reflexivity.
  assert (Hpl : is_digit "+"%char = false) by reflexivity.
  assert (Hwv : dec_value w <= U128_MAX) by (unfold SHELL_UNIT in *; lia).
  destruct d as [ds|]; simpl in Hd, Hdd.
  - destruct Hdd as (Hdne & Hdlen & Hdv & Hmax).
    rewrite trim_id.
    2:{ apply Forall_app; split; [by apply digits_no_ws|].
        constructor; [done|by apply digits_no_ws]. }
    rewrite bool_decide_eq_false_2 by (destruct w; done).
    rewrite split_once_app by by apply digits_not_contains.
    rewrite (length_map digit_char ds).
    destruct (Nat.ltb_spec 9 (length ds)); [lia|].
    rewrite contains_app, contains_cons, !digits_not_contains by done.
    rewrite bool_decide_eq_false_2 by done. simpl orb.
    rewrite !parse_part_digits by (done || lia). simpl.
    assert (Hs : 0 < 10 ^ (9 - Z.of_nat (length ds))) by (apply Z.pow_pos_nonneg; lia).
    assert (Hp : dec_value ds * 10 ^ (9 - Z.of_nat (length ds)) <= U128_MAX)
      by (unfold SHELL_UNIT in *; nia).
    unfold u128_checked_mul, u128_checked_add, checked_mul, checked_add.
    rewrite !(proj2 (Z.leb_le _ _)) by lia. done.
  - rewrite app_nil_r, trim_id by by apply digits_no_ws.
    rewrite bool_decide_eq_false_2 by (destruct w; done).
    rewrite split_once_none by by apply digits_not_contains. simpl length.
    rewrite digits_not_contains by done.
    rewrite parse_part_digits by (done || lia).
    unfold parse_part. rewrite bool_decide_eq_true_2 by done.
    unfold u128_checked_mul, u128_checked_add, checked_mul, checked_add.
    rewrite !Z.mul_0_l. rewrite !(proj2 (Z.leb_le _ _)); [done| |done|done]. lia.
Qed.

(** A SHELL figure the client prints is read back as the same raw amount:
    [shell_amount_raw] inverts [shell_amount] on every [u128]. *)
Theorem shell_amount_roundtrip (raw : Z) :
  in_u128 raw -> shell_amount_raw (shell_amount raw) = Ok raw.
Proof.
  intros Hraw. unfold shell_amount.
  pose proof (Z.div_mod raw SHELL_UNIT ltac:(done)) as Hdm.
  pose proof (Z.mod_pos_bound raw SHELL_UNIT ltac:(done)) as Hmod.
  assert (0 <= raw / SHELL_UNIT) by (apply Z.div_pos; [apply Hraw|done]).
  assert (Hw : raw / SHELL_UNIT < 10 ^ 39)
    by (apply Z.div_lt_upper_bound; unfold SHELL_UNIT; ilia).
  destruct (dec_digits_spec 39 (raw / SHELL_UNIT) []) as (W1 & W2 & W3);
    [simpl; lia|lia|constructor|].
  unfold dec_value in W3 at 2. simpl fold_left in W3. cbn [length] in W3.
  rewrite Z.pow_0_r in W3.
  destruct (Z.eqb_spec (raw mod SHELL_UNIT) 0) as [Hz|Hnz]; unfold print_u128.
  - pose proof (shell_amount_raw_parts (dec_digits 39 (raw / SHELL_UNIT) []) None) as P.
    cbn [from_option] in P. rewrite app_nil_r in P. rewrite P; try done; rewrite ?W3; try ilia.
    f_equal. lia.
  - destruct (fixed_digits_spec 9 (raw mod SHELL_UNIT)) as (F1 & F2 & F3); [lia|].
    change (10 ^ Z.of_nat 9) with SHELL_UNIT in F3.
    rewrite Z.mod_mod in F3 by done.
    destruct (strip_trailing_zeros_value _ F2 F1) as (S1 & S2 & S3).
    pose proof (strip_trailing_zeros_nonzero _ ltac:(by rewrite F3)) as S4.
    set (ds := strip_trailing_zeros (fixed_digits 9 (raw mod SHELL_UNIT))) in *.
    pose proof (shell_amount_raw_parts (dec_digits 39 (raw / SHELL_UNIT) []) (Some ds)) as P.
    cbn [from_option] in P.
    assert (0 < 10 ^ (9 - Z.of_nat (length ds))) by (apply Z.pow_pos_nonneg; lia).
    assert (Hds : 0 <= dec_value ds <= raw mod SHELL_UNIT) by nia.
    assert (raw mod SHELL_UNIT <= raw) by (apply Z.mod_le; [apply Hraw|done]).
    rewrite P; try done; rewrite ?W3, ?S3, ?F3; try ilia.
    + f_equal. lia.
    + split_and!; try done; ilia.
Qed.

Lemma shell_amount_roundtrip_witness :
  in_u128 6150000000 /\ shell_amount_raw (shell_amount 6150000000) = Ok 6150000000.
Proof.
  assert (H : in_u128 6150000000) by ilia.
  split; [exact H | exact (shell_amount_roundtrip 6150000000 H)].
Defined.
