(* ===== verification/Settle.v ===== *)
(** * Settle: fee, rebate and burn formulas (crates/core/src/settle.rs)

    Pure arithmetic on [Shell] ([u64]) amounts.  [mul_bps] keeps the source's
    widths: the product is a [u128], the result is cast with [as u64]. *)
From S2P Require Import Prelude Params.

(** [bps / 10000 * n * value], rounded down, cast to [u64]. *)
Definition mul_bps (bps n value : Z) : Z :=
  wrapping U64_MAX (wrapping U128_MAX (bps * n * value) / 10000).

Definition fee (delivered_ticks p : Z) (c : ProtocolConsts) : Z :=
  mul_bps (platform_fee_bps c) delivered_ticks p.

Definition rebate_rate_bps (n_clean_ticks : Z) (c : ProtocolConsts) : Z :=
  let slope := saturating_mul U64_MAX (rebate_slope_bps c) n_clean_ticks in
  Z.min slope (rebate_max_bps c).

Definition rebate (n_clean_ticks p : Z) (c : ProtocolConsts) : Z :=
  mul_bps (rebate_rate_bps n_clean_ticks c) n_clean_ticks p.

Definition net_burn (n_clean_ticks p : Z) (c : ProtocolConsts) : Z :=
  let rate := saturating_sub (platform_fee_bps c) (rebate_rate_bps n_clean_ticks c) in
  mul_bps rate n_clean_ticks p.

Record ContestedBurn : Type := mkContestedBurn {
  cb_buyer : Z;
  cb_buyer_refund : Z;
  cb_seller : Z;
  cb_seller_refund : Z
}.

#[global] Instance ContestedBurn_eq_dec : EqDecision ContestedBurn.
Proof. solve_decision. Defined.

Definition cb_total (b : ContestedBurn) : Z := cb_buyer b + cb_seller b.

Definition contested_burn (deposit seller_bond : Z) : ContestedBurn := {|
  cb_buyer := Z.min seller_bond deposit;
  cb_buyer_refund := 0;
  cb_seller := seller_bond;
  cb_seller_refund := 0 |}.

Definition probe_burn (probe_tick seller_bond : Z) : ContestedBurn :=
  let seller := Z.min probe_tick seller_bond in {|
  cb_buyer := probe_tick;
  cb_buyer_refund := 0;
  cb_seller := seller;
  cb_seller_refund := seller_bond - seller |}.

(** ** Lemmas *)

(** Inside the [u64] money range the formula is the exact floor. *)
Lemma mul_bps_exact bps n v :
  0 <= bps <= 10000 -> 0 <= n -> 0 <= v -> n * v <= U64_MAX ->
  mul_bps bps n v = bps * n * v / 10000.
Proof.
  intros Hb Hn Hv Hnv. unfold mul_bps.
  assert (0 <= n * v) by nia.
  assert (0 <= bps * n * v <= 10000 * (n * v)) by nia.
  rewrite (wrapping_small U128_MAX) by ilia.
  apply wrapping_small. split; [apply Z.div_pos; lia|].
  apply Z.div_le_upper_bound; lia.
Qed.

Lemma rebate_rate_bounds n c :
  consts_sane c -> 0 <= n -> 0 <= rebate_rate_bps n c <= rebate_max_bps c.
Proof.
  intros [(?&?&?&?&?&?&?&?) ?] Hn. unfold rebate_rate_bps, saturating_mul.
  assert (0 <= rebate_slope_bps c * n) by (unfold_ints; nia). ilia.
Qed.

(** The platform fee of a clean close splits into the seller's rebate and
    the net burn, up to one unit of rounding: nothing is created, the rebate
    never exceeds the fee, and a close worth at least 10000 units burns a
    strictly positive amount (the anti-wash rule). *)
Theorem fee_splits_into_rebate_and_burn (n p : Z) (c : ProtocolConsts) :
  consts_sane c -> 0 <= n -> 0 <= p -> n * p <= U64_MAX ->
  rebate n p c + net_burn n p c <= fee n p c <= rebate n p c + net_burn n p c + 1 /\
  rebate n p c <= fee n p c /\
  (10000 <= n * p -> 0 < net_burn n p c).
Proof.
  intros Hc Hn Hp Hnp. pose proof (rebate_rate_bounds n c Hc Hn) as Hr.
  destruct Hc as [_ Hc].
  unfold fee, rebate, net_burn, saturating_sub.
  set (r := rebate_rate_bps n c) in *. set (f := platform_fee_bps c) in *.
  rewrite (Z.max_l (f - r)) by lia. rewrite !mul_bps_exact by lia.
  assert (0 <= n * p) by nia.
  pose proof (div_add_floor (r * n * p) ((f - r) * n * p) 10000 ltac:(lia)) as Hs.
  replace (r * n * p + (f - r) * n * p) with (f * n * p) in Hs by ring.
  assert (Hu : f * n * p / 10000 <= r * n * p / 10000 + (f - r) * n * p / 10000 + 1).
  { pose proof (Z.div_mod (r * n * p) 10000). pose proof (Z.div_mod ((f - r) * n * p) 10000).
    pose proof (Z.mod_pos_bound (r * n * p) 10000). pose proof (Z.mod_pos_bound ((f - r) * n * p) 10000).
    apply Z.lt_succ_r, Z.div_lt_upper_bound; lia. }
  assert (0 <= (f - r) * n * p / 10000) by (apply Z.div_pos; nia).
  split_and!; [lia.. | intros Hbig].
  apply Z.lt_le_trans with (1 * 10000 / 10000); [reflexivity|].
  apply Z.div_le_mono; nia.
Qed.

Lemma fee_splits_into_rebate_and_burn_witness :
  rebate 5 1000000000 canonical + net_burn 5 1000000000 canonical
    <= fee 5 1000000000 canonical /\ 0 < net_burn 5 1000000000 canonical.
Proof.
  destruct (fee_splits_into_rebate_and_burn 5 1000000000 canonical canonical_sane
    ltac:(lia) ltac:(lia) ltac:(ilia)) as ((H1 & _) & _ & H2).
  split; [exact H1 | apply H2; lia].
Defined.

(** The two burn shapes.  A probe burn never touches more than the probe on
    either side and returns the rest of the bond; a contested burn takes the
    whole bond, clamps the buyer to his deposit, and is symmetric whenever the
    deposit covers the bond. *)
Theorem burns_are_bounded (deposit probe bond : Z) :
  0 <= deposit -> 0 <= probe -> 0 <= bond ->
  let pb := probe_burn probe bond in
  let cb := contested_burn deposit bond in
  (cb_seller pb + cb_seller_refund pb = bond /\ cb_seller pb <= probe /\ 0 <= cb_seller_refund pb /\
   cb_total pb <= 2 * probe) /\
  (cb_seller cb = bond /\ cb_seller_refund cb = 0 /\ cb_buyer cb <= deposit /\
   (bond <= deposit -> cb_buyer cb = cb_seller cb)).
Proof. intros. unfold pb, cb, probe_burn, contested_burn, cb_total. simpl. lia. Qed.

Lemma burns_are_bounded_witness :
  cb_total (probe_burn 5 10) <= 10 /\ cb_buyer (contested_burn 7 10) <= 7.
Proof.
  destruct (burns_are_bounded 7 5 10 ltac:(lia) ltac:(lia) ltac:(lia))
    as ((_ & _ & _ & H1) & (_ & _ & H2 & _)).
  split; [exact H1 | exact H2].
Defined.
