(* ===== verification/Address.v ===== *)
(** * Address: canonical [<dapp_id>::<account_id>] addresses
    (crates/core/src/address.rs)

    The one parse/format for every address a user reads, pastes or has
    persisted, and the serde adapters that rewrite address fields when a record
    goes through a file. *)
From Stdlib Require Import Ascii.
From S2P Require Import Prelude Text.

Definition DEXDO_DAPP_ID : text := replicate 63 "0"%char ++ ["4"%char].

(** Exactly 64 hex characters. *)
Definition is_hex64 (s : text) : bool := (length s =? 64)%nat && forallb is_hexdigit s.

Record CanonicalAddress : Type := mkAddress { dapp_id : text; account_id : text }.

Definition split_dapp (s : text) : option (text * text) := split_once2 ":"%char ":"%char s.
(** [s.contains("::")]. *)
Definition has_dapp (s : text) : bool :=
  match split_dapp s with Some _ => true | None => false end.

Definition parse (input : text) : outcome string CanonicalAddress :=
  let s := trim input in
  match split_dapp s with
  | Some (d, a) =>
      let d := trim d in
      let a := trim a in
      fail_if negb (is_hex64 d) || negb (is_hex64 a)
        with "canonical form takes two 64-hex halves" in
      Ok {| dapp_id := to_ascii_lowercase d; account_id := to_ascii_lowercase a |}
  | None =>
      match strip_prefix ["0"%char; ":"%char] s with
      | Some a =>
          fail_if negb (is_hex64 a) with "the legacy account must be exactly 64 hex chars" in
          Ok {| dapp_id := DEXDO_DAPP_ID; account_id := to_ascii_lowercase a |}
      | None => Err "expected canonical or legacy form"
      end
  end.

(** [Display] and [legacy]. *)
Definition fmt_address (a : CanonicalAddress) : text :=
  dapp_id a ++ ":"%char :: ":"%char :: account_id a.
Definition legacy (a : CanonicalAddress) : text := "0"%char :: ":"%char :: account_id a.

Definition to_canonical (s : text) : outcome string text :=
  let* a := parse s in Ok (fmt_address a).
Definition to_chain_param (s : text) : outcome string text :=
  let* a := parse s in Ok (legacy a).

Definition arg_to_chain_param (input : text) : outcome string text :=
  let raw := trim input in
  if has_dapp raw then to_chain_param raw
  else match split_once ":"%char raw with
       | Some (first, rest) =>
           let first := trim first in
           let rest := trim rest in
           if is_hex64 first
           then if negb (is_hex64 rest) then Err "a DApp id, not a workchain; not a 64-hex account id"
                else Err "a DApp id, not a workchain; join the two halves with ::"
           else Ok raw
       | None => Ok raw
       end.

Definition display (s : text) : text :=
  match parse s with Ok a => fmt_address a | _ => trim s end.

Definition display_self_dapp (s : text) : text :=
  let raw := trim s in
  match parse raw with
  | Ok a => if has_dapp raw then fmt_address a
            else account_id a ++ ":"%char :: ":"%char :: account_id a
  | _ => raw
  end.

(** [serde_canonical] and [serde_self_dapp]: what a field becomes in the file,
    and what it is read back as. *)
Definition serialize_canonical (s : text) : text := display s.
Definition serialize_self_dapp (s : text) : text := display_self_dapp s.
Definition deserialize_address (raw : text) : text :=
  match parse raw with Ok a => legacy a | _ => raw end.

(** A field written and read again. *)
Definition reload_canonical (s : text) : text := deserialize_address (serialize_canonical s).
Definition reload_self_dapp (s : text) : text := deserialize_address (serialize_self_dapp s).

(** ** Lemmas *)

Definition lower_hex (c : ascii) : bool := is_digit c || ((97 <=? code c) && (code c <=? 102)).
(** A half as [parse] leaves it. *)
Definition half_ok (t : text) : Prop := length t = 64%nat /\ Forall (fun c => lower_hex c = true) t.
Definition address_ok (a : CanonicalAddress) : Prop := half_ok (dapp_id a) /\ half_ok (account_id a).

Lemma lower_hex_facts c :
  lower_hex c = true ->
  is_hexdigit c = true /\ is_ws c = false /\ c <> ":"%char /\ lower c = c.
Proof.
  unfold lower_hex, is_hexdigit, is_ws, lower, is_digit. intros H.
  split_and!; [lia | lia | intros ->; vm_compute in H; done |].
  by replace ((65 <=? code c) && (code c <=? 90)) with false by lia.
Qed.

Lemma lower_of_hexdigit c : is_hexdigit c = true -> lower_hex (lower c) = true.
Proof. destruct c as [[] [] [] [] [] [] [] []]; vm_compute; intros; congruence. Qed.

Lemma half_is_hex64 t : half_ok t -> is_hex64 t = true.
Proof.
  intros [Hl Hf]. unfold is_hex64. rewrite Hl. simpl. apply forallb_forall.
  intros c Hc. apply list_elem_of_In in Hc. rewrite Forall_forall in Hf.
  by apply lower_hex_facts, Hf.
Qed.
Lemma half_trim t : half_ok t -> trim t = t.
Proof. intros [_ Hf]. apply trim_id. eapply Forall_impl; [done|]. intros c Hc. by apply lower_hex_facts. Qed.
Lemma half_lower t : half_ok t -> to_ascii_lowercase t = t.
Proof.
  intros [_ Hf]. induction Hf as [|c t Hc _ IH]; simpl; [done|].
  rewrite IH. f_equal. by apply lower_hex_facts.
Qed.
Lemma half_no_colon t : half_ok t -> Forall (fun c => c <> ":"%char) t.
Proof. intros [_ Hf]. eapply Forall_impl; [done|]. intros c Hc. by apply lower_hex_facts. Qed.
Lemma half_no_ws t : half_ok t -> Forall (fun c => is_ws c = false) t.
Proof. intros [_ Hf]. eapply Forall_impl; [done|]. intros c Hc. by apply lower_hex_facts. Qed.

Lemma hex64_lower_half t : is_hex64 t = true -> half_ok (to_ascii_lowercase t).
Proof.
  unfold is_hex64. rewrite andb_true_iff, Nat.eqb_eq, forallb_forall. intros [Hl Hf].
  unfold to_ascii_lowercase. split; [by rewrite length_map|]. apply Forall_map, Forall_forall.
  intros c Hc. apply lower_of_hexdigit, Hf, list_elem_of_In, Hc.
Qed.

Lemma dexdo_dapp_half : half_ok DEXDO_DAPP_ID.
Proof. split; [reflexivity|]. apply Forall_forall. intros c Hc.
  unfold DEXDO_DAPP_ID in Hc. apply elem_of_app in Hc as [Hc|Hc].
  - apply elem_of_replicate in Hc as [-> _]. reflexivity.
  - apply list_elem_of_singleton in Hc as ->. reflexivity.
Qed.

Lemma split_dapp_app a b :
  Forall (fun c => c <> ":"%char) a -> split_dapp (a ++ ":"%char :: ":"%char :: b) = Some (a, b).
Proof.
  intros Ha. unfold split_dapp. induction Ha as [|c a Hc _ IH]; [done|].
  cbn [app split_once2]. destruct (a ++ ":"%char :: ":"%char :: b) as [|e t] eqn:E;
    [by destruct a|].
  rewrite (bool_decide_eq_false_2 (":"%char = c)) by congruence. simpl andb. by rewrite IH.
Qed.

Lemma split_dapp_none t : Forall (fun c => c <> ":"%char) t -> split_dapp t = None.
Proof.
  unfold split_dapp. induction 1 as [|c t Hc Ht IH]; [done|]. cbn [split_once2].
  destruct t as [|e t']; [done|].
  rewrite (bool_decide_eq_false_2 (":"%char = c)) by congruence. simpl andb. by rewrite IH.
Qed.

Lemma fmt_no_ws a : address_ok a -> Forall (fun c => is_ws c = false) (fmt_address a).
Proof.
  intros [Hd Ha]. unfold fmt_address. apply Forall_app. split; [by apply half_no_ws|].
  repeat constructor. by apply half_no_ws.
Qed.
Lemma legacy_no_ws a : half_ok (account_id a) -> Forall (fun c => is_ws c = false) (legacy a).
Proof. intros Ha. unfold legacy. repeat constructor. by apply half_no_ws. Qed.

Lemma parse_canonical d a :
  half_ok d -> half_ok a ->
  parse (d ++ ":"%char :: ":"%char :: a) = Ok {| dapp_id := d; account_id := a |}.
Proof.
  intros Hd Ha. unfold parse.
  rewrite trim_id by apply (fmt_no_ws {| dapp_id := d; account_id := a |} (conj Hd Ha)).
  rewrite split_dapp_app by by apply half_no_colon.
  rewrite !half_trim, !half_is_hex64 by done. simpl. by rewrite !half_lower.
Qed.

Lemma split_dapp_legacy a : half_ok a -> split_dapp ("0"%char :: ":"%char :: a) = None.
Proof.
  intros Ha. pose proof (split_dapp_none _ (half_no_colon _ Ha)) as Hn.
  destruct a as [|c a']; [done|].
  assert (Hc : c <> ":"%char) by (apply half_no_colon in Ha; by inversion Ha).
  unfold split_dapp in *.
  change (split_once2 ":" ":" ("0"%char :: ":"%char :: c :: a')) with
    (match (if bool_decide (":"%char = c) then Some ([], a')
            else match split_once2 ":" ":" (c :: a') with
                 | Some (x, y) => Some (":"%char :: x, y) | None => None end)
     with Some (x, y) => Some ("0"%char :: x, y) | None => None end).
  by rewrite bool_decide_eq_false_2, Hn by congruence.
Qed.

Lemma parse_legacy a :
  half_ok a -> parse ("0"%char :: ":"%char :: a) = Ok {| dapp_id := DEXDO_DAPP_ID; account_id := a |}.
Proof.
  intros Ha. unfold parse.
  rewrite trim_id by apply (legacy_no_ws {| dapp_id := []; account_id := a |} Ha).
  rewrite split_dapp_legacy by done. cbn [strip_prefix].
  rewrite !bool_decide_eq_true_2 by done. rewrite half_is_hex64 by done. simpl.
  by rewrite half_lower.
Qed.

Lemma parse_wf s a : parse s = Ok a -> address_ok a.
Proof.
  unfold parse. intros H. destruct (split_dapp (trim s)) as [[d x]|].
  - destruct (is_hex64 (trim d)) eqn:Ed, (is_hex64 (trim x)) eqn:Ex; simpl in H; try done.
    injection H as <-. split; by apply hex64_lower_half.
  - destruct (strip_prefix _ _) as [x|]; [|done].
    destruct (is_hex64 x) eqn:Ex; simpl in H; [|done]. injection H as <-.
    split; [apply dexdo_dapp_half | by apply hex64_lower_half].
Qed.

Lemma parse_trim s : parse (trim s) = parse s.
Proof. unfold parse. by rewrite trim_trim. Qed.

Lemma reload_self_dapp_ok s a : parse s = Ok a -> reload_self_dapp s = legacy a.
Proof.
  intros Hp. pose proof (parse_wf _ _ Hp) as [Hd Ha].
  unfold reload_self_dapp, serialize_self_dapp, display_self_dapp, deserialize_address.
  rewrite parse_trim, Hp. destruct (has_dapp (trim s)).
  - unfold fmt_address. by rewrite parse_canonical.
  - by rewrite parse_canonical.
Qed.
Lemma reload_self_dapp_err s : is_ok (parse s) = false -> reload_self_dapp s = trim s.
Proof.
  intros Hp. unfold reload_self_dapp, serialize_self_dapp, display_self_dapp, deserialize_address.
  destruct (parse s) eqn:E; [done| |]; by rewrite !parse_trim, E, ?parse_trim, ?E.
Qed.
Lemma reload_canonical_ok s a : parse s = Ok a -> reload_canonical s = legacy a.
Proof.
  intros Hp. pose proof (parse_wf _ _ Hp) as [Hd Ha].
  unfold reload_canonical, serialize_canonical, display, deserialize_address.
  rewrite Hp. unfold fmt_address. by rewrite parse_canonical.
Qed.

(** Every address the parser accepts prints to a canonical form that parses
    back to the same address, and its legacy form names the same account: the
    DApp id is the only part the legacy spelling forgets. *)
Theorem address_roundtrip (s : text) (a : CanonicalAddress) :
  parse s = Ok a ->
  parse (fmt_address a) = Ok a /\
  to_canonical (fmt_address a) = Ok (fmt_address a) /\
  parse (legacy a) = Ok {| dapp_id := DEXDO_DAPP_ID; account_id := account_id a |} /\
  to_chain_param (fmt_address a) = to_chain_param (legacy a).
Proof.
  intros Hp. pose proof (parse_wf _ _ Hp) as [Hd Ha].
  assert (H1 : parse (fmt_address a) = Ok a).
  { unfold fmt_address. rewrite parse_canonical by done. by destruct a. }
  assert (H2 : parse (legacy a) = Ok {| dapp_id := DEXDO_DAPP_ID; account_id := account_id a |})
    by by apply parse_legacy.
  split_and!; [done | | done |]; unfold to_canonical, to_chain_param; by rewrite H1, ?H2.
Qed.

Definition sample_legacy : text := "0"%char :: ":"%char :: replicate 64 "A"%char.

Lemma address_roundtrip_witness :
  parse (fmt_address {| dapp_id := DEXDO_DAPP_ID; account_id := replicate 64 "a"%char |})
  = Ok {| dapp_id := DEXDO_DAPP_ID; account_id := replicate 64 "a"%char |}.
Proof.
  apply (address_roundtrip sample_legacy). vm_compute. reflexivity.
Defined.

(** A TokenContract field that went through a file once is a fixed point of
    the file: reloading it again changes nothing, and it is the account-only
    form whenever it was an address in any accepted spelling. *)
Theorem reload_self_dapp_idempotent (s : text) :
  reload_self_dapp (reload_self_dapp s) = reload_self_dapp s /\
  (forall a, parse s = Ok a -> reload_self_dapp s = legacy a).
Proof.
  split; [|apply reload_self_dapp_ok]. destruct (parse s) as [a|e|] eqn:Hp.
  - rewrite (reload_self_dapp_ok s a Hp). pose proof (parse_wf _ _ Hp) as [Hd Ha].
    apply (reload_self_dapp_ok _ _ (parse_legacy _ Ha)).
  - rewrite (reload_self_dapp_err s) by by rewrite Hp.
    rewrite reload_self_dapp_err by by rewrite parse_trim, Hp. apply trim_trim.
  - rewrite (reload_self_dapp_err s) by by rewrite Hp.
    rewrite reload_self_dapp_err by by rewrite parse_trim, Hp. apply trim_trim.
Qed.

(** ** Case

    The parser reads an address in any case as the same one. *)
Lemma lower_facts c :
  is_ws (lower c) = is_ws c /\ is_hexdigit (lower c) = is_hexdigit c /\ lower (lower c) = lower c /\
  (forall d, d = ":"%char \/ d = "0"%char -> bool_decide (d = lower c) = bool_decide (d = c)).
Proof.
  destruct c as [[] [] [] [] [] [] [] []]; (split_and!; [reflexivity..|]); intros d [-> | ->]; reflexivity.
Qed.
#[local] Abbreviation lowered := to_ascii_lowercase.
Lemma lowered_trim_start t : trim_start (lowered t) = lowered (trim_start t).
Proof. induction t as [|c t IH]; [done|]. cbn. destruct (lower_facts c) as (-> & _). by destruct (is_ws c). Qed.
Lemma lowered_trim t : trim (lowered t) = lowered (trim t).
Proof. unfold trim. rewrite lowered_trim_start. unfold lowered. rewrite <- map_rev. fold lowered. by rewrite lowered_trim_start, map_rev. Qed.
Lemma lowered_hex64 t : is_hex64 (lowered t) = is_hex64 t.
Proof.
  unfold is_hex64, lowered. rewrite length_map. f_equal. induction t as [|c t IH]; [done|]. cbn.
  destruct (lower_facts c) as (_ & -> & _). by rewrite IH.
Qed.
Lemma lowered_twice t : lowered (lowered t) = lowered t.
Proof. unfold lowered. rewrite map_map. apply map_ext. intros c. by destruct (lower_facts c) as (_ & _ & ? & _). Qed.
Lemma split_once2_cons c1 c2 d e t :
  split_once2 c1 c2 (d :: e :: t) =
  if bool_decide (c1 = d) && bool_decide (c2 = e) then Some ([], t)
  else match split_once2 c1 c2 (e :: t) with Some (a, b) => Some (d :: a, b) | None => None end.
Proof. reflexivity. Qed.
Lemma lowered_split t : split_dapp (lowered t) = option_map (fun '(a, b) => (lowered a, lowered b)) (split_dapp t).
Proof.
  unfold split_dapp. induction t as [|c t IH]; [done|]. destruct t as [|d t]; [done|].
  change (lowered (c :: d :: t)) with (lower c :: lower d :: lowered t).
  change (lowered (d :: t)) with (lower d :: lowered t) in IH. rewrite !split_once2_cons.
  destruct (lower_facts c) as (_ & _ & _ & Hc), (lower_facts d) as (_ & _ & _ & Hd).
  rewrite Hc, Hd by by left. destruct (_ && _); [done|]. rewrite IH. by destruct (split_once2 _ _ (d :: t)) as [[a b]|].
Qed.
Lemma lowered_prefix t : strip_prefix ["0"%char; ":"%char] (lowered t) = option_map lowered (strip_prefix ["0"%char; ":"%char] t).
Proof.
  destruct t as [|c t]; [done|]. destruct (lower_facts c) as (_ & _ & _ & Hc). cbn. rewrite Hc by by right.
  destruct (bool_decide _); [|done]. destruct t as [|d t]; [done|]. destruct (lower_facts d) as (_ & _ & _ & Hd). cbn.
  rewrite Hd by by left. by destruct (bool_decide _).
Qed.
Lemma parse_lowered t : parse (lowered t) = parse t.
Proof.
  unfold parse. rewrite lowered_trim, lowered_split. destruct (split_dapp (trim t)) as [[d a]|]; cbn [option_map].
  - by rewrite !lowered_trim, !lowered_hex64, !lowered_twice.
  - rewrite lowered_prefix. destruct (strip_prefix _ (trim t)) as [a|]; [|done]. cbn [option_map].
    by rewrite lowered_hex64, lowered_twice.
Qed.
(** What a file gives back for two spellings of one text is one text up to case. *)
Lemma reload_case s t :
  lowered s = lowered t -> lowered (reload_self_dapp s) = lowered (reload_self_dapp t).
Proof.
  intros Hst. assert (parse s = parse t) as Hp by by rewrite <- (parse_lowered s), Hst, parse_lowered.
  destruct (parse s) as [a|e|] eqn:Hs.
  - by rewrite (reload_self_dapp_ok s a Hs), (reload_self_dapp_ok t a (eq_sym Hp)).
  - rewrite (reload_self_dapp_err s), (reload_self_dapp_err t) by by rewrite <- ?Hp, ?Hs. by rewrite <- !lowered_trim, Hst.
  - rewrite (reload_self_dapp_err s), (reload_self_dapp_err t) by by rewrite <- ?Hp, ?Hs. by rewrite <- !lowered_trim, Hst.
Qed.
