(* ===== verification/MarketTypes.v ===== *)
(** * MarketTypes: the market's data types (crates/core/src/market/types.rs)

    Offers, orders, matches, deal state as the getters report it, the seller's
    match-watch cursor, and the pure predicates and limits defined on them.
    Record fields carry a prefix where Rust reuses a field name. *)
From S2P Require Import Prelude Text Params.
From Stdlib Require Import Ascii.

Abbreviation TokenContract := string (only parsing).

(** [NotePubkey] (crates/core/src/note.rs): two 32-byte keys, as byte values. *)
Record NotePubkey : Type := mkNotePubkey { np_x : list Z; np_ed : list Z }.
#[global] Instance NotePubkey_eq_dec : EqDecision NotePubkey.
Proof. solve_decision. Defined.

Definition hex_digit (d : Z) : ascii :=
  if d <? 10 then ascii_of_N (Z.to_N (48 + d)) else ascii_of_N (Z.to_N (87 + d)).
Definition hex_byte (b : Z) : text := [hex_digit (b / 16); hex_digit (b mod 16)].
(** [note_id_hex] (crates/core/src/market/mod.rs). *)
Definition note_id_hex (pk : NotePubkey) : string := of_text (concat (map hex_byte (np_ed pk))).

(** [ChainError]; a message is the static text of the source's [format!]. *)
Inductive ChainError : Type :=
| NoMatch (tc : TokenContract)
| NoStream (tc : TokenContract)
| EndpointsFile (msg : string)
| Chain (msg : string)
| Transport (msg : string)
| Contract (msg : string)
| DuplicateSell (msg : string)
| AmbiguousSubmit (msg : string)
| MoneySubmitPreparation (msg : string)
| MoneySubmitRejected (msg : string)
| Limit (msg : string)
| ClaimHighWaterResync (attempted on_chain : Z).

(** ** Order flags *)
Module flags.
Definition IOC : Z := 1.
Definition FOK : Z := 2.
Definition MARKET : Z := 4.
Definition POST_ONLY : Z := 8.
Definition TEE : Z := 16.
Definition AON : Z := 32.
Definition SUBSCRIPTION : Z := 64.
Definition DEAL_MASK : Z := Z.lor TEE SUBSCRIPTION.
End flags.

(** [f & bit != 0] and [f & !mask] on a [u8]. *)
Definition has_flag (f bit : Z) : bool := negb (Z.land f bit =? 0).
Definition flags_outside (f mask : Z) : Z := Z.land f (U8_MAX - mask).

(** ** Offers and orders *)
Record SellOffer : Type := mkSellOffer {
  so_price_per_tick : Z;
  so_max_ticks : Z;
  so_token_contract : TokenContract;
  so_flags : Z
}.

Inductive SellOfferOutcome : Type := Rested (order_id : Z) | Matched.

Record OfferListing : Type := mkOfferListing {
  ol_seller_id : string;
  ol_token_contract : TokenContract;
  ol_price_per_tick : Z;
  ol_max_ticks : Z
}.

Record OrderBookOrder : Type := mkOrder {
  ob_order_id : Z;
  ob_owner_note : string;
  ob_token_contract : option TokenContract;
  ob_is_buy : bool;
  ob_price_per_tick : Z;
  ob_ticks : Z;
  ob_escrow : Z;
  ob_deadline : Z;
  ob_flags : Z;
  ob_timestamp : Z
}.

Definition order_deadline_is_live (is_buy : bool) (deadline now : Z) : bool :=
  if deadline =? 0 then is_buy else now <? deadline.

Definition is_resting_ask (o : OrderBookOrder) : bool :=
  negb (ob_is_buy o) && bool_decide (is_Some (ob_token_contract o)) && (0 <? ob_ticks o).
Definition is_live_resting_ask_at (o : OrderBookOrder) (now : Z) : bool :=
  is_resting_ask o && order_deadline_is_live (ob_is_buy o) (ob_deadline o) now.

Definition ensure_pre_submit_quote_unchanged
    (quoted_order : option OrderBookOrder) (selected : OrderBookOrder) : outcome ChainError unit :=
  let same q :=
    (ob_order_id q =? ob_order_id selected)
    && bool_decide (ob_token_contract q = ob_token_contract selected)
    && (ob_price_per_tick q =? ob_price_per_tick selected)
    && (ob_ticks q =? ob_ticks selected)
    && (ob_deadline q =? ob_deadline selected)
    && (ob_flags q =? ob_flags selected) in
  if from_option same false quoted_order then Ok tt
  else Err (Chain "buyer pre-submit matcher head differs from the rendered quote").

Record OrderBookStats : Type := mkStats {
  st_next_order_id : Z; st_order_count : Z; st_executed_notional : Z; st_executed_ticks : Z }.
Record OrderBookSnapshot : Type := mkBook {
  bk_frame_model : string;
  bk_model_hash : string;
  bk_order_book : string;
  bk_stats : option OrderBookStats;
  bk_orders : list OrderBookOrder
}.
Definition book_active (b : OrderBookSnapshot) : bool := bool_decide (is_Some (bk_stats b)).
Definition resting_asks (b : OrderBookSnapshot) : list OrderBookOrder :=
  List.filter is_resting_ask (bk_orders b).
Definition live_resting_asks_at (b : OrderBookSnapshot) (now : Z) : list OrderBookOrder :=
  List.filter (fun o => is_live_resting_ask_at o now) (bk_orders b).

Record QuoteFill : Type := mkQuoteFill {
  qf_order_id : Z; qf_token_contract : TokenContract; qf_ticks : Z;
  qf_price_per_tick : Z; qf_cost_with_fee : Z }.
Record ExecutableQuote : Type := mkQuote {
  eq_filled_ticks : Z; eq_total_with_fee : Z; eq_complete : bool; eq_fills : list QuoteFill }.
Record MatchedFill : Type := mkMatchedFill {
  mf_order_id : Z; mf_token_contract : TokenContract; mf_ticks : Z; mf_price_per_tick : Z }.
Record Match : Type := mkMatch {
  m_token_contract : TokenContract; m_buyer_pubkey : NotePubkey; m_price_per_tick : Z }.

(** ** The deal shape *)
Record DealSubscription : Type := mkSub {
  deal_flags : Z;
  sub_weeks : Z;
  week_index : Z;
  tokens_per_week : Z;
  funded_tokens : Z;
  tokens_paid : Z;
  period_start : Z;
  week_base_tokens : Z
}.

Definition is_subscription (s : DealSubscription) : bool := negb (sub_weeks s =? 0).
Definition is_tee (s : DealSubscription) : bool := has_flag (deal_flags s) flags.TEE.
Definition weeks_remaining (s : DealSubscription) : Z :=
  saturating_sub (sub_weeks s) (week_index s).
Definition recorded_week_expires_at (s : DealSubscription) : Z :=
  if negb (is_subscription s) || (sub_weeks s <=? week_index s) then U64_MAX
  else saturating_add U64_MAX (period_start s)
         (wrapping U64_MAX (saturating_add U64_MAX (week_index s) 1 * SUB_WEEK_LEN)).
Definition term_is_over (s : DealSubscription) : bool :=
  is_subscription s && (sub_weeks s <=? week_index s).

(** ** Deal state as [getState] reports it *)
Record DealChainState : Type := mkDealState {
  ds_funded : bool;
  ds_opened : bool;
  ds_probe_accepted : bool;
  ds_disputed : bool;
  ds_deposit : Z;
  ds_finalized_owed : Z;
  ds_tokens_final : Z;
  ds_tokens_pending : Z;
  ds_probe_tick : Z;
  ds_funded_time : option Z;
  ds_probe_time : Z;
  ds_last_claim_time : Z;
  ds_dispute_time : Z
}.

Definition contested_tokens (s : DealChainState) : Z :=
  saturating_sub (ds_tokens_pending s) (ds_tokens_final s).
Definition ds_on_probe (s : DealChainState) : bool := ds_opened s && negb (ds_probe_accepted s).
Definition is_stopped (s : DealChainState) : bool :=
  ds_funded s && negb (ds_opened s) && negb (ds_disputed s)
  && (ds_deposit s =? 0) && (ds_probe_tick s =? 0).

(** [used_reason]: the fields that are no longer at their constructor value,
    each with its value; [None] when the deal slot is unused. *)
Definition used_reason (s : DealChainState) : option (list (string * Z)) :=
  let flag (b : bool) (name : string) : list (string * Z) := if b then [(name, 1)] else [] in
  let amount (name : string) (v : Z) : list (string * Z) := if 0 <? v then [(name, v)] else [] in
  let used :=
    flag (ds_opened s) "opened" ++ flag (ds_funded s) "funded"
    ++ flag (ds_disputed s) "disputed" ++ flag (ds_probe_accepted s) "probeAccepted"
    ++ amount "deposit" (ds_deposit s) ++ amount "probeTick" (ds_probe_tick s)
    ++ amount "finalizedOwed" (ds_finalized_owed s) ++ amount "tokensFinal" (ds_tokens_final s)
    ++ amount "tokensPending" (ds_tokens_pending s)
    ++ match ds_funded_time s with Some t => [("fundedTime", t)] | None => [] end
    ++ amount "probeTime" (ds_probe_time s) ++ amount "lastClaimTime" (ds_last_claim_time s)
    ++ amount "disputeTime" (ds_dispute_time s) in
  match used with [] => None | _ => Some used end.

(** [subscription_claim_cap_at]. *)
Definition subscription_claim_cap_at (state : DealChainState) (sub : DealSubscription)
    : outcome string Z :=
  fail_if negb (is_subscription sub) with "deal is not a subscription" in
  if term_is_over sub then Ok (ds_tokens_pending state)
  else match u128_checked_add (week_base_tokens sub) (tokens_per_week sub) with
       | Some cap => Ok (Z.min cap (funded_tokens sub))
       | None => Err "subscription weekBaseTokens + tokensPerWeek overflows uint128"
       end.
Definition subscription_current_week_headroom (state : DealChainState) (sub : DealSubscription)
    : outcome string Z :=
  let* cap := subscription_claim_cap_at state sub in
  ok_or (checked_sub cap (ds_tokens_pending state))
    "subscription cumulative claim exceeds the recorded week claim ceiling".

Record DealOfferLatch : Type := mkLatch { offer_posted : bool }.
Record DealSellerBond : Type := mkSellerBond {
  sb_bond_funded : bool; sb_bond_held : Z; sb_bond_required : Z }.
Record DealBuyerBond : Type := mkBuyerBond { bb_bond_held : Z; bb_bond_required : Z }.

Record DealChainSnapshot : Type := mkSnapshot {
  sn_account_code_hash : string;
  sn_account_boc_hash : string;
  sn_state : DealChainState;
  sn_subscription : DealSubscription;
  sn_seller_bond : DealSellerBond;
  sn_buyer_bond : DealBuyerBond
}.

Definition validate_cross_getter_invariants (s : DealChainSnapshot) : outcome string unit :=
  let state := sn_state s in
  let sub := sn_subscription s in
  let seller := sn_seller_bond s in
  let buyer := sn_buyer_bond s in
  fail_if ds_funded state && (funded_tokens sub <? TICK_SIZE * 2)
    with "funded deal requires at least two ticks" in
  fail_if sb_bond_required seller <? sb_bond_held seller
    with "getSellerBond() bondHeld exceeds bondRequired" in
  fail_if negb (sb_bond_funded seller) && negb (sb_bond_held seller =? 0)
    with "getSellerBond() reports bondFunded=false with non-zero bondHeld" in
  fail_if ds_opened state && negb (ds_funded state)
    with "getState() reports opened=true with funded=false" in
  fail_if ds_opened state
      && (negb (sb_bond_funded seller) || (sb_bond_required seller =? 0)
          || negb (sb_bond_held seller =? sb_bond_required seller))
    with "opened deal requires a fully funded non-zero seller bond" in
  let expected := if is_subscription sub then sb_bond_required seller else 0 in
  fail_if negb (bb_bond_required buyer =? expected)
    with "getBuyerBond() bondRequired is not the shape the getter can report" in
  fail_if sb_bond_required seller <? bb_bond_held buyer
    with "getBuyerBond() bondHeld exceeds the deal's bond size" in
  if negb (is_subscription sub) then Ok tt
  else
    let live_funded := ds_funded state && negb (is_stopped state) in
    fail_if live_funded && ((bb_bond_required buyer =? 0)
                            || negb (bb_bond_held buyer =? bb_bond_required buyer))
      with "live funded subscription requires a fully held non-zero buyer bond" in
    Ok tt.

Definition snapshot_buyer_locked (s : DealChainSnapshot) : outcome string Z :=
  match u128_checked_add (ds_deposit (sn_state s)) (ds_probe_tick (sn_state s)) with
  | Some total => ok_or (u128_checked_add total (bb_bond_held (sn_buyer_bond s)))
                    "deposit + probeTick + bondHeld exceeds uint128"
  | None => Err "deposit + probeTick + bondHeld exceeds uint128"
  end.

(** ** Settlement receipts *)
Inductive SettlementAction : Type :=
| BuyerStop | SellerStop | Dispute | ReleaseDispute | ResolveDisputeTimeout.
Inductive SettlementActionEvent : Type :=
| ProbeBurned (buyer : string) (burned_probe burned_bond refund_to_buyer : Z)
| StreamStopped (buyer : string) (to_seller refund_to_buyer : Z)
| StreamDisputed (buyer : string) (at_ : Z)
| DisputeResolved (to_seller refund_to_buyer : Z) (released : bool).
Record SettlementActionBondState : Type := mkBonds {
  seller_bond_held : Z; seller_bond_required : Z;
  buyer_bond_held : Z; buyer_bond_required : Z }.
Record SettlementActionPostState : Type := mkPost {
  ps_tokens_final : Z; ps_tokens_pending : Z;
  ps_seller_bond_held : Z; ps_seller_bond_required : Z;
  ps_buyer_bond_held : Z; ps_buyer_bond_required : Z;
  ps_opened : bool; ps_disputed : bool }.
Record SettlementActionReceipt : Type := mkReceipt {
  sr_token_contract : TokenContract;
  sr_action : SettlementAction;
  sr_message_id : string;
  sr_created_at : Z;
  sr_event : SettlementActionEvent;
  sr_pre_bonds : SettlementActionBondState;
  sr_post_state : option SettlementActionPostState
}.
Inductive BuyerStopTerminalFact : Type := SubmittedStop | AlreadyClosed | UnknownCloser.
Record BuyerStopTerminalReceipt : Type := mkTerminal {
  bt_token_contract : TokenContract;
  bt_fact : BuyerStopTerminalFact;
  bt_stop_submitted : bool;
  bt_message_id : string;
  bt_created_at : Z;
  bt_event : SettlementActionEvent;
  bt_pre_bonds : option SettlementActionBondState;
  bt_post_state : option SettlementActionPostState
}.
Definition unknown_closer (r : SettlementActionReceipt) : BuyerStopTerminalReceipt := {|
  bt_token_contract := sr_token_contract r;
  bt_fact := UnknownCloser;
  bt_stop_submitted := true;
  bt_message_id := sr_message_id r;
  bt_created_at := sr_created_at r;
  bt_event := sr_event r;
  bt_pre_bonds := Some (sr_pre_bonds r);
  bt_post_state := sr_post_state r |}.

(** ** Snapshots and views *)
Record StreamSnapshot : Type := mkStreamSnapshot {
  ss_seller_locked : Z;
  ss_buyer_locked : Z;
  ss_buyer_lead : Z;
  ss_tokens_final : Z;
  ss_seller_received : Z;
  ss_buyer_refunded : Z;
  ss_burned : Z;
  ss_closed : bool
}.
Inductive DealRole : Type := Buyer | Seller.
#[global] Instance DealRole_eq_dec : EqDecision DealRole.
Proof. solve_decision. Defined.
Record DealView : Type := mkDealView {
  dv_token_contract : TokenContract;
  dv_role : DealRole;
  dv_counterparty : option string;
  dv_price_per_tick : Z;
  dv_model : option string;
  dv_snapshot : option StreamSnapshot
}.
Record NoteSnapshot : Type := mkNoteSnapshot {
  ns_note_id : string; ns_offers : list OfferListing; ns_deals : list DealView; ns_exposure : Z }.
Record TreeSnapshot : Type := mkTreeSnapshot {
  ts_note_ids : list string; ts_offers : list OfferListing; ts_deals : list DealView;
  ts_exposure : Z }.
Inductive MatchedTokenContractStatus : Type :=
| Opened
| FundedNeverOpened (funded_time cleanup_after_unix : option Z) (cleanup_ready : bool)
    (remaining_secs : option Z).
Definition UNKNOWN_MODEL : string := "(unknown)".
Record CounterpartyTally : Type := mkTally {
  ct_counterparty : option string; ct_tokens : Z; ct_money : Z; ct_locked : Z; ct_burned : Z }.
Record ModelBreakdown : Type := mkBreakdown {
  mb_model : string; mb_role : DealRole; mb_counterparties : list CounterpartyTally;
  mb_tokens : Z; mb_money : Z; mb_locked : Z; mb_burned : Z }.
Inductive DealAnomaly : Type :=
| LockedNoMatch (locked : Z)
| LockedAfterClose (locked : Z)
| BuyerLockExceedsTwoTicks (buyer_lead ceiling : Z).

(** ** The seller's match-watch cursor *)
Record MatchWatchCursor : Type := mkCursor {
  since_unix : Z;
  last_seen_created_at : option Z;
  seen_token_contracts_at_last_seen : list TokenContract
}.
Definition cursor_new (since : Z) : MatchWatchCursor :=
  {| since_unix := since; last_seen_created_at := None; seen_token_contracts_at_last_seen := [] |}.

Definition tc_same (a b : TokenContract) : bool := eq_ignore_ascii_case (to_text a) (to_text b).

Definition has_seen (c : MatchWatchCursor) (created_at : Z) (tc : TokenContract) : bool :=
  if created_at <? since_unix c then true
  else match last_seen_created_at c with
       | Some last =>
           if created_at <? last then true
           else if created_at =? last
                then existsb (fun t => tc_same t tc) (seen_token_contracts_at_last_seen c)
                else false
       | None => false
       end.

(** One event of [record_seen_batch]'s loop: the running maximum and the
    contracts seen at it. *)
Definition record_one (since : Z) (acc : option Z * list TokenContract)
    (ev : Z * TokenContract) : option Z * list TokenContract :=
  let '(max_seen, at_max) := acc in
  let '(created_at, tc) := ev in
  if created_at <? since then acc
  else match max_seen with
       | Some max =>
           if created_at <? max then acc
           else if created_at =? max
                then if existsb (fun t => tc_same t tc) at_max then acc
                     else (max_seen, at_max ++ [tc])
                else (Some created_at, [tc])
       | None => (Some created_at, [tc])
       end.

(** [Vec::dedup_by]: drop an element equal to its predecessor. *)
Fixpoint dedup_tc (l : list TokenContract) : list TokenContract :=
  match l with
  | [] => []
  | a :: l' => match dedup_tc l' with
               | [] => [a]
               | b :: r => if tc_same a b then a :: r else a :: b :: r
               end
  end.

Definition record_seen_batch (c : MatchWatchCursor) (events : list (Z * TokenContract))
    : MatchWatchCursor :=
  let init := (last_seen_created_at c,
               match last_seen_created_at c with
               | Some _ => seen_token_contracts_at_last_seen c
               | None => []
               end) in
  match fold_left (record_one (since_unix c)) events init with
  | (Some max, at_max) => {|
      since_unix := since_unix c;
      last_seen_created_at := Some max;
      seen_token_contracts_at_last_seen := dedup_tc (sort_by String.leb at_max) |}
  | (None, _) => c
  end.

(** ** The match-watch cursor never forgets and never repeats
    ([MatchWatchCursor], crates/core/src/market/types.rs) *)
Lemma tc_same_iff a b : tc_same a b = true <-> to_ascii_lowercase (to_text a) = to_ascii_lowercase (to_text b).
Proof. unfold tc_same, eq_ignore_ascii_case. by rewrite bool_decide_eq_true. Qed.

(** Some listed contract is [tc] up to case. *)
Definition listed (tc : TokenContract) (l : list TokenContract) : bool := existsb (fun t => tc_same t tc) l.

Lemma listed_cons tc a l : listed tc (a :: l) = tc_same a tc || listed tc l.
Proof. done. Qed.
Lemma listed_dedup tc l : listed tc (dedup_tc l) = listed tc l.
Proof.
  induction l as [|a l IH]; [done|]. cbn [dedup_tc]. rewrite listed_cons, <- IH.
  destruct (dedup_tc l) as [|b r]; [done|]. rewrite listed_cons. destruct (tc_same a b) eqn:E; [|done].
  rewrite listed_cons. assert (tc_same a tc = tc_same b tc) as ->; [|by destruct (tc_same b tc)].
  apply eq_true_iff_eq. apply tc_same_iff in E. rewrite !tc_same_iff. by rewrite E.
Qed.
Lemma listed_perm tc l k : l ≡ₚ k -> listed tc l = listed tc k.
Proof.
  intros Hp. apply eq_true_iff_eq. unfold listed. rewrite !existsb_exists.
  split; intros (x & Hx & ?); exists x; (split; [|done]);
    apply list_elem_of_In; apply list_elem_of_In in Hx; first [by rewrite Hp | by rewrite <- Hp].
Qed.

(** ** Recording a batch *)

(** The event is behind the running state of the loop. *)
Definition behind (since : Z) (acc : option Z * list TokenContract) (t : Z) (tc : TokenContract) : Prop :=
  t < since \/
  match fst acc with Some max => t < max \/ (t = max /\ listed tc (snd acc) = true) | None => False end.

Lemma has_seen_behind c t tc :
  has_seen c t tc = true <->
  behind (since_unix c) (last_seen_created_at c, seen_token_contracts_at_last_seen c) t tc.
Proof.
  unfold has_seen, behind; simpl. destruct (Z.ltb_spec t (since_unix c)); [naive_solver|].
  destruct (last_seen_created_at c) as [max|]; [|intuition (lia || done)].
  destruct (Z.ltb_spec t max); [naive_solver|]. destruct (Z.eqb_spec t max); [|intuition (lia || done)].
  unfold listed. intuition (lia || done).
Qed.

Lemma behind_same since acc t a b : to_ascii_lowercase (to_text a) = to_ascii_lowercase (to_text b) ->
  behind since acc t a -> behind since acc t b.
Proof.
  intros Hs. unfold behind. enough (listed a (snd acc) = true -> listed b (snd acc) = true) by (destruct (fst acc); intuition).
  unfold listed. rewrite !existsb_exists. intros (x & Hx & H). exists x. split; [done|].
  rewrite tc_same_iff in *. congruence.
Qed.

Lemma record_one_behind since acc t tc : behind since (record_one since acc (t, tc)) t tc.
Proof.
  destruct acc as [[max|] l]; unfold record_one, behind; destruct (Z.ltb_spec t since); [by left| |by left|].
  - destruct (Z.ltb_spec t max); simpl; [by right; left|]. destruct (Z.eqb_spec t max) as [->|]; simpl.
    + right. destruct (existsb _ l) eqn:E; simpl; right; [done|]. split; [done|].
      unfold listed. rewrite existsb_app. simpl. apply orb_true_iff. right.
      rewrite orb_false_r. by apply tc_same_iff.
    + right; right. split; [done|]. simpl. rewrite orb_false_r. by apply tc_same_iff.
  - simpl. right; right. split; [done|]. simpl. rewrite orb_false_r. by apply tc_same_iff.
Qed.
Lemma record_one_keeps since acc ev t tc : behind since acc t tc -> behind since (record_one since acc ev) t tc.
Proof.
  destruct acc as [max l], ev as [t' tc']. unfold record_one, behind. intros [H|H]; [by left|].
  destruct (Z.ltb_spec t' since); simpl in *; [by right|]. destruct max as [max|]; [|done].
  right. destruct (Z.ltb_spec t' max); simpl; [done|]. destruct (Z.eqb_spec t' max) as [->|]; simpl; [|lia].
  destruct (existsb _ l); simpl; [done|]. destruct H as [?|[? H]]; [by left|right]. split; [done|].
  unfold listed in *. rewrite existsb_app, H. done.
Qed.
Lemma record_fold_behind since evs acc :
  (forall t tc, behind since acc t tc -> behind since (fold_left (record_one since) evs acc) t tc) /\
  (forall t tc, In (t, tc) evs -> behind since (fold_left (record_one since) evs acc) t tc).
Proof.
  revert acc. induction evs as [|[t tc] evs IH]; intros acc; simpl; [done|].
  destruct (IH (record_one since acc (t, tc))) as [H1 H2]. split.
  - intros. apply H1. by apply record_one_keeps.
  - intros t' tc' [[= <- <-]|Hin]; [apply H1, record_one_behind|by apply H2].
Qed.

Lemma record_seen_behind c evs t tc :
  behind (since_unix c) (fold_left (record_one (since_unix c)) evs
    (last_seen_created_at c, match last_seen_created_at c with
                             | Some _ => seen_token_contracts_at_last_seen c | None => [] end)) t tc ->
  has_seen (record_seen_batch c evs) t tc = true.
Proof.
  rewrite has_seen_behind. unfold record_seen_batch.
  destruct (fold_left _ evs _) as [[max|] l]; unfold behind; simpl.
  - intros [?|[?|[? H]]]; [by left|by right; left|]. right; right. split; [done|].
    by rewrite listed_dedup, (listed_perm tc _ l (sort_by_perm _ l)).
  - intros [?|[]]. by left.
Qed.

(** Older events do not hide a newer one. *)
Lemma record_fold_newer since evs acc t tc :
  Forall (fun ev => fst ev < t) evs -> from_option (fun max => max <= t) True (fst acc) -> since <= t ->
  ~ behind since acc t tc ->
  let acc' := fold_left (record_one since) evs acc in
  from_option (fun max => max <= t) True (fst acc') /\ ~ behind since acc' t tc.
Proof.
  intros He. revert acc. induction He as [|[t' tc'] evs Ht He IH]; intros acc Hm Hs Hn; simpl; [done|].
  simpl in Ht. assert (from_option (fun max => max <= t) True (fst (record_one since acc (t', tc'))) /\
    ~ behind since (record_one since acc (t', tc')) t tc) as [? ?]; [|by apply IH].
  destruct acc as [[max|] l]; unfold record_one, behind in *; simpl in *; destruct (Z.ltb_spec t' since); simpl; try done.
  - destruct (Z.ltb_spec t' max); simpl; [done|]. destruct (Z.eqb_spec t' max); simpl; [|lia].
    destruct (existsb _ l); simpl; [done|lia].
  - lia.
Qed.
Lemma unseen_kept c evs t tc :
  since_unix c <= t -> default t (last_seen_created_at c) <= t ->
  Forall (fun ev => fst ev < t) evs -> has_seen c t tc = false ->
  has_seen (record_seen_batch c evs) t tc = false.
Proof.
  intros Hs Hl He Hn. apply not_true_iff_false. apply not_true_iff_false in Hn. rewrite has_seen_behind in Hn.
  intros H. unfold record_seen_batch in H.
  destruct (record_fold_newer (since_unix c) evs (last_seen_created_at c, match last_seen_created_at c with
    | Some _ => seen_token_contracts_at_last_seen c | None => [] end) t tc) as [_ Hb]; try done.
  { simpl. by destruct (last_seen_created_at c). }
  { unfold behind in *; simpl in *. by destruct (last_seen_created_at c). }
  destruct (fold_left _ evs _) as [[max|] l].
  - apply has_seen_behind in H. apply Hb. unfold behind in *; simpl in *.
    by rewrite listed_dedup, (listed_perm tc _ l (sort_by_perm _ l)) in H.
  - apply has_seen_behind in H. done.
Qed.

Lemma seen_kept c evs t tc : has_seen c t tc = true -> has_seen (record_seen_batch c evs) t tc = true.
Proof.
  intros H. apply record_seen_behind, (proj1 (record_fold_behind _ _ _)). apply has_seen_behind in H. unfold behind in *; simpl in *.
  by destruct (last_seen_created_at c).
Qed.
Lemma recorded_seen c evs t tc tc' : In (t, tc') evs -> tc_same tc' tc = true ->
  has_seen (record_seen_batch c evs) t tc = true.
Proof.
  intros Hin Hsame. apply record_seen_behind. eapply behind_same; [by apply tc_same_iff|].
  by apply (proj2 (record_fold_behind _ _ _)).
Qed.

(** The cursor of the match watcher never repeats and never forgets: after a
    batch is recorded every event of it counts as seen, in any spelling of the
    contract, and so does everything that was seen before; nothing newer than the
    batch and the old mark does. *)
Theorem cursor_never_forgets (c : MatchWatchCursor) (evs : list (Z * TokenContract)) (t : Z)
    (tc : TokenContract) :
  (has_seen c t tc = true -> has_seen (record_seen_batch c evs) t tc = true) /\
  (forall tc', In (t, tc') evs -> tc_same tc' tc = true ->
     has_seen (record_seen_batch c evs) t tc = true) /\
  (since_unix c <= t -> default t (last_seen_created_at c) <= t ->
   Forall (fun ev => fst ev < t) evs -> has_seen c t tc = false ->
   has_seen (record_seen_batch c evs) t tc = false).
Proof. split_and!; [apply seen_kept|by intros; eapply recorded_seen|apply unseen_kept]. Qed.
