(* ===== verification/Machine.v ===== *)
(** * Machine: the stream state machine (crates/core/src/machine.rs)

    A transition that takes [&mut self] is a function to the new machine.  The
    [Result] transitions return an [outcome]; the terminal ones answer with a
    [Settlement] and panic outside a live deal ([refuse_when_not_live]). *)
From S2P Require Import Prelude Params Settle MarketTypes.

Record Tick : Type := mkTick { tick_index : Z; tick_price : Z }.

Inductive StreamState : Type :=
| Opening
| Probe (tick : Tick)
| Streaming (trusted pending : Z)
| Stopping
| Disputed (trusted contested : Z)
| Closed.

Inductive Settlement : Type :=
| AuthoritativeReceipt (receipt : SettlementActionReceipt)
| BuyerStopTerminal (receipt : BuyerStopTerminalReceipt)
| BurnBoth (burn : ContestedBurn)
| AmicableSplit (to_seller_ticks to_buyer_refund : Z)
| SellerNoShow (to_buyer_refund seller_bond_returned : Z).

Record StreamMachine : Type := mkMachine {
  state : StreamState;
  price : Z;
  seller_bond : Z
}.

Definition with_state (m : StreamMachine) (s : StreamState) : StreamMachine :=
  {| state := s; price := price m; seller_bond := seller_bond m |}.

(** [InvariantError] carries a static message. *)
Definition InvariantError := string.

Definition open (p : Z) (_params : DobParams) : StreamMachine := {|
  state := Probe {| tick_index := 0; tick_price := p |};
  price := p;
  seller_bond := p * 2 |}.

Definition on_probe_accepted (m : StreamMachine) : outcome InvariantError StreamMachine :=
  match state m with
  | Probe _ => Ok (with_state m (Streaming 1 1))
  | _ => Err "on_probe_accepted requires the probe state"
  end.

Definition on_probe (m : StreamMachine) : bool :=
  match state m with Probe _ => true | _ => false end.

Definition trusted_ticks (m : StreamMachine) : Z :=
  match state m with
  | Streaming trusted _ | Disputed trusted _ => trusted
  | _ => 0
  end.

Definition check_invariant (m : StreamMachine) : outcome InvariantError unit :=
  match state m with
  | Streaming trusted pending =>
      fail_if pending <? trusted with "the newest claim cannot be below trusted consumption" in
      Ok tt
  | _ => Ok tt
  end.

Definition on_claim (m : StreamMachine) (cumulative : Z) : outcome InvariantError StreamMachine :=
  match state m with
  | Streaming _ pending =>
      fail_if cumulative <? pending with "claims are cumulative and cannot decrease" in
      let m' := with_state m (Streaming pending cumulative) in
      let* _ := check_invariant m' in
      Ok m'
  | _ => Err "on_claim requires an open stream"
  end.

Definition on_promote (m : StreamMachine) : outcome InvariantError StreamMachine :=
  match state m with
  | Streaming _ pending =>
      let m' := with_state m (Streaming pending pending) in
      let* _ := check_invariant m' in
      Ok m'
  | _ => Err "on_promote requires an open stream"
  end.

Definition buyer_stop (m : StreamMachine) : outcome InvariantError (Settlement * StreamMachine) :=
  match state m with
  | Probe tick =>
      let bond := saturate U64_MAX (seller_bond m) in
      Ok (BurnBoth (probe_burn (tick_price tick) bond), with_state m Stopping)
  | Streaming _ _ | Disputed _ _ =>
      Ok (AmicableSplit (trusted_ticks m) 0, with_state m Stopping)
  | Opening | Stopping | Closed => Panic
  end.

Definition seller_stop (m : StreamMachine) : outcome InvariantError (Settlement * StreamMachine) :=
  match state m with
  | Probe _ | Streaming _ _ | Disputed _ _ =>
      Ok (AmicableSplit (trusted_ticks m) 0, with_state m Stopping)
  | Opening | Stopping | Closed => Panic
  end.

Definition seller_no_show (m : StreamMachine) : Settlement * StreamMachine :=
  (SellerNoShow 0 (seller_bond m), with_state m Closed).

Definition buyer_dispute (m : StreamMachine) : StreamMachine :=
  let '(trusted, pending) :=
    match state m with
    | Streaming trusted pending => (trusted, pending)
    | Disputed trusted contested => (trusted, wrapping U64_MAX (trusted + contested))
    | _ => (0, 0)
    end in
  with_state m (Disputed trusted (saturating_sub pending trusted)).

Definition release_dispute (m : StreamMachine)
    : outcome InvariantError (Settlement * StreamMachine) :=
  match state m with
  | Probe _ | Streaming _ _ | Disputed _ _ =>
      Ok (AmicableSplit (trusted_ticks m) 0, with_state m Closed)
  | Opening | Stopping | Closed => Panic
  end.

Definition resolve_dispute_timeout (m : StreamMachine) : Settlement * StreamMachine :=
  let bond := saturate U64_MAX (seller_bond m) in
  (BurnBoth (contested_burn bond bond), with_state m Closed).

Definition close (m : StreamMachine) : StreamMachine := with_state m Closed.

Definition max_buyer_loss (m : StreamMachine) : Z :=
  let tail :=
    match state m with
    | Opening | Closed => 0
    | Probe _ => 1
    | Streaming trusted pending => saturating_sub pending trusted
    | Disputed _ contested => contested
    | Stopping => 0
    end in
  saturating_mul U128_MAX tail (price m).

(** ** The machine as a transition system *)

(** A live transition: the calls that keep a deal going. *)
Inductive mstep : StreamMachine -> StreamMachine -> Prop :=
| step_accept m m' : on_probe_accepted m = Ok m' -> mstep m m'
| step_claim m c m' : in_u64 c -> on_claim m c = Ok m' -> mstep m m'
| step_promote m m' : on_promote m = Ok m' -> mstep m m'
| step_dispute m : on_probe m = true \/ (exists t p, state m = Streaming t p) ->
    mstep m (buyer_dispute m)
| step_buyer_stop m s m' : buyer_stop m = Ok (s, m') -> mstep m m'
| step_seller_stop m s m' : seller_stop m = Ok (s, m') -> mstep m m'
| step_release m s m' : release_dispute m = Ok (s, m') -> mstep m m'.

(** The claim pipeline: trusted below pending, both [u64]. *)
Definition pipeline_ok (m : StreamMachine) : Prop :=
  match state m with
  | Streaming trusted pending => 0 <= trusted <= pending /\ in_u64 pending
  | Disputed trusted contested => 0 <= trusted /\ 0 <= contested /\ in_u64 (trusted + contested)
  | _ => True
  end.

(** Total claimed consumption, and whether the deal has ended. *)
Definition claimed_ticks (m : StreamMachine) : Z :=
  match state m with
  | Streaming _ pending => pending
  | Disputed trusted contested => trusted + contested
  | _ => 0
  end.
Definition ended (m : StreamMachine) : bool :=
  match state m with Stopping | Closed => true | _ => false end.

Lemma mstep_preserves m m' :
  mstep m m' -> pipeline_ok m ->
  pipeline_ok m' /\ price m' = price m /\ seller_bond m' = seller_bond m /\ ended m = false /\
  (ended m' = false -> trusted_ticks m <= trusted_ticks m' /\ claimed_ticks m <= claimed_ticks m').
Proof.
  intros Hs Hp. destruct m as [s p b]. unfold pipeline_ok in Hp; simpl in Hp.
  inversion Hs as [? ? H|? c ? Hc H|? ? H|? H|? ? ? H|? ? ? H|? ? ? H]; subst; clear Hs;
    unfold on_probe_accepted, on_claim, on_promote, buyer_dispute, buyer_stop, seller_stop,
      release_dispute, on_probe, with_state, trusted_ticks, claimed_ticks, pipeline_ok,
      check_invariant in *; simpl in *.
  - destruct s; simplify_eq; simpl. split_and!; intros; try done; ilia.
  - destruct s; simplify_eq. inv_ok H; simpl in *; try done. simplify_eq; simpl. split_and!; intros; try done; ilia.
  - destruct s; simplify_eq. inv_ok H; simpl in *; try done. simplify_eq; simpl. split_and!; intros; try done; ilia.
  - destruct s; simpl in *; try (destruct H as [H|(?&?&H)]; discriminate H); split_and!; intros; try done; ilia.
  - destruct s; simplify_eq; simpl; done.
  - destruct s; simplify_eq; simpl; done.
  - destruct s; simplify_eq; simpl; done.
Qed.

Lemma rtc_mstep_preserves m m' :
  rtc mstep m m' -> pipeline_ok m ->
  pipeline_ok m' /\ price m' = price m /\ seller_bond m' = seller_bond m /\
  (ended m' = false -> trusted_ticks m <= trusted_ticks m' /\ claimed_ticks m <= claimed_ticks m').
Proof.
  induction 1 as [m|m m1 m' Hs Hr IH]; intros Hp; [repeat split; try done; lia|].
  destruct (mstep_preserves _ _ Hs Hp) as (P1 & P2 & P3 & P4 & P5).
  destruct (IH P1) as (Q1 & Q2 & Q3 & Q4). split_and!; [done | congruence | congruence |].
  intros He. specialize (Q4 He).
  assert (He1 : ended m1 = false).
  { destruct Hr as [|x y z Hxy _]; [done|].
    by apply (mstep_preserves _ _ Hxy P1). }
  specialize (P5 He1). lia.
Qed.

(** Along every run of the stream machine from [open] the claim pipeline is
    monotone: trusted never exceeds pending, the buyer's exposure is exactly the
    contested tail at the fixed price, the bond stays [2P], and trusted and
    claimed consumption never regress while the deal lives. *)
Theorem machine_runs_are_monotone (p : Z) (par : DobParams) (m m' : StreamMachine) :
  in_u64 p -> rtc mstep (open p par) m -> rtc mstep m m' ->
  pipeline_ok m /\ price m = p /\ seller_bond m = 2 * p /\
  (forall t q, state m = Streaming t q -> max_buyer_loss m = (q - t) * p) /\
  (ended m' = false -> trusted_ticks m <= trusted_ticks m' /\ claimed_ticks m <= claimed_ticks m').
Proof.
  intros Hp H1 H2. destruct (rtc_mstep_preserves _ _ H1 I) as (P1 & P2 & P3 & _).
  destruct (rtc_mstep_preserves _ _ H2 P1) as (_ & _ & _ & Q4).
  simpl in P2, P3. split_and!; [done | done | lia | | done].
  intros t q Hs. unfold max_buyer_loss, pipeline_ok in *. rewrite Hs in *. rewrite P2.
  unfold saturating_sub, saturating_mul.
  rewrite (Z.max_l (q - t)) by lia. apply Z.min_l. unfold_ints. nia.
Qed.

Lemma machine_runs_are_monotone_witness :
  let m := {| state := Streaming 1 3; price := 7; seller_bond := 14 |} in
  pipeline_ok m /\ max_buyer_loss m = 14.
Proof.
  set (m := {| state := Streaming 1 3; price := 7; seller_bond := 14 |}).
  assert (R : rtc mstep (open 7 dob_canonical) m).
  { eapply rtc_l; [apply step_accept; reflexivity|].
    eapply rtc_l; [apply (step_claim _ 3); [ilia|reflexivity]|]. apply rtc_refl. }
  destruct (machine_runs_are_monotone 7 dob_canonical m m ltac:(ilia) R (rtc_refl _ m))
    as (H1 & _ & _ & H2 & _).
  split; [exact H1 | exact (H2 1 3 eq_refl)].
Defined.

(** An ended machine accepts nothing: every step refuses with an error or
    panics, so one deal can never produce a second terminal record. *)
Theorem ended_machine_refuses (m : StreamMachine) (c : Z) :
  ended m = true ->
  is_ok (on_probe_accepted m) = false /\ is_ok (on_claim m c) = false /\
  is_ok (on_promote m) = false /\ buyer_stop m = Panic /\ seller_stop m = Panic /\
  release_dispute m = Panic /\ forall m', ~ mstep m m'.
Proof.
  intros He. destruct m as [s p b]. destruct s; try discriminate He;
    (split_and!; try reflexivity; intros m' Hs;
     inversion Hs as [? ? H|? ? ? ? H|? ? H|? H|? ? ? H|? ? ? H|? ? ? H]; subst;
     try discriminate H; destruct H as [H|(?&?&H)]; discriminate H).
Qed.

Lemma ended_machine_refuses_witness :
  buyer_stop (close (open 5 dob_canonical)) = Panic.
Proof.
  apply (ended_machine_refuses (close (open 5 dob_canonical)) 1). reflexivity.
Defined.
