(* ===== verification/Conservation.v ===== *)
(** * Conservation: the deal money ledger
    (crates/core/src/market/deal_conservation.rs)

    A deal's balance replayed one money movement at a time, and the whole-deal
    identity [funded_in = credited_out + written_off + balance]. *)
From S2P Require Import Prelude.

Inductive DealMoneyFlow : Type :=
| EscrowFunded (amount : Z)
| SellerBondFunded (amount : Z)
| BuyerBondFunded (amount : Z)
| CreditedToNote (note : string) (amount : Z)
| WrittenOff (amount : Z).

Definition flow_amount (f : DealMoneyFlow) : Z :=
  match f with
  | EscrowFunded a | SellerBondFunded a | BuyerBondFunded a | CreditedToNote _ a
  | WrittenOff a => a
  end.
Definition is_inflow (f : DealMoneyFlow) : bool :=
  match f with EscrowFunded _ | SellerBondFunded _ | BuyerBondFunded _ => true | _ => false end.
Definition label (f : DealMoneyFlow) : string :=
  match f with
  | EscrowFunded _ => "escrow_funded"
  | SellerBondFunded _ => "seller_bond_funded"
  | BuyerBondFunded _ => "buyer_bond_funded"
  | CreditedToNote _ _ => "credited_to_note"
  | WrittenOff _ => "written_off"
  end.

Inductive ConservationBreach : Type :=
| Overdraft (transition : string) (balance amount : Z)
| Overflow (transition : string) (balance amount : Z)
| ResidualAtDestruction (balance : Z)
| NotConserved (funded_in credited_out written_off balance : Z)
| DeclaredPayoutDisagreesWithCredits (declared credited : Z)
| PayoutExceedsFunding (funded_in declared : Z).

Record DealLedgerStep : Type := mkLedgerStep {
  step_flow : DealMoneyFlow; balance_before : Z; balance_after : Z }.

Record DealSettlement : Type := mkSettlement {
  set_funded_in : Z;
  set_credited_out : Z;
  set_written_off : Z;
  set_balance : Z;
  set_credited_by_note : gmap string Z
}.

Record DealLedger : Type := mkLedger {
  balance : Z;
  funded_in : Z;
  credited_out : Z;
  written_off : Z;
  credited_by_note : gmap string Z;
  steps : list DealLedgerStep
}.

Definition ledger_new : DealLedger := mkLedger 0 0 0 0 ∅ [].

Definition credited_to (l : DealLedger) (note : string) : Z :=
  default 0 (credited_by_note l !! note).
Definition settlement_credited_to (s : DealSettlement) (note : string) : Z :=
  default 0 (set_credited_by_note s !! note).

Definition ledger_apply (l : DealLedger) (flow : DealMoneyFlow)
    : outcome ConservationBreach DealLedger :=
  let amount := flow_amount flow in
  let before := balance l in
  if is_inflow flow then
    let* after := ok_or (u128_checked_add before amount) (Overflow (label flow) before amount) in
    let* funded := ok_or (u128_checked_add (funded_in l) amount)
                     (Overflow (label flow) before amount) in
    Ok {| balance := after; funded_in := funded; credited_out := credited_out l;
          written_off := written_off l; credited_by_note := credited_by_note l;
          steps := steps l ++ [mkLedgerStep flow before after] |}
  else
    let* after := ok_or (checked_sub before amount) (Overdraft (label flow) before amount) in
    let s := steps l ++ [mkLedgerStep flow before after] in
    match flow with
    | CreditedToNote note _ =>
        Ok {| balance := after; funded_in := funded_in l;
              credited_out := saturating_add U128_MAX (credited_out l) amount;
              written_off := written_off l;
              credited_by_note :=
                <[note := saturating_add U128_MAX (credited_to l note) amount]>
                  (credited_by_note l);
              steps := s |}
    | _ =>
        Ok {| balance := after; funded_in := funded_in l; credited_out := credited_out l;
              written_off := saturating_add U128_MAX (written_off l) amount;
              credited_by_note := credited_by_note l; steps := s |}
    end.

Fixpoint replay_from (l : DealLedger) (flows : list DealMoneyFlow)
    : outcome ConservationBreach DealLedger :=
  match flows with
  | [] => Ok l
  | f :: fs => let* l' := ledger_apply l f in replay_from l' fs
  end.
Definition replay (flows : list DealMoneyFlow) := replay_from ledger_new flows.

Definition settle (l : DealLedger) : outcome ConservationBreach DealSettlement :=
  let breach := NotConserved (funded_in l) (credited_out l) (written_off l) (balance l) in
  match u128_checked_add (credited_out l) (written_off l) with
  | None => Err breach
  | Some out0 =>
      match u128_checked_add out0 (balance l) with
      | None => Err breach
      | Some out =>
          fail_if negb (out =? funded_in l) with breach in
          Ok {| set_funded_in := funded_in l; set_credited_out := credited_out l;
                set_written_off := written_off l; set_balance := balance l;
                set_credited_by_note := credited_by_note l |}
      end
  end.

Definition settle_destroyed (l : DealLedger) : outcome ConservationBreach DealSettlement :=
  let* settlement := settle l in
  fail_if negb (set_balance settlement =? 0)
    with ResidualAtDestruction (set_balance settlement) in
  Ok settlement.

Definition buyer_total_debit (deposit buyer_bond : Z) : option Z :=
  u128_checked_add deposit buyer_bond.
(** [i128] result with saturation at both ends. *)
Definition buyer_net_result (credited_to_buyer total_debit : Z) : Z :=
  let credited := saturate I128_MAX credited_to_buyer in
  let debited := saturate I128_MAX total_debit in
  Z.max I128_MIN (Z.min I128_MAX (credited - debited)).
Definition implied_write_off (funded declared_payout : Z) : outcome ConservationBreach Z :=
  ok_or (checked_sub funded declared_payout) (PayoutExceedsFunding funded declared_payout).
Definition check_declared_payout_against_credits (declared credited : Z)
    : outcome ConservationBreach unit :=
  if declared =? credited then Ok tt
  else Err (DeclaredPayoutDisagreesWithCredits declared credited).

(** ** The abstract account of a flow list *)

Definition sum_where (p : DealMoneyFlow -> bool) (fs : list DealMoneyFlow) : Z :=
  foldr (fun f acc => (if p f then flow_amount f else 0) + acc) 0 fs.
Definition is_credit (f : DealMoneyFlow) : bool :=
  match f with CreditedToNote _ _ => true | _ => false end.
Definition is_credit_to (n : string) (f : DealMoneyFlow) : bool :=
  match f with CreditedToNote m _ => bool_decide (m = n) | _ => false end.
Definition is_burn (f : DealMoneyFlow) : bool :=
  match f with WrittenOff _ => true | _ => false end.
Definition signed (f : DealMoneyFlow) : Z :=
  if is_inflow f then flow_amount f else - flow_amount f.

(** The running balance never goes below zero. *)
Fixpoint solvent (b : Z) (fs : list DealMoneyFlow) : Prop :=
  match fs with
  | [] => True
  | f :: fs' => 0 <= b + signed f /\ solvent (b + signed f) fs'
  end.
Definition flows_typed (fs : list DealMoneyFlow) : Prop :=
  Forall (fun f => in_u128 (flow_amount f)) fs.

Lemma sum_where_nonneg p fs : flows_typed fs -> 0 <= sum_where p fs.
Proof.
  induction 1 as [|f fs Hf _ IH]; simpl; [lia|]. destruct (p f); ilia.
Qed.

(** The invariant every replayed ledger satisfies. *)
Definition ledger_inv (l : DealLedger) : Prop :=
  0 <= balance l /\ 0 <= credited_out l /\ 0 <= written_off l /\ in_u128 (funded_in l) /\
  funded_in l = credited_out l + written_off l + balance l /\
  forall n, 0 <= credited_to l n <= credited_out l.

Lemma credited_to_insert l n m v b f c w s :
  credited_to (mkLedger b f c w (<[m := v]> (credited_by_note l)) s) n =
  if bool_decide (m = n) then v else credited_to l n.
Proof.
  unfold credited_to; simpl. destruct (bool_decide_reflect (m = n)) as [->|Hne];
    by simplify_map_eq.
Qed.

(** What one movement does to a ledger that satisfies the invariant. *)
Lemma ledger_apply_spec l f l' :
  ledger_inv l -> in_u128 (flow_amount f) -> ledger_apply l f = Ok l' ->
  ledger_inv l' /\ balance l' = balance l + signed f /\
  funded_in l' = funded_in l + (if is_inflow f then flow_amount f else 0) /\
  credited_out l' = credited_out l + (if is_credit f then flow_amount f else 0) /\
  written_off l' = written_off l + (if is_burn f then flow_amount f else 0) /\
  (forall n, credited_to l' n = credited_to l n + (if is_credit_to n f then flow_amount f else 0)) /\
  steps l' = steps l ++ [mkLedgerStep f (balance l) (balance l')].
Proof.
  intros (B1 & B2 & B3 & B4 & B5 & B6) Hf H. unfold ledger_apply in H.
  destruct f as [a|a|a|n a|a]; simpl in *; inv_ok H; checked_facts; subst; simpl in *;
    unfold signed; simpl; unfold in_u128 in *.
  1,2,3,5: rewrite ?saturating_add_exact by lia; unfold ledger_inv; simpl;
    split_and!; try done; try ilia; intros m; specialize (B6 m);
    unfold credited_to in *; simpl in *; lia.
  assert (Hn := B6 n). rewrite !saturating_add_exact by lia. unfold ledger_inv. simpl.
  split_and!; try done; try ilia; intros m; specialize (B6 m); rewrite credited_to_insert;
    case_bool_decide; subst; lia.
Qed.

Lemma ledger_apply_progress l f :
  ledger_inv l -> in_u128 (flow_amount f) -> 0 <= balance l + signed f ->
  funded_in l + (if is_inflow f then flow_amount f else 0) <= U128_MAX ->
  exists l', ledger_apply l f = Ok l'.
Proof.
  intros (B1 & B2 & B3 & B4 & B5 & _) Hf Hb Hm. unfold ledger_apply, signed in *.
  unfold u128_checked_add, checked_add, checked_sub.
  destruct (is_inflow f) eqn:Ei.
  - rewrite !(proj2 (Z.leb_le _ _)) by lia. simpl. eauto.
  - rewrite (proj2 (Z.leb_le _ _)) by lia. simpl. destruct f; eauto.
Qed.

Lemma replay_from_spec fs l l' :
  ledger_inv l -> flows_typed fs -> replay_from l fs = Ok l' ->
  ledger_inv l' /\
  funded_in l' = funded_in l + sum_where is_inflow fs /\
  credited_out l' = credited_out l + sum_where is_credit fs /\
  written_off l' = written_off l + sum_where is_burn fs /\
  (forall n, credited_to l' n = credited_to l n + sum_where (is_credit_to n) fs) /\
  map step_flow (steps l') = map step_flow (steps l) ++ fs /\
  solvent (balance l) fs.
Proof.
  revert l. induction fs as [|f fs IH]; intros l Hi Ht H; simpl in *.
  - injection H as <-. split_and!; try done; try lia; by rewrite app_nil_r.
  - apply Forall_cons in Ht as [Hf Ht]. inv_ok H.
    destruct (ledger_apply_spec _ _ _ Hi Hf E) as (P1 & P2 & P3 & P4 & P5 & P6 & P7).
    destruct (IH _ P1 Ht H) as (Q1 & Q2 & Q3 & Q4 & Q5 & Q6 & Q7).
    split_and!; try done; try lia.
    + intros n. rewrite Q5, P6. lia.
    + rewrite Q6, P7, map_app, <- app_assoc. done.
    + destruct P1. lia.
    + by rewrite <- P2.
Qed.

Lemma replay_from_progress fs l :
  ledger_inv l -> flows_typed fs -> solvent (balance l) fs ->
  funded_in l + sum_where is_inflow fs <= U128_MAX ->
  exists l', replay_from l fs = Ok l'.
Proof.
  revert l. induction fs as [|f fs IH]; intros l Hi Ht Hs Hm; simpl in *; [by eexists|].
  apply Forall_cons in Ht as [Hf Ht]. destruct Hs as [Hb Hs].
  pose proof (sum_where_nonneg is_inflow fs Ht).
  destruct (ledger_apply_progress l f) as [l1 E]; [done..|lia|]. rewrite E.
  destruct (ledger_apply_spec _ _ _ Hi Hf E) as (P1 & P2 & P3 & _).
  apply IH; [done..| |lia]. by rewrite P2.
Qed.

Lemma ledger_new_inv : ledger_inv ledger_new.
Proof.
  unfold ledger_inv, ledger_new; simpl. split_and!; try ilia.
  intros n. unfold credited_to. simpl. rewrite lookup_empty. simpl. lia.
Qed.

Lemma settle_of_inv l : ledger_inv l ->
  settle l = Ok {| set_funded_in := funded_in l; set_credited_out := credited_out l;
    set_written_off := written_off l; set_balance := balance l;
    set_credited_by_note := credited_by_note l |}.
Proof.
  intros (B1 & B2 & B3 & B4 & B5 & _). unfold settle, u128_checked_add, checked_add.
  rewrite (proj2 (Z.leb_le _ _)) by ilia. rewrite (proj2 (Z.leb_le _ _)) by ilia.
  rewrite (proj2 (Z.eqb_eq _ _)) by lia. done.
Qed.

(** Replaying a deal's money movements succeeds exactly when no movement
    overdraws the deal and the inflows fit [u128]; the ledger it yields then
    always settles, with each total equal to the sum of the movements of its
    kind (per note included): no payout is lost or invented. *)
Theorem replay_conserves (fs : list DealMoneyFlow) :
  flows_typed fs ->
  (is_ok (replay fs) = true <->
     solvent 0 fs /\ sum_where is_inflow fs <= U128_MAX) /\
  (forall l, replay fs = Ok l -> exists s,
     settle l = Ok s /\
     set_funded_in s = sum_where is_inflow fs /\
     set_credited_out s = sum_where is_credit fs /\
     set_written_off s = sum_where is_burn fs /\
     set_funded_in s = set_credited_out s + set_written_off s + set_balance s /\
     forall n, settlement_credited_to s n = sum_where (is_credit_to n) fs).
Proof.
  intros Ht. split; [split|].
  - destruct (replay fs) as [l| |] eqn:E; try done. intros _.
    destruct (replay_from_spec _ _ _ ledger_new_inv Ht E) as ((_&_&_&Hu&_) & Hi & _ & _ & _ & _ & Hs).
    simpl in *. split; [done|ilia].
  - intros [Hs Hm]. destruct (replay_from_progress fs ledger_new ledger_new_inv Ht Hs) as [l E].
    { simpl. lia. } unfold replay. by rewrite E.
  - intros l E. destruct (replay_from_spec _ _ _ ledger_new_inv Ht E)
      as (Hinv & H1 & H2 & H3 & H4 & _ & _). simpl in *.
    eexists. split; [by apply settle_of_inv|]. simpl.
    destruct Hinv as (_&_&_&_&Hc&_). split_and!; try lia.
    intros n. unfold settlement_credited_to. simpl. rewrite <- (Z.add_0_l (sum_where _ _)).
    apply H4.
Qed.

Definition sample_flows : list DealMoneyFlow :=
  [EscrowFunded 2050; SellerBondFunded 2000; CreditedToNote "seller" 3000;
   CreditedToNote "buyer" 1000; WrittenOff 50].

Lemma sample_flows_typed : flows_typed sample_flows.
Proof.
  unfold flows_typed, sample_flows. rewrite !Forall_cons. simpl. split_and!; try ilia.
  apply Forall_nil_2.
Qed.

Lemma replay_conserves_witness :
  flows_typed sample_flows /\ is_ok (replay sample_flows) = true.
Proof.
  split; [exact sample_flows_typed|]. apply (replay_conserves sample_flows sample_flows_typed).
  split; [|vm_compute; discriminate]. vm_compute. repeat split; discriminate.
Defined.

(** A destroyed deal settles only when it was drained: [settle_destroyed]
    accepts a replayed ledger exactly when inflows equal payouts plus write-offs,
    and then the write-off implied by the declared payout is the burned sum. *)
Theorem settle_destroyed_iff_drained (fs : list DealMoneyFlow) (l : DealLedger) :
  flows_typed fs -> replay fs = Ok l ->
  (is_ok (settle_destroyed l) = true <->
     sum_where is_inflow fs = sum_where is_credit fs + sum_where is_burn fs) /\
  (is_ok (settle_destroyed l) = true ->
     implied_write_off (funded_in l) (credited_out l) = Ok (sum_where is_burn fs)).
Proof.
  intros Ht E. destruct (replay_from_spec _ _ _ ledger_new_inv Ht E)
    as (Hinv & H1 & H2 & H3 & _). simpl in H1, H2, H3.
  unfold settle_destroyed. rewrite (settle_of_inv _ Hinv). simpl.
  destruct Hinv as (?&_&?&_&Hc&_). unfold implied_write_off, checked_sub.
  rewrite (proj2 (Z.leb_le _ _)) by lia. simpl.
  destruct (Z.eqb_spec (balance l) 0); simpl; (split; [split|]); intros; try done; try lia.
  f_equal. lia.
Qed.

Lemma settle_destroyed_iff_drained_witness :
  exists l, replay sample_flows = Ok l /\ is_ok (settle_destroyed l) = true.
Proof.
  destruct (replay sample_flows) as [l| |] eqn:E; [| exfalso; vm_compute in E; discriminate E..].
  exists l. split; [reflexivity|].
  apply (settle_destroyed_iff_drained sample_flows l sample_flows_typed E).
  vm_compute. reflexivity.
Defined.
