(* ===== verification/Accounting.v ===== *)
(** * Accounting: escrow, quotes and pre-flight checks
    (crates/core/src/market/accounting.rs)

    Fee-inclusive escrow with checked [u128] arithmetic, the executable quote
    over resting asks, monitor aggregation, and the fail-closed checks that
    precede every money submit. *)
From Stdlib Require Import Ascii.
From S2P Require Import Prelude Text Params MarketTypes.

(** ** Escrow *)
Definition checked_required_escrow_for_buy (ticks max_price_per_tick : Z) : option Z :=
  match u128_checked_mul max_price_per_tick PLATFORM_FEE_BPS with
  | None => None
  | Some gross =>
      let fee := gross / 10000 in
      match u128_checked_add max_price_per_tick fee with
      | None => None
      | Some unit => u128_checked_mul ticks unit
      end
  end.

Definition required_escrow_for_buy (ticks max_price_per_tick : Z) : Z :=
  default U128_MAX (checked_required_escrow_for_buy ticks max_price_per_tick).

Record SubscriptionBuyReserve : Type := mkReserve {
  deposit : Z; buyer_bond : Z; total_escrow : Z }.

Definition subscription_buy_reserve (ticks price_per_tick : Z)
    : outcome string SubscriptionBuyReserve :=
  let* dep := ok_or (checked_required_escrow_for_buy ticks price_per_tick)
                "subscription reserve: deposit overflows u128" in
  let* bond := ok_or (u128_checked_mul price_per_tick SUBSCRIPTION_BUYER_BOND_TICKS)
                 "subscription reserve: buyer bond overflows u128" in
  let* total := ok_or (u128_checked_add dep bond)
                  "subscription reserve: deposit + buyer bond overflows u128" in
  Ok {| deposit := dep; buyer_bond := bond; total_escrow := total |}.

Definition ordinary_buy_reserve (ticks max_price_per_tick : Z) :=
  subscription_buy_reserve ticks max_price_per_tick.

Definition check_subscription_buy_reserve (escrow ticks max_price_per_tick : Z)
    : outcome string SubscriptionBuyReserve :=
  let* required := subscription_buy_reserve ticks max_price_per_tick in
  fail_if escrow <? total_escrow required with "subscription escrow < required" in
  fail_if total_escrow required <? escrow with "subscription escrow > exact required" in
  Ok required.

Definition subscription_buy_clearing_refund (ticks limit_price clearing_price : Z)
    : outcome string Z :=
  fail_if limit_price <? clearing_price with "subscription clearing price exceeds BUY limit" in
  let* reserved := subscription_buy_reserve ticks limit_price in
  let* forwarded := subscription_buy_reserve ticks clearing_price in
  ok_or (checked_sub (total_escrow reserved) (total_escrow forwarded))
    "subscription clearing refund underflows u128".

Definition check_buy_deposit_headroom (escrow ticks max_price_per_tick : Z) : outcome string unit :=
  let* required := ok_or (checked_required_escrow_for_buy ticks max_price_per_tick)
                     "escrow check: overflows u128" in
  fail_if escrow <? required with "escrow < minimum" in
  fail_if required <? escrow with "escrow > required: the surplus strands" in
  Ok tt.

(** ** Executable quotes *)
Definition equivalent_resting_ask (a b : OrderBookOrder) : bool :=
  bool_decide (ob_owner_note a = ob_owner_note b)
  && (ob_price_per_tick a =? ob_price_per_tick b)
  && (ob_ticks a =? ob_ticks b)
  && (ob_escrow a =? ob_escrow b)
  && (ob_deadline a =? ob_deadline b)
  && (ob_flags a =? ob_flags b).

(** The case-folded TokenContract an ask is grouped under. *)
Definition tc_key (o : OrderBookOrder) : string :=
  match ob_token_contract o with
  | Some tc => of_text (to_ascii_lowercase (to_text tc))
  | None => ""
  end.

Definition order_id_le (a b : OrderBookOrder) : bool := ob_order_id a <=? ob_order_id b.
(** [sort_by_key (price_per_tick, order_id)]: lexicographic. *)
Definition price_time_le (a b : OrderBookOrder) : bool :=
  (ob_price_per_tick a <? ob_price_per_tick b)
  || ((ob_price_per_tick a =? ob_price_per_tick b) && (ob_order_id a <=? ob_order_id b)).

(** One entry of the [BTreeMap]: the oldest ask of a contract represents its
    group, provided the others are equivalent to it. *)
Definition coalesce_group (asks : list OrderBookOrder) (key : string)
    : outcome string OrderBookOrder :=
  match sort_by order_id_le (List.filter (fun o => bool_decide (tc_key o = key)) asks) with
  | [] => Panic
  | representative :: others =>
      fail_if negb (forallb (equivalent_resting_ask representative) others)
        with "duplicate active sell orders for one TokenContract have conflicting terms/state" in
      Ok representative
  end.

Fixpoint coalesce_groups (asks : list OrderBookOrder) (keys : list string)
    : outcome string (list OrderBookOrder) :=
  match keys with
  | [] => Ok []
  | k :: ks => let* r := coalesce_group asks k in
               let* rs := coalesce_groups asks ks in
               Ok (r :: rs)
  end.

Definition coalesce_equivalent_resting_asks (orders : list OrderBookOrder)
    : outcome string (list OrderBookOrder) :=
  let asks := List.filter is_resting_ask orders in
  let keys := sort_by String.leb (remove_dups (map tc_key asks)) in
  let* coalesced := coalesce_groups asks keys in
  Ok (sort_by price_time_le coalesced).

(** The accumulator of the quote loop. *)
Record QuoteAcc : Type := mkQuoteAcc {
  remaining_ticks : Z; remaining_budget : Z; filled_ticks : Z; total_with_fee : Z;
  fills : list QuoteFill }.

Fixpoint quote_loop (asks : list OrderBookOrder) (acc : QuoteAcc) : QuoteAcc :=
  match asks with
  | [] => acc
  | ask :: rest =>
      if (remaining_ticks acc =? 0) || (remaining_budget acc =? 0) then acc
      else
        let unit := required_escrow_for_buy 1 (ob_price_per_tick ask) in
        if (unit =? 0) || (unit =? U128_MAX) then quote_loop rest acc
        else
          let by_budget := remaining_budget acc / unit in
          let fill := Z.min (Z.min (ob_ticks ask) (remaining_ticks acc)) by_budget in
          if fill =? 0 then acc
          else
            let cost := required_escrow_for_buy fill (ob_price_per_tick ask) in
            match ob_token_contract ask with
            | None => quote_loop rest acc
            | Some tc =>
                quote_loop rest {|
                  remaining_ticks := saturating_sub (remaining_ticks acc) fill;
                  remaining_budget := saturating_sub (remaining_budget acc) cost;
                  filled_ticks := saturating_add U128_MAX (filled_ticks acc) fill;
                  total_with_fee := saturating_add U128_MAX (total_with_fee acc) cost;
                  fills := fills acc ++ [{| qf_order_id := ob_order_id ask; qf_token_contract := tc;
                                            qf_ticks := fill;
                                            qf_price_per_tick := ob_price_per_tick ask;
                                            qf_cost_with_fee := cost |}] |}
            end
  end.

Definition executable_quote (orders : list OrderBookOrder) (wanted_ticks budget : option Z)
    : outcome string ExecutableQuote :=
  fail_if Bool.eqb (bool_decide (is_Some wanted_ticks)) (bool_decide (is_Some budget))
    with "set exactly one of ticks or budget" in
  let* asks := coalesce_equivalent_resting_asks orders in
  let acc := quote_loop asks {|
    remaining_ticks := default U128_MAX wanted_ticks;
    remaining_budget := default U128_MAX budget;
    filled_ticks := 0; total_with_fee := 0; fills := [] |} in
  Ok {| eq_filled_ticks := filled_ticks acc;
        eq_total_with_fee := total_with_fee acc;
        eq_complete := match wanted_ticks with
                       | Some want => want <=? filled_ticks acc
                       | None => 0 <? filled_ticks acc
                       end;
        eq_fills := fills acc |}.

Definition submit_safe_single_ask_quote := executable_quote.

(** ** Post-fill and recovery checks *)
Definition exact_never_opened_funded_time (s : DealChainState) : option Z :=
  match ds_funded_time s with
  | Some t =>
      if (0 <? t) && ds_funded s && negb (ds_opened s) && negb (ds_probe_accepted s)
         && negb (ds_disputed s) && (0 <? ds_deposit s) && (ds_probe_tick s =? 0)
         && (ds_finalized_owed s =? 0) && (ds_tokens_final s =? 0) && (ds_tokens_pending s =? 0)
         && (ds_probe_time s =? 0) && (ds_last_claim_time s =? t) && (ds_dispute_time s =? 0)
      then Some t else None
  | None => None
  end.

Definition check_matched_token_contract_state (s : DealChainState)
    (now_secs match_open_timeout_secs : Z) : outcome string MatchedTokenContractStatus :=
  fail_if ds_disputed s with "reported match is disputed immediately after fill" in
  fail_if negb (ds_funded s) with "reported match is not funded after the fill event" in
  if ds_opened s then Ok Opened
  else
    let* funded_time := ok_or (exact_never_opened_funded_time s)
      "reported match is not the authoritative funded-never-opened shape" in
    let cleanup_after := saturating_add U64_MAX funded_time match_open_timeout_secs in
    Ok (FundedNeverOpened (Some funded_time) (Some cleanup_after) (cleanup_after <=? now_secs)
          (Some (saturating_sub cleanup_after now_secs))).

Definition check_recoverable (opened disputed : bool) (buyer_note : option string)
    (note_addr : string) (buyer_pubkey : option (list Z)) (note_ed_pubkey : list Z)
    : outcome string unit :=
  fail_if negb opened with "recover: deal is not OPEN" in
  fail_if disputed with "recover: deal is DISPUTED" in
  match buyer_note with
  | None => Err "recover: deal has no recorded buyer note"
  | Some buyer =>
      fail_if negb (bool_decide (buyer = note_addr))
        with "recover: --note-addr is not the deal's buyer note" in
      match buyer_pubkey with
      | None => Err "recover: deal has no recorded buyer"
      | Some bpk => fail_if negb (bool_decide (bpk = note_ed_pubkey))
                      with "recover: --note-key is not the deal's buyer key" in
                    Ok tt
      end
  end.

Definition check_buyer_owns (buyer_note : option string) (note_addr : string)
    (buyer_pubkey : option (list Z)) (note_ed_pubkey : list Z) : outcome string unit :=
  match buyer_note with
  | None => Err "deal has no recorded buyer note (not matched)"
  | Some buyer =>
      fail_if negb (bool_decide (buyer = note_addr))
        with "--note-addr is not the deal's buyer note" in
      match buyer_pubkey with
      | None => Err "deal has no recorded buyer (not matched)"
      | Some bpk => fail_if negb (bool_decide (bpk = note_ed_pubkey))
                      with "--note-key is not the deal's buyer key" in
                    Ok tt
      end
  end.

Definition check_disputable (opened disputed : bool) (buyer_note : option string)
    (note_addr : string) (buyer_pubkey : option (list Z)) (note_ed_pubkey : list Z)
    : outcome string unit :=
  fail_if negb opened with "dispute: deal is not OPEN" in
  fail_if disputed with "dispute: deal is ALREADY disputed" in
  check_buyer_owns buyer_note note_addr buyer_pubkey note_ed_pubkey.

Definition check_reclaimable (s : DealChainState) (buyer_note : option string)
    (note_addr : string) (buyer_pubkey : option (list Z)) (note_ed_pubkey : list Z)
    (now match_open_timeout : Z) : outcome string unit :=
  fail_if ds_disputed s with "reclaim: deal is DISPUTED" in
  let* _ := check_buyer_owns buyer_note note_addr buyer_pubkey note_ed_pubkey in
  fail_if negb (ds_funded s) with "reclaim: deal is not funded" in
  fail_if ds_opened s with "reclaim: deal is OPEN" in
  fail_if is_stopped s with "reclaim: deal is already terminal/drained" in
  let* funded_time := ok_or (exact_never_opened_funded_time s)
    "reclaim: CLOSED deal is not the authoritative never-opened shape" in
  let deadline := saturating_add U64_MAX funded_time match_open_timeout in
  fail_if now <? deadline with "reclaim: too early" in
  Ok tt.

Definition check_release_disputable (disputed : bool) : outcome string unit :=
  if disputed then Ok tt else Err "release-dispute: deal is not DISPUTED".

(** [trim_start_matches(prefix)]: repeated removal. *)
Fixpoint trim_prefixes (fuel : nat) (p t : text) : text :=
  match fuel with
  | O => t
  | S f => match strip_prefix p t with Some t' => trim_prefixes f p t' | None => t end
  end.
Definition trim_start_matches (p t : text) : text := trim_prefixes (length t) p t.

Definition norm_pubkey (s : text) : text :=
  trim_start_matches ["0"%char]
    (to_ascii_lowercase
       (trim_start_matches ["0"%char; "X"%char]
          (trim_start_matches ["0"%char; "x"%char] (trim s)))).

Definition check_seller_pubkey (seller_pubkey : option text) (signing_pubkey_hex : text)
    : outcome string unit :=
  match seller_pubkey with
  | Some seller =>
      fail_if bool_decide (trim seller = []) with "TokenContract exposes no seller pubkey" in
      if bool_decide (norm_pubkey seller = norm_pubkey signing_pubkey_hex) then Ok tt
      else Err "--note-key is not the deal's seller key"
  | None => Err "TokenContract exposes no seller pubkey"
  end.

Definition check_withdrawable_shell (finalized_owed : Z) (amount : option Z) : outcome string Z :=
  let amount := default finalized_owed amount in
  fail_if amount =? 0 with "withdraw-shell: no finalized SHELL is withdrawable" in
  fail_if finalized_owed <? amount with "withdraw-shell: amount exceeds finalizedOwed" in
  Ok amount.

(** ** Monitor aggregation *)
Definition aggregate_tree (snaps : list NoteSnapshot) : TreeSnapshot :=
  fold_left (fun t s => {|
    ts_note_ids := ts_note_ids t ++ [ns_note_id s];
    ts_offers := ts_offers t ++ ns_offers s;
    ts_deals := ts_deals t ++ ns_deals s;
    ts_exposure := saturating_add U64_MAX (ts_exposure t) (ns_exposure s) |})
  snaps (mkTreeSnapshot [] [] [] 0).

Definition finalized_ticks (snapshot : option StreamSnapshot) : Z :=
  match snapshot with
  | Some s => saturate U64_MAX (ss_tokens_final s / TICK_SIZE)
  | None => 0
  end.
Definition summary_shell (amount : Z) : Z := saturate U64_MAX amount.

(** The figures one deal contributes: tokens, money, lock, burn. *)
Definition deal_figures (role : DealRole) (d : DealView) : Z * Z * Z * Z :=
  let tokens := finalized_ticks (dv_snapshot d) in
  match dv_snapshot d with
  | Some s =>
      let locked := match role with Seller => ss_seller_locked s | Buyer => ss_buyer_locked s end in
      (tokens, summary_shell (ss_seller_received s), summary_shell locked,
       summary_shell (ss_burned s))
  | None => (tokens, 0, 0, 0)
  end.

Definition tally_add (c : CounterpartyTally) (f : Z * Z * Z * Z) : CounterpartyTally :=
  let '(tokens, money, locked, burned) := f in {|
  ct_counterparty := ct_counterparty c;
  ct_tokens := saturating_add U64_MAX (ct_tokens c) tokens;
  ct_money := saturating_add U64_MAX (ct_money c) money;
  ct_locked := saturating_add U64_MAX (ct_locked c) locked;
  ct_burned := saturating_add U64_MAX (ct_burned c) burned |}.

(** Find the counterparty's tally or push a zero one, then add. *)
Fixpoint tally_counterparty (cs : list CounterpartyTally) (cp : option string)
    (f : Z * Z * Z * Z) : list CounterpartyTally :=
  match cs with
  | [] => [tally_add (mkTally cp 0 0 0 0) f]
  | c :: cs' => if bool_decide (ct_counterparty c = cp) then tally_add c f :: cs'
                else c :: tally_counterparty cs' cp f
  end.

Definition breakdown_add (m : ModelBreakdown) (cp : option string) (f : Z * Z * Z * Z)
    : ModelBreakdown :=
  let '(tokens, money, locked, burned) := f in {|
  mb_model := mb_model m;
  mb_role := mb_role m;
  mb_counterparties := tally_counterparty (mb_counterparties m) cp f;
  mb_tokens := saturating_add U64_MAX (mb_tokens m) tokens;
  mb_money := saturating_add U64_MAX (mb_money m) money;
  mb_locked := saturating_add U64_MAX (mb_locked m) locked;
  mb_burned := saturating_add U64_MAX (mb_burned m) burned |}.

Fixpoint breakdown_deal (ms : list ModelBreakdown) (role : DealRole) (model : string)
    (cp : option string) (f : Z * Z * Z * Z) : list ModelBreakdown :=
  match ms with
  | [] => [breakdown_add (mkBreakdown model role [] 0 0 0 0) cp f]
  | m :: ms' => if bool_decide (mb_model m = model) then breakdown_add m cp f :: ms'
                else m :: breakdown_deal ms' role model cp f
  end.

Definition model_of (d : DealView) : string := default UNKNOWN_MODEL (dv_model d).

Definition per_model_breakdown (deals : list DealView) (role : DealRole) : list ModelBreakdown :=
  fold_left (fun ms d =>
      breakdown_deal ms role (model_of d) (dv_counterparty d) (deal_figures role d))
    (List.filter (fun d => bool_decide (dv_role d = role)) deals) [].

Definition deal_anomalies (d : DealView) : list DealAnomaly :=
  match dv_snapshot d with
  | None => []
  | Some snap =>
      let locked := summary_shell (saturating_add U128_MAX (ss_seller_locked snap) (ss_buyer_locked snap)) in
      (if (0 <? locked) && bool_decide (dv_counterparty d = None) then [LockedNoMatch locked] else [])
      ++ (if ss_closed snap && (0 <? locked) then [LockedAfterClose locked] else [])
      ++ (if 0 <? dv_price_per_tick d then
            let ceiling := Z.min (required_escrow_for_buy 2 (dv_price_per_tick d)) U64_MAX in
            let buyer_lead := summary_shell (ss_buyer_lead snap) in
            if ceiling <? buyer_lead then [BuyerLockExceedsTwoTicks buyer_lead ceiling] else []
          else [])
  end.
