(* ===== verification/Quote.v ===== *)
(** * Quote: what the escrow, quote and monitor arithmetic promises

    The escrow formula without overflow, the soundness and the optimality of the
    executable quote, and the totals of the monitor's breakdown. *)
From S2P Require Import Prelude Text Params MarketTypes Accounting.

(** ** Escrow *)

(** The fee-inclusive price of one tick, over the integers. *)
Definition unit_cost (p : Z) : Z := p + p * PLATFORM_FEE_BPS / 10000.
(** The prices whose fee the checked arithmetic can compute. *)
Definition price_fits (p : Z) : Prop := p * PLATFORM_FEE_BPS <= U128_MAX /\ unit_cost p <= U128_MAX.

Lemma unit_cost_bounds p : 0 <= p -> p <= unit_cost p.
Proof.
  intros. unfold unit_cost. pose proof (Z.div_pos (p * PLATFORM_FEE_BPS) 10000).
  unfold PLATFORM_FEE_BPS in *. lia.
Qed.
Lemma unit_cost_mono p q : p <= q -> unit_cost p <= unit_cost q.
Proof.
  intros. unfold unit_cost. pose proof (Z.div_le_mono (p * PLATFORM_FEE_BPS) (q * PLATFORM_FEE_BPS) 10000).
  unfold PLATFORM_FEE_BPS in *. lia.
Qed.

Lemma escrow_some ticks p e :
  checked_required_escrow_for_buy ticks p = Some e <->
  price_fits p /\ ticks * unit_cost p <= U128_MAX /\ e = ticks * unit_cost p.
Proof.
  unfold checked_required_escrow_for_buy, u128_checked_add, u128_checked_mul, checked_add, checked_mul,
    price_fits, unit_cost.
  destruct (Z.leb_spec (p * PLATFORM_FEE_BPS) U128_MAX); [|split; [discriminate|lia]].
  destruct (Z.leb_spec (p + p * PLATFORM_FEE_BPS / 10000) U128_MAX); [|split; [discriminate|lia]].
  destruct (Z.leb_spec (ticks * (p + p * PLATFORM_FEE_BPS / 10000)) U128_MAX); [|split; [discriminate|lia]].
  split; [intros; simplify_eq; lia|intros (_ & _ & ->); done].
Qed.

Lemma required_escrow_exact ticks p : price_fits p -> ticks * unit_cost p <= U128_MAX ->
  required_escrow_for_buy ticks p = ticks * unit_cost p.
Proof.
  intros Hp Ht. unfold required_escrow_for_buy.
  by rewrite (proj2 (escrow_some ticks p (ticks * unit_cost p))).
Qed.

(** The escrow pre-flight accepts one amount only.  It passes exactly when
    the escrow is the ticks at the fee-inclusive price and nothing overflowed, so
    neither a short escrow nor a stranded surplus is ever submitted; the
    subscription reserve adds exactly the buyer's bond. *)
Theorem escrow_preflight_is_exact (escrow ticks p : Z) :
  (check_buy_deposit_headroom escrow ticks p = Ok tt <->
     price_fits p /\ ticks * unit_cost p <= U128_MAX /\ escrow = ticks * unit_cost p) /\
  (forall r, check_subscription_buy_reserve escrow ticks p = Ok r <->
     price_fits p /\ ticks * unit_cost p <= U128_MAX /\
     p * SUBSCRIPTION_BUYER_BOND_TICKS <= U128_MAX /\ escrow <= U128_MAX /\
     escrow = ticks * unit_cost p + p * SUBSCRIPTION_BUYER_BOND_TICKS /\
     r = mkReserve (ticks * unit_cost p) (p * SUBSCRIPTION_BUYER_BOND_TICKS) escrow).
Proof.
  unfold check_buy_deposit_headroom, check_subscription_buy_reserve, subscription_buy_reserve, u128_checked_add,
    u128_checked_mul, checked_add, checked_mul.
  destruct (checked_required_escrow_for_buy ticks p) as [e|] eqn:E; simpl.
  - apply escrow_some in E as (H1 & H2 & ->). split.
    + destruct (Z.ltb_spec escrow (ticks * unit_cost p)); [split; [discriminate|lia]|].
      destruct (Z.ltb_spec (ticks * unit_cost p) escrow); [split; [discriminate|lia]|]. split; [|done]. intros _. split_and!; try done; lia.
    + intros r. destruct (Z.leb_spec (p * SUBSCRIPTION_BUYER_BOND_TICKS) U128_MAX); simpl; [|split; [discriminate|lia]].
      destruct (Z.leb_spec (ticks * unit_cost p + p * SUBSCRIPTION_BUYER_BOND_TICKS) U128_MAX); simpl; [|split; [discriminate|lia]].
      destruct (Z.ltb_spec escrow (ticks * unit_cost p + p * SUBSCRIPTION_BUYER_BOND_TICKS)); [split; [discriminate|lia]|].
      destruct (Z.ltb_spec (ticks * unit_cost p + p * SUBSCRIPTION_BUYER_BOND_TICKS) escrow); [split; [discriminate|lia]|].
      assert (escrow = ticks * unit_cost p + p * SUBSCRIPTION_BUYER_BOND_TICKS) as -> by lia.
      split; [intros; simplify_eq; split_and!; done|]. by intros (_ & _ & _ & _ & _ & ->).
  - assert (~ (price_fits p /\ ticks * unit_cost p <= U128_MAX)) as Hn.
    { intros [H1 H2]. rewrite (proj2 (escrow_some ticks p (ticks * unit_cost p))) in E; done. }
    split; [split; [discriminate|tauto]|]. intros r. split; [discriminate|tauto].
Qed.

(** A buy that clears below its limit gets back exactly the fee-inclusive
    price difference on every tick and on the bond; the refund and what is
    forwarded add up to what was reserved. *)
Theorem clearing_refund_is_exact (ticks limit clearing refund : Z) :
  subscription_buy_clearing_refund ticks limit clearing = Ok refund ->
  clearing <= limit /\
  refund = ticks * (unit_cost limit - unit_cost clearing)
           + (limit - clearing) * SUBSCRIPTION_BUYER_BOND_TICKS /\
  exists reserved forwarded, subscription_buy_reserve ticks limit = Ok reserved /\
    subscription_buy_reserve ticks clearing = Ok forwarded /\
    refund + total_escrow forwarded = total_escrow reserved.
Proof.
  unfold subscription_buy_clearing_refund. intros H. repeat ok_step H.
  unfold subscription_buy_reserve in E0, E1. repeat ok_step E0. repeat ok_step E1. simplify_eq.
  repeat match goal with X : ok_or _ _ = Ok _ |- _ => apply ok_or_ok in X end.
  checked_facts. repeat match goal with X : checked_required_escrow_for_buy _ _ = Some _ |- _ =>
    apply escrow_some in X as (_ & _ & ->) end.
  simpl in *. apply Z.ltb_ge in E. split; [done|]. split; [lia|].
  eexists _, _. split_and!; [reflexivity..|]. simpl. lia.
Qed.

(** ** The asks a quote walks *)
Lemma coalesce_groups_spec asks keys rs :
  coalesce_groups asks keys = Ok rs -> map tc_key rs = keys /\ Forall (fun r => In r asks) rs.
Proof.
  revert rs. induction keys as [|k keys IH]; simpl; intros rs H; [by simplify_eq|].
  repeat ok_step H. simplify_eq. unfold coalesce_group in E.
  destruct (sort_by order_id_le _) as [|r others] eqn:Es; [done|]. ok_step E. simplify_eq.
  assert (In a (List.filter (fun o => bool_decide (tc_key o = k)) asks)) as Hin.
  { rewrite <- list_elem_of_In, <- (sort_by_perm order_id_le), Es. by constructor. }
  apply filter_In in Hin as [Hin Hk]. apply bool_decide_eq_true in Hk.
  destruct (IH _ eq_refl) as [Hm Hf]. simpl. split; [by rewrite Hk, Hm|by constructor].
Qed.

(** The asks of a quote: resting asks of the book, one per TokenContract, by
    price and then age. *)
Definition quote_asks (orders asks : list OrderBookOrder) : Prop :=
  Forall (fun o => In o orders /\ is_resting_ask o = true) asks /\ NoDup (map tc_key asks) /\
  Sorted (fun a b => price_time_le a b = true) asks.

Lemma coalesce_spec orders asks :
  coalesce_equivalent_resting_asks orders = Ok asks -> quote_asks orders asks.
Proof.
  unfold coalesce_equivalent_resting_asks. intros H. ok_step H. simplify_eq.
  apply coalesce_groups_spec in E as [Hk Hf]. split_and!.
  - rewrite sort_by_perm. eapply Forall_impl; [exact Hf|]. intros o Ho. by apply filter_In in Ho.
  - rewrite sort_by_perm, Hk, sort_by_perm. apply NoDup_remove_dups.
  - apply sort_by_sorted. intros x y. unfold price_time_le.
    rewrite orb_false_iff, andb_false_iff, orb_true_iff, andb_true_iff. lia.
Qed.

Lemma sublist_forall {A} (P : A -> Prop) l k : l `sublist_of` k -> Forall P k -> Forall P l.
Proof. induction 1; rewrite ?Forall_cons; tauto. Qed.
Lemma sorted_sublist {A} (R : A -> A -> Prop) `{!Transitive R} l k : l `sublist_of` k -> Sorted R k -> Sorted R l.
Proof.
  intros Hs Hk%Sorted_StronglySorted; [|done]. apply StronglySorted_Sorted. induction Hs; inversion Hk; subst; auto.
  constructor; [auto|]. by eapply sublist_forall.
Qed.
#[local] Instance price_time_trans : Transitive (fun a b => price_time_le a b = true).
Proof.
  intros a b c. unfold price_time_le. rewrite !orb_true_iff, !andb_true_iff. lia.
Qed.

Lemma quote_asks_sublist orders asks sel :
  Forall (fun o => In o orders /\ is_resting_ask o = true) asks -> NoDup (map tc_key asks) ->
  Sorted (fun a b => price_time_le a b = true) asks -> sel `sublist_of` asks -> quote_asks orders sel.
Proof.
  intros H1 H2 H3 Hs. split_and!; [by eapply sublist_forall| |by apply (sorted_sublist _ sel asks)].
  eapply sublist_NoDup; [exact H2|]. by apply (fmap_sublist tc_key).
Qed.

(** ** The fills of a quote *)
Definition order_typed (o : OrderBookOrder) : Prop :=
  in_u128 (ob_ticks o) /\ in_u128 (ob_price_per_tick o).

Lemma quote_asks_typed orders asks :
  Forall order_typed orders -> Forall (fun o => In o orders /\ is_resting_ask o = true) asks ->
  Forall (fun o => order_typed o /\ is_resting_ask o = true) asks.
Proof.
  intros Hty Hin. eapply Forall_impl; [exact Hin|]. intros o [Ho Hr]. split; [|done].
  rewrite Forall_forall in Hty. by apply Hty, list_elem_of_In.
Qed.

(** One fill of an ask: its own contract and price, some of its ticks, and the
    fee-inclusive cost of those. *)
Definition fill_of (ask : OrderBookOrder) (f : QuoteFill) : Prop :=
  qf_order_id f = ob_order_id ask /\ ob_token_contract ask = Some (qf_token_contract f) /\
  qf_price_per_tick f = ob_price_per_tick ask /\ 0 < qf_ticks f <= ob_ticks ask /\
  qf_cost_with_fee f = qf_ticks f * unit_cost (ob_price_per_tick ask).

Definition sum_of {A} (g : A -> Z) (l : list A) : Z := foldr (fun x acc => g x + acc) 0 l.
Lemma sum_of_app {A} (g : A -> Z) l k : sum_of g (l ++ k) = sum_of g l + sum_of g k.
Proof. induction l; simpl; lia. Qed.

(** The state of the loop that the saturating operations leave exact. *)
Definition acc_ok (acc : QuoteAcc) : Prop :=
  0 <= remaining_ticks acc /\ 0 <= remaining_budget acc /\
  filled_ticks acc + remaining_ticks acc <= U128_MAX /\
  total_with_fee acc + remaining_budget acc <= U128_MAX /\
  0 <= filled_ticks acc /\ 0 <= total_with_fee acc.

(** One ask taken. *)
Definition take (ask : OrderBookOrder) (tc : TokenContract) (fill cost : Z) (acc : QuoteAcc) : QuoteAcc := {|
  remaining_ticks := saturating_sub (remaining_ticks acc) fill;
  remaining_budget := saturating_sub (remaining_budget acc) cost;
  filled_ticks := saturating_add U128_MAX (filled_ticks acc) fill;
  total_with_fee := saturating_add U128_MAX (total_with_fee acc) cost;
  fills := fills acc ++ [{| qf_order_id := ob_order_id ask; qf_token_contract := tc; qf_ticks := fill;
                            qf_price_per_tick := ob_price_per_tick ask; qf_cost_with_fee := cost |}] |}.

(** What the loop does with its first ask: stop, skip it, or take ticks of it,
    all that fit. *)
Inductive first_ask (ask : OrderBookOrder) (acc : QuoteAcc) : QuoteAcc -> bool -> Prop :=
| ask_stop : (remaining_ticks acc = 0 \/ remaining_budget acc = 0 \/
              remaining_budget acc < unit_cost (ob_price_per_tick ask)) ->
    first_ask ask acc acc false
| ask_skip : (ob_price_per_tick ask = 0 \/ ~ price_fits (ob_price_per_tick ask) \/
              unit_cost (ob_price_per_tick ask) = U128_MAX) -> first_ask ask acc acc true
| ask_take tc fill : ob_token_contract ask = Some tc ->
    let u := unit_cost (ob_price_per_tick ask) in
    0 < u -> 0 < fill <= ob_ticks ask -> fill <= remaining_ticks acc ->
    fill * u <= remaining_budget acc ->
    (fill = ob_ticks ask \/ fill = remaining_ticks acc \/ remaining_budget acc - fill * u < u) ->
    first_ask ask acc (take ask tc fill (fill * u) acc) true.

Lemma required_unit p : 0 <= p ->
  (required_escrow_for_buy 1 p = U128_MAX /\ ~ price_fits p) \/
  (required_escrow_for_buy 1 p = unit_cost p /\ price_fits p).
Proof.
  intros Hp. unfold required_escrow_for_buy.
  destruct (checked_required_escrow_for_buy 1 p) as [e|] eqn:E; simpl.
  - apply escrow_some in E as (? & _ & ->). right. split; [lia|done].
  - left. split; [done|]. intros Hf. pose proof Hf as [_ ?].
    rewrite (proj2 (escrow_some 1 p (1 * unit_cost p))) in E; [done|]. split_and!; try done. lia.
Qed.

Lemma quote_loop_step ask rest acc :
  order_typed ask -> is_resting_ask ask = true -> acc_ok acc ->
  exists acc' more, first_ask ask acc acc' more /\
    quote_loop (ask :: rest) acc = if more : bool then quote_loop rest acc' else acc'.
Proof.
  intros [[T0 T1] [P0 P1]] Hr (A1 & A2 & A3 & A4 & A5 & A6). simpl.
  pose proof (unit_cost_bounds (ob_price_per_tick ask) P0) as Hu.
  destruct (Z.eqb_spec (remaining_ticks acc) 0) as [E1|E1]; simpl; [exists acc, false; split; [apply ask_stop; lia|done]|].
  destruct (Z.eqb_spec (remaining_budget acc) 0) as [E2|E2]; simpl; [exists acc, false; split; [apply ask_stop; lia|done]|].
  destruct (required_unit (ob_price_per_tick ask) P0) as [[-> Hbad]|[-> Hfit]].
  { rewrite orb_true_r. exists acc, true. split; [by apply ask_skip; auto|done]. }
  set (u := unit_cost (ob_price_per_tick ask)) in *.
  destruct (Z.eqb_spec u 0) as [E3|E3]; simpl; [exists acc, true; split; [apply ask_skip; left; lia|done]|].
  destruct (Z.eqb_spec u U128_MAX) as [E4|E4]; simpl; [exists acc, true; split; [apply ask_skip; auto|done]|].
  pose proof (Z.div_mod (remaining_budget acc) u ltac:(lia)) as Hdm.
  pose proof (Z.mod_pos_bound (remaining_budget acc) u ltac:(lia)) as Hm.
  apply andb_true_iff in Hr as [[_ Htc%bool_decide_eq_true]%andb_true_iff Hpos%Z.ltb_lt].
  destruct Htc as [tc Htc]. set (by_budget := remaining_budget acc / u) in *.
  set (fill := Z.min (Z.min (ob_ticks ask) (remaining_ticks acc)) by_budget).
  destruct (Z.eqb_spec fill 0) as [E5|E5].
  { exists acc, false. split; [apply ask_stop; right; right|done].
    assert (by_budget <= 0) by lia. fold u. nia. }
  assert (0 <= by_budget) by (apply Z.div_pos; lia).
  assert (fill * u <= by_budget * u) by (apply Z.mul_le_mono_nonneg_r; lia).
  rewrite required_escrow_exact by (done || (fold u; lia)). rewrite Htc. fold u.
  exists (take ask tc fill (fill * u) acc), true. split; [|done].
  apply ask_take; try done; fold u; try lia.
Qed.

Lemma take_ok ask tc fill u acc :
  acc_ok acc -> 0 < fill -> 0 < u -> fill <= remaining_ticks acc -> fill * u <= remaining_budget acc ->
  let acc' := take ask tc fill (fill * u) acc in
  acc_ok acc' /\ remaining_ticks acc' = remaining_ticks acc - fill /\
  remaining_budget acc' = remaining_budget acc - fill * u /\
  filled_ticks acc' = filled_ticks acc + fill /\ total_with_fee acc' = total_with_fee acc + fill * u.
Proof.
  intros (A1 & A2 & A3 & A4 & A5 & A6) Hf Hu H1 H2. simpl. unfold acc_ok; simpl.
  assert (0 < fill * u) by nia. unfold saturating_add, saturating_sub. lia.
Qed.

(** What the loop adds to its accumulator. *)
Lemma quote_loop_spec asks acc :
  Forall (fun o => order_typed o /\ is_resting_ask o = true) asks -> acc_ok acc ->
  exists sel fs, sel `sublist_of` asks /\ Forall2 fill_of sel fs /\
    let acc' := quote_loop asks acc in
    fills acc' = fills acc ++ fs /\
    filled_ticks acc' = filled_ticks acc + sum_of qf_ticks fs /\
    total_with_fee acc' = total_with_fee acc + sum_of qf_cost_with_fee fs /\
    sum_of qf_ticks fs <= remaining_ticks acc /\ sum_of qf_cost_with_fee fs <= remaining_budget acc.
Proof.
  revert acc. induction asks as [|ask rest IH]; intros acc Hall Hok.
  { exists [], []. destruct Hok as (? & ? & _). simpl. rewrite app_nil_r. split_and!; try done; lia. }
  apply Forall_cons in Hall as [[Ht Hr] Hall].
  destruct (quote_loop_step ask rest acc Ht Hr Hok) as (acc1 & more & Hs & ->).
  destruct Hs as [_|_|tc fill Htc u H1 H2 H3 H4 _].
  - exists [], []. destruct Hok as (? & ? & _). simpl. rewrite app_nil_r.
    split_and!; try done; try lia. apply sublist_nil_l.
  - destruct (IH acc Hall Hok) as (sel & fs & Hsub & Hrest). exists sel, fs. split; [by constructor|done].
  - destruct (take_ok ask tc fill u acc Hok ltac:(lia) H1 H3 H4) as (Hok' & R1 & R2 & R3 & R4).
    destruct (IH _ Hall Hok') as (sel & fs & Hsub & Hfs & F1 & F2 & F3 & F4 & F5).
    eexists (ask :: sel), (_ :: fs). split; [by constructor|]. split; [constructor; [|exact Hfs]|].
    + instantiate (1 := {| qf_order_id := ob_order_id ask; qf_token_contract := tc; qf_ticks := fill;
        qf_price_per_tick := ob_price_per_tick ask; qf_cost_with_fee := fill * u |}). unfold fill_of; simpl. split_and!; done || lia.
    + simpl in *. rewrite F1, F2, F3. simpl. rewrite <- app_assoc. simpl in *. split_and!; try done; lia.
Qed.

Lemma quote_start wanted budget : from_option in_u128 True wanted -> from_option in_u128 True budget ->
  acc_ok {| remaining_ticks := default U128_MAX wanted; remaining_budget := default U128_MAX budget;
            filled_ticks := 0; total_with_fee := 0; fills := [] |}.
Proof. intros. unfold acc_ok; simpl. destruct wanted, budget; simpl in *; ilia. Qed.

(** An executable quote can be executed.  Its fills are distinct contracts
    of resting asks of the book, cheapest first and oldest first within a price;
    each takes at most what its ask has, at the ask's own price plus the exact
    fee; the totals are the sums of the fills and exceed neither the wanted
    ticks nor the budget. *)
Theorem quotes_are_executable (orders : list OrderBookOrder) (wanted budget : option Z)
    (q : ExecutableQuote) :
  Forall order_typed orders -> from_option in_u128 True wanted -> from_option in_u128 True budget ->
  executable_quote orders wanted budget = Ok q ->
  exists sel, quote_asks orders sel /\ Forall2 fill_of sel (eq_fills q) /\
    eq_filled_ticks q = sum_of qf_ticks (eq_fills q) /\
    eq_total_with_fee q = sum_of qf_cost_with_fee (eq_fills q) /\
    (forall n, wanted = Some n -> eq_filled_ticks q <= n) /\
    (forall x, budget = Some x -> eq_total_with_fee q <= x).
Proof.
  intros Hty Hw Hb H. unfold executable_quote in H. repeat ok_step H. simplify_eq. simpl.
  apply coalesce_spec in E0 as (Hin & Hnd & Hs).
  destruct (quote_loop_spec a _ (quote_asks_typed orders a Hty Hin) (quote_start wanted budget Hw Hb))
    as (sel & fs & Hsub & Hf & F1 & F2 & F3 & F4 & F5).
  exists sel. simpl in *. rewrite F1, F2, F3. split; [by apply (quote_asks_sublist orders a)|].
  split_and!; try done; intros; simplify_eq; simpl in *; lia.
Qed.

(** ** The quote is the cheapest *)

(** Buying [xs] ticks of each ask, and what it costs. *)
Definition allocation (asks : list OrderBookOrder) (xs : list Z) : Prop :=
  Forall2 (fun ask x => 0 <= x <= ob_ticks ask) asks xs.
Fixpoint allocation_cost (asks : list OrderBookOrder) (xs : list Z) : Z :=
  match asks, xs with
  | ask :: asks', x :: xs' => x * unit_cost (ob_price_per_tick ask) + allocation_cost asks' xs'
  | _, _ => 0
  end.
(** A price the quote does not skip. *)
Definition quotable (o : OrderBookOrder) : Prop :=
  0 < ob_price_per_tick o /\ price_fits (ob_price_per_tick o) /\ unit_cost (ob_price_per_tick o) < U128_MAX.
Definition dearer (u : Z) (asks : list OrderBookOrder) : Prop :=
  Forall (fun o => u <= unit_cost (ob_price_per_tick o)) asks.

Lemma allocation_zero asks : Forall order_typed asks ->
  exists xs, allocation asks xs /\ sum_of id xs = 0 /\ allocation_cost asks xs = 0.
Proof.
  induction 1 as [|o asks [[? ?] _] _ (xs & Ha & Hs & Hc)]; [by exists []; repeat constructor|].
  exists (0 :: xs). split; [constructor; [lia|done]|]. simpl. lia.
Qed.

Lemma allocation_sum asks xs : allocation asks xs -> 0 <= sum_of id xs.
Proof. induction 1; simpl; unfold id in *; lia. Qed.

(** Dropping [d] ticks of an allocation saves at least the cheapest price on each. *)
Lemma allocation_drop u asks xs d :
  dearer u asks -> allocation asks xs -> 0 <= d <= sum_of id xs ->
  exists ys, allocation asks ys /\ sum_of id ys = sum_of id xs - d /\
    allocation_cost asks ys + d * u <= allocation_cost asks xs.
Proof.
  intros Hd Ha. revert d. induction Ha as [|o x asks xs Hx Ha IH]; intros d Hr; simpl in *.
  { exists []. split; [constructor|]. simpl. assert (d = 0) as -> by lia. lia. }
  apply Forall_cons in Hd as [Ho Hd]. set (y := Z.max 0 (x - d)).
  pose proof (allocation_sum _ _ Ha). destruct (IH Hd (d - (x - y))) as (ys & H1 & H2 & H3); [lia|].
  exists (y :: ys). split; [constructor; [lia|done]|]. simpl. unfold id in *. split; [lia|].
  assert ((x - y) * u <= (x - y) * unit_cost (ob_price_per_tick o)) by (apply Z.mul_le_mono_nonneg_l; lia). lia.
Qed.
Lemma allocation_nonneg asks xs : Forall order_typed asks -> allocation asks xs ->
  0 <= allocation_cost asks xs /\ 0 <= sum_of id xs.
Proof.
  intros Ht Ha. induction Ha as [|o x asks xs Hx Ha IH]; simpl; [lia|].
  apply Forall_cons in Ht as [[_ [Hp _]] Ht]. pose proof (unit_cost_bounds _ Hp). specialize (IH Ht).
  unfold id in *. nia.
Qed.

Definition askable (asks : list OrderBookOrder) : Prop :=
  Forall (fun o => order_typed o /\ is_resting_ask o = true) asks /\ Forall quotable asks /\
  StronglySorted (fun a b => price_time_le a b = true) asks.

Lemma askable_cons ask rest : askable (ask :: rest) ->
  order_typed ask /\ is_resting_ask ask = true /\ quotable ask /\ askable rest /\
  dearer (unit_cost (ob_price_per_tick ask)) rest /\ Forall order_typed rest.
Proof.
  intros ([[Hty Hr] H1]%Forall_cons & [Hq H2]%Forall_cons & H3). inversion H3; subst. split_and!; try done.
  - eapply Forall_impl; [eassumption|]. simpl. intros o. unfold price_time_le.
    rewrite orb_true_iff, andb_true_iff. intros. apply unit_cost_mono. lia.
  - eapply Forall_impl; [exact H1|]. by intros ? [].
Qed.

(** A budget below every price buys nothing. *)
Lemma quote_loop_stuck u asks acc : askable asks -> acc_ok acc -> dearer u asks ->
  remaining_budget acc < u -> quote_loop asks acc = acc.
Proof.
  intros Ha Hok Hd Hb. destruct asks as [|ask rest]; [done|].
  apply askable_cons in Ha as (Ht & Hr & (Q1 & Q2 & Q3) & _). apply Forall_cons in Hd as [Hu _].
  destruct (quote_loop_step ask rest acc Ht Hr Hok) as (acc1 & more & Hs & ->).
  destruct Hs as [_|Hk|tc fill Htc v H1 H2 H3 H4 _]; [done|exfalso; intuition lia|].
  exfalso. subst v. nia.
Qed.

Lemma quote_loop_cheapest asks acc xs :
  askable asks -> acc_ok acc ->
  filled_ticks (quote_loop asks acc) = filled_ticks acc + remaining_ticks acc ->
  allocation asks xs -> remaining_ticks acc <= sum_of id xs ->
  total_with_fee (quote_loop asks acc) - total_with_fee acc <= allocation_cost asks xs.
Proof.
  revert acc xs. induction asks as [|ask rest IH]; intros acc xs Ha Hok Hfull Hx Hs.
  { simpl in *. inversion Hx; subst. simpl in *. lia. }
  apply askable_cons in Ha as (Ht & Hr & (Q1 & Q2 & Q3) & Ha & Hd & Hty).
  destruct (allocation_nonneg (ask :: rest) xs ltac:(by constructor) Hx) as [Hc0 _].
  destruct (quote_loop_step ask rest acc Ht Hr Hok) as (acc1 & more & Hst & Heq).
  rewrite Heq in *. destruct Hst as [_|Hk|tc fill Htc u H1 H2 H3 H4 H5]; [lia|exfalso; intuition lia|].
  destruct (take_ok ask tc fill u acc Hok ltac:(lia) H1 H3 H4) as (Hok' & R1 & R2 & R3 & R4).
  set (acc2 := take ask tc fill (fill * u) acc) in *. clearbody acc2.
  inversion Hx as [|? x0 ? xs' Hx0 Hxs]; subst. simpl in *.
  specialize (IH acc2). rewrite R1, R3, R4 in IH.
  destruct (Z.le_gt_cases x0 fill) as [Hle|Hgt].
  - destruct (allocation_drop u rest xs' (fill - x0) Hd Hxs) as (ys & Y1 & Y2 & Y3); [unfold id in *; lia|].
    specialize (IH ys Ha Hok' ltac:(lia) Y1). unfold id in *. fold u. nia.
  - assert (fill = remaining_ticks acc) as Hr0.
    { destruct H5 as [?|[?|Hlow]]; [lia|done|].
      rewrite (quote_loop_stuck u rest acc2) in Hfull by (done || lia). lia. }
    destruct (allocation_zero rest Hty) as (zs & Z1 & Z2 & Z3).
    destruct (allocation_nonneg rest xs' Hty Hxs).
    specialize (IH zs Ha Hok' ltac:(lia) Z1 ltac:(lia)). fold u. nia.
Qed.

(** C37: a complete quote for a number of ticks is the cheapest one: no other way
    to take that many ticks from the same asks, each up to its own size, costs
    less with fees. *)
Theorem quotes_are_cheapest (orders asks : list OrderBookOrder) (want : Z) (q : ExecutableQuote)
    (xs : list Z) :
  Forall order_typed orders -> in_u128 want -> coalesce_equivalent_resting_asks orders = Ok asks ->
  Forall quotable asks -> executable_quote orders (Some want) None = Ok q -> eq_complete q = true ->
  allocation asks xs -> want <= sum_of id xs ->
  eq_filled_ticks q = want /\ eq_total_with_fee q <= allocation_cost asks xs.
Proof.
  intros Hty Hw Hc Hq H Hfull Hx Hs. unfold executable_quote in H. rewrite Hc in H. simpl in H.
  apply coalesce_spec in Hc as (Hin & Hnd & Hsort). simplify_eq. simpl in *. apply Z.leb_le in Hfull.
  assert (askable asks) as Ha.
  { split_and!; [by eapply quote_asks_typed|done|]. by apply Sorted_StronglySorted; [apply price_time_trans|]. }
  pose proof (quote_start (Some want) None Hw I) as Hok. simpl in Hok.
  destruct (quote_loop_spec asks _ (proj1 Ha) Hok) as (sel & fs & _ & _ & _ & F2 & _ & F4 & _). simpl in *.
  split; [lia|].
  pose proof (quote_loop_cheapest asks _ xs Ha Hok) as Hch. simpl in Hch. specialize (Hch ltac:(lia) Hx Hs). lia.
Qed.

(** ** The monitor's breakdown *)
Definition figures : Type := Z * Z * Z * Z.

(** One figure of a deal, and where the tallies keep it. *)
Record Figure : Type := mkFigure {
  of_deal : figures -> Z; of_model : ModelBreakdown -> Z; of_counterparty : CounterpartyTally -> Z }.
Definition fig_tokens : Figure := mkFigure (fun '(t, _, _, _) => t) mb_tokens ct_tokens.
Definition fig_money : Figure := mkFigure (fun '(_, m, _, _) => m) mb_money ct_money.
Definition fig_locked : Figure := mkFigure (fun '(_, _, l, _) => l) mb_locked ct_locked.
Definition fig_burned : Figure := mkFigure (fun '(_, _, _, b) => b) mb_burned ct_burned.
Definition all_figures : list Figure := [fig_tokens; fig_money; fig_locked; fig_burned].

Section Breakdown.
Context (F : Figure) (role : DealRole).
Hypothesis add_model : forall m cp f,
  of_model F (breakdown_add m cp f) = saturating_add U64_MAX (of_model F m) (of_deal F f).
Hypothesis add_tally : forall c f,
  of_counterparty F (tally_add c f) = saturating_add U64_MAX (of_counterparty F c) (of_deal F f).
Hypothesis zero_model : forall model, of_model F (mkBreakdown model role [] 0 0 0 0) = 0.
Hypothesis zero_tally : forall cp, of_counterparty F (mkTally cp 0 0 0 0) = 0.

Definition model_ok (m : ModelBreakdown) : Prop :=
  0 <= of_model F m /\ of_model F m = sum_of (of_counterparty F) (mb_counterparties m) /\
  Forall (fun c => 0 <= of_counterparty F c) (mb_counterparties m).

Lemma sum_of_nonneg {A} (g : A -> Z) l : Forall (fun x => 0 <= g x) l -> 0 <= sum_of g l.
Proof. induction 1; simpl; lia. Qed.

Lemma tally_sum cs cp f :
  Forall (fun c => 0 <= of_counterparty F c) cs -> 0 <= of_deal F f ->
  sum_of (of_counterparty F) cs + of_deal F f <= U64_MAX ->
  sum_of (of_counterparty F) (tally_counterparty cs cp f) = sum_of (of_counterparty F) cs + of_deal F f /\
  Forall (fun c => 0 <= of_counterparty F c) (tally_counterparty cs cp f).
Proof.
  intros Hn Hf. induction Hn as [|c cs Hc Hn IH]; simpl; intros Hb.
  - rewrite add_tally, zero_tally, saturating_add_exact by lia. split; [lia|]. constructor; [|constructor].
    rewrite add_tally, zero_tally, saturating_add_exact by lia. lia.
  - pose proof (sum_of_nonneg _ _ Hn). case_bool_decide; simpl.
    + rewrite add_tally, saturating_add_exact by lia. split; [lia|]. constructor; [|done].
      rewrite add_tally, saturating_add_exact by lia. lia.
    + destruct (IH ltac:(lia)) as [-> ?]. split; [lia|by constructor].
Qed.

Lemma breakdown_add_ok m cp f :
  model_ok m -> 0 <= of_deal F f -> of_model F m + of_deal F f <= U64_MAX ->
  model_ok (breakdown_add m cp f) /\ of_model F (breakdown_add m cp f) = of_model F m + of_deal F f.
Proof.
  intros (H0 & H1 & H2) Hf Hb. unfold model_ok. rewrite add_model, saturating_add_exact by lia.
  destruct f as [[[t mo] l] b]. simpl. rewrite H1 in *.
  destruct (tally_sum (mb_counterparties m) cp (t, mo, l, b) H2 Hf Hb) as [-> ?].
  split; [split_and!; done || lia|done].
Qed.

Lemma breakdown_add_model m cp f : mb_model (breakdown_add m cp f) = mb_model m.
Proof. by destruct f as [[[? ?] ?] ?]. Qed.

(** The entries of a model that [Q] selects. *)
Definition selected (Q : string -> bool) (ms : list ModelBreakdown) : Z :=
  sum_of (fun m => if Q (mb_model m) then of_model F m else 0) ms.

Lemma breakdown_deal_ok ms model cp f :
  Forall model_ok ms -> 0 <= of_deal F f -> sum_of (of_model F) ms + of_deal F f <= U64_MAX ->
  Forall model_ok (breakdown_deal ms role model cp f) /\
  (forall Q, selected Q (breakdown_deal ms role model cp f) =
             selected Q ms + if Q model then of_deal F f else 0).
Proof.
  intros Hms Hf. induction Hms as [|m ms Hm Hms IH]; simpl; intros Hb.
  - destruct (breakdown_add_ok (mkBreakdown model role [] 0 0 0 0) cp f) as [? E]; try done.
    { unfold model_ok. rewrite zero_model. simpl. split_and!; done || constructor. }
    { rewrite zero_model. lia. }
    split; [by constructor|]. intros Q. simpl. rewrite breakdown_add_model, E, zero_model. simpl. destruct (Q model); lia.
  - pose proof (sum_of_nonneg (of_model F) ms ltac:(eapply Forall_impl; [exact Hms|]; by intros ? [])).
    pose proof Hm as (? & _). case_bool_decide as Em.
    + destruct (breakdown_add_ok m cp f Hm Hf ltac:(lia)) as [? E]. split; [by constructor|].
      intros Q. simpl. rewrite breakdown_add_model, E. unfold selected. simpl. rewrite ?Em. destruct (Q model); lia.
    + destruct (IH ltac:(lia)) as [? E]. split; [by constructor|]. intros Q. simpl. fold (selected Q). rewrite E.
      unfold selected. simpl. lia.
Qed.

(** The totals of a fold, deal by deal. *)
Definition figure_of (d : DealView) : Z := of_deal F (deal_figures role d).

Lemma breakdown_fold_ok (ds : list DealView) :
  Forall (fun d => 0 <= figure_of d) ds -> sum_of figure_of ds <= U64_MAX ->
  let bs := fold_left (fun ms d => breakdown_deal ms role (model_of d) (dv_counterparty d)
              (deal_figures role d)) ds [] in
  Forall model_ok bs /\
  forall Q, selected Q bs = sum_of (fun d => if Q (model_of d) then figure_of d else 0) ds.
Proof.
  induction ds as [|d ds IH] using rev_ind; simpl; [by split; constructor|].
  rewrite sum_of_app, Forall_app, fold_left_app. simpl. intros [Hds [Hd _]%Forall_cons] Hb.
  destruct (IH Hds ltac:(lia)) as [Hok Hsel].
  assert (forall l, sum_of (of_model F) l = selected (fun _ => true) l) as Hall by done.
  edestruct breakdown_deal_ok as [Hok' Hsel']; [exact Hok|exact Hd| |split; [exact Hok'|]].
  { rewrite Hall, Hsel. fold figure_of. unfold figure_of in *. lia. }
  intros Q. rewrite Hsel', Hsel, sum_of_app. simpl. unfold figure_of. lia.
Qed.
End Breakdown.

Lemma selected_one F bs m : NoDup (map mb_model bs) -> In m bs ->
  of_model F m = selected F (fun x => bool_decide (x = mb_model m)) bs.
Proof.
  induction bs as [|b bs IH]; simpl; [done|]. intros [Hni Hnd]%NoDup_cons [->|Hm].
  - rewrite bool_decide_true by done. enough (selected F (fun x => bool_decide (x = mb_model m)) bs = 0) as -> by lia.
    clear IH Hnd. induction bs as [|b bs IH]; simpl; [done|]. apply not_elem_of_cons in Hni as [? Hni].
    rewrite bool_decide_false by congruence. rewrite IH by done. lia.
  - rewrite bool_decide_false; [|intros Eb; apply Hni; rewrite Eb; by apply list_elem_of_In, in_map].
    rewrite (IH Hnd Hm) at 1. done.
Qed.

(** A view whose amounts are unsigned. *)
Definition view_typed (d : DealView) : Prop :=
  match dv_snapshot d with
  | Some s => 0 <= ss_seller_locked s /\ 0 <= ss_buyer_locked s /\ 0 <= ss_tokens_final s /\
              0 <= ss_seller_received s /\ 0 <= ss_burned s
  | None => True
  end.

Lemma figures_nonneg F role d : In F all_figures -> view_typed d -> 0 <= figure_of F role d.
Proof.
  unfold figure_of, view_typed, deal_figures, finalized_ticks, summary_shell, saturate. intros HF Hd.
  destruct (dv_snapshot d) as [s|].
  - destruct Hd as (? & ? & ? & ? & ?). pose proof (Z.div_pos (ss_tokens_final s) TICK_SIZE ltac:(done) ltac:(done)).
    destruct HF as [<-|[<-|[<-|[<-|[]]]]]; simpl; destruct role; case_match; done || lia || (unfold U64_MAX; lia).
  - destruct HF as [<-|[<-|[<-|[<-|[]]]]]; simpl; lia.
Qed.

Lemma breakdown_models ms role model cp f :
  NoDup (map mb_model ms) -> NoDup (map mb_model (breakdown_deal ms role model cp f)) /\
  forall x, In x (map mb_model (breakdown_deal ms role model cp f)) <-> x = model \/ In x (map mb_model ms).
Proof.
  destruct f as [[[t mo] l] b]. induction ms as [|m ms IH]; simpl; intros Hnd.
  { split; [repeat constructor; set_solver|]. intuition. }
  apply NoDup_cons in Hnd as [Hni Hnd]. case_bool_decide as Em; simpl.
  { split; [by constructor|]. intuition congruence. }
  destruct (IH Hnd) as [Hnd' Hin]. split; [|intros x; rewrite Hin; intuition].
  constructor; [|done]. rewrite list_elem_of_In, Hin. rewrite list_elem_of_In in Hni. tauto.
Qed.

(** The breakdown by model loses nothing and counts nothing twice.  Models
    are distinct and are exactly the models of the role's deals; for each of the
    four figures that fits [u64] in total, every model's figure is the sum over
    its own deals and also the sum over its counterparties, and the models
    together add up to all the deals. *)
Theorem breakdown_conserves (deals : list DealView) (role : DealRole) (F : Figure) :
  let ds := List.filter (fun d => bool_decide (dv_role d = role)) deals in
  let bs := per_model_breakdown deals role in
  Forall view_typed deals -> In F all_figures -> sum_of (figure_of F role) ds <= U64_MAX ->
  NoDup (map mb_model bs) /\
  (forall model, In model (map mb_model bs) <-> In model (map model_of ds)) /\
  sum_of (of_model F) bs = sum_of (figure_of F role) ds /\
  (forall m, In m bs ->
     of_model F m = sum_of (fun d => if bool_decide (model_of d = mb_model m)
                                     then figure_of F role d else 0) ds /\
     of_model F m = sum_of (of_counterparty F) (mb_counterparties m)).
Proof.
  intros ds bs Hty HF Hb.
  assert (NoDup (map mb_model bs) /\ forall x, In x (map mb_model bs) <-> In x (map model_of ds)) as [Hnd Hin].
  { unfold bs, per_model_breakdown. fold ds. clear. induction ds as [|d ds IH] using rev_ind; [by split; [constructor|]|].
    rewrite fold_left_app. simpl. destruct IH as [Hnd Hin].
    destruct (breakdown_models _ role (model_of d) (dv_counterparty d) (deal_figures role d) Hnd) as [H1 H2].
    split; [done|]. intros x. rewrite H2, map_app, in_app_iff, Hin. simpl. intuition. }
  assert (Forall (fun d => 0 <= figure_of F role d) ds) as Hn.
  { apply Forall_forall. intros d [Hd _]%list_elem_of_In%filter_In. apply figures_nonneg; [done|].
    rewrite Forall_forall in Hty. by apply Hty, list_elem_of_In. }
  assert (Forall (model_ok F) bs /\ forall Q, selected F Q bs =
    sum_of (fun d => if Q (model_of d) then figure_of F role d else 0) ds) as [Hok Hsel].
  { unfold bs, per_model_breakdown. fold ds. apply breakdown_fold_ok; try done;
    destruct HF as [<-|[<-|[<-|[<-|[]]]]]; intros; try done;
    match goal with x : (_ * _)%type |- _ => destruct x as [[[? ?] ?] ?] end; done. }
  split_and!; try done; [exact (Hsel (fun _ => true))|]. intros m Hm. split.
  - etrans; [by apply (selected_one F bs)|]. exact (Hsel (fun x => bool_decide (x = mb_model m))).
  - rewrite Forall_forall in Hok. by apply Hok, list_elem_of_In.
Qed.

(** ** Sample book *)
Definition sample_ask (id : Z) (tc : TokenContract) (p ticks : Z) : OrderBookOrder :=
  mkOrder id "0:aa" (Some tc) false p ticks 0 0 0 0.
Definition sample_book : list OrderBookOrder :=
  [sample_ask 1 "tc-a" 3000 5; sample_ask 2 "tc-b" 2000 4; sample_ask 3 "TC-A" 3000 5].

Lemma sample_book_typed : Forall order_typed sample_book.
Proof. repeat (apply Forall_cons; split); [..|apply Forall_nil; exact I]; vm_compute; repeat split; discriminate. Qed.

(** Two rows of one contract count once; six ticks take the cheaper ask first. *)
Lemma quotes_are_executable_witness :
  exists q sel, executable_quote sample_book (Some 6) None = Ok q /\ quote_asks sample_book sel /\
    Forall2 fill_of sel (eq_fills q) /\ eq_filled_ticks q = 6.
Proof.
  eexists. edestruct (quotes_are_executable sample_book (Some 6) None) as (sel & H1 & H2 & _);
    [apply sample_book_typed|vm_compute; split; discriminate|exact I|vm_compute; reflexivity|].
  exists sel. split; [vm_compute; reflexivity|]. split; [exact H1|]. split; [exact H2|]. vm_compute. reflexivity.
Defined.

Lemma quotes_are_cheapest_witness :
  exists q, executable_quote sample_book (Some 6) None = Ok q /\ eq_filled_ticks q = 6 /\
    eq_total_with_fee q <= allocation_cost [sample_ask 2 "tc-b" 2000 4; sample_ask 1 "tc-a" 3000 5] [1; 5].
Proof.
  eexists. split; [vm_compute; reflexivity|].
  eapply (quotes_are_cheapest sample_book _ 6);
    [apply sample_book_typed|vm_compute; split; discriminate|vm_compute; reflexivity| |vm_compute; reflexivity|
     reflexivity| |vm_compute; discriminate].
  - repeat (constructor; [vm_compute; repeat split; (reflexivity || discriminate)|]); constructor.
  - repeat (constructor; [vm_compute; split; discriminate|]); constructor.
Defined.

Lemma clearing_refund_is_exact_witness :
  exists refund, subscription_buy_clearing_refund 8 3000 2000 = Ok refund /\
    refund = 8 * (unit_cost 3000 - unit_cost 2000) + (3000 - 2000) * SUBSCRIPTION_BUYER_BOND_TICKS.
Proof.
  eexists. split; [vm_compute; reflexivity|].
  apply (clearing_refund_is_exact 8 3000 2000). vm_compute. reflexivity.
Defined.

Definition sample_deal (model : option string) (cp : string) (received : Z) : DealView :=
  mkDealView "tc" Seller (Some cp) 1000 model (Some (mkStreamSnapshot 5 7 0 2000000 received 0 1 false)).
Definition sample_deals : list DealView :=
  [sample_deal (Some "m1") "x" 10; sample_deal None "y" 20; sample_deal (Some "m1") "z" 30].

Lemma breakdown_conserves_witness :
  sum_of mb_money (per_model_breakdown sample_deals Seller) = 60 /\
  NoDup (map mb_model (per_model_breakdown sample_deals Seller)).
Proof.
  destruct (breakdown_conserves sample_deals Seller fig_money) as (H1 & _ & H2 & _).
  - repeat (apply Forall_cons; split); [..|apply Forall_nil; exact I]; vm_compute; repeat split; discriminate.
  - simpl. tauto.
  - vm_compute. discriminate.
  - split; [|exact H1]. transitivity (sum_of (figure_of fig_money Seller)
      (List.filter (fun d => bool_decide (dv_role d = Seller)) sample_deals)); [exact H2|vm_compute; reflexivity].
Defined.
