(* ===== verification/MockDeal.v ===== *)
(** * MockDeal: one deal of the offline market (crates/core/src/market/mock.rs)

    A deal is a [StreamCell] with its [DealSubscription].  This file holds the
    arithmetic on the pair (fees, weekly charges, promotion, dispute
    resolution) and the body of every deal operation; [MockMarket] puts them
    behind the persisted state.  Every [unix_now_secs()] of the source is an
    argument.  An operation that fails returns before it stores, so the error
    case carries no deal. *)
From S2P Require Import Prelude Text Params Settle MarketTypes Machine.

(** The fields of the source, with the prefix [c_]. *)
Record StreamCell : Type := mkCell {
  c_schema_version : Z;
  c_machine : StreamMachine;
  c_probe_accepted : bool;
  c_buyer_pubkey : NotePubkey;
  c_seller_locked : Z;
  c_buyer_locked : Z;
  c_probe_locked : Z;
  c_probe_time : Z;
  c_buyer_bond : Z;
  c_fee_accrued : Z;
  c_tokens_final : Z;
  c_tokens_pending : Z;
  c_last_claim_time : Z;
  c_seller_received : Z;
  c_buyer_refunded : Z;
  c_burned : Z;
  c_closed : bool;
  c_max_ticks : Z;
  c_disputed : bool;
  c_dispute_time : Z;
  c_buyer_stop_settlement : option (Z * Z)
}.

Definition set_machine (v : StreamMachine) (c : StreamCell) : StreamCell :=
  mkCell (c_schema_version c) v (c_probe_accepted c) (c_buyer_pubkey c) (c_seller_locked c)
    (c_buyer_locked c) (c_probe_locked c) (c_probe_time c) (c_buyer_bond c) (c_fee_accrued c)
    (c_tokens_final c) (c_tokens_pending c) (c_last_claim_time c) (c_seller_received c)
    (c_buyer_refunded c) (c_burned c) (c_closed c) (c_max_ticks c) (c_disputed c)
    (c_dispute_time c) (c_buyer_stop_settlement c).
Definition set_probe_accepted (v : bool) (c : StreamCell) : StreamCell :=
  mkCell (c_schema_version c) (c_machine c) v (c_buyer_pubkey c) (c_seller_locked c)
    (c_buyer_locked c) (c_probe_locked c) (c_probe_time c) (c_buyer_bond c) (c_fee_accrued c)
    (c_tokens_final c) (c_tokens_pending c) (c_last_claim_time c) (c_seller_received c)
    (c_buyer_refunded c) (c_burned c) (c_closed c) (c_max_ticks c) (c_disputed c)
    (c_dispute_time c) (c_buyer_stop_settlement c).
Definition set_seller_locked (v : Z) (c : StreamCell) : StreamCell :=
  mkCell (c_schema_version c) (c_machine c) (c_probe_accepted c) (c_buyer_pubkey c) v
    (c_buyer_locked c) (c_probe_locked c) (c_probe_time c) (c_buyer_bond c) (c_fee_accrued c)
    (c_tokens_final c) (c_tokens_pending c) (c_last_claim_time c) (c_seller_received c)
    (c_buyer_refunded c) (c_burned c) (c_closed c) (c_max_ticks c) (c_disputed c)
    (c_dispute_time c) (c_buyer_stop_settlement c).
Definition set_buyer_locked (v : Z) (c : StreamCell) : StreamCell :=
  mkCell (c_schema_version c) (c_machine c) (c_probe_accepted c) (c_buyer_pubkey c)
    (c_seller_locked c) v (c_probe_locked c) (c_probe_time c) (c_buyer_bond c) (c_fee_accrued c)
    (c_tokens_final c) (c_tokens_pending c) (c_last_claim_time c) (c_seller_received c)
    (c_buyer_refunded c) (c_burned c) (c_closed c) (c_max_ticks c) (c_disputed c)
    (c_dispute_time c) (c_buyer_stop_settlement c).
Definition set_probe_locked (v : Z) (c : StreamCell) : StreamCell :=
  mkCell (c_schema_version c) (c_machine c) (c_probe_accepted c) (c_buyer_pubkey c)
    (c_seller_locked c) (c_buyer_locked c) v (c_probe_time c) (c_buyer_bond c) (c_fee_accrued c)
    (c_tokens_final c) (c_tokens_pending c) (c_last_claim_time c) (c_seller_received c)
    (c_buyer_refunded c) (c_burned c) (c_closed c) (c_max_ticks c) (c_disputed c)
    (c_dispute_time c) (c_buyer_stop_settlement c).
Definition set_buyer_bond (v : Z) (c : StreamCell) : StreamCell :=
  mkCell (c_schema_version c) (c_machine c) (c_probe_accepted c) (c_buyer_pubkey c)
    (c_seller_locked c) (c_buyer_locked c) (c_probe_locked c) (c_probe_time c) v (c_fee_accrued c)
    (c_tokens_final c) (c_tokens_pending c) (c_last_claim_time c) (c_seller_received c)
    (c_buyer_refunded c) (c_burned c) (c_closed c) (c_max_ticks c) (c_disputed c)
    (c_dispute_time c) (c_buyer_stop_settlement c).
Definition set_fee_accrued (v : Z) (c : StreamCell) : StreamCell :=
  mkCell (c_schema_version c) (c_machine c) (c_probe_accepted c) (c_buyer_pubkey c)
    (c_seller_locked c) (c_buyer_locked c) (c_probe_locked c) (c_probe_time c) (c_buyer_bond c) v
    (c_tokens_final c) (c_tokens_pending c) (c_last_claim_time c) (c_seller_received c)
    (c_buyer_refunded c) (c_burned c) (c_closed c) (c_max_ticks c) (c_disputed c)
    (c_dispute_time c) (c_buyer_stop_settlement c).
Definition set_tokens_final (v : Z) (c : StreamCell) : StreamCell :=
  mkCell (c_schema_version c) (c_machine c) (c_probe_accepted c) (c_buyer_pubkey c)
    (c_seller_locked c) (c_buyer_locked c) (c_probe_locked c) (c_probe_time c) (c_buyer_bond c)
    (c_fee_accrued c) v (c_tokens_pending c) (c_last_claim_time c) (c_seller_received c)
    (c_buyer_refunded c) (c_burned c) (c_closed c) (c_max_ticks c) (c_disputed c)
    (c_dispute_time c) (c_buyer_stop_settlement c).
Definition set_tokens_pending (v : Z) (c : StreamCell) : StreamCell :=
  mkCell (c_schema_version c) (c_machine c) (c_probe_accepted c) (c_buyer_pubkey c)
    (c_seller_locked c) (c_buyer_locked c) (c_probe_locked c) (c_probe_time c) (c_buyer_bond c)
    (c_fee_accrued c) (c_tokens_final c) v (c_last_claim_time c) (c_seller_received c)
    (c_buyer_refunded c) (c_burned c) (c_closed c) (c_max_ticks c) (c_disputed c)
    (c_dispute_time c) (c_buyer_stop_settlement c).
Definition set_last_claim_time (v : Z) (c : StreamCell) : StreamCell :=
  mkCell (c_schema_version c) (c_machine c) (c_probe_accepted c) (c_buyer_pubkey c)
    (c_seller_locked c) (c_buyer_locked c) (c_probe_locked c) (c_probe_time c) (c_buyer_bond c)
    (c_fee_accrued c) (c_tokens_final c) (c_tokens_pending c) v (c_seller_received c)
    (c_buyer_refunded c) (c_burned c) (c_closed c) (c_max_ticks c) (c_disputed c)
    (c_dispute_time c) (c_buyer_stop_settlement c).
Definition set_seller_received (v : Z) (c : StreamCell) : StreamCell :=
  mkCell (c_schema_version c) (c_machine c) (c_probe_accepted c) (c_buyer_pubkey c)
    (c_seller_locked c) (c_buyer_locked c) (c_probe_locked c) (c_probe_time c) (c_buyer_bond c)
    (c_fee_accrued c) (c_tokens_final c) (c_tokens_pending c) (c_last_claim_time c) v
    (c_buyer_refunded c) (c_burned c) (c_closed c) (c_max_ticks c) (c_disputed c)
    (c_dispute_time c) (c_buyer_stop_settlement c).
Definition set_buyer_refunded (v : Z) (c : StreamCell) : StreamCell :=
  mkCell (c_schema_version c) (c_machine c) (c_probe_accepted c) (c_buyer_pubkey c)
    (c_seller_locked c) (c_buyer_locked c) (c_probe_locked c) (c_probe_time c) (c_buyer_bond c)
    (c_fee_accrued c) (c_tokens_final c) (c_tokens_pending c) (c_last_claim_time c)
    (c_seller_received c) v (c_burned c) (c_closed c) (c_max_ticks c) (c_disputed c)
    (c_dispute_time c) (c_buyer_stop_settlement c).
Definition set_burned (v : Z) (c : StreamCell) : StreamCell :=
  mkCell (c_schema_version c) (c_machine c) (c_probe_accepted c) (c_buyer_pubkey c)
    (c_seller_locked c) (c_buyer_locked c) (c_probe_locked c) (c_probe_time c) (c_buyer_bond c)
    (c_fee_accrued c) (c_tokens_final c) (c_tokens_pending c) (c_last_claim_time c)
    (c_seller_received c) (c_buyer_refunded c) v (c_closed c) (c_max_ticks c) (c_disputed c)
    (c_dispute_time c) (c_buyer_stop_settlement c).
Definition set_closed (v : bool) (c : StreamCell) : StreamCell :=
  mkCell (c_schema_version c) (c_machine c) (c_probe_accepted c) (c_buyer_pubkey c)
    (c_seller_locked c) (c_buyer_locked c) (c_probe_locked c) (c_probe_time c) (c_buyer_bond c)
    (c_fee_accrued c) (c_tokens_final c) (c_tokens_pending c) (c_last_claim_time c)
    (c_seller_received c) (c_buyer_refunded c) (c_burned c) v (c_max_ticks c) (c_disputed c)
    (c_dispute_time c) (c_buyer_stop_settlement c).
Definition set_disputed (v : bool) (c : StreamCell) : StreamCell :=
  mkCell (c_schema_version c) (c_machine c) (c_probe_accepted c) (c_buyer_pubkey c)
    (c_seller_locked c) (c_buyer_locked c) (c_probe_locked c) (c_probe_time c) (c_buyer_bond c)
    (c_fee_accrued c) (c_tokens_final c) (c_tokens_pending c) (c_last_claim_time c)
    (c_seller_received c) (c_buyer_refunded c) (c_burned c) (c_closed c) (c_max_ticks c) v
    (c_dispute_time c) (c_buyer_stop_settlement c).
Definition set_dispute_time (v : Z) (c : StreamCell) : StreamCell :=
  mkCell (c_schema_version c) (c_machine c) (c_probe_accepted c) (c_buyer_pubkey c)
    (c_seller_locked c) (c_buyer_locked c) (c_probe_locked c) (c_probe_time c) (c_buyer_bond c)
    (c_fee_accrued c) (c_tokens_final c) (c_tokens_pending c) (c_last_claim_time c)
    (c_seller_received c) (c_buyer_refunded c) (c_burned c) (c_closed c) (c_max_ticks c)
    (c_disputed c) v (c_buyer_stop_settlement c).
Definition set_buyer_stop_settlement (v : option (Z * Z)) (c : StreamCell) : StreamCell :=
  mkCell (c_schema_version c) (c_machine c) (c_probe_accepted c) (c_buyer_pubkey c)
    (c_seller_locked c) (c_buyer_locked c) (c_probe_locked c) (c_probe_time c) (c_buyer_bond c)
    (c_fee_accrued c) (c_tokens_final c) (c_tokens_pending c) (c_last_claim_time c)
    (c_seller_received c) (c_buyer_refunded c) (c_burned c) (c_closed c) (c_max_ticks c)
    (c_disputed c) (c_dispute_time c) v.

Definition STREAM_CELL_SCHEMA_VERSION : Z := 3.

Definition set_tokens_paid (v : Z) (s : DealSubscription) : DealSubscription :=
  mkSub (deal_flags s) (sub_weeks s) (week_index s) (tokens_per_week s) (funded_tokens s) v
    (period_start s) (week_base_tokens s).
Definition set_week (index base : Z) (s : DealSubscription) : DealSubscription :=
  mkSub (deal_flags s) (sub_weeks s) index (tokens_per_week s) (funded_tokens s) (tokens_paid s)
    (period_start s) base.
Definition set_period (start base : Z) (s : DealSubscription) : DealSubscription :=
  mkSub (deal_flags s) (sub_weeks s) (week_index s) (tokens_per_week s) (funded_tokens s)
    (tokens_paid s) start base.

Definition chain {A} (o : option A) (msg : string) : outcome ChainError A := ok_or o (Chain msg).
(** [map_err(|e| ChainError::EndpointsFile(e.0.to_string()))] *)
Definition machine_err {A} (o : outcome InvariantError A) : outcome ChainError A :=
  map_err EndpointsFile o.

(** ** The shape of a deal *)
Definition mock_deal_shape (offer : SellOffer) (funded_ticks period_start : Z)
    : outcome ChainError DealSubscription :=
  let* funded := chain (u128_checked_mul funded_ticks TICK_SIZE) "funded token volume overflows" in
  let deal_flags := Z.land (so_flags offer) flags.DEAL_MASK in
  if has_flag deal_flags flags.SUBSCRIPTION then
    fail_if negb (funded_ticks mod SUBSCRIPTION_WEEKS =? 0)
      with Chain "subscription funded ticks is not divisible by the weeks" in
    Ok {| deal_flags := deal_flags; sub_weeks := SUBSCRIPTION_WEEKS; week_index := 0;
          tokens_per_week := funded / SUBSCRIPTION_WEEKS; funded_tokens := funded;
          tokens_paid := 0; period_start := period_start; week_base_tokens := 0 |}
  else
    Ok {| deal_flags := deal_flags; sub_weeks := 0; week_index := 0;
          tokens_per_week := funded; funded_tokens := funded;
          tokens_paid := 0; period_start := period_start; week_base_tokens := 0 |}.

(** ** Checked arithmetic *)
Definition checked_mul_div_floor (value multiplier denominator : Z) (context : string)
    : outcome ChainError Z :=
  let whole := value / denominator in
  let remainder := value mod denominator in
  chain (match u128_checked_mul whole multiplier with
         | Some amount =>
             match u128_checked_mul remainder multiplier with
             | Some tail => u128_checked_add amount (tail / denominator)
             | None => None
             end
         | None => None
         end) context.

Definition pending_tokens (cell : StreamCell) : Z := c_tokens_pending cell.

Definition claim_deadline_reached (landed_at window now : Z) : outcome ChainError bool :=
  let* due := chain (u64_checked_add landed_at window) "claim promotion deadline overflows uint64" in
  Ok (due <=? now).

Definition promote_once (cell : StreamCell) : StreamCell :=
  if c_tokens_final cell <? c_tokens_pending cell
  then set_tokens_final (c_tokens_pending cell) cell else cell.

Definition finalized_ticks (tokens : Z) : outcome ChainError Z :=
  chain (try_from U64_MAX (tokens / TICK_SIZE)) "finalized token total exceeds the tick counter".

Definition delivered_ticks (cell : StreamCell) : outcome ChainError Z :=
  let* t := finalized_ticks (c_tokens_final cell) in
  Ok (Z.max t (if c_probe_accepted cell then 1 else 0)).

Definition subscription_weeks_at (sub : DealSubscription) (now : Z) (include_started : bool)
    : outcome ChainError Z :=
  let* elapsed := chain (checked_sub now (period_start sub))
    "subscription clock: current time precedes periodStart" in
  let elapsed_weeks := Z.min (elapsed / SUB_WEEK_LEN) (sub_weeks sub) in
  let target :=
    if include_started && (elapsed_weeks <? sub_weeks sub) then elapsed_weeks + 1
    else elapsed_weeks in
  chain (try_from U8_MAX target) "subscription clock: week count does not fit weekIndex".

Section Deal.
Context (consts : ProtocolConsts).

Definition token_pay_and_fee (tokens price : Z) : outcome ChainError (Z * Z) :=
  let* pay := checked_mul_div_floor tokens price TICK_SIZE "token payment" in
  let* fee := checked_mul_div_floor pay (platform_fee_bps consts) 10000 "platform fee" in
  Ok (pay, fee).

Definition promote_due (cell : StreamCell) (now : Z) : outcome ChainError StreamCell :=
  let* due := claim_deadline_reached (c_last_claim_time cell) (claim_promote_window consts) now in
  Ok (if due : bool then promote_once cell else cell).

Definition has_due_claim (cell : StreamCell) (now : Z) : outcome ChainError bool :=
  if c_tokens_final cell <? c_tokens_pending cell
  then claim_deadline_reached (c_last_claim_time cell) (claim_promote_window consts) now
  else Ok false.

Definition void_claims_at (cell : StreamCell) (at_ : Z) : outcome ChainError StreamCell :=
  let* promoted :=
    (if c_tokens_final cell <? c_tokens_pending cell
     then claim_deadline_reached (c_last_claim_time cell) (claim_promote_window consts) at_
     else Ok false) in
  let cell := if promoted : bool then set_tokens_final (c_tokens_pending cell) cell else cell in
  Ok (set_tokens_pending (c_tokens_final cell) cell).

(** Move [pay] to the seller and [fee] to the accrual out of the escrow. *)
Definition debit_escrow (cell : StreamCell) (pay fee : Z) : outcome ChainError StreamCell :=
  let* debit := chain (u128_checked_add pay fee) "token payment plus fee overflows uint128" in
  fail_if c_buyer_locked cell <? debit
    with Chain "token payment plus fee exceeds buyer escrow" in
  let* received := chain (u128_checked_add (c_seller_received cell) pay)
    "seller proceeds overflow uint128" in
  let* accrued := chain (u128_checked_add (c_fee_accrued cell) fee)
    "accrued fee overflows uint128" in
  Ok (set_fee_accrued accrued
       (set_seller_received received
         (set_buyer_locked (c_buyer_locked cell - debit) cell))).

Definition credit_token_delta (cell : StreamCell) (tokens : Z) : outcome ChainError StreamCell :=
  let* ' (pay, fee) := token_pay_and_fee tokens (price (c_machine cell)) in
  debit_escrow cell pay fee.

Definition credit_tokens_through (cell : StreamCell) (sub : DealSubscription) (target : Z)
    : outcome ChainError (StreamCell * DealSubscription) :=
  fail_if target <? tokens_paid sub with Chain "payment target regresses tokensPaid" in
  fail_if funded_tokens sub <? target with Chain "payment target exceeds fundedTokens" in
  let* ' (paid_value, paid_fee) := token_pay_and_fee (tokens_paid sub) (price (c_machine cell)) in
  let* ' (target_value, target_fee) := token_pay_and_fee target (price (c_machine cell)) in
  let* pay := chain (checked_sub target_value paid_value) "cumulative seller payment regresses" in
  let* fee := chain (checked_sub target_fee paid_fee) "cumulative fee regresses" in
  let* cell := debit_escrow cell pay fee in
  Ok (cell, set_tokens_paid target sub).

Definition charge_subscription_through (cell : StreamCell) (sub : DealSubscription)
    (target_week : Z) : outcome ChainError (bool * StreamCell * DealSubscription) :=
  if target_week <=? week_index sub then Ok (false, cell, sub)
  else
    let* target := chain (u128_checked_mul target_week (tokens_per_week sub))
      "settle_week: cumulative weekly payment overflows uint128" in
    let* ' (cell, sub) := credit_tokens_through cell sub target in
    Ok (true, cell, set_week target_week (pending_tokens cell) sub).

Definition charge_elapsed_subscription_weeks (cell : StreamCell) (sub : DealSubscription)
    (now : Z) : outcome ChainError (bool * StreamCell * DealSubscription) :=
  if negb (is_subscription sub) then Ok (false, cell, sub)
  else
    fail_if negb (c_probe_accepted cell) || c_closed cell || c_disputed cell
      with Chain "settle_week: is not an open accepted subscription" in
    let* due := subscription_weeks_at sub now false in
    charge_subscription_through cell sub due.

(** ** Closing *)
Definition settle_mock_fees (cell : StreamCell) (delivered : Z) (clean : bool)
    : outcome ChainError StreamCell :=
  let* rebate :=
    (if clean then
       let* gross := chain (u128_checked_mul delivered (price (c_machine cell)))
         "rebate volume overflows uint128" in
       let rate := Z.min (saturating_mul U128_MAX (rebate_slope_bps consts) delivered)
                     (rebate_max_bps consts) in
       let* r := checked_mul_div_floor gross rate 10000 "seller rebate" in
       Ok (Z.min r (c_fee_accrued cell))
     else Ok 0) in
  let* received := chain (u128_checked_add (c_seller_received cell) rebate)
    "seller rebate overflows uint128" in
  let* burned := chain (u128_checked_add (c_burned cell) (c_fee_accrued cell - rebate))
    "fee burn overflows uint128" in
  Ok (set_fee_accrued 0 (set_burned burned (set_seller_received received cell))).

(** The assignments every terminal path ends with. *)
Definition release_locks (cell : StreamCell) : StreamCell :=
  set_seller_locked 0 (set_buyer_bond 0 (set_probe_locked 0 (set_buyer_locked 0 cell))).

Definition close_mock_clean (cell : StreamCell) (delivered : Z)
    : outcome ChainError (Z * StreamCell) :=
  let* cell := settle_mock_fees cell delivered true in
  let* part := chain (u128_checked_add (c_buyer_locked cell) (c_probe_locked cell))
    "clean buyer refund overflows uint128" in
  let* refund := chain (u128_checked_add part (c_buyer_bond cell))
    "clean buyer refund overflows uint128" in
  let* refunded := chain (u128_checked_add (c_buyer_refunded cell) refund)
    "cumulative buyer refund overflows uint128" in
  let* received := chain (u128_checked_add (c_seller_received cell) (c_seller_locked cell))
    "finalized seller amount overflows uint128" in
  let cell := release_locks (set_seller_received received (set_buyer_refunded refunded cell)) in
  Ok (refund, set_closed true (set_machine (close (c_machine cell)) cell)).

(** The tokens a claim pays from: the week's base after the first weekly charge. *)
Definition claim_base (sub : DealSubscription) : Z :=
  if is_subscription sub && (0 <? week_index sub) then week_base_tokens sub else tokens_paid sub.

(** The stake both sides put at risk in a dispute, before the trusted payment. *)
Definition dispute_stake (cell : StreamCell) (sub : DealSubscription) : outcome ChainError Z :=
  let claimed_unpaid := saturating_sub (pending_tokens cell) (claim_base sub) in
  let* ' (claimed_pay, claimed_fee) := token_pay_and_fee claimed_unpaid (price (c_machine cell)) in
  let* claimed_value := chain (u128_checked_add claimed_pay claimed_fee)
    "release_dispute: dispute stake overflows uint128" in
  let p := price (c_machine cell) in
  let stake := Z.min (Z.min (Z.max claimed_value p) (2 * p)) (c_seller_locked cell) in
  Ok (if is_subscription sub then Z.min stake (c_buyer_bond cell)
      else Z.min stake (c_buyer_locked cell)).

(** Take the stake from the buyer's bond or escrow, and on a timeout as much
    from the seller's bond; both are burned. *)
Definition burn_stakes (cell : StreamCell) (sub : DealSubscription) (stake : Z) (timed_out : bool)
    : outcome ChainError StreamCell :=
  let '(stake, cell) :=
    if is_subscription sub
    then (stake, set_buyer_bond (c_buyer_bond cell - stake) cell)
    else let stake := Z.min stake (c_buyer_locked cell) in
         (stake, set_buyer_locked (c_buyer_locked cell - stake) cell) in
  let* burned := chain (u128_checked_add (c_burned cell) stake)
    "release_dispute: buyer stake burn overflows uint128" in
  let seller_burn := if timed_out then Z.min stake (c_seller_locked cell) else 0 in
  let cell := set_seller_locked (c_seller_locked cell - seller_burn) (set_burned burned cell) in
  let* burned := chain (u128_checked_add (c_burned cell) seller_burn)
    "release_dispute: seller stake burn overflows uint128" in
  Ok (set_burned burned cell).

(** What of the remaining deposit goes back: for an accepted subscription only
    the weeks that have not started at the dispute. *)
Definition refundable_deposit (cell : StreamCell) (sub : DealSubscription) (remaining : Z)
    : outcome ChainError Z :=
  if is_subscription sub && c_probe_accepted cell then
    let* started := subscription_weeks_at sub (c_dispute_time cell) true in
    let unstarted := saturating_sub (sub_weeks sub) started in
    let* future_tokens := chain (u128_checked_mul unstarted (tokens_per_week sub))
      "release_dispute: future token refund overflows uint128" in
    let* ' (future_pay, future_fee) := token_pay_and_fee future_tokens (price (c_machine cell)) in
    let* future := chain (u128_checked_add future_pay future_fee)
      "release_dispute: future refund overflows uint128" in
    Ok (Z.min future remaining)
  else Ok remaining.

(** From the stakes to the closed cell: burn, settle the fees without a rebate,
    split the deposit, return the rest of both bonds. *)
Definition settle_dispute (cell : StreamCell) (sub : DealSubscription) (stake : Z) (timed_out : bool)
    : outcome ChainError (Z * Z * StreamCell) :=
  let* cell := burn_stakes cell sub stake timed_out in
  let* delivered := delivered_ticks cell in
  let* cell := settle_mock_fees cell delivered false in
  let* remaining := chain (u128_checked_add (c_buyer_locked cell) (c_probe_locked cell))
    "release_dispute: remaining deposit overflows uint128" in
  let* refundable := refundable_deposit cell sub remaining in
  let* burned := chain (u128_checked_add (c_burned cell) (remaining - refundable))
    "release_dispute: unearned-period burn overflows uint128" in
  let* refund := chain (u128_checked_add refundable (c_buyer_bond cell))
    "release_dispute: buyer refund overflows uint128" in
  let* refunded := chain (u128_checked_add (c_buyer_refunded cell) refund)
    "release_dispute: cumulative buyer refund overflows uint128" in
  let seller_refund := c_seller_locked cell in
  let* received := chain (u128_checked_add (c_seller_received cell) seller_refund)
    "release_dispute: finalized seller amount overflows uint128" in
  let* m :=
    (if timed_out then Ok (snd (resolve_dispute_timeout (c_machine cell)))
     else let* ' (_, m) := machine_err (release_dispute (c_machine cell)) in Ok m) in
  let cell := release_locks (set_seller_received received
                (set_buyer_refunded refunded (set_burned burned cell))) in
  let cell := set_disputed false cell in
  Ok (refund, seller_refund, set_closed true (set_machine m cell)).

Definition resolve_mock_dispute (cell : StreamCell) (sub : DealSubscription) (timed_out : bool)
    : outcome ChainError (Z * Z * StreamCell * DealSubscription) :=
  fail_if negb (c_disputed cell) with Chain "release_dispute: not in dispute" in
  let* ' (_, cell, sub) :=
    (if is_subscription sub && c_probe_accepted cell then
       let* completed := subscription_weeks_at sub (c_dispute_time cell) false in
       charge_subscription_through cell sub completed
     else Ok (false, cell, sub)) in
  let* stake := dispute_stake cell sub in
  let* cell := void_claims_at cell (c_dispute_time cell) in
  let trusted_tokens := c_tokens_final cell in
  let trusted_owed := saturating_sub trusted_tokens (claim_base sub) in
  let* cell := credit_token_delta cell trusted_owed in
  let sub := set_tokens_paid (Z.max (tokens_paid sub) trusted_tokens) sub in
  let* ' (refund, seller_refund, cell) := settle_dispute cell sub stake timed_out in
  Ok (refund, seller_refund, cell, sub).

(** ** Buyer stop *)

(** Before the probe is accepted: both sides burn the probe. *)
Definition stop_on_probe (cell : StreamCell) : outcome ChainError (Settlement * StreamCell) :=
  let* ' (settlement, m) := machine_err (buyer_stop (c_machine cell)) in
  match settlement with
  | BurnBoth burn =>
      let cell := set_machine m cell in
      let probe := c_probe_locked cell in
      let seller_burn := Z.min probe (c_seller_locked cell) in
      let* refund := chain (u128_checked_add (c_buyer_locked cell) (c_buyer_bond cell))
        "stop: pre-probe buyer refund overflows uint128" in
      let* part := chain (u128_checked_add (c_burned cell) probe)
        "stop: pre-probe burn overflows uint128" in
      let* burned := chain (u128_checked_add part seller_burn)
        "stop: pre-probe burn overflows uint128" in
      let* refunded := chain (u128_checked_add (c_buyer_refunded cell) refund)
        "stop: cumulative buyer refund overflows uint128" in
      let* received := chain (u128_checked_add (c_seller_received cell)
                                (c_seller_locked cell - seller_burn))
        "stop: finalized seller amount overflows uint128" in
      let cell := release_locks (set_seller_received received
                    (set_buyer_refunded refunded (set_burned burned cell))) in
      let cell := set_closed true (set_machine (close (c_machine cell)) cell) in
      Ok (BurnBoth {| cb_buyer := cb_buyer burn; cb_buyer_refund := refund;
                      cb_seller := cb_seller burn; cb_seller_refund := cb_seller_refund burn |},
          cell)
  | _ => Err (Chain "stop: pre-probe state did not produce ProbeBurned")
  end.

(** After acceptance: promote what is due, charge the started week, pay the
    trusted tokens, close clean.  [t1] and [t2] are the two clock reads. *)
Definition stop_accepted (cell : StreamCell) (sub : DealSubscription) (t1 t2 : Z)
    : outcome ChainError (Settlement * StreamCell * DealSubscription) :=
  let* cell := promote_due cell t1 in
  let* ' (_, cell, sub) :=
    (if is_subscription sub then
       let* started := subscription_weeks_at sub t2 true in
       charge_subscription_through cell sub started
     else Ok (false, cell, sub)) in
  let trusted := c_tokens_final cell in
  let* ' (cell, sub) :=
    (if tokens_paid sub <? trusted then credit_tokens_through cell sub trusted
     else Ok (cell, sub)) in
  let* delivered := delivered_ticks cell in
  let* ' (_, m) := machine_err (buyer_stop (c_machine cell)) in
  let* ' (refund, cell) := close_mock_clean (set_machine m cell) delivered in
  let* paid_ticks := finalized_ticks (tokens_paid sub) in
  Ok (AmicableSplit paid_ticks refund,
      set_buyer_stop_settlement (Some (c_seller_received cell, refund)) cell, sub).

Definition stop_deal (cell : StreamCell) (sub : DealSubscription) (t1 t2 : Z)
    : outcome ChainError (Settlement * StreamCell * DealSubscription) :=
  fail_if c_closed cell with Chain "stop: is already closed" in
  fail_if c_disputed cell with Chain "stop: is disputed" in
  if negb (c_probe_accepted cell) then
    let* ' (s, cell) := stop_on_probe cell in Ok (s, cell, sub)
  else stop_accepted cell sub t1 t2.

(** ** The other deal operations *)
Definition open_cell (params : DobParams) (m : Match) (sub : DealSubscription)
    (max_ticks opened_at : Z) : outcome ChainError StreamCell :=
  let* ' (pay, fee) := token_pay_and_fee (funded_tokens sub) (m_price_per_tick m) in
  let* gross_deposit := chain (u128_checked_add pay fee)
    "open_stream: buyer deposit plus fee overflows uint128" in
  let probe := m_price_per_tick m in
  let* locked := chain (checked_sub gross_deposit probe)
    "open_stream: buyer deposit cannot freeze the probe" in
  Ok {| c_schema_version := STREAM_CELL_SCHEMA_VERSION;
        c_machine := open (m_price_per_tick m) params;
        c_probe_accepted := false;
        c_buyer_pubkey := m_buyer_pubkey m;
        c_seller_locked := 2 * m_price_per_tick m;
        c_buyer_locked := locked;
        c_probe_locked := probe;
        c_probe_time := opened_at;
        c_buyer_bond := if is_subscription sub then 2 * probe else 0;
        c_fee_accrued := 0;
        c_tokens_final := 0;
        c_tokens_pending := 0;
        c_last_claim_time := opened_at;
        c_seller_received := 0;
        c_buyer_refunded := 0;
        c_burned := 0;
        c_closed := false;
        c_max_ticks := max_ticks;
        c_disputed := false;
        c_dispute_time := 0;
        c_buyer_stop_settlement := None |}.

Definition finalize_deal (cell : StreamCell) (sub : DealSubscription) (now : Z)
    : outcome ChainError (StreamCell * DealSubscription) :=
  fail_if c_closed cell || c_disputed cell || negb (c_probe_accepted cell)
    with Chain "finalize: is not an open undisputed accepted deal" in
  let* due := has_due_claim cell now in
  fail_if negb due with Chain "finalize: has no claim whose promotion window elapsed" in
  let* cell := promote_due cell now in
  let* cell :=
    (if c_tokens_final cell =? c_tokens_pending cell then
       let* m := machine_err (on_promote (c_machine cell)) in Ok (set_machine m cell)
     else Ok cell) in
  if negb (is_subscription sub) && (funded_tokens sub <=? c_tokens_final cell) then
    let* ' (cell, sub) := credit_tokens_through cell sub (c_tokens_final cell) in
    let* delivered := delivered_ticks cell in
    let* ' (_, cell) := close_mock_clean cell delivered in
    Ok (cell, sub)
  else Ok (cell, sub).

Definition accept_probe_deal (cell : StreamCell) (sub : DealSubscription) (now : Z)
    : outcome ChainError (StreamCell * DealSubscription) :=
  fail_if c_closed cell || c_disputed cell || c_probe_accepted cell
    with Chain "accept_probe: is not an open undisputed probe" in
  let* deadline := chain (u64_checked_add (c_probe_time cell) (probe_window consts))
    "accept_probe: probe deadline overflows uint64" in
  fail_if now <? deadline with Chain "accept_probe: probe window is still open" in
  let* m := machine_err (on_probe_accepted (c_machine cell)) in
  let cell := set_probe_accepted true (set_machine m cell) in
  let probe := c_probe_locked cell in
  let* ' (_, fee) := token_pay_and_fee TICK_SIZE (price (c_machine cell)) in
  fail_if c_buyer_locked cell <? fee
    with Chain "accept_probe: probe fee exceeds buyer escrow" in
  let cell := set_probe_locked 0 (set_buyer_locked (c_buyer_locked cell - fee) cell) in
  let* received := chain (u128_checked_add (c_seller_received cell) probe)
    "accept_probe: seller proceeds overflow uint128" in
  let* accrued := chain (u128_checked_add (c_fee_accrued cell) fee)
    "accept_probe: accrued fee overflows uint128" in
  let cell := set_fee_accrued accrued (set_seller_received received cell) in
  let sub := set_period now 0 (set_tokens_paid TICK_SIZE sub) in
  let cell := set_last_claim_time now
                (set_tokens_pending TICK_SIZE (set_tokens_final TICK_SIZE cell)) in
  Ok (cell, sub).

(** The subscription's cap on a cumulative claim. *)
Definition claim_cap (cell : StreamCell) (sub : DealSubscription) : outcome ChainError Z :=
  if sub_weeks sub <=? week_index sub then Ok (c_tokens_pending cell)
  else
    let* cap := chain (u128_checked_add (week_base_tokens sub) (tokens_per_week sub))
      "claim_tokens: weekBaseTokens + tokensPerWeek overflows uint128" in
    Ok (Z.min cap (funded_tokens sub)).

(** The limits a claim must keep: volume, subscription cap, interval, delta and
    physical rate; the result is the claim's time. *)
Definition check_claim (cell : StreamCell) (sub : DealSubscription) (cumulative claim_time : Z)
    : outcome ChainError unit :=
  let* max_tokens := chain (u128_checked_mul (c_max_ticks cell) TICK_SIZE)
    "claim_tokens: maximum token volume overflows uint128" in
  fail_if max_tokens <? cumulative with Limit "claim_tokens: exceeds max_tokens" in
  let* _ :=
    (if is_subscription sub then
       let* cap := claim_cap cell sub in
       fail_if cap <? cumulative
         with Limit "claim_tokens: exceeds current subscription cap" in Ok tt
     else Ok tt) in
  let* elapsed := chain (checked_sub claim_time (c_last_claim_time cell))
    "claim_tokens: logical claim clock regresses" in
  fail_if elapsed <? min_claim_interval consts
    with Chain "claim_tokens: minimum claim interval is still open" in
  let delta := cumulative - c_tokens_pending cell in
  fail_if MAX_CLAIM_DELTA <? delta with Limit "claim_tokens: exceeds MAX_CLAIM_DELTA" in
  let* produced_time := chain (u128_checked_mul delta (min_seconds_per_tick consts))
    "claim_tokens: physical-rate numerator overflows uint128" in
  let* allowed_time := chain (u128_checked_mul elapsed TICK_SIZE)
    "claim_tokens: physical-rate allowance overflows uint128" in
  fail_if allowed_time <? produced_time
    with Limit "claim_tokens: exceeds the physical rate allowance" in
  Ok tt.

(** [None]: the equal-value retry, which stores nothing.  [t1] is the clock of
    the weekly charge, [t2] the claim time. *)
Definition claim_deal (cell : StreamCell) (sub : DealSubscription) (cumulative t1 t2 : Z)
    : outcome ChainError (option (StreamCell * DealSubscription)) :=
  fail_if c_closed cell || c_disputed cell || negb (c_probe_accepted cell)
    with Chain "claim_tokens: is not an open undisputed accepted deal" in
  fail_if on_probe (c_machine cell)
    with Chain "claim_tokens: persisted lifecycle disagrees with probe acceptance" in
  fail_if cumulative <? c_tokens_pending cell
    with Chain "claim_tokens: regresses pending total" in
  if cumulative =? c_tokens_pending cell then Ok None
  else
    let* ' (_, cell, sub) :=
      (if is_subscription sub then charge_elapsed_subscription_weeks cell sub t1
       else Ok (false, cell, sub)) in
    let* _ := check_claim cell sub cumulative t2 in
    let* cell := promote_due cell t2 in
    fail_if negb (c_tokens_pending cell =? c_tokens_final cell)
      with Chain "claim_tokens: pending claim slot is still inside its promotion window" in
    let* machine_ticks := chain (try_from U64_MAX (div_ceil cumulative TICK_SIZE))
      "claim_tokens: does not fit the lifecycle tick counter" in
    let* m := machine_err (on_claim (c_machine cell) machine_ticks) in
    Ok (Some (set_last_claim_time t2 (set_tokens_pending cumulative (set_machine m cell)), sub)).

Definition settle_week_deal (cell : StreamCell) (sub : DealSubscription) (now : Z)
    : outcome ChainError (StreamCell * DealSubscription) :=
  fail_if negb (is_subscription sub) with Chain "settle_week: is an ordinary deal" in
  let* ' (crossed, cell, sub) := charge_elapsed_subscription_weeks cell sub now in
  fail_if negb crossed && (week_index sub <? sub_weeks sub)
    with Chain "settle_week: has no crossed weekly boundary" in
  let* over :=
    (if sub_weeks sub <=? week_index sub
     then claim_deadline_reached (c_last_claim_time cell) (claim_promote_window consts) now
     else Ok false) in
  if over : bool then
    let* cell := promote_due cell now in
    let* cell :=
      (if c_tokens_final cell =? c_tokens_pending cell then
         let* m := machine_err (on_promote (c_machine cell)) in Ok (set_machine m cell)
       else Ok cell) in
    let trusted := c_tokens_final cell in
    let* ' (cell, sub) :=
      (if tokens_paid sub <? trusted then credit_tokens_through cell sub trusted
       else Ok (cell, sub)) in
    let* delivered := delivered_ticks cell in
    let* ' (_, cell) := close_mock_clean cell delivered in
    Ok (cell, sub)
  else Ok (cell, sub).

Definition dispute_deal (tc : TokenContract) (cell : StreamCell) (sub : DealSubscription) (at_ : Z)
    : outcome ChainError (Settlement * StreamCell) :=
  fail_if c_closed cell || c_disputed cell
    with Chain "dispute: is not an undisputed open deal" in
  let* bond_required := chain (u128_checked_mul (price (c_machine cell)) 2)
    "dispute: two-tick bond overflows uint128" in
  let buyer_bond_required := if is_subscription sub then bond_required else 0 in
  let buyer := String.append "mock:" (note_id_hex (c_buyer_pubkey cell)) in
  let pre_bonds := {| seller_bond_held := c_seller_locked cell;
                      seller_bond_required := bond_required;
                      buyer_bond_held := c_buyer_bond cell;
                      buyer_bond_required := buyer_bond_required |} in
  let cell := set_dispute_time at_ (set_disputed true
                (set_machine (buyer_dispute (c_machine cell)) cell)) in
  Ok (AuthoritativeReceipt {|
        sr_token_contract := tc;
        sr_action := Dispute;
        sr_message_id := String.append "mock:" (String.append tc (String.append ":dispute:"
                           (of_text (print_u128 at_))));
        sr_created_at := at_;
        sr_event := StreamDisputed buyer at_;
        sr_pre_bonds := pre_bonds;
        sr_post_state := Some {|
          ps_tokens_final := c_tokens_final cell; ps_tokens_pending := c_tokens_pending cell;
          ps_seller_bond_held := c_seller_locked cell; ps_seller_bond_required := bond_required;
          ps_buyer_bond_held := c_buyer_bond cell; ps_buyer_bond_required := buyer_bond_required;
          ps_opened := true; ps_disputed := true |} |}, cell).

(** The guards of a timeout; the source looks the deal's shape up after them. *)
Definition timeout_due (cell : StreamCell) (now : Z) : outcome ChainError unit :=
  fail_if negb (c_disputed cell) || (c_dispute_time cell =? 0)
    with Chain "resolve_dispute_timeout: is not in a timed dispute" in
  let* deadline := chain (u64_checked_add (c_dispute_time cell) (dispute_window consts))
    "resolve_dispute_timeout: dispute deadline overflows uint64" in
  fail_if now <? deadline
    with Chain "resolve_dispute_timeout: dispute window is still open" in
  Ok tt.
Definition resolve_timeout_deal (cell : StreamCell) (sub : DealSubscription)
    : outcome ChainError (Settlement * StreamCell * DealSubscription) :=
  let* ' (to_buyer, seller_bond, cell, sub) := resolve_mock_dispute cell sub true in
  Ok (SellerNoShow to_buyer seller_bond, cell, sub).

Definition release_dispute_deal (cell : StreamCell) (sub : DealSubscription)
    : outcome ChainError (Settlement * StreamCell * DealSubscription) :=
  let* ' (to_buyer, seller_bond, cell, sub) := resolve_mock_dispute cell sub false in
  Ok (SellerNoShow to_buyer seller_bond, cell, sub).

(** Seller's exit before acceptance: one price of his bond burns. *)
Definition seller_stop_on_probe (cell : StreamCell) : outcome ChainError (Settlement * StreamCell) :=
  let seller_burn := Z.min (price (c_machine cell)) (c_seller_locked cell) in
  let* part := chain (u128_checked_add (c_buyer_locked cell) (c_probe_locked cell))
    "seller_stop: pre-probe buyer refund overflows uint128" in
  let* refund := chain (u128_checked_add part (c_buyer_bond cell))
    "seller_stop: pre-probe buyer refund overflows uint128" in
  let* burned := chain (u128_checked_add (c_burned cell) seller_burn)
    "seller_stop: seller burn overflows uint128" in
  let* refunded := chain (u128_checked_add (c_buyer_refunded cell) refund)
    "seller_stop: cumulative buyer refund overflows uint128" in
  let* received := chain (u128_checked_add (c_seller_received cell)
                            (c_seller_locked cell - seller_burn))
    "seller_stop: finalized seller amount overflows uint128" in
  let cell := release_locks (set_seller_received received
                (set_buyer_refunded refunded (set_burned burned cell))) in
  Ok (AmicableSplit 0 refund, set_closed true (set_machine (close (c_machine cell)) cell)).

Definition seller_stop_deal (cell : StreamCell) (sub : DealSubscription) (t1 t2 : Z)
    : outcome ChainError (Settlement * StreamCell * DealSubscription) :=
  fail_if c_closed cell with Chain "seller_stop: is already closed" in
  fail_if c_disputed cell with Chain "seller_stop: is disputed" in
  if negb (c_probe_accepted cell) then
    let* ' (s, cell) := seller_stop_on_probe cell in Ok (s, cell, sub)
  else
    let* cell := promote_due cell t1 in
    let* ' (_, cell, sub) :=
      (if is_subscription sub then
         let* elapsed := subscription_weeks_at sub t2 false in
         charge_subscription_through cell sub elapsed
       else Ok (false, cell, sub)) in
    let trusted := c_tokens_final cell in
    let* ' (cell, sub) :=
      (if negb (is_subscription sub) && (tokens_paid sub <? trusted)
       then credit_tokens_through cell sub trusted else Ok (cell, sub)) in
    let* delivered := delivered_ticks cell in
    let* ' (_, m) := machine_err (seller_stop (c_machine cell)) in
    let* ' (refund, cell) := close_mock_clean (set_machine m cell) delivered in
    let* paid_ticks := finalized_ticks (tokens_paid sub) in
    Ok (AmicableSplit paid_ticks refund, cell, sub).
End Deal.
