(* ===== verification/MockDealInv.v ===== *)
(** * MockDealInv: the money and claim invariant of one mock deal

    The value of a deal is fixed when it opens: the fee-inclusive price of the
    funded tokens plus the bonds.  [deal_inv] says where that value is in each
    phase (probe, stream, closed), how far claims and weekly charges may have
    gone, and which timestamps are set.  Every operation of [MockDeal] keeps it. *)
From S2P Require Import Prelude Params Settle MarketTypes Machine MockDeal.

(** ** The exact price of a token volume *)
Section Cost.
Context (consts : ProtocolConsts).
Implicit Types t p : Z.

Definition pay_of t p : Z := t * p / TICK_SIZE.
Definition fee_of t p : Z := pay_of t p * platform_fee_bps consts / 10000.
Definition cost_of t p : Z := pay_of t p + fee_of t p.

Lemma checked_mul_div_floor_inv v m d ctx r :
  0 < d -> checked_mul_div_floor v m d ctx = Ok r -> r = v * m / d.
Proof.
  intros Hd H. unfold checked_mul_div_floor, chain in H. apply ok_or_ok in H.
  repeat ok_step H. checked_facts. subst. by rewrite div_split_mul.
Qed.

Lemma checked_mul_div_floor_total v m d ctx :
  0 < d -> 0 <= v -> 0 <= m -> v * m / d <= U128_MAX -> (d - 1) * m <= U128_MAX ->
  checked_mul_div_floor v m d ctx = Ok (v * m / d).
Proof.
  intros Hd Hv Hm Hr Hb. unfold checked_mul_div_floor, u128_checked_mul, u128_checked_add,
    checked_mul, checked_add, chain.
  pose proof (div_split_mul v m d Hd) as E.
  pose proof (Z.mod_pos_bound v d Hd).
  assert (0 <= v mod d * m / d) by (apply Z.div_pos; nia).
  rewrite (proj2 (Z.leb_le (v / d * m) _)) by lia.
  rewrite (proj2 (Z.leb_le (v mod d * m) _)) by nia.
  rewrite (proj2 (Z.leb_le (_ + _) _)) by lia. simpl. by rewrite E.
Qed.

Lemma token_pay_and_fee_inv t p r :
  token_pay_and_fee consts t p = Ok r -> r = (pay_of t p, fee_of t p).
Proof.
  unfold token_pay_and_fee. intros H. repeat ok_step H.
  apply checked_mul_div_floor_inv in E; [|unfold TICK_SIZE; lia].
  apply checked_mul_div_floor_inv in E0; [|lia]. unfold fee_of, pay_of. congruence.
Qed.

Lemma pay_of_nonneg t p : 0 <= t -> 0 <= p -> 0 <= pay_of t p.
Proof. intros. apply Z.div_pos; [nia|reflexivity]. Qed.
Lemma pay_of_super a b p : pay_of a p + pay_of b p <= pay_of (a + b) p.
Proof. unfold pay_of. rewrite Z.mul_add_distr_r. by apply div_add_floor. Qed.
Lemma pay_of_tick n p : pay_of (n * TICK_SIZE) p = n * p.
Proof.
  unfold pay_of. replace (n * TICK_SIZE * p) with (n * p * TICK_SIZE) by ring.
  by apply Z.div_mul.
Qed.

Context (Hc : consts_typed consts).

Lemma fee_bps_range : in_u32 (platform_fee_bps consts).
Proof. apply Hc. Qed.
Lemma fee_of_nonneg t p : 0 <= t -> 0 <= p -> 0 <= fee_of t p.
Proof.
  intros. pose proof fee_bps_range. pose proof (pay_of_nonneg t p).
  apply Z.div_pos; [unfold_ints; nia|lia].
Qed.
Lemma fee_of_super a b p : 0 <= a -> 0 <= b -> 0 <= p ->
  fee_of a p + fee_of b p <= fee_of (a + b) p.
Proof.
  intros. pose proof fee_bps_range. pose proof (pay_of_super a b p).
  etrans; [apply div_add_floor; lia|]. apply Z.div_le_mono; [lia|]. unfold_ints; nia.
Qed.
Lemma cost_of_nonneg t p : 0 <= t -> 0 <= p -> 0 <= cost_of t p.
Proof. intros. pose proof (pay_of_nonneg t p). pose proof (fee_of_nonneg t p). unfold cost_of. lia. Qed.

(** Costs are superadditive: paying in parts never exceeds paying at once. *)
Lemma cost_of_super a b p : 0 <= a -> 0 <= b -> 0 <= p ->
  cost_of a p + cost_of b p <= cost_of (a + b) p.
Proof.
  intros. pose proof (pay_of_super a b p). pose proof (fee_of_super a b p). unfold cost_of. lia.
Qed.
Lemma cost_of_mono a b p : 0 <= a <= b -> 0 <= p ->
  pay_of a p <= pay_of b p /\ fee_of a p <= fee_of b p /\ cost_of a p <= cost_of b p.
Proof.
  intros. pose proof (pay_of_super a (b - a) p). pose proof (fee_of_super a (b - a) p).
  pose proof (pay_of_nonneg (b - a) p). pose proof (fee_of_nonneg (b - a) p).
  replace (a + (b - a)) with b in * by lia. unfold cost_of. lia.
Qed.

Lemma token_pay_and_fee_total t p :
  0 <= t -> in_u64 p -> cost_of t p <= U128_MAX ->
  token_pay_and_fee consts t p = Ok (pay_of t p, fee_of t p).
Proof.
  intros Ht Hp Hx. pose proof fee_bps_range. pose proof (pay_of_nonneg t p Ht ltac:(ilia)).
  pose proof (fee_of_nonneg t p Ht ltac:(ilia)). unfold token_pay_and_fee, cost_of in *.
  assert (0 < TICK_SIZE) by reflexivity.
  rewrite checked_mul_div_floor_total;
    [|done|done|ilia|unfold pay_of, fee_of in *; lia|unfold TICK_SIZE; ilia].
  fold (pay_of t p).
  rewrite checked_mul_div_floor_total;
    [done|lia|done|ilia|unfold fee_of in *; lia|ilia].
Qed.
End Cost.

(** ** The invariant *)
Section Inv.
Context (consts : ProtocolConsts).
Implicit Types (c : StreamCell) (s : DealSubscription).

Definition cprice c : Z := price (c_machine c).
(** What the two sides hold in the contract when the deal opens. *)
Definition buyer_bond_of c s : Z := if is_subscription s then 2 * cprice c else 0.
Definition deal_value c s : Z :=
  cost_of consts (funded_tokens s) (cprice c) + 2 * cprice c + buyer_bond_of c s.
(** Every unit of the deal, wherever it is. *)
Definition total c : Z :=
  c_buyer_locked c + c_probe_locked c + c_buyer_bond c + c_fee_accrued c + c_seller_locked c
  + c_seller_received c + c_buyer_refunded c + c_burned c.

(** The weekly plan: an ordinary deal has none; a subscription splits the
    funded tokens into four equal weeks of at least one tick. *)
Definition weeks_ok s : Prop :=
  (sub_weeks s = 0 /\ week_index s = 0 /\ tokens_per_week s = funded_tokens s /\
   week_base_tokens s = 0) \/
  (sub_weeks s = SUBSCRIPTION_WEEKS /\ 0 <= week_index s <= SUBSCRIPTION_WEEKS /\
   funded_tokens s = tokens_per_week s * SUBSCRIPTION_WEEKS /\ TICK_SIZE <= tokens_per_week s).

(** Facts that hold in every phase. *)
Record deal_shape c s : Prop := {
  sh_schema : c_schema_version c = STREAM_CELL_SCHEMA_VERSION;
  sh_price : 0 < cprice c <= U64_MAX;
  sh_bond : seller_bond (c_machine c) = 2 * cprice c;
  sh_ticks : 2 <= c_max_ticks c <= U64_MAX;
  sh_funded : funded_tokens s = c_max_ticks c * TICK_SIZE;
  sh_weeks : weeks_ok s;
  sh_cost : cost_of consts (funded_tokens s) (cprice c) <= U128_MAX;
  sh_base : 0 <= week_base_tokens s <= funded_tokens s;
  sh_paid : 0 <= tokens_paid s <= funded_tokens s;
  sh_claims : 0 <= c_tokens_final c <= c_tokens_pending c /\
              c_tokens_pending c <= funded_tokens s
}.

(** Opened, probe not accepted: the probe is frozen, nothing is paid. *)
Record probe_phase c s : Prop := {
  pr_claims : c_tokens_pending c = 0;
  pr_sub : tokens_paid s = 0 /\ week_index s = 0 /\ week_base_tokens s = 0;
  pr_buyer : c_buyer_locked c = cost_of consts (funded_tokens s) (cprice c) - cprice c;
  pr_probe : c_probe_locked c = cprice c;
  pr_bond : c_buyer_bond c = buyer_bond_of c s;
  pr_seller : c_seller_locked c = 2 * cprice c;
  pr_paid : c_fee_accrued c = 0 /\ c_seller_received c = 0;
  pr_out : c_buyer_refunded c = 0 /\ c_burned c = 0;
  pr_machine : state (c_machine c) =
    if c_disputed c then Disputed 0 0 else Probe {| tick_index := 0; tick_price := cprice c |}
}.

(** Accepted and not closed: the seller and the fee accrual hold exactly the
    price of [tokens_paid]; claims stay within the recorded week. *)
Record stream_books c s : Prop := {
  st_claims : TICK_SIZE <= c_tokens_final c;
  st_week0 : week_index s = 0 -> tokens_paid s = TICK_SIZE /\ week_base_tokens s = 0;
  st_paid_weeks : 0 < week_index s -> tokens_paid s = week_index s * tokens_per_week s;
  st_cap : c_tokens_pending c <= week_base_tokens s + tokens_per_week s;
  st_base : week_base_tokens s <= week_index s * tokens_per_week s /\
            week_base_tokens s <= c_tokens_pending c;
  st_over : is_subscription s = true -> week_index s = sub_weeks s ->
            c_tokens_pending c = week_base_tokens s;
  st_buyer : c_buyer_locked c =
    cost_of consts (funded_tokens s) (cprice c) - cost_of consts (tokens_paid s) (cprice c);
  st_probe : c_probe_locked c = 0;
  st_bond : c_buyer_bond c = buyer_bond_of c s;
  st_seller : c_seller_locked c = 2 * cprice c;
  st_paid : c_fee_accrued c = fee_of consts (tokens_paid s) (cprice c) /\
            c_seller_received c = pay_of (tokens_paid s) (cprice c);
  st_out : c_buyer_refunded c = 0 /\ c_burned c = 0
}.
(** The tick counters of the machine round the raw tokens up. *)
Definition machine_synced c : Prop :=
  state (c_machine c) =
    let trusted := div_ceil (c_tokens_final c) TICK_SIZE in
    let pending := div_ceil (c_tokens_pending c) TICK_SIZE in
    if c_disputed c then Disputed trusted (pending - trusted) else Streaming trusted pending.
Definition stream_phase c s : Prop := stream_books c s /\ machine_synced c.

(** Closed: nothing is held any more and the deal's value is paid out in full. *)
Record closed_phase c s : Prop := {
  cl_locks : c_buyer_locked c = 0 /\ c_probe_locked c = 0 /\ c_buyer_bond c = 0 /\
             c_seller_locked c = 0 /\ c_fee_accrued c = 0;
  cl_out : 0 <= c_seller_received c /\ 0 <= c_buyer_refunded c /\ 0 <= c_burned c;
  cl_value : total c = deal_value c s;
  cl_disputed : c_disputed c = false;
  cl_machine : state (c_machine c) = Closed;
  cl_claims : if c_probe_accepted c then TICK_SIZE <= c_tokens_final c
              else c_tokens_pending c = 0
}.

Definition phase c s : Prop :=
  if c_closed c then closed_phase c s
  else if c_probe_accepted c then stream_phase c s else probe_phase c s.

Record deal_times c s (now : Z) : Prop := {
  tm_probe : 0 < c_probe_time c <= now;
  tm_claim : 0 < c_last_claim_time c <= now;
  tm_period : 0 <= period_start s <= c_last_claim_time c;
  tm_dispute : 0 <= c_dispute_time c <= now;
  tm_disputed : c_disputed c = true -> 0 < c_dispute_time c;
  tm_open : c_disputed c = false -> c_closed c = false -> c_dispute_time c = 0;
  tm_order : c_dispute_time c <> 0 -> c_last_claim_time c <= c_dispute_time c
}.

Definition deal_inv c s now : Prop := deal_shape c s /\ phase c s /\ deal_times c s now.

Lemma deal_times_later c s now now' : now <= now' -> deal_times c s now -> deal_times c s now'.
Proof. intros ? []. constructor; auto; lia. Qed.
Lemma deal_inv_later c s now now' : now <= now' -> deal_inv c s now -> deal_inv c s now'.
Proof. intros ? (?&?&?). split_and!; auto. by eapply deal_times_later. Qed.
End Inv.

(** ** What the money helpers do *)

Ltac deal_simpl :=
  unfold deal_value, buyer_bond_of, total, cprice, chain, pending_tokens in *; simpl in *.
(** Invert one checked step after another down to the [Ok] leaf. *)
Ltac run H := inv_ok H; checked_facts; simplify_eq.

(** [pay] to the seller and [fee] to the accrual, out of the escrow. *)
Definition pay_out (c : StreamCell) (pay fee : Z) : StreamCell :=
  set_fee_accrued (c_fee_accrued c + fee)
    (set_seller_received (c_seller_received c + pay)
      (set_buyer_locked (c_buyer_locked c - (pay + fee)) c)).

Lemma debit_escrow_inv c pay fee c' :
  debit_escrow c pay fee = Ok c' -> pay + fee <= c_buyer_locked c /\ c' = pay_out c pay fee.
Proof.
  unfold debit_escrow, chain. intros H. run H. split; [lia|reflexivity].
Qed.

Lemma debit_escrow_total c pay fee :
  0 <= pay -> 0 <= fee -> pay + fee <= c_buyer_locked c ->
  c_buyer_locked c + c_seller_received c <= U128_MAX ->
  c_buyer_locked c + c_fee_accrued c <= U128_MAX ->
  0 <= c_seller_received c -> 0 <= c_fee_accrued c ->
  debit_escrow c pay fee = Ok (pay_out c pay fee).
Proof.
  intros. unfold debit_escrow, chain, u128_checked_add, checked_add, pay_out.
  rewrite (proj2 (Z.leb_le (pay + fee) _)) by lia. simpl.
  rewrite (proj2 (Z.ltb_ge _ _)) by lia.
  rewrite (proj2 (Z.leb_le (c_seller_received c + pay) _)) by lia. simpl.
  by rewrite (proj2 (Z.leb_le (c_fee_accrued c + fee) _)) by lia.
Qed.

Lemma claim_deadline_inv at_ w now b :
  claim_deadline_reached at_ w now = Ok b -> b = (at_ + w <=? now) /\ at_ + w <= U64_MAX.
Proof. unfold claim_deadline_reached, chain. intros H. run H. done. Qed.
Lemma claim_deadline_total at_ w now :
  at_ + w <= U64_MAX -> claim_deadline_reached at_ w now = Ok (at_ + w <=? now).
Proof.
  intros. unfold claim_deadline_reached, chain, u64_checked_add, checked_add.
  by rewrite (proj2 (Z.leb_le (at_ + w) _)) by lia.
Qed.

Lemma weeks_at_inv s now b w :
  subscription_weeks_at s now b = Ok w ->
  period_start s <= now /\
  let e := Z.min ((now - period_start s) / SUB_WEEK_LEN) (sub_weeks s) in
  w = if b && (e <? sub_weeks s) then e + 1 else e.
Proof. unfold subscription_weeks_at, chain. intros H. run H. done. Qed.

Lemma weeks_at_bounds s now b w :
  0 <= sub_weeks s -> subscription_weeks_at s now b = Ok w -> 0 <= w <= sub_weeks s.
Proof.
  intros Hs H. apply weeks_at_inv in H as [Hn ->].
  assert (0 <= (now - period_start s) / SUB_WEEK_LEN) by (apply Z.div_pos; [lia|reflexivity]).
  set (e := Z.min _ _). assert (0 <= e <= sub_weeks s) by (unfold e; lia).
  destruct b; simpl; [destruct (Z.ltb_spec e (sub_weeks s))|]; lia.
Qed.

Lemma weeks_at_total s now b :
  0 <= sub_weeks s < U8_MAX -> period_start s <= now ->
  exists w, subscription_weeks_at s now b = Ok w.
Proof.
  intros Hs Hn. unfold subscription_weeks_at, chain, checked_sub.
  rewrite (proj2 (Z.leb_le (period_start s) now)) by lia. simpl.
  assert (0 <= (now - period_start s) / SUB_WEEK_LEN) by (apply Z.div_pos; [lia|reflexivity]).
  set (e := Z.min _ _). assert (0 <= e <= sub_weeks s) by (unfold e; lia).
  unfold try_from. eexists. rewrite (proj2 (Z.leb_le _ U8_MAX)); [reflexivity|].
  destruct (b && (e <? sub_weeks s)); lia.
Qed.

(** [subscription_weeks_at] with [include_started] is past the completed weeks. *)
Lemma weeks_started_covers s t t' w w' :
  0 <= sub_weeks s -> t <= t' ->
  subscription_weeks_at s t false = Ok w -> subscription_weeks_at s t' true = Ok w' ->
  w <= w' /\ (w < sub_weeks s -> w < w').
Proof.
  intros Hs Ht H H'. apply weeks_at_inv in H as [Hn ->]. apply weeks_at_inv in H' as [Hn' ->].
  simpl. assert ((t - period_start s) / SUB_WEEK_LEN <= (t' - period_start s) / SUB_WEEK_LEN)
    by (apply Z.div_le_mono; [reflexivity|lia]).
  set (a := (t - _) / _) in *. set (b := (t' - _) / _) in *.
  destruct (Z.ltb_spec (Z.min b (sub_weeks s)) (sub_weeks s)); lia.
Qed.

Section Money.
Context (consts : ProtocolConsts) (Hc : consts_typed consts).
Implicit Types (c : StreamCell) (s : DealSubscription).

Lemma credit_token_delta_inv c t c' :
  credit_token_delta consts c t = Ok c' ->
  cost_of consts t (cprice c) <= c_buyer_locked c /\
  c' = pay_out c (pay_of t (cprice c)) (fee_of consts t (cprice c)).
Proof.
  unfold credit_token_delta. intros H. repeat ok_step H.
  apply token_pay_and_fee_inv in E. injection E as -> ->. by apply debit_escrow_inv in H.
Qed.

Lemma credit_tokens_through_inv c s t c' s' :
  credit_tokens_through consts c s t = Ok (c', s') ->
  tokens_paid s <= t <= funded_tokens s /\ s' = set_tokens_paid t s /\
  cost_of consts t (cprice c) - cost_of consts (tokens_paid s) (cprice c) <= c_buyer_locked c /\
  c' = pay_out c (pay_of t (cprice c) - pay_of (tokens_paid s) (cprice c))
         (fee_of consts t (cprice c) - fee_of consts (tokens_paid s) (cprice c)).
Proof.
  unfold credit_tokens_through, chain. intros H. repeat ok_step H.
  repeat match goal with
  | E : token_pay_and_fee _ _ _ = Ok _ |- _ => apply token_pay_and_fee_inv in E; simplify_eq
  end. checked_facts. subst.
  match goal with E : debit_escrow _ _ _ = _ |- _ => apply debit_escrow_inv in E as [? ->] end.
  simplify_eq. unfold cost_of, cprice in *. split_and!; [lia|lia|done|lia|done].
Qed.

Lemma charge_inv c s w b c' s' :
  charge_subscription_through consts c s w = Ok (b, c', s') ->
  (b = false /\ w <= week_index s /\ c' = c /\ s' = s) \/
  (b = true /\ week_index s < w /\
   exists s1, credit_tokens_through consts c s (w * tokens_per_week s) = Ok (c', s1) /\
     s' = set_week w (c_tokens_pending c) s1).
Proof.
  unfold charge_subscription_through, chain. intros H. ok_step H.
  - simplify_eq. left. split_and!; auto; lia.
  - right. repeat ok_step H. checked_facts. subst. simplify_eq.
    split_and!; [done|lia|]. eexists. split; [done|]. f_equal.
    match goal with E : credit_tokens_through _ _ _ _ = _ |- _ =>
      apply credit_tokens_through_inv in E as (_ & _ & _ & ->) end. done.
Qed.
End Money.

(** ** Charging weeks keeps the stream's books *)

(** Two cells that differ in money only. *)
Record same_run (c c' : StreamCell) : Prop := {
  sr_machine : c_machine c' = c_machine c;
  sr_flags : c_probe_accepted c' = c_probe_accepted c /\ c_closed c' = c_closed c /\
             c_disputed c' = c_disputed c;
  sr_claims : c_tokens_final c' = c_tokens_final c /\ c_tokens_pending c' = c_tokens_pending c;
  sr_times : c_probe_time c' = c_probe_time c /\ c_last_claim_time c' = c_last_claim_time c /\
             c_dispute_time c' = c_dispute_time c;
  sr_static : c_schema_version c' = c_schema_version c /\ c_max_ticks c' = c_max_ticks c /\
              c_buyer_pubkey c' = c_buyer_pubkey c /\
              c_buyer_stop_settlement c' = c_buyer_stop_settlement c
}.
(** Two deal shapes that differ in progress only. *)
Record same_terms (s s' : DealSubscription) : Prop := {
  ster_flags : deal_flags s' = deal_flags s;
  ster_weeks : sub_weeks s' = sub_weeks s;
  ster_tpw : tokens_per_week s' = tokens_per_week s;
  ster_funded : funded_tokens s' = funded_tokens s
}.

#[global] Instance same_run_preorder : PreOrder same_run.
Proof.
  split; [by intros c; constructor|]. intros a b d [] []. destruct_and!.
  constructor; split_and?; etrans; eauto.
Qed.
#[global] Instance same_terms_preorder : PreOrder same_terms.
Proof. split; [by intros c; constructor|]. intros a b d [] []. constructor; etrans; eauto. Qed.

Lemma pay_out_run c pay fee : same_run c (pay_out c pay fee).
Proof. by constructor. Qed.

Section Charge.
Context (consts : ProtocolConsts) (Hc : consts_typed consts).
Implicit Types (c : StreamCell) (s : DealSubscription).

Lemma is_subscription_weeks s : weeks_ok s -> is_subscription s = true ->
  sub_weeks s = 4 /\ 0 <= week_index s <= 4 /\ funded_tokens s = tokens_per_week s * 4 /\
  TICK_SIZE <= tokens_per_week s.
Proof.
  unfold weeks_ok, is_subscription, SUBSCRIPTION_WEEKS. intros [(-> & _)|?]; [done|]. intuition lia.
Qed.
Lemma is_ordinary_weeks s : weeks_ok s -> is_subscription s = false ->
  sub_weeks s = 0 /\ week_index s = 0 /\ tokens_per_week s = funded_tokens s /\
  week_base_tokens s = 0.
Proof.
  unfold weeks_ok, is_subscription, SUBSCRIPTION_WEEKS. intros [?|(Hw & _)]; [done|].
  rewrite Hw. done.
Qed.

Lemma charge_keeps c s w b c' s' :
  deal_shape consts c s -> stream_books consts c s -> is_subscription s = true ->
  w <= sub_weeks s -> charge_subscription_through consts c s w = Ok (b, c', s') ->
  deal_shape consts c' s' /\ stream_books consts c' s' /\ same_run c c' /\ same_terms s s' /\
  period_start s' = period_start s /\ week_index s' = Z.max w (week_index s) /\
  (b = false -> w <= week_index s).
Proof.
  intros Hsh Hst Hsub Hw H.
  destruct (charge_inv _ _ _ _ _ _ _ H) as [(-> & Hle & -> & ->)|(-> & Hlt & s1 & Hcr & ->)].
  { split_and!; try done. lia. }
  apply credit_tokens_through_inv in Hcr as (Ht & -> & _ & ->).
  destruct Hsh, Hst. destruct (is_subscription_weeks s sh_weeks0 Hsub) as (W1 & W2 & W3 & W4).
  assert (0 <= tokens_per_week s) by (unfold TICK_SIZE in *; lia).
  assert (week_index s * tokens_per_week s + tokens_per_week s <= w * tokens_per_week s) by nia.
  assert (w * tokens_per_week s <= 4 * tokens_per_week s) by nia.
  split_and!; try done; [constructor|constructor|simpl; lia]; unfold weeks_ok, is_subscription in *;
    deal_simpl; try done; try lia; try nia.
  unfold cost_of in *. lia.
Qed.
End Charge.

(** ** Closing pays everything out *)

(** [c'] is [c] with every lock paid out. *)
Record closed_from (c c' : StreamCell) : Prop := {
  cf_closed : c_closed c' = true;
  cf_locks : c_buyer_locked c' = 0 /\ c_probe_locked c' = 0 /\ c_buyer_bond c' = 0 /\
             c_seller_locked c' = 0 /\ c_fee_accrued c' = 0;
  cf_out : 0 <= c_seller_received c' /\ 0 <= c_buyer_refunded c' /\ 0 <= c_burned c';
  cf_total : total c' = total c;
  cf_machine : state (c_machine c') = Closed /\ price (c_machine c') = price (c_machine c) /\
               seller_bond (c_machine c') = seller_bond (c_machine c);
  cf_accepted : c_probe_accepted c' = c_probe_accepted c;
  cf_claims : c_tokens_final c' = c_tokens_final c /\ c_tokens_pending c' = c_tokens_pending c;
  cf_times : c_probe_time c' = c_probe_time c /\ c_last_claim_time c' = c_last_claim_time c /\
             c_dispute_time c' = c_dispute_time c;
  cf_static : c_schema_version c' = c_schema_version c /\ c_max_ticks c' = c_max_ticks c /\
              c_buyer_pubkey c' = c_buyer_pubkey c
}.

(** Amounts are unsigned. *)
Record amounts_ok (c : StreamCell) : Prop := {
  am_locks : 0 <= c_buyer_locked c /\ 0 <= c_probe_locked c /\ 0 <= c_buyer_bond c /\
             0 <= c_seller_locked c /\ 0 <= c_fee_accrued c;
  am_out : 0 <= c_seller_received c /\ 0 <= c_buyer_refunded c /\ 0 <= c_burned c
}.

Section Close.
Context (consts : ProtocolConsts) (Hc : consts_typed consts).
Implicit Types (c : StreamCell) (s : DealSubscription).

Lemma rebate_rate_nonneg n :
  0 <= n -> 0 <= Z.min (saturating_mul U128_MAX (rebate_slope_bps consts) n) (rebate_max_bps consts).
Proof.
  intros. destruct Hc as (_&_&_&_&_&_&H1&H2). unfold saturating_mul.
  assert (0 <= rebate_slope_bps consts * n) by (unfold_ints; nia). ilia.
Qed.

Lemma settle_fees_inv c d clean c' :
  0 <= cprice c -> 0 <= d -> 0 <= c_fee_accrued c -> settle_mock_fees consts c d clean = Ok c' ->
  exists r, 0 <= r <= c_fee_accrued c /\ (clean = false -> r = 0) /\
    c' = set_fee_accrued 0 (set_burned (c_burned c + (c_fee_accrued c - r))
           (set_seller_received (c_seller_received c + r) c)).
Proof.
  intros Hp Hd Hf H. unfold settle_mock_fees, chain in H. ok_step H.
  assert (Hr : 0 <= a <= c_fee_accrued c /\ (clean = false -> a = 0)).
  { destruct clean; [|simplify_eq; lia]. repeat ok_step E. simplify_eq. checked_facts. subst.
    apply checked_mul_div_floor_inv in E1; [|lia]. pose proof (rebate_rate_nonneg d Hd).
    assert (0 <= a1) by (subst a1; apply Z.div_pos; [unfold cprice in *; nia|lia]).
    split; [lia|done]. }
  exists a. run H. intuition.
Qed.

Lemma close_clean_inv c d r c' :
  0 <= cprice c -> 0 <= d -> amounts_ok c -> close_mock_clean consts c d = Ok (r, c') ->
  closed_from c c' /\ c_disputed c' = c_disputed c /\
  r = c_buyer_locked c + c_probe_locked c + c_buyer_bond c /\
  c_buyer_refunded c' = c_buyer_refunded c + r.
Proof.
  intros Hp Hd [Hl Ho] H. unfold close_mock_clean, chain in H. ok_step H.
  apply settle_fees_inv in E as (reb & Hr & _ & ->); [|lia..]. run H.
  split_and!; [constructor|..]; simpl; try done; try lia. unfold total; simpl. lia.
Qed.

Lemma probe_books c s : deal_shape consts c s -> probe_phase consts c s ->
  amounts_ok c /\ total c = deal_value consts c s.
Proof.
  intros [] []. assert (2 * cprice c <= cost_of consts (funded_tokens s) (cprice c)).
  { rewrite sh_funded0. unfold cost_of. rewrite pay_of_tick.
    pose proof (fee_of_nonneg consts Hc (c_max_ticks c * TICK_SIZE) (cprice c)).
    unfold TICK_SIZE in *. nia. }
  split; [constructor|]; unfold total, deal_value, buyer_bond_of in *;
    destruct (is_subscription s); lia.
Qed.

Lemma stream_books_total c s : deal_shape consts c s -> stream_books consts c s ->
  amounts_ok c /\ total c = deal_value consts c s.
Proof.
  intros [] []. destruct (cost_of_mono consts Hc (tokens_paid s) (funded_tokens s) (cprice c))
    as (_ & _ & Hm); [lia..|].
  pose proof (pay_of_nonneg (tokens_paid s) (cprice c)).
  pose proof (fee_of_nonneg consts Hc (tokens_paid s) (cprice c)).
  split; [constructor|]; unfold total, deal_value, buyer_bond_of, cost_of in *;
    destruct (is_subscription s); lia.
Qed.

(** A cell closed from sound books is a closed deal. *)
Lemma closed_from_inv c c' s' now :
  deal_shape consts c s' -> total c = deal_value consts c s' -> closed_from c c' -> c_disputed c' = false ->
  (if c_probe_accepted c then TICK_SIZE <= c_tokens_final c else c_tokens_pending c = 0) ->
  deal_times c' s' now -> deal_inv consts c' s' now.
Proof.
  intros [] Ht [] Hd Hcl Htm. destruct_and!.
  assert (cprice c' = cprice c) as Hp by (unfold cprice; congruence).
  assert (total c' = deal_value consts c' s') as Ht'.
  { rewrite cf_total0, Ht. unfold deal_value, buyer_bond_of. by rewrite Hp. }
  destruct c'; simpl in *; subst.
  split_and!; [constructor|unfold phase|done]; simpl; rewrite ?Hp; try done.
  congruence.
Qed.
End Close.
