(* ===== verification/MockDealOps.v ===== *)
(** * MockDealOps: every deal operation keeps the deal invariant

    Preservation of [deal_inv] by the operations of [MockDeal], one lemma per
    operation, and what each leaves unchanged ([deal_frame]). *)
From S2P Require Import Prelude Params Settle MarketTypes Machine MockDeal MockDealInv.

(** The identity of a deal: terms, buyer, volume and price never change. *)
Record deal_frame (c : StreamCell) (s : DealSubscription) (c' : StreamCell) (s' : DealSubscription)
    : Prop := {
  fr_terms : same_terms s s';
  fr_buyer : c_buyer_pubkey c' = c_buyer_pubkey c;
  fr_ticks : c_max_ticks c' = c_max_ticks c;
  fr_price : cprice c' = cprice c
}.

Lemma deal_frame_refl c s : deal_frame c s c s.
Proof. by constructor. Qed.
Lemma deal_frame_closed c s c1 s' c' :
  deal_frame c s c1 s' -> closed_from c1 c' -> deal_frame c s c' s'.
Proof.
  intros [] []. destruct_and!. constructor; try done; unfold cprice in *; congruence.
Qed.
Lemma same_terms_sub s s' : same_terms s s' -> is_subscription s' = is_subscription s.
Proof. intros [? Hw ? ?]. unfold is_subscription. by rewrite Hw. Qed.

Section Ops.
Context (consts : ProtocolConsts) (Hc : consts_typed consts).
Implicit Types (c : StreamCell) (s : DealSubscription).

Lemma deal_value_frame c s c' s' :
  deal_frame c s c' s' -> deal_value consts c' s' = deal_value consts c s.
Proof.
  intros [T ? ? P]. unfold deal_value, buyer_bond_of.
  by rewrite (same_terms_sub _ _ T), (ster_funded _ _ T), P.
Qed.

(** In every phase the deal holds or has paid out exactly its value. *)
Lemma deal_inv_total c s now : deal_inv consts c s now ->
  amounts_ok c /\ total c = deal_value consts c s.
Proof.
  intros (Hs & Hp & _). unfold phase in Hp. destruct (c_closed c).
  - destruct Hp. split; [constructor; lia|done].
  - destruct (c_probe_accepted c); [|by apply probe_books].
    destruct Hp. by apply stream_books_total.
Qed.

Lemma delivered_nonneg c d : 0 <= c_tokens_final c -> delivered_ticks c = Ok d -> 0 <= d.
Proof.
  unfold delivered_ticks, finalized_ticks, chain. intros Hf H. run H.
  assert (0 <= c_tokens_final c / TICK_SIZE) by (apply Z.div_pos; [lia|reflexivity]).
  destruct (c_probe_accepted c); lia.
Qed.

(** ** Promotion *)
Definition promoted c : StreamCell := set_tokens_final (c_tokens_pending c) c.

Lemma promote_due_inv c now c' :
  c_tokens_final c <= c_tokens_pending c -> promote_due consts c now = Ok c' ->
  c' = c \/ c' = promoted c.
Proof.
  unfold promote_due, promote_once. intros Hle H. repeat ok_step H. simplify_eq.
  destruct a; [|by left]. destruct (_ <? _); [by right|by left].
Qed.

Lemma promote_keeps c s now c' :
  deal_shape consts c s -> stream_books consts c s -> promote_due consts c now = Ok c' ->
  deal_shape consts c' s /\ stream_books consts c' s /\ deal_frame c s c' s /\
  c_machine c' = c_machine c /\ c_closed c' = c_closed c /\ c_disputed c' = c_disputed c /\
  c_probe_accepted c' = c_probe_accepted c /\ c_tokens_pending c' = c_tokens_pending c /\
  c_tokens_final c <= c_tokens_final c' /\
  (forall t, deal_times c s t -> deal_times c' s t).
Proof.
  intros Hs Hb H. destruct (promote_due_inv c now c') as [->| ->]; [apply Hs|done|..].
  { split_and!; try done. }
  destruct Hs, Hb. split_and!; try done; try (constructor; unfold buyer_bond_of in *; deal_simpl; try done; lia).
  - simpl. lia.
  - intros t []. by constructor.
Qed.

Lemma closed_from_times c c' s now :
  closed_from c c' -> c_disputed c' = false -> deal_times c s now -> deal_times c' s now.
Proof.
  intros [] Hd []. destruct_and!. destruct c'; simpl in *; subst. by constructor.
Qed.

(** Paying for tokens moves value from the escrow to the seller and the fees. *)
Lemma pay_out_keeps c pay fee :
  amounts_ok c -> 0 <= pay -> 0 <= fee -> pay + fee <= c_buyer_locked c ->
  amounts_ok (pay_out c pay fee) /\ total (pay_out c pay fee) = total c.
Proof. intros [] ? ? ?. split; [constructor|]; deal_simpl; lia. Qed.

Lemma credit_keeps c s t c' s' :
  deal_shape consts c s -> amounts_ok c -> credit_tokens_through consts c s t = Ok (c', s') ->
  deal_shape consts c' s' /\ amounts_ok c' /\ total c' = total c /\ deal_frame c s c' s' /\
  same_run c c' /\ period_start s' = period_start s.
Proof.
  intros Hs Ha H. apply credit_tokens_through_inv in H as (Ht & -> & Hb & ->). pose proof Hs as [].
  destruct (cost_of_mono consts Hc (tokens_paid s) t (cprice c)) as (? & ? & ?); [lia..|].
  destruct (pay_out_keeps c (pay_of t (cprice c) - pay_of (tokens_paid s) (cprice c))
    (fee_of consts t (cprice c) - fee_of consts (tokens_paid s) (cprice c))) as [? ?];
    [done|lia|lia|unfold cost_of in *; lia|].
  split_and!; try done. constructor; deal_simpl; try done; lia.
Qed.

Lemma same_run_times c c' s s' t :
  same_run c c' -> period_start s' = period_start s -> deal_times c s t -> deal_times c' s' t.
Proof.
  intros [] Hp []. destruct_and!. destruct c'; simpl in *; subst. constructor; simpl; auto.
  by rewrite Hp.
Qed.

(** Close clean from sound books. *)
Lemma close_keeps c0 s0 c s d r c' now :
  deal_shape consts c s -> amounts_ok c -> total c = deal_value consts c s ->
  TICK_SIZE <= c_tokens_final c -> deal_frame c0 s0 c s ->
  c_disputed c = false -> c_probe_accepted c = true ->
  deal_times c s now -> 0 <= d -> close_mock_clean consts c d = Ok (r, c') ->
  deal_inv consts c' s now /\ deal_frame c0 s0 c' s /\ c_closed c' = true.
Proof.
  intros Hs Ham Htot Htk Hf Hd Ha Ht Hdel H. pose proof Hs as [].
  apply (close_clean_inv consts Hc) in H as (Hcf & Hdis & _); [|lia|done|done].
  split_and!; [|by eapply deal_frame_closed|apply Hcf].
  eapply (closed_from_inv consts c); eauto; [by rewrite Ha|].
  eapply closed_from_times; eauto; congruence.
Qed.

(** ** Opening and the probe *)
Lemma open_cell_inv params m s ticks at_ c :
  0 < m_price_per_tick m <= U64_MAX -> 2 <= ticks <= U64_MAX ->
  funded_tokens s = ticks * TICK_SIZE -> weeks_ok s ->
  tokens_paid s = 0 -> week_index s = 0 -> week_base_tokens s = 0 ->
  0 < at_ -> 0 <= period_start s <= at_ ->
  open_cell consts params m s ticks at_ = Ok c ->
  deal_inv consts c s at_ /\ c_buyer_pubkey c = m_buyer_pubkey m /\ c_max_ticks c = ticks /\
  cprice c = m_price_per_tick m.
Proof.
  intros Hp Ht Hf Hw H1 H2 H3 Hat Hper H. unfold open_cell, chain in H. repeat ok_step H.
  simplify_eq. apply token_pay_and_fee_inv in E. simplify_eq. checked_facts. subst.
  assert (0 <= funded_tokens s) by (unfold TICK_SIZE in *; lia).
  split; [|done]. split_and!; [constructor|unfold phase; simpl; constructor|constructor];
    deal_simpl; rewrite ?H1, ?H2, ?H3; try done; unfold cost_of; try lia.
Qed.

Lemma accept_probe_inv c s now0 now c' s' :
  deal_inv consts c s now0 -> now0 <= now -> accept_probe_deal consts c s now = Ok (c', s') ->
  deal_inv consts c' s' now /\ deal_frame c s c' s'.
Proof.
  intros (Hs & Hp & Ht) Hn H. unfold accept_probe_deal, chain in H. ok_step H.
  apply orb_false_iff in E as [E Ha]. apply orb_false_iff in E as [Ho Hd].
  unfold phase in Hp. rewrite Ho, Ha in Hp. destruct Hp. rewrite Hd in pr_machine.
  ok_step H. ok_step H. ok_step H. unfold on_probe_accepted in E1. rewrite pr_machine in E1.
  simpl in E1. simplify_eq. unfold token_pay_and_fee in H. simpl in H.
  fold (token_pay_and_fee consts TICK_SIZE (price (c_machine c))) in H. repeat ok_step H. simplify_eq. simpl in *.
  apply token_pay_and_fee_inv in E1. simplify_eq. checked_facts. subst.
  assert (pay_of TICK_SIZE (price (c_machine c)) = price (c_machine c)) as Hpay
    by (rewrite <- (Z.mul_1_l TICK_SIZE), pay_of_tick; lia).
  destruct Hs, Ht. assert (TICK_SIZE <= tokens_per_week s).
  { destruct sh_weeks; unfold TICK_SIZE in *; lia. }
  assert (TICK_SIZE * 2 <= funded_tokens s) by (unfold TICK_SIZE in *; lia).
  assert (0 < TICK_SIZE) by done. destruct pr_sub as (S1 & S2 & S3).
  assert (div_ceil TICK_SIZE TICK_SIZE = 1) as Hdc by reflexivity.
  split; [|by constructor].
  split_and!; [constructor|unfold phase; simpl; rewrite Ho; split; [constructor|]|constructor];
    unfold machine_synced, weeks_ok, buyer_bond_of in *; deal_simpl;
    unfold is_subscription in *; simpl in *; rewrite ?Hd, ?Hdc, ?Hpay, ?S2; try done; try lia.
  all: pose proof (tm_open Hd Ho); unfold cost_of in *; lia.
Qed.

(** ** Disputes *)
Lemma dispute_inv tc c s now0 at_ x c' :
  deal_inv consts c s now0 -> now0 <= at_ -> 0 < at_ -> dispute_deal tc c s at_ = Ok (x, c') ->
  deal_inv consts c' s at_ /\ deal_frame c s c' s.
Proof.
  intros (Hs & Hp & Ht) Hn Hat H. unfold dispute_deal, chain in H. ok_step H.
  apply orb_false_iff in E as [Ho Hd]. ok_step H. simplify_eq.
  unfold phase in Hp. rewrite Ho in Hp. destruct Hs, Ht.
  assert (price (buyer_dispute (c_machine c)) = cprice c) as Hpr.
  { unfold cprice, buyer_dispute. by destruct (state (c_machine c)). }
  assert (seller_bond (buyer_dispute (c_machine c)) = seller_bond (c_machine c)) as Hbd.
  { unfold buyer_dispute. by destruct (state (c_machine c)). }
  split; [|by constructor].
  split_and!; [constructor| |constructor]; deal_simpl; rewrite ?Hpr, ?Hbd; try done; try lia.
  unfold phase; simpl. rewrite Ho. destruct (c_probe_accepted c).
  - destruct Hp as [[] Hm]. split; [constructor|]; deal_simpl; rewrite ?Hpr; try done.
    unfold machine_synced in *; simpl. rewrite Hd in Hm. unfold buyer_dispute. rewrite Hm. simpl.
    unfold saturating_sub. rewrite Z.max_l; [done|].
    pose proof (div_ceil_mono (c_tokens_final c) (c_tokens_pending c) TICK_SIZE). unfold TICK_SIZE in *. lia.
  - destruct Hp. constructor; deal_simpl; rewrite ?Hpr; try done.
    unfold buyer_dispute. rewrite pr_machine, Hd. done.
Qed.

(** ** Claims and promotion *)

(** The flags of an open, accepted, undisputed deal. *)
Definition streaming_flags c : Prop :=
  c_closed c = false /\ c_disputed c = false /\ c_probe_accepted c = true.

Lemma streaming_guard c :
  c_closed c || c_disputed c || negb (c_probe_accepted c) = false -> streaming_flags c.
Proof. unfold streaming_flags. destruct (c_closed c), (c_disputed c), (c_probe_accepted c); auto. Qed.

Lemma streaming_phase c s now : deal_inv consts c s now -> streaming_flags c ->
  deal_shape consts c s /\ stream_books consts c s /\ machine_synced c /\ deal_times c s now.
Proof. intros (? & Hp & ?) (Ho & _ & Ha). unfold phase in Hp. rewrite Ho, Ha in Hp. destruct Hp. auto. Qed.

Lemma stream_inv c s now : streaming_flags c -> deal_shape consts c s -> stream_books consts c s ->
  machine_synced c -> deal_times c s now -> deal_inv consts c s now.
Proof. intros (Ho & _ & Ha) ? ? ? ?. split_and!; auto. unfold phase. by rewrite Ho, Ha. Qed.

(** Replacing the machine by one with the same price and bond. *)
Lemma set_machine_keeps c s m :
  price m = cprice c -> seller_bond m = seller_bond (c_machine c) ->
  deal_shape consts c s -> stream_books consts c s ->
  deal_shape consts (set_machine m c) s /\ stream_books consts (set_machine m c) s /\
  deal_frame c s (set_machine m c) s.
Proof.
  intros Hp Hb [] []. split_and!; constructor; deal_simpl; rewrite ?Hp, ?Hb; done.
Qed.

Lemma promote_sync c s now c1 c2 :
  deal_shape consts c s -> stream_books consts c s -> machine_synced c -> streaming_flags c ->
  promote_due consts c now = Ok c1 ->
  (if c_tokens_final c1 =? c_tokens_pending c1
   then let* m := machine_err (on_promote (c_machine c1)) in Ok (set_machine m c1)
   else Ok c1) = Ok c2 ->
  deal_shape consts c2 s /\ stream_books consts c2 s /\ machine_synced c2 /\ streaming_flags c2 /\
  deal_frame c s c2 s /\ c_tokens_pending c2 = c_tokens_pending c /\
  c_tokens_final c <= c_tokens_final c2 /\ (forall t, deal_times c s t -> deal_times c2 s t).
Proof.
  intros Hs Hb Hm (F1 & F2 & F3) Hp H.
  pose proof (promote_keeps c s now c1 Hs Hb Hp) as
    (Hs1 & Hb1 & Hf1 & M1 & O1 & D1 & A1 & P1 & L1 & T1).
  assert (c_tokens_final c1 = c_tokens_pending c1 \/ c1 = c) as Hcase.
  { destruct (promote_due_inv c now c1) as [->| ->]; [apply Hs|done|by right|by left]. }
  unfold machine_synced in Hm. rewrite F2 in Hm. unfold streaming_flags.
  destruct (Z.eqb_spec (c_tokens_final c1) (c_tokens_pending c1)) as [He|He].
  - unfold on_promote in H. rewrite M1, Hm in H. simpl in H. repeat ok_step H. simplify_eq. simpl in *.
    unfold check_invariant in E. simpl in E. rewrite Z.ltb_irrefl in E. simpl in E. simplify_eq.
    destruct (set_machine_keeps c1 s (with_state (c_machine c) (Streaming
      (div_ceil (c_tokens_pending c) TICK_SIZE) (div_ceil (c_tokens_pending c) TICK_SIZE))))
      as (X1 & X2 & X3); try done.
    { unfold cprice. by rewrite M1. } { by rewrite M1. }
    split_and!; try done; simpl; try congruence.
    + unfold machine_synced; simpl. rewrite D1, F2, He, P1. done.
    + destruct Hf1, X3. constructor; simpl in *; try done.
    + intros t Ht. destruct (T1 t Ht). by constructor.
  - destruct Hcase as [?| ->]; [done|]. simplify_eq. split_and!; try done.
    unfold machine_synced. by rewrite F2.
Qed.

(** Pay the trusted tokens if they exceed what is paid, then close clean: the
    common tail of [finalize], [settle_week], [stop] and [seller_stop]. *)
Lemma pay_and_close c0 s0 c s now (b : bool) t c1 s1 m d r c' :
  deal_shape consts c s -> stream_books consts c s -> streaming_flags c ->
  deal_frame c0 s0 c s -> deal_times c s now ->
  (if b then credit_tokens_through consts c s t else Ok (c, s)) = Ok (c1, s1) ->
  price m = cprice c1 -> seller_bond m = seller_bond (c_machine c1) ->
  delivered_ticks c1 = Ok d -> close_mock_clean consts (set_machine m c1) d = Ok (r, c') ->
  deal_inv consts c' s1 now /\ deal_frame c0 s0 c' s1 /\ c_closed c' = true.
Proof.
  intros Hs Hb (F1 & F2 & F3) Hf Ht Hcr Hp Hbd Hd Hcl.
  destruct (stream_books_total consts Hc c s Hs Hb) as [Ham Htot].
  assert (deal_shape consts c1 s1 /\ amounts_ok c1 /\ total c1 = total c /\ deal_frame c s c1 s1 /\
    same_run c c1 /\ period_start s1 = period_start s) as (Hs1 & Ha1 & T1 & Fr & Run & Per).
  { destruct b; [by eapply credit_keeps|]. simplify_eq. split_and!; done. }
  pose proof Hs1 as []. pose proof Run as [M [? [? ?]] [Cf ?] ? ?].
  eapply (close_keeps c0 s0 (set_machine m c1)); try exact Hcl; simpl; try congruence.
  - constructor; deal_simpl; rewrite ?Hp; try done. congruence.
  - destruct Ha1. by constructor.
  - unfold total in *; simpl. rewrite T1, Htot. rewrite <- (deal_value_frame _ _ _ _ Fr).
    unfold deal_value, buyer_bond_of, cprice in *. simpl. by rewrite Hp.
  - rewrite Cf. apply Hb.
  - destruct Hf, Fr. constructor; simpl; [by etrans| congruence | congruence |].
    unfold cprice in *. simpl. congruence.
  - pose proof (same_run_times _ _ _ s1 now Run Per Ht) as []. by constructor.
  - eapply delivered_nonneg; eauto. lia.
Qed.

Lemma set_machine_id c : set_machine (c_machine c) c = c.
Proof. by destruct c. Qed.

Lemma finalize_inv c s now0 now c' s' :
  deal_inv consts c s now0 -> now0 <= now -> finalize_deal consts c s now = Ok (c', s') ->
  deal_inv consts c' s' now /\ deal_frame c s c' s'.
Proof.
  intros Hi Hn H. unfold finalize_deal in H. ok_step H. apply streaming_guard in E as Hfl.
  destruct (streaming_phase _ _ _ Hi Hfl) as (Hs & Hb & Hm & Ht).
  ok_step H. ok_step H. ok_step H. ok_step H.
  destruct (promote_sync _ _ _ _ _ Hs Hb Hm Hfl E2 E3)
    as (Hs2 & Hb2 & Hm2 & Hf2 & Fr2 & _ & _ & T2).
  pose proof (T2 _ (deal_times_later _ _ _ _ Hn Ht)) as Ht2. ok_step H.
  - repeat ok_step H. simplify_eq.
    match goal with Hcl : close_mock_clean _ ?x _ = _ |- _ => rewrite <- (set_machine_id x) in Hcl end.
    edestruct (pay_and_close c s a1 s now true) as (? & ? & _); eauto.
  - simplify_eq. split; [by apply stream_inv|done].
Qed.

(** ** Weekly charges inside the operations *)
Lemma same_run_frame c s c' s' : same_run c c' -> same_terms s s' -> deal_frame c s c' s'.
Proof. intros [] ?. destruct_and!. constructor; try done. unfold cprice. congruence. Qed.
Lemma deal_frame_trans c s c1 s1 c2 s2 :
  deal_frame c s c1 s1 -> deal_frame c1 s1 c2 s2 -> deal_frame c s c2 s2.
Proof. intros [] []. constructor; [by etrans|congruence..]. Qed.

Lemma weeks_le s now b w : weeks_ok s -> subscription_weeks_at s now b = Ok w -> w <= sub_weeks s.
Proof.
  intros Hw H. apply weeks_at_bounds in H; [lia|]. destruct Hw as [(-> & _)|(-> & _)]; done.
Qed.

Lemma charge_weeks_keeps c s now b x c' s' :
  deal_shape consts c s -> stream_books consts c s -> streaming_flags c ->
  (if is_subscription s then let* w := subscription_weeks_at s now b in
     charge_subscription_through consts c s w else Ok (false, c, s)) = Ok (x, c', s') ->
  deal_shape consts c' s' /\ stream_books consts c' s' /\ streaming_flags c' /\
  deal_frame c s c' s' /\ same_run c c' /\ period_start s' = period_start s /\
  (is_subscription s = true -> exists w, subscription_weeks_at s now b = Ok w /\
     week_index s' = Z.max w (week_index s) /\ (x = false -> w <= week_index s)).
Proof.
  intros Hs Hb Hf H. destruct (is_subscription s) eqn:Hsub; [|simplify_eq; split_and!; done].
  ok_step H. destruct (charge_keeps consts c s a x c' s' Hs Hb Hsub) as (? & ? & R & T & ? & ? & ?).
  { eapply weeks_le; eauto. apply Hs. } { done. }
  split_and!; try done; [|by apply same_run_frame|].
  - destruct R as [_ (? & ? & ?) _ _ _]. destruct Hf as (? & ? & ?). repeat split; congruence.
  - intros _. exists a. done.
Qed.

Lemma same_run_synced c c' : same_run c c' -> machine_synced c -> machine_synced c'.
Proof.
  intros [M (_ & _ & D) [F P] _ _]. unfold machine_synced. by rewrite M, D, F, P.
Qed.

Lemma charge_elapsed_unfold c s now : streaming_flags c ->
  charge_elapsed_subscription_weeks consts c s now =
  (if is_subscription s then let* w := subscription_weeks_at s now false in
     charge_subscription_through consts c s w else Ok (false, c, s)).
Proof.
  intros (F1 & F2 & F3). unfold charge_elapsed_subscription_weeks. rewrite F1, F2, F3. simpl.
  by destruct (is_subscription s).
Qed.

Lemma charge_elapsed_guard c s now x : is_subscription s = true ->
  charge_elapsed_subscription_weeks consts c s now = Ok x -> streaming_flags c.
Proof.
  intros Hs H. unfold charge_elapsed_subscription_weeks in H. rewrite Hs in H. simpl in H.
  ok_step H. unfold streaming_flags. destruct (c_closed c), (c_disputed c), (c_probe_accepted c); auto.
Qed.

Lemma settle_week_inv c s now0 now c' s' :
  deal_inv consts c s now0 -> now0 <= now -> settle_week_deal consts c s now = Ok (c', s') ->
  deal_inv consts c' s' now /\ deal_frame c s c' s'.
Proof.
  intros Hi Hn H. unfold settle_week_deal in H. ok_step H. apply negb_false_iff in E as Hsub.
  ok_step H. destruct a as [[x c1] s1]. pose proof (charge_elapsed_guard _ _ _ _ Hsub E0) as Hfl.
  destruct (streaming_phase _ _ _ Hi Hfl) as (Hs & Hb & Hm & Ht).
  rewrite (charge_elapsed_unfold _ _ _ Hfl) in E0.
  destruct (charge_weeks_keeps _ _ _ _ _ _ _ Hs Hb Hfl E0)
    as (Hs1 & Hb1 & Hf1 & Fr1 & Run1 & Per1 & _).
  pose proof (same_run_times _ _ _ s1 now Run1 Per1 (deal_times_later _ _ _ _ Hn Ht)) as Ht1.
  pose proof (same_run_synced _ _ Run1 Hm) as Hm1.
  ok_step H. ok_step H. ok_step H.
  - ok_step H. ok_step H.
    destruct (promote_sync _ _ _ _ _ Hs1 Hb1 Hm1 Hf1 E4 E5)
      as (Hs2 & Hb2 & Hm2 & Hf2 & Fr2 & _ & _ & T2).
    ok_step H. repeat ok_step H. simplify_eq.
    match goal with Hcl : close_mock_clean _ ?x _ = _ |- _ => rewrite <- (set_machine_id x) in Hcl end.
    edestruct (pay_and_close c s a1 s1 now) as (? & ? & _); try exact E6; eauto.
    by eapply deal_frame_trans.
  - simplify_eq. split; [by apply stream_inv|done].
Qed.

(** ** Stops *)

(** A pre-probe exit that closes: the books are the probe's. *)
Lemma probe_close_inv c s now c' :
  deal_shape consts c s -> probe_phase consts c s -> deal_times c s now ->
  c_probe_accepted c = false -> closed_from c c' -> c_disputed c' = false ->
  deal_inv consts c' s now /\ deal_frame c s c' s.
Proof.
  intros Hs Hp Ht Ha Hcf Hd. destruct (probe_books consts Hc c s Hs Hp) as [_ Htot]. split.
  - eapply (closed_from_inv consts c); eauto; [rewrite Ha; apply Hp|by eapply closed_from_times].
  - eapply deal_frame_closed; eauto using deal_frame_refl.
Qed.

Lemma stop_on_probe_inv c x c' :
  amounts_ok c -> c_fee_accrued c = 0 -> (exists tk, state (c_machine c) = Probe tk) ->
  stop_on_probe c = Ok (x, c') -> closed_from c c' /\ c_disputed c' = c_disputed c.
Proof.
  intros [] Hz [tk Hst] H. unfold stop_on_probe, chain, buyer_stop in H. rewrite Hst in H. simpl in H.
  run H. split; [constructor|]; simpl; try done; try lia. deal_simpl. lia.
Qed.

Lemma seller_stop_on_probe_inv c x c' :
  amounts_ok c -> c_fee_accrued c = 0 -> 0 <= cprice c ->
  seller_stop_on_probe c = Ok (x, c') -> closed_from c c' /\ c_disputed c' = c_disputed c.
Proof.
  intros [] Hz Hp H. unfold seller_stop_on_probe, chain in H. run H. unfold cprice in *.
  split; [constructor|]; simpl; try done; try lia. deal_simpl. lia.
Qed.

Lemma machine_stop_terms m x m' : buyer_stop m = Ok (x, m') \/ seller_stop m = Ok (x, m') ->
  price m' = price m /\ seller_bond m' = seller_bond m.
Proof. unfold buyer_stop, seller_stop. destruct (state m); intros [?|?]; simplify_eq; done. Qed.

Lemma machine_err_ok {A} (o : outcome InvariantError A) a : machine_err o = Ok a -> o = Ok a.
Proof. unfold machine_err, map_err. destruct o; naive_solver. Qed.

(** Promotion and weekly charge in sequence, as both stops run them. *)
Lemma promote_charge_keeps c s t0 t1 t2 now b c1 x c2 s2 :
  deal_inv consts c s t0 -> streaming_flags c -> t0 <= now ->
  promote_due consts c t1 = Ok c1 ->
  (if is_subscription s then let* w := subscription_weeks_at s t2 b in
     charge_subscription_through consts c1 s w else Ok (false, c1, s)) = Ok (x, c2, s2) ->
  deal_shape consts c2 s2 /\ stream_books consts c2 s2 /\ streaming_flags c2 /\
  deal_frame c s c2 s2 /\ deal_times c2 s2 now.
Proof.
  intros Hi Hfl Hn H1 H2. destruct (streaming_phase _ _ _ Hi Hfl) as (Hs & Hb & _ & Ht).
  destruct (promote_keeps c s t1 c1 Hs Hb H1) as (Hs1 & Hb1 & Fr1 & _ & O1 & D1 & A1 & _ & _ & T1).
  assert (streaming_flags c1) as Hf1 by (destruct Hfl as (? & ? & ?); repeat split; congruence).
  destruct (charge_weeks_keeps _ _ _ _ _ _ _ Hs1 Hb1 Hf1 H2)
    as (Hs2 & Hb2 & Hf2 & Fr2 & Run2 & Per2 & _).
  split_and!; try done; [by eapply deal_frame_trans|].
  eapply same_run_times; eauto using deal_times_later.
Qed.

Lemma stop_inv c s t0 t1 t2 now x c' s' :
  deal_inv consts c s t0 -> t0 <= now -> stop_deal consts c s t1 t2 = Ok (x, c', s') ->
  deal_inv consts c' s' now /\ deal_frame c s c' s' /\ c_closed c' = true.
Proof.
  intros Hi Hn H. unfold stop_deal in H. ok_step H. ok_step H.
  destruct (c_probe_accepted c) eqn:Ha; simpl in H.
  - unfold stop_accepted in H. ok_step H. ok_step H. destruct a0 as [[y c2] s2].
    destruct (promote_charge_keeps c s t0 t1 t2 now true a y c2 s2)
      as (Hs2 & Hb2 & Hf2 & Fr2 & Ht2); try done.
    ok_step H. repeat ok_step H. simplify_eq.
    match goal with Hm : machine_err (buyer_stop _) = Ok _ |- _ =>
      apply machine_err_ok in Hm; destruct (machine_stop_terms _ _ _ (or_introl Hm)) as [Hp Hbd] end.
    edestruct (pay_and_close c s c2 s2 now) as (Q1 & Q2 & Q3); [exact Hs2|exact Hb2|exact Hf2|exact Fr2|exact Ht2|eauto|exact Hp|exact Hbd|eauto|eauto|].
    split_and!; [|by destruct Q2|done].
    destruct Q1 as ([] & Q1 & []). split_and!; [by constructor| |by constructor].
    unfold phase in *. simpl. rewrite Q3 in *. destruct Q1. by constructor.
  - repeat ok_step H. simplify_eq. destruct Hi as (Hs & Hp & Ht). unfold phase in Hp.
    rewrite E, Ha in Hp. pose proof (pr_machine _ _ _ Hp) as Hm. rewrite E0 in Hm.
    destruct (probe_books consts Hc c s' Hs Hp) as [Ham _].
    apply stop_on_probe_inv in E1 as [Hcf Hd]; [|done|apply Hp|by eexists].
    split_and!; [| |apply Hcf]; eapply (probe_close_inv c s' now); eauto using deal_times_later; congruence.
Qed.

Lemma seller_stop_inv c s t0 t1 t2 now x c' s' :
  deal_inv consts c s t0 -> t0 <= now -> seller_stop_deal consts c s t1 t2 = Ok (x, c', s') ->
  deal_inv consts c' s' now /\ deal_frame c s c' s' /\ c_closed c' = true.
Proof.
  intros Hi Hn H. unfold seller_stop_deal in H. ok_step H. ok_step H.
  destruct (c_probe_accepted c) eqn:Ha; simpl in H.
  - ok_step H. ok_step H. destruct a0 as [[y c2] s2].
    destruct (promote_charge_keeps c s t0 t1 t2 now false a y c2 s2)
      as (Hs2 & Hb2 & Hf2 & Fr2 & Ht2); try done.
    ok_step H. repeat ok_step H. simplify_eq.
    match goal with Hm : machine_err (seller_stop _) = Ok _ |- _ =>
      apply machine_err_ok in Hm; destruct (machine_stop_terms _ _ _ (or_intror Hm)) as [Hp Hbd] end.
    edestruct (pay_and_close c s c2 s2 now) as (Q1 & Q2 & Q3); [exact Hs2|exact Hb2|exact Hf2|exact Fr2|exact Ht2|eauto|exact Hp|exact Hbd|eauto|eauto|]. done.
  - repeat ok_step H. simplify_eq. destruct Hi as (Hs & Hp & Ht). unfold phase in Hp.
    rewrite E, Ha in Hp. destruct (probe_books consts Hc c s' Hs Hp) as [Ham _].
    apply seller_stop_on_probe_inv in E1 as [Hcf Hd]; [|done|apply Hp|destruct Hs; lia].
    split_and!; [| |apply Hcf]; eapply (probe_close_inv c s' now); eauto using deal_times_later; congruence.
Qed.

(** ** Claims *)

(** What the limits of a claim guarantee. *)
Lemma check_claim_inv c s cum t u :
  check_claim consts c s cum t = Ok u ->
  cum <= c_max_ticks c * TICK_SIZE /\
  (is_subscription s = true -> if sub_weeks s <=? week_index s then cum <= c_tokens_pending c
     else cum <= Z.min (week_base_tokens s + tokens_per_week s) (funded_tokens s)) /\
  min_claim_interval consts <= t - c_last_claim_time c /\ 0 <= t - c_last_claim_time c /\
  cum - c_tokens_pending c <= MAX_CLAIM_DELTA /\
  (cum - c_tokens_pending c) * min_seconds_per_tick consts <= (t - c_last_claim_time c) * TICK_SIZE.
Proof.
  unfold check_claim, chain. intros H. ok_step H. ok_step H. ok_step H.
  assert (is_subscription s = true -> if sub_weeks s <=? week_index s then cum <= c_tokens_pending c
     else cum <= Z.min (week_base_tokens s + tokens_per_week s) (funded_tokens s)) as Hcap.
  { intros Hs. rewrite Hs in E1. unfold claim_cap, chain in E1.
    destruct (sub_weeks s <=? week_index s); [run E1; lia|].
    destruct (ok_or _ _) eqn:X in E1; simplify_eq/=. run E1; lia. }
  clear E1. run H. split_and!; try lia; try done.
Qed.

Lemma claim_inv c s t0 cum t1 t2 c' s' :
  deal_inv consts c s t0 -> t0 <= t2 -> 0 < t2 ->
  claim_deal consts c s cum t1 t2 = Ok (Some (c', s')) ->
  deal_inv consts c' s' t2 /\ deal_frame c s c' s' /\
  c_tokens_pending c < cum /\ c_tokens_pending c' = cum /\
  c_tokens_final c' = c_tokens_pending c /\ c_last_claim_time c' = t2 /\
  cum - c_tokens_pending c <= MAX_CLAIM_DELTA /\
  (cum - c_tokens_pending c) * min_seconds_per_tick consts <= (t2 - c_last_claim_time c) * TICK_SIZE.
Proof.
  intros Hi Hn Hpos H. unfold claim_deal in H. ok_step H. apply streaming_guard in E as Hfl.
  destruct (streaming_phase _ _ _ Hi Hfl) as (Hs & Hb & Hm & Ht).
  ok_step H. ok_step H. ok_step H. ok_step H. destruct a as [[y c1] s1].
  rewrite (charge_elapsed_unfold _ _ _ Hfl) in E3.
  assert (Hch : (if is_subscription s then let* w := subscription_weeks_at s t1 false in
     charge_subscription_through consts c s w else Ok (false, c, s)) = Ok (y, c1, s1))
    by (destruct (is_subscription s); done).
  destruct (charge_weeks_keeps _ _ _ _ _ _ _ Hs Hb Hfl Hch)
    as (Hs1 & Hb1 & Hf1 & Fr1 & Run1 & Per1 & _).
  pose proof (same_run_synced _ _ Run1 Hm) as Hm1.
  pose proof (same_run_times _ _ _ s1 t0 Run1 Per1 Ht) as Ht1.
  ok_step H. destruct a. apply check_claim_inv in E4 as (K1 & K2 & _ & K4 & K5 & K6).
  ok_step H. destruct (promote_keeps c1 s1 t2 a Hs1 Hb1 E4)
    as (Hs2 & Hb2 & Fr2 & M2 & O2 & D2 & A2 & P2 & _ & T2).
  assert (c_last_claim_time a = c_last_claim_time c1) as L2.
  { apply promote_due_inv in E4 as [->| ->]; [done|done|apply Hs1]. }
  repeat ok_step H. simplify_eq. apply machine_err_ok in E7. unfold chain in *. checked_facts. subst.
  destruct Run1 as [M1 _ [_ P1] (_ & L1 & _) _].
  destruct Hf1 as (F1 & F2 & F3). unfold machine_synced in Hm1. rewrite F2 in Hm1.
  unfold on_claim in E7. rewrite M2, Hm1 in E7. repeat ok_step E7. simplify_eq.
  rewrite P1, ?L1 in *. destruct Hs2, Hb2, (T2 _ Ht1). rewrite ?L2, ?L1, P2 in *.
  assert (c_tokens_final a = c_tokens_pending c) as Hfin by lia.
  assert (c_tokens_pending c < cum) as Hlt by lia.
  assert (c_max_ticks a = c_max_ticks c1) as Hmt by apply Fr2.
  assert (is_subscription s' = true -> week_index s' < sub_weeks s' /\
    cum <= week_base_tokens s' + tokens_per_week s') as Hcap.
  { intros Hsub. specialize (K2 Hsub). destruct (Z.leb_spec (sub_weeks s') (week_index s')); lia. }
  assert (cum <= week_base_tokens s' + tokens_per_week s') as Hc2.
  { destruct (is_subscription s') eqn:Hsub; [by apply Hcap|].
    destruct (is_ordinary_weeks s') as (_ & _ & -> & ->); [done..|]. lia. }
  split_and!; try done; [|destruct Fr1, Fr2; constructor; unfold cprice in *; simpl in *; [done|congruence..]].
  - apply stream_inv; try (constructor; deal_simpl; rewrite ?M2 in *; try done; try lia).
    + congruence.
    + split; congruence.
    + intros Hsub Hov. destruct (Hcap Hsub); lia.
    + unfold machine_synced; simpl. by rewrite D2, F2, Hfin.
    + rewrite tm_open; [done|congruence..].
Qed.

(** What a call leaves of the money when it charges the weeks elapsed at [t] and does
    nothing else: the price of the newly charged tokens goes from the escrow to the
    seller and to the fees; every other purse is as it was. *)
Definition charged_tokens c s (t : Z) (paid : Z) : Prop :=
  if is_subscription s then
    exists w, subscription_weeks_at s t false = Ok w /\
      paid = if w <=? week_index s then tokens_paid s else w * tokens_per_week s
  else paid = tokens_paid s.
Definition only_charged c s (t : Z) c' s' : Prop :=
  charged_tokens c s t (tokens_paid s') /\
  c_seller_received c' = c_seller_received c + (pay_of (tokens_paid s') (cprice c) - pay_of (tokens_paid s) (cprice c)) /\
  c_fee_accrued c' = c_fee_accrued c + (fee_of consts (tokens_paid s') (cprice c) - fee_of consts (tokens_paid s) (cprice c)) /\
  c_buyer_locked c' = c_buyer_locked c - (cost_of consts (tokens_paid s') (cprice c) - cost_of consts (tokens_paid s) (cprice c)) /\
  c_probe_locked c' = c_probe_locked c /\ c_buyer_bond c' = c_buyer_bond c /\ c_seller_locked c' = c_seller_locked c /\
  c_buyer_refunded c' = c_buyer_refunded c /\ c_burned c' = c_burned c.

Lemma claim_shape c s cum t1 t2 c' s' :
  claim_deal consts c s cum t1 t2 = Ok (Some (c', s')) ->
  exists c1 x, (if is_subscription s then charge_elapsed_subscription_weeks consts c s t1
    else Ok (false, c, s)) = Ok (x, c1, s') /\
  c_closed c' = c_closed c1 /\ c_buyer_locked c' = c_buyer_locked c1 /\ c_probe_locked c' = c_probe_locked c1 /\
  c_buyer_bond c' = c_buyer_bond c1 /\ c_seller_locked c' = c_seller_locked c1 /\
  c_seller_received c' = c_seller_received c1 /\ c_fee_accrued c' = c_fee_accrued c1 /\
  c_buyer_refunded c' = c_buyer_refunded c1 /\ c_burned c' = c_burned c1.
Proof.
  intros H. unfold claim_deal in H. ok_step H. ok_step H. ok_step H. ok_step H. ok_step H.
  destruct a as [[y c1] s1]. ok_step H. ok_step H. unfold promote_due in E5. repeat ok_step E5. repeat ok_step H.
  simplify_eq. exists c1, y. split; [done|]. simpl. destruct a1; [|done]. unfold promote_once.
  destruct (c_tokens_final c1 <? c_tokens_pending c1); split_and!; reflexivity.
Qed.
Lemma claim_only_charges c s cum t1 t2 c' s' :
  claim_deal consts c s cum t1 t2 = Ok (Some (c', s')) -> only_charged c s t1 c' s'.
Proof.
  intros H. apply claim_shape in H as (c1 & x & E & _ & H1 & H2 & H3 & H4 & H5 & H6 & H7 & H8).
  unfold only_charged, charged_tokens. rewrite H1, H2, H3, H4, H5, H6, H7, H8. destruct (is_subscription s) eqn:Hs; [|simplify_eq; split_and!; lia || done].
  unfold charge_elapsed_subscription_weeks in E. rewrite Hs in E. cbn [negb] in E. do 2 ok_step E.
  apply charge_inv in E as [(_ & Hw & -> & ->)|(_ & Hw & s1 & Hcr & ->)].
  - split_and!; try lia; try done. exists a. split; [done|]. by rewrite (proj2 (Z.leb_le _ _)).
  - apply credit_tokens_through_inv in Hcr as (_ & -> & _ & ->). simpl.
    split_and!; try (unfold cost_of; lia); try done. exists a. split; [done|]. by rewrite (proj2 (Z.leb_gt _ _)).
Qed.
Lemma claim_not_closed c s cum t1 t2 c' s' :
  claim_deal consts c s cum t1 t2 = Ok (Some (c', s')) -> c_closed c' = false.
Proof.
  intros H. pose proof H as H0. unfold claim_deal in H0. ok_step H0. apply streaming_guard in E as (Ho & _).
  clear H0. apply claim_shape in H as (c1 & x & E1 & -> & _).
  destruct (is_subscription s); [|by simplify_eq].
  unfold charge_elapsed_subscription_weeks in E1. repeat ok_step E1; simplify_eq; [done|].
  unfold charge_subscription_through in E1. ok_step E1; simplify_eq; [done|]. repeat ok_step E1. simplify_eq.
  match goal with X : credit_tokens_through _ _ _ _ = _ |- _ => apply credit_tokens_through_inv in X as (_ & _ & _ & ->) end.
  done.
Qed.

(** ** Dispute resolution *)
Lemma void_claims_inv c at_ c' :
  void_claims_at consts c at_ = Ok c' ->
  exists f, (f = c_tokens_final c \/ f = c_tokens_pending c) /\
    c' = set_tokens_pending f (set_tokens_final f c).
Proof.
  unfold void_claims_at. intros H. ok_step H. simplify_eq. destruct a; simpl.
  - eexists. split; [by right|]. done.
  - exists (c_tokens_final c). split; [by left|]. by destruct c.
Qed.

Lemma dispute_stake_inv c s st : amounts_ok c -> 0 <= cprice c ->
  dispute_stake consts c s = Ok st ->
  0 <= st <= 2 * cprice c /\ st <= c_seller_locked c /\
  (is_subscription s = true -> st <= c_buyer_bond c) /\
  (is_subscription s = false -> st <= c_buyer_locked c).
Proof.
  intros [] Hp H. unfold dispute_stake, chain in H. run H. unfold cprice in *.
  destruct (is_subscription s); split_and!; try done; intros; lia.
Qed.

Lemma burn_stakes_inv c s st (timed_out : bool) c' :
  amounts_ok c -> 0 <= st -> (is_subscription s = true -> st <= c_buyer_bond c) ->
  burn_stakes c s st timed_out = Ok c' ->
  amounts_ok c' /\ total c' = total c /\ same_run c c' /\ c_probe_locked c' = c_probe_locked c /\
  exists taken, 0 <= taken <= st /\ (is_subscription s = true -> taken = st) /\
    c_burned c' = c_burned c + taken + (if timed_out then Z.min taken (c_seller_locked c) else 0) /\
    c_seller_locked c' = c_seller_locked c - (if timed_out then Z.min taken (c_seller_locked c) else 0).
Proof.
  intros [] Hst Hbd H. unfold burn_stakes, chain in H.
  destruct (is_subscription s); run H; destruct timed_out; simpl in *;
    (split_and!; [constructor; simpl; try (specialize (Hbd eq_refl)); lia | deal_simpl; lia | done | done |]).
  1,2: exists st; specialize (Hbd eq_refl); lia.
  all: exists (Z.min st (c_buyer_locked c)); split_and!; try done; lia.
Qed.

Lemma refundable_inv c s rem r : 0 <= rem -> 0 <= cprice c -> 0 <= tokens_per_week s ->
  refundable_deposit consts c s rem = Ok r -> 0 <= r <= rem.
Proof.
  intros Hr Hp Hw H. unfold refundable_deposit, chain in H. ok_step H; [|simplify_eq; lia].
  repeat ok_step H. simplify_eq.
  match goal with E : token_pay_and_fee _ _ _ = _ |- _ => apply token_pay_and_fee_inv in E; simplify_eq end.
  checked_facts. subst. unfold saturating_sub in *.
  match goal with |- context [pay_of ?a ?b] => assert (0 <= a) as Hz by nia;
    pose proof (pay_of_nonneg a b Hz Hp); pose proof (fee_of_nonneg consts Hc a b Hz Hp) end.
  unfold cprice in *. lia.
Qed.

(** The dispute's own books: sound money, claims and weeks, whatever the phase. *)
Lemma dispute_charge_keeps c s now b c1 s1 :
  deal_inv consts c s now -> c_disputed c = true -> c_closed c = false ->
  (if is_subscription s && c_probe_accepted c then
     let* w := subscription_weeks_at s (c_dispute_time c) false in
     charge_subscription_through consts c s w
   else Ok (false, c, s)) = Ok (b, c1, s1) ->
  deal_shape consts c1 s1 /\ amounts_ok c1 /\ total c1 = deal_value consts c1 s1 /\
  same_run c c1 /\ same_terms s s1 /\ period_start s1 = period_start s /\
  (if c_probe_accepted c then stream_books consts c1 s1 else probe_phase consts c1 s1).
Proof.
  intros Hi Hd Ho H. pose proof Hi as (Hs & Hp & Ht). unfold phase in Hp. rewrite Ho in Hp.
  destruct (c_probe_accepted c); rewrite ?andb_true_r, ?andb_false_r in H.
  - destruct Hp as [Hb _]. destruct (is_subscription s) eqn:Hsub.
    + ok_step H. destruct (charge_keeps consts c s a b c1 s1 Hs Hb Hsub)
        as (Hs1 & Hb1 & ? & ? & ? & _); [eapply weeks_le; eauto; apply Hs|done|].
      destruct (stream_books_total consts Hc c1 s1 Hs1 Hb1). split_and!; done.
    + simplify_eq. destruct (stream_books_total consts Hc c1 s1 Hs Hb). split_and!; done.
  - simplify_eq. destruct (probe_books consts Hc c1 s1 Hs Hp). split_and!; done.
Qed.

(** The last assignments of a resolved dispute. *)
Definition dispute_closed c (received refunded burned : Z) m : StreamCell :=
  set_closed true (set_machine m (set_disputed false (release_locks (set_seller_received received
    (set_buyer_refunded refunded (set_burned burned c)))))).

Lemma dispute_closed_from c received refunded burned m :
  amounts_ok c -> c_fee_accrued c = 0 -> state m = Closed ->
  price m = cprice c -> seller_bond m = seller_bond (c_machine c) ->
  c_seller_received c <= received -> c_buyer_refunded c <= refunded -> c_burned c <= burned ->
  received + refunded + burned = total c ->
  closed_from c (dispute_closed c received refunded burned m).
Proof.
  intros [] Hf Hm Hp Hb H1 H2 H3 Ht. constructor; simpl; try done; try lia.
  unfold total in *; simpl. lia.
Qed.

Lemma same_run_shape c c' s : same_run c c' -> deal_shape consts c s -> deal_shape consts c' s.
Proof.
  intros [M _ [F P] _ (V & T & _ & _)] []. constructor; unfold cprice in *; rewrite ?M, ?F, ?P, ?V, ?T; done.
Qed.

Lemma resolve_machine (to : bool) m0 m :
  (if to then Ok (snd (resolve_dispute_timeout m0))
   else let* ' (_, m) := machine_err (release_dispute m0) in Ok m) = Ok m ->
  state m = Closed /\ price m = price m0 /\ seller_bond m = seller_bond m0.
Proof.
  destruct to; intros H; [by simplify_eq|]. repeat ok_step H. simplify_eq.
  apply machine_err_ok in E. unfold release_dispute in E. destruct (state m0); by simplify_eq.
Qed.

(** [settle_dispute] pays the cell out; [c5] is the cell after the burns, with
    the identity and the claims of [c]. *)
Lemma settle_dispute_inv c s st (to : bool) r b c' :
  deal_shape consts c s -> amounts_ok c -> 0 <= st ->
  (is_subscription s = true -> st <= c_buyer_bond c) ->
  settle_dispute consts c s st to = Ok (r, b, c') ->
  c_disputed c' = false /\ exists c5, same_run c c5 /\ total c5 = total c /\ closed_from c5 c'.
Proof.
  intros Hs Ha Hst Hbd H. unfold settle_dispute, chain in H. ok_step H. rename a into c4.
  destruct (burn_stakes_inv c s st to c4 Ha Hst Hbd E) as (A4 & T4 & R4 & _).
  pose proof (same_run_shape _ _ _ R4 Hs) as [].
  ok_step H. apply (delivered_nonneg c4) in E0; [|lia].
  ok_step H. apply settle_fees_inv in E1 as (reb & Hr & Hz & ->); [|done|lia|done|apply A4].
  rewrite (Hz eq_refl) in *. set (c5 := set_fee_accrued 0 _) in *.
  assert (amounts_ok c5) as A5 by (destruct A4; constructor; simpl; lia).
  assert (total c5 = total c) as T5 by (rewrite <- T4; unfold total; simpl; lia).
  ok_step H. ok_step H. apply refundable_inv in E2;
    [|checked_facts; destruct A5; lia|change (0 <= cprice c4); lia|].
  2:{ destruct sh_weeks as [(_ & _ & -> & _)|(_ & _ & _ & ?)]; unfold TICK_SIZE in *; lia. }
  repeat ok_step H. checked_facts. injection H as _ _ <-.
  repeat match goal with X : ?v = _ + _ |- _ => is_var v; subst v end.
  match goal with E : _ = Ok ?m |- context [set_machine ?m _] => apply resolve_machine in E as (Q1 & Q2 & Q3) end.
  split; [reflexivity|]. exists c5. split; [etrans; [exact R4|done]|]. split; [done|].
  assert (c_fee_accrued c5 = 0) as F5 by reflexivity.
  destruct A5. apply (dispute_closed_from c5); try done; unfold total; lia.
Qed.

Lemma resolve_inv c s now (to : bool) r b c' s' :
  deal_inv consts c s now -> resolve_mock_dispute consts c s to = Ok (r, b, c', s') ->
  deal_inv consts c' s' now /\ deal_frame c s c' s' /\ c_closed c' = true /\
  c_disputed c = true /\ c_closed c = false.
Proof.
  intros Hi H. unfold resolve_mock_dispute in H. ok_step H. apply negb_false_iff in E as Hd.
  assert (c_closed c = false) as Ho.
  { destruct Hi as (_ & Hp & _). unfold phase in Hp. destruct (c_closed c); [|done].
    destruct Hp. congruence. }
  ok_step H. destruct a as [[x c1] s1].
  destruct (dispute_charge_keeps c s now x c1 s1 Hi Hd Ho E0)
    as (Hs1 & A1 & T1 & R1 & Te1 & Per1 & Ph1). pose proof Hs1 as [].
  ok_step H. rename a into st. apply dispute_stake_inv in E1 as (S1 & S2 & S3 & S4); [|done|lia].
  ok_step H. apply void_claims_inv in E1 as (f & Hf & ->).
  ok_step H. apply credit_token_delta_inv in E1 as [Hcost ->].
  set (c2 := set_tokens_pending f (set_tokens_final f c1)) in *.
  change (cprice c2) with (cprice c1) in *. change (c_tokens_final c2) with f in *.
  set (owed := saturating_sub f (claim_base s1)) in *.
  assert (0 <= owed) as How by (unfold owed, saturating_sub; lia).
  assert (amounts_ok c2) as A2 by (destruct A1; by constructor).
  destruct (pay_out_keeps c2 (pay_of owed (cprice c1)) (fee_of consts owed (cprice c1))) as [A3 T3];
    [done|apply pay_of_nonneg; lia|apply fee_of_nonneg; [done|lia..]|done|].
  set (c3 := pay_out c2 _ _) in *. set (s2 := set_tokens_paid _ s1) in *.
  ok_step H. destruct a as [[r' b'] cz]. injection H as <- <- <- <-.
  assert (deal_shape consts c3 s2) as Hs3 by (destruct Hs1; constructor; try done; simpl; lia).
  apply settle_dispute_inv in E1 as (Hnd & c5 & R5 & T5 & Hcf); [|done|done|lia|done].
  assert (deal_frame c1 s1 c5 s2) as Fr5 by (apply (deal_frame_trans _ _ c3 s2); [done|by apply same_run_frame]).
  assert (deal_times c5 s2 now) as Ht5.
  { eapply (same_run_times c3 c5 s2); [done|done|]. destruct Hi as (_ & _ & Ht).
    destruct (same_run_times _ _ _ s1 now R1 Per1 Ht). by constructor. }
  split; [|split; [|split; [apply Hcf|split; assumption]]].
  2:{ eapply deal_frame_closed; [|exact Hcf]. apply (deal_frame_trans _ _ c1 s1); [by apply same_run_frame|done]. }
  eapply (closed_from_inv consts c5);
    [by eapply same_run_shape| |exact Hcf|exact Hnd| |exact (closed_from_times _ _ _ _ Hcf Hnd Ht5)].
  - rewrite T5. change (total c3 = total c1) in T3. rewrite T3, T1. symmetry. by apply deal_value_frame.
  - destruct R1 as [_ (A1' & _) _ _ _], R5 as [_ (A5' & _) [F5' P5'] _ _].
    rewrite A5', F5', P5'. change (c_probe_accepted c3) with (c_probe_accepted c1). rewrite A1'. simpl.
    destruct (c_probe_accepted c); destruct Ph1; lia.
Qed.
End Ops.
