(* ===== verification/MockDealLive.v ===== *)
(** * MockDealLive: the money operations of a live deal succeed

    Under sane constants and a deal value that fits [u128], none of the checked
    steps of a buyer stop can fail: no overflow, no escrow shortfall, no clock
    error.  The result is stated exactly. *)
From S2P Require Import Prelude Params Settle MarketTypes Machine MockDeal MockDealInv MockDealOps.

Section Live.
Context (consts : ProtocolConsts) (Hsane : consts_sane consts).
Implicit Types (c : StreamCell) (s : DealSubscription).
Let Hc : consts_typed consts := proj1 Hsane.

Lemma u128_add_total a b e : a + b <= U128_MAX -> ok_or (u128_checked_add a b) e = @Ok ChainError Z (a + b).
Proof. intros. unfold u128_checked_add, checked_add. by rewrite (proj2 (Z.leb_le _ _)). Qed.
Lemma u128_mul_total a b e : a * b <= U128_MAX -> ok_or (u128_checked_mul a b) e = @Ok ChainError Z (a * b).
Proof. intros. unfold u128_checked_mul, checked_mul. by rewrite (proj2 (Z.leb_le _ _)). Qed.

Lemma credit_through_total c s t :
  deal_shape consts c s -> amounts_ok c -> total c <= U128_MAX ->
  tokens_paid s <= t <= funded_tokens s ->
  cost_of consts t (cprice c) - cost_of consts (tokens_paid s) (cprice c) <= c_buyer_locked c ->
  credit_tokens_through consts c s t =
    Ok (pay_out c (pay_of t (cprice c) - pay_of (tokens_paid s) (cprice c))
          (fee_of consts t (cprice c) - fee_of consts (tokens_paid s) (cprice c)),
        set_tokens_paid t s).
Proof.
  intros [] [] Htot Ht Hb. destruct_and!. unfold credit_tokens_through.
  rewrite !(proj2 (Z.ltb_ge _ _)) by lia.
  destruct (cost_of_mono consts Hc (tokens_paid s) t (cprice c)) as (M1 & M2 & _); [lia..|].
  destruct (cost_of_mono consts Hc (tokens_paid s) (funded_tokens s) (cprice c)) as (_ & _ & M3); [lia..|].
  destruct (cost_of_mono consts Hc t (funded_tokens s) (cprice c)) as (_ & _ & M4); [lia..|].
  fold (cprice c).
  rewrite !token_pay_and_fee_total by (done || lia || (unfold in_u64; lia)).
  unfold chain, checked_sub. rewrite !(proj2 (Z.leb_le _ _)) by lia. simpl.
  unfold total, cost_of in *.
  rewrite debit_escrow_total by lia. done.
Qed.

Lemma charge_exact c s w :
  deal_shape consts c s -> stream_books consts c s -> is_subscription s = true ->
  deal_value consts c s <= U128_MAX -> 0 <= w <= sub_weeks s ->
  let t := w * tokens_per_week s in
  charge_subscription_through consts c s w =
    Ok (if w <=? week_index s then (false, c, s)
        else (true, pay_out c (pay_of t (cprice c) - pay_of (tokens_paid s) (cprice c))
                     (fee_of consts t (cprice c) - fee_of consts (tokens_paid s) (cprice c)),
              set_week w (c_tokens_pending c) (set_tokens_paid t s))).
Proof.
  intros Hs Hb Hsub Hv Hw t. destruct (stream_books_total consts Hc c s Hs Hb) as [Ha Ht].
  unfold charge_subscription_through. destruct (Z.leb_spec w (week_index s)); [done|].
  pose proof Hs as []. destruct (is_subscription_weeks s sh_weeks Hsub) as (W1 & W2 & W3 & W4).
  assert (0 < TICK_SIZE) by done.
  assert (0 <= w * tokens_per_week s <= funded_tokens s) by nia.
  assert (funded_tokens s <= U128_MAX) by (rewrite sh_funded; unfold TICK_SIZE; ilia).
  unfold chain. rewrite u128_mul_total by lia.
  destruct (cost_of_mono consts Hc (w * tokens_per_week s) (funded_tokens s) (cprice c)) as (_ & _ & M); [lia..|].
  rewrite credit_through_total; try done; [lia| |].
  - destruct Hb. destruct (decide (week_index s = 0)) as [Hz|Hz].
    + destruct (st_week0 Hz). nia.
    + rewrite st_paid_weeks by lia. nia.
  - destruct Hb. lia.
Qed.
Lemma charge_total c s w :
  deal_shape consts c s -> stream_books consts c s -> is_subscription s = true ->
  deal_value consts c s <= U128_MAX -> 0 <= w <= sub_weeks s ->
  exists b c' s', charge_subscription_through consts c s w = Ok (b, c', s').
Proof. intros. rewrite charge_exact by done. destruct (_ <=? _); eauto. Qed.

Lemma delivered_total c s : deal_shape consts c s ->
  exists d, delivered_ticks c = Ok d /\ 0 <= d <= c_max_ticks c.
Proof.
  intros []. unfold delivered_ticks, finalized_ticks, chain, try_from.
  assert (0 <= c_tokens_final c / TICK_SIZE <= c_max_ticks c) as Hd.
  { split; [apply Z.div_pos; [lia|done]|]. apply Z.div_le_upper_bound; [done|]. lia. }
  rewrite (proj2 (Z.leb_le _ _)) by lia. simpl. eexists. split; [done|].
  destruct (c_probe_accepted c); lia.
Qed.

Lemma settle_fees_total c d :
  0 <= cprice c -> 0 <= d -> amounts_ok c -> d * cprice c <= U128_MAX -> total c <= U128_MAX ->
  exists c', settle_mock_fees consts c d true = Ok c'.
Proof.
  intros Hp Hd [] Hg Ht. destruct_and!. unfold settle_mock_fees, chain. fold (cprice c).
  rewrite u128_mul_total by lia.
  pose proof (rebate_rate_nonneg consts Hc d Hd) as Hr. set (rate := Z.min _ _) in *.
  assert (rate <= 10000) by (destruct Hsane; unfold rate; lia).
  assert (0 <= d * cprice c * rate / 10000 <= d * cprice c).
  { split; [apply Z.div_pos; nia|]. apply Z.div_le_upper_bound; nia. }
  rewrite checked_mul_div_floor_total; [|lia|nia|lia|lia|ilia].
  set (reb := Z.min _ _). assert (0 <= reb <= c_fee_accrued c) by (unfold reb; lia).
  unfold total in *. rewrite u128_add_total by lia. rewrite u128_add_total by lia. eauto.
Qed.

Lemma close_clean_total c d :
  0 <= cprice c -> 0 <= d -> amounts_ok c -> d * cprice c <= U128_MAX -> total c <= U128_MAX ->
  exists r c', close_mock_clean consts c d = Ok (r, c').
Proof.
  intros Hp Hd Ha Hg Ht. destruct (settle_fees_total c d) as [c1 E]; try done.
  unfold close_mock_clean. rewrite E. unfold chain.
  apply (settle_fees_inv consts Hc) in E as (reb & Hr & _ & ->); [|done|done|apply Ha].
  destruct Ha. destruct_and!. unfold total in *. cbn [c_buyer_locked c_probe_locked c_buyer_bond
    c_buyer_refunded c_seller_received c_seller_locked set_fee_accrued set_burned set_seller_received].
  rewrite u128_add_total by lia. rewrite u128_add_total by lia. rewrite u128_add_total by lia.
  rewrite u128_add_total by lia. eauto.
Qed.

Lemma finalized_total t k : 0 <= t <= k * TICK_SIZE -> k <= U64_MAX ->
  finalized_ticks t = Ok (t / TICK_SIZE).
Proof.
  intros. unfold finalized_ticks, chain, try_from. rewrite (proj2 (Z.leb_le _ _)); [done|].
  apply Z.le_trans with k; [|done]. apply Z.div_le_upper_bound; [done|]. unfold TICK_SIZE in *. lia.
Qed.

(** The tail of a buyer stop: pay up to the trusted tokens, then close. *)
Lemma stop_tail_total c s :
  deal_shape consts c s -> stream_books consts c s -> c_probe_accepted c = true ->
  (exists t p, state (c_machine c) = Streaming t p) -> deal_value consts c s <= U128_MAX ->
  let paid := Z.max (tokens_paid s) (c_tokens_final c) in
  let refund := cost_of consts (funded_tokens s) (cprice c) - cost_of consts paid (cprice c)
                + buyer_bond_of c s in
  exists c' s',
    (let trusted := c_tokens_final c in
     let* ' (cell, sub) :=
       (if tokens_paid s <? trusted then credit_tokens_through consts c s trusted
        else Ok (c, s)) in
     let* delivered := delivered_ticks cell in
     let* ' (_, m) := machine_err (buyer_stop (c_machine cell)) in
     let* ' (refund, cell) := close_mock_clean consts (set_machine m cell) delivered in
     let* paid_ticks := finalized_ticks (tokens_paid sub) in
     Ok (AmicableSplit paid_ticks refund,
         set_buyer_stop_settlement (Some (c_seller_received cell, refund)) cell, sub))
    = Ok (AmicableSplit (paid / TICK_SIZE) refund, c', s') /\
    c_buyer_refunded c' = refund /\ tokens_paid s' = paid.
Proof.
  intros Hs Hb Hacc (t & p & Hst) Hv paid refund.
  destruct (stream_books_total consts Hc c s Hs Hb) as [Ha Ht]. pose proof Hs as []. pose proof Hb as [].
  set (c1 := if tokens_paid s <? c_tokens_final c then
    pay_out c (pay_of (c_tokens_final c) (cprice c) - pay_of (tokens_paid s) (cprice c))
      (fee_of consts (c_tokens_final c) (cprice c) - fee_of consts (tokens_paid s) (cprice c)) else c).
  destruct (cost_of_mono consts Hc (c_tokens_final c) (funded_tokens s) (cprice c)) as (_ & _ & M); [lia..|].
  assert ((if tokens_paid s <? c_tokens_final c then credit_tokens_through consts c s (c_tokens_final c)
    else Ok (c, s)) = Ok (c1, set_tokens_paid paid s)) as E1.
  { unfold c1, paid. destruct (Z.ltb_spec (tokens_paid s) (c_tokens_final c)) as [Hlt|Hge].
    - rewrite credit_through_total; try done; try lia. by rewrite Z.max_r by lia.
    - rewrite Z.max_l by lia. by destruct s. }
  cbv zeta. rewrite E1.
  assert (deal_shape consts c1 (set_tokens_paid paid s) /\ amounts_ok c1 /\ total c1 = total c /\ same_run c c1)
    as (Hs1 & Ha1 & Ht1 & Run).
  { destruct (tokens_paid s <? c_tokens_final c) eqn:El.
    - destruct (credit_keeps consts Hc c s (c_tokens_final c) c1 (set_tokens_paid paid s) Hs Ha E1)
        as (? & ? & ? & _ & ? & _). done.
    - simplify_eq. unfold paid. rewrite Z.max_l by lia. split_and!; done. }
  destruct (delivered_total c1 _ Hs1) as (d & Ed & Hd). rewrite Ed.
  pose proof Run as [M1 _ _ _ (_ & T1 & _)]. rewrite M1. unfold buyer_stop. rewrite Hst. simpl.
  set (m := with_state (c_machine c) Stopping).
  assert (amounts_ok (set_machine m c1)) as Ha2 by (destruct Ha1; by constructor).
  assert (d * cprice c <= cost_of consts (funded_tokens s) (cprice c)).
  { rewrite <- pay_of_tick. destruct (cost_of_mono consts Hc (d * TICK_SIZE) (funded_tokens s) (cprice c))
      as (P & _ & _); [rewrite sh_funded; rewrite T1 in *; unfold TICK_SIZE in *; lia|lia|].
    pose proof (fee_of_nonneg consts Hc (funded_tokens s) (cprice c)). unfold cost_of in *. lia. }
  destruct (close_clean_total (set_machine m c1) d) as (r & c' & Ecl); try done; try (unfold cprice, m; simpl; fold (cprice c); lia).
  { change (total c1 <= U128_MAX). lia. }
  rewrite Ecl. rewrite (finalized_total _ (c_max_ticks c)) by (unfold paid; simpl; lia). simpl.
  apply (close_clean_inv consts Hc) in Ecl as (_ & _ & Hr & Href); [|unfold cprice, m; simpl; fold (cprice c); lia|lia|done].
  assert (r = refund) as ->.
  { rewrite Hr. unfold refund, c1, paid; simpl.
    destruct (Z.ltb_spec (tokens_paid s) (c_tokens_final c)); simpl; rewrite ?st_probe, ?st_bond, ?st_buyer;
      unfold cost_of; [rewrite Z.max_r by lia|rewrite Z.max_l by lia]; lia. }
  eexists _, _. split; [reflexivity|]. simpl. split; [|done]. rewrite Href. simpl.
  unfold c1. destruct (_ <? _); simpl; lia.
Qed.

(** The tokens final when a promotion at [now] has run. *)
Definition trusted_at c (now : Z) : Z :=
  if c_last_claim_time c + claim_promote_window consts <=? now
  then c_tokens_pending c else c_tokens_final c.

Lemma promote_due_total c now :
  c_tokens_final c <= c_tokens_pending c ->
  c_last_claim_time c + claim_promote_window consts <= U64_MAX ->
  exists c', promote_due consts c now = Ok c' /\ c_tokens_final c' = trusted_at c now.
Proof.
  intros Hle Hw. unfold promote_due. rewrite claim_deadline_total by done. eexists. split; [done|].
  unfold trusted_at, promote_once. destruct (_ <=? now); [|done].
  destruct (Z.ltb_spec (c_tokens_final c) (c_tokens_pending c)); simpl; lia.
Qed.

(** What a buyer stop leaves.  Before acceptance the probe burns on both sides.  After
    it the buyer pays for [tokens_paid s'] and gets all the rest back: the trusted
    tokens of an ordinary deal; of a subscription the weeks started by now or already
    charged, or the trusted tokens where these are more. *)
Definition stop_result c s (t1 t2 : Z) (x : Settlement) c' s' : Prop :=
  let p := cprice c in
  if c_probe_accepted c then
    x = AmicableSplit (tokens_paid s' / TICK_SIZE) (c_buyer_refunded c') /\
    c_buyer_refunded c' = cost_of consts (funded_tokens s) p - cost_of consts (tokens_paid s') p
                          + buyer_bond_of c s /\
    trusted_at c t1 <= tokens_paid s' <= funded_tokens s /\
    (is_subscription s = false -> tokens_paid s' = trusted_at c t1) /\
    (is_subscription s = true -> exists w, subscription_weeks_at s t2 true = Ok w /\
       tokens_paid s' = Z.max (Z.max w (week_index s) * tokens_per_week s) (trusted_at c t1))
  else
    (exists burn, x = BurnBoth burn /\ cb_buyer_refund burn = c_buyer_refunded c') /\
    c_buyer_refunded c' = cost_of consts (funded_tokens s) p - p + buyer_bond_of c s /\
    c_burned c' = 2 * p /\ c_seller_received c' = p.

Lemma stop_on_probe_total c s :
  deal_shape consts c s -> probe_phase consts c s -> c_disputed c = false ->
  deal_value consts c s <= U128_MAX ->
  exists x c', stop_on_probe c = Ok (x, c') /\
    (exists burn, x = BurnBoth burn /\ cb_buyer_refund burn = c_buyer_refunded c') /\
    c_buyer_refunded c' = cost_of consts (funded_tokens s) (cprice c) - cprice c + buyer_bond_of c s /\
    c_burned c' = 2 * cprice c /\ c_seller_received c' = cprice c.
Proof.
  intros Hs Hp Hd Hv. destruct (probe_books consts Hc c s Hs Hp) as [[] Ht]. destruct Hs, Hp.
  rewrite Hd in pr_machine. unfold stop_on_probe, buyer_stop, chain. rewrite pr_machine. simpl.
  unfold total in *. rewrite pr_probe, pr_seller, pr_bond, pr_buyer in *.
  destruct pr_paid as [P1 P2], pr_out as [P3 P4]. rewrite P2, P3, P4.
  rewrite (Z.min_l (cprice c)) by lia.
  rewrite u128_add_total by lia. rewrite u128_add_total by lia. rewrite u128_add_total by lia.
  rewrite u128_add_total by lia. rewrite u128_add_total by lia.
  eexists _, _. split; [done|]. simpl. split_and!; [|lia..]. eexists. split; [done|]. simpl. lia.
Qed.

Lemma weeks_started_pos s t w : 0 < sub_weeks s -> subscription_weeks_at s t true = Ok w -> 0 < w.
Proof.
  intros Hs H. apply weeks_at_inv in H as [Hn ->].
  assert (0 <= (t - period_start s) / SUB_WEEK_LEN) by (apply Z.div_pos; [lia|reflexivity]).
  simpl. destruct (Z.ltb_spec (Z.min ((t - period_start s) / SUB_WEEK_LEN) (sub_weeks s)) (sub_weeks s)); lia.
Qed.

Lemma stop_total c s t0 t1 t2 :
  deal_inv consts c s t0 -> c_closed c = false -> c_disputed c = false ->
  t0 <= t1 -> t1 <= t2 -> t2 + claim_promote_window consts <= U64_MAX ->
  deal_value consts c s <= U128_MAX ->
  exists x c' s', stop_deal consts c s t1 t2 = Ok (x, c', s') /\ stop_result c s t1 t2 x c' s'.
Proof.
  intros Hi Ho Hd H1 H2 Hw Hv. unfold stop_deal, stop_result. rewrite Ho, Hd.
  destruct (c_probe_accepted c) eqn:Ha; simpl.
  2:{ destruct Hi as (Hs & Hp & _). unfold phase in Hp. rewrite Ho, Ha in Hp.
      destruct (stop_on_probe_total c s Hs Hp Hd Hv) as (x & c' & -> & R). eauto. }
  assert (streaming_flags c) as Hfl by (repeat split; done).
  destruct (streaming_phase consts c s t0 Hi Hfl) as (Hs & Hb & Hm & Ht).
  assert (c_last_claim_time c + claim_promote_window consts <= U64_MAX) by (destruct Ht; lia).
  destruct (promote_due_total c t1 ltac:(destruct Hs; lia) H) as (c1 & E1 & F1).
  unfold stop_accepted. rewrite E1.
  destruct (promote_keeps consts c s t1 c1 Hs Hb E1) as (Hs1 & Hb1 & Fr1 & M1 & O1 & D1 & A1 & P1 & _ & _).
  assert (streaming_flags c1) as Hfl1 by (repeat split; congruence).
  assert (exists y c2 s2, (if is_subscription s then let* w := subscription_weeks_at s t2 true in
    charge_subscription_through consts c1 s w else Ok (false, c1, s)) = Ok (y, c2, s2)) as (y & c2 & s2 & E2).
  { destruct (is_subscription s) eqn:Hsub; [|eauto].
    destruct (is_subscription_weeks s) as (W1 & _); [apply Hs|done|].
    destruct (weeks_at_total s t2 true) as [w Ew]; [rewrite W1; done|destruct Ht; lia|]. rewrite Ew.
    apply charge_total; try done; [|apply (weeks_at_bounds s t2 true w); [lia|done]].
    by rewrite (deal_value_frame consts _ _ _ _ Fr1). }
  rewrite E2. destruct (charge_weeks_keeps consts c1 s t2 true y c2 s2 Hs1 Hb1 Hfl1 E2)
    as (Hs2 & Hb2 & Hfl2 & Fr2 & Run2 & _ & Hwk).
  pose proof (deal_frame_trans _ _ _ _ _ _ Fr1 Fr2) as Fr.
  assert (deal_value consts c2 s2 = deal_value consts c s) as Hval by by apply deal_value_frame.
  destruct (stop_tail_total c2 s2 Hs2 Hb2) as (c' & s' & E3 & R1 & R2).
  { apply Hfl2. } { destruct Run2 as [-> _ _ _ _]. rewrite M1. unfold machine_synced in Hm. rewrite Hd in Hm. eauto. }
  { lia. }
  cbv zeta in E3. rewrite E3. clear E3. exists (AmicableSplit (Z.max (tokens_paid s2) (c_tokens_final c2) / TICK_SIZE)
    (cost_of consts (funded_tokens s2) (cprice c2) - cost_of consts (Z.max (tokens_paid s2) (c_tokens_final c2)) (cprice c2) + buyer_bond_of c2 s2)), c', s'.
  split; [done|]. rewrite R1, R2. destruct Run2 as [_ _ [F2 _] _ _].
  destruct Fr as [Te _ _ Pr]. pose proof (same_terms_sub _ _ Te) as Hss. destruct Te as [_ _ Tw Tf].
  unfold buyer_bond_of. rewrite Tf, Pr, Hss, F2, F1. pose proof Hs2 as []. rewrite F2, F1, Tf in *.
  split_and!; try done; try lia.
  - intros Hsub. rewrite Hsub in E2. simplify_eq. destruct Hb2. rewrite F1 in *.
    destruct (is_ordinary_weeks s2) as (_ & W & _); [done|congruence|]. destruct (st_week0 W). lia.
  - intros Hsub. destruct (Hwk Hsub) as (w & Ew & Hwi & _). exists w. split; [done|].
    destruct (is_subscription_weeks s2 sh_weeks) as (V1 & V2 & V3 & V4); [congruence|].
    destruct (is_subscription_weeks s) as (V1' & _); [apply Hs|done|].
    pose proof (weeks_started_pos s t2 w ltac:(lia) Ew).
    destruct Hb2. rewrite st_paid_weeks by lia. by rewrite Tw, Hwi.
Qed.

(** ** Disputes always resolve *)

(** What a resolution settles, counted at the time of the dispute: the weeks a
    subscription has completed and started then, what charging them takes, the tokens
    the claims are measured from, the tokens they prove and what they dispute. *)
Definition weeks_done c s : Z :=
  if is_subscription s && c_probe_accepted c
  then Z.min ((c_dispute_time c - period_start s) / SUB_WEEK_LEN) (sub_weeks s) else 0.
Definition weeks_unstarted c s : Z :=
  if weeks_done c s <? sub_weeks s then sub_weeks s - (weeks_done c s + 1) else 0.
Definition weekly_pay c s : Z :=
  if weeks_done c s <=? week_index s then 0
  else pay_of (weeks_done c s * tokens_per_week s) (cprice c) - pay_of (tokens_paid s) (cprice c).
Definition weekly_bill c s : Z :=
  if weeks_done c s <=? week_index s then 0
  else cost_of consts (weeks_done c s * tokens_per_week s) (cprice c) - cost_of consts (tokens_paid s) (cprice c).
Definition dispute_base c s : Z := if weeks_done c s <=? week_index s then claim_base s else c_tokens_pending c.
Definition proved_tokens c s : Z := saturating_sub (trusted_at c (c_dispute_time c)) (dispute_base c s).
Definition disputed_tokens c s : Z := saturating_sub (c_tokens_pending c) (dispute_base c s).
(** The deposit after the weeks and the proved tokens were paid. *)
Definition deposit_left c s : Z := c_buyer_locked c - weekly_bill c s - cost_of consts (proved_tokens c s) (cprice c).
(** What the dispute costs the buyer: the disputed value, between one and two prices;
    from his bond in a subscription, else from what his deposit still holds. *)
Definition buyer_stake c s : Z :=
  let claimed := Z.min (Z.max (cost_of consts (disputed_tokens c s) (cprice c)) (cprice c)) (2 * cprice c) in
  if is_subscription s then claimed else Z.min claimed (deposit_left c s).
(** What he gets back: of an accepted subscription's deposit the weeks not started. *)
Definition dispute_refund c s : Z :=
  let left := deposit_left c s + c_probe_locked c - (if is_subscription s then 0 else buyer_stake c s) in
  let back := if is_subscription s && c_probe_accepted c
              then Z.min (cost_of consts (weeks_unstarted c s * tokens_per_week s) (cprice c)) left else left in
  back + (if is_subscription s then 2 * cprice c - buyer_stake c s else 0).
(** The seller keeps what the weeks and his claims earned and gets his bond back, less
    on a timeout the buyer's own loss; all the rest of the deal's value is burned. *)
Definition dispute_result c s (timed_out : bool) (refund bond : Z) c' : Prop :=
  refund = dispute_refund c s /\ bond = 2 * cprice c - (if timed_out then buyer_stake c s else 0) /\
  c_buyer_refunded c' = refund /\
  c_seller_received c' =
    c_seller_received c + weekly_pay c s + pay_of (proved_tokens c s) (cprice c) + bond /\
  c_burned c' = deal_value consts c s - c_buyer_refunded c' - c_seller_received c'.

(** The trusted tokens a dispute still owes fit the remaining escrow. *)
Lemma owed_fits c s f :
  deal_shape consts c s -> stream_books consts c s -> f <= c_tokens_pending c ->
  let owed := saturating_sub f (claim_base s) in
  0 <= owed /\ owed + tokens_paid s <= funded_tokens s /\
  cost_of consts owed (cprice c) <= c_buyer_locked c.
Proof.
  intros Hs Hb Hf owed. destruct Hs, Hb.
  assert (0 <= owed /\ owed + tokens_paid s <= funded_tokens s) as [H0 H1].
  { unfold owed, saturating_sub, claim_base. destruct (is_subscription s) eqn:Hsub; simpl.
    - destruct (is_subscription_weeks s sh_weeks Hsub) as (W1 & W2 & W3 & W4).
      destruct (Z.ltb_spec 0 (week_index s)) as [Hp|Hp]; [|lia].
      rewrite st_paid_weeks in * by done.
      destruct (Z.eq_dec (week_index s) (sub_weeks s)) as [He|He].
      + rewrite st_over in * by done. lia.
      + unfold TICK_SIZE in *. nia.
    - lia. }
  split_and!; [done|done|]. rewrite st_buyer.
  pose proof (cost_of_super consts Hc owed (tokens_paid s) (cprice c) ltac:(lia) ltac:(lia) ltac:(lia)).
  destruct (cost_of_mono consts Hc (owed + tokens_paid s) (funded_tokens s) (cprice c)) as (_ & _ & ?); lia.
Qed.

Lemma token_fee_fits c s t : deal_shape consts c s -> 0 <= t <= funded_tokens s ->
  token_pay_and_fee consts t (cprice c) = Ok (pay_of t (cprice c), fee_of consts t (cprice c)) /\
  cost_of consts t (cprice c) <= U128_MAX.
Proof.
  intros [] Ht. destruct (cost_of_mono consts Hc t (funded_tokens s) (cprice c)) as (_ & _ & ?); [lia..|].
  rewrite token_pay_and_fee_total; [split; [done|lia]|done|lia|unfold in_u64; lia|lia].
Qed.

(** The stake of both sides: between one and two prices, and within the escrow
    of an ordinary deal. *)
Lemma dispute_stake_total c s :
  deal_shape consts c s -> claim_base s <= funded_tokens s -> 0 <= claim_base s ->
  c_seller_locked c = 2 * cprice c -> c_buyer_bond c = buyer_bond_of c s -> 0 <= c_buyer_locked c ->
  let claimed := Z.min (Z.max (cost_of consts (saturating_sub (c_tokens_pending c) (claim_base s)) (cprice c)) (cprice c))
                   (2 * cprice c) in
  exists st, dispute_stake consts c s = Ok st /\ 0 <= st <= 2 * cprice c /\
    st = if is_subscription s then claimed else Z.min claimed (c_buyer_locked c).
Proof.
  intros Hs Hcb Hcb0 Hsl Hbb Hbl claimed. unfold claimed. clear claimed. unfold dispute_stake. fold (cprice c).
  assert (0 <= saturating_sub (pending_tokens c) (claim_base s) <= funded_tokens s)
    by (destruct Hs; unfold saturating_sub, pending_tokens; lia).
  destruct (token_fee_fits c s (saturating_sub (pending_tokens c) (claim_base s)) Hs) as [-> Hx]; [done|].
  pose proof (cost_of_nonneg consts Hc (saturating_sub (pending_tokens c) (claim_base s)) (cprice c)).
  unfold chain, cost_of in *. rewrite u128_add_total by lia. eexists. split; [done|].
  rewrite Hsl, Hbb. unfold buyer_bond_of, pending_tokens in *. destruct Hs. destruct (is_subscription s); split_and!; lia.
Qed.

Lemma burn_stakes_total c s st (to : bool) :
  amounts_ok c -> total c <= U128_MAX -> 0 <= st -> (is_subscription s = true -> st <= c_buyer_bond c) ->
  exists c', burn_stakes c s st to = Ok c' /\
    let taken := if is_subscription s then st else Z.min st (c_buyer_locked c) in
    c_buyer_locked c' = c_buyer_locked c - (if is_subscription s then 0 else taken) /\
    c_buyer_bond c' = c_buyer_bond c - (if is_subscription s then taken else 0) /\
    c_seller_locked c' = c_seller_locked c - (if to then Z.min taken (c_seller_locked c) else 0) /\
    c_seller_received c' = c_seller_received c /\ c_buyer_refunded c' = c_buyer_refunded c.
Proof.
  intros [] Ht Hst Hb. destruct_and!. unfold burn_stakes, chain, total in *.
  destruct (is_subscription s); [specialize (Hb eq_refl)|];
    cbn [c_burned c_seller_locked set_buyer_bond set_buyer_locked set_burned set_seller_locked];
    rewrite u128_add_total by lia;
    cbn [c_burned c_seller_locked set_buyer_bond set_buyer_locked set_burned set_seller_locked];
    rewrite u128_add_total by (destruct to; lia);
    (eexists; split; [done|]); simpl; split_and!; lia || done.
Qed.

Lemma settle_fees_burn_total c d : amounts_ok c -> total c <= U128_MAX ->
  exists c', settle_mock_fees consts c d false = Ok c'.
Proof.
  intros [] Ht. destruct_and!. unfold settle_mock_fees, chain, total in *.
  rewrite u128_add_total by lia. rewrite u128_add_total by lia. eauto.
Qed.

Lemma refundable_total c s rem :
  deal_shape consts c s -> period_start s <= c_dispute_time c ->
  refundable_deposit consts c s rem =
    Ok (if is_subscription s && c_probe_accepted c
        then Z.min (cost_of consts (weeks_unstarted c s * tokens_per_week s) (cprice c)) rem else rem).
Proof.
  intros Hs Hp. unfold refundable_deposit, weeks_unstarted, weeks_done.
  destruct (is_subscription s) eqn:Hsub; simpl; [|done]. destruct (c_probe_accepted c); simpl; [|done].
  destruct (is_subscription_weeks s) as (W1 & _ & W3 & W4); [apply Hs|done|].
  destruct (weeks_at_total s (c_dispute_time c) true) as [w Ew]; [rewrite W1; done|done|]. rewrite Ew.
  pose proof (weeks_at_bounds s _ _ w ltac:(lia) Ew) as Hw. apply weeks_at_inv in Ew as [_ Ew]. simpl in Ew.
  assert (0 <= saturating_sub (sub_weeks s) w * tokens_per_week s <= funded_tokens s)
    by (unfold saturating_sub, TICK_SIZE in *; nia).
  assert (funded_tokens s <= U128_MAX) by (destruct Hs; rewrite sh_funded; unfold TICK_SIZE; ilia).
  unfold chain. rewrite u128_mul_total by lia. fold (cprice c).
  destruct (token_fee_fits c s (saturating_sub (sub_weeks s) w * tokens_per_week s) Hs) as [-> Hx]; [done|].
  unfold cost_of in *. rewrite u128_add_total by lia. simpl. do 3 f_equal;
    (replace (saturating_sub (sub_weeks s) w) with
       (if Z.min ((c_dispute_time c - period_start s) / SUB_WEEK_LEN) (sub_weeks s) <? sub_weeks s
        then sub_weeks s - (Z.min ((c_dispute_time c - period_start s) / SUB_WEEK_LEN) (sub_weeks s) + 1) else 0); [done|]);
    unfold saturating_sub; destruct (Z.ltb_spec (Z.min ((c_dispute_time c - period_start s) / SUB_WEEK_LEN) (sub_weeks s)) (sub_weeks s)); lia.
Qed.

Lemma dispute_charge_total c s now :
  deal_inv consts c s now -> c_disputed c = true -> c_closed c = false ->
  deal_value consts c s <= U128_MAX ->
  exists b c1 s1,
    (if is_subscription s && c_probe_accepted c then
       let* w := subscription_weeks_at s (c_dispute_time c) false in
       charge_subscription_through consts c s w
     else Ok (false, c, s)) = Ok (b, c1, s1) /\
    c_buyer_locked c1 = c_buyer_locked c - weekly_bill c s /\
    c_seller_received c1 = c_seller_received c + weekly_pay c s /\
    c_probe_locked c1 = c_probe_locked c /\ c_buyer_refunded c1 = c_buyer_refunded c /\
    claim_base s1 = dispute_base c s.
Proof.
  intros (Hs & Hp & Ht) Hd Ho Hv. unfold phase in Hp. rewrite Ho in Hp.
  assert (0 <= week_index s) as Hi by (destruct Hs; destruct sh_weeks; lia).
  destruct (is_subscription s && c_probe_accepted c) eqn:Ex.
  2:{ do 3 eexists. split; [done|]. unfold weekly_bill, weekly_pay, dispute_base, weeks_done. rewrite Ex.
      rewrite (proj2 (Z.leb_le 0 _)) by done. split_and!; lia || done. }
  apply andb_true_iff in Ex as [Hsub Ha]. rewrite Ha in Hp. destruct Hp as [Hb _].
  destruct (is_subscription_weeks s) as (W1 & _); [apply Hs|done|].
  assert (period_start s <= c_dispute_time c).
  { destruct Ht. specialize (tm_disputed Hd). specialize (tm_order ltac:(lia)). lia. }
  destruct (weeks_at_total s (c_dispute_time c) false) as [w Ew]; [rewrite W1; done|done|]. rewrite Ew.
  assert (w = weeks_done c s) as ->.
  { unfold weeks_done. rewrite Hsub, Ha. by apply weeks_at_inv in Ew as [_ ->]. }
  rewrite charge_exact by (done || (apply (weeks_at_bounds s (c_dispute_time c) false (weeks_done c s)); [lia|done])).
  unfold weekly_bill, weekly_pay, dispute_base.
  destruct (Z.leb_spec (weeks_done c s) (week_index s)); do 3 eexists; (split; [done|]); simpl.
  - split_and!; lia || done.
  - split_and!; try done; try lia; [unfold cost_of; lia|].
    unfold claim_base, is_subscription in *. simpl. rewrite Hsub. simpl. by rewrite (proj2 (Z.ltb_lt _ _)) by lia.
Qed.

Lemma void_total c at_ :
  c_last_claim_time c + claim_promote_window consts <= U64_MAX -> c_tokens_final c <= c_tokens_pending c ->
  void_claims_at consts c at_ = Ok (set_tokens_pending (trusted_at c at_) (set_tokens_final (trusted_at c at_) c)).
Proof.
  intros Hw Hle. unfold void_claims_at, trusted_at.
  destruct (Z.ltb_spec (c_tokens_final c) (c_tokens_pending c)); simpl.
  - rewrite claim_deadline_total by done. simpl. destruct (_ <=? at_); [done|]. by destruct c.
  - destruct (_ <=? at_); destruct c; simpl in *; by replace c_tokens_pending with c_tokens_final by lia.
Qed.
Lemma trusted_bounds c at_ : c_tokens_final c <= c_tokens_pending c ->
  c_tokens_final c <= trusted_at c at_ <= c_tokens_pending c.
Proof. intros. unfold trusted_at. destruct (_ <=? at_); lia. Qed.

(** In a dispute the claims still owed fit the escrow, whatever the phase. *)
Lemma dispute_owed c s f :
  deal_shape consts c s -> f <= c_tokens_pending c ->
  (if c_probe_accepted c then stream_books consts c s else probe_phase consts c s) ->
  let owed := saturating_sub f (claim_base s) in
  0 <= owed <= funded_tokens s /\ cost_of consts owed (cprice c) <= c_buyer_locked c /\
  0 <= claim_base s <= funded_tokens s /\ c_seller_locked c = 2 * cprice c /\
  c_buyer_bond c = buyer_bond_of c s.
Proof.
  intros Hs Hf Hp owed. destruct (c_probe_accepted c).
  - pose proof (owed_fits c s f Hs Hp Hf) as (O1 & O2 & O3). fold owed in O1, O2, O3. destruct Hs, Hp.
    split_and!; try done; try lia; unfold claim_base; destruct (_ && _); lia.
  - destruct Hp, Hs. destruct pr_sub as (S1 & S2 & S3).
    assert (claim_base s = 0) as Hcb by (unfold claim_base; rewrite S1, S2; by destruct (_ && _)).
    assert (owed = 0) as Hz by (unfold owed, saturating_sub; lia). rewrite Hz, Hcb.
    assert (pay_of 0 (cprice c) = 0 /\ fee_of consts 0 (cprice c) = 0) as [P1 P2].
    { unfold fee_of, pay_of. rewrite Z.mul_0_l, Z.div_0_l by done. by rewrite Z.mul_0_l, Z.div_0_l. }
    pose proof (cost_of_nonneg consts Hc (funded_tokens s - TICK_SIZE) (cprice c)).
    assert (cprice c <= cost_of consts (funded_tokens s) (cprice c)).
    { rewrite sh_funded. unfold cost_of. rewrite pay_of_tick.
      pose proof (fee_of_nonneg consts Hc (c_max_ticks c * TICK_SIZE) (cprice c)). unfold TICK_SIZE in *. nia. }
    unfold cost_of at 1. split_and!; try done; unfold TICK_SIZE in *; lia.
Qed.

Lemma dispute_machine_live c s now (to : bool) : deal_inv consts c s now ->
  c_disputed c = true -> c_closed c = false ->
  exists m, (if to then Ok (snd (resolve_dispute_timeout (c_machine c)))
    else let* ' (_, m) := machine_err (release_dispute (c_machine c)) in Ok m) = @Ok ChainError _ m.
Proof.
  intros (_ & Hp & _) Hd Ho. destruct to; [eauto|]. unfold phase in Hp. rewrite Ho in Hp.
  unfold release_dispute.
  assert (exists a b, state (c_machine c) = Disputed a b) as (a & b & ->); [|simpl; eauto].
  destruct (c_probe_accepted c);
    [destruct Hp as [_ Hm]; unfold machine_synced in Hm|destruct Hp as [? ? ? ? ? ? ? ? Hm]];
    rewrite Hd in Hm; eauto.
Qed.

(** The settlement half never fails, and splits what is left exactly. *)
Lemma settle_dispute_total c s st (to : bool) :
  deal_shape consts c s -> amounts_ok c -> total c <= U128_MAX -> 0 <= st ->
  (is_subscription s = true -> st <= c_buyer_bond c) -> period_start s <= c_dispute_time c ->
  st <= c_seller_locked c ->
  (exists m, (if to then Ok (snd (resolve_dispute_timeout (c_machine c)))
    else let* ' (_, m) := machine_err (release_dispute (c_machine c)) in Ok m) = @Ok ChainError _ m) ->
  let taken := if is_subscription s then st else Z.min st (c_buyer_locked c) in
  let left := c_buyer_locked c - (if is_subscription s then 0 else taken) + c_probe_locked c in
  let back := if is_subscription s && c_probe_accepted c
              then Z.min (cost_of consts (weeks_unstarted c s * tokens_per_week s) (cprice c)) left else left in
  exists r b c', settle_dispute consts c s st to = Ok (r, b, c') /\
    b = c_seller_locked c - (if to then taken else 0) /\
    r = back + c_buyer_bond c - (if is_subscription s then taken else 0) /\
    c_buyer_refunded c' = c_buyer_refunded c + r /\ c_seller_received c' = c_seller_received c + b.
Proof.
  intros Hs A Hu Hst Hbond Hper Hsl [m Em] taken left back. unfold settle_dispute.
  destruct (burn_stakes_total c s st to A Hu Hst Hbond) as (c4 & E4 & L4 & B4 & S4 & Rc4 & Rf4). rewrite E4.
  destruct (burn_stakes_inv c s st to c4 A Hst Hbond E4) as (A4 & T4 & R4 & P4 & _).
  pose proof (same_run_shape consts _ _ _ R4 Hs) as Hs4.
  destruct (delivered_total c4 s Hs4) as (d & Ed & Hdp). rewrite Ed.
  destruct (settle_fees_burn_total c4 d A4 ltac:(lia)) as [c5 E5]. rewrite E5.
  apply (settle_fees_inv consts Hc) in E5 as (reb & Hr & Hz & ->); [|destruct Hs4; lia|lia|apply A4].
  rewrite (Hz eq_refl) in *. set (c5 := set_fee_accrued 0 _) in *. pose proof A4 as [Al Ao].
  assert (same_run c4 c5) as R5 by done. unfold total in *. unfold chain.
  pose proof (same_run_shape consts _ _ _ R5 Hs4) as Hs5. pose proof R4 as [M4 (A4' & _ & _) _ (_ & _ & D4) _].
  rewrite u128_add_total by (cbn [c5 c_buyer_locked c_probe_locked set_fee_accrued set_burned set_seller_received]; lia).
  rewrite (refundable_total c5 s (c_buyer_locked c5 + c_probe_locked c5) Hs5)
    by (change (c_dispute_time c5) with (c_dispute_time c4); lia).
  assert (c_buyer_locked c5 + c_probe_locked c5 = left) as El.
  { cbn [c5 c_buyer_locked c_probe_locked set_fee_accrued set_burned set_seller_received]. unfold left, taken. lia. }
  assert (cprice c5 = cprice c) as Epr by (unfold cprice; change (c_machine c5) with (c_machine c4); by rewrite M4).
  assert (weeks_unstarted c5 s = weeks_unstarted c s) as Ewu.
  { unfold weeks_unstarted, weeks_done. change (c_dispute_time c5) with (c_dispute_time c4).
    change (c_probe_accepted c5) with (c_probe_accepted c4). by rewrite D4, A4'. }
  rewrite El, Epr, Ewu. change (c_probe_accepted c5) with (c_probe_accepted c4). rewrite A4'.
  fold back.
  assert (0 <= left) by (rewrite <- El; cbn [c5 c_buyer_locked c_probe_locked set_fee_accrued set_burned set_seller_received]; lia).
  assert (0 <= back <= left) as Hback.
  { unfold back. destruct (_ && _); [|lia].
    pose proof (cost_of_nonneg consts Hc (weeks_unstarted c s * tokens_per_week s) (cprice c)).
    assert (0 <= weeks_unstarted c s) by (unfold weeks_unstarted; destruct (Z.ltb_spec (weeks_done c s) (sub_weeks s)); lia).
    pose proof Hs as []. assert (0 <= tokens_per_week s)
      by (destruct sh_weeks as [(_ & _ & -> & _)|(_ & _ & _ & ?)]; unfold TICK_SIZE in *; lia).
    assert (0 <= weeks_unstarted c s * tokens_per_week s) by nia. lia. }
  change (c_machine c5) with (c_machine c4). rewrite M4, Em.
  cbn [c5 c_buyer_locked c_probe_locked c_buyer_bond c_seller_locked c_burned c_buyer_refunded c_seller_received
    set_fee_accrued set_burned set_seller_received] in *.
  clearbody back. do 4 (rewrite u128_add_total by lia). eexists _, _, _. split; [reflexivity|]. simpl.
  fold taken in L4, B4, S4. assert (0 <= taken <= st) by (unfold taken; destruct A, (is_subscription s); lia).
  split_and!; destruct to; lia.
Qed.

Lemma resolve_pays c s now (to : bool) :
  deal_inv consts c s now -> c_disputed c = true -> c_closed c = false ->
  c_last_claim_time c + claim_promote_window consts <= U64_MAX ->
  deal_value consts c s <= U128_MAX ->
  exists r b c' s', resolve_mock_dispute consts c s to = Ok (r, b, c', s') /\
    r = dispute_refund c s /\ b = 2 * cprice c - (if to then buyer_stake c s else 0) /\ c_buyer_refunded c' = r /\
    0 <= deposit_left c s /\
    c_seller_received c' = c_seller_received c + weekly_pay c s + pay_of (proved_tokens c s) (cprice c) + b.
Proof.
  intros Hi Hd Ho Hw Hv. pose proof (dispute_machine_live c s now to Hi Hd Ho) as Hm.
  destruct (dispute_charge_total c s now Hi Hd Ho Hv) as (x & c1 & s1 & E1 & L1 & Rc1 & Pl1 & Rf1 & Cb1).
  destruct (dispute_charge_keeps consts Hc c s now x c1 s1 Hi Hd Ho E1)
    as (Hs1 & A1 & T1 & R1 & Te1 & Per1 & Ph1).
  pose proof R1 as [M1 (Ac1 & _ & _) [F1 P1] (_ & La1 & D1) _]. rewrite <- Ac1 in Ph1.
  pose proof (same_terms_sub _ _ Te1) as Hsub1. pose proof Te1 as [_ Tw1 Tt1 _].
  assert (Hpr : cprice c1 = cprice c) by (unfold cprice; by rewrite M1).
  assert (Hv1 : deal_value consts c1 s1 = deal_value consts c s) by by apply deal_value_frame, same_run_frame.
  pose proof Hs1 as [].
  assert (forall g pay fee, 0 <= g <= c_tokens_pending c1 ->
    deal_shape consts (pay_out (set_tokens_pending g (set_tokens_final g c1)) pay fee)
      (set_tokens_paid (Z.max (tokens_paid s1) g) s1)) as Hs3 by (intros; constructor; try done; simpl; lia).
  unfold resolve_mock_dispute. rewrite Hd, E1. cbn [negb].
  destruct (dispute_owed c1 s1 0 Hs1 ltac:(lia) Ph1) as (_ & _ & Hcb & Hsl & Hbb).
  destruct (dispute_stake_total c1 s1 Hs1) as (st & Est & Hst & Hst1); try done; try lia; [apply A1|].
  rewrite Est, void_total by lia. rewrite Hpr, P1, Cb1 in *.
  assert (trusted_at c1 (c_dispute_time c1) = trusted_at c (c_dispute_time c)) as Ef
    by (unfold trusted_at; by rewrite La1, D1, F1, P1).
  rewrite Ef. set (f := trusted_at c (c_dispute_time c)).
  assert (f <= c_tokens_pending c) as Hf by (apply (trusted_bounds c); lia).
  set (c2 := set_tokens_pending f (set_tokens_final f c1)).
  destruct (dispute_owed c1 s1 f Hs1 ltac:(lia) Ph1) as (Ho1 & Ho2 & _). rewrite Cb1, Hpr in *.
  change (c_tokens_final c2) with f. change (saturating_sub f (dispute_base c s)) with (proved_tokens c s) in *.
  set (owed := proved_tokens c s) in *.
  unfold credit_token_delta. change (price (c_machine c2)) with (cprice c1). rewrite Hpr.
  destruct (token_fee_fits c1 s1 owed Hs1 Ho1) as [Etok Hcost]. rewrite Hpr in Etok, Hcost. rewrite Etok.
  pose proof (pay_of_nonneg owed (cprice c) ltac:(lia) ltac:(lia)) as Hpn.
  pose proof (fee_of_nonneg consts Hc owed (cprice c) ltac:(lia) ltac:(lia)) as Hfn.
  assert (amounts_ok c2) as A2 by (destruct A1; by constructor).
  assert (total c1 <= U128_MAX) as Hu by lia.
  rewrite debit_escrow_total; [|done|done|done|..];
    try (destruct A1; unfold total in Hu; cbn [c2 c_buyer_locked c_seller_received c_fee_accrued set_tokens_pending set_tokens_final]; lia).
  destruct (pay_out_keeps c2 (pay_of owed (cprice c)) (fee_of consts owed (cprice c)) A2 Hpn Hfn Ho2) as [A3 T3].
  set (c3 := pay_out c2 _ _) in *. set (s2 := set_tokens_paid _ s1) in *.
  destruct (settle_dispute_total c3 s2 st to) as (r & b & c' & E3 & Hb & Hr & Hrf & Hrc).
  - apply Hs3. unfold f. pose proof (trusted_bounds c (c_dispute_time c)). lia.
  - done.
  - rewrite T3. done.
  - lia.
  - intros Hsub. change (st <= c_buyer_bond c1). rewrite Hbb. unfold buyer_bond_of.
    change (is_subscription s1 = true) in Hsub. rewrite Hsub. lia.
  - change (period_start s1 <= c_dispute_time c1). destruct Hi as (_ & _ & []).
    specialize (tm_disputed Hd). specialize (tm_order ltac:(lia)). lia.
  - change (st <= c_seller_locked c1). lia.
  - change (c_machine c3) with (c_machine c1). by rewrite M1.
  - rewrite E3. eexists r, b, c', s2. split; [reflexivity|].
    change (c_seller_locked c3) with (c_seller_locked c1) in *. change (c_buyer_bond c3) with (c_buyer_bond c1) in *.
    change (is_subscription s2) with (is_subscription s1) in *.
    change (c_probe_accepted c3) with (c_probe_accepted c1) in *. change (c_probe_locked c3) with (c_probe_locked c1) in *.
    change (c_buyer_locked c3) with (c_buyer_locked c1 - cost_of consts owed (cprice c)) in *.
    assert (c_buyer_locked c1 - cost_of consts owed (cprice c) = deposit_left c s) as El by (unfold deposit_left; fold owed; lia).
    assert (weeks_unstarted c3 s2 = weeks_unstarted c s) as Ewu.
    { unfold weeks_unstarted, weeks_done. change (is_subscription s2) with (is_subscription s1).
      change (c_probe_accepted c3) with (c_probe_accepted c1). change (c_dispute_time c3) with (c_dispute_time c1).
      change (period_start s2) with (period_start s1). change (sub_weeks s2) with (sub_weeks s1).
      by rewrite Hsub1, Ac1, D1, Per1, Tw1. }
    change (cprice c3) with (cprice c1) in Hr. change (tokens_per_week s2) with (tokens_per_week s1) in Hr.
    change (c_buyer_refunded c3) with (c_buyer_refunded c1) in Hrf.
    change (c_seller_received c3) with (c_seller_received c1 + pay_of owed (cprice c)) in Hrc.
    rewrite El, Ewu, Hpr, Tt1, Ac1, Hsl, Hbb, Hsub1 in *.
    assert ((if is_subscription s then st else Z.min st (deposit_left c s)) = buyer_stake c s) as Es.
    { assert (0 <= cost_of consts owed (cprice c)) by (unfold cost_of; lia).
      unfold buyer_stake, disputed_tokens. rewrite Hst1. destruct (is_subscription s); [done|]. lia. }
    rewrite Es in *. unfold buyer_bond_of in Hr. rewrite Hsub1, Hpr in Hr.
    assert (c_buyer_refunded c1 = 0) as Hz by (destruct (c_probe_accepted c); destruct Ph1; lia).
    assert (r = dispute_refund c s) as Her.
    { rewrite Hr. unfold dispute_refund. destruct (is_subscription s); simpl; [|lia].
      rewrite Pl1. destruct (c_probe_accepted c); lia. }
    split_and!; try done; destruct to; lia.
Qed.
Lemma resolve_total c s now (to : bool) :
  deal_inv consts c s now -> c_disputed c = true -> c_closed c = false ->
  c_last_claim_time c + claim_promote_window consts <= U64_MAX ->
  deal_value consts c s <= U128_MAX ->
  exists r b c' s', resolve_mock_dispute consts c s to = Ok (r, b, c', s') /\ dispute_result c s to r b c' /\
    0 <= buyer_stake c s <= 2 * cprice c /\ (is_subscription s = true -> cprice c <= buyer_stake c s).
Proof.
  intros Hi Hd Ho Hw Hv. destruct (resolve_pays c s now to Hi Hd Ho Hw Hv) as (r & b & c' & s' & E & H1 & H2 & H3 & H0 & H4).
  exists r, b, c', s'. split; [done|].
  destruct (resolve_inv consts Hc c s now to r b c' s' Hi E) as ((_ & Hph & _) & Hfr & Hcl & _).
  unfold phase in Hph. rewrite Hcl in Hph. destruct Hph as [Hlk _ Hval _ _ _].
  rewrite (deal_value_frame consts c s c' s' Hfr) in Hval.
  destruct Hi as ([] & _).
  unfold dispute_result, total in *. split_and!; try done; try lia; unfold buyer_stake; destruct (is_subscription s); lia.
Qed.
End Live.

(** ** No call panics

    The stream machine panics when a terminal call finds it outside a live
    state, which would poison the backend's lock.  The deal invariant keeps the
    machine live exactly when the cell's own flags let such a call through. *)
Create HintDb panic.

(** Walk to the leaves of a computation; a scrutinee that panics is refuted by
    the [panic] hints. *)
Ltac no_panic :=
  repeat match goal with
  | |- Ok _ <> Panic => discriminate
  | |- Err _ <> Panic => discriminate
  | |- (match ?x with _ => _ end) <> Panic =>
      let E := fresh "E" in destruct x eqn:E; try solve [contradict E; auto with panic]
  end; try discriminate; auto with panic.

Lemma ok_or_np {E A} (o : option A) (e : E) : ok_or o e <> Panic.
Proof. by destruct o. Qed.
Lemma chain_np {A} (o : option A) msg : chain o msg <> Panic.
Proof. apply ok_or_np. Qed.
#[export] Hint Resolve ok_or_np chain_np : panic.

Section Panic.
Context (consts : ProtocolConsts).
Implicit Types (c : StreamCell) (s : DealSubscription).

Lemma mul_div_np v m d ctx : checked_mul_div_floor v m d ctx <> Panic.
Proof. apply chain_np. Qed.
#[local] Hint Resolve mul_div_np : panic.
Lemma pay_fee_np t p : token_pay_and_fee consts t p <> Panic.
Proof. unfold token_pay_and_fee. no_panic. Qed.
Lemma deadline_np a w n : claim_deadline_reached a w n <> Panic.
Proof. unfold claim_deadline_reached. no_panic. Qed.
Lemma weeks_np s n b : subscription_weeks_at s n b <> Panic.
Proof. unfold subscription_weeks_at. no_panic. Qed.
Lemma finalized_np t : finalized_ticks t <> Panic.
Proof. apply chain_np. Qed.
#[local] Hint Resolve pay_fee_np deadline_np weeks_np finalized_np : panic.
Lemma delivered_np c : delivered_ticks c <> Panic.
Proof. unfold delivered_ticks. no_panic. Qed.
Lemma promote_np c n : promote_due consts c n <> Panic.
Proof. unfold promote_due. no_panic. Qed.
Lemma debit_np c p f : debit_escrow c p f <> Panic.
Proof. unfold debit_escrow. no_panic. Qed.
#[local] Hint Resolve delivered_np promote_np debit_np : panic.
Lemma credit_np c s t : credit_tokens_through consts c s t <> Panic.
Proof. unfold credit_tokens_through. no_panic. Qed.
Lemma delta_np c t : credit_token_delta consts c t <> Panic.
Proof. unfold credit_token_delta. no_panic. Qed.
#[local] Hint Resolve credit_np delta_np : panic.
Lemma charge_np c s w : charge_subscription_through consts c s w <> Panic.
Proof. unfold charge_subscription_through. no_panic. Qed.
Lemma fees_np c d b : settle_mock_fees consts c d b <> Panic.
Proof. unfold settle_mock_fees. destruct b; no_panic. contradict E. no_panic. Qed.
#[local] Hint Resolve charge_np fees_np : panic.
Lemma close_np c d : close_mock_clean consts c d <> Panic.
Proof. unfold close_mock_clean. no_panic. Qed.
#[local] Hint Resolve close_np : panic.

(** One layer of a computation assumed to panic. *)
Ltac panic_step H :=
  let E := fresh "E" in
  lazymatch type of H with
  | (match ?m with Ok _ => _ | Err _ => _ | Panic => _ end) = Panic =>
      destruct m eqn:E; [| discriminate H | try (exfalso; contradict E; solve [auto with panic])]
  | (if ?b then _ else _) = Panic => destruct b eqn:E; try discriminate H
  | (match ?o with Some _ => _ | None => _ end) = Panic => destruct o eqn:E; try discriminate H
  | (let '(_, _) := ?p in _) = Panic => destruct p eqn:E
  end.

Lemma promote_machine c n c' : promote_due consts c n = Ok c' -> c_machine c' = c_machine c.
Proof.
  unfold promote_due, promote_once. intros H. repeat ok_step H. simplify_eq. destruct a; [|done].
  by destruct (c_tokens_final c <? c_tokens_pending c).
Qed.
Lemma credit_machine c s t c' s' : credit_tokens_through consts c s t = Ok (c', s') -> c_machine c' = c_machine c.
Proof. intros H. by apply credit_tokens_through_inv in H as (_ & _ & _ & ->). Qed.
Lemma charge_machine c s w b c' s' : charge_subscription_through consts c s w = Ok (b, c', s') -> c_machine c' = c_machine c.
Proof.
  intros H. apply charge_inv in H as [(_ & _ & -> & _)|(_ & _ & s1 & H & _)]; [done|]. by eapply credit_machine.
Qed.

(** The weekly charge and the trusted payment of both stops, as one fact. *)
Lemma stop_prefix_machine c s t1 t2 b (pay : bool) c1 x c2 s2 t c3 s3 :
  promote_due consts c t1 = Ok c1 ->
  (if is_subscription s then let* w := subscription_weeks_at s t2 b in
     charge_subscription_through consts c1 s w else Ok (false, c1, s)) = Ok (x, c2, s2) ->
  (if pay then credit_tokens_through consts c2 s2 t else Ok (c2, s2)) = Ok (c3, s3) ->
  c_machine c3 = c_machine c.
Proof.
  intros H1 H2 H3. apply promote_machine in H1. rewrite <- H1.
  assert (c_machine c2 = c_machine c1) as <-.
  { destruct (is_subscription s); [|by simplify_eq]. ok_step H2. by eapply charge_machine. }
  destruct pay; [by eapply credit_machine|by simplify_eq].
Qed.

Lemma open_machine c s now : deal_inv consts c s now -> c_closed c = false ->
  match state (c_machine c) with Probe _ | Streaming _ _ | Disputed _ _ => True | _ => False end /\
  (c_disputed c = false -> c_probe_accepted c = false -> exists tk, state (c_machine c) = Probe tk).
Proof.
  intros (_ & Hp & _) Ho. unfold phase in Hp. rewrite Ho in Hp.
  destruct (c_probe_accepted c); [destruct Hp as [_ Hm]; unfold machine_synced in Hm|destruct Hp as [? ? ? ? ? ? ? ? Hm]];
    rewrite Hm; destruct (c_disputed c); (split; [done|]); intros; try done; eauto.
Qed.

Lemma stop_np c s now t1 t2 : deal_inv consts c s now -> stop_deal consts c s t1 t2 <> Panic.
Proof.
  intros Hi H. unfold stop_deal in H. panic_step H. panic_step H.
  destruct (open_machine c s now Hi E) as [Hm Hpr].
  destruct (c_probe_accepted c) eqn:Ha; simpl in H.
  - unfold stop_accepted in H. panic_step H.
    panic_step H; [|destruct (is_subscription s); [panic_step E2|discriminate]; contradict E2; auto with panic].
    destruct a0 as [[x c2] s2].
    panic_step H; [|destruct (_ <? _) in E3; [contradict E3; auto with panic|discriminate]].
    destruct a0 as [c3 s3]. pose proof (stop_prefix_machine _ _ _ _ _ _ _ _ _ _ _ _ _ E1 E2 E3) as Hmach.
    panic_step H. panic_step H.
    2:{ rewrite Hmach in E5. unfold buyer_stop in E5. by destruct (state (c_machine c)). }
    destruct a1. panic_step H. destruct a1. panic_step H. discriminate.
  - destruct (Hpr E0 eq_refl) as [tk Hst]. panic_step H; [by destruct a|].
    unfold stop_on_probe, buyer_stop in E1. rewrite Hst in E1. simpl in E1. by repeat panic_step E1.
Qed.

Lemma seller_stop_np c s now t1 t2 : deal_inv consts c s now -> seller_stop_deal consts c s t1 t2 <> Panic.
Proof.
  intros Hi H. unfold seller_stop_deal in H. panic_step H. panic_step H.
  destruct (open_machine c s now Hi E) as [Hm _].
  destruct (c_probe_accepted c) eqn:Ha; simpl in H.
  - panic_step H.
    panic_step H; [|destruct (is_subscription s); [panic_step E2|discriminate]; contradict E2; auto with panic].
    destruct a0 as [[x c2] s2].
    panic_step H; [|destruct (_ && _) in E3; [contradict E3; auto with panic|discriminate]].
    destruct a0 as [c3 s3]. pose proof (stop_prefix_machine _ _ _ _ _ _ _ _ _ _ _ _ _ E1 E2 E3) as Hmach.
    panic_step H. panic_step H.
    2:{ rewrite Hmach in E5. unfold seller_stop in E5. by destruct (state (c_machine c)). }
    destruct a1. panic_step H. destruct a1. panic_step H. discriminate.
  - panic_step H; [by destruct a|]. unfold seller_stop_on_probe in E1. by repeat panic_step E1.
Qed.
(** The machine between the entry of a resolution and its last call. *)
Lemma void_machine c t c' : void_claims_at consts c t = Ok c' -> c_machine c' = c_machine c.
Proof. unfold void_claims_at. intros H. ok_step H. simplify_eq. by destruct a. Qed.
Lemma delta_machine c t c' : credit_token_delta consts c t = Ok c' -> c_machine c' = c_machine c.
Proof. unfold credit_token_delta, debit_escrow. intros H. repeat ok_step H. by simplify_eq. Qed.
Lemma burn_stakes_machine c s k b c' : burn_stakes c s k b = Ok c' -> c_machine c' = c_machine c.
Proof. unfold burn_stakes. destruct (is_subscription s); intros H; repeat ok_step H; by simplify_eq. Qed.
Lemma fees_machine c d b c' : settle_mock_fees consts c d b = Ok c' -> c_machine c' = c_machine c.
Proof. unfold settle_mock_fees. intros H. repeat ok_step H. by simplify_eq. Qed.

Lemma void_np c t : void_claims_at consts c t <> Panic.
Proof. unfold void_claims_at. no_panic. contradict E. no_panic. Qed.
Lemma stake_np c s : dispute_stake consts c s <> Panic.
Proof. unfold dispute_stake. no_panic. Qed.
Lemma burn_stakes_np c s k b : burn_stakes c s k b <> Panic.
Proof. unfold burn_stakes. destruct (is_subscription s); no_panic. Qed.
Lemma refundable_np c s r : refundable_deposit consts c s r <> Panic.
Proof. unfold refundable_deposit. no_panic. Qed.
#[local] Hint Resolve void_np stake_np burn_stakes_np refundable_np : panic.

Lemma settle_dispute_np c s k b :
  match state (c_machine c) with Probe _ | Streaming _ _ | Disputed _ _ => True | _ => False end ->
  settle_dispute consts c s k b <> Panic.
Proof.
  intros Hm H. unfold settle_dispute in H. do 2 panic_step H. panic_step H.
  do 6 panic_step H. panic_step H; [discriminate|].
  apply fees_machine in E1. apply burn_stakes_machine in E.
  destruct b; [discriminate|]. unfold release_dispute in E8. rewrite E1, E in E8.
  by destruct (state (c_machine c)).
Qed.

Lemma resolve_np c s now b :
  deal_inv consts c s now -> c_closed c = false -> resolve_mock_dispute consts c s b <> Panic.
Proof.
  intros Hi Ho H. destruct (open_machine c s now Hi Ho) as [Hm _].
  unfold resolve_mock_dispute in H. panic_step H.
  panic_step H; [|destruct (_ && _) in E0; [panic_step E0|discriminate]; contradict E0; auto with panic].
  destruct a as [[x c1] s1]. do 3 panic_step H. panic_step H; [by destruct a2 as [[? ?] ?]|].
  contradict E4. apply settle_dispute_np.
  apply delta_machine in E3. apply void_machine in E2. rewrite E3, E2.
  assert (c_machine c1 = c_machine c) as ->; [|done].
  destruct (_ && _) in E0; [ok_step E0; by eapply charge_machine|by simplify_eq].
Qed.
End Panic.
