(* ===== verification/MockMarket.v ===== *)
(** * MockMarket: the persisted offline market (crates/core/src/market/mock.rs)

    The whole [MockChainBackend]: the sidecar state, its validation on load, the
    address normalisation a store applies, and every operation of
    [impl ChainBackend for MockChainBackend].  A [HashMap] is a [gmap]; the JSON
    file is its parsed content ([None]: absent or empty), so reading and writing
    the file never fail; the SHA-256 order id is a parameter.  Every
    [unix_now_secs()] is an argument, the first ([t0]) being [load_state]'s. *)
From Stdlib Require Import Ascii.
From S2P Require Import Prelude Text Params Settle Address MarketTypes Machine Accounting MockDeal.

(** ** State *)
Inductive MockSubscriptionExit : Type := Cancelled | Expired.
Record MockSubscriptionTerminal : Type := mkSubTerminal {
  mt_order : OrderBookOrder;
  mt_order_book : string;
  mt_reason : MockSubscriptionExit;
  mt_refunded : Z
}.

Record MockState : Type := mkState {
  offers : gmap string SellOffer;
  matched_offers : gmap string SellOffer;
  matched_ticks : gmap string Z;
  deal_subscriptions : gmap string DealSubscription;
  offer_sellers : gmap string string;
  offer_deadlines : gmap string Z;
  deal_terms : gmap string (Z * Z);
  expired_generations : gmap string Z;
  matches : gmap string Match;
  match_created_at : gmap string Z;
  streams : gmap string StreamCell;
  subscription_orders : gmap Z OrderBookOrder;
  subscription_order_books : gmap Z string;
  subscription_terminal_orders : gmap Z MockSubscriptionTerminal;
  next_subscription_order_id : Z
}.

Definition set_offers (v : gmap string SellOffer) (s : MockState) : MockState :=
  mkState v (matched_offers s) (matched_ticks s) (deal_subscriptions s) (offer_sellers s)
    (offer_deadlines s) (deal_terms s) (expired_generations s) (matches s) (match_created_at s)
    (streams s) (subscription_orders s) (subscription_order_books s)
    (subscription_terminal_orders s) (next_subscription_order_id s).
Definition set_matched_offers (v : gmap string SellOffer) (s : MockState) : MockState :=
  mkState (offers s) v (matched_ticks s) (deal_subscriptions s) (offer_sellers s)
    (offer_deadlines s) (deal_terms s) (expired_generations s) (matches s) (match_created_at s)
    (streams s) (subscription_orders s) (subscription_order_books s)
    (subscription_terminal_orders s) (next_subscription_order_id s).
Definition set_matched_ticks (v : gmap string Z) (s : MockState) : MockState :=
  mkState (offers s) (matched_offers s) v (deal_subscriptions s) (offer_sellers s)
    (offer_deadlines s) (deal_terms s) (expired_generations s) (matches s) (match_created_at s)
    (streams s) (subscription_orders s) (subscription_order_books s)
    (subscription_terminal_orders s) (next_subscription_order_id s).
Definition set_deal_subscriptions (v : gmap string DealSubscription) (s : MockState) : MockState :=
  mkState (offers s) (matched_offers s) (matched_ticks s) v (offer_sellers s) (offer_deadlines s)
    (deal_terms s) (expired_generations s) (matches s) (match_created_at s) (streams s)
    (subscription_orders s) (subscription_order_books s) (subscription_terminal_orders s)
    (next_subscription_order_id s).
Definition set_offer_sellers (v : gmap string string) (s : MockState) : MockState :=
  mkState (offers s) (matched_offers s) (matched_ticks s) (deal_subscriptions s) v
    (offer_deadlines s) (deal_terms s) (expired_generations s) (matches s) (match_created_at s)
    (streams s) (subscription_orders s) (subscription_order_books s)
    (subscription_terminal_orders s) (next_subscription_order_id s).
Definition set_offer_deadlines (v : gmap string Z) (s : MockState) : MockState :=
  mkState (offers s) (matched_offers s) (matched_ticks s) (deal_subscriptions s) (offer_sellers s)
    v (deal_terms s) (expired_generations s) (matches s) (match_created_at s) (streams s)
    (subscription_orders s) (subscription_order_books s) (subscription_terminal_orders s)
    (next_subscription_order_id s).
Definition set_deal_terms (v : gmap string (Z * Z)) (s : MockState) : MockState :=
  mkState (offers s) (matched_offers s) (matched_ticks s) (deal_subscriptions s) (offer_sellers s)
    (offer_deadlines s) v (expired_generations s) (matches s) (match_created_at s) (streams s)
    (subscription_orders s) (subscription_order_books s) (subscription_terminal_orders s)
    (next_subscription_order_id s).
Definition set_expired_generations (v : gmap string Z) (s : MockState) : MockState :=
  mkState (offers s) (matched_offers s) (matched_ticks s) (deal_subscriptions s) (offer_sellers s)
    (offer_deadlines s) (deal_terms s) v (matches s) (match_created_at s) (streams s)
    (subscription_orders s) (subscription_order_books s) (subscription_terminal_orders s)
    (next_subscription_order_id s).
Definition set_matches (v : gmap string Match) (s : MockState) : MockState :=
  mkState (offers s) (matched_offers s) (matched_ticks s) (deal_subscriptions s) (offer_sellers s)
    (offer_deadlines s) (deal_terms s) (expired_generations s) v (match_created_at s) (streams s)
    (subscription_orders s) (subscription_order_books s) (subscription_terminal_orders s)
    (next_subscription_order_id s).
Definition set_match_created_at (v : gmap string Z) (s : MockState) : MockState :=
  mkState (offers s) (matched_offers s) (matched_ticks s) (deal_subscriptions s) (offer_sellers s)
    (offer_deadlines s) (deal_terms s) (expired_generations s) (matches s) v (streams s)
    (subscription_orders s) (subscription_order_books s) (subscription_terminal_orders s)
    (next_subscription_order_id s).
Definition set_streams (v : gmap string StreamCell) (s : MockState) : MockState :=
  mkState (offers s) (matched_offers s) (matched_ticks s) (deal_subscriptions s) (offer_sellers s)
    (offer_deadlines s) (deal_terms s) (expired_generations s) (matches s) (match_created_at s) v
    (subscription_orders s) (subscription_order_books s) (subscription_terminal_orders s)
    (next_subscription_order_id s).
Definition set_subscription_orders (v : gmap Z OrderBookOrder) (s : MockState) : MockState :=
  mkState (offers s) (matched_offers s) (matched_ticks s) (deal_subscriptions s) (offer_sellers s)
    (offer_deadlines s) (deal_terms s) (expired_generations s) (matches s) (match_created_at s)
    (streams s) v (subscription_order_books s) (subscription_terminal_orders s)
    (next_subscription_order_id s).
Definition set_subscription_order_books (v : gmap Z string) (s : MockState) : MockState :=
  mkState (offers s) (matched_offers s) (matched_ticks s) (deal_subscriptions s) (offer_sellers s)
    (offer_deadlines s) (deal_terms s) (expired_generations s) (matches s) (match_created_at s)
    (streams s) (subscription_orders s) v (subscription_terminal_orders s)
    (next_subscription_order_id s).
Definition set_subscription_terminal_orders (v : gmap Z MockSubscriptionTerminal) (s : MockState) : MockState :=
  mkState (offers s) (matched_offers s) (matched_ticks s) (deal_subscriptions s) (offer_sellers s)
    (offer_deadlines s) (deal_terms s) (expired_generations s) (matches s) (match_created_at s)
    (streams s) (subscription_orders s) (subscription_order_books s) v
    (next_subscription_order_id s).
Definition set_next_subscription_order_id (v : Z) (s : MockState) : MockState :=
  mkState (offers s) (matched_offers s) (matched_ticks s) (deal_subscriptions s) (offer_sellers s)
    (offer_deadlines s) (deal_terms s) (expired_generations s) (matches s) (match_created_at s)
    (streams s) (subscription_orders s) (subscription_order_books s)
    (subscription_terminal_orders s) v.

Definition MockState_default : MockState := mkState ∅ ∅ ∅ ∅ ∅ ∅ ∅ ∅ ∅ ∅ ∅ ∅ ∅ ∅ 0.

(** The two files: the sidecar state and the endpoints file. *)
Record ChainFiles : Type := mkFiles {
  sidecar : option MockState;
  handovers : gmap string (list Z)
}.

(** ** Validation of a loaded state *)
Definition invalid_persisted_state (reason : string) : ChainError := EndpointsFile reason.
Definition invalid_if (b : bool) (reason : string) : outcome ChainError unit :=
  if b then Err (invalid_persisted_state reason) else Ok tt.

Definition validate_persisted_subscription (sub : DealSubscription) (now : Z)
    : outcome ChainError unit :=
  let* _ := invalid_if (negb (flags_outside (deal_flags sub) flags.DEAL_MASK =? 0))
    "dealFlags contains unknown deal-shape bits" in
  let subscription_flag := has_flag (deal_flags sub) flags.SUBSCRIPTION in
  let* _ := invalid_if (negb (Bool.eqb subscription_flag (negb (sub_weeks sub =? 0))))
    "contradictory subscription flag/subWeeks shape" in
  let* _ := invalid_if (sub_weeks sub <? week_index sub) "weekIndex exceeds subWeeks" in
  let* _ := invalid_if (funded_tokens sub <? tokens_paid sub) "tokensPaid exceeds fundedTokens" in
  let* _ := invalid_if (funded_tokens sub <? week_base_tokens sub)
    "weekBaseTokens exceeds fundedTokens" in
  let* _ := invalid_if (now <? period_start sub) "periodStart is in the future" in
  if subscription_flag then
    let* _ := invalid_if (negb (sub_weeks sub =? SUBSCRIPTION_WEEKS))
      "subWeeks does not equal the canonical term" in
    let* expected := ok_or (u128_checked_mul (tokens_per_week sub) (sub_weeks sub))
      (invalid_persisted_state "tokensPerWeek multiplied by subWeeks overflows uint128") in
    invalid_if (negb (expected =? funded_tokens sub))
      "subscription quota does not equal fundedTokens"
  else
    invalid_if (negb (week_index sub =? 0) || negb (tokens_per_week sub =? funded_tokens sub)
                || negb (week_base_tokens sub =? 0))
      "ordinary deal has contradictory weekly state".

Definition lifecycle_coherent (cell : StreamCell) : bool :=
  match state (c_machine cell) with
  | Probe tick => negb (c_closed cell) && negb (c_disputed cell) && negb (c_probe_accepted cell)
                  && (tick_price tick =? price (c_machine cell))
  | Streaming trusted pending =>
      negb (c_closed cell) && negb (c_disputed cell) && c_probe_accepted cell
      && (trusted <=? pending)
  | Disputed trusted contested =>
      negb (c_closed cell) && c_disputed cell
      && bool_decide (is_Some (u64_checked_add trusted contested))
  | Closed => c_closed cell && negb (c_disputed cell)
  | Opening | Stopping => false
  end.

Definition raw_ticks (tokens : Z) : outcome ChainError Z :=
  ok_or (try_from U64_MAX (div_ceil tokens TICK_SIZE))
    (invalid_persisted_state "does not fit the StreamMachine tick counter").

Definition validate_machine_ticks (cell : StreamCell) : outcome ChainError unit :=
  match state (c_machine cell) with
  | Streaming trusted pending =>
      let* raw_final := raw_ticks (c_tokens_final cell) in
      let* raw_pending := raw_ticks (c_tokens_pending cell) in
      let* _ := invalid_if (negb (pending =? raw_pending)) "machine pending ticks disagree" in
      invalid_if (negb (trusted =? raw_final)) "machine trusted ticks disagree"
  | Disputed trusted contested =>
      let* raw_final := raw_ticks (c_tokens_final cell) in
      let* raw_pending := raw_ticks (c_tokens_pending cell) in
      let* machine_pending := ok_or (u64_checked_add trusted contested)
        (invalid_persisted_state "disputed machine tick total overflows uint64") in
      let* _ := invalid_if (negb (machine_pending =? raw_pending))
        "machine disputed total ticks disagree" in
      invalid_if (negb (trusted =? raw_final)) "machine trusted ticks disagree"
  | Opening | Probe _ | Stopping | Closed => Ok tt
  end.

Definition validate_persisted_stream (cell : StreamCell) (now : Z) : outcome ChainError unit :=
  let* _ := invalid_if ((c_probe_time cell =? 0) || (now <? c_probe_time cell))
    "probeTime must be a non-zero timestamp no later than now" in
  let* _ := invalid_if (c_tokens_pending cell <? c_tokens_final cell)
    "claim pipeline is not monotonic" in
  let* _ := invalid_if (now <? c_last_claim_time cell) "claim timestamp is in the future" in
  let* _ := invalid_if (negb (c_tokens_pending cell =? 0) && (c_last_claim_time cell =? 0))
    "non-zero claim pipeline has no landing timestamp" in
  let* _ := invalid_if (now <? c_dispute_time cell) "disputeTime is in the future" in
  let* _ := invalid_if (c_disputed cell && (c_dispute_time cell =? 0))
    "disputed stream has no disputeTime" in
  let* _ := invalid_if (negb (c_disputed cell) && negb (c_closed cell)
                        && negb (c_dispute_time cell =? 0))
    "open undisputed stream retains a disputeTime" in
  let* _ := invalid_if (negb (c_dispute_time cell =? 0)
                        && (c_dispute_time cell <? c_last_claim_time cell))
    "claim timestamp is later than disputeTime" in
  let* _ := invalid_if (negb (c_probe_accepted cell) && negb (c_tokens_pending cell =? 0))
    "unaccepted probe carries a non-zero claim pipeline" in
  let* _ := invalid_if (c_probe_accepted cell && (c_tokens_final cell <? TICK_SIZE))
    "accepted probe does not seed one canonical tick" in
  let* _ := invalid_if (c_probe_accepted cell && negb (c_probe_locked cell =? 0))
    "accepted probe still carries locked probe value" in
  let* _ := invalid_if (negb (lifecycle_coherent cell))
    "closed/disputed/probe flags disagree with machine state" in
  validate_machine_ticks cell.

(** A seller id: 64 lowercase hex digits. *)
Definition canonical_seller (seller : string) : bool :=
  (String.length seller =? 64)%nat
  && forallb lower_hex (to_text seller).

Definition validate_persisted_deal_binding (st : MockState) (tc : TokenContract)
    (sub : DealSubscription) (cell : option StreamCell) : outcome ChainError unit :=
  let* matched := ok_or (matches st !! tc)
    (invalid_persisted_state "funded deal has no persisted Match") in
  let* _ := invalid_if (negb (bool_decide (m_token_contract matched = tc)))
    "Match TokenContract disagrees with its persisted key" in
  let* offer := ok_or (or_else (matched_offers st !! tc) (offers st !! tc))
    (invalid_persisted_state "funded deal has no persisted filled offer") in
  let* _ := invalid_if (negb (bool_decide (so_token_contract offer = tc)))
    "filled offer TokenContract disagrees with its persisted key" in
  let* seller := ok_or (offer_sellers st !! tc)
    (invalid_persisted_state "funded deal has no persisted seller actor") in
  let* _ := invalid_if (negb (canonical_seller seller))
    "persisted seller actor is not a canonical ed25519 pubkey" in
  let* _ := invalid_if (negb (m_price_per_tick matched =? so_price_per_tick offer))
    "Match price disagrees with filled offer price" in
  let ticks := default (so_max_ticks offer) (matched_ticks st !! tc) in
  let* _ := invalid_if ((ticks <? MIN_STREAM_BUY_TICKS) || (so_max_ticks offer <? ticks))
    "matched ticks are outside filled offer volume" in
  let* funded := ok_or (u128_checked_mul ticks TICK_SIZE)
    (invalid_persisted_state "matched ticks multiplied by TICK_SIZE overflows uint128") in
  let* _ := invalid_if (negb (funded_tokens sub =? funded))
    "fundedTokens disagree with matched volume" in
  let* _ := invalid_if (negb (deal_flags sub =? Z.land (so_flags offer) flags.DEAL_MASK))
    "dealFlags disagree with filled offer deal flags" in
  match cell with
  | None => Ok tt
  | Some cell =>
      let* _ := invalid_if (negb (bool_decide (c_buyer_pubkey cell = m_buyer_pubkey matched)))
        "stream buyer does not match persisted Match buyer" in
      let* _ := invalid_if (negb (price (c_machine cell) =? m_price_per_tick matched))
        "machine price disagrees with matched price" in
      let* _ := invalid_if (negb (c_max_ticks cell =? ticks))
        "stream maxTicks disagree with matched ticks" in
      invalid_if (funded <? c_tokens_pending cell) "tokensPending exceed matched fundedTokens"
  end.

Definition mock_funded_time (st : MockState) (tc : TokenContract) : outcome ChainError Z :=
  let* created_at := ok_or (match_created_at st !! tc)
    (invalid_persisted_state "funded deal has no match creation time") in
  fail_if created_at <? 0 with invalid_persisted_state "match creation time is negative" in
  Ok created_at.

Definition validate_match (st : MockState) (now : Z) (tc : TokenContract) (m : Match)
    : outcome ChainError unit :=
  let* _ := invalid_if (negb (bool_decide (is_Some (deal_subscriptions st !! tc))))
    "funded Match has no persisted deal shape" in
  let* funded_time := mock_funded_time st tc in
  invalid_if ((funded_time =? 0) || (now <? funded_time))
    "fundedTime must be a non-zero timestamp no later than now".
Definition validate_created (st : MockState) (tc : TokenContract) (_ : Z) : outcome ChainError unit :=
  invalid_if (negb (bool_decide (is_Some (matches st !! tc))))
    "orphan match creation time has no persisted Match".
Definition validate_deal (st : MockState) (now : Z) (tc : TokenContract) (sub : DealSubscription)
    : outcome ChainError unit :=
  let* _ := validate_persisted_subscription sub now in
  validate_persisted_deal_binding st tc sub (streams st !! tc).
Definition validate_cell (st : MockState) (now : Z) (tc : TokenContract) (cell : StreamCell)
    : outcome ChainError unit :=
  let* _ := invalid_if (negb (c_schema_version cell =? STREAM_CELL_SCHEMA_VERSION))
    "unsupported persisted stream schema" in
  let* _ := invalid_if (negb (bool_decide (is_Some (deal_subscriptions st !! tc))))
    "stream has no persisted deal shape" in
  validate_persisted_stream cell now.

Definition validate_persisted_state (st : MockState) (now : Z) : outcome ChainError unit :=
  let* _ := check_all (validate_match st now) (matches st) in
  let* _ := check_all (validate_created st) (match_created_at st) in
  let* _ := check_all (validate_deal st now) (deal_subscriptions st) in
  check_all (validate_cell st now) (streams st).

(** ** Load and store *)

(** The address fields as a store followed by a parse leaves them; map keys are
    plain strings. *)
Definition reload_tc (tc : TokenContract) : TokenContract :=
  of_text (reload_self_dapp (to_text tc)).
Definition reload_note (addr : string) : string := of_text (reload_canonical (to_text addr)).
Definition reload_offer (o : SellOffer) : SellOffer :=
  mkSellOffer (so_price_per_tick o) (so_max_ticks o) (reload_tc (so_token_contract o)) (so_flags o).
Definition reload_match (m : Match) : Match :=
  mkMatch (reload_tc (m_token_contract m)) (m_buyer_pubkey m) (m_price_per_tick m).
Definition reload_order (o : OrderBookOrder) : OrderBookOrder := {|
  ob_order_id := ob_order_id o;
  ob_owner_note := reload_note (ob_owner_note o);
  ob_token_contract := reload_tc <$> ob_token_contract o;
  ob_is_buy := ob_is_buy o;
  ob_price_per_tick := ob_price_per_tick o;
  ob_ticks := ob_ticks o;
  ob_escrow := ob_escrow o;
  ob_deadline := ob_deadline o;
  ob_flags := ob_flags o;
  ob_timestamp := ob_timestamp o |}.
Definition reload_terminal (t : MockSubscriptionTerminal) : MockSubscriptionTerminal :=
  mkSubTerminal (reload_order (mt_order t)) (mt_order_book t) (mt_reason t) (mt_refunded t).
Definition reload_state (st : MockState) : MockState :=
  set_subscription_terminal_orders (reload_terminal <$> subscription_terminal_orders st)
    (set_subscription_orders (reload_order <$> subscription_orders st)
      (set_matches (reload_match <$> matches st)
        (set_matched_offers (reload_offer <$> matched_offers st)
          (set_offers (reload_offer <$> offers st) st)))).

Definition load_state (w : ChainFiles) (now : Z) : outcome ChainError MockState :=
  match sidecar w with
  | Some st => let* _ := validate_persisted_state st now in Ok st
  | None => Ok MockState_default
  end.
Definition store_state (w : ChainFiles) (st : MockState) : ChainFiles :=
  mkFiles (Some (reload_state st)) (handovers w).

(** An operation on the files: the result, and the files it leaves. *)
Definition op (A : Type) : Type := ChainFiles -> outcome ChainError A * ChainFiles.

(** Load, read. *)
Definition reading {A} (t0 : Z) (f : MockState -> outcome ChainError A) : op A := fun w =>
  (let* st := load_state w t0 in f st, w).
(** Load, compute; a new state is stored, an error or [None] stores nothing. *)
Definition writing {A} (t0 : Z) (f : MockState -> outcome ChainError (A * option MockState))
    : op A := fun w =>
  match (let* st := load_state w t0 in f st) with
  | Ok (a, Some st') => (Ok a, store_state w st')
  | Ok (a, None) => (Ok a, w)
  | Err e => (Err e, w)
  | Panic => (Panic, w)
  end.

(** A deal operation: look the cell and the shape up, run, put both back. *)
Definition on_deal {A} (tc : TokenContract) (st : MockState)
    (f : StreamCell -> DealSubscription -> outcome ChainError (A * StreamCell * DealSubscription))
    : outcome ChainError (A * option MockState) :=
  let* cell := ok_or (streams st !! tc) (NoStream tc) in
  let* sub := chain (deal_subscriptions st !! tc) "has no persisted deal shape" in
  let* ' (a, cell, sub) := f cell sub in
  Ok (a, Some (set_deal_subscriptions (<[tc := sub]> (deal_subscriptions st))
                 (set_streams (<[tc := cell]> (streams st)) st))).

Definition no_result (r : outcome ChainError (StreamCell * DealSubscription))
    : outcome ChainError (unit * StreamCell * DealSubscription) :=
  let* ' (cell, sub) := r in Ok (tt, cell, sub).

(** [duration.as_secs() as i64]. *)
Definition as_i64 (t : Z) : Z := if t <=? I64_MAX then t else t - (U64_MAX + 1).

(** ** Actors *)
Definition require_mock_seller_actor (st : MockState) (tc : TokenContract) (note : NotePubkey)
    : outcome ChainError unit :=
  let* expected := chain (offer_sellers st !! tc) "has no persisted seller actor" in
  fail_if negb (bool_decide (note_id_hex note = expected))
    with Chain "requires the matched seller note" in
  Ok tt.
Definition require_mock_buyer_actor (st : MockState) (tc : TokenContract) (note : NotePubkey)
    : outcome ChainError unit :=
  let* cell := ok_or (streams st !! tc) (NoStream tc) in
  fail_if negb (bool_decide (note_id_hex note = note_id_hex (c_buyer_pubkey cell)))
    with Chain "requires the matched buyer note" in
  Ok tt.
Definition require_mock_buyer_note_addr (st : MockState) (tc : TokenContract) (addr : string)
    : outcome ChainError unit :=
  let* cell := ok_or (streams st !! tc) (NoStream tc) in
  let expected := to_text (String.append "mock:" (note_id_hex (c_buyer_pubkey cell))) in
  fail_if negb (bool_decide (to_ascii_lowercase (trim (to_text addr)) = expected))
    with Chain "requires the matched buyer note" in
  Ok tt.

Section Market.
Context (consts : ProtocolConsts) (params : DobParams).
(** The first 16 bytes of SHA-256 of the TokenContract, big-endian. *)
Context (mock_order_id : TokenContract -> Z).

Definition mock_current_order_id (st : MockState) (tc : TokenContract) : Z :=
  wrapping U128_MAX (mock_order_id tc + default 0 (expired_generations st !! tc)).

(** ** Offers *)
Definition SUPPORTED_FLAGS : Z :=
  Z.lor flags.IOC (Z.lor flags.FOK (Z.lor flags.MARKET (Z.lor flags.POST_ONLY
    (Z.lor flags.TEE (Z.lor flags.AON flags.SUBSCRIPTION))))).
Definition TAKER_FLAGS : Z := Z.lor flags.IOC (Z.lor flags.FOK flags.MARKET).

Definition validate_mock_sell_offer (offer : SellOffer) : outcome ChainError unit :=
  let ticks := so_max_ticks offer in
  let f := so_flags offer in
  fail_if ticks <? MIN_STREAM_BUY_TICKS with Chain "sell offer needs at least the minimum ticks" in
  let price := so_price_per_tick offer in
  fail_if (price =? 0) || negb (price mod PRICE_STEP =? 0)
    with Chain "price_per_tick must be a positive multiple of PRICE_STEP" in
  fail_if negb (flags_outside f SUPPORTED_FLAGS =? 0)
    with Chain "sell offer has unsupported flags" in
  fail_if has_flag f flags.MARKET with Chain "a sell offer cannot be a MARKET order" in
  fail_if has_flag f flags.POST_ONLY && has_flag f TAKER_FLAGS
    with Chain "POST_ONLY cannot be combined with taker flags" in
  fail_if has_flag f flags.IOC && has_flag f flags.FOK
    with Chain "IOC and FOK are mutually exclusive" in
  let* _ :=
    (if has_flag f flags.SUBSCRIPTION then
       fail_if negb (has_flag f flags.AON) with Chain "SUBSCRIPTION requires AON" in
       fail_if negb (ticks mod SUBSCRIPTION_WEEKS =? 0) || (SUBSCRIPTION_MAX_TICKS <? ticks)
         with Chain "subscription ticks must divide into weeks and not exceed the maximum" in
       Ok tt
     else Ok tt) in
  let* funded := chain (u128_checked_mul ticks TICK_SIZE) "offer token volume overflows uint128" in
  let* ' (pay, fee) := token_pay_and_fee consts funded (so_price_per_tick offer) in
  let* _ := chain (u128_checked_add pay fee) "offer value plus fee overflows uint128" in
  Ok tt.

(** [HashMap::entry(k).or_insert(v)]. *)
Definition or_insert {V} (tc : string) (v : V) (m : gmap string V) : gmap string V :=
  match m !! tc with Some _ => m | None => <[tc := v]> m end.

Definition is_key {V} (tc : string) (m : gmap string V) : bool := bool_decide (is_Some (m !! tc)).

Definition post_offer_state (offer : SellOffer) (note : NotePubkey) (t1 : Z) (st : MockState)
    : outcome ChainError MockState :=
  let tc := so_token_contract offer in
  let seller_id := note_id_hex note in
  fail_if is_key tc (offers st)
    with Chain "duplicate active sell order: cancel/fill the old order before reposting" in
  fail_if is_key tc (matches st) || is_key tc (matched_offers st) || is_key tc (matched_ticks st)
          || is_key tc (deal_subscriptions st) || is_key tc (streams st)
    with Chain "was already filled/matched; refusing to replace its seller" in
  fail_if from_option (fun original => negb (bool_decide (original = seller_id))) false
            (offer_sellers st !! tc)
    with Chain "remains bound to its original seller after cancellation" in
  let st := set_offer_sellers (or_insert tc seller_id (offer_sellers st)) st in
  let st := set_offer_deadlines
              (<[tc := wrapping U64_MAX (t1 + MAX_SELL_TTL)]> (offer_deadlines st)) st in
  let st := set_deal_terms
              (or_insert tc (so_price_per_tick offer, so_max_ticks offer) (deal_terms st)) st in
  Ok (set_offers (<[tc := offer]> (offers st)) st).

Definition post_offer (offer : SellOffer) (note : NotePubkey) (t0 t1 : Z) : op unit := fun w =>
  match validate_mock_sell_offer offer with
  | Ok _ => writing t0 (fun st => let* st' := post_offer_state offer note t1 st in
                                  Ok (tt, Some st')) w
  | Err e => (Err e, w)
  | Panic => (Panic, w)
  end.

Definition expire_resting_sell_order (tc : TokenContract) (order_id t0 t1 : Z) : op unit :=
  writing t0 (fun st =>
    if negb (is_key tc (offers st)) || negb (mock_current_order_id st tc =? order_id)
    then Ok (tt, None)
    else
      let live := from_option (fun deadline => t1 <? deadline) true (offer_deadlines st !! tc) in
      if live then Ok (tt, None)
      else
        let st := set_offers (delete tc (offers st)) st in
        Ok (tt, Some (set_expired_generations
              (<[tc := wrapping U128_MAX (default 0 (expired_generations st !! tc) + 1)]>
                 (expired_generations st)) st))).

Definition token_contract_offer_latch (tc : TokenContract) (t0 : Z) : op (option DealOfferLatch) :=
  reading t0 (fun st =>
    if negb (is_key tc (deal_terms st)) && negb (is_key tc (offers st)) then Ok None
    else Ok (Some {| offer_posted := is_key tc (offers st) |})).

Definition confirm_offer_outcome (tc : TokenContract) (t0 : Z) : op (option SellOfferOutcome) :=
  reading t0 (fun st =>
    if is_key tc (matches st) then Ok (Some Matched)
    else Ok (if is_key tc (offers st) then Some (Rested (mock_current_order_id st tc)) else None)).

Definition raw_resting_sell_orders_for_tc (tc : TokenContract) (t0 t1 : Z)
    : op (list OrderBookOrder) :=
  reading t0 (fun st =>
    match offers st !! tc with
    | None => Ok []
    | Some offer =>
        Ok [{| ob_order_id := mock_current_order_id st tc;
               ob_owner_note := from_option (String.append "0:") "" (offer_sellers st !! tc);
               ob_token_contract := Some tc;
               ob_is_buy := false;
               ob_price_per_tick := so_price_per_tick offer;
               ob_ticks := so_max_ticks offer;
               ob_escrow := 0;
               ob_deadline := default (wrapping U64_MAX (t1 + MAX_SELL_TTL))
                                (offer_deadlines st !! tc);
               ob_flags := so_flags offer;
               ob_timestamp := 0 |}]
    end).

Definition cancel_resting_sell_order (tc : TokenContract) (order_id t0 : Z) : op unit :=
  writing t0 (fun st =>
    fail_if negb (order_id =? mock_current_order_id st tc) || negb (is_key tc (offers st))
      with Chain "resting SELL is absent for TokenContract" in
    Ok (tt, Some (set_offers (delete tc (offers st)) st))).

(** ** Fills *)
Definition place_buy_state (tc : TokenContract) (note : NotePubkey) (ticks : option Z) (t1 t2 : Z)
    (st : MockState) : outcome ChainError MockState :=
  fail_if is_key tc (matches st)
    with Chain "is already matched; refusing to replace its buyer" in
  let* offer := ok_or (offers st !! tc) (NoMatch tc) in
  let matched := default (so_max_ticks offer) ticks in
  fail_if (matched <? MIN_STREAM_BUY_TICKS) || (so_max_ticks offer <? matched)
    with Chain "mock buy ticks must be within the offer" in
  fail_if has_flag (so_flags offer) flags.AON && negb (matched =? so_max_ticks offer)
    with Chain "AON sell offer requires its full ticks" in
  let st := set_offers (delete tc (offers st)) st in
  let st := set_matched_offers (<[tc := offer]> (matched_offers st)) st in
  let st := set_matched_ticks (<[tc := matched]> (matched_ticks st)) st in
  let* sub := mock_deal_shape offer matched t1 in
  let st := set_deal_subscriptions (<[tc := sub]> (deal_subscriptions st)) st in
  let st := set_matches (<[tc := {| m_token_contract := tc; m_buyer_pubkey := note;
                                    m_price_per_tick := so_price_per_tick offer |}]>
                           (matches st)) st in
  Ok (set_match_created_at (<[tc := as_i64 t2]> (match_created_at st)) st).

Definition place_buy_ticks_inner (tc : TokenContract) (note : NotePubkey) (ticks : option Z)
    (t0 t1 t2 : Z) : op unit :=
  writing t0 (fun st => let* st' := place_buy_state tc note ticks t1 t2 st in Ok (tt, Some st')).
Definition place_buy_ticks tc note ticks := place_buy_ticks_inner tc note (Some ticks).
Definition place_buy tc note := place_buy_ticks_inner tc note None.

Definition read_match (tc : TokenContract) (t0 : Z) : op Match :=
  reading t0 (fun st => ok_or (matches st !! tc) (NoMatch tc)).

Definition read_openable_match_now (tc : TokenContract) (t0 : Z) : op (option Match) :=
  reading t0 (fun st =>
    match streams st !! tc with
    | Some cell => Err (Chain (if c_closed cell then "is terminal, not openable for seller resume"
                               else "is already open, not openable for seller resume"))
    | None => Ok (matches st !! tc)
    end).

Definition sell_offer_terms (tc : TokenContract) (t0 : Z) : op (option (Z * Z)) :=
  reading t0 (fun st =>
    Ok (or_else (deal_terms st !! tc)
          ((fun o => (so_price_per_tick o, so_max_ticks o)) <$>
             or_else (offers st !! tc) (matched_offers st !! tc)))).

(** One candidate of [poll_seller_fills]: a match of this seller not seen yet. *)
Definition seller_fill (st : MockState) (seller_id : string) (cursor : MatchWatchCursor)
    (tc : TokenContract) : option (Z * MatchedFill) :=
  if negb (bool_decide (offer_sellers st !! tc = Some seller_id)) then None
  else match matched_offers st !! tc with
       | None => None
       | Some offer =>
           let created_at := default (since_unix cursor) (match_created_at st !! tc) in
           if has_seen cursor created_at tc then None
           else Some (created_at,
                      {| mf_order_id := mock_current_order_id st tc;
                         mf_token_contract := tc;
                         mf_ticks := default (so_max_ticks offer) (matched_ticks st !! tc);
                         mf_price_per_tick := so_price_per_tick offer |})
       end.

(** [cmp] by time, then by the contract's bytes. *)
Definition fill_le (a b : Z * MatchedFill) : bool :=
  (fst a <? fst b)
  || ((fst a =? fst b) && String.leb (mf_token_contract (snd a)) (mf_token_contract (snd b))).

Definition poll_seller_fills (note : NotePubkey) (cursor : MatchWatchCursor) (t0 : Z)
    : op (list MatchedFill * MatchWatchCursor) :=
  reading t0 (fun st =>
    let seller_id := note_id_hex note in
    let batch := sort_by fill_le
      (omap (fun '(tc, _) => seller_fill st seller_id cursor tc) (map_to_list (matches st))) in
    Ok (map snd batch,
        record_seen_batch cursor
          (map (fun '(created_at, fill) => (created_at, mf_token_contract fill)) batch))).

Definition discover_offers (t0 : Z) : op (list OfferListing) :=
  reading t0 (fun st =>
    Ok (map (fun '(_, o) => {|
          ol_seller_id := default "" (offer_sellers st !! so_token_contract o);
          ol_token_contract := so_token_contract o;
          ol_price_per_tick := so_price_per_tick o;
          ol_max_ticks := so_max_ticks o |}) (map_to_list (offers st)))).

(** ** The life of a stream *)
Definition open_stream_state (tc : TokenContract) (note : NotePubkey) (t1 : Z) (st : MockState)
    : outcome ChainError MockState :=
  let* _ := require_mock_seller_actor st tc note in
  match streams st !! tc with
  | Some cell => Err (Chain (if c_closed cell then "open_stream: has a terminal persisted stream"
                             else "open_stream: has an already open persisted stream"))
  | None =>
      let* m := ok_or (matches st !! tc) (NoMatch tc) in
      let max_ticks := default U64_MAX (or_else (matched_ticks st !! tc)
        (so_max_ticks <$> or_else (matched_offers st !! tc) (offers st !! tc))) in
      let* sub := chain (deal_subscriptions st !! tc)
        "open_stream: has no persisted deal shape" in
      let* cell := open_cell consts params m sub max_ticks t1 in
      Ok (set_streams (<[tc := cell]> (streams st)) st)
  end.

Definition open_stream (tc : TokenContract) (enc_endpoint : list Z) (note : NotePubkey) (t0 t1 : Z)
    : op unit := fun w =>
  match writing t0 (fun st => let* st' := open_stream_state tc note t1 st in Ok (tt, Some st')) w with
  | (Ok _, w') => (Ok tt, mkFiles (sidecar w') (<[tc := enc_endpoint]> (handovers w')))
  | r => r
  end.

Definition read_handover (tc : TokenContract) : op (option (list Z)) := fun w =>
  (Ok (handovers w !! tc), w).

Definition finalize (tc : TokenContract) (t0 t1 : Z) : op unit :=
  writing t0 (fun st => on_deal tc st (fun cell sub =>
    no_result (finalize_deal consts cell sub t1))).

Definition accept_probe (tc : TokenContract) (t0 t1 : Z) : op unit :=
  writing t0 (fun st => on_deal tc st (fun cell sub =>
    no_result (accept_probe_deal consts cell sub t1))).

Definition claim_tokens (tc : TokenContract) (note : NotePubkey) (cumulative t0 t1 t2 : Z)
    : op unit :=
  writing t0 (fun st =>
    let* _ := require_mock_seller_actor st tc note in
    let* cell := ok_or (streams st !! tc) (NoStream tc) in
    let* sub := chain (deal_subscriptions st !! tc) "claim_tokens: has no persisted deal shape" in
    let* r := claim_deal consts cell sub cumulative t1 t2 in
    match r with
    | None => Ok (tt, None)
    | Some (cell, sub) =>
        Ok (tt, Some (set_deal_subscriptions (<[tc := sub]> (deal_subscriptions st))
                        (set_streams (<[tc := cell]> (streams st)) st)))
    end).

Definition settle_week (tc : TokenContract) (t0 t1 : Z) : op unit :=
  writing t0 (fun st => on_deal tc st (fun cell sub =>
    no_result (settle_week_deal consts cell sub t1))).

Definition stop (tc : TokenContract) (note : NotePubkey) (t0 t1 t2 : Z) : op Settlement :=
  writing t0 (fun st =>
    let* _ := require_mock_buyer_actor st tc note in
    on_deal tc st (fun cell sub => stop_deal consts cell sub t1 t2)).

Definition stop_by_buyer_note_addr (tc : TokenContract) (addr : string) (t0 t1 t2 : Z)
    : op Settlement :=
  writing t0 (fun st =>
    let* _ := require_mock_buyer_note_addr st tc addr in
    on_deal tc st (fun cell sub => stop_deal consts cell sub t1 t2)).

Definition dispute (tc : TokenContract) (note : NotePubkey) (t0 t1 : Z) : op Settlement :=
  writing t0 (fun st =>
    let* _ := require_mock_buyer_actor st tc note in
    on_deal tc st (fun cell sub =>
      let* ' (s, cell) := dispute_deal tc cell sub t1 in Ok (s, cell, sub))).

Definition release_dispute (tc : TokenContract) (t0 : Z) : op Settlement :=
  writing t0 (fun st => on_deal tc st (fun cell sub => release_dispute_deal consts cell sub)).

Definition resolve_dispute_timeout (tc : TokenContract) (t0 t1 : Z) : op Settlement :=
  writing t0 (fun st =>
    let* cell := ok_or (streams st !! tc) (NoStream tc) in
    let* _ := timeout_due consts cell t1 in
    on_deal tc st (resolve_timeout_deal consts)).

Definition seller_stop (tc : TokenContract) (t0 t1 t2 : Z) : op Settlement :=
  writing t0 (fun st => on_deal tc st (fun cell sub => seller_stop_deal consts cell sub t1 t2)).

(** ** Reads of a deal *)
Definition mock_deal_state (st : MockState) (tc : TokenContract)
    : outcome ChainError (option DealChainState) :=
  let* funded_time :=
    (if is_key tc (matches st) then let* t := mock_funded_time st tc in Ok (Some t)
     else Ok None) in
  match streams st !! tc with
  | Some cell =>
      let* funded_time := ok_or funded_time (invalid_persisted_state "stream has no funded match") in
      Ok (Some {|
        ds_funded := true;
        ds_opened := negb (c_closed cell);
        ds_probe_accepted := c_probe_accepted cell;
        ds_disputed := c_disputed cell;
        ds_deposit := if c_closed cell then 0 else c_buyer_locked cell;
        ds_finalized_owed := c_seller_received cell;
        ds_tokens_final := c_tokens_final cell;
        ds_tokens_pending := c_tokens_pending cell;
        ds_probe_tick := c_probe_locked cell;
        ds_funded_time := Some funded_time;
        ds_probe_time := c_probe_time cell;
        ds_last_claim_time := c_last_claim_time cell;
        ds_dispute_time := c_dispute_time cell |})
  | None =>
      match funded_time with
      | None => Ok None
      | Some funded_time =>
          let* sub := ok_or (deal_subscriptions st !! tc)
            (invalid_persisted_state "funded deal has no persisted deal shape") in
          let* matched := ok_or (matches st !! tc)
            (invalid_persisted_state "funded deal has no persisted Match") in
          let* ' (pay, fee) := token_pay_and_fee consts (funded_tokens sub)
                                 (m_price_per_tick matched) in
          let* deposit := chain (u128_checked_add pay fee)
            "buyer deposit plus fee overflows uint128" in
          Ok (Some {|
            ds_funded := true; ds_opened := false; ds_probe_accepted := false;
            ds_disputed := false; ds_deposit := deposit; ds_finalized_owed := 0;
            ds_tokens_final := 0; ds_tokens_pending := 0; ds_probe_tick := 0;
            ds_funded_time := Some funded_time; ds_probe_time := 0;
            ds_last_claim_time := funded_time; ds_dispute_time := 0 |})
      end
  end.

Definition mock_deal_subscription (st : MockState) (tc : TokenContract)
    : outcome ChainError (option DealSubscription) :=
  match deal_subscriptions st !! tc with
  | Some sub => Ok (Some sub)
  | None =>
      match or_else (matched_offers st !! tc) (offers st !! tc) with
      | None => Ok None
      | Some offer =>
          let* sub := mock_deal_shape offer (default (so_max_ticks offer) (matched_ticks st !! tc)) 0 in
          Ok (Some sub)
      end
  end.

Definition cleanup_unopened (tc : TokenContract) (t0 t1 : Z) : op Settlement :=
  writing t0 (fun st =>
    fail_if is_key tc (streams st) with Chain "cleanup_unopened: is already opened" in
    fail_if negb (is_key tc (matches st)) with NoMatch tc in
    let* found := mock_deal_state st tc in
    let* deal := ok_or found (NoMatch tc) in
    let* funded_time := ok_or (ds_funded_time deal)
      (invalid_persisted_state "funded deal has no fundedTime") in
    let* cleanup_at := chain (u64_checked_add funded_time MATCH_OPEN_TIMEOUT_SECS)
      "cleanup_unopened: cleanup deadline overflows uint64" in
    fail_if t1 <? cleanup_at
      with Chain "cleanup_unopened: MATCH_OPEN_TIMEOUT is still open" in
    let* sub := ok_or (deal_subscriptions st !! tc)
      (invalid_persisted_state "funded deal has no persisted deal shape") in
    let* matched := ok_or (matches st !! tc)
      (invalid_persisted_state "funded deal has no persisted Match") in
    let* seller_bond := chain (u128_checked_mul (m_price_per_tick matched) 2)
      "cleanup_unopened: seller bond overflows uint128" in
    let buyer_bond := if is_subscription sub then seller_bond else 0 in
    let* buyer_refund := chain (u128_checked_add (ds_deposit deal) buyer_bond)
      "cleanup_unopened: buyer deposit plus bond overflows uint128" in
    let st := set_matches (delete tc (matches st)) st in
    let st := set_match_created_at (delete tc (match_created_at st)) st in
    let st := set_matched_offers (delete tc (matched_offers st)) st in
    let st := set_matched_ticks (delete tc (matched_ticks st)) st in
    let st := set_deal_subscriptions (delete tc (deal_subscriptions st)) st in
    Ok (SellerNoShow buyer_refund seller_bond, Some st)).

Definition buyer_stop_settlement (tc : TokenContract) (t0 : Z) : op (option (Z * Z)) :=
  reading t0 (fun st => Ok (streams st !! tc ≫= c_buyer_stop_settlement)).
Definition deal_state (tc : TokenContract) (t0 : Z) : op (option DealChainState) :=
  reading t0 (fun st => mock_deal_state st tc).
Definition deal_subscription (tc : TokenContract) (t0 : Z) : op (option DealSubscription) :=
  reading t0 (fun st => mock_deal_subscription st tc).

Definition deal_snapshot_of (st : MockState) (tc : TokenContract)
    : outcome ChainError (option DealChainSnapshot) :=
  let* found := mock_deal_state st tc in
  match found with
  | None => Ok None
  | Some deal =>
      let* shape := mock_deal_subscription st tc in
      let* sub := chain shape "state exists without matched deal terms" in
      let* offer := chain (matched_offers st !! tc) "state exists without a consumed offer" in
      let* bond_required := chain (u128_checked_mul (so_price_per_tick offer) 2)
        "two-tick bond overflows uint128" in
      let cell := streams st !! tc in
      let sub_bond := if is_subscription sub then bond_required else 0 in
      let snapshot := {|
        sn_account_code_hash := "mock-token-contract";
        sn_account_boc_hash := String.append "mock:" tc;
        sn_state := deal;
        sn_subscription := sub;
        sn_seller_bond := {| sb_bond_funded := true;
                             sb_bond_held := from_option c_seller_locked bond_required cell;
                             sb_bond_required := bond_required |};
        sn_buyer_bond := {| bb_bond_held := from_option c_buyer_bond sub_bond cell;
                            bb_bond_required := sub_bond |} |} in
      let* _ := map_err invalid_persisted_state (validate_cross_getter_invariants snapshot) in
      Ok (Some snapshot)
  end.
Definition deal_snapshot (tc : TokenContract) (t0 : Z) : op (option DealChainSnapshot) :=
  reading t0 (fun st => deal_snapshot_of st tc).

Definition stream_snapshot_of (cell : StreamCell) : outcome ChainError StreamSnapshot :=
  let* part := chain (u128_checked_add (c_buyer_locked cell) (c_probe_locked cell))
    "total buyer lock overflows uint128" in
  let* locked := chain (u128_checked_add part (c_buyer_bond cell))
    "total buyer lock overflows uint128" in
  let* contested := chain (checked_sub (c_tokens_pending cell) (c_tokens_final cell))
    "pending tokens are below finalized tokens" in
  let* contested_value := checked_mul_div_floor contested (price (c_machine cell)) TICK_SIZE
    "buyer exposure" in
  let* lead := chain (u128_checked_add (c_probe_locked cell) contested_value)
    "buyer exposure overflows uint128" in
  Ok {| ss_seller_locked := c_seller_locked cell;
        ss_buyer_locked := locked;
        ss_buyer_lead := lead;
        ss_tokens_final := c_tokens_final cell;
        ss_seller_received := c_seller_received cell;
        ss_buyer_refunded := c_buyer_refunded cell;
        ss_burned := c_burned cell;
        ss_closed := c_closed cell |}.
Definition checked_snapshot (tc : TokenContract) (t0 : Z) : op (option StreamSnapshot) :=
  reading t0 (fun st =>
    match streams st !! tc with
    | None => Ok None
    | Some cell => let* s := stream_snapshot_of cell in Ok (Some s)
    end).
(** [.await.ok().flatten()]. *)
Definition snapshot (tc : TokenContract) (t0 : Z) (w : ChainFiles) : option StreamSnapshot :=
  match fst (checked_snapshot tc t0 w) with Ok s => s | _ => None end.

(** ** The note view *)
Definition note_offers (st : MockState) (note_id : string) : list OfferListing :=
  omap (fun '(tc, o) =>
      if bool_decide (offer_sellers st !! tc = Some note_id) then
        Some {| ol_seller_id := note_id; ol_token_contract := tc;
                ol_price_per_tick := so_price_per_tick o; ol_max_ticks := so_max_ticks o |}
      else None) (map_to_list (offers st)).

Definition DealKey : Type := TokenContract * DealRole * option string * Z.
Definition sells (st : MockState) (note_id : string) (tc : TokenContract) (seller : string) : bool :=
  bool_decide (seller = note_id)
  && (is_key tc (offers st) || is_key tc (matches st) || is_key tc (matched_offers st)
      || is_key tc (streams st)).
Definition seller_keys (st : MockState) (note_id : string) : list DealKey :=
  omap (fun '(tc, seller) =>
      if sells st note_id tc seller then
        Some (tc, Seller, (fun m => note_id_hex (m_buyer_pubkey m)) <$> matches st !! tc,
              default 0 (or_else (m_price_per_tick <$> matches st !! tc)
                (or_else (so_price_per_tick <$> matched_offers st !! tc)
                         (so_price_per_tick <$> offers st !! tc))))
      else None) (map_to_list (offer_sellers st)).
(** The [seen] set keeps a self-match from being listed twice. *)
Definition buyer_keys (st : MockState) (note_id : string) (seen : list string) : list DealKey :=
  omap (fun '(tc, m) =>
      if bool_decide (note_id_hex (m_buyer_pubkey m) = note_id)
         && negb (bool_decide (tc ∈ seen)) then
        Some (tc, Buyer, offer_sellers st !! tc, m_price_per_tick m)
      else None) (map_to_list (matches st)).
Definition deal_keys (st : MockState) (note_id : string) : list DealKey :=
  let sellers := seller_keys st note_id in
  sellers ++ buyer_keys st note_id (map (fun '(tc, _, _, _) => tc) sellers).

Definition deal_exposure (role : DealRole) (s : option StreamSnapshot) : Z :=
  match s with
  | Some s => if ss_closed s then 0
              else saturate U64_MAX
                     (match role with Buyer => ss_buyer_locked s | Seller => ss_seller_locked s end)
  | None => 0
  end.

(** [clock tc] is the time at which the deal [tc] is read. *)
Definition note_snapshot (note : NotePubkey) (t0 : Z) (clock : TokenContract -> Z)
    : op NoteSnapshot := fun w =>
  let note_id := note_id_hex note in
  (let* st := load_state w t0 in
   let deals := map (fun '(tc, role, counterparty, price) => {|
       dv_token_contract := tc; dv_role := role; dv_counterparty := counterparty;
       dv_price_per_tick := price; dv_model := None;
       dv_snapshot := snapshot tc (clock tc) w |}) (deal_keys st note_id) in
   Ok {| ns_note_id := note_id;
         ns_offers := note_offers st note_id;
         ns_deals := deals;
         ns_exposure := fold_left (fun e d =>
           saturating_add U64_MAX e (deal_exposure (dv_role d) (dv_snapshot d))) deals 0 |}, w).

(** ** Subscription orders *)
Definition owner_of (note : NotePubkey) : string := String.append "0:" (note_id_hex note).

Definition place_subscription_order (order_book : string) (note : NotePubkey)
    (max_price ticks escrow flags deadline t0 t1 : Z) : op OrderBookOrder := fun w =>
  let expected := Z.lor flags.AON flags.SUBSCRIPTION in
  if negb (flags =? expected) || has_flag flags flags.MARKET
  then (Err (Chain "mock subscription flags must be exactly AON|SUBSCRIPTION"), w)
  else match map_err Chain (check_subscription_buy_reserve escrow ticks max_price) with
  | Ok _ => writing t0 (fun st =>
      let order_id := Z.max (next_subscription_order_id st) 1 in
      let* next := chain (u128_checked_add order_id 1) "mock subscription order id overflows u128" in
      let order := {| ob_order_id := order_id; ob_owner_note := owner_of note;
                      ob_token_contract := None; ob_is_buy := true;
                      ob_price_per_tick := max_price; ob_ticks := ticks; ob_escrow := escrow;
                      ob_deadline := deadline; ob_flags := flags; ob_timestamp := t1 |} in
      fail_if bool_decide (is_Some (subscription_orders st !! order_id))
        with Chain "mock subscription order id already exists" in
      Ok (order, Some (set_subscription_order_books
                         (<[order_id := order_book]> (subscription_order_books st))
                    (set_subscription_orders (<[order_id := order]> (subscription_orders st))
                    (set_next_subscription_order_id next st))))) w
  | Err e => (Err e, w)
  | Panic => (Panic, w)
  end.

Definition remove_subscription_order_from_book (order_id : Z) (reason : MockSubscriptionExit)
    (refunded : Z) (st : MockState) : MockState :=
  match subscription_orders st !! order_id with
  | None => st
  | Some order =>
      let book := default "" (subscription_order_books st !! order_id) in
      set_subscription_terminal_orders
        (<[order_id := {| mt_order := order; mt_order_book := book; mt_reason := reason;
                          mt_refunded := refunded |}]> (subscription_terminal_orders st))
        (set_subscription_order_books (delete order_id (subscription_order_books st))
          (set_subscription_orders (delete order_id (subscription_orders st)) st))
  end.

Definition order_expired (o : OrderBookOrder) (now : Z) : bool :=
  negb (ob_deadline o =? 0) && (ob_deadline o <=? now).

(** Load, and sweep the named order if it has expired; the sweep is stored
    before the caller's own checks run. *)
Definition swept_state (order_id t0 t1 : Z) : op MockState := fun w =>
  match load_state w t0 with
  | Ok st =>
      if from_option (fun o => order_expired o t1) false (subscription_orders st !! order_id) then
        let refunded := from_option ob_escrow 0 (subscription_orders st !! order_id) in
        let st := remove_subscription_order_from_book order_id Expired refunded st in
        (Ok st, store_state w st)
      else (Ok st, w)
  | Err e => (Err e, w)
  | Panic => (Panic, w)
  end.

(** The caller's resting order under this id and book. *)
Definition owned_order (st : MockState) (order_book : string) (order_id : Z) (note : NotePubkey)
    : option OrderBookOrder :=
  match subscription_orders st !! order_id with
  | Some o =>
      if bool_decide (ob_owner_note o = owner_of note)
         && bool_decide (subscription_order_books st !! order_id = Some order_book)
      then Some o else None
  | None => None
  end.

Definition subscription_order (order_book : string) (order_id : Z) (note : NotePubkey) (t0 t1 : Z)
    : op (option OrderBookOrder) := fun w =>
  match swept_state order_id t0 t1 w with
  | (Ok st, w') => (Ok (owned_order st order_book order_id note), w')
  | (Err e, w') => (Err e, w')
  | (Panic, w') => (Panic, w')
  end.

Definition subscription_terminal_order (order_book : string) (order_id : Z) (note : NotePubkey)
    (t0 t1 : Z) : op (option MockSubscriptionTerminal) := fun w =>
  match swept_state order_id t0 t1 w with
  | (Ok st, w') =>
      (Ok (match subscription_terminal_orders st !! order_id with
           | Some t => if bool_decide (ob_owner_note (mt_order t) = owner_of note)
                          && bool_decide (mt_order_book t = order_book)
                       then Some t else None
           | None => None
           end), w')
  | (Err e, w') => (Err e, w')
  | (Panic, w') => (Panic, w')
  end.

Definition cancel_subscription_order (order_book : string) (order_id : Z) (note : NotePubkey)
    (t0 t1 : Z) : op OrderBookOrder := fun w =>
  match swept_state order_id t0 t1 w with
  | (Ok st, w') =>
      match owned_order st order_book order_id note with
      | Some order =>
          let st := remove_subscription_order_from_book order_id Cancelled (ob_escrow order) st in
          (Ok order, store_state w' st)
      | None => (Err (Chain "mock subscription order is absent or owned by another note"), w')
      end
  | (Err e, w') => (Err e, w')
  | (Panic, w') => (Panic, w')
  end.
End Market.
