(* ===== verification/MockInvariant.v ===== *)
(** * MockInvariant: every reachable sidecar loads

    The state is a family of slots, one per TokenContract, each idle, resting,
    funded or opened.  [market_inv] gives each slot its facts; it implies
    [validate_persisted_state], is untouched by the address normalisation of a
    store, and is kept by every operation. *)
From Stdlib Require Import Ascii.
From S2P Require Import Prelude Text Params Settle Address MarketTypes Machine Accounting.
From S2P Require Import MockDeal MockDealInv MockDealOps MockMarket.

(** ** Slots *)
Record Slot : Type := mkSlot {
  sl_offer : option SellOffer;
  sl_matched_offer : option SellOffer;
  sl_ticks : option Z;
  sl_sub : option DealSubscription;
  sl_seller : option string;
  sl_match : option Match;
  sl_created : option Z;
  sl_cell : option StreamCell
}.
Definition slot_of (st : MockState) (tc : TokenContract) : Slot := {|
  sl_offer := offers st !! tc;
  sl_matched_offer := matched_offers st !! tc;
  sl_ticks := matched_ticks st !! tc;
  sl_sub := deal_subscriptions st !! tc;
  sl_seller := offer_sellers st !! tc;
  sl_match := matches st !! tc;
  sl_created := match_created_at st !! tc;
  sl_cell := streams st !! tc |}.

(** Values of the Rust types. *)
Definition offer_typed (o : SellOffer) : Prop :=
  in_u64 (so_price_per_tick o) /\ in_u64 (so_max_ticks o) /\ in_u8 (so_flags o).
Definition note_typed (n : NotePubkey) : Prop :=
  length (np_ed n) = 32%nat /\ Forall in_u8 (np_ed n).
(** A name the normalisation of a store leaves alone. *)
Definition stable (tc : TokenContract) : Prop := reload_tc tc = tc.

Section Invariant.
Context (consts : ProtocolConsts) (Hc : consts_typed consts).

Definition offer_ok (tc : TokenContract) (o : SellOffer) : Prop :=
  so_token_contract o = tc /\ stable tc /\ offer_typed o /\
  validate_mock_sell_offer consts o = Ok tt.

(** A matched offer, its volume, its shape and its match. *)
Record funded_ok (tc : TokenContract) (now : Z) (o : SellOffer) (k : Z) (s : DealSubscription)
    (m : Match) (created : Z) : Prop := {
  fu_offer : offer_ok tc o;
  fu_name : m_token_contract m = tc;
  fu_price : m_price_per_tick m = so_price_per_tick o;
  fu_ticks : 2 <= k <= so_max_ticks o;
  fu_created : 0 < created <= now;
  fu_flags : deal_flags s = Z.land (so_flags o) flags.DEAL_MASK;
  fu_shape : is_subscription s = has_flag (deal_flags s) flags.SUBSCRIPTION;
  fu_funded : funded_tokens s = k * TICK_SIZE;
  fu_weeks : weeks_ok s;
  fu_start : 0 <= period_start s <= now
}.
Definition fresh_shape (s : DealSubscription) : Prop :=
  tokens_paid s = 0 /\ week_index s = 0 /\ week_base_tokens s = 0.
Definition cell_of (m : Match) (k : Z) (c : StreamCell) : Prop :=
  c_buyer_pubkey c = m_buyer_pubkey m /\ cprice c = m_price_per_tick m /\ c_max_ticks c = k.

Inductive slot_inv (tc : TokenContract) (now : Z) : Slot -> Prop :=
| slot_idle seller :
    from_option (fun x => canonical_seller x = true) True seller ->
    slot_inv tc now (mkSlot None None None None seller None None None)
| slot_resting o seller :
    offer_ok tc o -> canonical_seller seller = true ->
    slot_inv tc now (mkSlot (Some o) None None None (Some seller) None None None)
| slot_funded o k s seller m created :
    funded_ok tc now o k s m created -> canonical_seller seller = true -> fresh_shape s ->
    slot_inv tc now
      (mkSlot None (Some o) (Some k) (Some s) (Some seller) (Some m) (Some created) None)
| slot_opened o k s seller m created c :
    funded_ok tc now o k s m created -> canonical_seller seller = true ->
    deal_inv consts c s now -> cell_of m k c ->
    slot_inv tc now
      (mkSlot None (Some o) (Some k) (Some s) (Some seller) (Some m) (Some created) (Some c)).

Definition market_inv (st : MockState) (now : Z) : Prop := forall tc, slot_inv tc now (slot_of st tc).

Lemma slot_inv_later tc now now' sl : now <= now' -> slot_inv tc now sl -> slot_inv tc now' sl.
Proof.
  intros Hn [|o sel Ho|o k s sel m cr Hf|o k s sel m cr c Hf]; constructor; auto;
    try (destruct Hf; constructor; auto; lia). by eapply deal_inv_later.
Qed.
Lemma market_inv_later st now now' : now <= now' -> market_inv st now -> market_inv st now'.
Proof. intros Hn Hi tc. by eapply slot_inv_later. Qed.
Lemma market_inv_empty now : market_inv MockState_default now.
Proof. intros tc. by apply slot_idle. Qed.

(** ** Storing changes nothing *)
Lemma reload_offer_id tc o : offer_ok tc o -> reload_offer o = o.
Proof.
  intros (<- & Hs & _). destruct o as [p t n f]. unfold reload_offer; simpl in *.
  by rewrite Hs.
Qed.
Lemma reload_match_id m : stable (m_token_contract m) -> reload_match m = m.
Proof. intros Hs. destruct m as [n b p]. unfold reload_match; simpl in *. by rewrite Hs. Qed.

Lemma slot_reload st now tc : market_inv st now ->
  slot_of (reload_state st) tc = slot_of st tc.
Proof.
  intros Hi. specialize (Hi tc). unfold slot_of, reload_state in *; simpl in *.
  rewrite !lookup_fmap.
  inversion Hi as [sel Hsel E|o sel Ho Hsel E|o k s sel m cr Hf Hsel Hfr E|o k s sel m cr c Hf Hsel Hd Hcell E]; simpl.
  - done.
  - by rewrite (reload_offer_id tc o Ho).
  - pose proof Hf as []. rewrite (reload_offer_id tc o) by done.
    rewrite reload_match_id by (rewrite fu_name0; apply fu_offer0). done.
  - pose proof Hf as []. rewrite (reload_offer_id tc o) by done.
    rewrite reload_match_id by (rewrite fu_name0; apply fu_offer0). done.
Qed.

Lemma market_inv_reload st now : market_inv st now -> market_inv (reload_state st) now.
Proof. intros Hi tc. rewrite (slot_reload st now tc Hi). apply Hi. Qed.

(** ** The invariant implies the load check *)
Lemma invalid_if_ok b r : b = false -> invalid_if b r = Ok tt.
Proof. by intros ->. Qed.

Lemma land_outside f : in_u8 f -> flags_outside (Z.land f flags.DEAL_MASK) flags.DEAL_MASK = 0.
Proof.
  intros. unfold flags_outside. rewrite <- Z.land_assoc. replace (Z.land flags.DEAL_MASK _) with 0.
  - by rewrite Z.land_0_r.
  - reflexivity.
Qed.

Lemma sub_valid s now :
  flags_outside (deal_flags s) flags.DEAL_MASK = 0 ->
  is_subscription s = has_flag (deal_flags s) flags.SUBSCRIPTION ->
  weeks_ok s -> 0 <= funded_tokens s <= U128_MAX ->
  tokens_paid s <= funded_tokens s -> week_base_tokens s <= funded_tokens s ->
  period_start s <= now -> validate_persisted_subscription s now = Ok tt.
Proof.
  intros Hf Hs Hw Hfu Hp Hb Ht. unfold validate_persisted_subscription.
  assert (week_index s <= sub_weeks s) by (destruct Hw as [?|?]; lia).
  rewrite invalid_if_ok by (by rewrite Hf). rewrite <- Hs. unfold is_subscription in *.
  rewrite invalid_if_ok by (by rewrite eqb_reflx). rewrite !invalid_if_ok by lia.
  destruct (Z.eqb_spec (sub_weeks s) 0) as [Hz|Hz]; simpl.
  - apply invalid_if_ok. destruct Hw as [(_ & -> & -> & ->)|(Hw & _)]; [|unfold SUBSCRIPTION_WEEKS in *; lia].
    lia.
  - destruct Hw as [?|(Hw & _ & He & _)]; [lia|]. rewrite !Hw, invalid_if_ok by done.
    unfold u128_checked_mul, checked_mul. rewrite (proj2 (Z.leb_le _ _)) by lia. simpl.
    apply invalid_if_ok. rewrite He, Z.eqb_refl. done.
Qed.

Lemma div_ceil_ticks t k : 0 <= t <= k * TICK_SIZE -> 0 <= div_ceil t TICK_SIZE <= k.
Proof.
  intros. pose proof (div_ceil_bounds t TICK_SIZE ltac:(done)). unfold TICK_SIZE in *. lia.
Qed.

Lemma cell_valid c s now : deal_inv consts c s now -> validate_persisted_stream c now = Ok tt.
Proof.
  intros (Hs & Hp & Ht). unfold validate_persisted_stream. destruct Hs, Ht.
  assert (HF : 0 <= div_ceil (c_tokens_final c) TICK_SIZE <= c_max_ticks c) by (apply div_ceil_ticks; lia).
  assert (HP : 0 <= div_ceil (c_tokens_pending c) TICK_SIZE <= c_max_ticks c) by (apply div_ceil_ticks; lia).
  pose proof (div_ceil_mono (c_tokens_final c) (c_tokens_pending c) TICK_SIZE ltac:(done) ltac:(lia)) as Hm.
  assert (0 < TICK_SIZE) by done.
  assert (Hph : if c_probe_accepted c then TICK_SIZE <= c_tokens_final c /\ c_probe_locked c = 0
                else c_tokens_pending c = 0).
  { unfold phase in Hp. destruct (c_closed c) eqn:Ho.
    - destruct Hp. destruct (c_probe_accepted c); [|done]. split; [done|lia].
    - destruct (c_probe_accepted c); [destruct Hp as [[] _]|destruct Hp]; done. }
  rewrite (invalid_if_ok (_ || _)) by lia. rewrite (invalid_if_ok (_ <? _)) by lia.
  rewrite (invalid_if_ok (_ <? _)) by lia. rewrite (invalid_if_ok (_ && _)) by lia.
  rewrite (invalid_if_ok (_ <? _)) by lia.
  rewrite (invalid_if_ok (_ && _)) by (destruct (c_disputed c); simpl; [specialize (tm_disputed eq_refl); lia|done]).
  rewrite (invalid_if_ok (_ && _)) by (destruct (c_disputed c), (c_closed c); simpl; try done; rewrite tm_open; done).
  rewrite (invalid_if_ok (_ && _)) by (destruct (Z.eqb_spec (c_dispute_time c) 0); simpl; [done|specialize (tm_order n); lia]).
  rewrite (invalid_if_ok (_ && _)) by (destruct (c_probe_accepted c); simpl; lia).
  rewrite (invalid_if_ok (_ && _)) by (destruct (c_probe_accepted c); simpl; lia).
  rewrite (invalid_if_ok (_ && _)) by (destruct (c_probe_accepted c); simpl; lia).
  unfold lifecycle_coherent, validate_machine_ticks, raw_ticks, try_from, u64_checked_add, checked_add.
  unfold phase in Hp. destruct (c_closed c) eqn:Ho.
  { destruct Hp. rewrite cl_machine, cl_disputed. done. }
  rewrite !(proj2 (Z.leb_le (div_ceil _ _) _)) by lia. simpl.
  destruct (c_probe_accepted c); [destruct Hp as [_ Hst]; unfold machine_synced in Hst|destruct Hp as [? ? ? ? ? ? ? ? Hst]];
    rewrite Hst; destruct (c_disputed c); simpl.
  - rewrite (proj2 (Z.leb_le (_ + _) _)) by lia. rewrite bool_decide_true by done. simpl.
    rewrite !invalid_if_ok by lia. done.
  - rewrite (proj2 (Z.leb_le _ _)) by lia. simpl. by rewrite !invalid_if_ok by lia.
  - rewrite Hph. assert (c_tokens_final c = 0) as -> by lia. done.
  - unfold cprice. by rewrite Z.eqb_refl.
Qed.

(** What an accepted sell offer guarantees. *)
Lemma sell_offer_inv o : offer_typed o -> validate_mock_sell_offer consts o = Ok tt ->
  2 <= so_max_ticks o /\ 0 < so_price_per_tick o /\
  (has_flag (so_flags o) flags.SUBSCRIPTION = true ->
     has_flag (so_flags o) flags.AON = true /\ so_max_ticks o mod SUBSCRIPTION_WEEKS = 0) /\
  cost_of consts (so_max_ticks o * TICK_SIZE) (so_price_per_tick o) <= U128_MAX.
Proof.
  intros (Hp & Ht & _) H. unfold validate_mock_sell_offer, chain in H. do 6 ok_step H.
  ok_step H. assert (has_flag (so_flags o) flags.SUBSCRIPTION = true ->
     has_flag (so_flags o) flags.AON = true /\ so_max_ticks o mod SUBSCRIPTION_WEEKS = 0) as Hsub.
  { intros Hs. rewrite Hs in E5. ok_step E5. ok_step E5. split; [by apply negb_false_iff|lia]. }
  clear E5. repeat ok_step H. checked_facts. subst.
  match goal with X : token_pay_and_fee _ _ _ = _ |- _ => apply token_pay_and_fee_inv in X; simplify_eq end.
  unfold MIN_STREAM_BUY_TICKS in *. split_and!; try done; try lia. ilia.
Qed.

Lemma binding_valid st tc o k s seller m created now cell :
  funded_ok tc now o k s m created -> canonical_seller seller = true ->
  matches st !! tc = Some m -> matched_offers st !! tc = Some o -> matched_ticks st !! tc = Some k ->
  offer_sellers st !! tc = Some seller ->
  from_option (fun c => cell_of m k c /\ c_tokens_pending c <= funded_tokens s) True cell ->
  validate_persisted_deal_binding st tc s cell = Ok tt.
Proof.
  intros [] Hsel Hm Ho Hk Hse Hcell. unfold validate_persisted_deal_binding.
  pose proof fu_offer0 as (Hn & _ & (Hu1 & Hu2 & _) & _).
  rewrite Hm; simpl. rewrite (invalid_if_ok (negb (bool_decide _))) by (rewrite bool_decide_true; done).
  rewrite Ho; simpl. rewrite (invalid_if_ok (negb (bool_decide _))) by (rewrite bool_decide_true; done).
  rewrite Hse; simpl. rewrite invalid_if_ok by (by rewrite Hsel).
  rewrite invalid_if_ok by lia. rewrite Hk; simpl.
  rewrite invalid_if_ok by (unfold MIN_STREAM_BUY_TICKS; lia).
  unfold u128_checked_mul, checked_mul. rewrite (proj2 (Z.leb_le _ _)) by (unfold TICK_SIZE; ilia). simpl.
  rewrite invalid_if_ok by lia. rewrite invalid_if_ok by lia.
  destruct cell as [c|]; [|done]. destruct Hcell as ((C1 & C2 & C3) & C4).
  unfold cprice in C2.
  rewrite (invalid_if_ok (negb (bool_decide _))) by (rewrite bool_decide_true; done).
  rewrite !invalid_if_ok by lia. done.
Qed.

Lemma funded_sub_valid tc now o k s m created :
  funded_ok tc now o k s m created -> tokens_paid s <= funded_tokens s ->
  week_base_tokens s <= funded_tokens s -> validate_persisted_subscription s now = Ok tt.
Proof.
  intros [] ? ?. destruct fu_offer0 as (_ & _ & (? & ? & ?) & _).
  apply sub_valid; try done; try lia.
  - rewrite fu_flags0. by apply land_outside.
  - rewrite fu_funded0. unfold TICK_SIZE. ilia.
Qed.

Lemma market_inv_valid st now : market_inv st now -> validate_persisted_state st now = Ok tt.
Proof.
  intros Hi. unfold validate_persisted_state.
  assert (check_all (validate_match st now) (matches st) = Ok tt) as ->.
  { apply check_all_ok. intros tc m Hm. specialize (Hi tc). unfold slot_of in Hi. rewrite Hm in Hi.
    unfold validate_match, mock_funded_time.
    inversion Hi as [| |o k s sel m' cr Hf|o k s sel m' cr c Hf]; simplify_eq; destruct Hf;
      rewrite invalid_if_ok by (by rewrite bool_decide_true); simpl;
      rewrite (proj2 (Z.ltb_ge _ _)) by lia; apply invalid_if_ok; lia. }
  assert (check_all (validate_created st) (match_created_at st) = Ok tt) as ->.
  { apply check_all_ok. intros tc cr Hcr. specialize (Hi tc). unfold slot_of in Hi. rewrite Hcr in Hi.
    unfold validate_created. inversion Hi; apply invalid_if_ok; by rewrite bool_decide_true. }
  assert (check_all (validate_deal st now) (deal_subscriptions st) = Ok tt) as ->.
  { apply check_all_ok. intros tc s Hs. specialize (Hi tc). unfold slot_of in Hi. rewrite Hs in Hi.
    unfold validate_deal.
    inversion Hi as [| |o k s' sel m' cr Hf Hsel (F1 & F2 & F3)|o k s' sel m' cr c Hf Hsel (Hsh & _) Hcell]; simplify_eq.
    - assert (0 <= funded_tokens s) by (destruct Hf; unfold TICK_SIZE in *; lia).
      rewrite (funded_sub_valid tc now o k s m' cr) by (done || lia).
      by eapply binding_valid; eauto.
    - destruct Hsh. rewrite (funded_sub_valid tc now o k s m' cr) by (done || lia).
      eapply binding_valid; eauto. simpl. split; [done|lia]. }
  apply check_all_ok. intros tc c Hcell. specialize (Hi tc). unfold slot_of in Hi. rewrite Hcell in Hi.
  unfold validate_cell. inversion Hi as [| | |o k s sel m' cr c' Hf Hsel Hd]; simplify_eq.
  rewrite invalid_if_ok by (destruct Hd as ([] & _); lia).
  rewrite invalid_if_ok by (by rewrite bool_decide_true). by eapply cell_valid.
Qed.

(** ** Operations on slots *)
Lemma market_inv_update st st' tc now now' :
  now <= now' -> market_inv st now ->
  (forall tc', tc' <> tc -> slot_of st' tc' = slot_of st tc') ->
  slot_inv tc now' (slot_of st' tc) -> market_inv st' now'.
Proof.
  intros Hn Hi Hfr Hs tc'. destruct (decide (tc' = tc)) as [->|Hne]; [done|].
  rewrite Hfr by done. by eapply slot_inv_later.
Qed.

Lemma is_key_false {V} tc (m : gmap string V) : is_key tc m = false <-> m !! tc = None.
Proof. unfold is_key. rewrite bool_decide_eq_false, <- eq_None_not_Some. done. Qed.
Lemma is_key_true {V} tc (m : gmap string V) : is_key tc m = true <-> is_Some (m !! tc).
Proof. unfold is_key. by rewrite bool_decide_eq_true. Qed.

(** Slots of the other contracts after updates at one key. *)
Ltac other_slots :=
  let tc' := fresh "tc'" in let Hne := fresh "Hne" in
  intros tc' Hne; unfold slot_of; simpl;
  repeat first [rewrite lookup_insert_ne by done | rewrite lookup_delete_ne by done]; reflexivity.

Lemma or_insert_lookup {V} tc (v : V) m : or_insert tc v m !! tc = Some (default v (m !! tc)).
Proof. unfold or_insert. destruct (m !! tc) eqn:E; simpl; [done|]. by rewrite lookup_insert_eq. Qed.
Lemma or_insert_lookup_ne {V} tc tc' (v : V) m : tc' <> tc -> or_insert tc v m !! tc' = m !! tc'.
Proof. intros. unfold or_insert. destruct (m !! tc); [done|]. by rewrite lookup_insert_ne. Qed.

Lemma hex_byte_lower b : in_u8 b -> Forall (fun c => lower_hex c = true) (hex_byte b).
Proof.
  intros Hb. assert (forallb (fun b => forallb lower_hex (hex_byte b)) (map Z.of_nat (seq 0 256)) = true) as H
    by (vm_compute; reflexivity).
  rewrite forallb_forall in H. specialize (H b).
  rewrite List.Forall_forall. rewrite <- forallb_forall. apply H. apply in_map_iff.
  exists (Z.to_nat b). split; [ilia|]. apply in_seq. ilia.
Qed.

Lemma note_seller_canonical n : note_typed n -> canonical_seller (note_id_hex n) = true.
Proof.
  intros [Hl Hb]. unfold canonical_seller, note_id_hex. rewrite to_of_text.
  assert (length (concat (map hex_byte (np_ed n))) = (2 * length (np_ed n))%nat) as Hlen.
  { clear. induction (np_ed n) as [|b l IH]; simpl; [done|]. rewrite IH. simpl. lia. }
  assert (String.length (of_text (concat (map hex_byte (np_ed n)))) = 64%nat) as ->.
  { rewrite <- to_text_length, to_of_text, Hlen, Hl. done. }
  simpl. apply forallb_forall. intros c Hin. apply in_concat in Hin as (l & Hl1 & Hl2).
  apply in_map_iff in Hl1 as (b & <- & Hb1). rewrite List.Forall_forall in Hb.
  specialize (hex_byte_lower b (Hb b Hb1)) as Hf. rewrite List.Forall_forall in Hf. auto.
Qed.

Lemma post_offer_inv offer note t1 st st' now :
  offer_typed offer -> stable (so_token_contract offer) -> note_typed note ->
  validate_mock_sell_offer consts offer = Ok tt -> market_inv st now ->
  post_offer_state offer note t1 st = Ok st' -> market_inv st' now.
Proof.
  intros Ht Hst Hn Hv Hi H. unfold post_offer_state in H. repeat ok_step H. injection H as <-.
  set (tc := so_token_contract offer) in *.
  apply orb_false_iff in E0 as [E0 K5]. apply orb_false_iff in E0 as [E0 K4].
  apply orb_false_iff in E0 as [E0 K3]. apply orb_false_iff in E0 as [K1 K2].
  apply is_key_false in E, K1, K2, K3, K4, K5. pose proof (Hi tc) as Hs.
  eapply (market_inv_update st _ tc now now); [lia|done| |].
  - intros tc' Hne. unfold slot_of; simpl. by rewrite lookup_insert_ne, or_insert_lookup_ne by done.
  - unfold slot_of in *; simpl in *. rewrite lookup_insert_eq, or_insert_lookup.
    rewrite E, K1, K2, K3, K4, K5 in Hs. rewrite K1, K2, K3, K4, K5.
    inversion Hs as [sel Hsel| | |]; subst.
    constructor; [done|]. destruct (offer_sellers st !! tc); simpl; [done|].
    by apply note_seller_canonical.
Qed.

Lemma delist_inv tc st now : market_inv st now -> is_Some (offers st !! tc) ->
  slot_inv tc now (slot_of (set_offers (delete tc (offers st)) st) tc).
Proof.
  intros Hi [o Ho]. specialize (Hi tc). unfold slot_of in *; simpl in *.
  rewrite lookup_delete_eq. rewrite Ho in Hi. inversion Hi; subst. by apply slot_idle.
Qed.

Lemma deal_flags_sub f : has_flag (Z.land f flags.DEAL_MASK) flags.SUBSCRIPTION = has_flag f flags.SUBSCRIPTION.
Proof. unfold has_flag. rewrite <- Z.land_assoc. reflexivity. Qed.

(** The shape of a fresh fill. *)
Lemma deal_shape_fresh o k start s :
  2 <= k -> mock_deal_shape o k start = Ok s ->
  deal_flags s = Z.land (so_flags o) flags.DEAL_MASK /\
  is_subscription s = has_flag (deal_flags s) flags.SUBSCRIPTION /\
  funded_tokens s = k * TICK_SIZE /\ weeks_ok s /\ fresh_shape s /\ period_start s = start.
Proof.
  intros Hk H. unfold mock_deal_shape, chain in H. ok_step H. checked_facts. subst.
  ok_step H; [ok_step H|]; simplify_eq; unfold is_subscription, fresh_shape, weeks_ok; simpl.
  - assert (k = k / 4 * 4) as Hk4.
    { pose proof (Z.div_mod k 4 ltac:(lia)). unfold SUBSCRIPTION_WEEKS in *. lia. }
    assert (k * TICK_SIZE / SUBSCRIPTION_WEEKS = k / 4 * TICK_SIZE) as ->.
    { unfold SUBSCRIPTION_WEEKS. replace (k * TICK_SIZE) with (k / 4 * TICK_SIZE * 4) by lia.
      by rewrite Z.div_mul by lia. }
    split_and!; try done. right. unfold SUBSCRIPTION_WEEKS, TICK_SIZE in *. lia.
  - split_and!; try done. left. done.
Qed.

Lemma place_buy_inv tc note ticks t1 t2 st st' now :
  0 < t1 -> t1 <= t2 -> t2 <= I64_MAX -> now <= t2 -> market_inv st now ->
  place_buy_state tc note ticks t1 t2 st = Ok st' -> market_inv st' t2.
Proof.
  intros H1 H12 H2 Hn Hi H. unfold place_buy_state in H.
  ok_step H. ok_step H. ok_step H. ok_step H. ok_step H. injection H as <-.
  apply ok_or_ok in E0. rename a into o, a0 into s.
  set (k := default (so_max_ticks o) ticks) in *.
  pose proof (Hi tc) as Hs. unfold slot_of in Hs. rewrite E0 in Hs.
  inversion Hs as [|o' sel Ho Hsel| |]; subst. unfold MIN_STREAM_BUY_TICKS in *.
  apply deal_shape_fresh in E3 as (S1 & S2 & S3 & S4 & S5 & S6); [|lia].
  eapply (market_inv_update st _ tc now t2); [lia|done|other_slots|].
  unfold slot_of; simpl. rewrite !lookup_insert_eq, lookup_delete_eq.
  match goal with X : Some sel = _ |- _ => rewrite <- X end.
  match goal with X : None = streams st !! tc |- _ => rewrite <- X end.
  constructor; try done. constructor; simpl; try done; try lia.
  unfold as_i64. rewrite (proj2 (Z.leb_le _ _)) by lia. lia.
Qed.

Lemma open_stream_inv params tc note t1 st st' now :
  0 < t1 -> now <= t1 -> market_inv st now ->
  open_stream_state consts params tc note t1 st = Ok st' -> market_inv st' t1.
Proof.
  intros H1 Hn Hi H. unfold open_stream_state, chain in H. ok_step H. ok_step H. ok_step H. ok_step H.
  ok_step H. injection H as <-. apply ok_or_ok in E1, E2. rename a0 into m, a1 into s, a2 into c.
  pose proof (Hi tc) as Hs. unfold slot_of in Hs. rewrite E0, E1, E2 in Hs.
  inversion Hs as [| |o k s' sel m' cr Hf Hsel (F1 & F2 & F3)|]; subst.
  match goal with X : Some k = _ |- _ => rewrite <- X in E3; simpl in E3 end.
  pose proof Hf as []. destruct fu_offer0 as (O1 & O2 & (O3 & O4 & O5) & O6).
  apply sell_offer_inv in O6 as (P1 & P2 & P3 & P4); [|done].
  apply open_cell_inv in E3 as (Hd & C1 & C2 & C3); try done; try lia; [|ilia..].
  eapply (market_inv_update st _ tc now t1); [lia|done|other_slots|].
  unfold slot_of; simpl. rewrite lookup_insert_eq.
  repeat match goal with X : Some _ = _ !! tc |- _ => rewrite <- X; clear X
                       | X : None = _ !! tc |- _ => rewrite <- X; clear X end.
  rewrite E1, E2. constructor; try done. destruct Hf; constructor; try done; lia.
Qed.

(** Replacing a deal by a later one with the same identity. *)
Definition put_deal (tc : TokenContract) (c : StreamCell) (s : DealSubscription) (st : MockState) : MockState :=
  set_deal_subscriptions (<[tc := s]> (deal_subscriptions st)) (set_streams (<[tc := c]> (streams st)) st).

Lemma put_deal_inv tc st c s c' s' now now' :
  now <= now' -> market_inv st now -> streams st !! tc = Some c -> deal_subscriptions st !! tc = Some s ->
  (deal_inv consts c s now -> deal_inv consts c' s' now' /\ deal_frame c s c' s') ->
  market_inv (put_deal tc c' s' st) now'.
Proof.
  intros Hn Hi E E0 Hf. pose proof (Hi tc) as Hs. unfold slot_of in Hs. rewrite E, E0 in Hs.
  inversion Hs as [| | |o k s0 sel m cr c0 Hfu Hsel Hd (C1 & C2 & C3)]; subst.
  destruct (Hf Hd) as [Hd' [[T1 T2 T3 T4] Fb Ft Fp]].
  eapply (market_inv_update st _ tc now now'); [lia|done|other_slots|].
  unfold slot_of; simpl. rewrite !lookup_insert_eq.
  repeat match goal with X : Some _ = _ !! tc |- _ => rewrite <- X; clear X
                       | X : None = _ !! tc |- _ => rewrite <- X; clear X end.
  constructor; try done; [|repeat split; congruence].
  destruct Hfu. pose proof Hd' as (Hsh & _ & Ht). destruct Hsh, Ht.
  constructor; try done; try lia; try congruence.
  unfold is_subscription in *. by rewrite T1, T2.
Qed.

(** A deal operation that keeps the deal invariant keeps the market's. *)
Lemma on_deal_inv {A} tc st (f : StreamCell -> DealSubscription -> outcome ChainError (A * StreamCell * DealSubscription)) now now' a st' :
  now <= now' -> market_inv st now ->
  (forall c s r c' s', deal_inv consts c s now -> f c s = Ok (r, c', s') ->
     deal_inv consts c' s' now' /\ deal_frame c s c' s') ->
  on_deal tc st f = Ok (a, Some st') -> market_inv st' now'.
Proof.
  intros Hn Hi Hf H. unfold on_deal, chain in H. ok_step H. ok_step H. ok_step H.
  destruct a2 as [[r c'] s']. apply ok_or_ok in E, E0. simplify_eq.
  eapply put_deal_inv; eauto.
Qed.

Lemma cleanup_inv tc st st' now :
  market_inv st now -> is_key tc (streams st) = false -> is_key tc (matches st) = true ->
  st' = set_deal_subscriptions (delete tc (deal_subscriptions st))
    (set_matched_ticks (delete tc (matched_ticks st))
      (set_matched_offers (delete tc (matched_offers st))
        (set_match_created_at (delete tc (match_created_at st))
          (set_matches (delete tc (matches st)) st)))) -> market_inv st' now.
Proof.
  intros Hi Hk Hm ->. apply is_key_false in Hk. apply is_key_true in Hm as [m Hm].
  pose proof (Hi tc) as Hs. unfold slot_of in Hs. rewrite Hk, Hm in Hs.
  inversion Hs as [| |o k s sel m' cr Hf Hsel|]; subst.
  eapply (market_inv_update st _ tc now now); [lia|done|other_slots|].
  unfold slot_of; simpl. rewrite !lookup_delete_eq.
  repeat match goal with X : Some _ = _ !! tc |- _ => rewrite <- X; clear X
                       | X : None = _ !! tc |- _ => rewrite <- X; clear X end.
  rewrite Hk. by apply slot_idle.
Qed.
End Invariant.
