(* ===== verification/MockReach.v ===== *)
(** * MockReach: runs of the offline market

    One step is one state-changing call of the backend, with its own clock
    reads, on a clock that never goes back.  Every run from an empty file keeps
    [market_inv], so no later load fails and no call panics. *)
From S2P Require Import Prelude Text Params Settle Address MarketTypes Machine Accounting.
From S2P Require Import MockDeal MockDealInv MockDealOps MockMarket MockInvariant.

Section Reach.
Context (consts : ProtocolConsts) (Hc : consts_typed consts).
Context (params : DobParams) (order_id_of : TokenContract -> Z).

Definition files_inv (w : ChainFiles) (now : Z) : Prop :=
  from_option (fun st => market_inv consts st now) True (sidecar w).

Definition empty_files : ChainFiles := mkFiles None ∅.

Lemma load_ok w now t : files_inv w now -> now <= t ->
  exists st, load_state w t = Ok st /\ market_inv consts st t.
Proof.
  intros Hw Ht. unfold files_inv, load_state in *. destruct (sidecar w) as [st|]; simpl in *.
  - eapply market_inv_later in Hw; [|exact Ht]. exists st. by rewrite (market_inv_valid consts st t Hw).
  - exists MockState_default. split; [done|]. apply market_inv_empty.
Qed.

Lemma store_inv w st now : market_inv consts st now -> files_inv (store_state w st) now.
Proof. intros. unfold files_inv; simpl. by apply market_inv_reload. Qed.

Lemma files_inv_later w now now' : now <= now' -> files_inv w now -> files_inv w now'.
Proof.
  intros Hn. unfold files_inv. destruct (sidecar w); simpl; [|done]. by apply market_inv_later.
Qed.

Lemma writing_inv {A} t0 (f : MockState -> outcome ChainError (A * option MockState)) w r w' now now' :
  files_inv w now -> now <= t0 -> t0 <= now' ->
  (forall st a st', market_inv consts st t0 -> f st = Ok (a, Some st') -> market_inv consts st' now') ->
  writing t0 f w = (r, w') -> files_inv w' now'.
Proof.
  intros Hw H1 H2 Hf H. unfold writing in H. destruct (load_ok w now t0 Hw H1) as (st & Hl & Hst).
  rewrite Hl in H. destruct (f st) as [[a [st'|]]| |] eqn:E; simplify_eq;
    try (eapply files_inv_later; [|exact Hw]; lia).
  apply store_inv. eauto.
Qed.

(** A clock reading that fits [i64], not the epoch. *)
Definition clock_ok (t : Z) : Prop := 0 < t <= I64_MAX.

(** One call: the market at [now] becomes the market at [now']. *)
Inductive market_step : Z * ChainFiles -> Z * ChainFiles -> Prop :=
| s_post_offer now w offer note t0 t1 r w' :
    offer_typed offer -> stable (so_token_contract offer) -> note_typed note ->
    now <= t0 <= t1 -> clock_ok t1 ->
    post_offer consts offer note t0 t1 w = (r, w') -> market_step (now, w) (t1, w')
| s_expire now w tc id t0 t1 r w' :
    now <= t0 <= t1 -> clock_ok t1 ->
    expire_resting_sell_order order_id_of tc id t0 t1 w = (r, w') -> market_step (now, w) (t1, w')
| s_cancel now w tc id t0 r w' :
    now <= t0 -> clock_ok t0 ->
    cancel_resting_sell_order order_id_of tc id t0 w = (r, w') -> market_step (now, w) (t0, w')
| s_buy now w tc note ticks t0 t1 t2 r w' :
    note_typed note -> now <= t0 <= t1 -> 0 < t1 <= t2 -> clock_ok t2 ->
    place_buy_ticks_inner tc note ticks t0 t1 t2 w = (r, w') -> market_step (now, w) (t2, w')
| s_open now w tc endpoint note t0 t1 r w' :
    now <= t0 <= t1 -> clock_ok t1 ->
    open_stream consts params tc endpoint note t0 t1 w = (r, w') -> market_step (now, w) (t1, w')
| s_accept now w tc t0 t1 r w' :
    now <= t0 <= t1 -> clock_ok t1 ->
    accept_probe consts tc t0 t1 w = (r, w') -> market_step (now, w) (t1, w')
| s_claim now w tc note cum t0 t1 t2 r w' :
    now <= t0 <= t1 -> t1 <= t2 -> clock_ok t2 ->
    claim_tokens consts tc note cum t0 t1 t2 w = (r, w') -> market_step (now, w) (t2, w')
| s_finalize now w tc t0 t1 r w' :
    now <= t0 <= t1 -> clock_ok t1 ->
    finalize consts tc t0 t1 w = (r, w') -> market_step (now, w) (t1, w')
| s_settle_week now w tc t0 t1 r w' :
    now <= t0 <= t1 -> clock_ok t1 ->
    settle_week consts tc t0 t1 w = (r, w') -> market_step (now, w) (t1, w')
| s_stop now w tc note t0 t1 t2 r w' :
    now <= t0 <= t1 -> t1 <= t2 -> clock_ok t2 ->
    stop consts tc note t0 t1 t2 w = (r, w') -> market_step (now, w) (t2, w')
| s_stop_addr now w tc addr t0 t1 t2 r w' :
    now <= t0 <= t1 -> t1 <= t2 -> clock_ok t2 ->
    stop_by_buyer_note_addr consts tc addr t0 t1 t2 w = (r, w') -> market_step (now, w) (t2, w')
| s_seller_stop now w tc t0 t1 t2 r w' :
    now <= t0 <= t1 -> t1 <= t2 -> clock_ok t2 ->
    seller_stop consts tc t0 t1 t2 w = (r, w') -> market_step (now, w) (t2, w')
| s_dispute now w tc note t0 t1 r w' :
    now <= t0 <= t1 -> clock_ok t1 ->
    dispute tc note t0 t1 w = (r, w') -> market_step (now, w) (t1, w')
| s_release now w tc t0 r w' :
    now <= t0 -> clock_ok t0 ->
    release_dispute consts tc t0 w = (r, w') -> market_step (now, w) (t0, w')
| s_timeout now w tc t0 t1 r w' :
    now <= t0 <= t1 -> clock_ok t1 ->
    resolve_dispute_timeout consts tc t0 t1 w = (r, w') -> market_step (now, w) (t1, w')
| s_cleanup now w tc t0 t1 r w' :
    now <= t0 <= t1 -> clock_ok t1 ->
    cleanup_unopened consts tc t0 t1 w = (r, w') -> market_step (now, w) (t1, w')
| s_place_sub now w book note p k e f d t0 t1 r w' :
    note_typed note -> now <= t0 <= t1 -> clock_ok t1 ->
    place_subscription_order book note p k e f d t0 t1 w = (r, w') -> market_step (now, w) (t1, w')
| s_read_sub now w book id note t0 t1 r w' :
    now <= t0 <= t1 -> clock_ok t1 ->
    subscription_order book id note t0 t1 w = (r, w') -> market_step (now, w) (t1, w')
| s_read_terminal now w book id note t0 t1 r w' :
    now <= t0 <= t1 -> clock_ok t1 ->
    subscription_terminal_order book id note t0 t1 w = (r, w') -> market_step (now, w) (t1, w')
| s_cancel_sub now w book id note t0 t1 r w' :
    now <= t0 <= t1 -> clock_ok t1 ->
    cancel_subscription_order book id note t0 t1 w = (r, w') -> market_step (now, w) (t1, w').

(** Orders live outside the slots. *)
Lemma slots_only st st' now : (forall tc, slot_of st' tc = slot_of st tc) ->
  market_inv consts st now -> market_inv consts st' now.
Proof. intros H Hi tc. rewrite H. apply Hi. Qed.

Lemma remove_order_inv id reason refunded st now :
  market_inv consts st now ->
  market_inv consts (remove_subscription_order_from_book id reason refunded st) now.
Proof.
  apply slots_only. intros tc. unfold remove_subscription_order_from_book.
  by destruct (subscription_orders st !! id).
Qed.

Lemma swept_inv id t0 t1 w r w' now :
  files_inv w now -> now <= t0 -> t0 <= t1 -> swept_state id t0 t1 w = (r, w') ->
  files_inv w' t1 /\ exists st, r = Ok st /\ market_inv consts st t1.
Proof.
  intros Hw H1 H2 H. unfold swept_state in H. destruct (load_ok w now t0 Hw H1) as (st & Hl & Hst).
  rewrite Hl in H. eapply market_inv_later in Hst; [|exact H2].
  destruct (from_option _ _ _); simplify_eq.
  - split; [|eexists; split; [done|by apply remove_order_inv]]. by apply store_inv, remove_order_inv.
  - split; [|by eexists]. eapply files_inv_later; [|exact Hw]. lia.
Qed.

Lemma no_result_inv r x c s : no_result r = Ok (x, c, s) -> r = Ok (c, s).
Proof. unfold no_result. intros H. repeat ok_step H. by simplify_eq. Qed.

(** The guards of a timeout see the cell the operation runs on. *)
Lemma timeout_ok tc st t1 r :
  (let* cell := ok_or (streams st !! tc) (NoStream tc) in
   let* _ := timeout_due consts cell t1 in
   on_deal tc st (resolve_timeout_deal consts)) = Ok r ->
  on_deal tc st (fun cell sub => let* _ := timeout_due consts cell t1 in resolve_timeout_deal consts cell sub) = Ok r.
Proof.
  unfold on_deal. intros H. destruct (streams st !! tc) as [cell|]; [|done]. simpl in *. by ok_step H.
Qed.

(** A deal operation behind [writing]: [lem] is its preservation lemma. *)
Ltac write_deal H Hw lem :=
  eapply writing_inv in H; [exact H|exact Hw|lia|lia|];
  let st := fresh "st" in let Hst := fresh "Hst" in let Hf := fresh "Hf" in
  intros st ? ? Hst Hf;
  repeat match type of Hf with (match require_mock_buyer_actor _ _ _ with _ => _ end) = _ => ok_step Hf
                             | (match require_mock_buyer_note_addr _ _ _ with _ => _ end) = _ => ok_step Hf end;
  try apply timeout_ok in Hf;
  eapply (on_deal_inv consts) in Hf; [exact Hf| |exact Hst|]; [lia|];
  let Hd := fresh "Hd" in let Ho := fresh "Ho" in
  intros ? ? ? ? ? Hd Ho; try apply no_result_inv in Ho; lem Hd Ho.

Lemma post_step offer note t0 t1 w r w' now :
  offer_typed offer -> stable (so_token_contract offer) -> note_typed note ->
  now <= t0 <= t1 -> files_inv w now -> post_offer consts offer note t0 t1 w = (r, w') ->
  files_inv w' t1.
Proof.
  intros Ho Hs Hn Ht Hw H. unfold post_offer in H.
  destruct (validate_mock_sell_offer consts offer) as [[]| |] eqn:E; simplify_eq;
    try (eapply files_inv_later; [|exact Hw]; lia).
  eapply writing_inv in H; [exact H|exact Hw|lia|lia|].
  intros st a st' Hst Hf. repeat ok_step Hf. simplify_eq.
  eapply (market_inv_later consts _ t0); [lia|]. eapply post_offer_inv; eauto.
Qed.

Lemma buy_step tc note ticks t0 t1 t2 w r w' now :
  now <= t0 <= t1 -> 0 < t1 <= t2 -> clock_ok t2 -> files_inv w now ->
  place_buy_ticks_inner tc note ticks t0 t1 t2 w = (r, w') -> files_inv w' t2.
Proof.
  intros Ht Ht1 Hk Hw H. unfold place_buy_ticks_inner in H.
  eapply writing_inv in H; [exact H|exact Hw|lia|lia|].
  intros st a st' Hst Hf. repeat ok_step Hf. simplify_eq.
  eapply (place_buy_inv consts) in E; eauto; try lia. apply Hk.
Qed.

Lemma open_step tc ep note t0 t1 w r w' now :
  now <= t0 <= t1 -> clock_ok t1 -> files_inv w now ->
  open_stream consts params tc ep note t0 t1 w = (r, w') -> files_inv w' t1.
Proof.
  intros Ht Hk Hw H. unfold open_stream in H.
  destruct (writing t0 _ w) as [r1 w1] eqn:E.
  eapply (writing_inv _ _ _ _ _ now t1) in E; [|exact Hw|lia|lia|].
  - destruct r1; simplify_eq; exact E.
  - intros st a st' Hst Hf. repeat ok_step Hf. simplify_eq.
    destruct Hk. eapply (open_stream_inv consts) in E0; [exact E0| | |exact Hst]; lia.
Qed.

Lemma claim_step tc note cum t0 t1 t2 w r w' now :
  now <= t0 <= t1 -> t1 <= t2 -> clock_ok t2 -> files_inv w now ->
  claim_tokens consts tc note cum t0 t1 t2 w = (r, w') -> files_inv w' t2.
Proof.
  intros Ht Ht2 Hk Hw H. unfold claim_tokens in H.
  eapply writing_inv in H; [exact H|exact Hw|lia|lia|].
  intros st a st' Hst Hf. ok_step Hf. clear E.
  set (f := fun c s => let* r := claim_deal consts c s cum t1 t2 in
         match r with Some (c, s) => Ok (tt, c, s) | None => Err (Chain "") end).
  assert (on_deal tc st f = Ok (tt, Some st')) as Hon.
  { unfold on_deal, f. do 3 ok_step Hf. destruct a3 as [[c' s']|]; simplify_eq.
    unfold chain in *. apply ok_or_ok in E0. rewrite E0. simpl. by rewrite E1. }
  eapply (on_deal_inv consts) in Hon; [exact Hon| |exact Hst|]; [lia|].
  intros c s x c' s' Hd Hr. unfold f in Hr. repeat ok_step Hr. simplify_eq.
  destruct Hk. eapply claim_inv in E as (? & ? & _); [done|exact Hd|lia|lia].
Qed.

Lemma cleanup_step tc t0 t1 w r w' now :
  now <= t0 <= t1 -> files_inv w now -> cleanup_unopened consts tc t0 t1 w = (r, w') ->
  files_inv w' t1.
Proof.
  intros Ht Hw H. unfold cleanup_unopened in H. eapply writing_inv in H; [exact H|exact Hw|lia|lia|].
  intros st a st' Hst Hf. repeat ok_step Hf. injection Hf as _ <-.
  eapply (market_inv_later consts _ t0); [lia|].
  eapply (cleanup_inv consts tc st); eauto. by apply negb_false_iff.
Qed.

Lemma order_step book note p k e f d t0 t1 w r w' now :
  now <= t0 <= t1 -> files_inv w now ->
  place_subscription_order book note p k e f d t0 t1 w = (r, w') -> files_inv w' t1.
Proof.
  intros Ht Hw H. unfold place_subscription_order in H.
  destruct (_ || _); [simplify_eq; eapply files_inv_later; [|exact Hw]; lia|].
  destruct (map_err _ _); try (simplify_eq; eapply files_inv_later; [|exact Hw]; lia).
  eapply writing_inv in H; [exact H|exact Hw|lia|lia|].
  intros st x st' Hst Hf. repeat ok_step Hf. simplify_eq.
  eapply (market_inv_later consts _ t0); [lia|]. by eapply slots_only; [|exact Hst].
Qed.

Lemma delist_step {A} tc t0 t1 w (r : outcome ChainError A) w'
    (f : MockState -> outcome ChainError (A * option MockState)) now :
  now <= t0 <= t1 -> files_inv w now ->
  (forall st a st', f st = Ok (a, Some st') ->
     is_key tc (offers st) = true /\ offers st' = delete tc (offers st) /\
     forall tc', slot_of st' tc' = slot_of (set_offers (delete tc (offers st)) st) tc') ->
  writing t0 f w = (r, w') -> files_inv w' t1.
Proof.
  intros Ht Hw Hf H. eapply writing_inv in H; [exact H|exact Hw|lia|lia|].
  intros st a st' Hst Hx. destruct (Hf _ _ _ Hx) as (Hk & _ & Hsl). apply is_key_true in Hk.
  eapply slots_only; [exact Hsl|].
  eapply (market_inv_update consts st _ tc t0 t1); [lia|done| |].
  - intros tc' Hne. unfold slot_of; simpl. by rewrite lookup_delete_ne by done.
  - eapply slot_inv_later; [|by apply delist_inv]. lia.
Qed.

Lemma market_step_inv now w now' w' :
  market_step (now, w) (now', w') -> files_inv w now -> files_inv w' now' /\ now <= now'.
Proof.
  intros Hs Hw. inversion Hs; subst; (split; [|lia]).
  - eapply post_step; eauto.
  - match goal with H : expire_resting_sell_order _ _ _ _ _ _ = _ |- _ =>
      unfold expire_resting_sell_order, cancel_resting_sell_order in H;
      eapply (delist_step tc _ _ _ _ _ _ now) in H; [exact H|lia|exact Hw|] end.
    intros st a st' Hf. repeat ok_step Hf; simplify_eq. apply orb_false_iff in E as [E _].
    apply negb_false_iff in E. done.
  - match goal with H : cancel_resting_sell_order _ _ _ _ _ = _ |- _ =>
      unfold expire_resting_sell_order, cancel_resting_sell_order in H;
      eapply (delist_step tc _ _ _ _ _ _ now) in H; [exact H|lia|exact Hw|] end.
    intros st a st' Hf. repeat ok_step Hf; simplify_eq. apply orb_false_iff in E as [_ E].
    apply negb_false_iff in E. done.
  - eapply buy_step; eauto.
  - eapply open_step; eauto.
  - match goal with H : accept_probe _ _ _ _ _ = _ |- _ => write_deal H Hw
      ltac:(fun Hd Ho => eapply accept_probe_inv in Ho; [exact Ho|exact Hd|lia]) end.
  - eapply claim_step; eauto.
  - match goal with H : finalize _ _ _ _ _ = _ |- _ => write_deal H Hw
      ltac:(fun Hd Ho => eapply (finalize_inv consts Hc) in Ho; [exact Ho|exact Hd|lia]) end.
  - match goal with H : settle_week _ _ _ _ _ = _ |- _ => write_deal H Hw
      ltac:(fun Hd Ho => eapply (settle_week_inv consts Hc) in Ho; [exact Ho|exact Hd|lia]) end.
  - match goal with H : stop _ _ _ _ _ _ _ = _ |- _ => write_deal H Hw
      ltac:(fun Hd Ho => eapply (stop_inv consts Hc _ _ _ _ _ now') in Ho as (? & ? & _); [done|exact Hd|lia]) end.
  - match goal with H : stop_by_buyer_note_addr _ _ _ _ _ _ _ = _ |- _ => write_deal H Hw
      ltac:(fun Hd Ho => eapply (stop_inv consts Hc _ _ _ _ _ now') in Ho as (? & ? & _); [done|exact Hd|lia]) end.
  - match goal with H : seller_stop _ _ _ _ _ _ = _ |- _ => write_deal H Hw
      ltac:(fun Hd Ho => eapply (seller_stop_inv consts Hc _ _ _ _ _ now') in Ho as (? & ? & _); [done|exact Hd|lia]) end.
  - match goal with H : dispute _ _ _ _ _ = _ |- _ => write_deal H Hw
      ltac:(fun Hd Ho => repeat ok_step Ho; simplify_eq;
        match goal with E : dispute_deal _ _ _ _ = _ |- _ =>
          eapply dispute_inv in E; [exact E|exact Hd|lia|by match goal with K : clock_ok _ |- _ => destruct K end] end) end.
  - match goal with H : release_dispute _ _ _ _ = _ |- _ => write_deal H Hw
      ltac:(fun Hd Ho => unfold release_dispute_deal in Ho; repeat ok_step Ho; simplify_eq;
        match goal with E : resolve_mock_dispute _ _ _ _ = _ |- _ =>
          eapply (resolve_inv consts Hc) in E as (? & ? & _); [done|exact Hd] end) end.
  - match goal with H : resolve_dispute_timeout _ _ _ _ _ = _ |- _ => write_deal H Hw
      ltac:(fun Hd Ho => ok_step Ho; unfold resolve_timeout_deal in Ho; repeat ok_step Ho; simplify_eq;
        match goal with E : resolve_mock_dispute _ _ _ _ = _ |- _ =>
          eapply (resolve_inv consts Hc _ _ _ _ _ _ _ _ Hd) in E as (? & ? & _);
            split; [eapply deal_inv_later; [|eassumption]; lia|done] end) end.
  - eapply cleanup_step; eauto.
  - eapply order_step; eauto.
  - match goal with H : subscription_order _ _ _ _ _ _ = _ |- _ => unfold subscription_order in H;
      destruct (swept_state _ _ _ w) as [r1 w1] eqn:E; eapply swept_inv in E as [? _]; [|exact Hw|lia|lia];
      destruct r1; by simplify_eq end.
  - match goal with H : subscription_terminal_order _ _ _ _ _ _ = _ |- _ => unfold subscription_terminal_order in H;
      destruct (swept_state _ _ _ w) as [r1 w1] eqn:E; eapply swept_inv in E as [? _]; [|exact Hw|lia|lia];
      destruct r1; by simplify_eq end.
  - match goal with H : cancel_subscription_order _ _ _ _ _ _ = _ |- _ => unfold cancel_subscription_order in H;
      destruct (swept_state _ _ _ w) as [r1 w1] eqn:E; eapply swept_inv in E as [? (st & -> & ?)]; [|exact Hw|lia|lia];
      destruct (owned_order _ _ _ _); simplify_eq; [by apply store_inv, remove_order_inv|done] end.
Qed.
End Reach.
