(* ===== verification/MockOrders.v ===== *)
(** * MockOrders: subscription orders leave the book once

    A subscription buy order is placed under a fresh id, rests, and leaves the
    book once, by cancellation or expiry, with a terminal record of its refund.
    The record and the refund survive every later call. *)
From Stdlib Require Import Ascii.
From S2P Require Import Prelude Text Params Settle Address MarketTypes Machine Accounting.
From S2P Require Import Quote MockDeal MockDealInv MockDealOps MockMarket MockInvariant.
From S2P Require Import MockReach.

(** ** What is known of an order id *)
Inductive OrderStatus : Type :=
| NeverPlaced
| Resting (order : OrderBookOrder) (book : string)
| Exited (record : MockSubscriptionTerminal).

Definition status_of (st : MockState) (id : Z) : OrderStatus :=
  match subscription_terminal_orders st !! id, subscription_orders st !! id with
  | Some t, _ => Exited t
  | None, Some o => Resting o (default "" (subscription_order_books st !! id))
  | None, None => NeverPlaced
  end.
Definition order_in (w : ChainFiles) (id : Z) : OrderStatus :=
  from_option (fun st => status_of st id) NeverPlaced (sidecar w).

(** The life of one id, at the time of the call. *)
Inductive order_step (now : Z) : OrderStatus -> OrderStatus -> Prop :=
| order_stays x : order_step now x x
| order_placed o book r :
    check_subscription_buy_reserve (ob_escrow o) (ob_ticks o) (ob_price_per_tick o) = Ok r ->
    ob_timestamp o = now -> order_step now NeverPlaced (Resting o book)
| order_exits o book reason :
    (reason = Expired -> order_expired o now = true) ->
    order_step now (Resting o book) (Exited (mkSubTerminal o book reason (ob_escrow o))).

(** ** The invariant of the orders *)
Record orders_inv (st : MockState) : Prop := {
  oi_fresh : forall id, is_Some (subscription_orders st !! id) \/ is_Some (subscription_terminal_orders st !! id) ->
    id < next_subscription_order_id st;
  oi_apart : forall id, is_Some (subscription_orders st !! id) -> subscription_terminal_orders st !! id = None;
  oi_orders : forall id o, subscription_orders st !! id = Some o -> reload_order o = o;
  oi_records : forall id t, subscription_terminal_orders st !! id = Some t -> reload_terminal t = t;
  oi_books : forall id, is_Some (subscription_orders st !! id) -> is_Some (subscription_order_books st !! id)
}.
Definition orders_ok (w : ChainFiles) : Prop := from_option orders_inv True (sidecar w).

Lemma orders_inv_default : orders_inv MockState_default.
Proof. split; simpl; intros; repeat match goal with H : _ \/ _ |- _ => destruct H end; simplify_map_eq; by destruct H || done. Qed.

Lemma load_orders w t st : orders_ok w -> load_state w t = Ok st ->
  orders_inv st /\ forall id, status_of st id = order_in w id.
Proof.
  unfold orders_ok, load_state, order_in. destruct (sidecar w) as [s|]; simpl; intros Hi H.
  - ok_step H. by simplify_eq.
  - simplify_eq. split; [apply orders_inv_default|done].
Qed.

Lemma reload_orders st : orders_inv st ->
  subscription_orders (reload_state st) = subscription_orders st /\
  subscription_terminal_orders (reload_state st) = subscription_terminal_orders st.
Proof.
  intros []. unfold reload_state; simpl. split; apply map_eq; intros id; rewrite lookup_fmap.
  - destruct (subscription_orders st !! id) as [o|] eqn:E; simpl; [|done]. f_equal. eauto.
  - destruct (subscription_terminal_orders st !! id) as [o|] eqn:E; simpl; [|done]. f_equal. eauto.
Qed.

Lemma reload_orders_inv st : orders_inv st -> orders_inv (reload_state st).
Proof. intros Hi. destruct (reload_orders st Hi) as [E1 E2]. destruct Hi. by split; rewrite ?E1, ?E2. Qed.
Lemma reload_status st id : orders_inv st -> status_of (reload_state st) id = status_of st id.
Proof. intros Hi. destruct (reload_orders st Hi) as [E1 E2]. unfold status_of. by rewrite E1, E2. Qed.

Lemma store_orders w st : orders_inv st ->
  orders_ok (store_state w st) /\ forall id, order_in (store_state w st) id = status_of st id.
Proof.
  intros Hi. split; [by apply reload_orders_inv|]. intros id. unfold order_in; simpl. by apply reload_status.
Qed.

(** ** Calls that do not touch the orders *)
Definition same_orders (st st' : MockState) : Prop :=
  subscription_orders st' = subscription_orders st /\
  subscription_order_books st' = subscription_order_books st /\
  subscription_terminal_orders st' = subscription_terminal_orders st /\
  next_subscription_order_id st' = next_subscription_order_id st.

Lemma same_orders_inv st st' : same_orders st st' -> orders_inv st ->
  orders_inv st' /\ forall id, status_of st' id = status_of st id.
Proof.
  intros (E1 & E2 & E3 & E4) []. split; [by split; rewrite ?E1, ?E2, ?E3, ?E4|].
  intros id. unfold status_of. by rewrite E1, E2, E3.
Qed.

(** What one call does to the orders. *)
Definition orders_move (now : Z) (w w' : ChainFiles) : Prop :=
  orders_ok w' /\ forall id, order_step now (order_in w id) (order_in w' id).

Lemma orders_move_refl now w : orders_ok w -> orders_move now w w.
Proof. intros. split; [done|]. constructor. Qed.

Lemma writing_orders {A} now t0 (f : MockState -> outcome ChainError (A * option MockState)) w r w' :
  orders_ok w -> writing t0 f w = (r, w') ->
  (forall st a st', orders_inv st -> f st = Ok (a, Some st') ->
     orders_inv st' /\ forall id, order_step now (status_of st id) (status_of st' id)) ->
  orders_move now w w'.
Proof.
  intros Hw H Hf. unfold writing in H. destruct (load_state w t0) as [st| |] eqn:E; simplify_eq;
    try by apply orders_move_refl.
  destruct (load_orders w t0 st Hw E) as [Hi Hs].
  destruct (f st) as [[a [st'|]]| |] eqn:Ef; simplify_eq; try by apply orders_move_refl.
  destruct (Hf st a st' Hi Ef) as [Hi' Hst]. destruct (store_orders w st' Hi') as [H1 H2].
  split; [done|]. intros id. by rewrite H2, <- Hs.
Qed.
Lemma writing_same {A} now t0 (f : MockState -> outcome ChainError (A * option MockState)) w r w' :
  orders_ok w -> writing t0 f w = (r, w') ->
  (forall st a st', f st = Ok (a, Some st') -> same_orders st st') -> orders_move now w w'.
Proof.
  intros Hw H Hf. eapply writing_orders; [exact Hw|exact H|]. intros st a st' Hi Ef.
  destruct (same_orders_inv st st' (Hf _ _ _ Ef) Hi) as [? Hs]. split; [done|]. intros id. rewrite Hs. constructor.
Qed.
Lemma on_deal_same {A} tc st
    (f : StreamCell -> DealSubscription -> outcome ChainError (A * StreamCell * DealSubscription)) a st' :
  on_deal tc st f = Ok (a, Some st') -> same_orders st st'.
Proof. unfold on_deal. intros H. repeat ok_step H. by simplify_eq. Qed.

(** ** Placing *)
Lemma owner_stable note : note_typed note -> reload_note (owner_of note) = owner_of note.
Proof.
  intros Hn. pose proof (note_seller_canonical note Hn) as Hc. unfold canonical_seller in Hc.
  apply andb_true_iff in Hc as [Hl Hf]. apply Nat.eqb_eq in Hl.
  assert (half_ok (to_text (note_id_hex note))) as Hh.
  { split; [by rewrite to_text_length|]. apply Forall_forall. intros c Hin. rewrite forallb_forall in Hf.
    by apply Hf, list_elem_of_In. }
  unfold reload_note, owner_of. change (to_text (String.append "0:" (note_id_hex note)))
    with ("0"%char :: ":"%char :: to_text (note_id_hex note)).
  rewrite (reload_canonical_ok _ _ (parse_legacy _ Hh)). unfold legacy; simpl. by rewrite of_to_text.
Qed.

Lemma status_insert st id o book next id' :
  orders_inv st -> next_subscription_order_id st <= id ->
  let st' := set_subscription_order_books (<[id := book]> (subscription_order_books st))
               (set_subscription_orders (<[id := o]> (subscription_orders st))
                 (set_next_subscription_order_id next st)) in
  status_of st id = NeverPlaced /\
  status_of st' id' = if decide (id' = id) then Resting o book else status_of st id'.
Proof.
  intros [Hf _ _ _ _] Hle. simpl. assert (subscription_orders st !! id = None /\ subscription_terminal_orders st !! id = None) as [E1 E2].
  { split; apply eq_None_not_Some; intros Hs; [specialize (Hf id (or_introl Hs))|specialize (Hf id (or_intror Hs))]; lia. }
  unfold status_of; simpl. rewrite E1, E2. split; [done|].
  destruct (decide (id' = id)) as [->|Hne]; [by rewrite E2, !lookup_insert_eq|by rewrite !lookup_insert_ne by done].
Qed.

Lemma place_move book note p k e f d t0 t1 w r w' :
  note_typed note -> orders_ok w ->
  place_subscription_order book note p k e f d t0 t1 w = (r, w') -> orders_move t1 w w'.
Proof.
  intros Hn Hw H. unfold place_subscription_order in H.
  destruct (_ || _); [simplify_eq; by apply orders_move_refl|].
  destruct (check_subscription_buy_reserve e k p) as [res| |] eqn:Er; simpl in H;
    try (simplify_eq; by apply orders_move_refl).
  eapply writing_orders; [exact Hw|exact H|]. clear H. intros st a st' Hi Ef.
  cbv beta zeta in Ef. repeat ok_step Ef. unfold chain in *.
  repeat match goal with X : ok_or _ _ = Ok _ |- _ => apply ok_or_ok in X end. checked_facts. simplify_eq.
  set (id := Z.max (next_subscription_order_id st) 1) in *.
  match goal with |- context [<[id := ?x]> (subscription_orders st)] => set (o := x) end.
  destruct (status_insert st id o book (id + 1) id Hi ltac:(lia)) as [Hnew _]. split.
  - destruct Hi as [Hf Ha Ho Hr Hb]. split; simpl.
    + intros id' Hs. destruct (decide (id' = id)) as [->|Hne]; [lia|]. rewrite lookup_insert_ne in Hs by done.
      specialize (Hf id' Hs). lia.
    + intros id' Hs. destruct (decide (id' = id)) as [->|Hne]; [|rewrite lookup_insert_ne in Hs by done; auto].
      unfold status_of in Hnew. by destruct (subscription_terminal_orders st !! id).
    + intros id' o' Hs. destruct (decide (id' = id)) as [->|Hne]; [|rewrite lookup_insert_ne in Hs by done; eauto].
      rewrite lookup_insert_eq in Hs. injection Hs as <-. unfold reload_order, o; simpl. by rewrite owner_stable.
    + done.
    + intros id' Hs. destruct (decide (id' = id)) as [->|Hne]; [by rewrite lookup_insert_eq|].
      rewrite lookup_insert_ne in Hs by done. rewrite lookup_insert_ne by done. auto.
  - intros id'. destruct (status_insert st id o book (id + 1) id' Hi ltac:(lia)) as [_ ->].
    destruct (decide (id' = id)) as [->|]; [|constructor]. rewrite Hnew. by eapply order_placed.
Qed.

(** ** Leaving *)
Lemma remove_move now id reason st :
  orders_inv st ->
  (forall o, subscription_orders st !! id = Some o -> reason = Expired -> order_expired o now = true) ->
  let st' := remove_subscription_order_from_book id reason
               (from_option ob_escrow 0 (subscription_orders st !! id)) st in
  orders_inv st' /\ forall id', order_step now (status_of st id') (status_of st' id').
Proof.
  intros Hi Hx. pose proof Hi as [Hf Ha Ho Hr Hb]. unfold remove_subscription_order_from_book.
  destruct (subscription_orders st !! id) as [o|] eqn:E; [|split; [done|constructor]].
  pose proof (Ha id ltac:(by rewrite E)) as Ht. simpl. split.
  - split; simpl.
    + intros id' Hs. destruct (decide (id' = id)) as [->|Hne]; [apply Hf; left; by rewrite E|].
      rewrite lookup_delete_ne, lookup_insert_ne in Hs by done. auto.
    + intros id' Hs. destruct (decide (id' = id)) as [->|Hne]; [rewrite lookup_delete_eq in Hs; by destruct Hs|].
      rewrite lookup_delete_ne in Hs by done. rewrite lookup_insert_ne by done. auto.
    + intros id' o' [_ Hs]%lookup_delete_Some. eauto.
    + intros id' t Hs. destruct (decide (id' = id)) as [->|Hne]; [|rewrite lookup_insert_ne in Hs by done; eauto].
      rewrite lookup_insert_eq in Hs. simplify_eq. unfold reload_terminal; simpl. by rewrite (Ho id o E).
    + intros id' Hs. destruct (decide (id' = id)) as [->|Hne]; [rewrite lookup_delete_eq in Hs; by destruct Hs|].
      rewrite lookup_delete_ne in Hs by done. rewrite lookup_delete_ne by done. auto.
  - intros id'. unfold status_of; simpl. destruct (decide (id' = id)) as [->|Hne].
    + rewrite Ht, E, lookup_insert_eq. apply order_exits. eauto.
    + rewrite !lookup_delete_ne, !lookup_insert_ne by done. constructor.
Qed.

Lemma swept_move id t0 t1 w r w' : orders_ok w -> swept_state id t0 t1 w = (r, w') ->
  orders_move t1 w w' /\
  forall st, r = Ok st -> orders_inv st /\ (forall id', status_of st id' = order_in w' id') /\
    (w' = w \/ subscription_orders st !! id = None).
Proof.
  intros Hw H. unfold swept_state in H. destruct (load_state w t0) as [st| |] eqn:E; simplify_eq;
    try by (split; [by apply orders_move_refl|]).
  destruct (load_orders w t0 st Hw E) as [Hi Hs].
  destruct (from_option _ _ _) eqn:Ex; simplify_eq.
  - destruct (remove_move t1 id Expired st Hi) as [Hi' Hm].
    { intros o Eo _. by rewrite Eo in Ex. }
    destruct (store_orders w _ Hi') as [H1 H2]. split; [split; [done|]|].
    + intros id'. by rewrite H2, <- Hs.
    + intros st' [= <-]. split_and!; [done|by intros id'; rewrite H2|right].
      unfold remove_subscription_order_from_book. destruct (subscription_orders st !! id) eqn:Eo; [|done].
      simpl. apply lookup_delete_eq.
  - split; [by apply orders_move_refl|]. intros st' [= <-]. auto.
Qed.

Lemma cancel_move book id note t0 t1 w r w' : orders_ok w ->
  cancel_subscription_order book id note t0 t1 w = (r, w') -> orders_move t1 w w'.
Proof.
  intros Hw H. unfold cancel_subscription_order in H.
  destruct (swept_state id t0 t1 w) as [r1 w1] eqn:E. apply swept_move in E as [Hm1 Hst]; [|done].
  destruct r1 as [st| |]; simplify_eq; try done.
  destruct (Hst st eq_refl) as (Hi & Hs & Hcase). destruct (owned_order st book id note) as [o|] eqn:Eo;
    simplify_eq; [|done].
  assert (subscription_orders st !! id = Some o) as Eid.
  { unfold owned_order in Eo. destruct (subscription_orders st !! id); [|done].
    destruct (_ && _); by simplify_eq. }
  destruct Hcase as [->|]; [|congruence].
  pose proof (remove_move t1 id Cancelled st Hi ltac:(done)) as [Hi' Hm]. rewrite Eid in Hi', Hm. simpl in *.
  destruct (store_orders w _ Hi') as [H2 H3]. split; [done|]. intros id'. rewrite H3, <- Hs. apply Hm.
Qed.

(** ** Every call *)
Section Steps.
Context (consts : ProtocolConsts) (params : DobParams) (order_id_of : TokenContract -> Z).

(** A call behind [writing] that keeps the orders. *)
Ltac keeps_orders :=
  match goal with H : writing _ _ _ = _ |- _ => eapply writing_same; [eassumption|exact H|]; clear H end;
  let Hf := fresh "Hf" in intros ? ? ? Hf; cbv beta in Hf;
  repeat match type of Hf with (match require_mock_buyer_actor _ _ _ with _ => _ end) = _ => ok_step Hf
                             | (match require_mock_buyer_note_addr _ _ _ with _ => _ end) = _ => ok_step Hf end;
  try apply timeout_ok in Hf;
  first [eapply on_deal_same; exact Hf | cbv beta zeta in Hf; repeat ok_step Hf; by simplify_eq].

(** The same for a call whose state function is [f]. *)
Ltac by_state Hf f :=
  cbv beta in Hf; ok_step Hf; simplify_eq;
  match goal with E : context [f] |- _ => unfold f in E; cbv beta zeta in E; repeat ok_step E; by simplify_eq end.

Lemma market_step_orders now w now' w' :
  market_step consts params order_id_of (now, w) (now', w') -> orders_ok w -> orders_move now' w w'.
Proof.
  intros Hs Hw. inversion Hs; subst.
  - match goal with H : post_offer _ _ _ _ _ _ = _ |- _ => unfold post_offer in H;
      destruct (validate_mock_sell_offer consts offer); simplify_eq; try by apply orders_move_refl end.
    match goal with H : writing _ _ _ = _ |- _ => eapply writing_same; [eassumption|exact H|]; clear H end.
    intros st a1 st' Hf. by_state Hf post_offer_state.
  - match goal with H : expire_resting_sell_order _ _ _ _ _ _ = _ |- _ => unfold expire_resting_sell_order in H end. keeps_orders.
  - match goal with H : cancel_resting_sell_order _ _ _ _ _ = _ |- _ => unfold cancel_resting_sell_order in H end. keeps_orders.
  - match goal with H : place_buy_ticks_inner _ _ _ _ _ _ _ = _ |- _ =>
      eapply writing_same; [eassumption|exact H|]; clear H end.
    intros st a1 st' Hf. by_state Hf place_buy_state.
  - match goal with H : open_stream _ _ _ _ _ _ _ _ = _ |- _ => unfold open_stream in H;
      destruct (writing t0 _ w) as [r1 w1] eqn:E end.
    assert (orders_move now' w w1) as Hm.
    { eapply writing_same; [exact Hw|exact E|]. intros st a1 st' Hf.
      by_state Hf open_stream_state. }
    destruct r1; by simplify_eq.
  - match goal with H : accept_probe _ _ _ _ _ = _ |- _ => unfold accept_probe in H end. keeps_orders.
  - match goal with H : claim_tokens _ _ _ _ _ _ _ _ = _ |- _ => unfold claim_tokens in H end. keeps_orders.
  - match goal with H : finalize _ _ _ _ _ = _ |- _ => unfold finalize in H end. keeps_orders.
  - match goal with H : settle_week _ _ _ _ _ = _ |- _ => unfold settle_week in H end. keeps_orders.
  - match goal with H : stop _ _ _ _ _ _ _ = _ |- _ => unfold stop in H end. keeps_orders.
  - match goal with H : stop_by_buyer_note_addr _ _ _ _ _ _ _ = _ |- _ => unfold stop_by_buyer_note_addr in H end. keeps_orders.
  - match goal with H : seller_stop _ _ _ _ _ _ = _ |- _ => unfold seller_stop in H end. keeps_orders.
  - match goal with H : dispute _ _ _ _ _ = _ |- _ => unfold dispute in H end. keeps_orders.
  - match goal with H : release_dispute _ _ _ _ = _ |- _ => unfold release_dispute in H end. keeps_orders.
  - match goal with H : resolve_dispute_timeout _ _ _ _ _ = _ |- _ => unfold resolve_dispute_timeout in H end. keeps_orders.
  - match goal with H : cleanup_unopened _ _ _ _ _ = _ |- _ => unfold cleanup_unopened in H end. keeps_orders.
  - eapply place_move; eauto.
  - match goal with H : subscription_order _ _ _ _ _ _ = _ |- _ => unfold subscription_order in H;
      destruct (swept_state _ _ _ w) as [r1 w1] eqn:E; apply swept_move in E as [? _]; [|done]; destruct r1; by simplify_eq end.
  - match goal with H : subscription_terminal_order _ _ _ _ _ _ = _ |- _ => unfold subscription_terminal_order in H;
      destruct (swept_state _ _ _ w) as [r1 w1] eqn:E; apply swept_move in E as [? _]; [|done]; destruct r1; by simplify_eq end.
  - eapply cancel_move; eauto.
Qed.
End Steps.
