(* ===== verification/MockLife.v ===== *)
(** * MockLife: the lifecycle of a TokenContract, and its refinement

    The abstract machine of one contract: idle, listed, funded, live, ended,
    with the data that identifies it in each state.  Every call of the backend
    moves every contract by one step of this machine: a contract is sold once
    to one buyer, keeps its seller for ever, may fall back only before it is
    opened, and is immutable once ended. *)
From S2P Require Import Prelude Text Params Settle Address MarketTypes Machine Accounting.
From S2P Require Import MockDeal MockDealInv MockDealOps MockMarket MockInvariant MockReach.

Inductive Life : Type :=
| Idle (seller : option string)
| Listed (seller : string) (offer : SellOffer)
| Funded (seller : string) (m : Match) (since : Z)
| Live (seller : string) (m : Match) (c : StreamCell) (s : DealSubscription)
| Ended (seller : string) (m : Match) (c : StreamCell) (s : DealSubscription).

Inductive life_step (now : Z) : Life -> Life -> Prop :=
| life_stay l : life_step now l l
| life_post seller o prev : default seller prev = seller -> life_step now (Idle prev) (Listed seller o)
| life_delist seller o : life_step now (Listed seller o) (Idle (Some seller))
| life_fill seller o m :
    m_price_per_tick m = so_price_per_tick o -> m_token_contract m = so_token_contract o ->
    life_step now (Listed seller o) (Funded seller m now)
| life_cleanup seller m since : since + MATCH_OPEN_TIMEOUT_SECS <= now ->
    life_step now (Funded seller m since) (Idle (Some seller))
| life_open seller m since c s :
    c_buyer_pubkey c = m_buyer_pubkey m -> cprice c = m_price_per_tick m -> c_probe_time c = now ->
    life_step now (Funded seller m since) (Live seller m c s)
| life_run seller m c s c' s' : deal_frame c s c' s' -> total c' = total c ->
    life_step now (Live seller m c s) (Live seller m c' s')
| life_end seller m c s c' s' : deal_frame c s c' s' ->
    c_seller_received c' + c_buyer_refunded c' + c_burned c' = total c ->
    life_step now (Live seller m c s) (Ended seller m c' s').

(** The lifecycle state of a slot. *)
Definition life_of (sl : Slot) : Life :=
  match sl_match sl, sl_seller sl with
  | Some m, Some seller =>
      match sl_cell sl, sl_sub sl with
      | Some c, Some s => if c_closed c then Ended seller m c s else Live seller m c s
      | _, _ => Funded seller m (default 0 (sl_created sl))
      end
  | _, seller =>
      match sl_offer sl, seller with
      | Some o, Some seller => Listed seller o
      | _, _ => Idle seller
      end
  end.
Definition life_in (w : ChainFiles) (tc : TokenContract) : Life :=
  from_option (fun st => life_of (slot_of st tc)) (Idle None) (sidecar w).

Section Life.
Context (consts : ProtocolConsts) (Hc : consts_typed consts).
Context (params : DobParams) (order_id_of : TokenContract -> Z).

Definition life_moves (st : MockState) (now : Z) (st' : MockState) : Prop :=
  forall tc, life_step now (life_of (slot_of st tc)) (life_of (slot_of st' tc)).

Lemma life_moves_at st now st' tc :
  (forall tc', tc' <> tc -> slot_of st' tc' = slot_of st tc') ->
  life_step now (life_of (slot_of st tc)) (life_of (slot_of st' tc)) -> life_moves st now st'.
Proof.
  intros Hfr Hs tc'. destruct (decide (tc' = tc)) as [->|Hne]; [done|].
  rewrite Hfr by done. constructor.
Qed.

Lemma load_life w now t : files_inv consts w now -> now <= t ->
  exists st, load_state w t = Ok st /\ market_inv consts st t /\
    forall tc, life_in w tc = life_of (slot_of st tc).
Proof.
  intros Hw Ht. destruct (load_ok consts w now t Hw Ht) as (st & Hl & Hi). exists st.
  split_and!; try done. unfold load_state, life_in in *. destruct (sidecar w); simpl.
  - ok_step Hl. by simplify_eq.
  - by simplify_eq.
Qed.

Lemma writing_life {A} t0 (f : MockState -> outcome ChainError (A * option MockState)) w r w' now now' :
  files_inv consts w now -> now <= t0 ->
  (forall st a st', market_inv consts st t0 -> f st = Ok (a, Some st') ->
     market_inv consts st' now' /\ life_moves st now' st') ->
  writing t0 f w = (r, w') -> forall tc, life_step now' (life_in w tc) (life_in w' tc).
Proof.
  intros Hw H1 Hf H tc. destruct (load_life w now t0 Hw H1) as (st & Hl & Hi & Hli).
  unfold writing in H. rewrite Hl in H. destruct (f st) as [[a [st'|]]| |] eqn:E; simplify_eq; try constructor.
  destruct (Hf _ _ _ Hi E) as [Hi' Hm]. rewrite Hli. unfold life_in; simpl.
  rewrite (slot_reload consts st' now' tc Hi'). apply Hm.
Qed.

Lemma on_deal_life {A} tc st (f : StreamCell -> DealSubscription -> outcome ChainError (A * StreamCell * DealSubscription)) now now' a st' :
  market_inv consts st now ->
  (forall c s r c' s', deal_inv consts c s now -> f c s = Ok (r, c', s') ->
     deal_inv consts c' s' now' /\ deal_frame c s c' s' /\ c_closed c = false) ->
  on_deal tc st f = Ok (a, Some st') -> life_moves st now' st'.
Proof.
  intros Hi Hf H. unfold on_deal, chain in H. ok_step H. ok_step H. ok_step H.
  destruct a2 as [[r c'] s']. apply ok_or_ok in E, E0. rename a0 into c, a1 into s.
  simplify_eq. pose proof (Hi tc) as Hs. unfold slot_of in Hs. rewrite E, E0 in Hs.
  inversion Hs as [| | |o k s0 sel m cr c0 Hfu Hsel Hd Hcell]; subst.
  destruct (Hf c s a c' s' Hd E1) as (Hd' & Hfr & Ho).
  destruct (deal_inv_total consts Hc _ _ _ Hd) as [_ Ht].
  destruct (deal_inv_total consts Hc _ _ _ Hd') as [_ Ht'].
  rewrite (deal_value_frame consts _ _ _ _ Hfr), <- Ht in Ht'.
  apply (life_moves_at _ _ _ tc).
  - intros tc' Hne; unfold slot_of; simpl. by rewrite !lookup_insert_ne by done.
  - unfold slot_of, life_of; simpl. rewrite !lookup_insert_eq, E, E0.
    repeat match goal with X : Some _ = _ !! tc |- _ => rewrite <- X; clear X
                         | X : None = _ !! tc |- _ => rewrite <- X; clear X end.
    rewrite Ho. destruct (c_closed c') eqn:Ho'; constructor; try done.
    destruct Hd' as (_ & Hp & _). unfold phase in Hp. rewrite Ho' in Hp. destruct Hp.
    unfold total in *. lia.
Qed.

(** [files_inv] of the result is [market_step_inv]'s; here the moves. *)
Ltac life_deal H Hw lem :=
  eapply (writing_life _ _ _ _ _ _ _) in H; [exact H|exact Hw|lia|];
  let st := fresh "st" in let Hst := fresh "Hst" in let Hf := fresh "Hf" in
  intros st ? ? Hst Hf;
  repeat match type of Hf with (match require_mock_buyer_actor _ _ _ with _ => _ end) = _ => ok_step Hf
                             | (match require_mock_buyer_note_addr _ _ _ with _ => _ end) = _ => ok_step Hf end;
  try apply (timeout_ok consts) in Hf;
  split;
  [ eapply (on_deal_inv consts) in Hf; [exact Hf| |exact Hst|]; [lia|];
    let Hd := fresh "Hd" in let Ho := fresh "Ho" in
    intros ? ? ? ? ? Hd Ho; destruct (lem _ _ _ _ _ Hd Ho) as (? & ? & _); done
  | eapply on_deal_life in Hf; [exact Hf|exact Hst|exact lem] ].

Lemma accept_moves t0 t1 : t0 <= t1 -> forall c s (r : unit) c' s', deal_inv consts c s t0 ->
  no_result (accept_probe_deal consts c s t1) = Ok (r, c', s') ->
  deal_inv consts c' s' t1 /\ deal_frame c s c' s' /\ c_closed c = false.
Proof.
  intros Ht c s r c' s' Hd H. apply no_result_inv in H. assert (c_closed c = false) as Ho.
  { unfold accept_probe_deal in H. ok_step H. by destruct (c_closed c). }
  eapply accept_probe_inv in H as [? ?]; eauto.
Qed.
Lemma finalize_moves t0 t1 : t0 <= t1 -> forall c s (r : unit) c' s', deal_inv consts c s t0 ->
  no_result (finalize_deal consts c s t1) = Ok (r, c', s') ->
  deal_inv consts c' s' t1 /\ deal_frame c s c' s' /\ c_closed c = false.
Proof.
  intros Ht c s r c' s' Hd H. apply no_result_inv in H. assert (c_closed c = false) as Ho.
  { unfold finalize_deal in H. ok_step H. by destruct (c_closed c). }
  eapply (finalize_inv consts Hc) in H as [? ?]; eauto.
Qed.
Lemma settle_week_moves t0 t1 : t0 <= t1 -> forall c s (r : unit) c' s', deal_inv consts c s t0 ->
  no_result (settle_week_deal consts c s t1) = Ok (r, c', s') ->
  deal_inv consts c' s' t1 /\ deal_frame c s c' s' /\ c_closed c = false.
Proof.
  intros Ht c s r c' s' Hd H. apply no_result_inv in H. assert (c_closed c = false) as Ho.
  { unfold settle_week_deal in H. ok_step H. ok_step H. apply negb_false_iff in E.
    by apply charge_elapsed_guard in E0 as [? _]. }
  eapply (settle_week_inv consts Hc) in H as [? ?]; eauto.
Qed.
Lemma stop_moves t0 t1 t2 now : t0 <= now -> forall c s (r : Settlement) c' s', deal_inv consts c s t0 ->
  stop_deal consts c s t1 t2 = Ok (r, c', s') ->
  deal_inv consts c' s' now /\ deal_frame c s c' s' /\ c_closed c = false.
Proof.
  intros Ht c s r c' s' Hd H. assert (c_closed c = false) as Ho.
  { unfold stop_deal in H. by ok_step H. }
  eapply (stop_inv consts Hc) in H as (? & ? & _); eauto.
Qed.
Lemma seller_stop_moves t0 t1 t2 now : t0 <= now -> forall c s (r : Settlement) c' s', deal_inv consts c s t0 ->
  seller_stop_deal consts c s t1 t2 = Ok (r, c', s') ->
  deal_inv consts c' s' now /\ deal_frame c s c' s' /\ c_closed c = false.
Proof.
  intros Ht c s r c' s' Hd H. assert (c_closed c = false) as Ho.
  { unfold seller_stop_deal in H. by ok_step H. }
  eapply (seller_stop_inv consts Hc) in H as (? & ? & _); eauto.
Qed.
Lemma dispute_moves tc t0 t1 : t0 <= t1 -> 0 < t1 -> forall c s (r : Settlement) c' s', deal_inv consts c s t0 ->
  (let* ' (x, c) := dispute_deal tc c s t1 in Ok (x, c, s)) = Ok (r, c', s') ->
  deal_inv consts c' s' t1 /\ deal_frame c s c' s' /\ c_closed c = false.
Proof.
  intros Ht Hp c s r c' s' Hd H. repeat ok_step H. simplify_eq. assert (c_closed c = false) as Ho.
  { unfold dispute_deal in E. ok_step E. by destruct (c_closed c). }
  eapply dispute_inv in E as [? ?]; eauto.
Qed.
Lemma release_moves t0 : forall c s (r : Settlement) c' s', deal_inv consts c s t0 ->
  release_dispute_deal consts c s = Ok (r, c', s') ->
  deal_inv consts c' s' t0 /\ deal_frame c s c' s' /\ c_closed c = false.
Proof.
  intros c s r c' s' Hd H. unfold release_dispute_deal in H. repeat ok_step H. simplify_eq.
  eapply (resolve_inv consts Hc) in E as (? & ? & _ & _ & ?); eauto.
Qed.
Lemma timeout_moves t0 t1 : t0 <= t1 -> forall c s (r : Settlement) c' s', deal_inv consts c s t0 ->
  (let* _ := timeout_due consts c t1 in resolve_timeout_deal consts c s) = Ok (r, c', s') ->
  deal_inv consts c' s' t1 /\ deal_frame c s c' s' /\ c_closed c = false.
Proof.
  intros Ht c s r c' s' Hd H. ok_step H. unfold resolve_timeout_deal in H. repeat ok_step H. simplify_eq.
  match goal with E : resolve_mock_dispute _ _ _ _ = _ |- _ =>
    eapply (resolve_inv consts Hc _ _ _ _ _ _ _ _ Hd) in E as (? & ? & _ & _ & ?) end.
  split_and!; try done. eapply deal_inv_later; [|eassumption]; lia.
Qed.

Lemma claim_moves cum t0 t1 t2 : t0 <= t2 -> 0 < t2 -> forall c s (r : unit) c' s', deal_inv consts c s t0 ->
  (let* r := claim_deal consts c s cum t1 t2 in
   match r with Some (c, s) => Ok (tt, c, s) | None => Err (Chain "") end) = Ok (r, c', s') ->
  deal_inv consts c' s' t2 /\ deal_frame c s c' s' /\ c_closed c = false.
Proof.
  intros Ht Hp c s r c' s' Hd H. repeat ok_step H. simplify_eq. assert (c_closed c = false) as Ho.
  { unfold claim_deal in E. ok_step E. by destruct (c_closed c). }
  eapply claim_inv in E as (? & ? & _); eauto.
Qed.

(** [claim_tokens] stores what [on_deal] would. *)
Lemma claim_on_deal tc note cum t1 t2 st a st' :
  (let* _ := require_mock_seller_actor st tc note in
   let* cell := ok_or (streams st !! tc) (NoStream tc) in
   let* sub := chain (deal_subscriptions st !! tc) "claim_tokens: has no persisted deal shape" in
   let* r := claim_deal consts cell sub cum t1 t2 in
   match r with
   | None => Ok (tt, None)
   | Some (cell, sub) =>
       Ok (tt, Some (set_deal_subscriptions (<[tc := sub]> (deal_subscriptions st))
                       (set_streams (<[tc := cell]> (streams st)) st)))
   end) = Ok (a, Some st') ->
  on_deal tc st (fun c s => let* r := claim_deal consts c s cum t1 t2 in
    match r with Some (c, s) => Ok (tt, c, s) | None => Err (Chain "") end) = Ok (tt, Some st').
Proof.
  intros Hf. ok_step Hf. unfold on_deal. do 3 ok_step Hf. destruct a3 as [[c' s']|]; simplify_eq.
  unfold chain in *. apply ok_or_ok in E1. rewrite E1. simpl. by rewrite E2.
Qed.

Lemma post_moves offer note t1 st st' now now' :
  market_inv consts st now -> post_offer_state offer note t1 st = Ok st' -> life_moves st now' st'.
Proof.
  intros Hi H. unfold post_offer_state in H. repeat ok_step H. injection H as <-.
  set (tc := so_token_contract offer) in *.
  apply orb_false_iff in E0 as [E0 _]. apply orb_false_iff in E0 as [E0 _].
  apply orb_false_iff in E0 as [E0 _]. apply orb_false_iff in E0 as [K1 K2].
  apply is_key_false in E, K1. apply (life_moves_at _ _ _ tc).
  - intros tc' Hne. unfold slot_of; simpl. by rewrite lookup_insert_ne, or_insert_lookup_ne by done.
  - unfold slot_of, life_of; simpl. rewrite lookup_insert_eq, or_insert_lookup, K1, E.
    destruct (offer_sellers st !! tc) as [sel|] eqn:Es; simpl; by constructor.
Qed.

Lemma delist_moves tc st st' now now' :
  market_inv consts st now -> is_key tc (offers st) = true ->
  (forall tc', slot_of st' tc' = slot_of (set_offers (delete tc (offers st)) st) tc') ->
  life_moves st now' st'.
Proof.
  intros Hi Hk Hsl. apply is_key_true in Hk as [o Ho]. apply (life_moves_at _ _ _ tc).
  - intros tc' Hne. rewrite Hsl. unfold slot_of; simpl. by rewrite lookup_delete_ne by done.
  - rewrite Hsl. specialize (Hi tc). unfold slot_of in *. simpl. rewrite lookup_delete_eq, Ho in *.
    inversion Hi as [|o' sel| |]; subst. unfold life_of; simpl. constructor.
Qed.

Lemma buy_moves tc note ticks t1 t2 st st' now :
  t2 <= I64_MAX -> market_inv consts st now ->
  place_buy_state tc note ticks t1 t2 st = Ok st' -> life_moves st t2 st'.
Proof.
  intros Ht Hi H. unfold place_buy_state in H. do 5 ok_step H. injection H as <-.
  apply is_key_false in E. apply ok_or_ok in E0. apply (life_moves_at _ _ _ tc).
  - intros tc' Hne. unfold slot_of; simpl.
    repeat first [rewrite lookup_insert_ne by done | rewrite lookup_delete_ne by done]. done.
  - specialize (Hi tc). unfold slot_of in *. simpl.
    rewrite !lookup_insert_eq, lookup_delete_eq. rewrite E0 in *.
    inversion Hi as [|o' sel (On & _)| |]; subst. unfold life_of; simpl. unfold as_i64.
    rewrite (proj2 (Z.leb_le _ _)) by lia.
    by constructor.
Qed.

Lemma open_moves tc note t1 st st' now :
  market_inv consts st now -> open_stream_state consts params tc note t1 st = Ok st' ->
  life_moves st t1 st'.
Proof.
  intros Hi H. unfold open_stream_state, chain in H. do 5 ok_step H.
  injection H as <-. apply ok_or_ok in E1, E2. apply (life_moves_at _ _ _ tc).
  - intros tc' Hne. unfold slot_of; simpl. by rewrite lookup_insert_ne by done.
  - specialize (Hi tc). unfold slot_of in *. simpl. rewrite lookup_insert_eq. rewrite E0, E1, E2 in *.
    inversion Hi as [| |o k s sel m cr Hf|]; subst. unfold life_of; simpl.
    unfold open_cell, chain in E3. repeat ok_step E3. simplify_eq. by constructor.
Qed.

Lemma delist_keeps tc st st' t0 t1 :
  t0 <= t1 -> market_inv consts st t0 -> is_key tc (offers st) = true ->
  (forall tc', slot_of st' tc' = slot_of (set_offers (delete tc (offers st)) st) tc') ->
  market_inv consts st' t1 /\ life_moves st t1 st'.
Proof.
  intros Ht Hi Hk Hsl. split; [|by eapply (delist_moves tc)]. apply is_key_true in Hk.
  eapply slots_only; [exact Hsl|]. eapply (market_inv_update consts st _ tc t0 t1); [lia|done| |].
  - intros tc' Hne. unfold slot_of; simpl. by rewrite lookup_delete_ne by done.
  - eapply slot_inv_later; [|by apply delist_inv]. lia.
Qed.

Lemma unopened_since st tc deal : mock_deal_state consts st tc = Ok (Some deal) ->
  streams st !! tc = None -> ds_funded_time deal = match_created_at st !! tc.
Proof.
  intros H Hn. unfold mock_deal_state, mock_funded_time, chain in H. rewrite Hn in H.
  destruct (is_key tc (matches st)); [|done].
  destruct (match_created_at st !! tc); simpl in *; [|done]. destruct (_ <? 0); [done|].
  repeat ok_step H. by simplify_eq.
Qed.

Lemma cleanup_moves tc t0 t1 w r w' now tc' :
  now <= t0 <= t1 -> files_inv consts w now -> cleanup_unopened consts tc t0 t1 w = (r, w') ->
  life_step t1 (life_in w tc') (life_in w' tc').
Proof.
  intros Ht Hw H. unfold cleanup_unopened in H.
  eapply (writing_life _ _ _ _ _ now t1) in H; [exact H|exact Hw|lia|].
  intros st a st' Hst Hf. do 7 ok_step Hf. repeat ok_step Hf. injection Hf as _ <-.
  apply negb_false_iff in E0 as Hm. split.
  { eapply (market_inv_later consts _ t0); [lia|]. eapply (cleanup_inv consts tc st); eauto. }
  apply is_key_true in Hm as [m Hm]. apply is_key_false in E. unfold chain in *. checked_facts. subst.
  apply unopened_since in E1; [|done]. apply (life_moves_at _ _ _ tc).
  - intros x Hne. unfold slot_of; simpl. by rewrite !lookup_delete_ne by done.
  - specialize (Hst tc). unfold slot_of in *. simpl. rewrite !lookup_delete_eq. rewrite E, Hm in *.
    inversion Hst as [| |o k s sel m' cr Hf|]; subst. unfold life_of; simpl.
    constructor. match goal with X : Some cr = match_created_at st !! tc |- _ => rewrite <- X in * end.
    assert (cr = a2) by congruence. lia.
Qed.

Lemma remove_order_slot id reason refunded st tc :
  slot_of (remove_subscription_order_from_book id reason refunded st) tc = slot_of st tc.
Proof. unfold remove_subscription_order_from_book. by destruct (subscription_orders st !! id). Qed.

(** A sweep touches no slot: neither in the file nor in the state it returns. *)
Lemma swept_slots id t0 t1 w st w' now tc :
  files_inv consts w now -> now <= t0 -> t0 <= t1 -> swept_state id t0 t1 w = (Ok st, w') ->
  life_of (slot_of st tc) = life_in w tc.
Proof.
  intros Hw H1 H2 H. destruct (load_life w now t0 Hw H1) as (st0 & Hl & Hi & Hli).
  unfold swept_state in H. rewrite Hl in H. rewrite Hli.
  destruct (from_option _ _ _); simplify_eq; [by rewrite remove_order_slot|done].
Qed.
Lemma swept_life id t0 t1 w r w' now tc :
  files_inv consts w now -> now <= t0 -> t0 <= t1 -> swept_state id t0 t1 w = (r, w') ->
  life_in w' tc = life_in w tc.
Proof.
  intros Hw H1 H2 H. destruct (load_life w now t0 Hw H1) as (st0 & Hl & Hi & Hli).
  unfold swept_state in H. rewrite Hl in H. destruct (from_option _ _ _); simplify_eq; [|done].
  unfold life_in at 1; simpl. rewrite (slot_reload consts _ t0) by (by apply remove_order_inv).
  by rewrite remove_order_slot, Hli.
Qed.

(** One call, one step of every contract. *)
Lemma market_step_life (now now' : Z) (w w' : ChainFiles) (tc0 : TokenContract) :
  files_inv consts w now -> market_step consts params order_id_of (now, w) (now', w') ->
  files_inv consts w' now' /\ life_step now' (life_in w tc0) (life_in w' tc0).
Proof.
  intros Hw Hs. split; [by eapply market_step_inv|].
  inversion Hs; subst;
    repeat match goal with K : clock_ok _ |- _ => destruct K end.
  - match goal with H : post_offer _ _ _ _ _ _ = _ |- _ => unfold post_offer in H;
      destruct (validate_mock_sell_offer consts offer) as [[]| |] eqn:E; simplify_eq;
      [eapply (writing_life _ _ _ _ _ now) in H; [exact H|exact Hw|lia|]|constructor|constructor] end.
    intros st a st' Hst Hf. repeat ok_step Hf. simplify_eq. split; [|by eapply post_moves].
    eapply (market_inv_later consts _ t0); [lia|]. by eapply post_offer_inv.
  - match goal with H : expire_resting_sell_order _ _ _ _ _ _ = _ |- _ =>
      eapply (writing_life _ _ _ _ _ now) in H; [exact H|exact Hw|lia|] end.
    intros st a st' Hst Hf. cbv zeta in Hf. repeat ok_step Hf; simplify_eq.
    apply orb_false_iff in E as [E _].
    apply negb_false_iff in E. eapply (delist_keeps tc); [|exact Hst|done|done]. lia.
  - match goal with H : cancel_resting_sell_order _ _ _ _ _ = _ |- _ =>
      eapply (writing_life _ _ _ _ _ now) in H; [exact H|exact Hw|lia|] end.
    intros st a st' Hst Hf. repeat ok_step Hf; simplify_eq. apply orb_false_iff in E as [_ E].
    apply negb_false_iff in E. eapply (delist_keeps tc); [|exact Hst|done|done]. lia.
  - match goal with H : place_buy_ticks_inner _ _ _ _ _ _ _ = _ |- _ =>
      eapply (writing_life _ _ _ _ _ now) in H; [exact H|exact Hw|lia|] end.
    intros st a st' Hst Hf. repeat ok_step Hf; simplify_eq. split; [|by eapply buy_moves].
    eapply (place_buy_inv consts) in E; eauto; lia.
  - match goal with H : open_stream _ _ _ _ _ _ _ _ = _ |- _ => unfold open_stream in H;
      destruct (writing t0 _ w) as [r1 w1] eqn:E; assert (life_in w' tc0 = life_in w1 tc0) as ->
        by (destruct r1; by simplify_eq);
      eapply (writing_life _ _ _ _ _ now) in E; [exact E|exact Hw|lia|] end.
    intros st a st' Hst Hf. repeat ok_step Hf; simplify_eq. split; [|by eapply open_moves].
    eapply (open_stream_inv consts) in E0; [exact E0| | |exact Hst]; lia.
  - match goal with H : accept_probe _ _ _ _ _ = _ |- _ => life_deal H Hw (accept_moves t0 now' ltac:(lia)) end.
  - match goal with H : claim_tokens _ _ _ _ _ _ _ _ = _ |- _ =>
      eapply (writing_life _ _ _ _ _ now) in H; [exact H|exact Hw|lia|] end.
    intros st a st' Hst Hf. apply claim_on_deal in Hf. split.
    + eapply (on_deal_inv consts) in Hf; [exact Hf| |exact Hst|]; [lia|].
      intros ? ? ? ? ? Hd Ho. destruct (claim_moves cum t0 t1 now' ltac:(lia) ltac:(lia) _ _ _ _ _ Hd Ho) as (? & ? & _). done.
    + eapply on_deal_life in Hf; [exact Hf|exact Hst|]. apply claim_moves; lia.
  - match goal with H : finalize _ _ _ _ _ = _ |- _ => life_deal H Hw (finalize_moves t0 now' ltac:(lia)) end.
  - match goal with H : settle_week _ _ _ _ _ = _ |- _ => life_deal H Hw (settle_week_moves t0 now' ltac:(lia)) end.
  - match goal with H : stop _ _ _ _ _ _ _ = _ |- _ => life_deal H Hw (stop_moves t0 t1 now' now' ltac:(lia)) end.
  - match goal with H : stop_by_buyer_note_addr _ _ _ _ _ _ _ = _ |- _ => life_deal H Hw (stop_moves t0 t1 now' now' ltac:(lia)) end.
  - match goal with H : seller_stop _ _ _ _ _ _ = _ |- _ => life_deal H Hw (seller_stop_moves t0 t1 now' now' ltac:(lia)) end.
  - match goal with H : dispute _ _ _ _ _ = _ |- _ => life_deal H Hw (dispute_moves tc t0 now' ltac:(lia) ltac:(lia)) end.
  - match goal with H : release_dispute _ _ _ _ = _ |- _ => life_deal H Hw (release_moves now') end.
  - match goal with H : resolve_dispute_timeout _ _ _ _ _ = _ |- _ => life_deal H Hw (timeout_moves t0 now' ltac:(lia)) end.
  - eapply cleanup_moves; eauto.
  - match goal with H : place_subscription_order _ _ _ _ _ _ _ _ _ _ = _ |- _ =>
      unfold place_subscription_order in H; destruct (_ || _); [simplify_eq; constructor|];
      destruct (map_err _ _); try (simplify_eq; constructor);
      eapply (writing_life _ _ _ _ _ now) in H; [exact H|exact Hw|lia|] end.
    intros st x st' Hst Hf. repeat ok_step Hf. simplify_eq. split; [|intros ?; constructor].
    eapply (market_inv_later consts _ t0); [lia|]. by eapply slots_only; [|exact Hst].
  - match goal with H : subscription_order _ _ _ _ _ _ = _ |- _ => unfold subscription_order in H;
      destruct (swept_state _ _ _ w) as [r1 w1] eqn:E; eapply swept_life in E; [|exact Hw|lia|lia];
      destruct r1; simplify_eq; rewrite E; constructor end.
  - match goal with H : subscription_terminal_order _ _ _ _ _ _ = _ |- _ => unfold subscription_terminal_order in H;
      destruct (swept_state _ _ _ w) as [r1 w1] eqn:E; eapply swept_life in E; [|exact Hw|lia|lia];
      destruct r1; simplify_eq; rewrite E; constructor end.
  - match goal with H : cancel_subscription_order _ _ _ _ _ _ = _ |- _ => unfold cancel_subscription_order in H;
      destruct (swept_state _ _ _ w) as [r1 w1] eqn:E end.
    unshelve epose proof (swept_life _ _ _ _ _ _ _ tc0 Hw _ _ E) as Hl; [lia..|].
    unshelve epose proof (swept_inv consts _ _ _ _ _ _ _ Hw _ _ E) as [_ (st & -> & Hi)]; [lia..|].
    unshelve epose proof (swept_slots _ _ _ _ _ _ _ tc0 Hw _ _ E) as Hsl; [lia..|].
    destruct (owned_order st book id note); simplify_eq; [|rewrite Hl; constructor].
    unfold life_in at 2; simpl. rewrite (slot_reload consts _ now') by (by apply remove_order_inv).
    rewrite remove_order_slot, Hsl. constructor.
Qed.
End Life.
