(* ===== verification/MockSafety.v ===== *)
(** * MockSafety: what every run of the offline market guarantees

    The theorems about runs from an empty file, and a sample run on which each
    of them is evaluated. *)
From S2P Require Import Prelude Text Params Settle Address MarketTypes Machine Conservation.
From S2P Require Import Accounting Quote MockDeal MockDealInv MockDealOps MockDealLive MarketTypes.
From S2P Require Import MockMarket MockInvariant MockReach MockOrders MockLife MockDealLive.

(** ** Runs *)
Section Runs.
Context (consts : ProtocolConsts) (Hc : consts_typed consts).
Context (params : DobParams) (order_id_of : TokenContract -> Z).

(** The market at time [now] has the files [w], started empty. *)
Definition reachable (now : Z) (w : ChainFiles) : Prop :=
  exists start, rtc (market_step consts params order_id_of) (start, empty_files) (now, w).
Definition runs (now : Z) (w : ChainFiles) (now' : Z) (w' : ChainFiles) : Prop :=
  rtc (market_step consts params order_id_of) (now, w) (now', w').

Lemma runs_inv now w now' w' : runs now w now' w' -> files_inv consts w now ->
  files_inv consts w' now' /\ now <= now'.
Proof.
  unfold runs. remember (now, w) as x eqn:Ex. remember (now', w') as y eqn:Ey. intros H.
  revert now w Ex. induction H as [x|x z y Hs Hr IH]; intros now w -> Hw; simplify_eq; [split; [done|lia]|].
  destruct z as [t v]. destruct (market_step_inv _ Hc _ _ _ _ _ _ Hs Hw) as [Hv Ht].
  destruct (IH eq_refl t v eq_refl Hv). split; [done|lia].
Qed.

Lemma reachable_inv now w : reachable now w -> files_inv consts w now.
Proof. intros [start H]. by eapply runs_inv in H as [? _]. Qed.

(** C4: no sequence of calls on a forward clock, by 32-byte notes and over contracts
    named the way a store leaves names, can leave a sidecar that a later load refuses:
    every such run from an empty file keeps the whole persisted state valid, at every
    later time.  A contract posted under another spelling of its name does leave such a
    file, see [public_name_bricks_the_file]. *)
Theorem reachable_files_load (now t : Z) (w : ChainFiles) :
  reachable now w -> now <= t -> exists st, load_state w t = Ok st.
Proof.
  intros Hr Ht. destruct (load_ok consts w now t (reachable_inv _ _ Hr) Ht) as (st & ? & _). by exists st.
Qed.

(** C2: every call of the market moves every TokenContract by one step of the
    lifecycle: idle, listed, funded, live, ended.  So a contract keeps its first
    seller for ever, a listing is filled by one buyer at the listed price, a
    funded deal falls back only after the open timeout, a live deal conserves
    its money in every call and pays all of it out when it ends, and an ended
    deal never changes again, whoever calls what. *)
Theorem market_refines_lifecycle (now now' : Z) (w w' : ChainFiles) (tc : TokenContract) :
  reachable now w -> market_step consts params order_id_of (now, w) (now', w') ->
  life_step now' (life_in w tc) (life_in w' tc).
Proof. intros Hr Hs. by eapply market_step_life; [|eapply reachable_inv|]. Qed.

Lemma runs_life now w now' w' (P : Life -> Life -> Prop) tc :
  (forall t l l' l'', P l l' -> life_step t l' l'' -> P l l'') -> (forall l, P l l) ->
  files_inv consts w now -> runs now w now' w' -> P (life_in w tc) (life_in w' tc).
Proof.
  intros Hstep Hrefl Hw H. assert (Hg : forall l, P l (life_in w tc) -> P l (life_in w' tc)).
  { unfold runs in H. remember (now, w) as x eqn:Ex. remember (now', w') as y eqn:Ey.
    revert now w Ex Hw. induction H as [x|x z y Hs Hr IH]; intros now w -> Hw l Hl; simplify_eq; [done|].
    destruct z as [t v]. destruct (market_step_life _ Hc _ _ _ _ _ _ tc Hw Hs) as [Hv Hst].
    eapply (IH eq_refl t v); eauto. }
  by apply Hg.
Qed.

(** The seller a contract is bound to, if any. *)
Definition life_seller (l : Life) : option string :=
  match l with
  | Idle seller => seller
  | Listed seller _ | Funded seller _ _ | Live seller _ _ _ | Ended seller _ _ _ => Some seller
  end.

(** What can never be taken back, along any run: a contract's first seller
    stays its seller; once a deal is live its buyer, price, volume and funded
    tokens are fixed and it can only stay live or end; an ended deal is the same
    record for ever. *)
Theorem deals_are_permanent (now now' : Z) (w w' : ChainFiles) (tc : TokenContract) :
  reachable now w -> runs now w now' w' ->
  (forall seller, life_seller (life_in w tc) = Some seller ->
     life_seller (life_in w' tc) = Some seller) /\
  (forall seller m c s, life_in w tc = Live seller m c s -> exists c' s', deal_frame c s c' s' /\
     (life_in w' tc = Live seller m c' s' \/ life_in w' tc = Ended seller m c' s')) /\
  (forall seller m c s, life_in w tc = Ended seller m c s -> life_in w' tc = Ended seller m c s).
Proof.
  intros Hr Hrun. pose proof (reachable_inv _ _ Hr) as Hw. split_and!.
  - apply (runs_life now w now' w' (fun l l' => forall seller, life_seller l = Some seller ->
      life_seller l' = Some seller)); try done.
    intros t l l' l'' H Hs seller Hl. specialize (H seller Hl). destruct Hs; simpl in *; try done.
    destruct prev; simpl in *; congruence.
  - apply (runs_life now w now' w' (fun l l' => forall seller m c s, l = Live seller m c s ->
      exists c' s', deal_frame c s c' s' /\ (l' = Live seller m c' s' \/ l' = Ended seller m c' s'))); try done.
    + intros t l l' l'' H Hs seller m c s Hl. destruct (H seller m c s Hl) as (c1 & s1 & F & Hcase).
      inversion Hs; subst; try (destruct Hcase; discriminate); try (by eauto).
      * destruct Hcase; simplify_eq. eexists _, _. split; [by eapply deal_frame_trans|by left].
      * destruct Hcase; simplify_eq. eexists _, _. split; [by eapply deal_frame_trans|by right].
    + intros l seller m c s ->. exists c, s. split; [apply deal_frame_refl|by left].
  - apply (runs_life now w now' w' (fun l l' => forall seller m c s, l = Ended seller m c s ->
      l' = Ended seller m c s)); try done.
    intros t l l' l'' H Hs seller m c s Hl. rewrite (H _ _ _ _ Hl) in Hs. by inversion Hs.
Qed.

(** The deal behind a live or ended contract. *)
Lemma life_slot w now tc : files_inv consts w now ->
  match life_in w tc with
  | Live seller m c s => deal_inv consts c s now /\ c_closed c = false
  | Ended seller m c s => deal_inv consts c s now /\ c_closed c = true
  | _ => True
  end.
Proof.
  intros Hw. unfold life_in, files_inv in *. destruct (sidecar w) as [st|]; simpl in *; [|done].
  specialize (Hw tc). unfold slot_of in *.
  inversion Hw as [sel Hsel E|o sel Ho Hsel E|o k s sel m cr Hf Hsel Hfr E|o k s sel m cr c Hf Hsel Hd Hcell E];
    unfold life_of; simpl; try done.
  destruct (c_closed c) eqn:Ho; done.
Qed.

(** C1: money is conserved in every reachable deal.  While it is live, escrow,
    probe, bonds, accrued fee and what was already paid add up to the deal's
    value, fixed by the funded tokens and the price; when it has ended nothing is
    held back, and the seller's proceeds, the buyer's refund and the burn are
    exactly that value. *)
Theorem reachable_money_conserved (now : Z) (w : ChainFiles) (tc : TokenContract) :
  reachable now w ->
  match life_in w tc with
  | Live _ _ c s => total c = deal_value consts c s /\ amounts_ok c
  | Ended _ _ c s =>
      c_seller_received c + c_buyer_refunded c + c_burned c = deal_value consts c s /\
      c_buyer_locked c = 0 /\ c_probe_locked c = 0 /\ c_buyer_bond c = 0 /\
      c_seller_locked c = 0 /\ c_fee_accrued c = 0 /\ amounts_ok c
  | _ => True
  end.
Proof.
  intros Hr. pose proof (life_slot w now tc (reachable_inv _ _ Hr)) as H.
  destruct (life_in w tc) as [| | |sel m c s|sel m c s]; try done; destruct H as [Hd Ho];
    destruct (deal_inv_total consts Hc _ _ _ Hd) as [Ha Ht]; [done|].
  destruct Hd as (_ & Hp & _). unfold phase in Hp. rewrite Ho in Hp. destruct Hp. destruct_and!.
  unfold total in *. split_and!; try done. lia.
Qed.

(** The money movements of a deal as the conservation ledger names them. *)
Definition deal_flows (c : StreamCell) (s : DealSubscription) (seller buyer : string)
    : list DealMoneyFlow :=
  [EscrowFunded (cost_of consts (funded_tokens s) (cprice c)); SellerBondFunded (2 * cprice c);
   BuyerBondFunded (buyer_bond_of c s); CreditedToNote seller (c_seller_received c);
   CreditedToNote buyer (c_buyer_refunded c); WrittenOff (c_burned c)].

(** An ended deal of the market satisfies the independent conservation
    ledger: replaying its funding, credits and burn never overdraws, and the
    destroyed deal settles with no residue, crediting each side what the cell
    says. *)
Theorem ended_deal_settles_in_ledger (now : Z) (w : ChainFiles) (tc : TokenContract)
    (seller buyer : string) (m : Match) (c : StreamCell) (s : DealSubscription) :
  reachable now w -> life_in w tc = Ended seller m c s -> deal_value consts c s <= U128_MAX ->
  seller <> buyer ->
  exists l st, replay (deal_flows c s seller buyer) = Ok l /\ settle_destroyed l = Ok st /\
    set_funded_in st = deal_value consts c s /\ set_written_off st = c_burned c /\
    settlement_credited_to st seller = c_seller_received c /\
    settlement_credited_to st buyer = c_buyer_refunded c.
Proof.
  intros Hr Hl Hv Hne. pose proof (life_slot w now tc (reachable_inv _ _ Hr)) as H.
  rewrite Hl in H. destruct H as [Hd Ho]. destruct (deal_inv_total consts Hc _ _ _ Hd) as [Ha Ht].
  destruct Hd as ([] & Hp & _). unfold phase in Hp. rewrite Ho in Hp. destruct Hp, Ha.
  assert (c_seller_received c + c_buyer_refunded c + c_burned c = deal_value consts c s) as Hsum
    by (unfold total in *; lia).
  pose proof (cost_of_nonneg consts Hc (funded_tokens s) (cprice c) ltac:(lia) ltac:(lia)).
  assert (0 <= buyer_bond_of c s) by (unfold buyer_bond_of; destruct (is_subscription s); lia).
  assert (flows_typed (deal_flows c s seller buyer)) as Hty.
  { unfold flows_typed, deal_flows, deal_value in *. rewrite !Forall_cons. simpl.
    split_and!; try apply Forall_nil_2; split; lia. }
  destruct (replay_from_progress (deal_flows c s seller buyer) ledger_new ledger_new_inv Hty) as [l El].
  { unfold deal_flows, deal_value in *. simpl. unfold signed; simpl. split_and!; try done; lia. }
  { unfold deal_flows, deal_value, sum_where in *. simpl. lia. }
  destruct (replay_from_spec _ _ _ ledger_new_inv Hty El) as (Hinv & H1 & H2 & H3 & H4 & _ & _).
  exists l. unfold settle_destroyed. rewrite (settle_of_inv _ Hinv). simpl.
  unfold deal_flows, sum_where, deal_value in *. simpl in *.
  destruct Hinv as (_ & _ & _ & _ & Hcons & _).
  assert (balance l = 0) as -> by lia. simpl. eexists. split; [exact El|]. split; [done|]. simpl.
  split_and!; try lia.
  all: match goal with |- settlement_credited_to _ ?n = _ => specialize (H4 n);
    assert (credited_to ledger_new n = 0) as Hz by reflexivity;
    change (credited_to l n = c_seller_received c) || change (credited_to l n = c_buyer_refunded c);
    rewrite H4, Hz end.
  - rewrite bool_decide_true, bool_decide_false by done. lia.
  - rewrite bool_decide_false, bool_decide_true by done. lia.
Qed.

(** ** Calls on a live deal *)
Lemma live_lookup w now t tc seller m c s :
  files_inv consts w now -> now <= t -> life_in w tc = Live seller m c s ->
  exists st, load_state w t = Ok st /\ market_inv consts st t /\ streams st !! tc = Some c /\
    deal_subscriptions st !! tc = Some s /\ offer_sellers st !! tc = Some seller /\
    matches st !! tc = Some m /\ deal_inv consts c s t /\ cell_of m (c_max_ticks c) c.
Proof.
  intros Hw Ht Hl. destruct (load_life consts w now t Hw Ht) as (st & Hld & Hi & Hli).
  exists st. rewrite Hli in Hl. pose proof (Hi tc) as Hs. unfold slot_of in *.
  inversion Hs as [sel Hsel E|o sel Ho Hsel E|o k s' sel m' cr Hf Hsel Hfr E|o k s' sel m' cr c' Hf Hsel Hd Hcell E];
    unfold life_of in Hl; simpl in Hl;
    repeat match goal with X : _ = _ !! tc |- _ => rewrite <- X in Hl; revert X end; intros;
    simpl in Hl; try discriminate; try (destruct sel; discriminate).
  destruct (c_closed c'); [discriminate|]. simplify_eq. destruct Hcell as (? & ? & ?).
  split_and!; congruence || done.
Qed.

(** A deal operation that succeeds on the live deal is stored. *)
Lemma deal_call {A} w now t0 now' tc seller m c s
    (g : MockState -> outcome ChainError (A * option MockState))
    (f : StreamCell -> DealSubscription -> outcome ChainError (A * StreamCell * DealSubscription)) a c' s' :
  files_inv consts w now -> now <= t0 -> t0 <= now' -> life_in w tc = Live seller m c s ->
  (forall st, streams st !! tc = Some c -> offer_sellers st !! tc = Some seller ->
     g st = on_deal tc st f) ->
  f c s = Ok (a, c', s') -> deal_inv consts c' s' now' -> deal_frame c s c' s' ->
  exists w', writing t0 g w = (Ok a, w') /\
    life_in w' tc = if c_closed c' then Ended seller m c' s' else Live seller m c' s'.
Proof.
  intros Hw H0 H1 Hl Hg Hf Hd Hfr.
  destruct (live_lookup w now t0 tc seller m c s Hw H0 Hl) as (st & Hld & Hi & L1 & L2 & L3 & L4 & _).
  assert (on_deal tc st f = Ok (a, Some (put_deal tc c' s' st))) as Hon.
  { unfold on_deal, chain. rewrite L1, L2. simpl. by rewrite Hf. }
  assert (market_inv consts (put_deal tc c' s' st) now') as Hi' by (by eapply put_deal_inv).
  exists (store_state w (put_deal tc c' s' st)). unfold writing. rewrite Hld, Hg, Hon by done.
  split; [done|]. unfold life_in; simpl. rewrite (slot_reload consts _ now') by done.
  unfold life_of, slot_of; simpl. by rewrite !lookup_insert_eq, L3, L4.
Qed.

Lemma buyer_stop_result (now t0 t1 t2 : Z) (w : ChainFiles) (tc : TokenContract)
    (note : NotePubkey) (seller : string) (m : Match) (c : StreamCell) (s : DealSubscription) :
  consts_sane consts -> files_inv consts w now -> life_in w tc = Live seller m c s ->
  c_disputed c = false -> note_id_hex note = note_id_hex (c_buyer_pubkey c) ->
  now <= t0 <= t1 -> t1 <= t2 -> t2 + claim_promote_window consts <= U64_MAX ->
  deal_value consts c s <= U128_MAX ->
  exists x w' c' s', stop consts tc note t0 t1 t2 w = (Ok x, w') /\
    life_in w' tc = Ended seller m c' s' /\ stop_result consts c s t1 t2 x c' s'.
Proof.
  intros Hsane Hf Hl Hd Hnote Ht H12 Hw Hv.
  pose proof (life_slot w now tc Hf) as Hli. rewrite Hl in Hli. destruct Hli as [Hi Ho].
  destruct (stop_total consts Hsane c s now t1 t2 Hi Ho Hd) as (x & c' & s' & E & R); try lia.
  destruct (stop_inv consts Hc c s now t1 t2 t2 x c' s' Hi ltac:(lia) E) as (Hi' & Hfr & Hcl).
  destruct (deal_call w now t0 t2 tc seller m c s (fun st =>
    let* _ := require_mock_buyer_actor st tc note in
    on_deal tc st (fun cell sub => stop_deal consts cell sub t1 t2))
    (fun cell sub => stop_deal consts cell sub t1 t2) x c' s') as (w' & E1 & E2); try done; try lia.
  { intros st Hst _. unfold require_mock_buyer_actor. rewrite Hst. simpl. by rewrite bool_decide_true. }
  rewrite Hcl in E2. by exists x, w', c', s'.
Qed.

(** C3: the buyer is never trapped.  On a live undisputed deal whose value fits
    [u128] the buyer's own stop always succeeds and ends the deal at once.  After
    acceptance he pays for exactly the trusted tokens of an ordinary deal, or for the
    weeks a subscription has started or charged (or the trusted tokens, where these are
    more), and gets every other unit of his deposit and bond back.  Before acceptance
    the probe burns, one price of each side, and he gets the rest. *)
Theorem buyer_can_always_stop (now t0 t1 t2 : Z) (w : ChainFiles) (tc : TokenContract)
    (note : NotePubkey) (seller : string) (m : Match) (c : StreamCell) (s : DealSubscription) :
  consts_sane consts -> reachable now w -> life_in w tc = Live seller m c s ->
  c_disputed c = false -> note_id_hex note = note_id_hex (c_buyer_pubkey c) ->
  now <= t0 <= t1 -> t1 <= t2 -> t2 + claim_promote_window consts <= U64_MAX ->
  deal_value consts c s <= U128_MAX ->
  exists x w' c' s', stop consts tc note t0 t1 t2 w = (Ok x, w') /\
    life_in w' tc = Ended seller m c' s' /\ stop_result consts c s t1 t2 x c' s'.
Proof. intros Hsane Hr. eapply buyer_stop_result; [done|by apply reachable_inv]. Qed.

(** C5: no dispute can freeze a deal for ever.  On a disputed deal whose value fits
    [u128] a release works at any time, and once the dispute window has passed anyone can
    resolve it; both end the deal and split it exactly.  The seller is paid the weeks
    completed at the dispute and what his claims prove then; the buyer loses his stake,
    the disputed value between one and two prices (an ordinary deal's only as far as his
    deposit goes), and of a subscription the unproved rest of the started week; the rest
    is his.  A release returns the seller's whole bond, a timeout takes the buyer's loss
    from it as well; what neither side gets is burned. *)
Theorem disputes_always_resolve (now t0 t1 : Z) (w : ChainFiles) (tc : TokenContract)
    (seller : string) (m : Match) (c : StreamCell) (s : DealSubscription) :
  consts_sane consts -> reachable now w -> life_in w tc = Live seller m c s ->
  c_disputed c = true -> now <= t0 <= t1 ->
  c_dispute_time c + dispute_window consts <= t1 -> t1 <= U64_MAX ->
  now + claim_promote_window consts <= U64_MAX -> deal_value consts c s <= U128_MAX ->
  (exists refund w' c' s', release_dispute consts tc t0 w = (Ok (SellerNoShow refund (2 * cprice c)), w') /\
     life_in w' tc = Ended seller m c' s' /\ dispute_result consts c s false refund (2 * cprice c) c') /\
  (exists refund bond w' c' s',
     resolve_dispute_timeout consts tc t0 t1 w = (Ok (SellerNoShow refund bond), w') /\
     life_in w' tc = Ended seller m c' s' /\ dispute_result consts c s true refund bond c') /\
  0 <= buyer_stake consts c s <= 2 * cprice c /\
  (is_subscription s = true -> cprice c <= buyer_stake consts c s).
Proof.
  intros Hsane Hr Hl Hd Ht Hdl Hu Hw Hv. pose proof (reachable_inv _ _ Hr) as Hf.
  pose proof (life_slot w now tc Hf) as Hli. rewrite Hl in Hli. destruct Hli as [Hi Ho].
  pose proof Hi as (_ & _ & Htm).
  assert (c_last_claim_time c + claim_promote_window consts <= U64_MAX) as Hlc by (destruct Htm; lia).
  destruct (resolve_total consts Hsane c s now true Hi Hd Ho Hlc Hv) as (r & b & c' & s' & E & Hres & Hst).
  destruct (resolve_inv consts Hc c s now true _ _ _ _ Hi E) as (Hi' & Hfr & Hcl & _).
  split; [|split; [|exact Hst]].
  - destruct (resolve_total consts Hsane c s now false Hi Hd Ho Hlc Hv) as (r0 & b0 & c0 & s0 & E0 & R0 & _).
    destruct (resolve_inv consts Hc c s now false _ _ _ _ Hi E0) as (Hi0 & Hfr0 & Hcl0 & _).
    assert (b0 = 2 * cprice c) as -> by (destruct R0 as (_ & -> & _); lia).
    destruct (deal_call w now t0 t0 tc seller m c s (fun st => on_deal tc st (fun cell sub => release_dispute_deal consts cell sub))
      (fun cell sub => release_dispute_deal consts cell sub) (SellerNoShow r0 (2 * cprice c)) c0 s0) as (w' & E1 & E2);
      try done; try lia; [unfold release_dispute_deal; by rewrite E0|eapply deal_inv_later; [|done]; lia|].
    rewrite Hcl0 in E2. by exists r0, w', c0, s0.
  - destruct (deal_call w now t0 t1 tc seller m c s (fun st =>
        let* cell := ok_or (streams st !! tc) (NoStream tc) in
        let* _ := timeout_due consts cell t1 in on_deal tc st (resolve_timeout_deal consts))
      (resolve_timeout_deal consts) (SellerNoShow r b) c' s') as (w' & E1 & E2);
      try done; try lia; [|unfold resolve_timeout_deal; by rewrite E|eapply deal_inv_later; [|done]; lia|].
    + intros st Hst0 _. rewrite Hst0. simpl. unfold timeout_due. rewrite Hd. destruct Htm. specialize (tm_disputed Hd).
      rewrite (proj2 (Z.eqb_neq _ _)) by lia. simpl. unfold chain, u64_checked_add, checked_add.
      rewrite (proj2 (Z.leb_le _ _)) by lia. simpl. by rewrite (proj2 (Z.ltb_ge _ _)) by lia.
    + rewrite Hcl in E2. by exists r, b, w', c', s'.
Qed.

(** C31: what a successful claim can do.  It comes from the contract's seller;
    repeating the pending total stores nothing; a new total exceeds the pending
    one by at most one tick and by no more than the elapsed time allows at the
    physical rate, stays within the funded tokens and makes the previous claim
    final.  Of the money it moves only the price of a subscription's elapsed weeks,
    from the escrow to the seller and the fees; every other purse, and of an ordinary
    deal every purse, is as it was. *)
Theorem claims_are_bounded (now t0 t1 t2 cum : Z) (w w' : ChainFiles) (tc : TokenContract)
    (note : NotePubkey) (seller : string) (m : Match) (c : StreamCell) (s : DealSubscription) :
  reachable now w -> life_in w tc = Live seller m c s -> now <= t0 <= t1 -> t1 <= t2 -> 0 < t2 ->
  claim_tokens consts tc note cum t0 t1 t2 w = (Ok tt, w') ->
  note_id_hex note = seller /\
  ((cum = c_tokens_pending c /\ w' = w) \/
   exists c' s', life_in w' tc = Live seller m c' s' /\
     c_tokens_pending c < cum <= c_tokens_pending c + MAX_CLAIM_DELTA /\ cum <= funded_tokens s /\
     (cum - c_tokens_pending c) * min_seconds_per_tick consts <= (t2 - c_last_claim_time c) * TICK_SIZE /\
     c_tokens_pending c' = cum /\ c_tokens_final c' = c_tokens_pending c /\
     total c' = total c /\ only_charged consts c s t1 c' s').
Proof.
  intros Hr Hl Ht H12 Hpos H. pose proof (reachable_inv _ _ Hr) as Hf.
  destruct (live_lookup w now t0 tc seller m c s Hf ltac:(lia) Hl) as (st & Hld & Hi & L1 & L2 & L3 & L4 & Hd & _).
  unfold claim_tokens, writing in H. rewrite Hld in H. unfold require_mock_seller_actor, chain in H.
  rewrite L3, L1, L2 in H. simpl in H.
  destruct (bool_decide (note_id_hex note = seller)) eqn:Ea; simpl in H; [|by simplify_eq].
  apply bool_decide_eq_true in Ea. split; [done|].
  destruct (claim_deal consts c s cum t1 t2) as [[[c' s']|]| |] eqn:E; simplify_eq.
  2:{ left. split; [|done]. unfold claim_deal in E. do 3 ok_step E. destruct (Z.eqb_spec cum (c_tokens_pending c)); [done|].
      repeat ok_step E. discriminate. }
  right. exists c', s'. assert (c_closed c = false) as Ho.
  { pose proof (life_slot w now tc Hf) as X. rewrite Hl in X. apply X. }
  pose proof (claim_only_charges consts c s cum t1 t2 c' s' E) as Hmoney.
  pose proof E as E'. eapply claim_inv in E' as (Hd' & Hfr & C1 & C2 & C3 & C4 & C5 & C6); [|exact Hd|lia|done].
  destruct (deal_inv_total consts Hc _ _ _ Hd) as [_ T1]. destruct (deal_inv_total consts Hc _ _ _ Hd') as [_ T2].
  assert (c_closed c' = false) as Ho'.
  { destruct Hd' as (_ & Hp & _). unfold phase in Hp. destruct (c_closed c') eqn:X; [|done].
    eapply claim_not_closed in E; congruence. }
  split_and!; try done; try lia.
  - unfold life_in; simpl. rewrite (slot_reload consts (put_deal tc c' s' st) t2);
      [|by eapply (put_deal_inv consts tc st c s c' s' t0); [lia|..]].
    unfold life_of, slot_of; simpl. by rewrite !lookup_insert_eq, L3, L4, Ho'.
  - destruct Hd' as ([] & _). destruct Hfr as [[] _ _ _]. lia.
  - rewrite T2, T1. by apply deal_value_frame.
Qed.

(** ** Actors *)
Lemma writing_ok {A} t0 (f : MockState -> outcome ChainError (A * option MockState)) w a w' :
  writing t0 f w = (Ok a, w') -> exists st o, load_state w t0 = Ok st /\ f st = Ok (a, o).
Proof.
  unfold writing. intros H. destruct (load_state w t0) as [st| |]; try discriminate.
  destruct (f st) as [[a' [st'|]]| |] eqn:E; simplify_eq; eauto.
Qed.

(** Only the right key moves a deal, in any file whatsoever: a stream is
    opened and claims are made by the note the contract was posted with; stops
    and disputes need the matched buyer's note, or its exact [mock:] address. *)
Theorem actors_are_enforced (w w' : ChainFiles) (tc : TokenContract) (note : NotePubkey)
    (addr : string) (ep : list Z) (cum t0 t1 t2 : Z) (x : Settlement) :
  (claim_tokens consts tc note cum t0 t1 t2 w = (Ok tt, w') \/
   open_stream consts params tc ep note t0 t1 w = (Ok tt, w') ->
     exists st, load_state w t0 = Ok st /\ offer_sellers st !! tc = Some (note_id_hex note)) /\
  (stop consts tc note t0 t1 t2 w = (Ok x, w') \/ dispute tc note t0 t1 w = (Ok x, w') ->
     exists st c, load_state w t0 = Ok st /\ streams st !! tc = Some c /\
       note_id_hex note = note_id_hex (c_buyer_pubkey c)) /\
  (stop_by_buyer_note_addr consts tc addr t0 t1 t2 w = (Ok x, w') ->
     exists st c, load_state w t0 = Ok st /\ streams st !! tc = Some c /\
       to_ascii_lowercase (trim (to_text addr)) =
         to_text (String.append "mock:" (note_id_hex (c_buyer_pubkey c)))).
Proof.
  assert (forall st a, require_mock_seller_actor st tc note = Ok a ->
    offer_sellers st !! tc = Some (note_id_hex note)) as Hs.
  { intros st a H. unfold require_mock_seller_actor, chain in H. repeat ok_step H.
    apply ok_or_ok in E. apply negb_false_iff, bool_decide_eq_true in E0. congruence. }
  assert (forall st a, require_mock_buyer_actor st tc note = Ok a -> exists c, streams st !! tc = Some c /\
    note_id_hex note = note_id_hex (c_buyer_pubkey c)) as Hb.
  { intros st a H. unfold require_mock_buyer_actor in H. repeat ok_step H.
    apply ok_or_ok in E. apply negb_false_iff, bool_decide_eq_true in E0. eauto. }
  split_and!.
  - intros [H|H].
    + apply writing_ok in H as (st & o & Hl & H). exists st. split; [done|]. ok_step H. eauto.
    + unfold open_stream in H. destruct (writing t0 _ w) as [r w1] eqn:E. destruct r; simplify_eq.
      apply writing_ok in E as (st & o & Hl & E). exists st. split; [done|]. ok_step E.
      unfold open_stream_state in E0. ok_step E0. eauto.
  - intros [H|H]; apply writing_ok in H as (st & o & Hl & H); ok_step H; apply Hb in E as (c & ? & ?); eauto.
  - intros H. apply writing_ok in H as (st & o & Hl & H). ok_step H.
    unfold require_mock_buyer_note_addr in E. repeat ok_step E. apply ok_or_ok in E0.
    apply negb_false_iff, bool_decide_eq_true in E1. eauto.
Qed.

(** ** Matched but never opened *)
Lemma funded_lookup w now t tc seller m since :
  files_inv consts w now -> now <= t -> life_in w tc = Funded seller m since ->
  exists st o k s, load_state w t = Ok st /\ market_inv consts st t /\ streams st !! tc = None /\
    deal_subscriptions st !! tc = Some s /\ offer_sellers st !! tc = Some seller /\
    matches st !! tc = Some m /\ match_created_at st !! tc = Some since /\
    funded_ok consts tc t o k s m since /\ fresh_shape s.
Proof.
  intros Hw Ht Hl. destruct (load_life consts w now t Hw Ht) as (st & Hld & Hi & Hli).
  rewrite Hli in Hl. pose proof (Hi tc) as Hs. unfold slot_of in *.
  inversion Hs as [sel Hsel E|o sel Ho Hsel E|o k s' sel m' cr Hf Hsel Hfr E|o k s' sel m' cr c' Hf Hsel Hd Hcell E];
    unfold life_of in Hl; simpl in Hl;
    repeat match goal with X : _ = _ !! tc |- _ => rewrite <- X in Hl; revert X end; intros;
    simpl in Hl; try discriminate; try (destruct sel; discriminate); try (destruct (c_closed c'); discriminate).
  simplify_eq. exists st, o, k, s'. split_and!; done.
Qed.

(** The deposit of a funded deal. *)
Lemma funded_deposit tc now o k s m since :
  funded_ok consts tc now o k s m since ->
  0 <= funded_tokens s /\ 0 < m_price_per_tick m <= U64_MAX /\
  cost_of consts (funded_tokens s) (m_price_per_tick m) <= U128_MAX.
Proof.
  intros []. destruct fu_offer as (_ & _ & Hty & Hv). pose proof Hty as (Hp & Hm & _).
  apply (sell_offer_inv consts) in Hv as (V1 & V2 & _ & V4); [|done]. rewrite fu_price, fu_funded.
  destruct (cost_of_mono consts Hc (k * TICK_SIZE) (so_max_ticks o * TICK_SIZE) (so_price_per_tick o)) as (_ & _ & ?);
    [unfold TICK_SIZE; lia|lia|]. unfold TICK_SIZE in *. split_and!; try lia. ilia.
Qed.

Lemma funded_state_read st tc t o k s m since :
  funded_ok consts tc t o k s m since -> streams st !! tc = None ->
  deal_subscriptions st !! tc = Some s -> matches st !! tc = Some m ->
  match_created_at st !! tc = Some since ->
  mock_deal_state consts st tc = Ok (Some {|
    ds_funded := true; ds_opened := false; ds_probe_accepted := false; ds_disputed := false;
    ds_deposit := cost_of consts (funded_tokens s) (m_price_per_tick m); ds_finalized_owed := 0;
    ds_tokens_final := 0; ds_tokens_pending := 0; ds_probe_tick := 0; ds_funded_time := Some since;
    ds_probe_time := 0; ds_last_claim_time := since; ds_dispute_time := 0 |}).
Proof.
  intros Hf H1 H2 H3 H4. destruct (funded_deposit _ _ _ _ _ _ _ Hf) as (F1 & F2 & F3).
  unfold mock_deal_state, mock_funded_time, is_key. rewrite H1, H3, H4, bool_decide_true by done. simpl.
  rewrite (proj2 (Z.ltb_ge since 0)) by (destruct Hf; lia). rewrite H2. simpl.
  rewrite token_pay_and_fee_total by (done || (unfold in_u64; lia) || lia).
  unfold chain. rewrite u128_add_total by (unfold cost_of in *; lia). done.
Qed.

Lemma cleanup_result w now t0 t1 tc seller m since :
  files_inv consts w now -> life_in w tc = Funded seller m since -> now <= t0 <= t1 ->
  since + MATCH_OPEN_TIMEOUT_SECS <= U64_MAX ->
  exists s deposit bond, deposit = cost_of consts (funded_tokens s) (m_price_per_tick m) /\
    bond = (if is_subscription s then 2 * m_price_per_tick m else 0) /\
    deal_subscription tc t0 w = (Ok (Some s), w) /\
    (exists ds, deal_state consts tc t0 w = (Ok (Some ds), w) /\ ds_deposit ds = deposit /\
       exact_never_opened_funded_time ds = Some since /\ ds_funded ds = true /\ ds_opened ds = false /\
       ds_disputed ds = false) /\
    (deposit + bond <= U128_MAX ->
     if t1 <? since + MATCH_OPEN_TIMEOUT_SECS
     then is_ok (fst (cleanup_unopened consts tc t0 t1 w)) = false /\ snd (cleanup_unopened consts tc t0 t1 w) = w
     else exists w', cleanup_unopened consts tc t0 t1 w =
            (Ok (SellerNoShow (deposit + bond) (2 * m_price_per_tick m)), w') /\
          life_in w' tc = Idle (Some seller)).
Proof.
  intros Hw Hl Ht Hu.
  destruct (funded_lookup w now t0 tc seller m since Hw ltac:(lia) Hl)
    as (st & o & k & s & Hld & Hi & L1 & L2 & L3 & L4 & L5 & Hf & Hfr).
  destruct (funded_deposit _ _ _ _ _ _ _ Hf) as (F1 & F2 & F3).
  pose proof (funded_state_read st tc t0 o k s m since Hf L1 L2 L4 L5) as Hds.
  eexists s, _, _. split; [done|]. split; [done|].
  split; [unfold deal_subscription, reading, mock_deal_subscription; by rewrite Hld, L2|]. split.
  { eexists. unfold deal_state, reading. rewrite Hld, Hds. split; [done|]. simpl. split; [done|]. split; [|done].
    unfold exact_never_opened_funded_time; simpl. rewrite Z.eqb_refl.
    assert (0 < cost_of consts (funded_tokens s) (m_price_per_tick m)) as Hpos.
    { destruct Hf. rewrite fu_funded. unfold cost_of. rewrite pay_of_tick.
      pose proof (fee_of_nonneg consts Hc (k * TICK_SIZE) (m_price_per_tick m)). unfold TICK_SIZE in *. nia. }
    rewrite (proj2 (Z.ltb_lt 0 since)) by (destruct Hf; lia). rewrite (proj2 (Z.ltb_lt 0 _)) by lia. done. }
  intros Hb. unfold cleanup_unopened, writing. rewrite Hld.
  rewrite (proj2 (is_key_false tc (streams st))) by done.
  rewrite (proj2 (is_key_true tc (matches st))) by done. cbn [negb]. rewrite Hds. simpl.
  unfold chain, u64_checked_add, checked_add. rewrite (proj2 (Z.leb_le _ _)) by done. simpl.
  destruct (t1 <? since + MATCH_OPEN_TIMEOUT_SECS); [done|]. rewrite L2, L4. simpl.
  rewrite u128_mul_total by ilia. rewrite (Z.mul_comm (m_price_per_tick m)).
  rewrite u128_add_total by done.
  eexists. split; [done|]. unfold life_in; simpl. rewrite (slot_reload consts _ t0).
  - unfold life_of, slot_of; simpl. rewrite !lookup_delete_eq, L3.
    pose proof (Hi tc) as Hsl. unfold slot_of in Hsl. rewrite L4 in Hsl. by inversion Hsl.
  - eapply (cleanup_inv consts tc st); [done|by apply is_key_false|by apply is_key_true|done].
Qed.

(** A matched seller who never opens cannot keep the buyer's money.  Before
    the open timeout a cleanup is refused and changes nothing; from the timeout
    on, anyone's cleanup succeeds, reports the buyer's whole deposit and bond and
    the seller's whole bond as returned, and frees the contract for its seller. *)
Theorem cleanup_refunds_in_full (now t0 t1 : Z) (w : ChainFiles) (tc : TokenContract)
    (seller : string) (m : Match) (since : Z) :
  reachable now w -> life_in w tc = Funded seller m since -> now <= t0 <= t1 ->
  since + MATCH_OPEN_TIMEOUT_SECS <= U64_MAX ->
  exists s, deal_subscription tc t0 w = (Ok (Some s), w) /\
    let deposit := cost_of consts (funded_tokens s) (m_price_per_tick m) in
    let bond := if is_subscription s then 2 * m_price_per_tick m else 0 in
    deposit + bond <= U128_MAX ->
    if t1 <? since + MATCH_OPEN_TIMEOUT_SECS
    then is_ok (fst (cleanup_unopened consts tc t0 t1 w)) = false /\ snd (cleanup_unopened consts tc t0 t1 w) = w
    else exists w', cleanup_unopened consts tc t0 t1 w =
           (Ok (SellerNoShow (deposit + bond) (2 * m_price_per_tick m)), w') /\
         life_in w' tc = Idle (Some seller).
Proof.
  intros Hr Hl Ht Hu.
  destruct (cleanup_result w now t0 t1 tc seller m since (reachable_inv _ _ Hr) Hl Ht Hu)
    as (s & d & b & -> & -> & Hsub & _ & H). by exists s.
Qed.

(** The reclaim pre-flight of the accounting module predicts the market
    exactly: for the recorded buyer of a funded, never opened deal it passes if
    and only if the cleanup then succeeds. *)
Theorem reclaim_check_predicts_cleanup (now t0 t1 : Z) (w : ChainFiles) (tc : TokenContract)
    (seller : string) (m : Match) (since : Z) (ds : DealChainState) (addr : string) (key : list Z) :
  reachable now w -> life_in w tc = Funded seller m since -> now <= t0 <= t1 ->
  since + MATCH_OPEN_TIMEOUT_SECS <= U64_MAX -> deal_state consts tc t0 w = (Ok (Some ds), w) ->
  ds_deposit ds + 2 * m_price_per_tick m <= U128_MAX ->
  (check_reclaimable ds (Some addr) addr (Some key) key t1 MATCH_OPEN_TIMEOUT_SECS = Ok tt <->
   is_ok (fst (cleanup_unopened consts tc t0 t1 w)) = true).
Proof.
  intros Hr Hl Ht Hu Hds Hb. pose proof (reachable_inv _ _ Hr) as Hw.
  destruct (cleanup_result w now t0 t1 tc seller m since Hw Hl Ht Hu)
    as (s & d & b & _ & -> & _ & (ds' & Hds' & Hdep & Hex & Hfu & Hop & Hdi) & H).
  assert (ds' = ds) as -> by congruence.
  destruct (funded_lookup w now t0 tc seller m since Hw ltac:(lia) Hl)
    as (st & o & k & s0 & _ & _ & _ & _ & _ & _ & _ & Hf & _).
  destruct (funded_deposit _ _ _ _ _ _ _ Hf) as (_ & F2 & _).
  specialize (H ltac:(destruct (is_subscription s); lia)).
  unfold check_reclaimable, check_buyer_owns. rewrite Hdi, !bool_decide_true, Hfu, Hop by done. simpl.
  assert (is_stopped ds = false) as ->.
  { unfold is_stopped. unfold exact_never_opened_funded_time in Hex. destruct (ds_funded_time ds); [|done].
    destruct (0 <? ds_deposit ds) eqn:Hd; [|rewrite ?andb_false_r in Hex; discriminate].
    rewrite (proj2 (Z.eqb_neq (ds_deposit ds) 0)) by lia. rewrite ?andb_false_r. done. }
  rewrite Hex. simpl. unfold saturating_add. rewrite Z.min_l by done.
  destruct (t1 <? since + MATCH_OPEN_TIMEOUT_SECS).
  - destruct H as [-> _]. split; discriminate.
  - destruct H as (w' & -> & _). done.
Qed.
(** ** Panics *)
Lemma writing_np {A} t0 (f : MockState -> outcome ChainError (A * option MockState)) w now :
  files_inv consts w now -> now <= t0 ->
  (forall st, market_inv consts st t0 -> f st <> Panic) -> fst (writing t0 f w) <> Panic.
Proof.
  intros Hw Ht Hf. unfold writing. destruct (load_ok consts w now t0 Hw Ht) as (st & -> & Hi).
  specialize (Hf st Hi). by destruct (f st) as [[a [?|]]| |].
Qed.

Lemma on_deal_np {A} tc st t
    (f : StreamCell -> DealSubscription -> outcome ChainError (A * StreamCell * DealSubscription)) :
  market_inv consts st t -> (forall c s, deal_inv consts c s t -> f c s <> Panic) ->
  on_deal tc st f <> Panic.
Proof.
  intros Hi Hf. unfold on_deal, chain. destruct (streams st !! tc) as [c|] eqn:E1; [|done].
  destruct (deal_subscriptions st !! tc) as [s|] eqn:E2; [|done]. simpl.
  assert (deal_inv consts c s t) as Hd.
  { pose proof (Hi tc) as Hs. unfold slot_of in Hs. rewrite E1, E2 in Hs. by inversion Hs. }
  specialize (Hf c s Hd). by destruct (f c s) as [[[? ?] ?]| |].
Qed.

(** The calls that finish a deal never hit the machine's [unreachable!]
    arms: on any file a run can produce, at any later time and for any caller,
    they return a value or an error.  The machine itself panics outside a live
    state; the cell's flags keep these calls away from it. *)
Theorem terminal_calls_never_panic (now t0 t1 t2 : Z) (w : ChainFiles) (tc : TokenContract)
    (note : NotePubkey) (addr : string) :
  reachable now w -> now <= t0 ->
  fst (stop consts tc note t0 t1 t2 w) <> Panic /\
  fst (stop_by_buyer_note_addr consts tc addr t0 t1 t2 w) <> Panic /\
  fst (seller_stop consts tc t0 t1 t2 w) <> Panic /\
  fst (release_dispute consts tc t0 w) <> Panic /\
  fst (resolve_dispute_timeout consts tc t0 t1 w) <> Panic.
Proof.
  intros Hr Ht. pose proof (reachable_inv _ _ Hr) as Hw.
  assert (forall b c s, deal_inv consts c s t0 -> resolve_mock_dispute consts c s b <> Panic) as Hres.
  { intros b c s Hi. destruct (c_closed c) eqn:Ho; [|by eapply resolve_np].
    destruct Hi as (_ & Hp & _). unfold phase in Hp. rewrite Ho in Hp. unfold resolve_mock_dispute.
    by rewrite (cl_disputed _ _ _ Hp). }
  split_and!; (eapply writing_np; [exact Hw|done|intros st Hi]).
  - destruct (require_mock_buyer_actor st tc note) eqn:E; [|done|].
    + eapply on_deal_np; [done|]. intros. by eapply stop_np.
    + unfold require_mock_buyer_actor in E. by destruct (streams st !! tc); simpl in E; [destruct (negb _)|].
  - destruct (require_mock_buyer_note_addr st tc addr) eqn:E; [|done|].
    + eapply on_deal_np; [done|]. intros. by eapply stop_np.
    + unfold require_mock_buyer_note_addr in E. by destruct (streams st !! tc); simpl in E; [destruct (negb _)|].
  - eapply on_deal_np; [done|]. intros. by eapply seller_stop_np.
  - eapply on_deal_np; [done|]. intros c s Hd. unfold release_dispute_deal.
    specialize (Hres false c s Hd). by destruct (resolve_mock_dispute _ _ _ _) as [[[[? ?] ?] ?]| |].
  - destruct (streams st !! tc) as [cell|]; [|done]. simpl. unfold timeout_due, chain.
    destruct (_ || _); [done|]. destruct (u64_checked_add _ _); [|done]. simpl. destruct (t1 <? z); [done|]. simpl.
    eapply on_deal_np; [done|]. intros c s Hd. unfold resolve_timeout_deal.
    specialize (Hres true c s Hd). by destruct (resolve_mock_dispute _ _ _ _) as [[[[? ?] ?] ?]| |].
Qed.
(** ** Subscription orders *)
Lemma runs_orders now w now' w' (P : OrderStatus -> OrderStatus -> Prop) id :
  (forall t x y z, P x y -> order_step t y z -> P x z) -> (forall x, P x x) ->
  orders_ok w -> runs now w now' w' -> orders_ok w' /\ P (order_in w id) (order_in w' id).
Proof.
  intros Hstep Hrefl Hw H. assert (orders_ok w' /\ forall x, P x (order_in w id) -> P x (order_in w' id)) as [? Hg].
  { unfold runs in H. remember (now, w) as x eqn:Ex. remember (now', w') as y eqn:Ey.
    revert now w Ex Hw. induction H as [x|x z y Hs Hr IH]; intros now w -> Hw; simplify_eq; [done|].
    destruct z as [t v]. destruct (market_step_orders _ _ _ _ _ _ _ Hs Hw) as [Hv Hst].
    destruct (IH eq_refl t v eq_refl Hv) as [? Hi]. split; [done|]. eauto. }
  auto.
Qed.
Lemma reachable_orders now w : reachable now w -> orders_ok w.
Proof. intros [start H]. by eapply (runs_orders _ _ _ _ (fun _ _ => True) 0) in H as [? _]. Qed.

(** Every call moves every subscription order id by at most one step: a
    fresh id is placed with exactly the escrow its ticks and price require, and a
    resting order leaves once, expiring only after its deadline, with a record
    whose refund is its whole escrow. *)
Theorem orders_move_one_step (now now' : Z) (w w' : ChainFiles) (id : Z) :
  reachable now w -> market_step consts params order_id_of (now, w) (now', w') ->
  order_step now' (order_in w id) (order_in w' id).
Proof. intros Hr Hs. by apply (market_step_orders _ _ _ _ _ _ _ Hs (reachable_orders _ _ Hr)). Qed.

(** A refund is recorded once and for ever.  Along any run a resting order
    stays as it was placed or ends in a record of the same order, the same book
    and its whole escrow; a record never changes and its id is never reused. *)
Theorem order_records_are_final (now now' : Z) (w w' : ChainFiles) (id : Z) :
  reachable now w -> runs now w now' w' ->
  (forall o book, order_in w id = Resting o book -> order_in w' id = Resting o book \/
     exists reason, order_in w' id = Exited (mkSubTerminal o book reason (ob_escrow o))) /\
  (forall t, order_in w id = Exited t -> order_in w' id = Exited t).
Proof.
  intros Hr Hrun. pose proof (reachable_orders _ _ Hr) as Hw. split.
  - apply (runs_orders now w now' w' (fun x y => forall o book, x = Resting o book -> y = Resting o book \/
      exists reason, y = Exited (mkSubTerminal o book reason (ob_escrow o))) id); auto.
    intros t x y z H Hs o book Hx. destruct (H o book Hx) as [->|[reason ->]]; inversion Hs; subst; eauto.
  - apply (runs_orders now w now' w' (fun x y => forall t, x = Exited t -> y = Exited t) id); auto.
    intros t x y z H Hs r Hx. rewrite (H r Hx) in Hs. by inversion Hs.
Qed.

(** The owner of a live resting order can always take it back: the
    cancellation returns the order as placed and records its whole escrow as
    refunded. *)
Theorem owner_can_cancel (now t0 t1 : Z) (w : ChainFiles) (id : Z) (o : OrderBookOrder)
    (book : string) (note : NotePubkey) :
  reachable now w -> now <= t0 -> order_in w id = Resting o book ->
  ob_owner_note o = owner_of note -> order_expired o t1 = false ->
  exists w', cancel_subscription_order book id note t0 t1 w = (Ok o, w') /\
    order_in w' id = Exited (mkSubTerminal o book Cancelled (ob_escrow o)).
Proof.
  intros Hr Ht Ho Hn Hx. destruct (load_ok consts w now t0 (reachable_inv _ _ Hr) Ht) as (st & Hl & _).
  destruct (load_orders w t0 st (reachable_orders _ _ Hr) Hl) as [Hi Hs]. specialize (Hs id). rewrite Ho in Hs.
  unfold status_of in Hs. destruct (subscription_terminal_orders st !! id) eqn:Et; [done|].
  destruct (subscription_orders st !! id) as [o'|] eqn:Eo; [|done]. simplify_eq.
  destruct (oi_books st Hi id ltac:(by rewrite Eo)) as [b Hb]. rewrite Hb. simpl.
  pose proof (remove_move t1 id Cancelled st Hi ltac:(done)) as [Hi' _]. rewrite Eo in Hi'. simpl in Hi'.
  unfold cancel_subscription_order, swept_state, owned_order. rewrite Hl, Eo. simpl. rewrite Hx, Eo, Hn.
  rewrite !bool_decide_true by done. simpl. eexists. split; [done|].
  destruct (store_orders w _ Hi') as [_ ->]. unfold status_of, remove_subscription_order_from_book.
  rewrite Eo, Hb. simpl. by rewrite lookup_insert_eq.
Qed.
(** ** Fills *)
Lemma seller_fill_unseen st seller cursor tc t f :
  seller_fill order_id_of st seller cursor tc = Some (t, f) ->
  has_seen cursor t tc = false /\ mf_token_contract f = tc.
Proof.
  unfold seller_fill. destruct (negb _); [done|]. destruct (matched_offers st !! tc); [|done].
  destruct (has_seen _ _ _) eqn:E; [done|]. intros. by simplify_eq.
Qed.

Lemma omap_none {A B} (g : A -> option B) l : (forall x, x ∈ l -> g x = None) -> omap g l = [].
Proof.
  induction l as [|x l IH]; simpl; [done|]. intros H. rewrite (H x) by constructor. apply IH. intros. apply H. by constructor.
Qed.
Lemma load_same w t t' st st' : load_state w t = Ok st -> load_state w t' = Ok st' -> st' = st.
Proof.
  unfold load_state. destruct (sidecar w); intros H H'; [ok_step H; ok_step H'|]; congruence.
Qed.
Lemma record_since c evs : since_unix (record_seen_batch c evs) = since_unix c.
Proof. unfold record_seen_batch. by destruct (fold_left _ evs _) as [[?|] ?]. Qed.
Lemma seller_fill_cursor st seller cursor tc t f evs :
  has_seen cursor t tc = false -> seller_fill order_id_of st seller (record_seen_batch cursor evs) tc = Some (t, f) ->
  seller_fill order_id_of st seller (record_seen_batch cursor evs) tc = seller_fill order_id_of st seller cursor tc.
Proof.
  unfold seller_fill. rewrite record_since. intros Hn H. destruct (negb _); [done|].
  destruct (matched_offers st !! tc); [|done]. destruct (has_seen (record_seen_batch _ _) _ _); [done|].
  simplify_eq. by rewrite Hn.
Qed.

Lemma poll_distinct st seller cursor :
  NoDup (map mf_token_contract (map snd (sort_by fill_le
    (omap (fun '(tc, _) => seller_fill order_id_of st seller cursor tc) (map_to_list (matches st)))))).
Proof.
  rewrite sort_by_perm. pose proof (NoDup_fst_map_to_list (matches st)) as Hnd.
  induction (map_to_list (matches st)) as [|[tc m] l IH]; simpl in *; [constructor|].
  apply NoDup_cons in Hnd as [Hni Hnd]. destruct (seller_fill _ _ _ _ tc) as [[t f]|] eqn:E; [|auto].
  simpl. constructor; [|auto]. apply seller_fill_unseen in E as [_ ->]. intros Hin. apply Hni.
  apply list_elem_of_In, in_map_iff in Hin as (f' & Hf & Hin).
  apply in_map_iff in Hin as ([t' f''] & Hs & Hin). simpl in Hs. subst f''.
  apply list_elem_of_In, list_elem_of_omap in Hin as ([tc' m'] & Hin & Hx). apply seller_fill_unseen in Hx as [_ Hx].
  apply list_elem_of_fmap. exists (tc', m'). split; [by rewrite <- Hf, Hx|done].
Qed.

(** A seller hears of each fill once.  A poll reports exactly the matches of
    the caller's contracts that its cursor had not seen, at most one per
    contract, and changes no file; polling again with the cursor it returned
    reports nothing. *)
Theorem fills_are_reported_once (note : NotePubkey) (cursor cursor' : MatchWatchCursor) (t0 t1 : Z)
    (w w' : ChainFiles) (fs : list MatchedFill) :
  poll_seller_fills order_id_of note cursor t0 w = (Ok (fs, cursor'), w') ->
  w' = w /\ NoDup (map mf_token_contract fs) /\
  (exists st, load_state w t0 = Ok st /\
    forall f, In f fs <-> exists tc m t, matches st !! tc = Some m /\
      seller_fill order_id_of st (note_id_hex note) cursor tc = Some (t, f)) /\
  (forall fs2 cursor2 w2, poll_seller_fills order_id_of note cursor' t1 w = (Ok (fs2, cursor2), w2) -> fs2 = []).
Proof.
  intros H. unfold poll_seller_fills, reading in H. injection H as H <-. ok_step H. rename a into st. injection H as <- <-.
  set (cand := omap (fun '(tc, _) => seller_fill order_id_of st (note_id_hex note) cursor tc) (map_to_list (matches st))).
  set (evs := map (fun '(created_at, fill) => (created_at, mf_token_contract fill)) (sort_by fill_le cand)).
  assert (forall t f, (t, f) ∈ cand <-> exists tc m, matches st !! tc = Some m /\
    seller_fill order_id_of st (note_id_hex note) cursor tc = Some (t, f)) as Hcand.
  { intros t f. unfold cand. rewrite list_elem_of_omap. split.
    - intros ([tc m] & Hin & Hf). exists tc, m. by rewrite <- elem_of_map_to_list.
    - intros (tc & m & Hm & Hf). exists (tc, m). by rewrite elem_of_map_to_list. }
  split_and!; [done|by apply poll_distinct| |].
  - exists st. split; [done|]. intros f. rewrite <- list_elem_of_In, list_elem_of_fmap.
    setoid_rewrite (sort_by_perm fill_le cand). split.
    + intros ([t f'] & -> & Hin). apply Hcand in Hin as (tc & m & ? & ?). by exists tc, m, t.
    + intros (tc & m & t & ? & ?). exists (t, f). split; [done|]. apply Hcand. by exists tc, m.
  - intros fs2 c2 w2 H2. unfold poll_seller_fills, reading in H2. injection H2 as H2 _. ok_step H2.
    assert (a = st) as -> by (by eapply load_same). injection H2 as <- _.
    enough (omap (fun '(tc, _) => seller_fill order_id_of st (note_id_hex note) (record_seen_batch cursor evs) tc)
      (map_to_list (matches st)) = []) as -> by done.
    apply omap_none. intros [tc m] Hin%elem_of_map_to_list.
    destruct (seller_fill _ _ _ (record_seen_batch cursor evs) tc) as [[t f]|] eqn:Ef; [|done]. exfalso.
    destruct (has_seen cursor t tc) eqn:Eh.
    + apply seller_fill_unseen in Ef as [Ef _]. rewrite (seen_kept cursor evs t tc Eh) in Ef. done.
    + pose proof (seller_fill_unseen _ _ _ _ _ _ Ef) as [Hu Htc].
      assert (seller_fill order_id_of st (note_id_hex note) cursor tc = Some (t, f)) as Ef'.
      { rewrite <- Ef. symmetry. apply (seller_fill_cursor st (note_id_hex note) cursor tc t f evs Eh Ef). }
      rewrite (recorded_seen cursor evs t tc tc) in Hu; [done| |by apply tc_same_iff].
      apply list_elem_of_In, list_elem_of_fmap. exists (t, f). rewrite Htc. split; [done|].
      rewrite sort_by_perm. apply Hcand. by exists tc, m.
Qed.
End Runs.
