(* ===== verification/MockReads.v ===== *)
(** * MockReads: what the read calls report

    On every reachable file the getters answer, agree with each other and with
    the accounting module. *)
From S2P Require Import Prelude Text Params Settle Address MarketTypes Machine Conservation.
From S2P Require Import Accounting Quote MockDeal MockDealInv MockDealOps MockDealLive MockMarket.
From S2P Require Import MockInvariant MockReach MockLife MockSafety.

Section Reads.
Context (consts : ProtocolConsts) (Hc : consts_typed consts).
Context (params : DobParams) (order_id_of : TokenContract -> Z).

(** The slot behind a funded, live or ended contract. *)
Lemma matched_lookup w now t tc :
  files_inv consts w now -> now <= t ->
  match life_in w tc with Idle _ | Listed _ _ => False | _ => True end ->
  exists st o k s m created, load_state w t = Ok st /\ matched_offers st !! tc = Some o /\
    deal_subscriptions st !! tc = Some s /\ matches st !! tc = Some m /\
    match_created_at st !! tc = Some created /\ funded_ok consts tc t o k s m created /\
    match life_in w tc with
    | Funded _ m' since => m' = m /\ since = created /\ streams st !! tc = None
    | Live _ m' c s' | Ended _ m' c s' => m' = m /\ s' = s /\ streams st !! tc = Some c /\
        deal_inv consts c s t /\ cprice c = m_price_per_tick m
    | _ => False
    end.
Proof.
  intros Hw Ht Hl. destruct (load_life consts w now t Hw Ht) as (st & Hld & Hi & Hli).
  rewrite Hli in *. pose proof (Hi tc) as Hs. unfold slot_of in *.
  inversion Hs as [sel Hsel E|o sel Ho Hsel E|o k s sel m cr Hf Hsel Hfr E|o k s sel m cr c Hf Hsel Hd Hcell E];
    unfold life_of in *; simpl in *;
    repeat match goal with X : _ = _ !! tc |- _ => rewrite <- X in *; revert X end; intros; simpl in *;
    try done; try (by destruct sel).
  - exists st, o, k, s, m, cr. by split_and!.
  - destruct Hcell as (? & ? & ?). exists st, o, k, s, m, cr. by destruct (c_closed c); split_and!.
Qed.

(** A price of the market is a whole number of steps, so the fee of a tick is
    exact and the fee of a volume is the sum of the fees of its ticks. *)
Lemma cost_is_escrow k p : platform_fee_bps consts = PLATFORM_FEE_BPS -> p mod PRICE_STEP = 0 ->
  cost_of consts (k * TICK_SIZE) p = k * unit_cost p.
Proof.
  intros Hf Hp. apply Z.mod_divide in Hp as [j ->]; [|done]. unfold cost_of, fee_of, unit_cost.
  rewrite pay_of_tick, Hf. unfold PLATFORM_FEE_BPS, PRICE_STEP.
  replace (k * (j * 1000000000) * 250) with (k * j * 25000000 * 10000) by ring.
  replace (j * 1000000000 * 250) with (j * 25000000 * 10000) by ring. rewrite !Z.div_mul by done. ring.
Qed.

Lemma sell_offer_step o : validate_mock_sell_offer consts o = Ok tt -> so_price_per_tick o mod PRICE_STEP = 0.
Proof.
  intros H. unfold validate_mock_sell_offer in H. do 2 ok_step H. apply orb_false_iff in E0 as [_ E0].
  by apply negb_false_iff, Z.eqb_eq in E0.
Qed.

(** The market holds exactly the escrow the buyer's pre-flight computed.  For
    a funded deal the deposit it reports is the one amount the escrow check
    accepts for the deal's volume and price. *)
Theorem deposit_is_the_quoted_escrow (now t0 : Z) (w : ChainFiles) (tc : TokenContract)
    (seller : string) (m : Match) (since : Z) :
  platform_fee_bps consts = PLATFORM_FEE_BPS ->
  reachable consts params order_id_of now w -> now <= t0 -> life_in w tc = Funded seller m since ->
  exists ds s k, deal_state consts tc t0 w = (Ok (Some ds), w) /\
    deal_subscription tc t0 w = (Ok (Some s), w) /\ funded_tokens s = k * TICK_SIZE /\
    check_buy_deposit_headroom (ds_deposit ds) k (m_price_per_tick m) = Ok tt.
Proof.
  intros Hf Hr Ht Hl.
  destruct (matched_lookup w now t0 tc (reachable_inv _ Hc _ _ _ _ Hr) Ht) as (st & o & k & s & m' & cr & Hld & L1 & L2 & L3 & L4 & Hfu & Hk);
    [by rewrite Hl|]. rewrite Hl in Hk. destruct Hk as (<- & <- & L5).
  destruct (funded_deposit consts Hc _ _ _ _ _ _ _ Hfu) as (F1 & F2 & F3).
  eexists _, s, k. unfold deal_state, deal_subscription, reading, mock_deal_subscription.
  rewrite Hld, (funded_state_read consts Hc st tc t0 o k s m since), L2 by done. split_and!; try done; [by destruct Hfu|].
  simpl. unfold check_buy_deposit_headroom.
  pose proof (fu_funded _ _ _ _ _ _ _ _ Hfu) as Hfk.
  assert (m_price_per_tick m mod PRICE_STEP = 0) as Hstep.
  { destruct Hfu. rewrite fu_price. destruct fu_offer as (_ & _ & _ & Hv). by apply sell_offer_step in Hv. }
  rewrite Hfk, cost_is_escrow in * by done.
  rewrite (proj2 (escrow_some k (m_price_per_tick m) (k * unit_cost (m_price_per_tick m)))).
  - simpl. by rewrite Z.ltb_irrefl.
  - split_and!; [|done|done]. split; [unfold PLATFORM_FEE_BPS; ilia|].
    pose proof (unit_cost_bounds (m_price_per_tick m) ltac:(lia)). destruct Hfu. nia.
Qed.
(** The bonds of a deal, by phase. *)
Lemma deal_bonds c s t : deal_inv consts c s t ->
  if c_closed c then c_seller_locked c = 0 /\ c_buyer_bond c = 0 /\ c_probe_locked c = 0 /\ c_disputed c = false
  else c_seller_locked c = 2 * cprice c /\ c_buyer_bond c = buyer_bond_of c s.
Proof.
  intros (_ & Hp & _). unfold phase in Hp. destruct (c_closed c).
  - destruct Hp. tauto.
  - destruct (c_probe_accepted c); [destruct Hp as [[] _]|destruct Hp]; done.
Qed.

(** The deal state the getter reports for an opened deal. *)
Definition state_of (c : StreamCell) (created : Z) : DealChainState := {|
  ds_funded := true; ds_opened := negb (c_closed c); ds_probe_accepted := c_probe_accepted c;
  ds_disputed := c_disputed c; ds_deposit := if c_closed c then 0 else c_buyer_locked c;
  ds_finalized_owed := c_seller_received c; ds_tokens_final := c_tokens_final c;
  ds_tokens_pending := c_tokens_pending c; ds_probe_tick := c_probe_locked c;
  ds_funded_time := Some created; ds_probe_time := c_probe_time c;
  ds_last_claim_time := c_last_claim_time c; ds_dispute_time := c_dispute_time c |}.
Lemma opened_state_read st tc t o k s m created c :
  funded_ok consts tc t o k s m created -> streams st !! tc = Some c ->
  matches st !! tc = Some m -> match_created_at st !! tc = Some created ->
  mock_deal_state consts st tc = Ok (Some (state_of c created)).
Proof.
  intros Hf H1 H2 H3. unfold mock_deal_state, mock_funded_time, is_key.
  rewrite H1, H2, H3, bool_decide_true by done. simpl.
  by rewrite (proj2 (Z.ltb_ge created 0)) by (destruct Hf; lia).
Qed.
Lemma state_of_stopped c created : c_closed c = true -> c_probe_locked c = 0 -> c_disputed c = false ->
  is_stopped (state_of c created) = true.
Proof. intros H1 H2 H3. unfold is_stopped; simpl. by rewrite H1, H2, H3. Qed.

(** The getters pass the cross check. *)
Lemma snapshot_valid tc t o k s m created hash boc ds held bheld :
  funded_ok consts tc t o k s m created -> ds_funded ds = true ->
  let bond := 2 * m_price_per_tick m in
  (ds_opened ds = true -> held = bond) -> 0 <= held <= bond -> 0 <= bheld <= bond ->
  (is_stopped ds = false -> is_subscription s = true -> bheld = bond) ->
  validate_cross_getter_invariants {|
    sn_account_code_hash := hash; sn_account_boc_hash := boc; sn_state := ds; sn_subscription := s;
    sn_seller_bond := {| sb_bond_funded := true; sb_bond_held := held; sb_bond_required := bond |};
    sn_buyer_bond := {| bb_bond_held := bheld;
                        bb_bond_required := if is_subscription s then bond else 0 |} |} = Ok tt.
Proof.
  intros Hf Hfu bond Ho Hh Hb Hl. destruct (funded_deposit consts Hc _ _ _ _ _ _ _ Hf) as (_ & Hp & _).
  unfold validate_cross_getter_invariants; simpl. rewrite Hfu. simpl.
  rewrite (proj2 (Z.ltb_ge (funded_tokens s) _)) by (destruct Hf; unfold TICK_SIZE in *; lia).
  rewrite (proj2 (Z.ltb_ge bond held)), (proj2 (Z.ltb_ge bond bheld)) by lia. rewrite andb_false_r.
  rewrite (proj2 (Z.eqb_neq bond 0)) by (unfold bond; lia).
  destruct (ds_opened ds); simpl; [rewrite Ho, Z.eqb_refl by done; simpl|];
    (destruct (is_subscription s); rewrite Z.eqb_refl; simpl; [|done]);
    (destruct (is_stopped ds); simpl; [done|]); rewrite Hl, Z.eqb_refl by done;
    by rewrite (proj2 (Z.eqb_neq bond 0)) by (unfold bond; lia).
Qed.

(** The combined read of an opened deal. *)
Lemma opened_snapshot_read w now t0 tc m c s :
  files_inv consts w now -> now <= t0 ->
  match life_in w tc with
  | Live _ m' c' s' | Ended _ m' c' s' => m' = m /\ c' = c /\ s' = s
  | _ => False
  end ->
  exists sn created, deal_snapshot consts tc t0 w = (Ok (Some sn), w) /\
    sn_state sn = state_of c created /\ sn_subscription sn = s /\
    sb_bond_held (sn_seller_bond sn) = c_seller_locked c /\
    bb_bond_held (sn_buyer_bond sn) = c_buyer_bond c.
Proof.
  intros Hw Ht Hl. destruct (matched_lookup w now t0 tc Hw Ht)
    as (st & o & k & s0 & m0 & cr & Hld & L1 & L2 & L3 & L4 & Hfu & Hk); [by destruct (life_in w tc)|].
  assert (m0 = m /\ s0 = s /\ streams st !! tc = Some c /\ deal_inv consts c s t0 /\ cprice c = m_price_per_tick m)
    as (-> & -> & L5 & Hd & Hpc).
  { destruct (life_in w tc); try done; destruct Hl as (-> & -> & ->), Hk as (-> & -> & ? & ? & ?); done. }
  destruct (funded_deposit consts Hc _ _ _ _ _ _ _ Hfu) as (F1 & F2 & F3).
  pose proof (fu_price _ _ _ _ _ _ _ _ Hfu) as Hpo.
  unfold deal_snapshot, reading, deal_snapshot_of, mock_deal_subscription, chain. rewrite Hld, L1, L2. simpl.
  assert (u128_checked_mul (so_price_per_tick o) 2 = Some (2 * m_price_per_tick m)) as Hmul.
  { rewrite <- Hpo. unfold u128_checked_mul, checked_mul. rewrite (proj2 (Z.leb_le _ _)) by ilia. f_equal. lia. }
  rewrite Hmul, (opened_state_read st tc t0 o k s m cr c Hfu L5 L3 L4), L5. simpl.
  pose proof (deal_bonds c s t0 Hd) as Hb. unfold buyer_bond_of in Hb. rewrite Hpc in Hb.
  destruct (c_closed c) eqn:Ho.
  - destruct Hb as (Hb1 & Hb2 & Hb3 & Hb4).
    rewrite (snapshot_valid tc t0 o k s m cr);
      [by eexists _, cr|done|done|simpl; by rewrite Ho|lia|lia|].
    by rewrite state_of_stopped.
  - destruct Hb as [Hb1 Hb2].
    rewrite (snapshot_valid tc t0 o k s m cr);
      [by eexists _, cr|done|done|lia|lia|destruct (is_subscription s); lia|].
    intros _ Hs. rewrite Hs in Hb2. lia.
Qed.

(** The getters of a matched deal always answer, and agree.  For every
    funded, live or ended contract the combined snapshot passes the cross-getter
    check; its bonds are the ones the deal holds, and for a live deal what the
    snapshot calls locked for the buyer is his escrow, probe and bond. *)
Theorem snapshots_are_coherent (now t0 : Z) (w : ChainFiles) (tc : TokenContract) :
  reachable consts params order_id_of now w -> now <= t0 ->
  match life_in w tc with Idle _ | Listed _ _ => False | _ => True end ->
  exists sn, deal_snapshot consts tc t0 w = (Ok (Some sn), w) /\
    match life_in w tc with
    | Funded _ m _ => sb_bond_held (sn_seller_bond sn) = 2 * m_price_per_tick m
    | Live _ _ c s =>
        sb_bond_held (sn_seller_bond sn) = c_seller_locked c /\
        (deal_value consts c s <= U128_MAX -> snapshot_buyer_locked sn =
           Ok (c_buyer_locked c + c_probe_locked c + c_buyer_bond c))
    | Ended _ _ c s =>
        sb_bond_held (sn_seller_bond sn) = 0 /\ snapshot_buyer_locked sn = Ok 0 /\
        is_stopped (sn_state sn) = true
    | _ => False
    end.
Proof.
  intros Hr Ht Hl. pose proof (reachable_inv _ Hc _ _ _ _ Hr) as Hw.
  pose proof (life_slot consts w now tc Hw) as Ho.
  destruct (life_in w tc) as [|? ?|sel m since|sel m c s|sel m c s] eqn:El; try done.
  - destruct (matched_lookup w now t0 tc Hw Ht) as (st & o & k & s & m' & cr & Hld & L1 & L2 & L3 & L4 & Hfu & Hk);
      [by rewrite El|]. rewrite El in Hk. destruct Hk as (-> & -> & L5).
    destruct (funded_deposit consts Hc _ _ _ _ _ _ _ Hfu) as (F1 & F2 & F3).
    pose proof (fu_price _ _ _ _ _ _ _ _ Hfu) as Hpo.
    unfold deal_snapshot, reading, deal_snapshot_of, mock_deal_subscription, chain. rewrite Hld, L1, L2. simpl.
    assert (u128_checked_mul (so_price_per_tick o) 2 = Some (2 * m_price_per_tick m')) as Hmul.
    { rewrite <- Hpo. unfold u128_checked_mul, checked_mul. rewrite (proj2 (Z.leb_le _ _)) by ilia. f_equal. lia. }
    rewrite Hmul, (funded_state_read consts Hc st tc t0 o k s m' cr), L5 by done. simpl.
    rewrite (snapshot_valid tc t0 o k s m' cr) by (done || (destruct (is_subscription s); lia) || done). simpl.
    by eexists.
  - destruct (opened_snapshot_read w now t0 tc m c s Hw Ht) as (sn & cr & -> & S1 & S2 & S3 & S4); [by rewrite El|].
    destruct Ho as [Hd Ho]. destruct (deal_inv_total consts Hc _ _ _ Hd) as [[] Htot].
    exists sn. split; [done|]. split; [done|]. intros Hv. unfold snapshot_buyer_locked. rewrite S1, S4. simpl. rewrite Ho.
    unfold total in Htot. unfold u128_checked_add, checked_add.
    rewrite (proj2 (Z.leb_le (c_buyer_locked c + c_probe_locked c) _)) by lia.
    by rewrite (proj2 (Z.leb_le (c_buyer_locked c + c_probe_locked c + c_buyer_bond c) _)) by lia.
  - destruct (opened_snapshot_read w now t0 tc m c s Hw Ht) as (sn & cr & -> & S1 & S2 & S3 & S4); [by rewrite El|].
    destruct Ho as [Hd Ho]. pose proof (deal_bonds c s now Hd) as Hb. rewrite Ho in Hb.
    destruct Hb as (Hb1 & Hb2 & Hb3 & Hb4).
    exists sn. split; [done|]. split; [congruence|]. rewrite S1. split; [|by apply state_of_stopped].
    unfold snapshot_buyer_locked. rewrite S1, S4, Hb2. simpl. by rewrite Ho, Hb3.
Qed.

(** What is contested has a value that fits. *)
Lemma contested_total c s t : deal_inv consts c s t ->
  let v := pay_of (c_tokens_pending c - c_tokens_final c) (cprice c) in
  checked_mul_div_floor (c_tokens_pending c - c_tokens_final c) (price (c_machine c)) TICK_SIZE
    "buyer exposure" = Ok v /\ 0 <= v <= U128_MAX.
Proof.
  intros ([] & _). set (d := c_tokens_pending c - c_tokens_final c).
  assert (0 <= d <= funded_tokens s) by (unfold d; lia). clearbody d. cbv zeta.
  destruct (cost_of_mono consts Hc d (funded_tokens s) (cprice c)) as (H1 & _ & _); [lia|lia|].
  pose proof (fee_of_nonneg consts Hc (funded_tokens s) (cprice c) ltac:(lia) ltac:(lia)).
  pose proof (pay_of_nonneg d (cprice c) ltac:(lia) ltac:(lia)). unfold cost_of in *.
  split; [|lia]. fold (cprice c). rewrite checked_mul_div_floor_total; [done|done|lia|ilia| |unfold TICK_SIZE; ilia].
  fold (pay_of d (cprice c)). lia.
Qed.

(** The monitor never raises a false lock alarm.  The stream snapshot of an
    ended deal shows nothing locked and reports the same totals as the deal, so
    no view built on it carries the locked-after-close anomaly. *)
Theorem ended_deals_raise_no_lock_alarm (now t0 : Z) (w : ChainFiles) (tc : TokenContract)
    (seller : string) (m : Match) (c : StreamCell) (s : DealSubscription) (d : DealView) (locked : Z) :
  reachable consts params order_id_of now w -> now <= t0 -> life_in w tc = Ended seller m c s ->
  dv_snapshot d = snapshot tc t0 w ->
  exists snap, dv_snapshot d = Some snap /\ ss_closed snap = true /\
    ss_seller_received snap + ss_buyer_refunded snap + ss_burned snap = deal_value consts c s /\
    ~ In (LockedAfterClose locked) (deal_anomalies d) /\ ~ In (LockedNoMatch locked) (deal_anomalies d).
Proof.
  intros Hr Ht Hl Hd. pose proof (reachable_inv _ Hc _ _ _ _ Hr) as Hw.
  destruct (matched_lookup w now t0 tc Hw Ht) as (st & o & k & s' & m' & cr & Hld & _ & _ & _ & _ & _ & Hk);
    [by rewrite Hl|]. rewrite Hl in Hk. destruct Hk as (-> & <- & L5 & Hi & _).
  pose proof (life_slot consts w now tc Hw) as Ho. rewrite Hl in Ho. destruct Ho as [_ Ho].
  pose proof (deal_inv_total consts Hc _ _ _ Hi) as [_ Htot]. pose proof (contested_total c s t0 Hi) as [Hcv Hv].
  pose proof Hi as ([] & Hp & _). unfold phase in Hp. rewrite Ho in Hp.
  destruct Hp as [(K1 & K2 & K3 & K4 & K5) _ _ _ _ _].
  assert (snapshot tc t0 w = Some {| ss_seller_locked := 0; ss_buyer_locked := 0;
    ss_buyer_lead := pay_of (c_tokens_pending c - c_tokens_final c) (cprice c);
    ss_tokens_final := c_tokens_final c; ss_seller_received := c_seller_received c;
    ss_buyer_refunded := c_buyer_refunded c; ss_burned := c_burned c; ss_closed := true |}) as Hs.
  { unfold snapshot, checked_snapshot, reading. rewrite Hld, L5. unfold stream_snapshot_of, chain.
    rewrite K1, K2, K3, K4. simpl. unfold checked_sub. rewrite (proj2 (Z.leb_le _ _)) by lia. simpl.
    rewrite Hcv. rewrite u128_add_total by lia. by rewrite Ho. }
  rewrite Hd, Hs. eexists. split; [done|]. simpl. split; [done|]. unfold total in Htot. split; [lia|].
  unfold deal_anomalies. rewrite Hd, Hs. cbn [ss_seller_locked ss_buyer_locked ss_buyer_lead ss_closed].
  change (summary_shell (saturating_add U128_MAX 0 0)) with 0. cbn [andb Z.ltb Z.compare app].
  destruct (0 <? dv_price_per_tick d); [|simpl; tauto]. destruct (_ <? _); simpl; intuition discriminate.
Qed.
End Reads.

(** ** A subscription is paid week by week

    The weekly settlement charges every elapsed week once and at the fixed
    weekly volume, whoever calls it and however late. *)
(** The whole weeks of the subscription that have passed at [t]. *)
Definition weeks_elapsed (s : DealSubscription) (t : Z) : Z :=
  Z.min ((t - period_start s) / SUB_WEEK_LEN) (sub_weeks s).

Section Weeks.
Context (consts : ProtocolConsts) (Hc : consts_typed consts).
Context (params : DobParams) (order_id_of : TokenContract -> Z).

Lemma settle_week_charges c s now c' s' :
  settle_week_deal consts c s now = Ok (c', s') ->
  is_subscription s = true /\ week_index s' = Z.max (week_index s) (weeks_elapsed s now) /\
  (week_index s < weeks_elapsed s now \/ sub_weeks s <= week_index s) /\
  (c_closed c' = true -> c_closed c = false -> sub_weeks s <= week_index s').
Proof.
  intros H. unfold settle_week_deal in H. ok_step H. apply negb_false_iff in E as Hsub. split; [done|].
  ok_step H. destruct a as [[x c1] s1]. pose proof (charge_elapsed_guard _ _ _ _ _ Hsub E0) as Hfl.
  rewrite (charge_elapsed_unfold _ _ _ _ Hfl), Hsub in E0.
  destruct (subscription_weeks_at s now false) as [k| |] eqn:Ek; try discriminate E0.
  apply weeks_at_inv in Ek as [_ Hk]. simpl in Hk. fold (weeks_elapsed s now) in Hk. subst k.
  assert (week_index s1 = Z.max (week_index s) (weeks_elapsed s now) /\ sub_weeks s1 = sub_weeks s /\
    c_closed c1 = c_closed c /\
    (x = false -> weeks_elapsed s now <= week_index s) /\ (x = true -> week_index s < weeks_elapsed s now))
    as (W1 & W2 & W3 & W4 & W5).
  { apply charge_inv in E0 as [(-> & Hle & -> & ->)|(-> & Hlt & s2 & Hcr & ->)].
    - split_and!; try done; lia.
    - apply credit_tokens_through_inv in Hcr as (_ & -> & _ & ->). simpl. split_and!; try done; lia. }
  ok_step H. assert (week_index s < weeks_elapsed s now \/ sub_weeks s <= week_index s) as Hdue.
  { destruct x; [left; auto|]. simpl in E1. right. apply Z.ltb_ge in E1. specialize (W4 eq_refl). lia. }
  rewrite W1, W2 in H. ok_step H. destruct a.
  - destruct (Z.leb_spec (sub_weeks s) (Z.max (week_index s) (weeks_elapsed s now))); [|discriminate].
    repeat ok_step H. simplify_eq.
    match goal with X : (if _ <? _ then _ else _) = Ok (_, s') |- _ => rename X into Ep end.
    assert (week_index s' = week_index s1) as ->; [|split_and!; done || lia].
    destruct (_ <? _) in Ep; [|by simplify_eq]. by apply credit_tokens_through_inv in Ep as (_ & -> & _).
  - simplify_eq. split_and!; try done; try lia. congruence.
Qed.

(** A subscription is charged week by week.  A settlement before the next
    week boundary is refused and changes nothing; one that succeeds brings the
    charged weeks up to the elapsed ones, and while the deal stays live the
    seller has then received exactly the price of that many weekly volumes; it
    ends the deal only after the last week. *)
Theorem weeks_are_charged_once (now t0 t1 : Z) (w w' : ChainFiles) (tc : TokenContract)
    (seller : string) (m : Match) (c : StreamCell) (s : DealSubscription) (r : outcome ChainError unit) :
  reachable consts params order_id_of now w -> life_in w tc = Live seller m c s ->
  is_subscription s = true -> now <= t0 <= t1 -> settle_week consts tc t0 t1 w = (r, w') ->
  (week_index s < sub_weeks s -> weeks_elapsed s t1 <= week_index s -> is_ok r = false /\ w' = w) /\
  (r = Ok tt -> exists c' s',
     life_in w' tc = (if c_closed c' then Ended seller m c' s' else Live seller m c' s') /\
     week_index s' = Z.max (week_index s) (weeks_elapsed s t1) /\
     (c_closed c' = true -> sub_weeks s <= week_index s') /\
     (c_closed c' = false -> tokens_paid s' = week_index s' * tokens_per_week s /\
        c_seller_received c' = pay_of (tokens_paid s') (cprice c))).
Proof.
  intros Hr Hl Hsub Ht H. pose proof (reachable_inv _ Hc _ _ _ _ Hr) as Hw.
  destruct (live_lookup consts w now t0 tc seller m c s Hw ltac:(lia) Hl) as (st & Hld & _ & L1 & L2 & _ & _ & Hd & _).
  pose proof (life_slot consts w now tc Hw) as Ho. rewrite Hl in Ho. destruct Ho as [_ Ho].
  destruct (settle_week_deal consts c s t1) as [[c' s']| |] eqn:E.
  2,3: unfold settle_week, writing, on_deal, chain, no_result in H; rewrite Hld, L1, L2 in H; simpl in H;
    rewrite E in H; simplify_eq; split; done.
  pose proof (settle_week_charges _ _ _ _ _ E) as (_ & W1 & W2 & W3). split.
  { intros. lia. }
  intros ->. destruct (settle_week_inv consts Hc c s t0 t1 c' s' Hd ltac:(lia) E) as [Hd' Hfr].
  destruct (deal_call consts w now t0 t1 tc seller m c s (fun st => on_deal tc st (fun cell sub =>
    no_result (settle_week_deal consts cell sub t1))) (fun cell sub => no_result (settle_week_deal consts cell sub t1)) tt c' s')
    as (w1 & E1 & E2); try done; try lia; [unfold no_result; by rewrite E|].
  assert (w1 = w') as -> by (unfold settle_week in H; congruence).
  exists c', s'. split; [done|]. split; [done|]. split; [auto|]. intros Ho'.
  destruct Hd' as (Hs' & Hp & _). unfold phase in Hp. rewrite Ho' in Hp.
  destruct Hfr as [[T1 T2 T3 T4] Fb Ft Fp]. destruct Hd as (Hs & _).
  assert (0 < week_index s') as Hpos.
  { destruct (sh_weeks _ _ _ Hs) as [(Hz & _)|(Hz & Hb & _)]; unfold is_subscription, SUBSCRIPTION_WEEKS in *; lia. }
  destruct (c_probe_accepted c'); [|destruct Hp as [_ (_ & Hz & _)]; lia].
  destruct Hp as [Hb _]. rewrite (st_paid_weeks _ _ _ Hb Hpos), T3. split; [done|].
  destruct (st_paid _ _ _ Hb) as [_ ->]. by rewrite (st_paid_weeks _ _ _ Hb Hpos), T3, Fp.
Qed.
End Weeks.
