(* ===== verification/MockSample.v ===== *)
(** * MockSample: a run on which the theorems are evaluated

    One ordinary deal from listing to its end, with the branches a buyer can
    take, on the canonical protocol constants; every reachability fact is one
    call of the backend evaluated by the kernel. *)
From Stdlib Require Import Ascii.
From S2P Require Import Prelude Text Params Settle Address MarketTypes Machine Conservation.
From S2P Require Import Accounting Quote MockDeal MockDealInv MockDealOps MockDealLive.
From S2P Require Import MockMarket MockInvariant MockReach MockOrders MockLife MockSafety.
From S2P Require Import MockReads.

Definition sample_note (n : Z) : NotePubkey := mkNotePubkey (repeat n 32) (repeat n 32).
Definition alice : NotePubkey := sample_note 1.
Definition bob : NotePubkey := sample_note 2.
Definition sample_tc : TokenContract := "tc-1".
Definition sample_order_id (_ : TokenContract) : Z := 7.
Definition sample_offer : SellOffer := mkSellOffer (2 * PRICE_STEP) 8 sample_tc 0.

(** Listed at 1000, bought at 1010, opened at 1020, accepted after the probe
    window, claimed a minute later, disputed, stopped. *)
Definition w_listed : ChainFiles :=
  snd (post_offer canonical sample_offer alice 1000 1000 empty_files).
Definition w_funded : ChainFiles :=
  snd (place_buy_ticks_inner sample_tc bob (Some 4) 1010 1010 1010 w_listed).
Definition w_open : ChainFiles :=
  snd (open_stream canonical dob_canonical sample_tc [1; 2] alice 1020 1020 w_funded).
Definition w_accepted : ChainFiles := snd (accept_probe canonical sample_tc 5000 5000 w_open).
Definition w_claimed : ChainFiles :=
  snd (claim_tokens canonical sample_tc alice (TICK_SIZE + TICK_SIZE / 2) 5100 5100 5100 w_accepted).
Definition w_disputed : ChainFiles := snd (dispute sample_tc bob 5110 5110 w_claimed).
Definition w_stopped : ChainFiles := snd (stop canonical sample_tc bob 5200 5200 5200 w_claimed).

Definition sample_reachable : Z -> ChainFiles -> Prop :=
  reachable canonical dob_canonical sample_order_id.

Lemma sample_start now : sample_reachable now empty_files.
Proof. exists now. apply rtc_refl. Qed.
Lemma sample_next now w now' w' : sample_reachable now w ->
  market_step canonical dob_canonical sample_order_id (now, w) (now', w') -> sample_reachable now' w'.
Proof. intros [start H] Hs. exists start. by eapply rtc_r. Qed.

Lemma canonical_typed : consts_typed canonical.
Proof. apply canonical_sane. Qed.

(** Decide a closed side condition. *)
Ltac decided := vm_compute; repeat split; (reflexivity || discriminate || lia).
Lemma sample_note_typed n : in_u8 n -> note_typed (sample_note n).
Proof. intros H. split; [apply repeat_length|]. by apply Forall_forall; intros x ->%list_elem_of_In%repeat_spec. Qed.

Lemma listed_reachable : sample_reachable 1000 w_listed.
Proof.
  eapply sample_next; [apply (sample_start 1000)|]. eapply s_post_offer; [..|apply surjective_pairing];
    [decided|decided|apply sample_note_typed; decided|lia|decided].
Qed.
Lemma funded_reachable : sample_reachable 1010 w_funded.
Proof.
  eapply sample_next; [apply listed_reachable|]. eapply s_buy; [..|apply surjective_pairing];
    [apply sample_note_typed; decided|lia|lia|decided].
Qed.
Lemma open_reachable : sample_reachable 1020 w_open.
Proof.
  eapply sample_next; [apply funded_reachable|]. eapply s_open; [..|apply surjective_pairing]; [lia|decided].
Qed.
Lemma accepted_reachable : sample_reachable 5000 w_accepted.
Proof.
  eapply sample_next; [apply open_reachable|]. eapply s_accept; [..|apply surjective_pairing]; [lia|decided].
Qed.
Lemma claimed_reachable : sample_reachable 5100 w_claimed.
Proof.
  eapply sample_next; [apply accepted_reachable|]. eapply s_claim; [..|apply surjective_pairing]; [lia|lia|decided].
Qed.
Lemma disputed_reachable : sample_reachable 5110 w_disputed.
Proof.
  eapply sample_next; [apply claimed_reachable|]. eapply s_dispute; [..|apply surjective_pairing]; [lia|decided].
Qed.
Lemma stop_step_sample :
  market_step canonical dob_canonical sample_order_id (5100, w_claimed) (5200, w_stopped).
Proof. eapply s_stop; [..|apply surjective_pairing]; [lia|lia|decided]. Qed.
Lemma stopped_reachable : sample_reachable 5200 w_stopped.
Proof. eapply sample_next; [apply claimed_reachable|apply stop_step_sample]. Qed.

(** ** The theorems on the ordinary deal *)
Lemma reachable_files_load_witness : exists st, load_state w_claimed 6000 = Ok st.
Proof.
  apply (reachable_files_load canonical canonical_typed dob_canonical sample_order_id 5100).
  - apply claimed_reachable.
  - lia.
Defined.

Lemma market_refines_lifecycle_witness :
  life_step 5200 (life_in w_claimed sample_tc) (life_in w_stopped sample_tc).
Proof.
  apply (market_refines_lifecycle canonical canonical_typed dob_canonical sample_order_id 5100 5200).
  - apply claimed_reachable.
  - apply stop_step_sample.
Defined.

Lemma deals_are_permanent_witness :
  exists seller m c s c' s', life_in w_claimed sample_tc = Live seller m c s /\ deal_frame c s c' s' /\
    (life_in w_stopped sample_tc = Live seller m c' s' \/ life_in w_stopped sample_tc = Ended seller m c' s').
Proof.
  destruct (deals_are_permanent canonical canonical_typed dob_canonical sample_order_id
    5100 5200 w_claimed w_stopped sample_tc claimed_reachable (rtc_once _ _ stop_step_sample)) as (_ & H & _).
  destruct (life_in w_claimed sample_tc) as [| | |seller m c s|] eqn:E; try (vm_compute in E; discriminate E).
  destruct (H seller m c s eq_refl) as (c' & s' & Hf & Hl). exists seller, m, c, s, c', s'.
  split; [reflexivity|]. split; [exact Hf|exact Hl].
Defined.

Lemma reachable_money_conserved_witness :
  match life_in w_stopped sample_tc with
  | Ended _ _ c s =>
      c_seller_received c + c_buyer_refunded c + c_burned c = deal_value canonical c s /\
      c_buyer_locked c = 0 /\ c_probe_locked c = 0 /\ c_buyer_bond c = 0 /\
      c_seller_locked c = 0 /\ c_fee_accrued c = 0 /\ amounts_ok c
  | _ => False
  end.
Proof.
  pose proof (reachable_money_conserved canonical canonical_typed dob_canonical sample_order_id
    5200 w_stopped sample_tc stopped_reachable) as H.
  destruct (life_in w_stopped sample_tc) eqn:E; try (vm_compute in E; discriminate E). exact H.
Defined.

Lemma ended_deal_settles_in_ledger_witness :
  exists seller m c s l st, life_in w_stopped sample_tc = Ended seller m c s /\
    replay (deal_flows canonical c s seller (note_id_hex bob)) = Ok l /\ settle_destroyed l = Ok st /\
    set_funded_in st = deal_value canonical c s.
Proof.
  do 4 eexists. edestruct (ended_deal_settles_in_ledger canonical canonical_typed dob_canonical sample_order_id
    5200 w_stopped sample_tc (note_id_hex alice) (note_id_hex bob)) as (l & st & H1 & H2 & H3 & _);
    [apply stopped_reachable|vm_compute; reflexivity| | |].
  3: { exists l, st. split; [vm_compute; reflexivity|]. split; [exact H1|]. split; [exact H2|exact H3]. }
  all: vm_compute; discriminate.
Defined.

Lemma buyer_can_always_stop_witness :
  exists seller m c s x w' c' s', life_in w_claimed sample_tc = Live seller m c s /\
    stop canonical sample_tc bob 5200 5200 5200 w_claimed = (Ok x, w') /\
    life_in w' sample_tc = Ended seller m c' s' /\ stop_result canonical c s 5200 5200 x c' s'.
Proof.
  do 4 eexists. edestruct (buyer_can_always_stop canonical canonical_typed dob_canonical sample_order_id
    5100 5200 5200 5200 w_claimed sample_tc bob) as (x & w' & c' & s' & H1 & H2 & H3);
    [apply canonical_sane|apply claimed_reachable|vm_compute; reflexivity| | | | | | |].
  7: { exists x, w', c', s'. split; [vm_compute; reflexivity|]. split; [exact H1|]. split; [exact H2|exact H3]. }
  all: vm_compute; repeat split; reflexivity || discriminate.
Defined.

Lemma disputes_always_resolve_witness :
  exists seller m c s, life_in w_disputed sample_tc = Live seller m c s /\
  (exists refund w' c' s', release_dispute canonical sample_tc 5710 w_disputed =
     (Ok (SellerNoShow refund (2 * cprice c)), w') /\ life_in w' sample_tc = Ended seller m c' s' /\
     dispute_result canonical c s false refund (2 * cprice c) c') /\
  (exists refund bond w' c' s',
     resolve_dispute_timeout canonical sample_tc 5710 5710 w_disputed = (Ok (SellerNoShow refund bond), w') /\
     life_in w' sample_tc = Ended seller m c' s' /\ dispute_result canonical c s true refund bond c') /\
  0 <= buyer_stake canonical c s <= 2 * cprice c /\
  (is_subscription s = true -> cprice c <= buyer_stake canonical c s).
Proof.
  do 4 eexists. split; [vm_compute; reflexivity|].
  apply (disputes_always_resolve canonical canonical_typed dob_canonical sample_order_id 5110 5710 5710);
    [apply canonical_sane|apply disputed_reachable|vm_compute; reflexivity|..];
    vm_compute; repeat split; reflexivity || discriminate.
Defined.

Lemma claims_are_bounded_witness :
  exists seller m c s c' s', life_in w_accepted sample_tc = Live seller m c s /\
    life_in w_claimed sample_tc = Live seller m c' s' /\
    c_tokens_pending c' = TICK_SIZE + TICK_SIZE / 2 /\ c_tokens_final c' = c_tokens_pending c /\
    total c' = total c.
Proof.
  do 4 eexists. edestruct (claims_are_bounded canonical canonical_typed dob_canonical sample_order_id
    5000 5100 5100 5100 (TICK_SIZE + TICK_SIZE / 2) w_accepted w_claimed sample_tc alice)
    as [_ [[H _]|(c' & s' & H1 & _ & _ & _ & H2 & H3 & H4 & _)]];
    [apply accepted_reachable|vm_compute; reflexivity|lia|lia|lia| | |].
  - transitivity (fst (claim_tokens canonical sample_tc alice (TICK_SIZE + TICK_SIZE / 2) 5100 5100 5100 w_accepted), w_claimed);
      [apply surjective_pairing|f_equal; vm_compute; reflexivity].
  - vm_compute in H. discriminate H.
  - exists c', s'. split; [vm_compute; reflexivity|]. split; [exact H1|]. split; [exact H2|]. split; [exact H3|exact H4].
Defined.

Lemma cleanup_refunds_in_full_witness :
  exists seller m since w', life_in w_funded sample_tc = Funded seller m since /\
    cleanup_unopened canonical sample_tc 1610 1610 w_funded =
      (Ok (SellerNoShow (cost_of canonical (4 * TICK_SIZE) (2 * PRICE_STEP)) (2 * m_price_per_tick m)), w') /\
    life_in w' sample_tc = Idle (Some seller).
Proof.
  do 3 eexists. edestruct (cleanup_refunds_in_full canonical canonical_typed dob_canonical sample_order_id
    1010 1610 1610 w_funded sample_tc) as (s & Hs & H);
    [apply funded_reachable|vm_compute; reflexivity|lia|vm_compute; discriminate|].
  apply (f_equal fst) in Hs. vm_compute in Hs. injection Hs as <-.
  destruct H as (w' & H1 & H2); [vm_compute; discriminate|].
  exists w'. split; [vm_compute; reflexivity|]. split; [exact H1|exact H2].
Defined.

Lemma reclaim_check_predicts_cleanup_witness :
  exists ds, deal_state canonical sample_tc 1610 w_funded = (Ok (Some ds), w_funded) /\
    (check_reclaimable ds (Some "b") "b" (Some [2]) [2] 1610 MATCH_OPEN_TIMEOUT_SECS = Ok tt <->
     is_ok (fst (cleanup_unopened canonical sample_tc 1610 1610 w_funded)) = true).
Proof.
  eexists. split; [unfold deal_state, reading; f_equal; vm_compute; reflexivity|].
  eapply (reclaim_check_predicts_cleanup canonical canonical_typed dob_canonical sample_order_id 1010 1610 1610);
    [apply funded_reachable|vm_compute; reflexivity|lia|vm_compute; discriminate| |vm_compute; discriminate].
  unfold deal_state, reading; f_equal; vm_compute; reflexivity.
Defined.

Lemma terminal_calls_never_panic_witness :
  fst (release_dispute canonical sample_tc 6000 w_stopped) <> Panic /\
  fst (stop canonical sample_tc bob 6000 6000 6000 w_stopped) <> Panic.
Proof.
  destruct (terminal_calls_never_panic canonical canonical_typed dob_canonical sample_order_id
    5200 6000 6000 6000 w_stopped sample_tc bob "mock:") as (H1 & _ & _ & H4 & _);
    [apply stopped_reachable|lia|]. split; [exact H4|exact H1].
Defined.

(** ** A subscription order *)
Definition sub_flags : Z := Z.lor flags.AON flags.SUBSCRIPTION.
Definition sub_price : Z := 2 * PRICE_STEP.
Definition sub_escrow : Z := 8 * unit_cost sub_price + sub_price * SUBSCRIPTION_BUYER_BOND_TICKS.
Definition w_order : ChainFiles := snd (place_subscription_order "book-1" bob sub_price 8 sub_escrow
  sub_flags 5000 1000 1000 empty_files).
Definition w_cancelled : ChainFiles := snd (cancel_subscription_order "book-1" 1 bob 1100 1100 w_order).

Lemma place_step_sample :
  market_step canonical dob_canonical sample_order_id (1000, empty_files) (1000, w_order).
Proof.
  eapply s_place_sub; [..|apply surjective_pairing]; [apply sample_note_typed; decided|lia|decided].
Qed.
Lemma order_reachable : sample_reachable 1000 w_order.
Proof. eapply sample_next; [apply (sample_start 1000)|apply place_step_sample]. Qed.
Lemma cancel_step_sample :
  market_step canonical dob_canonical sample_order_id (1000, w_order) (1100, w_cancelled).
Proof. eapply s_cancel_sub; [..|apply surjective_pairing]; [lia|decided]. Qed.

Lemma orders_move_one_step_witness : order_step 1100 (order_in w_order 1) (order_in w_cancelled 1).
Proof.
  apply (orders_move_one_step canonical dob_canonical sample_order_id 1000 1100).
  - apply order_reachable.
  - apply cancel_step_sample.
Defined.

Lemma order_records_are_final_witness :
  exists o book reason, order_in w_order 1 = Resting o book /\
    order_in w_cancelled 1 = Exited (mkSubTerminal o book reason (ob_escrow o)).
Proof.
  destruct (order_records_are_final canonical dob_canonical sample_order_id
    1000 1100 w_order w_cancelled 1 order_reachable (rtc_once _ _ cancel_step_sample)) as [H _].
  do 2 eexists. edestruct H as [H1|[reason H1]]; [vm_compute; reflexivity| |].
  - vm_compute in H1. discriminate H1.
  - exists reason. split; [vm_compute; reflexivity|exact H1].
Defined.

Lemma owner_can_cancel_witness :
  exists o w', order_in w_order 1 = Resting o "book-1" /\
    cancel_subscription_order "book-1" 1 bob 1100 1100 w_order = (Ok o, w') /\
    order_in w' 1 = Exited (mkSubTerminal o "book-1" Cancelled (ob_escrow o)).
Proof.
  eexists. edestruct (fun o => owner_can_cancel canonical canonical_typed dob_canonical sample_order_id
    1000 1100 1100 w_order 1 o "book-1" bob) as (w' & H1 & H2);
    [apply order_reachable|lia|vm_compute; reflexivity|vm_compute; reflexivity|vm_compute; reflexivity|].
  exists w'. split; [vm_compute; reflexivity|]. split; [exact H1|exact H2].
Defined.

(** ** Reads *)
Definition sample_fill : MatchedFill := mkMatchedFill 7 sample_tc 4 (2 * PRICE_STEP).
Definition sample_cursor : MatchWatchCursor := mkCursor 0 (Some 1010) [sample_tc].
Lemma sample_poll : poll_seller_fills sample_order_id alice (cursor_new 0) 1020 w_funded =
  (Ok ([sample_fill], sample_cursor), w_funded).
Proof. vm_compute. reflexivity. Qed.

Lemma fills_are_reported_once_witness :
  NoDup (map mf_token_contract [sample_fill]) /\
  forall fs2 cursor2 w2, poll_seller_fills sample_order_id alice sample_cursor 1030 w_funded =
    (Ok (fs2, cursor2), w2) -> fs2 = [].
Proof.
  destruct (fills_are_reported_once sample_order_id alice (cursor_new 0) sample_cursor 1020 1030
    w_funded w_funded [sample_fill] sample_poll) as (_ & H1 & _ & H2). split; [exact H1|exact H2].
Defined.

Lemma deposit_is_the_quoted_escrow_witness :
  exists m ds s k, deal_state canonical sample_tc 1020 w_funded = (Ok (Some ds), w_funded) /\
    deal_subscription sample_tc 1020 w_funded = (Ok (Some s), w_funded) /\ funded_tokens s = k * TICK_SIZE /\
    check_buy_deposit_headroom (ds_deposit ds) k (m_price_per_tick m) = Ok tt.
Proof.
  eexists. eapply (deposit_is_the_quoted_escrow canonical canonical_typed dob_canonical sample_order_id 1010);
    [reflexivity|apply funded_reachable|lia|vm_compute; reflexivity].
Defined.

Lemma snapshots_are_coherent_witness :
  exists sn, deal_snapshot canonical sample_tc 5200 w_claimed = (Ok (Some sn), w_claimed).
Proof.
  destruct (snapshots_are_coherent canonical canonical_typed dob_canonical sample_order_id 5100 5200 w_claimed sample_tc)
    as (sn & H & _); [apply claimed_reachable|lia|vm_compute; exact I|]. exists sn. exact H.
Defined.

Lemma ended_deals_raise_no_lock_alarm_witness :
  let d := mkDealView sample_tc Buyer (Some (note_id_hex alice)) (2 * PRICE_STEP) None
             (snapshot sample_tc 5300 w_stopped) in
  ~ In (LockedAfterClose 0) (deal_anomalies d) /\ ~ In (LockedNoMatch 0) (deal_anomalies d).
Proof.
  intros d. edestruct (ended_deals_raise_no_lock_alarm canonical canonical_typed dob_canonical sample_order_id
    5200 5300 w_stopped sample_tc) as (snap & _ & _ & _ & H1 & H2);
    [apply stopped_reachable|lia|vm_compute; reflexivity| |split; [exact H1|exact H2]].
  reflexivity.
Defined.

(** ** A subscription deal *)
Definition w_sub_listed : ChainFiles :=
  snd (post_offer canonical (mkSellOffer sub_price 8 "tc-2" sub_flags) alice 1000 1000 empty_files).
Definition w_sub_funded : ChainFiles :=
  snd (place_buy_ticks_inner "tc-2" bob None 1010 1010 1010 w_sub_listed).
Definition w_sub_open : ChainFiles :=
  snd (open_stream canonical dob_canonical "tc-2" [1] alice 1020 1020 w_sub_funded).
Definition w_sub_live : ChainFiles := snd (accept_probe canonical "tc-2" 5000 5000 w_sub_open).

Lemma sub_listed_reachable : sample_reachable 1000 w_sub_listed.
Proof.
  eapply sample_next; [apply (sample_start 1000)|]. eapply s_post_offer; [..|apply surjective_pairing];
    [decided|decided|apply sample_note_typed; decided|lia|decided].
Qed.
Lemma sub_funded_reachable : sample_reachable 1010 w_sub_funded.
Proof.
  eapply sample_next; [apply sub_listed_reachable|]. eapply s_buy; [..|apply surjective_pairing];
    [apply sample_note_typed; decided|lia|lia|decided].
Qed.
Lemma sub_open_reachable : sample_reachable 1020 w_sub_open.
Proof.
  eapply sample_next; [apply sub_funded_reachable|]. eapply s_open; [..|apply surjective_pairing]; [lia|decided].
Qed.
Lemma sub_live_reachable : sample_reachable 5000 w_sub_live.
Proof.
  eapply sample_next; [apply sub_open_reachable|]. eapply s_accept; [..|apply surjective_pairing]; [lia|decided].
Qed.

Lemma weeks_are_charged_once_witness :
  exists seller m c s w' c' s', life_in w_sub_live "tc-2" = Live seller m c s /\
    settle_week canonical "tc-2" (5000 + 2 * SUB_WEEK_LEN) (5000 + 2 * SUB_WEEK_LEN) w_sub_live = (Ok tt, w') /\
    life_in w' "tc-2" = (if c_closed c' then Ended seller m c' s' else Live seller m c' s') /\
    week_index s' = Z.max (week_index s) 2.
Proof.
  set (t := 5000 + 2 * SUB_WEEK_LEN). set (w' := snd (settle_week canonical "tc-2" t t w_sub_live)).
  assert (settle_week canonical "tc-2" t t w_sub_live = (Ok tt, w')) as E.
  { transitivity (fst (settle_week canonical "tc-2" t t w_sub_live), w'); [apply surjective_pairing|].
    apply (f_equal (fun r => (r, w'))). vm_compute. reflexivity. }
  do 4 eexists. edestruct (weeks_are_charged_once canonical canonical_typed dob_canonical sample_order_id
    5000 t t w_sub_live w' "tc-2") as [_ H];
    [apply sub_live_reachable|vm_compute; reflexivity|vm_compute; reflexivity|unfold t, SUB_WEEK_LEN; lia|exact E|].
  destruct (H eq_refl) as (c' & s' & H1 & H2 & _). exists w', c', s'.
  split; [vm_compute; reflexivity|]. split; [exact E|]. split; [exact H1|].
  rewrite H2. vm_compute. reflexivity.
Defined.

(** ** A name the store rewrites *)

(** The canonical public spelling of an account. *)
Definition public_tc : TokenContract :=
  of_text (fmt_address {| dapp_id := DEXDO_DAPP_ID; account_id := repeat "a"%char 64 |}).
Definition w_public_listed : ChainFiles :=
  snd (post_offer canonical (mkSellOffer sub_price 8 public_tc 0) alice 1000 1000 empty_files).
Definition w_public_funded : ChainFiles :=
  snd (place_buy_ticks_inner public_tc bob None 1010 1010 1010 w_public_listed).

(** A contract named in the canonical public form is listed and bought without
    an error, but the store rewrites the name inside the match and not the key it
    is filed under, so no later load of the file succeeds.  This is why runs start
    from names the store leaves alone. *)
Theorem public_name_bricks_the_file :
  is_ok (fst (post_offer canonical (mkSellOffer sub_price 8 public_tc 0) alice 1000 1000 empty_files)) = true /\
  is_ok (fst (place_buy_ticks_inner public_tc bob None 1010 1010 1010 w_public_listed)) = true /\
  is_ok (load_state w_public_funded 1020) = false /\ reload_tc public_tc <> public_tc.
Proof. split_and!; [vm_compute; reflexivity..|]. vm_compute. discriminate. Qed.
