(* ===== verification/Capacity.v ===== *)
(** * Capacity: the seller's delivery capacity (crates/dexdo/src/seller/capacity.rs)

    One durable record per funded TokenContract splits the tokens the buyer has
    paid for into the chain's claim high-water, the tokens delivered since, and
    the tokens reserved by running requests.  The manager's map, the entries
    behind its [Arc]s, the requests that hold them, and the files are one state;
    a pointer is an index.  Every write goes through [persist_candidate], whose
    failures are an argument ([Fault]): a write that fails leaves the old file,
    or the new one when only the directory sync after the rename failed. *)
From Stdlib Require Import Ascii.
From S2P Require Import Prelude Text Params Address MarketTypes.

Definition CAPACITY_RECORD_VERSION : Z := 1.
Definition CAPACITY_PERSIST_TOKEN_INTERVAL : Z := 1000.

(** ** Records *)
Record DurableCapacityRecord : Type := mkCapacity {
  cr_version : Z;
  cr_token_contract : TokenContract;
  cr_funded_tokens : Z;
  cr_authoritative_cap : Z;
  cr_tokens_pending_anchor : Z;
  cr_local_delivered_after_anchor : Z;
  cr_outstanding_reservation : Z
}.
#[global] Instance DurableCapacityRecord_eq_dec : EqDecision DurableCapacityRecord.
Proof. solve_decision. Defined.

Record CapacitySnapshot : Type := mkCapacitySnapshot {
  cs_funded_tokens : Z;
  cs_authoritative_cap : Z;
  cs_tokens_pending_anchor : Z;
  cs_local_delivered_after_anchor : Z;
  cs_outstanding_reservation : Z
}.
Definition capacity_snapshot (r : DurableCapacityRecord) : CapacitySnapshot := {|
  cs_funded_tokens := cr_funded_tokens r;
  cs_authoritative_cap := cr_authoritative_cap r;
  cs_tokens_pending_anchor := cr_tokens_pending_anchor r;
  cs_local_delivered_after_anchor := cr_local_delivered_after_anchor r;
  cs_outstanding_reservation := cr_outstanding_reservation r |}.

Definition committed (s : CapacitySnapshot) : outcome string Z :=
  let msg := "seller capacity committed-token sum overflows uint128" in
  let* value := ok_or (u128_checked_add (cs_tokens_pending_anchor s)
                         (cs_local_delivered_after_anchor s)) msg in
  ok_or (u128_checked_add value (cs_outstanding_reservation s)) msg.
Definition available (s : CapacitySnapshot) : outcome string Z :=
  let* total := committed s in
  ok_or (checked_sub (cs_authoritative_cap s) total) "seller capacity invariant is already exceeded".

Definition validate_record (r : DurableCapacityRecord) : outcome string unit :=
  fail_if negb (cr_version r =? CAPACITY_RECORD_VERSION)
    with "seller capacity has an unexpected version" in
  fail_if bool_decide (trim (to_text (cr_token_contract r)) = [])
    with "seller capacity record has empty token_contract" in
  let s := capacity_snapshot r in
  let* total := committed s in
  fail_if cs_authoritative_cap s <? total
    with "seller capacity invariant violated: pending + local + reserved > cap" in
  fail_if cs_funded_tokens s <? cs_authoritative_cap s
    with "seller capacity invariant violated: cap > fundedTokens" in
  Ok tt.

(** ** The chain's view of a deal *)
Definition authoritative_cap (state : DealChainState) (deal : DealSubscription)
    : outcome string Z :=
  if is_subscription deal && (sub_weeks deal <=? week_index deal) then Ok (ds_tokens_pending state)
  else if negb (ds_probe_accepted state) then Ok (Z.min TICK_SIZE (funded_tokens deal))
  else if negb (is_subscription deal) then Ok (funded_tokens deal)
  else match u128_checked_add (week_base_tokens deal) (tokens_per_week deal) with
       | Some cap => Ok (Z.min cap (funded_tokens deal))
       | None => Err "subscription weekBaseTokens + tokensPerWeek overflows uint128"
       end.

Definition validate_live_deal_shape (state : DealChainState) (deal : DealSubscription)
    : outcome string unit :=
  fail_if negb (Bool.eqb (is_subscription deal) (has_flag (deal_flags deal) flags.SUBSCRIPTION))
    with "has contradictory subscription flag/subWeeks shape" in
  fail_if negb (is_subscription deal)
          && (negb (week_index deal =? 0) || negb (tokens_per_week deal =? funded_tokens deal)
              || negb (week_base_tokens deal =? 0))
    with "has contradictory ordinary deal capacity shape" in
  fail_if negb (ds_funded state) with "is not funded" in
  fail_if ds_disputed state with "is disputed; refusing to serve" in
  fail_if negb (ds_opened state) && ds_probe_accepted state
    with "reports accepted probe while not open and not terminal" in
  fail_if funded_tokens deal =? 0 with "fundedTokens is zero" in
  fail_if funded_tokens deal <? ds_tokens_pending state
    with "tokensPending exceeds fundedTokens" in
  let* _ :=
    (if ds_probe_accepted state then
       fail_if ds_tokens_pending state <? TICK_SIZE
         with "accepted probe has tokensPending below TICK_SIZE" in Ok tt
     else
       fail_if negb (ds_tokens_pending state =? 0)
         with "pre-probe tokensPending must be zero" in Ok tt) in
  let* cap := authoritative_cap state deal in
  fail_if cap <? ds_tokens_pending state
    with "tokensPending exceeds current authoritative cap" in
  Ok tt.

(** ** State *)

(** A file: a record, or bytes that do not parse. *)
Inductive FileContent : Type := Parsed (r : DurableCapacityRecord) | Unparsable.

Record CapacityEntryState : Type := mkEntryState {
  es_record : DurableCapacityRecord;
  es_terminal : bool;
  es_unpersisted_delivered : Z
}.
Record CapacityEntry : Type := mkEntry { en_path : option string; en_state : CapacityEntryState }.

Record RequestReservation : Type := mkRequest {
  rq_initial : Z; rq_remaining : Z; rq_finished : bool }.
(** The [Arc] to its entry is an index. *)
Record CapacityReservation : Type := mkReservation {
  rv_entry : nat; rv_request : RequestReservation }.

Inductive ReserveError : Type :=
| UnknownDeal | Terminal | Exhausted | InvalidState (msg : string).

(** [store_dir] and [entries] are the manager's fields; [heap] and [requests]
    hold what its [Arc]s and callers point to; [disk] the files. *)
Record CapacityWorld : Type := mkCapacityWorld {
  store_dir : option string;
  entries : gmap string nat;
  heap : list CapacityEntry;
  requests : list CapacityReservation;
  disk : gmap string FileContent
}.
Definition in_memory : CapacityWorld := mkCapacityWorld None ∅ [] [] ∅.
(** A manager just started over the files a previous one left. *)
Definition in_deals_dir (deals_dir : string) (files : gmap string FileContent) : CapacityWorld :=
  mkCapacityWorld (Some (String.append deals_dir "/seller-capacity")) ∅ [] [] files.

Definition set_entries (v : gmap string nat) (w : CapacityWorld) : CapacityWorld :=
  mkCapacityWorld (store_dir w) v (heap w) (requests w) (disk w).
Definition set_heap (v : list CapacityEntry) (w : CapacityWorld) : CapacityWorld :=
  mkCapacityWorld (store_dir w) (entries w) v (requests w) (disk w).
Definition set_requests (v : list CapacityReservation) (w : CapacityWorld) : CapacityWorld :=
  mkCapacityWorld (store_dir w) (entries w) (heap w) v (disk w).
Definition set_disk (v : gmap string FileContent) (w : CapacityWorld) : CapacityWorld :=
  mkCapacityWorld (store_dir w) (entries w) (heap w) (requests w) v.
Definition set_state (p : nat) (s : CapacityEntryState) (w : CapacityWorld) : CapacityWorld :=
  match heap w !! p with
  | Some e => set_heap (<[p := mkEntry (en_path e) s]> (heap w)) w
  | None => w
  end.
Definition set_request (h : nat) (r : RequestReservation) (w : CapacityWorld) : CapacityWorld :=
  match requests w !! h with
  | Some rv => set_requests (<[h := mkReservation (rv_entry rv) r]> (requests w)) w
  | None => w
  end.
Definition set_record (r : DurableCapacityRecord) (s : CapacityEntryState) : CapacityEntryState :=
  mkEntryState r (es_terminal s) (es_unpersisted_delivered s).
Definition set_unpersisted (v : Z) (s : CapacityEntryState) : CapacityEntryState :=
  mkEntryState (es_record s) (es_terminal s) v.
Definition set_outstanding (v : Z) (r : DurableCapacityRecord) : DurableCapacityRecord :=
  mkCapacity (cr_version r) (cr_token_contract r) (cr_funded_tokens r) (cr_authoritative_cap r)
    (cr_tokens_pending_anchor r) (cr_local_delivered_after_anchor r) v.
Definition set_local (v : Z) (r : DurableCapacityRecord) : DurableCapacityRecord :=
  mkCapacity (cr_version r) (cr_token_contract r) (cr_funded_tokens r) (cr_authoritative_cap r)
    (cr_tokens_pending_anchor r) v (cr_outstanding_reservation r).

(** ** Files *)
Definition is_alphanumeric (c : ascii) : bool :=
  is_digit c || ((97 <=? code (lower c)) && (code (lower c) <=? 122)).
Definition capacity_path (directory tc : string) : string :=
  let safe := map (fun c => if is_alphanumeric c then lower c else "-"%char)
                (trim (to_text tc)) in
  String.append directory (String.append "/deal-"
    (String.append (of_text safe) "-seller-capacity.json")).

(** The record as a write followed by a parse leaves it: the amounts go through
    decimal text, the name through the address normalisation. *)
Definition reload_record (r : DurableCapacityRecord) : DurableCapacityRecord :=
  mkCapacity (cr_version r) (of_text (reload_self_dapp (to_text (cr_token_contract r))))
    (cr_funded_tokens r) (cr_authoritative_cap r) (cr_tokens_pending_anchor r)
    (cr_local_delivered_after_anchor r) (cr_outstanding_reservation r).

Definition load_record (w : CapacityWorld) (path : string)
    : outcome string (option DurableCapacityRecord) :=
  match disk w !! path with
  | None => Ok None
  | Some (Parsed r) => Ok (Some r)
  | Some Unparsable => Err "parse seller capacity"
  end.

(** What the file system does to one write or removal. *)
Inductive Fault : Type := Fine | FailBefore | FailAfter.

Definition persist_candidate (path : option string) (r : DurableCapacityRecord) (fault : Fault)
    (w : CapacityWorld) : outcome string unit * CapacityWorld :=
  match path with
  | None => (Ok tt, w)
  | Some path =>
      let w' := set_disk (<[path := Parsed (reload_record r)]> (disk w)) w in
      match fault with
      | Fine => (Ok tt, w')
      | FailBefore => (Err "write seller capacity temp", w)
      | FailAfter => (Err "sync seller capacity dir", w')
      end
  end.

Definition remove_if_present (path : string) (fault : Fault) (w : CapacityWorld)
    : outcome string unit * CapacityWorld :=
  match disk w !! path with
  | None => (Ok tt, w)
  | Some _ =>
      let w' := set_disk (delete path (disk w)) w in
      match fault with
      | Fine => (Ok tt, w')
      | FailBefore => (Err "remove terminal seller capacity", w)
      | FailAfter => (Err "sync seller capacity dir", w')
      end
  end.

(** ** The manager *)

(** Mark the entry terminal and drop the file.  The map entry goes first. *)
Definition mark_terminal (tc : TokenContract) (fault : Fault) (w : CapacityWorld)
    : outcome string unit * CapacityWorld :=
  match entries w !! tc with
  | Some p =>
      let w := set_entries (delete tc (entries w)) w in
      match heap w !! p with
      | Some e =>
          let s := en_state e in
          let w := set_state p (mkEntryState (es_record s) true (es_unpersisted_delivered s)) w in
          match en_path e with
          | Some path => remove_if_present path fault w
          | None => (Ok tt, w)
          end
      | None => (Panic, w)
      end
  | None =>
      match store_dir w with
      | Some directory => remove_if_present (capacity_path directory tc) fault w
      | None => (Ok tt, w)
      end
  end.

(** The entry behind the map, or one made from the file or from the chain. *)
Definition find_or_load (tc : TokenContract) (state : DealChainState) (deal : DealSubscription)
    (cap : Z) (w : CapacityWorld) : outcome string nat * CapacityWorld :=
  match entries w !! tc with
  | Some p => (Ok p, w)
  | None =>
      let path := (fun directory => capacity_path directory tc) <$> store_dir w in
      let record :=
        let* found := from_option (load_record w) (Ok None) path in
        match found with
        | Some r =>
            let* _ := validate_record r in
            fail_if negb (bool_decide (cr_token_contract r = tc))
              with "seller capacity file is for another TokenContract" in
            Ok r
        | None => Ok {|
            cr_version := CAPACITY_RECORD_VERSION;
            cr_token_contract := tc;
            cr_funded_tokens := funded_tokens deal;
            cr_authoritative_cap := cap;
            cr_tokens_pending_anchor := ds_tokens_pending state;
            cr_local_delivered_after_anchor := 0;
            cr_outstanding_reservation := 0 |}
        end in
      match record with
      | Ok r =>
          let p := length (heap w) in
          (Ok p, set_entries (<[tc := p]> (entries w))
                   (set_heap (heap w ++ [mkEntry path (mkEntryState r false 0)]) w))
      | Err e => (Err e, w)
      | Panic => (Panic, w)
      end
  end.

(** The record after a chain read: the anchor moves up, and the acknowledged
    prefix leaves the local deliveries. *)
Definition reconcile_candidate (tc : TokenContract) (state : DealChainState)
    (deal : DealSubscription) (cap : Z) (s : CapacityEntryState)
    : outcome string DurableCapacityRecord :=
  let ended := is_subscription deal && (sub_weeks deal <=? week_index deal) in
  fail_if es_terminal s with "capacity is terminal" in
  let old := es_record s in
  fail_if negb (cr_funded_tokens old =? funded_tokens deal) with "fundedTokens changed" in
  fail_if ds_tokens_pending state <? cr_tokens_pending_anchor old with "tokensPending regressed" in
  fail_if (cap <? cr_authoritative_cap old) && negb ended
    with "authoritative capacity regressed" in
  let acknowledged := ds_tokens_pending state - cr_tokens_pending_anchor old in
  let probe_seed := if ds_probe_accepted state && (cr_tokens_pending_anchor old =? 0)
                    then Z.min PROBE_SEED_TOKENS acknowledged else 0 in
  let backed_by_delivery := acknowledged - probe_seed in
  fail_if (cr_local_delivered_after_anchor old <? backed_by_delivery) && negb ended
    with "tokensPending advanced beyond durable local delivery" in
  let local := saturating_sub (cr_local_delivered_after_anchor old) acknowledged in
  let* cap :=
    (if ended then
       let msg := "post-term seller capacity commitment overflows uint128" in
       let* value := ok_or (u128_checked_add (ds_tokens_pending state) local) msg in
       ok_or (u128_checked_add value (cr_outstanding_reservation old)) msg
     else Ok cap) in
  let candidate := {|
    cr_version := CAPACITY_RECORD_VERSION;
    cr_token_contract := tc;
    cr_funded_tokens := funded_tokens deal;
    cr_authoritative_cap := cap;
    cr_tokens_pending_anchor := ds_tokens_pending state;
    cr_local_delivered_after_anchor := local;
    cr_outstanding_reservation := cr_outstanding_reservation old |} in
  let* _ := validate_record candidate in
  Ok candidate.

(** The critical section of [reconcile_deal] on an entry. *)
Definition reconcile_on (p : nat) (tc : TokenContract) (state : DealChainState)
    (deal : DealSubscription) (cap : Z) (fault : Fault) (w : CapacityWorld)
    : outcome string (option CapacitySnapshot) * CapacityWorld :=
  match heap w !! p with
  | None => (Panic, w)
  | Some e =>
      match reconcile_candidate tc state deal cap (en_state e) with
      | Ok candidate =>
          if bool_decide (candidate = es_record (en_state e)) then
            (Ok (Some (capacity_snapshot candidate)), w)
          else
            match persist_candidate (en_path e) candidate fault w with
            | (Ok _, w) => (Ok (Some (capacity_snapshot candidate)),
                            set_state p (set_record candidate (en_state e)) w)
            | (Err msg, w) => (Err msg, w)
            | (Panic, w) => (Panic, w)
            end
      | Err msg => (Err msg, w)
      | Panic => (Panic, w)
      end
  end.

Definition reconcile_deal (tc : TokenContract) (state : DealChainState) (deal : DealSubscription)
    (fault : Fault) (w : CapacityWorld) : outcome string (option CapacitySnapshot) * CapacityWorld :=
  if is_stopped state then
    match mark_terminal tc fault w with
    | (Ok _, w) => (Ok None, w)
    | (Err e, w) => (Err e, w)
    | (Panic, w) => (Panic, w)
    end
  else
    match (let* _ := validate_live_deal_shape state deal in authoritative_cap state deal) with
    | Ok cap =>
        match find_or_load tc state deal cap w with
        | (Ok p, w) => reconcile_on p tc state deal cap fault w
        | (Err e, w) => (Err e, w)
        | (Panic, w) => (Panic, w)
        end
    | Err e => (Err e, w)
    | Panic => (Panic, w)
    end.

(** The critical section of [reserve] on an entry; the result is the handle of
    the new reservation. *)
Definition reserve_on (p : nat) (requested : Z) (fault : Fault) (w : CapacityWorld)
    : outcome ReserveError nat * CapacityWorld :=
  match heap w !! p with
  | None => (Panic, w)
  | Some e =>
      let s := en_state e in
      match
        (fail_if es_terminal s with Terminal in
         let* _ := map_err InvalidState (validate_record (es_record s)) in
         let* free := map_err InvalidState (available (capacity_snapshot (es_record s))) in
         let amount := Z.min free requested in
         fail_if amount =? 0 with Exhausted in
         let* outstanding := ok_or (u128_checked_add (cr_outstanding_reservation (es_record s)) amount)
           (InvalidState "request reservation overflows uint128") in
         let candidate := set_outstanding outstanding (es_record s) in
         let* _ := map_err InvalidState (validate_record candidate) in
         Ok (amount, candidate))
      with
      | Ok (amount, candidate) =>
          match persist_candidate (en_path e) candidate fault w with
          | (Ok _, w) =>
              let w := set_state p (set_record candidate (set_unpersisted 0 s)) w in
              (Ok (length (requests w)),
               set_requests (requests w ++ [mkReservation p (mkRequest amount amount false)]) w)
          | (Err msg, w) => (Err (InvalidState msg), w)
          | (Panic, w) => (Panic, w)
          end
      | Err e => (Err e, w)
      | Panic => (Panic, w)
      end
  end.

Definition reserve (tc : TokenContract) (requested : Z) (fault : Fault) (w : CapacityWorld)
    : outcome ReserveError nat * CapacityWorld :=
  if requested =? 0 then (Err Exhausted, w)
  else match entries w !! tc with
       | Some p => reserve_on p requested fault w
       | None => (Err UnknownDeal, w)
       end.

Definition snapshot_of (tc : TokenContract) (w : CapacityWorld)
    : outcome string (option CapacitySnapshot) :=
  match entries w !! tc with
  | None => Ok None
  | Some p =>
      match heap w !! p with
      | None => Panic
      | Some e =>
          if es_terminal (en_state e) then Ok None
          else let* _ := validate_record (es_record (en_state e)) in
               Ok (Some (capacity_snapshot (es_record (en_state e))))
      end
  end.

(** ** A running request *)

(** Move the coalesced deliveries from the reservation to the local count. *)
Definition flush_delivered (p : nat) (fault : Fault) (w : CapacityWorld)
    : outcome string Z * CapacityWorld :=
  match heap w !! p with
  | None => (Panic, w)
  | Some e =>
      let s := en_state e in
      let pending := es_unpersisted_delivered s in
      if pending =? 0 then (Ok 0, w)
      else
        match
          (let* outstanding := ok_or (checked_sub (cr_outstanding_reservation (es_record s)) pending)
             "aggregate reservation underflow" in
           let* local := ok_or (u128_checked_add (cr_local_delivered_after_anchor (es_record s)) pending)
             "local delivered counter overflows uint128" in
           let candidate := set_local local (set_outstanding outstanding (es_record s)) in
           let* _ := validate_record candidate in
           Ok candidate)
        with
        | Ok candidate =>
            match persist_candidate (en_path e) candidate fault w with
            | (Ok _, w) =>
                (ok_or (try_from U64_MAX pending) "durable delivered delta does not fit u64",
                 set_state p (set_record candidate (set_unpersisted 0 s)) w)
            | (Err msg, w) => (Err msg, w)
            | (Panic, w) => (Panic, w)
            end
        | Err msg => (Err msg, w)
        | Panic => (Panic, w)
        end
  end.

Definition authorize_exposure (h : nat) (min_billable : Z) (w : CapacityWorld)
    : outcome ReserveError unit :=
  match requests w !! h with
  | None => Panic
  | Some rv =>
      let r := rv_request rv in
      fail_if rq_finished r || (rq_remaining r <? Z.max min_billable 1) with Exhausted in
      Ok tt
  end.

Definition record_delivered (h : nat) (tokens : Z) (fault : Fault) (w : CapacityWorld)
    : outcome string Z * CapacityWorld :=
  if tokens =? 0 then (Err "authoritative delivered delta must be positive", w)
  else
  match requests w !! h with
  | None => (Panic, w)
  | Some rv =>
      let r := rv_request rv in
      let p := rv_entry rv in
      if rq_finished r then (Err "capacity reservation already finished", w)
      else if rq_remaining r <? tokens then
        (Err "authoritative delivered delta exceeds request reservation", w)
      else
      match heap w !! p with
      | None => (Panic, w)
      | Some e =>
          let s := en_state e in
          if es_terminal s then (Err "deal capacity became terminal", w)
          else
          match u128_checked_add (es_unpersisted_delivered s) tokens with
          | None => (Err "local delivered counter overflows uint128", w)
          | Some unpersisted =>
              if cr_outstanding_reservation (es_record s) <? unpersisted then
                (Err "aggregate reservation underflow", w)
              else
                let w := set_state p (set_unpersisted unpersisted s) w in
                let r' := mkRequest (rq_initial r) (rq_remaining r - tokens) false in
                if (CAPACITY_PERSIST_TOKEN_INTERVAL <=? unpersisted)
                   || bool_decide (en_path e = None) then
                  match flush_delivered p fault w with
                  | (Ok durable, w) => (Ok durable, set_request h r' w)
                  | (Err msg, w) => (Err msg, w)
                  | (Panic, w) => (Panic, w)
                  end
                else (Ok 0, set_request h r' w)
          end
      end
  end.

(** The unused part of the reservation goes back to the capacity. *)
Definition finish_exact (h : nat) (fault1 fault2 : Fault) (w : CapacityWorld)
    : outcome string Z * CapacityWorld :=
  match requests w !! h with
  | None => (Panic, w)
  | Some rv =>
      let r := rv_request rv in
      let p := rv_entry rv in
      let done_ := mkRequest (rq_initial r) 0 true in
      if rq_finished r then (Err "capacity reservation already finished", w)
      else
      match heap w !! p with
      | None => (Panic, w)
      | Some e =>
          if es_terminal (en_state e) then (Ok 0, set_request h done_ w)
          else
          match flush_delivered p fault1 w with
          | (Ok durable, w) =>
              match heap w !! p with
              | None => (Panic, w)
              | Some e =>
                  let s := en_state e in
                  match
                    (let* outstanding := ok_or (checked_sub
                         (cr_outstanding_reservation (es_record s)) (rq_remaining r))
                       "aggregate reservation underflow" in
                     let candidate := set_outstanding outstanding (es_record s) in
                     let* _ := validate_record candidate in
                     Ok candidate)
                  with
                  | Ok candidate =>
                      match persist_candidate (en_path e) candidate fault2 w with
                      | (Ok _, w) =>
                          (Ok durable, set_request h done_ (set_state p (set_record candidate s) w))
                      | (Err msg, w) => (Err msg, w)
                      | (Panic, w) => (Panic, w)
                      end
                  | Err msg => (Err msg, w)
                  | Panic => (Panic, w)
                  end
              end
          | (Err msg, w) => (Err msg, w)
          | (Panic, w) => (Panic, w)
          end
      end
  end.

(** The unused part stays reserved: what was delivered is not known. *)
Definition finish_ambiguous (h : nat) (fault : Fault) (w : CapacityWorld)
    : outcome string Z * CapacityWorld :=
  match requests w !! h with
  | None => (Panic, w)
  | Some rv =>
      let r := rv_request rv in
      let p := rv_entry rv in
      let done_ := mkRequest (rq_initial r) 0 true in
      if rq_finished r then (Err "capacity reservation already finished", w)
      else
      match heap w !! p with
      | None => (Panic, w)
      | Some e =>
          if es_terminal (en_state e) then (Ok 0, set_request h done_ w)
          else
          match flush_delivered p fault w with
          | (Ok durable, w) => (Ok durable, set_request h done_ w)
          | (Err msg, w) => (Err msg, w)
          | (Panic, w) => (Panic, w)
          end
      end
  end.
