(* ===== verification/CapacityRun.v ===== *)
(** * CapacityRun: every interleaving of the capacity manager

    A run interleaves the critical sections of [Capacity] for any number of
    requests and contracts, with write failures and crashes.  Beside the state it
    counts, per contract, the tokens handed to the buyer, the tokens reported as
    billable, and the tokens a new reservation dropped from the billable ones. *)
From S2P Require Import Prelude Text Params Address MarketTypes Capacity.

(** ** Runs *)
Record CapacityRun : Type := mkRun {
  cw : CapacityWorld;
  active : list nat;              (* the reservations whose stream still runs *)
  delivered : string -> Z;
  billed : string -> Z;
  dropped : string -> Z
}.

Definition upd (f : string -> Z) (k : string) (v : Z) : string -> Z :=
  fun k' => if bool_decide (k' = k) then v else f k'.
Definition tc_at (w : CapacityWorld) (p : nat) : string :=
  from_option (fun e => cr_token_contract (es_record (en_state e))) "" (heap w !! p).
Definition unpersisted_at (w : CapacityWorld) (p : nat) : Z :=
  from_option (fun e => es_unpersisted_delivered (en_state e)) 0 (heap w !! p).
Definition tc_of (w : CapacityWorld) (h : nat) : string :=
  from_option (fun rv => tc_at w (rv_entry rv)) "" (requests w !! h).
Definition ok_value (r : outcome string Z) : Z := match r with Ok v => v | _ => 0 end.

(** The chain's getters return unsigned amounts. *)
Definition deal_typed (state : DealChainState) (deal : DealSubscription) : Prop :=
  in_u128 (ds_tokens_pending state) /\ in_u128 (funded_tokens deal) /\
  0 <= week_base_tokens deal /\ 0 <= tokens_per_week deal.

Section Run.
Context (dir : string) (names : string -> Prop) (faulty : bool).

Definition fault_ok (f : Fault) : Prop := faulty = true \/ f = Fine.

Definition initial : CapacityRun :=
  mkRun (mkCapacityWorld (Some dir) ∅ [] [] ∅) [] (fun _ => 0) (fun _ => 0) (fun _ => 0).

(** One critical section, or a crash that loses everything but the files. *)
Inductive cap_step : CapacityRun -> CapacityRun -> Prop :=
| cap_load r tc state deal cap res w' :
    names tc -> deal_typed state deal -> (faulty = false -> funded_tokens deal <= U64_MAX) ->
    validate_live_deal_shape state deal = Ok tt -> authoritative_cap state deal = Ok cap ->
    find_or_load tc state deal cap (cw r) = (res, w') ->
    cap_step r (mkRun w' (active r) (delivered r) (billed r) (dropped r))
| cap_reconcile r p state deal cap f res w' :
    fault_ok f -> deal_typed state deal ->
    validate_live_deal_shape state deal = Ok tt -> authoritative_cap state deal = Ok cap ->
    reconcile_on p (tc_at (cw r) p) state deal cap f (cw r) = (res, w') ->
    cap_step r (mkRun w' (active r) (delivered r) (billed r) (dropped r))
| cap_terminal r tc f res w' :
    fault_ok f -> names tc -> mark_terminal tc f (cw r) = (res, w') ->
    cap_step r (mkRun w' (active r) (upd (delivered r) tc 0) (upd (billed r) tc 0)
                  (upd (dropped r) tc 0))
| cap_reserve r p requested f h w' :
    fault_ok f -> 0 < requested <= U64_MAX -> reserve_on p requested f (cw r) = (Ok h, w') ->
    cap_step r (mkRun w' (h :: active r) (delivered r) (billed r)
                  (upd (dropped r) (tc_at (cw r) p)
                     (dropped r (tc_at (cw r) p) + unpersisted_at (cw r) p)))
| cap_reserve_refused r p requested f e w' :
    fault_ok f -> 0 < requested <= U64_MAX -> reserve_on p requested f (cw r) = (Err e, w') ->
    cap_step r (mkRun w' (active r) (delivered r) (billed r) (dropped r))
| cap_deliver r h tokens f res w' :
    fault_ok f -> h ∈ active r -> 0 < tokens <= U64_MAX ->
    record_delivered h tokens f (cw r) = (res, w') ->
    cap_step r (mkRun w' (active r)
                  (if is_ok res then upd (delivered r) (tc_of (cw r) h)
                                       (delivered r (tc_of (cw r) h) + tokens)
                   else delivered r)
                  (upd (billed r) (tc_of (cw r) h) (billed r (tc_of (cw r) h) + ok_value res))
                  (dropped r))
| cap_finish r h (exact : bool) f1 f2 res w' :
    fault_ok f1 -> fault_ok f2 -> h ∈ active r ->
    (if exact then finish_exact h f1 f2 (cw r) else finish_ambiguous h f1 (cw r)) = (res, w') ->
    cap_step r (mkRun w' (filter (fun h' => h' <> h) (active r)) (delivered r)
                  (upd (billed r) (tc_of (cw r) h) (billed r (tc_of (cw r) h) + ok_value res))
                  (dropped r))
| cap_crash r :
    faulty = true ->
    cap_step r (mkRun (mkCapacityWorld (Some dir) ∅ [] [] (disk (cw r))) []
                  (delivered r) (fun _ => 0) (fun _ => 0)).

Inductive cap_reachable : CapacityRun -> Prop :=
| cap_start : cap_reachable initial
| cap_next r r' : cap_reachable r -> cap_step r r' -> cap_reachable r'.

(** ** The invariant *)

Definition com (r : DurableCapacityRecord) : Z :=
  cr_tokens_pending_anchor r + cr_local_delivered_after_anchor r + cr_outstanding_reservation r.
Definition nonneg (r : DurableCapacityRecord) : Prop :=
  0 <= cr_tokens_pending_anchor r /\ 0 <= cr_local_delivered_after_anchor r /\
  0 <= cr_outstanding_reservation r.

(** A record of [tc] that still covers [need] tokens. *)
Definition record_ok (tc : string) (need : Z) (r : DurableCapacityRecord) : Prop :=
  cr_token_contract r = tc /\ validate_record r = Ok tt /\ nonneg r /\ need <= com r.
Definition file_ok (tc : string) (need : Z) (o : option FileContent) : Prop :=
  match o with
  | None => need = 0
  | Some (Parsed r) => record_ok tc need r
  | Some Unparsable => False
  end.

(** What the open requests on an entry may still deliver. *)
Definition share (w : CapacityWorld) (p h : nat) : Z :=
  match requests w !! h with
  | Some rv => if bool_decide (rv_entry rv = p) then rq_remaining (rv_request rv) else 0
  | None => 0
  end.
Definition open_sum (w : CapacityWorld) (act : list nat) (p : nat) : Z :=
  foldr Z.add 0 (map (share w p) act).
Definition need (r : CapacityRun) (tc : string) : Z :=
  delivered r tc + from_option (open_sum (cw r) (active r)) 0 (entries (cw r) !! tc).

(** Without failures the counters of a contract add up, and the reservation of
    its entry covers the open requests and the deliveries not yet written. *)
Definition clean_entry (r : CapacityRun) (tc : string) (p : nat) (s : CapacityEntryState) : Prop :=
  billed r tc + dropped r tc + es_unpersisted_delivered s = delivered r tc /\
  open_sum (cw r) (active r) p + es_unpersisted_delivered s
    <= cr_outstanding_reservation (es_record s) /\
  cr_funded_tokens (es_record s) <= U64_MAX.

Record run_inv (r : CapacityRun) : Prop := {
  ri_dir : store_dir (cw r) = Some dir;
  ri_active : NoDup (active r) /\ Forall (fun h => (h < length (requests (cw r)))%nat) (active r);
  ri_requests : forall h rv, requests (cw r) !! h = Some rv ->
    0 <= rq_remaining (rv_request rv) /\ (rv_entry rv < length (heap (cw r)))%nat;
  ri_entries : forall tc p, entries (cw r) !! tc = Some p -> names tc /\
    exists e, heap (cw r) !! p = Some e /\ es_terminal (en_state e) = false /\
      en_path e = Some (capacity_path dir tc) /\ record_ok tc (need r tc) (es_record (en_state e)) /\
      0 <= es_unpersisted_delivered (en_state e) /\
      (faulty = false -> clean_entry r tc p (en_state e));
  ri_heap : forall p e, heap (cw r) !! p = Some e -> es_terminal (en_state e) = false ->
    entries (cw r) !! cr_token_contract (es_record (en_state e)) = Some p;
  ri_files : forall tc, names tc -> 0 <= delivered r tc /\
    file_ok tc (need r tc) (disk (cw r) !! capacity_path dir tc) /\
    (faulty = false -> entries (cw r) !! tc = None ->
       billed r tc + dropped r tc = delivered r tc /\ disk (cw r) !! capacity_path dir tc = None)
}.

(** ** Lemmas on records *)
Context (Hinj : forall a b, names a -> names b -> capacity_path dir a = capacity_path dir b -> a = b).
Context (Hstable : forall tc, names tc -> of_text (reload_self_dapp (to_text tc)) = tc).

Lemma upd_eq f k v : upd f k v k = v.
Proof. unfold upd. by rewrite bool_decide_true. Qed.
Lemma upd_ne f k v k' : k' <> k -> upd f k v k' = f k'.
Proof. intros. unfold upd. by rewrite bool_decide_false. Qed.

Lemma committed_com r : committed (capacity_snapshot r) = Ok (com r) \/ is_ok (committed (capacity_snapshot r)) = false.
Proof.
  unfold committed, capacity_snapshot, com; simpl.
  destruct (u128_checked_add _ _) eqn:E1; simpl; [|by right].
  destruct (u128_checked_add z _) eqn:E2; simpl; [|by right]. checked_facts. left. f_equal. lia.
Qed.

(** [validate_record] is the bound on the committed tokens. *)
Lemma validate_record_bound r : validate_record r = Ok tt ->
  committed (capacity_snapshot r) = Ok (com r) /\ com r <= cr_authoritative_cap r <= cr_funded_tokens r /\
  cr_version r = CAPACITY_RECORD_VERSION /\ com r <= U128_MAX.
Proof.
  unfold validate_record. intros H. repeat ok_step H.
  destruct (committed_com r) as [Hc|Hc]; [|by rewrite E1 in Hc]. rewrite Hc in E1. simplify_eq.
  split; [done|]. unfold committed in Hc. repeat ok_step Hc. simpl in *. checked_facts. subst. unfold com in *. lia.
Qed.

Lemma validate_record_same r r' : validate_record r = Ok tt ->
  cr_version r' = cr_version r -> cr_token_contract r' = cr_token_contract r ->
  nonneg r' -> com r' <= cr_authoritative_cap r' <= cr_funded_tokens r' -> com r' <= U128_MAX ->
  validate_record r' = Ok tt.
Proof.
  intros Hv Hver Htc (N1 & N2 & N3) Hb Hmax. unfold validate_record in *. rewrite Hver, Htc.
  repeat ok_step Hv. unfold committed, capacity_snapshot, u128_checked_add, checked_add, com in *. simpl in *.
  do 2 (rewrite (proj2 (Z.leb_le _ _)) by lia; simpl).
  by do 2 (rewrite (proj2 (Z.ltb_ge _ _)) by lia).
Qed.

Lemma record_ok_le tc n n' r : record_ok tc n r -> n' <= n -> record_ok tc n' r.
Proof. unfold record_ok. intuition lia. Qed.
Lemma reload_ok tc n r : names tc -> record_ok tc n r -> reload_record r = r.
Proof. intros Hn (<- & _). destruct r. unfold reload_record. simpl in *. by rewrite Hstable. Qed.

(** Whatever the write does, the file still covers what the old and the new
    record both cover. *)
Lemma persist_file tc n path r f w w' res : names tc -> path = capacity_path dir tc ->
  persist_candidate (Some path) r f w = (res, w') -> record_ok tc n r ->
  file_ok tc n (disk w !! path) -> file_ok tc n (disk w' !! path).
Proof.
  intros Hn -> H Hr Hf. simpl in H. destruct f; simplify_eq; simpl; try done;
    rewrite lookup_insert_eq; simpl; by rewrite (reload_ok tc n).
Qed.
Lemma persist_frame path r f w w' res : persist_candidate (Some path) r f w = (res, w') ->
  store_dir w' = store_dir w /\ entries w' = entries w /\ heap w' = heap w /\
  requests w' = requests w /\ (forall q, q <> path -> disk w' !! q = disk w !! q) /\ res <> Panic.
Proof.
  intros H. simpl in H. destruct f; simplify_eq; simpl; split_and!; try done;
    intros; by rewrite lookup_insert_ne.
Qed.

(** ** Changing one contract *)

Lemma open_sum_frame w w' act p :
  (forall h, h ∈ act -> share w' p h = share w p h) -> open_sum w' act p = open_sum w act p.
Proof.
  intros H. unfold open_sum. f_equal. apply map_ext_in. intros h Hh. apply H. by apply list_elem_of_In.
Qed.

(** The state after a change of the entry, the file and the counters of one
    contract: the invariant holds again if it holds there. *)
Lemma put_inv r r' tc p e s' : run_inv r ->
  entries (cw r) !! tc = Some p -> heap (cw r) !! p = Some e ->
  store_dir (cw r') = store_dir (cw r) -> entries (cw r') = entries (cw r) ->
  heap (cw r') = <[p := mkEntry (en_path e) s']> (heap (cw r)) ->
  (forall q, q <> capacity_path dir tc -> disk (cw r') !! q = disk (cw r) !! q) ->
  NoDup (active r') /\ Forall (fun h => (h < length (requests (cw r')))%nat) (active r') ->
  (forall h rv, requests (cw r') !! h = Some rv ->
     0 <= rq_remaining (rv_request rv) /\ (rv_entry rv < length (heap (cw r)))%nat) ->
  (forall q, q <> p -> open_sum (cw r') (active r') q = open_sum (cw r) (active r) q) ->
  (forall k, k <> tc -> delivered r' k = delivered r k /\ billed r' k = billed r k /\
                        dropped r' k = dropped r k) ->
  es_terminal s' = false -> 0 <= es_unpersisted_delivered s' -> 0 <= delivered r' tc ->
  record_ok tc (delivered r' tc + open_sum (cw r') (active r') p) (es_record s') ->
  file_ok tc (delivered r' tc + open_sum (cw r') (active r') p)
    (disk (cw r') !! capacity_path dir tc) ->
  (faulty = false -> clean_entry r' tc p s') ->
  run_inv r'.
Proof.
  intros I Hp Hh Hdir Hent Hheap Hdisk Hact Hreq Hsum Hk Ht Hu Hd Hrec Hfile Hbill.
  destruct (ri_entries _ I tc p Hp) as [Hn (e0 & He0 & _ & Hpath & (Htc & _) & _)].
  assert (e0 = e) as -> by congruence. clear He0.
  assert (p < length (heap (cw r)))%nat as Hlt by (by eapply lookup_lt_Some).
  assert (forall k q, k <> tc -> entries (cw r) !! k = Some q -> q <> p) as Hne.
  { intros k q Hk' Hq ->. apply (ri_entries _ I) in Hq as [_ (e1 & He1 & _ & _ & (Htc1 & _) & _)].
    congruence. }
  assert (forall k, k <> tc -> need r' k = need r k) as Hneed.
  { intros k Hk'. unfold need. rewrite Hent. destruct (Hk k Hk') as (-> & _).
    destruct (entries (cw r) !! k) as [q|] eqn:Hq; simpl; [|done]. rewrite Hsum; [done|eauto]. }
  assert (need r' (tc) =
    delivered r' (tc) + open_sum (cw r') (active r') p) as Hneed'.
  { unfold need. by rewrite Hent, Hp. }
  split.
  - rewrite Hdir. apply I.
  - done.
  - intros h rv Hrv. rewrite Hheap, length_insert. eauto.
  - intros k q Hq. rewrite Hent in Hq.
    destruct (decide (k = tc)) as [->|Hk'].
    + assert (q = p) as -> by congruence. split; [done|]. eexists. rewrite Hheap, list_lookup_insert_eq by done.
      split; [done|]. rewrite Hneed'. simpl. split_and!; done.
    + destruct (ri_entries _ I _ _ Hq) as [Hnk (e1 & He1 & T1 & T2 & T3 & T4 & T5)].
      split; [done|]. exists e1. rewrite Hheap, list_lookup_insert_ne by eauto using not_eq_sym.
      rewrite Hneed by done. unfold clean_entry. destruct (Hk k Hk') as (-> & -> & ->).
      rewrite Hsum by eauto. split_and!; done.
  - intros q e1 Hq Hnt. rewrite Hheap in Hq. rewrite Hent. destruct (decide (q = p)) as [->|Hqp].
    + rewrite list_lookup_insert_eq in Hq by done. simplify_eq. simpl. destruct Hrec as (-> & _). done.
    + rewrite list_lookup_insert_ne in Hq by done. by apply (ri_heap _ I).
  - intros k Hnk. destruct (decide (k = tc)) as [->|Hk'].
    + split_and!; [done|by rewrite Hneed'|]. intros _. by rewrite Hent, Hp.
    + destruct (ri_files _ I k Hnk) as (F1 & F2 & F3). rewrite Hneed, Hent, Hdisk by (done || (intros ?; apply Hk'; by apply Hinj)).
      destruct (Hk k Hk') as (-> & -> & ->). done.
Qed.
End Run.
