(* ===== verification/CapacityInv.v ===== *)
(** * CapacityInv: the capacity invariant holds in every run

    Each critical section of [Capacity] keeps [run_inv] of [CapacityRun], under
    write failures and crashes too. *)
From S2P Require Import Prelude Text Params Address MarketTypes Capacity CapacityRun.

Section Inv.
Context (dir : string) (names : string -> Prop) (faulty : bool).
Context (Hinj : forall a b, names a -> names b -> capacity_path dir a = capacity_path dir b -> a = b).
Context (Hblank : forall tc, names tc -> trim (to_text tc) <> []).
Context (Hstable : forall tc, names tc -> of_text (reload_self_dapp (to_text tc)) = tc).

Abbreviation run_inv := (run_inv dir names faulty).

(** A change confined to one entry and its file. *)
Record touched (tc : string) (p : nat) (e : CapacityEntry) (w w' : CapacityWorld)
    (s' : CapacityEntryState) : Prop := {
  tw_dir : store_dir w' = store_dir w;
  tw_entries : entries w' = entries w;
  tw_heap : heap w' = <[p := mkEntry (en_path e) s']> (heap w);
  tw_disk : forall q, q <> capacity_path dir tc -> disk w' !! q = disk w !! q
}.

Lemma set_state_heap p e s w : heap w !! p = Some e ->
  set_state p s w = set_heap (<[p := mkEntry (en_path e) s]> (heap w)) w.
Proof. intros H. unfold set_state. by rewrite H. Qed.

Lemma touched_refl tc p e w : heap w !! p = Some e -> touched tc p e w w (en_state e).
Proof. intros H. split; try done. symmetry. apply list_insert_id. by destruct e. Qed.
Lemma touched_heap tc p e w w' s : heap w !! p = Some e -> touched tc p e w w' s ->
  heap w' !! p = Some (mkEntry (en_path e) s).
Proof. intros H T. rewrite (tw_heap _ _ _ _ _ _ T). apply list_lookup_insert_eq. by eapply lookup_lt_Some. Qed.
Lemma touched_trans tc p e w w1 w2 s1 s2 : heap w !! p = Some e ->
  touched tc p e w w1 s1 -> touched tc p (mkEntry (en_path e) s1) w1 w2 s2 -> touched tc p e w w2 s2.
Proof.
  intros H [A1 A2 A3 A4] [B1 B2 B3 B4]. split; try congruence.
  - rewrite B3, A3. simpl. apply list_insert_insert_eq.
  - intros q Hq. by rewrite B4, A4.
Qed.
Lemma touched_set_request tc p e w w' s h rq : touched tc p e w w' s ->
  touched tc p e w (set_request h rq w') s.
Proof. intros [A1 A2 A3 A4]. unfold set_request. by destruct (requests w' !! h). Qed.

(** A write, followed by the new state in memory if it succeeded. *)
Lemma persist_put tc n p e cand f w res w1 : names tc -> heap w !! p = Some e ->
  en_path e = Some (capacity_path dir tc) -> persist_candidate (en_path e) cand f w = (res, w1) ->
  record_ok tc n cand -> file_ok tc n (disk w !! capacity_path dir tc) ->
  touched tc p e w w1 (en_state e) /\ requests w1 = requests w /\ res <> Panic /\
  (f = Fine -> res = Ok tt) /\ file_ok tc n (disk w1 !! capacity_path dir tc) /\
  forall s', touched tc p e w (set_state p s' w1) s' /\ requests (set_state p s' w1) = requests w /\
             file_ok tc n (disk (set_state p s' w1) !! capacity_path dir tc).
Proof.
  intros Hn Hh Hpath H Hr Hf. rewrite Hpath in H.
  destruct (persist_frame _ _ _ _ _ _ H) as (P1 & P2 & P3 & P4 & P5 & P6).
  pose proof (persist_file _ _ Hstable _ _ _ _ _ _ _ _ Hn eq_refl H Hr Hf) as Hf'.
  assert (f = Fine -> res = Ok tt) as Hfine by (intros ->; simpl in H; by simplify_eq).
  split_and!; try done.
  { split; try done. rewrite P3. symmetry. apply list_insert_id. by destruct e. }
  intros s'. rewrite (set_state_heap _ e) by (by rewrite P3). split_and!; try done.
  split; simpl; try done. by rewrite P3.
Qed.

(** What is known of a live entry. *)
Lemma live_entry r p e : run_inv r -> heap (cw r) !! p = Some e -> es_terminal (en_state e) = false ->
  exists tc, tc = tc_at (cw r) p /\ names tc /\ entries (cw r) !! tc = Some p /\
    need r tc = delivered r tc + open_sum (cw r) (active r) p /\
    en_path e = Some (capacity_path dir tc) /\ record_ok tc (need r tc) (es_record (en_state e)) /\
    0 <= es_unpersisted_delivered (en_state e) /\ 0 <= delivered r tc /\
    file_ok tc (need r tc) (disk (cw r) !! capacity_path dir tc) /\
    (faulty = false -> clean_entry r tc p (en_state e)).
Proof.
  intros I Hh Ht. pose proof (ri_heap _ _ _ _ I _ _ Hh Ht) as Hp.
  destruct (ri_entries _ _ _ _ I _ _ Hp) as [Hn (e0 & He0 & _ & H1 & H2 & H3 & H4)].
  assert (e0 = e) as -> by congruence. destruct (ri_files _ _ _ _ I _ Hn) as (F1 & F2 & _).
  eexists. split; [|split_and!; try done].
  - unfold tc_at. by rewrite Hh.
  - unfold need. by rewrite Hp.
Qed.

(** [flush_delivered] moves the coalesced tokens inside the committed sum. *)
Lemma flush_spec tc n p e f w res w' : names tc -> heap w !! p = Some e ->
  en_path e = Some (capacity_path dir tc) -> record_ok tc n (es_record (en_state e)) ->
  0 <= es_unpersisted_delivered (en_state e) -> file_ok tc n (disk w !! capacity_path dir tc) ->
  flush_delivered p f w = (res, w') ->
  exists s', touched tc p e w w' s' /\ requests w' = requests w /\ res <> Panic /\
    es_terminal s' = es_terminal (en_state e) /\ record_ok tc n (es_record s') /\
    file_ok tc n (disk w' !! capacity_path dir tc) /\
    cr_funded_tokens (es_record s') = cr_funded_tokens (es_record (en_state e)) /\
    (s' = en_state e \/ es_unpersisted_delivered s' = 0 /\
       cr_outstanding_reservation (es_record s') =
       cr_outstanding_reservation (es_record (en_state e)) - es_unpersisted_delivered (en_state e)) /\
    (forall d, res = Ok d -> d = es_unpersisted_delivered (en_state e) /\ es_unpersisted_delivered s' = 0) /\
    (f = Fine -> es_unpersisted_delivered (en_state e) <= cr_outstanding_reservation (es_record (en_state e)) ->
       cr_funded_tokens (es_record (en_state e)) <= U64_MAX -> is_ok res = true).
Proof.
  intros Hn Hh Hpath Hr Hu Hf H. unfold flush_delivered in H. rewrite Hh in H.
  destruct (Z.eqb_spec (es_unpersisted_delivered (en_state e)) 0) as [Hz|Hz].
  { simplify_eq. exists (en_state e). split_and!; try done; [by apply touched_refl|by left|].
    intros d [= <-]. lia. }
  pose proof Hr as (Htc & Hv & (N1 & N2 & N3) & Hcov).
  destruct (validate_record_bound _ Hv) as (_ & B1 & _ & B2). unfold com in *.
  unfold checked_sub, u128_checked_add, checked_add in H.
  destruct (Z.leb_spec (es_unpersisted_delivered (en_state e)) (cr_outstanding_reservation (es_record (en_state e))));
    simpl in H; [|simplify_eq; exists (en_state e); split_and!; try done; [by apply touched_refl|by left|lia]].
  rewrite (proj2 (Z.leb_le _ _)) in H by lia. simpl in H.
  match type of H with context [validate_record ?c] => set (cand := c) in * end.
  assert (nonneg cand /\ com cand = com (es_record (en_state e))) as [Nc Cc] by (unfold nonneg, com; simpl; lia).
  assert (validate_record cand = Ok tt) as Hvc.
  { apply (validate_record_same (es_record (en_state e))); try done; unfold com in *; simpl in *; lia. }
  assert (record_ok tc n cand) as Hrc by (split_and!; try done; unfold com in *; lia).
  rewrite Hvc in H. destruct (persist_candidate _ cand f w) as [o w1] eqn:Ep.
  destruct (persist_put _ _ _ _ _ _ _ _ _ Hn Hh Hpath Ep Hrc Hf) as (T1 & Q1 & O1 & O2 & F1 & Hput).
  destruct o as [[]|msg|]; [| |done].
  - specialize (Hput (set_record cand (set_unpersisted 0 (en_state e)))) as (T2 & Q2 & F2). simplify_eq.
    eexists. split_and!; try done; unfold try_from; try by (right; simpl; lia).
    + by destruct (_ <=? _).
    + intros d. destruct (_ <=? _); simpl; intros; by simplify_eq.
    + intros _ _ Hfu. rewrite (proj2 (Z.leb_le _ _)) by lia. done.
  - simplify_eq. exists (en_state e). split_and!; try done; [by left|]. intros Hf' _ _. by specialize (O2 Hf').
Qed.

(** ** The open requests *)
Lemma share_set_request w p h rq h' rv : requests w !! h = Some rv ->
  share (set_request h rq w) p h' =
  if bool_decide (h' = h) then (if bool_decide (rv_entry rv = p) then rq_remaining rq else 0)
  else share w p h'.
Proof.
  intros H. unfold share, set_request. rewrite H. simpl. case_bool_decide as Hh.
  - subst. rewrite list_lookup_insert_eq by (by eapply lookup_lt_Some). done.
  - by rewrite list_lookup_insert_ne.
Qed.
Lemma open_sum_requests w w' act p : requests w' = requests w -> open_sum w' act p = open_sum w act p.
Proof. intros H. apply open_sum_frame. intros. unfold share. by rewrite H. Qed.
Lemma filter_keep (P : nat -> Prop) `{forall x, Decision (P x)} (l : list nat) :
  (forall x, x ∈ l -> P x) -> filter P l = l.
Proof.
  intros H'. induction l as [|x l IH]; [done|]. rewrite filter_cons_True by (apply H'; left).
  f_equal. apply IH. intros y Hy. apply H'. by right.
Qed.
Lemma open_sum_remove w act p h : NoDup act -> h ∈ act ->
  open_sum w act p = share w p h + open_sum w (filter (fun h' => h' <> h) act) p.
Proof.
  unfold open_sum. induction 1 as [|x act Hx Hnd IH]; intros Hin; [by apply elem_of_nil in Hin|].
  simpl. destruct (decide (x = h)) as [->|Hxh].
  - rewrite filter_cons_False by auto. rewrite filter_keep; [done|]. by intros y Hy ->.
  - rewrite filter_cons_True by done. apply elem_of_cons in Hin as [->|Hin]; [done|].
    simpl. rewrite (IH Hin). lia.
Qed.
Lemma open_sum_set_request w act p h rq rv : NoDup act -> h ∈ act -> requests w !! h = Some rv ->
  open_sum (set_request h rq w) act p =
  open_sum w act p - (if bool_decide (rv_entry rv = p)
                      then rq_remaining (rv_request rv) - rq_remaining rq else 0).
Proof.
  intros Hnd Hin Hrv. rewrite !(open_sum_remove _ act p h) by done.
  rewrite (share_set_request _ _ _ _ _ _ Hrv), bool_decide_true by done.
  rewrite (open_sum_frame w) by (intros h' Hh'; apply list_elem_of_filter in Hh' as [Hne _];
    rewrite (share_set_request _ _ _ _ _ _ Hrv), bool_decide_false; done).
  unfold share. rewrite Hrv. case_bool_decide; lia.
Qed.
Lemma open_sum_nonneg r p : run_inv r -> 0 <= open_sum (cw r) (active r) p.
Proof.
  intros I. unfold open_sum. induction (active r) as [|h act IH]; simpl; [lia|].
  enough (0 <= share (cw r) p h) by lia. unfold share. destruct (_ !! h) as [rv|] eqn:E; [|lia].
  case_bool_decide; [|lia]. by apply (ri_requests _ _ _ _ I) in E as [? _].
Qed.
Lemma set_request_requests w h rq k rv : requests (set_request h rq w) !! k = Some rv ->
  requests w !! k = Some rv \/
  exists rv0, requests w !! k = Some rv0 /\ rv = mkReservation (rv_entry rv0) rq /\ k = h.
Proof.
  unfold set_request. destruct (requests w !! h) as [rv0|] eqn:E; [|by left]. simpl.
  destruct (decide (k = h)) as [->|Hk].
  - rewrite list_lookup_insert_eq by (by eapply lookup_lt_Some). intros [= <-]. right. eauto.
  - rewrite list_lookup_insert_ne by done. by left.
Qed.
Lemma set_request_length w h rq : length (requests (set_request h rq w)) = length (requests w).
Proof. unfold set_request. destruct (requests w !! h); simpl; [by rewrite length_insert|done]. Qed.

(** The requests a run still counts are the same. *)
Record same_requests (r : CapacityRun) (w' : CapacityWorld) : Prop := {
  sr_length : length (requests w') = length (requests (cw r));
  sr_active : forall h, h ∈ active r -> requests w' !! h = requests (cw r) !! h;
  sr_typed : forall h rv, requests w' !! h = Some rv ->
    0 <= rq_remaining (rv_request rv) /\ (rv_entry rv < length (heap (cw r)))%nat
}.
Lemma same_requests_eq r w' : run_inv r -> requests w' = requests (cw r) -> same_requests r w'.
Proof. intros I H. split; rewrite H; try done. apply I. Qed.
Lemma same_requests_sum r w' p : same_requests r w' ->
  open_sum w' (active r) p = open_sum (cw r) (active r) p.
Proof. intros H. apply open_sum_frame. intros h Hh. unfold share. by rewrite (sr_active _ _ H). Qed.

(** [put_inv] for a section that keeps the open requests; [b] goes to the bill. *)
Lemma touched_inv_bill r w' p e s' tc bill : run_inv r -> heap (cw r) !! p = Some e ->
  es_terminal (en_state e) = false -> tc = tc_at (cw r) p ->
  touched tc p e (cw r) w' s' -> same_requests r w' -> es_terminal s' = false ->
  0 <= es_unpersisted_delivered s' -> record_ok tc (need r tc) (es_record s') ->
  file_ok tc (need r tc) (disk w' !! capacity_path dir tc) ->
  (forall k, k <> tc -> bill k = billed r k) ->
  (faulty = false -> bill tc + dropped r tc + es_unpersisted_delivered s' = delivered r tc /\
     open_sum (cw r) (active r) p + es_unpersisted_delivered s'
       <= cr_outstanding_reservation (es_record s') /\
     cr_funded_tokens (es_record s') <= U64_MAX) ->
  run_inv (mkRun w' (active r) (delivered r) bill (dropped r)).
Proof.
  intros I Hh Ht -> T Hq Ht' Hu Hr Hf Hbill Hc.
  destruct (live_entry _ _ _ I Hh Ht) as (tc & Etc & Hn & Hp & Hneed & Hpath & _ & _ & Hd & _).
  rewrite <- Etc in *. rewrite Hneed in *.
  apply (put_inv dir names faulty Hinj r _ tc p e s'); simpl; try done; try apply T.
  - rewrite (sr_length _ _ Hq). apply I.
  - apply Hq.
  - intros q _. by apply same_requests_sum.
  - intros k Hk. by rewrite Hbill.
  - by rewrite same_requests_sum.
  - by rewrite same_requests_sum.
  - intros Hff. unfold clean_entry. simpl. rewrite same_requests_sum by done. auto.
Qed.
Lemma touched_inv r w' p e s' tc : run_inv r -> heap (cw r) !! p = Some e ->
  es_terminal (en_state e) = false -> tc = tc_at (cw r) p ->
  touched tc p e (cw r) w' s' -> requests w' = requests (cw r) -> es_terminal s' = false ->
  0 <= es_unpersisted_delivered s' -> record_ok tc (need r tc) (es_record s') ->
  file_ok tc (need r tc) (disk w' !! capacity_path dir tc) ->
  (faulty = false -> clean_entry r tc p s') ->
  run_inv (mkRun w' (active r) (delivered r) (billed r) (dropped r)).
Proof. intros. eapply touched_inv_bill; try done. by apply same_requests_eq. Qed.

(** Only the values of the counters matter. *)
Lemma ghost_ext r d b x : run_inv r -> (forall k, d k = delivered r k) ->
  (forall k, b k = billed r k) -> (forall k, x k = dropped r k) ->
  run_inv (mkRun (cw r) (active r) d b x).
Proof.
  intros I Hd Hb Hx.
  assert (forall k, need (mkRun (cw r) (active r) d b x) k = need r k) as Hneed.
  { intros k. unfold need. simpl. by rewrite Hd. }
  split; simpl; try apply I.
  - intros tc p Hp. rewrite Hneed. unfold clean_entry. simpl. rewrite Hd, Hb, Hx.
    by apply (ri_entries _ _ _ _ I).
  - intros tc Hn. rewrite Hneed, Hd, Hb, Hx. by apply (ri_files _ _ _ _ I).
Qed.

Lemma share_nonneg r p h : run_inv r -> 0 <= share (cw r) p h.
Proof.
  intros I. unfold share. destruct (_ !! h) as [rv|] eqn:E; [|lia]. case_bool_decide; [|lia].
  by apply (ri_requests _ _ _ _ I) in E as [? _].
Qed.
Lemma open_sum_filter r h p act : run_inv r ->
  0 <= open_sum (cw r) (filter (fun h' => h' <> h) act) p <= open_sum (cw r) act p.
Proof.
  intros I. unfold open_sum. induction act as [|k l IH]; [done|].
  pose proof (share_nonneg r p k I).
  destruct (decide (k = h)) as [->|Hk];
    [rewrite filter_cons_False by auto|rewrite filter_cons_True by done]; simpl map; simpl foldr; lia.
Qed.
(** A stream that ended no longer counts. *)
Lemma drop_inv r h : run_inv r ->
  run_inv (mkRun (cw r) (filter (fun h' => h' <> h) (active r)) (delivered r) (billed r) (dropped r)).
Proof.
  intros I. set (act := filter _ _). set (r' := mkRun _ _ _ _ _).
  assert (forall p, 0 <= open_sum (cw r) act p <= open_sum (cw r) (active r) p) as Hsum.
  { intros p. by apply open_sum_filter. }
  assert (forall k, 0 <= delivered r k -> 0 <= need r' k <= need r k) as Hneed.
  { intros k Hk. unfold need, r'. simpl. destruct (entries (cw r) !! k) as [p|]; simpl; [|lia].
    specialize (Hsum p). lia. }
  destruct (ri_active _ _ _ _ I) as [Hnd Hall]. split; simpl; try apply I.
  - split; [by apply NoDup_filter|]. apply Forall_forall. intros k Hk.
    apply list_elem_of_filter in Hk as [_ Hk]. rewrite Forall_forall in Hall. by apply Hall.
  - intros tc p Hp. destruct (ri_entries _ _ _ _ I _ _ Hp) as [Hn (e & He & E1 & E2 & E3 & E4 & E5)].
    destruct (ri_files _ _ _ _ I _ Hn) as (Hd & _). specialize (Hneed tc Hd).
    split; [done|]. exists e. split_and!; try done; [eapply record_ok_le; [done|lia]|].
    intros Hff. destruct (E5 Hff) as (C1 & C2 & C3). split_and!; try done. simpl.
    specialize (Hsum p). lia.
  - intros tc Hn. destruct (ri_files _ _ _ _ I _ Hn) as (Hd & Hf & Hb). specialize (Hneed tc Hd).
    split_and!; try done. destruct (disk (cw r) !! _) as [[]|]; simpl in *; [|done|lia].
    eapply record_ok_le; [done|lia].
Qed.

(** ** Chain reads *)
Lemma reconcile_candidate_spec tc n state deal cap s cand :
  reconcile_candidate tc state deal cap s = Ok cand -> record_ok tc n (es_record s) ->
  0 <= ds_tokens_pending state ->
  record_ok tc n cand /\ es_terminal s = false /\
  cr_outstanding_reservation cand = cr_outstanding_reservation (es_record s) /\
  cr_funded_tokens cand = cr_funded_tokens (es_record s).
Proof.
  unfold reconcile_candidate. intros H (Htc & Hv & (N1 & N2 & N3) & Hn) Hpos.
  do 6 ok_step H. repeat ok_step H. simplify_eq. destruct a0. simpl in *.
  assert (cr_funded_tokens (es_record s) = funded_tokens deal) by (destruct (Z.eqb_spec (cr_funded_tokens (es_record s)) (funded_tokens deal)); [done|discriminate]).
  split_and!; unfold record_ok, nonneg, com, saturating_sub in *; simpl; split_and?; try done; lia.
Qed.

Lemma reconcile_step r p state deal cap f res w' : run_inv r -> deal_typed state deal ->
  reconcile_on p (tc_at (cw r) p) state deal cap f (cw r) = (res, w') ->
  run_inv (mkRun w' (active r) (delivered r) (billed r) (dropped r)).
Proof.
  intros I ([Hty _] & _) H. unfold reconcile_on in H.
  assert (run_inv (mkRun (cw r) (active r) (delivered r) (billed r) (dropped r))) as I0 by by destruct r.
  destruct (heap (cw r) !! p) as [e|] eqn:Hh; [|by simplify_eq].
  destruct (reconcile_candidate _ _ _ _ _) as [cand| |] eqn:Ec; [|by simplify_eq|by simplify_eq].
  assert (es_terminal (en_state e) = false) as Ht.
  { unfold reconcile_candidate in Ec. by ok_step Ec. }
  destruct (live_entry _ _ _ I Hh Ht) as (tc & Etc & Hn & Hp & Hneed & Hpath & Hr & Hu & Hd & Hf & Hc).
  rewrite <- Etc in *.
  destruct (reconcile_candidate_spec _ _ _ _ _ _ _ Ec Hr Hty) as (Hrc & _ & Ho & Hfu).
  case_bool_decide; [by simplify_eq|].
  destruct (persist_candidate _ cand f _) as [o w1] eqn:Ep.
  destruct (persist_put _ _ _ _ _ _ _ _ _ Hn Hh Hpath Ep Hrc Hf) as (T1 & Q1 & O1 & O2 & F1 & Hput).
  destruct o as [[]|msg|]; [| |done]; simplify_eq.
  - destruct (Hput (set_record cand (en_state e))) as (T2 & Q2 & F2).
    eapply touched_inv; try done. intros Hff. destruct (Hc Hff) as (C1 & C2 & C3).
    split_and!; simpl; try done; [by rewrite Ho|by rewrite Hfu].
  - eapply touched_inv; try done.
Qed.

Lemma open_sum_fresh r : run_inv r -> open_sum (cw r) (active r) (length (heap (cw r))) = 0.
Proof.
  intros I. unfold open_sum. induction (active r) as [|h act IH]; simpl; [done|]. rewrite IH.
  unfold share. destruct (requests (cw r) !! h) as [rv|] eqn:E; [|lia].
  apply (ri_requests _ _ _ _ I) in E as [_ E]. rewrite bool_decide_false by lia. lia.
Qed.

(** A new entry for a contract that had none. *)
Lemma new_entry_inv r tc rec w' : run_inv r -> names tc -> entries (cw r) !! tc = None ->
  record_ok tc (delivered r tc) rec -> (faulty = false -> cr_funded_tokens rec <= U64_MAX) ->
  w' = set_entries (<[tc := length (heap (cw r))]> (entries (cw r)))
         (set_heap (heap (cw r) ++ [mkEntry (Some (capacity_path dir tc)) (mkEntryState rec false 0)]) (cw r)) ->
  run_inv (mkRun w' (active r) (delivered r) (billed r) (dropped r)).
Proof.
  intros I Hn Hnone Hrec Hfu ->. pose proof (open_sum_fresh r I) as H0.
  remember (length (heap (cw r))) as p eqn:Hp.
  assert (forall k, entries (cw r) !! k <> Some p) as Hfresh.
  { intros k Hk. apply (ri_entries _ _ _ _ I) in Hk as [_ (e & He & _)].
    apply lookup_lt_Some in He. lia. }
  set (w' := set_entries _ _). set (r' := mkRun _ _ _ _ _).
  assert (forall k, need r' k = need r k) as Hneed.
  { intros k. unfold need, r', w'. simpl. destruct (decide (k = tc)) as [->|Hk].
    - rewrite lookup_insert_eq, Hnone. simpl. rewrite (open_sum_requests (cw r)) by done. lia.
    - rewrite lookup_insert_ne by done. destruct (entries (cw r) !! k); simpl; [|done].
      by rewrite (open_sum_requests (cw r)). }
  destruct (ri_files _ _ _ _ I tc Hn) as (Hd & _ & Hb).
  split; simpl; try apply I.
  - intros h rv Hrv. apply (ri_requests _ _ _ _ I) in Hrv as [? ?]. rewrite length_app. simpl. lia.
  - intros k q Hq. destruct (decide (k = tc)) as [->|Hk].
    + rewrite lookup_insert_eq in Hq. injection Hq as <-. split; [done|]. eexists.
      rewrite Hp at 1.
      rewrite lookup_app_r, Nat.sub_diag by lia. split; [done|]. rewrite Hneed.
      assert (need r tc = delivered r tc) as -> by (unfold need; rewrite Hnone; simpl; lia).
      simpl. split_and!; try done. intros Hff. destruct (Hb Hff Hnone) as [Hb' _].
      unfold clean_entry. simpl. rewrite (open_sum_requests (cw r)) by done.
      rewrite H0. split_and!; [lia| |auto].
      destruct Hrec as (_ & _ & (_ & _ & ?) & _). lia.
    + rewrite lookup_insert_ne in Hq by done.
      destruct (ri_entries _ _ _ _ I _ _ Hq) as [Hnk (e & He & E1 & E2 & E3 & E4 & E5)].
      split; [done|]. exists e. rewrite lookup_app_l by (by eapply lookup_lt_Some).
      rewrite Hneed. by split_and!.
  - intros q e Hq Ht. apply lookup_app_Some in Hq as [Hq|[Hge Hq]].
    + rewrite lookup_insert_ne by (intros Heq; pose proof (ri_heap _ _ _ _ I _ _ Hq Ht) as Hx;
        rewrite <- Heq, Hnone in Hx; done). by apply (ri_heap _ _ _ _ I).
    + apply list_lookup_singleton_Some in Hq as [Hz <-]. simpl. destruct Hrec as (-> & _).
      rewrite lookup_insert_eq. f_equal. lia.
  - intros k Hk. rewrite Hneed. destruct (ri_files _ _ _ _ I k Hk) as (F1 & F2 & F3).
    split_and!; try done. intros Hff Hx. apply F3; [done|].
    destruct (decide (k = tc)) as [->|]; [by rewrite lookup_insert_eq in Hx|by rewrite lookup_insert_ne in Hx].
Qed.

Lemma live_cap state deal cap : validate_live_deal_shape state deal = Ok tt ->
  authoritative_cap state deal = Ok cap -> deal_typed state deal ->
  ds_tokens_pending state <= cap <= funded_tokens deal.
Proof.
  unfold validate_live_deal_shape. intros H Hc (T1 & T2 & T3 & T4). rewrite Hc in H.
  do 8 ok_step H. ok_step H. split; [lia|]. unfold authoritative_cap in Hc.
  repeat ok_step Hc; simplify_eq; lia.
Qed.

Lemma load_step r tc state deal cap res w' : run_inv r -> names tc -> deal_typed state deal ->
  (faulty = false -> funded_tokens deal <= U64_MAX) ->
  validate_live_deal_shape state deal = Ok tt -> authoritative_cap state deal = Ok cap ->
  find_or_load tc state deal cap (cw r) = (res, w') ->
  run_inv (mkRun w' (active r) (delivered r) (billed r) (dropped r)).
Proof.
  intros I Hn Hty Hfu Hs Hc H. pose proof (live_cap _ _ _ Hs Hc Hty) as Hcap.
  assert (run_inv (mkRun (cw r) (active r) (delivered r) (billed r) (dropped r))) as I0 by by destruct r.
  unfold find_or_load in H. destruct (entries (cw r) !! tc) as [p|] eqn:He; [by simplify_eq|].
  rewrite (ri_dir _ _ _ _ I) in H. simpl in H. destruct (ri_files _ _ _ _ I tc Hn) as (Hd & Hf & Hb).
  assert (need r tc = delivered r tc) as Hneed by (unfold need; rewrite He; simpl; lia).
  rewrite Hneed in Hf. unfold load_record in H. destruct (disk (cw r) !! capacity_path dir tc) as [[rec|]|] eqn:Ed.
  - destruct Hf as (Htc & Hv & Hrest). rewrite Hv in H. simpl in H. rewrite bool_decide_true in H by done.
    simpl in H. simplify_eq. eapply new_entry_inv; try done.
    intros Hff. destruct (Hb Hff He) as [_ Hx]. discriminate Hx.
  - done.
  - simplify_eq. simpl in Hf. destruct Hty as (T1 & T2 & _).
    eapply new_entry_inv; try done; [|by auto]. unfold in_u128 in *.
    split_and!; unfold com, nonneg; simpl; split_and?; try done; try lia.
    unfold validate_record, committed, u128_checked_add, checked_add. simpl. rewrite bool_decide_false by auto.
    rewrite !Z.add_0_r, (proj2 (Z.leb_le _ _)) by lia. simpl.
    rewrite !Z.add_0_r, (proj2 (Z.leb_le _ _)) by lia. simpl.
    by do 2 (rewrite (proj2 (Z.ltb_ge _ _)) by lia).
Qed.

(** ** Terminal contracts *)
Lemma remove_frame path f w res w' : remove_if_present path f w = (res, w') ->
  store_dir w' = store_dir w /\ entries w' = entries w /\ heap w' = heap w /\
  requests w' = requests w /\ (forall q, q <> path -> disk w' !! q = disk w !! q) /\
  (disk w' !! path = disk w !! path \/ disk w' !! path = None) /\
  (f = Fine -> disk w' !! path = None).
Proof.
  unfold remove_if_present. destruct (disk w !! path) eqn:E.
  - destruct f; intros; simplify_eq; simpl; split_and!; try done; auto;
      try (intros; by rewrite lookup_delete_ne); try (right; apply lookup_delete_eq);
      intros _; apply lookup_delete_eq.
  - intros; simplify_eq. split_and!; auto.
Qed.

Lemma file_ok_zero tc n o : file_ok tc n o -> 0 <= n -> file_ok tc 0 o.
Proof. destruct o as [[]|]; simpl; try done. intros; by eapply record_ok_le. Qed.

(** After the entry of [tc] is gone, with any file of [tc] that stays well formed. *)
Lemma gone_inv r tc w' : run_inv r -> names tc ->
  store_dir w' = store_dir (cw r) -> entries w' = delete tc (entries (cw r)) ->
  requests w' = requests (cw r) -> length (heap w') = length (heap (cw r)) ->
  (forall q e, heap w' !! q = Some e -> es_terminal (en_state e) = false ->
     heap (cw r) !! q = Some e /\ entries (cw r) !! tc <> Some q) ->
  (forall q, entries (cw r) !! tc <> Some q -> heap w' !! q = heap (cw r) !! q) ->
  (forall q, q <> capacity_path dir tc -> disk w' !! q = disk (cw r) !! q) ->
  file_ok tc 0 (disk w' !! capacity_path dir tc) ->
  (faulty = false -> disk w' !! capacity_path dir tc = None) ->
  run_inv (mkRun w' (active r) (upd (delivered r) tc 0) (upd (billed r) tc 0) (upd (dropped r) tc 0)).
Proof.
  intros I Hn Hdir Hent Hreq Hlen Hlive Hkeep Hdisk Hfile Hgone.
  set (r' := mkRun _ _ _ _ _).
  assert (forall k, k <> tc -> need r' k = need r k) as Hneed.
  { intros k Hk. unfold need, r'. simpl. rewrite upd_ne, Hent, lookup_delete_ne by done.
    destruct (entries (cw r) !! k); simpl; [|done]. by rewrite (open_sum_requests (cw r)). }
  assert (need r' tc = 0) as Hneed0.
  { unfold need, r'. simpl. by rewrite upd_eq, Hent, lookup_delete_eq. }
  split; simpl.
  - rewrite Hdir. apply I.
  - rewrite Hreq. apply I.
  - rewrite Hreq, Hlen. apply I.
  - intros k q Hq. rewrite Hent in Hq. apply lookup_delete_Some in Hq as [Hk Hq].
    destruct (ri_entries _ _ _ _ I _ _ Hq) as [Hnk (e & He & E1 & E2 & E3 & E4 & E5)].
    split; [done|]. exists e. rewrite Hkeep, Hneed by (done || (intros Hx; apply Hk;
      apply (ri_entries _ _ _ _ I) in Hx as [_ (e' & He' & _ & _ & (T' & _) & _)];
      destruct E3 as (T & _); congruence)).
    unfold clean_entry. simpl. rewrite !upd_ne by done. split_and!; try done.
    rewrite (open_sum_requests (cw r)) by done. done.
  - intros q e Hq Ht. destruct (Hlive q e Hq Ht) as [Hq' Hne].
    pose proof (ri_heap _ _ _ _ I _ _ Hq' Ht) as Hx. rewrite Hent, lookup_delete_ne; [done|].
    intros Heq. apply Hne. by rewrite Heq.
  - intros k Hk. destruct (decide (k = tc)) as [->|Hkt].
    + rewrite Hneed0, !upd_eq. split_and!; try done. by intros Hff; auto.
    + destruct (ri_files _ _ _ _ I k Hk) as (F1 & F2 & F3).
      rewrite Hneed, !upd_ne, Hent, lookup_delete_ne, Hdisk by (done || (intros Hx; by apply Hkt, Hinj)).
      done.
Qed.

Lemma terminal_step r tc f res w' : run_inv r -> fault_ok faulty f -> names tc ->
  mark_terminal tc f (cw r) = (res, w') ->
  run_inv (mkRun w' (active r) (upd (delivered r) tc 0) (upd (billed r) tc 0) (upd (dropped r) tc 0)).
Proof.
  intros I Hf Hn H. unfold mark_terminal in H. rewrite (ri_dir _ _ _ _ I) in H.
  destruct (ri_files _ _ _ _ I tc Hn) as (Hd & Hfile & _).
  assert (0 <= need r tc) as Hnn.
  { unfold need. destruct (entries (cw r) !! tc) as [q|]; simpl; [|lia].
    pose proof (open_sum_nonneg r q I). lia. }
  apply (file_ok_zero _ _ _ Hfile) in Hnn.
  assert (faulty = false -> f = Fine) as Hff by (intros ->; destruct Hf; congruence).
  destruct (entries (cw r) !! tc) as [p|] eqn:He.
  - destruct (ri_entries _ _ _ _ I _ _ He) as [_ (e & Hh & E1 & E2 & _)].
    simpl in H. rewrite Hh, E2 in H. rewrite (set_state_heap _ e) in H by done.
    apply remove_frame in H as (R1 & R2 & R3 & R4 & R5 & R6 & R7). simpl in *.
    assert (p < length (heap (cw r)))%nat as Hlt by (by eapply lookup_lt_Some).
    apply gone_inv; try done.
    + rewrite R3. apply length_insert.
    + intros q e' Hq Ht. rewrite R3 in Hq. rewrite He. destruct (decide (q = p)) as [->|Hqp].
      * rewrite list_lookup_insert_eq in Hq by done. by simplify_eq.
      * rewrite list_lookup_insert_ne in Hq by done. split; congruence.
    + intros q Hq. rewrite R3. rewrite He in Hq. rewrite list_lookup_insert_ne by congruence. done.
    + destruct R6 as [-> | ->]; done.
    + auto.
  - apply remove_frame in H as (R1 & R2 & R3 & R4 & R5 & R6 & R7).
    apply gone_inv; try done.
    + rewrite R2. symmetry. by apply delete_id.
    + by rewrite R3.
    + intros q e' Hq Ht. rewrite R3 in Hq. rewrite He. done.
    + intros q _. by rewrite R3.
    + destruct R6 as [-> | ->]; done.
    + auto.
Qed.

(** ** Reservations *)
Lemma open_sum_new r w' p q rq : run_inv r ->
  requests w' = requests (cw r) ++ [mkReservation p rq] ->
  open_sum w' (length (requests (cw r)) :: active r) q =
  open_sum (cw r) (active r) q + (if bool_decide (p = q) then rq_remaining rq else 0).
Proof.
  intros I Hreq. unfold open_sum. simpl. rewrite Z.add_comm. f_equal.
  - apply (open_sum_frame (cw r) w' (active r) q). intros h Hh. unfold share. rewrite Hreq.
    destruct (ri_active _ _ _ _ I) as [_ Ha]. rewrite Forall_forall in Ha.
    by rewrite lookup_app_l by by apply Ha.
  - unfold share. rewrite Hreq, lookup_app_r, Nat.sub_diag by done. done.
Qed.

Lemma validate_no_panic rec : validate_record rec <> Panic.
Proof.
  unfold validate_record, committed. destruct (negb _); [done|]. destruct (bool_decide _); [done|]. simpl.
  destruct (u128_checked_add _ _) as [v|]; simpl; [|done]. destruct (u128_checked_add v _); simpl; [|done].
  destruct (_ <? _); [done|]. by destruct (_ <? _).
Qed.

(** What a granted or refused reservation does to the entry. *)
Lemma reserve_spec r p requested f res w' : run_inv r -> 0 < requested ->
  reserve_on p requested f (cw r) = (res, w') -> heap (cw r) !! p <> None ->
  (exists e tc, heap (cw r) !! p = Some e /\ es_terminal (en_state e) = false /\
     tc = tc_at (cw r) p /\ exists amount cand, 0 < amount <= requested /\
     cand = set_outstanding (cr_outstanding_reservation (es_record (en_state e)) + amount)
              (es_record (en_state e)) /\
     record_ok tc (need r tc + amount) cand /\
     file_ok tc (need r tc) (disk w' !! capacity_path dir tc) /\
     match res with
     | Ok h => h = length (requests (cw r)) /\
         requests w' = requests (cw r) ++ [mkReservation p (mkRequest amount amount false)] /\
         touched tc p e (cw r) w' (set_record cand (set_unpersisted 0 (en_state e))) /\
         file_ok tc (need r tc + amount) (disk w' !! capacity_path dir tc)
     | Err _ => requests w' = requests (cw r) /\ touched tc p e (cw r) w' (en_state e)
     | Panic => False
     end) \/ (w' = cw r /\ is_ok res = false /\ res <> Panic).
Proof.
  intros I Hreq H Hp. unfold reserve_on in H. destruct (heap (cw r) !! p) as [e|] eqn:Hh; [|done].
  destruct (es_terminal (en_state e)) eqn:Ht; [right; by simplify_eq|].
  destruct (live_entry _ _ _ I Hh Ht) as (tc & Etc & Hn & _ & _ & Hpath & Hr & _ & _ & Hf & _).
  pose proof Hr as (Htc & Hv & (N1 & N2 & N3) & Hcov). rewrite Hv in H. simpl in H.
  destruct (validate_record_bound _ Hv) as (Hcm & B1 & _ & B2).
  unfold available in H. rewrite Hcm in H. unfold checked_sub in H. simpl in H.
  rewrite (proj2 (Z.leb_le _ _)) in H by lia. simpl in H.
  set (amount := Z.min _ requested) in H.
  destruct (Z.eqb_spec amount 0) as [Hz|Hz]; [right; by simplify_eq|].
  assert (0 < amount <= requested /\ amount <= cr_authoritative_cap (es_record (en_state e)) - com (es_record (en_state e))) as [Ha Ha2] by lia.
  unfold u128_checked_add, checked_add in H.
  destruct (Z.leb_spec (cr_outstanding_reservation (es_record (en_state e)) + amount) U128_MAX) as [Hle|];
    simpl in H; [|right; by simplify_eq].
  set (cand := set_outstanding _ _) in H.
  assert (com cand = com (es_record (en_state e)) + amount) as Hcc by (unfold com; simpl; lia).
  destruct (validate_record cand) as [[]|msg|] eqn:Hvc; simpl in H; [|right; by simplify_eq|by apply validate_no_panic in Hvc].
  assert (record_ok tc (need r tc + amount) cand) as Hrc.
  { split_and!; try done; [unfold nonneg; simpl; lia|lia]. }
  left. exists e, tc. split_and!; try done. exists amount, cand.
  refine (conj Ha (conj eq_refl (conj Hrc _))).
  destruct (persist_candidate _ cand f _) as [o w1] eqn:Ep.
  assert (record_ok tc (need r tc) cand) as Hrc0 by (eapply record_ok_le; [done|lia]).
  destruct (persist_put _ _ _ _ _ _ _ _ _ Hn Hh Hpath Ep Hrc0 Hf) as (T1 & Q1 & O1 & O2 & F1 & Hput).
  destruct o as [[]|msg|]; [|by simplify_eq|done].
  destruct (Hput (set_record cand (set_unpersisted 0 (en_state e)))) as (T2 & Q2 & F2).
  simplify_eq. cbn [fst snd]. rewrite Q2.
  assert (disk (set_state p (set_record cand (set_unpersisted 0 (en_state e))) w1) !! capacity_path dir (tc_at (cw r) p) = Some (Parsed cand)) as Hd.
  { rewrite (set_state_heap _ e) by (by rewrite (tw_heap _ _ _ _ _ _ T1), list_lookup_insert_eq by (by eapply lookup_lt_Some); destruct e).
    simpl. rewrite Hpath in Ep. destruct f; simpl in Ep; simplify_eq. simpl.
    rewrite lookup_insert_eq. by rewrite (reload_ok names Hstable _ _ _ Hn Hrc0). }
  assert (forall rs, touched (tc_at (cw r) p) p e (cw r)
    (set_requests rs (set_state p (set_record cand (set_unpersisted 0 (en_state e))) w1))
    (set_record cand (set_unpersisted 0 (en_state e)))) as T3.
  { intros rs. destruct T2 as [A1 A2 A3 A4]. by split. }
  split; [|cbv iota; split_and!]; try done; cbn [disk set_requests]; by rewrite Hd.
Qed.

Lemma reserve_refused_step r p requested f e w' : run_inv r -> 0 < requested ->
  reserve_on p requested f (cw r) = (Err e, w') ->
  run_inv (mkRun w' (active r) (delivered r) (billed r) (dropped r)).
Proof.
  intros I Hreq H. destruct (heap (cw r) !! p) eqn:Hh; [|unfold reserve_on in H; by rewrite Hh in H].
  destruct (reserve_spec _ _ _ _ _ _ I Hreq H ltac:(by rewrite Hh))
    as [(e0 & tc & Hh0 & Ht & Etc & amount & cand & _ & _ & Hrc & Hf & Hq & T)|(-> & _)]; [|by destruct r].
  destruct (live_entry _ _ _ I Hh0 Ht) as (tc' & Etc' & Hn & _ & _ & Hpath & Hr & Hu & _ & _ & Hc).
  rewrite <- Etc in Etc'. subst tc'. by eapply touched_inv.
Qed.

Lemma reserve_step r p requested f h w' : run_inv r -> 0 < requested ->
  reserve_on p requested f (cw r) = (Ok h, w') ->
  run_inv (mkRun w' (h :: active r) (delivered r) (billed r)
             (upd (dropped r) (tc_at (cw r) p)
                (dropped r (tc_at (cw r) p) + unpersisted_at (cw r) p))).
Proof.
  intros I Hreq H. destruct (heap (cw r) !! p) eqn:Hh; [|unfold reserve_on in H; by rewrite Hh in H].
  destruct (reserve_spec _ _ _ _ _ _ I Hreq H ltac:(by rewrite Hh))
    as [(e & tc & Hh0 & Ht & Etc & amount & cand & Ha & -> & Hrc & _ & -> & Hrq & T & Hf)|(_ & ? & _)]; [|done].
  destruct (live_entry _ _ _ I Hh0 Ht) as (tc' & Etc' & Hn & Hp & Hneed & Hpath & Hr & Hu & Hd & _ & Hc).
  rewrite <- Etc in *. subst tc'. rewrite Hneed in *.
  destruct (ri_active _ _ _ _ I) as [Hnd Hall].
  assert (p < length (heap (cw r)))%nat as Hlt by (by eapply lookup_lt_Some).
  assert (unpersisted_at (cw r) p = es_unpersisted_delivered (en_state e)) as -> by (unfold unpersisted_at; by rewrite Hh0).
  eapply (put_inv dir names faulty Hinj r _ tc p e); simpl; try apply T; try done; simpl; try lia.
  - split.
    + constructor; [|done]. intros Hin. rewrite Forall_forall in Hall. apply Hall in Hin. lia.
    + rewrite Hrq, length_app. simpl. constructor; [lia|].
      eapply Forall_impl; [done|]. simpl. lia.
  - intros h rv Hrv. rewrite Hrq in Hrv. apply lookup_app_Some in Hrv as [Hrv|[_ Hrv]].
    + by apply (ri_requests _ _ _ _ I) in Hrv.
    + apply list_lookup_singleton_Some in Hrv as [_ <-]. simpl. lia.
  - intros q Hq. rewrite (open_sum_new r w' p q _ I Hrq), bool_decide_false by done. lia.
  - intros k Hk. by rewrite upd_ne.
  - rewrite (open_sum_new r w' p p _ I Hrq), bool_decide_true by done. simpl. by rewrite Z.add_assoc.
  - rewrite (open_sum_new r w' p p _ I Hrq), bool_decide_true by done. simpl. by rewrite Z.add_assoc.
  - intros Hff. destruct (Hc Hff) as (C1 & C2 & C3). unfold clean_entry. simpl. rewrite upd_eq.
    rewrite (open_sum_new r w' p p _ I Hrq), bool_decide_true by done. simpl. lia.
Qed.

(** ** Deliveries *)
Lemma tc_of_eq w h rv : requests w !! h = Some rv -> tc_of w h = tc_at w (rv_entry rv).
Proof. intros H. unfold tc_of. by rewrite H. Qed.

(** A refused call that changed nothing that counts. *)
Lemma refused_inv r (res : outcome string Z) k : run_inv r -> is_ok res = false ->
  run_inv (mkRun (cw r) (active r) (if is_ok res then upd (delivered r) k 0 else delivered r)
             (upd (billed r) k (billed r k + ok_value res)) (dropped r)).
Proof.
  intros I Hok. apply ghost_ext; try done; rewrite ?Hok; [done|]. intros k'. unfold upd.
  case_bool_decide; [|done]. subst. destruct res; simpl in *; [done|lia|lia].
Qed.

(** The state after [tokens] have left a request and [d] were reported billable. *)
Lemma delivered_put r h rv p e tc tokens : run_inv r -> h ∈ active r ->
  requests (cw r) !! h = Some rv -> p = rv_entry rv -> heap (cw r) !! p = Some e ->
  es_terminal (en_state e) = false -> tc = tc_at (cw r) p -> 0 < tokens ->
  tokens <= rq_remaining (rv_request rv) ->
  forall w2 s2 d, touched tc p e (cw r) w2 s2 -> requests w2 = requests (cw r) ->
  es_terminal s2 = false -> 0 <= es_unpersisted_delivered s2 ->
  record_ok tc (need r tc) (es_record s2) -> file_ok tc (need r tc) (disk w2 !! capacity_path dir tc) ->
  (faulty = false -> d + es_unpersisted_delivered s2 = es_unpersisted_delivered (en_state e) + tokens /\
     es_unpersisted_delivered s2 - cr_outstanding_reservation (es_record s2) =
     es_unpersisted_delivered (en_state e) + tokens - cr_outstanding_reservation (es_record (en_state e)) /\
     cr_funded_tokens (es_record s2) = cr_funded_tokens (es_record (en_state e))) ->
  run_inv (mkRun (set_request h (mkRequest (rq_initial (rv_request rv))
                                   (rq_remaining (rv_request rv) - tokens) false) w2)
             (active r) (upd (delivered r) tc (delivered r tc + tokens))
             (upd (billed r) tc (billed r tc + d)) (dropped r)).
Proof.
  intros I Hin Hrv Hp Hh Ht -> Htok Hle w2 s2 d T2 Hq2 Ht2 Hu2 Hr2 Hf2 Hc2.
  destruct (live_entry _ _ _ I Hh Ht) as (tc & Etc & Hn & Hpe & Hneed & Hpath & Hr & Hu & Hd & Hfile & Hc).
  rewrite <- Etc in *. set (rq := mkRequest _ _ _).
  destruct (ri_active _ _ _ _ I) as [Hnd Hall].
  assert (forall q, open_sum (set_request h rq w2) (active r) q =
    open_sum (cw r) (active r) q - (if bool_decide (p = q) then tokens else 0)) as Hsum.
  { intros q. rewrite (open_sum_set_request w2 (active r) q h rq rv) by (done || by rewrite Hq2).
    rewrite (open_sum_requests (cw r) w2), <- Hp by done.
    destruct (bool_decide (p = q)); subst rq; simpl; lia. }
  assert (delivered r tc + tokens + open_sum (set_request h rq w2) (active r) p = need r tc) as Hnn.
  { rewrite Hsum, bool_decide_true by done. rewrite Hneed. lia. }
  apply (put_inv dir names faulty Hinj r _ tc p e s2); simpl; rewrite ?upd_eq, ?Hnn; try done;
    try apply (touched_set_request _ _ _ _ _ _ h rq T2); try lia.
  - rewrite set_request_length, Hq2. done.
  - intros k rvk Hk. apply set_request_requests in Hk as [Hk|(rv0 & Hk & -> & ->)]; rewrite Hq2 in Hk.
    + by apply (ri_requests _ _ _ _ I) in Hk.
    + simpl. assert (rv0 = rv) as -> by congruence. apply (ri_requests _ _ _ _ I) in Hrv. lia.
  - intros q Hqp. rewrite Hsum, bool_decide_false by done. lia.
  - intros k Hk. by rewrite !upd_ne.
  - by unfold set_request; destruct (requests w2 !! h).
  - intros Hff. destruct (Hc Hff) as (C1 & C2 & C3), (Hc2 Hff) as (D1 & D2 & D3).
    unfold clean_entry. simpl. rewrite !upd_eq, Hsum, bool_decide_true by done. lia.
Qed.

Lemma deliver_step r h tokens f res w' : run_inv r -> fault_ok faulty f -> h ∈ active r ->
  0 < tokens -> record_delivered h tokens f (cw r) = (res, w') ->
  run_inv (mkRun w' (active r)
             (if is_ok res then upd (delivered r) (tc_of (cw r) h)
                                  (delivered r (tc_of (cw r) h) + tokens)
              else delivered r)
             (upd (billed r) (tc_of (cw r) h) (billed r (tc_of (cw r) h) + ok_value res))
             (dropped r)).
Proof.
  intros I Hf Hin Htok H. unfold record_delivered in H.
  assert (forall e, res = Err e -> w' = cw r -> run_inv (mkRun w' (active r)
    (if is_ok res then upd (delivered r) (tc_of (cw r) h) (delivered r (tc_of (cw r) h) + tokens) else delivered r)
    (upd (billed r) (tc_of (cw r) h) (billed r (tc_of (cw r) h) + ok_value res)) (dropped r))) as Hrefuse.
  { intros e -> ->. by apply (refused_inv r (Err e)). }
  destruct (Z.eqb_spec tokens 0); [by simplify_eq; eapply Hrefuse|].
  destruct (requests (cw r) !! h) as [rv|] eqn:Hrv.
  2:{ exfalso. destruct (ri_active _ _ _ _ I) as [_ Ha]. rewrite Forall_forall in Ha.
      apply Ha in Hin. apply lookup_ge_None in Hrv. lia. }
  destruct (ri_requests _ _ _ _ I _ _ Hrv) as [Hrem Hlt].
  destruct (rq_finished (rv_request rv)); [by simplify_eq; eapply Hrefuse|].
  destruct (Z.ltb_spec (rq_remaining (rv_request rv)) tokens) as [|Hle]; [by simplify_eq; eapply Hrefuse|].
  destruct (heap (cw r) !! rv_entry rv) as [e|] eqn:Hh; [|by apply lookup_ge_None in Hh; lia].
  destruct (es_terminal (en_state e)) eqn:Ht; [by simplify_eq; eapply Hrefuse|].
  unfold u128_checked_add, checked_add in H.
  destruct (_ <=? U128_MAX); [|by simplify_eq; eapply Hrefuse].
  destruct (Z.ltb_spec (cr_outstanding_reservation (es_record (en_state e)))
    (es_unpersisted_delivered (en_state e) + tokens)) as [|Hout]; [by simplify_eq; eapply Hrefuse|].
  clear Hrefuse. destruct (live_entry _ _ _ I Hh Ht) as (tc & Etc & Hn & Hp & Hneed & Hpath & Hr & Hu & Hd & Hfile & Hc).
  rewrite (tc_of_eq _ _ _ Hrv), <- Etc in *.
  set (p := rv_entry rv) in *. set (s1 := set_unpersisted _ _) in H.
  set (rq := mkRequest _ _ _) in H.
  assert (touched tc p e (cw r) (set_state p s1 (cw r)) s1) as T1.
  { rewrite (set_state_heap _ e) by done. by split. }
  assert (heap (set_state p s1 (cw r)) !! p = Some (mkEntry (en_path e) s1)) as Hh1 by by eapply touched_heap.
  assert (requests (set_state p s1 (cw r)) = requests (cw r)) as Hq1 by by rewrite (set_state_heap _ e).
  assert (disk (set_state p s1 (cw r)) = disk (cw r)) as Hd1 by by rewrite (set_state_heap _ e).
  pose proof (delivered_put r h rv p e tc tokens I Hin Hrv eq_refl Hh Ht Etc Htok Hle) as Hgo.
  destruct (_ || _).
  - destruct (flush_delivered p f _) as [o w2] eqn:Ef.
    destruct (flush_spec tc (need r tc) p _ _ _ _ _ Hn Hh1 Hpath Hr ltac:(simpl; lia)
      ltac:(by rewrite Hd1) Ef) as (s2 & T2 & Hq2 & Hnp & Ht2 & Hr2 & Hf2 & Hfu2 & Hor & Hok & Hfine).
    simpl in *. pose proof (touched_trans _ _ _ _ _ _ _ _ Hh T1 T2) as T3.
    assert (0 <= es_unpersisted_delivered s2) as Hu2 by (destruct Hor as [->|[-> _]]; simpl; lia).
    destruct o as [d|msg|]; [| |done]; simplify_eq; simpl.
    + destruct (Hok d eq_refl) as [-> Hz]. apply (Hgo w2 s2); try done; try (by rewrite Hq2, Hq1); try (by rewrite Ht2).
      intros _. destruct Hor as [Hor|[_ Ho]]; [rewrite Hor in Hz; simpl in Hz; lia|]. rewrite Hz, Ho. split_and!; try done; lia.
    + eapply touched_inv_bill; try done; [by apply same_requests_eq; [done|rewrite Hq2]|by rewrite Ht2| |].
      * intros k Hk. by rewrite upd_ne.
      * intros Hff. destruct (Hc Hff) as (C1 & C2 & C3). destruct Hf as [Hf|Hf]; [congruence|].
        specialize (Hfine Hf Hout C3). done.
  - simplify_eq. simpl. apply (Hgo _ s1); try done; try (by rewrite Hd1); simpl; try lia; intros _; lia.
Qed.

(** ** The end of a request *)

(** The last call of a stream: nothing but its own request and entry moves. *)
Lemma finish_put r h rv e w' s' bill : run_inv r -> h ∈ active r ->
  requests (cw r) !! h = Some rv -> heap (cw r) !! rv_entry rv = Some e ->
  es_terminal (en_state e) = false ->
  touched (tc_of (cw r) h) (rv_entry rv) e (cw r) w' s' ->
  (requests w' = requests (cw r) \/ requests w' = requests (set_request h (mkRequest (rq_initial (rv_request rv)) 0 true) (cw r))) ->
  es_terminal s' = false -> 0 <= es_unpersisted_delivered s' ->
  record_ok (tc_of (cw r) h) (need r (tc_of (cw r) h) - rq_remaining (rv_request rv)) (es_record s') ->
  file_ok (tc_of (cw r) h) (need r (tc_of (cw r) h) - rq_remaining (rv_request rv))
    (disk w' !! capacity_path dir (tc_of (cw r) h)) ->
  (faulty = false ->
     bill + es_unpersisted_delivered s' = es_unpersisted_delivered (en_state e) /\
     cr_outstanding_reservation (es_record (en_state e)) - rq_remaining (rv_request rv)
       - es_unpersisted_delivered (en_state e)
       <= cr_outstanding_reservation (es_record s') - es_unpersisted_delivered s' /\
     cr_funded_tokens (es_record s') = cr_funded_tokens (es_record (en_state e))) ->
  run_inv (mkRun w' (filter (fun h' => h' <> h) (active r)) (delivered r)
             (upd (billed r) (tc_of (cw r) h) (billed r (tc_of (cw r) h) + bill)) (dropped r)).
Proof.
  intros I Hin Hrv Hh Ht T Hq Ht' Hu Hr Hf Hc.
  rewrite (tc_of_eq _ _ _ Hrv) in *. pose proof (drop_inv r h I) as I1.
  destruct (live_entry _ _ _ I Hh Ht) as (tc & Etc & Hn & Hp & Hneed & _ & _ & _ & _ & _ & Hcl).
  rewrite <- Etc in *. destruct (ri_active _ _ _ _ I) as [Hnd _].
  assert (open_sum (cw r) (active r) (rv_entry rv) = rq_remaining (rv_request rv) +
    open_sum (cw r) (filter (fun h' => h' <> h) (active r)) (rv_entry rv)) as Hsum.
  { rewrite (open_sum_remove _ _ _ h) by done. unfold share at 1. by rewrite Hrv, bool_decide_true. }
  set (r1 := mkRun (cw r) (filter (fun h' => h' <> h) (active r)) (delivered r) (billed r) (dropped r)) in *.
  assert (need r1 tc = need r tc - rq_remaining (rv_request rv)) as Hn1.
  { unfold need in *. rewrite Hp in *. simpl in *. rewrite Hp. simpl. lia. }
  apply (touched_inv_bill r1 w' (rv_entry rv) e s' tc); try done; try (by rewrite Hn1).
  - split; simpl.
    + destruct Hq as [->| ->]; [done|by rewrite set_request_length].
    + intros k Hk. apply list_elem_of_filter in Hk as [Hne _]. destruct Hq as [->| ->]; [done|].
      unfold set_request. rewrite Hrv. simpl. by rewrite list_lookup_insert_ne.
    + intros k rvk Hk. destruct Hq as [Hq|Hq]; rewrite Hq in Hk; [by apply (ri_requests _ _ _ _ I) in Hk|].
      apply set_request_requests in Hk as [Hk|(rv0 & Hk & -> & ->)]; apply (ri_requests _ _ _ _ I) in Hk; [done|].
      simpl. lia.
  - intros k Hk. by rewrite upd_ne.
  - intros Hff. destruct (Hcl Hff) as (C1 & C2 & C3), (Hc Hff) as (D1 & D2 & D3).
    simpl. rewrite upd_eq. lia.
Qed.

(** Dropping a stream whose entry is terminal or whose request was refused. *)
Lemma finish_none r h w' res : run_inv r -> ok_value res = 0 ->
  (w' = cw r \/ exists rv e, requests (cw r) !! h = Some rv /\ heap (cw r) !! rv_entry rv = Some e /\
     w' = set_request h (mkRequest (rq_initial (rv_request rv)) 0 true) (cw r)) ->
  run_inv (mkRun w' (filter (fun h' => h' <> h) (active r)) (delivered r)
             (upd (billed r) (tc_of (cw r) h) (billed r (tc_of (cw r) h) + ok_value res)) (dropped r)).
Proof.
  intros I Hz Hw. set (act := filter _ _).
  assert (run_inv (mkRun (cw r) act (delivered r)
    (upd (billed r) (tc_of (cw r) h) (billed r (tc_of (cw r) h) + ok_value res)) (dropped r))) as I1.
  { apply (ghost_ext (mkRun (cw r) act (delivered r) (billed r) (dropped r))); try done; [by apply drop_inv|].
    intros k. simpl. unfold upd. case_bool_decide; [subst; lia|done]. }
  destruct Hw as [->|(rv & e & Hrv & He & ->)]; [done|].
  set (rq := mkRequest _ _ _). set (r2 := mkRun _ _ _ _ _) in I1.
  assert (forall p, open_sum (set_request h rq (cw r)) act p = open_sum (cw r) act p) as Hs.
  { intros p. apply open_sum_frame. intros k Hk. apply list_elem_of_filter in Hk as [Hne _].
    by rewrite (share_set_request _ _ _ _ _ _ Hrv), bool_decide_false. }
  assert (forall k rvk, requests (set_request h rq (cw r)) !! k = Some rvk ->
    0 <= rq_remaining (rv_request rvk) /\ (rv_entry rvk < length (heap (cw r)))%nat) as Hty.
  { intros k rvk Hk. apply set_request_requests in Hk as [Hk|(rv0 & Hk & -> & ->)];
      apply (ri_requests _ _ _ _ I) in Hk; [done|]. simpl. lia. }
  pose proof (set_request_length (cw r) h rq) as Hlen. revert Hs Hty Hlen. unfold set_request. rewrite Hrv.
  set (w3 := set_requests _ _). intros Hs Hty Hlen. set (r3 := mkRun _ _ _ _ _).
  assert (forall k, need r3 k = need r2 k) as Hneed.
  { intros k. unfold need, r3, r2. simpl. destruct (entries (cw r) !! k); simpl; [by rewrite Hs|done]. }
  destruct I1 as [J1 J2 J3 J4 J5 J6]. split; try done.
  - unfold r3. cbn [cw active]. rewrite Hlen. apply J2.
  - intros tc p Hp. rewrite Hneed. unfold clean_entry. cbn [cw active r3]. rewrite Hs. by apply J4.
  - intros tc Hn. rewrite Hneed. by apply J6.
Qed.

Lemma set_request_same w w1 h rq : requests w1 = requests w ->
  requests (set_request h rq w1) = requests (set_request h rq w).
Proof. intros H. unfold set_request. rewrite H. destruct (requests w !! h); simpl; congruence. Qed.

(** Giving the unused part back. *)
Lemma give_back tc n rem rec : record_ok tc n rec -> 0 <= rem -> 0 <= n - rem ->
  match (let* outstanding := ok_or (checked_sub (cr_outstanding_reservation rec) rem)
           "aggregate reservation underflow" in
         let candidate := set_outstanding outstanding rec in
         let* _ := validate_record candidate in Ok candidate) with
  | Ok cand => record_ok tc (n - rem) cand /\ cr_funded_tokens cand = cr_funded_tokens rec /\
      cr_outstanding_reservation cand = cr_outstanding_reservation rec - rem
  | Err _ => cr_outstanding_reservation rec < rem
  | Panic => False
  end.
Proof.
  intros (Htc & Hv & (N1 & N2 & N3) & Hcov) Hrem Hn. unfold checked_sub.
  destruct (Z.leb_spec rem (cr_outstanding_reservation rec)); simpl; [|done].
  destruct (validate_record_bound _ Hv) as (_ & B1 & _ & B2).
  set (cand := set_outstanding _ rec).
  assert (nonneg cand) as Hnn by (unfold nonneg; simpl; lia).
  assert (com cand = com rec - rem) as Hcc by (unfold com; simpl; lia).
  assert (validate_record cand = Ok tt) as -> by (apply (validate_record_same rec); try done; simpl; lia).
  assert (validate_record cand = Ok tt) by (apply (validate_record_same rec); try done; simpl; lia).
  split; [|done]. refine (conj Htc (conj _ (conj Hnn _))); [done|lia].
Qed.

Lemma finish_step r h (exact : bool) f1 f2 res w' : run_inv r -> fault_ok faulty f1 ->
  fault_ok faulty f2 -> h ∈ active r ->
  (if exact then finish_exact h f1 f2 (cw r) else finish_ambiguous h f1 (cw r)) = (res, w') ->
  run_inv (mkRun w' (filter (fun h' => h' <> h) (active r)) (delivered r)
             (upd (billed r) (tc_of (cw r) h) (billed r (tc_of (cw r) h) + ok_value res)) (dropped r)).
Proof.
  intros I Hf1 Hf2 Hin H.
  destruct (requests (cw r) !! h) as [rv|] eqn:Hrv.
  2:{ exfalso. destruct (ri_active _ _ _ _ I) as [_ Ha]. rewrite Forall_forall in Ha.
      apply Ha in Hin. apply lookup_ge_None in Hrv. lia. }
  destruct (ri_requests _ _ _ _ I _ _ Hrv) as [Hrem Hlt].
  destruct (heap (cw r) !! rv_entry rv) as [e|] eqn:Hh; [|by apply lookup_ge_None in Hh; lia].
  unfold finish_exact, finish_ambiguous in H. rewrite Hrv, Hh in H.
  destruct (rq_finished (rv_request rv)).
  { assert (ok_value res = 0 /\ w' = cw r) as [Hz ->] by (destruct exact; by simplify_eq).
    apply finish_none; auto. }
  destruct (es_terminal (en_state e)) eqn:Ht.
  { assert (ok_value res = 0 /\ w' = set_request h (mkRequest (rq_initial (rv_request rv)) 0 true) (cw r))
      as [Hz ->] by (destruct exact; by simplify_eq).
    apply finish_none; eauto 10. }
  destruct (live_entry _ _ _ I Hh Ht) as (tc & Etc & Hn & Hp & Hneed & Hpath & Hr & Hu & Hd & Hfile & Hc).
  pose proof (finish_put r h rv e) as Hput. rewrite (tc_of_eq _ _ _ Hrv), <- Etc in *.
  destruct (flush_delivered _ f1 _) as [o w1] eqn:Ef.
  destruct (flush_spec tc (need r tc) _ _ _ _ _ _ Hn Hh Hpath Hr Hu Hfile Ef)
    as (s1 & T1 & Hq1 & Hnp & Ht1 & Hr1 & Hfl1 & Hfu1 & Hor & Hok & Hfine).
  assert (0 <= es_unpersisted_delivered s1) as Hu1 by (destruct Hor as [->|[-> _]]; lia).
  assert (faulty = false -> is_ok o = true) as Hclean.
  { intros Hff. destruct (Hc Hff) as (C1 & C2 & C3). destruct Hf1 as [Hx|Hx]; [congruence|].
    pose proof (open_sum_nonneg r (rv_entry rv) I). apply Hfine; [done|lia|done]. }
  assert (0 <= need r tc - rq_remaining (rv_request rv)) as Hnr.
  { rewrite Hneed, (open_sum_remove _ _ _ h) by (done || apply I). unfold share at 1.
    rewrite Hrv, bool_decide_true by done. pose proof (open_sum_nonneg _ (rv_entry rv) (drop_inv r h I)). simpl in *. lia. }
  assert (record_ok tc (need r tc - rq_remaining (rv_request rv)) (es_record s1) /\
          file_ok tc (need r tc - rq_remaining (rv_request rv)) (disk w1 !! capacity_path dir tc)) as [Hr1' Hfl1'].
  { split; [eapply record_ok_le; [done|lia]|]. destruct (disk w1 !! _) as [[]|]; simpl in *; [|done|lia].
    eapply record_ok_le; [done|lia]. }
  destruct o as [d|msg|]; [|destruct exact; simplify_eq; apply (Hput _ s1); try done; try (by left);
    try (by rewrite Ht1); intros Hff; by specialize (Hclean Hff)|done].
  destruct (Hok d eq_refl) as [-> Hz].
  assert (cr_outstanding_reservation (es_record s1) =
    cr_outstanding_reservation (es_record (en_state e)) - es_unpersisted_delivered (en_state e)) as Ho1.
  { destruct Hor as [->|[_ Ho]]; [lia|done]. }
  destruct exact; [|simplify_eq; simpl; apply (Hput _ s1); try done;
    try (by apply touched_set_request); try (right; by apply set_request_same); try (by rewrite Ht1);
    try (by unfold set_request; destruct (requests w1 !! h)); intros _; lia].
  rewrite (touched_heap _ _ _ _ _ _ Hh T1) in H. simpl in H.
  pose proof (give_back tc (need r tc) (rq_remaining (rv_request rv)) (es_record s1) Hr1 Hrem Hnr) as Hgb.
  destruct (let* outstanding := ok_or (checked_sub (cr_outstanding_reservation (es_record s1)) (rq_remaining (rv_request rv))) "aggregate reservation underflow" in
    let candidate := set_outstanding outstanding (es_record s1) in let* _ := validate_record candidate in Ok candidate) as [cand|msg|]; [| |done].
  2:{ simplify_eq. apply (Hput _ s1); try done; try (by left); try (by rewrite Ht1). intros Hff.
      destruct (Hc Hff) as (C1 & C2 & C3). exfalso. revert C2.
      rewrite (open_sum_remove _ _ _ h) by (done || apply I). unfold share at 1.
      rewrite Hrv, bool_decide_true by done. pose proof (open_sum_nonneg _ (rv_entry rv) (drop_inv r h I)). simpl in *. lia. }
  destruct Hgb as (Hrc & Hfuc & Hoc).
  destruct (persist_candidate _ cand f2 w1) as [o w2] eqn:Ep.
  destruct (persist_put _ _ _ (mkEntry (en_path e) s1) _ _ _ _ _ Hn (touched_heap _ _ _ _ _ _ Hh T1) Hpath Ep Hrc Hfl1')
    as (T2 & Q2 & O1 & O2 & F2 & Hst).
  destruct o as [[]|msg|]; [| |done]; simplify_eq; simpl.
  - destruct (Hst (set_record cand s1)) as (T3 & Q3 & F3). pose proof (touched_trans _ _ _ _ _ _ _ _ Hh T1 T3) as T4.
    apply (Hput _ (set_record cand s1)); try done; try (by apply touched_set_request);
      try (right; apply set_request_same; congruence); try (simpl; by rewrite Ht1);
      try (by unfold set_request; destruct (requests (set_state _ _ w2) !! h)).
    intros _. simpl. lia.
  - pose proof (touched_trans _ _ _ _ _ _ _ _ Hh T1 T2) as T4. simpl in T4.
    apply (Hput _ s1); try done; try (left; congruence); try (by rewrite Ht1).
    intros Hff. destruct Hf2 as [Hx|Hx]; [congruence|]. by specialize (O2 Hx).
Qed.

Lemma crash_step r : run_inv r -> faulty = true ->
  run_inv (mkRun (mkCapacityWorld (Some dir) ∅ [] [] (disk (cw r))) []
             (delivered r) (fun _ => 0) (fun _ => 0)).
Proof.
  intros I Hf. split; simpl; try done.
  - split; constructor.
  - intros tc Hn. destruct (ri_files _ _ _ _ I tc Hn) as (Hd & Hfile & _).
    split_and!; try done; [|congruence].
    assert (need r tc >= delivered r tc) as Hle.
    { unfold need. destruct (entries (cw r) !! tc) as [p|]; simpl; [|lia].
      pose proof (open_sum_nonneg r p I). lia. }
    unfold need. simpl. rewrite lookup_empty. simpl. rewrite Z.add_0_r.
    destruct (disk (cw r) !! _) as [[]|]; simpl in *; [|done|lia]. eapply record_ok_le; [done|lia].
Qed.

Lemma reachable_run_inv r : cap_reachable dir names faulty r -> run_inv r.
Proof.
  induction 1 as [|r r' _ IH Hs].
  - split; simpl; try done; try (by split; constructor).
  - destruct Hs.
    + by eapply load_step.
    + by eapply reconcile_step.
    + by eapply terminal_step.
    + eapply reserve_step; [done| |done]; lia.
    + eapply reserve_refused_step; [done| |done]; lia.
    + eapply deliver_step; try done. lia.
    + by apply (finish_step r h exact f1 f2).
    + by apply crash_step.
Qed.
End Inv.
