(* ===== verification/CapacitySafety.v ===== *)
(** * CapacitySafety: what the capacity manager promises

    No run sells more than was funded, write failures and crashes included; a run
    without failures accounts for every delivered token.  The sample runs show
    where that account goes wrong: a second reservation drops the deliveries of
    the first from the bill, and a failed write bills a chunk that was withheld. *)
From S2P Require Import Prelude Text Params Address MarketTypes Capacity CapacityRun CapacityInv.

Section Safety.
Context (dir : string) (names : string -> Prop).
Context (Hinj : forall a b, names a -> names b -> capacity_path dir a = capacity_path dir b -> a = b).
Context (Hblank : forall tc, names tc -> trim (to_text tc) <> []).
Context (Hstable : forall tc, names tc -> of_text (reload_self_dapp (to_text tc)) = tc).

(** The whole calls are sequences of critical sections. *)
Lemma reconcile_deal_reachable faulty r tc state deal f res w' : cap_reachable dir names faulty r ->
  names tc -> fault_ok faulty f -> deal_typed state deal ->
  (faulty = false -> funded_tokens deal <= U64_MAX) ->
  reconcile_deal tc state deal f (cw r) = (res, w') ->
  exists r', cw r' = w' /\ cap_reachable dir names faulty r'.
Proof.
  intros Hr Hn Hf Hty Hfu H. unfold reconcile_deal in H. destruct (is_stopped state).
  { destruct (mark_terminal tc f (cw r)) as [o w1] eqn:E. eexists (mkRun w' _ _ _ _). split; [done|].
    eapply cap_next; [done|]. eapply (cap_terminal _ _ _ _ _ _ _ _ Hf Hn). rewrite E. f_equal.
    destruct o; by simplify_eq. }
  destruct (validate_live_deal_shape state deal) as [[]| |] eqn:Es; [|by simplify_eq; eexists..].
  destruct (authoritative_cap state deal) as [cap| |] eqn:Ec; [|by simplify_eq; eexists..].
  destruct (find_or_load tc state deal cap (cw r)) as [o w1] eqn:El.
  assert (cap_reachable dir names faulty (mkRun w1 (active r) (delivered r) (billed r) (dropped r))) as H1.
  { eapply cap_next; [done|]. by eapply cap_load. }
  destruct o as [p| |]; [|simplify_eq; by eexists (mkRun _ _ _ _ _)..].
  assert (entries w1 !! tc = Some p) as Hp.
  { unfold find_or_load in El. destruct (entries (cw r) !! tc) eqn:E; [by simplify_eq|].
    match type of El with match ?m with _ => _ end = _ => destruct m end; simplify_eq. simpl. apply lookup_insert_eq. }
  assert (tc_at w1 p = tc) as Htc.
  { pose proof (reachable_run_inv dir names faulty Hinj Hblank Hstable _ H1) as I.
    destruct (ri_entries _ _ _ _ I _ _ Hp) as [_ (e & He & _ & _ & (T & _) & _)].
    simpl in He. unfold tc_at. by rewrite He. }
  eexists (mkRun w' _ _ _ _). split; [done|]. eapply cap_next; [exact H1|].
  eapply (cap_reconcile _ _ _ _ p); try done. simpl. rewrite Htc. done.
Qed.

Lemma reserve_reachable faulty r tc requested f res w' : cap_reachable dir names faulty r ->
  fault_ok faulty f -> 0 <= requested <= U64_MAX -> reserve tc requested f (cw r) = (res, w') ->
  res <> Panic /\ exists r', cw r' = w' /\ cap_reachable dir names faulty r'.
Proof.
  intros Hr Hf Hreq H. unfold reserve in H.
  destruct (Z.eqb_spec requested 0); [simplify_eq; split; [done|by eexists]|].
  destruct (entries (cw r) !! tc) as [p|] eqn:Hp; [|simplify_eq; split; [done|by eexists]].
  pose proof (reachable_run_inv dir names faulty Hinj Hblank Hstable _ Hr) as I.
  destruct (ri_entries _ _ _ _ I _ _ Hp) as [_ (e & He & _)].
  destruct res as [h|err|].
  - split; [done|]. eexists (mkRun w' _ _ _ _). split; [done|]. eapply cap_next; [done|].
    eapply cap_reserve; try done. lia.
  - split; [done|]. eexists (mkRun w' _ _ _ _). split; [done|]. eapply cap_next; [done|].
    eapply cap_reserve_refused; try done. lia.
  - exfalso. destruct (reserve_spec dir names faulty Hstable r p requested f Panic w' I ltac:(lia) H ltac:(by rewrite He))
      as [(? & ? & _ & _ & _ & ? & ? & _ & _ & _ & _ & [])|(_ & _ & ?)]; done.
Qed.

(** C6: the seller never sells more than was funded, in any interleaving of
    requests, chain reads, write failures and crashes.  The file of every contract
    stays readable and covers all tokens handed to the buyer since it was created;
    a registered contract answers a snapshot in which the delivered tokens and
    what the open requests may still deliver stay within the committed sum, the
    sum within the authoritative capacity, and the capacity within the funding. *)
Theorem capacity_is_never_oversold (r : CapacityRun) (tc : string) :
  cap_reachable dir names true r -> names tc ->
  (exists o, load_record (cw r) (capacity_path dir tc) = Ok o /\
     match o with
     | None => delivered r tc = 0
     | Some rec => delivered r tc <= com rec /\ com rec <= cr_authoritative_cap rec <= cr_funded_tokens rec
     end) /\
  (forall p, entries (cw r) !! tc = Some p ->
     exists s total, snapshot_of tc (cw r) = Ok (Some s) /\ committed s = Ok total /\
       delivered r tc + open_sum (cw r) (active r) p <= total /\
       total <= cs_authoritative_cap s <= cs_funded_tokens s).
Proof.
  intros Hr Hn. pose proof (reachable_run_inv dir names true Hinj Hblank Hstable _ Hr) as I.
  destruct (ri_files _ _ _ _ I tc Hn) as (Hd & Hf & _). split.
  - assert (delivered r tc <= need r tc) as Hle.
    { unfold need. destruct (entries (cw r) !! tc) as [p|]; simpl; [|lia].
      pose proof (open_sum_nonneg dir names true r p I). lia. }
    unfold load_record. destruct (disk (cw r) !! _) as [[rec|]|]; simpl in Hf; [|done|].
    + exists (Some rec). split; [done|]. destruct Hf as (_ & Hv & _ & Hc).
      destruct (validate_record_bound _ Hv) as (_ & B & _). lia.
    + exists None. split; [done|]. lia.
  - intros p Hp. destruct (ri_entries _ _ _ _ I _ _ Hp) as [_ (e & He & Ht & _ & (_ & Hv & _ & Hc) & _)].
    exists (capacity_snapshot (es_record (en_state e))), (com (es_record (en_state e))).
    destruct (validate_record_bound _ Hv) as (B1 & B2 & _). unfold snapshot_of. rewrite Hp, He, Ht, Hv.
    unfold need in Hc. rewrite Hp in Hc. simpl in Hc. split_and!; try done; simpl; lia.
Qed.

(** Without failures every delivered token is accounted for exactly once: it
    was reported billable, or is still waiting to be written, or was dropped by a
    reservation made while it waited.  The claim counter never exceeds what was
    delivered, and the open requests always fit the reservation. *)
Theorem deliveries_are_accounted (r : CapacityRun) (tc : string) (p : nat) :
  cap_reachable dir names false r -> entries (cw r) !! tc = Some p ->
  billed r tc + dropped r tc + unpersisted_at (cw r) p = delivered r tc /\
  0 <= unpersisted_at (cw r) p /\
  exists s, snapshot_of tc (cw r) = Ok (Some s) /\
    open_sum (cw r) (active r) p + unpersisted_at (cw r) p <= cs_outstanding_reservation s.
Proof.
  intros Hr Hp. pose proof (reachable_run_inv dir names false Hinj Hblank Hstable _ Hr) as I.
  destruct (ri_entries _ _ _ _ I _ _ Hp) as [_ (e & He & Ht & _ & (_ & Hv & _) & Hu & Hc)].
  destruct (Hc eq_refl) as (C1 & C2 & _). unfold unpersisted_at, snapshot_of. rewrite Hp, He, Ht, Hv. simpl.
  split_and!; try done. by eexists.
Qed.
End Safety.

(** ** Sample runs *)
Definition sample_names (tc : string) : Prop := tc = "tc-1" \/ tc = "tc-2".
Definition sample_dir : string := "/deals/seller-capacity".
Definition sample_state : DealChainState :=
  mkDealState true true true false 1000 0 TICK_SIZE TICK_SIZE 0 (Some 10) 20 30 0.
Definition sample_deal : DealSubscription := mkSub 0 0 0 (8 * TICK_SIZE) (8 * TICK_SIZE) TICK_SIZE 0 0.

Definition run_load (tc : string) (r : CapacityRun) : CapacityRun :=
  mkRun (snd (find_or_load tc sample_state sample_deal (8 * TICK_SIZE) (cw r))) (active r)
    (delivered r) (billed r) (dropped r).
Definition run_reserve (p : nat) (requested : Z) (r : CapacityRun) : CapacityRun :=
  mkRun (snd (reserve_on p requested Fine (cw r))) (length (requests (cw r)) :: active r)
    (delivered r) (billed r)
    (upd (dropped r) (tc_at (cw r) p) (dropped r (tc_at (cw r) p) + unpersisted_at (cw r) p)).
Definition run_deliver (h : nat) (tokens : Z) (f : Fault) (r : CapacityRun) : CapacityRun :=
  let res := fst (record_delivered h tokens f (cw r)) in
  mkRun (snd (record_delivered h tokens f (cw r))) (active r)
    (if is_ok res then upd (delivered r) (tc_of (cw r) h) (delivered r (tc_of (cw r) h) + tokens)
     else delivered r)
    (upd (billed r) (tc_of (cw r) h) (billed r (tc_of (cw r) h) + ok_value res)) (dropped r).
Definition run_finish (h : nat) (r : CapacityRun) : CapacityRun :=
  let res := fst (finish_exact h Fine Fine (cw r)) in
  mkRun (snd (finish_exact h Fine Fine (cw r))) (filter (fun h' => h' <> h) (active r)) (delivered r)
    (upd (billed r) (tc_of (cw r) h) (billed r (tc_of (cw r) h) + ok_value res)) (dropped r).

Section Sample.
Context (faulty : bool).
Abbreviation sample_reachable := (cap_reachable sample_dir sample_names faulty).
Lemma run_load_reachable tc r : sample_names tc -> sample_reachable r -> sample_reachable (run_load tc r).
Proof.
  intros Hn Hr. eapply cap_next; [done|].
  eapply (cap_load _ _ _ r tc sample_state sample_deal (8 * TICK_SIZE)); [done| | | | |apply surjective_pairing];
    try (by vm_compute); vm_compute; repeat split; discriminate.
Qed.
Lemma run_reserve_reachable p requested r : 0 < requested <= U64_MAX ->
  fst (reserve_on p requested Fine (cw r)) = Ok (length (requests (cw r))) ->
  sample_reachable r -> sample_reachable (run_reserve p requested r).
Proof.
  intros Hq Ho Hr. eapply cap_next; [done|]. eapply (cap_reserve _ _ _ r p requested Fine); [by right|done|].
  rewrite <- Ho. apply surjective_pairing.
Qed.
Lemma run_deliver_reachable h tokens f r : 0 < tokens <= U64_MAX -> fault_ok faulty f ->
  bool_decide (h ∈ active r) = true -> sample_reachable r -> sample_reachable (run_deliver h tokens f r).
Proof.
  intros Ht Hf Hin%bool_decide_eq_true Hr. eapply cap_next; [done|].
  eapply (cap_deliver _ _ _ r h tokens f); try done. apply surjective_pairing.
Qed.
Lemma run_finish_reachable h r : bool_decide (h ∈ active r) = true ->
  sample_reachable r -> sample_reachable (run_finish h r).
Proof.
  intros Hin%bool_decide_eq_true Hr. eapply cap_next; [done|].
  eapply (cap_finish _ _ _ r h true Fine Fine); try (by right); [done|]. apply surjective_pairing.
Qed.
End Sample.

Lemma sample_inj a b : sample_names a -> sample_names b ->
  capacity_path sample_dir a = capacity_path sample_dir b -> a = b.
Proof. intros [->| ->] [->| ->]; done || (intros H; vm_compute in H; discriminate H). Qed.
Lemma sample_blank tc : sample_names tc -> trim (to_text tc) <> [].
Proof. by intros [->| ->]. Qed.
Lemma sample_stable tc : sample_names tc -> of_text (reload_self_dapp (to_text tc)) = tc.
Proof. by intros [->| ->]. Qed.

(** Two streams of one deal: the second opens after the first delivered 500. *)
Definition run_two_streams : CapacityRun :=
  run_reserve 0 4000 (run_deliver 0 500 Fine (run_reserve 0 2000 (run_load "tc-1" (initial sample_dir)))).
Definition run_both_done : CapacityRun := run_finish 0 (run_finish 1 run_two_streams).
(** The write of a delivery fails; the other stream delivers one more token. *)
Definition run_failed_write : CapacityRun :=
  run_deliver 1 1 Fine (run_deliver 0 1000 FailBefore
    (run_reserve 0 4000 (run_reserve 0 2000 (run_load "tc-1" (initial sample_dir))))).

Ltac run_by := first [by left | by right | done | (split; by vm_compute) | by vm_compute].
Lemma two_streams_reachable faulty : cap_reachable sample_dir sample_names faulty run_two_streams.
Proof.
  apply run_reserve_reachable; [run_by..|]. apply run_deliver_reachable; [run_by..|].
  apply run_reserve_reachable; [run_by..|]. apply run_load_reachable; [run_by|]. apply cap_start.
Qed.
Lemma both_done_reachable faulty : cap_reachable sample_dir sample_names faulty run_both_done.
Proof. apply run_finish_reachable; [run_by|]. apply run_finish_reachable; [run_by|]. apply two_streams_reachable. Qed.
Lemma failed_write_reachable : cap_reachable sample_dir sample_names true run_failed_write.
Proof.
  apply run_deliver_reachable; [run_by..|]. apply run_deliver_reachable; [run_by..|].
  apply run_reserve_reachable; [run_by..|]. apply run_reserve_reachable; [run_by..|].
  apply run_load_reachable; [run_by|]. apply cap_start.
Qed.

Lemma capacity_is_never_oversold_witness :
  exists s total, snapshot_of "tc-1" (cw run_two_streams) = Ok (Some s) /\ committed s = Ok total /\
    500 + (1500 + 4000) <= total /\ total <= cs_authoritative_cap s <= cs_funded_tokens s.
Proof.
  destruct (capacity_is_never_oversold sample_dir sample_names sample_inj sample_blank sample_stable
    run_two_streams "tc-1") as [_ H]; [apply two_streams_reachable|by left|].
  exact (H 0%nat eq_refl).
Defined.
Lemma deliveries_are_accounted_witness :
  billed run_two_streams "tc-1" + 500 + 0 = 500.
Proof.
  apply (deliveries_are_accounted sample_dir sample_names sample_inj sample_blank sample_stable
    run_two_streams "tc-1" 0); [apply two_streams_reachable|reflexivity].
Defined.

(** A delivered token can be lost without a failure or a crash.  Two streams
    of one deal overlap, both finish cleanly, and the 500 tokens the first had
    delivered when the second was admitted are neither billable nor released: no
    stream is left, nothing waits to be written, and they stay in the outstanding
    reservation. *)
Theorem overlapping_streams_lose_deliveries :
  cap_reachable sample_dir sample_names false run_both_done /\
  active run_both_done = [] /\ delivered run_both_done "tc-1" = 500 /\
  billed run_both_done "tc-1" = 0 /\ unpersisted_at (cw run_both_done) 0 = 0 /\
  snapshot_of "tc-1" (cw run_both_done) =
    Ok (Some (mkCapacitySnapshot (8 * TICK_SIZE) (8 * TICK_SIZE) TICK_SIZE 0 500)).
Proof. split; [apply both_done_reachable|]. by vm_compute. Qed.

(** A failed write can bill output that was never sent.  The delivery of 1000
    tokens is refused, so the relay withholds the chunk, but the tokens stay in
    the pending counter and the next delivery of another stream reports them. *)
Theorem failed_write_bills_unsent_output :
  cap_reachable sample_dir sample_names true run_failed_write /\
  delivered run_failed_write "tc-1" = 1 /\ billed run_failed_write "tc-1" = 1001.
Proof. split; [apply failed_write_reachable|]. by vm_compute. Qed.
