(* ===== verification/Backend.v ===== *)
(** * Backend: the chain as its clients see it

    [ChainBackend] is the part of the trait of the same name
    (crates/core/src/market/mod.rs) that the seller's drivers and the buyer's
    router call; [Clock] is the clock they sleep on.  A client is a program over
    any state with these operations; the offline market is one instance.  Durations
    are whole seconds, as [ClaimBounds] builds them. *)
From S2P Require Import Prelude Text Params MarketTypes Machine MockDeal MockMarket.

(** ** Programs

    A program reads and changes the world [W] and ends with an outcome; [None]
    is a loop that used up its fuel. *)
Definition prog (W A : Type) : Type := W -> option (outcome ChainError A) * W.

Section Prog.
Context {W : Type}.
Definition ret {A} (a : A) : prog W A := fun w => (Some (Ok a), w).
Definition throw {A} (e : ChainError) : prog W A := fun w => (Some (Err e), w).
Definition panic {A} : prog W A := fun w => (Some Panic, w).
Definition out_of_fuel {A} : prog W A := fun w => (None, w).
Definition lift {A} (f : W -> outcome ChainError A * W) : prog W A := fun w =>
  let '(r, w') := f w in (Some r, w').
Definition get {A} (f : W -> A * W) : prog W A := fun w => let '(a, w') := f w in (Some (Ok a), w').
Definition run (f : W -> W) : prog W unit := fun w => (Some (Ok tt), f w).
Definition bind {A B} (m : prog W A) (k : A -> prog W B) : prog W B := fun w =>
  match m w with
  | (Some (Ok a), w') => k a w'
  | (Some (Err e), w') => (Some (Err e), w')
  | (Some Panic, w') => (Some Panic, w')
  | (None, w') => (None, w')
  end.
(** The result of a call as a value, for a [match] on the [Result]; a panic
    unwinds. *)
Definition attempt {A} (f : W -> outcome ChainError A * W) : prog W (outcome ChainError A) := fun w =>
  match f w with
  | (Panic, w') => (Some Panic, w')
  | (r, w') => (Some (Ok r), w')
  end.
Definition of_outcome {A} (r : outcome ChainError A) : prog W A := fun w => (Some r, w).
End Prog.

Notation "'let!' x ':=' m 'in' k" := (bind m (fun x => k))
  (at level 10, x name, m at level 100, k at level 200,
   format "'[v' 'let!'  x  ':='  m  'in' '/' k ']'") : outcome_scope.
Notation "'let!' ' p ':=' m 'in' k" := (bind m (fun x => match x with p => k end))
  (at level 10, p strict pattern, m at level 100, k at level 200) : outcome_scope.
Notation "m '>>!' k" := (bind m (fun _ => k)) (at level 70, right associativity) : outcome_scope.

(** [holds P m Q R]: from a world with [P], the program ends with a value and [Q],
    or in any other way with [R]. *)
Definition holds {W A} (P : W -> Prop) (m : prog W A) (Q : A -> W -> Prop) (R : W -> Prop) : Prop :=
  forall w, P w -> match m w with (Some (Ok a), w') => Q a w' | (_, w') => R w' end.

Lemma holds_ret {W A} (P : W -> Prop) (a : A) (Q : A -> W -> Prop) R :
  (forall w, P w -> Q a w) -> holds P (ret a) Q R.
Proof. intros H w Hw. by apply H. Qed.
Lemma holds_throw {W A} (P : W -> Prop) e (Q : A -> W -> Prop) (R : W -> Prop) :
  (forall w, P w -> R w) -> holds P (throw e) Q R.
Proof. intros H w Hw. by apply H. Qed.
Lemma holds_panic {W A} (P : W -> Prop) (Q : A -> W -> Prop) (R : W -> Prop) :
  (forall w, P w -> R w) -> holds P panic Q R.
Proof. intros H w Hw. by apply H. Qed.
Lemma holds_fuel {W A} (P : W -> Prop) (Q : A -> W -> Prop) (R : W -> Prop) :
  (forall w, P w -> R w) -> holds P out_of_fuel Q R.
Proof. intros H w Hw. by apply H. Qed.
Lemma holds_bind {W A B} (P : W -> Prop) (m : prog W A) (k : A -> prog W B) Q' Q R :
  holds P m Q' R -> (forall a, holds (Q' a) (k a) Q R) -> holds P (bind m k) Q R.
Proof.
  intros Hm Hk w Hw. specialize (Hm w Hw). unfold bind.
  destruct (m w) as [[[a|e|]|] w']; try done. by apply Hk.
Qed.
Lemma holds_conseq {W A} (P P' : W -> Prop) (m : prog W A) (Q Q' : A -> W -> Prop) (R R' : W -> Prop) :
  holds P' m Q' R' -> (forall w, P w -> P' w) -> (forall a w, Q' a w -> Q a w) ->
  (forall w, R' w -> R w) -> holds P m Q R.
Proof.
  intros H HP HQ HR w Hw. specialize (H w (HP w Hw)).
  destruct (m w) as [[[a|e|]|] w']; auto.
Qed.
Lemma holds_lift {W A} (P : W -> Prop) (f : W -> outcome ChainError A * W) (Q : A -> W -> Prop) (R : W -> Prop) :
  (forall w r w', P w -> f w = (r, w') -> match r with Ok a => Q a w' | _ => R w' end) ->
  holds P (lift f) Q R.
Proof. intros H w Hw. unfold lift. destruct (f w) as [r w'] eqn:E. specialize (H _ _ _ Hw E). by destruct r. Qed.
Lemma holds_attempt {W A} (P : W -> Prop) (f : W -> outcome ChainError A * W) (Q : outcome ChainError A -> W -> Prop) R :
  (forall w r w', P w -> f w = (r, w') -> match r with Panic => R w' | _ => Q r w' end) ->
  holds P (attempt f) Q R.
Proof. intros H w Hw. unfold attempt. destruct (f w) as [[] w'] eqn:E; apply (H _ _ _ Hw E). Qed.
Lemma holds_get {W A} (P : W -> Prop) (f : W -> A * W) (Q : A -> W -> Prop) R :
  (forall w r w', P w -> f w = (r, w') -> Q r w') -> holds P (get f) Q R.
Proof. intros H w Hw. unfold get. destruct (f w) as [r w'] eqn:E. eauto. Qed.
Lemma holds_run {W} (P : W -> Prop) (f : W -> W) (Q : unit -> W -> Prop) R :
  (forall w, P w -> Q tt (f w)) -> holds P (run f) Q R.
Proof. intros H w Hw. by apply H. Qed.
Lemma holds_outcome {W A} (P : W -> Prop) (r : outcome ChainError A) (Q : A -> W -> Prop) (R : W -> Prop) :
  (forall w, P w -> match r with Ok a => Q a w | _ => R w end) -> holds P (of_outcome r) Q R.
Proof. intros H w Hw. specialize (H w Hw). unfold of_outcome. by destruct r. Qed.

(** ** Claim bounds *)
Record ClaimBounds : Type := mkBounds {
  cbd_min_claim_interval : Z;
  cbd_min_seconds_per_tick : Z;
  cbd_promote_window : Z;
  cbd_probe_window : Z;
  cbd_dispute_window : Z
}.
Definition bounds_canonical : ClaimBounds := {|
  cbd_min_claim_interval := min_claim_interval canonical;
  cbd_min_seconds_per_tick := min_seconds_per_tick canonical;
  cbd_promote_window := claim_promote_window canonical;
  cbd_probe_window := probe_window canonical;
  cbd_dispute_window := dispute_window canonical |}.
Definition from_config (interval seconds_per_tick dispute : Z) : ClaimBounds := {|
  cbd_min_claim_interval := interval;
  cbd_min_seconds_per_tick := seconds_per_tick;
  cbd_promote_window := seconds_per_tick;
  cbd_probe_window := PROBE_WINDOW;
  cbd_dispute_window := dispute |}.

(** ** Interfaces *)
Class ChainBackend (W : Type) : Type := {
  cb_discover_offers : W -> outcome ChainError (list OfferListing) * W;
  cb_place_buy : TokenContract -> NotePubkey -> W -> outcome ChainError unit * W;
  cb_accept_probe : TokenContract -> W -> outcome ChainError unit * W;
  cb_claim_tokens : TokenContract -> NotePubkey -> Z -> W -> outcome ChainError unit * W;
  cb_finalize : TokenContract -> W -> outcome ChainError unit * W;
  cb_settle_week : TokenContract -> W -> outcome ChainError unit * W;
  cb_stop : TokenContract -> NotePubkey -> W -> outcome ChainError Settlement * W;
  cb_dispute : TokenContract -> NotePubkey -> W -> outcome ChainError Settlement * W;
  cb_deal_state : TokenContract -> W -> outcome ChainError (option DealChainState) * W;
  cb_deal_snapshot : TokenContract -> W -> outcome ChainError (option DealChainSnapshot) * W;
  cb_snapshot : TokenContract -> W -> option StreamSnapshot * W
}.
(** Reading the clock changes nothing; a sleep moves it by what was asked or more. *)
Class Clock (W : Type) : Type := {
  clock_now : W -> Z;
  sleep : Z -> W -> W
}.
Class ClockLaws (W : Type) `{Clock W} : Prop := {
  sleep_moves : forall d w, 0 <= d -> clock_now w + d <= clock_now (sleep d w)
}.

(** ** The offline market as a backend

    The clock stands still during a call and moves in the sleeps. *)
Record MockWorld : Type := mkMockWorld { mw_files : ChainFiles; mw_now : Z }.
Definition on_mock {A} (f : Z -> op A) (w : MockWorld) : outcome ChainError A * MockWorld :=
  let '(r, files) := f (mw_now w) (mw_files w) in (r, mkMockWorld files (mw_now w)).

Section MockBackend.
Context (consts : ProtocolConsts).
#[export] Instance MockChainBackend : ChainBackend MockWorld := {|
  cb_discover_offers := on_mock discover_offers;
  cb_place_buy tc note := on_mock (fun t => place_buy tc note t t t);
  cb_accept_probe tc := on_mock (fun t => accept_probe consts tc t t);
  cb_claim_tokens tc note n := on_mock (fun t => claim_tokens consts tc note n t t t);
  cb_finalize tc := on_mock (fun t => finalize consts tc t t);
  cb_settle_week tc := on_mock (fun t => settle_week consts tc t t);
  cb_stop tc note := on_mock (fun t => stop consts tc note t t t);
  cb_dispute tc note := on_mock (fun t => dispute tc note t t);
  cb_deal_state tc := on_mock (deal_state consts tc);
  cb_deal_snapshot tc := on_mock (deal_snapshot consts tc);
  cb_snapshot tc w := (snapshot tc (mw_now w) (mw_files w), w) |}.
End MockBackend.

#[export] Instance MockClock : Clock MockWorld := {|
  clock_now := mw_now;
  sleep d w := mkMockWorld (mw_files w) (mw_now w + d) |}.
#[export] Instance MockClockLaws : ClockLaws MockWorld.
Proof. split. intros d w _. simpl. lia. Qed.
