(* ===== verification/Offer.v ===== *)
(** * Offer: the seller's ask, as the book and the deal report it
    (crates/dexdo/src/seller/mod.rs, crates/dexdo/src/seller/liveness.rs)

    What a seller reads before it posts, resumes, cancels or relists its one ask:
    the raw rows of the book for its TokenContract, the match, the offer latch,
    the deal state and the terms of the deal.  The chain is any world with these
    calls; a client timer may cut any of them short. *)
From Stdlib Require Import Ascii.
From S2P Require Import Prelude Text Params Address MarketTypes Machine MockDeal MockMarket Backend.

Definition SUBSCRIPTION_SELL_FLAGS : Z := Z.lor flags.AON flags.SUBSCRIPTION.

Record SellerConfig : Type := mkSellerConfig {
  sc_token_contract : TokenContract;
  sc_price_per_tick : Z;
  sc_max_ticks : Z;
  sc_subscription : bool
}.
Record RestingOfferIdentity : Type := mkIdentity {
  ri_owner_note : string; ri_token_contract : TokenContract; ri_order_id : Z }.

Inductive SellerOfferStartup : Type :=
| ResumedFunded
| ResumedResting (order_id : Z)
| Posted (result : option SellOfferOutcome).
Inductive SellerOfferInspection : Type :=
| InspectFunded
| InspectResting (order_id : Z)
| InspectVacant.

(** ** The calls *)

(** [Result<RestingSellCancelWatch, RestingSellCancelStartError>]; the watch is a
    point in the event log of the note. *)
Inductive CancelStart : Type :=
| CancelAccepted (watch : Z)
| CancelPreparation (e : ChainError)
| CancelSubmit (e : ChainError).

Class OfferBook (W : Type) : Type := {
  ob_raw_orders : TokenContract -> W -> outcome ChainError (list OrderBookOrder) * W;
  ob_openable_match : TokenContract -> W -> outcome ChainError (option Match) * W;
  ob_offer_latch : TokenContract -> W -> outcome ChainError (option DealOfferLatch) * W;
  ob_deal_state : TokenContract -> W -> outcome ChainError (option DealChainState) * W;
  ob_offer_terms : TokenContract -> W -> outcome ChainError (option (Z * Z)) * W;
  ob_expire : TokenContract -> Z -> W -> outcome ChainError unit * W;
  ob_begin_cancel : TokenContract -> Z -> W -> CancelStart * W;
  ob_cancel_rejection : TokenContract -> Z -> string -> Z -> W -> outcome ChainError (option Z) * W;
  ob_assert_covers_bond : TokenContract -> W -> outcome ChainError unit * W;
  ob_assert_fresh : TokenContract -> W -> outcome ChainError unit * W;
  ob_post_offer : SellOffer -> W -> outcome ChainError unit * W;
  ob_confirm_outcome : TokenContract -> W -> outcome ChainError (option SellOfferOutcome) * W;
  ob_read_match : TokenContract -> W -> outcome ChainError Match * W;
  (** [SystemTime::now()], in whole unix seconds *)
  ob_unix_now : W -> Z
}.
(** Whether the timer set for an instant has fired in a world. *)
Class Timer (W : Type) : Type := { timer_won : Z -> W -> bool }.

(** [tokio::time::timeout_at(deadline, m)].  A future that the timer cuts short has
    done some of its calls; the calls it did not make are as if their answers were
    thrown away, which is how they are modelled. *)
Inductive timed (A : Type) : Type :=
| Elapsed
| Done (r : outcome ChainError A).
Arguments Elapsed {A}.
Arguments Done {A} r.

Section Timed.
Context {W : Type} `{Timer W}.
Definition timeout_at {A} (deadline : Z) (m : prog W A) : prog W (timed A) := fun w =>
  match m w with
  | (None, w') => (None, w')
  | (Some Panic, w') => (Some Panic, w')
  | (Some r, w') => (Some (Ok (if timer_won deadline w' then Elapsed else Done r)), w')
  end.
End Timed.

(** ** Checks on one ask *)

Definition validate_subscription_offer_volume (cfg : SellerConfig) : outcome ChainError unit :=
  fail_if sc_subscription cfg
          && ((sc_max_ticks cfg =? 0) || (SUBSCRIPTION_MAX_TICKS <? sc_max_ticks cfg)
              || negb (sc_max_ticks cfg mod SUBSCRIPTION_WEEKS =? 0))
    with Chain "seller subscription offer requires whole weekly volume" in
  Ok tt.

(** [normalize_wallet_address]: the chain spelling of an address. *)
Definition normalize_wallet_address (s : string) : outcome ChainError string :=
  match to_chain_param (to_text s) with
  | Ok t => Ok (of_text t)
  | _ => Err (Chain "invalid wallet address")
  end.
Definition expected_flags (cfg : SellerConfig) : Z := if sc_subscription cfg then SUBSCRIPTION_SELL_FLAGS else 0.

Definition validate_resting_offer (order : OrderBookOrder) (expected_owner : option string)
    (cfg : SellerConfig) : outcome ChainError unit :=
  fail_if ob_is_buy order with Chain "order is not a SELL" in
  let* order_tc := ok_or (ob_token_contract order)
    (Chain "raw order is missing the required token_contract fact") in
  let* wanted_tc := normalize_wallet_address (sc_token_contract cfg) in
  let* actual_tc := normalize_wallet_address order_tc in
  fail_if negb (bool_decide (actual_tc = wanted_tc)) with Chain "raw order belongs to another TokenContract" in
  let* owner := ok_or expected_owner (Chain "the seller note owner is unavailable") in
  let* wanted_owner := normalize_wallet_address owner in
  let* actual_owner := normalize_wallet_address (ob_owner_note order) in
  fail_if negb (bool_decide (actual_owner = wanted_owner)) with Chain "raw order owner does not match" in
  fail_if negb (ob_price_per_tick order =? sc_price_per_tick cfg)
    with Chain "book order price_per_tick does not match" in
  fail_if negb (ob_ticks order =? sc_max_ticks cfg)
    with Chain "raw order remaining ticks do not match max ticks" in
  fail_if negb (ob_flags order =? expected_flags cfg)
    with Chain "raw order flags do not match required seller flags" in
  Ok tt.

Definition find_order (order_id : Z) (orders : list OrderBookOrder) : option OrderBookOrder :=
  List.find (fun o => ob_order_id o =? order_id) orders.

(** ** Reading the state of the ask *)

Record RestingOfferExpiry : Type := mkExpiry { re_deadline : Z; re_observed_at : Z }.
Inductive TargetState : Type :=
| Present
| Absent
| TargetMatched (m : Match)
| TargetExpired (e : RestingOfferExpiry).
Inductive SupervisedOfferPoll : Type :=
| PollLive (deadline : Z)
| PollExpired (e : RestingOfferExpiry)
| PollMatched.

Section Reads.
Context {W : Type} `{OfferBook W}.

Definition target_state (cfg : SellerConfig) (identity : RestingOfferIdentity) : prog W TargetState :=
  let! observed_at := get (fun w => (ob_unix_now w, w)) in
  let! orders := lift (ob_raw_orders (ri_token_contract identity)) in
  match find_order (ri_order_id identity) orders with
  | Some order =>
      of_outcome (validate_resting_offer order (Some (ri_owner_note identity)) cfg) >>!
      if negb (order_deadline_is_live (ob_is_buy order) (ob_deadline order) observed_at)
      then ret (TargetExpired (mkExpiry (ob_deadline order) observed_at))
      else ret Present
  | None =>
      let! matched := lift (ob_openable_match (ri_token_contract identity)) in
      match matched with Some m => ret (TargetMatched m) | None => ret Absent end
  end.

Definition resting_offer_expiry (identity : RestingOfferIdentity) (last_observed_deadline : option Z)
    : prog W SupervisedOfferPoll :=
  let! observed_at := get (fun w => (ob_unix_now w, w)) in
  let! orders := lift (ob_raw_orders (ri_token_contract identity)) in
  match find_order (ri_order_id identity) orders with
  | None =>
      let! matched := lift (ob_openable_match (ri_token_contract identity)) in
      match matched with
      | Some _ => ret PollMatched
      | None => ret (PollExpired (mkExpiry (default 0 last_observed_deadline) observed_at))
      end
  | Some order =>
      if order_deadline_is_live (ob_is_buy order) (ob_deadline order) observed_at
      then ret (PollLive (ob_deadline order))
      else ret (PollExpired (mkExpiry (ob_deadline order) observed_at))
  end.

(** ** Startup *)

Definition inspect_seller_offer (cfg : SellerConfig) (expected_owner : option string)
    : prog W SellerOfferInspection :=
  of_outcome (validate_subscription_offer_volume cfg) >>!
  let! matched := lift (ob_openable_match (sc_token_contract cfg)) in
  match matched with
  | Some _ => ret InspectFunded
  | None =>
      let! raw_orders := lift (ob_raw_orders (sc_token_contract cfg)) in
      match raw_orders with
      | [] => ret InspectVacant
      | [order] =>
          of_outcome (validate_resting_offer order expected_owner cfg) >>!
          ret (InspectResting (ob_order_id order))
      | _ => throw (Chain "ambiguous raw order book")
      end
  end.

Definition post_offer_with_note (cfg : SellerConfig) : prog W unit :=
  of_outcome (validate_subscription_offer_volume cfg) >>!
  lift (ob_post_offer {| so_price_per_tick := sc_price_per_tick cfg; so_max_ticks := sc_max_ticks cfg;
                         so_token_contract := sc_token_contract cfg; so_flags := expected_flags cfg |}).

Definition prepare_seller_offer (cfg : SellerConfig) (expected_owner : option string)
    : prog W SellerOfferStartup :=
  let! inspection := inspect_seller_offer cfg expected_owner in
  match inspection with
  | InspectVacant =>
      lift (ob_assert_fresh (sc_token_contract cfg)) >>!
      post_offer_with_note cfg >>!
      let! result := lift (ob_confirm_outcome (sc_token_contract cfg)) in
      ret (Posted result)
  | InspectResting order_id => ret (ResumedResting order_id)
  | InspectFunded => ret ResumedFunded
  end.
End Reads.
