(* ===== verification/Trace.v ===== *)
(** * Trace: programs over a world that records its calls

    A traced world is a world with the list of the calls made on it, newest first.
    A triple speaks of the trace alone, and of the way a program stopped when it did
    not return: the error it threw, a panic, or the end of its fuel.  Then come programs
    that always end, on a clock that no call turns back, and those that answer from any
    world; what a program learns from the calls it adds; and what each post of a trace comes after. *)
From S2P Require Import Prelude Text Params MarketTypes Machine MockDeal MockMarket Backend Offer.

Inductive stopped : Type := Threw (e : ChainError) | Panicked | Spent.

Section Traced.
Context {W E : Type}.
Definition traced : Type := W * list E.
(** A call that is recorded with its answer, and one that is not. *)
Definition entered {A} (e : A -> E) (f : W -> A * W) (w : traced) : A * traced :=
  let '(a, w') := f (fst w) in (a, (w', e a :: snd w)).
Definition silent {A} (f : W -> A * W) (w : traced) : A * traced :=
  let '(a, w') := f (fst w) in (a, (w', snd w)).
End Traced.
Arguments traced : clear implicits.

#[export] Instance traced_clock {W E} `{Clock W} : Clock (traced W E) := {|
  clock_now w := clock_now (fst w); sleep d w := (sleep d (fst w), snd w) |}.
#[export] Instance traced_clock_laws {W E} `{ClockLaws W} : ClockLaws (traced W E).
Proof. constructor. intros d w Hd. exact (sleep_moves d (fst w) Hd). Qed.
#[export] Instance traced_timer {W E} `{Timer W} : Timer (traced W E) := {|
  timer_won d w := timer_won d (fst w) |}.

Section Triples.
Context {W E : Type}.
Definition traces {A} (P : list E -> Prop) (m : prog (traced W E) A) (Q : A -> list E -> Prop)
    (R : stopped -> list E -> Prop) : Prop :=
  forall w, P (snd w) ->
    match m w with
    | (Some (Ok a), w') => Q a (snd w')
    | (Some (Err e), w') => R (Threw e) (snd w')
    | (Some Panic, w') => R Panicked (snd w')
    | (None, w') => R Spent (snd w')
    end.

Lemma traces_ret {A} (P : list E -> Prop) (a : A) (Q : A -> list E -> Prop) R :
  (forall t, P t -> Q a t) -> traces P (ret a) Q R.
Proof. intros H w Hw. by apply H. Qed.
Lemma traces_throw {A} (P : list E -> Prop) e (Q : A -> list E -> Prop) (R : stopped -> list E -> Prop) :
  (forall t, P t -> R (Threw e) t) -> traces P (throw e) Q R.
Proof. intros H w Hw. by apply H. Qed.
Lemma traces_panic {A} (P : list E -> Prop) (Q : A -> list E -> Prop) (R : stopped -> list E -> Prop) :
  (forall t, P t -> R Panicked t) -> traces P panic Q R.
Proof. intros H w Hw. by apply H. Qed.
Lemma traces_fuel {A} (P : list E -> Prop) (Q : A -> list E -> Prop) (R : stopped -> list E -> Prop) :
  (forall t, P t -> R Spent t) -> traces P out_of_fuel Q R.
Proof. intros H w Hw. by apply H. Qed.
Lemma traces_bind {A B} P (m : prog (traced W E) A) (k : A -> prog (traced W E) B) Q' Q R :
  traces P m Q' R -> (forall a, traces (Q' a) (k a) Q R) -> traces P (bind m k) Q R.
Proof.
  intros Hm Hk w Hw. specialize (Hm w Hw). unfold bind.
  destruct (m w) as [[[a|e|]|] w']; try done. by apply Hk.
Qed.
Lemma traces_conseq {A} (P P' : list E -> Prop) (m : prog (traced W E) A) (Q Q' : A -> list E -> Prop)
    (R R' : stopped -> list E -> Prop) :
  traces P' m Q' R' -> (forall t, P t -> P' t) -> (forall a t, Q' a t -> Q a t) ->
  (forall s t, R' s t -> R s t) -> traces P m Q R.
Proof.
  intros H HP HQ HR w Hw. specialize (H w (HP _ Hw)).
  destruct (m w) as [[[a|e|]|] w']; auto.
Qed.
(** A precondition that fixes one thing about the trace. *)
Lemma traces_exists {X A} (P : X -> list E -> Prop) (m : prog (traced W E) A) Q R :
  (forall x, traces (P x) m Q R) -> traces (fun t => exists x, P x t) m Q R.
Proof. intros H w [x Hw]. by apply (H x). Qed.
Lemma traces_pure {A} (X : Prop) (P : list E -> Prop) (m : prog (traced W E) A) Q R :
  (X -> traces P m Q R) -> traces (fun t => X /\ P t) m Q R.
Proof. intros H w [x Hw]. by apply H. Qed.

Lemma traces_fix {A} (P : list E -> Prop) (m : prog (traced W E) A) Q R :
  (forall t, P t -> traces (eq t) m Q R) -> traces P m Q R.
Proof. intros H w Hw. by apply (H _ Hw). Qed.

Lemma traces_look {A} (P : list E -> Prop) (f : traced W E -> A) R :
  traces P (get (fun w => (f w, w))) (fun _ => P) R.
Proof. by intros w Hw. Qed.
Lemma traces_sleep `{Clock W} (P : list E -> Prop) d R :
  traces P (run (sleep d)) (fun _ => P) R.
Proof. by intros w Hw. Qed.
Lemma traces_outcome {A} (P : list E -> Prop) (r : outcome ChainError A) (R : stopped -> list E -> Prop) :
  (forall t, P t -> match r with Ok _ => True | Err e => R (Threw e) t | Panic => R Panicked t end) ->
  traces P (of_outcome r) (fun a t => r = Ok a /\ P t) R.
Proof. intros H w Hw. specialize (H _ Hw). unfold of_outcome. by destruct r. Qed.
Lemma traces_lift {A} (P : list E -> Prop) e (f : W -> outcome ChainError A * W) (Q : A -> list E -> Prop) R :
  (forall r t, P t -> match r with Ok a => Q a (e r :: t) | Err x => R (Threw x) (e r :: t)
                                 | Panic => R Panicked (e r :: t) end) ->
  traces P (lift (entered e f)) Q R.
Proof.
  intros H w Hw. unfold lift, entered. destruct (f (fst w)) as [r w']. specialize (H r _ Hw). by destruct r.
Qed.
Lemma traces_attempt_silent {A} (P : list E -> Prop) (f : W -> outcome ChainError A * W)
    (R : stopped -> list E -> Prop) :
  (forall t, P t -> R Panicked t) -> traces P (attempt (silent f)) (fun _ => P) R.
Proof.
  intros H w Hw. unfold attempt, silent. destruct (f (fst w)) as [[] w']; try done. by apply H.
Qed.
Lemma traces_lift_silent {A} (P : list E -> Prop) (f : W -> outcome ChainError A * W) (R : stopped -> list E -> Prop) :
  (forall s t, P t -> R s t) -> traces P (lift (silent f)) (fun _ => P) R.
Proof.
  intros H w Hw. unfold lift, silent. destruct (f (fst w)) as [[] w']; try done; by apply H.
Qed.
(** A recorded call under a timer: it was made, whether or not its answer was in time. *)
Lemma traces_timed {A} `{Timer W} (P : list E -> Prop) e (f : W -> outcome ChainError A * W)
    (Q : timed A -> list E -> Prop) (R : stopped -> list E -> Prop) (d : traced W E -> Z) :
  (forall r t, P t -> match r with
                      | Panic => R Panicked (e r :: t)
                      | _ => Q Elapsed (e r :: t) /\ Q (Done r) (e r :: t)
                      end) ->
  traces P (fun w => timeout_at (d w) (lift (entered e f)) w) Q R.
Proof.
  intros H' w Hw. unfold timeout_at, lift, entered. destruct (f (fst w)) as [r w'].
  specialize (H' r _ Hw). destruct r; simpl in *; try (destruct (timer_won _ _)); tauto.
Qed.
End Triples.

(** ** Programs that end *)
Section Ends.
Context {W : Type} `{Clock W}.

(** No call turns the clock back. *)
Definition forward {A} (f : W -> A * W) : Prop := forall w, clock_now w <= clock_now (snd (f w)).
(** Programs that always end and keep the clock going. *)
Definition runs {A} (m : prog W A) : Prop := forall w, fst (m w) <> None /\ clock_now w <= clock_now (snd (m w)).

Lemma runs_ret {A} (a : A) : runs (ret a).
Proof. intros w. simpl. split; [done|lia]. Qed.
Lemma runs_throw {A} e : runs (throw (A := A) e).
Proof. intros w. simpl. split; [done|lia]. Qed.
Lemma runs_panic {A} : runs (panic (A := A)).
Proof. intros w. simpl. split; [done|lia]. Qed.
Lemma runs_outcome {A} (r : outcome ChainError A) : runs (of_outcome r).
Proof. intros w. simpl. split; [done|lia]. Qed.
Lemma runs_look {A} (f : W -> A) : runs (get (fun w => (f w, w))).
Proof. intros w. simpl. split; [done|lia]. Qed.
Lemma runs_lift {A} (f : W -> outcome ChainError A * W) : forward f -> runs (lift f).
Proof. intros Hf w. specialize (Hf w). unfold lift. by destruct (f w). Qed.
Lemma runs_attempt {A} (f : W -> outcome ChainError A * W) : forward f -> runs (attempt f).
Proof. intros Hf w. specialize (Hf w). unfold attempt. by destruct (f w) as [[] ?]. Qed.
Lemma runs_bind {A A'} (m : prog W A) (k : A -> prog W A') : runs m -> (forall a, runs (k a)) -> runs (bind m k).
Proof.
  intros Hm Hk w. specialize (Hm w). unfold bind. destruct (m w) as [[[a|e|]|] w']; simpl in *; try (by split; [|tauto]).
  - destruct (Hk a w') as [E1 E2]. split; [done|]. lia.
  - tauto.
Qed.
Lemma runs_timeout `{Timer W} {A} (m : prog W A) d : runs m -> runs (timeout_at d m).
Proof.
  intros Hm w. specialize (Hm w). unfold timeout_at.
  destruct (m w) as [[[a|e|]|] w']; simpl in *; destruct Hm; (split; [by destruct (timer_won d w') || done|done]).
Qed.
Lemma bind_ends {A A'} (m : prog W A) (k : A -> prog W A') w :
  runs m -> (forall a w', clock_now w <= clock_now w' -> fst (k a w') <> None) -> fst (bind m k w) <> None.
Proof.
  intros Hm Hk. specialize (Hm w). unfold bind. destruct (m w) as [[[a|e|]|] w']; simpl in *; try done;
    first [apply Hk; tauto|tauto].
Qed.
End Ends.

(** ** Programs that answer *)

(** A program, of the chain client or of a command, that never runs out of fuel. *)
Definition answers {S R : Type} (m : S -> option R * S) : Prop := forall s, fst (m s) <> None.
Section Answers.
Context {W : Type}.
Lemma answers_bind {A B} (m : prog W A) (k : A -> prog W B) : answers m -> (forall a, answers (k a)) -> answers (bind m k).
Proof. intros Hm Hk w. specialize (Hm w). unfold bind. destruct (m w) as [[[a|e|]|] w']; [apply Hk|done..]. Qed.
Lemma answers_lift {A} (f : W -> outcome ChainError A * W) : answers (lift f).
Proof. intros w. unfold lift. by destruct (f w). Qed.
Lemma answers_attempt {A} (f : W -> outcome ChainError A * W) : answers (attempt f).
Proof. intros w. unfold attempt. by destruct (f w) as [[] ?]. Qed.
Lemma answers_get {A} (f : W -> A * W) : answers (get f).
Proof. intros w. unfold get. by destruct (f w). Qed.
End Answers.
(** Goes through a program's binds and cases. *)
Create HintDb answers.
Ltac answering :=
  repeat first
    [ progress (intros)
    | apply answers_bind | apply answers_lift | apply answers_attempt | apply answers_get
    | solve [eauto with answers]
    | match goal with
      | |- answers (match ?x with _ => _ end) => destruct x
      end
    | solve [intros ?; done] ].

(** ** What a trace grows by

    A program that posts nothing only reads; what it [learns] it still knows when the
    trace has grown. *)
Class Posting (E : Type) : Type := is_post : E -> bool.
Definition is_read {E} `{Posting E} (c : E) : bool := negb (is_post c).
Definition any_call {E : Type} (c : E) : bool := true.

(** [t] is [t0] with calls of the kind [ok] on top. *)
Definition grown {E : Type} (ok : E -> bool) (t0 t : list E) : Prop :=
  exists more, t = more ++ t0 /\ Forall (fun c => ok c = true) more.
Lemma grown_refl {E} (ok : E -> bool) t : grown ok t t.
Proof. by exists []. Qed.
Lemma grown_cons {E} (ok : E -> bool) c t0 t : ok c = true -> grown ok t0 t -> grown ok t0 (c :: t).
Proof. intros Hc (m & -> & Hm). exists (c :: m). split; [done|]. by constructor. Qed.
Lemma grown_trans {E} (ok : E -> bool) a b c : grown ok a b -> grown ok b c -> grown ok a c.
Proof. intros (m & -> & Hm) (k & -> & Hk). exists (k ++ m). rewrite app_assoc. split; [done|]. by apply Forall_app. Qed.
Lemma grown_weak {E} (ok : E -> bool) t0 t : grown ok t0 t -> grown any_call t0 t.
Proof. intros (m & -> & _). exists m. split; [done|]. by apply Forall_forall. Qed.
Lemma grown_elem {E} (ok : E -> bool) c t0 t : grown ok t0 t -> c ∈ t0 -> c ∈ t.
Proof. intros (m & -> & _) H. apply elem_of_app. by right. Qed.

(** ** Programs that read *)
Section Learns.
Context {S E : Type} (tr : S -> list E).

Definition leads {A} (P : S -> Prop) (m : prog S A) (Q : A -> S -> Prop) (R : stopped -> S -> Prop) : Prop :=
  forall s, P s ->
    match m s with
    | (Some (Ok a), s') => Q a s'
    | (Some (Err e), s') => R (Threw e) s'
    | (Some Panic, s') => R Panicked s'
    | (None, s') => R Spent s'
    end.
Lemma leads_bind {A B} P (m : prog S A) (k : A -> prog S B) Q' Q R :
  leads P m Q' R -> (forall a, leads (Q' a) (k a) Q R) -> leads P (bind m k) Q R.
Proof.
  intros Hm Hk s Hs. specialize (Hm s Hs). unfold bind.
  destruct (m s) as [[[a|e|]|] s']; try done. by apply Hk.
Qed.
Lemma leads_conseq {A} (P P' : S -> Prop) (m : prog S A) (Q Q' : A -> S -> Prop) (R R' : stopped -> S -> Prop) :
  leads P' m Q' R' -> (forall s, P s -> P' s) -> (forall a s, Q' a s -> Q a s) ->
  (forall x s, R' x s -> R x s) -> leads P m Q R.
Proof.
  intros H HP HQ HR s Hs. specialize (H s (HP _ Hs)). destruct (m s) as [[[a|e|]|] s']; auto.
Qed.

Lemma leads_pre {A} (P P' : S -> Prop) (m : prog S A) (Q : A -> S -> Prop) (R : stopped -> S -> Prop) :
  leads P' m Q R -> (forall s, P s -> P' s) -> leads P m Q R.
Proof. intros Hm HP s Hs. by apply Hm, HP. Qed.

(** The program adds calls of the kind [ok] and ends with a value only knowing [F]. *)
Definition learns (ok : E -> bool) {A} (m : prog S A) (F : A -> list E -> Prop) : Prop :=
  forall t0, leads (fun s => tr s = t0) m (fun a s => grown ok t0 (tr s) /\ F a (tr s)) (fun _ s => grown ok t0 (tr s)).
Definition knows_nothing {A} (_ : A) (_ : list E) : Prop := True.

Lemma learns_bind ok {A B} (m : prog S A) (k : A -> prog S B) F G H :
  learns ok m F -> (forall a, learns ok (k a) (G a)) ->
  (forall a b t t', F a t -> grown ok t t' -> G a b t' -> H b t') -> learns ok (bind m k) H.
Proof.
  intros Hm Hk HF t0 s Hs. specialize (Hm t0 s Hs). unfold bind.
  destruct (m s) as [[[a|e|]|] s']; [|exact Hm..].
  destruct Hm as [Hg Ha]. specialize (Hk a _ s' eq_refl).
  destruct (k a s') as [[[b|e|]|] s'']; [|by eapply grown_trans..].
  destruct Hk as [Hg' Hb]. split; [by eapply grown_trans|]. by eapply HF.
Qed.
Lemma learns_after ok {A B} (m : prog S A) (k : A -> prog S B) G :
  learns ok m knows_nothing -> (forall a, learns ok (k a) G) -> learns ok (bind m k) G.
Proof. intros Hm Hk. by eapply (learns_bind _ _ _ _ (fun _ => G)). Qed.
Lemma learns_leads ok {A} (m : prog S A) F :
  learns ok m F -> leads (fun _ => True) m (fun a s => F a (tr s)) (fun _ _ => True).
Proof.
  intros Hm s _. specialize (Hm _ s eq_refl). destruct (m s) as [[[a|e|]|] s']; [|done..]. by destruct Hm.
Qed.
Lemma learns_weak ok {A} (m : prog S A) F : learns ok m F -> learns ok m knows_nothing.
Proof.
  intros H t0 s Hs. specialize (H t0 s Hs). destruct (m s) as [[[a|e|]|] s']; [|done..]. by destruct H.
Qed.
Lemma learns_any ok {A} (m : prog S A) F : learns ok m F -> learns any_call m F.
Proof.
  intros H t0 s Hs. specialize (H t0 s Hs).
  destruct (m s) as [[[a|e|]|] s']; [split; [eapply grown_weak|]; by destruct H|by eapply grown_weak..].
Qed.
Lemma learns_ret ok {A} (a : A) (F : A -> list E -> Prop) : (forall t, F a t) -> learns ok (ret a) F.
Proof. intros H t0 s <-. split; [apply grown_refl|apply H]. Qed.
Lemma learns_throw ok {A} e (F : A -> list E -> Prop) : learns ok (throw e) F.
Proof. intros t0 s <-. apply grown_refl. Qed.
Lemma learns_panic ok {A} (F : A -> list E -> Prop) : learns ok panic F.
Proof. intros t0 s <-. apply grown_refl. Qed.
Lemma learns_outcome ok {A} (r : outcome ChainError A) : learns ok (of_outcome r) (fun a _ => r = Ok a).
Proof. intros t0 s <-. unfold of_outcome. destruct r; try apply grown_refl. split; [apply grown_refl|done]. Qed.
Lemma learns_run ok (f : S -> S) : (forall s, tr (f s) = tr s) -> learns ok (run f) knows_nothing.
Proof. intros Hf t0 s <-. unfold run. rewrite Hf. split; [apply grown_refl|done]. Qed.
End Learns.

Create HintDb learns.
#[export] Hint Resolve learns_ret learns_throw learns_panic : learns.
#[export] Hint Extern 3 (learns _ _ (of_outcome _) knows_nothing) => eapply learns_weak, learns_outcome : learns.
#[export] Hint Extern 3 (learns _ _ (run _) knows_nothing) => by apply learns_run : learns.
#[export] Hint Extern 1 (knows_nothing _ _) => exact I : learns.
(** [knowing]: through the binds and the data a read program branches on. *)
Ltac knowing :=
  repeat (cbn beta; match goal with
          | |- learns _ _ (bind _ _) knows_nothing => eapply learns_after; [|intros ?]
          | |- learns _ _ (match ?x with _ => _ end) _ => destruct x
          | |- _ => solve [eauto with learns]
          end).

(** Calls that are recorded with their answer, and calls that are not. *)
Section Calls.
Context {W E : Type}.
Abbreviation world := (traced W E).

Lemma learns_silent {A} (ok : E -> bool) (f : W -> outcome ChainError A * W) : learns (S:=world) snd ok (lift (silent f)) knows_nothing.
Proof. intros t0 w <-. unfold lift, silent. destruct (f (fst w)) as [[] ?]; simpl; try apply grown_refl. split; [apply grown_refl|done]. Qed.
Lemma learns_attempt_silent {A} (ok : E -> bool) (f : W -> outcome ChainError A * W) : learns (S:=world) snd ok (attempt (silent f)) knows_nothing.
Proof. intros t0 w <-. unfold attempt, silent. destruct (f (fst w)) as [[] ?]; simpl; try apply grown_refl; (split; [apply grown_refl|done]). Qed.
Lemma learns_entered {A} (ok : E -> bool) (e : outcome ChainError A -> E) (f : W -> outcome ChainError A * W) :
  (forall r, ok (e r) = true) ->
  learns (S:=world) snd ok (lift (entered e f)) (fun a t => e (Ok a) ∈ t).
Proof.
  intros He t0 w <-. unfold lift, entered.
  destruct (f (fst w)) as [[] ?]; simpl; try (apply grown_cons, grown_refl; apply He).
  split; [apply grown_cons, grown_refl; apply He|constructor].
Qed.
End Calls.

(** ** What a post comes after *)
Section After.
Context {C : Type} `{HP : Posting C}.
(** Every post of the trace comes after the evidence [E]. *)
Definition backed (E : list C -> Prop) (t : list C) : Prop :=
  forall later c earlier, t = later ++ c :: earlier -> is_post c = true -> E earlier.
Definition lasting (ok : C -> bool) (E : list C -> Prop) : Prop :=
  forall t0 t, grown ok t0 t -> E t0 -> E t.

Lemma backed_nil E : backed E [].
Proof. by intros [] ?? ?. Qed.
Lemma backed_cons E c t : backed E t -> (is_post c = true -> E t) -> backed E (c :: t).
Proof. intros Ht Hc [|c' later] c'' earlier [= <- Heq] Hp; [subst; by apply Hc|by eapply Ht]. Qed.
Lemma backed_reads E t0 t : backed E t0 -> grown is_read t0 t -> backed E t.
Proof.
  intros H0 (more & -> & Hm). induction Hm as [|c more Hc _ IH]; [done|]. apply backed_cons; [done|].
  intros Hp. unfold is_read in Hc. by rewrite Hp in Hc.
Qed.
Lemma backed_after E t0 t : lasting any_call E -> backed E t0 -> E t0 -> grown any_call t0 t -> backed E t.
Proof.
  intros HE H0 H1 (more & -> & _). induction more as [|c more IH]; [done|]. apply backed_cons; [done|].
  intros _. eapply HE; [|done]. exists more. split; [done|]. by apply Forall_forall.
Qed.
Lemma lasting_any E (ok : C -> bool) : lasting any_call E -> lasting ok E.
Proof. intros HE t0 t Hg. apply HE. by eapply grown_weak. Qed.

(** A program whose posts are backed, once [K] is known. *)
Definition posts_after {S} (tr : S -> list C) (K E : list C -> Prop) {A} (m : prog S A) : Prop :=
  leads (fun s => backed E (tr s) /\ K (tr s)) m (fun _ s => backed E (tr s)) (fun _ s => backed E (tr s)).
Lemma posts_after_bind {S A B} (tr : S -> list C) K F E (m : prog S A) (k : A -> prog S B) :
  learns tr is_read m F -> lasting is_read K -> (forall a, posts_after tr (fun t => K t /\ F a t) E (k a)) ->
  posts_after tr K E (bind m k).
Proof.
  intros Hm HK Hk s [Hb HKs]. specialize (Hm _ s eq_refl). unfold bind.
  destruct (m s) as [[[a|e|]|] s']; [|by eapply backed_reads..].
  destruct Hm as [Hg Ha]. apply Hk. split; [by eapply backed_reads|]. split; [by eapply HK|done].
Qed.
Lemma posts_after_know {S A} (tr : S -> list C) K K' E (m : prog S A) :
  (forall t, K t -> K' t) -> posts_after tr K' E m -> posts_after tr K E m.
Proof. intros HK Hm s [Hb HKs]. apply Hm. auto. Qed.
Lemma posts_after_evidence {S A} (tr : S -> list C) K E F (m : prog S A) :
  lasting any_call E -> (forall t, K t -> E t) -> learns tr any_call m F -> posts_after tr K E m.
Proof.
  intros HE HK Hm s [Hb HKs]. specialize (Hm _ s eq_refl).
  destruct (m s) as [[[a|e|]|] s']; [destruct Hm as [Hm _]|..]; eapply backed_after; eauto.
Qed.

Lemma posts_after_skip {S A B} (tr : S -> list C) K E (m : prog S A) (k : A -> prog S B) :
  lasting is_read K -> learns tr is_read m knows_nothing -> (forall a, posts_after tr K E (k a)) -> posts_after tr K E (bind m k).
Proof.
  intros HK Hm Hk. eapply posts_after_bind; [exact Hm|done|]. intros a. eapply posts_after_know; [|apply Hk].
  simpl. tauto.
Qed.
Lemma posts_after_outcome {S A B} (tr : S -> list C) K E (r : outcome ChainError A) (k : A -> prog S B) :
  lasting is_read K -> (forall a, r = Ok a -> posts_after tr K E (k a)) -> posts_after tr K E (bind (of_outcome r) k).
Proof.
  intros HK Hk. eapply posts_after_bind; [apply learns_outcome|done|].
  intros a s [Hb [HKs Ha]]. by apply (Hk a Ha).
Qed.
Lemma posts_after_throw {S A} (tr : S -> list C) K E e : posts_after tr K E (throw (A := A) e).
Proof. by intros s [Hs _]. Qed.
Lemma lasting_pure (ok : C -> bool) (P : Prop) : lasting ok (fun _ => P).
Proof. by intros t0 t _. Qed.
Lemma lasting_and (ok : C -> bool) K F : lasting ok K -> lasting ok F -> lasting ok (fun t => K t /\ F t).
Proof. intros HK HF t0 t Hg [? ?]. split; [by eapply HK|by eapply HF]. Qed.
Lemma lasting_ex (ok : C -> bool) {X} (K : X -> list C -> Prop) :
  (forall x, lasting ok (K x)) -> lasting ok (fun t => exists x, K x t).
Proof. intros HK t0 t Hg [x Hx]. exists x. by eapply HK. Qed.
End After.
