(* ===== verification/Advance.v ===== *)
(** * Advance: the seller's claim driver (crates/dexdo/src/seller/advance.rs)

    The driver accepts the probe once something was delivered, then claims the
    delivered tokens step by step and finalizes the last claim.  It runs on any
    chain, clock, delivery counter and observer; every load of a shared counter
    is a call, because other tasks move it. *)
From Stdlib Require Import Ascii.
From S2P Require Import Prelude Text Params Address MarketTypes Machine MockDeal MockMarket Backend.

Definition SELLER_TERMINAL_RECEIPT_POLL_INTERVAL : Z := 3.
Definition CHAIN_READ_EXHAUSTED_MESSAGE_PREFIX : string := "chain read got no answer after ".

Record AdvanceWindows : Type := mkWindows {
  aw_claim_interval : Z;
  aw_seconds_per_tick : Z;
  aw_promote : Z;
  aw_probe : Z
}.
Definition from_bounds (b : ClaimBounds) : AdvanceWindows := {|
  aw_claim_interval := cbd_min_claim_interval b;
  aw_seconds_per_tick := cbd_min_seconds_per_tick b;
  aw_promote := cbd_promote_window b;
  aw_probe := cbd_probe_window b |}.
Definition windows_max_claim_delta (w : AdvanceWindows) (elapsed : Z) : Z :=
  claim_delta_limit elapsed (aw_seconds_per_tick w).

Record ClaimDeliveryMeasurement : Type := mkMeasurement {
  cm_deal_delivery_count : Z;
  cm_delivery_at_probe : option Z;
  cm_cumulative_tokens : option Z
}.

Definition exhausted_transient_read (e : ChainError) : bool :=
  match e with
  | Chain m | Transport m => contains_text (to_text CHAIN_READ_EXHAUSTED_MESSAGE_PREFIX) (to_text m)
  | _ => false
  end.

(** The counters of the relay, and the observer of the driver. *)
Class Delivery (W : Type) : Type := {
  load_delivered : W -> Z * W;
  load_done : W -> bool * W
}.
Class ClaimStateObserver (W : Type) : Type := {
  observe : TokenContract -> DealChainState -> W -> outcome ChainError unit * W;
  observe_terminal : TokenContract -> W -> outcome ChainError unit * W;
  observe_chain_unavailable : TokenContract -> ChainError -> W -> W;
  observe_probe_decision : TokenContract -> ClaimDeliveryMeasurement -> W -> W;
  observe_claim_submitted : TokenContract -> ClaimDeliveryMeasurement -> W -> W
}.

Definition validated_claim_high_water (state : DealChainState) (token_budget : Z)
    : outcome ChainError Z :=
  fail_if negb (ds_opened state) || ds_disputed state || negb (ds_probe_accepted state)
    with Chain "claim high-water is not actionable" in
  fail_if ds_tokens_pending state <? TICK_SIZE
    with Chain "accepted probe reports tokensPending below canonical TICK_SIZE" in
  fail_if ds_tokens_pending state <? ds_tokens_final state
    with Chain "tokensFinal exceeds tokensPending; refusing a regressing claim pipeline" in
  fail_if token_budget <? ds_tokens_pending state
    with Chain "on-chain claim high-water exceeds the configured token budget" in
  Ok (ds_tokens_pending state).

Definition delivery_target_from_probe_anchor
    (probe_high_water delivery_at_probe delivered token_budget : Z) : Z :=
  Z.min (saturating_add U128_MAX probe_high_water (saturating_sub delivered delivery_at_probe))
    token_budget.

Section Driver.
Context {W : Type} `{ChainBackend W} `{Clock W} `{Delivery W} `{ClaimStateObserver W}.
Context (tc : TokenContract) (note : NotePubkey) (windows : AdvanceWindows).

Definition required_claim_state : prog W DealChainState :=
  let! r := attempt (cb_deal_state tc) in
  match r with
  | Ok (Some state) => lift (observe tc state) >>! ret state
  | Ok None => throw (Chain "getState returned no data while reconciling the claim high-water")
  | Err e =>
      (if exhausted_transient_read e then run (observe_chain_unavailable tc e) else ret tt)
      >>! throw e
  | Panic => panic
  end.

Definition deal_closed : prog W bool :=
  let! s := get (cb_snapshot tc) in ret (from_option ss_closed false s).
Definition deal_closed_observed : prog W bool :=
  let! closed := deal_closed in
  if closed : bool then lift (observe_terminal tc) >>! ret true else ret false.

Fixpoint wait_until (fuel : nat) (deadline : Z) : prog W bool :=
  match fuel with
  | O => out_of_fuel
  | S fuel =>
      let! now := get (fun w => (clock_now w, w)) in
      if deadline <=? now then ret false
      else
        run (sleep (Z.min SELLER_TERMINAL_RECEIPT_POLL_INTERVAL (deadline - now))) >>!
        let! closed := deal_closed in
        if closed : bool then ret true else wait_until fuel deadline
  end.
Definition wait_claim_or_closed (fuel : nat) (window : Z) : prog W bool :=
  let! now := get (fun w => (clock_now w, w)) in wait_until fuel (now + window).

(** Wait for the first delivered token; [false] when there will be none. *)
Fixpoint wait_first_delivery (fuel : nat) : prog W bool :=
  match fuel with
  | O => out_of_fuel
  | S fuel' =>
      let! n := get load_delivered in
      if 0 <? n then ret true
      else
        let! done_ := get load_done in
        if done_ : bool then let! n := get load_delivered in ret (0 <? n)
        else
          let! closed := wait_claim_or_closed fuel (aw_claim_interval windows) in
          if closed : bool then ret false else wait_first_delivery fuel'
  end.

(** The probe: [None] ends the drive with nothing claimed, [Some d] is the
    delivery the accepted tick absorbs. *)
Definition drive_probe (fuel : nat) (before : DealChainState) : prog W (option Z) :=
  if negb (ds_opened before) || ds_disputed before || negb (ds_tokens_pending before =? 0) then
    throw (Chain "malformed pre-probe claim state")
  else
    run (sleep (aw_probe windows)) >>!
    let! closed := deal_closed_observed in
    if closed : bool then ret None
    else
      let! some := wait_first_delivery fuel in
      if negb some then ret None
      else
        let! n := get load_delivered in
        let at_probe := Z.min n TICK_SIZE in
        run (observe_probe_decision tc (mkMeasurement n (Some at_probe) None)) >>!
        let! accepted := attempt (cb_accept_probe tc) in
        let! after := required_claim_state in
        if negb (ds_probe_accepted after) then
          let! closed := deal_closed_observed in
          if closed : bool then ret None
          else match accepted with
               | Err e => throw e
               | Ok _ => throw (Chain "acceptProbe returned but probeAccepted stayed false")
               | Panic => panic
               end
        else ret (Some at_probe).

(** One result of [claim_tokens]: the new high-water, or the end of the loop. *)
Definition settle_claim (next target token_budget : Z) (r : outcome ChainError unit)
    : prog W (option Z) :=
  match r with
  | Ok _ => ret (Some next)
  | Err (ClaimHighWaterResync attempted on_chain) =>
      if negb (attempted =? next) || (on_chain <=? next) || (target <? on_chain)
         || (token_budget <? on_chain)
      then throw (Chain "invalid claim resync")
      else ret (Some on_chain)
  | Err (Limit _) => ret None
  | Err e =>
      let! closed := deal_closed_observed in
      if closed : bool then ret None else throw e
  | Panic => panic
  end.

(** One turn that submits: the high-water and whether it moved, or the end of the
    loop. *)
Definition submit_claim (base at_probe token_budget : Z) (measured : option Z) (claimed : Z)
    : prog W (option (Z * bool)) :=
  run (sleep (aw_claim_interval windows)) >>!
  let! n := get load_delivered in
  let target := delivery_target_from_probe_anchor base at_probe n token_budget in
  let allowance := if aw_claim_interval windows =? 0 then MAX_CLAIM_DELTA
                   else windows_max_claim_delta windows (aw_claim_interval windows) in
  let next := Z.min target (saturating_add U128_MAX claimed allowance) in
  if next <=? claimed then ret (Some (claimed, false))
  else
    let! r := attempt (cb_claim_tokens tc note next) in
    run (observe_claim_submitted tc (mkMeasurement n measured (Some next))) >>!
    let! reached := settle_claim next target token_budget r in
    ret ((fun c => (c, true)) <$> reached).

(** The claim loop: the high-water reached and whether a claim awaits promotion. *)
Fixpoint claim_loop (fuel : nat) (base at_probe token_budget : Z) (measured : option Z)
    (claimed : Z) (needs_finalize : bool) : prog W (Z * bool) :=
  match fuel with
  | O => out_of_fuel
  | S fuel' =>
      let again := claim_loop fuel' base at_probe token_budget measured in
      let stop := ret (claimed, needs_finalize) in
      let target_at n := delivery_target_from_probe_anchor base at_probe n token_budget in
      let submit :=
        let! reached := submit_claim base at_probe token_budget measured claimed in
        match reached with
        | Some (claimed', moved) => again claimed' (needs_finalize || moved)
        | None => stop
        end in
      if token_budget <=? claimed then stop
      else
        let! closed := deal_closed_observed in
        if closed : bool then stop
        else
          let! n := get load_delivered in
          if target_at n <=? claimed then
            let! done_ := get load_done in
            if done_ : bool then
              let! n := get load_delivered in
              if target_at n <=? claimed then stop else submit
            else
              let! closed := wait_claim_or_closed fuel (aw_claim_interval windows) in
              if closed : bool then stop else again claimed needs_finalize
          else submit
  end.

Definition drive_advance_with_observer (fuel : nat) (tick_budget tick_size : Z)
    (finalize_last_claim : bool) : prog W Z :=
  if tick_size <=? 0 then panic
  else
    let token_budget := saturating_mul U128_MAX tick_budget tick_size in
    let! closed := deal_closed_observed in
    if closed : bool then ret 0
    else
      let! before := required_claim_state in
      let! probe :=
        (if ds_probe_accepted before then ret (Some (0, None))
         else let! at_probe := drive_probe fuel before in
              ret ((fun d => (d, Some d)) <$> at_probe)) in
      match probe with
      | None => ret 0
      | Some (at_probe, measured) =>
          let! state := required_claim_state in
          let! claimed := of_outcome (validated_claim_high_water state token_budget) in
          let! ' (claimed, needs_finalize) :=
            claim_loop fuel claimed at_probe token_budget measured claimed
              (ds_tokens_final state <? ds_tokens_pending state) in
          if needs_finalize && finalize_last_claim then
            run (sleep (aw_promote windows)) >>!
            let! r := attempt (cb_finalize tc) in
            match r with
            | Ok _ => ret claimed
            | Err e =>
                let! closed := deal_closed_observed in
                if closed : bool then ret claimed else throw e
            | Panic => panic
            end
          else ret claimed
      end.
End Driver.

(** [impl ClaimStateObserver for ()]. *)
Definition unit_observer (W : Type) : ClaimStateObserver W := {|
  observe _ _ w := (Ok tt, w);
  observe_terminal _ w := (Ok tt, w);
  observe_chain_unavailable _ _ w := w;
  observe_probe_decision _ _ w := w;
  observe_claim_submitted _ _ w := w |}.
Definition drive_advance {W : Type} `{ChainBackend W} `{Clock W} `{Delivery W} tc note windows :=
  drive_advance_with_observer (H2 := unit_observer W) tc note windows.
