(* ===== verification/AdvanceSafety.v ===== *)
(** * AdvanceSafety: what the claim driver may submit

    The driver runs on an arbitrary chain, clock and counter whose calls are
    logged.  Whatever they answer, a probe is only taken after a delivery was
    seen, and every claim moves the high-water by at most one tick, within the
    budget and within what was delivered. *)
From S2P Require Import Prelude Text Params Address MarketTypes Machine MockDeal MockMarket Backend Advance.

(** ** Logged calls, newest first *)
Inductive Event : Type :=
| EDelivered (n : Z)
| EState (s : DealChainState)
| EAccept
| EClaim (cumulative : Z) (r : outcome ChainError unit)
| EFinalize.

Section Logged.
Context {W : Type} (B : ChainBackend W) (C : Clock W) (D : Delivery W) (O : ClaimStateObserver W).
Definition logged : Type := W * list Event.
Definition plain {A} (f : W -> A * W) (w : logged) : A * logged :=
  let '(a, w') := f (fst w) in (a, (w', snd w)).
Definition noted {A} (e : A -> list Event) (f : W -> A * W) (w : logged) : A * logged :=
  let '(a, w') := f (fst w) in (a, (w', e a ++ snd w)).
Definition silent (f : W -> W) (w : logged) : logged := (f (fst w), snd w).

#[export] Instance logged_backend : ChainBackend logged := {|
  cb_discover_offers := plain cb_discover_offers;
  cb_place_buy tc note := plain (cb_place_buy tc note);
  cb_accept_probe tc := noted (fun _ => [EAccept]) (cb_accept_probe tc);
  cb_claim_tokens tc note n := noted (fun r => [EClaim n r]) (cb_claim_tokens tc note n);
  cb_finalize tc := noted (fun _ => [EFinalize]) (cb_finalize tc);
  cb_settle_week tc := plain (cb_settle_week tc);
  cb_stop tc note := plain (cb_stop tc note);
  cb_dispute tc note := plain (cb_dispute tc note);
  cb_deal_state tc := noted (fun r => match r with Ok (Some s) => [EState s] | _ => [] end) (cb_deal_state tc);
  cb_deal_snapshot tc := plain (cb_deal_snapshot tc);
  cb_snapshot tc := plain (cb_snapshot tc) |}.
#[export] Instance logged_clock : Clock logged := {|
  clock_now w := clock_now (fst w); sleep d := silent (sleep d) |}.
#[export] Instance logged_delivery : Delivery logged := {|
  load_delivered := noted (fun n => [EDelivered n]) load_delivered;
  load_done := plain load_done |}.
#[export] Instance logged_observer : ClaimStateObserver logged := {|
  observe tc s := plain (observe tc s);
  observe_terminal tc := plain (observe_terminal tc);
  observe_chain_unavailable tc e := silent (observe_chain_unavailable tc e);
  observe_probe_decision tc m := silent (observe_probe_decision tc m);
  observe_claim_submitted tc m := silent (observe_claim_submitted tc m) |}.
End Logged.

(** ** What the log says *)

(** The last count of delivered tokens, the last claim total the chain reported,
    and the high-water after the claims since. *)
Fixpoint last_load (t : list Event) : Z :=
  match t with [] => 0 | EDelivered n :: _ => n | _ :: t' => last_load t' end.
Fixpoint reported (t : list Event) : Z :=
  match t with [] => 0 | EState s :: _ => ds_tokens_pending s | _ :: t' => reported t' end.
Fixpoint high_water (t : list Event) : Z :=
  match t with
  | [] => 0
  | EState s :: _ => ds_tokens_pending s
  | EClaim c (Ok _) :: _ => c
  | EClaim _ (Err (ClaimHighWaterResync _ on_chain)) :: _ => on_chain
  | _ :: t' => high_water t'
  end.
(** What the probe's tick absorbs: the count at the acceptance of the probe, at most a
    tick; nothing when this run accepted none. *)
Fixpoint probe_delivery (t : list Event) : Z :=
  match t with [] => 0 | EAccept :: t' => Z.min (last_load t') TICK_SIZE | _ :: t' => probe_delivery t' end.

(** A claim of [c] after the log [t]. *)
Definition claim_backed (budget c : Z) (t : list Event) : Prop :=
  high_water t < c <= high_water t + MAX_CLAIM_DELTA /\
  c <= reported t + Z.max 0 (last_load t - probe_delivery t) /\ c <= budget.
Definition event_ok (budget : Z) (e : Event) (t : list Event) : Prop :=
  match e with
  | EAccept => exists n, EDelivered n ∈ t /\ 0 < n
  | EClaim c _ => claim_backed budget c t
  | _ => True
  end.
Fixpoint log_ok (budget : Z) (t : list Event) : Prop :=
  match t with [] => True | e :: t' => event_ok budget e t' /\ log_ok budget t' end.

Section Safety.
Context {W : Type} (B : ChainBackend W) (C : Clock W) (D : Delivery W) (O : ClaimStateObserver W).
Context (Hload : forall w, 0 <= fst (load_delivered w)).
Context (tc : TokenContract) (note : NotePubkey) (windows : AdvanceWindows) (budget : Z).

#[local] Existing Instance logged_backend.
#[local] Existing Instance logged_clock.
#[local] Existing Instance logged_delivery.
#[local] Existing Instance logged_observer.

(** Facts about the log that calls without an entry keep. *)
Definition on_log (P : list Event -> Prop) (w : @logged W) : Prop := P (snd w).

Lemma plain_log {A} (P : list Event -> Prop) (f : W -> A * W) w a w' :
  on_log P w -> plain f w = (a, w') -> on_log P w'.
Proof. intros Hw H. unfold plain in H. destruct (f (fst w)). by simplify_eq. Qed.
Lemma noted_log {A} (e : A -> list Event) (f : W -> A * W) w a w' :
  noted e f w = (a, w') -> snd w' = e a ++ snd w.
Proof. intros H. unfold noted in H. destruct (f (fst w)). by simplify_eq. Qed.

Lemma deal_closed_log P : holds (on_log P) (deal_closed tc) (fun _ => on_log P) (on_log P).
Proof.
  apply (holds_bind _ _ _ (fun _ => on_log P)); [apply holds_get; intros w r w'; apply plain_log|].
  intros s. by apply holds_ret.
Qed.
Lemma deal_closed_observed_log P :
  holds (on_log P) (deal_closed_observed tc) (fun _ => on_log P) (on_log P).
Proof.
  eapply holds_bind; [apply deal_closed_log|]. intros []; [|by apply holds_ret].
  apply (holds_bind _ _ _ (fun _ => on_log P)); [|intros; by apply holds_ret].
  apply holds_lift. intros w r w' Hw E. pose proof (plain_log _ _ _ _ _ Hw E). destruct r; done.
Qed.
Lemma sleep_log P d R : holds (on_log P) (run (sleep d)) (fun _ => on_log P) R.
Proof. by apply holds_run. Qed.
Lemma wait_until_log P fuel deadline :
  holds (on_log P) (wait_until tc fuel deadline) (fun _ => on_log P) (on_log P).
Proof.
  induction fuel as [|fuel IH]; simpl; [by apply holds_fuel|].
  apply (holds_bind _ _ _ (fun _ => on_log P)); [apply holds_get; intros w r w' Hw E; by simplify_eq|]. intros now.
  destruct (deadline <=? now); [by apply holds_ret|].
  eapply holds_bind; [apply sleep_log|]. intros ?.
  eapply holds_bind; [apply deal_closed_log|]. intros []; [by apply holds_ret|apply IH].
Qed.
Lemma wait_claim_log P fuel window :
  holds (on_log P) (wait_claim_or_closed tc fuel window) (fun _ => on_log P) (on_log P).
Proof.
  apply (holds_bind _ _ _ (fun _ => on_log P)); [apply holds_get; intros w r w' Hw E; by simplify_eq|]. intros. apply wait_until_log.
Qed.

(** A load of the counter keeps what its entry keeps. *)
Lemma load_log (P : list Event -> Prop) R : (forall t n, P t -> P (EDelivered n :: t)) ->
  holds (on_log P) (get load_delivered)
    (fun n => on_log (fun t => P t /\ 0 <= n /\ last_load t = n /\ EDelivered n ∈ t)) R.
Proof.
  intros HP. apply holds_get. intros w n w' Hw E. pose proof (noted_log _ _ _ _ _ E) as Ht. simpl in Ht.
  unfold on_log in *. rewrite Ht. split_and!; [auto| |done|left].
  simpl in E. unfold noted in E. specialize (Hload (fst w)). destruct (load_delivered (fst w)). by simplify_eq.
Qed.
Lemma done_log P R : holds (on_log P) (get load_done) (fun _ => on_log P) R.
Proof. apply holds_get. intros w b w'. apply plain_log. Qed.

(** ** The probe *)
Definition unprobed (t : list Event) : Prop := log_ok budget t /\ probe_delivery t = 0.
Definition seen_delivery (t : list Event) : Prop :=
  unprobed t /\ exists n, EDelivered n ∈ t /\ 0 < n.
Lemma unprobed_delivered t n : unprobed t -> unprobed (EDelivered n :: t).
Proof. by intros []. Qed.
Lemma unprobed_state t s : unprobed t -> unprobed (EState s :: t).
Proof. by intros []. Qed.
Lemma unprobed_log t : unprobed t -> log_ok budget t.
Proof. by intros []. Qed.
Lemma log_ok_delivered t n : log_ok budget t -> log_ok budget (EDelivered n :: t).
Proof. done. Qed.
Lemma log_ok_state t s : log_ok budget t -> log_ok budget (EState s :: t).
Proof. done. Qed.
Lemma seen_delivered t n : seen_delivery t -> seen_delivery (EDelivered n :: t).
Proof. intros [[H ?] (m & Hm & ?)]. split; [done|]. exists m. split; [by right|done]. Qed.
#[local] Hint Resolve log_ok_delivered log_ok_state seen_delivered unprobed_delivered unprobed_state unprobed_log : core.

Ltac hbind Q := apply (holds_bind _ _ _ Q).
(** The first step of a sequence keeps [P]; the rest starts from it. *)
Lemma holds_keep (K : list Event -> Prop) {A A'} P (m : prog (@logged W) A) (k : A -> prog (@logged W) A') Q R :
  holds P m (fun _ => on_log K) R -> (forall a, holds (on_log K) (k a) Q R) -> holds P (bind m k) Q R.
Proof. apply holds_bind. Qed.
Ltac hkeep K := apply (holds_keep K).

Lemma holds_pre {A} (P P' : list Event -> Prop) (m : prog (@logged W) A) Q R :
  holds (on_log P') m Q R -> (forall t, P t -> P' t) -> holds (on_log P) m Q R.
Proof. intros Hm HP w Hw. apply Hm. by apply HP. Qed.
Lemma holds_post {A} P (m : prog (@logged W) A) (Q Q' : A -> list Event -> Prop) R :
  holds P m (fun a => on_log (Q' a)) R -> (forall a t, Q' a t -> Q a t) ->
  holds P m (fun a => on_log (Q a)) R.
Proof. intros Hm HQ. eapply holds_conseq; [exact Hm|auto|intros a w; apply HQ|auto]. Qed.
Lemma holds_ret_log {A} (P : list Event -> Prop) (a : A) (Q : A -> list Event -> Prop) R :
  (forall t, P t -> Q a t) -> holds (on_log P) (ret a) (fun a => on_log (Q a)) R.
Proof. intros H. apply holds_ret. intros w. apply H. Qed.
Lemma holds_fail {A} (P : list Event -> Prop) (m : prog (@logged W) A) (R R' : list Event -> Prop) Q :
  holds (on_log P) m Q (on_log R') -> (forall t, R' t -> R t) -> holds (on_log P) m Q (on_log R).
Proof. intros Hm HR. eapply holds_conseq; [exact Hm|auto|auto|]. intros w. apply HR. Qed.

Lemma wait_first_log fuel : holds (on_log unprobed) (wait_first_delivery tc windows fuel)
  (fun b => on_log (fun t => unprobed t /\ (b = true -> seen_delivery t))) (on_log unprobed).
Proof.
  induction fuel as [|fuel IH]; [by apply holds_fuel|]. cbn [wait_first_delivery].
  eapply holds_bind; [apply load_log; auto|]. intros n.
  destruct (Z.ltb_spec 0 n).
  { apply holds_ret_log. intros t (Ht & _ & _ & Hn). split; [done|]. intros _. split; [done|]. eauto. }
  hkeep unprobed; [eapply holds_pre; [apply done_log|by intros t (? & _)]|]. intros [].
  - eapply holds_bind; [apply load_log; auto|]. intros m. apply holds_ret_log.
    intros t (Ht & _ & _ & Hn). split; [done|]. intros Hm%Z.ltb_lt. split; [done|]. eauto.
  - eapply holds_bind; [apply wait_claim_log|]. intros []; [|apply IH].
    by apply holds_ret_log.
Qed.

Lemma required_state_log P : (forall t s, P t -> P (EState s :: t)) ->
  holds (on_log P) (required_claim_state tc)
    (fun s => on_log (fun t => P t /\ reported t = ds_tokens_pending s /\ high_water t = ds_tokens_pending s))
    (on_log P).
Proof.
  intros HP. hbind (fun (r : outcome ChainError (option DealChainState)) => on_log (fun t => P t /\ forall s, r = Ok (Some s) ->
    reported t = ds_tokens_pending s /\ high_water t = ds_tokens_pending s)).
  { apply holds_attempt. intros w r w' Hw E. pose proof (noted_log _ _ _ _ _ E) as Ht.
    unfold on_log in *. rewrite Ht.
    destruct r as [[s|]|e|]; simpl; [|split; [done|congruence]..|done].
    split; [by apply HP|]. intros s' Hs. by simplify_eq. }
  intros [[s|]|e|].
  - hkeep (fun t => P t /\ reported t = ds_tokens_pending s /\ high_water t = ds_tokens_pending s).
    + apply holds_lift. intros w r w' [Hw Hs] E.
      eapply (plain_log (fun t => P t /\ reported t = ds_tokens_pending s /\ high_water t = ds_tokens_pending s)) in E;
        [|split; [done|by apply Hs]].
      destruct r; [done| |]; by destruct E.
    + intros []. by apply holds_ret.
  - apply holds_throw. by intros w [? _].
  - hkeep P; [|intros ?; by apply holds_throw].
    destruct (exhausted_transient_read e); [apply holds_run|apply holds_ret]; by intros w [? _].
  - apply holds_panic. by intros w [? _].
Qed.

(** The attempted acceptance is entered on the log whatever it answers; the tick it pays
    absorbs what was loaded last. *)
Definition probed (n : Z) (t : list Event) : Prop := log_ok budget t /\ probe_delivery t = Z.min n TICK_SIZE.
Lemma probed_log n t : probed n t -> log_ok budget t.
Proof. by intros []. Qed.
#[local] Hint Resolve probed_log : core.
Lemma accept_log n : holds (on_log (fun t => seen_delivery t /\ last_load t = n)) (attempt (cb_accept_probe tc))
  (fun _ => on_log (probed n)) (on_log (log_ok budget)).
Proof.
  apply holds_attempt. intros w r w' [[[Hw Hu] Hseen] Hn] E. pose proof (noted_log _ _ _ _ _ E) as Ht.
  assert (on_log (probed n) w') as Hw'; [|destruct r; [done..|by eapply probed_log]].
  unfold on_log, probed. rewrite Ht. simpl. by rewrite Hn.
Qed.

Lemma drive_probe_log fuel before : holds (on_log unprobed) (drive_probe tc windows fuel before)
  (fun d => on_log (fun t => log_ok budget t /\ from_option (fun n => 0 <= n /\ probe_delivery t = n) True d)) (on_log (log_ok budget)).
Proof.
  unfold drive_probe. destruct (_ || _); [by apply holds_throw; intros w []|].
  hkeep unprobed; [apply sleep_log|]. intros ?.
  hkeep unprobed; [eapply holds_fail; [apply deal_closed_observed_log|apply unprobed_log]|]. intros []; [by apply holds_ret_log; intros t []|].
  eapply holds_bind; [eapply holds_fail; [apply wait_first_log|apply unprobed_log]|]. intros []; [|apply holds_ret_log; by intros t [[? _] _]].
  hbind (fun n => on_log (fun t => 0 <= n /\ (seen_delivery t /\ last_load t = n))).
  { eapply (holds_post _ _ _ (fun n t => seen_delivery t /\ 0 <= n /\ last_load t = n /\ _));
      [apply (holds_pre _ seen_delivery); [apply load_log; auto|]|].
    - intros t [_ Ht]. by apply Ht.
    - by intros n t (? & ? & ? & _). }
  intros n. cbn zeta.
  hkeep (fun t => 0 <= n /\ (seen_delivery t /\ last_load t = n)); [by apply holds_run|]. intros ?.
  hkeep (fun t => 0 <= n /\ probed n t).
  { intros w [Hn Hw]. pose proof (accept_log n w Hw) as H. destruct (attempt _ w) as [[[]|] ?]; done. }
  intros accepted.
  hkeep (fun t => 0 <= n /\ probed n t).
  { eapply holds_fail; [eapply holds_post; [apply required_state_log|]|]; [|by intros ? t [? _]|by intros t [_ []]].
    by intros t s [? []]. }
  intros after. destruct (negb (ds_probe_accepted after)).
  - hkeep (log_ok budget); [eapply holds_pre; [apply deal_closed_observed_log|by intros t [_ []]]|].
    intros []; [by apply holds_ret_log|].
    destruct accepted; [by apply holds_throw|by apply holds_throw|by apply holds_panic].
  - apply holds_ret_log. intros t [? [? Hd]]. split; [done|]. cbn. rewrite Hd. unfold TICK_SIZE. lia.
Qed.

(** ** The claim loop *)
Section Loop.
Context (at_probe : Z) (at_probe_nonneg : 0 <= at_probe).
Definition loop_inv (base claimed : Z) (t : list Event) : Prop :=
  log_ok budget t /\ reported t = base /\ high_water t = claimed /\ claimed <= budget /\ probe_delivery t = at_probe.
Lemma loop_inv_delivered base claimed t n : loop_inv base claimed t -> loop_inv base claimed (EDelivered n :: t).
Proof. intros (? & ? & ? & ? & ?). by split_and!. Qed.
Lemma loop_inv_log base claimed t : loop_inv base claimed t -> log_ok budget t.
Proof. by intros [? _]. Qed.
#[local] Hint Resolve loop_inv_delivered loop_inv_log : core.

Lemma target_bounds base n :
  delivery_target_from_probe_anchor base at_probe n budget <= budget /\
  delivery_target_from_probe_anchor base at_probe n budget <= base + Z.max 0 (n - at_probe).
Proof.
  unfold delivery_target_from_probe_anchor, saturating_add, saturating_sub. lia.
Qed.
Lemma allowance_bound elapsed secs : claim_delta_limit elapsed secs <= MAX_CLAIM_DELTA.
Proof. unfold claim_delta_limit. cbn zeta. destruct (Z.ltb_spec (if secs =? 0 then MAX_CLAIM_DELTA else elapsed * TICK_SIZE / secs) MAX_CLAIM_DELTA); lia. Qed.

(** After a claim: its entry on top of a log of the loop. *)
Definition claimed_log (base claimed next : Z) (r : outcome ChainError unit) (t : list Event) : Prop :=
  exists t', t = EClaim next r :: t' /\ claim_backed budget next t' /\ loop_inv base claimed t'.
Lemma claimed_log_ok base claimed next r t : claimed_log base claimed next r t -> log_ok budget t.
Proof. intros (t' & -> & ? & ? & _). by split. Qed.
Lemma settle_claim_log base claimed next target r : target <= budget -> next <= budget ->
  holds (on_log (claimed_log base claimed next r)) (settle_claim tc next target budget r)
    (fun reached => on_log (loop_inv base (default claimed reached))) (on_log (log_ok budget)).
Proof.
  intros Ht Hn.
  assert (forall c t, claimed_log base claimed next r t -> c <= budget -> high_water t = c -> loop_inv base c t) as Hinv.
  { intros c t (t' & -> & Hb & Hok & Hr & Hh & Hl & Hd) Hc Hhw. by split_and!. }
  assert (forall e, r = Err e -> (forall a b, e <> ClaimHighWaterResync a b) ->
    forall t, claimed_log base claimed next r t -> loop_inv base claimed t) as Hkeep.
  { intros e -> He t Hl. pose proof Hl as (t' & -> & _ & _ & _ & Hh & Hc & _). apply Hinv; [done|lia|].
    simpl. destruct e; try done. by edestruct He. }
  assert (forall e, r = Err e -> (forall a b, e <> ClaimHighWaterResync a b) ->
    holds (on_log (claimed_log base claimed next r))
      (let! closed := deal_closed_observed tc in if closed : bool then ret None else throw e)
      (fun reached : option Z => on_log (loop_inv base (default claimed reached))) (on_log (log_ok budget))) as Hother.
  { intros e Hr He. eapply holds_pre; [|exact (Hkeep e Hr He)].
    hkeep (loop_inv base claimed);
      [eapply holds_fail; [apply deal_closed_observed_log|by apply loop_inv_log]|].
    intros []; [by apply holds_ret_log|]. apply holds_throw. intros w. by apply loop_inv_log. }
  destruct r as [[]|e|]; simpl.
  - apply holds_ret_log. intros t Hl. apply Hinv; [done..|]. by destruct Hl as (t' & -> & _).
  - destruct e; try (by apply Hother).
    + apply holds_ret_log. by eapply Hkeep.
    + destruct (_ || _) eqn:Eg; [apply holds_throw; intros w; apply claimed_log_ok|].
      apply holds_ret_log. intros t Hl. apply Hinv; [done| |by destruct Hl as (t' & -> & _)].
      apply orb_false_iff in Eg as [_ Eg]. simpl. lia.
  - apply holds_panic. intros w. apply claimed_log_ok.
Qed.

Lemma claim_log base claimed next : next <= budget -> claimed < next <= claimed + MAX_CLAIM_DELTA ->
  holds (on_log (fun t => loop_inv base claimed t /\ next <= base + Z.max 0 (last_load t - at_probe)))
    (attempt (cb_claim_tokens tc note next))
    (fun r => on_log (claimed_log base claimed next r)) (on_log (log_ok budget)).
Proof.
  intros Hb Hd. apply holds_attempt. intros w r w' [Hw Hl] E. pose proof (noted_log _ _ _ _ _ E) as Ht.
  assert (on_log (claimed_log base claimed next r) w') as Hc; [|destruct r; [done..|by eapply claimed_log_ok]].
  unfold on_log. rewrite Ht. exists (snd w). split; [done|]. split; [|done].
  destruct Hw as (_ & Hr & Hh & _ & Hp). unfold claim_backed. rewrite Hr, Hh, Hp. lia.
Qed.

Lemma submit_claim_log base measured claimed :
  holds (on_log (loop_inv base claimed))
    (submit_claim tc note windows base at_probe budget measured claimed)
    (fun reached => on_log (loop_inv base (from_option fst claimed reached))) (on_log (log_ok budget)).
Proof.
  unfold submit_claim. hkeep (loop_inv base claimed); [apply sleep_log|]. intros ?.
  eapply holds_bind; [apply load_log; auto|]. intros n. cbn zeta.
  set (target := delivery_target_from_probe_anchor base at_probe n budget).
  set (allowance := if aw_claim_interval windows =? 0 then _ else _).
  assert (allowance <= MAX_CLAIM_DELTA) as Ha
    by (subst allowance; destruct (aw_claim_interval windows =? 0); [done|apply allowance_bound]).
  set (next := Z.min target (saturating_add U128_MAX claimed allowance)).
  assert (next <= target /\ next <= claimed + allowance) as [Hn1 Hn2]
    by (subst next; unfold saturating_add; lia).
  destruct (Z.leb_spec next claimed); [apply holds_ret_log; by intros t (? & _)|].
  destruct (target_bounds base n) as [Hb1 Hb2]. fold target in Hb1, Hb2.
  eapply holds_bind.
  { eapply holds_pre; [apply (claim_log base claimed); lia|]. intros t (? & _ & -> & _). split; [done|lia]. }
  intros r. hkeep (claimed_log base claimed next r); [by apply holds_run|]. intros ?.
  eapply holds_bind; [apply settle_claim_log; lia|]. intros reached.
  apply holds_ret_log. by destruct reached.
Qed.

Lemma claim_loop_log fuel base measured claimed needs :
  holds (on_log (loop_inv base claimed))
    (claim_loop tc note windows fuel base at_probe budget measured claimed needs)
    (fun cn => on_log (loop_inv base (fst cn))) (on_log (log_ok budget)).
Proof.
  revert claimed needs. induction fuel as [|fuel IH]; intros claimed needs;
    [apply holds_fuel; intros w; apply loop_inv_log|].
  cbn [claim_loop]. cbn zeta. set (stop := ret (claimed, needs)).
  assert (holds (on_log (loop_inv base claimed)) stop
    (fun cn => on_log (loop_inv base (fst cn))) (on_log (log_ok budget))) as Hstop
    by by apply holds_ret_log.
  match goal with |- context [let! reached := submit_claim _ _ _ _ _ _ _ _ in @?k reached] =>
    set (submit := let! reached := submit_claim tc note windows base at_probe budget measured claimed in k reached) end.
  assert (holds (on_log (loop_inv base claimed)) submit
    (fun cn => on_log (loop_inv base (fst cn))) (on_log (log_ok budget))) as Hsubmit.
  { eapply holds_bind; [by apply submit_claim_log|]. intros [[c' moved]|]; [apply IH|exact Hstop]. }
  destruct (budget <=? claimed); [done|].
  hkeep (loop_inv base claimed);
    [eapply holds_fail; [apply deal_closed_observed_log|by apply loop_inv_log]|].
  intros []; [done|].
  hkeep (loop_inv base claimed);
    [eapply holds_post; [apply load_log; auto|by intros ? t [? _]]|]. intros n. cbn beta.
  destruct (_ <=? claimed); [|done].
  hkeep (loop_inv base claimed); [apply done_log|]. intros [].
  - hkeep (loop_inv base claimed);
      [eapply holds_post; [apply load_log; auto|by intros ? t [? _]]|]. intros m. cbn beta.
    by destruct (_ <=? claimed).
  - hkeep (loop_inv base claimed);
      [eapply holds_fail; [apply wait_claim_log|by apply loop_inv_log]|].
    intros []; [done|apply IH].
Qed.

Lemma finalize_log base claimed : holds (on_log (loop_inv base claimed)) (attempt (cb_finalize tc))
  (fun _ => on_log (loop_inv base claimed)) (on_log (log_ok budget)).
Proof.
  apply holds_attempt. intros w r w' Hw E. pose proof (noted_log _ _ _ _ _ E) as Ht.
  assert (on_log (loop_inv base claimed) w') as Hw'; [|destruct r; [done..|by eapply loop_inv_log]].
  destruct Hw as (? & ? & ? & ? & ?). unfold on_log. rewrite Ht. by split_and!.
Qed.

(** The run's answer against its log. *)
Definition answer_ok (c : Z) (t : list Event) : Prop :=
  log_ok budget t /\ (c = 0 \/ c = high_water t /\ c <= budget).
Lemma loop_answer base c t : loop_inv base c t -> answer_ok c t.
Proof. intros (? & _ & ? & ? & _). split; [done|]. right. by subst. Qed.
End Loop.

Lemma drive_log fuel ticks size finalize_last : budget = saturating_mul U128_MAX ticks size ->
  holds (on_log unprobed) (drive_advance_with_observer tc note windows fuel ticks size finalize_last)
    (fun c => on_log (answer_ok c)) (on_log (log_ok budget)).
Proof.
  intros Hb. unfold drive_advance_with_observer. rewrite <- Hb. cbn zeta.
  destruct (size <=? 0); [apply holds_panic; by intros w []|].
  assert (forall P, (forall t, P t -> log_ok budget t) ->
    holds (on_log P) (ret 0) (fun c => on_log (answer_ok c)) (on_log (log_ok budget))) as Hzero
    by (intros P HP; apply holds_ret_log; intros t Ht; split; [by apply HP|by left]).
  hkeep unprobed; [eapply holds_fail; [apply deal_closed_observed_log|apply unprobed_log]|]. intros []; [apply Hzero, unprobed_log|].
  hkeep unprobed; [eapply holds_fail; [eapply holds_post; [apply required_state_log; auto|by intros ? t [? _]]|apply unprobed_log]|].
  intros before.
  set (anchored p t := log_ok budget t /\ 0 <= p /\ probe_delivery t = p).
  hbind (fun p : option (Z * option Z) => on_log (fun t => log_ok budget t /\ from_option (fun p => anchored (fst p) t) True p)).
  { destruct (ds_probe_accepted before); [by apply holds_ret_log; intros t []|].
    eapply holds_bind; [apply drive_probe_log|]. intros d. apply holds_ret_log. by destruct d; intros t []. }
  intros [[at_probe measured]|]; [|apply Hzero; by intros t [? _]]. cbn [from_option fst].
  destruct (decide (0 <= at_probe)) as [Hp|Hp]; [|by intros w (_ & _ & ? & _)].
  eapply holds_bind.
  { eapply holds_pre; [eapply holds_fail; [apply (required_state_log (anchored at_probe)); by intros t s (? & ? & ?)|by intros t []]|by intros t [_ ?]]. }
  intros state. hbind (fun claimed => on_log (loop_inv at_probe claimed claimed)).
  { apply holds_outcome. intros w ((Hw & _ & Hd) & Hr & Hh).
    destruct (validated_claim_high_water state budget) as [c|e|] eqn:E; [|done..].
    unfold validated_claim_high_water in E. repeat case_match; simplify_eq. split_and!; try done. lia. }
  intros claimed. eapply holds_bind; [by apply claim_loop_log|]. intros [c needs]. cbn [fst].
  destruct (needs && finalize_last); [|apply holds_ret_log; intros t; apply loop_answer].
  hkeep (loop_inv at_probe claimed c); [apply sleep_log|]. intros ?.
  eapply holds_bind; [apply finalize_log|]. intros [[]|e|].
  - apply holds_ret_log. intros t. apply loop_answer.
  - hkeep (loop_inv at_probe claimed c);
      [eapply holds_fail; [apply deal_closed_observed_log|by apply loop_inv_log]|].
    intros []; [apply holds_ret_log; intros t; apply loop_answer|].
    apply holds_throw. intros w. apply loop_inv_log.
  - apply holds_panic. intros w. apply loop_inv_log.
Qed.
End Safety.

(** ** Logging changes nothing

    The logged run projects to the run of the driver itself. *)
Section Projection.
Context {W : Type} (B : ChainBackend W) (C : Clock W) (D : Delivery W) (O : ClaimStateObserver W).
Context (tc : TokenContract) (note : NotePubkey) (windows : AdvanceWindows).
Definition projects {A} (m : prog (@logged W) A) (m0 : prog W A) : Prop :=
  forall w, m0 (fst w) = (fst (m w), fst (snd (m w))).

Lemma projects_ret {A} (a : A) : projects (ret a) (ret a).
Proof. done. Qed.
Lemma projects_throw {A} e : projects (@throw _ A e) (throw e).
Proof. done. Qed.
Lemma projects_panic {A} : projects (@panic _ A) panic.
Proof. done. Qed.
Lemma projects_fuel {A} : projects (@out_of_fuel _ A) out_of_fuel.
Proof. done. Qed.
Lemma projects_bind {A A'} m m0 (k : A -> prog (@logged W) A') k0 :
  projects m m0 -> (forall a, projects (k a) (k0 a)) -> projects (bind m k) (bind m0 k0).
Proof.
  intros Hm Hk w. unfold bind. rewrite (Hm w). destruct (m w) as [[[a|e|]|] w']; try done. apply Hk.
Qed.
Lemma projects_get_plain {A} (f : W -> A * W) : projects (get (plain f)) (get f).
Proof. intros [w l]. unfold get, plain. simpl. by destruct (f w). Qed.
Lemma projects_get_noted {A} e (f : W -> A * W) : projects (get (noted e f)) (get f).
Proof. intros [w l]. unfold get, noted. simpl. by destruct (f w). Qed.
Lemma projects_now : projects (get (fun w : @logged W => (clock_now (fst w), w))) (get (fun w => (clock_now w, w))).
Proof. done. Qed.
Lemma projects_run f : projects (run (silent f)) (run f).
Proof. done. Qed.
Lemma projects_lift {A} (f : W -> outcome ChainError A * W) : projects (lift (plain f)) (lift f).
Proof. intros [w l]. unfold lift, plain. simpl. by destruct (f w). Qed.
Lemma projects_attempt {A} e (f : W -> outcome ChainError A * W) : projects (attempt (noted e f)) (attempt f).
Proof. intros [w l]. unfold attempt, noted. simpl. by destruct (f w) as [[] ?]. Qed.
Lemma projects_outcome {A} (r : outcome ChainError A) : projects (of_outcome r) (of_outcome r).
Proof. done. Qed.
Create HintDb projects.
Ltac project_call :=
  first [ apply projects_ret | apply projects_throw | apply projects_panic | apply projects_fuel
        | apply projects_outcome | apply projects_now | apply projects_run
        | apply projects_get_plain | apply projects_get_noted | apply projects_lift
        | apply projects_attempt ].
Ltac project :=
  repeat (first [ progress intros | project_call | solve [eauto with projects] | apply projects_bind
                | match goal with |- projects (match ?x with _ => _ end) _ => destruct x end ]).

#[local] Existing Instance logged_backend.
#[local] Existing Instance logged_clock.
#[local] Existing Instance logged_delivery.
#[local] Existing Instance logged_observer.
Lemma projects_required : projects (required_claim_state tc) (required_claim_state tc).
Proof. unfold required_claim_state. project. Qed.
Lemma projects_closed : projects (deal_closed tc) (deal_closed tc).
Proof. unfold deal_closed. project. Qed.
#[local] Hint Resolve projects_required projects_closed : projects.
Lemma projects_observed : projects (deal_closed_observed tc) (deal_closed_observed tc).
Proof. unfold deal_closed_observed. project. Qed.
#[local] Hint Resolve projects_observed : projects.
Lemma projects_wait fuel window :
  projects (wait_claim_or_closed tc fuel window) (wait_claim_or_closed tc fuel window).
Proof.
  unfold wait_claim_or_closed. project. generalize (a + window). intros d.
  induction fuel; simpl; project.
Qed.
#[local] Hint Resolve projects_wait : projects.
Lemma projects_first fuel :
  projects (wait_first_delivery tc windows fuel) (wait_first_delivery tc windows fuel).
Proof. induction fuel; [project|]. cbn [wait_first_delivery]. project. Qed.
#[local] Hint Resolve projects_first : projects.
Lemma projects_probe fuel before :
  projects (drive_probe tc windows fuel before) (drive_probe tc windows fuel before).
Proof. unfold drive_probe. project. Qed.
Lemma projects_settle next target budget r :
  projects (settle_claim tc next target budget r) (settle_claim tc next target budget r).
Proof. unfold settle_claim. project. Qed.
#[local] Hint Resolve projects_probe projects_settle : projects.
Lemma projects_submit base at_probe budget measured claimed :
  projects (submit_claim tc note windows base at_probe budget measured claimed)
    (submit_claim tc note windows base at_probe budget measured claimed).
Proof. unfold submit_claim. cbn zeta. project. Qed.
#[local] Hint Resolve projects_submit : projects.
Lemma projects_loop fuel base at_probe budget measured claimed needs :
  projects (claim_loop tc note windows fuel base at_probe budget measured claimed needs)
    (claim_loop tc note windows fuel base at_probe budget measured claimed needs).
Proof.
  revert claimed needs. induction fuel as [|fuel IH]; intros; [project|].
  cbn [claim_loop]. cbn zeta. project.
Qed.
#[local] Hint Resolve projects_loop : projects.
Lemma projects_drive fuel ticks size finalize_last :
  projects (drive_advance_with_observer tc note windows fuel ticks size finalize_last)
    (drive_advance_with_observer tc note windows fuel ticks size finalize_last).
Proof. unfold drive_advance_with_observer. cbn zeta. project. Qed.
End Projection.

(** C29: whatever the chain, the clock, the relay's counter and the observer do, the
    driver accepts a probe only after it saw a delivered token, and each claim it
    submits moves the high-water by at least one token and at most one tick, stays
    within the budget, and stays within what the chain had reported when the claims
    began plus what was delivered beyond the probe: the count at the moment of the
    claim less the count at the acceptance of the probe, of which at most one tick is
    the probe's.  A run that ends well answers nothing claimed or the high-water, which
    is within the budget. *)
Theorem advance_claims_are_backed {W} (B : ChainBackend W) (C : Clock W) (D : Delivery W)
    (O : ClaimStateObserver W) tc note windows fuel ticks size finalize_last w :
  (forall w, 0 <= fst (load_delivered w)) ->
  let budget := saturating_mul U128_MAX ticks size in
  exists log,
    drive_advance_with_observer (H := logged_backend B) (H0 := logged_clock C) (H1 := logged_delivery D)
      (H2 := logged_observer O) tc note windows fuel ticks size finalize_last (w, []) =
      (fst (drive_advance_with_observer tc note windows fuel ticks size finalize_last w),
       (snd (drive_advance_with_observer tc note windows fuel ticks size finalize_last w), log)) /\
    log_ok budget log /\
    forall c, fst (drive_advance_with_observer tc note windows fuel ticks size finalize_last w) = Some (Ok c) ->
      c = 0 \/ c = high_water log /\ c <= budget.
Proof.
  intros Hload budget.
  pose proof (drive_log B C D O Hload tc note windows budget fuel ticks size finalize_last eq_refl (w, []) (conj I eq_refl)) as Hd.
  pose proof (projects_drive B C D O tc note windows fuel ticks size finalize_last (w, [])) as Hp.
  match goal with |- exists log, ?m = _ /\ _ => destruct m as [r [w' log]] end.
  simpl in Hp. rewrite Hp. exists log. split; [done|].
  destruct r as [[c|e|]|]; simpl in *; [|by (split; [done|congruence])..].
  destruct Hd as [Hok Hc]. split; [done|]. intros c' Hc'. by simplify_eq.
Qed.

(** ** Termination

    Once the relay is done its counter stands still; then every turn of the loop
    ends it or raises the high-water by the allowance. *)
Definition ends {W A} (m : prog W A) (Q : A -> Prop) : Prop :=
  forall w, match m w with (None, _) => False | (Some (Ok a), _) => Q a | _ => True end.

Section Ends.
Context {W : Type}.
Lemma ends_ret {A} (a : A) (Q : A -> Prop) : Q a -> ends (W := W) (ret a) Q.
Proof. by intros H w. Qed.
Lemma ends_throw {A} e (Q : A -> Prop) : ends (W := W) (throw e) Q.
Proof. done. Qed.
Lemma ends_panic {A} (Q : A -> Prop) : ends (W := W) panic Q.
Proof. done. Qed.
Lemma ends_bind {A A'} (m : prog W A) (k : A -> prog W A') P Q :
  ends m P -> (forall a, P a -> ends (k a) Q) -> ends (bind m k) Q.
Proof.
  intros Hm Hk w. specialize (Hm w). unfold bind. destruct (m w) as [[[a|e|]|] w']; try done. by apply Hk.
Qed.
Lemma ends_call {A A'} (m : prog W A) (k : A -> prog W A') Q :
  ends m (fun _ => True) -> (forall a, ends (k a) Q) -> ends (bind m k) Q.
Proof. intros Hm Hk. eapply ends_bind; [exact Hm|auto]. Qed.
Lemma ends_get {A} (f : W -> A * W) (Q : A -> Prop) : (forall w, Q (fst (f w))) -> ends (get f) Q.
Proof. intros H w. specialize (H w). unfold get. by destruct (f w). Qed.
Lemma ends_lift {A} (f : W -> outcome ChainError A * W) : ends (lift f) (fun _ => True).
Proof. intros w. unfold lift. by destruct (f w) as [[] ?]. Qed.
Lemma ends_attempt {A} (f : W -> outcome ChainError A * W) : ends (attempt f) (fun _ => True).
Proof. intros w. unfold attempt. by destruct (f w) as [[] ?]. Qed.
Lemma ends_run (f : W -> W) : ends (run f) (fun _ => True).
Proof. done. Qed.
Lemma ends_outcome {A} (r : outcome ChainError A) : ends (W := W) (of_outcome r) (fun a => r = Ok a).
Proof. intros w. by destruct r. Qed.
End Ends.

Section Terminates.
Context {W : Type} (B : ChainBackend W) (C : Clock W) (D : Delivery W) (O : ClaimStateObserver W).
Context (tc : TokenContract) (note : NotePubkey) (windows : AdvanceWindows) (n : Z).
Context (Hn : forall w, fst (load_delivered w) = n) (Hdone : forall w, fst (load_done w) = true).

Ltac ending :=
  repeat first [ progress intros
               | apply ends_throw | apply ends_panic | apply ends_lift | apply ends_attempt | apply ends_run
               | by apply ends_ret | by apply ends_get | apply ends_call
               | match goal with |- ends (match ?x with _ => _ end) _ => destruct x end ].
Lemma closed_ends : ends (deal_closed tc) (fun _ => True).
Proof. unfold deal_closed. ending. Qed.
Lemma observed_ends : ends (deal_closed_observed tc) (fun _ => True).
Proof. apply ends_call; [apply closed_ends|]. ending. Qed.
Lemma required_ends : ends (required_claim_state tc) (fun _ => True).
Proof. unfold required_claim_state. ending. Qed.

(** The allowance of one claim, and the delivery target. *)
Definition allowance : Z :=
  if aw_claim_interval windows =? 0 then MAX_CLAIM_DELTA
  else windows_max_claim_delta windows (aw_claim_interval windows).

Lemma settle_ends next target budget r : next <= budget ->
  ends (settle_claim tc next target budget r) (fun c => from_option (fun c => next <= c <= budget) True c).
Proof.
  intros Hb. unfold settle_claim.
  assert (forall e, ends (let! closed := deal_closed_observed tc in if closed : bool then ret None else throw e)
    (fun c => from_option (fun c => next <= c <= budget) True c)) as Hother.
  { intros e. apply ends_call; [apply observed_ends|]. intros []; [by apply ends_ret|apply ends_throw]. }
  destruct r as [u|e|]; [apply ends_ret; simpl; lia| |apply ends_panic].
  destruct e; try apply Hother; [by apply ends_ret|].
  destruct (_ || _) eqn:Eg; [apply ends_throw|]. apply ends_ret. simpl. lia.
Qed.

Context (budget base at_probe : Z).
Definition target : Z := delivery_target_from_probe_anchor base at_probe n budget.
(** A turn that submits when tokens are outstanding moves by the allowance, to the
    target, or ends. *)
Lemma submit_ends measured claimed : 0 < allowance -> claimed < target -> target <= budget -> budget <= U128_MAX ->
  ends (submit_claim tc note windows base at_probe budget measured claimed)
    (fun reached => from_option (fun cm => Z.min target (claimed + allowance) <= fst cm <= budget) True reached).
Proof.
  intros Ha Hc Ht Hb. unfold submit_claim. fold allowance.
  apply ends_call; [apply ends_run|]. intros ?.
  eapply ends_bind; [apply (ends_get _ (fun m => m = n)); exact Hn|]. intros ? ->. fold target. cbn zeta.
  set (next := Z.min target (saturating_add U128_MAX claimed allowance)).
  assert (next = Z.min target (claimed + allowance)) as Hnext by (subst next; unfold saturating_add; lia).
  destruct (Z.leb_spec next claimed); [lia|].
  apply ends_call; [apply ends_attempt|]. intros r. apply ends_call; [apply ends_run|]. intros ?.
  eapply ends_bind; [apply (settle_ends next target budget); lia|]. intros [c|] Hreach; apply ends_ret; simpl in *; [lia|done].
Qed.

Lemma claim_loop_ends fuel measured claimed needs : 0 < allowance -> target <= budget -> budget <= U128_MAX ->
  target - claimed <= (Z.of_nat fuel - 1) * allowance -> (0 < fuel)%nat ->
  ends (claim_loop tc note windows fuel base at_probe budget measured claimed needs) (fun _ => True).
Proof.
  intros Ha Ht Hb. revert claimed needs. induction fuel as [|fuel IH]; intros claimed needs Hf Hpos; [lia|].
  cbn [claim_loop]. cbn zeta.
  destruct (budget <=? claimed); [by apply ends_ret|].
  apply ends_call; [apply observed_ends|]. intros []; [by apply ends_ret|].
  eapply ends_bind; [apply (ends_get _ (fun m => m = n)); exact Hn|]. intros ? ->. fold target.
  destruct (Z.leb_spec target claimed).
  - eapply ends_bind; [apply (ends_get _ (fun b => b = true)); exact Hdone|]. intros ? ->.
    eapply ends_bind; [apply (ends_get _ (fun m => m = n)); exact Hn|]. intros ? ->. fold target.
    destruct (Z.leb_spec target claimed); [by apply ends_ret|lia].
  - eapply ends_bind; [by apply submit_ends|]. intros [[c moved]|] Hc; [|by apply ends_ret].
    simpl in Hc. rewrite Nat2Z.inj_succ in Hf.
    assert (0 < Z.of_nat fuel) as Hf0 by nia.
    assert (0 <= (Z.of_nat fuel - 1) * allowance) by (apply Z.mul_nonneg_nonneg; lia).
    apply IH; lia.
Qed.
End Terminates.

Section Drive.
Context {W : Type} (B : ChainBackend W) (C : Clock W) (D : Delivery W) (O : ClaimStateObserver W).
Context (tc : TokenContract) (note : NotePubkey) (windows : AdvanceWindows) (n : Z).
Context (Hn : forall w, fst (load_delivered w) = n) (Hdone : forall w, fst (load_done w) = true).

Lemma first_ends fuel : (0 < fuel)%nat -> ends (wait_first_delivery tc windows fuel) (fun _ => True).
Proof.
  destruct fuel as [|fuel]; [lia|]. intros _. cbn [wait_first_delivery].
  eapply ends_bind; [apply (ends_get _ (fun m => m = n)); exact Hn|]. intros ? ->.
  destruct (0 <? n); [by apply ends_ret|].
  eapply ends_bind; [apply (ends_get _ (fun b => b = true)); exact Hdone|]. intros ? ->.
  apply ends_call; [by apply ends_get|]. intros m. by apply ends_ret.
Qed.
Lemma probe_ends fuel before : (0 < fuel)%nat -> ends (drive_probe tc windows fuel before) (fun _ => True).
Proof.
  intros Hf. unfold drive_probe. destruct (_ || _); [apply ends_throw|].
  apply ends_call; [apply ends_run|]. intros ?.
  apply ends_call; [apply observed_ends|]. intros []; [by apply ends_ret|].
  apply ends_call; [by apply first_ends|]. intros []; [|by apply ends_ret].
  apply ends_call; [by apply ends_get|]. intros m. cbn zeta.
  apply ends_call; [apply ends_run|]. intros ?.
  apply ends_call; [apply ends_attempt|]. intros accepted.
  apply ends_call; [apply required_ends|]. intros after.
  destruct (negb _); [|by apply ends_ret].
  apply ends_call; [apply observed_ends|]. intros []; [by apply ends_ret|].
  by destruct accepted.
Qed.

Lemma validated_range state budget c :
  validated_claim_high_water state budget = Ok c -> 0 < c <= budget.
Proof.
  unfold validated_claim_high_water, TICK_SIZE. intros E. repeat case_match; simplify_eq. lia.
Qed.

Lemma drive_ends fuel ticks size finalize_last :
  0 < allowance windows ->
  saturating_mul U128_MAX ticks size <= (Z.of_nat fuel - 1) * allowance windows -> (0 < fuel)%nat ->
  ends (drive_advance_with_observer tc note windows fuel ticks size finalize_last) (fun _ => True).
Proof.
  intros Ha Hfuel Hf. unfold drive_advance_with_observer. cbn zeta.
  destruct (size <=? 0); [apply ends_panic|].
  apply ends_call; [apply observed_ends|]. intros []; [by apply ends_ret|].
  apply ends_call; [apply required_ends|]. intros before.
  apply ends_call.
  { destruct (ds_probe_accepted before); [by apply ends_ret|].
    apply ends_call; [by apply probe_ends|]. intros d. by apply ends_ret. }
  intros [[at_probe measured]|]; [|by apply ends_ret].
  apply ends_call; [apply required_ends|]. intros state.
  eapply ends_bind; [apply ends_outcome|]. intros claimed Hc%validated_range.
  apply ends_call.
  { assert (target n (saturating_mul U128_MAX ticks size) claimed at_probe <= saturating_mul U128_MAX ticks size)
      by (unfold target, delivery_target_from_probe_anchor; lia).
    apply (claim_loop_ends _ _ _ _ _ _ _ n Hn Hdone); [done|done|unfold saturating_mul; lia|lia|done]. }
  intros [c needs]. destruct (needs && finalize_last); [|by apply ends_ret].
  apply ends_call; [apply ends_run|]. intros ?. apply ends_call; [apply ends_attempt|].
  intros [u|e|]; [by apply ends_ret| |apply ends_panic].
  apply ends_call; [apply observed_ends|]. intros []; [by apply ends_ret|apply ends_throw].
Qed.
End Drive.

(** On any chain, once the relay is done and its counter stands still, the driver
    ends after at most one turn per claim allowance of its budget, with a result, an
    error or a panic. *)
Theorem advance_terminates {W} (B : ChainBackend W) (C : Clock W) (D : Delivery W)
    (O : ClaimStateObserver W) tc note windows n fuel ticks size finalize_last w :
  (forall w, fst (load_delivered w) = n) -> (forall w, fst (load_done w) = true) ->
  0 <= ticks -> 0 <= size -> 0 < allowance windows ->
  saturating_mul U128_MAX ticks size / allowance windows + 2 <= Z.of_nat fuel ->
  exists r, fst (drive_advance_with_observer tc note windows fuel ticks size finalize_last w) = Some r.
Proof.
  intros Hn Hdone Ht Hs Ha Hfuel. set (b := saturating_mul U128_MAX ticks size) in *.
  assert (0 <= b) as Hb0 by (subst b; unfold saturating_mul, U128_MAX; nia).
  pose proof (Z.div_mod b (allowance windows)) as Hdm. pose proof (Z.mod_pos_bound b (allowance windows) Ha).
  pose proof (Z.div_pos b (allowance windows) Hb0 Ha).
  assert (b <= (Z.of_nat fuel - 1) * allowance windows) as Hb by nia.
  assert (0 < fuel)%nat as Hf by lia.
  pose proof (drive_ends B C D O tc note windows n Hn Hdone fuel ticks size finalize_last Ha Hb Hf w) as He.
  destruct (drive_advance_with_observer tc note windows fuel ticks size finalize_last w) as [[r|] w']; [by exists r|done].
Qed.
