(* ===== verification/Keeper.v ===== *)
(** * Keeper: the subscription settlement keeper (crates/dexdo/src/seller/keeper.rs)

    The keeper promotes mature claims and advances the weekly clock.  Every
    decision is made from a fresh read, every write is preceded and followed by
    one, and a read that contradicts the last accepted one stops the loop.
    Durations are whole seconds.  [&mut cursor] is an extra result; an error ends
    the loop, so the cursor of a failed step is never read. *)
From S2P Require Import Prelude Text Params MarketTypes Machine MockDeal MockMarket Backend.

Record KeeperSnapshot : Type := mkKeeperSnapshot {
  ks_deal : DealChainState;
  ks_subscription : DealSubscription
}.
Definition keeper_snapshot_from (s : DealChainSnapshot) : KeeperSnapshot :=
  mkKeeperSnapshot (sn_state s) (sn_subscription s).

Inductive KeeperPlan : Type :=
| PlanNotSubscription
| PlanTerminal
| PlanWait (delay : Z)
| PlanFinalize
| PlanSettleWeek (target : Z).
Inductive KeeperStep : Type :=
| StepNotSubscription
| StepTerminal (tokens_final : Z)
| StepWait (delay : Z)
| StepProgress.

(** ** Validation *)
Definition malformed (reason : string) : ChainError :=
  Chain (String.append "malformed subscription keeper state: " reason).

Definition validate_subscription (deal : DealChainState) (sub : DealSubscription)
    : outcome ChainError unit :=
  fail_if sub_weeks sub <? week_index sub with malformed "weekIndex exceeds subWeeks" in
  fail_if funded_tokens sub <? ds_tokens_pending deal
    with malformed "tokensPending exceeds fundedTokens" in
  fail_if negb (is_stopped deal) && (ds_tokens_pending deal <? week_base_tokens sub)
    with malformed "weekBaseTokens exceeds tokensPending" in
  if ds_opened deal && ds_probe_accepted deal then
    fail_if (ds_tokens_final deal <? TICK_SIZE) || (tokens_paid sub <? TICK_SIZE)
      with malformed "accepted subscription is below the canonical probe high-water" in
    fail_if period_start sub =? 0 with malformed "accepted subscription has periodStart=0" in
    fail_if ds_last_claim_time deal =? 0 with malformed "accepted subscription has lastClaimTime=0" in
    Ok tt
  else Ok tt.
Definition validate_snapshot (s : KeeperSnapshot) : outcome ChainError unit :=
  let deal := ks_deal s in
  fail_if ds_tokens_pending deal <? ds_tokens_final deal with malformed "claim pipeline regressed" in
  fail_if ds_opened deal && negb (ds_funded deal) with malformed "opened=true with funded=false" in
  if is_subscription (ks_subscription s) then validate_subscription deal (ks_subscription s)
  else Ok tt.

(** ** Deadlines *)
Definition checked_deadline (anchor duration : Z) : outcome ChainError Z :=
  ok_or (u64_checked_add anchor duration) (Chain "deadline overflows unix seconds").

Definition next_week_boundary (sub : DealSubscription) : outcome ChainError Z :=
  let* next_week := ok_or (u64_checked_add (week_index sub) 1) (Chain "weekIndex increment overflow") in
  let* offset := ok_or (checked_mul U64_MAX SUB_WEEK_LEN next_week)
    (Chain "subscription week offset overflow") in
  ok_or (u64_checked_add (period_start sub) offset)
    (Chain "periodStart + subscription week offset overflows").

Definition scheduled_week_target (sub : DealSubscription) (now : Z) : outcome ChainError Z :=
  let* elapsed := ok_or (checked_sub now (period_start sub))
    (Chain "current time precedes subscription periodStart") in
  let target := Z.min (elapsed / SUB_WEEK_LEN) (sub_weeks sub) in
  let* target := ok_or (try_from U8_MAX target)
    (Chain "scheduled subscription week target does not fit uint8") in
  fail_if target <=? week_index sub
    with Chain "due settleWeek did not advance its scheduled target" in
  Ok target.

(** ** The plan *)

(** [cond.then(f).transpose()?]. *)
Definition then_try {A} (cond : bool) (f : outcome ChainError A) : outcome ChainError (option A) :=
  if cond then (let* a := f in Ok (Some a)) else Ok None.
Definition is_due (deadline : option Z) (now : Z) : bool := from_option (fun d => d <=? now) false deadline.
(** The shortest of the idle delay and the deadlines still ahead. *)
Definition shorten (now delay : Z) (deadline : option Z) : Z :=
  match deadline with
  | Some d => if now <? d then Z.min delay (d - now) else delay
  | None => delay
  end.

Definition plan_live (deal : DealChainState) (sub : DealSubscription) (idle promote now : Z)
    : outcome ChainError KeeperPlan :=
  fail_if promote =? 0 with Chain "derived CLAIM_PROMOTE_WINDOW is zero" in
  let* last_deadline := then_try (ds_tokens_final deal <? ds_tokens_pending deal)
    (checked_deadline (ds_last_claim_time deal) promote) in
  if is_due last_deadline now then Ok PlanFinalize
  else
    let* next_boundary := then_try (week_index sub <? sub_weeks sub) (next_week_boundary sub) in
    if is_due next_boundary now then
      let* target := scheduled_week_target sub now in Ok (PlanSettleWeek target)
    else
      let* final_close_deadline := then_try (week_index sub =? sub_weeks sub)
        (checked_deadline (ds_last_claim_time deal) promote) in
      if is_due final_close_deadline now && (ds_tokens_final deal =? ds_tokens_pending deal)
      then Ok (PlanSettleWeek (sub_weeks sub))
      else Ok (PlanWait (foldl (shorten now) idle [last_deadline; next_boundary; final_close_deadline])).

Definition plan (s : KeeperSnapshot) (bounds : ClaimBounds) (now : Z) : outcome ChainError KeeperPlan :=
  let* _ := validate_snapshot s in
  let deal := ks_deal s in
  let sub := ks_subscription s in
  if negb (is_subscription sub) then Ok PlanNotSubscription
  else if is_stopped deal then Ok PlanTerminal
  else
    let idle := cbd_min_claim_interval bounds in
    fail_if idle =? 0 with Chain "getConfig().minClaimInterval is zero; refusing a busy keeper loop" in
    if negb (ds_opened deal) || negb (ds_probe_accepted deal) || ds_disputed deal then Ok (PlanWait idle)
    else plan_live deal sub idle (cbd_promote_window bounds) now.

(** ** Accepted reads *)
Definition ensure_non_regressing_transition (before after : KeeperSnapshot) : outcome ChainError unit :=
  let b := ks_deal before in
  let a := ks_deal after in
  let sb := ks_subscription before in
  let sa := ks_subscription after in
  let terminal_transition := negb (is_stopped b) && is_stopped a in
  let accepted_probe_now := negb (ds_probe_accepted b) && ds_probe_accepted a in
  fail_if (ds_tokens_final a <? ds_tokens_final b)
      || (negb terminal_transition && (ds_tokens_pending a <? ds_tokens_pending b))
      || (ds_last_claim_time a <? ds_last_claim_time b)
      || (ds_probe_accepted b && negb (ds_probe_accepted a))
      || (week_index sa <? week_index sb)
      || (tokens_paid sa <? tokens_paid sb)
      || (week_base_tokens sa <? week_base_tokens sb)
      || (period_start sa <? period_start sb)
    with Chain "keeper observed regressing accepted state" in
  fail_if negb (deal_flags sa =? deal_flags sb) with Chain "immutable subscription field dealFlags changed" in
  fail_if negb (sub_weeks sa =? sub_weeks sb) with Chain "immutable subscription field subWeeks changed" in
  fail_if negb (tokens_per_week sa =? tokens_per_week sb)
    with Chain "immutable subscription field tokensPerWeek changed" in
  fail_if negb (funded_tokens sa =? funded_tokens sb)
    with Chain "immutable subscription field fundedTokens changed" in
  fail_if negb (period_start sa =? period_start sb) && negb accepted_probe_now
    with Chain "immutable subscription field periodStart changed" in
  Ok tt.

Record KeeperCursor : Type := mkKeeperCursor { last_accepted : option KeeperSnapshot }.
Definition keeper_cursor_default : KeeperCursor := mkKeeperCursor None.
Definition cursor_accept (cursor : KeeperCursor) (s : KeeperSnapshot) : outcome ChainError KeeperCursor :=
  let* _ := validate_snapshot s in
  let* _ := (match last_accepted cursor with
             | Some previous => ensure_non_regressing_transition previous s
             | None => Ok tt
             end) in
  Ok (mkKeeperCursor (Some s)).
Definition terminal_tokens_final (cursor : KeeperCursor) : option Z :=
  (fun s => ds_tokens_final (ks_deal s)) <$> last_accepted cursor.

(** What the read after a write proves of it. *)
Definition reconcile_write (bounds : ClaimBounds) (action : KeeperPlan) (before : KeeperSnapshot)
    (after : option KeeperSnapshot) (submit : outcome ChainError unit) : outcome ChainError KeeperStep :=
  match after with
  | None => Ok (StepTerminal (ds_tokens_final (ks_deal before)))
  | Some after =>
      let* _ := validate_snapshot after in
      if is_stopped (ks_deal after) then Ok (StepTerminal (ds_tokens_final (ks_deal after)))
      else if ds_disputed (ks_deal after) then Ok (StepWait (cbd_min_claim_interval bounds))
      else
        let* _ := ensure_non_regressing_transition before after in
        let applied :=
          match action with
          | PlanFinalize => ds_tokens_final (ks_deal before) <? ds_tokens_final (ks_deal after)
          | PlanSettleWeek target =>
              if week_index (ks_subscription before) <? sub_weeks (ks_subscription before)
              then week_index (ks_subscription after) =? target else false
          | _ => false
          end in
        if applied then Ok StepProgress
        else match action, submit with
             | PlanSettleWeek _, _ => Err (Chain "settleWeek expected exact scheduled weekIndex or terminal state")
             | _, Err _ => Err (Chain "action failed and strict state did not advance")
             | _, _ => Err (Chain "action returned success without a strict state transition")
             end
  end.

(** ** The loop *)
Class KeeperClock (W : Type) : Type := {
  now_unix : W -> outcome ChainError Z * W;
  keeper_sleep : Z -> W -> W
}.
Class SubscriptionKeeperObserver (W : Type) : Type := {
  keeper_observe : TokenContract -> option DealChainSnapshot -> W -> outcome ChainError unit * W
}.
(** [impl SubscriptionKeeperObserver for ()]. *)
Definition unit_keeper_observer (W : Type) : SubscriptionKeeperObserver W := {|
  keeper_observe _ _ w := (Ok tt, w) |}.

Section Keeper.
Context {W : Type} `{ChainBackend W} `{KeeperClock W} `{SubscriptionKeeperObserver W}.
Context (tc : TokenContract) (bounds : ClaimBounds).

Definition read_accepted_snapshot (cursor : KeeperCursor) : prog W (option KeeperSnapshot * KeeperCursor) :=
  let! found := lift (cb_deal_snapshot tc) in
  match found with
  | Some s =>
      let! cursor := of_outcome (cursor_accept cursor (keeper_snapshot_from s)) in
      lift (keeper_observe tc (Some s)) >>!
      ret (Some (keeper_snapshot_from s), cursor)
  | None => ret (None, cursor)
  end.

(** The plan as a step, [None] when there is something to write. *)
Definition step_of_plan (s : KeeperSnapshot) (p : KeeperPlan) : option KeeperStep :=
  match p with
  | PlanNotSubscription => Some StepNotSubscription
  | PlanTerminal => Some (StepTerminal (ds_tokens_final (ks_deal s)))
  | PlanWait delay => Some (StepWait delay)
  | PlanFinalize | PlanSettleWeek _ => None
  end.

(** From the read before the write to the reconciled step. *)
Definition write_and_reconcile (action : KeeperPlan) (pre_write : KeeperSnapshot) (cursor : KeeperCursor)
    : prog W (KeeperStep * KeeperCursor) :=
  let! submit := attempt (match action with
                          | PlanFinalize => cb_finalize tc
                          | _ => cb_settle_week tc
                          end) in
  let! ' (post_write, cursor) := read_accepted_snapshot cursor in
  (match post_write with None => lift (keeper_observe tc None) | Some _ => ret tt end) >>!
  let! step := of_outcome (reconcile_write bounds action pre_write post_write submit) in
  ret (step, cursor).

Definition keeper_step (now : Z) (cursor : KeeperCursor) : prog W (KeeperStep * KeeperCursor) :=
  let! ' (observed, cursor) := read_accepted_snapshot cursor in
  match observed with
  | None =>
      match terminal_tokens_final cursor with
      | Some tokens_final => lift (keeper_observe tc None) >>! ret (StepTerminal tokens_final, cursor)
      | None => throw (Chain "keeper getters returned no data before a live subscription was established")
      end
  | Some observed =>
      let! scheduled := of_outcome (plan observed bounds now) in
      match step_of_plan observed scheduled with
      | Some step => ret (step, cursor)
      | None =>
          let! ' (pre_write, cursor) := read_accepted_snapshot cursor in
          match pre_write with
          | None =>
              lift (keeper_observe tc None) >>!
              ret (StepTerminal (ds_tokens_final (ks_deal observed)), cursor)
          | Some pre_write =>
              let! action := of_outcome (plan pre_write bounds now) in
              match step_of_plan pre_write action with
              | Some step => ret (step, cursor)
              | None => write_and_reconcile action pre_write cursor
              end
          end
      end
  end.

Fixpoint keeper_loop (fuel : nat) (cursor : KeeperCursor) : prog W Z :=
  match fuel with
  | O => out_of_fuel
  | S fuel =>
      let! now := lift now_unix in
      let! ' (step, cursor) := keeper_step now cursor in
      match step with
      | StepNotSubscription => throw (Chain "subscription keeper was started for an ordinary deal")
      | StepTerminal tokens_final => ret tokens_final
      | StepProgress => keeper_loop fuel cursor
      | StepWait delay => run (keeper_sleep delay) >>! keeper_loop fuel cursor
      end
  end.
Definition drive_subscription_keeper_with_observer (fuel : nat) : prog W Z :=
  keeper_loop fuel keeper_cursor_default.
End Keeper.

Definition drive_subscription_keeper {W : Type} `{ChainBackend W} `{KeeperClock W} tc bounds :=
  drive_subscription_keeper_with_observer (H1 := unit_keeper_observer W) tc bounds.

(** The clock of the offline market. *)
#[export] Instance MockKeeperClock : KeeperClock MockWorld := {|
  now_unix w := (Ok (mw_now w), w);
  keeper_sleep d w := mkMockWorld (mw_files w) (mw_now w + d) |}.
