(* ===== verification/KeeperDeal.v ===== *)
(** * KeeperDeal: the permissionless writes on a live subscription

    When a claim is due the promotion succeeds, and when a week boundary or the
    end of the term has passed the weekly settlement succeeds; both results are
    stated as far as the keeper looks at them. *)
From S2P Require Import Prelude Params Settle MarketTypes Machine MockDeal MockDealInv MockDealOps MockDealLive.
From S2P Require Import Text Address Conservation Accounting Quote MockMarket MockInvariant MockReach MockLife MockSafety MockReads.

Section KeeperDeal.
Context (consts : ProtocolConsts) (Hsane : consts_sane consts).
Implicit Types (c : StreamCell) (s : DealSubscription).
Let Hc : consts_typed consts := proj1 Hsane.

(** Pay the trusted tokens, then close: the tail of a settlement. *)
Lemma pay_close_total c s :
  deal_shape consts c s -> stream_books consts c s -> c_probe_accepted c = true ->
  deal_value consts c s <= U128_MAX ->
  exists c1 d r c',
    (if tokens_paid s <? c_tokens_final c then credit_tokens_through consts c s (c_tokens_final c)
     else Ok (c, s)) = Ok (c1, set_tokens_paid (Z.max (tokens_paid s) (c_tokens_final c)) s) /\
    delivered_ticks c1 = Ok d /\ close_mock_clean consts c1 d = Ok (r, c') /\
    same_run c c1 /\ closed_from c1 c' /\ c_disputed c' = c_disputed c.
Proof.
  intros Hs Hb Hacc Hv. destruct (stream_books_total consts Hc c s Hs Hb) as [Ha Ht].
  pose proof Hs as []. pose proof Hb as [].
  destruct (cost_of_mono consts Hc (c_tokens_final c) (funded_tokens s) (cprice c)) as (_ & _ & M); [lia..|].
  set (paid := Z.max (tokens_paid s) (c_tokens_final c)).
  assert (exists c1, (if tokens_paid s <? c_tokens_final c then credit_tokens_through consts c s (c_tokens_final c)
     else Ok (c, s)) = Ok (c1, set_tokens_paid paid s) /\ deal_shape consts c1 (set_tokens_paid paid s) /\
     amounts_ok c1 /\ total c1 = total c /\ same_run c c1) as (c1 & E1 & Hs1 & Ha1 & Ht1 & Run).
  { unfold paid. destruct (Z.ltb_spec (tokens_paid s) (c_tokens_final c)) as [Hlt|Hge].
    - pose proof (credit_through_total consts Hsane c s (c_tokens_final c) Hs Ha ltac:(lia) ltac:(lia) ltac:(lia)) as E.
      destruct (credit_keeps consts Hc _ _ _ _ _ Hs Ha E) as (? & ? & ? & _ & ? & _).
      rewrite Z.max_r by lia. eauto 10.
    - exists c. rewrite Z.max_l by lia. by destruct s. }
  destruct (delivered_total consts c1 _ Hs1) as (d & Ed & Hd). pose proof Run as [M1 _ _ _ (_ & T1 & _)].
  assert (cprice c1 = cprice c) as Hp by (unfold cprice; by rewrite M1).
  assert (d * cprice c <= cost_of consts (funded_tokens s) (cprice c)).
  { rewrite <- pay_of_tick. destruct (cost_of_mono consts Hc (d * TICK_SIZE) (funded_tokens s) (cprice c))
      as (P & _ & _); [rewrite sh_funded; rewrite T1 in *; unfold TICK_SIZE in *; lia|lia|].
    pose proof (fee_of_nonneg consts Hc (funded_tokens s) (cprice c)). unfold cost_of in *. lia. }
  destruct (close_clean_total consts Hsane c1 d) as (r & c' & Ecl); try done; rewrite ?Hp; try lia.
  exists c1, d, r, c'. destruct Run as [R1 (R2 & R3 & R4) R5 R6 R7].
  pose proof (close_clean_inv consts Hc c1 d r c' ltac:(lia) ltac:(lia) Ha1 Ecl) as (? & ? & _).
  split_and!; try done. congruence.
Qed.

(** The promotion of the machine of a streaming deal. *)
Lemma promote_machine_total c s : deal_shape consts c s -> machine_synced c -> streaming_flags c ->
  exists m, machine_err (on_promote (c_machine c)) = Ok m.
Proof.
  intros [] Hm (_ & Hd & _). unfold machine_synced in Hm. rewrite Hd in Hm. unfold on_promote. rewrite Hm. simpl.
  unfold check_invariant. simpl. rewrite Z.ltb_irrefl. simpl. eauto.
Qed.

(** A due promotion, with the machine's. *)
Lemma promote_sync_total c s t :
  deal_shape consts c s -> stream_books consts c s -> machine_synced c -> streaming_flags c ->
  c_last_claim_time c + claim_promote_window consts <= t -> t <= U64_MAX ->
  exists c1 c2, promote_due consts c t = Ok c1 /\
    (if c_tokens_final c1 =? c_tokens_pending c1
     then let* m := machine_err (on_promote (c_machine c1)) in Ok (set_machine m c1)
     else Ok c1) = Ok c2 /\
    c_tokens_final c2 = c_tokens_pending c /\ c_tokens_pending c2 = c_tokens_pending c /\
    c_last_claim_time c2 = c_last_claim_time c /\ streaming_flags c2 /\
    deal_shape consts c2 s /\ stream_books consts c2 s /\ deal_frame c s c2 s.
Proof.
  intros Hs Hb Hm Hfl Hdue Hu. pose proof Hs as [].
  destruct (promote_due_total consts c t ltac:(lia) ltac:(lia)) as (c1 & E1 & F1).
  unfold trusted_at in F1. rewrite (proj2 (Z.leb_le _ _)) in F1 by done.
  destruct (promote_keeps consts c s t c1 Hs Hb E1) as (_ & _ & _ & M1 & _ & _ & _ & P1 & _ & _).
  destruct (promote_machine_total c s Hs Hm Hfl) as [m Em].
  assert (c_last_claim_time c1 = c_last_claim_time c) as L1
    by (by destruct (promote_due_inv consts c t c1) as [->| ->]; [lia|..]).
  assert ((if c_tokens_final c1 =? c_tokens_pending c1
     then let* m := machine_err (on_promote (c_machine c1)) in Ok (set_machine m c1)
     else Ok c1) = Ok (set_machine m c1)) as E2.
  { rewrite F1, P1, Z.eqb_refl, M1, Em. done. }
  destruct (promote_sync consts c s t c1 _ Hs Hb Hm Hfl E1 E2) as (? & ? & _ & ? & ? & _).
  exists c1, (set_machine m c1). by split_and!.
Qed.

Lemma streaming_unguard c : streaming_flags c ->
  c_closed c || c_disputed c || negb (c_probe_accepted c) = false.
Proof. by intros (-> & -> & ->). Qed.

Lemma finalize_total c s t0 t :
  deal_inv consts c s t0 -> streaming_flags c -> is_subscription s = true ->
  c_tokens_final c < c_tokens_pending c ->
  c_last_claim_time c + claim_promote_window consts <= t -> t <= U64_MAX ->
  exists c', finalize_deal consts c s t = Ok (c', s) /\ streaming_flags c' /\
    c_tokens_final c' = c_tokens_pending c /\ c_tokens_pending c' = c_tokens_pending c /\
    c_last_claim_time c' = c_last_claim_time c.
Proof.
  intros Hi Hfl Hsub Hp Hdue Hu. destruct (streaming_phase consts c s t0 Hi Hfl) as (Hs & Hb & Hm & _).
  destruct (promote_sync_total c s t Hs Hb Hm Hfl Hdue Hu) as (c1 & c2 & E1 & E2 & F1 & F2 & F3 & Hfl2 & _).
  exists c2. split_and!; try done. unfold finalize_deal. rewrite streaming_unguard by done.
  unfold has_due_claim. rewrite (proj2 (Z.ltb_lt _ _)) by done.
  rewrite claim_deadline_total by lia. rewrite (proj2 (Z.leb_le _ _)) by done. simpl.
  rewrite E1. rewrite E2, Hsub. done.
Qed.

(** What a settlement leaves of the fields the keeper compares. *)
Record settled c s c' s' : Prop := {
  se_final : c_tokens_final c <= c_tokens_final c';
  se_pending : c_tokens_pending c' = c_tokens_pending c;
  se_claim : c_last_claim_time c' = c_last_claim_time c;
  se_flags : c_probe_accepted c' = true /\ c_disputed c' = c_disputed c;
  se_paid : tokens_paid s <= tokens_paid s';
  se_base : week_base_tokens s <= week_base_tokens s';
  se_period : period_start s' = period_start s
}.

Lemma charge_settles c s w b c' s' :
  deal_shape consts c s -> stream_books consts c s -> is_subscription s = true -> streaming_flags c ->
  w <= sub_weeks s -> charge_subscription_through consts c s w = Ok (b, c', s') -> settled c s c' s'.
Proof.
  intros Hs Hb Hsub (F1 & F2 & F3) Hw H.
  destruct (charge_keeps consts c s w b c' s' Hs Hb Hsub Hw H) as (_ & _ & R & _ & Hper & _).
  destruct R as [_ (R1 & R2 & R3) (R4 & R5) (_ & R6 & _) _].
  assert (tokens_paid s <= tokens_paid s' /\ week_base_tokens s <= week_base_tokens s') as [? ?].
  { apply charge_inv in H as [(_ & _ & -> & ->)|(_ & _ & s1 & Hcr & ->)]; [lia|].
    apply credit_tokens_through_inv in Hcr as (Ht & -> & _). simpl. destruct Hb. lia. }
  constructor; try lia; try done; try split; congruence.
Qed.

Lemma settle_week_total c s t0 t :
  deal_inv consts c s t0 -> streaming_flags c -> is_subscription s = true -> t0 <= t -> t <= U64_MAX ->
  t + claim_promote_window consts <= U64_MAX -> deal_value consts c s <= U128_MAX ->
  week_index s < weeks_elapsed s t \/
    week_index s = sub_weeks s /\ c_last_claim_time c + claim_promote_window consts <= t ->
  exists c' s', settle_week_deal consts c s t = Ok (c', s') /\ settled c s c' s' /\
    (c_closed c' = false -> streaming_flags c') /\
    (week_index s = sub_weeks s -> c_closed c' = true) /\
    (c_closed c' = true -> c_tokens_final c' = c_tokens_pending c /\ tokens_paid s' = funded_tokens s).
Proof.
  intros Hi Hfl Hsub Ht Hu Hw Hv Hdue. destruct (streaming_phase consts c s t0 Hi Hfl) as (Hs & Hb & Hm & Htm).
  destruct (is_subscription_weeks s) as (W1 & W2 & _); [apply Hs|done|].
  destruct (weeks_at_total s t false) as [w Ew]; [rewrite W1; done|destruct Htm; lia|].
  pose proof (weeks_at_bounds s t false w ltac:(rewrite W1; done) Ew) as Hwb.
  pose proof (weeks_at_inv _ _ _ _ Ew) as [_ Hwe]. simpl in Hwe. fold (weeks_elapsed s t) in Hwe.
  destruct (charge_total consts Hsane c s w Hs Hb Hsub Hv ltac:(lia)) as (b & c1 & s1 & E1).
  pose proof (charge_settles c s w b c1 s1 Hs Hb Hsub Hfl ltac:(lia) E1) as S1.
  destruct (charge_keeps consts c s w b c1 s1 Hs Hb Hsub ltac:(lia) E1) as (Hs1 & Hb1 & R1 & T1 & P1 & I1 & N1).
  assert (streaming_flags c1) as Hfl1.
  { destruct R1 as [_ (? & ? & ?) _ _ _], Hfl as (? & ? & ?). repeat split; congruence. }
  pose proof (ster_weeks _ _ T1) as Tw. pose proof (se_claim _ _ _ _ S1) as Lc.
  unfold settle_week_deal. rewrite Hsub. simpl. rewrite charge_elapsed_unfold, Hsub, Ew by done. simpl. rewrite E1.
  assert (negb b && (week_index s1 <? sub_weeks s1) = false) as ->.
  { destruct b; [done|]. simpl. specialize (N1 eq_refl). destruct Hdue as [?|[? _]]; lia. }
  destruct (Z.leb_spec (sub_weeks s1) (week_index s1)) as [Hover|Hover].
  2:{ exists c1, s1. simpl. split_and!; try done; [lia|]. destruct Hfl1 as (-> & _). done. }
  rewrite claim_deadline_total by (rewrite Lc; destruct Htm; lia). simpl.
  destruct (Z.leb_spec (c_last_claim_time c1 + claim_promote_window consts) t) as [Hd|Hd].
  2:{ exists c1, s1. split_and!; try done; [lia|]. destruct Hfl1 as (-> & _). done. }
  destruct (promote_sync_total c1 s1 t Hs1 Hb1 (same_run_synced _ _ R1 Hm) Hfl1 Hd Hu)
    as (c2 & c3 & E2 & E3 & F1 & F2 & F3 & Hfl3 & Hs3 & Hb3 & Fr3).
  rewrite E2, E3.
  destruct (pay_close_total c3 s1 Hs3 Hb3) as (c4 & d & r & c5 & E4 & E5 & E6 & R4 & C5 & D5); [apply Hfl3| |].
  { rewrite (deal_value_frame consts _ _ _ _ Fr3), (deal_value_frame consts c s c1 s1); [lia|].
    by apply same_run_frame. }
  rewrite E4, E5, E6. eexists _, _. split; [done|].
  destruct R4 as [_ (R41 & R42 & R43) (R44 & R45) (_ & R46 & _) _], C5, cf_claims as [K1 K2], cf_times as (_ & K3 & _).
  destruct S1, se_flags0. pose proof Hs1 as [].
  split_and!; [|congruence|done|].
  2:{ intros _. split; [congruence|]. simpl. destruct (is_subscription_weeks s1) as (V1 & V2 & V3 & V4);
        [done|by rewrite (same_terms_sub _ _ T1)|].
      rewrite <- (ster_funded _ _ T1). destruct Hb1. rewrite st_paid_weeks by (unfold SUBSCRIPTION_WEEKS in *; lia).
      assert (week_index s1 = 4) as -> by lia. unfold SUBSCRIPTION_WEEKS in *. lia. }
  destruct Hfl as (? & ? & ?), Hfl3 as (? & ? & ?). constructor; simpl; try lia; try split; congruence.
Qed.
End KeeperDeal.
