(* ===== verification/KeeperLive.v ===== *)
(** * KeeperLive: the keeper's schedule, and that an unattended subscription ends

    First the plan: what it decides is due is due, and it never sleeps past a due
    moment.  Then the loop on the offline market: every read is coherent, every
    planned write succeeds and is recognised, and the loop ends with the deal
    closed and all four weeks charged. *)
From S2P Require Import Prelude Text Params Settle Address MarketTypes Machine Conservation.
From S2P Require Import Accounting Quote MockDeal MockDealInv MockDealOps MockDealLive.
From S2P Require Import MockMarket MockInvariant MockReach MockLife MockSafety MockReads.
From S2P Require Import Backend Keeper KeeperDeal.

(** ** The plan *)
Definition keeper_live (s : KeeperSnapshot) : Prop :=
  is_subscription (ks_subscription s) = true /\ is_stopped (ks_deal s) = false /\
  ds_opened (ks_deal s) = true /\ ds_probe_accepted (ks_deal s) = true /\ ds_disputed (ks_deal s) = false.
Definition promote_at (s : KeeperSnapshot) (bounds : ClaimBounds) : Z :=
  ds_last_claim_time (ks_deal s) + cbd_promote_window bounds.

(** The work that is due at [now]. *)
Definition claim_due (s : KeeperSnapshot) (bounds : ClaimBounds) (now : Z) : Prop :=
  ds_tokens_final (ks_deal s) < ds_tokens_pending (ks_deal s) /\ promote_at s bounds <= now.
Definition week_due (s : KeeperSnapshot) (now : Z) : Prop :=
  week_index (ks_subscription s) < weeks_elapsed (ks_subscription s) now.
Definition close_due (s : KeeperSnapshot) (bounds : ClaimBounds) (now : Z) : Prop :=
  week_index (ks_subscription s) = sub_weeks (ks_subscription s) /\
  ds_tokens_final (ks_deal s) = ds_tokens_pending (ks_deal s) /\ promote_at s bounds <= now.
Definition nothing_due (s : KeeperSnapshot) (bounds : ClaimBounds) (now : Z) : Prop :=
  ~ claim_due s bounds now /\ ~ week_due s now /\ ~ close_due s bounds now.

Lemma checked_deadline_ok a d x : checked_deadline a d = Ok x -> x = a + d.
Proof. unfold checked_deadline. intros H. checked_facts. lia. Qed.
Lemma next_week_boundary_ok s x : next_week_boundary s = Ok x ->
  x = period_start s + SUB_WEEK_LEN * (week_index s + 1).
Proof.
  unfold next_week_boundary, u64_checked_add. intros H. repeat ok_step H.
  repeat match goal with
  | E : ok_or _ _ = Ok _ |- _ => apply ok_or_ok in E
  | E : checked_add _ _ _ = Some _ |- _ => apply checked_add_some in E as [? ?]
  | E : checked_mul _ _ _ = Some _ |- _ => apply checked_mul_some in E as [? ?]
  end. simplify_eq. lia.
Qed.
Lemma week_boundary_due s x now : next_week_boundary s = Ok x -> week_index s < sub_weeks s ->
  (x <= now <-> week_index s < weeks_elapsed s now).
Proof.
  intros ->%next_week_boundary_ok Hw. unfold weeks_elapsed.
  pose proof (Z.div_mod (now - period_start s) SUB_WEEK_LEN ltac:(done)).
  pose proof (Z.mod_pos_bound (now - period_start s) SUB_WEEK_LEN ltac:(done)). unfold SUB_WEEK_LEN in *. lia.
Qed.
Lemma then_try_ok {A} b (f : outcome ChainError A) o : then_try b f = Ok o ->
  (b = true /\ exists a, f = Ok a /\ o = Some a) \/ (b = false /\ o = None).
Proof. unfold then_try. destruct b; [|naive_solver]. intros H. ok_step H. simplify_eq. eauto. Qed.

Lemma then_try_total {A} b (a : A) : then_try b (Ok a) = Ok (if b then Some a else None).
Proof. by destruct b. Qed.

(** The delay of a wait: at most idle, and no longer than to any deadline ahead. *)
Lemma shorten_spec now delay o : 0 < delay ->
  0 < shorten now delay o <= delay /\
  (forall d, o = Some d -> now < d -> now + shorten now delay o <= d).
Proof. intros H. destruct o as [d|]; simpl; [|by split]. destruct (Z.ltb_spec now d); split; try lia; intros ? [= <-]; lia. Qed.
Lemma delay_spec now idle o1 o2 o3 : 0 < idle ->
  let d := foldl (shorten now) idle [o1; o2; o3] in
  0 < d <= idle /\ forall o x, o ∈ [o1; o2; o3] -> o = Some x -> now < x -> now + d <= x.
Proof.
  intros H. simpl.
  destruct (shorten_spec now idle o1 H) as [H1 D1].
  destruct (shorten_spec now (shorten now idle o1) o2 ltac:(lia)) as [H2 D2].
  destruct (shorten_spec now (shorten now (shorten now idle o1) o2) o3 ltac:(lia)) as [H3 D3].
  split; [lia|]. intros o x Ho Hx Hn. rewrite !elem_of_cons in Ho.
  destruct Ho as [->|[->|[->|Ho]]]; [specialize (D1 _ Hx Hn)|specialize (D2 _ Hx Hn)|specialize (D3 _ Hx Hn)|by apply not_elem_of_nil in Ho]; lia.
Qed.

(** What [plan_live] decides. *)
Lemma plan_live_spec s bounds now p : 0 < cbd_min_claim_interval bounds ->
  week_index (ks_subscription s) <= sub_weeks (ks_subscription s) ->
  ds_tokens_final (ks_deal s) <= ds_tokens_pending (ks_deal s) ->
  plan_live (ks_deal s) (ks_subscription s) (cbd_min_claim_interval bounds) (cbd_promote_window bounds) now = Ok p ->
  match p with
  | PlanFinalize => claim_due s bounds now
  | PlanSettleWeek k =>
      ~ claim_due s bounds now /\
      (week_due s now /\ k = weeks_elapsed (ks_subscription s) now \/
       close_due s bounds now /\ k = sub_weeks (ks_subscription s))
  | PlanWait d => 0 < d <= cbd_min_claim_interval bounds /\
      forall t, now <= t < now + d -> nothing_due s bounds t
  | _ => False
  end.
Proof.
  intros Hidle Hwk Hfp H. unfold plan_live in H. ok_step H. ok_step H.
  set (deal := ks_deal s) in *. set (sub := ks_subscription s) in *.
  apply then_try_ok in E0.
  assert (forall t, claim_due s bounds t <-> is_due a t = true) as Hclaim.
  { intros t. unfold claim_due, promote_at. fold deal. destruct E0 as [(Hb & x & ->%checked_deadline_ok & ->)|(Hb & ->)]; simpl; lia. }
  destruct (is_due a now) eqn:Ea.
  { simplify_eq. by apply Hclaim. }
  ok_step H. apply then_try_ok in E1.
  assert (forall t, week_due s t <-> is_due a0 t = true) as Hweek.
  { intros t. unfold week_due. fold sub. destruct E1 as [(Hb & x & Hx & ->)|(Hb & ->)]; simpl.
    - rewrite <- (week_boundary_due sub x t) by (done || lia). lia.
    - unfold weeks_elapsed. lia. }
  destruct (is_due a0 now) eqn:Ea0.
  { ok_step H. simplify_eq. rewrite Hclaim, Hweek. split; [congruence|]. left. split; [done|].
    unfold scheduled_week_target in E2. repeat ok_step E2. simplify_eq. checked_facts. subst.
    repeat match goal with X : checked_sub _ _ = Some _ |- _ => apply checked_sub_some in X as [-> ?] end.
    repeat match goal with X : try_from _ _ = Some _ |- _ => apply try_from_some in X as [-> ?] end. done. }
  ok_step H. apply then_try_ok in E2.
  assert (forall t, close_due s bounds t <-> is_due a1 t && (ds_tokens_final deal =? ds_tokens_pending deal) = true) as Hclose.
  { intros t. unfold close_due, promote_at. fold deal sub. destruct E2 as [(Hb & x & ->%checked_deadline_ok & ->)|(Hb & ->)]; simpl; lia. }
  destruct (is_due a1 now && _) eqn:Ea1.
  { simplify_eq. rewrite Hclaim. split; [congruence|]. right. split; [by apply Hclose|done]. }
  simplify_eq. pose proof (delay_spec now _ a a0 a1 Hidle) as [Hd Hdl]. split; [done|].
  simpl in Hd, Hdl. intros t Ht. unfold nothing_due. rewrite Hclaim, Hweek, Hclose.
  assert (forall o, o ∈ [a; a0; a1] -> is_due o now = false -> is_due o t = false) as Hnot.
  { intros o Ho. destruct o as [x|]; simpl; [|done]. intros Hx. specialize (Hdl _ x Ho eq_refl ltac:(lia)). lia. }
  assert (is_due a1 t && (ds_tokens_final deal =? ds_tokens_pending deal) = false) as ->.
  { destruct (ds_tokens_final deal =? ds_tokens_pending deal); [|by rewrite andb_false_r].
    rewrite andb_true_r in *. apply Hnot; [do 2 right; left|done]. }
  rewrite (Hnot a), (Hnot a0) by (done || left || (right; left)). done.
Qed.

(** What a snapshot that was read passes. *)
Lemma validate_snapshot_ok s : validate_snapshot s = Ok tt ->
  ds_tokens_final (ks_deal s) <= ds_tokens_pending (ks_deal s) /\
  (is_subscription (ks_subscription s) = true ->
   week_index (ks_subscription s) <= sub_weeks (ks_subscription s)).
Proof.
  unfold validate_snapshot, validate_subscription. intros H. ok_step H. ok_step H. split; [lia|]. intros Hs.
  rewrite Hs in H. repeat case_match; try discriminate H; lia.
Qed.

(** The keeper writes what is due and sleeps no longer than to the next due
    moment.  A planned promotion has a claim past its window; a planned settlement
    targets exactly the elapsed weeks, ahead of the charged ones, or closes a fully
    charged deal past its last window; a planned wait is positive, at most the idle
    interval, and throughout it a live deal has nothing due. *)
Theorem keeper_plan_is_exact (s : KeeperSnapshot) (bounds : ClaimBounds) (now : Z) (p : KeeperPlan) :
  0 <= cbd_min_claim_interval bounds -> plan s bounds now = Ok p ->
  match p with
  | PlanNotSubscription => is_subscription (ks_subscription s) = false
  | PlanTerminal => is_stopped (ks_deal s) = true
  | PlanFinalize => keeper_live s /\ claim_due s bounds now
  | PlanSettleWeek k =>
      keeper_live s /\ ~ claim_due s bounds now /\
      (week_due s now /\ k = weeks_elapsed (ks_subscription s) now \/
       close_due s bounds now /\ k = sub_weeks (ks_subscription s))
  | PlanWait d =>
      0 < d <= cbd_min_claim_interval bounds /\
      (keeper_live s -> forall t, now <= t < now + d -> nothing_due s bounds t)
  end.
Proof.
  intros Hidle H. unfold plan in H. ok_step H. destruct a. apply validate_snapshot_ok in E as [Hf Hw].
  destruct (is_subscription (ks_subscription s)) eqn:Hsub; simpl in H; [|by simplify_eq].
  destruct (is_stopped (ks_deal s)) eqn:Hst; [by simplify_eq|].
  ok_step H. unfold keeper_live. rewrite Hsub, Hst.
  destruct (ds_opened (ks_deal s)), (ds_probe_accepted (ks_deal s)), (ds_disputed (ks_deal s)); simpl in H;
    try (simplify_eq; split; [lia|]; intros (_ & _ & ? & ? & ?); discriminate).
  pose proof (plan_live_spec s bounds now p ltac:(lia) (Hw eq_refl) Hf H) as Hp.
  destruct p; try done; [|by split_and!..].
  destruct Hp as [? Hp]. split; [done|]. auto.
Qed.

(** ** The loop on the offline market *)
Section MockKeeper.
Context (consts : ProtocolConsts) (Hsane : consts_sane consts).
Context (params : DobParams) (order_id_of : TokenContract -> Z).
Context (bounds : ClaimBounds) (tc : TokenContract) (seller : string) (m : Match).
Context (Hidle : 0 < cbd_min_claim_interval bounds).
Context (Hwindow : cbd_promote_window bounds = claim_promote_window consts) (Hpos : 0 < claim_promote_window consts).
Implicit Types (c : StreamCell) (s : DealSubscription).
Let Hc : consts_typed consts := proj1 Hsane.

Definition view c s (created : Z) : KeeperSnapshot := mkKeeperSnapshot (state_of c created) s.

Lemma validate_view c s created t : deal_inv consts c s t -> is_subscription s = true ->
  (c_closed c = false -> c_probe_accepted c = true -> 0 < period_start s) ->
  validate_snapshot (view c s created) = Ok tt.
Proof.
  intros Hi Hsub Hper. pose proof (deal_bonds consts c s t Hi) as Hb. destruct Hi as (Hs & Hp & Htm).
  destruct Hs. destruct (is_subscription_weeks s sh_weeks Hsub) as (W1 & W2 & W3 & W4).
  unfold validate_snapshot, validate_subscription; simpl. rewrite Hsub.
  rewrite (proj2 (Z.ltb_ge _ _)) by lia. rewrite andb_false_r.
  rewrite !(proj2 (Z.ltb_ge _ _)) by lia. unfold phase in Hp. destruct (c_closed c) eqn:Ho; simpl.
  - destruct Hb as (_ & _ & Hb3 & Hb4). unfold is_stopped; simpl. by rewrite Ho, Hb3, Hb4.
  - assert ((c_tokens_pending c <? week_base_tokens s) = false) as ->.
    { apply Z.ltb_ge. destruct (c_probe_accepted c); [destruct Hp as [[] _]; lia|]. destruct Hp, pr_sub as (_ & _ & ->). lia. }
    rewrite andb_false_r. destruct (c_probe_accepted c) eqn:Ha; [|done].
    destruct Hp as [[] _], Htm. specialize (Hper eq_refl eq_refl).
    assert (TICK_SIZE <= tokens_paid s).
    { destruct (decide (week_index s = 0)) as [Hz|Hz]; [by destruct (st_week0 Hz) as [-> _]|].
      rewrite st_paid_weeks by lia. unfold TICK_SIZE in *. nia. }
    rewrite !(proj2 (Z.ltb_ge _ _)) by lia. simpl. by rewrite !(proj2 (Z.eqb_neq _ _)) by lia.
Qed.

Lemma settled_refl c s : c_probe_accepted c = true -> settled c s c s.
Proof. intros H. by constructor. Qed.
(** A settlement is an accepted transition. *)
Lemma settled_accepted c s c' s' cr cr' : settled c s c' s' -> same_terms s s' -> week_index s <= week_index s' ->
  ensure_non_regressing_transition (view c s cr) (view c' s' cr') = Ok tt.
Proof.
  intros [] [] Hw. destruct se_flags. unfold ensure_non_regressing_transition; simpl.
  rewrite !(proj2 (Z.ltb_ge _ _)) by lia. rewrite andb_false_r, H. simpl. rewrite andb_false_r. simpl.
  rewrite ster_flags, ster_weeks, ster_tpw, ster_funded, se_period, !Z.eqb_refl. done.
Qed.

#[local] Existing Instance MockChainBackend.
#[local] Existing Instance unit_keeper_observer.
#[local] Instance keeper_backend : ChainBackend MockWorld := MockChainBackend consts.

(** The deal under the keeper's care. *)
Definition at_life (c : StreamCell) (s : DealSubscription) (l : Life) : Prop :=
  l = if c_closed c then Ended seller m c s else Live seller m c s.
Record tended (w : MockWorld) c s : Prop := {
  te_reach : exists n0, n0 <= mw_now w /\ reachable consts params order_id_of n0 (mw_files w);
  te_life : at_life c s (life_in (mw_files w) tc);
  te_sub : is_subscription s = true;
  te_period : 0 < period_start s
}.

Definition accepts (cursor : KeeperCursor) c s : Prop :=
  forall created, match last_accepted cursor with
                  | None => True
                  | Some v => ensure_non_regressing_transition v (view c s created) = Ok tt
                  end.

Lemma read_view w c s cursor : tended w c s -> accepts cursor c s ->
  exists created, read_accepted_snapshot tc cursor w =
    (Some (Ok (Some (view c s created), mkKeeperCursor (Some (view c s created)))), w).
Proof.
  intros [(n0 & Hn0 & Hr) Hl Hsub Hper] Hcur. pose proof (reachable_inv _ Hc _ _ _ _ Hr) as Hw.
  destruct (opened_snapshot_read consts Hc (mw_files w) n0 (mw_now w) tc m c s Hw Hn0) as (sn & cr & E & S1 & S2 & _).
  { unfold at_life in Hl. rewrite Hl. by destruct (c_closed c). }
  assert (deal_inv consts c s n0) as Hi.
  { pose proof (life_slot consts _ _ tc Hw) as Ho. rewrite Hl in Ho. by destruct (c_closed c), Ho. }
  exists cr. assert (keeper_snapshot_from sn = view c s cr) as Hv by (unfold keeper_snapshot_from, view; by rewrite S1, S2).
  unfold read_accepted_snapshot, bind, lift. cbn [cb_deal_snapshot keeper_backend MockChainBackend]. unfold on_mock.
  rewrite E. cbv beta iota zeta. rewrite Hv.
  unfold of_outcome, cursor_accept. rewrite (validate_view c s cr n0 Hi Hsub) by auto.
  specialize (Hcur cr). destruct w. destruct (last_accepted cursor) as [v|]; [rewrite Hcur|]; done.
Qed.

Lemma tended_inv w c s : tended w c s -> exists n0, n0 <= mw_now w /\
  reachable consts params order_id_of n0 (mw_files w) /\ files_inv consts (mw_files w) n0 /\ deal_inv consts c s n0.
Proof.
  intros [(n0 & Hn0 & Hr) Hl _ _]. pose proof (reachable_inv _ Hc _ _ _ _ Hr) as Hw. exists n0. split_and!; try done.
  pose proof (life_slot consts _ _ tc Hw) as Ho. rewrite Hl in Ho. by destruct (c_closed c), Ho.
Qed.
Lemma tended_later w c s d : 0 <= d -> tended w c s -> tended (keeper_sleep d w) c s.
Proof. intros Hd [(n0 & ? & ?) ? ? ?]. constructor; try done. exists n0. split; [simpl; lia|done]. Qed.

(** A deal operation that succeeds is a successful call. *)
Lemma keeper_call w c s (X : StreamCell -> DealSubscription -> Z -> outcome ChainError (StreamCell * DealSubscription))
    (call : TokenContract -> Z -> Z -> op unit) c' s' :
  (forall t0 t1, call tc t0 t1 = writing t0 (fun st => on_deal tc st (fun cell sub => no_result (X cell sub t1)))) ->
  (forall n0 files r files', clock_ok (mw_now w) -> n0 <= mw_now w ->
     call tc (mw_now w) (mw_now w) files = (r, files') ->
     market_step consts params order_id_of (n0, files) (mw_now w, files')) ->
  tended w c s -> c_closed c = false -> clock_ok (mw_now w) ->
  X c s (mw_now w) = Ok (c', s') -> deal_inv consts c' s' (mw_now w) -> deal_frame c s c' s' ->
  period_start s' = period_start s ->
  exists w', on_mock (fun t => call tc t t) w = (Ok tt, w') /\ mw_now w' = mw_now w /\ tended w' c' s'.
Proof.
  intros Hcall Hstep Ht Ho Hck HX Hi' Hfr Hper. destruct (tended_inv w c s Ht) as (n0 & Hn0 & [start Hr] & Hw & _).
  destruct Ht as [_ Hl Hsub Hp]. unfold at_life in Hl. rewrite Ho in Hl.
  destruct (deal_call consts (mw_files w) n0 (mw_now w) (mw_now w) tc seller m c s
    (fun st => on_deal tc st (fun cell sub => no_result (X cell sub (mw_now w))))
    (fun cell sub => no_result (X cell sub (mw_now w))) tt c' s') as (files' & E1 & E2); try done.
  { unfold no_result. by rewrite HX. }
  rewrite <- Hcall in E1. exists (mkMockWorld files' (mw_now w)). unfold on_mock. rewrite E1. split_and!; try done.
  constructor; simpl; [|done|by rewrite (same_terms_sub _ _ (fr_terms _ _ _ _ Hfr))|lia].
  exists (mw_now w). split; [lia|]. exists start. eapply rtc_r; [exact Hr|]. by eapply Hstep.
Qed.

(** A time the clock and the deadlines can hold. *)
Definition in_time (w : MockWorld) : Prop :=
  0 < mw_now w <= I64_MAX /\ mw_now w + claim_promote_window consts <= U64_MAX.
Lemma finalize_write w c s : tended w c s -> streaming_flags c -> in_time w ->
  c_tokens_final c < c_tokens_pending c -> c_last_claim_time c + claim_promote_window consts <= mw_now w ->
  exists w' c', cb_finalize tc w = (Ok tt, w') /\ mw_now w' = mw_now w /\ tended w' c' s /\ streaming_flags c' /\
    settled c s c' s /\ deal_frame c s c' s /\
    c_tokens_final c' = c_tokens_pending c.
Proof.
  intros Ht Hfl [Hck Hu] Hp Hdue. destruct (tended_inv w c s Ht) as (n0 & Hn0 & _ & _ & Hi).
  destruct (finalize_total consts c s n0 (mw_now w) Hi Hfl (te_sub _ _ _ Ht) Hp Hdue ltac:(lia))
    as (c' & E & Hfl' & F1 & F2 & F3).
  destruct (finalize_inv consts Hc c s n0 (mw_now w) c' s Hi Hn0 E) as [Hi' Hfr].
  destruct (keeper_call w c s (finalize_deal consts) (finalize consts) c' s) as (w' & E1 & E2 & Ht'); try done.
  { intros. eapply s_finalize; [..|done]; [lia|done]. }
  { apply Hfl. }
  exists w', c'. destruct Hfl as (? & ? & ?), Hfl' as (? & ? & ?). split_and!; try done.
  constructor; simpl; try lia; try done. split; congruence.
Qed.
Lemma settle_write w c s : tended w c s -> streaming_flags c -> in_time w -> deal_value consts c s <= U128_MAX ->
  week_index s < weeks_elapsed s (mw_now w) \/
    week_index s = sub_weeks s /\ c_last_claim_time c + claim_promote_window consts <= mw_now w ->
  exists w' c' s', cb_settle_week tc w = (Ok tt, w') /\ mw_now w' = mw_now w /\ tended w' c' s' /\
    settled c s c' s' /\ deal_frame c s c' s' /\
    week_index s' = Z.max (week_index s) (weeks_elapsed s (mw_now w)) /\
    (c_closed c' = false -> streaming_flags c' /\ week_index s <> sub_weeks s) /\
    (c_closed c' = true -> c_tokens_final c' = c_tokens_pending c /\ tokens_paid s' = funded_tokens s /\
       week_index s' = sub_weeks s).
Proof.
  intros Ht Hfl [Hck Hu] Hv Hdue. destruct (tended_inv w c s Ht) as (n0 & Hn0 & _ & _ & Hi).
  destruct (settle_week_total consts Hsane c s n0 (mw_now w) Hi Hfl (te_sub _ _ _ Ht) Hn0 ltac:(lia) Hu Hv Hdue)
    as (c' & s' & E & Hse & Hop & Hlast & Hclose).
  destruct (settle_week_inv consts Hc c s n0 (mw_now w) c' s' Hi Hn0 E) as [Hi' Hfr].
  destruct (settle_week_charges consts c s (mw_now w) c' s' E) as (_ & Hwi & _ & Hcw).
  destruct (keeper_call w c s (settle_week_deal consts) (settle_week consts) c' s') as (w' & E1 & E2 & Ht'); try done.
  { intros. eapply s_settle_week; [..|done]; [lia|done]. }
  { apply Hfl. } { apply Hse. }
  exists w', c', s'. split_and!; try done.
  - intros Hcl. split; [auto|]. intros Heq. rewrite (Hlast Heq) in Hcl. done.
  - intros Hcl. destruct (Hclose Hcl). split_and!; try done. specialize (Hcw Hcl (proj1 Hfl)).
    unfold weeks_elapsed in *. destruct Hi as (Hs & _).
    destruct (is_subscription_weeks s) as (? & ? & _); [apply Hs|apply Ht|]. lia.
Qed.

(** The moment by which everything is due. *)
Definition due_by c s : Z :=
  Z.max (period_start s + SUB_WEEK_LEN * sub_weeks s) (c_last_claim_time c + claim_promote_window consts).

Lemma plan_view w c s created : tended w c s -> streaming_flags c -> in_time w -> due_by c s <= U64_MAX ->
  exists p, plan (view c s created) bounds (mw_now w) = Ok p /\
    plan_live (state_of c created) s (cbd_min_claim_interval bounds) (cbd_promote_window bounds) (mw_now w) = Ok p.
Proof.
  intros Ht (Ho & Hd & Ha) [Hck Hu] Hdb. destruct (tended_inv w c s Ht) as (n0 & Hn0 & _ & _ & Hi).
  destruct Ht as [_ _ Hsub Hper]. pose proof Hi as (Hs & _ & Htm).
  destruct (is_subscription_weeks s (sh_weeks _ _ _ Hs) Hsub) as (W1 & W2 & _).
  unfold due_by in Hdb. unfold plan. rewrite (validate_view c s created n0) by auto.
  cbn [ks_deal ks_subscription view]. rewrite Hsub. unfold is_stopped.
  cbn [ds_funded ds_opened ds_disputed ds_probe_accepted state_of]. rewrite Ho, Ha, Hd. simpl.
  rewrite (proj2 (Z.eqb_neq _ _)) by lia.
  assert (exists p, plan_live (state_of c created) s (cbd_min_claim_interval bounds) (cbd_promote_window bounds)
    (mw_now w) = Ok p) as [p Hp]; [|eauto].
  unfold plan_live. rewrite Hwindow, (proj2 (Z.eqb_neq _ _)) by lia. cbn [state_of ds_tokens_final ds_tokens_pending ds_last_claim_time].
  assert (checked_deadline (c_last_claim_time c) (claim_promote_window consts) =
    Ok (c_last_claim_time c + claim_promote_window consts)) as Hcd.
  { unfold checked_deadline, u64_checked_add, checked_add. rewrite (proj2 (Z.leb_le _ _)) by lia. done. }
  assert (week_index s < sub_weeks s -> next_week_boundary s = Ok (period_start s + SUB_WEEK_LEN * (week_index s + 1))) as Hnb.
  { intros Hlt. unfold next_week_boundary, u64_checked_add, checked_add, checked_mul, SUB_WEEK_LEN, U64_MAX in *.
    rewrite (proj2 (Z.leb_le (week_index s + 1) _)) by lia. simpl. rewrite (proj2 (Z.leb_le _ _)) by lia. simpl.
    by rewrite (proj2 (Z.leb_le _ _)) by lia. }
  rewrite Hcd, then_try_total. destruct (is_due _ (mw_now w)); [eauto|].
  destruct (Z.ltb_spec (week_index s) (sub_weeks s)) as [Hlt|Hge].
  - rewrite (Hnb Hlt). simpl. destruct (Z.leb_spec (period_start s + SUB_WEEK_LEN * (week_index s + 1)) (mw_now w)) as [Hdue|_].
    + assert (week_index s < weeks_elapsed s (mw_now w)) as Hel by by eapply week_boundary_due; [apply Hnb| |].
      unfold weeks_elapsed in Hel. unfold scheduled_week_target, checked_sub, try_from.
      rewrite (proj2 (Z.leb_le (period_start s) _)) by (unfold SUB_WEEK_LEN in *; lia). simpl.
      rewrite (proj2 (Z.leb_le _ _)) by (rewrite W1; unfold U8_MAX; lia). simpl.
      rewrite (proj2 (Z.leb_gt _ _)) by done. eauto.
    + rewrite (proj2 (Z.eqb_neq _ _)) by lia. simpl. eauto.
  - simpl. rewrite then_try_total. destruct (_ && _); eauto.
Qed.

(** A wait of the plan ends before everything is due. *)
Lemma wait_before_due w c s created d : tended w c s -> streaming_flags c ->
  0 < d -> (forall t, mw_now w <= t < mw_now w + d -> nothing_due (view c s created) bounds t) ->
  mw_now w + d <= due_by c s.
Proof.
  intros Ht Hfl Hd Hn. destruct (tended_inv w c s Ht) as (n0 & Hn0 & _ & _ & (Hs & _ & _)).
  destruct (is_subscription_weeks s (sh_weeks _ _ _ Hs) (te_sub _ _ _ Ht)) as (W1 & W2 & _).
  destruct (Hn (mw_now w + d - 1) ltac:(lia)) as (N1 & N2 & N3).
  unfold claim_due, week_due, close_due, promote_at in *. simpl in *. rewrite Hwindow in *.
  unfold due_by, weeks_elapsed in *. destruct Hs.
  destruct (decide (week_index s < sub_weeks s)) as [Hlt|Hge]; [|lia].
  assert ((mw_now w + d - 1 - period_start s) / SUB_WEEK_LEN < sub_weeks s) as Hdiv by lia.
  pose proof (Z.div_mod (mw_now w + d - 1 - period_start s) SUB_WEEK_LEN ltac:(done)).
  pose proof (Z.mod_pos_bound (mw_now w + d - 1 - period_start s) SUB_WEEK_LEN ltac:(done)).
  unfold SUB_WEEK_LEN in *. nia.
Qed.

Definition work_left (w : MockWorld) c s : Z :=
  Z.max 0 (due_by c s - mw_now w) + (sub_weeks s - week_index s)
  + (if c_tokens_final c <? c_tokens_pending c then 1 else 0).

(** One step of the keeper: it waits for what is not due yet, moves the deal
    towards its end, or sees it end. *)
Definition good_step (w : MockWorld) c s (step : KeeperStep) (cursor : KeeperCursor) (w' : MockWorld) : Prop :=
  match step with
  | StepWait d => w' = w /\ 0 < d /\ mw_now w + d <= due_by c s /\ accepts cursor c s
  | StepProgress => exists c' s', mw_now w' = mw_now w /\ tended w' c' s' /\ streaming_flags c' /\
      deal_frame c s c' s' /\ settled c s c' s' /\ work_left w' c' s' < work_left w c s /\ accepts cursor c' s'
  | StepTerminal tokens => exists c' s', mw_now w' = mw_now w /\ tended w' c' s' /\ c_closed c' = true /\
      tokens = c_tokens_pending c /\ c_tokens_final c' = tokens /\ tokens_paid s' = funded_tokens s /\
      week_index s' = sub_weeks s
  | StepNotSubscription => False
  end.

Lemma accepts_view c s created : c_probe_accepted c = true ->
  accepts (mkKeeperCursor (Some (view c s created))) c s.
Proof. intros Ha cr. simpl. apply settled_accepted; [by apply settled_refl|done|lia]. Qed.

Lemma reconcile_open action c s cr c' s' cr' t : deal_inv consts c' s' t -> is_subscription s' = true ->
  0 < period_start s' -> settled c s c' s' -> same_terms s s' -> week_index s <= week_index s' ->
  streaming_flags c' ->
  match action with
  | PlanFinalize => c_tokens_final c < c_tokens_final c'
  | PlanSettleWeek k => week_index s < sub_weeks s /\ week_index s' = k
  | _ => False
  end ->
  reconcile_write bounds action (view c s cr) (Some (view c' s' cr')) (Ok tt) = Ok StepProgress.
Proof.
  intros Hi Hsub Hper Hse Hte Hw (Ho & Hd & Ha) Hact. unfold reconcile_write.
  rewrite (validate_view c' s' cr' t) by auto. unfold is_stopped. simpl. rewrite Ho, Hd. simpl.
  rewrite (settled_accepted c s c' s' cr cr') by done.
  destruct action; try done; simpl.
  - by rewrite (proj2 (Z.ltb_lt _ _)).
  - destruct Hact as [? ->]. by rewrite (proj2 (Z.ltb_lt _ _)), Z.eqb_refl.
Qed.
Lemma reconcile_closed action c s cr c' s' cr' t : deal_inv consts c' s' t -> is_subscription s' = true ->
  0 < period_start s' -> c_closed c' = true ->
  reconcile_write bounds action (view c s cr) (Some (view c' s' cr')) (Ok tt) = Ok (StepTerminal (c_tokens_final c')).
Proof.
  intros Hi Hsub Hper Ho. unfold reconcile_write. rewrite (validate_view c' s' cr' t) by auto.
  pose proof (deal_bonds consts c' s' t Hi) as Hb. rewrite Ho in Hb. destruct Hb as (_ & _ & ? & ?).
  cbn [ks_deal view]. by rewrite state_of_stopped.
Qed.

(** From a successful write to the reconciled step. *)
Lemma write_step action c s cr w w1 c' s' :
  (match action with PlanFinalize => cb_finalize tc | _ => cb_settle_week tc end) w = (Ok tt, w1) ->
  tended w1 c' s' -> settled c s c' s' -> same_terms s s' -> week_index s <= week_index s' ->
  (forall cr', reconcile_write bounds action (view c s cr) (Some (view c' s' cr')) (Ok tt) =
     Ok (if c_closed c' then StepTerminal (c_tokens_final c') else StepProgress)) ->
  exists cursor, write_and_reconcile tc bounds action (view c s cr) (mkKeeperCursor (Some (view c s cr))) w =
    (Some (Ok (if c_closed c' then StepTerminal (c_tokens_final c') else StepProgress, cursor)), w1) /\
    accepts cursor c' s'.
Proof.
  intros Hcall Ht Hse Hte Hwk Hrec.
  destruct (read_view w1 c' s' (mkKeeperCursor (Some (view c s cr))) Ht) as [cr' Hread].
  { intros cr'. simpl. by apply settled_accepted. }
  exists (mkKeeperCursor (Some (view c' s' cr'))). split; [|apply accepts_view; apply Hse].
  unfold write_and_reconcile, bind, attempt. rewrite Hcall, Hread. unfold ret at 1. unfold of_outcome. by rewrite Hrec.
Qed.

Section Tended.
Context (w : MockWorld) (c : StreamCell) (s : DealSubscription).
Context (Ht : tended w c s) (Hfl : streaming_flags c) (Hin : in_time w).
Context (Hdb : due_by c s <= U64_MAX) (Hval : deal_value consts c s <= U128_MAX).

Definition planned (created : Z) (p : KeeperPlan) : Prop :=
  match p with
  | PlanFinalize => claim_due (view c s created) bounds (mw_now w)
  | PlanSettleWeek k => week_due (view c s created) (mw_now w) /\ k = weeks_elapsed s (mw_now w) \/
      close_due (view c s created) bounds (mw_now w) /\ k = sub_weeks s
  | PlanWait d => 0 < d /\ forall t, mw_now w <= t < mw_now w + d -> nothing_due (view c s created) bounds t
  | _ => False
  end.
Lemma plan_tended created : exists p, plan (view c s created) bounds (mw_now w) = Ok p /\ planned created p.
Proof.
  destruct (plan_view w c s created Ht Hfl Hin Hdb) as (p & E1 & E2). exists p. split; [done|].
  destruct (tended_inv w c s Ht) as (n0 & _ & _ & _ & (Hs & _ & _)).
  destruct (is_subscription_weeks s (sh_weeks _ _ _ Hs) (te_sub _ _ _ Ht)) as (W1 & W2 & _). destruct Hs.
  pose proof (plan_live_spec (view c s created) bounds (mw_now w) p Hidle ltac:(simpl; lia) ltac:(simpl; lia) E2) as Hp.
  destruct p; try done; [destruct Hp as [? ?]; split; [lia|done]|by destruct Hp].
Qed.
Lemma wait_good created d : planned created (PlanWait d) ->
  good_step w c s (StepWait d) (mkKeeperCursor (Some (view c s created))) w.
Proof.
  intros [Hd Hn]. split_and!; [done|done|by eapply wait_before_due|]. apply accepts_view, Hfl.
Qed.

Lemma finalize_good created : planned created PlanFinalize ->
  exists step cursor w', write_and_reconcile tc bounds PlanFinalize (view c s created)
    (mkKeeperCursor (Some (view c s created))) w = (Some (Ok (step, cursor)), w') /\ good_step w c s step cursor w'.
Proof.
  intros [Hp Hdue]. unfold promote_at in Hdue. simpl in Hp, Hdue. rewrite Hwindow in Hdue.
  destruct (finalize_write w c s Ht Hfl Hin Hp Hdue) as (w1 & c' & E & Hnow & Ht' & Hfl' & Hse & Hfr & Hfin).
  destruct (tended_inv w1 c' s Ht') as (n1 & _ & _ & _ & Hi').
  destruct (write_step PlanFinalize c s created w w1 c' s E Ht' Hse) as (cursor & Hw & Hacc);
    [done|lia| |].
  { intros cr'. rewrite (proj1 Hfl'). eapply reconcile_open; try done; [apply Ht'|apply Ht'|lia]. }
  rewrite (proj1 Hfl') in Hw. exists StepProgress, cursor, w1. split; [done|]. exists c', s. split_and!; try done.
  unfold work_left, due_by. destruct Hse. rewrite Hnow, se_claim, Hfin, se_pending, Z.ltb_irrefl.
  rewrite (proj2 (Z.ltb_lt (c_tokens_final c) _)) by done. lia.
Qed.

Lemma settle_good created k : planned created (PlanSettleWeek k) ->
  exists step cursor w', write_and_reconcile tc bounds (PlanSettleWeek k) (view c s created)
    (mkKeeperCursor (Some (view c s created))) w = (Some (Ok (step, cursor)), w') /\ good_step w c s step cursor w'.
Proof.
  intros Hpl. destruct (tended_inv w c s Ht) as (n0 & _ & _ & _ & (Hs & _ & _)).
  destruct (is_subscription_weeks s (sh_weeks _ _ _ Hs) (te_sub _ _ _ Ht)) as (W1 & W2 & _).
  assert (week_index s < weeks_elapsed s (mw_now w) \/
    week_index s = sub_weeks s /\ c_last_claim_time c + claim_promote_window consts <= mw_now w) as Hdue.
  { unfold planned, week_due, close_due, promote_at in Hpl. simpl in Hpl. rewrite Hwindow in Hpl.
    destruct Hpl as [[? _]|[(? & _ & ?) _]]; [by left|by right]. }
  destruct (settle_write w c s Ht Hfl Hin Hval Hdue) as (w1 & c' & s' & E & Hnow & Ht' & Hse & Hfr & Hwk & Hop & Hcl).
  destruct (tended_inv w1 c' s' Ht') as (n1 & _ & _ & _ & Hi'). pose proof (fr_terms _ _ _ _ Hfr) as Hte.
  assert (weeks_elapsed s (mw_now w) <= sub_weeks s) as Hel by (unfold weeks_elapsed; lia).
  destruct (write_step (PlanSettleWeek k) c s created w w1 c' s' E Ht' Hse Hte) as (cursor & Hw & Hacc); [lia| |].
  { intros cr'. destruct (c_closed c') eqn:Ho.
    - eapply reconcile_closed; try done; apply Ht'.
    - destruct (Hop eq_refl) as [Hfl' Hne]. eapply reconcile_open; try done; [apply Ht'|apply Ht'|lia|].
      destruct Hpl as [[? ->]|[(? & _) _]]; [|done]. unfold week_due in *. simpl in *. lia. }
  destruct (c_closed c') eqn:Ho.
  - destruct (Hcl eq_refl) as (K1 & K2 & K3). eexists _, cursor, w1. split; [exact Hw|]. exists c', s'. by split_and!.
  - destruct (Hop eq_refl) as [Hfl' Hne]. eexists _, cursor, w1. split; [exact Hw|]. exists c', s'. split_and!; try done.
    unfold work_left, due_by. destruct Hse, Hte. rewrite Hnow, se_claim, se_period, ster_weeks, se_pending.
    destruct Hdue as [?|[? _]]; [|done].
    destruct (Z.ltb_spec (c_tokens_final c) (c_tokens_pending c)), (Z.ltb_spec (c_tokens_final c') (c_tokens_pending c)); lia.
Qed.

Lemma keeper_step_good cursor : accepts cursor c s ->
  exists step cursor' w', keeper_step tc bounds (mw_now w) cursor w = (Some (Ok (step, cursor')), w') /\
    good_step w c s step cursor' w'.
Proof.
  intros Hacc. destruct (read_view w c s cursor Ht Hacc) as [cr1 R1].
  destruct (plan_tended cr1) as (p1 & P1 & Hp1).
  unfold keeper_step, bind. rewrite R1. unfold of_outcome. rewrite P1.
  destruct p1 as [| |d| |k]; try done; cbn [step_of_plan]; cbv beta iota.
  { eexists _, _, _. split; [reflexivity|]. by apply wait_good. }
  all: destruct (read_view w c s (mkKeeperCursor (Some (view c s cr1))) Ht) as [cr2 R2];
    [apply accepts_view; apply Hfl|];
    destruct (plan_tended cr2) as (p2 & P2 & Hp2); rewrite R2; rewrite P2;
    (destruct p2 as [| |d2| |k2]; try done; cbn [step_of_plan]; cbv beta iota;
     [eexists _, _, _; split; [reflexivity|]; by apply wait_good|by apply finalize_good|by apply settle_good]).
Qed.
End Tended.

(** The latest moment the loop can see, within the clock's range. *)
Definition last_moment (w : MockWorld) c s : Z := Z.max (mw_now w) (due_by c s).
Lemma keeper_loop_ends fuel w c s cursor :
  tended w c s -> streaming_flags c -> accepts cursor c s -> deal_value consts c s <= U128_MAX ->
  0 < mw_now w -> last_moment w c s <= I64_MAX -> last_moment w c s + claim_promote_window consts <= U64_MAX ->
  work_left w c s < Z.of_nat fuel ->
  exists w' c' s', keeper_loop tc bounds fuel cursor w = (Some (Ok (c_tokens_pending c)), w') /\
    tended w' c' s' /\ c_closed c' = true /\ c_tokens_final c' = c_tokens_pending c /\
    tokens_paid s' = funded_tokens s /\ week_index s' = sub_weeks s /\ mw_now w' <= last_moment w c s.
Proof.
  revert w c s cursor. induction fuel as [|fuel IH]; intros w c s cursor Ht Hfl Hacc Hv Hnow Hl1 Hl2 Hfuel.
  { destruct (tended_inv w c s Ht) as (n0 & _ & _ & _ & (Hs & _ & _)).
    destruct (is_subscription_weeks s (sh_weeks _ _ _ Hs) (te_sub _ _ _ Ht)) as (W1 & W2 & _).
    unfold work_left in Hfuel. destruct (_ <? _); lia. }
  unfold last_moment in *.
  destruct (keeper_step_good w c s Ht Hfl ltac:(split; lia) ltac:(unfold I64_MAX, U64_MAX in *; lia) Hv cursor Hacc)
    as (step & cursor' & w1 & E & Hg).
  cbn [keeper_loop]. unfold bind at 1, lift. cbn [now_unix MockKeeperClock]. unfold bind at 1. rewrite E.
  destruct step as [|tokens|d|]; simpl in Hg; [done| | |].
  - destruct Hg as (c' & s' & N & Ht' & Hcl & -> & Hfin & Hp & Hw). exists w1, c', s'. split_and!; try done. lia.
  - destruct Hg as (-> & Hd & Hdl & Hacc').
    destruct (IH (keeper_sleep d w) c s cursor') as (w' & c' & s' & E' & R1 & R2 & R3 & R4 & R5 & R6);
      try done; [by apply tended_later; [lia|]|simpl; lia..| |].
    { unfold work_left in *. simpl. lia. }
    exists w', c', s'. split_and!; try done. simpl in R6. lia.
  - destruct Hg as (c' & s' & N & Ht' & Hfl' & Hfr & Hse & Hwl & Hacc').
    assert (due_by c' s' = due_by c s) as Hdue.
    { unfold due_by. destruct Hse, (fr_terms _ _ _ _ Hfr). by rewrite se_claim, se_period, ster_weeks. }
    destruct (IH w1 c' s' cursor') as (w' & c2 & s2 & E' & R1 & R2 & R3 & R4 & R5 & R6);
      try done; rewrite ?N, ?Hdue; try done; [by rewrite (deal_value_frame consts _ _ _ _ Hfr)|lia|].
    destruct Hse, (fr_terms _ _ _ _ Hfr). rewrite se_pending, ster_funded, ster_weeks in *.
    exists w', c2, s2. rewrite N, Hdue in R6. split_and!; done.
Qed.
End MockKeeper.

(** C28: an unattended subscription is brought to its end.  Started on any live,
    accepted, undisputed subscription of the offline market, with nobody else acting,
    the keeper ends within one turn per second left plus one per week and claim: every
    week is charged, the seller is paid the whole funded volume, every claim is final,
    and the deal is closed no later than the end of the term or the last claim's
    window. *)
Theorem keeper_ends_the_subscription (consts : ProtocolConsts) (params : DobParams)
    (order_id_of : TokenContract -> Z) (bounds : ClaimBounds) (tc : TokenContract)
    (now : Z) (w : ChainFiles) (seller : string) (m : Match) (c : StreamCell) (s : DealSubscription) (fuel : nat) :
  consts_sane consts -> 0 < cbd_min_claim_interval bounds ->
  cbd_promote_window bounds = claim_promote_window consts -> 0 < claim_promote_window consts ->
  reachable consts params order_id_of now w -> 0 < now -> life_in w tc = Live seller m c s ->
  is_subscription s = true -> streaming_flags c -> 0 < period_start s -> deal_value consts c s <= U128_MAX ->
  let last := Z.max now (due_by consts c s) in
  last <= I64_MAX -> last + claim_promote_window consts <= U64_MAX -> last - now + 5 < Z.of_nat fuel ->
  exists w' c' s',
    drive_subscription_keeper (H := MockChainBackend consts) tc bounds fuel (mkMockWorld w now) =
      (Some (Ok (c_tokens_pending c)), w') /\
    life_in (mw_files w') tc = Ended seller m c' s' /\ mw_now w' <= last /\
    week_index s' = sub_weeks s /\ tokens_paid s' = funded_tokens s /\
    c_tokens_final c' = c_tokens_pending c.
Proof.
  intros Hsane Hidle Hwin Hpos Hr Hnow Hl Hsub Hfl Hper Hv last Hl1 Hl2 Hfuel.
  assert (tended consts params order_id_of tc seller m (mkMockWorld w now) c s) as Ht.
  { constructor; try done; [by exists now|]. unfold at_life; simpl. by rewrite (proj1 Hfl). }
  destruct (tended_inv consts Hsane params order_id_of tc seller m _ _ _ Ht) as (n0 & _ & _ & _ & (Hs & _ & _)).
  destruct (is_subscription_weeks s (sh_weeks _ _ _ Hs) Hsub) as (W1 & W2 & _).
  destruct (keeper_loop_ends consts Hsane params order_id_of bounds tc seller m Hidle Hwin Hpos fuel
    (mkMockWorld w now) c s keeper_cursor_default Ht Hfl) as (w' & c' & s' & E & R1 & R2 & R3 & R4 & R5 & R6);
    try done.
  { unfold work_left. simpl. fold last. destruct (_ <? _); lia. }
  exists w', c', s'. split; [done|]. destruct R1 as [_ Hlife _ _]. unfold at_life in Hlife. rewrite R2 in Hlife.
  by split_and!.
Qed.
