(* ===== verification/Json.v ===== *)
(** * Json: the part of [serde_json::Value] the clients read

    An object is the list of its entries in key order (the map of the source is a
    [BTreeMap]); a number is an unsigned integer, a negative integer or a float. *)
From Stdlib Require Import Ascii.
From S2P Require Import Prelude Text.

Inductive Number : Type :=
| PosInt (n : Z)
| NegInt (n : Z)
| Float (repr : string).
#[warnings="-register-all"]
Inductive Value : Type :=
| Null
| VBool (b : bool)
| VNumber (n : Number)
| VString (s : string)
| VArray (vs : list Value)
| VObject (entries : list (string * Value)).

Fixpoint entry (key : string) (entries : list (string * Value)) : option Value :=
  match entries with
  | [] => None
  | (k, v) :: rest => if bool_decide (key = k) then Some v else entry key rest
  end.
(** [Value::get] with a string key: [None] on anything that is not an object. *)
Definition get_field (v : Value) (key : string) : option Value :=
  match v with VObject entries => entry key entries | _ => None end.
Definition as_u64 (v : Value) : option Z :=
  match v with VNumber (PosInt n) => Some n | _ => None end.
Definition as_str (v : Value) : option string :=
  match v with VString s => Some s | _ => None end.
Definition as_bool (v : Value) : option bool :=
  match v with VBool b => Some b | _ => None end.

(** ** Hexadecimal numerals *)
Definition hex_value (c : ascii) : Z :=
  if is_digit c then code c - 48
  else if code c <=? 70 then code c - 55 else code c - 87.
(** [uN::from_str_radix(s, 16)]: a single leading ['+'] is accepted. *)
Definition parse_hex_digits (max : Z) (t : text) : option Z :=
  match t with
  | [] => None
  | _ => if forallb is_hexdigit t
         then try_from max (fold_left (fun a c => 16 * a + hex_value c) t 0)
         else None
  end.
Definition parse_hex (max : Z) (t : text) : option Z :=
  match t with
  | c :: t' => if bool_decide (c = "+"%char) then parse_hex_digits max t' else parse_hex_digits max t
  | [] => None
  end.

Lemma parse_uint_range max t n : parse_uint max t = Some n -> n <= max.
Proof.
  assert (forall t, parse_digits max t = Some n -> n <= max) as H.
  { intros [|c t']; [done|]. unfold parse_digits. destruct (forallb _ _); [|done].
    by intros [-> ?]%try_from_some. }
  unfold parse_uint. destruct t as [|c t']; [done|]. destruct (bool_decide _); apply H.
Qed.
