(* ===== verification/Diagnostics.v ===== *)
(** * Diagnostics: what a submit response means (crates/core/src/onchain_diagnostics.rs)

    A response is accepted only when nothing in it reports a failure; a refused one
    keeps its payload with the credentials masked, wherever they are echoed. *)
From Stdlib Require Import Ascii.
From S2P Require Import Prelude Text Json.

Definition REDACTED : string := "<redacted>".

Definition contract_error_names (code : Z) : list string :=
  match code with
  | 100 => ["modelregistry::ERR_NOT_OWNER"]
  | 101 => ["dex::ERR_INVALID_SENDER"; "modelregistry::ERR_NO_PUBKEY"]
  | 102 => ["dex::ERR_LOW_VALUE"; "modelregistry::ERR_NOT_MODEL"]
  | 103 => ["dex::ERR_ALREADY_RESOLVED"; "modelregistry::ERR_NAME_TOO_LONG"]
  | 107 => ["dex::ERR_ALREADY_INITIALIZED"]
  | 114 => ["dex::ERR_NOT_INITIALIZED"]
  | 116 => ["dex::ERR_NOT_APPROVED"]
  | 120 => ["dex::ERR_STAKE_PERIOD_ENDED"]
  | 121 => ["dex::ERR_NOTE_BUSY"]
  | 122 => ["dex::ERR_STAKE_NOT_APPROVED"]
  | 124 => ["dex::ERR_STAKE_NOT_STARTED"]
  | 125 => ["dex::ERR_RESULT_NOT_STARTED"]
  | 126 => ["dex::ERR_RESULT_ENDED"]
  | 128 => ["dex::ERR_ZERO_TOKEN_AMOUNT"]
  | 129 => ["dex::ERR_INVALID_PARAMS"]
  | 130 => ["dex::ERR_INVALID_OUTCOME_ID"]
  | 132 => ["dex::ERR_ALREADY_CANCELLED"]
  | 133 => ["dex::ERR_NOT_CANCELLED"]
  | 137 => ["dex::ERR_INVALID_ZKPROOF"]
  | 138 => ["dex::ERR_INVALID_TOKEN_TYPE"]
  | 141 => ["dex::ERR_NOT_ALLOWED"]
  | 142 => ["dex::ERR_STAKE_NOT_EXISTS"]
  | 143 => ["dex::ERR_HAS_DEBT"]
  | 144 => ["dex::ERR_NON_ZERO_BALANCE"]
  | 145 => ["dex::ERR_COUPON_POOL_LIMIT_EXCEEDED"]
  | 146 => ["dex::ERR_NO_COUPON_AVAILABLE"]
  | 147 => ["dex::ERR_INVALID_BET_TYPE"]
  | 148 => ["dex::ERR_COUPON_ALREADY_EXISTS"]
  | 149 => ["dex::ERR_COUPON_ACTIVE"]
  | 150 => ["dex::ERR_DEBT_NON_ZERO"]
  | 151 => ["dex::ERR_INVALID_STATE"]
  | 154 => ["dex::ERR_ALREADY_FROZEN"]
  | 156 => ["dex::ERR_NOT_STAKEEND"]
  | 158 => ["dex::ERR_ORDER_NOT_FOUND"]
  | 160 => ["dex::ERR_ORDER_TOO_SMALL"]
  | 161 => ["dex::ERR_BATCH_TOO_LARGE"]
  | 162 => ["dex::ERR_EMPTY_BATCH"]
  | 163 => ["dex::ERR_AMOUNT_NOT_LOT_MULTIPLE"]
  | 164 => ["dex::ERR_PRICE_NOT_TICK_MULTIPLE"]
  | 165 => ["dex::ERR_ORDERBOOK_NOT_SHUTDOWN"]
  | 167 => ["dex::ERR_OPEN_ORDERS_EXIST"]
  | 168 => ["dex::ERR_NOTIONAL_OVERFLOW"]
  | 169 => ["dex::ERR_STAKE_EXISTS"]
  | 170 => ["dex::ERR_NOT_ALLOWED_CONSTRUCTOR"]
  | 301 => ["airegistry::ERR_NOT_OWNER"]
  | 302 => ["airegistry::ERR_INVALID_SENDER"]
  | 303 => ["airegistry::ERR_ZERO_AMOUNT"]
  | 304 => ["airegistry::ERR_ALREADY_REGISTERED"]
  | 306 => ["airegistry::ERR_INSUFFICIENT_TOKENS"]
  | 311 => ["airegistry::ERR_NO_SHELL"]
  | 313 => ["airegistry::ERR_BAD_PARAM"]
  | 314 => ["airegistry::ERR_OVERFLOW"]
  | 316 => ["airegistry::ERR_BAD_CODE_HASH"]
  | 318 => ["airegistry::ERR_NOT_FUNDED"]
  | 319 => ["airegistry::ERR_ALREADY_FUNDED"]
  | 320 => ["airegistry::ERR_NOT_OPEN"]
  | 321 => ["airegistry::ERR_ALREADY_OPEN"]
  | 322 => ["airegistry::ERR_NOT_BUYER"]
  | 323 => ["airegistry::ERR_SETTLE_WINDOW_OPEN"]
  | 324 => ["airegistry::ERR_DISPUTED"]
  | 325 => ["airegistry::ERR_NOT_DISPUTED"]
  | 326 => ["airegistry::ERR_DISPUTE_WINDOW_OPEN"]
  | 327 => ["airegistry::ERR_STREAM_TIMEOUT_OPEN"]
  | 328 => ["airegistry::ERR_INSUFFICIENT_DEPOSIT"]
  | 329 => ["airegistry::ERR_STILL_OPEN"]
  | 332 => ["airegistry::ERR_BOND_NOT_FUNDED"]
  | 333 => ["airegistry::ERR_BOND_ALREADY_FUNDED"]
  | 334 => ["iob::ERR_NO_LIQUIDITY"]
  | 335 => ["iob::ERR_BAD_FLAGS"]
  | 336 => ["airegistry::ERR_OFFER_LIVE"]
  | 340 => ["iob::ERR_QUEUE_FULL"]
  | 342 => ["iob::ERR_BAD_TOKEN_CONTRACT"]
  | 343 => ["iob::ERR_NAME_TOO_LONG"]
  | 344 => ["iob::ERR_BAD_MODEL_NAME"]
  | 345 => ["iob::ERR_NOT_DEPLOYER_NOTE"]
  | 346 => ["iob::ERR_EXPIRED"]
  | 350 => ["oracleeventlist::ERR_NOT_RANGE_EVENT"]
  | 400 => ["dex::ERR_MESSAGE_IS_EXIST"]
  | 401 => ["dex::ERR_MESSAGE_WITH_HUGE_EXPIREAT"]
  | 402 => ["dex::ERR_MESSAGE_EXPIRED"]
  | 403 => ["dex::ERR_INVALID_HISTORY_PROOF"]
  | 404 => ["dex::ERR_NORM_REFUND_PENDING"]
  | 405 => ["dex::ERR_SELL_DEADLINE_TOO_LONG"]
  | 407 => ["dex::ERR_BAD_GAS_MIX"]
  | 408 => ["dex::ERR_BELOW_GAS_DEPOSIT"]
  | 409 => ["dex::ERR_FEE_TYPE_NOT_DEPOSITABLE"]
  | _ => []
  end.
Definition contract_error_label (code : Z) : option string :=
  if code =? 0 then None
  else Some (match contract_error_names code with
             | [] => "unknown contract error code"
             | [only] => only
             | many => String.append "ambiguous: " (String.concat "|" many)
             end).
Definition action_result_code_label (code : Z) : option string :=
  if code =? 38 then Some "insufficient extra currency / no_funds" else None.

(** ** Codes *)
Definition I64_MIN : Z := - 9223372036854775808.
(** [str::parse::<i64>] and [i64::from_str_radix(_, 16)]: an optional sign, digits. *)
Definition parse_signed (parse : Z -> text -> option Z) (t : text) : option Z :=
  match t with
  | c :: t' =>
      if bool_decide (c = "-"%char) then Z.opp <$> parse (- I64_MIN) t'
      else if bool_decide (c = "+"%char) then parse I64_MAX t' else parse I64_MAX t
  | [] => None
  end.
Definition value_i64 (v : Value) : option Z :=
  match v with
  | VNumber (PosInt n) => try_from I64_MAX n
  | VNumber (NegInt n) => Some n
  | VString s =>
      let t := trim (to_text s) in
      match strip_prefix (to_text "0x") t with
      | Some hex => parse_signed parse_hex_digits hex
      | None =>
          match strip_prefix (to_text "0X") t with
          | Some hex => parse_signed parse_hex_digits hex
          | None => parse_signed parse_digits t
          end
      end
  | _ => None
  end.

Record ExitCode : Type := mkExitCode { ec_code : Z; ec_stage : string }.
Definition is_exit_code_key (key : string) : bool :=
  bool_decide (key ∈ ["exit_code"; "exitCode"; "vm_exit_code"; "vmExitCode"]).
Definition is_action_result_code_key (key : string) : bool :=
  bool_decide (key ∈ ["result_code"; "resultCode"; "action_result_code"; "actionResultCode"]).

Definition join_path (path key : string) : string :=
  if bool_decide (path = ""%string) then key else String.append path (String.append "." key).
Definition index_path (path : string) (i : nat) : string :=
  String.append path (String.append "[" (String.append (of_text (print_u128 (Z.of_nat i))) "]")).

(** [i64::to_string], and the label a message puts beside an exit code. *)
Definition print_i64 (n : Z) : text :=
  if n <? 0 then "-"%char :: print_u128 (- n) else print_u128 n.
Definition exit_code_fragment (exit : ExitCode) : text :=
  to_text "exit_code=" ++ print_i64 (ec_code exit)
  ++ (match contract_error_label (ec_code exit) with
      | Some l => to_text " (" ++ to_text l ++ to_text ")"
      | None => []
      end)
  ++ to_text " stage=" ++ to_text (ec_stage exit).

(** [collect_exit_codes_recursive] and its twin for the action phase: every code
    under a key of the kind, in document order. *)
Fixpoint collect_codes (is_key : string -> bool) (path : string) (v : Value) : list ExitCode :=
  match v with
  | VObject entries =>
      flat_map (fun '(key, child) =>
        (if is_key key then match value_i64 child with Some code => [mkExitCode code path] | None => [] end
         else []) ++ collect_codes is_key (join_path path key) child) entries
  | VArray items =>
      (fix arrays (i : nat) (vs : list Value) : list ExitCode :=
         match vs with
         | [] => []
         | child :: rest => collect_codes is_key (index_path path i) child ++ arrays (S i) rest
         end) O items
  | _ => []
  end.
Definition all_exit_codes (v : Value) : list ExitCode := collect_codes is_exit_code_key "" v.
Definition all_action_result_codes (v : Value) : list ExitCode := collect_codes is_action_result_code_key "" v.
Definition first_nonzero (codes : list ExitCode) : option ExitCode :=
  find (fun e => negb (ec_code e =? 0)) codes.
Definition first_nonzero_exit_code (v : Value) : option ExitCode := first_nonzero (all_exit_codes v).
Definition first_nonzero_action_result_code (v : Value) : option ExitCode :=
  first_nonzero (all_action_result_codes v).

Fixpoint value_at_path (v : Value) (path : list string) : option Value :=
  match path with
  | [] => Some v
  | segment :: rest => match get_field v segment with Some c => value_at_path c rest | None => None end
  end.

(** ** Masking *)
Definition is_ext_message_token_key (key : string) : bool :=
  bool_decide (of_text (to_ascii_lowercase (to_text key)) ∈ ["extmessagetoken"; "ext_message_token"]).
Definition CREDENTIAL_KEYS : list string :=
  ["extmessagetoken"; "ext_message_token"; "authorization"; "accesstoken"; "access_token"; "refreshtoken";
   "refresh_token"; "api_key"; "apikey"; "provider_api_key"; "providerapikey"; "secret"; "secretkey";
   "secret_key"; "secret_hash"; "seed"; "seedphrase"; "seed_phrase"; "mnemonic"; "password";
   "password_hash"; "passwd"; "privatekey"; "private_key"; "signature"; "unsigned"; "signedmessagebody";
   "signed_message_body"; "messageboc"; "message_boc"; "signedboc"; "signed_boc"].
Definition is_credential_key (key : string) : bool :=
  bool_decide (of_text (to_ascii_lowercase (to_text key)) ∈ CREDENTIAL_KEYS).

(** Every non-empty string below a value. *)
Fixpoint collect_strings (v : Value) : list string :=
  match v with
  | VString s => if bool_decide (s = ""%string) then [] else [s]
  | VObject entries => flat_map (fun '(_, child) => collect_strings child) entries
  | VArray items => flat_map collect_strings items
  | _ => []
  end.
(** The credentials of the payload that may be echoed elsewhere in it. *)
Fixpoint collect_echo_secrets (v : Value) : list string :=
  match v with
  | VObject entries =>
      flat_map (fun '(key, child) =>
        if is_credential_key key && negb (is_ext_message_token_key key)
        then collect_strings child else collect_echo_secrets child) entries
  | VArray items => flat_map collect_echo_secrets items
  | _ => []
  end.

(** [str::replace] of a non-empty pattern: the occurrences found from the left. *)
Fixpoint replace_text (fuel : nat) (p r t : text) : text :=
  match fuel with
  | O => t
  | S fuel =>
      match t with
      | [] => []
      | c :: t' =>
          match strip_prefix p t with
          | Some rest => r ++ replace_text fuel p r rest
          | None => c :: replace_text fuel p r t'
          end
      end
  end.
Definition replace_all (p r t : text) : text := replace_text (S (length t)) p r t.

Definition mask_one (masked : text) (secret : string) : text :=
  replace_all (to_text secret) (to_text REDACTED) masked.
Definition longer_first (a b : string) : bool := (String.length b <=? String.length a)%nat.

(** The order in which the hash set yields its members is unspecified. *)
Section Masking.
Context (hash_order : list string -> list string).

(** [mask_exact_secrets]: the secrets of eight bytes or more, longest first. *)
Definition mask_order (secrets : list string) : list string :=
  sort_by longer_first (filter (fun s => (8 <= String.length s)%nat) (hash_order secrets)).
Definition mask_exact_secrets (t : string) (secrets : list string) : string :=
  of_text (fold_left mask_one (mask_order secrets) (to_text t)).

Fixpoint sanitize_value (secrets : list string) (v : Value) : Value :=
  match v with
  | VObject entries =>
      VObject (map (fun '(key, child) =>
        (key, if is_credential_key key then VString REDACTED else sanitize_value secrets child)) entries)
  | VArray items => VArray (map (sanitize_value secrets) items)
  | VString s => VString (mask_exact_secrets s secrets)
  | _ => v
  end.
Definition sanitize_onchain_submit_payload (v : Value) : Value :=
  sanitize_value (remove_dups (collect_echo_secrets v)) v.

(** ** The verdict on a response *)
Inductive SubmitFailure : Type :=
| Rejected (error : Value)
| ExitFailed (exit : ExitCode)
| ActionFailed (action : ExitCode)
| Aborted.
Record OnchainSubmitError : Type := mkSubmitError {
  se_failure : SubmitFailure;
  se_sanitized_payload : Value
}.
Definition is_null (v : Value) : bool := match v with Null => true | _ => false end.
Definition has_error (resp : Value) : bool :=
  from_option (fun e => negb (is_null e)) false (get_field resp "error").
Definition is_aborted (resp : Value) : bool :=
  bool_decide ((value_at_path resp ["result"; "aborted"] ≫= as_bool) = Some true).
Definition validate_onchain_submit_response (resp : Value) : outcome OnchainSubmitError Value :=
  let refuse f := Err (mkSubmitError f (sanitize_onchain_submit_payload resp)) in
  if has_error resp then
    match get_field (sanitize_onchain_submit_payload resp) "error" with
    | Some sanitized => refuse (Rejected sanitized)
    | None => Panic
    end
  else
    match first_nonzero_exit_code resp with
    | Some exit => refuse (ExitFailed exit)
    | None =>
        match first_nonzero_action_result_code resp with
        | Some action => refuse (ActionFailed action)
        | None => if is_aborted resp then refuse Aborted else Ok resp
        end
    end.
End Masking.
