(* ===== verification/DiagnosticsSafety.v ===== *)
(** * DiagnosticsSafety: nothing that reports a failure is accepted, no credential is echoed *)
From Stdlib Require Import Ascii.
From S2P Require Import Prelude Text Json Diagnostics.

(** ** Occurrences *)
Lemma strip_prefix_spec p t r : strip_prefix p t = Some r <-> t = p ++ r.
Proof.
  revert t. induction p as [|a p IH]; intros [|b t]; simpl; [split; congruence..|].
  case_bool_decide as Hab; [subst; rewrite IH; split; congruence|split; congruence].
Qed.
Lemma contains_text_spec p t : contains_text p t = true <-> exists a b, t = a ++ p ++ b.
Proof.
  split.
  - induction t as [|c t IH]; simpl; (destruct (strip_prefix p _) as [r|] eqn:E;
      [apply strip_prefix_spec in E as ->; by exists [], r|]); [done|].
    intros (a & b & ->)%IH. by exists (c :: a), b.
  - intros (a & b & ->). induction a as [|c a IH].
    + assert (strip_prefix p ([] ++ p ++ b) = Some b) as E by by apply strip_prefix_spec.
      simpl app in *. by destruct (p ++ b); simpl in *; rewrite E.
    + simpl. rewrite IH. by destruct (strip_prefix p _).
Qed.
Lemma contains_false p t : contains_text p t = false <-> forall a b, t <> a ++ p ++ b.
Proof.
  rewrite <- not_true_iff_false, contains_text_spec. split.
  - intros H a b E. apply H. by exists a, b.
  - intros H (a & b & E). by apply (H a b).
Qed.
Lemma contains_suffix p a t : contains_text p (a ++ t) = false -> contains_text p t = false.
Proof. rewrite !contains_false. intros H x y ->. apply (H (a ++ x) y). by rewrite <- app_assoc. Qed.

(** ** Masks

    A mask opens and closes with a bracket; a text without brackets that is not part
    of the mask occurs in a masked text only between masks. *)
Definition R : text := to_text REDACTED.
Definition plain (p : text) : Prop :=
  p <> [] /\ ~ In "<"%char p /\ ~ In ">"%char p /\ contains_text p R = false.

Lemma R_head : exists m, R = "<"%char :: m.
Proof. by eexists. Qed.
Lemma R_suffix k l : R = k ++ l -> l = [] \/ In ">"%char l.
Proof.
  intros H. destruct (decide (l = [])) as [|Hl]; [by left|right].
  destruct (exists_last Hl) as (l' & c & ->). apply in_app_iff. right. left.
  assert (last R = Some c) as Hc by (rewrite H, app_assoc; apply last_snoc).
  by injection Hc as <-.
Qed.
Lemma plain_between p a b : plain p -> contains_text p (a ++ R ++ b) = true ->
  contains_text p a = true \/ contains_text p b = true.
Proof.
  intros (Hne & Hlt & Hgt & HR). rewrite !contains_text_spec. intros (x & y & E).
  rewrite contains_false in HR. destruct R_head as [m Hm].
  apply app_eq_app in E as [l [[-> E]|[-> E]]].
  - left. apply app_eq_app in E as [l' [[-> E]|[-> E]]]; [|by exists x, l'].
    destruct l' as [|c l']; [exists x, []; by rewrite !app_nil_r|].
    exfalso. apply Hlt. rewrite Hm in E. simpl in E. injection E as <- _. apply in_app_iff. right. by left.
  - apply app_eq_app in E as [l' [[E E']|[-> E]]]; [|right; by exists l', y].
    apply app_eq_app in E' as [k [[-> ->]|[-> ->]]]; [|by destruct (HR l k)].
    right. destruct (R_suffix l l' E) as [->|Hin]; [by exists [], y|].
    destruct Hgt. apply in_app_iff. by left.
Qed.

(** ** Replacement *)
Lemma replace_prefix fuel q p t r : ~ In "<"%char p ->
  strip_prefix p (replace_text fuel q R t) = Some r -> exists r', strip_prefix p t = Some r'.
Proof.
  intros Hlt. revert p t r Hlt. induction fuel as [|fuel IH]; intros p t r Hlt; simpl; [by eexists|].
  destruct t as [|c t]; [by eexists|].
  destruct (strip_prefix q (c :: t)) as [rest|] eqn:E.
  - destruct p as [|a p]; [by eexists|]. intros H. apply strip_prefix_spec in H.
    destruct R_head as [m Hm]. rewrite Hm in H. injection H as <- _. destruct Hlt. by left.
  - destruct p as [|a p]; [by eexists|]. simpl. case_bool_decide; [|done].
    intros H'. eapply IH; [|exact H']. intros ?. apply Hlt. by right.
Qed.
Lemma replace_keeps_free fuel q p t : plain p ->
  contains_text p t = false -> contains_text p (replace_text fuel q R t) = false.
Proof.
  intros Hp. revert t. induction fuel as [|fuel IH]; intros t Hf; [done|]. simpl.
  destruct t as [|c t]; [done|]. pose proof (contains_suffix p [c] t Hf) as Hft.
  destruct (strip_prefix q (c :: t)) as [rest|] eqn:E.
  - apply strip_prefix_spec in E. rewrite E in Hf. apply contains_suffix, IH in Hf.
    apply not_true_iff_false. intros H. apply (plain_between p []) in H as [H|H]; [|congruence|done].
    destruct Hp as [Hne _]. by destruct p.
  - simpl. destruct (strip_prefix p (c :: replace_text fuel q R t)) as [r|] eqn:Er; [|by apply IH].
    destruct p as [|a p]; [by destruct Hp|]. simpl in Er. case_bool_decide as Hac; [subst|done].
    destruct (replace_prefix fuel q p t r) as [r' Hr']; [|done|].
    + destruct Hp as (_ & Hlt & _). intros ?. apply Hlt. by right.
    + simpl in Hf. rewrite bool_decide_true in Hf by done. by rewrite Hr' in Hf.
Qed.
Lemma replace_frees fuel p t : plain p -> (length t < fuel)%nat ->
  contains_text p (replace_text fuel p R t) = false.
Proof.
  intros Hp. revert t. induction fuel as [|fuel IH]; intros t Hl; [lia|]. simpl.
  destruct t as [|c t]; [destruct p; [by destruct Hp|done]|].
  destruct (strip_prefix p (c :: t)) as [rest|] eqn:E.
  - apply strip_prefix_spec in E. assert (length (c :: t) = (length p + length rest)%nat) as Hlen
      by (rewrite E; apply length_app).
    apply not_true_iff_false. intros H. apply (plain_between p []) in H as [H|H]; [| |done].
    + destruct Hp as [Hne _]. by destruct p.
    + rewrite IH in H; [done|]. destruct p; [by destruct Hp|]. simpl in *. lia.
  - simpl. destruct (strip_prefix p (c :: replace_text fuel p R t)) as [r|] eqn:Er; [|apply IH; simpl in Hl; lia].
    destruct p as [|a p]; [by destruct Hp|]. simpl in Er, E. case_bool_decide as Hac; [subst|done].
    destruct (replace_prefix fuel (c :: p) p t r) as [r' Hr']; [|done|by rewrite Hr' in E].
    destruct Hp as (_ & Hlt & _). intros ?. apply Hlt. by right.
Qed.

Lemma mask_fold_free secrets p t : plain (to_text p) -> contains_text (to_text p) t = false ->
  contains_text (to_text p) (fold_left mask_one secrets t) = false.
Proof.
  intros Hp. revert t. induction secrets as [|s secrets IH]; intros t Hf; [done|].
  simpl. apply IH. by apply replace_keeps_free.
Qed.
Lemma mask_fold_frees secrets p t : plain (to_text p) -> In p secrets ->
  contains_text (to_text p) (fold_left mask_one secrets t) = false.
Proof.
  intros Hp. revert t. induction secrets as [|s secrets IH]; intros t Hin; [done|].
  destruct Hin as [->|Hin]; simpl; [|by apply IH]. apply mask_fold_free; [done|]. apply replace_frees; [done|lia].
Qed.

(** ** Leaves *)
Fixpoint string_leaves (v : Value) : list string :=
  match v with
  | VString s => [s]
  | VObject entries => flat_map (fun '(_, child) => string_leaves child) entries
  | VArray items => flat_map string_leaves items
  | _ => []
  end.
Lemma Value_nested_ind (P : Value -> Prop) :
  P Null -> (forall b, P (VBool b)) -> (forall n, P (VNumber n)) -> (forall s, P (VString s)) ->
  (forall vs, Forall P vs -> P (VArray vs)) ->
  (forall es, Forall (fun e => P (snd e)) es -> P (VObject es)) -> forall v, P v.
Proof.
  intros H1 H2 H3 H4 H5 H6. fix F 1. intros [|b|n|s|vs|es]; [done|auto..| |].
  - apply H5. induction vs; constructor; auto.
  - apply H6. induction es; constructor; auto.
Qed.

(** [v] occurs in a value, at any depth. *)
Inductive within (v : Value) : Value -> Prop :=
| within_here : within v v
| within_array x vs : In x vs -> within v x -> within v (VArray vs)
| within_object k x es : In (k, x) es -> within v x -> within v (VObject es).
(** A credential: a non-empty string below a credential key. *)
Definition credential (v : Value) (secret : string) : Prop :=
  exists es key child, within (VObject es) v /\ In (key, child) es /\
    is_credential_key key = true /\ is_ext_message_token_key key = false /\
    within (VString secret) child /\ secret <> ""%string.
Lemma strings_collected v s : within (VString s) v -> s <> ""%string -> In s (collect_strings v).
Proof.
  intros H Hs. induction H as [|x vs Hin _ IH|k x es Hin _ IH]; simpl.
  - rewrite bool_decide_false by done. by left.
  - apply in_flat_map. by exists x.
  - apply in_flat_map. by exists (k, x).
Qed.
Lemma echoes_strings v s : In s (collect_echo_secrets v) -> In s (collect_strings v).
Proof.
  induction v as [| | | |vs IH|es IH] using Value_nested_ind; simpl; try done; rewrite !in_flat_map;
    rewrite List.Forall_forall in IH.
  - intros (x & Hx & Hs). exists x. auto.
  - intros ([k x] & Hx & Hs). exists (k, x). split; [done|]. destruct (_ && _); [done|]. by apply (IH (k, x)).
Qed.
Lemma credentials_collected v s : credential v s -> In s (collect_echo_secrets v).
Proof.
  intros (es & key & child & Hw & Hin & Hk & Hext & Hs & Hne).
  induction Hw as [|x vs Hx _ IH|k x es' Hx _ IH]; simpl; apply in_flat_map.
  - exists (key, child). rewrite Hk, Hext. split; [done|]. by apply strings_collected.
  - by exists x.
  - exists (k, x). split; [done|]. destruct (_ && _); [|done]. by apply echoes_strings.
Qed.

(** A code reported anywhere in the response. *)
Definition reports (is_key : string -> bool) (v : Value) (code : Z) : Prop :=
  exists es key child, within (VObject es) v /\ In (key, child) es /\ is_key key = true /\
    value_i64 child = Some code.
Lemma array_codes is_key path code vs i : Exists (fun v => forall p, exists e, In e (collect_codes is_key p v) /\ ec_code e = code) vs ->
  exists e, In e ((fix arrays (i : nat) (vs : list Value) : list ExitCode :=
    match vs with [] => [] | child :: rest => collect_codes is_key (index_path path i) child ++ arrays (S i) rest end) i vs)
    /\ ec_code e = code.
Proof.
  intros H. revert i. induction H as [v vs Hv|v vs _ IH]; intros i.
  - destruct (Hv (index_path path i)) as (e & He & Hc). exists e. split; [|done]. apply in_app_iff. by left.
  - destruct (IH (S i)) as (e & He & Hc). exists e. split; [|done]. apply in_app_iff. by right.
Qed.
Lemma codes_reported is_key v code path : reports is_key v code ->
  exists e, In e (collect_codes is_key path v) /\ ec_code e = code.
Proof.
  intros (es & key & child & Hw & Hin & Hk & Hc). revert path.
  induction Hw as [|x vs Hx _ IH|k x es' Hx _ IH]; intros path; simpl.
  - exists (mkExitCode code path). split; [|done]. apply in_flat_map. exists (key, child). split; [done|].
    rewrite Hk, Hc. by left.
  - apply array_codes. apply List.Exists_exists. by exists x.
  - destruct (IH (join_path path k)) as (e & He & Hcode). exists e. split; [|done]. apply in_flat_map.
    exists (k, x). split; [done|]. apply in_app_iff. by right.
Qed.
Lemma first_nonzero_none codes : first_nonzero codes = None <-> forall e, In e codes -> ec_code e = 0.
Proof.
  unfold first_nonzero. split.
  - intros H e He. pose proof (find_none _ _ H e He) as Hz. simpl in Hz. lia.
  - intros H. destruct (find _ codes) as [e|] eqn:E; [|done]. apply find_some in E as [He Hz].
    rewrite (H e He) in Hz. done.
Qed.

Section Sanitize.
Context (hash_order : list string -> list string) (Horder : forall l, hash_order l ≡ₚ l).

Lemma mask_order_in secrets p : In p secrets -> (8 <= String.length p)%nat -> In p (mask_order hash_order secrets).
Proof.
  intros Hin Hl. unfold mask_order. apply list_elem_of_In. rewrite sort_by_perm. apply list_elem_of_filter.
  split; [done|]. rewrite Horder. by apply list_elem_of_In.
Qed.
Lemma sanitized_leaves secrets p v leaf : plain (to_text p) -> In p secrets -> (8 <= String.length p)%nat ->
  In leaf (string_leaves (sanitize_value hash_order secrets v)) ->
  contains_text (to_text p) (to_text leaf) = false.
Proof.
  intros Hp Hin Hl. revert leaf. induction v as [| | |s|vs IH|es IH] using Value_nested_ind; intros leaf; simpl; try done.
  - intros [<-|[]]. unfold mask_exact_secrets. rewrite to_of_text. apply mask_fold_frees; [done|]. by apply mask_order_in.
  - rewrite in_flat_map. intros (v' & (v & <- & Hv)%in_map_iff & Hleaf).
    rewrite List.Forall_forall in IH. by eapply IH.
  - rewrite in_flat_map. intros ([k' v'] & ([k v] & [= <- <-] & Hv)%in_map_iff & Hleaf).
    rewrite List.Forall_forall in IH. specialize (IH _ Hv). simpl in IH.
    destruct (is_credential_key k); [|by apply IH]. simpl in Hleaf. destruct Hleaf as [<-|[]]. apply Hp.
Qed.
End Sanitize.

Lemma sanitize_keeps_field hash_order secrets v key c : get_field v key = Some c ->
  exists c', get_field (sanitize_value hash_order secrets v) key = Some c'.
Proof.
  destruct v as [| | | | |es]; simpl; try done. induction es as [|[k x] es IH]; simpl; [done|].
  case_bool_decide; [by eexists|apply IH].
Qed.

Lemma field_leaves v key c leaf : get_field v key = Some c -> In leaf (string_leaves c) -> In leaf (string_leaves v).
Proof.
  intros Hg Hin. destruct v as [| | | | |es]; try done. simpl in *. apply in_flat_map.
  assert (In (key, c) es) as Hes; [|by exists (key, c)].
  clear Hin. induction es as [|[k x] es IH]; simpl in *; [done|].
  case_bool_decide; [simplify_eq; by left|right; auto].
Qed.

(** A submit response is accepted only when nothing in it reports a failure.  An
    accepted response is returned unchanged, has no error object and no aborted flag,
    and no exit code or action result code in it, at any depth, is other than zero; a
    response that is not accepted is refused, never a panic. *)
Theorem accepted_responses_are_clean (hash_order : list string -> list string) (resp : Value) :
  match validate_onchain_submit_response hash_order resp with
  | Ok r => r = resp /\ has_error resp = false /\ is_aborted resp = false /\
      (forall code, reports is_exit_code_key resp code \/ reports is_action_result_code_key resp code -> code = 0)
  | Err e =>
      match se_failure e with
      | Rejected _ => has_error resp = true
      | ExitFailed x => In x (all_exit_codes resp) /\ ec_code x <> 0
      | ActionFailed x => In x (all_action_result_codes resp) /\ ec_code x <> 0
      | Aborted => is_aborted resp = true
      end
  | Panic => False
  end.
Proof.
  unfold validate_onchain_submit_response. cbn zeta. destruct (has_error resp) eqn:He.
  { unfold has_error in He. destruct (get_field resp "error") as [c|] eqn:Hg; [|done].
    destruct (sanitize_keeps_field hash_order (remove_dups (collect_echo_secrets resp)) resp "error" c Hg) as [c' Hc'].
    unfold sanitize_onchain_submit_payload. by rewrite Hc'. }
  destruct (first_nonzero_exit_code resp) as [x|] eqn:Ex.
  { apply find_some in Ex as [? ?]. simpl. split; [done|lia]. }
  destruct (first_nonzero_action_result_code resp) as [x|] eqn:Ea.
  { apply find_some in Ea as [? ?]. simpl. split; [done|lia]. }
  destruct (is_aborted resp) eqn:Hab; [done|]. split_and!; try done.
  intros code [Hr|Hr]; apply (codes_reported _ _ _ ""%string) in Hr as (e & Hin & <-).
  - by apply (proj1 (first_nonzero_none _) Ex).
  - by apply (proj1 (first_nonzero_none _) Ea).
Qed.

(** A refused response does not echo credentials.  Whatever order the secrets are
    masked in, no string of the payload kept with the error, nor of the error object
    quoted in its message, contains a credential of eight bytes or more that was
    anywhere in the response (a credential with a bracket, or the word of the mask
    itself, apart). *)
Theorem refusals_echo_no_credential (hash_order : list string -> list string) (resp : Value)
    (e : OnchainSubmitError) (secret leaf : string) :
  (forall l, hash_order l ≡ₚ l) ->
  validate_onchain_submit_response hash_order resp = Err e ->
  credential resp secret -> (8 <= String.length secret)%nat -> plain (to_text secret) ->
  In leaf (string_leaves (se_sanitized_payload e) ++
           match se_failure e with Rejected err => string_leaves err | _ => [] end) ->
  contains_text (to_text secret) (to_text leaf) = false.
Proof.
  intros Horder Hv Hcred Hl Hp Hleaf.
  assert (In secret (remove_dups (collect_echo_secrets resp))) as Hin.
  { apply list_elem_of_In, elem_of_remove_dups, list_elem_of_In. by apply credentials_collected. }
  apply (sanitized_leaves hash_order Horder _ secret resp leaf Hp Hin Hl).
  change (In leaf (string_leaves (sanitize_onchain_submit_payload hash_order resp))).
  unfold validate_onchain_submit_response in Hv.
  repeat case_match; simplify_eq; simpl in Hleaf; rewrite ?app_nil_r in Hleaf; try done.
  apply in_app_iff in Hleaf as [?|Hleaf]; [done|].
  simpl in H. simplify_eq. by eapply field_leaves.
Qed.
