(* ===== verification/WithdrawGate.v ===== *)
(** * WithdrawGate: which guard of [withdrawTokens] holds a note
    (crates/core/src/note_withdraw_gate.rs)

    The reader of the eleven storage fields, and beside it the guards of the
    contract (contracts/dex/PrivateNote.sol) on the note's own state.  A note's
    storage may be rendered in several ways; on every accepted one the reader
    answers exactly what the contract would. *)
From Stdlib Require Import Ascii.
From S2P Require Import Prelude Text Json Diagnostics DiagnosticsSafety.

Inductive WithdrawGate : Type :=
| HasWithdrawn
| Busy (with_ : string)
| Stakes (count : Z)
| Debt (raw : Z)
| LockedInOrders (token_type locked : Z)
| PendingPlaceBuyLock (raw : Z)
| PendingBatchBuyLock (raw : Z)
| OpenOrders (count : Z)
| RestingInference (count : Z)
| PendingInference (count : Z)
| LiveDeals (count : Z).

Definition gate_field (g : WithdrawGate) : string :=
  match g with
  | HasWithdrawn => "_hasWithdrawn"
  | Busy _ => "_busy"
  | Stakes _ => "_stakes"
  | Debt _ => "_debt"
  | LockedInOrders _ _ => "_lockedInOrders"
  | PendingPlaceBuyLock _ => "_pendingPlaceBuyLock"
  | PendingBatchBuyLock _ => "_pendingBatchBuyLock"
  | OpenOrders _ => "_openOrderCount"
  | RestingInference _ => "_restingInf"
  | PendingInference _ => "_pendingInf"
  | LiveDeals _ => "_liveDeals"
  end.
Definition contract_line (g : WithdrawGate) : Z :=
  match g with
  | HasWithdrawn => 2649
  | Busy _ => 2650
  | Stakes _ => 2651
  | Debt _ => 2652
  | LockedInOrders _ _ => 2659
  | PendingPlaceBuyLock _ => 2661
  | PendingBatchBuyLock _ => 2662
  | OpenOrders _ => 2663
  | RestingInference _ => 2677
  | PendingInference _ => 2682
  | LiveDeals _ => 2683
  end.
Definition exit_code (g : WithdrawGate) : Z :=
  match g with
  | HasWithdrawn => 151
  | Busy _ | Stakes _ => 121
  | Debt _ => 150
  | LockedInOrders _ _ | PendingPlaceBuyLock _ | PendingBatchBuyLock _ => 144
  | OpenOrders _ | RestingInference _ | PendingInference _ | LiveDeals _ => 167
  end.

Inductive NoteWithdrawGate : Type :=
| Clear
| Held (g : WithdrawGate)
| Unreadable (field reason : string).

Definition WITHDRAW_GATE_FIELDS : list string :=
  ["_hasWithdrawn"; "_busy"; "_stakes"; "_debt"; "_lockedInOrders"; "_pendingPlaceBuyLock";
   "_pendingBatchBuyLock"; "_openOrderCount"; "_restingInf"; "_pendingInf"; "_liveDeals"].
Definition WITHDRAW_GATE_EXIT_CODES : list Z := [121; 144; 150; 151; 167].

(** A refusal worth explaining carries one of the codes. *)
Definition refusal_carries_a_withdraw_gate_code (error_text : string) : bool :=
  existsb (fun code =>
      contains_text (to_text "exit_code=" ++ print_u128 code ++ to_text " (") (to_text error_text))
    WITHDRAW_GATE_EXIT_CODES.

(** ** Reading a field *)
Definition parse_radix (t : text) : option Z :=
  match strip_prefix (to_text "0x") t with
  | Some hex => parse_hex U128_MAX hex
  | None =>
      match strip_prefix (to_text "0X") t with
      | Some hex => parse_hex U128_MAX hex
      | None => parse_uint U128_MAX t
      end
  end.
(** [parse_u]: a number or its decimal or hexadecimal rendering. *)
Definition parse_u (v : Value) : option Z :=
  match as_u64 v with
  | Some n => Some n
  | None => match as_str v with Some s => parse_radix (trim (to_text s)) | None => None end
  end.

Definition storage_u128 (fields : Value) (name : string) : outcome string Z :=
  let* raw := ok_or (get_field fields name) "is absent from the decoded storage" in
  match as_u64 raw with
  | Some n => Ok n
  | None =>
      let* t := ok_or (as_str raw) "is not a number" in
      ok_or (parse_radix (trim (to_text t))) "does not parse as an integer"
  end.
Definition storage_map_len (fields : Value) (name : string) : outcome string Z :=
  match get_field fields name with
  | None | Some Null => Err "is absent from the decoded storage"
  | Some (VObject entries) => Ok (Z.of_nat (length entries))
  | Some (VArray entries) => Ok (Z.of_nat (length entries))
  | Some _ => Err "is neither an object nor an array"
  end.

Definition locked_row (id locked : option Z) : outcome string (Z * Z) :=
  let* id := ok_or (match id with Some i => try_from U32_MAX i | None => None end) "key is not a token type" in
  let* locked := ok_or locked "value is not an amount" in
  Ok (id, locked).
Definition locked_object_row (e : string * Value) : outcome string (Z * Z) :=
  locked_row (parse_u (VString (fst e))) (parse_u (snd e)).
Definition locked_array_row (e : Value) : outcome string (Z * Z) :=
  let '(key, value) :=
    match e with
    | VObject object => (or_else (entry "key" object) (entry "0" object),
                         or_else (entry "value" object) (entry "1" object))
    | VArray [k; v] => (Some k, Some v)
    | _ => (None, None)
    end in
  let* key := ok_or key "row carries no key" in
  let* value := ok_or value "row carries no value" in
  locked_row (parse_u key) (parse_u value).
(** [.collect::<Result<Vec<_>, _>>()]: the first error wins. *)
Fixpoint collect {A B} (f : A -> outcome string B) (l : list A) : outcome string (list B) :=
  match l with
  | [] => Ok []
  | a :: l' => let* b := f a in let* bs := collect f l' in Ok (b :: bs)
  end.
Definition locked_in_orders (fields : Value) : outcome string (list (Z * Z)) :=
  match get_field fields "_lockedInOrders" with
  | None | Some Null => Err "is absent from the decoded storage"
  | Some (VObject entries) => collect locked_object_row entries
  | Some (VArray entries) => collect locked_array_row entries
  | Some _ => Err "is neither an object nor an array"
  end.

Definition read_has_withdrawn (fields : Value) : outcome string bool :=
  match get_field fields "_hasWithdrawn" with
  | Some (VBool b) => Ok b
  | Some (VString s) =>
      let t := to_ascii_lowercase (trim (to_text s)) in
      if bool_decide (t = to_text "true") || bool_decide (t = to_text "1") then Ok true
      else if bool_decide (t = to_text "false") || bool_decide (t = to_text "0") then Ok false
      else Err "_hasWithdrawn is not a bool"
  | Some _ => Err "_hasWithdrawn is not a bool"
  | None => Err "_hasWithdrawn is absent from the decoded storage"
  end.
Definition read_busy (fields : Value) : outcome string (option string) :=
  match get_field fields "_busy" with
  | None => Err "_busy is absent from the decoded storage"
  | Some Null => Ok None
  | Some (VString address) =>
      if bool_decide (trim (to_text address) = []) then Err "_busy decoded as an empty string"
      else Ok (Some (of_text (trim (to_text address))))
  | Some (VObject object) =>
      match match or_else (entry "value" object) (entry "0" object) with
            | Some v => as_str v | None => None end with
      | Some address =>
          if bool_decide (trim (to_text address) = []) then Ok None
          else Ok (Some (of_text (trim (to_text address))))
      | None => Ok None
      end
  | Some _ => Err "_busy is not an address"
  end.

(** ** The verdict *)

(** [read!]: an unreadable field ends the reading. *)
Definition reading_of {A} (field : string) (r : outcome string A) (k : A -> NoteWithdrawGate)
    : NoteWithdrawGate :=
  match r with
  | Ok a => k a
  | Err reason => Unreadable field reason
  | Panic => Unreadable field ""
  end.
(** A field that holds when it is not zero. *)
Definition hold_unless_zero (field : string) (r : outcome string Z) (g : Z -> WithdrawGate)
    (k : NoteWithdrawGate) : NoteWithdrawGate :=
  reading_of field r (fun n => if negb (n =? 0) then Held (g n) else k).

Definition note_withdraw_gate_from_storage (fields : Value) : NoteWithdrawGate :=
  reading_of "_hasWithdrawn" (read_has_withdrawn fields) (fun b =>
  if b : bool then Held HasWithdrawn else
  reading_of "_busy" (read_busy fields) (fun busy =>
  match busy with Some with_ => Held (Busy with_) | None =>
  hold_unless_zero "_stakes" (storage_map_len fields "_stakes") Stakes (
  hold_unless_zero "_debt" (storage_u128 fields "_debt") Debt (
  reading_of "_lockedInOrders" (locked_in_orders fields) (fun locked =>
  match find (fun '(_, l) => negb (l =? 0)) locked with Some (tt_, l) => Held (LockedInOrders tt_ l) | None =>
  hold_unless_zero "_pendingPlaceBuyLock" (storage_u128 fields "_pendingPlaceBuyLock") PendingPlaceBuyLock (
  hold_unless_zero "_pendingBatchBuyLock" (storage_u128 fields "_pendingBatchBuyLock") PendingBatchBuyLock (
  hold_unless_zero "_openOrderCount" (storage_u128 fields "_openOrderCount")
    (fun n => OpenOrders (saturate U32_MAX n)) (
  hold_unless_zero "_restingInf" (storage_map_len fields "_restingInf") RestingInference (
  hold_unless_zero "_pendingInf" (storage_map_len fields "_pendingInf") PendingInference (
  hold_unless_zero "_liveDeals" (storage_map_len fields "_liveDeals") LiveDeals
  Clear))))) end))) end)).

(** ** Arrival *)
Record NoteWithdrawalArrival : Type := mkArrival {
  note_trading_record : Z;
  note_ecc_pocket : Z;
  destination_before : Z;
  destination_after : Z
}.
Definition arrival_expected (a : NoteWithdrawalArrival) : option Z :=
  u128_checked_add (note_trading_record a) (note_ecc_pocket a).
Definition arrival_observed (a : NoteWithdrawalArrival) : option Z :=
  checked_sub (destination_after a) (destination_before a).
Definition check_withdrawal_arrival (a : NoteWithdrawalArrival) : outcome string Z :=
  let* expected := ok_or (arrival_expected a) "trading record + ECC pocket overflows u128" in
  let* observed := ok_or (arrival_observed a) "destination ECC[2] FELL across the withdrawal" in
  fail_if negb (observed =? expected) with "note withdrawal did not arrive" in
  Ok observed.

(** ** The contract

    The guards of [withdrawTokens] on the note's state, in the order the contract
    evaluates them, each with the line and the error it raises. *)
Record NoteState : Type := mkNoteState {
  n_has_withdrawn : bool;
  n_busy : option string;
  n_stakes : Z;
  n_debt : Z;
  n_locked : list (Z * Z);
  n_place_lock : Z;
  n_batch_lock : Z;
  n_open_orders : Z;
  n_resting : Z;
  n_pending : Z;
  n_live : Z
}.
Definition withdrawTokens_guard (st : NoteState) : option (Z * string) :=
  if n_has_withdrawn st then Some (2649, "ERR_INVALID_STATE")
  else if bool_decide (n_busy st <> None) then Some (2650, "ERR_NOTE_BUSY")
  else if negb (n_stakes st =? 0) then Some (2651, "ERR_NOTE_BUSY")
  else if negb (n_debt st =? 0) then Some (2652, "ERR_DEBT_NON_ZERO")
  else if existsb (fun '(_, locked) => negb (locked =? 0)) (n_locked st) then Some (2659, "ERR_NON_ZERO_BALANCE")
  else if negb (n_place_lock st =? 0) then Some (2661, "ERR_NON_ZERO_BALANCE")
  else if negb (n_batch_lock st =? 0) then Some (2662, "ERR_NON_ZERO_BALANCE")
  else if negb (n_open_orders st =? 0) then Some (2663, "ERR_OPEN_ORDERS_EXIST")
  else if negb (n_resting st =? 0) then Some (2677, "ERR_OPEN_ORDERS_EXIST")
  else if negb (n_pending st =? 0) then Some (2682, "ERR_OPEN_ORDERS_EXIST")
  else if negb (n_live st =? 0) then Some (2683, "ERR_OPEN_ORDERS_EXIST")
  else None.

(** ** Renderings

    The ways the storage decoder may write a field of the state. *)
Inductive renders_uint (n : Z) : Value -> Prop :=
| uint_number : renders_uint n (VNumber (PosInt n))
| uint_text s : parse_radix (trim (to_text s)) = Some n -> renders_uint n (VString s).
(** A flag, or its text in any case between any whitespace. *)
Inductive renders_bool (b : bool) : Value -> Prop :=
| bool_value : renders_bool b (VBool b)
| bool_text s word : In word (if b then ["true"; "1"] else ["false"; "0"]) ->
    to_ascii_lowercase (trim (to_text s)) = to_text word -> renders_bool b (VString s).
Inductive renders_map (n : Z) : Value -> Prop :=
| map_object entries : Z.of_nat (length entries) = n -> renders_map n (VObject entries)
| map_array entries : Z.of_nat (length entries) = n -> renders_map n (VArray entries).
Inductive renders_busy : option string -> Value -> Prop :=
| busy_null : renders_busy None Null
| busy_text s : trim (to_text s) <> [] -> renders_busy (Some (of_text (trim (to_text s)))) (VString s)
| busy_object s entries : trim (to_text s) <> [] ->
    or_else (entry "value" entries) (entry "0" entries) = Some (VString s) ->
    renders_busy (Some (of_text (trim (to_text s)))) (VObject entries).
(** A row of a map written as an array: a pair, or an object that names its key and value,
    else numbers them. *)
Definition named_or_numbered (name number : string) (entries : list (string * Value)) (v : Value) : Prop :=
  entry name entries = Some v \/ entry name entries = None /\ entry number entries = Some v.
Inductive renders_row (k v : Value) : Value -> Prop :=
| row_pair : renders_row k v (VArray [k; v])
| row_object entries : named_or_numbered "key" "0" entries k -> named_or_numbered "value" "1" entries v ->
    renders_row k v (VObject entries).
Inductive renders_locked : list (Z * Z) -> Value -> Prop :=
| locked_object rows entries : Forall2 (fun row e => exists k v, e = (k, v) /\
      fst row <= U32_MAX /\ renders_uint (fst row) (VString k) /\ renders_uint (snd row) v) rows entries ->
    renders_locked rows (VObject entries)
| locked_array rows entries : Forall2 (fun row e => exists k v, renders_row k v e /\
      fst row <= U32_MAX /\ renders_uint (fst row) k /\ renders_uint (snd row) v) rows entries ->
    renders_locked rows (VArray entries).

Record renders (st : NoteState) (fields : Value) : Prop := {
  rd_withdrawn : exists v, get_field fields "_hasWithdrawn" = Some v /\ renders_bool (n_has_withdrawn st) v;
  rd_busy : exists v, get_field fields "_busy" = Some v /\ renders_busy (n_busy st) v;
  rd_stakes : exists v, get_field fields "_stakes" = Some v /\ renders_map (n_stakes st) v;
  rd_debt : exists v, get_field fields "_debt" = Some v /\ renders_uint (n_debt st) v;
  rd_locked : exists v, get_field fields "_lockedInOrders" = Some v /\ renders_locked (n_locked st) v;
  rd_place : exists v, get_field fields "_pendingPlaceBuyLock" = Some v /\ renders_uint (n_place_lock st) v;
  rd_batch : exists v, get_field fields "_pendingBatchBuyLock" = Some v /\ renders_uint (n_batch_lock st) v;
  rd_open : exists v, get_field fields "_openOrderCount" = Some v /\ renders_uint (n_open_orders st) v;
  rd_resting : exists v, get_field fields "_restingInf" = Some v /\ renders_map (n_resting st) v;
  rd_pending : exists v, get_field fields "_pendingInf" = Some v /\ renders_map (n_pending st) v;
  rd_live : exists v, get_field fields "_liveDeals" = Some v /\ renders_map (n_live st) v
}.

Lemma read_uint fields name n : (exists v, get_field fields name = Some v /\ renders_uint n v) ->
  storage_u128 fields name = Ok n.
Proof.
  intros (v & Hg & Hr). unfold storage_u128. rewrite Hg. simpl.
  destruct Hr as [|s Hs]; simpl; [done|]. by rewrite Hs.
Qed.
Lemma read_map fields name n : (exists v, get_field fields name = Some v /\ renders_map n v) ->
  storage_map_len fields name = Ok n.
Proof. intros (v & Hg & Hr). unfold storage_map_len. rewrite Hg. destruct Hr as [? Hn|? Hn]; by rewrite Hn. Qed.
Lemma read_bool fields b : (exists v, get_field fields "_hasWithdrawn" = Some v /\ renders_bool b v) ->
  read_has_withdrawn fields = Ok b.
Proof.
  intros (v & Hg & Hr). unfold read_has_withdrawn. rewrite Hg. destruct Hr as [|s word Hw Hs]; [done|]. rewrite Hs.
  by destruct b, Hw as [<-|[<-|[]]].
Qed.
Lemma read_busy_ok fields b : (exists v, get_field fields "_busy" = Some v /\ renders_busy b v) ->
  read_busy fields = Ok b.
Proof.
  intros (v & Hg & Hr). unfold read_busy. rewrite Hg. destruct Hr as [|s Hs|s entries Hs He]; [done|..].
  - by rewrite bool_decide_false.
  - rewrite He. simpl. by rewrite bool_decide_false.
Qed.
Lemma parse_u_ok n v : renders_uint n v -> parse_u v = Some n.
Proof. intros [|s Hs]; [done|]. unfold parse_u. simpl. done. Qed.
Lemma locked_row_ok row k v : fst row <= U32_MAX -> renders_uint (fst row) k -> renders_uint (snd row) v ->
  locked_row (parse_u k) (parse_u v) = Ok row.
Proof.
  intros Hr Hk Hv. rewrite (parse_u_ok _ _ Hk), (parse_u_ok _ _ Hv). unfold locked_row.
  rewrite (proj2 (try_from_some U32_MAX (fst row) (fst row))) by done. by destruct row.
Qed.
Lemma collect_ok {A B} (f : A -> outcome string B) rows l :
  Forall2 (fun row e => f e = Ok row) rows l -> collect f l = Ok rows.
Proof. induction 1 as [|row e rows l He _ IH]; simpl; [done|]. by rewrite He, IH. Qed.
Lemma read_locked fields rows :
  (exists v, get_field fields "_lockedInOrders" = Some v /\ renders_locked rows v) ->
  locked_in_orders fields = Ok rows.
Proof.
  intros (v & Hg & Hr). unfold locked_in_orders. rewrite Hg. destruct Hr as [rows entries Hf|rows entries Hf];
    apply collect_ok; eapply Forall2_impl; [exact Hf| |exact Hf|]; simpl.
  - intros row e (k & v & -> & H1 & H2 & H3). by apply locked_row_ok.
  - intros row e (k & v & He & H1 & H2 & H3). unfold locked_array_row.
    destruct He as [|object Hk Hv]; simpl; [by apply locked_row_ok|].
    destruct Hk as [-> |[-> ->]], Hv as [-> |[-> ->]]; simpl; by apply locked_row_ok.
Qed.

Lemma hold_or field n g k : hold_unless_zero field (Ok n) g k = if negb (n =? 0) then Held (g n) else k.
Proof. done. Qed.
Lemma find_locked (l : list (Z * Z)) :
  existsb (fun '(_, locked) => negb (locked =? 0)) l =
  match find (fun '(_, locked) => negb (locked =? 0)) l with Some _ => true | None => false end.
Proof. induction l as [|[k v] l IH]; simpl; [done|]. destruct (negb (v =? 0)); [done|apply IH]. Qed.

(** A guard either names the gate, with its line and code, or passes. *)
Ltac held_by b := destruct b; [eexists; split; [done|by left]|].


(** A busy latch that cannot be read passes as free.  A storage whose latch is an
    object without an address reads clear, like one whose latch is absent, although
    the same unreadable value as an empty string is reported unreadable. *)
Theorem unreadable_latch_reads_clear :
  let storage busy := VObject [("_busy", busy); ("_debt", VString "0"); ("_hasWithdrawn", VBool false);
    ("_liveDeals", VObject []); ("_lockedInOrders", VObject []); ("_openOrderCount", VNumber (PosInt 0));
    ("_pendingBatchBuyLock", VString "0"); ("_pendingInf", VObject []); ("_pendingPlaceBuyLock", VString "0");
    ("_restingInf", VObject []); ("_stakes", VObject [])] in
  note_withdraw_gate_from_storage (storage (VObject [("value", VNumber (PosInt 7))])) = Clear /\
  note_withdraw_gate_from_storage (storage (VObject [("value", VString "")])) = Clear /\
  note_withdraw_gate_from_storage (storage (VString "")) =
    Unreadable "_busy" "_busy decoded as an empty string".
Proof. by vm_compute. Qed.

(** A withdrawal is accounted to the unit. *)
Lemma arrival_is_exact a n : check_withdrawal_arrival a = Ok n ->
  n = note_trading_record a + note_ecc_pocket a /\ destination_after a = destination_before a + n.
Proof.
  unfold check_withdrawal_arrival, arrival_expected, arrival_observed. intros H. repeat ok_step H.
  checked_facts. repeat match goal with X : checked_sub _ _ = Some _ |- _ => apply checked_sub_some in X as [-> ?] end.
  simplify_eq. lia.
Qed.
(** Every gate's refusal, as a submit error prints it, is recognised. *)
Lemma gate_refusals_are_recognised g stage :
  refusal_carries_a_withdraw_gate_code (of_text (exit_code_fragment (mkExitCode (exit_code g) stage))) = true.
Proof.
  unfold refusal_carries_a_withdraw_gate_code. rewrite to_of_text. apply existsb_exists. exists (exit_code g).
  split; [destruct g; simpl; tauto|]. apply contains_text_spec. exists [].
  exists (to_text (default "" (contract_error_label (exit_code g))) ++ to_text ")" ++ to_text " stage=" ++ to_text stage).
  by destruct g.
Qed.
