(* ===== verification/Accumulator.v ===== *)
(** * Accumulator: the SHELL/eccUSDC exchange plans (crates/core/src/accumulator.rs)

    A sell is a list of lots in the four sizes the contract takes; a buy is one
    message.  [usize] is 64 bits wide; whether the allocator can hold the list is a
    parameter, as the source asks it. *)
From Stdlib Require Import Ascii.
From S2P Require Import Prelude Text Params Json.

Definition ACCUMULATOR_SHELL_PER_USDC_RAW : Z := 100 * SHELL_UNIT.
Definition USDC_UNIT : Z := 1000000.
Definition ACCUMULATOR_DENOMS : list Z := [1000; 100; 10; 1].

Record SellLot : Type := mkSellLot { sl_denom : Z; sl_shell_raw : Z }.
Record SellPlan : Type := mkSellPlan {
  sp_lots : list SellLot;
  sp_usdc_whole : Z;
  sp_shell_committed_raw : Z;
  sp_usdc_expected_raw : Z
}.
Inductive SellPlanError : Type :=
| SellZeroAmount
| SellOverflow
| InsufficientShell (required_raw available_raw : Z).

Section Sell.
(** [Vec::try_reserve_exact] of so many lots. *)
Context (can_reserve : Z -> bool).

(** The number of lots, as the fold of the source counts them. *)
Fixpoint count_lots (denoms : list Z) (total left : Z) : option Z :=
  match denoms with
  | [] => Some total
  | d :: rest =>
      match u128_checked_add total (left / d) with
      | Some next => count_lots rest next (left mod d)
      | None => None
      end
  end.
Fixpoint push_lots (denoms : list Z) (left : Z) : list SellLot :=
  match denoms with
  | [] => []
  | d :: rest =>
      let count := left / d in
      repeat (mkSellLot d (d * ACCUMULATOR_SHELL_PER_USDC_RAW)) (Z.to_nat count)
      ++ push_lots rest (left - count * d)
  end.
Definition sell_for_whole_usdc (usdc_whole : Z) : outcome SellPlanError SellPlan :=
  fail_if usdc_whole =? 0 with SellZeroAmount in
  let* committed := ok_or (u128_checked_mul usdc_whole ACCUMULATOR_SHELL_PER_USDC_RAW) SellOverflow in
  let* expected := ok_or (u128_checked_mul usdc_whole USDC_UNIT) SellOverflow in
  let* lot_count := ok_or (count_lots ACCUMULATOR_DENOMS 0 usdc_whole) SellOverflow in
  let* lot_count := ok_or (try_from U64_MAX lot_count) SellOverflow in
  fail_if negb (can_reserve lot_count) with SellOverflow in
  Ok (mkSellPlan (push_lots ACCUMULATOR_DENOMS usdc_whole) usdc_whole committed expected).

Definition max_whole_usdc_from_shell (shell_raw : Z) : Z := shell_raw / ACCUMULATOR_SHELL_PER_USDC_RAW.
Definition shell_remainder_raw (shell_raw : Z) : Z := shell_raw mod ACCUMULATOR_SHELL_PER_USDC_RAW.
Definition for_available_shell (shell_available_raw : Z) : outcome SellPlanError SellPlan :=
  sell_for_whole_usdc (max_whole_usdc_from_shell shell_available_raw).
End Sell.
Definition sell_require_funded (p : SellPlan) (available_raw : Z) : outcome SellPlanError unit :=
  fail_if available_raw <? sp_shell_committed_raw p
    with InsufficientShell (sp_shell_committed_raw p) available_raw in
  Ok tt.
Definition lot_count (p : SellPlan) : nat := length (sp_lots p).
Definition shell_left_raw (p : SellPlan) (available_raw : Z) : Z :=
  saturating_sub available_raw (sp_shell_committed_raw p).
Definition denomination_counts (p : SellPlan) : list (Z * nat) :=
  omap (fun d => let count := length (List.filter (fun l => sl_denom l =? d) (sp_lots p)) in
                 if (0 <? count)%nat then Some (d, count) else None) ACCUMULATOR_DENOMS.

Record BuyPlan : Type := mkBuyPlan {
  bp_usdc_whole : Z;
  bp_usdc_raw : Z;
  bp_shell_expected_raw : Z
}.
Inductive BuyPlanError : Type :=
| BuyZeroAmount
| BuyOverflow
| InsufficientUsdc (required_raw available_raw : Z).
Definition buy_for_whole_usdc (usdc_whole : Z) : outcome BuyPlanError BuyPlan :=
  fail_if usdc_whole =? 0 with BuyZeroAmount in
  let* usdc_raw := ok_or (u128_checked_mul usdc_whole USDC_UNIT) BuyOverflow in
  let* shell := ok_or (u128_checked_mul usdc_whole ACCUMULATOR_SHELL_PER_USDC_RAW) BuyOverflow in
  Ok (mkBuyPlan usdc_whole usdc_raw shell).
Definition buy_require_funded (p : BuyPlan) (available_raw : Z) : outcome BuyPlanError unit :=
  fail_if available_raw <? bp_usdc_raw p with InsufficientUsdc (bp_usdc_raw p) available_raw in
  Ok tt.

Definition decimal_units (raw unit_ : Z) (decimals : nat) : text :=
  print_u128 (raw / unit_) ++ "."%char :: map digit_char (fixed_digits decimals (raw mod unit_)).
Definition whole_shell_from_raw (raw : Z) : text := decimal_units raw SHELL_UNIT 9.
Definition whole_usdc_from_raw (raw : Z) : text := decimal_units raw USDC_UNIT 6.

(** ** Getters *)
Definition getter_field (v : Value) (field : string) : outcome string Value :=
  ok_or (get_field v field) "getter field missing".
Definition getter_uint (max : Z) (v : Value) (field : string) : outcome string Z :=
  let* raw := getter_field v field in
  match as_u64 raw with
  | Some n => Ok n
  | None =>
      let* s := ok_or (as_str raw) "getter field is neither a string nor an integer" in
      ok_or (parse_uint max (to_text s)) "getter field does not parse"
  end.
Definition getter_u64 : Value -> string -> outcome string Z := getter_uint U64_MAX.
Definition getter_u128 : Value -> string -> outcome string Z := getter_uint U128_MAX.
Definition getter_string (v : Value) (field : string) : outcome string string :=
  let* raw := getter_field v field in ok_or (as_str raw) "getter field is not a string".

Record LotId : Type := mkLotId { li_denom : Z; li_order_id : Z }.
Record QueueState : Type := mkQueueState {
  q_next_id : Z;
  q_available : Z;
  q_sold_prefix : Z;
  q_owed_count : Z
}.
Definition queue_decode_getter (v : Value) : outcome string QueueState :=
  let* next_id := getter_u64 v "nextId" in
  let* available := getter_u64 v "available" in
  let* sold_prefix := getter_u64 v "soldPrefix" in
  let* owed_count := getter_u64 v "owedCount" in
  Ok (mkQueueState next_id available sold_prefix owed_count).
Definition is_sold (q : QueueState) (order_id : Z) : bool :=
  negb (order_id =? 0) && (order_id <=? q_sold_prefix q).
Definition issued_order_ids (q : QueueState) : list Z := seqZ 1 (q_next_id q - 1).

Record LotDetails : Type := mkLotDetails {
  ld_root : string;
  ld_owner : string;
  ld_denom : Z;
  ld_order_id : Z;
  ld_claimed : bool
}.
Definition lot_decode_getter (v : Value) : outcome string LotDetails :=
  let* root := getter_string v "root" in
  let* owner := getter_string v "owner" in
  let* denom := getter_u64 v "denom" in
  let* denom := ok_or (try_from 65535 denom) "getDetails.denom does not fit a uint16" in
  let* order_id := getter_u64 v "orderId" in
  let* claimed := ok_or (get_field v "claimed" ≫= as_bool) "getDetails.claimed missing or not a bool" in
  Ok (mkLotDetails root owner denom order_id claimed).
Definition lot_id (l : LotDetails) : LotId := mkLotId (ld_denom l) (ld_order_id l).

Record RootDetails : Type := mkRootDetails {
  rd_seller_shell_pool_raw : Z;
  rd_usdc_balance_raw : Z;
  rd_owed_total_raw : Z
}.
Definition root_decode_getter (v : Value) : outcome string RootDetails :=
  let* pool := getter_u128 v "sellerShellPool" in
  let* balance := getter_u128 v "usdcBalance" in
  let* owed := getter_u128 v "owedTotal" in
  Ok (mkRootDetails pool balance owed).
Definition free_reserve_raw (r : RootDetails) : Z :=
  saturating_sub (rd_usdc_balance_raw r) (rd_owed_total_raw r).

(** ** The plan is exact and uses the fewest lots *)
Definition sum_of (f : SellLot -> Z) (lots : list SellLot) : Z := foldr (fun l acc => f l + acc) 0 lots.
Lemma sum_app f a b : sum_of f (a ++ b) = sum_of f a + sum_of f b.
Proof. induction a as [|l a IH]; simpl; [done|]. unfold sum_of in *. simpl. lia. Qed.
Lemma sum_repeat f l n : sum_of f (repeat l n) = Z.of_nat n * f l.
Proof. induction n as [|n IH]; [done|]. cbn [repeat]. unfold sum_of in *. cbn [foldr]. lia. Qed.

(** A lot the contract takes. *)
Definition takes (l : SellLot) : Prop :=
  In (sl_denom l) ACCUMULATOR_DENOMS /\ sl_shell_raw l = sl_denom l * ACCUMULATOR_SHELL_PER_USDC_RAW.


(** The decimal digits of an amount, thousands together. *)
Definition digits_of (n : Z) : Z * Z * Z * Z :=
  (n / 1000, n mod 1000 / 100, n mod 100 / 10, n mod 10).
Lemma push_lots_digits n : 0 <= n -> let '(a, b, c, d) := digits_of n in
  n = 1000 * a + 100 * b + 10 * c + d /\ 0 <= a /\ 0 <= b < 10 /\ 0 <= c < 10 /\ 0 <= d < 10 /\
  forall f, sum_of f (push_lots ACCUMULATOR_DENOMS n) =
    a * f (mkSellLot 1000 (1000 * ACCUMULATOR_SHELL_PER_USDC_RAW)) +
    b * f (mkSellLot 100 (100 * ACCUMULATOR_SHELL_PER_USDC_RAW)) +
    c * f (mkSellLot 10 (10 * ACCUMULATOR_SHELL_PER_USDC_RAW)) +
    d * f (mkSellLot 1 (1 * ACCUMULATOR_SHELL_PER_USDC_RAW)).
Proof.
  intros Hn. unfold digits_of, ACCUMULATOR_DENOMS. cbn [push_lots].
  set (l1 := n - n / 1000 * 1000). set (l2 := l1 - l1 / 100 * 100). set (l3 := l2 - l2 / 10 * 10).
  assert (l1 = n mod 1000) as H1 by (unfold l1; rewrite Z.mod_eq by lia; lia).
  assert (0 <= l1 < 1000) by (rewrite H1; apply Z.mod_pos_bound; lia).
  assert (l2 = l1 mod 100) as H2 by (unfold l2; rewrite (Z.mod_eq l1) by lia; lia).
  assert (0 <= l2 < 100) by (rewrite H2; apply Z.mod_pos_bound; lia).
  assert (l3 = l2 mod 10) as H3 by (unfold l3; rewrite (Z.mod_eq l2) by lia; lia).
  assert (n mod 100 = l2) as H4.
  { rewrite H2. replace n with (l1 + n / 1000 * 10 * 100) at 1 by (unfold l1; lia). apply Z.mod_add. lia. }
  assert (n mod 10 = l3) as H5.
  { rewrite H3. replace n with (l2 + (n / 1000 * 100 + l1 / 100 * 10) * 10) at 1 by (unfold l2, l1; lia).
    apply Z.mod_add. lia. }
  assert (l1 = n - n / 1000 * 1000) as D1 by done. assert (l2 = l1 - l1 / 100 * 100) as D2 by done.
  assert (l3 = l2 - l2 / 10 * 10) as D3 by done. rewrite <- H1, H4, H5, Z.div_1_r.
  clearbody l1 l2 l3. clear H1 H2 H3 H4 H5.
  assert (0 <= n / 1000 /\ 0 <= l1 / 100 < 10 /\ 0 <= l2 / 10 < 10 /\ 0 <= l3 < 10) as (? & ? & ? & ?)
    by (Z.to_euclidean_division_equations; lia).
  split_and!; try lia. intros f. rewrite !sum_app, !sum_repeat, !Z2Nat.id by lia. unfold sum_of at 1. cbn [foldr]. lia.
Qed.

Lemma length_sum lots : Z.of_nat (length lots) = sum_of (fun _ => 1) lots.
Proof. induction lots as [|l lots IH]; [done|]. cbn [length]. unfold sum_of in *. cbn [foldr]. lia. Qed.
Lemma push_lots_takes denoms n : (forall d, In d denoms -> In d ACCUMULATOR_DENOMS) ->
  Forall takes (push_lots denoms n).
Proof.
  revert n. induction denoms as [|d denoms IH]; intros n Hd; simpl; [done|]. apply Forall_app. split.
  - apply Forall_forall. intros l Hl%list_elem_of_In%repeat_spec. subst l. split; [apply Hd; by left|done].
  - apply IH. intros d' ?. apply Hd. by right.
Qed.

(** The lots of one size. *)
Definition of_size (d : Z) (l : SellLot) : Z := if sl_denom l =? d then 1 else 0.
Lemma takes_split lots : Forall takes lots ->
  0 <= sum_of (of_size 1000) lots /\ 0 <= sum_of (of_size 100) lots /\
  0 <= sum_of (of_size 10) lots /\ 0 <= sum_of (of_size 1) lots /\
  sum_of sl_denom lots = 1000 * sum_of (of_size 1000) lots + 100 * sum_of (of_size 100) lots
    + 10 * sum_of (of_size 10) lots + sum_of (of_size 1) lots /\
  sum_of (fun _ => 1) lots = sum_of (of_size 1000) lots + sum_of (of_size 100) lots
    + sum_of (of_size 10) lots + sum_of (of_size 1) lots.
Proof.
  unfold sum_of, of_size. induction 1 as [|l lots [Hd _] _ IH]; cbn [foldr]; [lia|].
  destruct Hd as [<-|[<-|[<-|[<-|[]]]]]; cbn; lia.
Qed.

(** No way to write an amount in lots is shorter than its digits. *)
Lemma digits_are_fewest a b c d a' b' c' d' :
  0 <= b < 10 -> 0 <= c < 10 -> 0 <= d < 10 -> 0 <= a' -> 0 <= b' -> 0 <= c' -> 0 <= d' ->
  1000 * a' + 100 * b' + 10 * c' + d' = 1000 * a + 100 * b + 10 * c + d ->
  a + b + c + d <= a' + b' + c' + d'.
Proof.
  intros. set (k0 := d' / 10). set (k1 := (c' + k0) / 10). set (k2 := (b' + k1) / 10).
  unfold k2, k1, k0. Z.to_euclidean_division_equations. lia.
Qed.

(** A sell plan converts exactly the amount asked for in the fewest lots.  Every
    lot is one the contract takes, the lots' sizes add up to the amount, their SHELL
    to what the plan commits at the fixed rate, and no list of takeable lots for the
    same amount is shorter.  A plan for a whole balance is always funded and leaves
    only the remainder below one eccUSDC. *)
Theorem sell_plan_is_exact_and_minimal (can_reserve : Z -> bool) (n : Z) (p : SellPlan) :
  0 <= n -> sell_for_whole_usdc can_reserve n = Ok p ->
  Forall takes (sp_lots p) /\ sum_of sl_denom (sp_lots p) = n /\
  sum_of sl_shell_raw (sp_lots p) = sp_shell_committed_raw p /\
  sp_shell_committed_raw p = n * ACCUMULATOR_SHELL_PER_USDC_RAW /\
  sp_usdc_expected_raw p = n * USDC_UNIT /\
  (forall lots, Forall takes lots -> sum_of sl_denom lots = n -> (lot_count p <= length lots)%nat) /\
  (forall raw, n = max_whole_usdc_from_shell raw -> 0 <= raw ->
     sell_require_funded p raw = Ok tt /\ shell_left_raw p raw = shell_remainder_raw raw).
Proof.
  intros Hn H. unfold sell_for_whole_usdc in H. repeat ok_step H. simplify_eq.
  checked_facts. repeat match goal with X : u128_checked_mul _ _ = Some _ |- _ => apply checked_mul_some in X as [-> ?] end.
  subst. unfold lot_count. simpl.
  pose proof (push_lots_takes ACCUMULATOR_DENOMS n (fun d H => H)) as Ht.
  pose proof (push_lots_digits n Hn) as Hd. destruct (digits_of n) as [[[a' b] c] d].
  destruct Hd as (Hval & Ha & Hb & Hcc & Hdd & Hsum).
  split_and!; [done| | |done|done| |].
  - rewrite Hsum. simpl. lia.
  - rewrite Hsum. simpl. lia.
  - intros lots Hlots Hl. apply Nat2Z.inj_le. rewrite !length_sum, Hsum.
    destruct (takes_split lots Hlots) as (? & ? & ? & ? & S1 & S2). rewrite S2.
    rewrite !Z.mul_1_r. apply digits_are_fewest; try lia.
  - intros raw -> Hraw. unfold sell_require_funded, shell_left_raw, max_whole_usdc_from_shell, shell_remainder_raw, saturating_sub in *.
    simpl. pose proof (Z.div_mod raw ACCUMULATOR_SHELL_PER_USDC_RAW ltac:(done)).
    pose proof (Z.mod_pos_bound raw ACCUMULATOR_SHELL_PER_USDC_RAW ltac:(done)).
    rewrite (proj2 (Z.ltb_ge _ _)) by lia. split; [done|]. lia.
Qed.

(** Every amount whose SHELL fits is planned, as far as memory allows. *)
Lemma count_lots_total n : 0 <= n <= U64_MAX -> exists k, count_lots ACCUMULATOR_DENOMS 0 n = Some k /\ 0 <= k <= U64_MAX.
Proof.
  intros Hn. pose proof (push_lots_digits n ltac:(lia)) as Hd. unfold digits_of in Hd.
  destruct Hd as (Hval & Ha & Hb & Hc & Hd & _).
  unfold ACCUMULATOR_DENOMS. cbn [count_lots]. unfold u128_checked_add, checked_add. rewrite Z.div_1_r.
  assert (n mod 1000 mod 100 = n mod 100) as -> by (by rewrite Z.mod_mod_divide by (by exists 10)).
  assert (n mod 100 mod 10 = n mod 10) as -> by (by rewrite Z.mod_mod_divide by (by exists 10)).
  do 4 (rewrite (proj2 (Z.leb_le _ _)) by (unfold U128_MAX, U64_MAX in *; lia)).
  eexists. split; [done|]. lia.
Qed.
Lemma sell_plan_total can_reserve n : 0 < n -> n <= U64_MAX -> (forall k, can_reserve k = true) ->
  exists p, sell_for_whole_usdc can_reserve n = Ok p.
Proof.
  intros Hn Hfit Hres. unfold sell_for_whole_usdc, u128_checked_mul, checked_mul.
  rewrite (proj2 (Z.eqb_neq n 0)) by lia.
  rewrite !(proj2 (Z.leb_le _ _)) by (unfold U128_MAX, U64_MAX, ACCUMULATOR_SHELL_PER_USDC_RAW, USDC_UNIT, SHELL_UNIT in *; lia).
  destruct (count_lots_total n ltac:(lia)) as (k & Hk & Hkb). cbn [ok_or]. rewrite Hk. cbn [ok_or].
  rewrite (proj2 (try_from_some U64_MAX k k)) by lia. simpl. rewrite Hres. simpl. eauto.
Qed.
