(* ===== verification/BookFold.v ===== *)
(** * BookFold: live orders from the book's events (crates/core/src/chain/book_events.rs)

    The event bodies are decoded by the ABI library; the pages come from the
    network.  Both are parameters: a decoder that yields named tokens, and a page
    reader over any state. *)
From Stdlib Require Import Ascii.
From S2P Require Import Prelude Text Params Address MarketTypes.

Record LiveBookOrder : Type := mkLiveOrder {
  lo_order_id : Z;
  lo_is_buy : bool;
  lo_price : Z;
  lo_ticks_remaining : Z;
  lo_note : string;
  lo_token_contract : string;
  lo_deadline : Z;
  lo_flags : Z;
  lo_expired_by_event : bool
}.
Definition set_ticks (t : Z) (o : LiveBookOrder) : LiveBookOrder :=
  mkLiveOrder (lo_order_id o) (lo_is_buy o) (lo_price o) t (lo_note o) (lo_token_contract o)
    (lo_deadline o) (lo_flags o) (lo_expired_by_event o).
Definition set_expired (b : bool) (o : LiveBookOrder) : LiveBookOrder :=
  mkLiveOrder (lo_order_id o) (lo_is_buy o) (lo_price o) (lo_ticks_remaining o) (lo_note o)
    (lo_token_contract o) (lo_deadline o) (lo_flags o) b.
Definition is_live_at (o : LiveBookOrder) (now : Z) : bool :=
  negb (lo_expired_by_event o) && order_deadline_is_live (lo_is_buy o) (lo_deadline o) now.

Inductive BookEvent : Type :=
| Placed (o : LiveBookOrder)
| Cancelled (order_id : Z)
| CancelRejected (order_id reason : Z) (note : string)
| Filled (maker_id taker_id ticks : Z)
| Expired (order_id : Z) (is_buy : bool) (note token_contract : string).

Record BookEventFold : Type := mkFold {
  bf_orders : gmap Z LiveBookOrder;
  bf_cancel_rejections : gmap (Z * string) Z;
  bf_last_seen_id : option string
}.
Definition fold_default : BookEventFold := mkFold ∅ ∅ None.
Definition after_event_marker (event_marker : option string) : BookEventFold := mkFold ∅ ∅ event_marker.
Definition set_orders (m : gmap Z LiveBookOrder) (f : BookEventFold) : BookEventFold :=
  mkFold m (bf_cancel_rejections f) (bf_last_seen_id f).

(** ** Reads: the maps iterate in key order *)
Definition order_key_le (a b : Z * LiveBookOrder) : bool := fst a <=? fst b.
Definition all_orders (f : BookEventFold) : list LiveBookOrder :=
  map snd (sort_by order_key_le (map_to_list (bf_orders f))).
Definition live_orders_at (f : BookEventFold) (now : Z) : list LiveBookOrder :=
  List.filter (fun o => is_live_at o now) (all_orders f).
Definition live_sell_for_token_contract_at (f : BookEventFold) (tc : string) (now : Z) : option LiveBookOrder :=
  find (fun o => negb (lo_is_buy o) && bool_decide (lo_token_contract o = tc)) (live_orders_at f now).
Definition rejection_key_le (a b : Z * string * Z) : bool :=
  let '(i, n, _) := a in let '(j, m, _) := b in (i <? j) || ((i =? j) && String.leb n m).
Definition cancel_rejection_reason (f : BookEventFold) (order_id : Z) (owner_note : string) : option Z :=
  head (omap (fun '(i, n, reason) =>
    if (i =? order_id) && eq_ignore_ascii_case (to_text n) (to_text owner_note) then Some reason else None)
    (sort_by rejection_key_le (map_to_list (bf_cancel_rejections f)))).

(** ** One event *)
Definition fill (order_id ticks : Z) (m : gmap Z LiveBookOrder) : gmap Z LiveBookOrder :=
  match m !! order_id with
  | None => m
  | Some o =>
      if negb (lo_is_buy o) then delete order_id m
      else
        let o := set_ticks (saturating_sub (lo_ticks_remaining o) ticks) o in
        if lo_ticks_remaining o =? 0 then delete order_id m else <[order_id := o]> m
  end.
Definition apply_event (e : BookEvent) (f : BookEventFold) : BookEventFold :=
  match e with
  | Placed o => set_orders (<[lo_order_id o := o]> (bf_orders f)) f
  | Cancelled id => set_orders (delete id (bf_orders f)) f
  | CancelRejected id reason note =>
      mkFold (bf_orders f) (<[(id, note) := reason]> (bf_cancel_rejections f)) (bf_last_seen_id f)
  | Filled maker taker ticks => set_orders (fill taker ticks (fill maker ticks (bf_orders f))) f
  | Expired id _ _ _ =>
      match bf_orders f !! id with
      | None => f
      | Some o => set_orders (<[id := set_expired true o]> (bf_orders f)) f
      end
  end.

(** ** Decoding *)
Inductive TokenValue : Type :=
| TUint (n : Z)
| TBool (b : bool)
| TAddress (display : string)
| TOther.
Record Token : Type := mkToken { tk_name : string; tk_value : TokenValue }.

(** [tokens.iter().find_map(..)]: the first token of the name whose value reads. *)
Definition named {A} (read : TokenValue -> option A) (tokens : list Token) (name : string) : outcome string A :=
  ok_or (head (omap (fun t => if bool_decide (tk_name t = name) then read (tk_value t) else None) tokens))
    "event body missing or invalid".
Definition named_uint (max : Z) : list Token -> string -> outcome string Z :=
  named (fun v => match v with TUint n => try_from max n | _ => None end).
Definition named_u128 := named_uint U128_MAX.
Definition named_u64 := named_uint U64_MAX.
Definition named_u8 := named_uint U8_MAX.
Definition named_uint_decimal : list Token -> string -> outcome string string :=
  named (fun v => match v with TUint n => Some (of_text (print_u128 n)) | _ => None end).
Definition named_bool : list Token -> string -> outcome string bool :=
  named (fun v => match v with TBool b => Some b | _ => None end).
Definition named_address : list Token -> string -> outcome string string :=
  named (fun v => match v with TAddress a => Some a | _ => None end).

Definition BOOK_EVENT_NAMES : list string :=
  ["InferenceOrderPlaced"; "InferenceOrderCancelled"; "InferenceOrderCancelRejected"; "InferenceFilled";
   "InferenceOrderExpired"].

Record BookEventMessage : Type := mkMessage {
  bm_id : string;
  bm_created_at : Z;
  bm_cursor : string;
  bm_body : string
}.
Record BookEventPage : Type := mkPage {
  pg_messages : list BookEventMessage;
  pg_previous_cursor : option string
}.
Record BookFillCandidate : Type := mkCandidate {
  bc_maker_id : Z;
  bc_taker_id : Z;
  bc_ticks : Z;
  bc_clearing_price : string;
  bc_seller_token_contract : string;
  bc_buyer_note : string;
  bc_seller_note : string
}.

Section Fold.
(** [decode_book_event_input]: base64, the cell and the ABI. *)
Context (decode_input : string -> list string -> outcome string (option (string * list Token))).
(** [normalize_book_address]: the address parser of the SDK. *)
Context (normalize_book_address : string -> outcome string string).

Definition decode_placed (tokens : list Token) : outcome string BookEvent :=
  let* order_id := named_u128 tokens "orderId" in
  let* is_buy := named_bool tokens "isBuy" in
  let* price := named_u128 tokens "price" in
  let* ticks := named_u128 tokens "ticks" in
  let* note := named_address tokens "note" in
  let* tc := named_address tokens "tokenContract" in
  let* deadline := named_u64 tokens "deadline" in
  let* flags := named_u8 tokens "flags" in
  Ok (Placed (mkLiveOrder order_id is_buy price ticks note tc deadline flags false)).
Definition decode_cancel_rejected (tokens : list Token) : outcome string BookEvent :=
  let* order_id := named_u128 tokens "orderId" in
  let* reason := named_u8 tokens "reason" in
  let* note := named_address tokens "note" in
  Ok (CancelRejected order_id reason note).
Definition decode_filled (tokens : list Token) : outcome string BookEvent :=
  let* maker := named_u128 tokens "makerId" in
  let* taker := named_u128 tokens "takerId" in
  let* ticks := named_u128 tokens "ticks" in
  Ok (Filled maker taker ticks).
Definition decode_expired (tokens : list Token) : outcome string BookEvent :=
  let* order_id := named_u128 tokens "orderId" in
  let* is_buy := named_bool tokens "isBuy" in
  let* note := named_address tokens "note" in
  let* tc := named_address tokens "tokenContract" in
  Ok (Expired order_id is_buy note tc).
Definition decode_book_event (body : string) : outcome string (option BookEvent) :=
  let* found := decode_input body BOOK_EVENT_NAMES in
  match found with
  | None => Ok None
  | Some (name, tokens) =>
      let* e :=
        (if bool_decide (name = "InferenceOrderPlaced") then decode_placed tokens
         else if bool_decide (name = "InferenceOrderCancelled") then
           let* order_id := named_u128 tokens "orderId" in Ok (Cancelled order_id)
         else if bool_decide (name = "InferenceOrderCancelRejected") then decode_cancel_rejected tokens
         else if bool_decide (name = "InferenceFilled") then decode_filled tokens
         else if bool_decide (name = "InferenceOrderExpired") then decode_expired tokens
         else Panic) in
      Ok (Some e)
  end.
Definition decode_book_fill_candidate (body normalized_buyer_note : string)
    : outcome string (option BookFillCandidate) :=
  let* found := decode_input body ["InferenceFilled"] in
  match found with
  | None => Ok None
  | Some (_, tokens) =>
      let* raw := named_address tokens "buyerNote" in
      let* buyer_note := normalize_book_address raw in
      if negb (bool_decide (buyer_note = normalized_buyer_note)) then Ok None
      else
        let* maker := named_u128 tokens "makerId" in
        let* taker := named_u128 tokens "takerId" in
        let* ticks := named_u128 tokens "ticks" in
        let* price := named_uint_decimal tokens "clearingPrice" in
        let* tc := named_address tokens "sellerTC" in
        let* tc := normalize_book_address tc in
        let* seller := named_address tokens "sellerNote" in
        let* seller := normalize_book_address seller in
        Ok (Some (mkCandidate maker taker ticks price tc buyer_note seller))
  end.

(** ** The pages *)
Context {S : Type} (fetch_page : option string -> S -> outcome string BookEventPage * S).

(** [seen_ids.insert(id)] and [messages.push(message)] of one page. *)
Fixpoint take_page (since : option string) (page : list BookEventMessage) (found : bool)
    (messages : list BookEventMessage) : bool * list BookEventMessage :=
  match page with
  | [] => (found, messages)
  | m :: rest =>
      let found := found || bool_decide (since = Some (bm_id m)) in
      take_page since rest found
        (if bool_decide (bm_id m ∈ map bm_id messages) then messages else messages ++ [m])
  end.

(** Newest page first, until the last seen message or the oldest page; [None] when
    the fuel runs out. *)
Fixpoint collect_pages (fuel : nat) (since before : option string) (found : bool)
    (messages : list BookEventMessage) (s : S) : option (outcome string (bool * list BookEventMessage)) * S :=
  match fuel with
  | O => (None, s)
  | Datatypes.S fuel =>
      match fetch_page before s with
      | (Err e, s) => (Some (Err e), s)
      | (Panic, s) => (Some Panic, s)
      | (Ok page, s) =>
          let '(found, messages) := take_page since (pg_messages page) found messages in
          if bool_decide (since <> None) && found then (Some (Ok (found, messages)), s)
          else match pg_previous_cursor page with
               | None => (Some (Ok (found, messages)), s)
               | Some previous =>
                   if bool_decide (before = Some previous)
                   then (Some (Err "order-book ext-out pagination made no progress"), s)
                   else collect_pages fuel since (Some previous) found messages s
               end
      end
  end.

Definition message_le (a b : BookEventMessage) : bool :=
  (bm_created_at a <? bm_created_at b)
  || ((bm_created_at a =? bm_created_at b) && String.leb (bm_cursor a) (bm_cursor b)).
Fixpoint position (id : string) (messages : list BookEventMessage) : option nat :=
  match messages with
  | [] => None
  | m :: rest => if bool_decide (bm_id m = id) then Some O else Datatypes.S <$> position id rest
  end.
Fixpoint apply_messages (messages : list BookEventMessage) (f : BookEventFold) : outcome string BookEventFold :=
  match messages with
  | [] => Ok f
  | m :: rest =>
      let* e := decode_book_event (bm_body m) in
      apply_messages rest (match e with Some e => apply_event e f | None => f end)
  end.
(** The chronological replay of what the pages held. *)
Definition fold_messages (fold : BookEventFold) (messages : list BookEventMessage) : outcome string BookEventFold :=
  let messages := sort_by message_le messages in
  let start := match bf_last_seen_id fold with
               | Some id => match position id messages with Some i => Datatypes.S i | None => O end
               | None => O
               end in
  let* f := apply_messages (drop start messages) fold in
  Ok (match last messages with
      | Some newest => mkFold (bf_orders f) (bf_cancel_rejections f) (Some (bm_id newest))
      | None => f
      end).
Definition fold_book_event_pages (fuel : nat) (fold : BookEventFold) (s : S)
    : option (outcome string BookEventFold) * S :=
  let since := bf_last_seen_id fold in
  match collect_pages fuel since None false [] s with
  | (None, s) => (None, s)
  | (Some (Err e), s) => (Some (Err e), s)
  | (Some Panic, s) => (Some Panic, s)
  | (Some (Ok (found, messages)), s) =>
      if bool_decide (since <> None) && negb found
      then (Some (Err "order-book ext-out history no longer contains last-seen id"), s)
      else (Some (fold_messages fold messages), s)
  end.
End Fold.
