(* ===== verification/BookFoldSpec.v ===== *)
(** * BookFoldSpec: what the fold holds, and that an incremental read is a full one *)
From S2P Require Import Prelude Text Params Address MarketTypes BookFold.

(** ** Order by order *)
Definition fill_step (id ticks i : Z) (o : option LiveBookOrder) : option LiveBookOrder :=
  if decide (id = i) then
    match o with
    | None => None
    | Some o =>
        if negb (lo_is_buy o) then None
        else if saturating_sub (lo_ticks_remaining o) ticks =? 0 then None
        else Some (set_ticks (saturating_sub (lo_ticks_remaining o) ticks) o)
    end
  else o.
Definition order_step (i : Z) (o : option LiveBookOrder) (e : BookEvent) : option LiveBookOrder :=
  match e with
  | Placed p => if decide (lo_order_id p = i) then Some p else o
  | Cancelled id => if decide (id = i) then None else o
  | CancelRejected _ _ _ => o
  | Filled maker taker ticks => fill_step taker ticks i (fill_step maker ticks i o)
  | Expired id _ _ _ => if decide (id = i) then set_expired true <$> o else o
  end.

Lemma fill_lookup id ticks m i : fill id ticks m !! i = fill_step id ticks i (m !! i).
Proof.
  unfold fill, fill_step. destruct (decide (id = i)) as [->|Hne].
  - destruct (m !! i) as [o|] eqn:E; [|done]. destruct (negb (lo_is_buy o)); [apply lookup_delete_eq|].
    simpl. destruct (_ =? 0); [apply lookup_delete_eq|apply lookup_insert_eq].
  - destruct (m !! id) as [o|]; [|done]. destruct (negb (lo_is_buy o)); [by apply lookup_delete_ne|].
    simpl. destruct (_ =? 0); [by apply lookup_delete_ne|by apply lookup_insert_ne].
Qed.
Lemma apply_lookup e f i : bf_orders (apply_event e f) !! i = order_step i (bf_orders f !! i) e.
Proof.
  destruct e as [p|id|id r n|mk tk n|id b nt tc]; simpl.
  - destruct (decide _) as [->|]; [apply lookup_insert_eq|by apply lookup_insert_ne].
  - destruct (decide _) as [->|]; [apply lookup_delete_eq|by apply lookup_delete_ne].
  - done.
  - by rewrite !fill_lookup.
  - destruct (bf_orders f !! id) as [o|] eqn:E; destruct (decide (id = i)) as [->|Hne]; simpl.
    + by rewrite E, lookup_insert_eq.
    + by rewrite lookup_insert_ne.
    + by rewrite E.
    + done.
Qed.
Definition apply_all (es : list BookEvent) (f : BookEventFold) : BookEventFold :=
  foldl (fun f e => apply_event e f) f es.
Lemma apply_all_lookup es f i :
  bf_orders (apply_all es f) !! i = foldl (order_step i) (bf_orders f !! i) es.
Proof. revert f. induction es as [|e es IH]; intros f; simpl; [done|]. by rewrite IH, apply_lookup. Qed.

(** The events that name an order. *)
Definition cancels (i : Z) (e : BookEvent) : bool := match e with Cancelled id => id =? i | _ => false end.
Definition touches (i : Z) (e : BookEvent) : bool :=
  match e with Filled mk tk _ => (mk =? i) || (tk =? i) | _ => false end.
Definition expires (i : Z) (e : BookEvent) : bool := match e with Expired id _ _ _ => id =? i | _ => false end.
Definition filled_by (i : Z) (e : BookEvent) : Z :=
  match e with Filled mk tk n => (if mk =? i then n else 0) + (if tk =? i then n else 0) | _ => 0 end.
Definition filled (i : Z) (es : list BookEvent) : Z := foldr (fun e acc => filled_by i e + acc) 0 es.
(** Placed again, or filled by a negative volume: neither is an event of the book. *)
Definition book_event (i : Z) (e : BookEvent) : Prop :=
  match e with Placed p => lo_order_id p <> i | Filled _ _ n => 0 <= n | _ => True end.

(** The order has left the book: cancelled, a sell that was matched at all, a buy
    whose volume was matched. *)
Definition has_left (p : LiveBookOrder) (es : list BookEvent) : bool :=
  existsb (cancels (lo_order_id p)) es ||
  (existsb (touches (lo_order_id p)) es &&
   (negb (lo_is_buy p) || (lo_ticks_remaining p <=? filled (lo_order_id p) es))).
Definition still_open (p : LiveBookOrder) (es : list BookEvent) : LiveBookOrder :=
  set_expired (lo_expired_by_event p || existsb (expires (lo_order_id p)) es)
    (set_ticks (lo_ticks_remaining p - filled (lo_order_id p) es) p).

Lemma filled_app i a b : filled i (a ++ b) = filled i a + filled i b.
Proof. induction a as [|e a IH]; simpl; [done|]. rewrite IH. lia. Qed.
Lemma filled_nonneg i es : Forall (book_event i) es -> 0 <= filled i es.
Proof.
  induction 1 as [|e es He _ IH]; simpl; [done|]. unfold filled_by, book_event in *.
  destruct e; try lia. destruct (_ =? _), (_ =? _); lia.
Qed.
Lemma untouched_filled i es : existsb (touches i) es = false -> filled i es = 0.
Proof.
  induction es as [|e es IH]; simpl; [done|]. intros [H1 H2]%orb_false_iff. rewrite (IH H2).
  destruct e; simpl in *; try done. apply orb_false_iff in H1 as [-> ->]. done.
Qed.


(** One fill of an order that is open with [t] ticks left. *)
Lemma fill_open id n i p t : 0 <= n -> 0 <= t ->
  fill_step id n i (Some (set_ticks t p)) =
  if id =? i then
    if negb (lo_is_buy p) || (t <=? n) then None else Some (set_ticks (t - n) p)
  else Some (set_ticks t p).
Proof.
  intros Hn Ht. unfold fill_step. destruct (decide (id = i)) as [->|Hne].
  - rewrite Z.eqb_refl. simpl. destruct (lo_is_buy p); simpl; [|done]. unfold saturating_sub.
    destruct (Z.leb_spec t n).
    + by rewrite (proj2 (Z.eqb_eq (Z.max (t - n) 0) 0)) by lia.
    + rewrite (proj2 (Z.eqb_neq _ _)) by lia. by rewrite Z.max_l by lia.
  - by rewrite (proj2 (Z.eqb_neq _ _)).
Qed.
Lemma fill_none id n i : fill_step id n i None = None.
Proof. unfold fill_step. by destruct (decide _). Qed.

(** One event of an order that is open, and of one that has left. *)
Lemma step_left i e : book_event i e -> order_step i None e = None.
Proof.
  destruct e as [p|id|id r n|mk tk n|id b nt tc]; simpl; intros H; rewrite ?fill_none; try done;
    destruct (decide _); done.
Qed.
Lemma has_left_snoc p es e : Forall (book_event (lo_order_id p)) (es ++ [e]) ->
  has_left p es = true -> has_left p (es ++ [e]) = true.
Proof.
  intros [Hes He]%Forall_app. unfold has_left. rewrite !existsb_app, filled_app.
  pose proof (filled_nonneg _ _ He). intros [->|[-> Hf]%andb_prop]%orb_prop; [done|]. simpl.
  apply orb_true_intro. right. destruct (lo_is_buy p); simpl in *; [|done].
  apply Z.leb_le in Hf. apply Z.leb_le. lia.
Qed.
Lemma open_facts p es : 0 <= lo_ticks_remaining p -> has_left p es = false ->
  existsb (cancels (lo_order_id p)) es = false /\ 0 <= lo_ticks_remaining p - filled (lo_order_id p) es /\
  (existsb (touches (lo_order_id p)) es = true ->
   lo_is_buy p = true /\ filled (lo_order_id p) es < lo_ticks_remaining p).
Proof.
  unfold has_left. intros Hp [Hc H]%orb_false_iff. split; [done|].
  destruct (existsb (touches _) es) eqn:Ht; simpl in H.
  - apply orb_false_iff in H as [Hb Hf%Z.leb_gt]. apply negb_false_iff in Hb. split; [lia|done].
  - rewrite untouched_filled by done. split; [lia|done].
Qed.
Lemma two_fills mk tk n i q t : 0 <= n -> 0 <= t ->
  let k := (if mk =? i then n else 0) + (if tk =? i then n else 0) in
  fill_step tk n i (fill_step mk n i (Some (set_ticks t q))) =
  if ((mk =? i) || (tk =? i)) && (negb (lo_is_buy q) || (t <=? k)) then None else Some (set_ticks (t - k) q).
Proof.
  intros Hn Ht k. subst k. rewrite fill_open by done.
  destruct (mk =? i); simpl; [|rewrite fill_open by done; destruct (tk =? i); simpl; [done|]].
  - destruct (lo_is_buy q) eqn:Eb; simpl; [|apply fill_none].
    destruct (Z.leb_spec t n).
    + rewrite fill_none, (proj2 (Z.leb_le _ _)); [done|]. destruct (tk =? i); lia.
    + rewrite fill_open, Eb by lia. destruct (tk =? i); simpl.
      * destruct (Z.leb_spec (t - n) n), (Z.leb_spec t (n + n)); first [done | lia | do 2 f_equal; lia].
      * rewrite (proj2 (Z.leb_gt _ _)) by lia. do 2 f_equal; lia.
  - by rewrite Z.sub_0_r.
Qed.
Lemma step_open p es e : 0 <= lo_ticks_remaining p -> book_event (lo_order_id p) e -> has_left p es = false ->
  order_step (lo_order_id p) (Some (still_open p es)) e =
  if has_left p (es ++ [e]) then None else Some (still_open p (es ++ [e])).
Proof.
  intros Hp He Hl. destruct (open_facts p es Hp Hl) as (Hc & Ht & Hb). revert Hl.
  unfold has_left, still_open. rewrite !existsb_app, filled_app, Hc. set (i := lo_order_id p) in *. simpl.
  rewrite !orb_false_r, Z.add_0_r. intros Hl.
  destruct e as [q|id|id r n|mk tk n|id b nt tc]; simpl in *; rewrite ?orb_false_r, ?Z.add_0_r.
  - rewrite decide_False by done. by rewrite Hl.
  - destruct (decide (id = i)) as [->|Hne]; [by rewrite Z.eqb_refl|].
    rewrite (proj2 (Z.eqb_neq _ _)) by done. simpl. by rewrite Hl.
  - by rewrite Hl.
  - change (set_expired ?b (set_ticks ?t p)) with (set_ticks t (set_expired b p)).
    rewrite two_fills by done. simpl.
    set (k := (if mk =? i then n else 0) + _). rewrite Z.sub_add_distr.
    assert (H : (lo_ticks_remaining p - filled i es <=? k) = (lo_ticks_remaining p <=? filled i es + k))
      by (destruct (Z.leb_spec (lo_ticks_remaining p - filled i es) k),
            (Z.leb_spec (lo_ticks_remaining p) (filled i es + k)); lia).
    rewrite H. destruct (existsb (touches i) es); [|done].
    destruct (Hb eq_refl) as [Hbuy Hlt]. rewrite Hbuy. simpl. subst k.
    destruct (mk =? i), (tk =? i); simpl; [done..|]. by rewrite (proj2 (Z.leb_gt _ _)) by lia.
  - rewrite Hl. destruct (decide (id = i)) as [->|Hne]; [by rewrite Z.eqb_refl, !orb_true_r|].
    by rewrite (proj2 (Z.eqb_neq _ _) Hne), orb_false_r.
Qed.

Lemma order_history p es : 0 <= lo_ticks_remaining p -> Forall (book_event (lo_order_id p)) es ->
  foldl (order_step (lo_order_id p)) (Some p) es = if has_left p es then None else Some (still_open p es).
Proof.
  intros Hp. induction es as [|e es IH] using rev_ind; intros Hes.
  { unfold has_left, still_open. simpl. rewrite Z.sub_0_r, orb_false_r. by destruct p. }
  pose proof Hes as [Hes' [He _]%Forall_cons]%Forall_app. rewrite foldl_app. simpl. rewrite (IH Hes').
  destruct (has_left p es) eqn:Hl; [|by apply step_open].
  rewrite (has_left_snoc p es e Hes Hl). by apply step_left.
Qed.

(** Sorting any arrangement of a strictly sorted list gives the list. *)
Definition strictly {A} (le : A -> A -> bool) (a b : A) : Prop := le a b = true /\ le b a = false.
Lemma insert_between {A} (le : A -> A -> bool) x a b : StronglySorted (strictly le) (a ++ x :: b) ->
  insert_by le x (a ++ b) = a ++ x :: b.
Proof.
  induction a as [|y a IH]; simpl; intros [Hs Hy]%StronglySorted_inv.
  - destruct b as [|y b]; simpl; [done|]. apply Forall_cons in Hy as [[-> _] _]. done.
  - apply Forall_app in Hy as [_ [[_ ->] _]%Forall_cons]. by rewrite IH.
Qed.
Lemma strictly_remove {A} (le : A -> A -> bool) x a b : StronglySorted (strictly le) (a ++ x :: b) ->
  StronglySorted (strictly le) (a ++ b).
Proof.
  induction a as [|y a IH]; simpl; intros [Hs Hy]%StronglySorted_inv; [done|].
  constructor; [by apply IH|]. apply Forall_app in Hy as [H1 [_ H2]%Forall_cons]. by apply Forall_app.
Qed.
Lemma sort_by_arrangement {A} (le : A -> A -> bool) l h :
  StronglySorted (strictly le) h -> l ≡ₚ h -> sort_by le l = h.
Proof.
  revert h. induction l as [|x l IH]; intros h Hh Hp; simpl; [by apply Permutation_nil_l in Hp|].
  assert (exists a b, h = a ++ x :: b) as (a & b & ->)
    by (apply list_elem_of_split; rewrite <- Hp; by constructor).
  rewrite (IH (a ++ b)); [by apply insert_between|by eapply strictly_remove|].
  by apply Permutation_cons_app_inv in Hp.
Qed.
Lemma strictly_drop {A} (le : A -> A -> bool) k h : StronglySorted (strictly le) h ->
  StronglySorted (strictly le) (drop k h).
Proof.
  revert k. induction h as [|x h IH]; intros [|k] H; simpl; try done. apply StronglySorted_inv in H as [H _].
  by apply IH.
Qed.

(** ** Pages of one history

    The history in chronological order: no two messages share an id, and the
    order of the replay is strict on them. *)
Definition history (h : list BookEventMessage) : Prop :=
  StronglySorted (strictly message_le) h /\ NoDup (map bm_id h).

Lemma ids_nodup {h} : NoDup (map bm_id h) -> NoDup h.
Proof. apply NoDup_fmap_1. Qed.
Lemma same_id h m m' : NoDup (map bm_id h) -> m ∈ h -> m' ∈ h -> bm_id m = bm_id m' -> m = m'.
Proof.
  intros Hn [i Hi]%list_elem_of_lookup [j Hj]%list_elem_of_lookup He.
  assert (i = j) as ->; [|congruence]. eapply (NoDup_lookup (map bm_id h)); [done|..].
  - by rewrite list_lookup_fmap, Hi.
  - rewrite list_lookup_fmap, Hj. simpl. by rewrite He.
Qed.

(** What a page adds. *)
Lemma take_page_found since page found ms :
  fst (take_page since page found ms) = found || existsb (fun m => bool_decide (since = Some (bm_id m))) page.
Proof.
  revert found ms. induction page as [|m page IH]; intros found ms; simpl; [by rewrite orb_false_r|].
  rewrite IH. by rewrite orb_assoc.
Qed.
Lemma take_page_messages since page found ms h :
  NoDup (map bm_id h) -> page ⊆ h -> ms ⊆ h -> NoDup ms ->
  let ms' := snd (take_page since page found ms) in NoDup ms' /\ forall m, m ∈ ms' <-> m ∈ ms \/ m ∈ page.
Proof.
  intros Hh. revert found ms. induction page as [|m page IH]; intros found ms Hp Hms Hn; simpl.
  { split; [done|]. intros m. split; [by left|by intros [?|?%not_elem_of_nil]]. }
  assert (Hm : m ∈ h) by (apply Hp; by constructor).
  assert (Hp' : page ⊆ h) by (intros x Hx; apply Hp; by constructor).
  destruct (bool_decide (bm_id m ∈ map bm_id ms)) eqn:Ed.
  - destruct (IH (found || bool_decide (since = Some (bm_id m))) ms Hp' Hms Hn) as [H1 H2]. split; [done|].
    apply bool_decide_eq_true in Ed. apply list_elem_of_fmap in Ed as (m' & He & Hm').
    assert (m = m') as <- by (eapply same_id; [exact Hh|done|by apply Hms|done]).
    intros x. rewrite H2, elem_of_cons. intuition congruence.
  - apply bool_decide_eq_false in Ed.
    destruct (IH (found || bool_decide (since = Some (bm_id m))) (ms ++ [m]) Hp') as [H1 H2].
    { intros x [Hx|Hx%list_elem_of_singleton]%elem_of_app; [by apply Hms|by subst]. }
    { apply NoDup_app. split_and!; [done| |apply NoDup_singleton].
      intros x Hx ->%list_elem_of_singleton. apply Ed. by apply list_elem_of_fmap_2. }
    split; [done|]. intros x. rewrite H2, elem_of_app, !elem_of_cons, elem_of_nil. tauto.
Qed.

(** The reader of a history: a page is the part of it that ends where the cursor
    points, and its previous cursor points at the page's start. *)
Section Pages.
Context {S : Type} (fetch_page : option string -> S -> outcome string BookEventPage * S).
Context (rank : option string -> nat).
Definition page_of (h : list BookEventMessage) (before : option string) (page : BookEventPage) : Prop :=
  exists k n, (k <= rank before <= k + n)%nat /\ pg_messages page = take n (drop k h) /\
    match pg_previous_cursor page with
    | None => k = O
    | Some previous => rank (Some previous) = k /\ (k < rank before)%nat
    end.
Definition reads (h : list BookEventMessage) : Prop :=
  rank None = length h /\
  forall before s, exists page s', fetch_page before s = (Ok page, s') /\ page_of h before page.

Lemma page_messages h k k' n page (ms : list BookEventMessage) :
  (k' <= k <= k' + n)%nat -> ms ≡ₚ drop k h -> page = take n (drop k' h) ->
  forall m, m ∈ ms \/ m ∈ page <-> m ∈ drop k' h.
Proof.
  intros Hk Hp -> m. rewrite Hp. rewrite <- (take_drop n (drop k' h)) at 2. rewrite drop_drop, elem_of_app.
  split; [|intros [?|H]; [by right|left]].
  - intros [H|H]; [|by left]. rewrite <- elem_of_app, <- drop_drop, take_drop.
    replace k with (k' + (k - k'))%nat in H by lia. rewrite <- drop_drop in H. by eapply subseteq_drop.
  - replace (k' + n)%nat with (k + (k' + n - k))%nat in H by lia. rewrite <- drop_drop in H. by eapply subseteq_drop.
Qed.

Definition names (since : option string) (l : list BookEventMessage) : bool :=
  existsb (fun m => bool_decide (since = Some (bm_id m))) l.
Lemma names_spec since l : names since l = true <-> exists m, m ∈ l /\ since = Some (bm_id m).
Proof.
  unfold names. rewrite existsb_exists. split.
  - intros (m & Hm & H). exists m. split; [by apply list_elem_of_In|by apply bool_decide_eq_true in H].
  - intros (m & Hm & H). exists m. split; [by apply list_elem_of_In|by apply bool_decide_eq_true].
Qed.
Lemma names_members since a b : (forall m, m ∈ a <-> m ∈ b) -> names since a = names since b.
Proof.
  intros H. apply Bool.eq_true_iff_eq. rewrite !names_spec.
  split; intros (m & Hm & Hs); exists m; (split; [by apply H|done]).
Qed.
Lemma names_or since a b c : (forall m, m ∈ a <-> m ∈ b \/ m ∈ c) -> names since a = names since b || names since c.
Proof.
  intros H. apply Bool.eq_true_iff_eq. rewrite orb_true_iff, !names_spec. setoid_rewrite H.
  split; [intros (m & [?|?] & ?); eauto|intros [(m & ? & ?)|(m & ? & ?)]; eauto].
Qed.

(** One page: what was read becomes what the history holds from the page's start. *)
Lemma page_step h since before page ms : history h -> page_of h before page -> ms ≡ₚ drop (rank before) h ->
  names since ms = false -> exists k ms',
  take_page since (pg_messages page) false ms = (names since (drop k h), ms') /\ ms' ≡ₚ drop k h /\
  match pg_previous_cursor page with
  | None => k = O
  | Some previous => rank (Some previous) = k /\ (k < rank before)%nat
  end.
Proof.
  intros [_ Hn] (k & n & Hk & Hpg & Hprev) Hms Hf. destruct (take_page since _ false ms) as [found ms'] eqn:Et.
  assert (Hd : NoDup (drop k h)) by (eapply NoDup_app; rewrite take_drop; by apply ids_nodup).
  destruct (take_page_messages since (pg_messages page) false ms h Hn) as [H1 H2].
  { rewrite Hpg. intros m Hm. eapply subseteq_drop, subseteq_take, Hm. }
  { intros m Hm. rewrite Hms in Hm. by eapply subseteq_drop. }
  { rewrite Hms. eapply NoDup_app; rewrite take_drop; by apply ids_nodup. }
  pose proof (page_messages h _ k n _ ms Hk Hms Hpg) as H3. rewrite Et in H1, H2. simpl in *.
  exists k, ms'. split_and!; [|apply NoDup_Permutation; [done..|]; intros m; by rewrite H2|done].
  f_equal. pose proof (take_page_found since (pg_messages page) false ms) as Hfd. rewrite Et in Hfd. simpl in Hfd.
  rewrite Hfd. fold (names since (pg_messages page)). rewrite (names_or since (drop k h) ms (pg_messages page)).
  - by rewrite Hf.
  - intros m. by rewrite H3.
Qed.
Lemma collect_reads h since : history h -> reads h -> forall fuel before ms s,
  (rank before < fuel)%nat -> ms ≡ₚ drop (rank before) h -> names since ms = false ->
  exists k ms' s', collect_pages fetch_page fuel since before false ms s =
    (Some (Ok (names since (drop k h), ms')), s') /\ ms' ≡ₚ drop k h /\
    (names since (drop k h) = true \/ k = O).
Proof.
  intros Hh [_ Hr]. induction fuel as [|fuel IH]; intros before ms s Hfuel Hms Hf; [lia|]. simpl.
  destruct (Hr before s) as (page & s' & -> & Hp).
  destruct (page_step h since before page ms Hh Hp Hms Hf) as (k & ms' & -> & Hms' & Hprev).
  destruct (bool_decide (since <> None) && names since (drop k h)) eqn:Eend.
  { apply andb_prop in Eend as [_ Eend]. exists k, ms', s'. split_and!; [done..|by left]. }
  assert (Hf' : names since (drop k h) = false).
  { destruct since as [id|]; [by rewrite bool_decide_true in Eend|].
    apply not_true_iff_false. intros (m & _ & Hm)%names_spec. done. }
  destruct (pg_previous_cursor page) as [previous|]; [|subst; exists O, ms', s'; split_and!; [done..|by right]].
  destruct Hprev as [Hk Hlt]. rewrite bool_decide_false by (intros ->; lia). rewrite Hf', <- Hk in *.
  apply IH; [lia|done|]. rewrite (names_members since ms' (drop (rank (Some previous)) h)); [done|].
  intros m. by rewrite Hms'.
Qed.
End Pages.

(** ** The replay *)
Section Replay.
Context (decode_input : string -> list string -> outcome string (option (string * list Token))).
Abbreviation apply_messages := (apply_messages decode_input).

Definition seen (id : option string) (f : BookEventFold) : BookEventFold :=
  mkFold (bf_orders f) (bf_cancel_rejections f) id.
Definition replay (h : list BookEventMessage) (f : BookEventFold) : outcome string BookEventFold :=
  let* f' := apply_messages h f in
  Ok (match last h with Some newest => seen (Some (bm_id newest)) f' | None => f' end).
Fixpoint decode_all (h : list BookEventMessage) : outcome string (list BookEvent) :=
  match h with
  | [] => Ok []
  | m :: h =>
      let* e := decode_book_event decode_input (bm_body m) in
      let* es := decode_all h in Ok (match e with Some e => e :: es | None => es end)
  end.

Lemma apply_decoded h f : apply_messages h f = (let* es := decode_all h in Ok (apply_all es f)).
Proof.
  revert f. induction h as [|m h IH]; intros f; simpl; [done|].
  destruct (decode_book_event decode_input (bm_body m)) as [[e|]|e|]; simpl; try done; rewrite IH;
    destruct (decode_all h); done.
Qed.
Lemma decode_all_app a b :
  decode_all (a ++ b) = (let* xs := decode_all a in let* ys := decode_all b in Ok (xs ++ ys)).
Proof.
  induction a as [|m a IH]; simpl; [by destruct (decode_all b)|].
  destruct (decode_book_event decode_input (bm_body m)) as [e|e|]; simpl; try done. rewrite IH.
  destruct (decode_all a) as [xs|x|]; simpl; try done. destruct (decode_all b); simpl; try done. by destruct e.
Qed.
Lemma apply_all_app a b f : apply_all (a ++ b) f = apply_all b (apply_all a f).
Proof. apply foldl_app. Qed.
Lemma apply_all_seen es id f : apply_all es (seen id f) = seen id (apply_all es f).
Proof.
  revert f. induction es as [|e es IH]; intros f; simpl; [done|]. rewrite <- IH. f_equal.
  destruct e; simpl; try done. by destruct (bf_orders f !! _).
Qed.
Lemma seen_seen i j f : seen i (seen j f) = seen i f.
Proof. done. Qed.

Lemma position_split id a m b : bm_id m = id -> id ∉ map bm_id a -> position id (a ++ m :: b) = Some (length a).
Proof.
  intros Hm. induction a as [|x a IH]; simpl; intros Ha.
  - by rewrite bool_decide_true.
  - apply not_elem_of_cons in Ha as [Hx Ha]. rewrite bool_decide_false by congruence. by rewrite IH.
Qed.

Context {S : Type} (fetch_page : option string -> S -> outcome string BookEventPage * S) (rank : option string -> nat).
Abbreviation fold_pages := (fold_book_event_pages decode_input fetch_page).

Lemma nothing_read (h : list BookEventMessage) : rank None = length h -> [] ≡ₚ drop (rank None) h.
Proof. intros ->. by rewrite drop_all. Qed.

(** From scratch the fold is the replay of the history. *)
Lemma full_fold h fuel f s : history h -> reads fetch_page rank h -> (length h < fuel)%nat ->
  bf_last_seen_id f = None -> fst (fold_pages fuel f s) = Some (replay h f).
Proof.
  intros Hh Hr Hfuel Hs. unfold fold_book_event_pages. rewrite Hs.
  destruct (collect_reads fetch_page rank h None Hh Hr fuel None [] s) as (k & ms & s' & -> & Hp & Hk);
    [destruct Hr; lia|apply nothing_read, Hr|done|].
  assert (k = O) as -> by (destruct Hk as [(m & _ & ?)%names_spec|]; done).
  simpl. unfold fold_messages. rewrite Hs. rewrite (sort_by_arrangement _ ms h); [|apply Hh|done]. done.
Qed.
(** From a fold that has seen [m] it is the replay of what came after [m]. *)
Lemma resumed_fold a m b fuel f s : history (a ++ m :: b) -> reads fetch_page rank (a ++ m :: b) ->
  (length (a ++ m :: b) < fuel)%nat -> bf_last_seen_id f = Some (bm_id m) ->
  fst (fold_pages fuel f s) =
  Some (let* f' := apply_messages b f in
        Ok (seen (bm_id <$> last (m :: b)) f')).
Proof.
  intros Hh Hr Hfuel Hs. unfold fold_book_event_pages. rewrite Hs.
  destruct (collect_reads fetch_page rank _ (Some (bm_id m)) Hh Hr fuel None [] s) as (k & ms & s' & -> & Hp & Hk);
    [destruct Hr; lia|apply nothing_read, Hr|done|].
  destruct Hh as [Hso Hn].
  assert (Hle : (k <= length a)%nat).
  { destruct Hk as [(m' & Hin & Hid)%names_spec| ->]; [|lia].
    assert (m' = m) as -> by (eapply same_id; [exact Hn|by eapply subseteq_drop|apply elem_of_app; right; by constructor|congruence]).
    apply list_elem_of_lookup in Hin as [i Hi]. rewrite lookup_drop in Hi.
    assert (k + i = length a)%nat; [|lia]. eapply NoDup_lookup; [by apply ids_nodup|exact Hi|].
    by apply list_lookup_middle. }
  rewrite drop_app_le in Hp |- * by done.
  assert (names (Some (bm_id m)) (drop k a ++ m :: b) = true) as ->
    by (apply names_spec; exists m; split; [apply elem_of_app; right; by constructor|done]).
  simpl. unfold fold_messages. rewrite Hs, (sort_by_arrangement _ ms (drop k a ++ m :: b)); [|idtac|done].
  2:{ rewrite <- drop_app_le by done. by apply strictly_drop. }
  rewrite position_split; [|done|].
  2:{ intros Hin. rewrite map_app in Hn. apply NoDup_app in Hn as (_ & Hn & _). apply (Hn (bm_id m)); [|by constructor].
      rewrite fmap_drop in Hin. by eapply subseteq_drop. }
  rewrite drop_app_ge, Nat.sub_succ_l, Nat.sub_diag by lia. simpl. rewrite last_app.
  destruct (last (m :: b)) as [x|] eqn:El; [done|by apply last_None in El].
Qed.
End Replay.

Lemma history_prefix a b : history (a ++ b) -> history a.
Proof.
  intros [Hs Hn]. split.
  - revert Hs. clear. induction a as [|x a IH]; simpl; intros H; [constructor|].
    apply StronglySorted_inv in H as [H1 [H2 _]%Forall_app]. constructor; [by apply IH|done].
  - rewrite map_app in Hn. by apply NoDup_app in Hn as (? & _).
Qed.

(** C30: Reading the book again from where the last read stopped gives the same
    orders, the same rejections and the same marker, or the same error, as folding
    the whole history afresh, whatever was appended in between. *)
Theorem incremental_reads_agree decode_input {S1 S2 : Type}
    (fetch1 : option string -> S1 -> outcome string BookEventPage * S1) rank1
    (fetch2 : option string -> S2 -> outcome string BookEventPage * S2) rank2
    (old new : list BookEventMessage) fuel1 fuel2 s1 s2 f :
  history (old ++ new) -> reads fetch1 rank1 old -> reads fetch2 rank2 (old ++ new) ->
  (length old < fuel1)%nat -> (length (old ++ new) < fuel2)%nat ->
  fst (fold_book_event_pages decode_input fetch1 fuel1 fold_default s1) = Some (Ok f) ->
  fst (fold_book_event_pages decode_input fetch2 fuel2 f s2) =
  fst (fold_book_event_pages decode_input fetch2 fuel2 fold_default s2).
Proof.
  intros Hh R1 R2 F1 F2. rewrite (full_fold decode_input fetch1 rank1 old) by eauto using history_prefix.
  unfold replay. rewrite apply_decoded.
  destruct (decode_all decode_input old) as [es|e|] eqn:Ed; simpl; intros H; simplify_eq.
  destruct (last old) as [m|] eqn:El.
  - apply last_Some in El as [a ->]. rewrite <- app_assoc in *. simpl in *.
    rewrite (resumed_fold decode_input fetch2 rank2 a m new), (full_fold decode_input fetch2 rank2 (a ++ m :: new))
      by done.
    unfold replay. rewrite !apply_decoded. replace (a ++ m :: new) with ((a ++ [m]) ++ new) by by rewrite <- app_assoc.
    rewrite decode_all_app, Ed. destruct (decode_all decode_input new) as [es'|e|]; simpl; try done.
    rewrite apply_all_app, apply_all_seen, seen_seen, <- app_assoc. simpl. rewrite last_app.
    destruct (last (m :: new)) eqn:E; [done|by apply last_None in E].
  - apply last_None in El as ->. simpl in Ed. by simplify_eq.
Qed.

(** ** The reads of the fold *)
Lemma step_keyed i o e : (forall x, o = Some x -> lo_order_id x = i) ->
  forall x, order_step i o e = Some x -> lo_order_id x = i.
Proof.
  assert (Hfill : forall id n o', (forall x, o' = Some x -> lo_order_id x = i) ->
    forall x, fill_step id n i o' = Some x -> lo_order_id x = i).
  { intros id n o' Ho x. unfold fill_step. destruct (decide _); [|apply Ho].
    destruct o' as [y|]; [|done]. destruct (negb _); [done|]. destruct (_ =? 0); [done|].
    intros [= <-]. simpl. by apply Ho. }
  intros Ho x. destruct e as [p|id|id r n|mk tk n|id b nt tc]; simpl; [| |apply Ho|apply Hfill, Hfill, Ho|];
    destruct (decide _); try done; try apply Ho; [by intros [= <-]|].
  destruct o as [y|]; simpl; [|done]. intros [= <-]. simpl. by apply Ho.
Qed.
Lemma orders_keyed es i : forall x, bf_orders (apply_all es fold_default) !! i = Some x -> lo_order_id x = i.
Proof.
  rewrite apply_all_lookup. induction es as [|e es IH] using rev_ind; [done|].
  intros x. rewrite foldl_app. simpl. by apply step_keyed.
Qed.
Lemma elem_of_all_orders f o : o ∈ all_orders f <-> exists i, bf_orders f !! i = Some o.
Proof.
  unfold all_orders. rewrite list_elem_of_fmap. setoid_rewrite sort_by_perm. split.
  - intros ([i x] & -> & H%elem_of_map_to_list). by exists i.
  - intros [i H]. exists (i, o). split; [done|]. by apply elem_of_map_to_list.
Qed.
Lemma elem_of_live_orders f now o : o ∈ live_orders_at f now <->
  (exists i, bf_orders f !! i = Some o) /\ is_live_at o now = true.
Proof. unfold live_orders_at. by rewrite list_elem_of_In, filter_In, <- list_elem_of_In, elem_of_all_orders. Qed.

(** C38: A complete read of the book holds an order it saw placed exactly while the
    order is open: not cancelled, and, once matched, still a buy with volume left; it
    then shows the volume minus everything matched against it and whether it was
    swept; it is offered as live exactly while it is open, not swept and before its
    deadline. *)
Theorem book_holds_the_open_orders decode_input {S : Type}
    (fetch : option string -> S -> outcome string BookEventPage * S) rank h fuel s pre p post :
  history h -> reads fetch rank h -> (length h < fuel)%nat ->
  decode_all decode_input h = Ok (pre ++ Placed p :: post) ->
  0 <= lo_ticks_remaining p -> Forall (book_event (lo_order_id p)) post ->
  exists f, fst (fold_book_event_pages decode_input fetch fuel fold_default s) = Some (Ok f) /\
  bf_orders f !! lo_order_id p = (if has_left p post then None else Some (still_open p post)) /\
  forall now, still_open p post ∈ live_orders_at f now <->
    has_left p post = false /\ is_live_at (still_open p post) now = true.
Proof.
  intros Hh Hr Hf Hd Hp Hpost. rewrite (full_fold decode_input fetch rank h) by done.
  unfold replay. rewrite apply_decoded, Hd. simpl.
  set (f0 := apply_all (pre ++ Placed p :: post) fold_default).
  set (f := match last h with Some m => seen (Some (bm_id m)) f0 | None => f0 end).
  assert (Ho : bf_orders f = bf_orders f0) by (subst f; by destruct (last h)).
  assert (Hl : bf_orders f !! lo_order_id p = if has_left p post then None else Some (still_open p post)).
  { rewrite Ho. subst f0. rewrite apply_all_lookup, foldl_app. simpl. rewrite decide_True by done.
    by apply order_history. }
  exists f. split_and!; [done..|]. intros now. rewrite elem_of_live_orders. split.
  - intros [[i Hi] Hlive]. split; [|done]. pose proof Hi as Hk. rewrite Ho in Hk. apply orders_keyed in Hk.
    simpl in Hk. subst i. rewrite Hi in Hl. by destruct (has_left p post).
  - intros [Hn Hlive]. split; [|done]. rewrite Hn in Hl. by eexists.
Qed.

(** ** A concrete book, its pages and what the fold makes of them *)
(** Bodies of a toy encoding: a buy for ten ticks, a match of four, a sell, a sweep. *)
Definition sample_input (body : string) (_ : list string) : outcome string (option (string * list Token)) :=
  if bool_decide (body = "buy") then
    Ok (Some ("InferenceOrderPlaced",
      [mkToken "orderId" (TUint 7); mkToken "isBuy" (TBool true); mkToken "price" (TUint 5);
       mkToken "ticks" (TUint 10); mkToken "note" (TAddress "0:aa"); mkToken "tokenContract" (TAddress "0:bb");
       mkToken "deadline" (TUint 900); mkToken "flags" (TUint 0)]))
  else if bool_decide (body = "match") then
    Ok (Some ("InferenceFilled", [mkToken "makerId" (TUint 7); mkToken "takerId" (TUint 8); mkToken "ticks" (TUint 4)]))
  else if bool_decide (body = "swept") then
    Ok (Some ("InferenceOrderExpired", [mkToken "orderId" (TUint 9); mkToken "isBuy" (TBool false);
      mkToken "note" (TAddress "0:aa"); mkToken "tokenContract" (TAddress "0:bb")]))
  else Ok None.
Definition sample_old : list BookEventMessage :=
  [mkMessage "m1" 100 "c1" "noise"; mkMessage "m2" 100 "c2" "buy"; mkMessage "m3" 101 "c3" "match"].
Definition sample_new : list BookEventMessage := [mkMessage "m4" 102 "c4" "swept"; mkMessage "m5" 103 "c5" "match"].
Definition sample_buy : LiveBookOrder := mkLiveOrder 7 true 5 10 "0:aa" "0:bb" 900 0 false.

(** Pages of two messages, cursors that name the page's first message. *)
Fixpoint cursor_rank (c : string) (h : list BookEventMessage) : nat :=
  match h with
  | [] => O
  | m :: h => if bool_decide (bm_cursor m = c) then O else S (cursor_rank c h)
  end.
Definition sample_rank (h : list BookEventMessage) (before : option string) : nat :=
  match before with None => length h | Some c => Nat.min (cursor_rank c h) (length h) end.
Definition sample_fetch (h : list BookEventMessage) (before : option string) (s : unit)
    : outcome string BookEventPage * unit :=
  let r := sample_rank h before in
  let k := (r - 2)%nat in
  (Ok (mkPage (take 2 (drop k h)) (if decide (k = O) then None else bm_cursor <$> h !! k)), s).

Lemma cursor_rank_at h : NoDup (map bm_cursor h) -> forall k m, h !! k = Some m -> cursor_rank (bm_cursor m) h = k.
Proof.
  induction h as [|x h IH]; intros Hn [|k] m Hk; simplify_eq/=; [by rewrite bool_decide_true|].
  apply NoDup_cons in Hn as [Hx Hn]. rewrite bool_decide_false; [by rewrite (IH Hn k m)|].
  intros He. apply Hx. rewrite He. apply list_elem_of_fmap_2. by eapply list_elem_of_lookup_2.
Qed.
Lemma sample_reads h : NoDup (map bm_cursor h) -> reads (sample_fetch h) (sample_rank h) h.
Proof.
  intros Hn. split; [done|]. intros before s. eexists _, s. split; [by destruct s|].
  assert (Hr : (sample_rank h before <= length h)%nat) by (destruct before; simpl; lia).
  exists (sample_rank h before - 2)%nat, 2%nat. split_and!; [lia..|done|]. cbn [pg_previous_cursor].
  destruct (decide _); [done|].
  destruct (h !! (sample_rank h before - 2)%nat) as [m|] eqn:Em; [|apply lookup_ge_None in Em; lia].
  cbn [fmap option_fmap option_map]. unfold sample_rank at 1. rewrite (cursor_rank_at h Hn _ m Em). lia.
Qed.
Lemma sample_history : history (sample_old ++ sample_new).
Proof. split; [|by apply (bool_decide_unpack _); vm_compute]. repeat constructor. Qed.

Lemma incremental_reads_agree_witness :
  fst (fold_book_event_pages sample_input (sample_fetch (sample_old ++ sample_new)) 6
    (mkFold {[7 := set_ticks 6 sample_buy]} ∅ (Some "m3")) tt) =
  fst (fold_book_event_pages sample_input (sample_fetch (sample_old ++ sample_new)) 6 fold_default tt).
Proof.
  apply (incremental_reads_agree sample_input (sample_fetch sample_old) (sample_rank sample_old)
    (sample_fetch (sample_old ++ sample_new)) (sample_rank (sample_old ++ sample_new)) sample_old sample_new
    4 6 tt tt (mkFold {[7 := set_ticks 6 sample_buy]} ∅ (Some "m3")));
    [apply sample_history|apply sample_reads|apply sample_reads|simpl; lia..|vm_compute; reflexivity].
  all: by apply (bool_decide_unpack _); vm_compute.
Defined.
Lemma book_holds_the_open_orders_witness : exists f,
  fst (fold_book_event_pages sample_input (sample_fetch (sample_old ++ sample_new)) 6 fold_default tt) = Some (Ok f) /\
  bf_orders f !! 7 = Some (set_ticks 2 sample_buy) /\
  forall now, set_ticks 2 sample_buy ∈ live_orders_at f now <->
    has_left sample_buy [Filled 7 8 4; Expired 9 false "0:aa" "0:bb"; Filled 7 8 4] = false /\
    is_live_at (set_ticks 2 sample_buy) now = true.
Proof.
  apply (book_holds_the_open_orders sample_input (sample_fetch (sample_old ++ sample_new))
    (sample_rank (sample_old ++ sample_new)) (sample_old ++ sample_new) 6 tt []
    sample_buy [Filled 7 8 4; Expired 9 false "0:aa" "0:bb"; Filled 7 8 4]);
    [apply sample_history|apply sample_reads|simpl; lia|reflexivity|done|].
  - by apply (bool_decide_unpack _); vm_compute.
  - repeat constructor; simpl; lia.
Defined.
