(* ===== verification/Handover.v ===== *)
(** * Handover: the payload that opens a deal's gateway (crates/core/src/handover.rs)

    The JSON text and the encryption are external; a payload is the JSON value. *)
From Stdlib Require Import Ascii.
From S2P Require Import Prelude Text Address Json.

Record Handover : Type := mkHandover {
  ho_endpoint : string;
  ho_tls_fingerprint : string
}.
(** The token contract is kept in the workchain form. *)
Record DealBoundHandover : Type := mkBound {
  bh_handover : Handover;
  bh_token_contract : option text
}.
Inductive HandoverDealError : Type :=
| Payload (error : string)
| Unattributed
| OtherDeal (written_for read_from : text).

(** ** The derived serialisation: the payload of a deal is flattened into one object *)
Definition handover_entries (h : Handover) : list (string * Value) :=
  [("endpoint", VString (ho_endpoint h)); ("tls_fingerprint", VString (ho_tls_fingerprint h))].
Definition to_value (h : Handover) : Value := VObject (handover_entries h).
Definition bound_to_value (b : DealBoundHandover) : Value :=
  VObject (handover_entries (bh_handover b) ++
    [("token_contract", match bh_token_contract b with
                        | Some tc => VString (of_text (serialize_self_dapp tc))
                        | None => Null
                        end)]).
Definition string_field (v : Value) (key : string) : outcome string string :=
  let* field := ok_or (get_field v key) "missing field" in
  ok_or (as_str field) "invalid type".
Definition from_value (v : Value) : outcome string Handover :=
  let* endpoint := string_field v "endpoint" in
  let* tls_fingerprint := string_field v "tls_fingerprint" in
  Ok (mkHandover endpoint tls_fingerprint).
Definition bound_from_value (v : Value) : outcome string DealBoundHandover :=
  let* h := from_value v in
  match get_field v "token_contract" with
  | None | Some Null => Ok (mkBound h None)
  | Some (VString raw) => Ok (mkBound h (Some (deserialize_address (to_text raw))))
  | Some _ => Err "invalid type"
  end.

(** ** The deal's payload *)
Definition to_deal_value (h : Handover) (token_contract : text) : Value :=
  bound_to_value (mkBound h (Some token_contract)).
Definition from_deal_value (v : Value) (token_contract : text) : outcome HandoverDealError Handover :=
  let* bound := map_err Payload (bound_from_value v) in
  match bh_token_contract bound with
  | Some written_for =>
      if eq_ignore_ascii_case written_for token_contract then Ok (bh_handover bound)
      else Err (OtherDeal written_for token_contract)
  | None => Err Unattributed
  end.

Lemma bound_roundtrip h tc :
  bound_from_value (to_deal_value h tc) = Ok (mkBound h (Some (reload_self_dapp tc))).
Proof. unfold bound_from_value. simpl. rewrite to_of_text. by destruct h. Qed.

Lemma eq_ignore_case_refl t : eq_ignore_ascii_case t t = true.
Proof. by apply bool_decide_eq_true. Qed.
Lemma lower_legacy tc a : parse tc = Ok a -> to_ascii_lowercase (legacy a) = legacy a.
Proof.
  intros Ha. destruct (parse_wf _ _ Ha) as [_ [_ Hf]]. unfold legacy. simpl. do 2 f_equal.
  clear Ha. induction Hf as [|c t Hc _ IH]; simpl; [done|]. rewrite IH. f_equal. by apply lower_hex_facts in Hc as (_ & _ & _ & ?).
Qed.

(** A handover opens the deal it was written for and no other.  Written for a
    token contract and read back it is accepted under the workchain name of the same
    account, in any letter case, and yields the same endpoint and fingerprint; read
    under the name of any other account it is refused as that deal's, and a payload
    that names no deal is refused as well. *)
Theorem handovers_open_their_own_deal (h : Handover) (tc : text) (a : CanonicalAddress) :
  parse tc = Ok a ->
  from_deal_value (to_deal_value h tc) (legacy a) = Ok h /\
  from_value (to_deal_value h tc) = Ok h /\
  (forall other b, parse other = Ok b -> other = legacy b -> account_id b <> account_id a ->
     from_deal_value (to_deal_value h tc) other = Err (OtherDeal (legacy a) other)) /\
  (forall name, from_deal_value (to_value h) name = Err Unattributed).
Proof.
  intros Ha. unfold from_deal_value. rewrite bound_roundtrip, (reload_self_dapp_ok tc a Ha). simpl.
  split_and!.
  - by rewrite eq_ignore_case_refl.
  - by destruct h.
  - intros other b Hb -> Hne. destruct (eq_ignore_ascii_case _ _) eqn:E; [|done]. exfalso. apply Hne.
    apply bool_decide_eq_true in E.
    rewrite (lower_legacy tc a Ha), (lower_legacy _ b Hb) in E. by injection E.
  - intros name. by destruct h.
Qed.

Definition sample_account (c : Ascii.ascii) : text := to_text "0:" ++ repeat c 64.
Lemma handovers_open_their_own_deal_witness :
  let h := mkHandover "https://gw.example:8443" "aa:bb" in
  let sealed := to_deal_value h (sample_account "A"%char) in
  from_deal_value sealed (sample_account "a"%char) = Ok h /\
  from_deal_value sealed (sample_account "b"%char) = Err (OtherDeal (sample_account "a"%char) (sample_account "b"%char)).
Proof.
  destruct (handovers_open_their_own_deal (mkHandover "https://gw.example:8443" "aa:bb") (sample_account "A"%char)
    (mkAddress DEXDO_DAPP_ID (repeat "a"%char 64))) as (H1 & _ & H2 & _); [by vm_compute|].
  split; [exact H1|].
  apply (H2 (sample_account "b"%char) (mkAddress DEXDO_DAPP_ID (repeat "b"%char 64)));
    [by vm_compute|by vm_compute|by vm_compute].
Defined.
