(* ===== verification/ModelId.v ===== *)
(** * ModelId: canonical model ids and the market manifest (crates/core/src/manifest.rs)

    [producer--model--version] followed by optional flags in a fixed order.  The
    hash of a model is a parameter: the code calls SHA-256. *)
From Stdlib Require Import Ascii.
From S2P Require Import Prelude Text.

Record AttestedModelPrecision : Type := mkPrecision {
  mp_value : text;
  mp_status : string;
  mp_enforced : bool
}.
Record CanonicalModelFlags : Type := mkFlags {
  mf_unit : option text;
  mf_window : option text;
  mf_resolution : option text;
  mf_tools : bool;
  mf_think : bool;
  mf_precision : option AttestedModelPrecision
}.
Record CanonicalModelId : Type := mkModelId {
  mi_producer : text;
  mi_model : text;
  mi_version : text;
  mi_flags : CanonicalModelFlags
}.
Definition flags_default : CanonicalModelFlags := mkFlags None None None false false None.

(** ** Words *)
Fixpoint split_dashes (t acc : text) : list text :=
  match t with
  | [] => [rev acc]
  | c :: rest =>
      match rest with
      | d :: rest' =>
          if bool_decide (c = "-"%char) && bool_decide (d = "-"%char) then rev acc :: split_dashes rest' []
          else split_dashes rest (c :: acc)
      | [] => split_dashes rest (c :: acc)
      end
  end.
Fixpoint join_dashes (parts : list text) : text :=
  match parts with
  | [] => []
  | [p] => p
  | p :: rest => p ++ to_text "--" ++ join_dashes rest
  end.
Definition strip_suffix (c : ascii) (t : text) : option text :=
  match rev t with d :: r => if bool_decide (c = d) then Some (rev r) else None | [] => None end.

(** ** Flags *)
Definition is_word (words : list string) (token : text) : bool := bool_decide (of_text token ∈ words).
Definition is_window (token : text) : bool :=
  let digits := default [] (match strip_prefix (to_text "w") token with
                            | Some value => strip_suffix "k" value
                            | None => None
                            end) in
  match parse_uint U64_MAX digits with
  | Some thousands =>
      negb (bool_decide (digits = [])) && forallb is_digit digits && negb (thousands =? 0)
      && bool_decide (print_u128 thousands = digits)
  | None => false
  end.
Definition parse_model_flag (token : text) : outcome string nat :=
  if is_word ["sec"; "min"; "img"; "frame"] token then Ok 0%nat
  else if is_word ["480p"; "720p"; "1080p"; "2160p"] token then Ok 2%nat
  else if is_word ["tools"] token then Ok 3%nat
  else if is_word ["think"] token then Ok 4%nat
  else if is_word ["fp32"; "bf16"; "fp16"; "fp8"; "int8"; "int4"] token then Ok 5%nat
  else if is_word ["gptq"; "awq"; "gguf"; "Q4_K_M"] token then Err "packing formats are not admitted"
  else match strip_prefix (to_text "w") token with
       | Some _ => if is_window token then Ok 1%nat else Err "malformed window flag"
       | None => Err "unknown flag token"
       end.
Definition set_flag (slot : nat) (token : text) (f : CanonicalModelFlags) : outcome string CanonicalModelFlags :=
  match slot, f with
  | 0%nat, mkFlags _ w r t k p => Ok (mkFlags (Some token) w r t k p)
  | 1%nat, mkFlags u _ r t k p => Ok (mkFlags u (Some token) r t k p)
  | 2%nat, mkFlags u w _ t k p => Ok (mkFlags u w (Some token) t k p)
  | 3%nat, mkFlags u w r _ k p => Ok (mkFlags u w r true k p)
  | 4%nat, mkFlags u w r t _ p => Ok (mkFlags u w r t true p)
  | 5%nat, mkFlags u w r t k _ => Ok (mkFlags u w r t k (Some (mkPrecision token "attested" false)))
  | _, _ => Panic
  end.
Fixpoint parse_flags (tokens : list text) (seen : list nat) (last : option nat) (f : CanonicalModelFlags)
    : outcome string CanonicalModelFlags :=
  match tokens with
  | [] => Ok f
  | token :: rest =>
      let* slot := parse_model_flag token in
      fail_if bool_decide (slot ∈ seen) with "duplicate flag in model id" in
      fail_if from_option (fun l => (slot <? l)%nat) false last with "flag is in the wrong order in model id" in
      let* f := set_flag slot token f in
      parse_flags rest (slot :: seen) (Some slot) f
  end.

Definition CONTRACT_MODEL_NAME_MAX_BYTES : Z := 127.
Definition parse_canonical_model_id (name : text) : outcome string CanonicalModelId :=
  fail_if CONTRACT_MODEL_NAME_MAX_BYTES <? Z.of_nat (length name) with "model id is too long" in
  match split_dashes name [] with
  | producer :: model :: version :: tokens =>
      fail_if bool_decide (trim producer = []) || bool_decide (trim model = []) || bool_decide (trim version = [])
        with "model id is not canonical" in
      let* flags := parse_flags tokens [] None flags_default in
      Ok (mkModelId producer model version flags)
  | _ => Err "model id is not canonical"
  end.
Definition validate_canonical_model_id (name : text) : outcome string unit :=
  let* _ := parse_canonical_model_id name in Ok tt.

(** ** The manifest *)
Definition normalize_hash (h : text) : text :=
  let t := trim h in
  to_ascii_lowercase (default t (or_else (strip_prefix (to_text "0x") t) (strip_prefix (to_text "0X") t))).
Record MarketManifest : Type := mkManifest {
  mm_network : string;
  mm_frame_model : text;
  mm_model_hash : text;
  mm_inference_order_book : string;
  mm_root_model : string;
  mm_token_contract : text;
  mm_seller_note : string;
  mm_nonce : Z;
  mm_price_per_tick : Z;
  mm_max_ticks : Z
}.
Section Hash.
Context (model_hash_for : text -> text).
Definition resolve_model_name (model_hash : option text) (known_models : list text) : option text :=
  match model_hash with
  | None => None
  | Some h => find (fun name => bool_decide (normalize_hash (model_hash_for name) = normalize_hash h)) known_models
  end.
Definition validate_manifest (m : MarketManifest) : outcome string unit :=
  fail_if bool_decide (trim (mm_token_contract m) = []) with "token_contract is empty" in
  fail_if bool_decide (trim (mm_frame_model m) = []) with "frame_model is empty" in
  fail_if negb (bool_decide (mm_model_hash m = model_hash_for (mm_frame_model m)))
    with "model_hash does not match sha256(frame_model)" in
  Ok tt.
End Hash.

(** ** Printing an id back *)
Definition slot_tokens (slot : nat) (f : CanonicalModelFlags) : list text :=
  match slot with
  | 0%nat => option_list (mf_unit f)
  | 1%nat => option_list (mf_window f)
  | 2%nat => option_list (mf_resolution f)
  | 3%nat => if mf_tools f then [to_text "tools"] else []
  | 4%nat => if mf_think f then [to_text "think"] else []
  | 5%nat => option_list (mp_value <$> mf_precision f)
  | _ => []
  end.
Definition flag_tokens (f : CanonicalModelFlags) : list text := flat_map (fun slot => slot_tokens slot f) (seq 0 6).
Definition render_model_id (id : CanonicalModelId) : text :=
  join_dashes (mi_producer id :: mi_model id :: mi_version id :: flag_tokens (mi_flags id)).

Lemma split_nonempty t acc : split_dashes t acc <> [].
Proof.
  revert acc. induction t as [|c t IH]; intros acc; [done|]. simpl. destruct t as [|d t]; [apply IH|].
  destruct (_ && _); [done|apply IH].
Qed.
Lemma join_cons p parts : parts <> [] -> join_dashes (p :: parts) = p ++ to_text "--" ++ join_dashes parts.
Proof. by destruct parts. Qed.
Lemma join_split_from n t acc : (length t <= n)%nat -> join_dashes (split_dashes t acc) = rev acc ++ t.
Proof.
  revert t acc. induction n as [|n IH]; intros [|c t] acc Hn; simpl in Hn; try lia; [by rewrite app_nil_r..|].
  assert (Hone : join_dashes (split_dashes t (c :: acc)) = rev acc ++ c :: t)
    by (rewrite IH by lia; simpl; by rewrite <- app_assoc).
  simpl. destruct t as [|d t]; [exact Hone|]. destruct (bool_decide (c = _) && _) eqn:E; [|exact Hone].
  apply andb_prop in E as [->%bool_decide_eq_true ->%bool_decide_eq_true].
  rewrite join_cons by apply split_nonempty. rewrite IH by (simpl in *; lia). done.
Qed.
Lemma join_split t : join_dashes (split_dashes t []) = t.
Proof. by rewrite (join_split_from (length t)). Qed.

(** ** Flags fill their slots from left to right *)
Definition empty_from (n : nat) (f : CanonicalModelFlags) : Prop :=
  forall slot, (n <= slot)%nat -> slot_tokens slot f = [].
Lemma is_word_spec w token : is_word [w] token = true -> token = to_text w.
Proof.
  unfold is_word. intros H%bool_decide_eq_true. apply list_elem_of_singleton in H. by rewrite <- (to_of_text token), H.
Qed.
Lemma flag_words token slot : parse_model_flag token = Ok slot ->
  (slot = 3%nat -> token = to_text "tools") /\ (slot = 4%nat -> token = to_text "think").
Proof.
  unfold parse_model_flag. generalize (is_word_spec "tools" token), (is_word_spec "think" token).
  destruct (is_word ["sec"; _; _; _] token); [intros _ _ [= <-]; by split|].
  destruct (is_word ["480p"; _; _; _] token); [intros _ _ [= <-]; by split|].
  destruct (is_word ["tools"] token); [intros H _ [= <-]; split; [intros _; by apply H|done]|].
  destruct (is_word ["think"] token); [intros _ H [= <-]; split; [done|intros _; by apply H]|].
  destruct (is_word ["fp32"; _; _; _; _; _] token); [intros _ _ [= <-]; by split|].
  destruct (is_word _ token); [done|]. destruct (strip_prefix _ token); [|done].
  destruct (is_window token); [intros _ _ [= <-]; by split|done].
Qed.
Lemma set_flag_tokens slot token f f' : parse_model_flag token = Ok slot -> set_flag slot token f = Ok f' ->
  empty_from slot f -> flag_tokens f' = flag_tokens f ++ [token] /\ empty_from (S slot) f'.
Proof.
  intros Hp Hs He. destruct (flag_words token slot Hp) as [Ht Hk]. destruct f as [u w r t k p].
  assert (Hall : forall s, (slot <= s)%nat -> slot_tokens s (mkFlags u w r t k p) = []) by exact He.
  unfold flag_tokens. simpl.
  pose proof (Hall 0%nat) as E0. pose proof (Hall 1%nat) as E1. pose proof (Hall 2%nat) as E2.
  pose proof (Hall 3%nat) as E3. pose proof (Hall 4%nat) as E4. pose proof (Hall 5%nat) as E5.
  destruct slot as [|[|[|[|[|[|slot]]]]]]; simpl in *; simplify_eq/=;
    try rewrite Ht by done; try rewrite Hk by done;
    try rewrite E0 by lia; try rewrite E1 by lia; try rewrite E2 by lia; try rewrite E3 by lia;
    try rewrite E4 by lia; try rewrite E5 by lia;
    rewrite ?app_nil_r, <- ?app_assoc; (split; [done|]); intros s Hs; specialize (He s ltac:(lia));
    (destruct s as [|[|[|[|[|[|s]]]]]]; simpl in *; [lia || done ..]).
Qed.

Lemma parse_flags_tokens tokens seen last f f' :
  from_option (fun l => l ∈ seen) True last ->
  empty_from (from_option S 0%nat last) f -> parse_flags tokens seen last f = Ok f' ->
  flag_tokens f' = flag_tokens f ++ tokens.
Proof.
  revert seen last f. induction tokens as [|token tokens IH]; intros seen last f Hl He H; simpl in H.
  { simplify_eq. by rewrite app_nil_r. }
  ok_step H. rename a into slot. ok_step H. ok_step H. ok_step H. rename a into f1.
  assert (Hslot : (from_option S 0%nat last <= slot)%nat).
  { apply bool_decide_eq_false in E0. destruct last as [l|]; simpl in *; [|lia].
    apply Nat.ltb_ge in E1. destruct (decide (l = slot)) as [->|]; [done|lia]. }
  destruct (set_flag_tokens slot token f f1) as [Ht He']; [done|done|intros s Hs; apply He; lia|].
  rewrite (IH (slot :: seen) (Some slot) f1); [|by constructor|done|done]. by rewrite Ht, <- app_assoc.
Qed.

(** A model id is accepted in exactly one spelling.  An accepted name prints back
    from the parsed id byte for byte, so two accepted names with the same producer,
    model, version and flags are the same name, and with it the same hash; it has at
    most 127 bytes and its base parts are not blank. *)
Theorem model_ids_are_injective (name : text) (id : CanonicalModelId) :
  parse_canonical_model_id name = Ok id ->
  render_model_id id = name /\ Z.of_nat (length name) <= CONTRACT_MODEL_NAME_MAX_BYTES /\
  trim (mi_producer id) <> [] /\ trim (mi_model id) <> [] /\ trim (mi_version id) <> [] /\
  forall other, parse_canonical_model_id other = Ok id -> other = name.
Proof.
  assert (Hone : forall n, parse_canonical_model_id n = Ok id -> render_model_id id = n /\
    Z.of_nat (length n) <= CONTRACT_MODEL_NAME_MAX_BYTES /\
    trim (mi_producer id) <> [] /\ trim (mi_model id) <> [] /\ trim (mi_version id) <> []).
  { intros n H. unfold parse_canonical_model_id in H. ok_step H. apply Z.ltb_ge in E.
    destruct (split_dashes n []) as [|producer [|model [|version tokens]]] eqn:Es; try done.
    ok_step H. ok_step H. simplify_eq/=. apply orb_false_iff in E0 as [[H1 H2]%orb_false_iff H3].
    apply bool_decide_eq_false in H1, H2, H3. split_and!; try done.
    unfold render_model_id. simpl mi_producer. simpl mi_model. simpl mi_version. simpl mi_flags.
    rewrite (parse_flags_tokens tokens [] None flags_default a); [|done|by intros [|[|[|[|[|[|]]]]]]|done].
    simpl app. rewrite <- Es. apply join_split. }
  intros H. destruct (Hone name H) as (H1 & H2 & H3 & H4 & H5). split_and!; try done.
  intros other Ho. destruct (Hone other Ho) as [<- _]. done.
Qed.
Lemma model_ids_are_injective_witness :
  render_model_id (mkModelId (to_text "qwen") (to_text "qwen3") (to_text "32b")
    (mkFlags None (Some (to_text "w8k")) None true false (Some (mkPrecision (to_text "fp8") "attested" false))))
  = to_text "qwen--qwen3--32b--w8k--tools--fp8".
Proof. by apply (model_ids_are_injective (to_text "qwen--qwen3--32b--w8k--tools--fp8")); vm_compute. Defined.

(** Flags out of order, twice or in a packing format are refused. *)
Example refused_ids : Forall (fun s => is_ok (parse_canonical_model_id (to_text s)) = false)
  ["qwen/qwen3-32b"; "a--b"; "a----c"; "a--b--c--d"; "a--b--c--tools--w8k"; "a--b--c--tools--tools";
   "a--b--c--w08k"; "a--b--c--w0k"; "a--b--c--gguf"].
Proof. by repeat constructor; vm_compute. Qed.

(** A hash of the configured set names its model, when the hashes differ. *)
Lemma resolve_known model_hash_for known name : name ∈ known ->
  (forall a b, a ∈ known -> b ∈ known ->
    normalize_hash (model_hash_for a) = normalize_hash (model_hash_for b) -> a = b) ->
  resolve_model_name model_hash_for (Some (model_hash_for name)) known = Some name.
Proof.
  intros Hin Hinj. unfold resolve_model_name.
  destruct (find _ known) as [x|] eqn:E.
  - apply find_some in E as [Hx He%bool_decide_eq_true]. apply list_elem_of_In in Hx. f_equal. by apply Hinj.
  - exfalso. apply list_elem_of_In in Hin. pose proof (find_none _ _ E name Hin) as H. simpl in H.
    by rewrite bool_decide_true in H.
Qed.
