(* ===== verification/Verify.v ===== *)
(** * Verify: the buyer's checks on a model's stream (crates/dexdo/src/buyer/verify.rs,
    with the model configuration of seller/models.rs and the alias of registry.rs)

    Text is ASCII; agreements and thresholds are exact rationals where the code has
    doubles.  The environment and the URL parser are parameters. *)
From Stdlib Require Import Ascii QArith Lqa.
From S2P Require Import Prelude Text Capacity Diagnostics ModelId.
Open Scope Z_scope.

(** ** The configuration *)
Record FingerprintCfg : Type := mkFingerprintCfg {
  fc_probe_prompt : string;
  fc_expected_contains : string;
  fc_accepts_reasoning_side_channel : bool
}.
Record ModelConfig : Type := mkModelConfig {
  mc_frame_model : string;
  mc_base_url : string;
  mc_served_model : string;
  mc_api_key_env : string;
  mc_tokenizer_family : string;
  mc_price_per_tick : Z;
  mc_max_output_tokens : option Z;
  mc_identity_aliases : list string;
  mc_vocab_size : option Z;
  mc_fingerprints : list FingerprintCfg
}.
Definition ModelsConfig : Type := gmap string ModelConfig.

(** A [BTreeMap] iterates in key order. *)
Definition key_le (a b : string * ModelConfig) : bool := String.leb (fst a) (fst b).
Definition model_values (models : ModelsConfig) : list ModelConfig :=
  map snd (sort_by key_le (map_to_list models)).
Definition models_get (models : ModelsConfig) (name : string) : option ModelConfig :=
  match models !! name with
  | Some m => Some m
  | None => find (fun m => bool_decide (mc_frame_model m = name)) (model_values models)
  end.

Record ReferenceEndpoint : Type := mkEndpoint {
  re_base_url : string;
  re_model : string;
  re_api_key_env : string
}.
Definition reference_endpoint (m : ModelConfig) : ReferenceEndpoint :=
  mkEndpoint (mc_base_url m) (mc_served_model m) (mc_api_key_env m).
Definition trimmed (s : string) : string := of_text (trim (to_text s)).
Section Environment.
Context (env_var : string -> option string).
(** [reqwest::Url::parse]: an absolute http or https URL with a host. *)
Context (is_http_url : string -> bool).
Definition key_present (name : string) : bool :=
  match env_var name with Some v => negb (bool_decide (v = ""%string)) | None => false end.
Definition require_api_key_present (m : ModelConfig) : outcome string unit :=
  fail_if negb (key_present (mc_api_key_env m)) with "the upstream key is not set" in Ok tt.
Definition require_executable_reference (m : ModelConfig) : outcome string unit :=
  fail_if negb (is_http_url (mc_base_url m)) with "reference endpoint must be an absolute http(s) URL" in
  fail_if bool_decide (trimmed (mc_served_model m) = ""%string) with "reference served_model is empty" in
  require_api_key_present m.
Definition executable_reference_model_for (model_id : string) (models : ModelsConfig) : option string :=
  let id := trimmed model_id in
  let served m := bool_decide (trimmed (mc_served_model m) = id) in
  let aliased m := existsb (fun a => bool_decide (trimmed a = id)) (mc_identity_aliases m) in
  match or_else (models_get models id)
          (or_else (find served (model_values models)) (find aliased (model_values models))) with
  | Some cfg => if is_ok (require_executable_reference cfg) then Some (mc_frame_model cfg) else None
  | None => None
  end.
End Environment.

(** ** Model names *)
Definition frame_model_to_served_alias (model_id : text) : option text :=
  match parse_canonical_model_id model_id with
  | Ok c => Some (mi_producer c ++ to_text "/" ++ mi_model c ++ to_text "-" ++ mi_version c)
  | _ =>
      match split_once2 "-" "-" model_id with
      | Some (vendor, rest) =>
          if bool_decide (vendor = []) || bool_decide (rest = []) then None
          else let rest := replace_all (to_text "--") (to_text "-") rest in
               if bool_decide (rest = []) then None else Some (vendor ++ to_text "/" ++ rest)
      | None => None
      end
  end.
Definition model_id_alias (model_id : string) : text :=
  let normalized := to_ascii_lowercase (trim (to_text model_id)) in
  default normalized (frame_model_to_served_alias normalized).
Definition resolve_model_cfg (model_id : string) (models : ModelsConfig) : option ModelConfig :=
  let id := trimmed model_id in
  let want := model_id_alias id in
  or_else (models_get models id)
    (or_else (find (fun m => bool_decide (mc_served_model m = id)) (model_values models))
       (find (fun m => bool_decide (model_id_alias (mc_frame_model m) = want)
                || bool_decide (to_ascii_lowercase (to_text (mc_served_model m)) = want)
                || existsb (fun a => bool_decide (model_id_alias a = want)) (mc_identity_aliases m))
          (model_values models))).
Definition fingerprints_for (model_id : string) (models : ModelsConfig) : list FingerprintCfg :=
  from_option mc_fingerprints [] (resolve_model_cfg model_id models).
Definition default_probe (model_id : string) (models : ModelsConfig) : option string :=
  fc_probe_prompt <$> head (fingerprints_for model_id models).
Definition reference_endpoint_for (model_id : string) (models : ModelsConfig) : option ReferenceEndpoint :=
  let id := trimmed model_id in
  reference_endpoint <$>
    or_else (models_get models id) (find (fun m => bool_decide (mc_served_model m = id)) (model_values models)).
Definition family_of (model : string) : string :=
  let m := to_ascii_lowercase (to_text model) in
  default ""%string (find (fun fam => contains_text (to_text fam) m) ["qwen"; "llama"; "gpt"; "mixtral"; "gemma"]%string).

(** ** The stream *)
Inductive Verdict : Type :=
| Pass
| Bail (reason : string).
Inductive TokenizerProfile : Type :=
| Permissive
| Vocab (size : Z).
Record SignalManifest : Type := mkSignals {
  sm_tokenizer_family : string;
  sm_has_token_ids : bool;
  sm_claimed_model : string
}.
Record CanonChunk : Type := mkChunk {
  ck_text : string;
  ck_token_ids : list Z;
  ck_seq : Z;
  ck_manifest : option SignalManifest;
  ck_reasoning : string
}.
Definition profile_for (family : string) (models : option ModelsConfig) : option TokenizerProfile :=
  let configured :=
    match models with
    | Some models =>
        match find (fun m => bool_decide (mc_tokenizer_family m = family)) (model_values models) with
        | Some m => mc_vocab_size m
        | None => None
        end
    | None => None
    end in
  match configured with
  | Some v => Some (Vocab v)
  | None =>
      if bool_decide (family = "mock"%string) then Some Permissive
      else if bool_decide (family = "qwen"%string) then Some (Vocab 152064)
      else if bool_decide (family = "llama"%string) then Some (Vocab 128256)
      else if bool_decide (family = "gpt"%string) then Some (Vocab 100352)
      else None
  end.
Definition tokenizer_check (family : string) (token_ids : list Z) (models : option ModelsConfig) : Verdict :=
  match profile_for family models with
  | None | Some Permissive => Pass
  | Some (Vocab max) =>
      match find (fun id => max <=? id) token_ids with
      | Some _ => Bail "tokenizer-check: token id outside the vocabulary"
      | None => Pass
      end
  end.
Record StreamVerifier : Type := mkVerifier {
  sv_manifest : option SignalManifest;
  sv_expected_model : option string;
  sv_models : option ModelsConfig
}.
Definition verifier_new : StreamVerifier := mkVerifier None None None.
Definition with_expected_model (model : string) : StreamVerifier := mkVerifier None (Some model) None.
Definition with_expected_model_and_models (model : string) (models : ModelsConfig) : StreamVerifier :=
  mkVerifier None (Some model) (Some models).
Definition is_permissive (p : option TokenizerProfile) : bool :=
  match p with Some Permissive => true | _ => false end.
Definition verify (v : StreamVerifier) (chunk : CanonChunk) : Verdict * StreamVerifier :=
  let v := mkVerifier (or_else (ck_manifest chunk) (sv_manifest v)) (sv_expected_model v) (sv_models v) in
  match sv_manifest v with
  | None => (Pass, v)
  | Some manifest =>
      let tokens := if sm_has_token_ids manifest
                    then tokenizer_check (sm_tokenizer_family manifest) (ck_token_ids chunk) (sv_models v)
                    else Pass in
      match tokens with
      | Bail reason => (Bail reason, v)
      | Pass =>
          match sv_expected_model v with
          | Some expected =>
              let claimed := sm_claimed_model manifest in
              let is_mock := is_permissive (profile_for (sm_tokenizer_family manifest) (sv_models v)) in
              if negb (bool_decide (claimed = ""%string)) && negb is_mock && negb (bool_decide (claimed = expected))
              then (Bail "reference-check: declared model is not the frame model", v)
              else (Pass, v)
          | None => (Pass, v)
          end
      end
  end.

(** ** Probes *)
Definition behavioral_check_with_reasoning (model_id probe_prompt response reasoning : string)
    (models : ModelsConfig) : Verdict :=
  match find (fun fp => bool_decide (fc_probe_prompt fp = probe_prompt)) (fingerprints_for model_id models) with
  | Some fp =>
      let has_content_quirk := contains_text (to_text (fc_expected_contains fp)) (to_text response) in
      let has_reasoning := fc_accepts_reasoning_side_channel fp && negb (bool_decide (trim (to_text reasoning) = [])) in
      if has_content_quirk || has_reasoning then Pass
      else Bail "behavioral-probe: the response does not carry the model's quirk"
  | None => Pass
  end.
Definition behavioral_check (model_id probe_prompt response : string) (models : ModelsConfig) : Verdict :=
  behavioral_check_with_reasoning model_id probe_prompt response "" models.

(** [current] is kept reversed; [digit] is the class of its characters. *)
Fixpoint words_from (t current : text) (digit : option bool) : list text :=
  match t with
  | [] => if bool_decide (current = []) then [] else [rev current]
  | ch :: t =>
      let ch := lower ch in
      if negb (is_alphanumeric ch) then
        (if bool_decide (current = []) then words_from t [] digit else rev current :: words_from t [] None)
      else
        let is_digit_ch := is_digit ch in
        if from_option (fun prev => negb (Bool.eqb prev is_digit_ch)) false digit && negb (bool_decide (current = []))
        then rev current :: words_from t [ch] (Some is_digit_ch)
        else words_from t (ch :: current) (Some is_digit_ch)
  end.
Definition normalize_words (s : string) : list text := words_from (to_text s) [] None.
(** [zip], [take_while] and [count]. *)
Fixpoint agreeing (a b : list text) : nat :=
  match a, b with
  | x :: a, y :: b => if bool_decide (x = y) then S (agreeing a b) else O
  | _, _ => O
  end.
Definition prefix_agreement (seller reference : string) : Q :=
  let a := normalize_words seller in
  let b := normalize_words reference in
  match a, b with
  | [], _ | _, [] => 0%Q
  | _, _ => Z.of_nat (agreeing a b) # Pos.of_nat (length b)
  end.
Definition DEFAULT_SPOTCHECK_THRESHOLD : Q := 25 # 100.
Definition DEFAULT_SPOTCHECK_PROBE : string := "What is 17 times 23? Show your step-by-step reasoning.".
Definition spotcheck_verdict (agreement threshold : Q) : Verdict :=
  if Qle_bool threshold agreement then Pass
  else Bail "reference-spotcheck: greedy output did not match the official model".

(** ** What a verified stream and an agreement say, and what they miss *)Open Scope Z_scope.

(** ** Streams *)

(** The buyer reads until the first refusal. *)
Fixpoint verify_stream (v : StreamVerifier) (chunks : list CanonChunk) : Verdict :=
  match chunks with
  | [] => Pass
  | c :: chunks => match verify v c with (Pass, v) => verify_stream v chunks | (Bail r, _) => Bail r end
  end.
(** The manifest in force: the last one announced. *)
Definition announced (m : option SignalManifest) (chunks : list CanonChunk) : option SignalManifest :=
  foldl (fun m c => or_else (ck_manifest c) m) m chunks.
(** What the manifest in force demands of a chunk. *)
Definition in_vocabulary (models : option ModelsConfig) (m : SignalManifest) (c : CanonChunk) : Prop :=
  sm_has_token_ids m = true -> forall size, profile_for (sm_tokenizer_family m) models = Some (Vocab size) ->
  Forall (fun id => id < size) (ck_token_ids c).
Definition names_the_model (models : option ModelsConfig) (expected : string) (m : SignalManifest) : Prop :=
  sm_claimed_model m = ""%string \/ profile_for (sm_tokenizer_family m) models = Some Permissive \/
  sm_claimed_model m = expected.

Lemma tokenizer_check_pass family ids models : tokenizer_check family ids models = Pass <->
  forall size, profile_for family models = Some (Vocab size) -> Forall (fun id => id < size) ids.
Proof.
  unfold tokenizer_check. destruct (profile_for family models) as [[|size]|]; [by split..| |by split].
  destruct (find _ ids) as [bad|] eqn:E.
  - split; [done|]. intros H. apply find_some in E as [Hin Hb%Z.leb_le].
    pose proof (proj1 (Forall_forall _ _) (H size eq_refl) bad (proj2 (list_elem_of_In _ _) Hin)) as Hlt. simpl in Hlt. lia.
  - split; [|done]. intros _ ? [= <-]. apply Forall_forall. intros id Hin%list_elem_of_In.
    pose proof (find_none _ _ E id Hin) as H. simpl in H. apply Z.leb_gt in H. lia.
Qed.
Lemma is_permissive_spec p : is_permissive p = true <-> p = Some Permissive.
Proof. by destruct p as [[]|]. Qed.
Lemma verify_step m expected models c :
  let m' := or_else (ck_manifest c) m in
  let '(verdict, v) := verify (mkVerifier m (Some expected) models) c in
  v = mkVerifier m' (Some expected) models /\
  (verdict = Pass <-> forall s, m' = Some s -> in_vocabulary models s c /\ names_the_model models expected s).
Proof.
  unfold verify. simpl. destruct (or_else (ck_manifest c) m) as [s|]; [|by split].
  unfold in_vocabulary, names_the_model.
  destruct (if sm_has_token_ids s then tokenizer_check (sm_tokenizer_family s) (ck_token_ids c) models else Pass)
    as [|r] eqn:Et.
  - assert (Hv : sm_has_token_ids s = true -> forall size, profile_for (sm_tokenizer_family s) models = Some (Vocab size) ->
      Forall (fun id => id < size) (ck_token_ids c)).
    { intros Hs. rewrite Hs in Et. by apply tokenizer_check_pass. }
    destruct (bool_decide_reflect (sm_claimed_model s = ""%string)) as [He|He]; simpl.
    { split; [done|]. split; [|done]. intros _ ? [= <-]. split; [done|by left]. }
    destruct (is_permissive _) eqn:Ep; simpl.
    { apply is_permissive_spec in Ep. split; [done|]. split; [|done]. intros _ ? [= <-]. split; [done|right; by left]. }
    destruct (bool_decide_reflect (sm_claimed_model s = expected)) as [Hc|Hc]; simpl.
    { split; [done|]. split; [|done]. intros _ ? [= <-]. split; [done|right; by right]. }
    split; [done|]. split; [done|]. intros H. destruct (H s eq_refl) as [_ [|[Hp|]]]; [done| |done].
    apply is_permissive_spec in Hp. congruence.
  - split; [done|]. split; [done|]. intros H. destruct (H s eq_refl) as [Hv _].
    destruct (sm_has_token_ids s); [|done]. rewrite (proj2 (tokenizer_check_pass _ _ _)) in Et; [done|by apply Hv].
Qed.
Lemma verify_stream_from m expected models chunks :
  verify_stream (mkVerifier m (Some expected) models) chunks = Pass <->
  forall before c after s, chunks = before ++ c :: after -> announced m (before ++ [c]) = Some s ->
    in_vocabulary models s c /\ names_the_model models expected s.
Proof.
  revert m. induction chunks as [|c chunks IH]; intros m; simpl.
  { split; [|done]. by intros _ [|? ?]. }
  pose proof (verify_step m expected models c) as Hstep. cbn zeta in Hstep.
  destruct (verify _ c) as [verdict v]. destruct Hstep as [-> Hp]. split.
  - intros H. destruct verdict as [|r]; [|done]. intros [|x before] c' after s Heq Hs; simplify_eq/=.
    + by apply (proj1 Hp eq_refl).
    + by apply (proj1 (IH _) H before c' after).
  - intros H. assert (verdict = Pass) as ->.
    { apply Hp. intros s Hs. by apply (H [] c chunks). }
    apply IH. intros before c' after s -> Hs. by apply (H (c :: before) c' after).
Qed.

(** A stream is accepted exactly when every chunk satisfies the manifest in force
    at it: with declared token ids, each id lies in the vocabulary of the declared
    family; and the declared model is the frame's, or empty, or of the mock family.
    Streams without a manifest are not checked. *)
Theorem verified_streams_match_the_frame (models : ModelsConfig) (expected : string) (chunks : list CanonChunk) :
  verify_stream (with_expected_model_and_models expected models) chunks = Pass <->
  forall before c after m, chunks = before ++ c :: after -> announced None (before ++ [c]) = Some m ->
    in_vocabulary (Some models) m c /\ names_the_model (Some models) expected m.
Proof. apply verify_stream_from. Qed.

(** The seller's own manifest switches the checks off.  Whatever model the buyer
    pays for and whatever the configuration says of other families, a stream whose
    manifests declare the mock tokenizer family is accepted with any declared model
    and any token ids. *)
Theorem mock_family_escapes_the_checks (models : ModelsConfig) (expected : string) (chunks : list CanonChunk) :
  Forall (fun m => mc_tokenizer_family m <> "mock"%string) (model_values models) ->
  Forall (fun c => from_option (fun m => sm_tokenizer_family m = "mock"%string) True (ck_manifest c)) chunks ->
  verify_stream (with_expected_model_and_models expected models) chunks = Pass.
Proof.
  intros Hm Hc. apply verify_stream_from. intros before c after s -> Hs.
  assert (Hmock : sm_tokenizer_family s = "mock"%string).
  { rewrite cons_middle, app_assoc in Hc. apply Forall_app in Hc as [Hc _]. revert Hs Hc. clear.
    generalize (before ++ [c]). intros l. unfold announced.
    induction l as [|x l IH] using rev_ind; [done|]. rewrite foldl_app. simpl. intros H [Hl [Hx _]%Forall_cons]%Forall_app.
    destruct (ck_manifest x); simplify_eq/=; [done|by apply IH]. }
  assert (Hp : profile_for (sm_tokenizer_family s) (Some models) = Some Permissive).
  { rewrite Hmock. unfold profile_for. destruct (find _ _) as [m|] eqn:E; [|done].
    apply find_some in E as [Hin He%bool_decide_eq_true]. apply list_elem_of_In in Hin.
    by destruct (proj1 (Forall_forall _ _) Hm m Hin). }
  split; [|right; by left]. intros _ size Hv. by rewrite Hp in Hv.
Qed.

(** ** Agreement *)
Lemma agreeing_le a b : (agreeing a b <= length a)%nat /\ (agreeing a b <= length b)%nat.
Proof.
  revert b. induction a as [|x a IH]; intros [|y b]; simpl; try lia. destruct (bool_decide _); [|lia].
  destruct (IH b). lia.
Qed.
Lemma agreeing_all a b : agreeing a b = length b <-> b `prefix_of` a.
Proof.
  revert b. induction a as [|x a IH]; intros [|y b]; simpl.
  - split; [intros _; apply prefix_nil|done].
  - split; [done|]. by intros [? [=]].
  - split; [intros _; apply prefix_nil|done].
  - destruct (bool_decide_reflect (x = y)) as [->|Hne].
    + split; [intros [= H]; apply prefix_cons; by apply IH|]. intros H. f_equal. apply IH.
      by apply prefix_cons_inv_2 in H.
    + split; [done|]. intros H. by apply prefix_cons_inv_1 in H.
Qed.
Lemma agreeing_mono a a' b : a `prefix_of` a' -> (agreeing a b <= agreeing a' b)%nat.
Proof.
  intros [k ->]. revert b. induction a as [|x a IH]; intros [|y b]; simpl; [destruct k; simpl; lia|lia..|].
  destruct (bool_decide _); [|lia]. specialize (IH b). lia.
Qed.
Lemma prefix_agreement_num seller reference : normalize_words reference <> [] ->
  (prefix_agreement seller reference ==
   Z.of_nat (agreeing (normalize_words seller) (normalize_words reference)) #
   Pos.of_nat (length (normalize_words reference)))%Q.
Proof.
  intros H. unfold prefix_agreement. destruct (normalize_words seller) as [|x a]; [|by destruct (normalize_words reference)].
  simpl agreeing. by apply Qeq_refl || (unfold Qeq; simpl; lia).
Qed.

(** The agreement of an answer with the reference is a fraction.  It is whole
    exactly when the answer begins with every word of the reference, and cutting an
    answer short never raises it; without words on either side it is zero. *)
Theorem agreement_measures_the_common_prefix (seller reference : string) :
  (0 <= prefix_agreement seller reference <= 1)%Q /\
  (normalize_words reference <> [] ->
   (prefix_agreement seller reference == 1)%Q <-> normalize_words reference `prefix_of` normalize_words seller) /\
  (forall shorter, normalize_words shorter `prefix_of` normalize_words seller ->
   prefix_agreement shorter reference <= prefix_agreement seller reference)%Q /\
  (normalize_words seller = [] \/ normalize_words reference = [] -> (prefix_agreement seller reference == 0)%Q).
Proof.
  assert (Hz : normalize_words reference = [] -> forall s, prefix_agreement s reference = 0%Q).
  { intros H s. unfold prefix_agreement. rewrite H. by destruct (normalize_words s). }
  destruct (decide (normalize_words reference = [])) as [Hr|Hr].
  { rewrite !(Hz Hr). split_and!; try done. intros s _. by rewrite !(Hz Hr). }
  assert (Hpos : (0 < length (normalize_words reference))%nat) by (destruct (normalize_words reference); [done|simpl; lia]).
  assert (Hlen : Zpos (Pos.of_nat (length (normalize_words reference))) = Z.of_nat (length (normalize_words reference)))
    by lia.
  destruct (agreeing_le (normalize_words seller) (normalize_words reference)) as [_ Hle].
  split_and!.
  - rewrite prefix_agreement_num by done. unfold Qle. simpl. lia.
  - rewrite prefix_agreement_num by done. unfold Qle. simpl. lia.
  - intros _. rewrite prefix_agreement_num by done. unfold Qeq. simpl. rewrite <- agreeing_all. lia.
  - intros shorter Hs. rewrite !prefix_agreement_num by done. unfold Qle. simpl.
    pose proof (agreeing_mono _ _ (normalize_words reference) Hs). nia.
  - intros [H|H]; [|done]. unfold prefix_agreement. by rewrite H.
Qed.

Definition sample_models : ModelsConfig :=
  {[ "qwen"%string := mkModelConfig "qwen--qwen3--32b" "https://api.example" "qwen/qwen3-32b" "KEY" "qwen" 1 (Some 40960)
       [] (Some 152064) [mkFingerprintCfg "who are you" "<think>" true] ]}.
Lemma mock_family_escapes_the_checks_witness :
  verify_stream (with_expected_model_and_models "qwen/qwen3-32b" sample_models)
    [mkChunk "hi" [999999] 0 (Some (mkSignals "mock" true "cheap/small-1b")) ""; mkChunk "!" [888888] 1 None ""] = Pass.
Proof.
  apply (mock_family_escapes_the_checks sample_models); [|by repeat constructor].
  apply (bool_decide_unpack _). by vm_compute.
Defined.
(** The same stream under the family of the configured model is refused. *)
Example honest_family_is_checked :
  verify_stream (with_expected_model_and_models "qwen/qwen3-32b" sample_models)
    [mkChunk "hi" [1] 0 (Some (mkSignals "qwen" true "cheap/small-1b")) ""] <> Pass /\
  verify_stream (with_expected_model_and_models "qwen/qwen3-32b" sample_models)
    [mkChunk "hi" [999999] 0 (Some (mkSignals "qwen" true "qwen/qwen3-32b")) ""] <> Pass.
Proof. by vm_compute. Qed.
