(* ===== verification/Probe.v ===== *)
(** * Probe: the buyer's requests to a gateway (crates/dexdo/src/buyer/mod.rs, with the
    token count and the content policy of buyer/api/mod.rs)

    The TLS and gRPC channel, the reference endpoint, the note's decryption and the
    JSON text are external: a stream is the list of items it yields. *)
From Stdlib Require Import Ascii QArith.
From S2P Require Import Prelude Text Params MarketTypes Address Json Handover Verify.
Open Scope Z_scope.

(** ** Calls that may fail *)
Definition io (W A : Type) : Type := W -> outcome string A * W.
Definition io_ret {W A} (a : A) : io W A := fun w => (Ok a, w).
Definition io_of {W A} (r : outcome string A) : io W A := fun w => (r, w).
Definition io_bind {W A B} (m : io W A) (k : A -> io W B) : io W B := fun w =>
  match m w with
  | (Ok a, w') => k a w'
  | (Err e, w') => (Err e, w')
  | (Panic, w') => (Panic, w')
  end.
Declare Scope io_scope.
Notation "'let%' x ':=' m 'in' k" := (io_bind m (fun x => k))
  (at level 10, x name, m at level 100, k at level 200,
   format "'[v' 'let%'  x  ':='  m  'in' '/' k ']'") : io_scope.
Open Scope io_scope.

(** ** Requests *)
Record ChatMessage : Type := mkMessage { cm_role : string; cm_content : string }.
Record SamplingParams : Type := mkParams {
  sp_temperature : Q;
  sp_max_tokens : Z;
  sp_stop : list string;
  sp_greedy : bool
}.
Record CanonRequest : Type := mkRequest { cq_messages : list ChatMessage; cq_params : option SamplingParams }.
Record StreamOutcome : Type := mkStreamOutcome {
  so_tokens : list string;
  so_reasoning : list string;
  so_received : Z
}.

(** [accounted_tokens]: a chunk without token ids still counts as one token. *)
Definition accounted_tokens (c : CanonChunk) : Z := Z.max (Z.of_nat (length (ck_token_ids c))) 1.

Class BuyerNet (W : Type) : Type := {
  bn_read_handover : TokenContract -> io W (option string);
  (** Connect, answer the challenge, open the stream: what it will yield. *)
  bn_open_stream : Handover -> TokenContract -> option CanonRequest -> io W (list (outcome string CanonChunk));
  bn_reference_completion : ReferenceEndpoint -> string -> string -> Z -> io W string
}.

Section Buyer.
Context {W : Type} `{BuyerNet W}.
Context (env_var : string -> option string).
(** The note's decryption, and [serde_json::from_slice]. *)
Context (decrypt : string -> outcome string string) (parse_json : string -> outcome string Value).

Definition resolve_endpoint (tc : TokenContract) : io W Handover :=
  let% found := bn_read_handover tc in
  let% enc := io_of (ok_or found "no handover") in
  let% plain := io_of (decrypt enc) in
  io_of (match parse_json plain with
         | Ok v => map_err (fun _ => "malformed handover"%string) (from_deal_value v (to_text tc))
         | Err e => Err "malformed handover"
         | Panic => Panic
         end).

(** The receiving loop of [connect_and_stream_request]. *)
Definition non_empty (s : string) : list string := if bool_decide (s = ""%string) then [] else [s].
Fixpoint receive (items : list (outcome string CanonChunk)) (max_tokens : Z) (charge : option (Z -> io W unit))
    (out : StreamOutcome) (accounted : Z) : io W StreamOutcome :=
  match items with
  | [] => io_ret out
  | Err e :: _ => io_of (Err e)
  | Panic :: _ => io_of Panic
  | Ok chunk :: items =>
      let n := accounted_tokens chunk in
      let next := match u64_checked_add accounted n with
                  | Some total => if total <=? max_tokens then Some total else None
                  | None => None
                  end in
      let% next := io_of (ok_or next "refusing the noncompliant chunk before it crosses the grant") in
      let% _ := match charge with Some charge => charge n | None => io_ret tt end in
      let out := mkStreamOutcome (so_tokens out ++ non_empty (ck_text chunk))
        (so_reasoning out ++ non_empty (ck_reasoning chunk)) (so_received out + 1) in
      if max_tokens <=? next then io_ret out else receive items max_tokens charge out next
  end.
Definition connect_and_stream_request (h : Handover) (tc : TokenContract) (max_tokens : Z)
    (request : option CanonRequest) (charge : option (Z -> io W unit)) : io W StreamOutcome :=
  let% items := bn_open_stream h tc request in
  receive items max_tokens charge (mkStreamOutcome [] [] 0) 0.

Definition user_message (content : string) : list ChatMessage := [mkMessage "user" content].
Definition behavioral_request (probe_prompt : string) (max_tokens : Z) : CanonRequest :=
  mkRequest (user_message probe_prompt) (Some (mkParams 0 (saturate U32_MAX max_tokens) [] false)).
(** [max_tokens as u32]. *)
Definition spotcheck_request (max_tokens : Z) : CanonRequest :=
  mkRequest (user_message DEFAULT_SPOTCHECK_PROBE) (Some (mkParams 0 (wrapping U32_MAX max_tokens) [] true)).

Definition joined (parts : list string) : string := String.concat "" parts.
Definition refused_on_credit : string := "the admitted grant cannot pay for the identity verification".
Definition behavioral_probe (h : Handover) (tc : TokenContract) (model_id : string) (max_tokens : Z)
    (models : ModelsConfig) (charge : option (Z -> io W unit)) : io W Verdict :=
  match default_probe model_id models with
  | None => io_ret Pass
  | Some probe_prompt =>
      let% _ := io_of (if max_tokens =? 0 then Err refused_on_credit else Ok tt) in
      let% outcome := connect_and_stream_request h tc max_tokens
        (Some (behavioral_request probe_prompt max_tokens)) charge in
      io_ret (behavioral_check_with_reasoning model_id probe_prompt (joined (so_tokens outcome))
                (joined (so_reasoning outcome)) models)
  end.

Definition is_blank (s : string) : bool := bool_decide (trim (to_text s) = []).
Definition content_or_reasoning (content reasoning : string) : string :=
  if is_blank content && negb (is_blank reasoning) then reasoning else content.
Definition reference_spotcheck (h : Handover) (tc : TokenContract) (model_id : string) (max_tokens : Z)
    (models : ModelsConfig) (charge : option (Z -> io W unit)) : io W Verdict :=
  match reference_endpoint_for model_id models with
  | None => io_ret Pass
  | Some endpoint =>
      match env_var (re_api_key_env endpoint) with
      | Some api_key =>
          if bool_decide (api_key = ""%string) then io_ret Pass
          else
            let% _ := io_of (if max_tokens =? 0 then Err refused_on_credit else Ok tt) in
            let% outcome := connect_and_stream_request h tc max_tokens (Some (spotcheck_request max_tokens)) charge in
            let seller_response := content_or_reasoning (joined (so_tokens outcome)) (joined (so_reasoning outcome)) in
            fun w =>
              match bn_reference_completion endpoint api_key DEFAULT_SPOTCHECK_PROBE (wrapping U32_MAX max_tokens) w with
              | (Ok reference, w) =>
                  (Ok (spotcheck_verdict (prefix_agreement seller_response reference) DEFAULT_SPOTCHECK_THRESHOLD), w)
              | (Err _, w) => (Ok Pass, w)
              | (Panic, w) => (Panic, w)
              end
      | None => io_ret Pass
      end
  end.
End Buyer.

(** The text of a reference answer. *)
Definition text_field (v : Value) (key : string) : list string :=
  match get_field v key with
  | Some (VString s) => if is_blank s then [] else [s]
  | _ => []
  end.
Definition reference_reasoning_text (message : Value) : string :=
  let direct := flat_map (text_field message) ["reasoning"; "reasoning_content"]%string in
  let details := match get_field message "reasoning_details" with
                 | Some (VArray ds) => flat_map (fun d => flat_map (text_field d) ["text"; "summary"]%string) ds
                 | _ => []
                 end in
  String.concat (String "010"%char "") (direct ++ details).

(** ** The content policy *)
Inductive ContentCheck : Type :=
| Skip
| ProbeModel (model_id : string).
Definition content_check_policy (frame_model : string) (identity_model : option string)
    (mock_model allow_unverified has_ref_key : bool) (models : ModelsConfig) : outcome string ContentCheck :=
  let identity_model := default frame_model identity_model in
  if mock_model then Ok Skip
  else if bool_decide (default_probe identity_model models <> None) || has_ref_key then Ok (ProbeModel identity_model)
  else if allow_unverified then Ok Skip
  else Err "refusing to buy on name-only evidence".

(** ** What a probe charges *)
Section Charged.
Context {W : Type}.
(** Charging a list of amounts in order, up to the first refusal. *)
Definition charge_all (charge : Z -> io W unit) (ns : list Z) : io W unit :=
  foldr (fun n rest => let% _ := charge n in rest) (io_ret tt) ns.
Definition total (chunks : list CanonChunk) : Z := foldr (fun c acc => accounted_tokens c + acc) 0 chunks.

Lemma total_nonneg chunks : 0 <= total chunks.
Proof. induction chunks as [|c chunks IH]; simpl; [done|]. unfold accounted_tokens. lia. Qed.
Lemma receive_spec charge max_tokens items : forall out acc w r w',
  receive items max_tokens (Some charge) out acc w = (r, w') ->
  exists taken rest, items = map Ok taken ++ rest /\
    snd (charge_all charge (map accounted_tokens taken) w) = w' /\
    (taken <> [] -> acc + total taken <= max_tokens) /\
    match r with
    | Ok res => fst (charge_all charge (map accounted_tokens taken) w) = Ok tt /\
        so_received res = so_received out + Z.of_nat (length taken) /\
        so_tokens res = so_tokens out ++ flat_map (fun c => non_empty (ck_text c)) taken /\
        so_reasoning res = so_reasoning out ++ flat_map (fun c => non_empty (ck_reasoning c)) taken /\
        (rest = [] \/ acc + total taken = max_tokens)
    | _ => True
    end.
Proof.
  induction items as [|item items IH]; intros out acc w r w' H.
  { injection H as <- <-. exists [], []. simpl. split_and!; try done; [lia|by rewrite app_nil_r..|by left]. }
  destruct item as [c|e|]; simpl in H; [|injection H as <- <-; by exists [], (Err e :: items)
                                        |injection H as <- <-; by exists [], (Panic :: items)].
  unfold io_bind, io_of in H. destruct (u64_checked_add acc (accounted_tokens c)) as [next|] eqn:En; simpl in H;
    [|injection H as <- <-; by exists [], (Ok c :: items)].
  apply checked_add_some in En as [-> _].
  destruct (Z.leb_spec (acc + accounted_tokens c) max_tokens) as [Hle|_]; simpl in H;
    [|injection H as <- <-; by exists [], (Ok c :: items)].
  destruct (charge (accounted_tokens c) w) as [[[]|e|] w1] eqn:Ec;
    [|injection H as <- <-; exists [c], items; simpl; unfold io_bind; rewrite Ec; split_and!; try done; lia..].
  destruct (Z.leb_spec max_tokens (acc + accounted_tokens c)) as [Hge|_].
  - injection H as <- <-. exists [c], items. simpl. unfold io_bind. rewrite Ec, !app_nil_r. simpl.
    split_and!; try done; try lia.
  - apply IH in H as (taken & rest & -> & Hw & Hb & Hr). exists (c :: taken), rest. simpl.
    unfold io_bind. rewrite Ec. split_and!; [done|done| |].
    + intros _. destruct taken as [|c' taken]; [simpl in *; lia|]. specialize (Hb ltac:(done)). simpl in *. lia.
    + destruct r as [res|e|]; [|done..]. destruct Hr as (H1 & H2 & H3 & H4 & H5). simpl in *.
      rewrite H2, H3, H4, <- !app_assoc. split_and!; try done; [lia|]. destruct H5 as [|H5]; [by left|right; lia].
Qed.
End Charged.

(** A probe never spends more than its grant.  Whatever the gateway streams, the
    amounts charged are exactly the token counts of the first chunks, in order and
    before anything else is read, and they add up to at most the grant; a chunk that
    would cross it is refused uncharged.  On success every charge was accepted, the
    answer is the text of those chunks, and reading stopped at the end of the stream
    or with the grant spent to the token. *)
Theorem probes_stay_within_the_grant {W} `{BuyerNet W} (h : Handover) (tc : TokenContract) (max_tokens : Z)
    (request : option CanonRequest) (charge : Z -> io W unit) (w w1 w2 : W) items r :
  0 <= max_tokens -> bn_open_stream h tc request w = (Ok items, w1) ->
  connect_and_stream_request h tc max_tokens request (Some charge) w = (r, w2) ->
  exists taken rest, items = map Ok taken ++ rest /\
    snd (charge_all charge (map accounted_tokens taken) w1) = w2 /\ total taken <= max_tokens /\
    match r with
    | Ok res => fst (charge_all charge (map accounted_tokens taken) w1) = Ok tt /\
        so_received res = Z.of_nat (length taken) /\
        so_tokens res = flat_map (fun c => non_empty (ck_text c)) taken /\
        so_reasoning res = flat_map (fun c => non_empty (ck_reasoning c)) taken /\
        (rest = [] \/ total taken = max_tokens)
    | _ => True
    end.
Proof.
  intros Hmax Ho Hr. unfold connect_and_stream_request, io_bind in Hr. rewrite Ho in Hr.
  apply receive_spec in Hr as (taken & rest & H1 & H2 & H3 & H4). exists taken, rest. split_and!; try done.
  destruct taken as [|c taken]; [done|]. by apply H3.
Qed.

(** The audit of the model's greedy output can be asked for without a limit: a grant
    of 2^32 tokens is not zero, but its low 32 bits are, and zero on the wire means
    unset; the behavioural probe of the same grant keeps a limit. *)
Lemma greedy_probe_can_lose_its_limit :
  (sp_max_tokens <$> cq_params (spotcheck_request (2 ^ 32))) = Some 0 /\
  forall prompt n, 0 < n -> exists limit, (sp_max_tokens <$> cq_params (behavioral_request prompt n)) = Some limit /\ 0 < limit.
Proof.
  split; [done|]. intros prompt n Hn. exists (saturate U32_MAX n). split; [done|].
  assert (0 < U32_MAX) by done. unfold saturate. destruct (Z.leb_spec n U32_MAX); lia.
Qed.

Definition ledger_charge (n : Z) (log : list Z) : outcome string unit * list Z := (Ok tt, log ++ [n]).
Definition sample_chunk (ids : list Z) (text : string) : CanonChunk := mkChunk text ids 0 None "".
Definition sample_items : list (outcome string CanonChunk) :=
  [Ok (sample_chunk [1; 2] "a"); Ok (sample_chunk [] "b"); Ok (sample_chunk [3; 4] "c")].
#[export] Instance sample_net : BuyerNet (list Z) := {|
  bn_read_handover _ w := (Ok None, w);
  bn_open_stream _ _ _ w := (Ok sample_items, w);
  bn_reference_completion _ _ _ _ w := (Ok ""%string, w) |}.
Lemma probes_stay_within_the_grant_witness :
  exists taken rest, sample_items = map Ok taken ++ rest /\
    snd (charge_all ledger_charge (map accounted_tokens taken) []) = [2; 1] /\ total taken <= 4.
Proof.
  destruct (probes_stay_within_the_grant (mkHandover "" "") "tc" 4 None ledger_charge [] []
    (snd (connect_and_stream_request (mkHandover "" "") "tc" 4 None (Some ledger_charge) []))
    sample_items (fst (connect_and_stream_request (mkHandover "" "") "tc" 4 None (Some ledger_charge) [])))
    as (taken & rest & H1 & H2 & H3 & _); [done|by vm_compute|by vm_compute|].
  exists taken, rest. split; [exact H1|]. split; [rewrite H2; by vm_compute|exact H3].
Defined.
