(* ===== verification/Routing.v ===== *)
(** * Routing: one buy across many sellers (crates/dexdo/src/buyer/routing.rs)

    The spot-check rate is an exact rational where the code has a double; the draw
    of the random number is part of the world. *)
From Stdlib Require Import Ascii QArith Qminmax.
From S2P Require Import Prelude Text Params MarketTypes Machine Backend Handover Verify Probe.
Open Scope Z_scope.

Definition DEFAULT_SPOT_CHECK_RATE : Q := 3 # 100.
Definition SPOT_CHECK_UNKNOWN_SCORE_MULTIPLIER : Q := 4.
Definition SPOT_CHECK_POSITIVE_SCORE_DECAY : Q := 1 # 2.
Definition SELLER_SCORE_PASS_DELTA : Z := 1.
Definition SELLER_SCORE_BAIL_DELTA : Z := -1.
(** Unchecked [+=] on an [i64] in a release build. *)
Definition wrapping_i64 (n : Z) : Z := (n + 2 ^ 63) mod 2 ^ 64 - 2 ^ 63.

Inductive ScammerReaction : Type := ReactStop | ReactDispute.
Record CappedBuy : Type := mkCappedBuy {
  cp_model : string;
  cp_price_cap : Z;
  cp_ticks : Z;
  cp_scammer_reaction : ScammerReaction;
  cp_spot_check_rate : Q
}.
Definition capped_buy_new (model : string) (price_cap ticks : Z) (reaction : ScammerReaction) : CappedBuy :=
  mkCappedBuy model price_cap ticks reaction DEFAULT_SPOT_CHECK_RATE.
Definition clamp01 (q : Q) : Q := Qmin (Qmax q 0) 1.
Definition spotcheck_rate_for (base_rate : Q) (score : Z) : Q :=
  let factor := if score <=? 0 then SPOT_CHECK_UNKNOWN_SCORE_MULTIPLIER
                else (1 / (1 + inject_Z score * SPOT_CHECK_POSITIVE_SCORE_DECAY))%Q in
  clamp01 (base_rate * factor).

Record Candidate : Type := mkCandidate {
  cd_seller_id : string;
  cd_token_contract : TokenContract;
  cd_price_per_tick : Z;
  cd_max_ticks : Z
}.
(** The buyer's memory of sellers it caught, and of how their streams went. *)
Definition Blacklist : Type := gset string.
Definition SellerScores : Type := gmap string Z.
Definition score_of (scores : SellerScores) (seller : string) : Z := default 0 (scores !! seller).
Definition record_delta (delta : Z) (seller : string) (scores : SellerScores) : SellerScores :=
  <[seller := wrapping_i64 (score_of scores seller + delta)]> scores.
Definition record_pass : string -> SellerScores -> SellerScores := record_delta SELLER_SCORE_PASS_DELTA.
Definition record_bail : string -> SellerScores -> SellerScores := record_delta SELLER_SCORE_BAIL_DELTA.
Definition mark (seller : string) (blacklist : Blacklist) : Blacklist := {[seller]} ∪ blacklist.

(** ** Ranking *)
Definition eligible (frame : CappedBuy) (blacklist : Blacklist) (c : Candidate) : bool :=
  (cd_price_per_tick c <=? cp_price_cap frame) && (cp_ticks frame <=? cd_max_ticks c)
  && negb (bool_decide (cd_seller_id c ∈ blacklist)).
(** Cheaper first, then the better score, then the seller's id. *)
Definition candidate_le (scores : SellerScores) (a b : Candidate) : bool :=
  let sa := score_of scores (cd_seller_id a) in
  let sb := score_of scores (cd_seller_id b) in
  (cd_price_per_tick a <? cd_price_per_tick b)
  || ((cd_price_per_tick a =? cd_price_per_tick b)
      && ((sb <? sa) || ((sa =? sb) && String.leb (cd_seller_id a) (cd_seller_id b)))).
Definition eligible_ranked (frame : CappedBuy) (offers : list Candidate) (blacklist : Blacklist)
    (scores : SellerScores) : list Candidate :=
  sort_by (candidate_le scores) (List.filter (eligible frame blacklist) offers).
Definition listings_to_candidates (offers : list OfferListing) : list Candidate :=
  map (fun o => mkCandidate (ol_seller_id o) (ol_token_contract o) (ol_price_per_tick o) (ol_max_ticks o)) offers.

(** ** The loop *)
Inductive DealOutcome : Type :=
| Delivered
| Scam (reason : string)
| NoShow.
Record Attempt : Type := mkAttempt {
  at_seller_id : string;
  at_token_contract : TokenContract;
  at_outcome : DealOutcome;
  at_reaction : option ScammerReaction
}.
Record RouteOutcome : Type := mkRoute { ro_served_by : option string; ro_attempts : list Attempt }.
Definition served (o : RouteOutcome) : bool := match ro_served_by o with Some _ => true | None => false end.

(** [None] is a panic of the runner. *)
Class DealRunner (W : Type) : Type := { run_deal : Candidate -> bool -> W -> option DealOutcome * W }.
(** [rand::random::<f64>()]. *)
Class Sampler (W : Type) : Type := { random_f64 : W -> Q * W }.

Section Route.
Context {W : Type} `{ChainBackend W} `{DealRunner W} `{Sampler W}.
Context (note : NotePubkey) (frame : CappedBuy).

Definition attempted (c : Candidate) (outcome : DealOutcome) (reaction : option ScammerReaction) : Attempt :=
  mkAttempt (cd_seller_id c) (cd_token_contract c) outcome reaction.
(** [rate > 0.0 && rand::random::<f64>() < rate]. *)
Definition draw_spot_check (rate : Q) : prog W bool :=
  if Qle_bool rate 0 then ret false
  else let! x := get random_f64 in ret (negb (Qle_bool rate x)).
Definition react (reaction : ScammerReaction) (tc : TokenContract) : prog W (outcome ChainError Settlement) :=
  match reaction with
  | ReactStop => attempt (cb_stop tc note)
  | ReactDispute => attempt (cb_dispute tc note)
  end.

Fixpoint route_candidates (candidates : list Candidate) (blacklist : Blacklist) (scores : SellerScores)
    (attempts : list Attempt) : prog W (RouteOutcome * Blacklist * SellerScores) :=
  match candidates with
  | [] => ret (mkRoute None attempts, blacklist, scores)
  | c :: candidates =>
      let seller := cd_seller_id c in
      let tc := cd_token_contract c in
      let failed outcome reaction := route_candidates candidates (mark seller blacklist) (record_bail seller scores)
        (attempts ++ [attempted c outcome reaction]) in
      let! placed := attempt (cb_place_buy tc note) in
      if negb (is_ok placed) then failed NoShow None
      else
        let! spot_check := draw_spot_check (spotcheck_rate_for (cp_spot_check_rate frame) (score_of scores seller)) in
        let! outcome := get (run_deal c spot_check) in
        match outcome with
        | None => panic
        | Some Delivered =>
            ret (mkRoute (Some seller) (attempts ++ [attempted c Delivered None]), blacklist, record_pass seller scores)
        | Some (Scam reason) =>
            let reaction := cp_scammer_reaction frame in
            let! _ := react reaction tc in
            match reaction with
            | ReactDispute =>
                ret (mkRoute None (attempts ++ [attempted c (Scam reason) (Some reaction)]),
                     mark seller blacklist, record_bail seller scores)
            | ReactStop => failed (Scam reason) (Some reaction)
            end
        | Some NoShow =>
            let! _ := attempt (cb_stop tc note) in
            failed NoShow None
        end
  end.
Definition route_capped_buy (blacklist : Blacklist) (scores : SellerScores)
    : prog W (RouteOutcome * Blacklist * SellerScores) :=
  let! discovered := attempt cb_discover_offers in
  match discovered with
  | Ok offers =>
      route_candidates (eligible_ranked frame (listings_to_candidates offers) blacklist scores) blacklist scores []
  | Err _ => ret (mkRoute None [], blacklist, scores)
  | Panic => panic
  end.
End Route.

(** ** The production runner *)
Record GatewayDealRunner : Type := mkRunner {
  gr_request : CanonRequest;
  gr_expected_model : string;
  gr_max_tokens : Z;
  gr_models : ModelsConfig;
  gr_mock_model : bool;
  gr_allow_unverified : bool
}.
Section Gateway.
Context {W : Type} `{BuyerNet W}.
Context (env_var : string -> option string).
Context (decrypt : string -> outcome string string) (parse_json : string -> outcome string Json.Value).
Context (r : GatewayDealRunner).

Definition gateway_content_refusal : option string :=
  let has_ref_key := match reference_endpoint_for (gr_expected_model r) (gr_models r) with
                     | Some e => key_present env_var (re_api_key_env e)
                     | None => false
                     end in
  match content_check_policy (gr_expected_model r) None (gr_mock_model r) (gr_allow_unverified r) has_ref_key
          (gr_models r) with
  | Err e => Some e
  | _ => None
  end.
(** The stream up to its end, a broken item, a refusal or the budget: the refusal,
    or how many chunks were accepted. *)
Fixpoint accept_chunks (items : list (outcome string CanonChunk)) (v : StreamVerifier) (received : Z) : string + Z :=
  match items with
  | Ok chunk :: items =>
      match verify v chunk with
      | (Bail reason, _) => inl reason
      | (Pass, v) =>
          let received := received + 1 in
          if gr_max_tokens r <=? received then inr received else accept_chunks items v received
      end
  | _ => inr received
  end.
(** An audit that cannot be made does not count against the seller; the outer
    option is a panic. *)
Definition audit (label : string) (m : io W Verdict) (w : W) : option (option string) * W :=
  match m w with
  | (Ok (Bail reason), w) => (Some (Some (String.append label reason)), w)
  | (Panic, w) => (None, w)
  | (_, w) => (Some None, w)
  end.
Definition spot_check_deal (h : Handover) (tc : TokenContract) (w : W) : option (option string) * W :=
  match audit "spot-check B7: "
          (reference_spotcheck env_var h tc (gr_expected_model r) (gr_max_tokens r) (gr_models r) None) w with
  | (Some None, w) =>
      audit "spot-check B8: " (behavioral_probe h tc (gr_expected_model r) (gr_max_tokens r) (gr_models r) None) w
  | caught => caught
  end.
(** What is left once the stream was accepted. *)
Definition conclude (caught : option string) : DealOutcome :=
  match caught with
  | Some reason => Scam reason
  | None =>
      match gateway_content_refusal with
      | Some reason => Scam (String.append "content-identity refused (fail-closed): " reason)
      | None => Delivered
      end
  end.
Definition gateway_run (candidate : Candidate) (spot_check : bool) (w : W) : option DealOutcome * W :=
  let tc := cd_token_contract candidate in
  match resolve_endpoint decrypt parse_json tc w with
  | (Ok handover, w) =>
      match bn_open_stream handover tc (Some (gr_request r)) w with
      | (Ok items, w) =>
          match accept_chunks items (with_expected_model_and_models (gr_expected_model r) (gr_models r)) 0 with
          | inl reason => (Some (Scam reason), w)
          | inr received =>
              if received =? 0 then (Some NoShow, w)
              else if spot_check then
                let '(caught, w) := spot_check_deal handover tc w in (conclude <$> caught, w)
              else (Some (conclude None), w)
          end
      | (Err _, w) => (Some NoShow, w)
      | (Panic, w) => (None, w)
      end
  | (Err _, w) => (Some NoShow, w)
  | (Panic, w) => (None, w)
  end.
#[export] Instance gateway_runner : DealRunner W := {| run_deal := gateway_run |}.
End Gateway.
