(* ===== verification/RoutingSafety.v ===== *)
(** * RoutingSafety: what a route may do, and what it leaves behind *)
From Stdlib Require Import Ascii QArith.
From S2P Require Import Prelude Text Params Settle Address MarketTypes Machine Accounting MockDeal.
From S2P Require Import MockMarket MockSample Backend Trace Json Handover Verify Probe Routing.
Open Scope Z_scope.

(** ** The calls of a route

    Every call that can change the market and every run of a deal, newest first. *)
Inductive RouteCall : Type :=
| RPlace (tc : TokenContract) (note : NotePubkey) (answer : outcome ChainError unit)
| RRun (c : Candidate) (spot_check : bool) (outcome : option DealOutcome)
| RStop (tc : TokenContract) (note : NotePubkey) (answer : outcome ChainError Settlement)
| RDispute (tc : TokenContract) (note : NotePubkey) (answer : outcome ChainError Settlement)
| ROther.
#[export] Instance traced_route {W} `{ChainBackend W} : ChainBackend (traced W RouteCall) := {|
  cb_discover_offers := silent cb_discover_offers;
  cb_place_buy tc note := entered (RPlace tc note) (cb_place_buy tc note);
  cb_accept_probe tc := entered (fun _ => ROther) (cb_accept_probe tc);
  cb_claim_tokens tc note n := entered (fun _ => ROther) (cb_claim_tokens tc note n);
  cb_finalize tc := entered (fun _ => ROther) (cb_finalize tc);
  cb_settle_week tc := entered (fun _ => ROther) (cb_settle_week tc);
  cb_stop tc note := entered (RStop tc note) (cb_stop tc note);
  cb_dispute tc note := entered (RDispute tc note) (cb_dispute tc note);
  cb_deal_state tc := silent (cb_deal_state tc);
  cb_deal_snapshot tc := silent (cb_deal_snapshot tc);
  cb_snapshot tc := silent (cb_snapshot tc) |}.
#[export] Instance traced_runner {W} `{DealRunner W} : DealRunner (traced W RouteCall) := {|
  run_deal c spot_check := entered (RRun c spot_check) (run_deal c spot_check) |}.
#[export] Instance traced_sampler {W} `{Sampler W} : Sampler (traced W RouteCall) := {| random_f64 := silent random_f64 |}.

(** ** The shape of a route *)
Definition delivered (a : Attempt) : bool := match at_outcome a with Delivered => true | _ => false end.
Definition is_scam (a : Attempt) : bool := match at_outcome a with Scam _ => true | _ => false end.
Definition attempt_key (a : Attempt) : string * TokenContract := (at_seller_id a, at_token_contract a).
Definition candidate_key (c : Candidate) : string * TokenContract := (cd_seller_id c, cd_token_contract c).
(** What the buyer remembers of an attempt. *)
Definition remember (a : Attempt) (m : Blacklist * SellerScores) : Blacklist * SellerScores :=
  if delivered a then (fst m, record_pass (at_seller_id a) (snd m))
  else (mark (at_seller_id a) (fst m), record_bail (at_seller_id a) (snd m)).
Definition remembered (attempts : list Attempt) (m : Blacklist * SellerScores) : Blacklist * SellerScores :=
  foldl (fun m a => remember a m) m attempts.

(** The logs a route over [candidates] may end with. *)
Inductive routed (frame : CappedBuy) : list Candidate -> list Attempt -> option string -> Prop :=
| routed_nobody : routed frame [] [] None
| routed_delivered c cs : routed frame (c :: cs) [attempted c Delivered None] (Some (cd_seller_id c))
| routed_dispute c cs reason : cp_scammer_reaction frame = ReactDispute ->
    routed frame (c :: cs) [attempted c (Scam reason) (Some ReactDispute)] None
| routed_stop c cs reason log by_ : cp_scammer_reaction frame = ReactStop -> routed frame cs log by_ ->
    routed frame (c :: cs) (attempted c (Scam reason) (Some ReactStop) :: log) by_
| routed_no_show c cs log by_ : routed frame cs log by_ ->
    routed frame (c :: cs) (attempted c NoShow None :: log) by_.

(** What one attempt did, in order: one order of the candidate's contract for the buyer's
    note, and when it was taken one run of the deal and what its outcome calls for. *)
Inductive attempt_calls (note : NotePubkey) (frame : CappedBuy) (c : Candidate) : Attempt -> list RouteCall -> Prop :=
| calls_refused answer : is_ok answer = false ->
    attempt_calls note frame c (attempted c NoShow None) [RPlace (cd_token_contract c) note answer]
| calls_delivered spot_check :
    attempt_calls note frame c (attempted c Delivered None)
      [RPlace (cd_token_contract c) note (Ok tt); RRun c spot_check (Some Delivered)]
| calls_no_show spot_check answer :
    attempt_calls note frame c (attempted c NoShow None)
      [RPlace (cd_token_contract c) note (Ok tt); RRun c spot_check (Some NoShow); RStop (cd_token_contract c) note answer]
| calls_scam spot_check reason reacted :
    (exists answer, reacted = match cp_scammer_reaction frame with
                              | ReactStop => RStop (cd_token_contract c) note answer
                              | ReactDispute => RDispute (cd_token_contract c) note answer
                              end) ->
    attempt_calls note frame c (attempted c (Scam reason) (Some (cp_scammer_reaction frame)))
      [RPlace (cd_token_contract c) note (Ok tt); RRun c spot_check (Some (Scam reason)); reacted].

Section Any.
Context {W : Type} `{ChainBackend W} `{DealRunner W} `{Sampler W}.
Context (note : NotePubkey) (frame : CappedBuy).

Abbreviation world := (traced W RouteCall).

(** The end of a route from the trace [before]. *)
Definition route_post (cs : list Candidate) (m : Blacklist * SellerScores) (attempts : list Attempt)
    (before : list RouteCall) (r : RouteOutcome * Blacklist * SellerScores) (after : list RouteCall) : Prop :=
  exists log by_ calls, routed frame cs log by_ /\
    r = (mkRoute by_ (attempts ++ log), fst (remembered log m), snd (remembered log m)) /\
    after = rev (concat calls) ++ before /\ Forall3 (attempt_calls note frame) (take (length log) cs) log calls.

Lemma route_post_cons c cs m attempts a calls before r after :
  (forall log by_, routed frame cs log by_ -> routed frame (c :: cs) (a :: log) by_) ->
  attempt_calls note frame c a calls ->
  route_post cs (remember a m) (attempts ++ [a]) (rev calls ++ before) r after ->
  route_post (c :: cs) m attempts before r after.
Proof.
  intros Hr Ha (log & by_ & more & Hlog & -> & -> & Hf). exists (a :: log), by_, (calls :: more). split_and!.
  - by apply Hr.
  - by rewrite <- app_assoc.
  - simpl. by rewrite rev_app_distr, app_assoc.
  - simpl. by constructor.
Qed.
Lemma route_post_last c cs m attempts a by_ calls before r after :
  routed frame (c :: cs) [a] by_ -> attempt_calls note frame c a calls ->
  r = (mkRoute by_ (attempts ++ [a]), fst (remember a m), snd (remember a m)) -> after = rev calls ++ before ->
  route_post (c :: cs) m attempts before r after.
Proof.
  intros Hr Ha -> ->. exists [a], by_, [calls]. split_and!; [done|done|by rewrite concat_cons, app_nil_r|].
  simpl. rewrite take_0. by repeat constructor.
Qed.

(** A draw leaves the trace. *)
Lemma draw_traced rate (w : world) : exists spot w1,
  draw_spot_check rate w = (Some (Ok spot), w1) /\ snd w1 = snd w.
Proof.
  unfold draw_spot_check. destruct (Qle_bool rate 0); [by exists false, w|]. unfold bind, get. simpl. unfold silent.
  destruct (random_f64 (fst w)) as [x w1]. by eexists _, _.
Qed.
Lemma react_traced reaction tc (w w1 : world) a : react note reaction tc w = (Some (Ok a), w1) ->
  exists answer, snd w1 = match reaction with ReactStop => RStop tc note answer | ReactDispute => RDispute tc note answer end :: snd w.
Proof.
  unfold react. destruct reaction; unfold attempt; simpl; unfold entered.
  - destruct (cb_stop tc note (fst w)) as [[]?]; intros [= _ <-]; by eexists.
  - destruct (cb_dispute tc note (fst w)) as [[]?]; intros [= _ <-]; by eexists.
Qed.
Lemma placed_traced tc (w w1 : world) a : attempt (cb_place_buy tc note) w = (Some (Ok a), w1) ->
  snd w1 = RPlace tc note a :: snd w.
Proof. unfold attempt. simpl. unfold entered. destruct (cb_place_buy tc note (fst w)) as [[]?]; by intros [= <- <-]. Qed.

(** A failed attempt goes on with the rest of the ranking. *)
Lemma route_candidates_post cs : forall bl sc attempts (w w' : world) r,
  route_candidates note frame cs bl sc attempts w = (Some (Ok r), w') -> route_post cs (bl, sc) attempts (snd w) r (snd w').
Proof.
  induction cs as [|c cs IH]; intros bl sc attempts w w' r Hrun.
  { injection Hrun as <- <-. exists [], None, []. split_and!; [constructor|by rewrite app_nil_r|done|constructor]. }
  assert (Hfail : forall outcome reaction calls (w1 : world),
    route_candidates note frame cs (mark (cd_seller_id c) bl) (record_bail (cd_seller_id c) sc)
      (attempts ++ [attempted c outcome reaction]) w1 = (Some (Ok r), w') ->
    remember (attempted c outcome reaction) (bl, sc) = (mark (cd_seller_id c) bl, record_bail (cd_seller_id c) sc) ->
    (forall log by_, routed frame cs log by_ -> routed frame (c :: cs) (attempted c outcome reaction :: log) by_) ->
    attempt_calls note frame c (attempted c outcome reaction) calls -> snd w1 = rev calls ++ snd w ->
    route_post (c :: cs) (bl, sc) attempts (snd w) r (snd w')).
  { intros outcome reaction calls w1 Hr Hm Hl Hc Ht. apply IH in Hr. rewrite <- Hm, Ht in Hr.
    by eapply route_post_cons. }
  cbn [route_candidates] in Hrun. unfold bind at 1 in Hrun.
  destruct (attempt _ w) as [[[placed|e|]|] w1] eqn:Ep; [|done..]. apply placed_traced in Ep.
  destruct (is_ok placed) eqn:Eok; cbn [negb] in Hrun.
  2: { eapply (Hfail _ _ [_]); [exact Hrun|done|intros; by constructor|by constructor|done]. }
  destruct placed as [[]| |]; [|done..]. unfold bind at 1 in Hrun.
  destruct (draw_traced (spotcheck_rate_for (cp_spot_check_rate frame) (score_of sc (cd_seller_id c))) w1)
    as (spot & w2 & Hd & Ht2). rewrite Hd in Hrun. unfold bind at 1, get in Hrun. simpl in Hrun. unfold entered in Hrun.
  destruct (run_deal c spot (fst w2)) as [[[|reason|]|] w3]; [| | |done].
  - injection Hrun as <- <-. eapply route_post_last; [apply routed_delivered|apply calls_delivered|done|].
    simpl. by rewrite Ht2, Ep.
  - unfold bind at 1 in Hrun. destruct (react _ _ _ _) as [[[a|e|]|] w4] eqn:Er; [|done..].
    apply react_traced in Er as [answer Er]. simpl in Er. rewrite Ht2, Ep in Er.
    pose proof (calls_scam note frame c spot reason _ (ex_intro _ answer eq_refl)) as Hc.
    destruct (cp_scammer_reaction frame) eqn:Ec.
    + eapply Hfail; [exact Hrun|done|intros; by constructor|exact Hc|done].
    + injection Hrun as <- <-. by eapply route_post_last; [apply routed_dispute|exact Hc|..].
  - unfold bind at 1 in Hrun. destruct (attempt _ _) as [[[a|e|]|] w4] eqn:Er; [|done..].
    apply (react_traced ReactStop) in Er as [answer Er]. simpl in Er. rewrite Ht2, Ep in Er.
    eapply Hfail; [exact Hrun|done|intros; by constructor|apply calls_no_show|exact Er].
Qed.
End Any.

(** ** What every such log says *)
Definition ends_well (frame : CappedBuy) (candidates : list Candidate) (attempts : list Attempt)
    (by_ : option string) : Prop :=
  match by_ with
  | Some seller => exists earlier final, attempts = earlier ++ [final] /\ at_seller_id final = seller /\
      delivered final = true /\ Forall (fun a => delivered a = false) earlier
  | None => Forall (fun a => delivered a = false) attempts /\
      (length attempts = length candidates \/
       cp_scammer_reaction frame = ReactDispute /\ exists final, last attempts = Some final /\ is_scam final = true)
  end.
Lemma ends_well_cons frame c cs a log by_ : delivered a = false ->
  ends_well frame cs log by_ -> ends_well frame (c :: cs) (a :: log) by_.
Proof.
  intros Ha. destruct by_ as [s|]; simpl.
  - intros (earlier & final & -> & Hs & Hd & Hf). exists (a :: earlier), final. split_and!; auto.
  - intros [Hf Hend]. split; [by constructor|]. destruct Hend as [->|(Hr & final & Hl & Hs)]; [by left|right].
    split; [done|]. exists final. split; [|done]. destruct log; [done|]. by rewrite last_cons_cons.
Qed.
Lemma routed_log frame cs log by_ : routed frame cs log by_ ->
  map attempt_key log = map candidate_key (take (length log) cs) /\
  Forall (fun a => at_reaction a = if is_scam a then Some (cp_scammer_reaction frame) else None) log /\
  ends_well frame cs log by_.
Proof.
  induction 1 as [|c cs|c cs reason Hr|c cs reason log by_ Hr _ (IH1 & IH2 & IH3)|c cs log by_ _ (IH1 & IH2 & IH3)];
    simpl; rewrite ?take_0.
  - split; [done|]. split; [constructor|]. split; [constructor|by left].
  - split; [done|]. split; [by repeat constructor|]. by exists [], (attempted c Delivered None).
  - split; [done|]. split; [constructor; [by rewrite Hr|constructor]|].
    split; [by repeat constructor|]. right. split; [done|]. by eexists.
  - split_and!; [by rewrite IH1|constructor; [by rewrite Hr|done]|by apply ends_well_cons].
  - split_and!; [by rewrite IH1|by constructor|by apply ends_well_cons].
Qed.

Lemma candidate_le_total sc a b : candidate_le sc a b = false -> candidate_le sc b a = true.
Proof.
  unfold candidate_le. destruct (Z.lt_trichotomy (cd_price_per_tick a) (cd_price_per_tick b)) as [H|[H|H]].
  - by rewrite (proj2 (Z.ltb_lt _ _) H).
  - rewrite H, Z.ltb_irrefl, Z.eqb_refl. simpl.
    destruct (Z.lt_trichotomy (score_of sc (cd_seller_id a)) (score_of sc (cd_seller_id b))) as [H'|[H'|H']].
    + by rewrite (proj2 (Z.ltb_lt _ _) H').
    + rewrite H', Z.ltb_irrefl, Z.eqb_refl. simpl.
      destruct (String.leb_total (cd_seller_id a) (cd_seller_id b)) as [->| ->]; done.
    + by rewrite (proj2 (Z.ltb_lt _ _) H').
  - by rewrite (proj2 (Z.ltb_lt _ _) H).
Qed.
Lemma elem_of_eligible_ranked frame offers bl sc c : c ∈ eligible_ranked frame offers bl sc <->
  c ∈ offers /\ cd_price_per_tick c <= cp_price_cap frame /\ cp_ticks frame <= cd_max_ticks c /\ cd_seller_id c ∉ bl.
Proof.
  unfold eligible_ranked, eligible. rewrite sort_by_perm, list_elem_of_In, filter_In, <- list_elem_of_In.
  rewrite !andb_true_iff, !Z.leb_le, negb_true_iff, bool_decide_eq_false. tauto.
Qed.

(** C34: A route orders what the frame allows and nothing else, whatever the market, the
    runner and the draws do.  The sellers tried are, in order, the first of the ranking;
    the ranking holds exactly the listed offers within the price cap and with enough
    ticks of sellers not blacklisted, cheapest and best scored first.  The calls of the
    route are those of its attempts, in that order: each orders its candidate's contract
    once for the buyer's note, and when the order was taken runs the deal once and then
    stops or disputes it as its outcome calls for; no other call changes the market.
    (An order takes the whole offer, whatever volume the frame wants.)  Exactly the last
    seller tried may have delivered; every other one is blacklisted and scored down; a
    scam, and nothing else, draws the reaction the frame names; and a route without a
    seller has tried the whole ranking or ended in a dispute. *)
Theorem routes_stay_in_the_frame {W} `{ChainBackend W} `{DealRunner W} `{Sampler W} note frame bl sc
    (w w1 w' : traced W RouteCall) offers out bl' sc' :
  snd w = [] -> cb_discover_offers w = (Ok offers, w1) ->
  route_capped_buy note frame bl sc w = (Some (Ok (out, bl', sc')), w') ->
  let candidates := eligible_ranked frame (listings_to_candidates offers) bl sc in
  (forall c, c ∈ candidates <-> c ∈ listings_to_candidates offers /\ cd_price_per_tick c <= cp_price_cap frame /\
     cp_ticks frame <= cd_max_ticks c /\ cd_seller_id c ∉ bl) /\
  Sorted (fun a b => candidate_le sc a b = true) candidates /\
  map attempt_key (ro_attempts out) = map candidate_key (take (length (ro_attempts out)) candidates) /\
  (exists calls, rev (snd w') = concat calls /\
     Forall3 (attempt_calls note frame) (take (length (ro_attempts out)) candidates) (ro_attempts out) calls) /\
  (bl', sc') = remembered (ro_attempts out) (bl, sc) /\
  Forall (fun a => at_reaction a = if is_scam a then Some (cp_scammer_reaction frame) else None) (ro_attempts out) /\
  ends_well frame candidates (ro_attempts out) (ro_served_by out).
Proof.
  intros Hw Hd Hr candidates. unfold route_capped_buy, bind, Backend.attempt in Hr. rewrite Hd in Hr. fold candidates in Hr.
  assert (snd w1 = []) as Hw1.
  { simpl in Hd. unfold silent in Hd. destruct (cb_discover_offers (fst w)). by injection Hd as _ <-. }
  apply route_candidates_post in Hr as (log & by_ & calls & Hlog & [= -> -> ->] & Ht & Hf). simpl.
  destruct (routed_log _ _ _ _ Hlog) as (H1' & H2' & H3'). split_and!; try done.
  - intros c. apply elem_of_eligible_ranked.
  - apply sort_by_sorted. apply candidate_le_total.
  - exists calls. split; [|done]. by rewrite Ht, Hw1, app_nil_r, rev_involutive.
  - by destruct (remembered log (bl, sc)).
Qed.

(** ** What a delivery was checked for *)
Lemma accept_chunks_spec r items : forall v received n,
  accept_chunks r items v received = inr n ->
  exists taken rest, items = map Ok taken ++ rest /\ verify_stream v taken = Pass /\
    n = received + Z.of_nat (length taken) /\ (received < gr_max_tokens r -> n <= gr_max_tokens r).
Proof.
  induction items as [|item items IH]; intros v received n H; simpl in H.
  { injection H as <-. exists [], []. simpl. split_and!; [done|done|lia..]. }
  destruct item as [c|e|]; [|injection H as <-; eexists [], _; simpl; split_and!; [done|done|lia..]..].
  destruct (verify v c) as [[|reason] v'] eqn:Ev; [|done].
  destruct (Z.leb_spec (gr_max_tokens r) (received + 1)) as [Hge|Hlt].
  - injection H as <-. exists [c], items. simpl. rewrite Ev. split_and!; [done|done|lia..].
  - apply IH in H as (taken & rest & -> & Hv & -> & Hn). exists (c :: taken), rest. simpl. rewrite Ev.
    split_and!; [done|done|lia..].
Qed.

(** What the router counts as delivered was checked.  A run that delivers opened
    the handover sealed for this contract; the chunks it took are a non-empty prefix
    of the stream, at most the budget, and each passed the verifier for the frame's
    model; on a sampled request neither audit refused the seller; and the content
    policy of the model did not refuse the deal. *)
Theorem deliveries_are_verified {W} `{BuyerNet W} env_var decrypt parse_json (r : GatewayDealRunner)
    (c : Candidate) (spot_check : bool) (w w' : W) :
  gateway_run env_var decrypt parse_json r c spot_check w = (Some Delivered, w') ->
  exists handover w1 items w2 taken rest,
    resolve_endpoint decrypt parse_json (cd_token_contract c) w = (Ok handover, w1) /\
    bn_open_stream handover (cd_token_contract c) (Some (gr_request r)) w1 = (Ok items, w2) /\
    items = map Ok taken ++ rest /\ taken <> [] /\
    (0 < gr_max_tokens r -> Z.of_nat (length taken) <= gr_max_tokens r) /\
    verify_stream (with_expected_model_and_models (gr_expected_model r) (gr_models r)) taken = Pass /\
    (if spot_check then spot_check_deal env_var r handover (cd_token_contract c) w2 = (Some None, w')
     else w' = w2) /\
    gateway_content_refusal env_var r = None.
Proof.
  unfold gateway_run. destruct (resolve_endpoint _ _ _ w) as [[handover|e|] w1] eqn:Eh; try done.
  destruct (bn_open_stream _ _ _ w1) as [[items|e|] w2] eqn:Eo; try done.
  destruct (accept_chunks _ _ _ _) as [reason|received] eqn:Ea; [done|].
  apply accept_chunks_spec in Ea as (taken & rest & -> & Hv & -> & Hn).
  destruct (Z.eqb_spec (0 + Z.of_nat (length taken)) 0) as [|Hne]; [done|]. intros Hd.
  exists handover, w1, (map Ok taken ++ rest), w2, taken, rest.
  assert (Hc : forall caught, conclude env_var r caught = Delivered -> caught = None /\ gateway_content_refusal env_var r = None).
  { unfold conclude. intros [reason|]; [done|]. by destruct (gateway_content_refusal env_var r). }
  split_and!; try done; try (intros ->; by simpl in Hne); try lia.
  - destruct spot_check; [|by injection Hd].
    destruct (spot_check_deal _ _ _ _ w2) as [[caught|] w3]; simpl in Hd; [|done]. injection Hd as Hd <-.
    by destruct (Hc _ Hd) as [-> _].
  - destruct spot_check.
    + destruct (spot_check_deal _ _ _ _ w2) as [[caught|] w3]; simpl in Hd; [|done]. injection Hd as Hd <-.
      by destruct (Hc _ Hd).
    + injection Hd as Hd <-. by destruct (Hc None Hd).
Qed.

(** ** Routes on the offline market *)Open Scope Z_scope.

(** Two sellers list eight ticks each at two SHELL a tick; the buyer wants four. *)
Definition carol : NotePubkey := sample_note 3.
Definition other_offer : SellOffer := mkSellOffer (2 * PRICE_STEP) 8 "tc-2" 0.
Definition two_listed : ChainFiles := snd (post_offer canonical other_offer carol 1005 1005 w_listed).
Definition sample_frame : CappedBuy := capped_buy_new "qwen--qwen3--32b" (2 * PRICE_STEP) 4 ReactStop.
Definition scripted (outcome : TokenContract -> DealOutcome) : DealRunner MockWorld :=
  {| run_deal c _ w := (Some (outcome (cd_token_contract c)), w) |}.
Definition even_draw : Sampler MockWorld := {| random_f64 w := ((1 # 2)%Q, w) |}.
Definition sample_route (outcome : TokenContract -> DealOutcome) :=
  route_capped_buy (H := MockChainBackend canonical) (H0 := scripted outcome) (H1 := even_draw)
    bob sample_frame ∅ ∅ (mkMockWorld two_listed 1010).

Definition sample_listings : list OfferListing :=
  [mkOfferListing (note_id_hex alice) "tc-1" (2 * PRICE_STEP) 8; mkOfferListing (note_id_hex carol) "tc-2" (2 * PRICE_STEP) 8].

(** The parts of a finished route. *)
Definition route_result : Type := option (outcome ChainError (RouteOutcome * Blacklist * SellerScores)).
Definition log_of (r : route_result) : RouteOutcome :=
  match r with Some (Ok (out, _, _)) => out | _ => mkRoute None [] end.
Definition blacklist_of (r : route_result) : Blacklist := match r with Some (Ok (_, bl, _)) => bl | _ => ∅ end.
Definition scores_of (r : route_result) : SellerScores := match r with Some (Ok (_, _, sc)) => sc | _ => ∅ end.
Definition finished (r : route_result) : bool := match r with Some (Ok _) => true | _ => false end.
Lemma finished_route r : finished r = true -> r = Some (Ok (log_of r, blacklist_of r, scores_of r)).
Proof. by destruct r as [[[[out bl] sc]|e|]|]. Qed.

Definition failover (tc : TokenContract) : DealOutcome := if bool_decide (tc = "tc-2"%string) then Delivered else NoShow.
Lemma sample_discovered :
  cb_discover_offers (ChainBackend := MockChainBackend canonical) (mkMockWorld two_listed 1010) =
  (Ok sample_listings, snd (cb_discover_offers (ChainBackend := MockChainBackend canonical) (mkMockWorld two_listed 1010))).
Proof.
  rewrite (surjective_pairing (cb_discover_offers _)) at 1. f_equal.
Qed.
(** The same route, with its calls recorded. *)
Definition recorded_route (outcome : TokenContract -> DealOutcome) :=
  route_capped_buy (W := traced MockWorld RouteCall) (H := traced_route (H := MockChainBackend canonical))
    (H0 := traced_runner (H := scripted outcome)) (H1 := traced_sampler (H := even_draw))
    bob sample_frame ∅ ∅ (mkMockWorld two_listed 1010, []).
Lemma recorded_finished : finished (fst (recorded_route failover)) = true.
Proof. by vm_compute. Qed.
Lemma recorded_result :
  recorded_route failover =
  (Some (Ok (log_of (fst (recorded_route failover)), blacklist_of (fst (recorded_route failover)),
             scores_of (fst (recorded_route failover)))), snd (recorded_route failover)).
Proof. rewrite <- (finished_route _ recorded_finished). apply surjective_pairing. Qed.
Lemma recorded_discovered :
  cb_discover_offers (ChainBackend := traced_route (H := MockChainBackend canonical)) (mkMockWorld two_listed 1010, []) =
  (Ok sample_listings, (snd (cb_discover_offers (ChainBackend := MockChainBackend canonical) (mkMockWorld two_listed 1010)), [])).
Proof. cbv [cb_discover_offers traced_route silent fst snd]. fold (cb_discover_offers (ChainBackend := MockChainBackend canonical)). by rewrite sample_discovered. Qed.
Lemma routes_stay_in_the_frame_witness :
  (exists calls, rev (snd (snd (recorded_route failover))) = concat calls /\
     Forall3 (attempt_calls bob sample_frame) (listings_to_candidates sample_listings)
       (ro_attempts (log_of (fst (recorded_route failover)))) calls) /\
  log_of (fst (recorded_route failover)) =
    mkRoute (Some (note_id_hex carol))
      [mkAttempt (note_id_hex alice) "tc-1" NoShow None; mkAttempt (note_id_hex carol) "tc-2" Delivered None].
Proof.
  pose proof (routes_stay_in_the_frame (H := MockChainBackend canonical) (H0 := scripted failover) (H1 := even_draw)
    bob sample_frame ∅ ∅ (mkMockWorld two_listed 1010, []) _ _ _ _ _ _ eq_refl recorded_discovered recorded_result) as (_ & _ & _ & (calls & H1 & H2) & _).
  split; [|by vm_compute]. exists calls. split; [exact H1|].
  assert (take (length (ro_attempts (log_of (fst (recorded_route failover)))))
    (eligible_ranked sample_frame (listings_to_candidates sample_listings) ∅ ∅) = listings_to_candidates sample_listings) as Ht
    by by vm_compute.
  rewrite Ht in H2. exact H2.
Defined.
Example two_sellers_are_tried :
  map (fun c => match c with
                | RPlace tc _ a => ("order", tc, is_ok a) | RRun c _ _ => ("run", cd_token_contract c, true)
                | RStop tc _ a => ("stop", tc, is_ok a) | RDispute tc _ a => ("dispute", tc, is_ok a) | ROther => ("other", "", true)
                end)%string (rev (snd (snd (recorded_route failover)))) =
  [("order", "tc-1", true); ("run", "tc-1", true); ("stop", "tc-1", false); ("order", "tc-2", true); ("run", "tc-2", true)]%string.
Proof. vm_compute. reflexivity. Qed.

(** Failing over multiplies the buyer's exposure.  Two sellers who take the order
    and never open a stream leave the route without a delivery and the buyer's escrow
    in both contracts, each for the whole offer of eight ticks although the frame buys
    four: the stop that should return it is refused by a deal that was never opened. *)
Theorem no_shows_pile_up_deposits :
  let '(r, w) := (fst (sample_route (fun _ => NoShow)), snd (sample_route (fun _ => NoShow))) in
  finished r = true /\
  log_of r = mkRoute None [mkAttempt (note_id_hex alice) "tc-1" NoShow None;
                           mkAttempt (note_id_hex carol) "tc-2" NoShow None] /\
  Forall (fun tc =>
    (exists s, fst (cb_deal_state (ChainBackend := MockChainBackend canonical) tc w) = Ok (Some s) /\
       ds_funded s = true /\ ds_opened s = false /\
       Some (ds_deposit s) = checked_required_escrow_for_buy 8 (2 * PRICE_STEP)) /\
    is_ok (fst (cb_stop (ChainBackend := MockChainBackend canonical) tc bob w)) = false) ["tc-1"; "tc-2"]%string.
Proof.
  split_and!; [by vm_compute..|].
  constructor; [|constructor; [|constructor]];
    (split; [eexists; split; [vm_compute; reflexivity|by vm_compute]|by vm_compute]).
Qed.

(** A gateway that streams three chunks of the frame's model under a seal that the
    buyer's key opens. *)
#[local] Instance sample_gateway : BuyerNet unit := {|
  bn_read_handover _ w := (Ok (Some "sealed"), w);
  bn_open_stream _ _ _ w := (Ok (Ok (mkChunk "a" [1] 0 (Some (mkSignals "qwen" true "qwen/qwen3-32b")) "") ::
                                 map (fun t => Ok (mkChunk t [2; 3] 1 None "")) ["b"; "c"]), w);
  bn_reference_completion _ _ _ _ w := (Ok "a b c", w) |}%string.
Definition sample_runner : GatewayDealRunner :=
  mkRunner (mkRequest [] None) "qwen/qwen3-32b" 100 sample_models false false.
Definition sample_env (_ : string) : option string := None.
Definition sample_payload (_ : string) : outcome string Value :=
  Ok (to_deal_value (mkHandover "https://gw" "aa") (to_text "tc-1")).
Lemma deliveries_are_verified_witness :
  gateway_content_refusal sample_env sample_runner = None /\
  gateway_run sample_env (fun s => Ok s) sample_payload sample_runner
    (mkCandidate "alice" "tc-1" 5 8) false tt = (Some Delivered, tt).
Proof.
  destruct (deliveries_are_verified sample_env (fun s => Ok s) sample_payload sample_runner
    (mkCandidate "alice" "tc-1" 5 8) false tt tt) as (_ & _ & _ & _ & _ & _ & _ & _ & _ & _ & _ & _ & _ & H);
    [by vm_compute|].
  split; [exact H|by vm_compute].
Defined.
