(* ===== verification/Continuity.v ===== *)
(** * Continuity: when the buyer orders, cleans up and switches deals
    (crates/dexdo/src/buyer/continuity.rs, the facts and the recovery of the
    monitor in crates/dexdo/src/cli/buyer.rs)

    The planner keeps the contracts it gave up on and the contracts it already
    ordered a successor for; a tick reads the facts of one deal and returns one
    action. *)
From stdpp Require Import gmap strings.
From S2P Require Import Prelude Text Params MarketTypes Machine Backend.
Open Scope Z_scope.

Definition BUYER_RENEWAL_THRESHOLD_TOKENS : Z := 64.

Inductive BuyerRunMode : Type := OneShot | Service.
Inductive BuyerLifecycle : Type := ExitAfterCurrentDeal | KeepServingAndRenew.
Definition lifecycle_for_mode (mode : BuyerRunMode) : BuyerLifecycle :=
  match mode with OneShot => ExitAfterCurrentDeal | Service => KeepServingAndRenew end.

Inductive DealOwner : Type := ThisBuyer | WrongBuyer.
#[export] Instance DealOwner_eq_dec : EqDecision DealOwner.
Proof. solve_decision. Defined.

Inductive DealPhase : Type :=
| FundedNeverOpened (funded_age_secs : Z)
| Opened (idle_secs : Z)
| HandoverReady
| PhaseClosed.

Record DealFacts : Type := mkFacts {
  df_token_contract : TokenContract;
  df_owner : DealOwner;
  df_phase : DealPhase;
  df_remaining_tokens : option Z
}.
Definition handover_ready (tc : TokenContract) (remaining_tokens : Z) : DealFacts :=
  mkFacts tc ThisBuyer HandoverReady (Some remaining_tokens).
Definition funded_never_opened (tc : TokenContract) (age : Z) : DealFacts :=
  mkFacts tc ThisBuyer (FundedNeverOpened age) None.
Definition opened_idle (tc : TokenContract) (idle_secs : Z) : DealFacts :=
  mkFacts tc ThisBuyer (Opened idle_secs) None.
Definition closed_facts (tc : TokenContract) : DealFacts := mkFacts tc ThisBuyer PhaseClosed None.
Definition wrong_owner (d : DealFacts) : DealFacts :=
  mkFacts (df_token_contract d) WrongBuyer (df_phase d) (df_remaining_tokens d).

Inductive BuyerAction : Type :=
| ServeCurrent (token_contract : TokenContract)
| PrepareNextDeal (current : TokenContract)
| SwitchToNextDeal (previous next : TokenContract)
| CleanupUnopened (token_contract : TokenContract)
| PlaceNextDeal (reason : string)
| IgnoreStale (token_contract : TokenContract)
| FailClosed (token_contract : TokenContract) (reason : string)
| Noop (reason : string).

Inductive ConsumerDemand : Type := DemandIdle | ActiveOrRecent.
Definition is_active_or_recent (d : ConsumerDemand) : bool :=
  match d with ActiveOrRecent => true | DemandIdle => false end.

Inductive ContinuityMode : Type := Proactive | OnDemand.
Definition planner_demand (mode : ContinuityMode) (observed : ConsumerDemand) : ConsumerDemand :=
  match mode with Proactive => ActiveOrRecent | OnDemand => observed end.

Record ContinuityConfig : Type := mkContinuityConfig {
  renewal_threshold_tokens : Z;
  match_open_timeout_secs : Z
}.
Definition ContinuityConfig_default : ContinuityConfig :=
  mkContinuityConfig BUYER_RENEWAL_THRESHOLD_TOKENS MATCH_OPEN_TIMEOUT_SECS.

(** ** The planner *)
Record BuyerContinuity : Type := mkContinuity {
  stale : gset TokenContract;
  pending_after : gmap TokenContract TokenContract
}.
Definition BuyerContinuity_default : BuyerContinuity := mkContinuity ∅ ∅.
Definition note_pending_next (current next : TokenContract) (p : BuyerContinuity) : BuyerContinuity :=
  mkContinuity (stale p) (<[current := next]> (pending_after p)).
Definition clear_pending_next (current : TokenContract) (p : BuyerContinuity) : BuyerContinuity :=
  mkContinuity (stale p) (delete current (pending_after p)).
Definition keep_active (current : TokenContract) (p : BuyerContinuity) : BuyerContinuity :=
  mkContinuity (stale p ∖ {[current]}) (pending_after p).
Definition mark_stale (current : TokenContract) (p : BuyerContinuity) : BuyerContinuity :=
  mkContinuity ({[current]} ∪ stale p) (pending_after p).

(** [contains_key] on the ordered deals; an order is noted under the empty name. *)
Definition is_pending (tc : TokenContract) (p : BuyerContinuity) : bool :=
  bool_decide (is_Some (pending_after p !! tc)).
Definition order_once (tc : TokenContract) (demand : ConsumerDemand) (idle : string)
    (order : BuyerAction) (p : BuyerContinuity) : BuyerAction * BuyerContinuity :=
  if negb (is_active_or_recent demand) then (Noop idle, p)
  else if is_pending tc p then (Noop "next-deal-already-pending", p)
  else (order, note_pending_next tc "" p).

Definition ready_to_serve (phase : DealPhase) : bool :=
  match phase with HandoverReady | Opened _ => true | _ => false end.
Definition tick_current (current : DealFacts) (cfg : ContinuityConfig) (demand : ConsumerDemand)
    (p : BuyerContinuity) : BuyerAction * BuyerContinuity :=
  let tc := df_token_contract current in
  match df_phase current with
  | PhaseClosed =>
      order_once tc demand "closed-current-no-consumer-demand" (PlaceNextDeal "closed-current") p
  | phase =>
      if bool_decide (tc ∈ stale p) then (IgnoreStale tc, p)
      else match phase with
           | FundedNeverOpened age =>
               if match_open_timeout_secs cfg <=? age then (CleanupUnopened tc, mark_stale tc p)
               else (Noop "waiting-for-handover", p)
           | _ =>
               if match df_remaining_tokens current with
                  | Some r => r <=? renewal_threshold_tokens cfg
                  | None => false
                  end
               then order_once tc demand "low-remaining-no-consumer-demand" (PrepareNextDeal tc) p
               else (ServeCurrent tc, p)
           end
  end.

Definition tick_with_demand (current ready_next : option DealFacts) (cfg : ContinuityConfig)
    (demand : ConsumerDemand) (p : BuyerContinuity) : BuyerAction * BuyerContinuity :=
  match current with
  | None => (if is_active_or_recent demand then PlaceNextDeal "no-current-deal"
             else Noop "no-current-no-consumer-demand", p)
  | Some current =>
      let tc := df_token_contract current in
      if bool_decide (df_owner current ≠ ThisBuyer) then (FailClosed tc "wrong-owner", p)
      else match ready_next with
           | Some next =>
               if bool_decide (df_owner next ≠ ThisBuyer)
               then (FailClosed (df_token_contract next) "next-wrong-owner", p)
               else if ready_to_serve (df_phase next)
               then (SwitchToNextDeal tc (df_token_contract next), clear_pending_next tc p)
               else tick_current current cfg demand p
           | None => tick_current current cfg demand p
           end
  end.
Definition tick (current ready_next : option DealFacts) (cfg : ContinuityConfig) (p : BuyerContinuity)
    : BuyerAction * BuyerContinuity :=
  tick_with_demand current ready_next cfg ActiveOrRecent p.
Definition tick_with_mode (current ready_next : option DealFacts) (cfg : ContinuityConfig)
    (mode : ContinuityMode) (observed : ConsumerDemand) (p : BuyerContinuity) : BuyerAction * BuyerContinuity :=
  tick_with_demand current ready_next cfg (planner_demand mode observed) p.
Definition restart_from_handle (facts : DealFacts) (cfg : ContinuityConfig) (p : BuyerContinuity)
    : BuyerAction * BuyerContinuity := tick (Some facts) None cfg p.

(** ** The seller's side of a finished deal *)
Inductive SellerDealOutcome : Type := NoBuyerYet | Completed | CleanedUnopened | ReclaimedOpened.
Inductive SellerAction : Type := KeepResting | PublishFreshOffer (retired : TokenContract).
Definition seller_market_action (current_offer : TokenContract) (out : SellerDealOutcome) : SellerAction :=
  match out with
  | NoBuyerYet => KeepResting
  | Completed | CleanedUnopened | ReclaimedOpened => PublishFreshOffer current_offer
  end.

(** ** The monitor: facts of the current deal, recovery *)
Definition elapsed_since (now_secs : Z) (since : option Z) : Z :=
  match since with
  | Some v => if 0 <? v then saturating_sub now_secs v else 0
  | None => 0
  end.
Definition buyer_renewal_threshold_tokens (env : option Z) : Z :=
  default (renewal_threshold_tokens ContinuityConfig_default) env.

Definition buyer_monitor_current_facts (tc : TokenContract) (remaining_tokens : Z) (session_settled : bool)
    (chain_state : option DealChainState) (now_secs last_accepted_output_secs : Z) : DealFacts :=
  if session_settled then closed_facts tc
  else match chain_state with
       | None => handover_ready tc remaining_tokens
       | Some state =>
           if ds_disputed state then closed_facts tc
           else if ds_opened state then
             let latest_activity := Z.max (ds_last_claim_time state) last_accepted_output_secs in
             opened_idle tc (if latest_activity =? 0 then 0 else saturating_sub now_secs latest_activity)
           else if ds_funded state && negb (is_stopped state)
           then funded_never_opened tc (elapsed_since now_secs (ds_funded_time state))
           else closed_facts tc
       end.

Inductive RecoveryKind : Type := RecoverCleanupUnopened | RecoverReclaimOpened.
Definition buyer_monitor_recovery_is_terminal (kind : RecoveryKind) (state : option DealChainState) : bool :=
  match kind, state with
  | _, None => true
  | RecoverCleanupUnopened, Some state => negb (ds_funded state)
  | RecoverReclaimOpened, Some state => negb (ds_opened state) && negb (ds_disputed state)
  end.
Definition on_demand_monitor_defers_buy (enabled : bool) (action : BuyerAction) : bool :=
  enabled && match action with PlaceNextDeal _ | PrepareNextDeal _ => true | _ => false end.
(** The recovery goes through the session of the deal when there is one, and
    straight to the chain otherwise. *)
Definition execute_buyer_monitor_recovery {W}
    (chain_cleanup : TokenContract -> W -> outcome ChainError Settlement * W)
    (session_cleanup : option (W -> outcome ChainError (option Settlement) * W)) (action : BuyerAction) (w : W)
    : option (RecoveryKind * TokenContract * outcome ChainError (option Settlement)) * W :=
  match action with
  | CleanupUnopened tc =>
      let '(result, w') := match session_cleanup with
        | Some recover => recover w
        | None => let '(r, w') := chain_cleanup tc w in (let* s := r in Ok (Some s), w')
        end in
      (Some (RecoverCleanupUnopened, tc, result), w')
  | _ => (None, w)
  end.

(** ** Which deal a matched fill belongs to *)
Definition correlated_buy_token_contract (fill : MatchedFill) (expected : option QuoteFill)
    (ticks max_price_per_tick : Z) : outcome ChainError TokenContract :=
  let terms_valid := (mf_ticks fill =? ticks) && (mf_price_per_tick fill <=? max_price_per_tick) in
  let exact_match := match expected with
    | None => true
    | Some e => eq_ignore_ascii_case (to_text (mf_token_contract fill)) (to_text (qf_token_contract e))
                && (mf_ticks fill =? qf_ticks e) && (mf_price_per_tick fill =? qf_price_per_tick e)
    end in
  if terms_valid && exact_match then Ok (mf_token_contract fill)
  else Err (Chain "buyer fill correlation failed closed").

(** ** A run of the planner

    The calls the monitor makes on one planner, with the action of each tick. *)
Inductive PlannerCall : Type :=
| CallTick (current ready_next : option DealFacts) (cfg : ContinuityConfig) (demand : ConsumerDemand)
| CallNotePending (current next : TokenContract)
| CallClearPending (current : TokenContract)
| CallKeepActive (current : TokenContract).
Definition call_step (c : PlannerCall) (p : BuyerContinuity) : option BuyerAction * BuyerContinuity :=
  match c with
  | CallTick current ready_next cfg demand =>
      let '(a, p') := tick_with_demand current ready_next cfg demand p in (Some a, p')
  | CallNotePending current next => (None, note_pending_next current next p)
  | CallClearPending current => (None, clear_pending_next current p)
  | CallKeepActive current => (None, keep_active current p)
  end.
Fixpoint planner_run (calls : list PlannerCall) (p : BuyerContinuity)
    : list (PlannerCall * option BuyerAction) :=
  match calls with
  | [] => []
  | c :: calls => let '(a, p') := call_step c p in (c, a) :: planner_run calls p'
  end.

(** The tick ordered a successor for [tc], the current deal of the tick. *)
Definition orders (tc : TokenContract) (e : PlannerCall * option BuyerAction) : Prop :=
  match e with
  | (CallTick (Some d) _ _ _, Some (PlaceNextDeal _ | PrepareNextDeal _)) => df_token_contract d = tc
  | _ => False
  end.
Definition releases (tc : TokenContract) (e : PlannerCall * option BuyerAction) : Prop :=
  match e with
  | (CallClearPending cur, _) => cur = tc
  | (_, Some (SwitchToNextDeal previous _)) => previous = tc
  | _ => False
  end.
Definition cleans (tc : TokenContract) (e : PlannerCall * option BuyerAction) : Prop :=
  snd e = Some (CleanupUnopened tc).
Definition revives (tc : TokenContract) (e : PlannerCall * option BuyerAction) : Prop :=
  fst e = CallKeepActive tc.
