(* ===== verification/ContinuitySafety.v ===== *)
(** * ContinuitySafety: what the planner may do with the buyer's money *)
From stdpp Require Import gmap strings.
From S2P Require Import Prelude Text Params Settle MarketTypes Machine MockDeal MockMarket MockInvariant MockReach MockLife MockSafety MockDealInv Accounting Continuity.
Open Scope Z_scope.

(** ** Runs *)
Lemma run_split pre e post calls p :
  planner_run calls p = pre ++ e :: post ->
  exists calls' p', planner_run calls' p' = e :: post.
Proof.
  revert calls p. induction pre as [|e0 pre IH]; intros calls p H; [eauto|].
  destruct calls as [|c calls]; [done|]. simpl in H. destruct (call_step c p) as [a p'].
  injection H as _ H. eauto.
Qed.

Lemma run_cons c calls p e post :
  planner_run (c :: calls) p = e :: post ->
  e = (c, fst (call_step c p)) /\ planner_run calls (snd (call_step c p)) = post.
Proof. simpl. destruct (call_step c p) as [a p']. intros H. by injection H as <- <-. Qed.

(** Between two events that a latch separates: [latched] holds after the first,
    forbids the second, and only a release clears it. *)
Lemma latch_separates (latched : BuyerContinuity -> Prop) (fires clears : PlannerCall * option BuyerAction -> Prop) :
  (forall c p, fires (c, fst (call_step c p)) -> ~ latched p /\ latched (snd (call_step c p))) ->
  (forall c p, latched p -> latched (snd (call_step c p)) \/ clears (c, fst (call_step c p))) ->
  forall calls p pre e1 mid e2 post,
  planner_run calls p = pre ++ e1 :: mid ++ e2 :: post -> fires e1 -> fires e2 -> Exists clears mid.
Proof.
  intros Hf Hc calls p pre e1 mid e2 post H F1 F2.
  destruct (run_split pre e1 _ _ _ H) as (calls' & q & H'). clear calls p H pre.
  destruct calls' as [|c calls]; [done|]. apply run_cons in H' as [-> H'].
  destruct (Hf _ _ F1) as [_ Hl]. revert Hl H'. generalize (snd (call_step c q)). clear c q F1.
  revert calls. induction mid as [|e mid IH]; intros calls p Hl H'.
  - destruct calls as [|c calls]; [done|]. apply run_cons in H' as [-> _]. by destruct (Hf _ _ F2).
  - destruct calls as [|c calls]; [done|]. apply run_cons in H' as [-> H'].
    destruct (Hc c p Hl) as [Hl'|?]; [right; by eapply IH|by left].
Qed.

(** ** One tick *)
Lemma order_once_step tc d idle order p :
  let '(a, p') := order_once tc d idle order p in
  (exists r, a = Noop r /\ p' = p) \/
  (a = order /\ d = ActiveOrRecent /\ is_pending tc p = false /\ p' = note_pending_next tc "" p).
Proof. unfold order_once. destruct d; simpl; [eauto|]. destruct (is_pending tc p) eqn:E; eauto 6. Qed.

Lemma is_pending_note tc tc' next p :
  is_pending tc (note_pending_next tc' next p) = bool_decide (tc' = tc) || is_pending tc p.
Proof.
  unfold is_pending. simpl. destruct (decide (tc' = tc)) as [->|Hn].
  - rewrite lookup_insert_eq. by rewrite !bool_decide_true by eauto.
  - by rewrite lookup_insert_ne, (bool_decide_false (tc' = tc)) by done.
Qed.
Lemma is_pending_clear tc tc' p : tc' <> tc -> is_pending tc (clear_pending_next tc' p) = is_pending tc p.
Proof. intros Hn. unfold is_pending; simpl. by rewrite lookup_delete_ne. Qed.

(** What a tick may answer, and on which facts. *)
Inductive ticked (current ready : option DealFacts) (cfg : ContinuityConfig) (demand : ConsumerDemand)
    (p : BuyerContinuity) : BuyerAction -> BuyerContinuity -> Prop :=
| ticked_quiet a : (forall tc, a <> CleanupUnopened tc) -> (forall tc, a <> PrepareNextDeal tc) ->
    (forall r, a <> PlaceNextDeal r) -> (forall x y, a <> SwitchToNextDeal x y) ->
    ticked current ready cfg demand p a p
| ticked_first : current = None -> demand = ActiveOrRecent ->
    ticked current ready cfg demand p (PlaceNextDeal "no-current-deal") p
| ticked_switch d n : current = Some d -> ready = Some n -> df_owner d = ThisBuyer -> df_owner n = ThisBuyer ->
    ready_to_serve (df_phase n) = true ->
    ticked current ready cfg demand p (SwitchToNextDeal (df_token_contract d) (df_token_contract n))
      (clear_pending_next (df_token_contract d) p)
| ticked_order d a : current = Some d -> df_owner d = ThisBuyer -> demand = ActiveOrRecent ->
    is_pending (df_token_contract d) p = false ->
    (a = PlaceNextDeal "closed-current" /\ df_phase d = PhaseClosed \/
     a = PrepareNextDeal (df_token_contract d) /\
     exists r, df_remaining_tokens d = Some r /\ r <= renewal_threshold_tokens cfg) ->
    ticked current ready cfg demand p a (note_pending_next (df_token_contract d) "" p)
| ticked_cleanup d age : current = Some d -> df_owner d = ThisBuyer -> df_phase d = FundedNeverOpened age ->
    match_open_timeout_secs cfg <= age -> df_token_contract d ∉ stale p ->
    ticked current ready cfg demand p (CleanupUnopened (df_token_contract d)) (mark_stale (df_token_contract d) p).

Ltac quiet := by (apply ticked_quiet; intros; discriminate).

Lemma tick_current_ticked d ready cfg demand p : df_owner d = ThisBuyer ->
  ticked (Some d) ready cfg demand p (fst (tick_current d cfg demand p)) (snd (tick_current d cfg demand p)).
Proof.
  intros Ho. unfold tick_current.
  destruct (df_phase d) as [age|i| |] eqn:Ep.
  4:{ pose proof (order_once_step (df_token_contract d) demand "closed-current-no-consumer-demand"
        (PlaceNextDeal "closed-current") p) as H. destruct (order_once _ _ _ _ _) as [a p']. simpl in *.
      destruct H as [(r & -> & ->)|(-> & -> & Hp & ->)]; [quiet|]. eapply ticked_order; eauto. }
  all: case_bool_decide as Hs; [quiet|].
  - destruct (Z.leb_spec (match_open_timeout_secs cfg) age); [by eapply ticked_cleanup|quiet].
  - destruct (df_remaining_tokens d) as [r|] eqn:Er; [|quiet].
    destruct (Z.leb_spec r (renewal_threshold_tokens cfg)); [|quiet].
    pose proof (order_once_step (df_token_contract d) demand "low-remaining-no-consumer-demand"
        (PrepareNextDeal (df_token_contract d)) p) as H1. destruct (order_once _ _ _ _ _) as [a p']. simpl in *.
    destruct H1 as [(r' & -> & ->)|(-> & -> & Hp & ->)]; [quiet|]. eapply ticked_order; eauto.
  - destruct (df_remaining_tokens d) as [r|] eqn:Er; [|quiet].
    destruct (Z.leb_spec r (renewal_threshold_tokens cfg)); [|quiet].
    pose proof (order_once_step (df_token_contract d) demand "low-remaining-no-consumer-demand"
        (PrepareNextDeal (df_token_contract d)) p) as H1. destruct (order_once _ _ _ _ _) as [a p']. simpl in *.
    destruct H1 as [(r' & -> & ->)|(-> & -> & Hp & ->)]; [quiet|]. eapply ticked_order; eauto.
Qed.

Lemma tick_ticked current ready cfg demand p :
  ticked current ready cfg demand p (fst (tick_with_demand current ready cfg demand p))
    (snd (tick_with_demand current ready cfg demand p)).
Proof.
  unfold tick_with_demand. destruct current as [d|].
  2:{ destruct demand; simpl; [quiet|by apply ticked_first]. }
  case_bool_decide as Ho; [quiet|].
  destruct ready as [n|]; [|by apply tick_current_ticked].
  case_bool_decide as Hn; [quiet|].
  destruct (ready_to_serve (df_phase n)) eqn:Er; [by eapply ticked_switch|by apply tick_current_ticked].
Qed.

(** ** The two latches *)
Lemma order_latches tc c p : orders tc (c, fst (call_step c p)) ->
  ~ is_pending tc p /\ is_pending tc (snd (call_step c p)).
Proof.
  destruct c as [cur rd cfg dm| | |]; simpl; try (intros []).
  pose proof (tick_ticked cur rd cfg dm p) as H. destruct (tick_with_demand cur rd cfg dm p) as [a p']. simpl in *.
  destruct cur as [d|]; [|done]. intros Ho. destruct H; simplify_eq.
  - destruct a; naive_solver.
  - naive_solver.
  - assert (df_token_contract d0 = tc) as <- by (destruct a; naive_solver).
    rewrite H2, is_pending_note, bool_decide_true by done. auto.
  - done.
Qed.
Lemma order_latch_kept tc c p : is_pending tc p ->
  is_pending tc (snd (call_step c p)) \/ releases tc (c, fst (call_step c p)).
Proof.
  intros Hp. destruct c as [cur rd cfg dm|x y|x|x]; simpl.
  - pose proof (tick_ticked cur rd cfg dm p) as H. destruct (tick_with_demand cur rd cfg dm p) as [a p']. simpl in *.
    destruct H; try by left.
    + destruct (decide (df_token_contract d = tc)) as [E|E]; [by right|left]. by rewrite is_pending_clear.
    + left. rewrite is_pending_note. destruct (bool_decide _); [done|exact Hp].
  - left. rewrite is_pending_note. destruct (bool_decide _); [done|exact Hp].
  - destruct (decide (x = tc)) as [->|E]; [by right|left]. by rewrite is_pending_clear.
  - by left.
Qed.
Lemma cleanup_latches tc c p : cleans tc (c, fst (call_step c p)) ->
  ~ tc ∈ stale p /\ tc ∈ stale (snd (call_step c p)).
Proof.
  unfold cleans. destruct c as [cur rd cfg dm| | |]; simpl; try discriminate.
  pose proof (tick_ticked cur rd cfg dm p) as H. destruct (tick_with_demand cur rd cfg dm p) as [a p']. simpl in *.
  intros [= ->]. inversion H; subst; [naive_solver|naive_solver|]. simpl. split; [done|set_solver].
Qed.
Lemma cleanup_latch_kept tc c p : tc ∈ stale p ->
  tc ∈ stale (snd (call_step c p)) \/ revives tc (c, fst (call_step c p)).
Proof.
  unfold revives. intros Hp. destruct c as [cur rd cfg dm|x y|x|x]; simpl; try by left.
  - pose proof (tick_ticked cur rd cfg dm p) as H. destruct (tick_with_demand cur rd cfg dm p) as [a p']. simpl in *.
    destruct H; simpl; left; set_solver.
  - destruct (decide (x = tc)) as [->|E]; [by right|left; set_solver].
Qed.

(** However often the monitor ticks, it moves money once per decision.  In any
    run of calls on a planner, from any state, a deal whose successor was ordered gets
    no second successor until the order was cleared or the buyer switched away from
    that deal, and a deal handed to cleanup is not handed over again until it was
    explicitly kept active. *)
Theorem duplicate_ticks_move_money_once (calls : list PlannerCall) (p : BuyerContinuity) (tc : TokenContract)
    (pre mid post : list (PlannerCall * option BuyerAction)) (e1 e2 : PlannerCall * option BuyerAction) :
  planner_run calls p = pre ++ e1 :: mid ++ e2 :: post ->
  (orders tc e1 -> orders tc e2 -> Exists (releases tc) mid) /\
  (cleans tc e1 -> cleans tc e2 -> Exists (revives tc) mid).
Proof.
  intros H. split; intros F1 F2.
  - eapply (latch_separates (fun p => is_pending tc p) (orders tc));
      eauto using order_latches, order_latch_kept.
  - eapply (latch_separates (fun p => tc ∈ stale p) (cleans tc));
      eauto using cleanup_latches, cleanup_latch_kept.
Qed.

(** ** The facts of a deal and the renewal threshold *)

(** The remaining-token threshold "at which proactive renewal starts" never
    starts a renewal while the chain can be read.  On the facts the monitor builds
    from a chain read, whatever is left of the budget, the planner answers without
    ordering the next deal; when the read failed, the same session with a budget at
    the threshold orders it.  The facts of an opened deal drop the remaining tokens. *)
Theorem healthy_reads_never_renew (tc next : TokenContract) (remaining now_secs last : Z) (settled : bool)
    (state : DealChainState) (ready : option DealFacts) (cfg : ContinuityConfig) (mode : ContinuityMode)
    (observed : ConsumerDemand) (p : BuyerContinuity) :
  fst (tick_with_mode (Some (buyer_monitor_current_facts tc remaining settled (Some state) now_secs last))
         ready cfg mode observed p) <> PrepareNextDeal next /\
  fst (tick_with_mode (Some (buyer_monitor_current_facts tc (renewal_threshold_tokens cfg) false None now_secs last))
         None cfg Proactive observed BuyerContinuity_default) = PrepareNextDeal tc.
Proof.
  split.
  - unfold tick_with_mode. set (f := buyer_monitor_current_facts tc remaining settled (Some state) now_secs last).
    assert (Hr : df_remaining_tokens f = None).
    { subst f. unfold buyer_monitor_current_facts. by repeat case_match. }
    pose proof (tick_ticked (Some f) ready cfg (planner_demand mode observed) p) as H.
    destruct (tick_with_demand _ _ _ _ _) as [a p']. simpl in *. intros ->.
    inversion H; subst; naive_solver.
  - unfold tick_with_mode, tick_with_demand. simpl. unfold tick_current; simpl.
    by rewrite Z.leb_refl.
Qed.

(** ** The planner on the offline market *)
Section Market.
Context (consts : ProtocolConsts) (Hc : consts_typed consts).
Context (params : DobParams) (order_id_of : TokenContract -> Z).


Lemma funded_facts tc rem ds since t last : exact_never_opened_funded_time ds = Some since ->
  buyer_monitor_current_facts tc rem false (Some ds) t last =
  funded_never_opened tc (saturating_sub t since).
Proof.
  unfold exact_never_opened_funded_time, buyer_monitor_current_facts, is_stopped, elapsed_since.
  destruct (ds_funded_time ds) as [t'|]; [|done].
  destruct (0 <? t') eqn:E0; [|done]. destruct (ds_funded ds); [|done]. destruct (ds_opened ds); [done|].
  destruct (ds_probe_accepted ds); [done|]. destruct (ds_disputed ds); [done|].
  destruct (0 <? ds_deposit ds) eqn:E1; [|done]. simpl. intros H. case_match; [|done]. simplify_eq.
  replace (ds_deposit ds =? 0) with false by lia. done.
Qed.

(** The planner recovers a no-show exactly when the contract lets it.  For a deal
    of the offline market that is funded and not opened, the facts of a chain read make
    the planner wait before the open timeout; from the timeout on they make it clean
    up, in every mode and with or without consumer demand, and the recovery of that
    action succeeds on the market, returns the whole deposit with both bonds and frees
    the contract for its seller. *)
Theorem planned_cleanups_refund (now t0 t1 t2 t3 rem last : Z) (w : ChainFiles) (tc : TokenContract)
    (seller : string) (m : Match) (since : Z) (mode : ContinuityMode) (observed : ConsumerDemand)
    (p : BuyerContinuity) :
  reachable consts params order_id_of now w -> life_in w tc = Funded seller m since ->
  now <= t0 <= t1 -> t1 <= t2 <= t3 ->
  since + MATCH_OPEN_TIMEOUT_SECS <= U64_MAX -> tc ∉ stale p ->
  exists ds s, deal_state consts tc t0 w = (Ok (Some ds), w) /\ deal_subscription tc t2 w = (Ok (Some s), w) /\
    let facts := buyer_monitor_current_facts tc rem false (Some ds) t1 last in
    let deposit := cost_of consts (funded_tokens s) (m_price_per_tick m) in
    let bond := if is_subscription s then 2 * m_price_per_tick m else 0 in
    deposit + bond <= U128_MAX ->
    let '(a, p') := tick_with_mode (Some facts) None ContinuityConfig_default mode observed p in
    if t1 <? since + MATCH_OPEN_TIMEOUT_SECS then a = Noop "waiting-for-handover" /\ p' = p
    else exists w', execute_buyer_monitor_recovery (fun tc => cleanup_unopened consts tc t2 t3) None a w =
           (Some (RecoverCleanupUnopened, tc, Ok (Some (SellerNoShow (deposit + bond) (2 * m_price_per_tick m)))), w') /\
         life_in w' tc = Idle (Some seller).
Proof.
  intros Hr Hl Ht Ht' Hu Hs. pose proof (reachable_inv _ Hc _ _ _ _ Hr) as Hi.
  destruct (cleanup_result consts Hc w now t0 t1 tc seller m since Hi Hl Ht Hu)
    as (_ & _ & _ & _ & _ & _ & (ds & Hds & _ & Hf & _) & _).
  destruct (cleanup_result consts Hc w now t2 t3 tc seller m since Hi Hl ltac:(lia) Hu)
    as (s & d & b & -> & -> & Hsub & _ & H).
  exists ds, s. split; [done|]. split; [done|]. intros facts deposit bond Hb. specialize (H Hb).
  subst facts. rewrite (funded_facts _ _ _ _ _ _ Hf). unfold tick_with_mode, tick_with_demand. simpl.
  unfold tick_current; simpl. rewrite bool_decide_false by done.
  assert (E : (MATCH_OPEN_TIMEOUT_SECS <=? saturating_sub t1 since) = negb (t1 <? since + MATCH_OPEN_TIMEOUT_SECS))
    by (unfold saturating_sub, MATCH_OPEN_TIMEOUT_SECS; lia).
  rewrite E. destruct (Z.ltb_spec t1 (since + MATCH_OPEN_TIMEOUT_SECS)); simpl; [done|].
  rewrite (proj2 (Z.ltb_ge t3 _)) in H by lia. destruct H as (w' & -> & H2). by exists w'.
Qed.
End Market.
