(* ===== verification/Session.v ===== *)
(** * Session: how the buyer's service ends a deal
    (crates/dexdo/src/buyer/api/mod.rs, SessionSettle)

    One session settles one deal across many requests.  The handlers run under
    the session's own lock, so each is one step on its flags and on the chain.
    The shared counter of delivered tokens is a field of the session here, and
    the watch channel of [closed] carries the same value as the flag. *)
From S2P Require Import Prelude Text Params MarketTypes Machine Backend Continuity.
Open Scope Z_scope.

Inductive VerificationBailAction : Type := BailStop | BailDispute | BailStopAndBlacklist.
Inductive DeadGatewayAction : Type := RetryThenReclaim | DeadNextSeller | DeadFailClosed.
Inductive EmptyStreamAction : Type := EmptyReclaim | EmptyNextSeller | EmptyFailClosed.
Inductive SellerStallsMidStreamAction : Type := AcceptDeliveredThenReclaim | StallDispute.
Record BuyerApiFailurePolicy : Type := mkPolicy {
  fp_verification_bail : VerificationBailAction;
  fp_dead_gateway : DeadGatewayAction;
  fp_empty_stream : EmptyStreamAction;
  fp_seller_stalls_mid_stream : SellerStallsMidStreamAction
}.
Definition BuyerApiFailurePolicy_default : BuyerApiFailurePolicy :=
  mkPolicy BailStop RetryThenReclaim EmptyReclaim AcceptDeliveredThenReclaim.

Inductive SessionLifetimePolicy : Type := SettleOnExit | Preserve.
Inductive SessionTerminalAction : Type :=
  StreamStop | StreamDispute | StreamCleanup | ObservedTerminal | TerminalUnknownCloser.
Definition from_stop_settlement (s : Settlement) : SessionTerminalAction :=
  match s with
  | BuyerStopTerminal receipt =>
      match bt_fact receipt with
      | SubmittedStop => StreamStop
      | AlreadyClosed => ObservedTerminal
      | UnknownCloser => TerminalUnknownCloser
      end
  | _ => StreamStop
  end.

(** ** The chain as the session uses it

    A heartbeat guard is an observation of the world: the generation it was taken
    at is still the current one. *)
Class SessionChain (W : Type) : Type := {
  sn_deal_state : TokenContract -> W -> outcome ChainError (option DealChainState) * W;
  sn_cleanup_unopened : TokenContract -> W -> outcome ChainError Settlement * W;
  sn_stop : TokenContract -> NotePubkey -> W -> outcome ChainError Settlement * W;
  sn_stop_if_heartbeat : TokenContract -> NotePubkey -> (W -> bool) -> W ->
    outcome ChainError (option Settlement) * W;
  sn_dispute : TokenContract -> NotePubkey -> W -> outcome ChainError Settlement * W;
  sn_now : W -> Z
}.
(** The default of the trait. *)
Definition stop_if_heartbeat {W} (stop : TokenContract -> NotePubkey -> W -> outcome ChainError Settlement * W)
    (tc : TokenContract) (note : NotePubkey) (unchanged : W -> bool) (w : W)
    : outcome ChainError (option Settlement) * W :=
  if negb (unchanged w) then (Ok None, w)
  else let '(r, w') := stop tc note w in (let* s := r in Ok (Some s), w').

Inductive UnopenedCleanupDecision : Type := CleanupReady | CleanupWait (wait_secs : Z) | MissingFundedTime.
Definition unopened_cleanup_decision (state : DealChainState) (now_secs : Z) : option UnopenedCleanupDecision :=
  if negb (ds_funded state && negb (ds_opened state) && negb (ds_disputed state) && negb (is_stopped state))
  then None
  else match ds_funded_time state with
       | None => Some MissingFundedTime
       | Some funded_time =>
           let cleanup_at := saturating_add U64_MAX funded_time MATCH_OPEN_TIMEOUT_SECS in
           if cleanup_at <=? now_secs then Some CleanupReady
           else Some (CleanupWait (saturating_sub cleanup_at now_secs))
       end.

(** ** The flags of a session *)
Record SessionState : Type := mkSession {
  ss_settled : bool;
  ss_closed : bool;
  ss_recovery_episode : option RecoveryKind;
  ss_recovery_closed_session : bool;
  ss_handler_recovery_reconciliation : bool;
  ss_recovery_submit_may_have_landed : bool;
  ss_drop_backup_enabled : bool;
  ss_terminal_action : option SessionTerminalAction;
  ss_route_delivery : option Z
}.
Definition session_new : SessionState := mkSession false false None false false false true None None.
Definition bind_route_delivery (delivered : Z) (s : SessionState) : SessionState :=
  mkSession (ss_settled s) (ss_closed s) (ss_recovery_episode s) (ss_recovery_closed_session s)
    (ss_handler_recovery_reconciliation s) (ss_recovery_submit_may_have_landed s) (ss_drop_backup_enabled s)
    (ss_terminal_action s) (match ss_route_delivery s with Some d => Some d | None => Some delivered end).
Definition deliver (n : Z) (s : SessionState) : SessionState :=
  mkSession (ss_settled s) (ss_closed s) (ss_recovery_episode s) (ss_recovery_closed_session s)
    (ss_handler_recovery_reconciliation s) (ss_recovery_submit_may_have_landed s) (ss_drop_backup_enabled s)
    (ss_terminal_action s) (option_map (Z.add n) (ss_route_delivery s)).
Definition implicit_terminal_lacks_delivery (s : SessionState) : bool :=
  match ss_route_delivery s with Some d => d =? 0 | None => false end.
Definition record_terminal_action (action : SessionTerminalAction) (s : SessionState) : SessionState :=
  mkSession (ss_settled s) (ss_closed s) (ss_recovery_episode s) (ss_recovery_closed_session s)
    (ss_handler_recovery_reconciliation s) (ss_recovery_submit_may_have_landed s) (ss_drop_backup_enabled s)
    (match action, ss_terminal_action s with ObservedTerminal, Some a => Some a | _, _ => Some action end)
    (ss_route_delivery s).
Definition set_settled (s : SessionState) : SessionState :=
  mkSession true (ss_closed s) (ss_recovery_episode s) (ss_recovery_closed_session s)
    (ss_handler_recovery_reconciliation s) (ss_recovery_submit_may_have_landed s) (ss_drop_backup_enabled s)
    (ss_terminal_action s) (ss_route_delivery s).
Definition set_api_closed (v : bool) (s : SessionState) : SessionState :=
  mkSession (ss_settled s) v (ss_recovery_episode s) (ss_recovery_closed_session s)
    (ss_handler_recovery_reconciliation s) (ss_recovery_submit_may_have_landed s) (ss_drop_backup_enabled s)
    (ss_terminal_action s) (ss_route_delivery s).
Definition close_local_api (s : SessionState) : SessionState := set_api_closed true s.
Definition set_episode (v : option RecoveryKind) (s : SessionState) : SessionState :=
  mkSession (ss_settled s) (ss_closed s) v (ss_recovery_closed_session s)
    (ss_handler_recovery_reconciliation s) (ss_recovery_submit_may_have_landed s) (ss_drop_backup_enabled s)
    (ss_terminal_action s) (ss_route_delivery s).
Definition set_recovery_closed_session (v : bool) (s : SessionState) : SessionState :=
  mkSession (ss_settled s) (ss_closed s) (ss_recovery_episode s) v
    (ss_handler_recovery_reconciliation s) (ss_recovery_submit_may_have_landed s) (ss_drop_backup_enabled s)
    (ss_terminal_action s) (ss_route_delivery s).
Definition set_handler_reconciliation (v : bool) (s : SessionState) : SessionState :=
  mkSession (ss_settled s) (ss_closed s) (ss_recovery_episode s) (ss_recovery_closed_session s)
    v (ss_recovery_submit_may_have_landed s) (ss_drop_backup_enabled s)
    (ss_terminal_action s) (ss_route_delivery s).
Definition set_submit_may_have_landed (v : bool) (s : SessionState) : SessionState :=
  mkSession (ss_settled s) (ss_closed s) (ss_recovery_episode s) (ss_recovery_closed_session s)
    (ss_handler_recovery_reconciliation s) v (ss_drop_backup_enabled s)
    (ss_terminal_action s) (ss_route_delivery s).
Definition disable_drop_backup (s : SessionState) : SessionState :=
  mkSession (ss_settled s) (ss_closed s) (ss_recovery_episode s) (ss_recovery_closed_session s)
    (ss_handler_recovery_reconciliation s) (ss_recovery_submit_may_have_landed s) false
    (ss_terminal_action s) (ss_route_delivery s).
(** The three stores every terminal outcome ends with. *)
Definition clear_recovery (s : SessionState) : SessionState :=
  set_submit_may_have_landed false (set_handler_reconciliation false (set_recovery_closed_session false s)).

Definition is_episode (kind : RecoveryKind) (s : SessionState) : bool :=
  match ss_recovery_episode s, kind with
  | Some RecoverCleanupUnopened, RecoverCleanupUnopened | Some RecoverReclaimOpened, RecoverReclaimOpened => true
  | _, _ => false
  end.
Definition recovery_submit_may_have_landed (kind : RecoveryKind) (s : SessionState) : bool :=
  is_episode kind s && ss_recovery_submit_may_have_landed s.
Definition take_handler_recovery_reconciliation (s : SessionState) : option RecoveryKind * SessionState :=
  (if ss_handler_recovery_reconciliation s then ss_recovery_episode s else None,
   set_handler_reconciliation false s).
Definition is_ambiguous (e : ChainError) : bool := match e with AmbiguousSubmit _ => true | _ => false end.
Definition latch_possibly_landed_stop (e : ChainError) (s : SessionState) : bool * SessionState :=
  if negb (is_ambiguous e) then (false, s)
  else (true, disable_drop_backup (set_handler_reconciliation true (set_submit_may_have_landed true
          (set_episode (Some RecoverReclaimOpened) s)))).

Definition start_episode (kind : RecoveryKind) (s : SessionState) : bool * SessionState :=
  match ss_recovery_episode s with
  | None => (true, set_episode (Some kind) s)
  | Some _ => (false, s)
  end.
(** [close_local_api] reports whether it closed; the session then remembers that the
    recovery did. *)
Definition close_for_recovery (s : SessionState) : SessionState :=
  if ss_closed s then s else set_recovery_closed_session true (close_local_api s).
Definition close_recovery_episode (kind : RecoveryKind) (s : SessionState) : bool * SessionState :=
  if ss_settled s then (false, s)
  else
    let '(started, s1) := start_episode kind s in
    (started, if is_episode kind s1 then close_for_recovery s1 else close_local_api s1).
Definition begin_recovery_attempt (kind : RecoveryKind) (handler_origin : bool) (s : SessionState)
    : bool * SessionState :=
  let '(started, s1) := start_episode kind s in
  if negb (is_episode kind s1) then (false, s1)
  else if recovery_submit_may_have_landed kind s1 then (false, s1)
  else if negb handler_origin && negb started && ss_handler_recovery_reconciliation s1 then (false, s1)
  else if handler_origin then (started, close_for_recovery s1)
  else (true, s1).
Definition cancel_recovery_without_post (kind : RecoveryKind) (s : SessionState) : SessionState :=
  if negb (is_episode kind s) then s
  else
    let s1 := set_submit_may_have_landed false (set_handler_reconciliation false (set_episode None s)) in
    let s2 := set_recovery_closed_session false s1 in
    if ss_recovery_closed_session s1 && negb (ss_settled s2) then set_api_closed false s2 else s2.

(** ** The handlers *)
Section Handlers.
Context {W : Type} `{SessionChain W}.
Context (token_contract : TokenContract) (note : NotePubkey).
Context (failure_policy : BuyerApiFailurePolicy) (lifetime : SessionLifetimePolicy).

Local Definition handler (A : Type) : Type := prog (SessionState * W) A.
Definition session : handler SessionState := get (fun x => (fst x, x)).
Definition modify (f : SessionState -> SessionState) : handler unit := run (fun x => (f (fst x), snd x)).
Definition update {A} (f : SessionState -> A * SessionState) : handler A :=
  get (fun x => let '(a, s) := f (fst x) in (a, (s, snd x))).
(** A chain call with its [Result] as a value. *)
Definition on_chain {A} (f : W -> outcome ChainError A * W) : handler (outcome ChainError A) :=
  attempt (fun x => let '(r, w) := f (snd x) in (r, (fst x, w))).

Definition preserve_without_implicit_chain_write : handler bool :=
  match lifetime with
  | Preserve => modify (fun s => disable_drop_backup (close_local_api s)) >>! ret true
  | SettleOnExit => ret false
  end.
Definition veto_implicit_terminal_without_delivery : handler bool :=
  let! s := session in
  if implicit_terminal_lacks_delivery s
  then modify (fun s => disable_drop_backup (close_local_api s)) >>! ret true
  else ret false.

Definition mark_recovered : handler bool :=
  let! s := session in
  if ss_settled s then ret false
  else modify (fun s => close_local_api (clear_recovery (record_terminal_action ObservedTerminal (set_settled s))))
         >>! ret true.

Definition settle : handler bool :=
  let! s := session in
  if ss_settled s then ret false
  else if recovery_submit_may_have_landed RecoverReclaimOpened s
  then throw (AmbiguousSubmit "STOP may already have landed")
  else
    modify close_local_api >>!
    let! r := on_chain (sn_stop token_contract note) in
    match r with
    | Ok st =>
        modify (fun s => clear_recovery (set_settled (record_terminal_action (from_stop_settlement st) s)))
          >>! ret true
    | Err e => update (latch_possibly_landed_stop e) >>! modify disable_drop_backup >>! throw e
    | Panic => panic
    end.

Definition recover_cleanup_unopened (handler_origin : bool) : handler (option Settlement) :=
  let! vetoed := preserve_without_implicit_chain_write in
  if vetoed then ret None
  else
    let! s := session in
    if ss_settled s then ret None
    else
      let! go := update (begin_recovery_attempt RecoverCleanupUnopened handler_origin) in
      if negb go then ret None
      else
        let! r := on_chain (sn_cleanup_unopened token_contract) in
        match r with
        | Ok st =>
            modify (fun s => clear_recovery (set_settled (record_terminal_action StreamCleanup (close_local_api s))))
              >>! ret (Some st)
        | Err e =>
            modify (fun s => if handler_origin then set_handler_reconciliation true s else s) >>! throw e
        | Panic => panic
        end.

Definition recover_reclaim_opened (heartbeat : W -> bool) (handler_origin : bool) : handler (option Settlement) :=
  let! vetoed := preserve_without_implicit_chain_write in
  if vetoed then ret None
  else
    let! s := session in
    if ss_settled s then ret None
    else
      let! go := update (begin_recovery_attempt RecoverReclaimOpened handler_origin) in
      if negb go then ret None
      else
        let! r := on_chain (sn_stop_if_heartbeat token_contract note heartbeat) in
        match r with
        | Ok None => modify (cancel_recovery_without_post RecoverReclaimOpened) >>! ret None
        | Ok (Some st) =>
            modify (fun s => clear_recovery (set_settled
              (record_terminal_action (from_stop_settlement st) (close_local_api s)))) >>! ret (Some st)
        | Err e =>
            let! latched := update (latch_possibly_landed_stop e) in
            modify (fun s => if negb latched && handler_origin then set_handler_reconciliation true s else s)
              >>! throw e
        | Panic => panic
        end.

(** ** Serving and leaving *)
Definition fail_closed_before_serving : handler unit :=
  modify (fun s => if ss_settled s then s else close_local_api s).
Definition fail_closed_unopened_before_serving (cleanup : option UnopenedCleanupDecision) : handler unit :=
  match cleanup with
  | Some CleanupReady => fun x => match recover_cleanup_unopened true x with
                                  | (Some Panic, x') => (Some Panic, x')
                                  | (None, x') => (None, x')
                                  | (_, x') => (Some (Ok tt), x')
                                  end
  | _ => fail_closed_before_serving
  end.
(** [Ok tt] serves, [Err] refuses. *)
Definition ensure_open_for_serving : handler (outcome string unit) :=
  let! r := on_chain (sn_deal_state token_contract) in
  match r with
  | Ok None =>
      fail_closed_before_serving >>! ret (Err "deal state unavailable before serving user response")
  | Err _ =>
      fail_closed_before_serving >>! ret (Err "deal state unreadable before serving user response")
  | Ok (Some state) =>
      if ds_funded state && ds_opened state && negb (ds_disputed state) then ret (Ok tt)
      else
        let! now_secs := get (fun x => (sn_now (snd x), x)) in
        fail_closed_unopened_before_serving (unopened_cleanup_decision state now_secs) >>!
        ret (Err "deal is not safely opened/accountable before serving user response")
  | Panic => panic
  end.

Definition settle_on_exit : handler bool :=
  match lifetime with
  | SettleOnExit =>
      let! vetoed := veto_implicit_terminal_without_delivery in
      if vetoed then ret false else settle
  | Preserve => preserve_without_implicit_chain_write >>! ret false
  end.
(** [Drop]: the last-chance STOP, whose result nobody reads. *)
Definition drop_session : handler unit :=
  let! s := session in
  if match lifetime with Preserve => true | SettleOnExit => false end
     || ss_settled s || negb (ss_drop_backup_enabled s) || ss_recovery_submit_may_have_landed s
  then ret tt
  else
    let! vetoed := veto_implicit_terminal_without_delivery in
    if vetoed then ret tt else on_chain (sn_stop token_contract note) >>! ret tt.

(** ** The failure policies *)
Definition policy_fail_closed : handler bool :=
  modify (fun s => if ss_settled s || negb (ss_drop_backup_enabled s) then s else close_local_api s) >>! ret false.
Definition policy_unsupported : handler bool := fail_closed_before_serving >>! ret false.
Definition policy_seller_timeout (heartbeat : W -> bool) : handler bool := fun x =>
  match recover_reclaim_opened heartbeat true x with
  | (Some (Ok (Some _)), x') => (Some (Ok true), x')
  | (Some (Ok None), x') | (Some (Err _), x') => (Some (Ok false), x')
  | (Some Panic, x') => (Some Panic, x')
  | (None, x') => (None, x')
  end.
(** The body both dispute paths share, under the lock with the API closed. *)
Definition open_dispute : handler bool :=
  let! r := on_chain (sn_dispute token_contract note) in
  match r with
  | Ok _ => modify (fun s => set_settled (record_terminal_action StreamDispute s)) >>! ret true
  | Err _ => ret false
  | Panic => panic
  end.
Definition policy_dispute : handler bool :=
  let! vetoed := preserve_without_implicit_chain_write in
  if vetoed then ret false
  else
    let! s := session in
    if ss_settled s then ret false else modify close_local_api >>! open_dispute.

Definition settle_verification_bail : handler bool :=
  let! vetoed := preserve_without_implicit_chain_write in
  if vetoed then ret false
  else
    let! s := session in
    if ss_settled s then ret false
    else
      modify close_local_api >>!
      match fp_verification_bail failure_policy with
      | BailStop =>
          if recovery_submit_may_have_landed RecoverReclaimOpened s then ret false
          else
            let! r := on_chain (sn_stop token_contract note) in
            match r with
            | Ok st =>
                modify (fun s => set_settled (record_terminal_action (from_stop_settlement st) s)) >>! ret true
            | Err e => update (latch_possibly_landed_stop e) >>! ret false
            | Panic => panic
            end
      | BailDispute => open_dispute
      | BailStopAndBlacklist => ret false
      end.
Definition settle_dead_gateway (heartbeat : W -> bool) : handler bool :=
  match fp_dead_gateway failure_policy with
  | RetryThenReclaim => policy_seller_timeout heartbeat
  | DeadNextSeller => policy_unsupported
  | DeadFailClosed => policy_fail_closed
  end.
Definition settle_empty_stream (heartbeat : W -> bool) : handler bool :=
  match fp_empty_stream failure_policy with
  | EmptyReclaim => policy_seller_timeout heartbeat
  | EmptyNextSeller => policy_unsupported
  | EmptyFailClosed => policy_fail_closed
  end.
Definition settle_seller_stalls_mid_stream (heartbeat : W -> bool) : handler bool :=
  match fp_seller_stalls_mid_stream failure_policy with
  | AcceptDeliveredThenReclaim => policy_seller_timeout heartbeat
  | StallDispute => policy_dispute
  end.
End Handlers.
