(* ===== verification/SessionSafety.v ===== *)
(** * SessionSafety: which chain writes a session can make, and when *)
From S2P Require Import Prelude Text Params Settle MarketTypes Machine MockDeal MockDealInv.
From S2P Require Import MockDealLive MockMarket MockInvariant MockReach MockLife MockSafety Backend.
From S2P Require Import Continuity Session.
Open Scope Z_scope.

(** ** The log of chain writes *)
Inductive PostKind : Type := KStop | KCleanup | KDispute.
Inductive PostResult : Type := Landed | MayHaveLanded | Failed.
Record Post : Type := mkPost { post_kind : PostKind; post_result : PostResult }.
Definition post_outcome {A} (r : outcome ChainError A) : PostResult :=
  match r with
  | Ok _ => Landed
  | Err e => if is_ambiguous e then MayHaveLanded else Failed
  | Panic => Failed
  end.
Definition posted {A} (kind : PostKind) (r : outcome ChainError A) : list Post := [mkPost kind (post_outcome r)].
(** A guarded STOP that found the heartbeat changed wrote nothing. *)
Definition posted_guarded (r : outcome ChainError (option Settlement)) : list Post :=
  match r with Ok None => [] | _ => posted KStop r end.

#[export] Instance logged_chain {W} `{SessionChain W} : SessionChain (W * list Post) := {|
  sn_deal_state tc x := let '(r, w) := sn_deal_state tc (fst x) in (r, (w, snd x));
  sn_cleanup_unopened tc x :=
    let '(r, w) := sn_cleanup_unopened tc (fst x) in (r, (w, snd x ++ posted KCleanup r));
  sn_stop tc note x := let '(r, w) := sn_stop tc note (fst x) in (r, (w, snd x ++ posted KStop r));
  sn_stop_if_heartbeat tc note hb x :=
    let '(r, w) := sn_stop_if_heartbeat tc note (fun w => hb (w, snd x)) (fst x) in
    (r, (w, snd x ++ posted_guarded r));
  sn_dispute tc note x := let '(r, w) := sn_dispute tc note (fst x) in (r, (w, snd x ++ posted KDispute r));
  sn_now x := sn_now (fst x) |}.

(** ** Runs of a session *)
Inductive SessionCall (W : Type) : Type :=
| CallSettle
| CallSettleOnExit
| CallVerificationBail
| CallDeadGateway (heartbeat : W -> bool)
| CallEmptyStream (heartbeat : W -> bool)
| CallStall (heartbeat : W -> bool)
| CallEnsureOpen
| CallMonitorCleanup
| CallRequestDropped
| CallTakeReconciliation
| CallMarkRecovered
| CallDelivered (n : Z).
Arguments CallSettle {W}. Arguments CallSettleOnExit {W}. Arguments CallVerificationBail {W}.
Arguments CallEnsureOpen {W}. Arguments CallMonitorCleanup {W}. Arguments CallRequestDropped {W}.
Arguments CallTakeReconciliation {W}. Arguments CallMarkRecovered {W}. Arguments CallDelivered {W} n.
Arguments CallDeadGateway {W} heartbeat. Arguments CallEmptyStream {W} heartbeat. Arguments CallStall {W} heartbeat.

Section Runs.
Context {W : Type} `{SessionChain W}.
Context (tc : TokenContract) (note : NotePubkey) (policy : BuyerApiFailurePolicy) (lifetime : SessionLifetimePolicy).

Definition session_step (c : SessionCall W) (x : SessionState * W) : SessionState * W :=
  match c with
  | CallSettle => snd (settle tc note x)
  | CallSettleOnExit => snd (settle_on_exit tc note lifetime x)
  | CallVerificationBail => snd (settle_verification_bail tc note policy lifetime x)
  | CallDeadGateway hb => snd (settle_dead_gateway tc note policy lifetime hb x)
  | CallEmptyStream hb => snd (settle_empty_stream tc note policy lifetime hb x)
  | CallStall hb => snd (settle_seller_stalls_mid_stream tc note policy lifetime hb x)
  | CallEnsureOpen => snd (ensure_open_for_serving tc lifetime x)
  | CallMonitorCleanup => snd (recover_cleanup_unopened tc lifetime false x)
  | CallRequestDropped => (snd (close_recovery_episode RecoverReclaimOpened (fst x)), snd x)
  | CallTakeReconciliation => (snd (take_handler_recovery_reconciliation (fst x)), snd x)
  | CallMarkRecovered => snd (mark_recovered x)
  | CallDelivered n => (deliver n (fst x), snd x)
  end.
Definition session_run (calls : list (SessionCall W)) (x : SessionState * W) : SessionState * W :=
  fold_left (fun x c => session_step c x) calls x.
End Runs.

(** The writes of a whole session: the calls, then the drop. *)
Definition session_log {W} `{SessionChain W} (tc : TokenContract) (note : NotePubkey)
    (policy : BuyerApiFailurePolicy) (lifetime : SessionLifetimePolicy) (s : SessionState)
    (calls : list (SessionCall (W * list Post))) (w : W) : list Post :=
  snd (snd (snd (drop_session tc note lifetime (session_run tc note policy lifetime calls (s, (w, [])))))).

(** ** One step *)
Definition latched (s : SessionState) : bool := recovery_submit_may_have_landed RecoverReclaimOpened s.
Definition may_write (s : SessionState) (p : Post) : Prop :=
  ss_settled s = false /\ (latched s = true -> post_kind p = KDispute).
Definition stop_in_doubt (p : Post) : Prop := post_kind p = KStop /\ post_result p = MayHaveLanded.
(** At most one write, allowed by the state before it and recorded by the state after. *)
Definition wrote (s s' : SessionState) (new : list Post) : Prop :=
  (ss_settled s = true -> ss_settled s' = true) /\
  (latched s = true -> latched s' = true \/ ss_settled s' = true) /\
  match new with
  | [] => True
  | [p] => may_write s p /\ (post_result p = Landed -> ss_settled s' = true) /\
           (stop_in_doubt p -> latched s' = true)
  | _ => False
  end.
Definition writes_once {W A} (m : prog (SessionState * (W * list Post)) A) : Prop :=
  forall s w l, exists new w', snd (snd (m (s, (w, l)))) = (w', l ++ new) /\
    wrote s (fst (snd (m (s, (w, l))))) new.


(** Unfolds a handler, splits on the flags that guard it and on every answer of the
    chain, and checks the step. *)
Ltac open_session s :=
  let st := fresh "settled" in let ep := fresh "episode" in let ml := fresh "may_land" in
  
  let cl := fresh "closed" in let rc := fresh "reconcile" in
  destruct s as [st cl ep ? rc ml ? ? ?]; destruct st, cl, rc, ml, ep as [[]|]; simpl.
Ltac unfold_handler :=
  unfold begin_recovery_attempt, start_episode, cancel_recovery_without_post, close_for_recovery,
    recovery_submit_may_have_landed, is_episode, posted_guarded, posted, post_outcome, latch_possibly_landed_stop, bind, get, session, modify, update, on_chain, attempt, run, throw, ret, panic in *.
Ltac split_chain := repeat (match goal with
  | |- context [sn_stop ?a ?b ?c] => destruct (sn_stop a b c) as [[?|?e|] ?w']
  | |- context [sn_dispute ?a ?b ?c] => destruct (sn_dispute a b c) as [[?|?e|] ?w']
  | |- context [sn_cleanup_unopened ?a ?c] => destruct (sn_cleanup_unopened a c) as [[?|?e|] ?w']
  | |- context [sn_stop_if_heartbeat ?a ?b ?h ?c] => destruct (sn_stop_if_heartbeat a b h c) as [[[?|]|?e|] ?w']
  | |- context [sn_deal_state ?a ?c] => destruct (sn_deal_state a c) as [[[?|]|?e|] ?w']
  | |- context [is_ambiguous ?e] => destruct (is_ambiguous e) eqn:?
  | |- context [match ?x with _ => _ end] => is_var x; destruct x
  | |- context [match unopened_cleanup_decision ?a ?b with _ => _ end] =>
      destruct (unopened_cleanup_decision a b) as [[]|]
  | |- context [if ?a && ?b then _ else _] => destruct (a && b)
  end; simpl).
Ltac check_step :=
  unfold wrote, latched, may_write, stop_in_doubt, recovery_submit_may_have_landed, is_episode,
    posted_guarded, posted, post_outcome in *;
  simpl in *;
  repeat match goal with
    | E : is_ambiguous ?e = _ |- context [is_ambiguous ?e] => rewrite E; clear E
    | |- context [is_ambiguous ?e] => destruct (is_ambiguous e) eqn:?; simpl
    | |- context [match ?x with _ => _ end] => is_var x; destruct x; simpl
  end;
  (eexists [], _; split; [by rewrite app_nil_r|]; simpl; by intuition congruence)
  || (eexists [_], _; split; [reflexivity|]; simpl; split_and!; try done; intuition congruence).

Section Steps.
Context {W : Type} `{SessionChain W}.
Context (tc : TokenContract) (note : NotePubkey) (policy : BuyerApiFailurePolicy) (lifetime : SessionLifetimePolicy).

Lemma settle_writes : writes_once (settle (W := W * list Post) tc note).
Proof.
  intros s w l. unfold settle. unfold_handler. open_session s; split_chain.
  all: check_step.
Qed.
Lemma cleanup_writes o : writes_once (recover_cleanup_unopened (W := W * list Post) tc lifetime o).
Proof.
  intros s w l. unfold recover_cleanup_unopened, preserve_without_implicit_chain_write.
  unfold_handler. destruct lifetime, o; open_session s; split_chain.
  all: check_step.
Qed.
Lemma reclaim_writes hb : writes_once (recover_reclaim_opened (W := W * list Post) tc note lifetime hb true).
Proof.
  intros s w l. unfold recover_reclaim_opened, preserve_without_implicit_chain_write.
  unfold_handler. destruct lifetime; open_session s; split_chain.
  all: check_step.
Qed.
Lemma dispute_writes : writes_once (policy_dispute (W := W * list Post) tc note lifetime).
Proof.
  intros s w l. unfold policy_dispute, open_dispute, preserve_without_implicit_chain_write.
  unfold_handler. destruct lifetime; open_session s; split_chain.
  all: check_step.
Qed.
Lemma bail_writes : writes_once (settle_verification_bail (W := W * list Post) tc note policy lifetime).
Proof.
  intros s w l. unfold settle_verification_bail, open_dispute, preserve_without_implicit_chain_write.
  unfold_handler. destruct lifetime, (fp_verification_bail policy); open_session s; split_chain.
  all: check_step.
Qed.
Lemma exit_writes : writes_once (settle_on_exit (W := W * list Post) tc note lifetime).
Proof.
  intros s w l. unfold settle_on_exit, settle, veto_implicit_terminal_without_delivery, preserve_without_implicit_chain_write.
  unfold_handler. destruct lifetime; simpl; [destruct (implicit_terminal_lacks_delivery s)|]; open_session s; split_chain.
  all: check_step.
Qed.
Lemma ensure_writes : writes_once (ensure_open_for_serving (W := W * list Post) tc lifetime).
Proof.
  intros s w l.
  assert (Hq : wrote s (if ss_settled s then s else close_local_api s) [])
    by (open_session s; unfold wrote, latched; simpl; intuition congruence).
  assert (Hn : wrote s s []) by (unfold wrote; tauto).
  unfold ensure_open_for_serving, fail_closed_unopened_before_serving, fail_closed_before_serving.
  unfold_handler. simpl. destruct (sn_deal_state tc w) as [[[st|]|e|] w1]; simpl.
  2-4: by exists [], w1; rewrite app_nil_r.
  destruct (ds_funded st && ds_opened st && negb (ds_disputed st)); simpl; [by exists [], w1; rewrite app_nil_r|].
  destruct (unopened_cleanup_decision st (sn_now w1)) as [[]|]; simpl.
  2-4: by exists [], w1; rewrite app_nil_r.
  destruct (cleanup_writes true s w1 l) as (new & w2 & E & Hw).
  destruct (recover_cleanup_unopened tc lifetime true (s, (w1, l))) as [[[]|] x]; simpl in *; eauto.
Qed.

Lemma timeout_writes hb : writes_once (policy_seller_timeout (W := W * list Post) tc note lifetime hb).
Proof.
  intros s w l. destruct (reclaim_writes hb s w l) as (new & w2 & E & Hw). unfold policy_seller_timeout.
  destruct (recover_reclaim_opened _ _ _ _ _ _) as [[[[]| |]|] x]; simpl in *; eauto.
Qed.
Lemma closing_writes {A} (f : SessionState -> SessionState) (b : A) :
  (forall s, ss_settled (f s) = ss_settled s /\ latched (f s) = latched s) ->
  writes_once (W := W) (modify (W := W * list Post) f >>! ret b).
Proof.
  intros Hf s w l. destruct (Hf s) as [E1 E2]. exists [], w. rewrite app_nil_r. split; [done|].
  unfold bind, modify, run, ret; simpl. unfold wrote. rewrite E1, E2. tauto.
Qed.
Lemma unsupported_writes : writes_once (policy_unsupported (W := W * list Post)).
Proof. apply closing_writes. intros s. by destruct (ss_settled s) eqn:?. Qed.
Lemma fail_closed_writes : writes_once (policy_fail_closed (W := W * list Post)).
Proof. apply closing_writes. intros s. by destruct (ss_settled s || negb (ss_drop_backup_enabled s)). Qed.

Lemma step_writes c s w l : exists new w',
  snd (session_step tc note policy lifetime c (s, (w, l))) = (w', l ++ new) /\
  wrote s (fst (session_step tc note policy lifetime c (s, (w, l)))) new.
Proof.
  destruct c as [| | |hb|hb|hb| | | | | |n]; simpl.
  - apply settle_writes.
  - apply exit_writes.
  - apply bail_writes.
  - unfold settle_dead_gateway. destruct (fp_dead_gateway policy);
      [apply timeout_writes|apply unsupported_writes|apply fail_closed_writes].
  - unfold settle_empty_stream. destruct (fp_empty_stream policy);
      [apply timeout_writes|apply unsupported_writes|apply fail_closed_writes].
  - unfold settle_seller_stalls_mid_stream. destruct (fp_seller_stalls_mid_stream policy);
      [apply timeout_writes|apply dispute_writes].
  - apply ensure_writes.
  - apply cleanup_writes.
  - unfold close_recovery_episode, start_episode, close_for_recovery, is_episode. open_session s; check_step.
  - open_session s; check_step.
  - unfold mark_recovered. unfold_handler. open_session s; check_step.
  - open_session s; check_step.
Qed.
Lemma drop_writes s w l : exists new w' s'',
  snd (snd (drop_session tc note lifetime (s, (w, l)))) = (w', l ++ new) /\ wrote s s'' new.
Proof.
  assert (Hn : wrote s s []) by (unfold wrote; tauto).
  unfold drop_session, veto_implicit_terminal_without_delivery. unfold_handler. simpl.
  destruct (match lifetime with SettleOnExit => false | Preserve => true end || ss_settled s
    || negb (ss_drop_backup_enabled s) || ss_recovery_submit_may_have_landed s) eqn:Eg; simpl.
  { exists [], w, s. by rewrite app_nil_r. }
  destruct (implicit_terminal_lacks_delivery s); simpl; [exists [], w, s; by rewrite app_nil_r|].
  assert (Hs : ss_settled s = false /\ ss_recovery_submit_may_have_landed s = false).
  { destruct lifetime, (ss_settled s), (ss_drop_backup_enabled s), (ss_recovery_submit_may_have_landed s); done. }
  destruct Hs as [Hs Hl].
  destruct (sn_stop tc note w) as [r w1]; simpl.
  exists (posted KStop r), w1, (mkSession true true (Some RecoverReclaimOpened) false false true false None None).
  split; [by destruct r|]. unfold wrote, posted, may_write, latched, recovery_submit_may_have_landed.
  rewrite Hs, Hl, andb_false_r. simpl. naive_solver.
Qed.
End Steps.

(** ** Whole sessions *)
Inductive trace : SessionState -> list Post -> SessionState -> Prop :=
| trace_nil s : trace s [] s
| trace_cons s s1 s2 new rest : wrote s s1 new -> trace s1 rest s2 -> trace s (new ++ rest) s2.

Definition only_disputes (l : list Post) : Prop := Forall (fun p => post_kind p = KDispute) l.
Fixpoint final (l : list Post) : Prop :=
  match l with
  | [] => True
  | p :: post =>
      (post_result p = Landed -> post = []) /\ (stop_in_doubt p -> only_disputes post) /\ final post
  end.
Lemma final_split l pre p post : final l -> l = pre ++ p :: post ->
  (post_result p = Landed -> post = []) /\ (stop_in_doubt p -> only_disputes post).
Proof. intros Hf ->. induction pre as [|q pre IH]; simpl in Hf; [tauto|]. apply IH. tauto. Qed.

Lemma settled_quiet s l s' : trace s l s' -> ss_settled s = true -> l = [].
Proof.
  induction 1 as [|s s1 s2 new rest Hw _ IH]; intros Hs; [done|]. destruct Hw as (H1 & _ & H3).
  destruct new as [|p [|]]; [by apply IH, H1| |done]. destruct H3 as ([H _] & _). congruence.
Qed.
Lemma latched_quiet s l s' : trace s l s' -> latched s = true -> only_disputes l.
Proof.
  induction 1 as [|s s1 s2 new rest Hw Ht IH]; intros Hs; [by constructor|]. destruct Hw as (_ & H2 & H3).
  assert (Hr : only_disputes rest).
  { destruct (H2 Hs) as [Hl|Hl]; [by apply IH|]. rewrite (settled_quiet _ _ _ Ht Hl). by constructor. }
  destruct new as [|p [|]]; [done| |done]. destruct H3 as ([_ H] & _). constructor; [by apply H|done].
Qed.
Lemma trace_final s l s' : trace s l s' -> final l.
Proof.
  induction 1 as [|s s1 s2 new rest Hw Ht IH]; [done|]. destruct Hw as (_ & _ & H3).
  destruct new as [|p [|]]; [done| |done]. destruct H3 as (_ & Hl & Hd). simpl. split_and!; [| |done].
  - intros Hp. by eapply settled_quiet; [|apply Hl].
  - intros Hp. eapply latched_quiet; [done|by apply Hd].
Qed.

Section Log.
Context {W : Type} `{SessionChain W}.
Context (tc : TokenContract) (note : NotePubkey) (policy : BuyerApiFailurePolicy) (lifetime : SessionLifetimePolicy).

Lemma run_trace calls s w l d : 
  (forall s w l, exists new w' s'', snd (snd (d (s, (w, l)))) = (w', l ++ new) /\ wrote s s'' new) ->
  exists new s'', snd (snd (snd (d (session_run tc note policy lifetime calls (s, (w, l))) : 
      option (outcome ChainError unit) * (SessionState * (W * list Post))))) = l ++ new /\ trace s new s''.
Proof.
  intros Hd. revert s w l. induction calls as [|c calls IH]; intros s w l; simpl.
  - destruct (Hd s w l) as (new & w' & s'' & E & Hw). exists new, s''. rewrite E. split; [done|].
    rewrite <- (app_nil_r new). eapply trace_cons; [done|constructor].
  - destruct (step_writes tc note policy lifetime c s w l) as (new & w' & E & Hw).
    destruct (session_step tc note policy lifetime c (s, (w, l))) as [s1 x]. simpl in *. subst x.
    destruct (IH s1 w' (l ++ new)) as (rest & s'' & E2 & Ht). exists (new ++ rest), s''.
    rewrite E2, app_assoc. split; [done|by eapply trace_cons].
Qed.

(** C21: a session ends its deal once.  Over any calls
    of the service and the monitor on one session, in any order and against any chain,
    with the last-chance STOP of the drop at the end: a STOP, cleanup or dispute that
    landed is the session's last write, and after a STOP that may have landed the
    session submits no STOP and no cleanup again. *)
Theorem terminal_writes_are_final (calls : list (SessionCall (W * list Post))) (w : W)
    (pre post : list Post) (p : Post) :
  session_log tc note policy lifetime session_new calls w = pre ++ p :: post ->
  (post_result p = Landed -> post = []) /\
  (stop_in_doubt p -> Forall (fun q => post_kind q = KDispute) post).
Proof.
  unfold session_log. intros E.
  destruct (run_trace calls session_new w [] _ (drop_writes tc note lifetime)) as (new & s'' & E2 & Ht).
  simpl in E2. rewrite E2 in E. by eapply final_split; [eapply trace_final|].
Qed.
End Log.

(** ** Serving *)
Definition closed_ok (s : SessionState) : Prop :=
  (ss_settled s = true -> ss_closed s = true) /\
  (ss_recovery_episode s = Some RecoverReclaimOpened -> ss_closed s = true) /\
  (ss_recovery_submit_may_have_landed s = true -> ss_recovery_episode s = Some RecoverReclaimOpened).
Definition keeps_closed {W A} (m : prog (SessionState * W) A) : Prop :=
  forall s w, closed_ok s -> closed_ok (fst (snd (m (s, w)))).
Ltac check_closed :=
  unfold closed_ok in *; simpl in *;
  repeat match goal with |- context [match ?x with _ => _ end] => is_var x; destruct x; simpl end;
  intuition congruence.

Section Serving.
Context {W : Type} `{SessionChain W}.
Context (tc : TokenContract) (note : NotePubkey) (policy : BuyerApiFailurePolicy) (lifetime : SessionLifetimePolicy).

Lemma settle_closed : keeps_closed (settle (W := W) tc note).
Proof. intros s w Hs. unfold settle. unfold_handler. open_session s; split_chain. all: check_closed. Qed.
Lemma cleanup_closed o : keeps_closed (recover_cleanup_unopened (W := W) tc lifetime o).
Proof.
  intros s w Hs. unfold recover_cleanup_unopened, preserve_without_implicit_chain_write.
  unfold_handler. destruct lifetime, o; open_session s; split_chain. all: check_closed.
Qed.
Lemma reclaim_closed hb : keeps_closed (recover_reclaim_opened (W := W) tc note lifetime hb true).
Proof.
  intros s w Hs. unfold recover_reclaim_opened, preserve_without_implicit_chain_write.
  unfold_handler. destruct lifetime; open_session s; split_chain. all: check_closed.
Qed.
Lemma dispute_closed : keeps_closed (policy_dispute (W := W) tc note lifetime).
Proof.
  intros s w Hs. unfold policy_dispute, open_dispute, preserve_without_implicit_chain_write.
  unfold_handler. destruct lifetime; open_session s; split_chain. all: check_closed.
Qed.
Lemma bail_closed : keeps_closed (settle_verification_bail (W := W) tc note policy lifetime).
Proof.
  intros s w Hs. unfold settle_verification_bail, open_dispute, preserve_without_implicit_chain_write.
  unfold_handler. destruct lifetime, (fp_verification_bail policy); open_session s; split_chain. all: check_closed.
Qed.
Lemma exit_closed : keeps_closed (settle_on_exit (W := W) tc note lifetime).
Proof.
  intros s w Hs. unfold settle_on_exit, settle, veto_implicit_terminal_without_delivery, preserve_without_implicit_chain_write.
  unfold_handler. destruct lifetime; simpl; [destruct (implicit_terminal_lacks_delivery s)|]; open_session s; split_chain.
  all: check_closed.
Qed.
Lemma timeout_closed hb : keeps_closed (policy_seller_timeout (W := W) tc note lifetime hb).
Proof.
  intros s w Hs. pose proof (reclaim_closed hb s w Hs) as Hr. unfold policy_seller_timeout.
  by destruct (recover_reclaim_opened _ _ _ _ _ _) as [[[[]| |]|] x].
Qed.
Lemma closing_closed {A} (f : SessionState -> SessionState) (b : A) :
  (forall s, f s = s \/ f s = close_local_api s) -> keeps_closed (W := W) (modify f >>! ret b).
Proof.
  intros Hf s w Hs. unfold bind, modify, run, ret; simpl. destruct (Hf s) as [->| ->]; [done|].
  unfold closed_ok in *; simpl. tauto.
Qed.
Lemma unsupported_closed : keeps_closed (policy_unsupported (W := W)).
Proof. apply closing_closed. intros s. destruct (ss_settled s); auto. Qed.
Lemma fail_closed_closed : keeps_closed (policy_fail_closed (W := W)).
Proof. apply closing_closed. intros s. destruct (ss_settled s || negb (ss_drop_backup_enabled s)); auto. Qed.

(** What a request gets, from a session that keeps [closed_ok]. *)
Definition serves_or_closes (x : SessionState * W) : Prop :=
  match ensure_open_for_serving tc lifetime x with
  | (Some (Ok (Ok _)), x') =>
      fst x' = fst x /\ exists st, fst (sn_deal_state tc (snd x)) = Ok (Some st) /\
        ds_funded st = true /\ ds_opened st = true /\ ds_disputed st = false
  | (Some (Ok (Err _)), x') => ss_closed (fst x') = true
  | (Some Panic, _) => True
  | (Some (Ok Panic), _) | (Some (Err _), _) | (None, _) => False
  end.
Lemma cleanup_refusal_closes s w : closed_ok s ->
  match recover_cleanup_unopened tc lifetime true (s, w) with
  | (Some Panic, _) => True
  | (None, _) => False
  | (_, x') => ss_closed (fst x') = true
  end.
Proof.
  intros Hs. unfold recover_cleanup_unopened, preserve_without_implicit_chain_write.
  unfold_handler. destruct lifetime; open_session s; split_chain. all: check_closed.
Qed.
Lemma ensure_serves s w : closed_ok s -> serves_or_closes (s, w).
Proof.
  intros Hs. unfold serves_or_closes, ensure_open_for_serving, fail_closed_unopened_before_serving, fail_closed_before_serving.
  assert (Hq : ss_closed (if ss_settled s then s else close_local_api s) = true).
  { destruct (ss_settled s) eqn:E; [by apply (proj1 Hs)|done]. }
  unfold_handler. simpl. destruct (sn_deal_state tc w) as [[[st|]|e|] w1]; simpl; try done.
  destruct (ds_funded st && ds_opened st && negb (ds_disputed st)) eqn:Eo; simpl.
  { split; [done|]. exists st. destruct (ds_funded st), (ds_opened st), (ds_disputed st); done. }
  destruct (unopened_cleanup_decision st (sn_now w1)) as [[]|]; simpl; try done.
  pose proof (cleanup_refusal_closes s w1 Hs).
  destruct (recover_cleanup_unopened tc lifetime true (s, w1)) as [[[| |]|] x']; done.
Qed.
Lemma ensure_closed : keeps_closed (ensure_open_for_serving (W := W) tc lifetime).
Proof.
  intros s w Hs.
  assert (Hq : closed_ok (if ss_settled s then s else close_local_api s)).
  { destruct (ss_settled s) eqn:E; [done|]. unfold closed_ok in *; simpl. tauto. }
  unfold ensure_open_for_serving, fail_closed_unopened_before_serving, fail_closed_before_serving.
  unfold_handler. simpl. destruct (sn_deal_state tc w) as [[[st|]|e|] w1]; simpl; try done.
  destruct (ds_funded st && ds_opened st && negb (ds_disputed st)) eqn:Eo; simpl; [done|].
  destruct (unopened_cleanup_decision st (sn_now w1)) as [[]|]; simpl; try done.
  pose proof (cleanup_closed true s w1 Hs).
  destruct (recover_cleanup_unopened tc lifetime true (s, w1)) as [[[| |]|] x']; done.
Qed.
Lemma step_closed c s w : closed_ok s -> closed_ok (fst (session_step tc note policy lifetime c (s, w))).
Proof.
  intros Hs. destruct c as [| | |hb|hb|hb| | | | | |n]; simpl.
  - by apply settle_closed.
  - by apply exit_closed.
  - by apply bail_closed.
  - unfold settle_dead_gateway. destruct (fp_dead_gateway policy);
      [by apply timeout_closed|by apply unsupported_closed|by apply fail_closed_closed].
  - unfold settle_empty_stream. destruct (fp_empty_stream policy);
      [by apply timeout_closed|by apply unsupported_closed|by apply fail_closed_closed].
  - unfold settle_seller_stalls_mid_stream. destruct (fp_seller_stalls_mid_stream policy);
      [by apply timeout_closed|by apply dispute_closed].
  - by apply ensure_closed.
  - by apply cleanup_closed.
  - unfold close_recovery_episode, start_episode, close_for_recovery, is_episode. open_session s; check_closed.
  - open_session s; check_closed.
  - unfold mark_recovered. unfold_handler. open_session s; check_closed.
  - open_session s; check_closed.
Qed.

(** A request is served only on a deal the chain reports as open, and a refusal
    always closes the local API.  After any calls on the session, the gate before the
    response either reads a state that is funded, opened and undisputed and leaves the
    session as it was, or refuses and leaves the session closed, also when an earlier
    recovery of the monitor failed or a STOP is in doubt. *)
Theorem serving_needs_an_open_deal (calls : list (SessionCall W)) (w : W) :
  serves_or_closes (session_run tc note policy lifetime calls (session_new, w)).
Proof.
  assert (Hr : forall s w, closed_ok s -> closed_ok (fst (session_run tc note policy lifetime calls (s, w)))).
  { induction calls as [|c cs IH]; intros s v Hs; [done|]. simpl.
    pose proof (step_closed c s v Hs). destruct (session_step _ _ _ _ c (s, v)) as [s' v']. by apply IH. }
  specialize (Hr session_new w). destruct (session_run _ _ _ _ calls (session_new, w)) as [s' w'].
  apply ensure_serves, Hr. by split_and!.
Qed.
End Serving.

(** ** The implicit ends of a session, and a session on the offline market *)Open Scope Z_scope.

(** ** Sessions that write nothing *)
Section Quiet.
Context {W : Type} `{SessionChain W}.
Context (tc : TokenContract) (note : NotePubkey) (policy : BuyerApiFailurePolicy).

Definition log_of {A} (x : A * (W * list Post)) : list Post := snd (snd x).
Definition quiet {A} (lifetime : SessionLifetimePolicy) (m : prog (SessionState * (W * list Post)) A) : Prop :=
  forall s w l, log_of (snd (m (s, (w, l)))) = l.

Lemma preserve_cleanup_quiet o : quiet Preserve (recover_cleanup_unopened (W := W * list Post) tc Preserve o).
Proof. by intros s w l. Qed.
Lemma preserve_ensure_quiet : quiet Preserve (ensure_open_for_serving (W := W * list Post) tc Preserve).
Proof.
  intros s w l. unfold ensure_open_for_serving, fail_closed_unopened_before_serving, fail_closed_before_serving.
  unfold_handler. simpl. destruct (sn_deal_state tc w) as [[[st|]|e|] w1]; simpl; try done.
  destruct (ds_funded st && ds_opened st && negb (ds_disputed st)); simpl; [done|].
  by destruct (unopened_cleanup_decision st (sn_now w1)) as [[]|].
Qed.
Definition is_explicit {V} (c : SessionCall V) : bool := match c with CallSettle => true | _ => false end.
Lemma preserve_step_quiet c s w l : is_explicit c = false ->
  log_of (session_step tc note policy Preserve c (s, (w, l))) = l.
Proof.
  intros He. destruct c as [| | |hb|hb|hb| | | | | |n]; simpl; try done.
  - unfold settle_dead_gateway. by destruct (fp_dead_gateway policy).
  - unfold settle_empty_stream. by destruct (fp_empty_stream policy).
  - unfold settle_seller_stalls_mid_stream. by destruct (fp_seller_stalls_mid_stream policy).
  - apply preserve_ensure_quiet.
  - unfold mark_recovered. unfold_handler. simpl. by destruct (ss_settled s).
Qed.

(** A session whose route delivered nothing. *)
Definition undelivered (s : SessionState) : Prop := ss_route_delivery s = Some 0.
Definition is_implicit {V} (c : SessionCall V) : bool :=
  match c with CallSettleOnExit | CallRequestDropped | CallTakeReconciliation | CallMarkRecovered => true | _ => false end.
Lemma undelivered_step lifetime c s w l : undelivered s -> is_implicit c = true ->
  log_of (session_step tc note policy lifetime c (s, (w, l))) = l /\
  undelivered (fst (session_step tc note policy lifetime c (s, (w, l)))).
Proof.
  unfold undelivered. intros Hu Hi. destruct c; try done; simpl.
  - unfold settle_on_exit, veto_implicit_terminal_without_delivery, preserve_without_implicit_chain_write.
    unfold_handler. unfold implicit_terminal_lacks_delivery. destruct lifetime; simpl; [rewrite Hu|]; done.
  - unfold close_recovery_episode, start_episode, close_for_recovery, is_episode. open_session s; done.
  - unfold mark_recovered. unfold_handler. simpl. by destruct (ss_settled s).
Qed.

(** Nothing ends a deal implicitly that the buyer means to keep or never used.  A
    session that preserves its deal writes to the chain only through an explicit
    settle: no verification bail, failure policy, serving gate, monitor recovery, exit
    or drop writes.  And a session whose route delivered no token writes nothing on
    exit or on drop, under either lifetime, so no trial tick is burnt for a service
    nobody asked for. *)
Theorem implicit_ends_write_nothing (lifetime : SessionLifetimePolicy)
    (calls : list (SessionCall (W * list Post))) (s : SessionState) (w : W) :
  (forallb (fun c => negb (is_explicit c)) calls = true -> session_log tc note policy Preserve s calls w = []) /\
  (forallb is_implicit calls = true -> ss_route_delivery s = Some 0 ->
     session_log tc note policy lifetime s calls w = []).
Proof.
  unfold session_log. split.
  - assert (Hr : forall l s w, forallb (fun c => negb (is_explicit c)) calls = true ->
      log_of (session_run tc note policy Preserve calls (s, (w, l))) = l).
    { intros l. induction calls as [|c cs IH]; intros s' w' Hc; [done|]. simpl in *.
      apply andb_true_iff in Hc as [H1 H2]. apply negb_true_iff in H1.
      pose proof (preserve_step_quiet c s' w' l H1) as Hq.
      destruct (session_step _ _ _ _ c (s', (w', l))) as [s1 [w1 l1]]. unfold log_of in Hq. simpl in Hq. subst l1. by apply IH. }
    intros Hc. specialize (Hr [] s w Hc).
    destruct (session_run _ _ _ _ calls (s, (w, []))) as [s' [w' l']]. unfold log_of in Hr. simpl in Hr. by subst l'.
  - assert (Hr : forall l s w, forallb is_implicit calls = true -> undelivered s ->
      log_of (session_run tc note policy lifetime calls (s, (w, l))) = l /\
      undelivered (fst (session_run tc note policy lifetime calls (s, (w, l))))).
    { intros l. induction calls as [|c cs IH]; intros s' w' Hc Hu; [done|]. simpl in *.
      apply andb_true_iff in Hc as [H1 H2]. destruct (undelivered_step lifetime c s' w' l Hu H1) as [Hq Hu'].
      destruct (session_step _ _ _ _ c (s', (w', l))) as [s1 [w1 l1]]. unfold log_of in Hq. simpl in Hq, Hu'. subst l1. by apply IH. }
    intros Hc Hu. destruct (Hr [] s w Hc Hu) as [Hq Hu'].
    destruct (session_run _ _ _ _ calls (s, (w, []))) as [s' [w' l']]. unfold log_of in Hq. simpl in Hq, Hu'. subst l'.
    unfold drop_session, veto_implicit_terminal_without_delivery. unfold_handler. simpl.
    assert (Hz : implicit_terminal_lacks_delivery s' = true) by (unfold implicit_terminal_lacks_delivery; by rewrite Hu').
    destruct (_ || ss_recovery_submit_may_have_landed s'); simpl; [done|]. by rewrite Hz.
Qed.
End Quiet.

(** ** A STOP that failed for certain *)
#[local] Instance refusing_chain : SessionChain unit := {|
  sn_deal_state _ w := (Ok None, w);
  sn_cleanup_unopened _ w := (Err (Chain "refused"), w);
  sn_stop _ _ w := (Err (Chain "refused"), w);
  sn_stop_if_heartbeat _ _ _ w := (Err (Chain "refused"), w);
  sn_dispute _ _ w := (Err (Chain "refused"), w);
  sn_now _ := 0 |}.
(** Whether the drop retries a STOP whose failure was awaited depends on who
    awaited it: after a failed settle the drop submits nothing, as the comment on
    settle requires of every awaited failure, but after a failed STOP of a
    verification bail or of a dead-gateway recovery it submits another one. *)
Theorem awaited_failures_are_retried_on_drop (tc : TokenContract) (note : NotePubkey) :
  let log calls := session_log tc note BuyerApiFailurePolicy_default SettleOnExit session_new calls tt in
  log [CallSettle] = [mkPost KStop Failed] /\
  log [CallVerificationBail] = [mkPost KStop Failed; mkPost KStop Failed] /\
  log [CallDeadGateway (fun _ => true)] = [mkPost KStop Failed; mkPost KStop Failed].
Proof. done. Qed.

(** ** A session on the offline market *)
Section Market.
Context (consts : ProtocolConsts) (Hc : consts_typed consts).
Context (params : DobParams) (order_id_of : TokenContract -> Z).

#[local] Instance MockSessionChain : SessionChain MockWorld := {|
  sn_deal_state tc := on_mock (deal_state consts tc);
  sn_cleanup_unopened tc := on_mock (fun t => cleanup_unopened consts tc t t);
  sn_stop tc note := on_mock (fun t => stop consts tc note t t t);
  sn_stop_if_heartbeat tc note hb := stop_if_heartbeat (fun tc note => on_mock (fun t => stop consts tc note t t t)) tc note hb;
  sn_dispute tc note := on_mock (fun t => dispute tc note t t);
  sn_now := mw_now |}.

(** Leaving an open deal of the offline market settles it.  A fresh session of the
    deal's buyer that may settle on exit and either serves no consumer route or
    delivered something: its exit stops the deal, ends it with the refund the stop
    owes, records what it did, and the drop that follows writes nothing more. *)
Theorem exit_settles_the_deal (now t0 : Z) (w : ChainFiles) (tc : TokenContract) (note : NotePubkey)
    (delivered : option Z) (seller : string) (m : Match) (c : StreamCell) (s : DealSubscription) :
  consts_sane consts -> reachable consts params order_id_of now w -> life_in w tc = Live seller m c s ->
  c_disputed c = false -> note_id_hex note = note_id_hex (c_buyer_pubkey c) -> now <= t0 ->
  t0 + claim_promote_window consts <= U64_MAX -> deal_value consts c s <= U128_MAX -> delivered <> Some 0 ->
  let s0 := mkSession false false None false false false true None delivered in
  exists x w' s' c' sub',
    settle_on_exit tc note SettleOnExit (s0, mkMockWorld w t0) = (Some (Ok true), (s', mkMockWorld w' t0)) /\
    ss_settled s' = true /\ ss_closed s' = true /\ ss_terminal_action s' = Some (from_stop_settlement x) /\
    life_in w' tc = Ended seller m c' sub' /\ stop_result consts c s t0 t0 x c' sub' /\
    drop_session tc note SettleOnExit (s', mkMockWorld w' t0) = (Some (Ok tt), (s', mkMockWorld w' t0)).
Proof.
  intros Hsane Hr Hl Hd Hn Ht Hw Hv Hdel s0.
  destruct (buyer_stop_result consts Hc now t0 t0 t0 w tc note seller m c s) as (x & w' & c' & sub' & E & H1 & H2);
    try done; try lia; [by eapply reachable_inv|].
  unfold settle_on_exit, settle, veto_implicit_terminal_without_delivery. unfold_handler.
  assert (Hz : implicit_terminal_lacks_delivery s0 = false).
  { unfold implicit_terminal_lacks_delivery; simpl. destruct delivered as [d|]; [|done].
    destruct (Z.eqb_spec d 0); [by subst|done]. }
  simpl in *. rewrite Hz. simpl. unfold on_mock; simpl. rewrite E. simpl.
  eexists x, w', _, c', sub'. split; [reflexivity|]. simpl.
  split_and!; try done; try (by destruct (from_stop_settlement x)).
Qed.
End Market.
