(* ===== verification/Budget.v ===== *)
(** * Budget: the tokens a consumer route may still deliver
    (crates/dexdo/src/buyer/api/mod.rs, RouteReservation, SubscriptionWeeklyBudget, ApiDeal)

    The counters are atomics that concurrent requests share.  A step here is one
    atomic operation: reading the counter and computing a grant is one step, the
    compare-exchange that takes it another.  Reconciliation runs its chain calls
    first and publishes in one step under the cutover lock. *)
From Stdlib Require Import QArith.
From S2P Require Import Prelude Text Params MarketTypes Machine Backend Probe.
Open Scope Z_scope.

Record RouteReservation : Type := mkReservation { rr_granted : Z; rr_used : Z }.
(** [checked_sub ... unwrap_or(0)]. *)
Definition rr_remaining (r : RouteReservation) : Z := default 0 (checked_sub (rr_granted r) (rr_used r)).
Definition checked_used_after (delivered : Z) (r : RouteReservation) : outcome string Z :=
  match checked_add U64_MAX (rr_used r) delivered with
  | Some used => if used <=? rr_granted r then Ok used
                 else Err "accepted output does not fit the held route reservation"
  | None => Err "accepted output does not fit the held route reservation"
  end.

(** [cap_canon_to_grant]: 0 is "unset" on the wire. *)
Definition cap_canon_to_grant (canon : CanonRequest) (granted : Z) : Z * CanonRequest :=
  let granted := Z.min granted U32_MAX in
  match cq_params canon with
  | Some params =>
      let capped := if sp_max_tokens params =? 0 then granted else Z.min (sp_max_tokens params) granted in
      (capped, mkRequest (cq_messages canon)
         (Some (mkParams (sp_temperature params) capped (sp_stop params) (sp_greedy params))))
  | None => (granted, mkRequest (cq_messages canon) (Some (mkParams 0%Q granted [] false)))
  end.

(** ** The weekly allowance *)
Record WeeklyBudget : Type := mkWeekly {
  wb_claim_anchor : Z;
  wb_anchored_before_probe : bool;
  wb_terminal : bool;
  wb_published_week : Z;
  wb_published_week_expires_at : Z
}.
Definition weekly_new (state : DealChainState) (sub : DealSubscription) : WeeklyBudget :=
  mkWeekly (ds_tokens_pending state) (negb (ds_probe_accepted state)) (term_is_over sub) (week_index sub)
    (recorded_week_expires_at sub).
Definition set_terminal (w : WeeklyBudget) : WeeklyBudget :=
  mkWeekly (wb_claim_anchor w) (wb_anchored_before_probe w) true (wb_published_week w) (wb_published_week_expires_at w).
Definition local_ceiling (sn : DealChainSnapshot) (anchor : Z) : outcome string Z :=
  let* cap := subscription_claim_cap_at (sn_state sn) (sn_subscription sn) in
  let* local := ok_or (checked_sub cap anchor) "claim ceiling is below the anchor of the route" in
  if local <=? U64_MAX then Ok local else Err "claim ceiling does not fit the route's counter".
Definition published_week_ran_out (now : Z) (w : WeeklyBudget) : bool := wb_published_week_expires_at w <=? now.

(** ** The counters of a deal *)
Record ApiDeal : Type := mkApiDeal {
  ad_delivered_tokens : Z;
  ad_reserved_tokens : Z;
  ad_token_ceiling : Z;
  ad_weekly : option WeeklyBudget
}.
Definition api_deal_new (max_tokens : Z) : ApiDeal := mkApiDeal 0 0 max_tokens None.
Definition with_weekly_budget (w : WeeklyBudget) (d : ApiDeal) : ApiDeal :=
  mkApiDeal (ad_delivered_tokens d) (ad_reserved_tokens d) (ad_token_ceiling d) (Some w).
Definition set_reserved (v : Z) (d : ApiDeal) : ApiDeal :=
  mkApiDeal (ad_delivered_tokens d) v (ad_token_ceiling d) (ad_weekly d).
Definition set_delivered (v : Z) (d : ApiDeal) : ApiDeal :=
  mkApiDeal v (ad_reserved_tokens d) (ad_token_ceiling d) (ad_weekly d).
Definition set_weekly (w : WeeklyBudget) (d : ApiDeal) : ApiDeal := with_weekly_budget w d.

Definition admission_ceiling (d : ApiDeal) : Z :=
  match ad_weekly d with
  | Some w => if wb_anchored_before_probe w then TICK_SIZE else ad_token_ceiling d
  | None => ad_token_ceiling d
  end.
Definition remaining_tokens (d : ApiDeal) : Z :=
  if match ad_weekly d with Some w => wb_terminal w | None => false end then 0
  else saturating_sub (admission_ceiling d) (ad_reserved_tokens d).

(** One turn of the loop of [try_reserve]: the grant computed from the observed
    counters, and the compare-exchange that takes it. *)
Definition grant_of (ceiling reserved floor : Z) (asked : option Z) : option Z :=
  let free := saturating_sub ceiling reserved in
  let granted := match asked with
    | Some asked => Z.min (saturating_add U64_MAX asked floor) free
    | None => free
    end in
  if granted <=? floor then None else Some granted.
Definition compare_exchange (observed granted : Z) (d : ApiDeal) : option (RouteReservation * ApiDeal) :=
  if ad_reserved_tokens d =? observed
  then Some (mkReservation granted 0, set_reserved (saturating_add U64_MAX observed granted) d)
  else None.
(** [try_reserve] that nobody races. *)
Definition try_reserve (floor : Z) (asked : option Z) (d : ApiDeal) : option (RouteReservation * ApiDeal) :=
  match grant_of (admission_ceiling d) (ad_reserved_tokens d) floor asked with
  | Some granted => compare_exchange (ad_reserved_tokens d) granted d
  | None => None
  end.
(** [Drop]: [fetch_sub] wraps. *)
Definition release_reservation (r : RouteReservation) (d : ApiDeal) : ApiDeal :=
  set_reserved ((ad_reserved_tokens d - rr_remaining r) mod (U64_MAX + 1)) d.

Definition deal_record_delivered (n : Z) (d : ApiDeal) : outcome string ApiDeal :=
  match checked_add U64_MAX (ad_delivered_tokens d) n with
  | Some next => if next <=? ad_token_ceiling d then Ok (set_delivered next d)
                 else Err "accepted output would raise cumulative delivery above the published route ceiling"
  | None => Err "cumulative delivered-token accounting overflow"
  end.
Definition guard_record_delivered (n : Z) (held : option RouteReservation) (d : ApiDeal)
    : outcome string (RouteReservation * ApiDeal) :=
  let* r := ok_or held "accepted output has no admitted route reservation" in
  let* next_used := checked_used_after n r in
  let* d' := deal_record_delivered n d in
  Ok (mkReservation (rr_granted r) next_used, d').

(** ** Reconciliation *)
Definition rebase_anchor_on_probe (state : DealChainState) (delivered : Z) (w : WeeklyBudget)
    : outcome string (option Z) :=
  if negb (ds_probe_accepted state) || negb (wb_anchored_before_probe w) then Ok None
  else let* anchor := ok_or (checked_sub TICK_SIZE delivered)
         "the route delivered above the one-tick probe claim; refusing contradictory state" in
       Ok (Some anchor).
(** The ceiling, the week and its expiry; the anchor moves before them, the flag after. *)
Definition publish (week expires_at ceiling : Z) (rebased : option Z) (w : WeeklyBudget) (d : ApiDeal) : ApiDeal :=
  mkApiDeal (ad_delivered_tokens d) (ad_reserved_tokens d) ceiling
    (Some (mkWeekly (default (wb_claim_anchor w) rebased)
             (match rebased with Some _ => false | None => wb_anchored_before_probe w end)
             (wb_terminal w) week expires_at)).
(** The state after a failure between the move of the anchor and the publication. *)
Definition moved_anchor (rebased : option Z) (w : WeeklyBudget) (d : ApiDeal) : ApiDeal :=
  set_weekly (mkWeekly (default (wb_claim_anchor w) rebased) (wb_anchored_before_probe w) (wb_terminal w)
    (wb_published_week w) (wb_published_week_expires_at w)) d.

(** Everything after the two chain calls. *)
Definition reconcile_with (booked : bool) (read : outcome ChainError (option DealChainSnapshot)) (now : Z)
    (w : WeeklyBudget) (d : ApiDeal) : outcome string unit * ApiDeal :=
  match read with
  | Panic => (Panic, d)
  | Err _ => (Err "authoritative weekly state is unreadable", d)
  | Ok None => (Err "no coherent snapshot", d)
  | Ok (Some sn) =>
      let state := sn_state sn in
      let sub := sn_subscription sn in
      if negb (is_subscription sub) then (Err "not a subscription", d)
      else if ds_disputed state || is_stopped state then (Err "disputed or stopped", set_weekly (set_terminal w) d)
      else if term_is_over sub then (Err "the full term was served", set_weekly (set_terminal w) d)
      else if negb (ds_opened state) then (Err "not open", d)
      else
        let week := week_index sub in
        let expires_at := recorded_week_expires_at sub in
        let republished := negb (wb_published_week w =? week) in
        if booked && negb republished then (Err "the read lags the booking", d)
        else if negb republished && (expires_at <=? now) then (Err "the recorded week ended", d)
        else
          match rebase_anchor_on_probe state (ad_delivered_tokens d) w with
          | Err e => (Err e, d)
          | Panic => (Panic, d)
          | Ok rebased =>
              match (if republished || bool_decide (is_Some rebased)
                     then local_ceiling sn (default (wb_claim_anchor w) rebased)
                     else Ok (ad_token_ceiling d)) with
              | Err e => (Err e, moved_anchor rebased w d)
              | Panic => (Panic, moved_anchor rebased w d)
              | Ok ceiling =>
                  (if ceiling <=? ad_delivered_tokens d then Err "the week is drawn down" else Ok tt,
                   publish week expires_at ceiling rebased w d)
              end
          end
  end.
Arguments reconcile_with : simpl never.

(** ** Admission *)
Section Admission.
Context {W : Type} `{ChainBackend W} `{Clock W}.
Context (token_contract : TokenContract).

(** [reconcile]: book the boundary, read the state, publish. *)
Definition reconcile (w : WeeklyBudget) (d : ApiDeal) : prog W (outcome string unit * ApiDeal) :=
  if wb_terminal w then ret (Err "the subscription is terminal", d)
  else
    let! booking := attempt (cb_settle_week token_contract) in
    let! read := attempt (cb_deal_snapshot token_contract) in
    let! now := get (fun x => (clock_now x, x)) in
    ret (reconcile_with (match booking with Ok _ => true | _ => false end) read now w d).

Inductive RouteBudget : Type := Granted (r : RouteReservation) | Exhausted (reason : string).
Definition exhausted_reason (floor : Z) : string :=
  if 0 <? floor then "what is left cannot pay for the identity verification and an answer"
  else "active deal budget exhausted; waiting for renewal handover".
Definition reserve_or_exhausted (floor : Z) (want : option Z) (d : ApiDeal) : RouteBudget * ApiDeal :=
  match try_reserve floor want d with
  | Some (r, d') => (Granted r, d')
  | None => (Exhausted (exhausted_reason floor), d)
  end.
Definition fast_path (now : Z) (w : WeeklyBudget) (d : ApiDeal) : bool :=
  (0 <? remaining_tokens d) && negb (published_week_ran_out now w) && negb (wb_anchored_before_probe w).
(** [admit], for a request that nobody races; [floor] is what the content gate still
    owes.  The clock is read again under the refresh lock. *)
Definition admit_request (requested : option Z) (floor : Z) (d : ApiDeal) : prog W (RouteBudget * ApiDeal) :=
  let want := match requested with Some n => if 0 <? n then Some n else None | None => None end in
  match ad_weekly d with
  | None => ret (reserve_or_exhausted floor want d)
  | Some w =>
      if wb_terminal w then ret (Exhausted "the subscription is terminal", d)
      else
        let! now := get (fun x => (clock_now x, x)) in
        match (if fast_path now w d then try_reserve floor want d else None) with
        | Some (r, d') => ret (Granted r, d')
        | None =>
            let! now' := get (fun x => (clock_now x, x)) in
            if fast_path now' w d then ret (reserve_or_exhausted floor want d)
            else
              let! '(r, d') := reconcile w d in
              match r with
              | Ok _ => ret (reserve_or_exhausted floor want d')
              | Err reason => ret (Exhausted reason, d')
              | Panic => panic
              end
        end
  end.
End Admission.
