(* ===== verification/BudgetSafety.v ===== *)
(** * BudgetSafety: what concurrent requests on one route may be promised and deliver *)
From S2P Require Import Prelude Text Params MarketTypes Machine Backend Probe Budget.
Open Scope Z_scope.

(** ** Interleavings

    An attempt has read the counters and computed its grant; a request holds a
    reservation, with the verification debt it was admitted under.  [rt_seen] are
    the snapshots the route was built or reconciled on. *)
Record TakeAttempt : Type := mkTakeAttempt { at_observed : Z; at_granted : Z; at_floor : Z }.
Record Held : Type := mkHeld { h_reservation : RouteReservation; h_floor : Z }.
Record Route : Type := mkRoute {
  rt_deal : ApiDeal;
  rt_attempts : list TakeAttempt;
  rt_requests : list Held;
  rt_seen : list (DealChainState * DealSubscription)
}.
Definition route_new (d : ApiDeal) (seen : list (DealChainState * DealSubscription)) : Route := mkRoute d [] [] seen.

Inductive route_step : Route -> Route -> Prop :=
| step_observe d att req seen asked floor granted :
    0 <= floor -> (forall a, asked = Some a -> 0 <= a) ->
    grant_of (admission_ceiling d) (ad_reserved_tokens d) floor asked = Some granted ->
    route_step (mkRoute d att req seen)
      (mkRoute d (mkTakeAttempt (ad_reserved_tokens d) granted floor :: att) req seen)
| step_commit d att1 a att2 req seen r d' :
    compare_exchange (at_observed a) (at_granted a) d = Some (r, d') ->
    route_step (mkRoute d (att1 ++ a :: att2) req seen)
      (mkRoute d' (att1 ++ att2) (mkHeld r (at_floor a) :: req) seen)
| step_lost d att1 a att2 req seen :
    compare_exchange (at_observed a) (at_granted a) d = None ->
    route_step (mkRoute d (att1 ++ a :: att2) req seen) (mkRoute d (att1 ++ att2) req seen)
| step_deliver d att req1 h req2 seen n r' d' :
    0 <= n -> guard_record_delivered n (Some (h_reservation h)) d = Ok (r', d') ->
    route_step (mkRoute d att (req1 ++ h :: req2) seen)
      (mkRoute d' att (req1 ++ mkHeld r' (h_floor h) :: req2) seen)
| step_drop d att req1 h req2 seen :
    route_step (mkRoute d att (req1 ++ h :: req2) seen)
      (mkRoute (release_reservation (h_reservation h) d) att (req1 ++ req2) seen)
| step_reconcile d att req seen w booked sn now r d' :
    ad_weekly d = Some w -> reconcile_with booked (Ok (Some sn)) now w d = (r, d') ->
    route_step (mkRoute d att req seen) (mkRoute d' att req ((sn_state sn, sn_subscription sn) :: seen)).
Definition route_run : Route -> Route -> Prop := rtc route_step.

Definition promised (req : list Held) : Z := foldr (fun h n => rr_remaining (h_reservation h) + n) 0 req.
Lemma promised_app l1 l2 : promised (l1 ++ l2) = promised l1 + promised l2.
Proof. unfold promised. induction l1 as [|h l1 IH]; simpl; [lia|]. rewrite IH. lia. Qed.

(** ** The counters *)
Definition held_ok (bound : Z) (h : Held) : Prop :=
  let r := h_reservation h in 0 <= rr_used r <= rr_granted r /\ 0 <= h_floor h < rr_granted r /\ rr_granted r <= bound.
Definition attempt_ok (bound : Z) (a : TakeAttempt) : Prop :=
  0 <= at_floor a < at_granted a /\ 0 <= at_observed a /\ at_observed a + at_granted a <= bound.
Record counters_ok (bound : Z) (x : Route) : Prop := {
  co_attempts : Forall (attempt_ok bound) (rt_attempts x);
  co_held : Forall (held_ok bound) (rt_requests x);
  co_delivered : 0 <= ad_delivered_tokens (rt_deal x);
  co_reserved : ad_reserved_tokens (rt_deal x) = ad_delivered_tokens (rt_deal x) + promised (rt_requests x);
  co_bound : ad_reserved_tokens (rt_deal x) <= bound
}.

Lemma remaining_value r : 0 <= rr_used r <= rr_granted r -> rr_remaining r = rr_granted r - rr_used r.
Proof. intros H. unfold rr_remaining, checked_sub. by rewrite (proj2 (Z.leb_le _ _)) by lia. Qed.
Lemma promised_nonneg bound req : Forall (held_ok bound) req -> 0 <= promised req.
Proof.
  induction 1 as [|h req [Hh _] _ IH]; simpl; [done|]. rewrite remaining_value by done. lia.
Qed.
Lemma grant_of_some ceiling reserved floor asked granted :
  0 <= floor -> (forall a, asked = Some a -> 0 <= a) ->
  grant_of ceiling reserved floor asked = Some granted -> floor < granted <= ceiling - reserved.
Proof.
  intros Hf Ha. unfold grant_of, saturating_sub, saturating_add. intros H. case_match eqn:E; [done|]. simplify_eq.
  apply Z.leb_gt in E. destruct asked as [a|]; lia.
Qed.
Lemma exchange_some observed granted d r d' : compare_exchange observed granted d = Some (r, d') ->
  observed = ad_reserved_tokens d /\ r = mkReservation granted 0 /\
  d' = set_reserved (saturating_add U64_MAX observed granted) d.
Proof. unfold compare_exchange. destruct (Z.eqb_spec (ad_reserved_tokens d) observed); naive_solver. Qed.
Lemma deliver_ok n r d r' d' : 0 <= n -> guard_record_delivered n (Some r) d = Ok (r', d') ->
  r' = mkReservation (rr_granted r) (rr_used r + n) /\ rr_used r + n <= rr_granted r /\
  d' = set_delivered (ad_delivered_tokens d + n) d /\ ad_delivered_tokens d + n <= ad_token_ceiling d.
Proof.
  intros Hn. unfold guard_record_delivered, checked_used_after, deal_record_delivered. simpl.
  destruct (checked_add U64_MAX (rr_used r) n) as [u|] eqn:Eu; [|done]. apply checked_add_some in Eu as [-> _].
  destruct (Z.leb_spec (rr_used r + n) (rr_granted r)); [|done]. simpl.
  destruct (checked_add U64_MAX (ad_delivered_tokens d) n) as [v|] eqn:Ev; [|done]. apply checked_add_some in Ev as [-> _].
  destruct (Z.leb_spec (ad_delivered_tokens d + n) (ad_token_ceiling d)); [|done]. simpl. naive_solver.
Qed.
Lemma deliver_succeeds bound n h d att req1 req2 seen : bound <= U64_MAX -> bound <= ad_token_ceiling d ->
  counters_ok bound (mkRoute d att (req1 ++ h :: req2) seen) -> 0 <= n <= rr_remaining (h_reservation h) ->
  exists r' d', guard_record_delivered n (Some (h_reservation h)) d = Ok (r', d').
Proof.
  intros Hb Hc [_ Hh Hd Hr Hbd] Hn. simpl in *. apply Forall_app in Hh as [Hh1 Hh]. apply Forall_cons in Hh as [(Hu & Hf & Hg) Hh2].
  rewrite remaining_value in Hn by done. rewrite promised_app in Hr. simpl in Hr.
  rewrite remaining_value in Hr by done. pose proof (promised_nonneg _ _ Hh1). pose proof (promised_nonneg _ _ Hh2).
  unfold guard_record_delivered, checked_used_after, deal_record_delivered, checked_add. simpl.
  repeat (rewrite (proj2 (Z.leb_le _ _)) by lia; simpl). by eexists _, _.
Qed.

Lemma reconcile_frame booked read now w d r d' : reconcile_with booked read now w d = (r, d') ->
  ad_delivered_tokens d' = ad_delivered_tokens d /\ ad_reserved_tokens d' = ad_reserved_tokens d.
Proof. unfold reconcile_with. intros H. repeat (case_match; simplify_eq/=); done. Qed.

(** Every step but a reconciliation keeps the counters under any bound that the
    admission ceiling respects. *)
Lemma counters_step bound x y : route_step x y -> bound <= U64_MAX ->
  (rt_seen x = rt_seen y -> admission_ceiling (rt_deal x) <= bound) ->
  counters_ok bound x -> counters_ok bound y.
Proof.
  intros Hs Hb Hc [Ha Hh Hd Hr Hbd]. destruct Hs; simpl in *.
  - apply grant_of_some in H1; [|done|done]. pose proof (promised_nonneg _ _ Hh). specialize (Hc eq_refl).
    split; simpl; try done. constructor; [|done]. unfold attempt_ok; simpl. lia.
  - apply exchange_some in H as (Eo & -> & ->). apply Forall_app in Ha as [Ha1 Ha]. apply Forall_cons in Ha as [Ha Ha2].
    destruct Ha as (A1 & A2 & A3). split; simpl; try done.
    + by apply Forall_app.
    + constructor; [|done]. unfold held_ok; simpl. lia.
    + unfold saturating_add. rewrite remaining_value by (simpl; lia). simpl. lia.
    + unfold saturating_add. lia.
  - apply Forall_app in Ha as [Ha1 Ha]. apply Forall_cons in Ha as [Ha Ha2]. split; simpl; try done. by apply Forall_app.
  - apply deliver_ok in H0 as (-> & Hu & -> & Hce); [|done]. apply Forall_app in Hh as [Hh1 Hh].
    apply Forall_cons in Hh as [(H1 & H2 & H3) Hh2]. split; simpl; try done; try lia.
    + apply Forall_app; split; [done|]. constructor; [|done]. unfold held_ok; simpl. lia.
    + rewrite promised_app in *. simpl in *. rewrite remaining_value in * by (simpl; lia). simpl in *. lia.
  - apply Forall_app in Hh as [Hh1 Hh]. apply Forall_cons in Hh as [(H1 & H2 & H3) Hh2].
    rewrite promised_app in Hr. simpl in Hr. rewrite remaining_value in Hr by lia.
    pose proof (promised_nonneg _ _ Hh1). pose proof (promised_nonneg _ _ Hh2).
    assert (E : (ad_reserved_tokens d - rr_remaining (h_reservation h)) mod (U64_MAX + 1) =
      ad_delivered_tokens d + promised (req1 ++ req2)).
    { rewrite remaining_value by lia. rewrite promised_app. rewrite Z.mod_small by lia. lia. }
    split; simpl; try done; unfold release_reservation, set_reserved; simpl; rewrite ?E; try done.
    + by apply Forall_app.
    + rewrite promised_app. lia.
  - apply reconcile_frame in H0 as (E1 & E2). split; simpl; rewrite ?E1, ?E2; done.
Qed.

(** ** An ordinary deal *)
Lemma ordinary_step x y : route_step x y -> ad_weekly (rt_deal x) = None ->
  ad_weekly (rt_deal y) = None /\ ad_token_ceiling (rt_deal y) = ad_token_ceiling (rt_deal x).
Proof.
  intros Hs Hw. destruct Hs; simpl in *; try done.
  - by apply exchange_some in H as (_ & _ & ->).
  - apply deliver_ok in H0 as (_ & _ & -> & _); [|done]. done.
  - congruence.
Qed.
Lemma ordinary_run max_tokens x : 0 <= max_tokens <= U64_MAX ->
  route_run (route_new (api_deal_new max_tokens) []) x ->
  counters_ok max_tokens x /\ ad_weekly (rt_deal x) = None /\ ad_token_ceiling (rt_deal x) = max_tokens.
Proof.
  intros Hm. revert x. refine (rtc_ind_r _ _ _ _).
  - split; [|done]. split; simpl; try done; constructor || lia.
  - intros y z _ Hs (Hc & Hw & Ht). destruct (ordinary_step y z Hs Hw) as [Hw' Ht']. split_and!; [|done|congruence].
    eapply counters_step; [done|lia| |done]. intros _. unfold admission_ceiling. rewrite Hw. lia.
Qed.

(** C27: no token of a route is promised twice, and every promise can be kept.
    Whatever concurrent requests do between reading the counters and taking their
    grants, on an ordinary deal: what was delivered and what is still promised add up
    to the reserved counter and stay within the deal's budget; every grant exceeds the
    identity verification it was admitted to pay for; and output within a grant is
    always accepted, so no admitted request is refused for what another one took. *)
Theorem route_grants_are_deliverable (max_tokens : Z) (x : Route) :
  0 <= max_tokens <= U64_MAX -> route_run (route_new (api_deal_new max_tokens) []) x ->
  ad_delivered_tokens (rt_deal x) + promised (rt_requests x) = ad_reserved_tokens (rt_deal x) /\
  ad_reserved_tokens (rt_deal x) <= max_tokens /\
  forall h, h ∈ rt_requests x ->
    h_floor h < rr_granted (h_reservation h) /\
    forall n, 0 <= n <= rr_remaining (h_reservation h) ->
      exists r' d', guard_record_delivered n (Some (h_reservation h)) (rt_deal x) = Ok (r', d') /\
        rr_remaining r' = rr_remaining (h_reservation h) - n.
Proof.
  intros Hm Hr. destruct (ordinary_run max_tokens x Hm Hr) as (Hc & _ & Ht). pose proof Hc as [_ Hh _ Hre Hb].
  split_and!; [lia|done|]. intros h Hin. destruct (proj1 (Forall_forall _ _) Hh h Hin) as (H1 & H2 & H3).
  split; [lia|]. intros n Hn. destruct x as [d att req seen]. simpl in *.
  apply list_elem_of_split in Hin as (req1 & req2 & ->).
  destruct (deliver_succeeds max_tokens n h d att req1 req2 seen) as (r' & d' & E); [lia|lia|done|done|].
  exists r', d'. split; [done|]. apply deliver_ok in E as (-> & Hu & _); [|lia].
  rewrite !remaining_value by (simpl; lia). simpl. lia.
Qed.

(** ** A subscription *)
Definition measured (seen : list (DealChainState * DealSubscription)) (anchor ceiling : Z) : Prop :=
  exists st sub, (st, sub) ∈ seen /\ subscription_claim_cap_at st sub = Ok (anchor + ceiling).
Lemma local_ceiling_ok sn anchor ceiling : local_ceiling sn anchor = Ok ceiling ->
  subscription_claim_cap_at (sn_state sn) (sn_subscription sn) = Ok (anchor + ceiling) /\ 0 <= ceiling <= U64_MAX.
Proof.
  unfold local_ceiling. destruct (subscription_claim_cap_at _ _) as [cap| |]; simpl; try done.
  destruct (checked_sub cap anchor) as [l|] eqn:E; simpl; [|done]. apply checked_sub_some in E as [-> ?].
  destruct (Z.leb_spec (cap - anchor) U64_MAX); [|done]. intros [= <-]. split; [f_equal; lia|lia].
Qed.
Lemma reconcile_weekly booked sn now w d r d' : ad_weekly d = Some w ->
  reconcile_with booked (Ok (Some sn)) now w d = (r, d') ->
  exists w', ad_weekly d' = Some w' /\
    (0 <= ad_token_ceiling d <= U64_MAX -> 0 <= ad_token_ceiling d' <= U64_MAX) /\
    (wb_anchored_before_probe w' = true -> wb_anchored_before_probe w = true) /\
    (wb_anchored_before_probe w' = false ->
       (wb_anchored_before_probe w = false /\ wb_claim_anchor w' = wb_claim_anchor w /\
        ad_token_ceiling d' = ad_token_ceiling d) \/
       subscription_claim_cap_at (sn_state sn) (sn_subscription sn) = Ok (wb_claim_anchor w' + ad_token_ceiling d')).
Proof.
  intros Hw. unfold reconcile_with.
  assert (Hsame : exists w', ad_weekly d = Some w' /\
    (0 <= ad_token_ceiling d <= U64_MAX -> 0 <= ad_token_ceiling d <= U64_MAX) /\
    (wb_anchored_before_probe w' = true -> wb_anchored_before_probe w = true) /\
    (wb_anchored_before_probe w' = false ->
       (wb_anchored_before_probe w = false /\ wb_claim_anchor w' = wb_claim_anchor w /\
        ad_token_ceiling d = ad_token_ceiling d) \/
       subscription_claim_cap_at (sn_state sn) (sn_subscription sn) = Ok (wb_claim_anchor w' + ad_token_ceiling d)))
    by (exists w; tauto).
  destruct (negb (is_subscription _)); [by intros [= <- <-]|].
  destruct (ds_disputed _ || is_stopped _); [intros [= <- <-]; simpl; eexists; split; [done|]; simpl; tauto|].
  destruct (term_is_over _); [intros [= <- <-]; simpl; eexists; split; [done|]; simpl; tauto|].
  destruct (negb (ds_opened _)); [by intros [= <- <-]|].
  destruct (booked && _); [by intros [= <- <-]|].
  destruct (_ && (_ <=? now)); [by intros [= <- <-]|]. clear Hsame.
  unfold rebase_anchor_on_probe. destruct (negb (ds_probe_accepted _) || negb (wb_anchored_before_probe w)) eqn:Ep.
  - destruct (negb (wb_published_week w =? _) || _).
    + destruct (local_ceiling _ _) as [c|e|] eqn:El; simpl; intros [= <- <-]; simpl; eexists; (split; [done|]); simpl; try tauto.
      apply local_ceiling_ok in El as [El ?]. tauto.
    + intros [= <- <-]; simpl; eexists; split; [done|]; simpl; tauto.
  - apply orb_false_iff in Ep as [_ Ep]. apply negb_false_iff in Ep.
    destruct (checked_sub TICK_SIZE (ad_delivered_tokens d)) as [a|]; simpl; [|intros [= <- <-]; exists w; tauto].
    rewrite orb_true_r.
    destruct (local_ceiling _ _) as [c|e|] eqn:El; simpl; intros [= <- <-]; simpl; eexists; (split; [done|]); simpl; try tauto.
    { apply local_ceiling_ok in El as [El ?]. tauto. }
    all: split_and!; [done|done|congruence].
Qed.

Record weekly_ok (x : Route) (w : WeeklyBudget) : Prop := {
  wo_weekly : ad_weekly (rt_deal x) = Some w;
  wo_ceiling : 0 <= ad_token_ceiling (rt_deal x) <= U64_MAX;
  wo_counters : counters_ok (if wb_anchored_before_probe w then TICK_SIZE else U64_MAX) x;
  wo_measured : wb_anchored_before_probe w = false ->
    measured (rt_seen x) (wb_claim_anchor w) (ad_token_ceiling (rt_deal x))
}.
Lemma counters_weaken b b' x : b <= b' -> counters_ok b x -> counters_ok b' x.
Proof.
  intros Hb [Ha Hh Hd Hr Hbd]. split; try done; [| |lia].
  - eapply Forall_impl; [done|]. unfold attempt_ok. intros. lia.
  - eapply Forall_impl; [done|]. unfold held_ok. intros. lia.
Qed.
(** Outside reconciliation the weekly state and the ceiling do not move. *)
Lemma weekly_frame x y : route_step x y -> rt_seen x = rt_seen y ->
  ad_weekly (rt_deal y) = ad_weekly (rt_deal x) /\ ad_token_ceiling (rt_deal y) = ad_token_ceiling (rt_deal x).
Proof.
  intros Hs He. destruct Hs; simpl in *; try done.
  - by apply exchange_some in H as (_ & _ & ->).
  - by apply deliver_ok in H0 as (_ & _ & -> & _).
  - exfalso. apply (f_equal length) in He. simpl in He. lia.
Qed.
Lemma seen_grows x y : route_step x y -> rt_seen y = rt_seen x \/
  exists d att req seen w booked sn now r d', x = mkRoute d att req seen /\ ad_weekly d = Some w /\
    reconcile_with booked (Ok (Some sn)) now w d = (r, d') /\
    y = mkRoute d' att req ((sn_state sn, sn_subscription sn) :: seen).
Proof. destruct 1; simpl; eauto. right. do 10 eexists. eauto. Qed.

Lemma weekly_step x y w : route_step x y -> weekly_ok x w -> exists w', weekly_ok y w'.
Proof.
  intros Hs [Hw Hce Hc Hm]. pose proof Hs as Hs'.
  destruct (seen_grows _ _ Hs) as [E|(d & att & req & seen & w0 & booked & sn & now & r & d' & -> & Hw0 & Er & ->)].
  - destruct (weekly_frame _ _ Hs (eq_sym E)) as [E1 E2]. exists w. split; rewrite ?E1, ?E2, ?E; try done.
    eapply counters_step; [done| | |done].
    + by destruct (wb_anchored_before_probe w).
    + intros _. unfold admission_ceiling. rewrite Hw. destruct (wb_anchored_before_probe w); lia.
  - simpl in Hw. rewrite Hw in Hw0. injection Hw0 as <-.
    destruct (reconcile_weekly _ _ _ _ _ _ _ Hw Er) as (w' & Hw' & Hc' & Ht & Hf).
    destruct (reconcile_frame _ _ _ _ _ _ _ Er) as [F1 F2]. exists w'. split; simpl; [done|auto| |].
    + assert (counters_ok (if wb_anchored_before_probe w then TICK_SIZE else U64_MAX)
        (mkRoute d' att req ((sn_state sn, sn_subscription sn) :: seen))) as Hn.
      { destruct Hc as [A1 A2 A3 A4 A5]. split; simpl in *; rewrite ?F1, ?F2; done. }
      destruct (wb_anchored_before_probe w'); [by rewrite (Ht eq_refl) in Hn|].
      eapply counters_weaken; [|done]. by destruct (wb_anchored_before_probe w).
    + intros Hff. destruct (Hf Hff) as [(H1 & H2 & H3)|H1].
      * rewrite H2, H3. destruct (Hm H1) as (st & sub & Hin & Hcap). exists st, sub. split; [by right|done].
      * eexists _, _. split; [by left|done].
Qed.

(** A subscription route serves what the contract would pay for.  Built on a
    snapshot with the headroom it reports, and through any interleaving of requests
    and reconciliations: until the trial tick's acceptance is accounted for, at most one
    tick is promised or delivered, so the rebase onto the acceptance never finds
    contradictory counters; from then on the local ceiling is exactly the claim cap of a
    snapshot that was read minus the route's anchor, and every accepted chunk keeps the
    cumulative consumption within that cap. *)
Theorem weekly_route_stays_within_the_claim_cap (st : DealChainState) (sub : DealSubscription)
    (max_tokens : Z) (x : Route) :
  subscription_current_week_headroom st sub = Ok max_tokens -> max_tokens <= U64_MAX ->
  route_run (route_new (with_weekly_budget (weekly_new st sub) (api_deal_new max_tokens)) [(st, sub)]) x ->
  exists w, ad_weekly (rt_deal x) = Some w /\
    (wb_anchored_before_probe w = true ->
       ad_delivered_tokens (rt_deal x) <= ad_reserved_tokens (rt_deal x) <= TICK_SIZE /\
       forall state, is_ok (rebase_anchor_on_probe state (ad_delivered_tokens (rt_deal x)) w)) /\
    (wb_anchored_before_probe w = false ->
       exists st' sub' cap, (st', sub') ∈ rt_seen x /\ subscription_claim_cap_at st' sub' = Ok cap /\
         wb_claim_anchor w + ad_token_ceiling (rt_deal x) = cap /\
         forall n held r' d', 0 <= n -> guard_record_delivered n held (rt_deal x) = Ok (r', d') ->
           wb_claim_anchor w + ad_delivered_tokens d' <= cap).
Proof.
  intros Hh Hm Hr.
  assert (Hx : exists w, weekly_ok x w).
  { revert x Hr. refine (rtc_ind_r _ _ _ _); [|intros y z _ Hs [w Hw]; by eapply weekly_step].
    unfold subscription_current_week_headroom in Hh. destruct (subscription_claim_cap_at st sub) as [cap| |] eqn:Ec; simpl in Hh; try done.
    destruct (checked_sub cap _) as [l|] eqn:El; simpl in Hh; [|done]. injection Hh as ->.
    apply checked_sub_some in El as [-> ?]. eexists. split; simpl; [done|lia| |].
    - split; simpl; try done; try constructor; try lia. by destruct (negb _).
    - intros _. exists st, sub. split; [by left|]. rewrite Ec. simpl. f_equal. lia. }
  destruct Hx as [w [Hw Hce Hc Hme]]. exists w. split; [done|]. split.
  - intros Hf. rewrite Hf in Hc. destruct Hc as [_ H2 H3 H4 H5]. pose proof (promised_nonneg _ _ H2).
    split; [lia|]. intros state. unfold rebase_anchor_on_probe.
    destruct (negb _ || _); [done|]. unfold checked_sub. by rewrite (proj2 (Z.leb_le _ _)) by lia.
  - intros Hf. destruct (Hme Hf) as (st' & sub' & Hin & Hcap). exists st', sub', (wb_claim_anchor w + ad_token_ceiling (rt_deal x)). split; [done|].
    split; [done|]. split; [done|]. intros n [r|] r' d' Hn E; [|done].
    apply deliver_ok in E as (_ & _ & -> & ?); [|done]. simpl. lia.
Qed.
