(* ===== verification/Getters.v ===== *)
(** * Getters: the strict decoders of the TokenContract getters
    (crates/core/src/market/types.rs)

    Every fact a client acts on is read through one of five decoders.  Each wants
    the exact field list of the ABI, plain decimal strings within the width of the
    field, and a shape the contract can be in.  [*_abi] is the object the contract
    reports, written from the field lists; the theorems say that the decoders
    accept exactly such objects: what they return is typed, and nothing is lost. *)
From Stdlib Require Import Ascii.
From S2P Require Import Prelude Text Params MarketTypes Json.

(** ** Field access *)

Definition object_of (v : Value) (getter : string) : outcome string (list (string * Value)) :=
  match v with VObject entries => Ok entries | _ => Err (getter +:+ " returned a non-object JSON value") end.

Definition contains_key (entries : list (string * Value)) (field : string) : bool :=
  bool_decide (is_Some (entry field entries)).

Definition getter_exact_object (value : Value) (getter : string) (expected_fields : list string)
    : outcome string (list (string * Value)) :=
  let* object := object_of value getter in
  let missing := List.filter (fun field => negb (contains_key object field)) expected_fields in
  let unexpected := List.filter (fun field => negb (bool_decide (field ∈ expected_fields))) (map fst object) in
  fail_if negb (bool_decide (missing = [])) || negb (bool_decide (unexpected = []))
          || negb (length object =? length expected_fields)%nat
    with (getter +:+ " returned other fields than expected") in
  Ok object.

Definition getter_field (value : Value) (getter field : string) : outcome string Value :=
  let* object := object_of value getter in
  ok_or (entry field object) (getter +:+ "." +:+ field +:+ " is missing").

Definition getter_bool (value : Value) (getter field : string) : outcome string bool :=
  let* raw := getter_field value getter field in
  ok_or (as_bool raw) (getter +:+ "." +:+ field +:+ " is not a bool").

(** A non-empty string of ASCII digits, so no sign reaches [str::parse]. *)
Definition getter_decimal (value : Value) (getter field : string) : outcome string text :=
  let* v := getter_field value getter field in
  let* raw := ok_or (as_str v) (getter +:+ "." +:+ field +:+ " is not a decimal string") in
  fail_if bool_decide (to_text raw = []) || negb (forallb is_digit (to_text raw))
    with (getter +:+ "." +:+ field +:+ " is not an unsigned decimal integer") in
  Ok (to_text raw).

Definition getter_uint (max : Z) (value : Value) (getter field : string) : outcome string Z :=
  let* raw := getter_decimal value getter field in
  ok_or (parse_uint max raw) (getter +:+ "." +:+ field +:+ " exceeds its width").
Definition getter_u8 := getter_uint U8_MAX.
Definition getter_u64 := getter_uint U64_MAX.
Definition getter_u128 := getter_uint U128_MAX.

(** ** getState *)

Definition GET_STATE_FIELDS : list string :=
  ["funded"; "opened"; "probeAccepted"; "disputed"; "deposit"; "probeTick"; "finalizedOwed";
   "tokensFinal"; "tokensPending"; "probeTime"; "lastClaimTime"; "disputeTime"; "fundedTime"].

Definition decode_state (value : Value) : outcome string DealChainState :=
  let GETTER := "getState()" in
  let* _ := getter_exact_object value GETTER GET_STATE_FIELDS in
  let* funded_time := getter_u64 value GETTER "fundedTime" in
  let* funded := getter_bool value GETTER "funded" in
  let* opened := getter_bool value GETTER "opened" in
  let* probe_accepted := getter_bool value GETTER "probeAccepted" in
  let* disputed := getter_bool value GETTER "disputed" in
  let* deposit := getter_u128 value GETTER "deposit" in
  let* probe_tick := getter_u128 value GETTER "probeTick" in
  let* finalized_owed := getter_u128 value GETTER "finalizedOwed" in
  let* tokens_final := getter_u128 value GETTER "tokensFinal" in
  let* tokens_pending := getter_u128 value GETTER "tokensPending" in
  let* probe_time := getter_u64 value GETTER "probeTime" in
  let* last_claim_time := getter_u64 value GETTER "lastClaimTime" in
  let* dispute_time := getter_u64 value GETTER "disputeTime" in
  fail_if tokens_pending <? tokens_final with "getState() claim pipeline is not monotonic" in
  Ok {| ds_funded := funded; ds_opened := opened; ds_probe_accepted := probe_accepted;
        ds_disputed := disputed; ds_deposit := deposit; ds_finalized_owed := finalized_owed;
        ds_tokens_final := tokens_final; ds_tokens_pending := tokens_pending;
        ds_probe_tick := probe_tick;
        ds_funded_time := if negb (funded_time =? 0) then Some funded_time else None;
        ds_probe_time := probe_time; ds_last_claim_time := last_claim_time;
        ds_dispute_time := dispute_time |}.

(** ** getSubscription *)

Definition GET_SUBSCRIPTION_FIELDS : list string :=
  ["dealFlags"; "subWeeks"; "weekIndex"; "tokensPerWeek"; "fundedTokens"; "tokensPaid";
   "periodStart"; "weekBaseTokens"].

(** The shape checks of [DealSubscription::decode_getter], after the fields. *)
Definition check_subscription (s : DealSubscription) : outcome string DealSubscription :=
  fail_if negb (Z.land (deal_flags s) (Z.lxor flags.DEAL_MASK U8_MAX) =? 0)
    with "dealFlags contains unknown deal-shape bits" in
  let subscription_flag := has_flag (deal_flags s) flags.SUBSCRIPTION in
  fail_if negb (Bool.eqb subscription_flag (negb (sub_weeks s =? 0)))
    with "contradictory subscription flag/subWeeks shape" in
  fail_if sub_weeks s <? week_index s with "weekIndex exceeds subWeeks" in
  fail_if funded_tokens s <? tokens_paid s with "tokensPaid exceeds fundedTokens" in
  fail_if funded_tokens s <? week_base_tokens s with "weekBaseTokens exceeds fundedTokens" in
  if subscription_flag then
    fail_if negb (sub_weeks s =? SUBSCRIPTION_WEEKS)
      with "subWeeks does not equal the canonical term" in
    let* expected := ok_or (u128_checked_mul (tokens_per_week s) (sub_weeks s))
                       "tokensPerWeek x subWeeks overflows uint128" in
    fail_if negb (expected =? funded_tokens s)
      with "subscription quota does not equal fundedTokens" in
    Ok s
  else
    fail_if negb (week_index s =? 0) || negb (tokens_per_week s =? funded_tokens s)
            || negb (week_base_tokens s =? 0)
      with "ordinary deal has contradictory weekly state" in
    Ok s.

Definition decode_subscription (value : Value) : outcome string DealSubscription :=
  let GETTER := "getSubscription()" in
  let* _ := getter_exact_object value GETTER GET_SUBSCRIPTION_FIELDS in
  let* deal_flags := getter_u8 value GETTER "dealFlags" in
  let* sub_weeks := getter_u8 value GETTER "subWeeks" in
  let* week_index := getter_u8 value GETTER "weekIndex" in
  let* tokens_per_week := getter_u128 value GETTER "tokensPerWeek" in
  let* funded_tokens := getter_u128 value GETTER "fundedTokens" in
  let* tokens_paid := getter_u128 value GETTER "tokensPaid" in
  let* period_start := getter_u64 value GETTER "periodStart" in
  let* week_base_tokens := getter_u128 value GETTER "weekBaseTokens" in
  check_subscription
    {| deal_flags := deal_flags; sub_weeks := sub_weeks; week_index := week_index;
       tokens_per_week := tokens_per_week; funded_tokens := funded_tokens;
       tokens_paid := tokens_paid; period_start := period_start;
       week_base_tokens := week_base_tokens |}.

(** ** getOffer, getSellerBond, getBuyerBond *)

Definition GET_OFFER_FIELDS : list string := ["offerPosted"].
Definition decode_offer (value : Value) : outcome string DealOfferLatch :=
  let GETTER := "getOffer()" in
  let* _ := getter_exact_object value GETTER GET_OFFER_FIELDS in
  let* offer_posted := getter_bool value GETTER "offerPosted" in
  Ok {| offer_posted := offer_posted |}.

Definition decode_seller_bond (value : Value) : outcome string DealSellerBond :=
  let GETTER := "getSellerBond()" in
  let* _ := getter_exact_object value GETTER ["bondFunded"; "bondHeld"; "bondRequired"] in
  let* bond_funded := getter_bool value GETTER "bondFunded" in
  let* bond_held := getter_u128 value GETTER "bondHeld" in
  let* bond_required := getter_u128 value GETTER "bondRequired" in
  Ok {| sb_bond_funded := bond_funded; sb_bond_held := bond_held; sb_bond_required := bond_required |}.

Definition decode_buyer_bond (value : Value) : outcome string DealBuyerBond :=
  let GETTER := "getBuyerBond()" in
  let* _ := getter_exact_object value GETTER ["bondHeld"; "bondRequired"] in
  let* bond_held := getter_u128 value GETTER "bondHeld" in
  let* bond_required := getter_u128 value GETTER "bondRequired" in
  Ok {| bb_bond_held := bond_held; bb_bond_required := bond_required |}.

(** ** What the contract reports

    The object behind a getter, field by field.  A number is any non-empty string
    of digits, so leading zeros are allowed; the keys come in any order. *)
Definition numeral (t : text) (n : Z) : Prop :=
  t <> [] /\ Forall (fun c => is_digit c = true) t /\ dec_value (map char_digit t) = n.
Definition reports_uint (entries : list (string * Value)) (field : string) (n : Z) : Prop :=
  exists raw, entry field entries = Some (VString raw) /\ numeral (to_text raw) n.
Definition reports_bool (entries : list (string * Value)) (field : string) (b : bool) : Prop :=
  entry field entries = Some (VBool b).

Record reports_state (es : list (string * Value)) (s : DealChainState) : Prop := {
  rs_keys : map fst es ≡ₚ GET_STATE_FIELDS;
  rs_flags : reports_bool es "funded" (ds_funded s) /\ reports_bool es "opened" (ds_opened s) /\
             reports_bool es "probeAccepted" (ds_probe_accepted s) /\
             reports_bool es "disputed" (ds_disputed s);
  rs_money : reports_uint es "deposit" (ds_deposit s) /\ reports_uint es "probeTick" (ds_probe_tick s) /\
             reports_uint es "finalizedOwed" (ds_finalized_owed s);
  rs_tokens : reports_uint es "tokensFinal" (ds_tokens_final s) /\
              reports_uint es "tokensPending" (ds_tokens_pending s);
  rs_times : reports_uint es "probeTime" (ds_probe_time s) /\
             reports_uint es "lastClaimTime" (ds_last_claim_time s) /\
             reports_uint es "disputeTime" (ds_dispute_time s) /\
             reports_uint es "fundedTime" (default 0 (ds_funded_time s))
}.

Record reports_subscription (es : list (string * Value)) (s : DealSubscription) : Prop := {
  rsub_keys : map fst es ≡ₚ GET_SUBSCRIPTION_FIELDS;
  rsub_shape : reports_uint es "dealFlags" (deal_flags s) /\ reports_uint es "subWeeks" (sub_weeks s) /\
               reports_uint es "weekIndex" (week_index s);
  rsub_tokens : reports_uint es "tokensPerWeek" (tokens_per_week s) /\
                reports_uint es "fundedTokens" (funded_tokens s) /\
                reports_uint es "tokensPaid" (tokens_paid s) /\
                reports_uint es "weekBaseTokens" (week_base_tokens s);
  rsub_start : reports_uint es "periodStart" (period_start s)
}.

(** The widths of the ABI, and a monotonic claim pipeline.  A zero [fundedTime]
    is "never funded". *)
Record state_typed (s : DealChainState) : Prop := {
  ty_money : in_u128 (ds_deposit s) /\ in_u128 (ds_probe_tick s) /\ in_u128 (ds_finalized_owed s);
  ty_tokens : 0 <= ds_tokens_final s <= ds_tokens_pending s /\ in_u128 (ds_tokens_pending s);
  ty_times : in_u64 (ds_probe_time s) /\ in_u64 (ds_last_claim_time s) /\ in_u64 (ds_dispute_time s);
  ty_funded : match ds_funded_time s with Some t => 0 < t <= U64_MAX | None => True end
}.

(** An ordinary deal has no weeks; a subscription is its canonical number of weeks
    of one size. *)
Record subscription_typed (s : DealSubscription) : Prop := {
  ty_sub_widths : in_u8 (deal_flags s) /\ in_u128 (tokens_per_week s) /\ in_u128 (funded_tokens s) /\
                  in_u64 (period_start s);
  ty_sub_bits : forall i, Z.testbit (deal_flags s) i = true -> Z.testbit flags.DEAL_MASK i = true;
  ty_sub_paid : 0 <= tokens_paid s <= funded_tokens s;
  ty_sub_base : 0 <= week_base_tokens s <= funded_tokens s;
  ty_sub_weeks :
    if is_subscription s
    then sub_weeks s = SUBSCRIPTION_WEEKS /\ 0 <= week_index s <= SUBSCRIPTION_WEEKS /\
         funded_tokens s = tokens_per_week s * SUBSCRIPTION_WEEKS /\
         has_flag (deal_flags s) flags.SUBSCRIPTION = true
    else week_index s = 0 /\ tokens_per_week s = funded_tokens s /\ week_base_tokens s = 0 /\
         has_flag (deal_flags s) flags.SUBSCRIPTION = false
}.

(** ** Field lemmas *)

Lemma char_digit_range c : is_digit c = true -> 0 <= char_digit c <= 9.
Proof. unfold is_digit, char_digit. rewrite andb_true_iff, !Z.leb_le. lia. Qed.

Lemma numeral_nonneg t n : numeral t n -> 0 <= n.
Proof.
  intros (_ & Ht & <-). unfold dec_value. induction t as [|c t IH] using rev_ind; [done|].
  apply Forall_app in Ht as [Ht Hc]. rewrite map_app, fold_left_app. simpl.
  apply Forall_singleton, char_digit_range in Hc. specialize (IH Ht). lia.
Qed.

(** Digits only: the sign that [str::parse] would accept is already refused. *)
Lemma parse_uint_digits max t : Forall (fun c => is_digit c = true) t -> parse_uint max t = parse_digits max t.
Proof.
  intros Ht. unfold parse_uint. destruct t as [|c t]; [done|]. apply Forall_inv in Ht.
  rewrite bool_decide_eq_false_2; [done|]. by intros ->.
Qed.

Lemma getter_uint_ok max es getter field n :
  getter_uint max (VObject es) getter field = Ok n <-> reports_uint es field n /\ n <= max.
Proof.
  unfold getter_uint, getter_decimal, getter_field, reports_uint, numeral. simpl. split.
  - destruct (entry field es) as [[| | |raw| |]|]; simpl; try done.
    destruct (bool_decide _) eqn:E1; [done|]. apply bool_decide_eq_false in E1. simpl.
    destruct (forallb is_digit (to_text raw)) eqn:E2; [|done]. simpl. intros H%ok_or_ok.
    assert (Forall (fun c => is_digit c = true) (to_text raw)) as Hd
      by (apply Forall_forall; intros c ?; by apply (proj1 (forallb_forall _ _) E2), list_elem_of_In).
    rewrite parse_uint_digits in H by done. unfold parse_digits in H. rewrite E2 in H.
    destruct (to_text raw) eqn:Er; [done|]. apply try_from_some in H as [-> ?]. rewrite <- Er in *.
    split; [|done]. exists raw. rewrite Er in *. split_and!; done.
  - intros ((raw & -> & Hne & Hd & <-) & Hm). simpl. rewrite bool_decide_eq_false_2 by done.
    assert (forallb is_digit (to_text raw) = true) as E.
    { apply forallb_forall. intros c Hc. apply list_elem_of_In in Hc. rewrite Forall_forall in Hd. by apply Hd. }
    rewrite E. simpl. apply ok_or_ok. rewrite parse_uint_digits by done.
    unfold parse_digits. rewrite E. destruct (to_text raw) eqn:Er; [done|]. by apply try_from_some.
Qed.

Lemma getter_bool_ok es getter field b :
  getter_bool (VObject es) getter field = Ok b <-> reports_bool es field b.
Proof.
  unfold getter_bool, getter_field, reports_bool. simpl.
  destruct (entry field es) as [[]|]; simpl; split; intros; simplify_eq; done.
Qed.

Lemma entry_elem field es : is_Some (entry field es) <-> field ∈ map fst es.
Proof.
  induction es as [|[k v] es IH]; simpl; [split; [by intros []|by intros ?%not_elem_of_nil]|].
  rewrite elem_of_cons, <- IH. destruct (bool_decide_reflect (field = k)) as [->|Hk]; [|intuition congruence].
  split; [by left|by eexists].
Qed.

Lemma filter_none {A} (p : A -> bool) (l : list A) :
  List.filter p l = [] <-> forall x, x ∈ l -> p x = false.
Proof.
  split.
  - intros H x Hx. destruct (p x) eqn:E; [|done]. exfalso. apply list_elem_of_In in Hx.
    assert (In x (List.filter p l)) as Hf by by apply filter_In. by rewrite H in Hf.
  - intros H. induction l as [|a l IH]; simpl; [done|]. rewrite H by by left. apply IH. intros. apply H. by right.
Qed.

(** The exact-object check is: the keys are the expected fields, in some order. *)
Lemma getter_exact_object_ok v getter fields es : NoDup fields ->
  getter_exact_object v getter fields = Ok es <-> v = VObject es /\ map fst es ≡ₚ fields.
Proof.
  intros Hnd. unfold getter_exact_object, object_of. split.
  - destruct v as [| | | | |es']; try done. cbn zeta iota beta.
    destruct (negb _ || negb _ || negb _) eqn:H; [done|]. intros [= ->]. split; [done|].
    apply orb_false_iff in H as [[H1 H2]%orb_false_iff H3].
    apply negb_false_iff, bool_decide_eq_true in H1, H2. apply negb_false_iff, Nat.eqb_eq in H3.
    symmetry. apply submseteq_length_Permutation; [|rewrite length_map; lia].
    apply NoDup_submseteq; [done|]. intros f Hf. rewrite filter_none in H1. specialize (H1 f Hf).
    apply negb_false_iff in H1. unfold contains_key in H1. apply bool_decide_eq_true in H1.
    by apply entry_elem.
  - intros [-> Hp]. simpl. rewrite !bool_decide_eq_true_2; simpl.
    + rewrite <- Hp, length_map, Nat.eqb_refl. done.
    + apply filter_none. intros f Hf. rewrite Hp in Hf. by rewrite bool_decide_eq_true_2.
    + apply filter_none. intros f Hf. unfold contains_key. rewrite bool_decide_eq_true_2; [done|].
      apply entry_elem. by rewrite Hp.
Qed.

(** ** The decoders accept exactly the ABI objects *)

Lemma state_fields_nodup : NoDup GET_STATE_FIELDS.
Proof. by apply (bool_decide_unpack _). Qed.
Lemma subscription_fields_nodup : NoDup GET_SUBSCRIPTION_FIELDS.
Proof. by apply (bool_decide_unpack _). Qed.

(** Turn every successful field read into what the object reports. *)
Ltac read_fields :=
  repeat match goal with
  | H : getter_u8 _ _ _ = Ok _ |- _ => apply getter_uint_ok in H as [H ?]
  | H : getter_u64 _ _ _ = Ok _ |- _ => apply getter_uint_ok in H as [H ?]
  | H : getter_u128 _ _ _ = Ok _ |- _ => apply getter_uint_ok in H as [H ?]
  | H : getter_bool _ _ _ = Ok _ |- _ => apply getter_bool_ok in H
  end.
Lemma reports_uint_nonneg es f n : reports_uint es f n -> 0 <= n.
Proof. intros (raw & _ & H). by eapply numeral_nonneg. Qed.
Ltac report_bounds :=
  repeat match goal with
  | H : reports_uint _ _ ?n |- _ =>
      lazymatch goal with
      | _ : 0 <= n |- _ => fail
      | _ => pose proof (reports_uint_nonneg _ _ _ H)
      end
  end.

Lemma funded_time_encoding t :
  0 <= t -> default 0 (if negb (t =? 0) then Some t else None) = t.
Proof. intros. destruct (Z.eqb_spec t 0); simpl; lia. Qed.

Lemma decode_state_sound v s :
  decode_state v = Ok s -> exists es, v = VObject es /\ reports_state es s /\ state_typed s.
Proof.
  unfold decode_state. intros H. inv_ok H.
  match goal with E : getter_exact_object _ _ _ = Ok _ |- _ =>
    apply getter_exact_object_ok in E as [-> Hk]; [|apply state_fields_nodup] end.
  read_fields. report_bounds. match goal with E : (_ <? _) = false |- _ => apply Z.ltb_ge in E end.
  eexists. split; [done|]. split.
  - split; simpl; try rewrite funded_time_encoding by done; split_and?; done.
  - split; simpl; unfold in_u128, in_u64; split_and?; try lia.
    match goal with |- context [negb (?t =? 0)] => destruct (Z.eqb_spec t 0); simpl; lia end.
Qed.

Lemma decode_state_complete es s :
  reports_state es s -> state_typed s -> decode_state (VObject es) = Ok s.
Proof.
  intros [Hk (F1 & F2 & F3 & F4) (M1 & M2 & M3) (T1 & T2) (P1 & P2 & P3 & P4)]
    [(W1 & W2 & W3) (W4 & W5) (W6 & W7 & W8) W9].
  assert (forall f n max g, reports_uint es f n -> n <= max -> getter_uint max (VObject es) g f = Ok n) as HU
    by (intros; by apply getter_uint_ok).
  assert (forall f b g, reports_bool es f b -> getter_bool (VObject es) g f = Ok b) as HB
    by (intros; by apply getter_bool_ok).
  unfold decode_state, getter_u64, getter_u128.
  rewrite (proj2 (getter_exact_object_ok _ _ _ es state_fields_nodup)) by done.
  assert (default 0 (ds_funded_time s) <= U64_MAX) by (destruct (ds_funded_time s); simpl; [lia|done]).
  rewrite (HU _ _ _ _ P4) by done.
  rewrite (HB _ _ _ F1), (HB _ _ _ F2), (HB _ _ _ F3), (HB _ _ _ F4).
  rewrite (HU _ _ _ _ M1), (HU _ _ _ _ M2), (HU _ _ _ _ M3) by apply W1 || apply W2 || apply W3.
  rewrite (HU _ _ _ _ T1) by (unfold in_u128 in *; lia).
  rewrite (HU _ _ _ _ T2), (HU _ _ _ _ P1), (HU _ _ _ _ P2), (HU _ _ _ _ P3)
    by apply W5 || apply W6 || apply W7 || apply W8.
  rewrite (proj2 (Z.ltb_ge _ _)) by lia.
  destruct s as [? ? ? ? ? ? ? ? ? [t|] ? ? ?]; simpl in *; [|done].
  by destruct (Z.eqb_spec t 0); [lia|].
Qed.

(** Only known bits: the mask test of the source, bit by bit. *)
Lemma known_bits f : in_u8 f ->
  Z.land f (Z.lxor flags.DEAL_MASK U8_MAX) = 0 <->
  (forall i, Z.testbit f i = true -> Z.testbit flags.DEAL_MASK i = true).
Proof.
  intros Hf. assert (forall i, 8 <= i -> Z.testbit f i = false) as Hhi.
  { intros i Hi. destruct (decide (f = 0)) as [->|]; [apply Z.testbit_0_l|].
    apply Z.bits_above_log2; [apply Hf|]. apply Z.log2_lt_pow2; [unfold in_u8 in *; lia|].
    unfold in_u8, U8_MAX in Hf. pose proof (Z.pow_le_mono_r 2 8 i). lia. }
  assert (forall i, 0 <= i < 8 -> Z.testbit (Z.lxor flags.DEAL_MASK U8_MAX) i = negb (Z.testbit flags.DEAL_MASK i)) as Hm.
  { intros i Hi. assert (i = 0 \/ i = 1 \/ i = 2 \/ i = 3 \/ i = 4 \/ i = 5 \/ i = 6 \/ i = 7) as Hc by lia.
    destruct Hc as [->|[->|[->|[->|[->|[->|[->| ->]]]]]]]; reflexivity. }
  split.
  - intros H i Hi. destruct (Z_lt_le_dec i 0); [by rewrite Z.testbit_neg_r in Hi|].
    destruct (Z_lt_le_dec i 8); [|by rewrite Hhi in Hi].
    assert (Z.testbit (Z.land f (Z.lxor flags.DEAL_MASK U8_MAX)) i = false) as Hb by (rewrite H; apply Z.testbit_0_l).
    rewrite Z.land_spec, Hi, Hm in Hb by lia. by destruct (Z.testbit flags.DEAL_MASK i).
  - intros H. apply Z.bits_inj'. intros i Hi. rewrite Z.land_spec, Z.testbit_0_l.
    destruct (Z.testbit f i) eqn:E; [|done]. destruct (Z_lt_le_dec i 8); [|by rewrite Hhi in E].
    by rewrite Hm, (H i E).
Qed.

Lemma check_subscription_ok s s' :
  in_u8 (deal_flags s) -> in_u8 (sub_weeks s) -> 0 <= week_index s ->
  in_u128 (tokens_per_week s) -> in_u128 (funded_tokens s) -> 0 <= tokens_paid s ->
  in_u64 (period_start s) -> 0 <= week_base_tokens s ->
  check_subscription s = Ok s' <-> s' = s /\ subscription_typed s.
Proof.
  intros Hf Hw Hi Ht Hfu Hp Hs Hb. unfold check_subscription. split.
  - intros H. ok_step H. ok_step H. ok_step H. ok_step H. ok_step H.
    apply negb_false_iff, Z.eqb_eq in E. pose proof (proj1 (known_bits _ Hf) E) as Hbits.
    apply negb_false_iff, eqb_prop in E0. apply Z.ltb_ge in E1, E2, E3.
    destruct (has_flag _ _) eqn:Hflag; inv_ok H; (split; [done|]); split; try done.
    + unfold is_subscription. rewrite <- E0. apply negb_false_iff, Z.eqb_eq in E4.
      apply ok_or_ok, checked_mul_some in E5 as [-> _].
      apply negb_false_iff, Z.eqb_eq in E6.
      split_and!; [done|lia|lia| |done]. by rewrite <- E6, E4.
    + unfold is_subscription. rewrite <- E0.
      apply orb_false_iff in E4 as [[A1 A2]%orb_false_iff A3].
      apply negb_false_iff, Z.eqb_eq in A1, A2, A3. done.
  - intros [-> [(W1 & W2 & W3 & W4) Hbits Hpaid Hbase Hweeks]].
    rewrite (proj2 (known_bits _ Hf) Hbits). simpl. unfold is_subscription in *.
    rewrite (proj2 (Z.ltb_ge (funded_tokens s) (tokens_paid s))) by lia.
    rewrite (proj2 (Z.ltb_ge (funded_tokens s) (week_base_tokens s))) by lia.
    destruct (Z.eqb_spec (sub_weeks s) 0) as [E|E]; simpl in *.
    + destruct Hweeks as (-> & -> & -> & ->). rewrite E. simpl. by rewrite Z.eqb_refl.
    + destruct Hweeks as (-> & ? & Hq & ->). simpl. rewrite (proj2 (Z.ltb_ge _ _)) by lia.
      unfold u128_checked_mul. rewrite (proj2 (checked_mul_some _ _ _ _)) by (rewrite <- Hq; split; [done|apply W3]).
      simpl. by rewrite Hq, Z.eqb_refl.
Qed.

Lemma decode_subscription_sound v s :
  decode_subscription v = Ok s ->
  exists es, v = VObject es /\ reports_subscription es s /\ subscription_typed s.
Proof.
  unfold decode_subscription. intros H. inv_ok H.
  match goal with E : getter_exact_object _ _ _ = Ok _ |- _ =>
    apply getter_exact_object_ok in E as [-> Hk]; [|apply subscription_fields_nodup] end.
  read_fields. report_bounds.
  apply check_subscription_ok in H as [-> Ht]; simpl; try (unfold in_u8, in_u64, in_u128; lia).
  eexists. split; [done|]. split; [|done]. split; simpl; split_and?; done.
Qed.

Lemma decode_subscription_complete es s :
  reports_subscription es s -> subscription_typed s -> decode_subscription (VObject es) = Ok s.
Proof.
  intros [Hk (S1 & S2 & S3) (T1 & T2 & T3 & T4) P1] Ht.
  pose proof Ht as [(W1 & W2 & W3 & W4) _ Hpaid Hbase Hweeks].
  assert (in_u8 (sub_weeks s) /\ in_u8 (week_index s)) as [].
  { unfold is_subscription in Hweeks. unfold in_u8, U8_MAX.
    destruct (Z.eqb_spec (sub_weeks s) 0); simpl in Hweeks; unfold SUBSCRIPTION_WEEKS in *; intuition lia. }
  assert (forall f n max g, reports_uint es f n -> n <= max -> getter_uint max (VObject es) g f = Ok n) as HU
    by (intros; by apply getter_uint_ok).
  unfold decode_subscription, getter_u64, getter_u128, getter_u8.
  rewrite (proj2 (getter_exact_object_ok _ _ _ es subscription_fields_nodup)) by done.
  unfold in_u8, in_u64, in_u128 in *.
  rewrite (HU _ _ _ _ S1), (HU _ _ _ _ S2), (HU _ _ _ _ S3) by lia.
  rewrite (HU _ _ _ _ T1), (HU _ _ _ _ T2), (HU _ _ _ _ T3), (HU _ _ _ _ P1), (HU _ _ _ _ T4) by lia.
  apply check_subscription_ok; unfold in_u8, in_u64, in_u128; simpl; try lia. by destruct s.
Qed.
