(* ===== verification/GettersSafety.v ===== *)
(** * GettersSafety: decoding is exact, and the offline market reports what decodes

    The strict decoders of [Getters] are characterised completely, and everything
    the offline market of [MockMarket] reports about a matched deal, written as
    the object of the ABI, is read back unchanged. *)
From S2P Require Import Prelude Text Params Settle Address MarketTypes Machine.
From S2P Require Import MockDeal MockDealInv MockDealOps MockDealLive.
From S2P Require Import MockMarket MockInvariant MockReach MockLife MockSafety MockReads MockSample.
From S2P Require Import Json Getters.

(** C35: The strict decoders accept exactly the objects of the ABI.  A value decodes to
    a deal state (or a deal shape) precisely when it is an object whose keys are
    the thirteen (eight) fields in some order, every number is written in plain
    digits, and the result is typed: each field within its width, the claim
    pipeline monotonic, a subscription of the canonical number of equal weeks. *)
Theorem decoders_accept_exactly_typed_reports (v : Value) :
  (forall s, decode_state v = Ok s <->
     exists es, v = VObject es /\ reports_state es s /\ state_typed s) /\
  (forall s, decode_subscription v = Ok s <->
     exists es, v = VObject es /\ reports_subscription es s /\ subscription_typed s).
Proof.
  split; intros s; split.
  - apply decode_state_sound.
  - intros (es & -> & H1 & H2). by apply decode_state_complete.
  - apply decode_subscription_sound.
  - intros (es & -> & H1 & H2). by apply decode_subscription_complete.
Qed.

Section Offline.
Context (consts : ProtocolConsts) (Hc : consts_typed consts).
Context (params : DobParams) (order_id_of : TokenContract -> Z).

Lemma masked_bits f i :
  Z.testbit (Z.land f flags.DEAL_MASK) i = true -> Z.testbit flags.DEAL_MASK i = true.
Proof. rewrite Z.land_spec. by intros [_ ?]%andb_true_iff. Qed.
Lemma masked_u8 f : in_u8 f -> in_u8 (Z.land f flags.DEAL_MASK).
Proof.
  intros _. change flags.DEAL_MASK with (Z.land flags.DEAL_MASK (Z.ones 8)).
  rewrite Z.land_assoc, Z.land_ones by done. unfold in_u8, U8_MAX.
  pose proof (Z.mod_pos_bound (Z.land f flags.DEAL_MASK) (2 ^ 8)). lia.
Qed.

(** The shape of a funded deal is one the decoder accepts. *)
Lemma funded_shape_typed tc t o k s m created :
  funded_ok consts tc t o k s m created -> t <= U64_MAX ->
  0 <= tokens_paid s <= funded_tokens s -> 0 <= week_base_tokens s <= funded_tokens s ->
  subscription_typed s.
Proof.
  intros Hf Ht Hp Hb. pose proof Hf as []. destruct fu_offer as (_ & _ & (_ & Hmax & Hfl) & _).
  assert (in_u128 (funded_tokens s)) by (rewrite fu_funded; unfold TICK_SIZE; ilia).
  split; try done.
  - rewrite fu_flags. split_and!; [by apply masked_u8| |done|ilia].
    unfold in_u128 in *. destruct fu_weeks as [(_ & _ & -> & _)|(_ & _ & ? & ?)]; [done|].
    unfold SUBSCRIPTION_WEEKS, TICK_SIZE in *. lia.
  - rewrite fu_flags. apply masked_bits.
  - rewrite <- fu_shape. destruct fu_weeks as [(E & ? & ? & ?)|(E & ? & ? & ?)];
      unfold is_subscription; rewrite E; [|done]. done.
Qed.

Lemma funded_fresh w now t st tc m s :
  files_inv consts w now -> now <= t -> load_state w t = Ok st ->
  streams st !! tc = None -> matches st !! tc = Some m -> deal_subscriptions st !! tc = Some s ->
  fresh_shape s.
Proof.
  intros Hw Ht Hld H1 H2 H3. destruct (load_life consts w now t Hw Ht) as (st' & Hld' & Hi & _).
  rewrite Hld in Hld'. injection Hld' as <-. specialize (Hi tc). unfold slot_of in Hi.
  rewrite H1, H2, H3 in Hi. by inversion Hi.
Qed.

Lemma opened_state_typed c s t created :
  deal_inv consts c s t -> deal_value consts c s <= U128_MAX -> 0 < created <= t -> t <= U64_MAX ->
  state_typed (state_of c created).
Proof.
  intros Hd Hv Hcr Ht. destruct (deal_inv_total consts Hc _ _ _ Hd) as [[] Htot].
  destruct Hd as ([] & _ & []). unfold total in Htot.
  assert (funded_tokens s <= U128_MAX) by (rewrite sh_funded; unfold TICK_SIZE; ilia).
  split; simpl; unfold in_u128, in_u64.
  - split_and!; try lia; destruct (c_closed c); lia.
  - lia.
  - lia.
  - lia.
Qed.

(** What the offline market reports about a matched deal decodes to itself.  For
    every funded, live or ended contract of a reachable file the two getters
    answer, and any object of the ABI that reports those answers is accepted by
    the strict decoders and read back unchanged. *)
Theorem offline_reports_decode (now t0 : Z) (w : ChainFiles) (tc : TokenContract) :
  reachable consts params order_id_of now w -> now <= t0 -> t0 <= U64_MAX ->
  match life_in w tc with
  | Idle _ | Listed _ _ => False
  | Funded _ _ _ => True
  | Live _ _ c s | Ended _ _ c s => deal_value consts c s <= U128_MAX
  end ->
  exists ds s, deal_state consts tc t0 w = (Ok (Some ds), w) /\
    deal_subscription tc t0 w = (Ok (Some s), w) /\
    (forall es, reports_state es ds -> decode_state (VObject es) = Ok ds) /\
    (forall es, reports_subscription es s -> decode_subscription (VObject es) = Ok s).
Proof.
  intros Hr Ht Hm Hl. pose proof (reachable_inv _ Hc _ _ _ _ Hr) as Hw.
  destruct (matched_lookup consts w now t0 tc Hw Ht)
    as (st & o & k & s & m & cr & Hld & L1 & L2 & L3 & L4 & Hfu & Hk); [by destruct (life_in w tc)|].
  assert (exists ds, mock_deal_state consts st tc = Ok (Some ds) /\ state_typed ds /\ subscription_typed s)
    as (ds & Hds & Hty & Hsub).
  { pose proof Hfu as []. destruct (life_in w tc) as [|? ?|sel m' since|sel m' c s'|sel m' c s'] eqn:El; try done.
    - destruct Hk as (-> & -> & L5). destruct (funded_deposit consts Hc _ _ _ _ _ _ _ Hfu) as (F1 & F2 & F3).
      rewrite (funded_state_read consts Hc st tc t0 o k s m cr) by done. eexists. split; [done|].
      assert (in_u128 (funded_tokens s)) by (rewrite fu_funded; destruct fu_offer as (_ & _ & (_ & ? & _) & _);
        unfold TICK_SIZE; ilia).
      pose proof (cost_of_nonneg consts Hc (funded_tokens s) (m_price_per_tick m) ltac:(lia) ltac:(lia)).
      assert (fresh_shape s) as (P1 & P2 & P3).
      { eapply funded_fresh; [exact Hw|exact Ht|exact Hld|done..]. }
      split; [|apply (funded_shape_typed _ _ _ _ _ _ _ Hfu); lia].
      split; simpl; unfold in_u128, in_u64; split_and?; ilia.
    - destruct Hk as (-> & -> & L5 & Hd & _). eexists. split; [by eapply opened_state_read|].
      split; [eapply opened_state_typed; try done; lia|]. destruct Hd as ([] & _).
      apply (funded_shape_typed _ _ _ _ _ _ _ Hfu); lia.
    - destruct Hk as (-> & -> & L5 & Hd & _). eexists. split; [by eapply opened_state_read|].
      split; [eapply opened_state_typed; try done; lia|]. destruct Hd as ([] & _).
      apply (funded_shape_typed _ _ _ _ _ _ _ Hfu); lia. }
  exists ds, s. unfold deal_state, deal_subscription, reading, mock_deal_subscription. rewrite Hld, Hds, L2.
  split_and!; [done|done| |]; intros es He.
  - by apply decode_state_complete.
  - by apply decode_subscription_complete.
Qed.
End Offline.

(** The claimed deal of the sample run, read back through the decoder. *)
Lemma offline_reports_decode_witness :
  exists ds s, deal_state canonical sample_tc 5200 w_claimed = (Ok (Some ds), w_claimed) /\
    deal_subscription sample_tc 5200 w_claimed = (Ok (Some s), w_claimed) /\
    forall es, reports_state es ds -> decode_state (VObject es) = Ok ds.
Proof.
  destruct (offline_reports_decode canonical canonical_typed dob_canonical sample_order_id 5100 5200
              w_claimed sample_tc) as (ds & s & H1 & H2 & H3 & _);
    [apply claimed_reachable|lia|unfold U64_MAX; lia|vm_compute; discriminate|].
  exists ds, s. split; [exact H1|]. split; [exact H2|exact H3].
Defined.
