(* ===== verification/Rows.v ===== *)
(** * Rows: the rows of a book and the record of a note, as the node reports them
    (crates/core/src/chain/backends.rs and client.rs)

    The storage of an order book arrives as a JSON object keyed by order id.  A view of
    the book drops a row it cannot read; the question "does this deal already have an
    ask" must not, so it judges every row itself.  An error is its fixed text; the
    address parser of the chain library is a parameter. *)
From Stdlib Require Import Ascii.
From S2P Require Import Prelude Text Params MarketTypes Accounting Json Getters.

(** ** Numbers of a getter *)

(** [strip_prefix("0x").or_else(|| strip_prefix("0X"))] *)
Definition hex_body (t : text) : option text :=
  match strip_prefix (to_text "0x") t with Some b => Some b | None => strip_prefix (to_text "0X") t end.
Definition parse_order_u128 (s : string) : option Z :=
  let s := trim (to_text s) in
  match hex_body s with Some hex => parse_hex U128_MAX hex | None => parse_uint U128_MAX s end.
Definition field_str (v : Value) (key : string) : option string := get_field v key ≫= as_str.
(** The calls of the source name one key each. *)
Definition order_u128 (order : Value) (key : string) : option Z :=
  match field_str order key ≫= parse_order_u128 with
  | Some n => Some n
  | None => get_field order key ≫= as_u64
  end.
Definition order_u64 (order : Value) (key : string) : option Z :=
  match (field_str order key ≫= parse_order_u128) ≫= try_from U64_MAX with
  | Some n => Some n
  | None => get_field order key ≫= as_u64
  end.
(** [getter_u128] and [getter_bool] of client.rs. *)
Definition lenient_u128 (v : Value) (key : string) : option Z :=
  match get_field v key ≫= as_u64 with
  | Some n => Some n
  | None => field_str v key ≫= parse_order_u128
  end.
Definition lenient_bool (v : Value) (key : string) : option bool :=
  match get_field v key ≫= as_bool with
  | Some b => Some b
  | None =>
      match (fun s => of_text (to_ascii_lowercase (trim (to_text s)))) <$> field_str v key with
      | Some "true" | Some "1" => Some true
      | Some "false" | Some "0" => Some false
      | _ => None
      end
  end.

Inductive Uint256ToU128 : Type := UValue (n : Z) | ExceedsU128 | Invalid.
Definition U256_MAX_DECIMAL : string :=
  "115792089237316195423570985008687907853269984665640564039457584007913129639935".
Fixpoint trim_zeros (t : text) : text :=
  match t with
  | c :: rest => if bool_decide (c = "0"%char) then trim_zeros rest else t
  | [] => []
  end.
Definition parse_uint256_to_u128 (value : string) : Uint256ToU128 :=
  let value := trim (to_text value) in
  let '(digits, hex) := match hex_body value with Some hex => (hex, true) | None => (value, false) end in
  let max_digits := if hex then 64%nat else String.length U256_MAX_DECIMAL in
  if bool_decide (digits = []) || negb (forallb (if hex then is_hexdigit else is_digit) digits) then Invalid
  else
    let significant := trim_zeros digits in
    let significant := if bool_decide (significant = []) then ["0"%char] else significant in
    let within_uint256 :=
      if (length significant <? max_digits)%nat then true
      else if (max_digits <? length significant)%nat then false
      else if hex then true
      else String.leb (of_text significant) U256_MAX_DECIMAL in
    if negb within_uint256 then Invalid
    else
      match (if hex then parse_hex_digits U128_MAX significant else parse_digits U128_MAX significant) with
      | Some n => UValue n
      | None => ExceedsU128
      end.

(** ** One row *)

Definition is_canonical_zero_address (addr : string) : bool :=
  match strip_prefix (to_text "0:") (to_text addr) with
  | None => false
  | Some account_id =>
      (length account_id =? 64)%nat && forallb (fun c => bool_decide (c = "0"%char)) account_id
  end.
Definition is_blank (s : string) : bool := bool_decide (trim (to_text s) = []).
Definition is_absent_address (addr : string) : bool := is_blank addr || is_canonical_zero_address addr.
Definition written_str (order : Value) (key : string) : option string :=
  match field_str order key with Some s => if is_blank s then None else Some s | None => None end.

Definition order_price (order : Value) : outcome string Z :=
  match field_str order "price" with
  | Some price =>
      match parse_uint256_to_u128 price with
      | UValue price => Ok price
      | ExceedsU128 => Err "price exceeds downstream u128"
      | Invalid => Err "missing/invalid price"
      end
  | None => ok_or (get_field order "price" ≫= as_u64) "missing/invalid price"
  end.
Definition orderbook_order_from_getter (order_id : Z) (order : Value) : outcome string (option OrderBookOrder) :=
  let* ticks := ok_or (order_u128 order "amount") "missing/invalid amount" in
  if ticks =? 0 then Ok None
  else
    let* owner_note := ok_or (written_str order "note") "missing/invalid note" in
    fail_if is_canonical_zero_address owner_note with "malformed: non-zero amount with zero owner note" in
    let* is_buy := ok_or (get_field order "isBuy" ≫= as_bool) "missing/invalid isBuy" in
    let* token_contract := ok_or (written_str order "tokenContract") "missing/invalid tokenContract" in
    let* price_per_tick := order_price order in
    let* escrow := ok_or (order_u128 order "escrow") "missing/invalid escrow" in
    let* deadline := ok_or (order_u64 order "deadline") "missing/invalid deadline" in
    let* flags := ok_or (order_u64 order "flags") "missing/invalid flags" in
    let* flags := ok_or (try_from U8_MAX flags) "flags exceed uint8" in
    let* timestamp := ok_or (order_u64 order "ts") "missing/invalid ts" in
    Ok (Some (mkOrder order_id owner_note
                (if is_canonical_zero_address token_contract then None else Some token_contract)
                is_buy price_per_tick ticks escrow deadline flags timestamp)).

(** ** Rows of a book *)

Fixpoint parse_slots (slots : list (string * Value)) : outcome string (list (Z * Value)) :=
  match slots with
  | [] => Ok []
  | (id, order) :: rest =>
      let* order_id := ok_or (parse_uint U128_MAX (to_text id)) "_orders key is not an id" in
      let* raw := parse_slots rest in
      Ok ((order_id, order) :: raw)
  end.
Definition slot_le (a b : Z * Value) : bool := fst a <=? fst b.
Definition orderbook_slots_from_storage (fields : Value) : outcome string (list (Z * Value)) :=
  match get_field fields "_orders" with
  | Some (VObject slots) => let* raw := parse_slots slots in Ok (sort_by slot_le raw)
  | _ => Err "storage exposes no _orders map"
  end.
Fixpoint collect_live_orders (raw : list (Z * Value)) : list OrderBookOrder :=
  match raw with
  | [] => []
  | (id, order) :: rest =>
      match orderbook_order_from_getter id order with
      | Ok (Some parsed) => parsed :: collect_live_orders rest
      | _ => collect_live_orders rest
      end
  end.
Definition orderbook_orders_from_storage (fields : Value) : outcome string (list OrderBookOrder) :=
  let* raw := orderbook_slots_from_storage fields in Ok (collect_live_orders raw).

Section Rows.
(** [Address::parse(s)] followed by [with_workchain]. *)
Context (parse_address : string -> option string).

Definition is_tombstone (order : Value) : bool :=
  match field_str order "note", field_str order "tokenContract" with
  | Some note, Some tc => is_absent_address note && is_absent_address tc
  | _, _ => false
  end
  && forallb (fun field => bool_decide (order_u128 order field = Some 0))
       ["price"; "amount"; "escrow"; "deadline"; "flags"; "ts"]
  && bool_decide (get_field order "isBuy" ≫= as_bool = Some false).
Definition expected_orderbook_order_from_getter (order_id : Z) (order : Value)
    : outcome string (option OrderBookOrder) :=
  if is_tombstone order then Ok None
  else
    fail_if bool_decide (order_u128 order "amount" = Some 0)
      with "returned a non-canonical zero-amount row for the expected fixed order id" in
    let* parsed := orderbook_order_from_getter order_id order in
    let* parsed := ok_or parsed "did not return either a live order or an all-zero tombstone" in
    let* _ := ok_or (parse_address (ob_owner_note parsed)) "malformed owner note" in
    let* _ := match ob_token_contract parsed with
              | Some tc => ok_or (parse_address tc) "malformed tokenContract"
              | None => Ok EmptyString
              end in
    Ok (Some parsed).

Definition resting_sell_for_tc (order_id : Z) (raw : Value) (wanted : string)
    : outcome string (option OrderBookOrder) :=
  let* ticks := ok_or (order_u128 raw "amount") "missing/invalid amount" in
  if ticks =? 0 then Ok None
  else
    let* is_buy := ok_or (get_field raw "isBuy" ≫= as_bool) "missing/invalid isBuy" in
    if is_buy : bool then Ok None
    else
      let* raw_tc := ok_or (written_str raw "tokenContract") "active SELL has no tokenContract" in
      let* parsed_tc := ok_or (parse_address (of_text (trim (to_text raw_tc)))) "invalid tokenContract" in
      if negb (eq_ignore_ascii_case (to_text parsed_tc) (to_text wanted)) then Ok None
      else
        let* parsed := orderbook_order_from_getter order_id raw in
        let* parsed := ok_or parsed "has ticks but did not parse as an order" in
        fail_if negb (is_resting_ask parsed) with "is not an active unmatched SELL" in
        Ok (Some parsed).
Fixpoint resting_sells (wanted : string) (slots : list (Z * Value)) : outcome string (list OrderBookOrder) :=
  match slots with
  | [] => Ok []
  | (order_id, raw) :: rest =>
      let* order := resting_sell_for_tc order_id raw wanted in
      let* orders := resting_sells wanted rest in
      Ok (match order with Some order => order :: orders | None => orders end)
  end.
End Rows.

(** ** The record of a note *)

Definition parse_u128_literal (raw : string) : option Z :=
  let s := trim (to_text raw) in
  if bool_decide (s = []) then None
  else match hex_body s with
       | Some hex => if bool_decide (hex = []) then None else parse_hex U128_MAX hex
       | None => parse_uint U128_MAX s
       end.
Definition value_u128 (v : Value) : option Z :=
  match as_u64 v with Some n => Some n | None => as_str v ≫= parse_u128_literal end.
(** The first of two fields that is there. *)
Definition either_field (v : Value) (a b : string) : option Value :=
  match get_field v a with Some x => Some x | None => get_field v b end.
Fixpoint balance_entry (currency_id : Z) (entries : list Value) : option Value :=
  match entries with
  | [] => None
  | e :: rest =>
      match either_field e "currency" "id" ≫= value_u128 with
      | Some id => if id =? currency_id then Some (default Null (either_field e "value" "amount"))
                   else balance_entry currency_id rest
      | None => balance_entry currency_id rest
      end
  end.
Definition private_note_balance_currency (details : Value) (currency_id : Z) : outcome string Z :=
  let* balance := ok_or (get_field details "balance") "PrivateNote.getDetails().balance is missing" in
  let* raw := ok_or
    match get_field balance (of_text (print_u128 currency_id)) with
    | Some raw => Some raw
    | None => match balance with VArray entries => balance_entry currency_id entries | _ => None end
    end "PrivateNote.getDetails().balance has no such currency" in
  ok_or (value_u128 raw) "PrivateNote.getDetails().balance is not a uint128".
Definition details_has_withdrawn (details : Value) : option bool := lenient_bool details "hasWithdrawn".

(** ** The 256-bit prices: digits against the number they spell *)
Section Radix.
Context (b : Z) (digit : ascii -> Z) (Hb : 1 < b).
Definition radix_value (t : text) : Z := fold_left (fun a c => b * a + digit c) t 0.
Definition in_radix (c : ascii) : Prop := 0 <= digit c < b.

Lemma value_from (a : Z) (t : text) :
  fold_left (fun a c => b * a + digit c) t a = a * b ^ Z.of_nat (length t) + radix_value t.
Proof.
  unfold radix_value. revert a. induction t as [|c t IH]; intros a; [simpl; lia|]. cbn [fold_left length].
  rewrite IH, (IH (b * 0 + digit c)), Nat2Z.inj_succ, Z.pow_succ_r by lia. lia.
Qed.
Lemma value_cons c t : radix_value (c :: t) = digit c * b ^ Z.of_nat (length t) + radix_value t.
Proof. unfold radix_value at 1. simpl. rewrite value_from. f_equal. lia. Qed.
Lemma value_bounds t : Forall in_radix t -> 0 <= radix_value t < b ^ Z.of_nat (length t).
Proof.
  induction 1 as [|c t Hc _ IH]; [by cbn|]. rewrite value_cons. unfold in_radix in Hc. cbn [length].
  rewrite Nat2Z.inj_succ, Z.pow_succ_r by lia. nia.
Qed.
Lemma value_leading c t :
  Forall in_radix (c :: t) -> digit c <> 0 -> b ^ Z.of_nat (length t) <= radix_value (c :: t).
Proof.
  intros [Hc Ht]%Forall_cons Hz. rewrite value_cons. pose proof (value_bounds t Ht). unfold in_radix in Hc. nia.
Qed.
(** Equal lengths: the order of the first different digit is the order of the numbers. *)
Lemma value_lex c d s t :
  Forall in_radix (c :: s) -> Forall in_radix (d :: t) -> length s = length t -> digit c < digit d ->
  radix_value (c :: s) < radix_value (d :: t).
Proof.
  intros [Hc Hs]%Forall_cons [Hd Ht]%Forall_cons Hl Hlt. rewrite !value_cons, Hl.
  pose proof (value_bounds s Hs). pose proof (value_bounds t Ht). rewrite Hl in *. nia.
Qed.
End Radix.

Lemma digit_radix t : forallb is_digit t = true -> Forall (in_radix 10 char_digit) t.
Proof.
  intros H. apply Forall_forall. intros c Hc. rewrite forallb_forall in H.
  apply list_elem_of_In, H in Hc. unfold is_digit in Hc. unfold in_radix, char_digit. lia.
Qed.
Lemma hex_radix t : forallb is_hexdigit t = true -> Forall (in_radix 16 hex_value) t.
Proof.
  intros H. apply Forall_forall. intros c Hc. rewrite forallb_forall in H.
  apply list_elem_of_In, H in Hc. unfold is_hexdigit in Hc. unfold in_radix, hex_value.
  destruct (is_digit c) eqn:E; unfold is_digit in *; [lia|]. destruct (Z.leb_spec (code c) 70); lia.
Qed.
Lemma dec_value_value t : dec_value (map char_digit t) = radix_value 10 char_digit t.
Proof.
  unfold dec_value, radix_value. generalize 0. induction t as [|c t IH]; intros a; [done|]. simpl. apply IH.
Qed.
Lemma decimal_lex s t : forallb is_digit s = true -> forallb is_digit t = true -> length s = length t ->
  String.leb (of_text s) (of_text t) = (radix_value 10 char_digit s <=? radix_value 10 char_digit t).
Proof.
  unfold String.leb. revert t. induction s as [|c s IH]; intros [|d t] Hs Ht Hl; try done.
  pose proof (digit_radix _ Hs) as Rs. pose proof (digit_radix _ Ht) as Rt.
  simpl in Hs, Ht, Hl. apply andb_true_iff in Hs as [Hc Hs], Ht as [Hd Ht]. injection Hl as Hl.
  cbn [of_text String.string_of_list_ascii String.compare]. unfold Ascii.compare.
  assert (char_digit c = Z.of_N (N_of_ascii c) - 48 /\ char_digit d = Z.of_N (N_of_ascii d) - 48) as [Ec Ed] by done.
  destruct (N.compare_spec (N_of_ascii c) (N_of_ascii d)) as [E|E|E].
  - unfold of_text in IH. rewrite IH by done. rewrite !value_cons, Ec, Ed, E, Hl by lia. by apply Bool.eq_true_iff_eq; lia.
  - symmetry. apply Z.leb_le. assert (radix_value 10 char_digit (c :: s) < radix_value 10 char_digit (d :: t)); [|lia].
    apply value_lex; [done..|lia].
  - symmetry. apply Z.leb_gt. apply value_lex; [done..|lia].
Qed.

Lemma trim_zeros_value b digit t : digit "0"%char = 0 ->
  radix_value b digit (trim_zeros t) = radix_value b digit t.
Proof.
  intros H0. induction t as [|c t IH]; [done|]. cbn [trim_zeros]. case_bool_decide as E; [|done].
  subst c. rewrite IH. unfold radix_value. cbn [fold_left]. by rewrite H0, Z.mul_0_r.
Qed.
Lemma trim_zeros_forall (P : ascii -> Prop) t : Forall P t -> Forall P (trim_zeros t).
Proof.
  induction 1 as [|c t Hc Ht IH]; [constructor|]. cbn [trim_zeros]. case_bool_decide; [done|]. by constructor.
Qed.
Lemma trim_zeros_head t : match trim_zeros t with c :: _ => c <> "0"%char | [] => True end.
Proof. induction t as [|c t IH]; [done|]. cbn [trim_zeros]. by case_bool_decide. Qed.

(** What the reader of a price should say of a number. *)
Definition U256_MAX : Z := 2 ^ 256 - 1.
Definition price_class (n : Z) : Uint256ToU128 :=
  if U256_MAX <? n then Invalid else if U128_MAX <? n then ExceedsU128 else UValue n.

Lemma code_inj c d : code c = code d -> c = d.
Proof. unfold code. intros H%N2Z.inj. by rewrite <- (ascii_N_embedding c), H, ascii_N_embedding. Qed.
Lemma digit_nonzero c : is_digit c = true -> c <> "0"%char -> char_digit c <> 0.
Proof. intros _ H E. apply H, code_inj. unfold char_digit in E. change (code "0") with 48. lia. Qed.
Lemma hex_nonzero c : is_hexdigit c = true -> c <> "0"%char -> hex_value c <> 0.
Proof.
  intros Hc H E. apply H, code_inj. change (code "0") with 48. unfold hex_value in E.
  unfold is_hexdigit in Hc. destruct (is_digit c) eqn:D; unfold is_digit in *; [lia|].
  destruct (Z.leb_spec (code c) 70); lia.
Qed.

(** The significant digits, and how far their number is known from their length. *)
Definition significant_of (t : text) : text :=
  if bool_decide (trim_zeros t = []) then ["0"%char] else trim_zeros t.
Lemma significant_value b digit t : digit "0"%char = 0 ->
  radix_value b digit (significant_of t) = radix_value b digit t.
Proof.
  intros H0. rewrite <- (trim_zeros_value _ _ t H0). unfold significant_of. case_bool_decide as E; [|done].
  rewrite E. unfold radix_value. simpl. lia.
Qed.
Lemma significant_forallb (p : ascii -> bool) t :
  p "0"%char = true -> forallb p t = true -> forallb p (significant_of t) = true.
Proof.
  intros H0 H. unfold significant_of. case_bool_decide; [by simpl; rewrite H0|].
  apply forallb_forall. intros c Hc. rewrite forallb_forall in H. apply list_elem_of_In in Hc.
  assert (Forall (fun c => p c = true) (trim_zeros t)) as Hf.
  { apply trim_zeros_forall, Forall_forall. intros d Hd. by apply H, list_elem_of_In. }
  by rewrite Forall_forall in Hf; apply Hf.
Qed.
Lemma significant_nonempty t : significant_of t <> [].
Proof. unfold significant_of. by case_bool_decide. Qed.
Lemma significant_bounds b digit t : 1 < b -> Forall (in_radix b digit) (significant_of t) ->
  Forall (fun c => c <> "0"%char -> digit c <> 0) (significant_of t) ->
  radix_value b digit (significant_of t) < b ^ Z.of_nat (length (significant_of t)) /\
  ((1 < length (significant_of t))%nat ->
   b ^ Z.of_nat (length (significant_of t) - 1) <= radix_value b digit (significant_of t)).
Proof.
  intros Hb Hr Hz. split; [by apply value_bounds|]. unfold significant_of in *.
  case_bool_decide as E; [simpl; lia|]. intros _. pose proof (trim_zeros_head t) as Hh.
  destruct (trim_zeros t) as [|c u]; [done|]. cbn [length]. rewrite Nat.sub_succ, Nat.sub_0_r.
  apply value_leading; [done..|]. apply Forall_cons in Hz as [Hz _]. by apply Hz.
Qed.

Lemma forallb_Forall {A} (p : A -> bool) (P : A -> Prop) l :
  (forall x, p x = true -> P x) -> forallb p l = true -> Forall P l.
Proof. intros HP H. apply Forall_forall. intros x Hx. apply HP. rewrite forallb_forall in H. by apply H, list_elem_of_In. Qed.
Lemma string_length t : String.length (of_text t) = length t.
Proof. induction t as [|c t IH]; [done|]. cbn. f_equal. exact IH. Qed.
Lemma parse_decimal_value max t : t <> [] -> forallb is_digit t = true ->
  parse_digits max t = try_from max (radix_value 10 char_digit t).
Proof. intros Hne H. unfold parse_digits. rewrite H, dec_value_value. by destruct t. Qed.
Lemma parse_hex_value max t : t <> [] -> forallb is_hexdigit t = true ->
  parse_hex_digits max t = try_from max (radix_value 16 hex_value t).
Proof. intros Hne H. unfold parse_hex_digits. rewrite H. by destruct t. Qed.
Lemma try_from_class (n : Z) : 
  (if negb (n <=? U256_MAX) then Invalid
   else match try_from U128_MAX n with Some n => UValue n | None => ExceedsU128 end) = price_class n.
Proof.
  unfold price_class, try_from. rewrite <- Z.ltb_antisym. destruct (U256_MAX <? n); [done|].
  destruct (Z.leb_spec n U128_MAX), (Z.ltb_spec U128_MAX n); try lia; done.
Qed.
Lemma is_digit_no_ws t : forallb is_digit t = true -> Forall (fun c => is_ws c = false) t.
Proof. apply forallb_Forall. intros c. unfold is_digit, is_ws. lia. Qed.

Definition U256_TEXT : text := to_text U256_MAX_DECIMAL.
Lemma U256_TEXT_spells : of_text U256_TEXT = U256_MAX_DECIMAL.
Proof. apply of_to_text. Qed.
Lemma U256_TEXT_digits : forallb is_digit U256_TEXT = true /\ length U256_TEXT = 78%nat.
Proof. vm_compute. by split. Qed.
Lemma U256_TEXT_value : radix_value 10 char_digit U256_TEXT = U256_MAX.
Proof. vm_compute. reflexivity. Qed.
Lemma length_U256 : String.length U256_MAX_DECIMAL = 78%nat.
Proof. reflexivity. Qed.
Lemma U256_range : 10 ^ 77 <= U256_MAX < 10 ^ 78 /\ 16 ^ 64 = U256_MAX + 1.
Proof. vm_compute. repeat split; discriminate. Qed.
#[global] Opaque U256_MAX_DECIMAL U256_TEXT U256_MAX.
Lemma within_decimal s : s <> [] -> forallb is_digit s = true ->
  radix_value 10 char_digit s < 10 ^ Z.of_nat (length s) ->
  ((1 < length s)%nat -> 10 ^ Z.of_nat (length s - 1) <= radix_value 10 char_digit s) ->
  (if (length s <? 78)%nat then true
   else if (78 <? length s)%nat then false
   else String.leb (of_text s) U256_MAX_DECIMAL) = (radix_value 10 char_digit s <=? U256_MAX).
Proof.
  intros Hn Hs Hhi Hlo. destruct U256_range as [[B1 B2] _]. symmetry.
  destruct (Nat.ltb_spec (length s) 78) as [L|L].
  - apply Z.leb_le. etrans; [apply Z.lt_le_incl, Hhi|]. etrans; [|exact B1]. apply Z.pow_le_mono_r; lia.
  - destruct (Nat.ltb_spec 78 (length s)) as [G|G].
    + apply Z.leb_gt. eapply Z.lt_le_trans; [exact B2|]. etrans; [|apply Hlo; lia]. apply Z.pow_le_mono_r; lia.
    + destruct U256_TEXT_digits as [D1 D2].
      assert (length s = length U256_TEXT) as E by (rewrite D2; clear - L G; lia).
      pose proof (decimal_lex s U256_TEXT Hs D1 E) as R. rewrite U256_TEXT_value in R.
      rewrite U256_TEXT_spells in R. by symmetry.
Qed.
Lemma within_hex s : radix_value 16 hex_value s < 16 ^ Z.of_nat (length s) ->
  ((1 < length s)%nat -> 16 ^ Z.of_nat (length s - 1) <= radix_value 16 hex_value s) ->
  (if (length s <? 64)%nat then true else if (64 <? length s)%nat then false else true)
  = (radix_value 16 hex_value s <=? U256_MAX).
Proof.
  intros Hhi Hlo. destruct U256_range as [_ B]. symmetry. destruct (Nat.ltb_spec (length s) 64) as [L|L].
  - apply Z.leb_le. apply Z.lt_succ_r. rewrite <- Z.add_1_r, <- B. eapply Z.lt_le_trans; [exact Hhi|]. apply Z.pow_le_mono_r; lia.
  - destruct (Nat.ltb_spec 64 (length s)) as [G|G].
    + apply Z.leb_gt. eapply Z.lt_le_trans; [apply Z.lt_succ_diag_r|]. rewrite <- Z.add_1_r, <- B. etrans; [|apply Hlo; lia]. apply Z.pow_le_mono_r; lia.
    + apply Z.leb_le. assert (length s = 64%nat) as E by lia. rewrite E in Hhi. apply Z.lt_succ_r. rewrite <- Z.add_1_r, <- B. exact Hhi.
Qed.
Lemma decimal_prices t : t <> [] -> forallb is_digit t = true ->
  parse_uint256_to_u128 (of_text t) = price_class (radix_value 10 char_digit t).
Proof.
  intros Hne Hd. unfold parse_uint256_to_u128. rewrite to_of_text, trim_id by by apply is_digit_no_ws.
  assert (hex_body t = None) as ->.
  { unfold hex_body. simpl. destruct t as [|c [|d t]]; [done| |]; repeat case_bool_decide; try done; subst; by simpl in Hd. }
  rewrite bool_decide_eq_false_2, Hd by done. cbn [orb negb]. fold (significant_of t).
  pose proof (significant_value 10 char_digit t eq_refl) as Hv.
  pose proof (significant_forallb is_digit t eq_refl Hd) as Hs. pose proof (significant_nonempty t) as Hn.
  destruct (significant_bounds 10 char_digit t) as [Hhi Hlo]; [lia|by apply digit_radix| |].
  { apply (forallb_Forall is_digit); [|done]. intros c. apply digit_nonzero. }
  rewrite parse_decimal_value by done. rewrite <- Hv. clear Hv. revert Hs Hhi Hlo Hn. generalize (significant_of t).
  intros s Hs Hhi Hlo Hn. rewrite <- try_from_class, length_U256. by rewrite within_decimal.
Qed.
Lemma hex_prices t : t <> [] -> forallb is_hexdigit t = true ->
  parse_uint256_to_u128 ("0x" +:+ of_text t) = price_class (radix_value 16 hex_value t).
Proof.
  intros Hne Hd. unfold parse_uint256_to_u128.
  assert (to_text ("0x" +:+ of_text t) = "0"%char :: "x"%char :: t) as -> 
    by (change ("0"%char :: "x"%char :: to_text (of_text t) = "0"%char :: "x"%char :: t); by rewrite to_of_text).
  rewrite trim_id.
  2:{ repeat constructor. revert Hd. apply forallb_Forall. intros c. unfold is_hexdigit, is_digit, is_ws. lia. }
  change (hex_body ("0"%char :: "x"%char :: t)) with (Some t). cbv beta iota zeta.
  rewrite bool_decide_eq_false_2, Hd by done. cbn [orb negb]. fold (significant_of t).
  pose proof (significant_value 16 hex_value t eq_refl) as Hv.
  pose proof (significant_forallb is_hexdigit t eq_refl Hd) as Hs. pose proof (significant_nonempty t) as Hn.
  destruct (significant_bounds 16 hex_value t) as [Hhi Hlo]; [lia|by apply hex_radix| |].
  { apply (forallb_Forall is_hexdigit); [|done]. intros c. apply hex_nonzero. }
  rewrite parse_hex_value by done. rewrite <- Hv, <- try_from_class. clear Hv. revert Hhi Hlo. generalize (significant_of t).
  intros s Hhi Hlo. by rewrite within_hex.
Qed.

(** A price is read as the number it spells, decimal or hexadecimal, with any
    leading zeros: exactly when it fits 128 bits, as too large when it only fits the
    contract's 256 bits, and as malformed beyond that.  The reader compares digits; no
    256-bit number is ever formed. *)
Theorem prices_are_read_exactly (t : text) :
  (t <> [] -> forallb is_digit t = true ->
   parse_uint256_to_u128 (of_text t) = price_class (radix_value 10 char_digit t)) /\
  (t <> [] -> forallb is_hexdigit t = true ->
   parse_uint256_to_u128 ("0x" +:+ of_text t) = price_class (radix_value 16 hex_value t)).
Proof. split; intros; [by apply decimal_prices|by apply hex_prices]. Qed.
Lemma prices_are_read_exactly_witness :
  parse_uint256_to_u128 "000340282366920938463463374607431768211455" = UValue U128_MAX /\
  parse_uint256_to_u128 "340282366920938463463374607431768211456" = ExceedsU128.
Proof.
  split.
  - apply (proj1 (prices_are_read_exactly (to_text "000340282366920938463463374607431768211455"))); [done|reflexivity].
  - apply (proj1 (prices_are_read_exactly (to_text "340282366920938463463374607431768211456"))); [done|reflexivity].
Defined.

(** ** A row that the contract reports is the order it stores *)
Lemma digits_parse t : t <> [] -> Forall (fun c => is_digit c = true) t ->
  parse_order_u128 (of_text t) = try_from U128_MAX (dec_value (map char_digit t)).
Proof.
  intros Hne Ht. assert (forallb is_digit t = true) as Hd
    by (apply forallb_forall; intros c Hc; rewrite Forall_forall in Ht; by apply Ht, list_elem_of_In).
  unfold parse_order_u128. rewrite to_of_text, trim_id by by apply is_digit_no_ws.
  assert (hex_body t = None) as ->.
  { unfold hex_body. simpl. destruct t as [|c [|d t]]; [done| |]; repeat case_bool_decide; try done; subst; by simpl in Hd. }
  rewrite parse_uint_digits by done. unfold parse_digits. rewrite Hd. by destruct t.
Qed.
(** The spellings of a number: decimal or hexadecimal digits, with a sign where the
    reader takes one, between any whitespace, or a number of the JSON itself. *)
Inductive spelled (signs : bool) : text -> Z -> Prop :=
| spelled_decimal sign t : (sign = [] \/ signs = true /\ sign = ["+"%char]) -> t <> [] -> forallb is_digit t = true ->
    spelled signs (sign ++ t) (radix_value 10 char_digit t)
| spelled_hex x sign t : (x = "x"%char \/ x = "X"%char) -> (sign = [] \/ signs = true /\ sign = ["+"%char]) ->
    t <> [] -> forallb is_hexdigit t = true ->
    spelled signs ("0"%char :: x :: sign ++ t) (radix_value 16 hex_value t).
Inductive reports_number (signs : bool) (es : list (string * Value)) (f : string) (n : Z) : Prop :=
| reported_text raw before body after : entry f es = Some (VString raw) -> to_text raw = before ++ body ++ after ->
    Forall (fun c => is_ws c = true) before -> Forall (fun c => is_ws c = true) after -> spelled signs body n ->
    reports_number signs es f n
| reported_number : entry f es = Some (VNumber (PosInt n)) -> reports_number signs es f n.

Lemma hexdigit_no_ws t : forallb is_hexdigit t = true -> Forall (fun c => is_ws c = false) t.
Proof. apply forallb_Forall. intros c. unfold is_hexdigit, is_digit, is_ws. lia. Qed.
Lemma spelled_no_ws signs t n : spelled signs t n -> t <> [] /\ Forall (fun c => is_ws c = false) t.
Proof.
  intros [sign t' Hs Hne Hd|x sign t' Hx Hs Hne Hd].
  - split; [destruct sign; [done|]; by destruct Hs as [?|[_ [= -> ->]]]|].
    apply Forall_app. split; [|by apply is_digit_no_ws]. destruct Hs as [->|[_ ->]]; by repeat constructor.
  - split; [done|]. constructor; [done|]. constructor; [by destruct Hx as [-> | ->]|].
    apply Forall_app. split; [|by apply hexdigit_no_ws]. destruct Hs as [->|[_ ->]]; by repeat constructor.
Qed.
Lemma trim_start_pad before t :
  Forall (fun c => is_ws c = true) before -> trim_start (before ++ t) = trim_start t.
Proof. induction 1 as [|c before Hc _ IH]; [done|]. simpl. by rewrite Hc. Qed.
Lemma trim_start_app t after :
  t <> [] -> Forall (fun c => is_ws c = false) t -> trim_start (t ++ after) = t ++ after.
Proof. intros Hne Ht. destruct Ht as [|c t Hc _]; [done|]. simpl. by rewrite Hc. Qed.
Lemma trim_padded before t after :
  Forall (fun c => is_ws c = true) before -> Forall (fun c => is_ws c = true) after ->
  t <> [] -> Forall (fun c => is_ws c = false) t -> trim (before ++ t ++ after) = t.
Proof.
  intros Hb Ha Hne Ht. unfold trim. rewrite trim_start_pad, trim_start_app, rev_app_distr by done.
  rewrite trim_start_pad, trim_start_id, rev_involutive; [done|by apply Forall_rev|by apply Forall_rev].
Qed.
Lemma hex_body_hex x t : (x = "x"%char \/ x = "X"%char) -> hex_body ("0"%char :: x :: t) = Some t.
Proof. by intros [-> | ->]. Qed.
Lemma hex_body_decimal sign t : (sign = [] \/ sign = ["+"%char]) -> forallb is_digit t = true -> hex_body (sign ++ t) = None.
Proof.
  intros Hs Hd. unfold hex_body. destruct Hs as [-> | ->]; [|done].
  simpl. destruct t as [|c [|d t]]; [done| |]; repeat case_bool_decide; try done; subst; by simpl in Hd.
Qed.
Lemma parse_signed (parse_digits' : text -> option Z) (sign t : text) :
  (sign = [] \/ sign = ["+"%char]) -> Forall (fun c => c <> "+"%char) t -> t <> [] ->
  match sign ++ t with
  | c :: rest => if bool_decide (c = "+"%char) then parse_digits' rest else parse_digits' (sign ++ t)
  | [] => None (A := Z)
  end = parse_digits' t.
Proof.
  intros [-> | ->] Ht Hne; [|done]. destruct Ht as [|c t Hc _]; [done|]. simpl. by rewrite bool_decide_eq_false_2.
Qed.
Lemma digits_no_sign t : forallb is_digit t = true -> Forall (fun c => c <> "+"%char) t.
Proof. apply forallb_Forall. by intros c Hc ->. Qed.
Lemma hexdigits_no_sign t : forallb is_hexdigit t = true -> Forall (fun c => c <> "+"%char) t.
Proof. apply forallb_Forall. by intros c Hc ->. Qed.
Lemma any_sign signs (sign : text) : (sign = [] \/ signs = true /\ sign = ["+"%char]) -> sign = [] \/ sign = ["+"%char].
Proof. tauto. Qed.

Lemma spelled_parse signs body n : spelled signs body n ->
  match hex_body body with Some hex => parse_hex U128_MAX hex | None => parse_uint U128_MAX body end = try_from U128_MAX n.
Proof.
  intros [sign t Hs%any_sign Hne Hd|x sign t Hx Hs%any_sign Hne Hd].
  - rewrite hex_body_decimal by done. unfold parse_uint.
    rewrite parse_signed by (done || by apply digits_no_sign). by apply parse_decimal_value.
  - rewrite hex_body_hex by done. unfold parse_hex.
    rewrite parse_signed by (done || by apply hexdigits_no_sign). by apply parse_hex_value.
Qed.
Lemma padded_parse raw before body after signs n :
  to_text raw = before ++ body ++ after -> Forall (fun c => is_ws c = true) before ->
  Forall (fun c => is_ws c = true) after -> spelled signs body n -> parse_order_u128 raw = try_from U128_MAX n.
Proof.
  intros E Hb Ha Hs. destruct (spelled_no_ws _ _ _ Hs) as [Hne Hws]. unfold parse_order_u128.
  rewrite E, trim_padded by done. by eapply spelled_parse.
Qed.
Lemma order_u128_reports signs es f n : reports_number signs es f n -> n <= U128_MAX -> order_u128 (VObject es) f = Some n.
Proof.
  intros [raw before body after E Ht Hb Ha Hs|E] Hn; unfold order_u128, field_str; simpl; rewrite E; simpl; [|done].
  rewrite (padded_parse _ _ _ _ _ _ Ht Hb Ha Hs). by rewrite (proj2 (try_from_some U128_MAX _ _) (conj eq_refl Hn)).
Qed.
Lemma order_u64_reports signs es f n : reports_number signs es f n -> n <= U64_MAX -> order_u64 (VObject es) f = Some n.
Proof.
  intros [raw before body after E Ht Hb Ha Hs|E] Hn; unfold order_u64, field_str; simpl; rewrite E; simpl; [|done].
  rewrite (padded_parse _ _ _ _ _ _ Ht Hb Ha Hs).
  rewrite (proj2 (try_from_some U128_MAX _ _)) by (split; [done|]; unfold U64_MAX, U128_MAX in *; lia). simpl.
  by rewrite (proj2 (try_from_some U64_MAX _ _) (conj eq_refl Hn)).
Qed.

(** The row of the contract behind an order: numbers in any spelling the reader takes (a
    price has no sign), the address that the order names, and the zero address where a bid names none. *)
Record reports_order (es : list (string * Value)) (o : OrderBookOrder) : Prop := {
  ro_amount : reports_number true es "amount" (ob_ticks o);
  ro_price : reports_number false es "price" (ob_price_per_tick o);
  ro_escrow : reports_number true es "escrow" (ob_escrow o);
  ro_deadline : reports_number true es "deadline" (ob_deadline o);
  ro_flags : reports_number true es "flags" (ob_flags o);
  ro_ts : reports_number true es "ts" (ob_timestamp o);
  ro_buy : reports_bool es "isBuy" (ob_is_buy o);
  ro_note : entry "note" es = Some (VString (ob_owner_note o));
  ro_contract : exists tc, entry "tokenContract" es = Some (VString tc) /\ is_blank tc = false /\
                  ob_token_contract o = if is_canonical_zero_address tc then None else Some tc
}.
(** A live order within the widths of the contract's fields. *)
Record row_typed (o : OrderBookOrder) : Prop := {
  ot_ticks : 0 < ob_ticks o <= U128_MAX;
  ot_money : 0 <= ob_price_per_tick o <= U128_MAX /\ ob_escrow o <= U128_MAX;
  ot_times : ob_deadline o <= U64_MAX /\ ob_timestamp o <= U64_MAX;
  ot_flags : ob_flags o <= U8_MAX;
  ot_owner : is_blank (ob_owner_note o) = false /\ is_canonical_zero_address (ob_owner_note o) = false
}.

(** Where the digits are what [parse_uint256_to_u128] takes from a trimmed text. *)
Lemma price_of_trimmed raw body : trim (to_text raw) = body -> Forall (fun c => is_ws c = false) body ->
  parse_uint256_to_u128 raw = parse_uint256_to_u128 (of_text body).
Proof. intros E Hb. unfold parse_uint256_to_u128. by rewrite E, to_of_text, trim_id. Qed.
Lemma price_of_hex x t : (x = "x"%char \/ x = "X"%char) -> forallb is_hexdigit t = true ->
  parse_uint256_to_u128 (of_text ("0"%char :: x :: t)) = parse_uint256_to_u128 ("0x" +:+ of_text t).
Proof.
  intros Hx Hd. assert (to_text ("0x" +:+ of_text t) = "0"%char :: "x"%char :: t) as E
    by (change ("0"%char :: "x"%char :: to_text (of_text t) = "0"%char :: "x"%char :: t); by rewrite to_of_text).
  unfold parse_uint256_to_u128. rewrite E, to_of_text, !trim_id; [by destruct Hx as [-> | ->]|..];
    repeat constructor; try (by apply hexdigit_no_ws). by destruct Hx as [-> | ->].
Qed.
Lemma spelled_price body n : spelled false body n -> parse_uint256_to_u128 (of_text body) = price_class n.
Proof.
  intros [sign t [->|[? _]] Hne Hd|x sign t Hx [->|[? _]] Hne Hd]; [by apply decimal_prices|done| |done].
  cbn [app]. rewrite price_of_hex by done. by apply hex_prices.
Qed.
Lemma price_reports es n : reports_number false es "price" n -> n <= U128_MAX -> order_price (VObject es) = Ok n.
Proof.
  intros [raw before body after E Ht Hb Ha Hs|E] Hn; unfold order_price, field_str; simpl; rewrite E; simpl; [|done].
  destruct (spelled_no_ws _ _ _ Hs) as [Hne Hws].
  rewrite (price_of_trimmed raw body), (spelled_price _ _ Hs) by (rewrite ?Ht, ?trim_padded; done).
  unfold price_class. destruct U256_range as [[B _] _].
  rewrite (proj2 (Z.ltb_ge _ _)), (proj2 (Z.ltb_ge _ _)); [done|done|].
  etrans; [exact Hn|]. etrans; [|exact B]. by vm_compute.
Qed.
Lemma order_decodes es o : reports_order es o -> row_typed o ->
  orderbook_order_from_getter (ob_order_id o) (VObject es) = Ok (Some o).
Proof.
  intros [H1 H2 H3 H4 H5 H6 H7 H8 (tc & H9 & H10 & H11)] [T1 T2 T3 T4 [T5 T6]].
  unfold orderbook_order_from_getter. rewrite (order_u128_reports _ _ _ _ H1) by lia. cbn [ok_or].
  rewrite (proj2 (Z.eqb_neq _ _)) by lia.
  unfold written_str, field_str. cbn [get_field]. rewrite H8, H9. cbn. rewrite T5. cbn. rewrite T6.
  unfold reports_bool in H7. rewrite H7. cbn. rewrite H10. cbn.
  rewrite (price_reports _ _ H2) by lia. cbn.
  rewrite (order_u128_reports _ _ _ _ H3), (order_u64_reports _ _ _ _ H4), (order_u64_reports _ _ _ _ H5) by (unfold U8_MAX, U64_MAX in *; lia).
  cbn. rewrite (proj2 (try_from_some U8_MAX _ _) (conj eq_refl T4)). cbn.
  rewrite (order_u64_reports _ _ _ _ H6) by lia. cbn. rewrite <- H11. by destruct o.
Qed.

(** ** The scan for one deal *)
Section Scan.
Context (parse_address : string -> option string) (wanted : string).

Definition spells_wanted (tc : string) : bool :=
  match parse_address (of_text (trim (to_text tc))) with
  | Some a => eq_ignore_ascii_case (to_text a) (to_text wanted)
  | None => false
  end.
Definition ask_of_wanted (o : OrderBookOrder) : bool :=
  is_resting_ask o && match ob_token_contract o with Some tc => spells_wanted tc | None => false end.
(** A row that is proved to be no ask of the deal, readable or not. *)
Definition foreign (raw : Value) : Prop :=
  get_field raw "isBuy" ≫= as_bool = Some true \/
  exists tc, written_str raw "tokenContract" = Some tc /\ spells_wanted tc = false /\
             is_Some (parse_address (of_text (trim (to_text tc)))).

(** What a parsed row took from the row. *)
Lemma order_fields id raw o : orderbook_order_from_getter id raw = Ok (Some o) ->
  ob_order_id o = id /\ order_u128 raw "amount" = Some (ob_ticks o) /\ ob_ticks o <> 0 /\
  get_field raw "isBuy" ≫= as_bool = Some (ob_is_buy o) /\
  exists tc, written_str raw "tokenContract" = Some tc /\
    ob_token_contract o = if is_canonical_zero_address tc then None else Some tc.
Proof.
  unfold orderbook_order_from_getter. intros H. inv_ok H.
  repeat match goal with E : ok_or _ _ = Ok _ |- _ => apply ok_or_ok in E end.
  simplify_eq/=. split_and!; try done; [lia|]. eauto.
Qed.

Lemma judged_none id raw : resting_sell_for_tc parse_address id raw wanted = Ok None ->
  match orderbook_order_from_getter id raw with
  | Ok (Some o) => ask_of_wanted o = false
  | Ok None => True
  | _ => foreign raw
  end.
Proof.
  unfold resting_sell_for_tc. destruct (order_u128 raw "amount") as [n|] eqn:Ea; [|done]. cbn [ok_or].
  destruct (n =? 0) eqn:Ez.
  { intros _. unfold orderbook_order_from_getter. rewrite Ea. cbn. by rewrite Ez. }
  destruct (get_field raw "isBuy" ≫= as_bool) as [[]|] eqn:Eb; [| |done]; cbn [ok_or].
  - intros _. destruct (orderbook_order_from_getter id raw) as [[o|]|e|] eqn:P; [|done|by left..].
    apply order_fields in P as (_ & _ & _ & Hb & _). unfold ask_of_wanted, is_resting_ask.
    assert (ob_is_buy o = true) as -> by congruence. done.
  - destruct (written_str raw "tokenContract") as [tc|] eqn:Et; [|done]. cbn [ok_or].
    destruct (parse_address _) as [a|] eqn:Ep; [|done]. cbn [ok_or].
    destruct (eq_ignore_ascii_case _ _) eqn:Ew; cbn [negb].
    { destruct (orderbook_order_from_getter id raw) as [[o|]|e|]; cbn; try done. by destruct (is_resting_ask o). }
    intros _. assert (spells_wanted tc = false) as Hw by (unfold spells_wanted; by rewrite Ep).
    destruct (orderbook_order_from_getter id raw) as [[o|]|e|] eqn:P; [|done|right; eauto..].
    apply order_fields in P as (_ & _ & _ & _ & tc' & Ht & Ho). assert (tc' = tc) as -> by congruence. unfold ask_of_wanted. rewrite Ho.
    destruct (is_canonical_zero_address tc); [apply andb_false_r|]. by rewrite Hw, andb_false_r.
Qed.
Lemma judged_some id raw o : resting_sell_for_tc parse_address id raw wanted = Ok (Some o) ->
  orderbook_order_from_getter id raw = Ok (Some o) /\ ask_of_wanted o = true.
Proof.
  unfold resting_sell_for_tc. destruct (order_u128 raw "amount") as [n|]; [|done]. cbn [ok_or].
  destruct (n =? 0); [done|]. destruct (get_field raw "isBuy" ≫= as_bool) as [[]|]; [done| |done]. cbn [ok_or].
  destruct (written_str raw "tokenContract") as [tc|] eqn:Et; [|done]. cbn [ok_or].
  destruct (parse_address _) as [a|] eqn:Ep; [|done]. cbn [ok_or].
  destruct (eq_ignore_ascii_case _ _) eqn:Ew; [|done]. cbn [negb].
  destruct (orderbook_order_from_getter id raw) as [[p|]|e|] eqn:P; try done. cbn.
  destruct (is_resting_ask p) eqn:Er; [|done]. intros [= <-]. split; [done|].
  apply order_fields in P as (_ & _ & _ & _ & tc' & Ht & Ho). assert (tc' = tc) as -> by congruence.
  unfold ask_of_wanted. rewrite Er, Ho. unfold is_resting_ask in Er. rewrite Ho in Er.
  destruct (is_canonical_zero_address tc).
  - by destruct (negb (ob_is_buy p)).
  - unfold spells_wanted. by rewrite Ep.
Qed.

(** The scan for one deal, when it answers at all, is the view of the whole book cut
    down to that deal's resting asks, in the same order; and every row the view had to
    drop as unreadable is proved to be no ask of the deal.  So a vacant answer cannot
    hide an ask behind a row that does not parse. *)
Theorem the_scan_is_the_view_of_one_deal (slots : list (Z * Value)) (orders : list OrderBookOrder) :
  resting_sells parse_address wanted slots = Ok orders ->
  orders = List.filter ask_of_wanted (collect_live_orders slots) /\
  Forall (fun '(id, raw) => match orderbook_order_from_getter id raw with Ok _ => True | _ => foreign raw end) slots.
Proof.
  revert orders. induction slots as [|[id raw] slots IH]; intros orders; cbn [resting_sells].
  { intros [= <-]. by split. }
  destruct (resting_sell_for_tc _ _ _ _) as [[o|]|e|] eqn:J; try done; cbn;
    destruct (resting_sells _ _ _) as [more|e|]; try done; cbn; intros [= <-];
    destruct (IH more eq_refl) as [Hf Hall].
  - apply judged_some in J as [P Ha]. rewrite P. cbn. rewrite Ha. split; [by f_equal|]. constructor; [by rewrite P|done].
  - apply judged_none in J. destruct (orderbook_order_from_getter id raw) as [[p|]|e|] eqn:P; cbn.
    + rewrite J. split; [done|]. constructor; [by rewrite P|done].
    + split; [done|]. constructor; [by rewrite P|done].
    + split; [done|]. constructor; [by rewrite P|done].
    + split; [done|]. constructor; [by rewrite P|done].
Qed.
End Scan.

(** ** A whole book *)
Section Sorting.
Context {A B : Type} (R : A -> B -> Prop) (le : A -> A -> bool) (le' : B -> B -> bool).
Hypothesis Hle : forall a a' b b', R a b -> R a' b' -> le a a' = le' b b'.
Lemma insert_by_related a b l l' : R a b -> Forall2 R l l' -> Forall2 R (insert_by le a l) (insert_by le' b l').
Proof.
  intros Hab. induction 1 as [|x y l l' Hxy Hl IH]; cbn; [by repeat constructor|].
  rewrite (Hle _ _ _ _ Hab Hxy). destruct (le' b y); by repeat constructor.
Qed.
Lemma sort_by_related l l' : Forall2 R l l' -> Forall2 R (sort_by le l) (sort_by le' l').
Proof. induction 1; cbn; [constructor|]. by apply insert_by_related. Qed.
End Sorting.

Definition order_id_le (a b : OrderBookOrder) : bool := ob_order_id a <=? ob_order_id b.
Definition stores (row : string * Value) (o : OrderBookOrder) : Prop :=
  parse_uint U128_MAX (to_text (fst row)) = Some (ob_order_id o) /\ row_typed o /\
  exists es, snd row = VObject es /\ reports_order es o.
Definition slot_of (slot : Z * Value) (o : OrderBookOrder) : Prop :=
  fst slot = ob_order_id o /\ orderbook_order_from_getter (fst slot) (snd slot) = Ok (Some o).

Lemma slots_stored rows orders : Forall2 stores rows orders ->
  exists slots, parse_slots rows = Ok slots /\ Forall2 slot_of slots orders.
Proof.
  induction 1 as [|[k v] o rows orders (Hk & Ht & es & Hv & Hr) _ (slots & IH & Hs)]; [by exists []|].
  exists ((ob_order_id o, v) :: slots). cbn [fst snd parse_slots] in *. rewrite Hk. cbn. rewrite IH. split; [done|].
  constructor; [|done]. split; [done|]. cbn. subst v. by apply order_decodes.
Qed.
Lemma live_orders_of slots orders : Forall2 slot_of slots orders -> collect_live_orders slots = orders.
Proof. induction 1 as [|[id raw] o slots orders [_ H] _ IH]; [done|]. cbn in *. by rewrite H, IH. Qed.


(** ** A small book *)
Definition zero_address : string := of_text (to_text "0:" ++ replicate 64 "0"%char).
Definition sample_row (amount price note tc : string) (is_buy : bool) : Value :=
  VObject [("amount", VString amount); ("deadline", VString "0"); ("escrow", VNumber (PosInt 7)); ("flags", VString "0X00");
           ("isBuy", VBool is_buy); ("note", VString note); ("price", VString price);
           ("tokenContract", VString tc); ("ts", VString "+1700000000")].
Definition sample_rows : list (string * Value) :=
  [("10", sample_row "0x005" " 0x1e " "0:aa" "0:d1" false); ("2", sample_row "4" "0020" "0:bb" zero_address true)].
Definition sample_ask : OrderBookOrder := mkOrder 10 "0:aa" (Some "0:d1") false 30 5 7 0 0 1700000000.
Definition sample_bid : OrderBookOrder := mkOrder 2 "0:bb" None true 20 4 7 0 0 1700000000.

Lemma reports_at signs es f n raw before body after : entry f es = Some (VString raw) ->
  to_text raw = before ++ body ++ after -> forallb is_ws (before ++ after) = true -> spelled signs body n ->
  reports_number signs es f n.
Proof.
  intros E Ht Hw Hs. rewrite forallb_app in Hw. apply andb_true_iff in Hw as [Hb Ha].
  eapply reported_text; [exact E|exact Ht| | |exact Hs]; by apply (forallb_Forall is_ws).
Qed.
Lemma plain_digits signs es f raw n : entry f es = Some (VString raw) -> to_text raw <> [] ->
  forallb is_digit (to_text raw) = true -> radix_value 10 char_digit (to_text raw) = n -> reports_number signs es f n.
Proof.
  intros E Hne Hd <-. apply (reports_at _ _ _ _ raw [] (to_text raw) []); [done|by rewrite app_nil_r|done|].
  apply (spelled_decimal _ [] (to_text raw)); [by left|done|done].
Qed.
Lemma sample_numbers id amount price note tc b n m es : sample_row amount price note tc b = VObject es ->
  reports_number true es "amount" n -> reports_number false es "price" m -> is_blank tc = false ->
  reports_order es (mkOrder id note (if is_canonical_zero_address tc then None else Some tc) b m n 7 0 0 1700000000).
Proof.
  intros [= <-] Hn Hm Htc. constructor; try done.
  - by apply reported_number.
  - by apply (plain_digits _ _ _ "0").
  - apply (reports_at _ _ _ _ "0X00" [] (to_text "0X00") []); [done..|].
    apply (spelled_hex true "X" [] (to_text "00")); [by right|by left|done..].
  - apply (reports_at _ _ _ _ "+1700000000" [] (to_text "+1700000000") []); [done..|].
    apply (spelled_decimal true (to_text "+") (to_text "1700000000")); [by right|done..].
  - by exists tc.
Qed.
Lemma sample_stored : Forall2 stores sample_rows [sample_ask; sample_bid].
Proof.
  repeat constructor; try reflexivity; try done; eexists; (split; [reflexivity|]).
  - apply (sample_numbers 10 "0x005" " 0x1e " "0:aa" "0:d1" false 5 30 _ eq_refl); [| |done].
    + apply (reports_at _ _ _ _ "0x005" [] (to_text "0x005") []); [done..|].
      apply (spelled_hex true "x" [] (to_text "005")); [by left|by left|done..].
    + apply (reports_at _ _ _ _ " 0x1e " (to_text " ") (to_text "0x1e") (to_text " ")); [done..|].
      apply (spelled_hex false "x" [] (to_text "1e")); [by left|by left|done..].
  - apply (sample_numbers 2 "4" "0020" "0:bb" zero_address true 4 20 _ eq_refl); [| |done].
    + by apply (plain_digits _ _ _ "4").
    + by apply (plain_digits _ _ _ "0020").
Qed.
(** A bid that does not parse is skipped by the view and harmless to the scan. *)
Definition broken_bid : Value := sample_row "4" "twenty" "0:bb" zero_address true.
Lemma the_scan_is_the_view_of_one_deal_witness :
  [sample_ask] = List.filter (ask_of_wanted Some "0:D1")
                   (collect_live_orders [(10, sample_row "5" "30" "0:aa" "0:d1" false); (11, broken_bid)]).
Proof.
  exact (proj1 (the_scan_is_the_view_of_one_deal Some "0:D1"
    [(10, sample_row "5" "30" "0:aa" "0:d1" false); (11, broken_bid)] [sample_ask] eq_refl)).
Defined.
(** An ask whose deal cannot be read stops the scan, and the view drops it. *)
Example an_unreadable_ask_stops_the_scan :
  let slots := [(10, sample_row "5" "30" "0:aa" "" false)] in
  resting_sells Some "0:D1" slots = Err "active SELL has no tokenContract" /\ collect_live_orders slots = [].
Proof. by vm_compute. Qed.
