(* ===== verification/Receipt.v ===== *)
(** * Receipt: the settlement receipt of one deal
    (crates/dexdo/src/cli/settlement_receipt.rs)

    The command reads a deal's own event log, its getters and what the two notes
    report being credited, and prints one report: the terminal event, where the
    money went, and every inconsistency it found.  Amounts stay numbers here (the
    report prints them in decimal); the address parser of the chain library is
    the parameter [normalized_address]. *)
From Stdlib Require Import Ascii.
From S2P Require Import Prelude Text Params MarketTypes Conservation Accounting Json Getters.

(** ** What the chain reader returns (crates/core/src/chain/client.rs) *)

Inductive TokenContractSettlementEvent : Type :=
| ContractDeployed (token_contract : string)
| StreamFunded (buyer : string) (deposit : Z)
| SellerBondFunded (amount : Z)
| BuyerBondFunded (amount : Z)
| StreamOpened (buyer : string) (price_per_tick : Z)
| ProbeAccepted (buyer : string) (to_seller bond_returned : Z)
| ProbeBurned (buyer : string) (burned_probe burned_bond refund_to_buyer : Z)
| TickFinalized (finalized_owed deposit : Z)
| TicksClaimed (trusted claimed : Z)
| StreamStopped (buyer : string) (to_seller refund_to_buyer : Z)
| StreamDisputed (buyer : string) (at_ : Z)
| DisputeResolved (to_seller refund_to_buyer : Z) (released : bool)
| StreamReclaimed (buyer : string) (refund_to_buyer : Z)
| ShellWithdrawn (recipient : string) (amount : Z)
| ContractDestroyed (token_contract : string).

Record TokenContractSettlementReceipt : Type := mkEvent {
  ev_message_id : string; ev_created_at : Z; ev_cursor : string;
  ev_event : TokenContractSettlementEvent }.
Record NoteDealCreditReceipt : Type := mkCredit {
  nc_note : string; nc_deal : string; nc_amount : Z;
  nc_message_id : string; nc_created_at : Z; nc_cursor : string }.
Record TokenContractCurrentFacts : Type := mkFacts {
  cf_state : Value; cf_fees : Value; cf_deal : Value;
  cf_parties : Value; cf_seller : Value; cf_version : Value }.
Record TokenContractReceiptChainData : Type := mkChainData {
  ch_account_id : string;
  ch_account_active : bool;
  ch_code_hash : option string;
  ch_current : option TokenContractCurrentFacts;
  ch_events : list TokenContractSettlementReceipt;
  ch_note_credits : list NoteDealCreditReceipt;
  ch_notes_read : list string }.

(** ** Predicates on one event *)

Definition is_terminal (e : TokenContractSettlementEvent) : bool :=
  match e with
  | ProbeBurned _ _ _ _ | StreamStopped _ _ _ | DisputeResolved _ _ _ | StreamReclaimed _ _ => true
  | _ => false
  end.
Definition terminal_refund_to_buyer (e : TokenContractSettlementEvent) : option Z :=
  match e with
  | ProbeBurned _ _ _ refund | StreamStopped _ _ refund | DisputeResolved _ refund _
  | StreamReclaimed _ refund => Some refund
  | _ => None
  end.
Definition event_buyer (e : TokenContractSettlementEvent) : option string :=
  match e with
  | StreamFunded buyer _ | StreamOpened buyer _ | ProbeAccepted buyer _ _ | ProbeBurned buyer _ _ _
  | StreamStopped buyer _ _ | StreamDisputed buyer _ | StreamReclaimed buyer _ => Some buyer
  | _ => None
  end.
Definition event_contract (e : TokenContractSettlementEvent) : option string :=
  match e with ContractDeployed tc | ContractDestroyed tc => Some tc | _ => None end.
Definition is_destroyed (e : TokenContractSettlementEvent) : bool :=
  match e with ContractDestroyed _ => true | _ => false end.
(** [let ShellWithdrawn { amount, .. }]: the filter and the destructuring in one. *)
Definition withdrawn_amount (e : TokenContractSettlementEvent) : option Z :=
  match e with ShellWithdrawn _ amount => Some amount | _ => None end.

(** ** The receipt *)

Record ConservationTermReceipt : Type := mkTerm {
  ct_kind : string; ct_amount : Z; ct_message_id : string; ct_created_at : Z }.
Record BuyerPositionReceipt : Type := mkPosition {
  bp_deposit : Z; bp_bond : Z; bp_total_debit : Z; bp_credited_back : Z;
  bp_net : Z; bp_net_excluding_bond : Z }.
Record ConservationReceipt : Type := mkConservation {
  cn_status : string;
  cn_funded_in : Z;
  cn_funding : list ConservationTermReceipt;
  cn_credited_to_notes : Z;
  cn_written_off : option Z;
  cn_written_off_basis : string;
  cn_declared_write_off : option Z;
  cn_declared_payout : option Z;
  cn_payout : option Z;
  cn_payout_source : string;
  cn_unexplained : option Z;
  cn_buyer_position : option BuyerPositionReceipt;
  cn_missing : list string }.

(** [BuyerPositionReceipt] and the sums: a running total with a sticky overflow flag,
    which keeps the last total that fitted. *)
Definition tally (acc : Z * bool) (amount : Z) : Z * bool :=
  match u128_checked_add (fst acc) amount with
  | Some total => (total, snd acc)
  | None => (fst acc, true)
  end.
Definition tally_all (amounts : list Z) : Z * bool := fold_left tally amounts (0, false).

(** The kind and amount of a funding event; [continue] on any other. *)
Definition funding_of (e : TokenContractSettlementEvent) : option (string * Z) :=
  match e with
  | StreamFunded _ paid => Some ("escrow_funded", paid)
  | SellerBondFunded amount => Some ("seller_bond_funded", amount)
  | BuyerBondFunded amount => Some ("buyer_bond_funded", amount)
  | _ => None
  end.
Definition funding_terms (events : list TokenContractSettlementReceipt) : list ConservationTermReceipt :=
  omap (fun r => match funding_of (ev_event r) with
                 | Some (kind, amount) => Some (mkTerm kind amount (ev_message_id r) (ev_created_at r))
                 | None => None
                 end) events.
(** The last deposit and the last buyer bond seen by the loop. *)
Definition last_deposit (events : list TokenContractSettlementReceipt) : option Z :=
  fold_left (fun acc r => match ev_event r with StreamFunded _ paid => Some paid | _ => acc end) events None.
Definition last_buyer_bond (events : list TokenContractSettlementReceipt) : option Z :=
  fold_left (fun acc r => match ev_event r with BuyerBondFunded a => Some a | _ => acc end) events None.

(** What the deal itself said about the split: the payout, and the burn. *)
Definition declared_split (terminal : option TokenContractSettlementEvent) : option Z * option Z :=
  match terminal with
  | Some (StreamStopped _ to_seller refund) | Some (DisputeResolved to_seller refund _) =>
      (u128_checked_add to_seller refund, None)
  | Some (ProbeBurned _ burned_probe burned_bond _) =>
      (None, u128_checked_add burned_probe burned_bond)
  | _ => (None, None)
  end.

(** [i128::try_from(value).unwrap_or(i128::MAX)] and [saturating_sub] on [i128]. *)
Definition signed_amount (v : Z) : Z := saturate I128_MAX v.
Definition i128_saturating_sub (a b : Z) : Z := Z.max I128_MIN (Z.min I128_MAX (a - b)).

Definition credits_to (buyer : string) (credits : list NoteDealCreditReceipt) : list NoteDealCreditReceipt :=
  List.filter (fun c => bool_decide (nc_note c = buyer)) credits.
Definition buyer_position (deposit buyer_bond : option Z) (buyer : option string)
    (credits : list NoteDealCreditReceipt) : option BuyerPositionReceipt :=
  match deposit, buyer with
  | Some deposit, Some buyer =>
      let bond := default 0 buyer_bond in
      let credited_back :=
        fold_left (fun total c => saturating_add U128_MAX total (nc_amount c)) (credits_to buyer credits) 0 in
      match buyer_total_debit deposit bond with
      | Some total_debit =>
          Some {| bp_deposit := deposit; bp_bond := bond; bp_total_debit := total_debit;
                  bp_credited_back := credited_back;
                  bp_net := buyer_net_result credited_back total_debit;
                  bp_net_excluding_bond := buyer_net_result credited_back deposit |}
      | None => None
      end
  | _, _ => None
  end.

(** [if b { missing.push(reason) }]. *)
Definition push_if (b : bool) (reason : string) : list string := if b then [reason] else [].

Definition conservation_receipt (events : list TokenContractSettlementReceipt)
    (terminal : option TokenContractSettlementEvent) (chain : TokenContractReceiptChainData)
    (buyer_address : option string) : ConservationReceipt :=
  let funding := funding_terms events in
  let '(funded_in, funded_overflowed) := tally_all (map ct_amount funding) in
  let '(credited_to_notes, credit_overflowed) := tally_all (map nc_amount (ch_note_credits chain)) in
  let '(declared_payout, declared_write_off) := declared_split terminal in
  let credits_complete :=
    (2 <=? length (ch_notes_read chain))%nat && negb (bool_decide (ch_note_credits chain = [])) in
  let payout := if credits_complete then Some credited_to_notes else declared_payout in
  let payout_source := if credits_complete then "note_deal_credited" else "deal_terminal_event" in
  let '(written_off, written_off_basis) :=
    match declared_write_off, payout with
    | Some burned, _ => (Some burned, "declared_by_terminal_event")
    | None, Some paid => (Some (saturating_sub funded_in paid), "implied_by_conservation")
    | None, None => (None, "unestablished")
    end in
  let unexplained :=
    match written_off, payout with
    | Some written_off, Some paid =>
        Some (i128_saturating_sub (i128_saturating_sub (signed_amount funded_in) (signed_amount paid))
                (signed_amount written_off))
    | _, _ => None
    end in
  let disagrees :=
    match declared_payout with
    | Some declared => credits_complete && negb (declared =? credited_to_notes)
    | None => false
    end in
  let status :=
    if disagrees then "unbalanced"
    else match unexplained with
         | None => "incomplete"
         | Some u => if negb credits_complete then "unverified"
                     else if u =? 0 then "conserved" else "unbalanced"
         end in
  {| cn_status := status; cn_funded_in := funded_in; cn_funding := funding;
     cn_credited_to_notes := credited_to_notes; cn_written_off := written_off;
     cn_written_off_basis := written_off_basis; cn_declared_write_off := declared_write_off;
     cn_declared_payout := declared_payout; cn_payout := payout; cn_payout_source := payout_source;
     cn_unexplained := unexplained;
     cn_buyer_position :=
       buyer_position (last_deposit events) (last_buyer_bond events) buyer_address (ch_note_credits chain);
     cn_missing :=
       push_if funded_overflowed "funding_total_overflow"
       ++ push_if (bool_decide (funding = [])) "no_funding_event_observed"
       ++ push_if credit_overflowed "note_credit_total_overflow"
       ++ push_if (negb credits_complete) "payout_not_cross_checked_notes_read"
       ++ push_if (negb (bool_decide (is_Some written_off))) "terminal_settlement_event_absent"
       ++ push_if disagrees "declared_payout_disagrees_with_note_credits"
       ++ push_if (match payout with Some paid => funded_in <? paid | None => false end)
            "declared_payout_exceeds_funding" |}.

(** ** The current getters *)

Definition normalized_code_hash (value : string) : option string :=
  let value := trim (to_text value) in
  let value := trim_start_matches ["0"%char; "x"%char] value in
  let value := trim_start_matches ["0"%char; "X"%char] value in
  if bool_decide (value = []) then None else Some (of_text (to_ascii_lowercase value)).

(** The text of a JSON number, as [to_string] writes it. *)
Definition number_text (n : Number) : text :=
  match n with PosInt n => print_u128 n | NegInt n => "-"%char :: print_u128 (- n) | Float repr => to_text repr end.
Definition decimal_u128 (value : Value) (field : string) : option Z :=
  raw ← get_field value field;
  match raw with
  | VString s => parse_uint U128_MAX (to_text s)
  | VNumber n => parse_uint U128_MAX (number_text n)
  | _ => None
  end.
Definition integer_u64 (value : Value) (field : string) : option Z :=
  raw ← get_field value field;
  match raw with
  | VString s => parse_uint U64_MAX (to_text s)
  | VNumber _ => as_u64 raw
  | _ => None
  end.
Definition boolean (value : Value) (field : string) : option bool :=
  raw ← get_field value field; as_bool raw.
(** The trimmed string of a field, when it is not empty. *)
Definition string_field (value : Value) (field : string) : option string :=
  raw ← get_field value field; s ← as_str raw;
  let t := trim (to_text s) in if bool_decide (t = []) then None else Some (of_text t).

Record CurrentFeesReceipt : Type := mkFees {
  fees_accrued : Z; fees_ticks_finalized : Z; fees_ever_disputed : bool;
  fees_rebate_max_bps : Z; fees_rebate_slope_bps : Z }.
Record DealTermsReceipt : Type := mkTerms {
  dt_tick_size : Z; dt_price_per_tick : Z; dt_max_ticks : Z }.
Record CurrentSellerReceipt : Type := mkSeller {
  cs_seller_pubkey : string; cs_root_model_address : string; cs_nonce : Z }.
Record ContractVersionReceipt : Type := mkVersion { cv_version : string; cv_contract : string }.
(** [CurrentStateReceipt] repeats the decoded state field by field. *)
Record ParsedCurrent : Type := mkParsed {
  pc_state : DealChainState;
  pc_fees : CurrentFeesReceipt;
  pc_seller : CurrentSellerReceipt;
  pc_deal : DealTermsReceipt;
  pc_buyer_note : option string;
  pc_seller_note : string;
  pc_version : ContractVersionReceipt }.

Section Receipt.
Context (normalized_address : string -> option string).

(** [Some None]: the field is there and names nobody. *)
Definition optional_nonzero_address (value : Value) (field : string) : option (option string) :=
  raw ← get_field value field; s ← as_str raw;
  let t := trim (to_text s) in
  if bool_decide (t = []) then Some None
  else
    address ← normalized_address (of_text t);
    let bare := match split_once ":"%char (to_text address) with
                | Some (_, bare) => bare
                | None => to_text address
                end in
    Some (if negb (forallb (fun c => bool_decide (c = "0"%char)) bare) then Some address else None).

Definition parse_current (current : TokenContractCurrentFacts) (facts : DealChainState)
    : option ParsedCurrent :=
  fee_accrued ← decimal_u128 (cf_fees current) "feeAccrued";
  ticks_finalized ← decimal_u128 (cf_fees current) "ticksFinalized";
  ever_disputed ← boolean (cf_fees current) "everDisputed";
  rebate_max_bps ← integer_u64 (cf_fees current) "rebateMaxBps";
  rebate_slope_bps ← integer_u64 (cf_fees current) "rebateSlopeBps";
  tick_size ← decimal_u128 (cf_deal current) "tickSize";
  price_per_tick ← decimal_u128 (cf_deal current) "pricePerTick";
  max_ticks ← decimal_u128 (cf_deal current) "maxTicks";
  buyer_note ← optional_nonzero_address (cf_parties current) "buyer";
  seller_raw ← get_field (cf_parties current) "sellerNote";
  seller_text ← as_str seller_raw;
  seller_note ← normalized_address seller_text;
  seller_pubkey ← or_else (string_field (cf_seller current) "sellerPubkey")
                    (string_field (cf_seller current) "value0");
  root_raw ← get_field (cf_seller current) "rootModelAddress";
  root_text ← as_str root_raw;
  root_model_address ← normalized_address root_text;
  nonce ← integer_u64 (cf_seller current) "nonce";
  version ← string_field (cf_version current) "value0";
  contract ← string_field (cf_version current) "value1";
  Some {| pc_state := facts;
          pc_fees := mkFees fee_accrued ticks_finalized ever_disputed rebate_max_bps rebate_slope_bps;
          pc_seller := mkSeller seller_pubkey root_model_address nonce;
          pc_deal := mkTerms tick_size price_per_tick max_ticks;
          pc_buyer_note := buyer_note; pc_seller_note := seller_note;
          pc_version := mkVersion version contract |}.

(** ** The consistency checks, in the order of [build_receipt] *)

(** The code identity: the hash the manifest expects against the account's. *)
Definition code_identity (chain : TokenContractReceiptChainData) (expected : option string)
    : option string * option bool * list string :=
  let actual := h ← ch_code_hash chain; normalized_code_hash h in
  let matches_manifest :=
    match actual, expected with Some a, Some e => Some (bool_decide (a = e)) | _, _ => None end in
  (actual, matches_manifest,
   push_if (bool_decide (matches_manifest = Some false)) "token_contract_code_hash_mismatch"
   ++ push_if (bool_decide (expected = None)) "manifest_token_contract_code_hash_missing"
   ++ push_if (ch_account_active chain && bool_decide (actual = None))
        "active_token_contract_code_hash_missing").

Definition read_current (chain : TokenContractReceiptChainData) : option ParsedCurrent * list string :=
  match ch_current chain, ch_account_active chain with
  | Some current, true =>
      match decode_state (cf_state current) with
      | Ok state =>
          match parse_current current state with
          | Some parsed => (Some parsed, [])
          | None => (None, ["current_getter_shape_invalid"])
          end
      | Err reason => (None, ["current_getter_shape_invalid: " +:+ reason; "current_getter_shape_invalid"])
      | Panic => (None, ["current_getter_shape_invalid"])
      end
  | None, true => (None, ["active_token_contract_getters_missing"])
  | Some _, false => (None, ["inactive_token_contract_has_current_getters"])
  | None, false => (None, [])
  end.

Definition current_issues (parsed : option ParsedCurrent) : list string :=
  match parsed with
  | Some current =>
      push_if (negb (bool_decide (cv_contract (pc_version current) = "TokenContract")))
        "get_version_contract_identity_mismatch"
      ++ push_if (negb (dt_tick_size (pc_deal current) =? TICK_SIZE)) "deal_tick_size_mismatch"
  | None => []
  end.

(** [(a.created_at, &a.cursor) <= (b.created_at, &b.cursor)]. *)
Definition event_le (a b : TokenContractSettlementReceipt) : bool :=
  (ev_created_at a <? ev_created_at b)
  || ((ev_created_at a =? ev_created_at b) && String.leb (ev_cursor a) (ev_cursor b)).
(** [windows(2).all(..)]. *)
Fixpoint ordered (events : list TokenContractSettlementReceipt) : bool :=
  match events with
  | a :: rest => match rest with b :: _ => event_le a b && ordered rest | [] => true end
  | [] => true
  end.
(** [events.iter().any(|e| !ids.insert(e.message_id))]. *)
Fixpoint repeated (seen : gset string) (ids : list string) : bool :=
  match ids with
  | [] => false
  | i :: rest => bool_decide (i ∈ seen) || repeated ({[i]} ∪ seen) rest
  end.

(** The distinct buyers the log names (the [BTreeSet] of the source). *)
Definition observed_buyers (events : list TokenContractSettlementReceipt) : list string :=
  remove_dups (omap (fun r => b ← event_buyer (ev_event r); normalized_address b) events).
(** [observed_buyers.first()]: the least. *)
Definition least (l : list string) : option string := head (sort_by String.leb l).

Definition event_party_issues (token_contract : string) (events : list TokenContractSettlementReceipt)
    : list string :=
  flat_map (fun r =>
    match event_buyer (ev_event r) with
    | Some buyer => push_if (bool_decide (normalized_address buyer = None)) "event_buyer_address_invalid"
    | None => []
    end
    ++ match event_contract (ev_event r) with
       | Some tc => push_if (negb (bool_decide (normalized_address tc = Some token_contract)))
                      "event_token_contract_mismatch"
       | None => []
       end) events.

Definition buyer_issues (parsed : option ParsedCurrent) (observed : option string) : list string :=
  match parsed, observed with
  | Some current, Some observed =>
      match pc_buyer_note current with
      | Some current_buyer =>
          push_if (negb (bool_decide (current_buyer = observed))) "event_getter_buyer_mismatch"
      | None => ["current_buyer_missing_for_observed_lifecycle"]
      end
  | _, _ => []
  end.

Definition terminal_events (events : list TokenContractSettlementReceipt)
    : list TokenContractSettlementReceipt :=
  List.filter (fun r => is_terminal (ev_event r)) events.
(** The positions of the destruction events. *)
Definition destroyed_at (events : list TokenContractSettlementReceipt) : list nat :=
  omap (fun p => if is_destroyed (ev_event (snd p)) then Some (fst p) else None)
    (imap (fun i r => (i, r)) events).
Definition destruction_issues (active : bool) (events : list TokenContractSettlementReceipt) : list string :=
  let destroyed := destroyed_at events in
  push_if (1 <? length destroyed)%nat "multiple_contract_destroyed_events"
  ++ push_if (match destroyed with i :: _ => negb (i + 1 =? length events)%nat | [] => false end)
       "event_after_contract_destroyed"
  ++ push_if (active && negb (bool_decide (destroyed = []))) "destroyed_event_with_active_account".

(** The first terminal event against the deal's own state: a settled deal holds
    no escrow and no probe. *)
Definition terminal_state_issues (terminal : option TokenContractSettlementReceipt)
    (parsed : option ParsedCurrent) : list string :=
  match terminal, parsed with
  | Some terminal, Some current =>
      let state := pc_state current in
      push_if (ds_opened state || ds_disputed state || negb (ds_deposit state =? 0)
               || negb (ds_probe_tick state =? 0)) "terminal_event_current_state_mismatch"
      ++ match ev_event terminal with
         | ProbeBurned _ _ _ _ => push_if (ds_probe_accepted state) "probe_burned_getter_probe_accepted"
         | StreamStopped _ _ _ =>
             push_if (negb (ds_probe_accepted state)) "stream_stopped_getter_probe_not_accepted"
         | _ => []
         end
  | _, _ => []
  end.

(** The withdrawals: their sum with a sticky overflow, and what is wrong with them. *)
Definition withdrawals (events : list TokenContractSettlementReceipt) : list Z :=
  omap (fun r => withdrawn_amount (ev_event r)) events.
Definition withdrawal_issues (amounts : list Z) : list string :=
  push_if (existsb (fun a => a =? 0) amounts) "zero_shell_withdrawal"
  ++ push_if (snd (tally_all amounts)) "shell_withdrawal_total_overflow".

(** [issues.sort(); issues.dedup()]. *)
Fixpoint dedup (l : list string) : list string :=
  match l with
  | [] => []
  | x :: l => match dedup l with
              | y :: r => if bool_decide (x = y) then y :: r else x :: y :: r
              | [] => [x]
              end
  end.
Definition sorted_issues (issues : list string) : list string := dedup (sort_by String.leb issues).

(** ** The report *)

Record ReceiptContext : Type := mkContext {
  cx_generated_at : Z; cx_network : string; cx_chain_endpoint : string;
  cx_contracts_generation : option string; cx_expected_code_hash : option string;
  cx_token_contract : string; cx_season : option Z }.
Record OutcomeReceipt : Type := mkOutcome {
  oc_status : string; oc_amount : option Z; oc_source : option string;
  oc_deal_amount : option Z; oc_note_amount : option Z;
  oc_note_credits : list NoteDealCreditReceipt; oc_notes_read : list string; oc_missing : list string }.
Record TerminalReceipt : Type := mkTerminalReceipt {
  tm_status : string; tm_event : option TokenContractSettlementReceipt }.
Record WithdrawalReceipt : Type := mkWithdrawal {
  wd_status : string; wd_events : list TokenContractSettlementReceipt;
  wd_observed_amount : Z; wd_finalized_owed : option Z }.
Record PartyReceipt : Type := mkParty {
  pa_role : string; pa_address : option string; pa_source : option string }.
Record RewardsQueryReceipt : Type := mkQuery {
  rq_role : string; rq_participant_note : option string; rq_query_path : option string }.
Record CodeIdentityReceipt : Type := mkIdentity {
  ci_actual : option string; ci_expected : option string; ci_matches_manifest : option bool }.
Record SettlementReceiptV1 : Type := mkReceiptV1 {
  rv_generated_at : Z;
  rv_address : string;
  rv_account_status : string;
  rv_contract_version : option ContractVersionReceipt;
  rv_code_identity : CodeIdentityReceipt;
  rv_buyer_note : PartyReceipt;
  rv_seller_note : PartyReceipt;
  rv_deal : option DealTermsReceipt;
  rv_current : option ParsedCurrent;
  rv_terminal : TerminalReceipt;
  rv_outcome : OutcomeReceipt;
  rv_settlement_sequence : list TokenContractSettlementReceipt;
  rv_conservation : option ConservationReceipt;
  rv_withdrawal : WithdrawalReceipt;
  rv_rewards : list RewardsQueryReceipt;
  rv_consistency_issues : list string }.

(** The season is printed in decimal. *)
Definition rewards_query (role : string) (participant_note : option string) (season : option Z)
    : RewardsQueryReceipt :=
  {| rq_role := role; rq_participant_note := participant_note;
     rq_query_path :=
       note ← participant_note;
       Some (match season with
             | Some season => "/v1/notes/" +:+ note +:+ "?season=" +:+ of_text (print_u128 season)
             | None => "/v1/notes/" +:+ note
             end) |}.

(** What happened to the buyer's money, and from whose statement. *)
Definition outcome_receipt (chain : TokenContractReceiptChainData) (buyer_address : option string)
    (deal_refund : option Z) : OutcomeReceipt * list string :=
  let buyer_credits := match buyer_address with
                       | Some buyer => credits_to buyer (ch_note_credits chain)
                       | None => []
                       end in
  let '(note_total, note_total_overflowed) := tally_all (map nc_amount buyer_credits) in
  let has_note_statement := negb (bool_decide (buyer_credits = [])) && negb note_total_overflowed in
  let '(status, issues) :=
    match deal_refund, has_note_statement with
    | Some deal, true =>
        if negb (deal =? note_total) then ("divergent", ["outcome_amount_divergence"]) else ("settled", [])
    | Some _, false => ("settled", [])
    | None, true => ("returned", [])
    | None, false => ("undetermined", [])
    end in
  ({| oc_status := status;
      oc_amount := match deal_refund, has_note_statement with
                   | Some deal, _ => Some deal
                   | None, true => Some note_total
                   | None, false => None
                   end;
      oc_source := match deal_refund, has_note_statement with
                   | Some _, _ => Some "deal_terminal_event"
                   | None, true => Some "note_deal_credited"
                   | None, false => None
                   end;
      oc_deal_amount := deal_refund;
      oc_note_amount := if has_note_statement then Some note_total else None;
      oc_note_credits := buyer_credits;
      oc_notes_read := ch_notes_read chain;
      oc_missing :=
        if bool_decide (status = "undetermined")
        then [if ch_account_active chain then "deal_still_active"
              else "deal_posted_no_terminal_settlement_event";
              if bool_decide (ch_notes_read chain = []) then "counterparty_note_unidentified"
              else "note_reported_no_credit_for_this_deal"]
        else [] |},
   push_if note_total_overflowed "note_credit_total_overflow" ++ issues).

(** Every issue found before the terminal status is decided. *)
Definition log_issues (token_contract : string) (expected : option string)
    (chain : TokenContractReceiptChainData) : list string :=
  let events := ch_events chain in
  let '(_, _, identity_issues) := code_identity chain expected in
  let '(parsed, read_issues) := read_current chain in
  let buyers := observed_buyers events in
  let terminals := terminal_events events in
  push_if (negb (bool_decide (ch_account_id chain = token_contract))) "reader_account_mismatch"
  ++ identity_issues ++ read_issues ++ current_issues parsed
  ++ push_if (negb (ordered events)) "settlement_sequence_not_ordered"
  ++ push_if (repeated ∅ (map ev_message_id events)) "duplicate_event_message_id"
  ++ event_party_issues token_contract events
  ++ push_if (1 <? length buyers)%nat "event_buyer_party_mismatch"
  ++ buyer_issues parsed (least buyers)
  ++ push_if (1 <? length terminals)%nat "multiple_terminal_events"
  ++ destruction_issues (ch_account_active chain) events
  ++ terminal_state_issues (head terminals) parsed
  ++ withdrawal_issues (withdrawals events).

(** The conservation verdict as an issue; a live deal may not be settled yet. *)
Definition conservation_issues (active : bool) (status : string) : list string :=
  push_if (bool_decide (status = "unbalanced")) "deal_money_not_conserved"
  ++ push_if (bool_decide (status = "incomplete") && negb active) "deal_money_conservation_incomplete"
  ++ push_if (bool_decide (status = "unverified") && negb active) "deal_money_conservation_unverified".

Definition build_receipt (context : ReceiptContext) (chain : TokenContractReceiptChainData)
    : SettlementReceiptV1 :=
  let events := ch_events chain in
  let '(actual, matches_manifest, _) := code_identity chain (cx_expected_code_hash context) in
  let parsed := fst (read_current chain) in
  let issues := sorted_issues (log_issues (cx_token_contract context) (cx_expected_code_hash context) chain) in
  let terminals := terminal_events events in
  let has_chain_evidence := ch_account_active chain || negb (bool_decide (events = [])) in
  let terminal_status :=
    if negb (bool_decide (issues = [])) then "inconsistent"
    else if (length terminals =? 1)%nat then "terminal"
    else if has_chain_evidence then "not_final" else "unavailable" in
  let withdrawal_receipts := List.filter (fun r => bool_decide (is_Some (withdrawn_amount (ev_event r)))) events in
  let withdrawal_status :=
    if negb (bool_decide (issues = [])) then "inconsistent"
    else if negb (bool_decide (withdrawal_receipts = [])) then "observed"
    else if bool_decide (terminal_status = "terminal") then "not_observed" else "not_applicable" in
  let current_buyer := p ← parsed; pc_buyer_note p in
  let buyer_address := or_else current_buyer (least (observed_buyers events)) in
  let buyer_source :=
    if bool_decide (is_Some current_buyer) then Some "current_getter"
    else if bool_decide (is_Some buyer_address) then Some "chain_event" else None in
  let seller_address := pc_seller_note <$> parsed in
  let terminal := ev_event <$> head terminals in
  let '(outcome, outcome_issues) :=
    outcome_receipt chain buyer_address (t ← terminal; terminal_refund_to_buyer t) in
  let conservation := conservation_receipt events terminal chain buyer_address in
  {| rv_generated_at := cx_generated_at context;
     rv_address := cx_token_contract context;
     rv_account_status := if ch_account_active chain then "active" else "inactive";
     rv_contract_version := pc_version <$> parsed;
     rv_code_identity := mkIdentity actual (cx_expected_code_hash context) matches_manifest;
     rv_buyer_note := mkParty "buyer" buyer_address buyer_source;
     rv_seller_note := mkParty "seller" seller_address
                         (if bool_decide (is_Some seller_address) then Some "current_getter" else None);
     rv_deal := pc_deal <$> parsed;
     rv_current := parsed;
     rv_terminal := mkTerminalReceipt terminal_status (head terminals);
     rv_outcome := outcome;
     rv_settlement_sequence := events;
     rv_conservation := Some conservation;
     rv_withdrawal := mkWithdrawal withdrawal_status withdrawal_receipts
                        (fst (tally_all (withdrawals events)))
                        ((fun p => ds_finalized_owed (pc_state p)) <$> parsed);
     rv_rewards := [rewards_query "buyer" buyer_address (cx_season context);
                    rewards_query "seller" seller_address (cx_season context)];
     rv_consistency_issues :=
       sorted_issues (issues ++ outcome_issues
                      ++ conservation_issues (ch_account_active chain) (cn_status conservation)) |}.
End Receipt.

(** ** An unread chain, and the exit status *)

Definition unavailable_receipt (context : ReceiptContext) : SettlementReceiptV1 :=
  {| rv_generated_at := cx_generated_at context;
     rv_address := cx_token_contract context;
     rv_account_status := "unavailable";
     rv_contract_version := None;
     rv_code_identity := mkIdentity None (cx_expected_code_hash context) None;
     rv_buyer_note := mkParty "buyer" None None;
     rv_seller_note := mkParty "seller" None None;
     rv_deal := None;
     rv_current := None;
     rv_terminal := mkTerminalReceipt "unavailable" None;
     rv_outcome := mkOutcome "undetermined" None None None None [] []
                     ["chain_read_unavailable"; "counterparty_note_unidentified"];
     rv_settlement_sequence := [];
     rv_conservation := None;
     rv_withdrawal := mkWithdrawal "not_applicable" [] 0 None;
     rv_rewards := [rewards_query "buyer" None (cx_season context);
                    rewards_query "seller" None (cx_season context)];
     rv_consistency_issues := ["chain_read_unavailable"] |}.

(** [reader_error_is_unavailable] looks at the HTTP cause of an error; it is the
    parameter [unavailable]. *)
Definition receipt_from_chain_result {E : Type} (unavailable : E -> bool)
    (normalized_address : string -> option string) (context : ReceiptContext)
    (result : outcome E TokenContractReceiptChainData) : outcome E SettlementReceiptV1 :=
  match result with
  | Ok chain => Ok (build_receipt normalized_address context chain)
  | Err e => if unavailable e then Ok (unavailable_receipt context) else Err e
  | Panic => Panic
  end.

(** [ErrorCode] with the one code a refusal has. *)
Inductive RefusalCode : Type := ContradictoryState.
Record ConservationRefusal : Type := mkRefusal { rf_code : RefusalCode; rf_cause : string }.

Definition conservation_refusal (receipt : SettlementReceiptV1) : option ConservationRefusal :=
  match rv_conservation receipt with
  | None => Some (mkRefusal ContradictoryState "no conservation block")
  | Some conservation =>
      if bool_decide (cn_status conservation = "conserved") then None
      else Some (mkRefusal ContradictoryState
             (if bool_decide (cn_status conservation = "unbalanced") then "conservation unbalanced"
              else if bool_decide (cn_status conservation = "unverified") then "conservation unverified"
              else if bool_decide (cn_status conservation = "incomplete") then "conservation incomplete"
              else "conservation status is not conserved"))
  end.
(** The envelope is printed before the error is returned. *)
Definition receipt_exit_status (receipt : SettlementReceiptV1) (require_conserved : bool)
    : outcome ConservationRefusal unit :=
  if negb require_conserved then Ok tt
  else match conservation_refusal receipt with
       | None => Ok tt
       | Some refusal => Err refusal
       end.
