(* ===== verification/ReceiptSpec.v ===== *)
(** * ReceiptSpec: what the settlement receipt proves

    When the conservation block says "conserved", exactly what was compared; that
    a conserved receipt replays on the independent ledger of [Conservation]; what
    a "terminal" receipt has checked; and what the gate on the exit status lets
    through. *)
From S2P Require Import Prelude Text Params MarketTypes Conservation Json Getters Receipt.

(** ** Sums *)
Definition sum_z (l : list Z) : Z := foldr Z.add 0 l.
Lemma sum_z_app a b : sum_z (a ++ b) = sum_z a + sum_z b.
Proof. unfold sum_z. induction a as [|x a IH]; simpl; [done|]. rewrite IH. lia. Qed.
Lemma sum_z_nonneg l : Forall in_u128 l -> 0 <= sum_z l.
Proof. induction 1 as [|x l Hx _ IH]; simpl; [done|]. unfold in_u128 in *. lia. Qed.

Lemma tally_from acc l : Forall in_u128 l -> acc + sum_z l <= U128_MAX ->
  fold_left tally l (acc, false) = (acc + sum_z l, false).
Proof.
  intros Hl. revert acc. induction Hl as [|x l Hx Hl IH]; intros acc Hm; simpl in *; [by rewrite Z.add_0_r|].
  pose proof (sum_z_nonneg l Hl). unfold tally at 2, u128_checked_add, checked_add. simpl.
  rewrite (proj2 (Z.leb_le _ _)) by lia. rewrite IH by lia. f_equal. lia.
Qed.
Lemma tally_exact l : Forall in_u128 l -> sum_z l <= U128_MAX -> tally_all l = (sum_z l, false).
Proof. intros. unfold tally_all. by rewrite tally_from. Qed.

(** ** The money of a deal, as the events and the notes tell it *)
Definition fundings (events : list TokenContractSettlementReceipt) : list Z :=
  map ct_amount (funding_terms events).
Definition funded (events : list TokenContractSettlementReceipt) : Z := sum_z (fundings events).
Definition credited (chain : TokenContractReceiptChainData) : Z :=
  sum_z (map nc_amount (ch_note_credits chain)).
(** The amounts a terminal event declares. *)
Definition declared_amounts (terminal : option TokenContractSettlementEvent) : list Z :=
  match terminal with
  | Some (StreamStopped _ a b) | Some (DisputeResolved a b _) | Some (ProbeBurned _ a b _) => [a; b]
  | _ => []
  end.

(** Amounts are unsigned and every sum fits the signed width of the report. *)
Record amounts_fit (events : list TokenContractSettlementReceipt)
    (terminal : option TokenContractSettlementEvent) (chain : TokenContractReceiptChainData) : Prop := {
  af_funded : Forall in_u128 (fundings events) /\ funded events <= I128_MAX;
  af_credited : Forall in_u128 (map nc_amount (ch_note_credits chain)) /\ credited chain <= I128_MAX;
  af_declared : Forall in_u128 (declared_amounts terminal) /\ sum_z (declared_amounts terminal) <= I128_MAX
}.

(** The cross-check a "conserved" verdict stands for. *)
Definition closes (terminal : option TokenContractSettlementEvent) (funded credited : Z) : Prop :=
  match terminal with
  | Some (StreamStopped _ to_seller refund) | Some (DisputeResolved to_seller refund _) =>
      to_seller + refund = credited /\ credited <= funded
  | Some (ProbeBurned _ burned_probe burned_bond _) => funded = credited + burned_probe + burned_bond
  | _ => credited <= funded
  end.

Lemma signed_exact v : v <= I128_MAX -> signed_amount v = v.
Proof. intros. unfold signed_amount, saturate. by rewrite (proj2 (Z.leb_le _ _)). Qed.
Lemma sub_exact a b : - I128_MAX <= a <= I128_MAX -> - I128_MAX <= a - b <= I128_MAX ->
  i128_saturating_sub a b = a - b.
Proof. intros. unfold i128_saturating_sub. unfold I128_MIN, I128_MAX in *. lia. Qed.
(** Saturation never makes a difference vanish. *)
Lemma sub_zero_iff f p w : 0 <= f <= I128_MAX -> 0 <= p <= I128_MAX -> 0 <= w <= I128_MAX ->
  i128_saturating_sub (i128_saturating_sub f p) w = 0 <-> f = p + w.
Proof. intros. unfold i128_saturating_sub, I128_MIN, I128_MAX in *. lia. Qed.

(** The parts of the verdict, for amounts that fit. *)
Section Verdict.
Context (events : list TokenContractSettlementReceipt) (terminal : option TokenContractSettlementEvent).
Context (chain : TokenContractReceiptChainData) (buyer : option string).
Context (Hfit : amounts_fit events terminal chain).

Definition both_notes : Prop := (2 <= length (ch_notes_read chain))%nat /\ ch_note_credits chain <> [].

Lemma both_notes_dec :
  (2 <=? length (ch_notes_read chain))%nat && negb (bool_decide (ch_note_credits chain = [])) = true
  <-> both_notes.
Proof. unfold both_notes. by rewrite andb_true_iff, Nat.leb_le, negb_true_iff, bool_decide_eq_false. Qed.

Lemma fit_sums :
  tally_all (map ct_amount (funding_terms events)) = (funded events, false) /\
  tally_all (map nc_amount (ch_note_credits chain)) = (credited chain, false) /\
  0 <= funded events /\ 0 <= credited chain.
Proof.
  destruct Hfit as [[F1 F2] [C1 C2] _].
  split_and!; [apply tally_exact|apply tally_exact|by apply sum_z_nonneg|by apply sum_z_nonneg];
    try done; unfold funded, fundings, credited in *; ilia.
Qed.

Lemma fit_split :
  declared_split terminal =
    match terminal with
    | Some (StreamStopped _ a b) | Some (DisputeResolved a b _) => (Some (a + b), None)
    | Some (ProbeBurned _ a b _) => (None, Some (a + b))
    | _ => (None, None)
    end.
Proof.
  destruct Hfit as [_ _ [D1 D2]].
  destruct terminal as [[]|]; try done; simpl in *; unfold u128_checked_add, checked_add;
    rewrite (proj2 (Z.leb_le _ _)) by ilia; done.
Qed.
End Verdict.

(** One ending of the verdict, once both notes were read. *)
Ltac verdict_case :=
  repeat match goal with |- context [?d =? credited ?c] => destruct (Z.eqb_spec d (credited c)) end; simpl;
  unfold saturating_sub;
  repeat match goal with |- context [signed_amount ?v] => rewrite (signed_exact v) by lia end;
  (match goal with |- context [?u =? 0] =>
     let E := fresh "E" in
     destruct (Z.eqb_spec u 0) as [E|E]; rewrite sub_zero_iff in E by lia
   | _ => idtac end);
  simpl; split_and?; try (intros ?; split_and?); try done; try (f_equal; lia); try tauto;
  try (split; [intros; try done|intros [? ?]; try lia; done]); try (split; [done|lia]); try lia.

(** The verdict, case by case. *)
Lemma verdict_spec (events : list TokenContractSettlementReceipt)
    (terminal : option TokenContractSettlementEvent) (chain : TokenContractReceiptChainData)
    (buyer : option string) :
  amounts_fit events terminal chain ->
  let receipt := conservation_receipt events terminal chain buyer in
  (cn_status receipt = "conserved" <->
     both_notes chain /\ closes terminal (funded events) (credited chain)) /\
  (cn_status receipt = "conserved" ->
     cn_funded_in receipt = funded events /\ cn_credited_to_notes receipt = credited chain /\
     cn_written_off receipt = Some (funded events - credited chain)).
Proof.
  intros Hfit. destruct (fit_sums _ _ _ Hfit) as (S1 & S2 & P1 & P2).
  pose proof (fit_split _ _ _ Hfit) as Sd. pose proof Hfit as [[_ F] [_ C] [D1 D2]].
  cbv zeta. unfold conservation_receipt. rewrite S1, S2, Sd.
  destruct (_ && negb _) eqn:Hb.
  - apply both_notes_dec in Hb. apply signed_exact in F as Ef. apply signed_exact in C as Ec.
    destruct terminal as [[]|]; simpl in *; rewrite ?Forall_cons in D1; unfold in_u128 in D1;
      unfold closes; rewrite ?Ef, ?Ec.
    all: verdict_case.
  - assert (~ both_notes chain) as Hn by (rewrite <- both_notes_dec; congruence).
    destruct terminal as [[]|]; simpl; (split; [split; [intros|tauto]|]); try done; tauto.
Qed.

Lemma conserved_closes events terminal chain buyer :
  amounts_fit events terminal chain ->
  cn_status (conservation_receipt events terminal chain buyer) = "conserved" ->
  both_notes chain /\ closes terminal (funded events) (credited chain).
Proof. intros Hf. by apply verdict_spec. Qed.
(** An exact split never pays out more than was funded. *)
Lemma conserved_facts events terminal chain buyer :
  amounts_fit events terminal chain ->
  cn_status (conservation_receipt events terminal chain buyer) = "conserved" ->
  0 <= credited chain <= funded events /\
  cn_written_off (conservation_receipt events terminal chain buyer) = Some (funded events - credited chain).
Proof.
  intros Hf Hc. destruct (verdict_spec _ _ _ buyer Hf) as [V1 V2].
  destruct (V2 Hc) as (_ & _ & ->). apply V1 in Hc as [_ Hc].
  destruct (fit_sums _ _ _ Hf) as (_ & _ & _ & P2). split; [|done]. split; [done|].
  destruct Hf as [_ _ [D _]]. unfold closes in Hc.
  destruct terminal as [[]|]; simpl in *; rewrite ?Forall_cons in D; unfold in_u128 in D; lia.
Qed.

(** C22: What "conserved" means.  For amounts that fit, the verdict is "conserved"
    exactly when both notes were read and reported credits, and the credits agree
    with what the terminal event declares: its payout legs after a stop or a
    dispute, the burn after a burned probe.  After any other ending (a reclaim, or
    no terminal event at all) the only test is that the credits do not exceed the
    funding. *)
Theorem conserved_verdict (events : list TokenContractSettlementReceipt)
    (terminal : option TokenContractSettlementEvent) (chain : TokenContractReceiptChainData)
    (buyer : option string) :
  amounts_fit events terminal chain ->
  let receipt := conservation_receipt events terminal chain buyer in
  (cn_status receipt = "conserved" <->
     both_notes chain /\ closes terminal (funded events) (credited chain)) /\
  (cn_status receipt = "conserved" ->
     cn_funded_in receipt = funded events /\ cn_credited_to_notes receipt = credited chain /\
     cn_written_off receipt = Some (funded events - credited chain)).
Proof. apply verdict_spec. Qed.

(** ** The verdict on the independent ledger *)

Definition funding_flow (t : ConservationTermReceipt) : DealMoneyFlow :=
  if bool_decide (ct_kind t = "escrow_funded") then Conservation.EscrowFunded (ct_amount t)
  else if bool_decide (ct_kind t = "seller_bond_funded") then Conservation.SellerBondFunded (ct_amount t)
  else Conservation.BuyerBondFunded (ct_amount t).
Definition credit_flow (c : NoteDealCreditReceipt) : DealMoneyFlow := CreditedToNote (nc_note c) (nc_amount c).
(** The deal the receipt tells: funded, then paid out, then the rest burned. *)
Definition receipt_flows (events : list TokenContractSettlementReceipt)
    (chain : TokenContractReceiptChainData) (burned : Z) : list DealMoneyFlow :=
  map funding_flow (funding_terms events) ++ map credit_flow (ch_note_credits chain) ++ [WrittenOff burned].

Lemma funding_flow_shape t : is_inflow (funding_flow t) = true /\ flow_amount (funding_flow t) = ct_amount t.
Proof. unfold funding_flow. repeat case_bool_decide; done. Qed.

Lemma sum_where_app p a b : sum_where p (a ++ b) = sum_where p a + sum_where p b.
Proof. unfold sum_where. induction a as [|x a IH]; simpl; [done|]. rewrite IH. lia. Qed.
Lemma sum_where_map {A} p (f : A -> DealMoneyFlow) (g : A -> Z) l :
  (forall x, p (f x) = true /\ flow_amount (f x) = g x) -> sum_where p (map f l) = sum_z (map g l).
Proof.
  intros H. unfold sum_where, sum_z. induction l as [|x l IH]; simpl; [done|].
  destruct (H x) as [-> ->]. by rewrite IH.
Qed.
Lemma sum_where_none {A} p (f : A -> DealMoneyFlow) l :
  (forall x, p (f x) = false) -> sum_where p (map f l) = 0.
Proof. intros H. unfold sum_where. induction l as [|x l IH]; simpl; [done|]. by rewrite H, IH. Qed.

Lemma receipt_sums events chain burned :
  sum_where is_inflow (receipt_flows events chain burned) = funded events /\
  sum_where is_credit (receipt_flows events chain burned) = credited chain /\
  sum_where is_burn (receipt_flows events chain burned) = burned.
Proof.
  unfold receipt_flows. rewrite !sum_where_app.
  rewrite (sum_where_map is_inflow _ ct_amount) by apply funding_flow_shape.
  rewrite (sum_where_none is_inflow credit_flow), (sum_where_none is_burn credit_flow) by done.
  rewrite (sum_where_map is_credit credit_flow nc_amount) by done.
  rewrite (sum_where_none is_credit), (sum_where_none is_burn)
    by (intros t; unfold funding_flow; repeat case_bool_decide; done).
  unfold funded, fundings, credited. simpl. lia.
Qed.

Lemma solvent_app b xs ys :
  solvent b (xs ++ ys) <-> solvent b xs /\ solvent (b + foldr (fun f acc => signed f + acc) 0 xs) ys.
Proof.
  revert b. induction xs as [|f xs IH]; intros b; simpl; [by rewrite Z.add_0_r; tauto|].
  rewrite IH. rewrite (Z.add_assoc b). tauto.
Qed.
Lemma solvent_inflows b ts :
  0 <= b -> Forall in_u128 (map ct_amount ts) ->
  solvent b (map funding_flow ts) /\
  foldr (fun f acc => signed f + acc) 0 (map funding_flow ts) = sum_z (map ct_amount ts).
Proof.
  revert b. induction ts as [|t ts IH]; intros b Hb Ht; simpl in *; [done|].
  apply Forall_cons in Ht as [Hx Ht]. destruct (funding_flow_shape t) as [E1 E2].
  unfold signed. rewrite E1, E2. unfold in_u128 in Hx.
  destruct (IH (b + ct_amount t)) as [H1 H2]; [lia|done|]. unfold signed in H2. rewrite H2. split_and!; [lia|done|done].
Qed.
Lemma solvent_credits b cs :
  Forall in_u128 (map nc_amount cs) -> sum_z (map nc_amount cs) <= b ->
  solvent b (map credit_flow cs) /\
  foldr (fun f acc => signed f + acc) 0 (map credit_flow cs) = - sum_z (map nc_amount cs).
Proof.
  revert b. induction cs as [|c cs IH]; intros b Hc Hb; simpl in *; [done|].
  apply Forall_cons in Hc as [Hx Hc]. pose proof (sum_z_nonneg _ Hc). unfold in_u128 in Hx.
  unfold signed at 1 2. simpl. destruct (IH (b + - nc_amount c)) as [H1 H2]; [done|lia|].
  rewrite H2. unfold signed. simpl. split_and!; [lia|done|lia].
Qed.

Lemma receipt_flows_typed events chain burned :
  Forall in_u128 (fundings events) -> Forall in_u128 (map nc_amount (ch_note_credits chain)) ->
  in_u128 burned -> flows_typed (receipt_flows events chain burned).
Proof.
  intros Hf Hc Hb. unfold flows_typed, receipt_flows, fundings in *.
  rewrite Forall_map in Hf, Hc. rewrite !Forall_app, !Forall_map. split_and!.
  - eapply Forall_impl; [exact Hf|]. intros t Ht. by rewrite (proj2 (funding_flow_shape t)).
  - done.
  - by constructor.
Qed.

(** C23: A conserved receipt settles on the ledger.  Replaying the fundings, the
    note credits and the write-off of a "conserved" receipt on the independent
    deal ledger never overdraws it, and the ledger then settles as a destroyed
    deal: nothing is left, and its three totals are the ones of the receipt. *)
Theorem conserved_receipts_settle (events : list TokenContractSettlementReceipt)
    (terminal : option TokenContractSettlementEvent) (chain : TokenContractReceiptChainData)
    (buyer : option string) :
  amounts_fit events terminal chain ->
  cn_status (conservation_receipt events terminal chain buyer) = "conserved" ->
  exists burned l s, cn_written_off (conservation_receipt events terminal chain buyer) = Some burned /\
    replay (receipt_flows events chain burned) = Ok l /\ settle_destroyed l = Ok s /\
    set_funded_in s = funded events /\ set_credited_out s = credited chain /\
    set_written_off s = burned /\ set_balance s = 0.
Proof.
  intros Hfit Hc. destruct (conserved_facts _ _ _ buyer Hfit Hc) as (Hcl & Hw).
  destruct (fit_sums _ _ _ Hfit) as (_ & _ & P1 & P2). pose proof Hfit as [[F1 F] [C1 C] _].
  set (burned := funded events - credited chain) in *.
  assert (in_u128 burned) by (unfold burned; ilia).
  destruct (receipt_sums events chain burned) as (S1 & S2 & S3).
  pose proof (receipt_flows_typed events chain burned F1 C1 ltac:(done)) as Ht.
  destruct (replay_from_progress (receipt_flows events chain burned) ledger_new ledger_new_inv Ht) as [l El].
  { unfold receipt_flows. rewrite !solvent_app. simpl.
    destruct (solvent_inflows 0 (funding_terms events) ltac:(lia) F1) as [A1 A2]. rewrite A2.
    destruct (solvent_credits (sum_z (map ct_amount (funding_terms events))) _ C1) as [B1 B2].
    { unfold funded, fundings, credited in Hcl. lia. }
    rewrite Z.add_0_l, B2. split_and!; [done|done| |done].
    unfold burned, funded, fundings, credited, signed. simpl. lia. }
  { simpl. rewrite S1. ilia. }
  destruct (replay_from_spec _ _ _ ledger_new_inv Ht El) as (Hinv & H1 & H2 & H3 & _). simpl in H1, H2, H3.
  exists burned, l. unfold settle_destroyed. rewrite (settle_of_inv _ Hinv). simpl.
  destruct Hinv as (_ & _ & _ & _ & Hb & _).
  assert (balance l = 0) as Hz by (unfold burned in *; lia).
  rewrite Hz. simpl. eexists. split_and!; try done; simpl; lia.
Qed.

(** ** The gate on the exit status *)

Lemma receipt_conservation na context chain :
  exists buyer, rv_conservation (build_receipt na context chain) =
    Some (conservation_receipt (ch_events chain) (ev_event <$> head (terminal_events (ch_events chain)))
            chain buyer).
Proof.
  unfold build_receipt. destruct (code_identity _ _) as [[? ?] ?], (outcome_receipt _ _ _) as [? ?].
  cbn zeta. eexists. reflexivity.
Qed.

(** What passes [--require-conserved].  When the command is asked to require
    conservation and still exits with success, the chain was read, both notes were
    read and reported credits, and the money of the deal closes: what the credits
    and the terminal event say of the funding agrees.  An unread chain never
    passes. *)
Theorem gate_passes_only_closed_money {E : Type} (unavailable : E -> bool)
    (normalized_address : string -> option string) (context : ReceiptContext)
    (result : outcome E TokenContractReceiptChainData) (receipt : SettlementReceiptV1) :
  receipt_from_chain_result unavailable normalized_address context result = Ok receipt ->
  receipt_exit_status receipt true = Ok tt ->
  exists chain, result = Ok chain /\
    let terminal := ev_event <$> head (terminal_events (ch_events chain)) in
    (amounts_fit (ch_events chain) terminal chain ->
       both_notes chain /\ closes terminal (funded (ch_events chain)) (credited chain)).
Proof.
  intros Hr Hx. destruct result as [chain|e|]; simpl in Hr; [|destruct (unavailable e); [|done]|done].
  - injection Hr as <-. exists chain. split; [done|]. intros terminal Hfit.
    unfold receipt_exit_status, conservation_refusal in Hx.
    destruct (receipt_conservation normalized_address context chain) as [buyer Eb]. rewrite Eb in Hx.
    simpl negb in Hx. cbn iota in Hx. case_bool_decide as Hc; [|done].
    by apply (conserved_closes _ _ _ _ Hfit) in Hc.
  - injection Hr as <-. done.
Qed.

(** ** What a "terminal" receipt has checked *)

Lemma push_if_nil b r : push_if b r = [] <-> b = false.
Proof. by destruct b. Qed.
Lemma dedup_nil l : dedup l = [] -> l = [].
Proof. destruct l as [|x l]; simpl; [done|]. destruct (dedup l); [done|]. by case_bool_decide. Qed.
Lemma sorted_issues_nil l : sorted_issues l = [] -> l = [].
Proof.
  unfold sorted_issues. intros H%dedup_nil. pose proof (sort_by_perm String.leb l) as Hp.
  rewrite H in Hp. by apply Permutation_nil_l in Hp.
Qed.

Lemma ordered_sorted events : ordered events = true -> Sorted (fun a b => event_le a b = true) events.
Proof.
  induction events as [|a rest IH]; simpl; [constructor|]. destruct rest as [|b rest]; [by repeat constructor|].
  intros [H1 H2]%andb_true_iff. constructor; [by apply IH|by constructor].
Qed.
Lemma repeated_nodup seen ids : repeated seen ids = false -> NoDup ids /\ (forall i, i ∈ ids -> i ∉ seen).
Proof.
  revert seen. induction ids as [|i ids IH]; intros seen; simpl; [split; [constructor|set_solver]|].
  intros [H1%bool_decide_eq_false H2]%orb_false_iff. destruct (IH _ H2) as [N1 N2].
  split; [constructor; [|done]|]; [intros Hi; by apply (N2 i Hi), elem_of_union_l, elem_of_singleton|].
  intros j [->|Hj]%elem_of_cons; [done|]. intros Hs. by apply (N2 j Hj), elem_of_union_r.
Qed.
Lemma one_party na events r r' b b' a a' :
  (1 <? length (observed_buyers na events))%nat = false ->
  r ∈ events -> r' ∈ events -> event_buyer (ev_event r) = Some b -> event_buyer (ev_event r') = Some b' ->
  na b = Some a -> na b' = Some a' -> a = a'.
Proof.
  intros Hl%Nat.ltb_ge Hr Hr' Hb Hb' Ha Ha'.
  assert (forall r b a, r ∈ events -> event_buyer (ev_event r) = Some b -> na b = Some a ->
    a ∈ observed_buyers na events) as Hin.
  { intros x c d Hx Hc Hd. apply elem_of_remove_dups, list_elem_of_omap. exists x. by rewrite Hc. }
  pose proof (Hin r b a Hr Hb Ha). pose proof (Hin r' b' a' Hr' Hb' Ha').
  destruct (observed_buyers na events) as [|x [|y l]]; simpl in *; [set_solver|set_solver|lia].
Qed.
Lemma destroyed_last events i r :
  (1 <? length (destroyed_at events))%nat = false ->
  match destroyed_at events with j :: _ => negb (j + 1 =? length events)%nat | [] => false end = false ->
  events !! i = Some r -> is_destroyed (ev_event r) = true -> (i + 1 = length events)%nat.
Proof.
  intros Hl%Nat.ltb_ge Hd Hi Hr.
  assert (i ∈ destroyed_at events) as Hin.
  { apply list_elem_of_omap. exists (i, r). simpl. rewrite Hr. split; [|done].
    apply elem_of_lookup_imap. by exists i, r. }
  destruct (destroyed_at events) as [|j [|k l]]; simpl in *; [set_solver| |lia].
  apply negb_false_iff, Nat.eqb_eq in Hd. set_solver.
Qed.
Lemma party_issues_nil na tc events r : event_party_issues na tc events = [] -> r ∈ events ->
  (forall b, event_buyer (ev_event r) = Some b -> is_Some (na b)) /\
  (forall c, event_contract (ev_event r) = Some c -> na c = Some tc).
Proof.
  unfold event_party_issues. intros H Hr. apply list_elem_of_In in Hr.
  assert (forall {A B} (f : A -> list B) l x, flat_map f l = [] -> In x l -> f x = []) as Hf.
  { intros A B f l x. induction l as [|y l IH]; simpl; [done|]. intros [H1 H2]%app_nil [->|Hx]; [done|by apply IH]. }
  specialize (Hf _ _ _ _ _ H Hr). simpl in Hf. apply app_nil in Hf as [H1 H2]. split.
  - intros b Hb. rewrite Hb in H1. apply push_if_nil, bool_decide_eq_false in H1.
    destruct (na b); [by eexists|done].
  - intros c Hc. rewrite Hc in H2. by apply push_if_nil, negb_false_iff, bool_decide_eq_true in H2.
Qed.

(** The facts of an event log that raised no issue. *)
Record log_consistent (na : string -> option string) (tc : string)
    (chain : TokenContractReceiptChainData) : Prop := {
  lc_account : ch_account_id chain = tc;
  lc_ordered : Sorted (fun a b => event_le a b = true) (ch_events chain);
  lc_distinct : NoDup (map ev_message_id (ch_events chain));
  lc_contract : forall r c, r ∈ ch_events chain -> event_contract (ev_event r) = Some c -> na c = Some tc;
  lc_buyer : forall r r' b b', r ∈ ch_events chain -> r' ∈ ch_events chain ->
    event_buyer (ev_event r) = Some b -> event_buyer (ev_event r') = Some b' ->
    is_Some (na b) /\ na b = na b';
  lc_destroyed : forall i r, ch_events chain !! i = Some r -> is_destroyed (ev_event r) = true ->
    ch_account_active chain = false /\ (i + 1 = length (ch_events chain))%nat;
  lc_withdrawn : Forall (fun a => a <> 0) (withdrawals (ch_events chain))
}.

Lemma log_issues_nil na tc expected chain :
  log_issues na tc expected chain = [] ->
  log_consistent na tc chain /\
  (length (terminal_events (ch_events chain)) <= 1)%nat /\
  (ch_account_active chain = true -> exists current,
     fst (read_current na chain) = Some current /\ cv_contract (pc_version current) = "TokenContract" /\
     dt_tick_size (pc_deal current) = TICK_SIZE /\
     (forall t, head (terminal_events (ch_events chain)) = Some t ->
        let state := pc_state current in
        ds_opened state = false /\ ds_disputed state = false /\
        ds_deposit state = 0 /\ ds_probe_tick state = 0)).
Proof.
  unfold log_issues. destruct (code_identity chain expected) as [[? ?] ci].
  destruct (read_current na chain) as [parsed ri] eqn:Er. cbn zeta.
  rewrite !app_nil, !push_if_nil, !negb_false_iff, !bool_decide_eq_true.
  intros (I1 & _ & I2 & I3 & I4 & I5 & I6 & I7 & _ & I8 & I9 & I10 & I11).
  unfold destruction_issues in I9. rewrite !app_nil, !push_if_nil in I9. destruct I9 as (D1 & D2 & D3).
  unfold withdrawal_issues in I11. rewrite app_nil, !push_if_nil in I11. destruct I11 as [W _].
  split; [split|split].
  - done.
  - by apply ordered_sorted.
  - by destruct (repeated_nodup _ _ I5).
  - intros r c Hr Hc. by apply (party_issues_nil _ _ _ _ I6 Hr).
  - intros r r' b b' Hr Hr' Hb Hb'.
    destruct (proj1 (party_issues_nil _ _ _ _ I6 Hr) b Hb) as [a Ha].
    destruct (proj1 (party_issues_nil _ _ _ _ I6 Hr') b' Hb') as [a' Ha'].
    rewrite Ha, Ha'. split; [by eexists|]. f_equal. by eapply (one_party na _ r r').
  - intros i r Hi Hr. split; [|by eapply destroyed_last].
    destruct (ch_account_active chain); [|done]. simpl in D3.
    apply negb_false_iff, bool_decide_eq_true in D3.
    assert (i ∈ destroyed_at (ch_events chain)) as Hin.
    { apply list_elem_of_omap. exists (i, r). simpl. rewrite Hr. split; [|done].
      apply elem_of_lookup_imap. by exists i, r. }
    rewrite D3 in Hin. by apply not_elem_of_nil in Hin.
  - apply Forall_forall. intros a Ha ->. apply Bool.not_true_iff_false in W. apply W.
    apply existsb_exists. exists 0. split; [by apply list_elem_of_In|done].
  - by apply Nat.ltb_ge in I8.
  - intros Hact. unfold read_current in Er. rewrite Hact in Er.
    destruct (ch_current chain) as [cur|]; [|by injection Er as <- <-].
    destruct (decode_state (cf_state cur)) as [st|e|] eqn:Ed.
    + destruct (parse_current na cur st) as [p|]; injection Er as <- <-; [|done].
      exists p. simpl in I3. rewrite app_nil, !push_if_nil, !negb_false_iff in I3.
      destruct I3 as [V1%bool_decide_eq_true V2%Z.eqb_eq]. split_and!; [done..|].
      intros t Ht. rewrite Ht in I10. simpl in I10. rewrite app_nil, push_if_nil in I10.
      destruct I10 as [[[[-> ->]%orb_false_iff H1]%orb_false_iff H2]%orb_false_iff _].
      apply negb_false_iff, Z.eqb_eq in H1, H2. done.
    + by injection Er as <- <-.
    + by injection Er as <- <-.
Qed.

Lemma receipt_terminal na context chain :
  tm_status (rv_terminal (build_receipt na context chain)) = "terminal" ->
  log_issues na (cx_token_contract context) (cx_expected_code_hash context) chain = [] /\
  exists t, terminal_events (ch_events chain) = [t] /\
    tm_event (rv_terminal (build_receipt na context chain)) = Some t.
Proof.
  unfold build_receipt. destruct (code_identity _ _) as [[? ?] ?], (outcome_receipt _ _ _) as [? ?].
  cbn zeta. simpl. case_bool_decide as Hi; simpl; [|done]. intros H. split; [by apply sorted_issues_nil|].
  destruct (terminal_events (ch_events chain)) as [|t [|u us]]; simpl in *.
  - by destruct (_ || _).
  - by exists t.
  - by destruct (_ || _).
Qed.

(** What a "terminal" receipt has checked.  The deal posted exactly one terminal
    event, and it is the one reported; the log is ordered, its message ids are
    distinct, it names one contract and one buyer, and nothing follows a
    destruction; while the account still exists its getters decode, name the
    right contract, and hold no escrow, no probe and no open stream. *)
Theorem terminal_receipts_are_consistent (normalized_address : string -> option string)
    (context : ReceiptContext) (chain : TokenContractReceiptChainData) :
  let receipt := build_receipt normalized_address context chain in
  tm_status (rv_terminal receipt) = "terminal" ->
  (exists t, terminal_events (ch_events chain) = [t] /\ tm_event (rv_terminal receipt) = Some t) /\
  log_consistent normalized_address (cx_token_contract context) chain /\
  (ch_account_active chain = true -> exists current,
     fst (read_current normalized_address chain) = Some current /\
     cv_contract (pc_version current) = "TokenContract" /\
     ds_opened (pc_state current) = false /\ ds_disputed (pc_state current) = false /\
     ds_deposit (pc_state current) = 0 /\ ds_probe_tick (pc_state current) = 0).
Proof.
  intros receipt H. apply receipt_terminal in H as (Hi & t & Ht & He).
  destruct (log_issues_nil _ _ _ _ Hi) as (L1 & _ & L3). split; [by exists t|]. split; [done|].
  intros Ha. destruct (L3 Ha) as (cur & C1 & C2 & _ & C4). exists cur.
  destruct (C4 t) as (S1 & S2 & S3 & S4); [by rewrite Ht|]. done.
Qed.

(** The figure for the buyer's money comes from a named statement.  "settled"
    repeats the refund of the deal's terminal event and no note contradicts it;
    "returned" is what the buyer's note reports for a deal that said nothing;
    "divergent" is reported exactly when both spoke and differ; "undetermined"
    states what was missing. *)
Theorem outcome_statements (chain : TokenContractReceiptChainData) (buyer : string) (deal_refund : option Z) :
  let credits := credits_to buyer (ch_note_credits chain) in
  let total := sum_z (map nc_amount credits) in
  let outcome := fst (outcome_receipt chain (Some buyer) deal_refund) in
  Forall in_u128 (map nc_amount (ch_note_credits chain)) -> total <= U128_MAX ->
  match deal_refund with
  | Some deal =>
      oc_amount outcome = Some deal /\
      (oc_status outcome = "divergent" <-> credits <> [] /\ deal <> total) /\
      (oc_status outcome = "settled" <-> credits = [] \/ deal = total)
  | None =>
      (oc_status outcome = "returned" <-> credits <> []) /\
      (oc_status outcome = "undetermined" <-> credits = []) /\
      (credits <> [] -> oc_amount outcome = Some total) /\
      (credits = [] -> oc_amount outcome = None /\ length (oc_missing outcome) = 2%nat)
  end.
Proof.
  intros credits total outcome Hf Ht. unfold outcome, outcome_receipt. fold credits.
  assert (Forall in_u128 (map nc_amount credits)) as Hc.
  { unfold credits, credits_to. clear -Hf. induction (ch_note_credits chain) as [|c cs IH]; simpl; [constructor|].
    apply Forall_cons in Hf as [? ?]. case_bool_decide; simpl; [constructor|]; auto. }
  rewrite tally_exact by done. fold total. simpl. rewrite andb_true_r.
  destruct deal_refund as [deal|]; case_bool_decide as Hn; simpl.
  - split_and!; [done|split; [done|tauto]|split; [by left|done]].
  - destruct (Z.eqb_spec deal total) as [->|Hd]; simpl;
      (split; [done|]); (split; split; intros; try done; try tauto).
  - split_and!; try (split; [done|tauto]); try (split; done); done.
  - split_and!; try (split; [done|tauto]); try (split; done); done.
Qed.

(** ** One settled deal, and one reclaim that was paid short *)
Definition event_at (t : Z) (id : string) (e : TokenContractSettlementEvent) : TokenContractSettlementReceipt :=
  {| ev_message_id := id; ev_created_at := t; ev_cursor := id; ev_event := e |}.
Definition credit_of (note : string) (amount : Z) : NoteDealCreditReceipt :=
  {| nc_note := note; nc_deal := "deal"; nc_amount := amount; nc_message_id := note;
     nc_created_at := 60; nc_cursor := note |}.
Definition stopped_log : list TokenContractSettlementReceipt :=
  [event_at 10 "m1" (ContractDeployed "deal"); event_at 20 "m2" (SellerBondFunded 2000);
   event_at 30 "m3" (StreamFunded "buyer" 2050); event_at 31 "m4" (BuyerBondFunded 2000);
   event_at 40 "m5" (StreamOpened "buyer" 1000); event_at 45 "m6" (ProbeAccepted "buyer" 1000 1000);
   event_at 50 "m7" (StreamStopped "buyer" 3000 2000); event_at 60 "m8" (ContractDestroyed "deal")].
Definition stopped_chain : TokenContractReceiptChainData :=
  {| ch_account_id := "deal"; ch_account_active := false; ch_code_hash := None; ch_current := None;
     ch_events := stopped_log; ch_note_credits := [credit_of "seller" 3000; credit_of "buyer" 2000];
     ch_notes_read := ["seller"; "buyer"] |}.
Definition sample_context : ReceiptContext :=
  {| cx_generated_at := 100; cx_network := "net"; cx_chain_endpoint := "ep";
     cx_contracts_generation := None; cx_expected_code_hash := Some "ab"; cx_token_contract := "deal";
     cx_season := Some 3 |}.
Definition stopped_receipt : SettlementReceiptV1 := build_receipt (fun s => Some s) sample_context stopped_chain.
Definition stopped_terminal : option TokenContractSettlementEvent := Some (StreamStopped "buyer" 3000 2000).

Example stopped_reads : rv_consistency_issues stopped_receipt = [] /\
  (cn_status <$> rv_conservation stopped_receipt) = Some "conserved" /\
  oc_status (rv_outcome stopped_receipt) = "settled".
Proof. by vm_compute. Qed.

Lemma u128_list l : forallb (fun z => (0 <=? z) && (z <=? U128_MAX)) l = true -> Forall in_u128 l.
Proof.
  intros H. apply Forall_forall. intros z Hz. apply list_elem_of_In in Hz.
  apply (proj1 (forallb_forall _ _) H), andb_true_iff in Hz as [?%Z.leb_le ?%Z.leb_le]. by split.
Qed.
Ltac in_range := apply u128_list; vm_compute; reflexivity.
Ltac fits := apply Z.leb_le; vm_compute; reflexivity.
Lemma stopped_fits : amounts_fit stopped_log stopped_terminal stopped_chain.
Proof. split; (split; [in_range|fits]). Qed.

Lemma conserved_verdict_witness :
  both_notes stopped_chain /\ closes stopped_terminal (funded stopped_log) (credited stopped_chain).
Proof.
  apply (proj1 (conserved_verdict stopped_log stopped_terminal stopped_chain (Some "buyer") stopped_fits)).
  vm_compute. reflexivity.
Defined.

Lemma conserved_receipts_settle_witness :
  exists burned l s, cn_written_off (conservation_receipt stopped_log stopped_terminal stopped_chain None) = Some burned /\
    replay (receipt_flows stopped_log stopped_chain burned) = Ok l /\ settle_destroyed l = Ok s.
Proof.
  destruct (conserved_receipts_settle stopped_log stopped_terminal stopped_chain None stopped_fits)
    as (b & l & s & H1 & H2 & H3 & _); [vm_compute; reflexivity|].
  exists b, l, s. split; [exact H1|]. split; [exact H2|exact H3].
Defined.

Lemma gate_passes_only_closed_money_witness :
  both_notes stopped_chain /\ closes stopped_terminal (funded stopped_log) (credited stopped_chain).
Proof.
  destruct (gate_passes_only_closed_money (fun _ : unit => true) (fun s => Some s) sample_context
              (Ok stopped_chain) stopped_receipt) as (chain & E & H);
    [reflexivity|vm_compute; reflexivity|].
  injection E as <-. apply H. exact stopped_fits.
Defined.

Lemma terminal_receipts_are_consistent_witness :
  exists t, terminal_events stopped_log = [t] /\ tm_event (rv_terminal stopped_receipt) = Some t.
Proof.
  apply (terminal_receipts_are_consistent (fun s => Some s) sample_context stopped_chain).
  vm_compute. reflexivity.
Defined.

Lemma outcome_statements_witness :
  oc_status (fst (outcome_receipt stopped_chain (Some "buyer") (Some 2000))) = "settled".
Proof.
  apply (outcome_statements stopped_chain "buyer" (Some 2000)); [in_range|vm_compute; discriminate|].
  right. reflexivity.
Defined.

(** A reclaim that declares a refund of 2050 while the note was credited 1: nothing
    in the block contradicts it, and the gate lets it pass. *)
Definition short_chain : TokenContractReceiptChainData :=
  {| ch_account_id := "deal"; ch_account_active := false; ch_code_hash := None; ch_current := None;
     ch_events := [event_at 30 "m3" (StreamFunded "buyer" 2050);
                   event_at 50 "m7" (StreamReclaimed "buyer" 2050)];
     ch_note_credits := [credit_of "buyer" 1]; ch_notes_read := ["seller"; "buyer"] |}.
Example short_reclaim_is_conserved :
  receipt_exit_status (build_receipt (fun s => Some s) sample_context short_chain) true = Ok tt /\
  rv_consistency_issues (build_receipt (fun s => Some s) sample_context short_chain)
  = ["outcome_amount_divergence"].
Proof. by vm_compute. Qed.
