(* ===== verification/Supervise.v ===== *)
(** * Supervise: one ask under supervision, and its successors
    (crates/dexdo/src/seller/liveness.rs)

    While an ask rests, the seller checks its own readiness, re-reads the ask's
    deadline and waits for a match; whichever of these ends the watch decides how
    the ask is taken off.  An expired ask is reaped and its volume offered again.
    The [select!] of the source is the call [sv_next], which answers with the branch
    that fired; a branch that loses is dropped.  Durations are whole seconds. *)
From S2P Require Import Prelude Text Params Address MarketTypes Machine MockDeal MockMarket Backend.
From S2P Require Import Offer.

(** ** Taking one exact ask off the book, and reaping an expired one
    (crates/dexdo/src/seller/liveness.rs)

    Every answer comes from the chain: the order's absence, its match, or the
    rejection of the cancel.  The budget bounds the reads and the one submit; an
    accepted cancel is watched without a clock. *)
Inductive CancellationDisposition : Type :=
| Cancelled
| AlreadyAbsent
| AlreadyMatched (m : Match)
| UnknownFailure (known_result : string)
| RejectedStillResting (reason : Z)
| NotAttemptedExpired
| ReapedNotRelisted (reason : string).

Definition proven_unmatchable (d : CancellationDisposition) : bool :=
  match d with
  | Cancelled | AlreadyAbsent | AlreadyMatched _ | NotAttemptedExpired | ReapedNotRelisted _ => true
  | UnknownFailure _ | RejectedStillResting _ => false
  end.
Definition disposition_as_str (d : CancellationDisposition) : string :=
  match d with
  | Cancelled => "cancelled"
  | AlreadyAbsent => "already_absent"
  | AlreadyMatched _ => "already_matched"
  | UnknownFailure _ => "unknown_failure"
  | RejectedStillResting _ => "rejected_still_resting"
  | NotAttemptedExpired => "not_attempted_expired"
  | ReapedNotRelisted _ => "reaped_not_relisted"
  end.

Section Cancel.
Context {W : Type} `{OfferBook W} `{Clock W} `{Timer W}.
Context (cfg : SellerConfig) (identity : RestingOfferIdentity) (poll_interval : Z).

Definition past (deadline : Z) : prog W bool := get (fun w => (deadline <=? clock_now w, w)).
(** [sleep_until(min(now + poll_interval, deadline))]. *)
Definition sleep_poll (deadline : Z) : prog W unit := fun w =>
  let wake_at := Z.min (clock_now w + poll_interval) deadline in
  run (sleep (Z.max 0 (wake_at - clock_now w))) w.

(** The state of the order as a value: a failed read is an answer too. *)
Definition target_attempt : prog W (outcome ChainError TargetState) := fun w =>
  match target_state cfg identity w with
  | (Some Panic, w') => (Some Panic, w')
  | (Some r, w') => (Some (Ok r), w')
  | (None, w') => (None, w')
  end.

(** [watch_accepted_cancel]: no deadline, only the chain ends it. *)
Fixpoint watch_accepted_cancel (fuel : nat) (watch : Z) : prog W CancellationDisposition :=
  match fuel with
  | O => out_of_fuel
  | S fuel =>
      let again := run (sleep poll_interval) >>! watch_accepted_cancel fuel watch in
      let! state := target_attempt in
      match state with
      | Ok Absent => ret Cancelled
      | Ok (TargetMatched m) => ret (AlreadyMatched m)
      | Ok Present | Ok (TargetExpired _) =>
          let! rejection := attempt (ob_cancel_rejection (ri_token_contract identity)
                                       (ri_order_id identity) (ri_owner_note identity) watch) in
          match rejection with
          | Ok (Some reason) => ret (RejectedStillResting reason)
          | _ => again
          end
      | _ => again
      end
  end.

(** The read before the submit: [Some d] ends with a disposition, [None] goes on to
    cancel.  Absence is read again until the deadline, because a fresh order may
    not be visible yet. *)
Fixpoint before_submit (fuel : nat) (deadline : Z) : prog W (option CancellationDisposition) :=
  match fuel with
  | O => out_of_fuel
  | S fuel =>
      let! state := timeout_at deadline (target_state cfg identity) in
      match state with
      | Elapsed => ret (Some (UnknownFailure "initial_authoritative_read=timeout"))
      | Done (Ok Present) | Done (Ok (TargetExpired _)) => ret None
      | Done (Ok (TargetMatched m)) => ret (Some (AlreadyMatched m))
      | Done (Ok Absent) =>
          let! over := past deadline in
          if over : bool then
            let! over := past deadline in
            if over : bool then ret (Some AlreadyAbsent) else before_submit fuel deadline
          else
            sleep_poll deadline >>!
            let! over := past deadline in
            if negb over then before_submit fuel deadline
            else
              let! over := past deadline in
              if over : bool then ret (Some AlreadyAbsent) else before_submit fuel deadline
      | Done _ => ret (Some (UnknownFailure "initial_authoritative_read=failed"))
      end
  end.

(** After a refused submit: what the chain says until the deadline. *)
Fixpoint after_refusal (fuel : nat) (deadline : Z) (absent : bool) (last : string)
    : prog W CancellationDisposition :=
  match fuel with
  | O => out_of_fuel
  | S fuel =>
      let! over := past deadline in
      if over : bool then ret (if absent then AlreadyAbsent else UnknownFailure last)
      else
        let again absent last := sleep_poll deadline >>! after_refusal fuel deadline absent last in
        let! state := timeout_at deadline (target_state cfg identity) in
        match state with
        | Elapsed => ret (UnknownFailure "authoritative_read=timeout")
        | Done (Ok Absent) => again true "authoritative_state=absent"
        | Done (Ok (TargetMatched m)) => ret (AlreadyMatched m)
        | Done (Ok Present) => again false "authoritative_state=present"
        | Done (Ok (TargetExpired _)) => again false "authoritative_state=present_expired"
        | Done _ => again false "authoritative_read=failed"
        end
  end.

Definition cancel_attempt (deadline : Z) : prog W (timed CancelStart) :=
  timeout_at deadline (get (ob_begin_cancel (ri_token_contract identity) (ri_order_id identity))).

Definition cancel_and_confirm_before (fuel : nat) (deadline : Z) : prog W CancellationDisposition :=
  let! early := before_submit fuel deadline in
  match early with
  | Some d => ret d
  | None =>
      let! submitted := cancel_attempt deadline in
      match submitted with
      | Done (Ok (CancelAccepted watch)) => watch_accepted_cancel fuel watch
      | Done (Ok (CancelPreparation _)) => ret (UnknownFailure "cancel_preparation=failed")
      | Done (Ok (CancelSubmit _)) => after_refusal fuel deadline false "authoritative_state=present"
      | _ => ret (UnknownFailure "cancel_preparation_or_submit=timeout")
      end
  end.
Definition cancel_and_confirm_with_timing (fuel : nat) (confirm_timeout : Z) : prog W CancellationDisposition :=
  let! now := get (fun w => (clock_now w, w)) in
  cancel_and_confirm_before fuel (now + confirm_timeout).
End Cancel.

(** ** Reaping an expired ask *)

Inductive RelistDecision : Type :=
| Relist (remaining_ticks price_per_tick : Z)
| RelistMatched (m : Match)
| RelistRefused (reason : string)
| RelistUnproven (known_result : string).

Section Reap.
Context {W : Type} `{OfferBook W} `{Clock W} `{Timer W}.
Context (identity : RestingOfferIdentity) (poll_interval : Z).

(** One pass: [inl] is decided, [inr] may still be resolved by a later pass. *)
Definition reap_state : prog W (RelistDecision + string) :=
  let tc := ri_token_contract identity in
  let! matched := lift (ob_openable_match tc) in
  match matched with
  | Some m => ret (inl (RelistMatched m))
  | None =>
      let! orders := lift (ob_raw_orders tc) in
      match List.find (fun o => negb (ob_order_id o =? ri_order_id identity)) orders with
      | Some _ => ret (inl (RelistRefused "already carries another live SELL"))
      | None =>
          if negb (bool_decide (orders = [])) then ret (inr "authoritative_state=expired_order_still_in_book")
          else
            let! latch := lift (ob_offer_latch tc) in
            match latch with
            | None => ret (inl (RelistRefused "offer latch is unreadable"))
            | Some latch =>
                if offer_posted latch then ret (inr "authoritative_state=offer_latch_still_posted")
                else
                  let! state := lift (ob_deal_state tc) in
                  match state with
                  | None => ret (inr "authoritative_state=deal_state_absent")
                  | Some state =>
                      match used_reason state with
                      | Some _ => ret (inl (RelistRefused "is already used"))
                      | None =>
                          let! terms := lift (ob_offer_terms tc) in
                          match terms with
                          | None => ret (inl (RelistRefused "has no readable getDeal terms"))
                          | Some (price_per_tick, remaining_ticks) =>
                              if remaining_ticks <? MIN_STREAM_BUY_TICKS
                              then ret (inl (RelistRefused "capacity below the minimum fill"))
                              else ret (inl (Relist remaining_ticks price_per_tick))
                          end
                      end
                  end
            end
      end
  end.

Fixpoint reap_loop (fuel : nat) (deadline : Z) (submitted : bool) : prog W RelistDecision :=
  match fuel with
  | O => out_of_fuel
  | S fuel =>
      let! pass := timeout_at deadline reap_state in
      match pass with
      | Done (Ok (inl decision)) => ret decision
      | _ =>
          let last := match pass with
                      | Done (Ok (inr pending)) => pending
                      | Done _ => "read_failed"
                      | Elapsed => "read_failed: timeout"
                      end in
          (if submitted then ret tt
           else let! _ := timeout_at deadline
                            (lift (ob_expire (ri_token_contract identity) (ri_order_id identity))) in
                ret tt) >>!
          let last := if submitted then last else "awaiting authoritative removal" in
          let! over := past deadline in
          if over : bool then ret (RelistUnproven last)
          else sleep_poll poll_interval deadline >>! reap_loop fuel deadline true
      end
  end.
Definition reap_expired_offer (fuel : nat) (deadline : Z) : prog W RelistDecision :=
  reap_loop fuel deadline false.

(** The successor's own deadline, read from the book. *)
Fixpoint successor_absolute_deadline (fuel : nat) (deadline : Z) : prog W (Z + string) :=
  match fuel with
  | O => out_of_fuel
  | S fuel =>
      let! read := timeout_at deadline (lift (ob_raw_orders (ri_token_contract identity))) in
      let not_found last :=
        let! over := past deadline in
        if over : bool then ret (inr last)
        else sleep_poll poll_interval deadline >>! successor_absolute_deadline fuel deadline in
      match read with
      | Done (Ok orders) =>
          match find_order (ri_order_id identity) orders with
          | Some order => ret (inl (ob_deadline order))
          | None => not_found "accepted successor is absent from the book"
          end
      | Done _ => not_found "authoritative_read=failed"
      | Elapsed => not_found "authoritative_read=timeout"
      end
  end.
End Reap.

Definition SELLER_UPSTREAM_HEALTH_TIMEOUT_MAX_ATTEMPTS : Z := 2.
Definition TRANSIENT_READ_TOTAL_BUDGET : Z := 45.

Inductive HealthComponent : Type := GatewayTask | AdvertisedGateway | UpstreamModel.
Record HealthFailure : Type := mkHealthFailure {
  hf_component : HealthComponent; hf_timed_out : bool; hf_detail : string }.
Inductive RestingStopReason : Type :=
| StopHealth (failure : HealthFailure)
| StopShutdown
| StopWatcher (error : string)
| StopExpired (expired : RestingOfferExpiry).
Inductive RestingSellerOutcome : Type :=
| SellerMatched (m : Match)
| SellerStopped (reason : RestingStopReason) (disposition : CancellationDisposition).
Inductive SellerStartupOutcome : Type :=
| StartupReady (startup : SellerOfferStartup)
| StartupStopped (identity : option RestingOfferIdentity) (reason : RestingStopReason)
    (disposition : CancellationDisposition).
Record SupervisionTiming : Type := mkTiming {
  st_health_interval : Z;
  st_health_timeout : Z;
  st_cycle_timeout : Z;
  st_cancel_poll : Z;
  st_expiry_poll : Z;
  st_reap_timeout : Z;
  st_reap_poll : Z;
  st_abort_gateway_on_stop : bool
}.
(** [SellerLivenessParams::canonical] as [canonical_timing] arranges it. *)
Definition canonical_timing (abort_gateway_on_stop : bool) : SupervisionTiming :=
  mkTiming 20 20 60 2 5 60 2 abort_gateway_on_stop.

(** What ended the watch. *)
Inductive Trigger : Type :=
| TriggerHealth (failure : HealthFailure)
| TriggerShutdown
| TriggerWatcher (error : string)
| TriggerExpired (expired : RestingOfferExpiry).
(** The branches of the [select!]. *)
Inductive SelectEvent : Type :=
| MatchReady (r : outcome ChainError Match)
| ShutdownReady
| HealthTick
| ExpiryTick.
(** Who wins over an expiry read in flight. *)
Inductive RaceWinner : Type := RaceMatch (r : outcome ChainError Match) | RaceShutdown.

Class Supervision (W : Type) : Type := {
  sv_next : W -> SelectEvent * W;
  sv_expiry_race : W -> option RaceWinner * W;
  sv_check_readiness : Z -> option RestingOfferIdentity -> W -> option HealthFailure * W;
  sv_check_startup_readiness : Z -> option RestingOfferIdentity -> W -> option HealthFailure * W;
  (** shutdown or the end of the gateway task, when it wins a biased [select!] *)
  sv_interrupted : W -> option RestingStopReason * W;
  sv_abort_gateway : W -> W
}.

Definition is_probe (c : HealthComponent) : bool :=
  match c with UpstreamModel | AdvertisedGateway => true | GatewayTask => false end.

Section Supervise.
Context {W : Type} `{OfferBook W} `{Clock W} `{Timer W} `{Supervision W}.
Context (timing : SupervisionTiming).

Definition instant : prog W Z := get (fun w => (clock_now w, w)).

(** ** The readiness cycle *)

(** [inl t]: healthy at [t]; [inr]: the failure and the instant that bounds the
    cancellation. *)
Fixpoint health_attempts (fuel : nat) (identity : RestingOfferIdentity) (attempt deadline timeout_deadline check_deadline : Z)
    : prog W (Z + HealthFailure * Z) :=
  match fuel with
  | O => out_of_fuel
  | S fuel =>
      let! now := instant in
      let remaining := Z.max 0 (check_deadline - now) in
      let check_timeout := Z.min (st_health_timeout timing) remaining in
      let! failure := get (sv_check_readiness check_timeout (Some identity)) in
      match failure with
      | None => let! now := instant in ret (inl now)
      | Some failure =>
          if hf_timed_out failure && is_probe (hf_component failure)
             && (attempt <? SELLER_UPSTREAM_HEALTH_TIMEOUT_MAX_ATTEMPTS)
          then health_attempts fuel identity (attempt + 1) deadline timeout_deadline timeout_deadline
          else ret (inr (failure, if 1 <? attempt then timeout_deadline else deadline))
      end
  end.
(** The attempts never exceed the maximum, so this fuel is enough. *)
Definition attempts_fuel : nat := Z.to_nat SELLER_UPSTREAM_HEALTH_TIMEOUT_MAX_ATTEMPTS.
Definition health_cycle (identity : RestingOfferIdentity) (last_healthy : Z) : prog W (Z + HealthFailure * Z) :=
  let! cycle_start := instant in
  let starved := last_healthy + st_cycle_timeout timing <=? cycle_start in
  let cycle_base := if starved then cycle_start else last_healthy in
  let deadline := cycle_base + st_cycle_timeout timing in
  let retry_allowance := st_health_timeout timing * (SELLER_UPSTREAM_HEALTH_TIMEOUT_MAX_ATTEMPTS - 1) in
  health_attempts attempts_fuel identity 1 deadline (deadline + retry_allowance) deadline.

(** ** The watch *)

(** The end of the watch: a match, or a trigger and the deadline of the cancellation. *)
Definition watch_end : Type := Match + Trigger * Z.
Definition end_matched (r : outcome ChainError Match) : prog W watch_end :=
  match r with
  | Ok m => ret (inl m)
  | _ => let! now := instant in ret (inr (TriggerWatcher "match watcher failed", now + st_cycle_timeout timing))
  end.
Definition end_shutdown : prog W watch_end :=
  let! now := instant in ret (inr (TriggerShutdown, now + st_cycle_timeout timing)).

(** The read under its own budget, raced against a match and a shutdown. *)
Definition expiry_read (identity : RestingOfferIdentity) (last_deadline : option Z)
    : prog W (RaceWinner + timed SupervisedOfferPoll) :=
  let! now := instant in
  let! raced := get sv_expiry_race in
  match raced with
  | Some winner => ret (inl winner)
  | None =>
      let! read := timeout_at (now + TRANSIENT_READ_TOTAL_BUDGET) (resting_offer_expiry identity last_deadline) in
      ret (inr read)
  end.

Fixpoint watch_loop (fuel : nat) (identity : RestingOfferIdentity) (last_healthy : Z) (last_deadline : option Z)
    : prog W watch_end :=
  match fuel with
  | O => out_of_fuel
  | S fuel =>
      let! event := get sv_next in
      match event with
      | MatchReady r => end_matched r
      | ShutdownReady => end_shutdown
      | HealthTick =>
          let! checked := health_cycle identity last_healthy in
          match checked with
          | inl healthy => watch_loop fuel identity healthy last_deadline
          | inr (failure, deadline) => ret (inr (TriggerHealth failure, deadline))
          end
      | ExpiryTick =>
          let! read := expiry_read identity last_deadline in
          match read with
          | inl (RaceMatch r) => end_matched r
          | inl RaceShutdown => end_shutdown
          | inr (Done (Ok (PollExpired expired))) =>
              let! now := instant in ret (inr (TriggerExpired expired, now + st_cycle_timeout timing))
          | inr (Done (Ok (PollLive deadline))) => watch_loop fuel identity last_healthy (Some deadline)
          | inr _ => watch_loop fuel identity last_healthy last_deadline
          end
      end
  end.

Definition stop_reason (t : Trigger) : RestingStopReason :=
  match t with
  | TriggerHealth failure => StopHealth failure
  | TriggerShutdown => StopShutdown
  | TriggerWatcher error => StopWatcher error
  | TriggerExpired expired => StopExpired expired
  end.

Definition supervise_with_timing (fuel : nat) (cfg : SellerConfig) (identity : RestingOfferIdentity)
    : prog W RestingSellerOutcome :=
  let! now := instant in
  let! decision := watch_loop fuel identity now None in
  match decision with
  | inl m => ret (SellerMatched m)
  | inr (TriggerExpired expired, _) => ret (SellerStopped (StopExpired expired) NotAttemptedExpired)
  | inr (trigger, deadline) =>
      let! disposition := cancel_and_confirm_before cfg identity (st_cancel_poll timing) fuel deadline in
      match disposition with
      | AlreadyMatched m => ret (SellerMatched m)
      | disposition =>
          (if st_abort_gateway_on_stop timing && proven_unmatchable disposition
           then run sv_abort_gateway else ret tt) >>!
          ret (SellerStopped (stop_reason trigger) disposition)
      end
  end.

(** ** Startup *)

Definition stop_exact_offer (fuel : nat) (cfg : SellerConfig) (identity : RestingOfferIdentity)
    (reason : RestingStopReason) (deadline : Z) : prog W SellerStartupOutcome :=
  let! disposition := cancel_and_confirm_before cfg identity (st_cancel_poll timing) fuel deadline in
  match disposition with
  | AlreadyMatched _ => ret (StartupReady ResumedFunded)
  | disposition =>
      if negb (proven_unmatchable disposition)
      then ret (StartupStopped (Some identity) reason disposition)
      else run sv_abort_gateway >>! ret (StartupStopped (Some identity) reason disposition)
  end.

(** An unresolved post: read until something is there, or the deadline. *)
Fixpoint reconcile_unresolved_startup (fuel : nat) (cfg : SellerConfig) (expected_owner : string)
    (deadline : Z) (known_result : string) : prog W (SellerOfferInspection + string) :=
  match fuel with
  | O => out_of_fuel
  | S fuel =>
      let! over := past deadline in
      if over : bool then ret (inr known_result)
      else
        let again known := sleep_poll (st_cancel_poll timing) deadline >>!
                           reconcile_unresolved_startup fuel cfg expected_owner deadline known in
        let! read := timeout_at deadline (inspect_seller_offer cfg (Some expected_owner)) in
        match read with
        | Done (Ok InspectVacant) => again "authoritative_state=vacant"
        | Done (Ok inspection) => ret (inl inspection)
        | Done _ => again "authoritative_read=failed"
        | Elapsed => ret (inr "authoritative_read=timeout")
        end
  end.

Definition identity_of (cfg : SellerConfig) (owner : string) (order_id : Z) : RestingOfferIdentity :=
  mkIdentity owner (sc_token_contract cfg) order_id.

Definition resolve_interrupted_startup (fuel : nat) (cfg : SellerConfig) (expected_owner : string)
    (startup : option SellerOfferStartup) (reason : RestingStopReason) (deadline : Z)
    : prog W SellerStartupOutcome :=
  let resolved inspection :=
    match inspection with
    | InspectFunded => ret (StartupReady ResumedFunded)
    | InspectResting order_id =>
        stop_exact_offer fuel cfg (identity_of cfg expected_owner order_id) reason deadline
    | InspectVacant =>
        run sv_abort_gateway >>! ret (StartupStopped None reason AlreadyAbsent)
    end in
  match startup with
  | Some ResumedFunded | Some (Posted (Some Matched)) => ret (StartupReady ResumedFunded)
  | Some (ResumedResting order_id) | Some (Posted (Some (Rested order_id))) => resolved (InspectResting order_id)
  | Some (Posted None) | None =>
      let! found := reconcile_unresolved_startup fuel cfg expected_owner deadline "authoritative_state=vacant" in
      match found with
      | inl inspection => resolved inspection
      | inr known_result => ret (StartupStopped None reason (UnknownFailure known_result))
      end
  end.

Fixpoint startup_readiness (fuel : nat) (existing_identity : option RestingOfferIdentity) (attempt : Z)
    : prog W (option HealthFailure) :=
  match fuel with
  | O => out_of_fuel
  | S fuel =>
      let! failure := get (sv_check_startup_readiness (st_health_timeout timing) existing_identity) in
      match failure with
      | None => ret None
      | Some failure =>
          if hf_timed_out failure && (attempt <? SELLER_UPSTREAM_HEALTH_TIMEOUT_MAX_ATTEMPTS)
          then startup_readiness fuel existing_identity (attempt + 1)
          else ret (Some failure)
      end
  end.
Definition startup_readiness_with_timeout_retries (existing_identity : option RestingOfferIdentity)
    : prog W (option HealthFailure) := startup_readiness attempts_fuel existing_identity 1.

(** A result of [prepare_seller_offer] as a value. *)
Definition startup_attempt (cfg : SellerConfig) (owner : string)
    : prog W (outcome ChainError SellerOfferStartup) := fun w =>
  match prepare_seller_offer cfg (Some owner) w with
  | (Some Panic, w') => (Some Panic, w')
  | (Some r, w') => (Some (Ok r), w')
  | (None, w') => (None, w')
  end.

(** The post completed: a fresh resting order is checked once more before it counts. *)
Definition after_post (fuel : nat) (cfg : SellerConfig) (owner : string)
    (result : outcome ChainError SellerOfferStartup) : prog W SellerStartupOutcome :=
  match result with
  | Ok (Posted None) =>
      let! now := instant in
      resolve_interrupted_startup fuel cfg owner None
        (StopWatcher "SELL post returned without an exact resting or matched outcome")
        (now + st_cycle_timeout timing)
  | Ok (Posted (Some (Rested order_id))) =>
      let identity := identity_of cfg owner order_id in
      let! now := instant in
      let deadline := now + st_cycle_timeout timing in
      let! now := instant in
      let remaining := Z.max 0 (deadline - now) in
      let! stop := get sv_interrupted in
      let! stop :=
        (match stop with
         | Some reason => ret (Some reason)
         | None =>
             let! failure := get (sv_check_readiness (Z.min (st_health_timeout timing) remaining) (Some identity)) in
             ret (StopHealth <$> failure)
         end) in
      match stop with
      | Some reason => stop_exact_offer fuel cfg identity reason deadline
      | None => ret (StartupReady (Posted (Some (Rested order_id))))
      end
  | Ok startup => ret (StartupReady startup)
  | _ =>
      let! now := instant in
      resolve_interrupted_startup fuel cfg owner None
        (StopWatcher "seller offer post or confirmation failed") (now + st_cycle_timeout timing)
  end.

Definition prepare_seller_offer_with_timing (fuel : nat) (cfg : SellerConfig) (expected_owner : string)
    (existing_identity : option RestingOfferIdentity) : prog W SellerStartupOutcome :=
  lift (ob_assert_covers_bond (sc_token_contract cfg)) >>!
  let! now := instant in
  let readiness_deadline := now + st_cycle_timeout timing in
  let! interrupted := get sv_interrupted in
  let! readiness_stop :=
    (match interrupted with
     | Some reason => ret (Some reason)
     | None => let! failure := startup_readiness_with_timeout_retries existing_identity in
               ret (StopHealth <$> failure)
     end) in
  match readiness_stop with
  | Some reason =>
      match existing_identity with
      | Some identity => stop_exact_offer fuel cfg identity reason readiness_deadline
      | None =>
          run sv_abort_gateway >>!
          match reason with
          | StopShutdown => ret (StartupStopped None reason AlreadyAbsent)
          | StopHealth _ => throw (Chain "seller readiness failed before SELL")
          | StopWatcher _ | StopExpired _ => panic
          end
      end
  | None =>
      let! interrupted := get sv_interrupted in
      match interrupted with
      | None =>
          let! result := startup_attempt cfg expected_owner in
          after_post fuel cfg expected_owner result
      | Some reason =>
          let! now := instant in
          let deadline := now + st_cycle_timeout timing in
          let startup_deadline := Z.min deadline (now + st_health_timeout timing) in
          let! startup := timeout_at startup_deadline (prepare_seller_offer cfg (Some expected_owner)) in
          resolve_interrupted_startup fuel cfg expected_owner
            (match startup with Done (Ok startup) => Some startup | _ => None end) reason deadline
      end
  end.

(** ** Successors *)

Definition with_terms (cfg : SellerConfig) (price_per_tick max_ticks : Z) : SellerConfig :=
  mkSellerConfig (sc_token_contract cfg) price_per_tick max_ticks (sc_subscription cfg).

(** The order the successor rests as, or the outcome that ends the loop. *)
Definition successor_order (result : SellerStartupOutcome) (expired : RestingOfferExpiry)
    (identity : RestingOfferIdentity) : prog W (Z + RestingSellerOutcome) :=
  match result with
  | StartupReady ResumedFunded | StartupReady (Posted (Some Matched)) =>
      let! m := lift (ob_read_match (ri_token_contract identity)) in ret (inr (SellerMatched m))
  | StartupReady (Posted (Some (Rested order_id))) | StartupReady (ResumedResting order_id) => ret (inl order_id)
  | StartupReady (Posted None) =>
      ret (inr (SellerStopped (StopExpired expired) (UnknownFailure "successor_post=unconfirmed")))
  | StartupStopped _ reason disposition => ret (inr (SellerStopped reason disposition))
  end.

(** What follows the reap of one generation: the successor's identity, or the end. *)
Definition relist_once (fuel : nat) (cfg : SellerConfig) (identity : RestingOfferIdentity)
    (expired : RestingOfferExpiry) : prog W (SellerConfig * RestingOfferIdentity + RestingSellerOutcome) :=
  let! now := instant in
  let! decision := reap_expired_offer identity (st_reap_poll timing) fuel (now + st_reap_timeout timing) in
  match decision with
  | RelistMatched m => ret (inr (SellerMatched m))
  | RelistRefused reason => ret (inr (SellerStopped (StopExpired expired) (ReapedNotRelisted reason)))
  | RelistUnproven known => ret (inr (SellerStopped (StopExpired expired) (UnknownFailure known)))
  | Relist remaining_ticks price_per_tick =>
      let cfg := with_terms cfg price_per_tick remaining_ticks in
      let! prepared := prepare_seller_offer_with_timing fuel cfg (ri_owner_note identity) None in
      let! next := successor_order prepared expired identity in
      match next with
      | inr ended => ret (inr ended)
      | inl successor =>
          if successor =? ri_order_id identity
          then ret (inr (SellerStopped (StopExpired expired)
                      (UnknownFailure "successor_post=returned the reaped order id")))
          else
            let successor_identity := mkIdentity (ri_owner_note identity) (ri_token_contract identity) successor in
            let! now := instant in
            let! read := successor_absolute_deadline successor_identity (st_reap_poll timing) fuel
                           (now + st_reap_timeout timing) in
            match read with
            | inl deadline =>
                if re_deadline expired <? deadline then ret (inl (cfg, successor_identity))
                else ret (inr (SellerStopped (StopExpired expired)
                            (UnknownFailure "successor deadline does not advance past the reaped one")))
            | inr known => ret (inr (SellerStopped (StopExpired expired) (UnknownFailure known)))
            end
      end
  end.

(** The loop over generations; the identity is the one it ended on. *)
Fixpoint supervise_and_relist (fuel : nat) (cfg : SellerConfig) (identity : RestingOfferIdentity)
    : prog W (RestingSellerOutcome * RestingOfferIdentity) :=
  match fuel with
  | O => out_of_fuel
  | S fuel' =>
      let! settled := supervise_with_timing fuel cfg identity in
      match settled with
      | SellerStopped (StopExpired expired) _ =>
          let! next := relist_once fuel cfg identity expired in
          match next with
          | inl (cfg, successor) => supervise_and_relist fuel' cfg successor
          | inr ended => ret (ended, identity)
          end
      | settled => ret (settled, identity)
      end
  end.
End Supervise.
