(* ===== verification/LivenessSafety.v ===== *)
(** * LivenessSafety: every verdict about an ask rests on what the chain said

    The seller runs on an arbitrary chain, clock, timer and set of events whose
    calls are logged.  Whatever they answer, an ask counts as gone only after the
    book and the match were read and said so, at most one cancel and one expiry is
    sent for it, the gateway is shut down only behind such a fact, and a successor
    is posted only over an empty book, sized from the deal's own terms. *)
From S2P Require Import Prelude Text Params Address MarketTypes Machine MockDeal MockMarket.
From S2P Require Import Backend Offer Supervise.

(** ** Logged calls, newest first *)
Inductive Event : Type :=
| EOrders (tc : TokenContract) (r : outcome ChainError (list OrderBookOrder))
| EMatch (tc : TokenContract) (r : outcome ChainError (option Match))
| ELatch (tc : TokenContract) (r : outcome ChainError (option DealOfferLatch))
| EState (tc : TokenContract) (r : outcome ChainError (option DealChainState))
| ETerms (tc : TokenContract) (r : outcome ChainError (option (Z * Z)))
| ERejection (tc : TokenContract) (order_id : Z) (r : outcome ChainError (option Z))
| EReadiness (timeout : Z)
| EExpire (tc : TokenContract) (order_id : Z)
| ECancel (tc : TokenContract) (order_id : Z) (r : CancelStart)
| EPost (o : SellOffer)
| EAbort.

Section Logged.
Context {W : Type} (B : OfferBook W) (C : Clock W) (T : Timer W) (S : Supervision W).
Definition logged : Type := W * list Event.
Definition plain {A} (f : W -> A * W) (w : logged) : A * logged :=
  let '(a, w') := f (fst w) in (a, (w', snd w)).
Definition noted {A} (e : A -> Event) (f : W -> A * W) (w : logged) : A * logged :=
  let '(a, w') := f (fst w) in (a, (w', e a :: snd w)).

#[export] Instance logged_book : OfferBook logged := {|
  ob_raw_orders tc := noted (EOrders tc) (ob_raw_orders tc);
  ob_openable_match tc := noted (EMatch tc) (ob_openable_match tc);
  ob_offer_latch tc := noted (ELatch tc) (ob_offer_latch tc);
  ob_deal_state tc := noted (EState tc) (ob_deal_state tc);
  ob_offer_terms tc := noted (ETerms tc) (ob_offer_terms tc);
  ob_expire tc id := noted (fun _ => EExpire tc id) (ob_expire tc id);
  ob_begin_cancel tc id := noted (ECancel tc id) (ob_begin_cancel tc id);
  ob_cancel_rejection tc id owner watch := noted (ERejection tc id) (ob_cancel_rejection tc id owner watch);
  ob_assert_covers_bond tc := plain (ob_assert_covers_bond tc);
  ob_assert_fresh tc := plain (ob_assert_fresh tc);
  ob_post_offer o := noted (fun _ => EPost o) (ob_post_offer o);
  ob_confirm_outcome tc := plain (ob_confirm_outcome tc);
  ob_read_match tc := plain (ob_read_match tc);
  ob_unix_now w := ob_unix_now (fst w) |}.
#[export] Instance logged_clock : Clock logged := {|
  clock_now w := clock_now (fst w); sleep d w := (sleep d (fst w), snd w) |}.
#[export] Instance logged_timer : Timer logged := {| timer_won d w := timer_won d (fst w) |}.
#[export] Instance logged_supervision : Supervision logged := {|
  sv_next := plain sv_next;
  sv_expiry_race := plain sv_expiry_race;
  sv_check_readiness t i := noted (fun _ => EReadiness t) (sv_check_readiness t i);
  sv_check_startup_readiness t i := noted (fun _ => EReadiness t) (sv_check_startup_readiness t i);
  sv_interrupted := plain sv_interrupted;
  sv_abort_gateway w := (sv_abort_gateway (fst w), EAbort :: snd w) |}.
End Logged.

(** ** What the log says *)

Definition is_read (e : Event) : bool :=
  match e with EExpire _ _ | ECancel _ _ _ | EPost _ | EAbort => false | _ => true end.
(** Reads that do not change what is known of the deal's terms. *)
Definition is_quiet (e : Event) : bool := match e with ETerms _ _ => false | _ => is_read e end.
Definition writes (t : list Event) : list Event := List.filter (fun e => negb (is_read e)) t.

(** The newest calls: the order is not in the book and the deal is not matched. *)
Definition absent_proof (tc : TokenContract) (id : Z) (t : list Event) : Prop :=
  exists os t', t = EMatch tc (Ok None) :: EOrders tc (Ok os) :: t' /\ find_order id os = None.
Definition matched_proof (tc : TokenContract) (m : Match) (t : list Event) : Prop :=
  exists t', t = EMatch tc (Ok (Some m)) :: t'.
(** The order rests in the book. *)
Definition resting_proof (tc : TokenContract) (id : Z) (t : list Event) : Prop :=
  exists os o t', t = EOrders tc (Ok os) :: t' /\ find_order id os = Some o.
Definition rejected_proof (tc : TokenContract) (id reason : Z) (t : list Event) : Prop :=
  exists t', t = ERejection tc id (Ok (Some reason)) :: t' /\ resting_proof tc id t'.

Definition target_fact (tc : TokenContract) (id : Z) (s : TargetState) (t : list Event) : Prop :=
  match s with
  | Absent => absent_proof tc id t
  | TargetMatched m => matched_proof tc m t
  | Present | TargetExpired _ => resting_proof tc id t
  end.
(** The fact a disposition stands on. *)
Definition backed (tc : TokenContract) (id : Z) (d : CancellationDisposition) (t : list Event) : Prop :=
  match d with
  | Cancelled | AlreadyAbsent => absent_proof tc id t
  | AlreadyMatched m => matched_proof tc m t
  | RejectedStillResting reason => rejected_proof tc id reason t
  | UnknownFailure _ => True
  | NotAttemptedExpired | ReapedNotRelisted _ => False
  end.

(** The terms of the deal as last read. *)
Fixpoint latest_terms (t : list Event) : option (Z * Z) :=
  match t with
  | [] => None
  | ETerms _ (Ok (Some terms)) :: _ => Some terms
  | _ :: t' => latest_terms t'
  end.
(** The newest calls: no match, and not one row in the book. *)
Definition vacant_proof (tc : TokenContract) (t : list Event) : Prop :=
  exists t', t = EOrders tc (Ok []) :: EMatch tc (Ok None) :: t'.
(** Every post was made over a vacant book, for this contract, at the terms last
    read from the deal: price first, then the volume. *)
Fixpoint posts_ok (tc : TokenContract) (t : list Event) : Prop :=
  match t with
  | [] => True
  | EPost o :: t' =>
      vacant_proof tc t' /\ so_token_contract o = tc /\
      latest_terms t' = Some (so_price_per_tick o, so_max_ticks o) /\ posts_ok tc t'
  | _ :: t' => posts_ok tc t'
  end.

Section Safety.
Context {W : Type} (B : OfferBook W) (C : Clock W) (T : Timer W) (S : Supervision W).

#[local] Existing Instance logged_book.
#[local] Existing Instance logged_clock.
#[local] Existing Instance logged_timer.
#[local] Existing Instance logged_supervision.

(** Triples over the log alone. *)
Definition on_log (P : list Event -> Prop) (w : @logged W) : Prop := P (snd w).
Definition triple {A} (P : list Event -> Prop) (m : prog (@logged W) A) (Q : A -> list Event -> Prop)
    (R : list Event -> Prop) : Prop := holds (on_log P) m (fun a => on_log (Q a)) (on_log R).

Lemma triple_ret {A} (P : list Event -> Prop) (a : A) (Q : A -> list Event -> Prop) R :
  (forall t, P t -> Q a t) -> triple P (ret a) Q R.
Proof. intros H. apply holds_ret. intros w. apply H. Qed.
Lemma triple_bind {A A'} P (m : prog _ A) (k : A -> prog _ A') Q' Q R :
  triple P m Q' R -> (forall a, triple (Q' a) (k a) Q R) -> triple P (bind m k) Q R.
Proof. apply holds_bind. Qed.
Lemma triple_conseq {A} (P P' : list Event -> Prop) (m : prog _ A) (Q Q' : A -> list Event -> Prop)
    (R R' : list Event -> Prop) :
  triple P' m Q' R' -> (forall t, P t -> P' t) -> (forall a t, Q' a t -> Q a t) ->
  (forall t, R' t -> R t) -> triple P m Q R.
Proof. intros H HP HQ HR. eapply holds_conseq; [exact H| | |]; intros; unfold on_log in *; auto. Qed.
Lemma triple_pre {A} (P P' : list Event -> Prop) (m : prog _ A) Q R :
  triple P' m Q R -> (forall t, P t -> P' t) -> triple P m Q R.
Proof. intros H HP. eapply triple_conseq; eauto. Qed.
Lemma triple_fail {A} (P : list Event -> Prop) (m : prog _ A) Q (R R' : list Event -> Prop) :
  triple P m Q R' -> (forall t, R' t -> R t) -> triple P m Q R.
Proof. intros H HR. eapply triple_conseq; eauto. Qed.
Lemma triple_post {A} (P : list Event -> Prop) (m : prog _ A) (Q Q' : A -> list Event -> Prop) R :
  triple P m Q' R -> (forall a t, Q' a t -> Q a t) -> triple P m Q R.
Proof. intros H HQ. eapply triple_conseq; eauto. Qed.
Lemma triple_fuel {A} (P R : list Event -> Prop) (Q : A -> list Event -> Prop) :
  (forall t, P t -> R t) -> triple P out_of_fuel Q R.
Proof. intros H. apply holds_fuel. intros w. apply H. Qed.
Lemma triple_throw {A} (P R : list Event -> Prop) e (Q : A -> list Event -> Prop) :
  (forall t, P t -> R t) -> triple P (throw e) Q R.
Proof. intros H. apply holds_throw. intros w. apply H. Qed.
Lemma triple_panic {A} (P R : list Event -> Prop) (Q : A -> list Event -> Prop) :
  (forall t, P t -> R t) -> triple P panic Q R.
Proof. intros H. apply holds_panic. intros w. apply H. Qed.
(** A call with an entry, a call without, and a look at the clock. *)
Lemma triple_lift {A} (P : list Event -> Prop) e (f : W -> outcome ChainError A * W) (Q : A -> list Event -> Prop)
    (R : list Event -> Prop) :
  (forall r t, P t -> match r with Ok a => Q a (e r :: t) | _ => R (e r :: t) end) ->
  triple P (lift (noted e f)) Q R.
Proof.
  intros H. apply holds_lift. intros w r w' Hw E. unfold noted in E. destruct (f (fst w)).
  simplify_eq. specialize (H r (snd w) Hw). by destruct r.
Qed.
Lemma triple_attempt {A} (P : list Event -> Prop) e (f : W -> outcome ChainError A * W)
    (Q : outcome ChainError A -> list Event -> Prop) (R : list Event -> Prop) :
  (forall r t, P t -> Q r (e r :: t) /\ R (e r :: t)) -> triple P (attempt (noted e f)) Q R.
Proof.
  intros H. apply holds_attempt. intros w r w' Hw E. unfold noted in E. destruct (f (fst w)).
  simplify_eq. destruct (H r (snd w) Hw). by destruct r.
Qed.
Lemma triple_plain {A} (P : list Event -> Prop) (f : W -> outcome ChainError A * W) :
  triple P (lift (plain f)) (fun _ => P) P.
Proof.
  apply holds_lift. intros w r w' Hw E. unfold plain in E. destruct (f (fst w)). simplify_eq. by destruct r.
Qed.
Lemma triple_get_noted {A} (P : list Event -> Prop) e (f : W -> A * W) (Q : A -> list Event -> Prop) R :
  (forall a t, P t -> Q a (e a :: t)) -> triple P (get (noted e f)) Q R.
Proof.
  intros H. apply holds_get. intros w a w' Hw E. unfold noted in E. destruct (f (fst w)).
  simplify_eq. by apply H.
Qed.
Lemma triple_get_plain {A} (P : list Event -> Prop) (f : W -> A * W) R :
  triple P (get (plain f)) (fun _ => P) R.
Proof.
  apply holds_get. intros w a w' Hw E. unfold plain in E. destruct (f (fst w)). by simplify_eq.
Qed.
Lemma triple_look {A} (P : list Event -> Prop) (f : logged -> A) R :
  triple P (get (fun w => (f w, w))) (fun _ => P) R.
Proof. apply holds_get. intros w a w' Hw E. by simplify_eq. Qed.
Lemma triple_outcome {A} (P : list Event -> Prop) (r : outcome ChainError A) :
  triple P (of_outcome r) (fun _ => P) P.
Proof. apply holds_outcome. intros w Hw. by destruct r. Qed.
Lemma triple_sleep (P : list Event -> Prop) d R : triple P (run (sleep d)) (fun _ => P) R.
Proof. by apply holds_run. Qed.
Lemma triple_sleep_poll (P : list Event -> Prop) poll d R : triple P (sleep_poll poll d) (fun _ => P) R.
Proof. intros w Hw. done. Qed.
Lemma triple_timeout {A} P (m : prog _ A) (Q : A -> list Event -> Prop) (R : list Event -> Prop) d :
  triple P m Q R ->
  triple P (timeout_at d m)
    (fun x t => match x with
                | Done (Ok a) => Q a t
                | Done _ => R t
                | Elapsed => (exists a, Q a t) \/ R t
                end) R.
Proof.
  intros H w Hw. specialize (H w Hw). unfold timeout_at.
  destruct (m w) as [[[a|e|]|] w']; try done; destruct (timer_won d w'); unfold on_log in *; eauto.
Qed.

Ltac step := eapply triple_bind.
Ltac look P := eapply (triple_bind _ _ _ (fun _ => P)); [apply triple_look|]; intros ?.
(** A predicate that reads keep. *)
Definition kept (K : list Event -> Prop) : Prop := forall e t, is_quiet e = true -> K t -> K (e :: t).

Section Target.
Context (cfg : SellerConfig) (identity : RestingOfferIdentity) (poll : Z).
Let tc := ri_token_contract identity.
Let id := ri_order_id identity.

Lemma target_state_triple K : kept K ->
  triple K (target_state cfg identity) (fun s t => K t /\ target_fact tc id s t) K.
Proof.
  intros HK. unfold target_state. look K.
  step; [apply (triple_lift K _ _ (fun os t => K t /\ exists t', t = EOrders tc (Ok os) :: t'));
         intros [os|e|] t Ht; eauto|].
  intros os. cbn beta. destruct (find_order _ os) as [o|] eqn:Ef.
  - eapply (triple_bind _ _ _ (fun _ t => K t /\ exists t', t = EOrders tc (Ok os) :: t')).
    + eapply triple_fail; [apply triple_outcome|by intros t [? _]].
    + intros _. destruct (negb _); apply triple_ret; intros t (Ht & t' & ->); split; try done; simpl; unfold resting_proof; eauto.
  - step; [apply (triple_lift _ _ _ (fun (m : option Match) t => K t /\
             exists t', t = EMatch tc (Ok m) :: EOrders tc (Ok os) :: t'));
           intros [m|e|] t (Ht & t' & ->); eauto|].
    intros [m|]; cbn beta; apply triple_ret; intros t (Ht & t' & ->); split; try done; simpl.
    + by eexists.
    + eexists _, _. by split.
Qed.
Lemma target_attempt_triple K : kept K ->
  triple K (target_attempt cfg identity)
    (fun r t => K t /\ match r with Ok s => target_fact tc id s t | _ => True end) K.
Proof.
  intros HK w Hw. pose proof (target_state_triple K HK w Hw) as H. unfold target_attempt.
  destruct (target_state cfg identity w) as [[[s|e|]|] w']; done.
Qed.

(** ** Cancelling *)
Section Cancelling.
Context (K0 : list Event -> Prop) (K1 : CancelStart -> list Event -> Prop).
Context (HK0 : kept K0) (HK1 : forall r, kept (K1 r)).
Context (H01 : forall t r, K0 t -> K1 r (ECancel tc id r :: t)).

Lemma kept_rejection r t reason : K1 r t -> K1 r (ERejection tc id reason :: t).
Proof. by apply HK1. Qed.

Lemma watch_triple fuel watch : triple (K1 (CancelAccepted watch))
  (watch_accepted_cancel cfg identity poll fuel watch)
  (fun d t => K1 (CancelAccepted watch) t /\ backed tc id d t) (K1 (CancelAccepted watch)).
Proof.
  set (KA := K1 (CancelAccepted watch)).
  induction fuel as [|fuel IH]; [by apply triple_fuel|]. cbn [watch_accepted_cancel].
  assert (triple KA (run (sleep poll) >>! watch_accepted_cancel cfg identity poll fuel watch)
            (fun d t => KA t /\ backed tc id d t) KA) as Hagain.
  { step; [apply triple_sleep|]. intros ?. apply IH. }
  step; [apply (target_attempt_triple KA); by apply HK1|]. intros r. cbn beta.
  destruct r as [[| |m|e]|e|]; try (eapply triple_pre; [apply Hagain|]; simpl; tauto).
  - step; [eapply (triple_attempt _ _ _ (fun r t => KA t /\
             (forall reason, r = Ok (Some reason) -> rejected_proof tc id reason t)))|].
    + intros r t [Ht Hf]. split; [split|]; [by apply HK1| |by apply HK1].
      intros reason ->. eexists. split; [done|exact Hf].
    + intros [[reason|]|e|]; cbn beta; try (eapply triple_pre; [apply Hagain|tauto]).
      apply triple_ret. intros t [Ht Hr]. split; [done|]. by apply Hr.
  - apply triple_ret. simpl. tauto.
  - apply triple_ret. simpl. tauto.
  - step; [eapply (triple_attempt _ _ _ (fun r t => KA t /\
             (forall reason, r = Ok (Some reason) -> rejected_proof tc id reason t)))|].
    + intros r t [Ht Hf]. split; [split|]; [by apply HK1| |by apply HK1].
      intros reason ->. eexists. split; [done|exact Hf].
    + intros [[reason|]|e'|]; cbn beta; try (eapply triple_pre; [apply Hagain|tauto]).
      apply triple_ret. intros t [Ht Hr]. split; [done|]. by apply Hr.
Qed.

(** What the read before the submit ends with. *)
Definition early_ok (early : option CancellationDisposition) (t : list Event) : Prop :=
  K0 t /\ match early with
          | Some (Cancelled | RejectedStillResting _) => False
          | Some d => backed tc id d t
          | None => True
          end.
Lemma before_submit_triple fuel deadline :
  triple K0 (before_submit cfg identity poll fuel deadline) early_ok K0.
Proof.
  induction fuel as [|fuel IH]; [by apply triple_fuel|]. cbn [before_submit].
  set (KA := fun t => K0 t /\ absent_proof tc id t).
  assert (triple KA (before_submit cfg identity poll fuel deadline) early_ok K0) as IH'
    by (eapply triple_pre; [apply IH|by intros t []]).
  assert (triple KA (let! over := past deadline in
      if over : bool then ret (Some AlreadyAbsent) else before_submit cfg identity poll fuel deadline)
    early_ok K0) as Htail.
  { look KA. case_match; [|apply IH']. by apply triple_ret. }
  step; [apply triple_timeout, target_state_triple, HK0|]. intros r. cbn beta.
  destruct r as [|[[| |m|e]|e|]];
    try (apply triple_ret; unfold early_ok; simpl; naive_solver).
  look KA. case_match; [apply Htail|]. step; [apply triple_sleep_poll|]. intros ?.
  look KA. case_match; [apply IH'|apply Htail].
Qed.

Lemma after_refusal_triple e fuel deadline absent last :
  triple (fun t => K1 e t /\ (absent = true -> absent_proof tc id t))
    (after_refusal cfg identity poll fuel deadline absent last)
    (fun d t => K1 e t /\ backed tc id d t /\ d <> Cancelled /\ (forall r, d <> RejectedStillResting r)) (K1 e).
Proof.
  revert absent last. induction fuel as [|fuel IH]; intros absent last; [apply triple_fuel; by intros t []|].
  cbn [after_refusal]. set (KA := fun t => K1 e t /\ (absent = true -> absent_proof tc id t)).
  look KA. case_match.
  { apply triple_ret. intros t [Ht Ha]. destruct absent; simpl; split_and!; try done; auto. }
  eapply (triple_pre _ (K1 e)); [|by intros t []].
  step; [apply triple_timeout, target_state_triple, HK1|]. intros r. cbn beta.
  destruct r as [|[[| |m|x]|x|]]; try (apply triple_ret; simpl; naive_solver);
    (step; [apply triple_sleep_poll|]; intros ?; eapply triple_pre; [apply IH|]; simpl; naive_solver).
Qed.

(** Every disposition stands on a fact read last; at most one cancel was sent, and
    [Cancelled] and [RejectedStillResting] are only said of an accepted one. *)
Definition cancel_ok (d : CancellationDisposition) (t : list Event) : Prop :=
  backed tc id d t /\
  match d with
  | Cancelled | RejectedStillResting _ => exists watch, K1 (CancelAccepted watch) t
  | _ => K0 t \/ exists r, K1 r t
  end.
Lemma cancel_triple fuel deadline :
  triple K0 (cancel_and_confirm_before cfg identity poll fuel deadline) cancel_ok
    (fun t => K0 t \/ exists r, K1 r t).
Proof.
  unfold cancel_and_confirm_before.
  step; [eapply triple_fail; [apply before_submit_triple|by left]|]. intros [d|]; cbn beta.
  { apply triple_ret. unfold early_ok, cancel_ok. destruct d; naive_solver. }
  step; [eapply triple_fail; [apply (triple_timeout _ _ (fun r t => K1 r t) (fun _ => False));
           apply triple_get_noted; intros r t [Ht _]; by apply H01|done]|].
  intros r. cbn beta.
  destruct r as [|[[watch|e|e]|e|]];
    try (apply triple_ret; unfold cancel_ok; simpl; naive_solver).
  - eapply triple_conseq; [apply (watch_triple fuel watch)|done| |eauto].
    intros d t [Ht Hb]. split; [done|]. destruct d; eauto.
  - eapply triple_conseq; [apply (after_refusal_triple (CancelSubmit e))|by split| |eauto].
    intros d t (Ht & Hb & Hc & Hr). split; [done|]. destruct d; eauto; exfalso; [by apply Hc|by eapply Hr].
Qed.
End Cancelling.
End Target.

(** ** Reaping *)
Section Reaping.
Context (identity : RestingOfferIdentity) (poll : Z).
Let tc := ri_token_contract identity.
Let id := ri_order_id identity.

(** The six facts a relist rests on, read in this order and nothing since. *)
Definition relist_proof (remaining_ticks price_per_tick : Z) (t : list Event) : Prop :=
  exists latch state t',
    t = ETerms tc (Ok (Some (price_per_tick, remaining_ticks))) :: EState tc (Ok (Some state))
        :: ELatch tc (Ok (Some latch)) :: EOrders tc (Ok []) :: EMatch tc (Ok None) :: t' /\
    offer_posted latch = false /\ used_reason state = None /\ MIN_STREAM_BUY_TICKS <= remaining_ticks.
Definition relist_fact (d : RelistDecision) (t : list Event) : Prop :=
  match d with
  | Relist remaining_ticks price_per_tick => relist_proof remaining_ticks price_per_tick t
  | RelistMatched m => matched_proof tc m t
  | RelistRefused _ | RelistUnproven _ => True
  end.

Lemma reap_state_triple K : kept K -> (forall r t, K t -> K (ETerms tc r :: t)) ->
  triple K (reap_state identity)
    (fun x t => K t /\ match x with inl d => relist_fact d t | inr _ => True end) K.
Proof.
  intros HK HT. unfold reap_state.
  step; [apply (triple_lift _ _ _ (fun m t => K t /\ exists t', t = EMatch tc (Ok m) :: t'));
         intros [m|e|] t Ht; eauto|].
  intros [m|]; cbn beta; [apply triple_ret; intros t (Ht & t' & ->); split; [done|by eexists]|].
  step; [apply (triple_lift _ _ _ (fun os t => K t /\ exists t', t = EOrders tc (Ok os) :: EMatch tc (Ok None) :: t'));
         intros [os|e|] t (Ht & t' & ->); eauto|].
  intros os; cbn beta. destruct (List.find _ os) as [o|] eqn:Ef; [apply triple_ret; intros t [Ht _]; done|].
  case_bool_decide as Eos; simpl; [subst os|apply triple_ret; intros t [Ht _]; done].
  step; [apply (triple_lift _ _ _ (fun l t => K t /\ exists t', t = ELatch tc (Ok l) :: EOrders tc (Ok []) ::
           EMatch tc (Ok None) :: t')); intros [os|e|] t (Ht & t' & ->); eauto|].
  intros [latch|]; cbn beta; [|apply triple_ret; intros t [Ht _]; done].
  destruct (offer_posted latch) eqn:El; [apply triple_ret; intros t [Ht _]; done|].
  step; [apply (triple_lift _ _ _ (fun s t => K t /\ exists t', t = EState tc (Ok s) :: ELatch tc (Ok (Some latch)) ::
           EOrders tc (Ok []) :: EMatch tc (Ok None) :: t')); intros [os|e|] t (Ht & t' & ->); eauto|].
  intros [state|]; cbn beta; [|apply triple_ret; intros t [Ht _]; done].
  destruct (used_reason state) eqn:Eu; [apply triple_ret; intros t [Ht _]; done|].
  step; [apply (triple_lift _ _ _ (fun x t => K t /\ exists t', t = ETerms tc (Ok x) :: EState tc (Ok (Some state)) ::
           ELatch tc (Ok (Some latch)) :: EOrders tc (Ok []) :: EMatch tc (Ok None) :: t'));
         intros [os|e|] t (Ht & t' & ->); eauto|].
  intros [[price ticks]|]; cbn beta; [|apply triple_ret; intros t [Ht _]; done].
  destruct (Z.ltb_spec ticks MIN_STREAM_BUY_TICKS); apply triple_ret; [intros t [Ht _]; done|].
  intros t (Ht & t' & ->). split; [done|]. by exists latch, state, t'.
Qed.

Section Loop.
Context (K0 K1 : list Event -> Prop) (HK0 : kept K0) (HK1 : kept K1).
Context (HT0 : forall r t, K0 t -> K0 (ETerms tc r :: t)) (HT1 : forall r t, K1 t -> K1 (ETerms tc r :: t)).
Context (H01 : forall t, K0 t -> K1 (EExpire tc id :: t)).
Let KS (submitted : bool) : list Event -> Prop := if submitted then K1 else K0.

Lemma reap_loop_triple fuel deadline submitted :
  triple (KS submitted) (reap_loop identity poll fuel deadline submitted)
    (fun d t => (K0 t \/ K1 t) /\ relist_fact d t) (fun t => K0 t \/ K1 t).
Proof.
  assert (forall b t, KS b t -> K0 t \/ K1 t) as HS by (intros [] t; unfold KS; tauto).
  revert submitted. induction fuel as [|fuel IH]; intros submitted; [apply triple_fuel, HS|].
  cbn [reap_loop]. step.
  { eapply triple_fail; [apply (triple_timeout _ _ (fun x t => KS submitted t /\
      match x with inl d => relist_fact d t | inr _ => True end) (KS submitted))|apply HS].
    apply reap_state_triple; destruct submitted; done. }
  intros pass; cbn beta.
  assert (forall last, triple (KS submitted)
    ((if submitted then ret tt
      else let! _ := timeout_at deadline (lift (ob_expire (ri_token_contract identity) (ri_order_id identity))) in
           ret tt) >>!
     (let! over := past deadline in
      if over : bool then ret (RelistUnproven last)
      else sleep_poll poll deadline >>! reap_loop identity poll fuel deadline true))
    (fun d t => (K0 t \/ K1 t) /\ relist_fact d t) (fun t => K0 t \/ K1 t)) as Hrest.
  { intros last. step.
    - instantiate (1 := fun _ => K1). destruct submitted; [by apply triple_ret|].
      step; [eapply triple_fail; [apply (triple_timeout _ _ (fun _ => K1) K1); apply triple_lift;
               intros r t Ht; destruct r; by apply H01|by right]|].
      intros r; cbn beta. apply triple_ret. intros t. destruct r as [|[]]; naive_solver.
    - intros ?. look K1. case_match; [apply triple_ret; simpl; tauto|].
      step; [apply triple_sleep_poll|]. intros ?. apply (IH true). }
  destruct pass as [|[[d|pending]|e|]]; try (eapply triple_pre; [apply Hrest|simpl; naive_solver]).
  apply triple_ret. intros t [Ht Hd]. split; [|done]. by eapply HS.
Qed.
End Loop.
End Reaping.
(** ** Supervision *)
Section Watching.
Context (timing : SupervisionTiming).

(** Past its own deadline in the book, or gone from it without a match. *)
Definition expiry_proof (identity : RestingOfferIdentity) (e : RestingOfferExpiry) (t : list Event) : Prop :=
  absent_proof (ri_token_contract identity) (ri_order_id identity) t \/
  exists os o t', t = EOrders (ri_token_contract identity) (Ok os) :: t' /\
    find_order (ri_order_id identity) os = Some o /\ re_deadline e = ob_deadline o /\
    order_deadline_is_live (ob_is_buy o) (ob_deadline o) (re_observed_at e) = false.

Lemma offer_expiry_triple K identity last : kept K ->
  triple K (resting_offer_expiry identity last)
    (fun p t => K t /\ match p with PollExpired e => expiry_proof identity e t | _ => True end) K.
Proof.
  intros HK. unfold resting_offer_expiry. look K.
  step; [apply (triple_lift K _ _ (fun os t => K t /\ exists t', t = EOrders (ri_token_contract identity) (Ok os) :: t'));
         intros [os|e|] t Ht; eauto|].
  intros os. cbn beta. destruct (find_order _ os) as [o|] eqn:Ef.
  - destruct (order_deadline_is_live _ _ _) eqn:El; apply triple_ret; intros t (Ht & t' & ->); split; try done.
    right. by exists os, o, t'.
  - step; [apply (triple_lift _ _ _ (fun (m : option Match) t => K t /\ exists t',
             t = EMatch (ri_token_contract identity) (Ok m) :: EOrders (ri_token_contract identity) (Ok os) :: t'));
           intros [m|e|] t (Ht & t' & ->); eauto|].
    intros [m|]; cbn beta; apply triple_ret; intros t (Ht & t' & ->); split; try done.
    left. exists os, t'. by split.
Qed.

Lemma health_attempts_triple K identity fuel attempt deadline timeout_deadline check_deadline : kept K ->
  triple K (health_attempts timing fuel identity attempt deadline timeout_deadline check_deadline)
    (fun _ => K) K.
Proof.
  intros HK. revert attempt check_deadline. induction fuel as [|fuel IH]; intros attempt check_deadline;
    [by apply triple_fuel|]. cbn [health_attempts]. look K.
  step; [apply (triple_get_noted _ _ _ (fun _ => K)); intros; by apply HK|]. intros [f|]; cbn beta.
  - case_match; [apply IH|by apply triple_ret].
  - look K. by apply triple_ret.
Qed.
Lemma health_cycle_triple K identity last : kept K ->
  triple K (health_cycle timing identity last) (fun _ => K) K.
Proof. intros HK. unfold health_cycle. look K. by apply health_attempts_triple. Qed.

Definition watch_end_ok (K : list Event -> Prop) (identity : RestingOfferIdentity) (d : watch_end) (t : list Event) : Prop :=
  K t /\ match d with inr (TriggerExpired e, _) => expiry_proof identity e t | _ => True end.
Lemma end_matched_triple K identity r : triple K (end_matched timing r) (watch_end_ok K identity) K.
Proof. unfold end_matched. destruct r; [by apply triple_ret|..]; look K; by apply triple_ret. Qed.
Lemma end_shutdown_triple K identity : triple K (end_shutdown timing) (watch_end_ok K identity) K.
Proof. unfold end_shutdown. look K. by apply triple_ret. Qed.

Lemma expiry_read_triple K identity last : kept K ->
  triple K (expiry_read identity last)
    (fun x t => K t /\ match x with inr (Done (Ok (PollExpired e))) => expiry_proof identity e t | _ => True end) K.
Proof.
  intros HK. unfold expiry_read. look K. step; [apply triple_get_plain|]. intros [winner|]; cbn beta; [by apply triple_ret|].
  step; [apply triple_timeout, offer_expiry_triple, HK|]. intros r; cbn beta. apply triple_ret. intros t.
  destruct r as [|[[]|e|]]; naive_solver.
Qed.

Lemma watch_loop_triple K fuel identity healthy last : kept K ->
  triple K (watch_loop timing fuel identity healthy last) (watch_end_ok K identity) K.
Proof.
  intros HK. revert healthy last. induction fuel as [|fuel IH]; intros healthy last; [by apply triple_fuel|].
  cbn [watch_loop]. step; [apply triple_get_plain|]. intros event; cbn beta.
  destruct event; [apply end_matched_triple|apply end_shutdown_triple| |].
  - step; [by apply health_cycle_triple|]. intros [t'|[f d]]; cbn beta; [apply IH|by apply triple_ret].
  - step; [by apply expiry_read_triple|]. intros r; cbn beta.
    assert (forall l, triple K (watch_loop timing fuel identity healthy l) (watch_end_ok K identity) K) as IH'
      by (intros; apply IH).
    destruct r as [[|]|[|[[]|e|]]];
      try (eapply triple_pre; [apply IH'|simpl; tauto]).
    + eapply triple_pre; [apply end_matched_triple|simpl; tauto].
    + eapply triple_pre; [apply end_shutdown_triple|simpl; tauto].
    + match goal with |- triple ?P _ _ _ => eapply (triple_bind _ _ _ (fun _ => P)) end.
      { apply triple_look. }
      intros ?. by apply triple_ret.
Qed.

(** How a supervised generation ended: expired on a fact of the book with nothing
    cancelled, or cancelled on a fact; when the timing says so the gateway stops, last of
    all and only behind a proof that no buyer can still match the ask. *)
Definition stopped_ok (cancelled : CancellationDisposition -> list Event -> Prop) (K0 : list Event -> Prop)
    (identity : RestingOfferIdentity) (r : RestingSellerOutcome) (t : list Event) : Prop :=
  match r with
  | SellerMatched m => K0 t \/ cancelled (AlreadyMatched m) t
  | SellerStopped (StopExpired e) d => d = NotAttemptedExpired /\ K0 t /\ expiry_proof identity e t
  | SellerStopped _ d =>
      if st_abort_gateway_on_stop timing && proven_unmatchable d then exists t', t = EAbort :: t' /\ cancelled d t'
      else cancelled d t
  end.

Lemma supervise_triple K0 K1 cfg identity fuel :
  kept K0 -> (forall r, kept (K1 r)) ->
  (forall t r, K0 t -> K1 r (ECancel (ri_token_contract identity) (ri_order_id identity) r :: t)) ->
  triple K0 (supervise_with_timing timing fuel cfg identity)
    (stopped_ok (cancel_ok identity K0 K1) K0 identity) (fun t => K0 t \/ exists r, K1 r t).
Proof.
  intros HK0 HK1 H01. unfold supervise_with_timing. look K0.
  step; [eapply triple_fail; [by apply watch_loop_triple|by left]|].
  intros [m|[trigger deadline]]; cbn beta; [apply triple_ret; intros t [Ht _]; by left|].
  assert (triple (watch_end_ok K0 identity (inr (trigger, deadline)))
    (cancel_and_confirm_before cfg identity (st_cancel_poll timing) fuel deadline)
    (cancel_ok identity K0 K1) (fun t => K0 t \/ exists r, K1 r t)) as Hc.
  { eapply triple_pre; [by apply cancel_triple|by intros t []]. }
  assert (forall reason d, (forall e, reason <> StopExpired e) ->
    triple (cancel_ok identity K0 K1 d)
      ((if st_abort_gateway_on_stop timing && proven_unmatchable d then run sv_abort_gateway else ret tt) >>!
       ret (SellerStopped reason d))
      (stopped_ok (cancel_ok identity K0 K1) K0 identity) (fun t => K0 t \/ exists r, K1 r t)) as Hstop.
  { intros reason d Hr. destruct (_ && _) eqn:Ea.
    - intros w Hw. unfold on_log, stopped_ok. simpl. destruct reason; try (rewrite Ea; by exists (snd w)). by destruct (Hr expired).
    - intros w Hw. unfold on_log, stopped_ok. simpl. destruct reason; try (by rewrite Ea). by destruct (Hr expired). }
  destruct trigger as [f| |e|expired]; try (step; [apply Hc|]; intros d; cbn beta;
    destruct d; first [apply (Hstop (StopHealth f)); done | apply (Hstop StopShutdown); done
                      | apply (Hstop (StopWatcher e)); done | by apply triple_ret; intros t Ht; right]).
  apply triple_ret. by intros t [Ht He].
Qed.

(** ** Posting *)
Section Posting.
Context (cfg : SellerConfig) (owner : string) (J : list Event -> Prop) (HJ : kept J).
Context (Hcancel : forall t id r, J t -> J (ECancel (sc_token_contract cfg) id r :: t)).
Context (Habort : forall t, J t -> J (EAbort :: t)).
Context (Hpost : forall t o, J t -> vacant_proof (sc_token_contract cfg) t ->
  so_token_contract o = sc_token_contract cfg -> so_price_per_tick o = sc_price_per_tick cfg ->
  so_max_ticks o = sc_max_ticks cfg -> J (EPost o :: t)).
Let tc := sc_token_contract cfg.

Lemma inspect_triple expected : triple J (inspect_seller_offer cfg expected)
  (fun i t => J t /\ (i = InspectVacant -> vacant_proof tc t)) J.
Proof.
  unfold inspect_seller_offer. step; [apply triple_outcome|]. intros ?; cbn beta.
  step; [apply (triple_lift _ _ _ (fun m t => J t /\ exists t', t = EMatch tc (Ok m) :: t'));
         intros [m|e|] t Ht; eauto|].
  intros [m|]; cbn beta; [apply triple_ret; by intros t [Ht _]|].
  step; [apply (triple_lift _ _ _ (fun os t => J t /\ exists t', t = EOrders tc (Ok os) :: EMatch tc (Ok None) :: t'));
         intros [os|e|] t (Ht & t' & ->); eauto|].
  intros [|o [|o' os]]; cbn beta.
  - apply triple_ret. intros t (Ht & t' & ->). split; [done|]. by exists t'.
  - step; [eapply triple_pre; [apply triple_outcome|by intros t []]|]. intros ?; cbn beta. by apply triple_ret.
  - apply triple_throw. by intros t [].
Qed.

Lemma prepare_triple expected : triple J (prepare_seller_offer cfg expected) (fun _ => J) J.
Proof.
  unfold prepare_seller_offer. step; [apply inspect_triple|]. intros [|id|]; cbn beta;
    [apply triple_ret; by intros t []..|].
  set (KV := fun t => J t /\ vacant_proof tc t).
  apply (triple_pre _ KV); [|intros t [Ht Hv]; split; auto].
  step; [eapply triple_fail; [apply triple_plain|by intros t []]|]. intros ?; cbn beta.
  unfold post_offer_with_note.
  step; [step; [eapply triple_fail; [apply triple_outcome|by intros t []]|];
         intros ?; cbn beta; apply (triple_lift _ _ _ (fun _ => J)); intros r t [Ht Hv];
         destruct r; by apply Hpost|].
  intros ?; cbn beta. step; [apply triple_plain|]. intros ?. by apply triple_ret.
Qed.

Lemma cancel_keeps identity fuel deadline : ri_token_contract identity = tc ->
  triple J (cancel_and_confirm_before cfg identity (st_cancel_poll timing) fuel deadline) (fun _ => J) J.
Proof.
  intros Htc. eapply triple_conseq; [apply (cancel_triple cfg identity (st_cancel_poll timing) J (fun _ => J))| | |];
    [done|done|by rewrite Htc; auto|done| |naive_solver].
  intros d t [_ H]. destruct d; naive_solver.
Qed.
Lemma stop_exact_triple identity fuel reason deadline : ri_token_contract identity = tc ->
  triple J (stop_exact_offer timing fuel cfg identity reason deadline) (fun _ => J) J.
Proof.
  intros Htc. unfold stop_exact_offer. step; [by apply cancel_keeps|]. intros d; cbn beta.
  destruct d; simpl; first [by apply triple_ret | (intros w Hw; by apply Habort)].
Qed.
Lemma reconcile_triple fuel deadline known :
  triple J (reconcile_unresolved_startup timing fuel cfg owner deadline known) (fun _ => J) J.
Proof.
  revert known. induction fuel as [|fuel IH]; intros known; [by apply triple_fuel|].
  cbn [reconcile_unresolved_startup]. look J. case_match; [by apply triple_ret|].
  assert (forall k, triple J (sleep_poll (st_cancel_poll timing) deadline >>!
    reconcile_unresolved_startup timing fuel cfg owner deadline k) (fun _ => J) J) as Hagain
    by (intros k; step; [apply triple_sleep_poll|]; intros ?; apply IH).
  step; [apply triple_timeout, inspect_triple|]. intros r; cbn beta.
  destruct r as [|[[]|e|]]; try (eapply triple_pre; [apply Hagain|simpl; naive_solver]);
    apply triple_ret; simpl; naive_solver.
Qed.
Lemma resolve_triple fuel startup reason deadline :
  triple J (resolve_interrupted_startup timing fuel cfg owner startup reason deadline) (fun _ => J) J.
Proof.
  assert (forall i, triple J (match i with
    | InspectFunded => ret (StartupReady ResumedFunded)
    | InspectResting order_id => stop_exact_offer timing fuel cfg (identity_of cfg owner order_id) reason deadline
    | InspectVacant => run sv_abort_gateway >>! ret (StartupStopped None reason AlreadyAbsent)
    end) (fun _ => J) J) as Hi.
  { intros [|id|]; [by apply triple_ret|by apply stop_exact_triple|]. intros w Hw. by apply Habort. }
  assert (triple J (let! found := reconcile_unresolved_startup timing fuel cfg owner deadline "authoritative_state=vacant" in
      match found with
      | inl inspection => match inspection with
          | InspectFunded => ret (StartupReady ResumedFunded)
          | InspectResting order_id => stop_exact_offer timing fuel cfg (identity_of cfg owner order_id) reason deadline
          | InspectVacant => run sv_abort_gateway >>! ret (StartupStopped None reason AlreadyAbsent)
          end
      | inr known_result => ret (StartupStopped None reason (UnknownFailure known_result))
      end) (fun _ => J) J) as Hrec.
  { step; [apply reconcile_triple|]. intros [i|k]; cbn beta; [apply Hi|by apply triple_ret]. }
  unfold resolve_interrupted_startup.
  destruct startup as [[|id|[[id|]|]]|];
    first [apply Hrec | by apply triple_ret | apply (Hi (InspectResting id))].
Qed.

Lemma startup_readiness_triple fuel existing attempt :
  triple J (startup_readiness timing fuel existing attempt) (fun _ => J) J.
Proof.
  revert attempt. induction fuel as [|fuel IH]; intros attempt; [by apply triple_fuel|]. cbn [startup_readiness].
  step; [apply (triple_get_noted _ _ _ (fun _ => J)); intros; by apply HJ|]. intros [f|]; cbn beta;
    [case_match; [apply IH|]|]; by apply triple_ret.
Qed.
Lemma after_post_triple fuel result : triple J (after_post timing fuel cfg owner result) (fun _ => J) J.
Proof.
  unfold after_post. destruct result as [[|id|[[id|]|]]|e|];
    try (look J; apply resolve_triple); try (by apply triple_ret).
  look J. look J. step; [apply triple_get_plain|]. intros stop; cbn beta.
  step; [instantiate (1 := fun _ => J)|].
  - destruct stop; [by apply triple_ret|].
    step; [apply (triple_get_noted _ _ _ (fun _ => J)); intros; by apply HJ|]. intros ?. by apply triple_ret.
  - intros [reason|]; cbn beta; [by apply stop_exact_triple|by apply triple_ret].
Qed.
Lemma startup_attempt_triple : triple J (startup_attempt cfg owner) (fun _ => J) J.
Proof.
  intros w Hw. pose proof (prepare_triple (Some owner) w Hw) as H. unfold startup_attempt.
  destruct (prepare_seller_offer cfg (Some owner) w) as [[[a|e|]|] w']; done.
Qed.

Lemma prepare_with_timing_triple fuel existing :
  (forall identity, existing = Some identity -> ri_token_contract identity = tc) ->
  triple J (prepare_seller_offer_with_timing timing fuel cfg owner existing) (fun _ => J) J.
Proof.
  intros Hex. unfold prepare_seller_offer_with_timing. step; [apply triple_plain|]. intros ?; cbn beta.
  look J. step; [apply triple_get_plain|]. intros interrupted; cbn beta.
  step; [instantiate (1 := fun _ => J)|].
  { destruct interrupted; [by apply triple_ret|].
    step; [apply startup_readiness_triple|]. intros ?. by apply triple_ret. }
  intros [reason|]; cbn beta.
  - destruct existing as [identity|]; [by apply stop_exact_triple, Hex|].
    step; [instantiate (1 := fun _ => J); intros w Hw; by apply Habort|]. intros ?; cbn beta.
    destruct reason; first [by apply triple_ret | by apply triple_throw | by apply triple_panic].
  - step; [apply triple_get_plain|]. intros [reason|]; cbn beta.
    + look J. step; [apply triple_timeout, prepare_triple|]. intros r; cbn beta.
      eapply triple_pre; [apply resolve_triple|]. intros t. destruct r as [|[]]; naive_solver.
    + step; [apply startup_attempt_triple|]. intros r; cbn beta. apply after_post_triple.
Qed.
End Posting.

(** ** The loop over generations *)
Section Generations.
Context (tc : TokenContract).

Lemma posts_kept : kept (posts_ok tc).
Proof. intros [] t He Ht; try done. Qed.
Definition posting (cfg : SellerConfig) (t : list Event) : Prop :=
  posts_ok tc t /\ latest_terms t = Some (sc_price_per_tick cfg, sc_max_ticks cfg).
Lemma posting_kept cfg : kept (posting cfg).
Proof. intros [] t He [H1 H2]; done. Qed.

Lemma successor_deadline_triple J identity fuel deadline : kept J ->
  triple J (successor_absolute_deadline identity (st_reap_poll timing) fuel deadline) (fun _ => J) J.
Proof.
  intros HJ. induction fuel as [|fuel IH]; [by apply triple_fuel|]. cbn [successor_absolute_deadline].
  step; [apply triple_timeout, (triple_lift _ _ _ (fun _ => J)); intros r t Ht; destruct r; by apply HJ|].
  assert (forall l, triple J (let! over := past deadline in
      if over : bool then ret (inr l)
      else sleep_poll (st_reap_poll timing) deadline >>!
           successor_absolute_deadline identity (st_reap_poll timing) fuel deadline) (fun _ => J) J) as Hn.
  { intros l. look J. case_match; [by apply triple_ret|]. step; [apply triple_sleep_poll|]. intros ?. apply IH. }
  intros [|[os|e|]]; cbn beta; try (eapply triple_pre; [apply Hn|naive_solver]).
  case_match; [by apply triple_ret|]. apply Hn.
Qed.

Lemma relist_once_triple cfg identity fuel expired :
  sc_token_contract cfg = tc -> ri_token_contract identity = tc ->
  triple (posts_ok tc) (relist_once timing fuel cfg identity expired)
    (fun next t => posts_ok tc t /\ match next with
       | inl (cfg', i) => sc_token_contract cfg' = tc /\ ri_token_contract i = tc
       | inr _ => True end) (posts_ok tc).
Proof.
  intros Hcfg Htc. unfold relist_once. look (posts_ok tc).
  step; [eapply triple_fail; [apply (reap_loop_triple identity (st_reap_poll timing) (posts_ok tc) (posts_ok tc)
           posts_kept posts_kept (fun _ _ H => H) (fun _ _ H => H) (fun _ H => H) fuel _ false)|by intros t [?|?]]|].
  intros [ticks price|m|reason|known]; cbn beta; try (apply triple_ret; tauto).
  set (cfg' := with_terms cfg price ticks).
  apply (triple_pre _ (posting cfg')); [|intros t [H (l & s & t' & -> & _)]; split; simpl in *; tauto].
  assert (forall t, posting cfg' t -> posts_ok tc t) as Hweak by (by intros t []).
  assert (sc_token_contract cfg' = tc) as Hcfg' by done.
  step; [eapply triple_fail; [apply (prepare_with_timing_triple cfg' (ri_owner_note identity) (posting cfg')
           (posting_kept cfg'))|done]|].
  { by intros t id r []. } { by intros t []. }
  { intros t o [H1 H2] Hv E1 E2 E3. rewrite Hcfg' in *. split; [|done]. simpl.
    rewrite E2, E3. done. }
  { done. }
  intros result; cbn beta. eapply triple_bind; [eapply triple_fail; [instantiate (1 := posting cfg')|done]|].
  { instantiate (1 := fun _ => posting cfg'). unfold successor_order.
    destruct result as [[|id|[[id|]|]]|]; try (by apply triple_ret);
      (step; [apply triple_plain|]; intros ?; by apply triple_ret). }
  intros [successor|ended]; cbn beta; [|apply triple_ret; intros t Ht; split; [by apply Hweak|done]].
  case_match; [apply triple_ret; intros t Ht; split; [by apply Hweak|done]|]. look (posting cfg').
  step; [eapply triple_fail; [apply successor_deadline_triple, posting_kept|done]|].
  intros [d|known]; cbn beta; [case_match|]; apply triple_ret; intros t Ht; (split; [by apply Hweak|done]).
Qed.

Lemma supervise_and_relist_triple fuel cfg identity :
  sc_token_contract cfg = tc -> ri_token_contract identity = tc ->
  triple (posts_ok tc) (supervise_and_relist timing fuel cfg identity) (fun _ => posts_ok tc) (posts_ok tc).
Proof.
  revert cfg identity. induction fuel as [|fuel IH]; intros cfg identity Hcfg Htc; [by apply triple_fuel|].
  cbn [supervise_and_relist].
  step.
  { eapply triple_conseq; [apply (supervise_triple (posts_ok tc) (fun _ => posts_ok tc))| | |];
      [apply posts_kept|intros _; apply posts_kept|done|done| |naive_solver].
    instantiate (1 := fun _ => posts_ok tc). intros r t. unfold stopped_ok, cancel_ok.
    assert (forall d t', (backed (ri_token_contract identity) (ri_order_id identity) d t' /\
      match d with
      | Cancelled | RejectedStillResting _ => exists watch : Z, posts_ok tc t'
      | _ => posts_ok tc t' \/ exists r : CancelStart, posts_ok tc t'
      end) -> posts_ok tc t') as Hd by (intros d t' [_ Hd]; destruct d; naive_solver).
    destruct r as [m|reason d]; [intros [?|H]; [done|by apply (Hd (AlreadyMatched m))]|].
    destruct reason; try (destruct (_ && _); [intros (t' & -> & H)|intros H]; apply Hd in H; done). tauto. }
  intros [m|reason d]; cbn beta; [by apply triple_ret|].
  destruct reason as [f| |e|expired]; try (by apply triple_ret).
  step; [by apply relist_once_triple|]. intros [[cfg' i]|ended]; cbn beta.
  - intros w [Hw [H1 H2]]. by apply (IH cfg' i H1 H2).
  - apply triple_ret. by intros t [].
Qed.
End Generations.
End Watching.
End Safety.
