(* ===== verification/LivenessSpec.v ===== *)
(** * LivenessSpec: what a seller may conclude and do about its ask

    The theorems of [LivenessSafety] for a run that starts with an empty log, the
    budget of the readiness check, and the termination of the bounded loops. *)
From S2P Require Import Prelude Text Params Address MarketTypes Machine MockDeal MockMarket Backend.
From S2P Require Import Offer Trace Supervise LivenessSafety.

Section Spec.
Context {W : Type} (B : OfferBook W) (C : Clock W) (T : Timer W) (S : Supervision W).
#[local] Existing Instance logged_book.
#[local] Existing Instance logged_clock.
#[local] Existing Instance logged_timer.
#[local] Existing Instance logged_supervision.

Lemma run_triple {A} (P : list Event -> Prop) (m : prog (@logged W) A) Q R w r :
  triple P m Q R -> P [] -> m (w, []) = r ->
  match r with (Some (Ok a), w') => Q a (snd w') | (_, w') => R (snd w') end.
Proof. intros H HP <-. specialize (H (w, []) HP). by destruct (m (w, [])) as [[[]|] ?]. Qed.

Lemma keep_triple {A} (P : list Event -> Prop) (m : prog (@logged W) A) w :
  triple P m (fun _ => P) P -> P [] -> P (snd (snd (m (w, [])))).
Proof. intros H HP. specialize (H (w, []) HP). by destruct (m (w, [])) as [[[]|] ?]. Qed.

Lemma writes_kept ws : kept (fun t => writes t = ws).
Proof. intros [] t He Ht; done. Qed.

(** C24: A cancellation says only what the chain said.  Whatever the chain, the clock
    and the timer do: when the seller is told its ask is off the book, the newest
    calls are a book without that order and a deal without a match; when it is told
    of a match, that match was just read; "rejected" follows a rejection event read
    right after the order was seen resting.  At most one cancel was sent, for this
    order, and "cancelled" and "rejected" are said only of an accepted one. *)
Theorem cancel_rests_on_the_chain (cfg : SellerConfig) (identity : RestingOfferIdentity)
    (poll : Z) (fuel : nat) (deadline : Z) (w w' : W) (d : CancellationDisposition) (t : list Event) :
  let tc := ri_token_contract identity in
  let id := ri_order_id identity in
  cancel_and_confirm_before cfg identity poll fuel deadline (w, []) = (Some (Ok d), (w', t)) ->
  backed tc id d t /\
  match d with
  | Cancelled | RejectedStillResting _ => exists watch, writes t = [ECancel tc id (CancelAccepted watch)]
  | _ => writes t = [] \/ exists r, writes t = [ECancel tc id r]
  end.
Proof.
  intros tc id H.
  eapply (run_triple (fun t => writes t = []) _ _ _ _ _
    (cancel_triple B C T cfg identity poll (fun t => writes t = []) (fun r t => writes t = [ECancel tc id r])
       (writes_kept _) (fun r => writes_kept _) _ fuel deadline)) in H; [|done].
  exact H.
  Unshelve. intros t' r Ht'. simpl. by f_equal.
Qed.

(** C25: A relist is decided on six facts.  The reap of an expired ask sends at most one
    expiry, for that order, and allows a successor only when the newest reads are,
    in order: no match, an empty book, a released offer latch, an unused deal, and
    the deal's own terms with at least the minimum volume. *)
Theorem relist_needs_proof (identity : RestingOfferIdentity) (poll : Z) (fuel : nat) (deadline : Z)
    (w w' : W) (d : RelistDecision) (t : list Event) :
  reap_expired_offer identity poll fuel deadline (w, []) = (Some (Ok d), (w', t)) ->
  relist_fact identity d t /\
  (writes t = [] \/ writes t = [EExpire (ri_token_contract identity) (ri_order_id identity)]).
Proof.
  intros H.
  eapply (run_triple (fun t => writes t = []) _ _ _ _ _
    (reap_loop_triple B C T identity poll (fun t => writes t = [])
       (fun t => writes t = [EExpire (ri_token_contract identity) (ri_order_id identity)])
       (writes_kept _) (writes_kept _) (fun _ _ H => H) (fun _ _ H => H) _ fuel deadline false)) in H; [|done].
  simpl in H. tauto.
  Unshelve. intros t' Ht'. simpl. by f_equal.
Qed.

(** C26: How supervision ends.  An ask is called expired only when its own row was read
    past its deadline, or when the book had no row of it and the deal then no match, and
    nothing was sent or shut down.  Any other stop follows a cancellation as it is of
    itself: its answer backed by the newest reads, at most one cancel sent, for this
    order, and nothing else done, the gateway still up.  Only then, and exactly when the
    timing says so and the answer proves that no buyer can still match the ask, the
    gateway is shut down, as the last act. *)
Theorem supervision_stops_on_facts (timing : SupervisionTiming) (cfg : SellerConfig)
    (identity : RestingOfferIdentity) (fuel : nat) (w w' : W) (reason : RestingStopReason)
    (d : CancellationDisposition) (t : list Event) :
  let tc := ri_token_contract identity in
  let id := ri_order_id identity in
  supervise_with_timing timing fuel cfg identity (w, []) = (Some (Ok (SellerStopped reason d)), (w', t)) ->
  match reason with
  | StopExpired e => d = NotAttemptedExpired /\ writes t = [] /\ expiry_proof identity e t
  | _ => exists t',
      t = (if st_abort_gateway_on_stop timing && proven_unmatchable d then [EAbort] else []) ++ t' /\
      backed tc id d t' /\
      match d with
      | Cancelled | RejectedStillResting _ => exists watch, writes t' = [ECancel tc id (CancelAccepted watch)]
      | _ => writes t' = [] \/ exists r, writes t' = [ECancel tc id r]
      end
  end.
Proof.
  intros tc id H.
  eapply (run_triple (fun t => writes t = []) _ _ _ _ _
    (supervise_triple B C T S timing (fun t => writes t = []) (fun r t => writes t = [ECancel tc id r])
       cfg identity fuel (writes_kept _) (fun r => writes_kept _) _)) in H; [|done].
  simpl in H. unfold stopped_ok, cancel_ok in H. destruct reason; try exact H;
    (destruct (_ && _); [destruct H as (t' & -> & H); by exists t'|by exists t]).
  Unshelve. intros t' r Ht'. simpl. by f_equal.
Qed.

(** One live offer at a time.  Through any number of generations, on any chain and
    however the run ends, every ask the seller posts is posted right after the deal
    was read unmatched and the book read empty for its contract, at the price and
    volume last read from the deal itself. *)
Theorem successors_are_posted_over_an_empty_book (timing : SupervisionTiming) (cfg : SellerConfig)
    (identity : RestingOfferIdentity) (fuel : nat) (w : W) :
  ri_token_contract identity = sc_token_contract cfg ->
  posts_ok (sc_token_contract cfg) (snd (snd (supervise_and_relist timing fuel cfg identity (w, [])))).
Proof.
  intros Htc. apply (keep_triple (posts_ok (sc_token_contract cfg))); [|exact I].
  by apply supervise_and_relist_triple.
Qed.

(** ** The readiness budget *)

Lemma health_attempts_last timing identity fuel attempt deadline timeout_deadline check_deadline w :
  (0 < fuel)%nat ->
  exists rest, snd (snd (health_attempts timing fuel identity attempt deadline timeout_deadline check_deadline w))
    = rest ++ EReadiness (Z.min (st_health_timeout timing) (Z.max 0 (check_deadline - clock_now (fst w)))) :: snd w.
Proof.
  revert attempt check_deadline w. induction fuel as [|fuel IH]; intros attempt check_deadline w Hf; [lia|].
  cbn [health_attempts]. unfold bind at 1, instant, get. simpl. unfold bind at 1, get. simpl.
  unfold noted. destruct (sv_check_readiness _ _ (fst w)) as [[f|] w1]; simpl.
  - destruct (_ && _); [|by exists []]. destruct fuel as [|fuel]; [by exists []|].
    destruct (IH (attempt + 1) timeout_deadline (w1, EReadiness (Z.min (st_health_timeout timing)
      (Z.max 0 (check_deadline - clock_now (fst w)))) :: snd w) ltac:(lia)) as [rest ->].
    eexists (rest ++ [_]). by rewrite <- app_assoc.
  - by exists [].
Qed.

Lemma health_attempts_deadline timing identity fuel attempt deadline timeout_deadline check_deadline
    (w w' : @logged W) f dl :
  health_attempts timing fuel identity attempt deadline timeout_deadline check_deadline w = (Some (Ok (inr (f, dl))), w') ->
  dl = deadline \/ dl = timeout_deadline.
Proof.
  revert attempt check_deadline w. induction fuel as [|fuel IH]; intros attempt check_deadline w; [done|].
  cbn [health_attempts]. unfold bind at 1, instant, get. simpl. unfold bind at 1, get. simpl.
  unfold noted. destruct (sv_check_readiness _ _ (fst w)) as [[g|] w1]; simpl; [|done].
  destruct (_ && _); [apply IH|]. destruct (1 <? attempt); unfold ret; intros [= _ <- _]; auto.
Qed.

(** The base of a cycle: its start when the loop was held up too long. *)
Definition cycle_base (timing : SupervisionTiming) (last_healthy now : Z) : Z :=
  if last_healthy + st_cycle_timeout timing <=? now then now else last_healthy.
Lemma health_cycle_run timing identity last_healthy (w : @logged W) :
  let deadline := cycle_base timing last_healthy (clock_now w) + st_cycle_timeout timing in
  let late := deadline + st_health_timeout timing * (SELLER_UPSTREAM_HEALTH_TIMEOUT_MAX_ATTEMPTS - 1) in
  health_cycle timing identity last_healthy w = health_attempts timing attempts_fuel identity 1 deadline late deadline w.
Proof. reflexivity. Qed.

(** A readiness check is never failed unrun.  Whatever held the loop up before the
    cycle, its first check gets a positive budget, the whole of it when the cycle
    was starved; and a cycle that fails leaves time to cancel, at most one retry
    allowance past the cycle. *)
Theorem readiness_checks_get_a_budget (timing : SupervisionTiming) (identity : RestingOfferIdentity)
    (last_healthy : Z) (w : W) :
  0 < st_health_timeout timing -> 0 < st_cycle_timeout timing ->
  let now := clock_now w in
  let starved := last_healthy + st_cycle_timeout timing <= now in
  let run := health_cycle timing identity last_healthy (w, []) in
  (exists rest b, snd (snd run) = rest ++ [EReadiness b] /\ 0 < b <= st_health_timeout timing /\
     (starved -> b = Z.min (st_health_timeout timing) (st_cycle_timeout timing))) /\
  (forall f deadline w', run = (Some (Ok (inr (f, deadline))), w') ->
     now < deadline <= Z.max last_healthy now + st_cycle_timeout timing + st_health_timeout timing).
Proof.
  intros Hh Hc now starved run. subst run. rewrite health_cycle_run. cbv zeta.
  change (clock_now (w, [])) with now. set (base := cycle_base timing last_healthy now).
  assert (now < base + st_cycle_timeout timing /\ base <= Z.max last_healthy now /\ (starved -> base = now)) as (B1 & B2 & B3).
  { unfold base, cycle_base, starved. destruct (Z.leb_spec (last_healthy + st_cycle_timeout timing) now); lia. }
  split.
  - match goal with |- context [health_attempts ?a ?b ?c ?d ?e ?f ?g ?h] =>
      destruct (health_attempts_last a c b d e f g h ltac:(vm_compute; lia)) as [rest E] end.
    eexists rest, _. split; [exact E|]. simpl. fold now. split; [lia|]. intros Hs. rewrite (B3 Hs). lia.
  - intros f dl w' E. apply health_attempts_deadline in E.
    replace (SELLER_UPSTREAM_HEALTH_TIMEOUT_MAX_ATTEMPTS - 1) with 1 in E by reflexivity.
    destruct E as [-> | ->]; lia.
Qed.
End Spec.

(** ** Termination *)
Section Termination.
Context {W : Type} `{OfferBook W} `{Clock W} `{Timer W} `{!ClockLaws W}.

Context (Horders : forall tc, forward (ob_raw_orders tc)) (Hmatch : forall tc, forward (ob_openable_match tc)).
Context (Hlatch : forall tc, forward (ob_offer_latch tc)) (Hstate : forall tc, forward (ob_deal_state tc)).
Context (Hterms : forall tc, forward (ob_offer_terms tc)) (Hexpire : forall tc id, forward (ob_expire tc id)).

Lemma reap_state_ends identity : runs (reap_state identity).
Proof.
  unfold reap_state.
  repeat first [ apply runs_bind; [by apply runs_lift|intros ?] | apply runs_ret | case_match ].
Qed.

Lemma reap_loop_ends identity poll deadline fuel submitted w :
  0 < poll -> deadline - clock_now w + poll <= Z.of_nat fuel * poll -> (0 < fuel)%nat ->
  fst (reap_loop identity poll fuel deadline submitted w) <> None.
Proof.
  intros Hp. revert submitted w. induction fuel as [|fuel IH]; intros submitted w Hd Hf; [lia|].
  cbn [reap_loop]. apply bind_ends; [by apply runs_timeout, reap_state_ends|]. intros pass w1 Hw1.
  assert (forall last, fst (((if submitted then ret tt
      else let! _ := timeout_at deadline (lift (ob_expire (ri_token_contract identity) (ri_order_id identity))) in
           ret tt) >>!
     (let! over := past deadline in
      if over : bool then ret (RelistUnproven last)
      else sleep_poll poll deadline >>! reap_loop identity poll fuel deadline true)) w1) <> None) as Hrest.
  { intros last. apply bind_ends.
    - destruct submitted; [apply runs_ret|]. apply runs_bind; [by apply runs_timeout, runs_lift|intros; apply runs_ret].
    - intros _ w2 Hw2. unfold bind at 1, past, get. simpl. destruct (Z.leb_spec deadline (clock_now w2)); [done|].
      unfold bind at 1, sleep_poll, run.
      set (d := Z.max 0 _). assert (0 <= d) as Hd0 by lia. pose proof (sleep_moves d w2 Hd0) as Hs. unfold d in Hs.
      rewrite Nat2Z.inj_succ, Z.mul_succ_l in Hd. destruct fuel as [|fuel]; [simpl in Hd; lia|].
      rewrite Nat2Z.inj_succ, Z.mul_succ_l in *. apply IH; unfold d; nia. }
  destruct pass as [|[[d|pending]|e|]]; try apply Hrest. done.
Qed.

(** C36: The reap always answers.  On a chain whose calls do not turn the clock back,
    with a positive poll interval, the reap of an expired ask ends within its budget:
    one turn more than the budget holds poll intervals is enough fuel. *)
Theorem reap_terminates (identity : RestingOfferIdentity) (poll deadline : Z) (fuel : nat) (w : W) :
  0 < poll -> deadline - clock_now w + poll <= Z.of_nat fuel * poll -> (0 < fuel)%nat ->
  fst (reap_expired_offer identity poll fuel deadline w) <> None.
Proof. apply reap_loop_ends. Qed.
End Termination.

(** ** A seller on a small scripted book *)
(** One book that obeys at once: a cancel or an expiry removes the row, a post adds
    one; the events come from a script and end with a shutdown. *)
Record BookWorld : Type := mkBookWorld {
  bw_now : Z; bw_orders : list OrderBookOrder; bw_script : list SelectEvent; bw_next_id : Z }.
Definition set_orders (os : list OrderBookOrder) (w : BookWorld) : BookWorld :=
  mkBookWorld (bw_now w) os (bw_script w) (bw_next_id w).
Definition without (id : Z) (w : BookWorld) : BookWorld :=
  set_orders (List.filter (fun o => negb (ob_order_id o =? id)) (bw_orders w)) w.
Definition answer {A} (a : A) (w : BookWorld) : outcome ChainError A * BookWorld := (Ok a, w).
Definition unused_state : DealChainState := mkDealState false false false false 0 0 0 0 0 None 0 0 0.

Definition sample_deal : TokenContract := "0:00000000000000000000000000000000000000000000000000000000000000a1".
Definition sample_note : string := "0:00000000000000000000000000000000000000000000000000000000000000b2".
Definition ask (id deadline : Z) : OrderBookOrder :=
  {| ob_order_id := id; ob_owner_note := sample_note; ob_token_contract := Some sample_deal;
     ob_is_buy := false; ob_price_per_tick := 3; ob_ticks := 10; ob_escrow := 0; ob_deadline := deadline;
     ob_flags := 0; ob_timestamp := 0 |}.

#[export] Instance sample_book : OfferBook BookWorld := {|
  ob_raw_orders _ w := answer (bw_orders w) w;
  ob_openable_match _ := answer None;
  ob_offer_latch _ w := answer (Some (mkLatch (negb (bool_decide (bw_orders w = []))))) w;
  ob_deal_state _ := answer (Some unused_state);
  ob_offer_terms _ := answer (Some (3, 10));
  ob_expire _ id w := (Ok tt, without id w);
  ob_begin_cancel _ id w := (CancelAccepted 0, without id w);
  ob_cancel_rejection _ _ _ _ := answer None;
  ob_assert_covers_bond _ := answer tt;
  ob_assert_fresh _ := answer tt;
  ob_post_offer o w :=
    (Ok tt, mkBookWorld (bw_now w) [ask (bw_next_id w) (bw_now w + 3600)] (bw_script w) (bw_next_id w + 1));
  ob_confirm_outcome _ w := answer (Some (Rested (bw_next_id w - 1))) w;
  ob_read_match _ w := (Err (NoMatch sample_deal), w);
  ob_unix_now := bw_now |}.
#[export] Instance sample_clock : Clock BookWorld := {|
  clock_now := bw_now;
  sleep d w := mkBookWorld (bw_now w + d) (bw_orders w) (bw_script w) (bw_next_id w) |}.
#[export] Instance sample_clock_laws : ClockLaws BookWorld.
Proof. split. intros d w _. simpl. lia. Qed.
#[export] Instance sample_timer : Timer BookWorld := {| timer_won d w := d <? bw_now w |}.
#[export] Instance sample_supervision : Supervision BookWorld := {|
  sv_next w := match bw_script w with
               | e :: rest => (e, mkBookWorld (bw_now w) (bw_orders w) rest (bw_next_id w))
               | [] => (ShutdownReady, w)
               end;
  sv_expiry_race w := (None, w);
  sv_check_readiness _ _ w := (None, w);
  sv_check_startup_readiness _ _ w := (None, w);
  sv_interrupted w := (None, w);
  sv_abort_gateway w := w |}.

Definition sample_config : SellerConfig := mkSellerConfig sample_deal 3 10 false.
Definition sample_identity : RestingOfferIdentity := mkIdentity sample_note sample_deal 7.
Definition sample_timing : SupervisionTiming := canonical_timing true.
Definition resting : BookWorld := mkBookWorld 100 [ask 7 500] [] 8.
(** The ask is already past its deadline; one expiry tick, then the shutdown. *)
Definition expired : BookWorld := mkBookWorld 600 [ask 7 500] [HealthTick; ExpiryTick] 8.

#[local] Existing Instance logged_book.
#[local] Existing Instance logged_clock.
#[local] Existing Instance logged_timer.
#[local] Existing Instance logged_supervision.

Definition cancel_run := cancel_and_confirm_before sample_config sample_identity 2 5 160 (resting, []).
Lemma cancel_rests_on_the_chain_witness :
  writes (snd (snd cancel_run)) = [ECancel sample_deal 7 (CancelAccepted 0)].
Proof.
  destruct (cancel_rests_on_the_chain _ _ _ sample_config sample_identity 2 5 160 resting
              (fst (snd cancel_run)) Cancelled (snd (snd cancel_run))) as [_ [watch H]];
    [vm_compute; reflexivity|].
  rewrite H. f_equal. vm_compute in H. injection H as <-. reflexivity.
Defined.

Definition reap_run := reap_expired_offer sample_identity 2 5 700 (expired, []).
Lemma relist_needs_proof_witness : relist_fact sample_identity (Relist 10 3) (snd (snd reap_run)).
Proof.
  destruct (relist_needs_proof _ _ _ sample_identity 2 5 700 expired (fst (snd reap_run)) (Relist 10 3)
              (snd (snd reap_run))) as [H _]; [vm_compute; reflexivity|exact H].
Defined.

Definition shutdown_run := supervise_with_timing sample_timing 5 sample_config sample_identity (resting, []).
Lemma supervision_stops_on_facts_witness :
  exists t', snd (snd shutdown_run) = EAbort :: t' /\ backed sample_deal 7 Cancelled t'.
Proof.
  destruct (supervision_stops_on_facts _ _ _ _ sample_timing sample_config sample_identity 5 resting
              (fst (snd shutdown_run)) StopShutdown Cancelled (snd (snd shutdown_run))) as (t' & H1 & H3 & _);
    [vm_compute; reflexivity|].
  exists t'. split; [exact H1|exact H3].
Defined.

Definition relist_run := supervise_and_relist sample_timing 5 sample_config sample_identity (expired, []).
Example relist_posts_a_successor :
  fst relist_run = Some (Ok (SellerStopped StopShutdown Cancelled, mkIdentity sample_note sample_deal 8)) /\
  length (writes (snd (snd relist_run))) = 4%nat.
Proof. by vm_compute. Qed.
Lemma successors_are_posted_over_an_empty_book_witness : posts_ok sample_deal (snd (snd relist_run)).
Proof.
  apply (successors_are_posted_over_an_empty_book _ _ _ _ sample_timing sample_config sample_identity 5 expired).
  reflexivity.
Defined.

Lemma readiness_checks_get_a_budget_witness :
  exists rest b, snd (snd (health_cycle sample_timing sample_identity 0 (resting, []))) = rest ++ [EReadiness b] /\
    b = 20.
Proof.
  destruct (readiness_checks_get_a_budget _ _ sample_timing sample_identity 0 resting) as [(rest & b & H1 & _ & H3) _];
    [reflexivity..|].
  exists rest, b. split; [exact H1|]. apply H3. discriminate.
Defined.

Lemma reap_terminates_witness : fst (reap_expired_offer sample_identity 2 60 700 expired) <> None.
Proof.
  apply reap_terminates; try (intros; intros w; simpl; lia); simpl; lia.
Defined.
