(* ===== verification/Select.v ===== *)
(** * Select: the ask a buy would cross
    (crates/core/src/chain/backends.rs, with the refusal classes of params.rs)

    A buy names a model and a ceiling, never a seller: the book decides which ask it
    fills.  Before escrow moves the client reads the book, predicts that ask, and
    refuses when the prediction is not a deal it can use.  The book's own walk,
    [_match] of contracts/airegistry/InferenceOrderBook.sol, is written beside the
    prediction.  A refusal is its fixed text; the figures it quotes are left out. *)
From Stdlib Require Import Ascii.
From S2P Require Import Prelude Text Params MarketTypes Accounting.

(** ** Refusals and their classes *)
Definition EXPIRED_COUNTERPARTY_ASK_REASON : string := "counterparty ask expired at".
Definition INSUFFICIENT_HEAD_ASK_REASON : string := "refusing multi-ask fill:".
Definition EMPTY_MODEL_BOOK_REASON : string := "no resting asks in this model book".
Definition RAW_MATCHER_NO_SUBMIT_SAFE_ASK : string := "raw order-book matcher has no submit-safe ask".
Definition LAPSED_MODEL_BOOK_REASON : string := "no live asks in this model book".
Definition GENERIC_NO_MATCH_REASONS : list string :=
  ["no executable matching ask"; "no submit-safe ask"; "best ask price"; "no resting asks";
   "no matchable ask"; "raw order-book matcher"; "refusing multi-ask fill"].
Definition EXPIRED_COUNTERPARTY_ASK_CLASS : string := "expired_counterparty_ask".
Definition NO_EXECUTABLE_ASK_CLASS : string := "no_executable_ask".
Definition EMPTY_MODEL_BOOK_CLASS : string := "empty_model_book".
Definition INSUFFICIENT_HEAD_ASK_CLASS : string := "insufficient_head_ask".

Definition book_refusal_class (reason : string) : option string :=
  let reason := to_ascii_lowercase (to_text reason) in
  let says phrase := contains_text (to_text phrase) reason in
  if says EXPIRED_COUNTERPARTY_ASK_REASON || says LAPSED_MODEL_BOOK_REASON
  then Some EXPIRED_COUNTERPARTY_ASK_CLASS
  else if says INSUFFICIENT_HEAD_ASK_REASON then Some INSUFFICIENT_HEAD_ASK_CLASS
  else if says EMPTY_MODEL_BOOK_REASON && says RAW_MATCHER_NO_SUBMIT_SAFE_ASK
  then Some EMPTY_MODEL_BOOK_CLASS
  else if existsb says GENERIC_NO_MATCH_REASONS then Some NO_EXECUTABLE_ASK_CLASS
  else None.
Definition buy_refusal_class (reason : string) : string :=
  default NO_EXECUTABLE_ASK_CLASS (book_refusal_class reason).

(** ** Candidates *)
Record LapsedAsk : Type := mkLapsed { la_deadline : Z; la_now : Z }.

Definition ask_expiry (ask : OrderBookOrder) (now : Z) : option LapsedAsk :=
  if negb (ob_deadline ask =? 0) && (ob_deadline ask <=? now)
  then Some (mkLapsed (ob_deadline ask) now) else None.

Definition live_selection_candidates (asks : list OrderBookOrder) (now : Z)
    : list OrderBookOrder * list (OrderBookOrder * LapsedAsk) :=
  let resting := List.filter is_resting_ask asks in
  (List.filter (fun ask => negb (bool_decide (is_Some (ask_expiry ask now)))) resting,
   omap (fun ask => option_map (pair ask) (ask_expiry ask now)) resting).

Definition coalesced_live_candidates (asks : list OrderBookOrder) (now : Z)
    : outcome string (list OrderBookOrder * list (OrderBookOrder * LapsedAsk)) :=
  let '(live, lapsed) := live_selection_candidates asks now in
  let* live := coalesce_equivalent_resting_asks live in
  Ok (live, lapsed).

(** [min_by_key(|ask| (ask.price_per_tick, ask.order_id))]: the first least. *)
Fixpoint cheapest (asks : list OrderBookOrder) : option OrderBookOrder :=
  match asks with
  | [] => None
  | ask :: rest =>
      match cheapest rest with
      | None => Some ask
      | Some best => if price_time_le ask best then Some ask else Some best
      end
  end.
Definition crossing (max_price_per_tick : Z) (ask : OrderBookOrder) : bool :=
  ob_price_per_tick ask <=? max_price_per_tick.

Definition crossing_expired_ask_reason (lapsed : list (OrderBookOrder * LapsedAsk))
    (max_price_per_tick : Z) : option string :=
  match cheapest (List.filter (crossing max_price_per_tick) (map fst lapsed)) with
  | Some _ => Some (EXPIRED_COUNTERPARTY_ASK_REASON
                ++ ": every ask crossing this buy is out of the book by its own deadline")%string
  | None => None
  end.

Definition next_matching_ask (asks : list OrderBookOrder) (max_price_per_tick ticks : Z)
    : option OrderBookOrder :=
  cheapest (List.filter (fun ask => crossing max_price_per_tick ask && (ticks <=? ob_ticks ask)) asks).

Definition no_matching_ask_reason (asks : list OrderBookOrder) (max_price_per_tick : Z) : string :=
  match cheapest asks with
  | Some best =>
      if max_price_per_tick <? ob_price_per_tick best
      then "best ask price is above buyer max_price_per_tick"
      else "no matchable ask for max_price_per_tick"
  | None => EMPTY_MODEL_BOOK_REASON
  end.

Definition no_selectable_ask_reason (live : list OrderBookOrder)
    (lapsed : list (OrderBookOrder * LapsedAsk)) (max_price_per_tick : Z) : string :=
  default (no_matching_ask_reason live max_price_per_tick)
    (crossing_expired_ask_reason lapsed max_price_per_tick).

Definition check_single_head_capacity (ask : OrderBookOrder) (ticks : Z) : outcome string unit :=
  if ticks <=? ob_ticks ask then Ok tt
  else Err (INSUFFICIENT_HEAD_ASK_REASON
         ++ " and no other crossing ask carries the whole request either")%string.
(** [check_single_head_capacity(ask, ticks).expect_err(..)] *)
Definition capacity_refusal {A} (ask : OrderBookOrder) (ticks : Z) : outcome string A :=
  match check_single_head_capacity ask ticks with Err e => Err e | _ => Panic end.

(** ** The prediction *)
Definition selected_model_buy_ask (asks : list OrderBookOrder) (max_price_per_tick ticks now : Z)
    : outcome string OrderBookOrder :=
  let* '(live, lapsed) := coalesced_live_candidates asks now in
  match next_matching_ask live max_price_per_tick ticks with
  | Some best => Ok best
  | None =>
      match cheapest (List.filter (crossing max_price_per_tick) live) with
      | Some short => capacity_refusal short ticks
      | None => Err (no_selectable_ask_reason live lapsed max_price_per_tick)
      end
  end.

Definition same_token_contract (left right : OrderBookOrder) : bool :=
  match ob_token_contract left, ob_token_contract right with
  | Some l, Some r => eq_ignore_ascii_case (to_text l) (to_text r)
  | _, _ => false
  end.

(** [.map_err(|e| format!("{prefix}: {e}{suffix}"))] *)
Definition wrap {A} (prefix suffix : string) (o : outcome string A) : outcome string A :=
  match o with Err e => Err (prefix ++ ": " ++ e ++ suffix)%string | o => o end.

Definition selected_model_buy_ask_matching_executable_depth
    (raw_asks executable_asks : list OrderBookOrder) (max_price_per_tick ticks now : Z)
    : outcome string OrderBookOrder :=
  let* raw_selected :=
    wrap RAW_MATCHER_NO_SUBMIT_SAFE_ASK ". Retry after the seller posts a fresh ask"
      (selected_model_buy_ask raw_asks max_price_per_tick ticks now) in
  let* executable_selected :=
    wrap "raw order-book matcher would select, but executable-depth check has no matching ask"
      ". Refusing to send escrow"
      (selected_model_buy_ask executable_asks max_price_per_tick ticks now) in
  fail_if negb (same_token_contract raw_selected executable_selected)
          || negb (ob_order_id raw_selected =? ob_order_id executable_selected)
    with "raw order-book matcher would select another ask than the executable quote" in
  Ok executable_selected.

(** The ask of one TokenContract that the operator named; [placeInferenceBuy] cannot
    name it, so the prediction has to be it. *)
Definition names (expected_tc_lower : string) (ask : OrderBookOrder) : bool :=
  match ob_token_contract ask with
  | Some tc => eq_ignore_ascii_case (to_text tc) (to_text expected_tc_lower)
  | None => false
  end.

Definition check_expected_buy_target (asks : list OrderBookOrder) (expected_tc_lower : string)
    (max_price_per_tick ticks now : Z) : outcome string unit :=
  let is_expected := names expected_tc_lower in
  let* '(live, lapsed) := coalesced_live_candidates asks now in
  match List.find (fun entry : OrderBookOrder * LapsedAsk => is_expected (fst entry)) lapsed with
  | Some _ => Err "the expected ask expired. An expired ask cannot be matched, so no escrow was sent"
  | None =>
      let expected := List.find is_expected live in
      match next_matching_ask live max_price_per_tick ticks with
      | None =>
          match expected with
          | Some ask =>
              if crossing max_price_per_tick ask then capacity_refusal ask ticks
              else Err "the expected ask exists but is not matchable by this buy"
          | None =>
              Err ("no resting ask for expected tokenContract; "
                   ++ default "and no matchable ask for max_price_per_tick"
                        (crossing_expired_ask_reason lapsed max_price_per_tick))%string
          end
      | Some best =>
          if is_expected best then
            let* _ := check_single_head_capacity best ticks in
            Ok tt
          else match expected with
               | Some _ => Err "the shared model book would match another order before the expected tokenContract"
               | None => Err "no resting ask for expected tokenContract; the shared model book would match another"
               end
      end
  end.

(** ** The listing of what a buy could reach *)
Inductive ListingBlocker : Type :=
| NonExecutable (ask : OrderBookOrder)
| InsufficientHead (ask : OrderBookOrder).

(** The walk over the crossing raw asks: it stops at the first without an executable
    twin, and passes over one too small, remembering the first blocker. *)
Fixpoint listing_walk (raw executable : list OrderBookOrder) (ticks : Z)
    (rows : list OrderBookOrder) (blocker : option ListingBlocker)
    : list OrderBookOrder * option ListingBlocker :=
  match raw with
  | [] => (rows, blocker)
  | ask :: rest =>
      match List.find (same_token_contract ask) executable with
      | None => (rows, Some (NonExecutable ask))
      | Some twin =>
          if ticks <=? ob_ticks twin then listing_walk rest executable ticks (rows ++ [twin]) blocker
          else listing_walk rest executable ticks rows (or_else blocker (Some (InsufficientHead twin)))
      end
  end.

Definition submit_safe_executable_book_asks (raw_asks executable_asks : list OrderBookOrder)
    (max_price_per_tick ticks now : Z) : outcome string (list OrderBookOrder * option string) :=
  let live ask := is_live_resting_ask_at ask now in
  let crosses := crossing max_price_per_tick in
  let* raw := coalesce_equivalent_resting_asks raw_asks in
  let* executable := coalesce_equivalent_resting_asks executable_asks in
  let crossing_lapsed := List.filter (fun ask => negb (live ask) && crosses ask) raw in
  let raw := List.filter live raw in
  let executable := List.filter live executable in
  let '(rows, blocker) := listing_walk (List.filter crosses raw) executable ticks [] None in
  match rows with
  | _ :: _ => Ok (rows, None)
  | [] =>
      let* reason :=
        match blocker with
        | Some (NonExecutable _) =>
            Ok "raw order-book matcher would hit non-executable ask before any later executable ask"
        | Some (InsufficientHead ask) =>
            match check_single_head_capacity ask ticks with
            | Err capacity =>
                Ok ("raw order-book matcher would hit executable but insufficient head: " ++ capacity)%string
            | _ => Panic
            end
        | None =>
            if bool_decide (raw = []) && negb (bool_decide (crossing_lapsed = []))
            then Ok (LAPSED_MODEL_BOOK_REASON ++ " for max_price_per_tick")%string
            else if bool_decide (raw = [])
            then Ok (RAW_MATCHER_NO_SUBMIT_SAFE_ASK ++ ": "
                     ++ no_matching_ask_reason raw max_price_per_tick)%string
            else if forallb (fun ask => negb (crosses ask)) raw
            then Ok (no_matching_ask_reason raw max_price_per_tick)
            else match cheapest (List.filter crosses executable) with
                 | Some _ => Ok "no executable ask has at least requested ticks"
                 | None => Ok "no executable matching ask for max_price_per_tick"
                 end
        end in
      Ok ([], Some reason)
  end.

(** ** The book's own walk

    One call of [_match] for a buy with a limit price, from the best ask: [makers] are
    the resting asks by price and then age.  Two counters bound the call; a call that
    meets a bound is resumed by the next transaction. *)
Definition MAX_MATCHES_PER_CALL : Z := 30.
Definition MAX_SCAN_PER_CALL : Z := 100.
Definition PLATFORM_FEE (p : Z) : Z := p * PLATFORM_FEE_BPS / 10000.
Definition unit_price (p : Z) : Z := p + PLATFORM_FEE p.

Definition deal_compatible (buy_flags sell_flags : Z) : bool :=
  negb (has_flag buy_flags flags.TEE && negb (has_flag sell_flags flags.TEE))
  && Bool.eqb (has_flag buy_flags flags.SUBSCRIPTION) (has_flag sell_flags flags.SUBSCRIPTION).
Definition is_expired (deadline now : Z) : bool := negb (deadline =? 0) && (deadline <=? now).

Record MatchResult : Type := mkMatchResult {
  mr_fills : list (OrderBookOrder * Z);
  mr_remaining : Z; mr_leftover_escrow : Z; mr_capped : bool }.

Fixpoint match_buy (makers : list OrderBookOrder) (price flags now : Z)
    (remaining escrow matches scanned : Z) (fills : list (OrderBookOrder * Z)) : MatchResult :=
  let stop capped := mkMatchResult fills remaining escrow capped in
  match makers with
  | [] => stop false
  | mk :: rest =>
      if remaining <=? 0 then stop false
      else if price <? ob_price_per_tick mk then stop false
      else if (MAX_MATCHES_PER_CALL <=? matches) || (MAX_SCAN_PER_CALL <=? scanned) then stop true
      else
        let scanned := scanned + 1 in
        if negb (deal_compatible flags (ob_flags mk))
        then match_buy rest price flags now remaining escrow matches scanned fills
        else if is_expired (ob_deadline mk) now
        then match_buy rest price flags now remaining escrow (matches + 1) scanned fills
        else
          let unit := unit_price (ob_price_per_tick mk) in
          let trade := Z.min remaining (ob_ticks mk) in
          let trade := if 0 <? unit then Z.min trade (escrow / unit) else trade in
          if (has_flag flags flags.AON && (trade <? remaining))
             || (has_flag (ob_flags mk) flags.AON && (trade <? ob_ticks mk))
          then match_buy rest price flags now remaining escrow matches scanned fills
          else if trade <? 2 then stop false
          else match_buy rest price flags now (remaining - trade) (escrow - trade * unit)
                 (matches + 1) scanned (fills ++ [(mk, trade)])
  end.

(** The flags of every buy the client submits. *)
Definition buyer_order_flags (wait_for_seller : bool) : Z :=
  Z.lor flags.AON (if wait_for_seller then 0 else flags.FOK).
