(* ===== verification/SelectSpec.v ===== *)
(** * SelectSpec: the prediction is the book's own choice, and where it is not

    The ask the client selects is the ask [_match] fills, for asks without the flags
    the client does not look at; the target check and the listing rest on the same
    selection.  The last section shows where the surfaces part. *)
From S2P Require Import Prelude Text Params MarketTypes Accounting Quote Select.
From Stdlib Require Import Ascii.

(** ** The least ask *)
Definition least_ask (P : OrderBookOrder -> bool) (l : list OrderBookOrder) (a : OrderBookOrder) : Prop :=
  In a l /\ P a = true /\ forall b, In b l -> P b = true -> price_time_le a b = true.

Lemma price_time_refl a : price_time_le a a = true.
Proof. unfold price_time_le. lia. Qed.
Lemma price_time_tr a b c : price_time_le a b = true -> price_time_le b c = true -> price_time_le a c = true.
Proof. unfold price_time_le. rewrite !orb_true_iff, !andb_true_iff. lia. Qed.
Lemma price_time_total a b : price_time_le a b = false -> price_time_le b a = true.
Proof. unfold price_time_le. rewrite orb_false_iff, andb_false_iff, orb_true_iff, andb_true_iff. lia. Qed.

Lemma cheapest_none l : cheapest l = None <-> l = [].
Proof. destruct l; simpl; [done|]. split; [|done]. destruct (cheapest l); [by destruct price_time_le|done]. Qed.
Lemma cheapest_in l a : cheapest l = Some a -> In a l.
Proof.
  revert a. induction l as [|x l IH]; simpl; intros a H; [done|].
  destruct (cheapest l) as [b|]; [destruct price_time_le|]; simplify_eq; auto.
Qed.
Lemma cheapest_le l a b : cheapest l = Some a -> In b l -> price_time_le a b = true.
Proof.
  revert a. induction l as [|x l IH]; simpl; intros a H Hb; [done|].
  destruct (cheapest l) as [c|] eqn:E.
  - destruct (price_time_le x c) eqn:Ex; simplify_eq.
    + destruct Hb as [->|Hb]; [apply price_time_refl|]. eapply price_time_tr; eauto.
    + destruct Hb as [<-|Hb]; [by apply price_time_total|eauto].
  - apply cheapest_none in E. subst. simplify_eq. destruct Hb as [->|[]]. apply price_time_refl.
Qed.
Lemma cheapest_filter P l :
  match cheapest (List.filter P l) with
  | Some a => least_ask P l a
  | None => forall b, In b l -> P b = false
  end.
Proof.
  destruct (cheapest _) as [a|] eqn:E.
  - pose proof (cheapest_in _ _ E) as [Hin HP]%filter_In. split_and!; [done..|].
    intros b Hb HPb. eapply cheapest_le; [exact E|]. by apply filter_In.
  - apply cheapest_none in E. intros b Hb. destruct (P b) eqn:Hp; [|done].
    assert (In b (List.filter P l)) as H by (by apply filter_In). by rewrite E in H.
Qed.

Lemma least_unique P l a b :
  NoDup (map ob_order_id l) -> least_ask P l a -> least_ask P l b -> a = b.
Proof.
  intros Hnd (Ha & HPa & Hma) (Hb & HPb & Hmb).
  specialize (Hma b Hb HPb). specialize (Hmb a Ha HPa).
  assert (ob_order_id a = ob_order_id b) as Hid.
  { unfold price_time_le in *. rewrite !orb_true_iff, !andb_true_iff in *. lia. }
  revert Hnd Ha Hb Hid. clear. induction l as [|x l IH]; simpl; intros Hnd Ha Hb Hid; [done|].
  inversion Hnd as [|? ? Hx Hl]; subst. rewrite list_elem_of_In, in_map_iff in Hx.
  destruct Ha as [->|Ha], Hb as [->|Hb]; [done| | |by apply IH].
  - destruct Hx. by exists b.
  - destruct Hx. by exists a.
Qed.

(** ** What the coalesced list represents *)
Lemma coalesce_groups_complete asks keys rs b :
  coalesce_groups asks keys = Ok rs -> In b asks -> In (tc_key b) keys ->
  exists c, In c rs /\ In c asks /\ ob_order_id c <= ob_order_id b /\ (c = b \/ equivalent_resting_ask c b = true).
Proof.
  revert rs. induction keys as [|k keys IH]; simpl; intros rs H Hb Hk; [done|]. repeat ok_step H. simplify_eq.
  destruct Hk as [->|Hk]; cycle 1.
  { destruct (IH _ eq_refl Hb Hk) as (c & H1 & H2). exists c. split; [by right|done]. }
  unfold coalesce_group in E. destruct (sort_by order_id_le _) as [|r others] eqn:Es; [done|]. ok_step E. simplify_eq.
  apply negb_false_iff in E1. rewrite forallb_forall in E1.
  assert (forall x, In x (a :: others) <-> In x asks /\ tc_key x = tc_key b) as Hin.
  { intros x. rewrite <- Es, <- list_elem_of_In, sort_by_perm, list_elem_of_In, filter_In.
    by rewrite bool_decide_eq_true. }
  exists a. split; [by left|]. split; [apply Hin; by left|].
  destruct (proj2 (Hin b) (conj Hb eq_refl)) as [->|Ho]; [by split; [|left]|].
  split; [|right; by apply E1].
  pose proof (sort_by_sorted order_id_le (List.filter (fun o => bool_decide (tc_key o = tc_key b)) asks)) as Hs.
  rewrite Es in Hs. apply Sorted_StronglySorted in Hs.
  - inversion Hs as [|? ? _ Hall]; subst. rewrite Forall_forall in Hall.
    specialize (Hall b). rewrite list_elem_of_In in Hall. specialize (Hall Ho). unfold order_id_le in Hall. lia.
  - intros x y z. unfold order_id_le. lia.
  - unfold order_id_le. lia.
Qed.

Lemma coalesce_complete orders rs b :
  coalesce_equivalent_resting_asks orders = Ok rs -> In b orders -> is_resting_ask b = true ->
  exists c, In c rs /\ price_time_le c b = true /\
    ob_ticks c = ob_ticks b /\ ob_price_per_tick c = ob_price_per_tick b /\ ob_deadline c = ob_deadline b /\
    ob_flags c = ob_flags b.
Proof.
  unfold coalesce_equivalent_resting_asks. intros H Hb Hr. ok_step H. simplify_eq.
  destruct (coalesce_groups_complete _ _ _ b E) as (c & H1 & H2 & H3 & H4).
  - by apply filter_In.
  - rewrite <- list_elem_of_In, sort_by_perm, elem_of_remove_dups, list_elem_of_In. apply in_map, filter_In. done.
  - exists c. split; [by rewrite <- list_elem_of_In, sort_by_perm, list_elem_of_In|].
    assert (ob_ticks c = ob_ticks b /\ ob_price_per_tick c = ob_price_per_tick b /\
            ob_deadline c = ob_deadline b /\ ob_flags c = ob_flags b) as (? & Hp & ?).
    { destruct H4 as [->|H4]; [done|]. unfold equivalent_resting_ask in H4. rewrite !andb_true_iff, !Z.eqb_eq in H4. tauto. }
    split; [|done]. unfold price_time_le. rewrite Hp. lia.
Qed.

Definition live_at (now : Z) (ask : OrderBookOrder) : bool :=
  is_resting_ask ask && negb (is_expired (ob_deadline ask) now).
Lemma live_candidates asks now :
  fst (live_selection_candidates asks now) = List.filter (live_at now) asks.
Proof.
  unfold live_selection_candidates, live_at. simpl. induction asks as [|a asks IH]; simpl; [done|].
  destruct (is_resting_ask a); simpl; [|done]. rewrite IH. unfold ask_expiry, is_expired.
  by destruct (negb (ob_deadline a =? 0) && (ob_deadline a <=? now)).
Qed.

(** An ask that fits a buy, and the selection as the least of them. *)
Definition fits (cap ticks now : Z) (ask : OrderBookOrder) : bool :=
  live_at now ask && crossing cap ask && (ticks <=? ob_ticks ask).

Lemma selected_least asks cap ticks now live lapsed :
  coalesced_live_candidates asks now = Ok (live, lapsed) -> 
  match selected_model_buy_ask asks cap ticks now with
  | Ok a => least_ask (fits cap ticks now) asks a
  | Err _ => forall b, In b asks -> fits cap ticks now b = false
  | Panic => False
  end.
Proof.
  intros H. unfold selected_model_buy_ask. rewrite H. unfold coalesced_live_candidates in H.
  pose proof (live_candidates asks now) as Hlive. destruct (live_selection_candidates asks now) as [l0 lap].
  simpl in Hlive. subst l0. ok_step H. simplify_eq.
  pose proof (coalesce_spec _ _ E) as (Hin & _). rewrite Forall_forall in Hin.
  assert (forall c, In c live -> In c asks /\ live_at now c = true) as Hl.
  { intros c Hc. destruct (Hin c) as [Hc' _]; [by apply list_elem_of_In|]. by apply filter_In in Hc'. }
  assert (forall b, In b asks -> fits cap ticks now b = true -> exists c, In c live /\ price_time_le c b = true /\
    crossing cap c = true /\ (ticks <=? ob_ticks c) = true) as Hrep.
  { intros b Hb Hf. unfold fits in Hf. rewrite !andb_true_iff in Hf. destruct Hf as [[Hlb Hc] Ht].
    destruct (coalesce_complete _ _ b E) as (c & H1 & H2 & H3 & H4 & _); [by apply filter_In| |].
    { by apply andb_true_iff in Hlb as [??]. }
    exists c. unfold crossing in *. rewrite H3, H4. auto. }
  unfold next_matching_ask. pose proof (cheapest_filter (fun ask => crossing cap ask && (ticks <=? ob_ticks ask)) live) as Hc.
  destruct (cheapest _) as [a|].
  - destruct Hc as (Ha & HPa & Hmin). destruct (Hl a Ha) as [Ha' Hla]. apply andb_true_iff in HPa as [Hca Hta].
    split_and!; [done|unfold fits; by rewrite Hla, Hca, Hta|]. intros b Hb Hf.
    destruct (Hrep b Hb Hf) as (c & H1 & H2 & H3 & H4). eapply price_time_tr; [|exact H2]. apply Hmin; [done|]. by rewrite H3, H4.
  - assert (forall b, In b asks -> fits cap ticks now b = false) as Hno.
    { intros b Hb. destruct (fits cap ticks now b) eqn:Hf; [|done]. destruct (Hrep b Hb Hf) as (c & H1 & _ & H3 & H4).
      specialize (Hc c H1). by rewrite H3, H4 in Hc. }
    pose proof (cheapest_filter (crossing cap) live) as Hs. destruct (cheapest (List.filter (crossing cap) live)) as [s|]; [|done].
    destruct Hs as (Hs & Hcs & _). specialize (Hc s Hs). rewrite Hcs in Hc. simpl in Hc.
    unfold capacity_refusal, check_single_head_capacity. rewrite Hc. done.
Qed.

(** ** The book's walk *)
(** An ask the client judges as the book does: its deal shape goes with the buy's and
    it is not all-or-none itself. *)
Definition plain (buy_flags : Z) (ask : OrderBookOrder) : bool :=
  deal_compatible buy_flags (ob_flags ask) && negb (has_flag (ob_flags ask) flags.AON).

Lemma unit_price_mono p q : 0 <= p -> p <= q -> 0 <= unit_price p <= unit_price q.
Proof.
  intros H0 H. unfold unit_price, PLATFORM_FEE, PLATFORM_FEE_BPS.
  pose proof (Z.div_pos (p * 250) 10000). pose proof (Z.div_le_mono (p * 250) (q * 250) 10000). lia.
Qed.

Lemma match_buy_done makers price f now escrow m s fills :
  match_buy makers price f now 0 escrow m s fills = mkMatchResult fills 0 escrow false.
Proof. by destruct makers. Qed.

Lemma head_filter_none {A} (P : A -> bool) l : Forall (fun a => P a = false) l -> List.filter P l = [].
Proof. induction 1 as [|a l H _ IH]; simpl; [done|]. by rewrite H. Qed.

Section Walk.
Context (cap ticks now f : Z) (Hf : has_flag f flags.AON = true) (Hticks : 2 <= ticks).

Lemma match_buy_walk makers escrow m s :
  ticks * unit_price cap <= escrow ->
  StronglySorted (fun a b => price_time_le a b = true) makers ->
  Forall (fun a => order_typed a /\ is_resting_ask a = true) makers ->
  (forall a, In a makers -> fits cap ticks now a = true -> plain f a = true) ->
  let r := match_buy makers cap f now ticks escrow m s [] in
  (mr_capped r = true /\ mr_fills r = []) \/
  (mr_capped r = false /\
   match List.filter (fits cap ticks now) makers with
   | [] => mr_fills r = [] /\ mr_remaining r = ticks /\ mr_leftover_escrow r = escrow
   | a :: _ => mr_fills r = [(a, ticks)] /\ mr_remaining r = 0 /\
               mr_leftover_escrow r = escrow - ticks * unit_price (ob_price_per_tick a)
   end).
Proof.
  intros He. revert m s. induction makers as [|a makers IH]; intros m s Hs Hall Hplain; simpl; [by right|].
  inversion Hs as [|? ? Hs' Hle]; subst. inversion Hall as [|? ? [[Ht Hp] Hr] Hall']; subst.
  assert ((ticks <=? 0) = false) as -> by lia.
  destruct (Z.ltb_spec cap (ob_price_per_tick a)) as [Hc|Hc].
  { assert (forall b, price_time_le a b = true -> fits cap ticks now b = false) as Hno.
    { intros b Hb. unfold fits, crossing. unfold price_time_le in Hb.
      rewrite (proj2 (Z.leb_gt (ob_price_per_tick b) cap)) by lia. by rewrite andb_false_r. }
    right. rewrite Hno by apply price_time_refl. rewrite (head_filter_none _ makers); [done|].
    eapply Forall_impl; [exact Hle|]. apply Hno. }
  destruct ((MAX_MATCHES_PER_CALL <=? m) || (MAX_SCAN_PER_CALL <=? s)); [by left|].
  assert (forall b, In b makers -> fits cap ticks now b = true -> plain f b = true) as Hplain'
    by (intros b Hb; apply Hplain; by right).
  specialize (fun m s => IH m s Hs' Hall' Hplain').
  assert (fits cap ticks now a = negb (is_expired (ob_deadline a) now) && (ticks <=? ob_ticks a)) as Hfit.
  { unfold fits, live_at, crossing. rewrite Hr, (proj2 (Z.leb_le _ _) Hc). simpl. by rewrite andb_true_r. }
  rewrite Hfit. specialize (Hplain a (or_introl eq_refl)). rewrite Hfit in Hplain.
  destruct (unit_price_mono (ob_price_per_tick a) cap ltac:(unfold in_u128 in Hp; lia) Hc) as [Hu0 Hu].
  destruct (is_expired (ob_deadline a) now); simpl in *.
  { destruct (deal_compatible f (ob_flags a)); simpl; apply IH. }
  destruct (Z.leb_spec ticks (ob_ticks a)) as [Hsize|Hsize]; simpl in *.
  - specialize (Hplain eq_refl). apply andb_true_iff in Hplain as [-> Hno]. apply negb_true_iff in Hno. rewrite Hno.
    rewrite (Z.min_l ticks (ob_ticks a)) by done. rewrite Hf.
    assert ((if 0 <? unit_price (ob_price_per_tick a) then Z.min ticks (escrow / unit_price (ob_price_per_tick a))
             else ticks) = ticks) as ->.
    { destruct (Z.ltb_spec 0 (unit_price (ob_price_per_tick a))); [|done]. apply Z.min_l.
      apply Z.div_le_lower_bound; [done|]. nia. }
    assert ((ticks <? ticks) = false) as -> by lia. assert ((ticks <? 2) = false) as -> by lia. simpl.
    rewrite Z.sub_diag, match_buy_done. right. by simpl.
  - rewrite (Z.min_r ticks (ob_ticks a)) by lia. rewrite Hf.
    assert (forall t, t <= ob_ticks a -> (t <? ticks) = true) as Hlt by lia.
    destruct (deal_compatible f (ob_flags a)); simpl; [|apply IH].
    rewrite Hlt; simpl; [apply IH|]. destruct (0 <? unit_price _); lia.
Qed.
End Walk.

(** The sell side as the book walks it: by price, then age. *)
Definition sell_side (orders : list OrderBookOrder) : list OrderBookOrder :=
  sort_by price_time_le (List.filter is_resting_ask orders).

Lemma sell_side_sorted orders : StronglySorted (fun a b => price_time_le a b = true) (sell_side orders).
Proof.
  apply Sorted_StronglySorted; [intros a b c; apply price_time_tr|]. apply sort_by_sorted, price_time_total.
Qed.
Lemma sell_side_in orders a : In a (sell_side orders) <-> In a orders /\ is_resting_ask a = true.
Proof. unfold sell_side. by rewrite <- list_elem_of_In, sort_by_perm, list_elem_of_In, filter_In. Qed.

Lemma first_fit orders cap ticks now a rest :
  List.filter (fits cap ticks now) (sell_side orders) = a :: rest -> least_ask (fits cap ticks now) orders a.
Proof.
  intros H. assert (forall b, In b (a :: rest) <-> In b (sell_side orders) /\ fits cap ticks now b = true) as Hin
    by (intros b; rewrite <- H; apply filter_In).
  destruct (proj1 (Hin a) (or_introl eq_refl)) as [Ha Hfa]. apply sell_side_in in Ha as [Ha _].
  split_and!; [done..|]. intros b Hb Hfb.
  assert (In b (a :: rest)) as [<-|Hr].
  { apply Hin. split; [|done]. apply sell_side_in. split; [done|]. unfold fits, live_at in Hfb. rewrite !andb_true_iff in Hfb. tauto. }
  { apply price_time_refl. }
  assert (StronglySorted (fun a b => price_time_le a b = true) (a :: rest)) as Hs.
  { rewrite <- H. generalize (sell_side_sorted orders). clear. induction 1 as [|x l Hl IH Hx]; simpl; [constructor|].
    destruct (fits cap ticks now x); [|done]. constructor; [done|]. rewrite Forall_forall in *. intros y Hy.
    rewrite list_elem_of_In, filter_In in Hy. apply Hx, list_elem_of_In. tauto. }
  inversion Hs as [|? ? _ Hall]; subst. rewrite Forall_forall in Hall. by apply Hall, list_elem_of_In.
Qed.

Lemma buyer_flags_aon wait : has_flag (buyer_order_flags wait) flags.AON = true.
Proof. by destruct wait. Qed.

Lemma headroom_covers escrow ticks cap :
  check_buy_deposit_headroom escrow ticks cap = Ok tt -> ticks * unit_price cap <= escrow.
Proof.
  unfold check_buy_deposit_headroom. intros H. repeat ok_step H. apply ok_or_ok in E.
  apply escrow_some in E as (_ & _ & ->). unfold unit_price, PLATFORM_FEE, unit_cost in *. lia.
Qed.

(** What a walk over the sell side does with a buy the selection was made for. *)
Lemma walk_is_selection orders cap ticks now escrow wait :
  Forall order_typed orders -> NoDup (map ob_order_id orders) ->
  2 <= ticks -> check_buy_deposit_headroom escrow ticks cap = Ok tt ->
  (forall a, In a orders -> fits cap ticks now a = true -> plain (buyer_order_flags wait) a = true) ->
  is_ok (coalesced_live_candidates orders now) = true ->
  let r := match_buy (sell_side orders) cap (buyer_order_flags wait) now ticks escrow 0 0 [] in
  (mr_capped r = true /\ mr_fills r = []) \/
  (mr_capped r = false /\
   match selected_model_buy_ask orders cap ticks now with
   | Ok a => mr_fills r = [(a, ticks)] /\ mr_remaining r = 0 /\
             mr_leftover_escrow r = escrow - ticks * unit_price (ob_price_per_tick a)
   | _ => mr_fills r = [] /\ mr_remaining r = ticks /\ mr_leftover_escrow r = escrow
   end).
Proof.
  intros Hty Hnd Ht Hesc Hplain Hok.
  destruct (coalesced_live_candidates orders now) as [[live lapsed]| |] eqn:Ec; try done.
  pose proof (selected_least _ cap ticks _ _ _ Ec) as Hsel.
  destruct (match_buy_walk cap ticks now (buyer_order_flags wait) (buyer_flags_aon wait) Ht (sell_side orders) escrow 0 0)
    as [Hc|[Hc Hw]]; [by apply headroom_covers|apply sell_side_sorted| | |by left|].
  - apply Forall_forall. intros a Ha%list_elem_of_In%sell_side_in. rewrite Forall_forall in Hty.
    destruct Ha. split; [|done]. by apply Hty, list_elem_of_In.
  - intros a [Ha _]%sell_side_in. by apply Hplain.
  - right. split; [done|]. destruct (List.filter _ (sell_side orders)) as [|a rest] eqn:Ef.
    + destruct (selected_model_buy_ask orders cap ticks now) as [a|e|]; [|done..].
      destruct Hsel as (Ha & Hfit & _).
      assert (In a (List.filter (fits cap ticks now) (sell_side orders))) as Hin; [|by rewrite Ef in Hin].
      apply filter_In. split; [|done]. apply sell_side_in. split; [done|].
      unfold fits, live_at in Hfit. rewrite !andb_true_iff in Hfit. tauto.
    + pose proof (first_fit _ _ _ _ _ _ Ef) as Hfirst.
      destruct (selected_model_buy_ask orders cap ticks now) as [a'|e|]; [|destruct Hfirst as (Ha & Hfit & _); by rewrite Hsel in Hfit|done].
      by rewrite (least_unique _ _ _ _ Hnd Hsel Hfirst).
Qed.

(** C20: The prediction is the book's own choice.  For a buy with the exact escrow over asks
    that carry none of the flags the client ignores, and without contradictory rows of
    one contract, a call of the book's walk either settles nothing because it met its
    own bound, or fills exactly the selected ask for the whole volume, at its price,
    and leaves the rest of the escrow; when nothing is selected it fills nothing. *)
Theorem selection_is_what_the_book_fills (orders : list OrderBookOrder) (cap ticks now escrow : Z) (wait : bool) :
  Forall order_typed orders -> NoDup (map ob_order_id orders) ->
  2 <= ticks -> check_buy_deposit_headroom escrow ticks cap = Ok tt ->
  (forall a, In a orders -> fits cap ticks now a = true -> plain (buyer_order_flags wait) a = true) ->
  is_ok (coalesced_live_candidates orders now) = true ->
  let r := match_buy (sell_side orders) cap (buyer_order_flags wait) now ticks escrow 0 0 [] in
  (mr_capped r = true /\ mr_fills r = []) \/
  (mr_capped r = false /\
   match selected_model_buy_ask orders cap ticks now with
   | Ok a => mr_fills r = [(a, ticks)] /\ mr_remaining r = 0 /\
             mr_leftover_escrow r = escrow - ticks * unit_price (ob_price_per_tick a)
   | _ => mr_fills r = [] /\ mr_remaining r = ticks /\ mr_leftover_escrow r = escrow
   end).
Proof. apply walk_is_selection. Qed.

(** ** The named contract *)
Lemma target_is_selected orders tc cap ticks now :
  check_expected_buy_target orders tc cap ticks now = Ok tt ->
  exists a, selected_model_buy_ask orders cap ticks now = Ok a /\ names tc a = true.
Proof.
  unfold check_expected_buy_target, selected_model_buy_ask. intros H. ok_step H. destruct a as [live lapsed].
  ok_step H. destruct (next_matching_ask live cap ticks) as [best|].
  - exists best. split; [done|]. by destruct (names tc best); [|destruct (List.find (names tc) live)].
  - destruct (List.find (names tc) live) as [ask|]; [|done]. destruct (crossing cap ask); [|done].
    unfold capacity_refusal in H. by destruct (check_single_head_capacity ask ticks).
Qed.

(** A buy that names a contract funds that contract.  When the preflight accepts the
    named TokenContract, a call of the book's walk that settles anything fills one ask,
    of that contract, for the whole volume. *)
Theorem named_buys_fund_the_named_deal (orders : list OrderBookOrder) (tc : string) (cap ticks now escrow : Z) (wait : bool) :
  Forall order_typed orders -> NoDup (map ob_order_id orders) ->
  2 <= ticks -> check_buy_deposit_headroom escrow ticks cap = Ok tt ->
  (forall a, In a orders -> fits cap ticks now a = true -> plain (buyer_order_flags wait) a = true) ->
  check_expected_buy_target orders tc cap ticks now = Ok tt ->
  let r := match_buy (sell_side orders) cap (buyer_order_flags wait) now ticks escrow 0 0 [] in
  mr_capped r = true /\ mr_fills r = [] \/
  exists a, mr_fills r = [(a, ticks)] /\ In a orders /\ names tc a = true /\ is_expired (ob_deadline a) now = false.
Proof.
  intros Hty Hnd Ht Hesc Hplain Htgt.
  assert (is_ok (coalesced_live_candidates orders now) = true) as Hok.
  { unfold check_expected_buy_target in Htgt. by destruct (coalesced_live_candidates orders now). }
  destruct (target_is_selected _ _ _ _ _ Htgt) as (a & Hsel & Hn).
  destruct (walk_is_selection _ _ _ _ _ wait Hty Hnd Ht Hesc Hplain Hok) as [?|[_ Hw]]; [by left|].
  rewrite Hsel in Hw. right. exists a. split; [tauto|].
  destruct (coalesced_live_candidates orders now) as [[live lapsed]| |] eqn:Ec; try done.
  pose proof (selected_least _ cap ticks _ _ _ Ec) as Hl. rewrite Hsel in Hl. destruct Hl as (Ha & Hfit & _).
  split_and!; [done..|]. unfold fits, live_at in Hfit. rewrite !andb_true_iff, negb_true_iff in Hfit. tauto.
Qed.

(** ** Books on which the prediction holds, and books on which it does not *)
Definition ask (id : Z) (tc : string) (price ticks deadline flags : Z) : OrderBookOrder :=
  {| ob_order_id := id; ob_owner_note := "0:seller"; ob_token_contract := Some tc; ob_is_buy := false;
     ob_price_per_tick := price; ob_ticks := ticks; ob_escrow := 0; ob_deadline := deadline;
     ob_flags := flags; ob_timestamp := 0 |}.

(** A cheap ask of two ticks, two of ten ticks, one expired. *)
Definition sample_book : list OrderBookOrder :=
  [ask 7 "0:C" 40 10 900 0; ask 3 "0:A" 10 2 900 0; ask 5 "0:B" 20 10 900 0; ask 4 "0:D" 15 10 100 0].

Lemma sample_typed : Forall order_typed sample_book.
Proof. apply (bool_decide_unpack _). by vm_compute. Qed.
Lemma sample_ids : NoDup (map ob_order_id sample_book).
Proof. apply (bool_decide_unpack _). by vm_compute. Qed.
Lemma sample_plain a : In a sample_book -> fits 50 4 500 a = true -> plain (buyer_order_flags false) a = true.
Proof. intros H _. by repeat (destruct H as [<-|H]; [reflexivity|]). Qed.

Lemma selection_is_what_the_book_fills_witness :
  mr_fills (match_buy (sell_side sample_book) 50 (buyer_order_flags false) 500 4 204 0 0 [])
  = [(ask 5 "0:B" 20 10 900 0, 4)].
Proof.
  destruct (selection_is_what_the_book_fills sample_book 50 4 500 204 false sample_typed sample_ids
    ltac:(lia) eq_refl sample_plain eq_refl) as [[H _]|[_ (H & _)]]; [discriminate H|exact H].
Defined.

Lemma named_buys_fund_the_named_deal_witness :
  exists a, mr_fills (match_buy (sell_side sample_book) 50 (buyer_order_flags false) 500 4 204 0 0 []) = [(a, 4)] /\
    names "0:b" a = true.
Proof.
  destruct (named_buys_fund_the_named_deal sample_book "0:b" 50 4 500 204 false sample_typed sample_ids
    ltac:(lia) eq_refl sample_plain eq_refl) as [[H _]|(a & H & _ & Hn & _)]; [discriminate H|by exists a].
Defined.

(** ** Where the prediction and the book part *)

(** A subscription ask pairs with subscription buys only, so the book passes over it;
    the client looks at no flag, predicts it, and accepts it as the named target. *)
Definition subscription_book : list OrderBookOrder :=
  [ask 3 "0:A" 10 8 900 (Z.lor flags.AON flags.SUBSCRIPTION); ask 5 "0:B" 20 10 900 0].
Example subscription_ask_is_selected_and_skipped :
  selected_model_buy_ask subscription_book 50 4 500 = Ok (ask 3 "0:A" 10 8 900 96) /\
  check_expected_buy_target subscription_book "0:a" 50 4 500 = Ok tt /\
  mr_fills (match_buy (sell_side subscription_book) 50 (buyer_order_flags false) 500 4 204 0 0 [])
  = [(ask 5 "0:B" 20 10 900 0, 4)].
Proof. by vm_compute. Qed.

(** ** Where the listing and the preflight part *)

(** What [executable_resting_asks] keeps of a book whose deals are all usable. *)
Definition usable (orders : list OrderBookOrder) (now : Z) : list OrderBookOrder :=
  match coalesce_equivalent_resting_asks (List.filter (fun o => is_live_resting_ask_at o now) orders) with
  | Ok asks => asks
  | _ => []
  end.

Definition class_of {A} (o : outcome string A) : string :=
  match o with Err e => buy_refusal_class e | _ => "" end.
Definition listing_class (o : outcome string (list OrderBookOrder * option string)) : string :=
  match o with Ok (_, Some e) => buy_refusal_class e | Err e => buy_refusal_class e | _ => "" end.

(** One lapsed ask within the ceiling, one live ask above it. *)
Definition lapsed_below_live : list OrderBookOrder := [ask 3 "0:A" 10 8 100 0; ask 5 "0:B" 90 10 900 0].
Example listing_and_preflight_name_different_classes :
  class_of (selected_model_buy_ask_matching_executable_depth lapsed_below_live
              (usable lapsed_below_live 500) 50 4 500) = EXPIRED_COUNTERPARTY_ASK_CLASS /\
  listing_class (submit_safe_executable_book_asks lapsed_below_live
              (usable lapsed_below_live 500) 50 4 500) = NO_EXECUTABLE_ASK_CLASS.
Proof. by vm_compute. Qed.

(** A lapsed row beside the live row that replaced it on the same contract. *)
Definition reposted : list OrderBookOrder := [ask 3 "0:A" 10 8 100 0; ask 5 "0:A" 20 8 900 0].
Example a_lapsed_row_hides_the_listing :
  selected_model_buy_ask_matching_executable_depth reposted (usable reposted 500) 50 4 500
  = Ok (ask 5 "0:A" 20 8 900 0) /\
  submit_safe_executable_book_asks reposted (usable reposted 500) 50 4 500
  = Err "duplicate active sell orders for one TokenContract have conflicting terms/state".
Proof. by vm_compute. Qed.

(** An ask without a deadline never expires for the book and for the selection, but the
    executable filter drops it: it blocks every other ask behind it. *)
Definition undated_head : list OrderBookOrder := [ask 3 "0:A" 10 8 0 0; ask 5 "0:B" 20 8 900 0].
Example an_undated_ask_blocks_the_book :
  class_of (selected_model_buy_ask_matching_executable_depth undated_head (usable undated_head 500) 50 4 500)
  = NO_EXECUTABLE_ASK_CLASS /\
  mr_fills (match_buy (sell_side undated_head) 50 (buyer_order_flags false) 500 4 204 0 0 [])
  = [(ask 3 "0:A" 10 8 0 0, 4)] /\
  submit_safe_executable_book_asks undated_head (usable undated_head 500) 50 4 500
  = Ok ([ask 5 "0:B" 20 8 900 0], None).
Proof. by vm_compute. Qed.
