(* ===== verification/Settlement.v ===== *)
(** * Settlement: a stop, a dispute and its end, posted once and proved by its event
    (crates/core/src/chain/client.rs)

    Every settlement action is one signed message that moves money.  The client reads
    the deal's own event log before it signs and again before it posts, refuses when
    the log already holds an action, posts once, and answers only with the one new
    event of the log and a getter snapshot that agrees with it.  A log is its events,
    oldest first; an error is its fixed text, in the class the client's caller sees.
    The address parser of the chain library is the parameter [normalize_addr] and the
    hash of a message the parameter [external_message_hash]; durations are seconds. *)
From Stdlib Require Import Ascii.
From S2P Require Import Prelude Text Params MarketTypes Machine MockDeal MockMarket Backend Offer Receipt.

#[global] Instance DealChainState_eq_dec : EqDecision DealChainState.
Proof. solve_decision. Defined.
#[global] Instance DealSubscription_eq_dec : EqDecision DealSubscription.
Proof. solve_decision. Defined.
#[global] Instance DealSellerBond_eq_dec : EqDecision DealSellerBond.
Proof. solve_decision. Defined.
#[global] Instance DealBuyerBond_eq_dec : EqDecision DealBuyerBond.
Proof. solve_decision. Defined.
#[global] Instance SettlementEvent_eq_dec : EqDecision TokenContractSettlementEvent.
Proof. solve_decision. Defined.
#[global] Instance SettlementReceipt_eq_dec : EqDecision TokenContractSettlementReceipt.
Proof. solve_decision. Defined.

Definition Events : Type := list TokenContractSettlementReceipt.

(** ** What an action is expected to emit *)
Module Expect.
Inductive ExpectedSettlementEvent : Type :=
| BuyerStop | ProbeBurned | StreamStopped | StreamDisputed | DisputeResolved (released : bool).
End Expect.

Definition resolve (expected : Expect.ExpectedSettlementEvent) (pre_state : DealChainState)
    : Expect.ExpectedSettlementEvent :=
  match expected with
  | Expect.BuyerStop => if ds_on_probe pre_state then Expect.ProbeBurned else Expect.StreamStopped
  | exact => exact
  end.

Definition settlement_action_event_kind (event : TokenContractSettlementEvent) : option string :=
  match event with
  | ProbeBurned _ _ _ _ => Some "ProbeBurned"
  | StreamStopped _ _ _ => Some "StreamStopped"
  | StreamDisputed _ _ => Some "StreamDisputed"
  | DisputeResolved _ _ true => Some "DisputeResolved(released=true)"
  | DisputeResolved _ _ false => Some "DisputeResolved(released=false)"
  | _ => None
  end.
Definition is_action (r : TokenContractSettlementReceipt) : bool :=
  bool_decide (is_Some (settlement_action_event_kind (ev_event r))).
Definition actions_of (events : Events) : Events := List.filter is_action events.
Definition is_stop (r : TokenContractSettlementReceipt) : bool :=
  match ev_event r with ProbeBurned _ _ _ _ | StreamStopped _ _ _ => true | _ => false end.
Definition is_dispute (r : TokenContractSettlementReceipt) : bool :=
  match ev_event r with StreamDisputed _ _ => true | _ => false end.
Definition is_resolution (r : TokenContractSettlementReceipt) : bool :=
  match ev_event r with DisputeResolved _ _ _ => true | _ => false end.
Definition is_stream_stopped (r : TokenContractSettlementReceipt) : bool :=
  match ev_event r with StreamStopped _ _ _ => true | _ => false end.
Definition resolved_as (released : bool) (r : TokenContractSettlementReceipt) : bool :=
  match ev_event r with DisputeResolved _ _ b => Bool.eqb b released | _ => false end.
Definition is_resolving (action : SettlementAction) : bool :=
  match action with ReleaseDispute | ResolveDisputeTimeout => true | _ => false end.
(** The buyer an action event names. *)
Definition action_buyer (e : TokenContractSettlementEvent) : option string :=
  match e with
  | ProbeBurned buyer _ _ _ | StreamStopped buyer _ _ | StreamDisputed buyer _ => Some buyer
  | _ => None
  end.

Section Pure.
Context (normalize_addr : string -> option string).
Definition normalized (raw : string) (msg : string) : outcome ChainError string :=
  ok_or (normalize_addr raw) (Chain msg).

(** ** The log before an action *)

Definition terminal_event (e : TokenContractSettlementEvent) : option (string * SettlementActionEvent) :=
  match e with
  | ProbeBurned buyer probe bond refund => Some (buyer, MarketTypes.ProbeBurned buyer probe bond refund)
  | StreamStopped buyer paid refund => Some (buyer, MarketTypes.StreamStopped buyer paid refund)
  | _ => None
  end.

Definition select_prior_buyer_terminal_receipt (token_contract expected_buyer : string) (receipts : Events)
    : outcome ChainError (option BuyerStopTerminalReceipt) :=
  let actions := actions_of receipts in
  let stops := List.filter is_stop actions in
  match stops with
  | [] => Ok None
  | receipt :: _ =>
      fail_if negb (length actions =? 1)%nat || negb (length stops =? 1)%nat
        with Chain "prior settlement history contains a terminal close event mixed with another action" in
      match terminal_event (ev_event receipt) with
      | None => Panic
      | Some (buyer, event) =>
          let* observed := normalized buyer "prior terminal receipt has malformed buyer beneficiary" in
          let* expected := normalized expected_buyer "malformed expected buyer actor" in
          fail_if negb (bool_decide (observed = expected))
            with Chain "prior terminal receipt beneficiary does not match expected buyer note" in
          Ok (Some {| bt_token_contract := token_contract;
                      bt_fact := AlreadyClosed;
                      bt_stop_submitted := false;
                      bt_message_id := ev_message_id receipt;
                      bt_created_at := ev_created_at receipt;
                      bt_event := event;
                      bt_pre_bonds := None;
                      bt_post_state := None |})
      end
  end.

(** The receipt that already records the action. *)
Definition exact_prior (action : SettlementAction) (stops disputes resolutions : Events)
    : option TokenContractSettlementReceipt :=
  match action with
  | BuyerStop => head stops
  | SellerStop =>
      match head stops with Some r => if is_stream_stopped r then Some r else None | None => None end
  | Dispute =>
      if bool_decide (stops = []) && bool_decide (resolutions = []) then head disputes else None
  | ReleaseDispute =>
      match head resolutions with Some r => if resolved_as true r then Some r else None | None => None end
  | ResolveDisputeTimeout =>
      match head resolutions with Some r => if resolved_as false r then Some r else None | None => None end
  end.
Definition canonical_resolution (actions : Events) : bool :=
  match actions with [a; b] => is_dispute a && is_resolution b | _ => false end.

Definition reject_prior_settlement_action (action : SettlementAction) (expected_buyer : option string)
    (receipts : Events) : outcome ChainError unit :=
  let actions := actions_of receipts in
  let resolutions := List.filter is_resolution actions in
  let disputes := List.filter is_dispute actions in
  let stops := List.filter is_stop actions in
  let canonical_open_dispute :=
    (length actions =? 1)%nat && (length disputes =? 1)%nat
    && bool_decide (resolutions = []) && bool_decide (stops = []) in
  let canonical_resolution :=
    (length actions =? 2)%nat && (length disputes =? 1)%nat && (length resolutions =? 1)%nat
    && bool_decide (stops = []) && canonical_resolution actions in
  fail_if is_resolving action && negb canonical_open_dispute && negb canonical_resolution
    with Chain "invalid prior settlement-action history" in
  fail_if (1 <? length resolutions)%nat || (1 <? length disputes)%nat || (1 <? length stops)%nat
          || (negb (is_resolving action) && (1 <? length actions)%nat)
    with Chain "more than one prior settlement-action receipt" in
  match exact_prior action stops disputes resolutions with
  | Some receipt =>
      let* _ :=
        match expected_buyer, action_buyer (ev_event receipt) with
        | Some expected_buyer, Some observed_buyer =>
            let* expected := normalized expected_buyer "malformed buyer" in
            let* observed := normalized observed_buyer "malformed buyer" in
            fail_if negb (bool_decide (expected = observed))
              with Chain "prior action receipt with another buyer actor" in
            Ok tt
        | _, _ => Ok tt
        end in
      Err (Chain "already recorded by exact receipt; refusing a duplicate money POST")
  | None =>
      let incompatible :=
        if is_resolving action && bool_decide (resolutions = []) && bool_decide (stops = [])
        then None else last actions in
      match incompatible with
      | Some _ => Err (Chain "incompatible prior receipt; refusing before any money POST")
      | None => Ok tt
      end
  end.

(** ** The state before and after *)

Definition validate_buyer_stop_pre_state (pre : option DealChainSnapshot) (receipts : Events)
    : outcome ChainError unit :=
  let* _ := reject_prior_settlement_action BuyerStop None receipts in
  match pre with
  | None => Err (Chain "inactive and has no exact terminal receipt; refusing buyer STOP")
  | Some snapshot =>
      if ds_opened (sn_state snapshot) && negb (ds_disputed (sn_state snapshot)) then Ok tt
      else if ds_disputed (sn_state snapshot) then Err (Chain "disputed; refusing buyer STOP")
      else Err (Chain "not an open, undisputed stream; refusing buyer STOP")
  end.

Definition settlement_confirmation_delay (elapsed confirmation_timeout confirmation_poll : Z) : option Z :=
  let remaining := confirmation_timeout - elapsed in
  if 0 <? remaining then Some (Z.min remaining confirmation_poll) else None.

Definition validate_settlement_facts (facts : DealChainSnapshot) : outcome ChainError unit :=
  let seller := sn_seller_bond facts in
  let buyer := sn_buyer_bond facts in
  let subscription := is_subscription (sn_subscription facts) in
  fail_if sb_bond_required seller <? sb_bond_held seller
    with Chain "getSellerBond contradiction: held exceeds required" in
  fail_if subscription && (bb_bond_required buyer <? bb_bond_held buyer)
    with Chain "subscription getBuyerBond contradiction: held exceeds required" in
  fail_if negb subscription && negb (bb_bond_required buyer =? 0)
    with Chain "ordinary deal reports a non-zero buyer bond requirement" in
  fail_if subscription && (bb_bond_required buyer =? 0)
    with Chain "subscription exposes zero buyer bond requirement" in
  Ok tt.

Definition settlement_bond_state (facts : DealChainSnapshot) : SettlementActionBondState := {|
  seller_bond_held := sb_bond_held (sn_seller_bond facts);
  seller_bond_required := sb_bond_required (sn_seller_bond facts);
  buyer_bond_held := bb_bond_held (sn_buyer_bond facts);
  buyer_bond_required := bb_bond_required (sn_buyer_bond facts) |}.

Definition dispute_of (s : DealChainState) (at_ : Z) : DealChainState :=
  mkDealState (ds_funded s) (ds_opened s) (ds_probe_accepted s) true (ds_deposit s)
    (ds_finalized_owed s) (ds_tokens_final s) (ds_tokens_pending s) (ds_probe_tick s)
    (ds_funded_time s) (ds_probe_time s) (ds_last_claim_time s) at_.
Definition is_disputed_event (e : TokenContractSettlementEvent) : bool :=
  match e with StreamDisputed _ _ => true | _ => false end.

(** The figures of the event against the getters. *)
Definition event_matches_getters (pre post : DealChainSnapshot) (event : TokenContractSettlementEvent)
    : outcome ChainError unit :=
  match event with
  | StreamStopped _ to_seller _ | DisputeResolved to_seller _ _ =>
      fail_if negb (to_seller =? ds_finalized_owed (sn_state post))
        with Chain "event/getter contradiction" in Ok tt
  | StreamDisputed _ at_ =>
      fail_if negb (bool_decide (sn_state post = dispute_of (sn_state pre) at_))
              || negb (bool_decide (sn_subscription post = sn_subscription pre))
              || negb (bool_decide (sn_seller_bond post = sn_seller_bond pre))
              || negb (bool_decide (sn_buyer_bond post = sn_buyer_bond pre))
        with Chain "StreamDisputed changed settlement money" in Ok tt
  | _ => Ok tt
  end.

Definition settlement_action_post_state (pre post : DealChainSnapshot) (event : TokenContractSettlementEvent)
    : outcome ChainError SettlementActionPostState :=
  let state := sn_state post in
  let* _ := validate_settlement_facts post in
  fail_if negb (Bool.eqb (is_subscription (sn_subscription pre)) (is_subscription (sn_subscription post)))
          || negb (sb_bond_required (sn_seller_bond pre) =? sb_bond_required (sn_seller_bond post))
          || negb (bb_bond_required (sn_buyer_bond pre) =? bb_bond_required (sn_buyer_bond post))
    with Chain "immutable deal/bond shape changed across settlement action" in
  let terminal := negb (is_disputed_event event) in
  fail_if terminal && negb (is_stopped state) with Chain "terminal event contradicts post-state" in
  fail_if terminal && (negb (sb_bond_held (sn_seller_bond post) =? 0)
                       || negb (bb_bond_held (sn_buyer_bond post) =? 0))
    with Chain "terminal event contradicts held collateral" in
  fail_if negb terminal && (negb (ds_opened state) || negb (ds_disputed state))
    with Chain "StreamDisputed contradicts post-state" in
  let* _ := event_matches_getters pre post event in
  Ok {| ps_tokens_final := ds_tokens_final state;
        ps_tokens_pending := ds_tokens_pending state;
        ps_seller_bond_held := sb_bond_held (sn_seller_bond post);
        ps_seller_bond_required := sb_bond_required (sn_seller_bond post);
        ps_buyer_bond_held := bb_bond_held (sn_buyer_bond post);
        ps_buyer_bond_required := bb_bond_required (sn_buyer_bond post);
        ps_opened := ds_opened state;
        ps_disputed := ds_disputed state |}.

Definition with_post_state (r : SettlementActionReceipt) (p : option SettlementActionPostState)
    : SettlementActionReceipt :=
  mkReceipt (sr_token_contract r) (sr_action r) (sr_message_id r) (sr_created_at r) (sr_event r)
    (sr_pre_bonds r) p.
Definition attach_settlement_post_snapshot (receipt : SettlementActionReceipt) (pre : DealChainSnapshot)
    (event : TokenContractSettlementEvent) (post : option DealChainSnapshot)
    : outcome ChainError SettlementActionReceipt :=
  match post with
  | Some post =>
      let* facts := settlement_action_post_state pre post event in
      Ok (with_post_state receipt (Some facts))
  | None =>
      fail_if is_disputed_event event with Chain "inactive after non-terminal StreamDisputed" in
      Ok (with_post_state receipt None)
  end.

(** ** The new event *)

Definition preserve_buyer (expected_buyer : option string) (observed_buyer : string)
    : outcome ChainError string :=
  let* expected_buyer := ok_or expected_buyer (Chain "no independently known buyer actor") in
  let* observed := normalized observed_buyer "emitted malformed buyer actor" in
  let* expected := normalized expected_buyer "malformed expected buyer actor" in
  fail_if negb (bool_decide (observed = expected)) with Chain "emitted wrong buyer actor" in
  Ok observed_buyer.

Definition expected_event (expected : Expect.ExpectedSettlementEvent) (expected_buyer : option string)
    (event : TokenContractSettlementEvent) : outcome ChainError SettlementActionEvent :=
  match expected, event with
  | Expect.ProbeBurned, ProbeBurned buyer burned_probe burned_bond refund =>
      let* buyer := preserve_buyer expected_buyer buyer in
      Ok (MarketTypes.ProbeBurned buyer burned_probe burned_bond refund)
  | Expect.StreamStopped, StreamStopped buyer to_seller refund =>
      let* buyer := preserve_buyer expected_buyer buyer in
      Ok (MarketTypes.StreamStopped buyer to_seller refund)
  | Expect.StreamDisputed, StreamDisputed buyer at_ =>
      let* buyer := preserve_buyer expected_buyer buyer in
      Ok (MarketTypes.StreamDisputed buyer at_)
  | Expect.DisputeResolved want, DisputeResolved to_seller refund released =>
      if Bool.eqb released want
      then Ok (MarketTypes.DisputeResolved to_seller refund released)
      else Err (Chain "observed incompatible new event")
  | Expect.BuyerStop, _ => Err (Chain "retained unresolved buyer-stop event expectation")
  | _, _ => Err (Chain "observed incompatible new event")
  end.

Definition select_new_settlement_action_receipt (token_contract : string) (action : SettlementAction)
    (expected : Expect.ExpectedSettlementEvent) (expected_buyer : option string) (observed : Events)
    (pre_bonds : SettlementActionBondState) : outcome ChainError (option SettlementActionReceipt) :=
  match actions_of observed with
  | [] => Ok None
  | [receipt] =>
      let* event := expected_event expected expected_buyer (ev_event receipt) in
      Ok (Some (mkReceipt token_contract action (ev_message_id receipt) (ev_created_at receipt) event
                  pre_bonds None))
  | _ => Err (Chain "produced distinct new action events")
  end.

Definition settlement_receipts_after_snapshot (before current : Events) : outcome ChainError Events :=
  fail_if (length current <? length before)%nat
    with Chain "post-submit history changed and is not an append-only extension" in
  fail_if negb (bool_decide (take (length before) current = before))
    with Chain "post-submit history changed and is not an append-only extension at event" in
  Ok (drop (length before) current).
End Pure.

(** ** The calls *)

(** [(endpoint, boc, account_id, dapp_id)] *)
Record PreparedPost : Type := mkPrepared {
  pp_endpoint : string; pp_boc : string; pp_account_id : string; pp_dapp_id : string }.
Record TokenContractInboundCall : Type := mkInbound {
  ic_message_id : string; ic_source : string; ic_function : string }.
Record SubmittedBuyerStopReceipt : Type := mkSubmitted {
  su_receipt : SettlementActionReceipt; su_client_message_id : string }.

(** The network.  [sx_post] takes the deal and the action its signed message names;
    the balance is that of the account's SHELL, [None] for an account that is not
    there. *)
Class SettlementChain (W : Type) : Type := {
  sx_receipts : TokenContract -> W -> outcome ChainError Events * W;
  sx_snapshot : TokenContract -> W -> outcome ChainError (option DealChainSnapshot) * W;
  sx_buyer_note : TokenContract -> W -> outcome ChainError (option string) * W;
  sx_shell : string -> W -> outcome ChainError (option Z) * W;
  sx_prepare : string -> string -> TokenContract -> W -> outcome ChainError PreparedPost * W;
  sx_post : TokenContract -> SettlementAction -> PreparedPost -> W -> outcome ChainError unit * W;
  sx_out_messages : string -> string -> W -> outcome ChainError (option (list string)) * W;
  sx_inbound_call : TokenContract -> string -> W -> outcome ChainError TokenContractInboundCall * W
}.

Definition cancel_confirmation_timeout : Z := 60.
Definition cancel_confirmation_poll : Z := 2.
Definition SDK_MESSAGE_EXPIRY_SECS : Z := 40.

Definition ambiguous_settlement_action (source : string) : ChainError :=
  AmbiguousSubmit ("the action may have landed; the BOC was not resubmitted: " ++ source)%string.
(** [.map_err(|error| ambiguous_settlement_action(.., error.context(source)))] *)
Definition as_ambiguous {A} (source : string) (r : outcome ChainError A) : outcome ChainError A :=
  match r with Err _ => Err (ambiguous_settlement_action source) | r => r end.
Definition pending_error : ChainError :=
  ambiguous_settlement_action "no compatible immutable event became provable inside the canonical confirmation budget".
(** The two answers of a POST that prove it did not land. *)
Definition proves_no_post (e : ChainError) : bool :=
  match e with MoneySubmitPreparation _ | MoneySubmitRejected _ => true | _ => false end.

Section Client.
Context (normalize_addr : string -> option string) (external_message_hash : string -> option string).
Context {W : Type} `{SettlementChain W} `{Clock W} `{Timer W}.

(** [tokio::time::timeout(d, m)], and a read that must answer within it. *)
Definition timeout {A} (d : Z) (m : prog W A) : prog W (timed A) := fun w =>
  timeout_at (clock_now w + d) m w.
Definition read_within {A} (msg : string) (read : W -> outcome ChainError A * W) : prog W A :=
  let! r := timeout cancel_confirmation_timeout (lift read) in
  match r with
  | Elapsed => throw (Chain msg)
  | Done r => of_outcome r
  end.

(** [confirmation_timeout.checked_sub(started.elapsed())], nonzero *)
Definition remaining (started : Z) (w : W) : option Z :=
  let budget := cancel_confirmation_timeout - (clock_now w - started) in
  if 0 <? budget then Some budget else None.

(** The POST: [Some] of its error when only that proves nothing. *)
Definition post_once (tc : TokenContract) (action : SettlementAction) (prepared : PreparedPost)
    : prog W (option string) :=
  let! answer := timeout (Z.min SDK_MESSAGE_EXPIRY_SECS cancel_confirmation_timeout)
                   (lift (sx_post tc action prepared)) in
  match answer with
  | Done (Ok _) => ret None
  | Done (Err error) =>
      if proves_no_post error then throw error else ret (Some "the POST response was an error")
  | Done Panic => panic
  | Elapsed => ret (Some "one-shot money POST response exceeded the signed-message expiry bound")
  end.

Definition confirm_post (tc : TokenContract) (started : Z) (pre : DealChainSnapshot) (observed : Events)
    (receipt : SettlementActionReceipt) : prog W SettlementActionReceipt :=
  match List.find (fun e => bool_decide (ev_message_id e = sr_message_id receipt)) observed with
  | None => panic
  | Some event =>
      let! budget := get (fun w => (remaining started w, w)) in
      match budget with
      | None => throw pending_error
      | Some budget =>
          let! post := timeout budget (lift (sx_snapshot tc)) in
          match post with
          | Elapsed => throw pending_error
          | Done (Err _) => throw (ambiguous_settlement_action "post-submit coherent snapshot failed")
          | Done Panic => panic
          | Done (Ok post) =>
              of_outcome (as_ambiguous "post-submit event/getter facts contradicted"
                (attach_settlement_post_snapshot receipt pre (ev_event event) post))
          end
      end
  end.

Fixpoint confirm_loop (fuel : nat) (tc : TokenContract) (action : SettlementAction)
    (expected : Expect.ExpectedSettlementEvent) (expected_buyer : option string) (before : Events)
    (pre : DealChainSnapshot) (started : Z) : prog W SettlementActionReceipt :=
  match fuel with
  | O => out_of_fuel
  | S fuel =>
      let! budget := get (fun w => (remaining started w, w)) in
      match budget with
      | None => throw pending_error
      | Some budget =>
          let! current := timeout budget (lift (sx_receipts tc)) in
          match current with
          | Elapsed => throw pending_error
          | Done (Err _) => throw (ambiguous_settlement_action "post-submit event read/decode failed")
          | Done Panic => panic
          | Done (Ok current) =>
              let! observed := of_outcome (as_ambiguous "post-submit event snapshot contradicted its baseline"
                                 (settlement_receipts_after_snapshot before current)) in
              let! selected := of_outcome (as_ambiguous "post-submit action event was incompatible"
                                 (select_new_settlement_action_receipt normalize_addr tc action expected
                                    expected_buyer observed (settlement_bond_state pre))) in
              match selected with
              | Some receipt => confirm_post tc started pre observed receipt
              | None =>
                  let! delay := get (fun w => (settlement_confirmation_delay (clock_now w - started)
                                                 cancel_confirmation_timeout cancel_confirmation_poll, w)) in
                  match delay with
                  | None => throw pending_error
                  | Some delay =>
                      run (sleep delay) >>!
                      confirm_loop fuel tc action expected expected_buyer before pre started
                  end
              end
          end
      end
  end.

Definition reconcile_settlement_action_after_post (fuel : nat) (tc : TokenContract)
    (action : SettlementAction) (expected : Expect.ExpectedSettlementEvent) (expected_buyer : option string)
    (before : Events) (pre : DealChainSnapshot) (prepared : PreparedPost) : prog W SettlementActionReceipt :=
  let! started := get (fun w => (clock_now w, w)) in
  post_once tc action prepared >>!
  confirm_loop fuel tc action expected expected_buyer before pre started.

(** ** One action *)

Definition reject_prior_settlement_action_before_prepare (tc : TokenContract) (action : SettlementAction)
    (buyer_actor : option string) : prog W unit :=
  let! receipts := read_within "pre-prepare event snapshot exceeded the timeout" (sx_receipts tc) in
  of_outcome (reject_prior_settlement_action normalize_addr action buyer_actor receipts).

Definition names_its_buyer (action : SettlementAction) : bool :=
  match action with BuyerStop | SellerStop | Dispute => true | _ => false end.

(** The buyer the deal itself records, which has to be the one acting. *)
Definition recorded_buyer (tc : TokenContract) (buyer_actor : option string) : prog W string :=
  let! found := read_within "buyer-actor preflight exceeded the timeout" (sx_buyer_note tc) in
  let! recorded := of_outcome (ok_or found (Chain "no authoritative buyer actor in getParties")) in
  match buyer_actor with
  | None => ret recorded
  | Some actor =>
      let! recorded_addr := of_outcome (normalized normalize_addr recorded "malformed recorded buyer") in
      let! actor_addr := of_outcome (normalized normalize_addr actor "malformed buyer") in
      if bool_decide (recorded_addr = actor_addr) then ret recorded
      else throw (Chain "recorded buyer actor does not match requested buyer note")
  end.

Definition submit_settlement_action_once_if (fuel : nat) (tc : TokenContract) (action : SettlementAction)
    (expected : Expect.ExpectedSettlementEvent) (buyer_actor : option string) (prepared : PreparedPost)
    (before_post : W -> bool) : prog W (option SettlementActionReceipt) :=
  let! before := read_within "pre-submit event snapshot exceeded the timeout" (sx_receipts tc) in
  of_outcome (reject_prior_settlement_action normalize_addr action buyer_actor before) >>!
  let! pre := read_within "pre-submit coherent snapshot exceeded the timeout" (sx_snapshot tc) in
  of_outcome (match action with
              | BuyerStop => validate_buyer_stop_pre_state normalize_addr pre before
              | _ => Ok tt
              end) >>!
  let! pre := of_outcome (ok_or pre (Chain "inactive before the settlement action POST")) in
  of_outcome (validate_settlement_facts pre) >>!
  let expected := resolve expected (sn_state pre) in
  let! expected_buyer :=
    (if names_its_buyer action
     then let! recorded := recorded_buyer tc buyer_actor in ret (Some recorded)
     else ret None) in
  let! go := get (fun w => (before_post w, w)) in
  if negb go then ret None
  else
    let! receipt := reconcile_settlement_action_after_post fuel tc action expected expected_buyer
                      before pre prepared in
    ret (Some receipt).

Definition submit_settlement_action_once (fuel : nat) (tc : TokenContract) (action : SettlementAction)
    (expected : Expect.ExpectedSettlementEvent) (buyer_actor : option string) (prepared : PreparedPost)
    : prog W SettlementActionReceipt :=
  let! receipt := submit_settlement_action_once_if fuel tc action expected buyer_actor prepared (fun _ => true) in
  of_outcome (ok_or receipt (Chain "unconditional settlement action was unexpectedly cancelled")).

(** ** The actions *)

Definition terminal_charge_refusal (note_ecc deal_ecc charge : Z) : option string :=
  if (charge <=? note_ecc) || (charge <=? deal_ecc) then None
  else Some "cannot be paid for by either side".
Definition refuse_terminal_call_neither_side_can_pay (buyer_note tc : string) : prog W unit :=
  let! note := attempt (sx_shell buyer_note) in
  match note with
  | Ok (Some note_ecc) =>
      let! deal := attempt (sx_shell tc) in
      match deal with
      | Ok (Some deal_ecc) =>
          match terminal_charge_refusal note_ecc deal_ecc DEAL_BURN_TERMINAL_RAW with
          | Some refusal => throw (Chain refusal)
          | None => ret tt
          end
      | _ => ret tt
      end
  | _ => ret tt
  end.
Definition client_message_hash (prepared : PreparedPost) : outcome ChainError string :=
  ok_or (external_message_hash (pp_boc prepared)) (MoneySubmitPreparation "external message hash").

Definition stream_stop (fuel : nat) (buyer_note : string) (tc : TokenContract)
    : prog W SubmittedBuyerStopReceipt :=
  refuse_terminal_call_neither_side_can_pay buyer_note tc >>!
  reject_prior_settlement_action_before_prepare tc BuyerStop (Some buyer_note) >>!
  let! prepared := lift (sx_prepare buyer_note "streamStop" tc) in
  let! client_message_id := of_outcome (client_message_hash prepared) in
  let! receipt := submit_settlement_action_once fuel tc BuyerStop Expect.BuyerStop (Some buyer_note) prepared in
  ret (mkSubmitted receipt client_message_id).

Definition stop_if_heartbeat (fuel : nat) (buyer_note : string) (tc : TokenContract) (before_post : W -> bool)
    : prog W (option SubmittedBuyerStopReceipt) :=
  reject_prior_settlement_action_before_prepare tc BuyerStop (Some buyer_note) >>!
  let! prepared := lift (sx_prepare buyer_note "streamStop" tc) in
  let! client_message_id := of_outcome (client_message_hash prepared) in
  let! receipt := submit_settlement_action_once_if fuel tc BuyerStop Expect.BuyerStop (Some buyer_note)
                    prepared before_post in
  ret (option_map (fun receipt => mkSubmitted receipt client_message_id) receipt).

Definition stream_dispute (fuel : nat) (buyer_note : string) (tc : TokenContract)
    : prog W SettlementActionReceipt :=
  refuse_terminal_call_neither_side_can_pay buyer_note tc >>!
  reject_prior_settlement_action_before_prepare tc Dispute (Some buyer_note) >>!
  let! prepared := lift (sx_prepare buyer_note "streamDispute" tc) in
  submit_settlement_action_once fuel tc Dispute Expect.StreamDisputed (Some buyer_note) prepared.

Definition seller_stop (fuel : nat) (tc : TokenContract) : prog W SettlementActionReceipt :=
  reject_prior_settlement_action_before_prepare tc SellerStop None >>!
  let! prepared := lift (sx_prepare tc "sellerStop" tc) in
  submit_settlement_action_once fuel tc SellerStop Expect.StreamStopped None prepared.
Definition release_dispute (fuel : nat) (tc : TokenContract) : prog W SettlementActionReceipt :=
  reject_prior_settlement_action_before_prepare tc ReleaseDispute None >>!
  let! prepared := lift (sx_prepare tc "releaseDispute" tc) in
  submit_settlement_action_once fuel tc ReleaseDispute (Expect.DisputeResolved true) None prepared.
Definition resolve_dispute_timeout (fuel : nat) (tc : TokenContract) : prog W SettlementActionReceipt :=
  reject_prior_settlement_action_before_prepare tc ResolveDisputeTimeout None >>!
  let! prepared := lift (sx_prepare tc "resolveDisputeTimeout" tc) in
  submit_settlement_action_once fuel tc ResolveDisputeTimeout (Expect.DisputeResolved false) None prepared.

Definition buyer_terminal_before_stop (buyer_note : string) (tc : TokenContract)
    : prog W (option BuyerStopTerminalReceipt) :=
  let! receipts := read_within "terminal event read exceeded the timeout" (sx_receipts tc) in
  of_outcome (select_prior_buyer_terminal_receipt normalize_addr tc buyer_note receipts).
End Client.
