(* ===== verification/Stop.v ===== *)
(** * Stop: the buyer's STOP and who closed the deal
    (crates/core/src/chain/backends.rs)

    Explicit stops of one deal share a slot of the process: it is free, holds the
    settlement, or latches after a POST that may have landed.  The mutex of a slot is
    held across a stop, so the stops of one deal follow one another.  A receipt is the
    buyer's own only when the message the note sent on is the one that closed the
    deal. *)
From S2P Require Import Prelude Text Params MarketTypes Machine MockDeal MockMarket Backend Offer Receipt Settlement.

(** ** Reading terminal events *)

Definition stopped_split (e : TokenContractSettlementEvent) : option (Z * Z) :=
  match e with StreamStopped _ to_seller refund => Some (to_seller, refund) | _ => None end.
Fixpoint buyer_stop_scan (events : Events) (found : option (Z * Z)) : outcome ChainError (option (Z * Z)) :=
  match events with
  | [] => Ok found
  | receipt :: rest =>
      match stopped_split (ev_event receipt) with
      | None => buyer_stop_scan rest found
      | Some split =>
          match found with
          | Some _ => Err (Chain "TokenContract emitted more than one buyer STOP terminal event")
          | None => buyer_stop_scan rest (Some split)
          end
      end
  end.
Definition exact_buyer_stop_settlement (receipts : Events) : outcome ChainError (option (Z * Z)) :=
  buyer_stop_scan receipts None.

Definition exact_probe_burn_settlement (receipts : Events) : outcome ChainError (option (Z * Z * Z)) :=
  match receipts with
  | [] => Ok None
  | first :: rest =>
      match ev_event first with
      | ProbeBurned _ burned_probe burned_bond refund =>
          match rest with
          | [] => Ok (Some (burned_probe, burned_bond, refund))
          | _ :: _ => Err (Chain "an event after ProbeBurned; this history is contradictory")
          end
      | _ => Ok None
      end
  end.

(** ** Whose STOP it was *)

Definition submitted_buyer_stop_fact (submitted : option (list string)) (terminal : option string)
    : BuyerStopTerminalFact :=
  match submitted, terminal with
  | Some ids, Some id => if bool_decide (id ∈ ids) then SubmittedStop else UnknownCloser
  | _, _ => UnknownCloser
  end.

Section Facts.
Context (normalize_addr : string -> option string).
Definition is_buyer_stop_from (buyer_note : string) (call : TokenContractInboundCall) : bool :=
  bool_decide (ic_function call = "stop") &&
  match normalize_addr (ic_source call) with
  | Some source => eq_ignore_ascii_case (to_text source) (to_text buyer_note)
  | None => false
  end.
Definition submitted_buyer_stop_fact_from_chain_evidence (submitted : option (list string))
    (terminal_call : option TokenContractInboundCall) (buyer_note : string) : BuyerStopTerminalFact :=
  submitted_buyer_stop_fact submitted
    (match terminal_call with
     | Some call => if is_buyer_stop_from buyer_note call then Some (ic_message_id call) else None
     | None => None
     end).
End Facts.

Definition with_fact (r : BuyerStopTerminalReceipt) (fact : BuyerStopTerminalFact) (submitted : bool)
    : BuyerStopTerminalReceipt :=
  mkTerminal (bt_token_contract r) fact submitted (bt_message_id r) (bt_created_at r) (bt_event r)
    (bt_pre_bonds r) (bt_post_state r).
Definition buyer_stop_terminal_from_submitted_receipt (receipt : SettlementActionReceipt)
    (fact : BuyerStopTerminalFact) : Settlement :=
  BuyerStopTerminal (with_fact (unknown_closer receipt) fact true).
(** What a submitted stop answers once its fact is known. *)
Definition submitted_settlement (submitted : SubmittedBuyerStopReceipt) (fact : BuyerStopTerminalFact)
    : Settlement :=
  match fact with
  | SubmittedStop => AuthoritativeReceipt (su_receipt submitted)
  | _ => buyer_stop_terminal_from_submitted_receipt (su_receipt submitted) fact
  end.

Section Chain.
Context (normalize_addr : string -> option string) (external_message_hash : string -> option string).
Context {W : Type} `{SettlementChain W} `{Clock W} `{Timer W}.

Definition observed_buyer_terminal_settlement (buyer_note : string) (tc : TokenContract)
    (stop_submitted : bool) : prog W (option Settlement) :=
  let! receipt := buyer_terminal_before_stop normalize_addr buyer_note tc in
  ret (option_map (fun receipt =>
         BuyerStopTerminal (if stop_submitted then with_fact receipt UnknownCloser true else receipt)) receipt).

(** Both reads of the [join!], one after the other; a failed read proves nothing. *)
Definition submitted_buyer_stop_fact_on_chain (buyer_note : string) (tc : TokenContract)
    (submitted : SubmittedBuyerStopReceipt) : prog W BuyerStopTerminalFact :=
  let! message := attempt (sx_out_messages (su_client_message_id submitted) buyer_note) in
  let! call := attempt (sx_inbound_call tc (sr_message_id (su_receipt submitted))) in
  ret (submitted_buyer_stop_fact_from_chain_evidence normalize_addr
         (match message with Ok ids => ids | _ => None end)
         (match call with Ok call => Some call | _ => None end) buyer_note).

(** [match m.await { Ok(..) => .., Err(..) => .. }] *)
Definition outcome_of {A} (m : prog W A) : prog W (outcome ChainError A) := fun w =>
  match m w with
  | (Some Panic, w') => (Some Panic, w')
  | (Some r, w') => (Some (Ok r), w')
  | (None, w') => (None, w')
  end.

(** The stop of the heartbeat policy, as both backends run it; it takes no slot. *)
Definition backend_stop_if_heartbeat (fuel : nat) (buyer_note : string) (tc : TokenContract)
    (tc_gas : prog W unit) (heartbeat_unchanged : W -> bool) : prog W (option Settlement) :=
  let! prior := observed_buyer_terminal_settlement buyer_note tc false in
  match prior with
  | Some settlement => ret (Some settlement)
  | None =>
      tc_gas >>!
      let! submitted := outcome_of (stop_if_heartbeat normalize_addr external_message_hash fuel buyer_note tc
                                      heartbeat_unchanged) in
      match submitted with
      | Err error =>
          let stop_submitted :=
            match error with AmbiguousSubmit _ | MoneySubmitRejected _ => true | _ => false end in
          let! seen := outcome_of (observed_buyer_terminal_settlement buyer_note tc stop_submitted) in
          match seen with
          | Ok (Some settlement) => ret (Some settlement)
          | _ => throw error
          end
      | Ok None => ret None
      | Ok (Some submitted) =>
          let! fact := submitted_buyer_stop_fact_on_chain buyer_note tc submitted in
          ret (Some (submitted_settlement submitted fact))
      | Panic => panic
      end
  end.

Definition backend_dispute (fuel : nat) (buyer_note : string) (tc : TokenContract) (tc_gas : prog W unit)
    : prog W Settlement :=
  tc_gas >>!
  let! receipt := stream_dispute normalize_addr fuel buyer_note tc in
  ret (AuthoritativeReceipt receipt).
End Chain.

(** ** The slots of the process *)

Inductive ExplicitStopSlotState : Type :=
| Idle
| Pending (submit_error : string)
| Terminal (s : Settlement).

Record Process (W : Type) : Type := mkProcess {
  pr_slots : gmap string ExplicitStopSlotState; pr_world : W }.
Arguments mkProcess {W}. Arguments pr_slots {W}. Arguments pr_world {W}.

Definition slot_key (token_contract : TokenContract) : string :=
  of_text (to_ascii_lowercase (trim (to_text token_contract))).
Definition explicit_stop_slot {W} (tc : TokenContract) (p : Process W) : ExplicitStopSlotState :=
  default Idle (pr_slots p !! slot_key tc).
Definition set_slot {W} (tc : TokenContract) (s : ExplicitStopSlotState) (p : Process W) : Process W :=
  mkProcess (<[slot_key tc := s]> (pr_slots p)) (pr_world p).
Definition in_world {W A} (m : prog W A) : prog (Process W) A := fun p =>
  let '(r, w) := m (pr_world p) in (r, mkProcess (pr_slots p) w).

Definition pending_explicit_stop_error (submit_error : string) : ChainError :=
  AmbiguousSubmit (submit_error ++ "; exactly one explicit STOP POST was attempted; every later caller remains latched")%string.

Section ExplicitStop.
Context (normalize_addr : string -> option string) (external_message_hash : string -> option string).
Context {W : Type} `{SettlementChain W} `{Clock W} `{Timer W}.

(** [*slot = Terminal(settlement.clone()); return Ok(settlement)] *)
Definition settle_slot (tc : TokenContract) (settlement : Settlement) : prog (Process W) Settlement :=
  run (set_slot tc (Terminal settlement)) >>! ret settlement.
(** The terminal read after a failed stop: [None] when it shows nothing or fails. *)
Definition terminal_after (buyer_note : string) (tc : TokenContract) (stop_submitted : bool)
    : prog (Process W) (option Settlement) :=
  let! seen := in_world (outcome_of (observed_buyer_terminal_settlement normalize_addr buyer_note tc stop_submitted)) in
  ret (match seen with Ok (Some settlement) => Some settlement | _ => None end).

Definition after_stop (buyer_note : string) (tc : TokenContract)
    (submitted : outcome ChainError SubmittedBuyerStopReceipt) : prog (Process W) Settlement :=
  match submitted with
  | Ok submitted =>
      let! fact := in_world (submitted_buyer_stop_fact_on_chain normalize_addr buyer_note tc submitted) in
      settle_slot tc (submitted_settlement submitted fact)
  | Err (AmbiguousSubmit error) =>
      let! seen := terminal_after buyer_note tc true in
      match seen with
      | Some settlement => settle_slot tc settlement
      | None => run (set_slot tc (Pending error)) >>! throw (pending_explicit_stop_error error)
      end
  | Err error =>
      let stop_submitted := match error with MoneySubmitRejected _ => true | _ => false end in
      let! seen := terminal_after buyer_note tc stop_submitted in
      match seen with
      | Some settlement => settle_slot tc settlement
      | None => throw error
      end
  | Panic => panic
  end.

Definition explicit_buyer_stop_with (fuel : nat) (buyer_note : string) (tc : TokenContract)
    (before_submit : prog W unit) : prog (Process W) Settlement :=
  let! slot := get (fun p => (explicit_stop_slot tc p, p)) in
  match slot with
  | Terminal settlement => ret settlement
  | Pending submit_error => throw (pending_explicit_stop_error submit_error)
  | Idle =>
      let! seen := in_world (observed_buyer_terminal_settlement normalize_addr buyer_note tc false) in
      match seen with
      | Some settlement => settle_slot tc settlement
      | None =>
          in_world before_submit >>!
          let! submitted := in_world (outcome_of (stream_stop normalize_addr external_message_hash fuel buyer_note tc)) in
          after_stop buyer_note tc submitted
      end
  end.
Definition explicit_buyer_stop (fuel : nat) (buyer_note : string) (tc : TokenContract)
    : prog (Process W) Settlement :=
  explicit_buyer_stop_with fuel buyer_note tc (ret tt).
End ExplicitStop.
