(* ===== verification/SettlementSafety.v ===== *)
(** * SettlementSafety: what a settlement action proves before it answers

    The client runs on an arbitrary network, clock and timer whose calls are traced.
    One action posts at most one message; a receipt stands on a log that grew by
    exactly one action, of the kind the action had to emit and naming the deal's own
    buyer; and once the message is out every failure is ambiguous, unless the answer
    of the POST itself proves it did not land. *)
From S2P Require Import Prelude Text Params MarketTypes Machine MockDeal MockMarket.
From S2P Require Import Backend Offer Receipt Trace Settlement.

Inductive Call : Type :=
| CReceipts (tc : TokenContract) (r : outcome ChainError Events)
| CSnapshot (tc : TokenContract) (r : outcome ChainError (option DealChainSnapshot))
| CBuyer (tc : TokenContract) (r : outcome ChainError (option string))
| COut (client_message_id note : string) (r : outcome ChainError (option (list string)))
| CInbound (tc : TokenContract) (message_id : string) (r : outcome ChainError TokenContractInboundCall)
| CPost (tc : TokenContract) (action : SettlementAction) (prepared : PreparedPost) (r : outcome ChainError unit).

#[export] Instance traced_chain {W} `{SettlementChain W} : SettlementChain (traced W Call) := {|
  sx_receipts tc := entered (CReceipts tc) (sx_receipts tc);
  sx_snapshot tc := entered (CSnapshot tc) (sx_snapshot tc);
  sx_buyer_note tc := entered (CBuyer tc) (sx_buyer_note tc);
  sx_shell a := silent (sx_shell a);
  sx_prepare from call tc := silent (sx_prepare from call tc);
  sx_post tc action prepared := entered (CPost tc action prepared) (sx_post tc action prepared);
  sx_out_messages id note := entered (COut id note) (sx_out_messages id note);
  sx_inbound_call tc id := entered (CInbound tc id) (sx_inbound_call tc id) |}.

(** ** What is read off a trace and a log *)

Definition is_post (c : Call) : bool := match c with CPost _ _ _ _ => true | _ => false end.
Definition posts (t : list Call) : list Call := List.filter is_post t.

(** An action as its event reports it. *)
Definition reported (e : TokenContractSettlementEvent) : option SettlementActionEvent :=
  match e with
  | ProbeBurned buyer probe bond refund => Some (MarketTypes.ProbeBurned buyer probe bond refund)
  | StreamStopped buyer paid refund => Some (MarketTypes.StreamStopped buyer paid refund)
  | StreamDisputed buyer at_ => Some (MarketTypes.StreamDisputed buyer at_)
  | DisputeResolved paid refund released => Some (MarketTypes.DisputeResolved paid refund released)
  | _ => None
  end.
(** The event an action has to emit on a deal in that state. *)
Definition emits (action : SettlementAction) (pre : DealChainState) (e : TokenContractSettlementEvent) : Prop :=
  match action, e with
  | BuyerStop, ProbeBurned _ _ _ _ => ds_on_probe pre = true
  | BuyerStop, StreamStopped _ _ _ => ds_on_probe pre = false
  | SellerStop, StreamStopped _ _ _ => True
  | Dispute, StreamDisputed _ _ => True
  | ReleaseDispute, DisputeResolved _ _ released => released = true
  | ResolveDisputeTimeout, DisputeResolved _ _ released => released = false
  | _, _ => False
  end.
Definition expectation (action : SettlementAction) : Expect.ExpectedSettlementEvent :=
  match action with
  | BuyerStop => Expect.BuyerStop
  | SellerStop => Expect.StreamStopped
  | Dispute => Expect.StreamDisputed
  | ReleaseDispute => Expect.DisputeResolved true
  | ResolveDisputeTimeout => Expect.DisputeResolved false
  end.
(** The log an action may be posted over: none before it, or one open dispute. *)
Definition open_history (action : SettlementAction) (before : Events) : Prop :=
  if is_resolving action
  then exists d, actions_of before = [d] /\ is_dispute d = true
  else actions_of before = [].
Definition paid_by (e : TokenContractSettlementEvent) : option Z :=
  match e with StreamStopped _ paid _ | DisputeResolved paid _ _ => Some paid | _ => None end.
(** The getters after an event: a dispute changes only the dispute, anything else has
    ended the deal, released both bonds and paid the seller what was final. *)
Definition settled_by (pre : DealChainSnapshot) (e : TokenContractSettlementEvent) (post : DealChainSnapshot) : Prop :=
  match e with
  | StreamDisputed _ at_ =>
      sn_state post = dispute_of (sn_state pre) at_ /\
      sn_subscription post = sn_subscription pre /\
      sn_seller_bond post = sn_seller_bond pre /\ sn_buyer_bond post = sn_buyer_bond pre
  | _ =>
      is_stopped (sn_state post) = true /\
      sb_bond_held (sn_seller_bond post) = 0 /\ bb_bond_held (sn_buyer_bond post) = 0 /\
      forall paid, paid_by e = Some paid -> paid = ds_finalized_owed (sn_state post)
  end.

(** ** The pure checks *)
Section Pure.
Context (normalize_addr : string -> option string).

Lemma actions_split (events : Events) r : r ∈ actions_of events ->
  is_stop r = true \/ is_dispute r = true \/ is_resolution r = true.
Proof.
  unfold actions_of. intros H%list_elem_of_In%filter_In. destruct H as [_ H].
  unfold is_action, is_stop, is_dispute, is_resolution in *. destruct (ev_event r); simpl in *; auto;
    try (apply bool_decide_eq_true in H; by destruct H).
Qed.

Lemma reject_prior_accepts action actor before :
  reject_prior_settlement_action normalize_addr action actor before = Ok tt -> open_history action before.
Proof.
  unfold reject_prior_settlement_action, open_history.
  pose proof (actions_split before) as Hs. set (acts := actions_of before) in *. clearbody acts.
  destruct (is_resolving action) eqn:Er; simpl.
  - destruct ((length acts =? 1)%nat && _ && _ && _) eqn:Ec; simpl.
    + rewrite !andb_true_iff in Ec. destruct Ec as [[[E1 E2] E3] E4]. intros _.
      destruct acts as [|d [|]]; try done. exists d. split; [done|].
      simpl in E2. by destruct (is_dispute d).
    + destruct (_ && _ && _ && _ && _) eqn:Ec2; simpl; [|done].
      rewrite !andb_true_iff in Ec2. destruct Ec2 as [[[[E1 E2] E3] E4] E5].
      destruct (_ || _ || _ || _); [done|]. destruct (exact_prior _ _ _ _).
      * match goal with |- context [match ?x with Ok _ => _ | Err _ => _ | Panic => _ end] => by destruct x end.
      * destruct (bool_decide (List.filter is_resolution acts = [])) eqn:Eb;
          [apply bool_decide_eq_true in Eb; rewrite Eb in E3; done|].
        simpl. destruct acts as [|a [|b [|]]]; try done.
  - destruct (_ || _ || _ || _) eqn:Ea; [done|]. destruct (exact_prior _ _ _ _).
    + match goal with |- context [match ?x with Ok _ => _ | Err _ => _ | Panic => _ end] => by destruct x end.
    + destruct (last acts) eqn:El; [done|]. intros _. by apply last_None in El.
Qed.

Lemma reject_prior_admits action actor before :
  open_history action before -> reject_prior_settlement_action normalize_addr action actor before = Ok tt.
Proof.
  unfold reject_prior_settlement_action, open_history. destruct (is_resolving action) eqn:Er; simpl.
  - intros (d & -> & Hd). simpl. unfold is_resolution, is_stop, is_dispute in *.
    destruct (ev_event d) eqn:Ee; try done. simpl.
    by destruct action.
  - intros ->. simpl. by destruct action.
Qed.

Lemma preserve_buyer_ok expected observed x :
  preserve_buyer normalize_addr expected observed = Ok x ->
  x = observed /\ exists b, expected = Some b /\ normalize_addr b = normalize_addr observed /\
                            is_Some (normalize_addr b).
Proof.
  unfold preserve_buyer, normalized, ok_or. intros H. destruct expected as [b|]; [|done].
  destruct (normalize_addr observed) as [o|] eqn:Eo; [|done].
  destruct (normalize_addr b) as [e|] eqn:Eb; [|done].
  destruct (bool_decide (o = e)) eqn:E; simpl in H; [|done]. apply bool_decide_eq_true in E. simplify_eq.
  split; [done|]. exists b. by rewrite Eb.
Qed.

Lemma expected_event_ok action pre buyer e x :
  expected_event normalize_addr (resolve (expectation action) pre) buyer e = Ok x ->
  reported e = Some x /\ emits action pre e /\
  forall b, action_buyer e = Some b ->
    exists recorded, buyer = Some recorded /\ normalize_addr recorded = normalize_addr b /\
                     is_Some (normalize_addr recorded).
Proof.
  destruct action; simpl; try (destruct (ds_on_probe pre) eqn:Ep); destruct e; simpl; intros H; try done;
    try (destruct released; simplify_eq/=; split_and!; naive_solver);
    (ok_step H; match goal with E : preserve_buyer _ _ _ = Ok _ |- _ => apply preserve_buyer_ok in E as (-> & Hb) end;
     simplify_eq/=; split_and!; [done|done|naive_solver]).
Qed.

Lemma select_new_ok tc action pre buyer observed bonds r :
  select_new_settlement_action_receipt normalize_addr tc action (resolve (expectation action) pre) buyer
    observed bonds = Ok (Some r) ->
  exists ev, actions_of observed = [ev] /\ sr_token_contract r = tc /\ sr_action r = action /\
    sr_message_id r = ev_message_id ev /\ sr_created_at r = ev_created_at ev /\ sr_pre_bonds r = bonds /\
    reported (ev_event ev) = Some (sr_event r) /\ emits action pre (ev_event ev) /\
    forall b, action_buyer (ev_event ev) = Some b ->
      exists recorded, buyer = Some recorded /\ normalize_addr recorded = normalize_addr b /\
                       is_Some (normalize_addr recorded).
Proof.
  unfold select_new_settlement_action_receipt. destruct (actions_of observed) as [|ev [|]] eqn:Ea; try done.
  intros H. ok_step H. simplify_eq/=. eexists. split; [done|].
  match goal with E : expected_event _ _ _ _ = Ok _ |- _ => apply expected_event_ok in E as (? & ? & ?) end.
  done.
Qed.

Lemma after_snapshot_ok before current new :
  settlement_receipts_after_snapshot before current = Ok new -> current = before ++ new.
Proof.
  unfold settlement_receipts_after_snapshot. intros H. ok_step H. ok_step H. simplify_eq.
  match goal with E : negb (bool_decide _) = false |- _ =>
    apply negb_false_iff, bool_decide_eq_true in E; rewrite <- E at 1 end.
  by rewrite take_drop.
Qed.

Lemma post_state_ok pre post e x :
  settlement_action_post_state pre post e = Ok x ->
  settled_by pre e post /\ validate_settlement_facts post = Ok tt.
Proof.
  unfold settlement_action_post_state. intros H. do 6 ok_step H. split; [|by repeat match goal with u : unit |- _ => destruct u end].
  unfold settled_by, event_matches_getters, is_disputed_event in *.
  destruct e; simpl in *; repeat match goal with
    | E : negb _ = false |- _ => apply negb_false_iff in E
    | E : _ || _ = false |- _ => apply orb_false_iff in E as [? ?]
    | E : bool_decide _ = true |- _ => apply bool_decide_eq_true in E
    | E : (_ =? _) = true |- _ => apply Z.eqb_eq in E
    | E : (if ?b then _ else _) = Ok _ |- _ => destruct b eqn:?; [done|]
    end; split_and!; try done; intros ? [= <-]; done.
Qed.
Lemma attach_ok r pre e post r' :
  attach_settlement_post_snapshot r pre e post = Ok r' ->
  exists facts, r' = with_post_state r facts /\
    match post with
    | Some post => settled_by pre e post /\ validate_settlement_facts post = Ok tt
    | None => is_disputed_event e = false /\ facts = None
    end.
Proof.
  unfold attach_settlement_post_snapshot. destruct post as [post|]; intros H; ok_step H; simplify_eq/=.
  - eexists. split; [done|]. by eapply post_state_ok.
  - by eexists.
Qed.
End Pure.

(** ** What one action leaves on the trace *)

(** A read of the log that showed no new action. *)
Definition polled (tc : TokenContract) (before : Events) (c : Call) : Prop :=
  exists new, c = CReceipts tc (Ok (before ++ new)) /\ actions_of new = [].
(** The failure of an action whose message went out with that answer. *)
Definition ambiguous_or_refused (s : stopped) (answer : outcome ChainError unit) : Prop :=
  match s with
  | Threw e => (exists m, e = AmbiguousSubmit m) \/ (answer = Err e /\ proves_no_post e = true)
  | _ => True
  end.
Definition posted_nothing (t0 t : list Call) : Prop := posts t = posts t0.
Definition posted_once (tc : TokenContract) (action : SettlementAction) (answer : outcome ChainError unit)
    (t0 t : list Call) : Prop :=
  exists prepared, posts t = CPost tc action prepared answer :: posts t0.

(** The receipt rests on the newest calls: the log grew, after reads that showed
    nothing new, by exactly one action; the snapshot read after it agrees. *)
Definition confirmed (normalize_addr : string -> option string) (tc : TokenContract) (action : SettlementAction)
    (buyer : option string) (before : Events) (pre : DealChainSnapshot) (r : SettlementActionReceipt)
    (base t : list Call) : Prop :=
  exists new ev post polls,
    t = CSnapshot tc (Ok post) :: CReceipts tc (Ok (before ++ new)) :: polls ++ base /\
    Forall (polled tc before) polls /\
    actions_of new = [ev] /\
    sr_token_contract r = tc /\ sr_action r = action /\
    sr_message_id r = ev_message_id ev /\ sr_created_at r = ev_created_at ev /\
    sr_pre_bonds r = settlement_bond_state pre /\
    reported (ev_event ev) = Some (sr_event r) /\ emits action (sn_state pre) (ev_event ev) /\
    (forall b, action_buyer (ev_event ev) = Some b ->
       exists recorded, buyer = Some recorded /\ normalize_addr recorded = normalize_addr b /\
                        is_Some (normalize_addr recorded)) /\
    (NoDup (map ev_message_id new) ->
       match post with
       | Some post => settled_by pre (ev_event ev) post
       | None => is_disputed_event (ev_event ev) = false
       end).

Create HintDb traces.
Lemma posts_app a b : posts (a ++ b) = posts a ++ posts b.
Proof. apply List.filter_app. Qed.
Lemma posts_polls tc before polls : Forall (polled tc before) polls -> posts polls = [].
Proof. induction 1 as [|c polls (new & -> & _)]; done. Qed.
#[export] Hint Resolve posts_polls : traces.

(** The event found by the id of the action is the action, when ids are distinct. *)
Lemma find_action new ev found :
  NoDup (map ev_message_id new) -> actions_of new = [ev] ->
  List.find (fun e => bool_decide (ev_message_id e = ev_message_id ev)) new = Some found -> found = ev.
Proof.
  intros Hnd Ha [Hin Hid]%List.find_some. apply bool_decide_eq_true in Hid.
  assert (Hev : List.In ev new).
  { assert (List.In ev (actions_of new)) as H by (rewrite Ha; by left). by apply filter_In in H as [? _]. }
  apply list_elem_of_In in Hin, Hev. apply list_elem_of_lookup in Hin as [i Hi]. apply list_elem_of_lookup in Hev as [j Hj].
  assert (i = j) as ->; [|by simplify_eq].
  eapply NoDup_lookup; [exact Hnd| |].
  - change (map ?f ?l) with (f <$> l). rewrite list_lookup_fmap, Hi. simpl. reflexivity.
  - change (map ?f ?l) with (f <$> l). rewrite list_lookup_fmap, Hj. simpl. by rewrite Hid.
Qed.

Section Action.
Context (normalize_addr : string -> option string) (external_message_hash : string -> option string).
Context {W : Type} `{SettlementChain W} `{Clock W} `{Timer W}.
Abbreviation world := (traced W Call).

Lemma read_within_traces {A} (P : list Call -> Prop) msg e (f : W -> outcome ChainError A * W)
    (R : stopped -> list Call -> Prop) :
  (forall s r t, P t -> R s (e r :: t)) ->
  traces P (read_within msg (entered e f)) (fun a t => exists t', t = e (Ok a) :: t' /\ P t') R.
Proof.
  intros HR. unfold read_within, timeout.
  eapply traces_bind; [apply (traces_timed P e f (fun x t => exists r t', t = e r :: t' /\ P t' /\
                         match x with Done y => y = r | Elapsed => True end) R)|].
  - intros [a|x|] t Ht; try (split; do 2 eexists; split_and!; eauto). by apply HR.
  - intros [|r]; [|destruct r as [a|x|]].
    + apply traces_throw. intros t (r & t' & -> & Ht & _). by apply HR.
    + intros w (r & t' & Ew & Ht & <-). simpl. eauto.
    + intros w (r & t' & Ew & Ht & <-). simpl. rewrite Ew. by apply HR.
    + intros w (r & t' & Ew & Ht & <-). simpl. rewrite Ew. by apply HR.
Qed.

Lemma post_once_traces tc action prepared t0 :
  traces (eq t0) (post_once (W:=world) tc action prepared)
    (fun _ t => exists answer, t = CPost tc action prepared answer :: t0)
    (fun s t => exists answer, t = CPost tc action prepared answer :: t0 /\ ambiguous_or_refused s answer).
Proof.
  unfold post_once, timeout.
  eapply traces_bind; [apply (traces_timed _ (CPost tc action prepared) _ (fun x t => exists r,
     t = CPost tc action prepared r :: t0 /\ match x with Done y => y = r | Elapsed => True end)
     (fun s t => exists answer, t = CPost tc action prepared answer :: t0 /\ ambiguous_or_refused s answer))|].
  - intros [a|x|] t <-; [by split; eexists..|]. by exists Panic.
  - intros [|[u|e|]].
    + apply traces_ret. intros t (r & -> & _). by eexists.
    + apply traces_ret. intros t (r & -> & _). by eexists.
    + destruct (proves_no_post e) eqn:Ep.
      * apply traces_throw. intros t (r & -> & <-). eexists. split; [done|]. by right.
      * apply traces_ret. intros t (r & -> & _). by eexists.
    + apply traces_panic. intros t (r & -> & _). by eexists.
Qed.

(** Once the message is out, a failure names itself ambiguous. *)
Definition unproven (tc : TokenContract) (before : Events) (base : list Call) (s : stopped) (t : list Call) : Prop :=
  (exists more, t = more ++ base /\ posts more = []) /\
  match s with Threw e => exists m, e = AmbiguousSubmit m | _ => True end.
Definition still_open (tc : TokenContract) (before : Events) (base t : list Call) : Prop :=
  exists polls, t = polls ++ base /\ Forall (polled tc before) polls.

Lemma unproven_after tc before base c s t :
  is_post c = false -> match s with Threw e => exists m, e = AmbiguousSubmit m | _ => True end ->
  still_open tc before base t -> unproven tc before base s (c :: t).
Proof.
  intros Hc Hs (polls & -> & Hp). split; [|done]. exists (c :: polls). split; [done|].
  unfold posts. simpl. rewrite Hc. by apply (posts_polls tc before).
Qed.
Lemma unproven_now tc before base s t :
  match s with Threw e => exists m, e = AmbiguousSubmit m | _ => True end ->
  still_open tc before base t -> unproven tc before base s t.
Proof. intros Hs (polls & -> & Hp). split; [|done]. exists polls. split; [done|]. by apply (posts_polls tc before). Qed.
Lemma as_ambiguous_ok {A} msg (r : outcome ChainError A) :
  match as_ambiguous msg r with Ok a => r = Ok a | Err e => exists m, e = AmbiguousSubmit m | Panic => r = Panic end.
Proof. destruct r; simpl; eauto. Qed.

Lemma confirm_post_traces tc action buyer before pre started new receipt base ev :
  actions_of new = [ev] -> sr_message_id receipt = ev_message_id ev ->
  (forall facts t post polls,
     Forall (polled tc before) polls ->
     t = CSnapshot tc (Ok post) :: CReceipts tc (Ok (before ++ new)) :: polls ++ base ->
     (NoDup (map ev_message_id new) ->
       match post with Some post => settled_by pre (ev_event ev) post
                     | None => is_disputed_event (ev_event ev) = false end) ->
     confirmed normalize_addr tc action buyer before pre (with_post_state receipt facts) base t) ->
  traces (fun t => exists polls, t = CReceipts tc (Ok (before ++ new)) :: polls ++ base /\ Forall (polled tc before) polls)
    (confirm_post (W:=world) tc started pre new receipt)
    (fun r t => confirmed normalize_addr tc action buyer before pre r base t)
    (unproven tc before base).
Proof.
  intros Ha Hid Hq. unfold confirm_post. rewrite Hid.
  destruct (List.find _ new) as [found|] eqn:Ef.
  2:{ apply traces_panic. intros t (polls & -> & Hp). apply unproven_after; [done|done|by exists polls]. }
  eapply traces_bind; [apply traces_look|]. intros [d|]; cbn beta iota.
  2:{ apply traces_throw. intros t (polls & -> & Hp). apply unproven_after; [done|by eexists|by exists polls]. }
  assert (Hun : forall c s polls, is_post c = false -> Forall (polled tc before) polls ->
            match s with Threw e => exists m, e = AmbiguousSubmit m | _ => True end ->
            unproven tc before base s (c :: CReceipts tc (Ok (before ++ new)) :: polls ++ base)).
  { intros c s polls Hc Hp Hs. split; [|done]. exists (c :: CReceipts tc (Ok (before ++ new)) :: polls).
    split; [done|]. unfold posts. simpl. rewrite Hc. simpl. by apply (posts_polls tc before). }
  eapply traces_bind; [unfold timeout; apply (traces_timed _ (CSnapshot tc) _ (fun x t => exists r polls,
     t = CSnapshot tc r :: CReceipts tc (Ok (before ++ new)) :: polls ++ base /\ Forall (polled tc before) polls /\
     match x with Done y => y = r | Elapsed => True end))|].
  - intros [a|x|] t (polls & -> & Hp); [by split; do 2 eexists..|]. by apply Hun.
  - intros [|[post|e|]].
    + apply traces_throw. intros t (r & polls & -> & Hp & _). apply Hun; [done|done|by eexists].
    + eapply traces_conseq; [apply (traces_outcome _ _ (unproven tc before base))|intros t Ht; exact Ht| |done].
      * intros t (r & polls & -> & Hp & <-). pose proof (as_ambiguous_ok "post-submit event/getter facts contradicted"
          (attach_settlement_post_snapshot receipt pre (ev_event found) post)) as Hm.
        destruct (as_ambiguous _ _); [done|by apply Hun|by apply Hun].
      * intros r t [Hr (r0 & polls & -> & Hp & <-)].
        pose proof (as_ambiguous_ok "post-submit event/getter facts contradicted"
          (attach_settlement_post_snapshot receipt pre (ev_event found) post)) as Hm. rewrite Hr in Hm.
        apply attach_ok in Hm as (facts & -> & Hf).
        eapply Hq; [exact Hp|done|]. intros Hnd.
        rewrite (find_action new ev found Hnd Ha Ef) in Hf. by destruct post; destruct Hf.
    + apply traces_throw. intros t (r & polls & -> & Hp & _). apply Hun; [done|done|by eexists].
    + apply traces_panic. intros t (r & polls & -> & Hp & _). by apply Hun.
Qed.

Lemma confirm_loop_traces fuel tc action buyer before pre started base :
  traces (still_open tc before base)
    (confirm_loop normalize_addr (W:=world) fuel tc action (resolve (expectation action) (sn_state pre)) buyer
       before pre started)
    (fun r t => confirmed normalize_addr tc action buyer before pre r base t)
    (unproven tc before base).
Proof.
  induction fuel as [|fuel IH]; cbn [confirm_loop].
  { apply traces_fuel. intros t Ht. by apply unproven_now. }
  eapply traces_bind; [apply traces_look|]. intros [d|]; cbn beta iota.
  2:{ apply traces_throw. intros t Ht. apply unproven_now; [by eexists|done]. }
  eapply traces_bind; [unfold timeout; apply (traces_timed _ (CReceipts tc) _ (fun x t => exists r t',
     t = CReceipts tc r :: t' /\ still_open tc before base t' /\
     match x with Done y => y = r | Elapsed => True end))|].
  { intros [a|x|] t Ht; [by split; do 2 eexists..|]. by apply unproven_after. }
  intros [|[current|e|]].
  - apply traces_throw. intros t (r & t' & -> & Ht & _). apply unproven_after; [done|by eexists|done].
  - eapply traces_bind; [apply (traces_outcome _ _ (unproven tc before base))|].
    { intros t (r & t' & -> & Ht & <-). pose proof (as_ambiguous_ok
        "post-submit event snapshot contradicted its baseline" (settlement_receipts_after_snapshot before current)) as Hm.
      destruct (as_ambiguous _ _); [done|by apply unproven_after|by apply unproven_after]. }
    intros observed. eapply traces_bind; [apply (traces_outcome _ _ (unproven tc before base))|].
    { intros t (_ & r & t' & -> & Ht & <-).
      match goal with |- context [as_ambiguous ?m ?x] => pose proof (as_ambiguous_ok m x) as Hm end.
      destruct (as_ambiguous _ _); [done|by apply unproven_after|by apply unproven_after]. }
    intros selected. intros w (Hsel & Hobs & r & t' & Ew & Ht & <-). revert w Ew.
    assert (Hcur : current = before ++ observed).
    { pose proof (as_ambiguous_ok "post-submit event snapshot contradicted its baseline"
        (settlement_receipts_after_snapshot before current)) as Hm. rewrite Hobs in Hm. by apply after_snapshot_ok. }
    subst current.
    match type of Hsel with as_ambiguous ?m ?x = _ => pose proof (as_ambiguous_ok m x) as Hm end.
    rewrite Hsel in Hm. clear Hsel Hobs.
    destruct selected as [receipt|].
    + apply select_new_ok in Hm as (ev & Ha & Htc & Hact & Hid & Hat & Hpre & Hrep & Hem & Hb).
      intros w Ew. destruct Ht as (polls & -> & Hp).
      refine (confirm_post_traces tc action buyer before pre started observed receipt base ev Ha Hid _ w _); [|eauto].
      intros facts t post polls' Hp' -> Hpost. exists observed, ev, post, polls'.
      split_and!; done.
    + assert (Hnone : actions_of observed = []).
      { unfold select_new_settlement_action_receipt in Hm. destruct (actions_of observed) as [|? [|]]; try done.
        by ok_step Hm. }
      lazymatch goal with |- forall w, _ -> let (_, _) := ?m w in _ =>
        change (traces (fun t => t = CReceipts tc (Ok (before ++ observed)) :: t') m
                  (fun r t => confirmed normalize_addr tc action buyer before pre r base t)
                  (unproven tc before base)) end.
      eapply traces_bind; [apply traces_look|]. intros [delay|]; cbn beta iota.
      2:{ apply traces_throw. intros t ->. apply unproven_after; [done|by eexists|done]. }
      eapply traces_bind; [apply traces_sleep|]. intros ?; cbn beta.
      eapply traces_conseq; [exact IH| |done|done].
      intros t ->. destruct Ht as (polls & -> & Hp).
      exists (CReceipts tc (Ok (before ++ observed)) :: polls). split; [done|]. constructor; [|done]. by exists observed.
  - apply traces_throw. intros t (r & t' & -> & Ht & _). apply unproven_after; [done|by eexists|done].
  - apply traces_panic. intros t (r & t' & -> & Ht & _). by apply unproven_after.
Qed.

(** What was read before the message went out: the log and the snapshot the action is
    allowed over, and the buyer the deal records, who is the one acting. *)
Definition preflight (tc : TokenContract) (action : SettlementAction) (actor : option string)
    (before : Events) (pre : DealChainSnapshot) (buyer : option string) (t0 t : list Call) : Prop :=
  open_history action before /\ validate_settlement_facts pre = Ok tt /\
  (action = BuyerStop -> ds_opened (sn_state pre) = true /\ ds_disputed (sn_state pre) = false) /\
  if names_its_buyer action
  then exists recorded, buyer = Some recorded /\
       t = CBuyer tc (Ok (Some recorded)) :: CSnapshot tc (Ok (Some pre)) :: CReceipts tc (Ok before) :: t0 /\
       forall a, actor = Some a -> normalize_addr a = normalize_addr recorded
  else buyer = None /\ t = CSnapshot tc (Ok (Some pre)) :: CReceipts tc (Ok before) :: t0.
(** A receipt of one action: one message, over a preflight, and its confirmation. *)
Definition proved (tc : TokenContract) (action : SettlementAction) (actor : option string)
    (prepared : PreparedPost) (r : SettlementActionReceipt) (t0 t : list Call) : Prop :=
  exists before pre buyer answer reads,
    preflight tc action actor before pre buyer t0 reads /\
    confirmed normalize_addr tc action buyer before pre r (CPost tc action prepared answer :: reads) t.
Definition posted_at_most_once (tc : TokenContract) (action : SettlementAction) (t0 : list Call)
    (s : stopped) (t : list Call) : Prop :=
  posted_nothing t0 t \/ exists answer, posted_once tc action answer t0 t /\ ambiguous_or_refused s answer.

Lemma preflight_posts tc action actor before pre buyer t0 t :
  preflight tc action actor before pre buyer t0 t -> posted_nothing t0 t.
Proof. intros (_ & _ & _ & H'). destruct (names_its_buyer action); [destruct H' as (? & _ & -> & _)|destruct H' as [_ ->]]; done. Qed.

Lemma recorded_buyer_traces tc actor (P : list Call -> Prop) (R : stopped -> list Call -> Prop) :
  (forall s r t, P t -> R s (CBuyer tc r :: t)) ->
  traces P (recorded_buyer normalize_addr (W:=world) tc actor)
    (fun recorded t => exists t', t = CBuyer tc (Ok (Some recorded)) :: t' /\ P t' /\
                       forall a, actor = Some a -> normalize_addr a = normalize_addr recorded) R.
Proof.
  intros HR. unfold recorded_buyer. eapply traces_bind; [apply read_within_traces; exact HR|].
  intros [recorded|] w (t' & Ew & Ht); [|simpl; rewrite Ew; by apply HR].
  assert (Hout : forall e : stopped, R e (snd w)) by (intros e; rewrite Ew; by apply HR).
  unfold normalized, bind, of_outcome. simpl. destruct actor as [a|]; [|simpl; by eexists].
  destruct (normalize_addr recorded) as [x|] eqn:Ex; simpl; [|apply Hout].
  destruct (normalize_addr a) as [y|] eqn:Ey; simpl; [|apply Hout].
  case_bool_decide as E; simpl; [|apply Hout].
  subst. eexists. split_and!; [done|done|]. intros ? [= <-]. by rewrite Ex, Ey.
Qed.

Lemma buyer_stop_pre_state_ok pre before :
  validate_buyer_stop_pre_state normalize_addr pre before = Ok tt ->
  exists s, pre = Some s /\ ds_opened (sn_state s) = true /\ ds_disputed (sn_state s) = false.
Proof.
  unfold validate_buyer_stop_pre_state. intros H'. ok_step H'. destruct pre as [s|]; [|done].
  exists s. destruct (ds_opened _), (ds_disputed _); done.
Qed.

Lemma preflight_traces {A} tc action actor t0 (k : Events -> DealChainSnapshot -> option string -> prog world A) Q R :
  (forall s t, posted_nothing t0 t -> R s t) ->
  (forall before pre buyer, traces (preflight tc action actor before pre buyer t0) (k before pre buyer) Q R) ->
  traces (eq t0)
    (let! before := read_within "pre-submit event snapshot exceeded the timeout" (sx_receipts tc) in
     of_outcome (reject_prior_settlement_action normalize_addr action actor before) >>!
     let! pre := read_within "pre-submit coherent snapshot exceeded the timeout" (sx_snapshot tc) in
     of_outcome (match action with
                 | BuyerStop => validate_buyer_stop_pre_state normalize_addr pre before
                 | _ => Ok tt
                 end) >>!
     let! pre := of_outcome (ok_or pre (Chain "inactive before the settlement action POST")) in
     of_outcome (validate_settlement_facts pre) >>!
     let! buyer :=
       (if names_its_buyer action
        then let! recorded := recorded_buyer normalize_addr tc actor in ret (Some recorded)
        else ret None) in
     k before pre buyer) Q R.
Proof.
  intros HR Hk.
  eapply traces_bind; [apply read_within_traces; intros s r t <-; by apply HR|]. intros before. cbn beta.
  eapply traces_bind; [apply (traces_outcome _ _ R)|].
  { intros t (t' & -> & <-). destruct (reject_prior_settlement_action _ _ _ _); [done|by apply HR|by apply HR]. }
  intros []. apply traces_pure. intros Hprior%reject_prior_accepts.
  eapply traces_bind; [apply read_within_traces; intros s r t (t' & -> & <-); by apply HR|]. intros pre. cbn beta.
  eapply traces_bind; [apply (traces_outcome _ _ R)|].
  { intros t (t' & -> & ? & -> & <-). destruct (match action with BuyerStop => _ | _ => _ end); [done|by apply HR|by apply HR]. }
  intros []. apply traces_pure. intros Hstop.
  eapply traces_bind; [apply (traces_outcome _ _ R)|].
  { intros t (t' & -> & ? & -> & <-). destruct pre; [done|by apply HR]. }
  intros s. apply traces_pure. intros ->%ok_or_ok.
  eapply traces_bind; [apply (traces_outcome _ _ R)|].
  { intros t (t' & -> & ? & -> & <-). destruct (validate_settlement_facts s); [done|by apply HR|by apply HR]. }
  intros []. apply traces_pure. intros Hfacts.
  assert (Hopen : action = BuyerStop -> ds_opened (sn_state s) = true /\ ds_disputed (sn_state s) = false).
  { intros ->. by apply buyer_stop_pre_state_ok in Hstop as (? & [= <-] & ?). }
  eapply (traces_bind _ _ _ (fun buyer => preflight tc action actor before s buyer t0)); [|intros buyer; apply Hk].
  unfold preflight. destruct (names_its_buyer action).
  - eapply traces_bind; [apply (recorded_buyer_traces _ _ _ R)|].
    + intros s' r t (t' & -> & ? & -> & <-). by apply HR.
    + intros recorded. apply traces_ret. intros t (t' & -> & (t1 & -> & t2 & -> & <-) & Ha). split_and!; try done. by eexists.
  - apply traces_ret. intros t (t' & -> & t2 & -> & <-). done.
Qed.

Lemma submit_traces fuel tc action actor prepared before_post t0 :
  traces (eq t0)
    (submit_settlement_action_once_if normalize_addr (W:=world) fuel tc action (expectation action) actor prepared before_post)
    (fun r t => match r with
                | None => posted_nothing t0 t
                | Some receipt => proved tc action actor prepared receipt t0 t
                end)
    (posted_at_most_once tc action t0).
Proof.
  unfold submit_settlement_action_once_if.
  apply (preflight_traces tc action actor t0 (fun before pre buyer => _)); [by left|].
  intros before pre buyer. cbn beta.
  eapply traces_bind; [apply traces_look|]. intros go. destruct go; cbn [negb].
  2:{ apply traces_ret. intros t. by apply preflight_posts. }
  apply traces_fix. intros reads Hw. pose proof (preflight_posts _ _ _ _ _ _ _ _ Hw) as Hp0.
  eapply (traces_bind _ _ _ (fun r t => proved tc action actor prepared r t0 t)); [|intros r; by apply traces_ret].
  unfold reconcile_settlement_action_after_post.
  eapply traces_bind; [apply traces_look|]. intros started.
  eapply traces_bind; [eapply traces_conseq; [apply post_once_traces|done|intros ? t Ht; exact Ht|]|].
  { intros s t (answer & -> & Hs). right. exists answer. split; [|done]. exists prepared. unfold posts in *. simpl. by f_equal. }
  intros note. apply traces_exists. intros answer.
  eapply traces_conseq; [apply (confirm_loop_traces fuel tc action buyer before pre started
                                  (CPost tc action prepared answer :: reads))| | |].
  - intros t ->. by exists [].
  - intros r t Ht. exists before, pre, buyer, answer, reads. by split.
  - intros s t [(more & -> & Hm) Hs]. right. exists answer. split.
    + exists prepared. rewrite posts_app, Hm. unfold posts in *. simpl. by f_equal.
    + destruct s; [by left|done|done].
Qed.
End Action.
