(* ===== verification/SettlementSpec.v ===== *)
(** * SettlementSpec: the settlement actions keep their promises

    The log decides whether an action may be posted, a receipt is proved by the log
    and the getters, a failure after the POST is ambiguous, and every action ends. *)
From S2P Require Import Prelude Text Params MarketTypes Machine MockDeal MockMarket.
From S2P Require Import Backend Offer Receipt Trace Settlement SettlementSafety.

(** ** Any one of the five actions *)
Section Actions.
Context (normalize_addr : string -> option string) (external_message_hash : string -> option string).
Context {W : Type} `{SettlementChain W} `{Clock W} `{Timer W}.

Definition settle (fuel : nat) (action : SettlementAction) (buyer_note : string) (tc : TokenContract)
    : prog W SettlementActionReceipt :=
  match action with
  | BuyerStop =>
      let! submitted := stream_stop normalize_addr external_message_hash fuel buyer_note tc in
      ret (su_receipt submitted)
  | SellerStop => seller_stop normalize_addr fuel tc
  | Dispute => stream_dispute normalize_addr fuel buyer_note tc
  | ReleaseDispute => release_dispute normalize_addr fuel tc
  | ResolveDisputeTimeout => resolve_dispute_timeout normalize_addr fuel tc
  end.
Definition actor_of (action : SettlementAction) (buyer_note : string) : option string :=
  match action with BuyerStop | Dispute => Some buyer_note | _ => None end.
End Actions.

Section Traces.
Context (normalize_addr : string -> option string) (external_message_hash : string -> option string).
Context {W : Type} `{SettlementChain W} `{Clock W} `{Timer W}.
Abbreviation world := (traced W Call).

Definition proved_since (tc : TokenContract) (action : SettlementAction) (actor : option string)
    (prepared : PreparedPost) (t0 : list Call) (r : SettlementActionReceipt) (t : list Call) : Prop :=
  exists t1, posted_nothing t0 t1 /\ proved normalize_addr tc action actor prepared r t1 t.
(** The receipt of a submitted stop, whose message id is the hash of the message posted. *)
Definition proved_stop (tc : TokenContract) (note : string) (t0 : list Call) (s : SubmittedBuyerStopReceipt)
    (t : list Call) : Prop :=
  exists prepared, external_message_hash (pp_boc prepared) = Some (su_client_message_id s) /\
    proved_since tc BuyerStop (Some note) prepared t0 (su_receipt s) t.

Lemma posted_at_most_once_from tc action t0 t1 s t :
  posted_nothing t0 t1 -> posted_at_most_once tc action t1 s t -> posted_at_most_once tc action t0 s t.
Proof.
  unfold posted_at_most_once, posted_nothing, posted_once. intros Ht [-> | (answer & (p & ->) & Ha)]; [by left|].
  right. exists answer. split; [|done]. exists p. by rewrite Ht.
Qed.

Lemma submit_once_traces fuel tc action actor prepared t0 :
  traces (posted_nothing t0)
    (submit_settlement_action_once normalize_addr (W:=world) fuel tc action (expectation action) actor prepared)
    (proved_since tc action actor prepared t0) (posted_at_most_once tc action t0).
Proof.
  apply traces_fix. intros t1 Ht1. unfold submit_settlement_action_once.
  eapply traces_bind.
  { eapply traces_conseq; [apply submit_traces|done|intros r t Hr; exact Hr|].
    intros s t. by apply posted_at_most_once_from. }
  intros [r|]; cbn beta iota.
  - intros w Hw. by exists t1.
  - intros w Hw. left. unfold posted_nothing in *. by rewrite Hw.
Qed.
Lemma reject_first_traces tc action actor t0 (R : stopped -> list Call -> Prop) :
  (forall s t, posted_nothing t0 t -> R s t) ->
  traces (posted_nothing t0)
    (reject_prior_settlement_action_before_prepare normalize_addr (W:=world) tc action actor)
    (fun _ => posted_nothing t0) R.
Proof.
  intros HR. unfold reject_prior_settlement_action_before_prepare.
  eapply traces_bind; [apply read_within_traces; intros s r t Ht; by apply HR|].
  intros receipts. cbn beta. intros w (t' & Ew & Ht). unfold of_outcome.
  destruct (reject_prior_settlement_action _ _ _ _); rewrite Ew; [done|by apply HR|by apply HR].
Qed.
Lemma prepare_traces from call tc t0 (R : stopped -> list Call -> Prop) :
  (forall s t, posted_nothing t0 t -> R s t) ->
  traces (posted_nothing t0) (lift (sx_prepare (W:=world) from call tc)) (fun _ => posted_nothing t0) R.
Proof. intros HR. by apply traces_lift_silent. Qed.
Lemma refuse_traces note tc t0 (R : stopped -> list Call -> Prop) :
  (forall s t, posted_nothing t0 t -> R s t) ->
  traces (posted_nothing t0) (refuse_terminal_call_neither_side_can_pay (W:=world) note tc)
    (fun _ => posted_nothing t0) R.
Proof.
  intros HR. unfold refuse_terminal_call_neither_side_can_pay.
  eapply traces_bind; [apply traces_attempt_silent; intros t; apply HR|].
  intros [[ecc|]|e|]; try by apply traces_ret.
  eapply traces_bind; [apply traces_attempt_silent; intros t; apply HR|].
  intros [[ecc'|]|e|]; try by apply traces_ret.
  destruct (terminal_charge_refusal _ _ _); [by apply traces_throw, HR|by apply traces_ret].
Qed.

(** Each step that comes before the submission. *)
Ltac unposted := eapply traces_bind; [first [apply refuse_traces | apply reject_first_traces | apply prepare_traces];
                                      by left|]; intros ?; cbn beta.
Lemma stream_stop_traces fuel note tc t0 :
  traces (posted_nothing t0) (stream_stop normalize_addr external_message_hash (W:=world) fuel note tc)
    (proved_stop tc note t0) (posted_at_most_once tc BuyerStop t0).
Proof.
  unfold stream_stop. do 3 unposted.
  eapply traces_bind; [apply (traces_outcome _ _ (posted_at_most_once tc BuyerStop t0))|].
  { intros t Ht. destruct (client_message_hash _ _); [done|by left|by left]. }
  intros id. apply traces_pure. intros Hid%ok_or_ok.
  eapply traces_bind; [apply (submit_once_traces fuel tc BuyerStop (Some note))|]. intros r.
  apply traces_ret. intros t Ht. eexists. split; [exact Hid|exact Ht].
Qed.
Lemma stop_if_heartbeat_traces fuel note tc before_post t0 :
  traces (posted_nothing t0)
    (stop_if_heartbeat normalize_addr external_message_hash (W:=world) fuel note tc before_post)
    (fun s t => match s with
                | Some s => proved_stop tc note t0 s t
                | None => posted_nothing t0 t
                end) (posted_at_most_once tc BuyerStop t0).
Proof.
  unfold stop_if_heartbeat. do 2 unposted.
  eapply traces_bind; [apply (traces_outcome _ _ (posted_at_most_once tc BuyerStop t0))|].
  { intros t Ht. destruct (client_message_hash _ _); [done|by left|by left]. }
  intros id. apply traces_pure. intros Hid%ok_or_ok. apply traces_fix. intros t1 Ht1.
  eapply traces_bind.
  { eapply traces_conseq; [apply (submit_traces normalize_addr fuel tc BuyerStop (Some note))|done|intros r t Hr; exact Hr|].
    intros s t. by apply posted_at_most_once_from. }
  intros [r|]; apply traces_ret; simpl; intros t Ht.
  - eexists. split; [exact Hid|]. by exists t1.
  - unfold posted_nothing in *. congruence.
Qed.
Lemma settle_traces fuel action note tc t0 :
  traces (posted_nothing t0) (settle normalize_addr external_message_hash (W:=world) fuel action note tc)
    (fun r t => exists prepared, proved_since tc action (actor_of action note) prepared t0 r t)
    (posted_at_most_once tc action t0).
Proof.
  assert (Hsubmit : forall action actor prepared,
    traces (posted_nothing t0)
      (submit_settlement_action_once normalize_addr (W:=world) fuel tc action (expectation action) actor prepared)
      (fun r t => exists prepared, proved_since tc action actor prepared t0 r t) (posted_at_most_once tc action t0)).
  { intros action' actor prepared. eapply traces_conseq; [apply submit_once_traces|done| |done]. by exists prepared. }
  destruct action; cbn [settle actor_of].
  - eapply traces_bind; [apply stream_stop_traces|]. intros s. apply traces_ret. intros t (prepared & _ & Ht). by exists prepared.
  - unfold seller_stop. do 2 unposted. apply (Hsubmit SellerStop).
  - unfold stream_dispute. do 3 unposted. apply (Hsubmit Dispute).
  - unfold release_dispute. do 2 unposted. apply (Hsubmit ReleaseDispute).
  - unfold resolve_dispute_timeout. do 2 unposted. apply (Hsubmit ResolveDisputeTimeout).
Qed.
End Traces.

(** ** Termination *)
Section Ends.
Context (normalize_addr : string -> option string) (external_message_hash : string -> option string).
Context {W : Type} `{SettlementChain W} `{Clock W} `{Timer W} `{!ClockLaws W}.

(** No call turns the clock back. *)
Record forward_calls : Prop := {
  fc_receipts : forall tc, forward (sx_receipts tc);
  fc_snapshot : forall tc, forward (sx_snapshot tc);
  fc_buyer : forall tc, forward (sx_buyer_note tc);
  fc_shell : forall a, forward (sx_shell a);
  fc_prepare : forall from call tc, forward (sx_prepare from call tc);
  fc_post : forall tc action prepared, forward (sx_post tc action prepared) }.
Context (Hf : forward_calls).

Lemma runs_timed {A} (f : W -> outcome ChainError A * W) d : forward f -> runs (timeout d (lift f)).
Proof. intros Hfw w. unfold timeout. by apply runs_timeout, runs_lift. Qed.
Lemma runs_read_within {A} msg (f : W -> outcome ChainError A * W) : forward f -> runs (read_within msg f).
Proof.
  intros Hfw. apply runs_bind; [by apply runs_timed|]. intros [|r]; [apply runs_throw|apply runs_outcome].
Qed.
Lemma runs_post_once tc action prepared : runs (post_once tc action prepared).
Proof.
  apply runs_bind; [apply runs_timed, Hf|].
  intros [|[u|e|]]; try apply runs_ret; [|apply runs_panic].
  destruct (proves_no_post e); [apply runs_throw|apply runs_ret].
Qed.
Lemma runs_confirm_post tc started pre observed receipt : runs (confirm_post tc started pre observed receipt).
Proof.
  unfold confirm_post. destruct (List.find _ _); [|apply runs_panic].
  apply runs_bind; [apply runs_look|]. intros [d|]; [|apply runs_throw].
  apply runs_bind; [apply runs_timed, Hf|].
  intros [|[post|e|]]; first [apply runs_throw|apply runs_panic|apply runs_outcome].
Qed.

(** What is left of the confirmation budget bounds the rounds: each sleeps at least a
    second. *)
Lemma confirm_loop_ends fuel tc action expected buyer before pre started w :
  cancel_confirmation_timeout - (clock_now w - started) < Z.of_nat fuel -> (0 < fuel)%nat ->
  fst (confirm_loop normalize_addr fuel tc action expected buyer before pre started w) <> None.
Proof.
  revert w. induction fuel as [|fuel IH]; intros w Hfuel Hpos; [lia|]. cbn [confirm_loop].
  unfold bind at 1. cbn [get]. unfold remaining. destruct (Z.ltb_spec 0 (cancel_confirmation_timeout - (clock_now w - started))); [|done].
  apply bind_ends; [apply runs_timed, Hf|]. intros x w1 H1'.
  destruct x as [|[current|e|]]; try done.
  apply bind_ends; [apply runs_outcome|]. intros observed w2 H2'.
  apply bind_ends; [apply runs_outcome|]. intros [receipt|] w3 H3'; [apply runs_confirm_post|].
  unfold bind at 1. cbn [get]. unfold settlement_confirmation_delay.
  destruct (Z.ltb_spec 0 (cancel_confirmation_timeout - (clock_now w3 - started))); [|done].
  unfold bind at 1. cbn [run].
  pose proof (sleep_moves (Z.min (cancel_confirmation_timeout - (clock_now w3 - started)) cancel_confirmation_poll) w3).
  unfold cancel_confirmation_timeout, cancel_confirmation_poll in *.
  apply IH; [|destruct fuel; lia]. lia.
Qed.

Definition confirmation_fuel : nat := S (Z.to_nat cancel_confirmation_timeout).

Lemma settlement_submit_ends tc action expected actor prepared before_post w :
  fst (submit_settlement_action_once_if normalize_addr confirmation_fuel tc action expected actor prepared
         before_post w) <> None.
Proof.
  unfold submit_settlement_action_once_if.
  repeat (apply bind_ends; [first [apply runs_read_within, Hf | apply runs_outcome]|]; intros ? ? ?).
  apply bind_ends.
  { destruct (names_its_buyer action); [|apply runs_ret]. apply runs_bind; [|intros; apply runs_ret].
    unfold recorded_buyer. apply runs_bind; [apply runs_read_within, Hf|]. intros found.
    apply runs_bind; [apply runs_outcome|]. intros recorded. destruct actor; [|apply runs_ret].
    do 2 (apply runs_bind; [apply runs_outcome|]; intros ?). case_bool_decide; [apply runs_ret|apply runs_throw]. }
  intros buyer w1 Hw1. apply bind_ends; [apply runs_look|]. intros [] w2 Hw2; [|done]. cbn [negb].
  unfold reconcile_settlement_action_after_post.
  match goal with |- fst (bind ?m ?k ?w) <> None =>
    enough (fst (m w) <> None) as Hm; [unfold bind at 1; destruct (m w) as [[[]|] ?]; done|] end.
  unfold bind at 1. cbn [get]. apply bind_ends; [apply runs_post_once|]. intros _ w3 Hw3.
  apply confirm_loop_ends; unfold confirmation_fuel, cancel_confirmation_timeout in *; lia.
Qed.

Lemma submit_once_ends tc action expected actor prepared w :
  fst (submit_settlement_action_once normalize_addr confirmation_fuel tc action expected actor prepared w) <> None.
Proof.
  unfold submit_settlement_action_once, bind.
  pose proof (settlement_submit_ends tc action expected actor prepared (fun _ => true) w) as Hm.
  by destruct (submit_settlement_action_once_if _ _ _ _ _ _ _ _ w) as [[[]|] ?].
Qed.
Lemma runs_reject_first tc action actor :
  runs (reject_prior_settlement_action_before_prepare normalize_addr tc action actor).
Proof. apply runs_bind; [apply runs_read_within, Hf|]. intros r. apply runs_outcome. Qed.
Lemma runs_refuse note tc : runs (refuse_terminal_call_neither_side_can_pay note tc).
Proof.
  apply runs_bind; [apply runs_attempt, Hf|]. intros [[x|]|e|]; try apply runs_ret.
  apply runs_bind; [apply runs_attempt, Hf|]. intros [[y|]|e|]; try apply runs_ret.
  destruct (terminal_charge_refusal _ _ _); [apply runs_throw|apply runs_ret].
Qed.
Lemma runs_prepare from call tc : runs (lift (sx_prepare from call tc)).
Proof. apply runs_lift, Hf. Qed.
End Ends.

(** ** The contract *)
Section Contract.
Context (normalize_addr : string -> option string) (external_message_hash : string -> option string).

(** The log alone decides: a stop or a dispute may be posted exactly over a log without
    any action, the two ends of a dispute exactly over one open dispute; and what a
    buyer is told closed the deal is the only action of its log, so that a stop over
    it is refused. *)
Theorem prior_history_decides (action : SettlementAction) (actor : option string) (before : Events) :
  (reject_prior_settlement_action normalize_addr action actor before = Ok tt <-> open_history action before) /\
  (forall tc note r, select_prior_buyer_terminal_receipt normalize_addr tc note before = Ok (Some r) ->
     (exists ev b, actions_of before = [ev] /\ is_stop ev = true /\ reported (ev_event ev) = Some (bt_event r) /\
                   action_buyer (ev_event ev) = Some b /\ normalize_addr b = normalize_addr note /\
                   bt_stop_submitted r = false) /\
     forall action' actor', reject_prior_settlement_action normalize_addr action' actor' before <> Ok tt).
Proof.
  split; [split; [apply reject_prior_accepts|apply reject_prior_admits]|].
  intros tc note r. unfold select_prior_buyer_terminal_receipt.
  destruct (List.filter is_stop (actions_of before)) as [|ev stops] eqn:Es; [done|]. intros Hr. ok_step Hr.
  apply orb_false_iff in E as [E1%negb_false_iff%Nat.eqb_eq _].
  destruct (actions_of before) as [|a [|]] eqn:Ea; try done. simpl in Es.
  destruct (is_stop a) eqn:Ha; [|done]. injection Es as -> ->.
  destruct (terminal_event (ev_event ev)) as [[b e]|] eqn:Et; [|done].
  unfold normalized in Hr. ok_step Hr. ok_step Hr. apply ok_or_ok in E, E0. ok_step Hr.
  apply negb_false_iff, bool_decide_eq_true in E2. subst. injection Hr as <-. simpl. split.
  - exists ev, b. split_and!; try done; destruct (ev_event ev); simplify_eq/=; try done; congruence.
  - intros action' actor' Hok%reject_prior_accepts. unfold open_history in Hok. rewrite Ea in Hok.
    destruct (is_resolving action'); [|done]. destruct Hok as (d & [= <-] & Hd).
    unfold is_stop, is_dispute in *. by destruct (ev_event ev).
Qed.

Context {W : Type} `{SettlementChain W} `{Clock W} `{Timer W}.

(** C16: Whatever the network answers, an action that returns a receipt read, after a single
    POST, a log that extends the one it checked by exactly one action: of the kind this
    action emits on the deal as it stood, naming the buyer the deal records, reported
    with its own figures, and agreeing with the getters read after it. *)
Theorem settlement_receipts_are_proved (fuel : nat) (action : SettlementAction) (note : string)
    (tc : TokenContract) (w w' : traced W Call) (r : SettlementActionReceipt)
    (Hr : settle normalize_addr external_message_hash fuel action note tc w = (Some (Ok r), w')) :
  exists prepared, proved_since normalize_addr tc action (actor_of action note) prepared (snd w) r (snd w').
Proof.
  pose proof (settle_traces normalize_addr external_message_hash fuel action note tc (snd w) w eq_refl) as Ht.
  by rewrite Hr in Ht.
Qed.

(** C32: An action that fails has posted at most one message; and when it did post, the
    failure says that the outcome is ambiguous, unless it is the answer of the POST
    itself that the message was not prepared or was rejected. *)
Theorem posted_failures_are_ambiguous (fuel : nat) (action : SettlementAction) (note : string)
    (tc : TokenContract) (w w' : traced W Call) (e : ChainError)
    (He : settle normalize_addr external_message_hash fuel action note tc w = (Some (Err e), w')) :
  posts (snd w') = posts (snd w) \/
  exists prepared answer,
    posts (snd w') = CPost tc action prepared answer :: posts (snd w) /\
    ((exists m, e = AmbiguousSubmit m) \/ (answer = Err e /\ proves_no_post e = true)).
Proof.
  pose proof (settle_traces normalize_addr external_message_hash fuel action note tc (snd w) w eq_refl) as Ht.
  rewrite He in Ht. destruct Ht as [Ht | (answer & (prepared & Ht) & Ha)]; [by left|right].
  by exists prepared, answer.
Qed.

(** On a clock that no call turns back every action ends: the confirmation reads the
    log at most once per second of its budget. *)
Theorem settlement_actions_end `{!ClockLaws W} (Hf : forward_calls (W := W)) (action : SettlementAction)
    (note : string) (tc : TokenContract) (w : W) :
  fst (settle normalize_addr external_message_hash confirmation_fuel action note tc w) <> None.
Proof.
  destruct action; cbn [settle];
    unfold seller_stop, stream_dispute, release_dispute, resolve_dispute_timeout;
    repeat (apply bind_ends; [first [by apply runs_refuse | by apply runs_reject_first | by apply runs_prepare]|];
            intros ? ? ?); try by apply submit_once_ends.
  match goal with |- fst (bind ?m ?k ?w) <> None =>
    enough (fst (m w) <> None) as Hm; [unfold bind at 1; destruct (m w) as [[[]|] ?]; done|] end.
  unfold stream_stop.
  repeat (apply bind_ends; [first [by apply runs_refuse | by apply runs_reject_first | by apply runs_prepare
                                  | by apply runs_outcome]|]; intros ? ? ?).
  match goal with |- fst (bind ?m ?k ?w) <> None =>
    enough (fst (m w) <> None) as Hm; [unfold bind at 1; destruct (m w) as [[[]|] ?]; done|] end.
  by apply submit_once_ends.
Qed.
End Contract.
