(* ===== verification/StopSafety.v ===== *)
(** * StopSafety: one STOP per deal, and whose STOP it was

    The explicit stops of a process share one slot per deal.  Over any sequence of
    stops, with anything else happening to the chain in between, a STOP of a deal is
    posted again only after every earlier one was answered with a proof that it did
    not land; and a receipt is called the buyer's own only on the chain's evidence. *)
From S2P Require Import Prelude Text Params MarketTypes Machine MockDeal MockMarket.
From S2P Require Import Backend Offer Receipt Trace Settlement Stop SettlementSafety SettlementSpec.

(** The answers of the STOPs posted for the deals of one slot, newest first. *)
Definition stop_answer (key : string) (c : Call) : option (outcome ChainError unit) :=
  match c with
  | CPost tc BuyerStop _ answer => if bool_decide (slot_key tc = key) then Some answer else None
  | _ => None
  end.
Definition stop_answers (key : string) (t : list Call) : list (outcome ChainError unit) :=
  omap (stop_answer key) t.
Definition refused (answer : outcome ChainError unit) : Prop :=
  exists e, answer = Err e /\ proves_no_post e = true.

Lemma stop_answers_posts key t : stop_answers key t = stop_answers key (posts t).
Proof.
  induction t as [|c t IH]; [done|]. unfold stop_answers, posts in *. simpl.
  change (list_omap _ _ (stop_answer key) t) with (omap (stop_answer key) t). rewrite IH. by destruct c.
Qed.
Lemma stop_answers_eq key t0 t : posted_nothing t0 t -> stop_answers key t = stop_answers key t0.
Proof. intros Ht. rewrite (stop_answers_posts key t), Ht. by rewrite <- stop_answers_posts. Qed.

Section Stops.
Context (normalize_addr : string -> option string) (external_message_hash : string -> option string).
Context {W : Type} `{SettlementChain W} `{Clock W} `{Timer W}.
Abbreviation world := (traced W Call).
Abbreviation process := (Process world).
Definition trace (p : process) : list Call := snd (pr_world p).

(** What a stop leaves behind: no message for the deal, or one; and if that one may have
    landed, the slot is taken. *)
Definition stop_effect (tc : TokenContract) (p p' : process) : Prop :=
  (forall key, key <> slot_key tc -> pr_slots p' !! key = pr_slots p !! key) /\
  (posted_nothing (trace p) (trace p') \/
   exists answer, posted_once tc BuyerStop answer (trace p) (trace p') /\
                  (explicit_stop_slot tc p' <> Idle \/ refused answer)).

Lemma outcome_of_traces {A} (P : list Call -> Prop) (m : prog world A) (Q : A -> list Call -> Prop)
    (R : stopped -> list Call -> Prop) :
  traces P m Q R ->
  traces P (outcome_of m)
    (fun r t => match r with Ok a => Q a t | Err e => R (Threw e) t | Panic => False end) R.
Proof.
  intros Hm w Hw. specialize (Hm w Hw). unfold outcome_of. by destruct (m w) as [[[a|e|]|] w'].
Qed.

(** Awaiting a result never throws. *)
Lemma outcome_of_value {A} (m : prog world A) w :
  match outcome_of m w with (Some (Err _), _) => False | _ => True end.
Proof. unfold outcome_of. by destruct (m w) as [[[]|] ?]. Qed.

Lemma observed_traces note tc submitted t0 (R : stopped -> list Call -> Prop) :
  (forall s t, posted_nothing t0 t -> R s t) ->
  traces (posted_nothing t0) (observed_buyer_terminal_settlement normalize_addr (W:=world) note tc submitted)
    (fun seen t => posted_nothing t0 t /\
       forall s, seen = Some s -> exists b, s = BuyerStopTerminal b /\
         if submitted then bt_fact b = UnknownCloser /\ bt_stop_submitted b = true
         else bt_fact b = AlreadyClosed /\ bt_stop_submitted b = false) R.
Proof.
  intros HR. unfold observed_buyer_terminal_settlement, buyer_terminal_before_stop.
  eapply (traces_bind _ _ _ (fun found t => posted_nothing t0 t /\ exists receipts,
            select_prior_buyer_terminal_receipt normalize_addr tc note receipts = Ok found)).
  { eapply traces_bind; [apply read_within_traces; intros s r t Ht; by apply HR|].
    intros receipts. cbn beta. intros w (t' & Ew & Ht). unfold of_outcome.
    destruct (select_prior_buyer_terminal_receipt _ _ _ _) eqn:E; rewrite Ew; [by eauto|by apply HR|by apply HR]. }
  intros found. apply traces_ret. intros t (Ht & receipts & Hfound). split; [done|].
  intros s Hs. destruct found as [b|]; [|done]. simpl in Hs. injection Hs as <-.
  eexists. split; [done|]. destruct submitted; [done|].
  unfold select_prior_buyer_terminal_receipt in Hfound. destruct (List.filter is_stop _); [done|].
  ok_step Hfound. destruct (terminal_event _) as [[? ?]|]; [|done]. do 3 ok_step Hfound. by simplify_eq.
Qed.

(** The chain's evidence that the message sent is the one that closed the deal. *)
Definition evidence (note : string) (tc : TokenContract) (s : SubmittedBuyerStopReceipt) (t : list Call) : Prop :=
  exists ids call t',
    t = CInbound tc (sr_message_id (su_receipt s)) (Ok call) ::
        COut (su_client_message_id s) note (Ok (Some ids)) :: t' /\
    is_buyer_stop_from normalize_addr note call = true /\ ic_message_id call ∈ ids.

Lemma fact_traces note tc submitted t0 :
  traces (eq t0) (submitted_buyer_stop_fact_on_chain normalize_addr (W:=world) note tc submitted)
    (fun fact t => posted_nothing t0 t /\ exists t', t = t' ++ t0 /\
       (fact = UnknownCloser \/ fact = SubmittedStop /\ evidence note tc submitted t))
    (fun s _ => s = Panicked).
Proof.
  intros [w t1]. simpl. intros <-. unfold submitted_buyer_stop_fact_on_chain, bind, attempt. simpl. unfold entered.
  destruct (sx_out_messages _ _ _) as [[ids|e|] w1]; simpl; try done;
    destruct (sx_inbound_call _ _ _) as [[call|e'|] w2]; simpl; try done;
    (split; [done|]; eexists [_; _]; split; [reflexivity|]); try (destruct ids as [ids|]); simpl; try (by left).
  destruct (is_buyer_stop_from _ _ _) eqn:Eb; simpl; [|by left]. case_bool_decide as Ei; [right|by left].
  split; [done|]. by do 3 eexists.
Qed.

(** The answer of a stop from a free slot. *)
Definition stop_answer_is_honest (note : string) (tc : TokenContract) (t0 : list Call) (s : Settlement)
    (t : list Call) : Prop :=
  match s with
  | AuthoritativeReceipt r =>
      exists su t1 more, su_receipt su = r /\ evidence note tc su t /\ t = more ++ t1 /\
        proved_stop normalize_addr external_message_hash tc note t0 su t1
  | BuyerStopTerminal b =>
      bt_fact b = AlreadyClosed /\ bt_stop_submitted b = false \/
      bt_fact b = UnknownCloser /\ bt_stop_submitted b = true
  | _ => False
  end.
Definition stop_result (note : string) (tc : TokenContract) (p : process)
    (r : option (outcome ChainError Settlement)) (p' : process) : Prop :=
  match r with
  | Some (Ok s) => stop_effect tc p p' /\ explicit_stop_slot tc p' = Terminal s /\
                   stop_answer_is_honest note tc (trace p) s (trace p')
  | Some (Err _) => stop_effect tc p p'
  | _ => True
  end.

Definition resulting (note : string) (tc : TokenContract) (p : process)
    (m : option (outcome ChainError Settlement) * process) : Prop := stop_result note tc p (fst m) (snd m).

Lemma slot_set tc s (p : process) : explicit_stop_slot tc (set_slot tc s p) = s.
Proof. unfold explicit_stop_slot, set_slot. simpl. by rewrite lookup_insert_eq. Qed.
Lemma effect_set tc s (p : process) w :
  s <> Idle -> posted_at_most_once tc BuyerStop (trace p) Spent (snd w) ->
  stop_effect tc p (set_slot tc s (mkProcess (pr_slots p) w)).
Proof.
  intros Hs Hp. split.
  - intros key Hk. unfold set_slot. simpl. by rewrite lookup_insert_ne.
  - unfold trace. simpl. destruct Hp as [Hp | (answer & Hp & _)]; [by left|right].
    exists answer. split; [done|]. left. by rewrite slot_set.
Qed.
Lemma effect_keep tc (p : process) w (e : ChainError) :
  posted_at_most_once tc BuyerStop (trace p) (Threw e) (snd w) -> (forall m, e <> AmbiguousSubmit m) ->
  stop_effect tc p (mkProcess (pr_slots p) w).
Proof.
  intros Hp He. split; [done|]. unfold trace. simpl. destruct Hp as [Hp | (answer & Hp & [[m Hm]|[Ha Hr]])].
  - by left.
  - by destruct (He m).
  - right. exists answer. split; [done|]. right. by exists e.
Qed.

Lemma posts_nothing_extends tc t0 t1 t (x : stopped) (y : stopped) :
  (forall answer, ambiguous_or_refused x answer -> ambiguous_or_refused y answer) ->
  posted_at_most_once tc BuyerStop t0 x t1 -> posted_nothing t1 t -> posted_at_most_once tc BuyerStop t0 y t.
Proof.
  unfold posted_at_most_once, posted_once, posted_nothing. intros Hxy [Ht1 | (answer & (q & Ht1) & Ha)] Ht.
  - left. congruence.
  - right. exists answer. split; [exists q; congruence|auto].
Qed.
Lemma proved_posts tc note t0 s t :
  proved_stop normalize_addr external_message_hash tc note t0 s t -> posted_at_most_once tc BuyerStop t0 Spent t.
Proof.
  intros (prepared & _ & t1 & Ht1 & before & pre & buyer & answer & reads & Hpre & Hc).
  right. exists answer. split; [|done]. exists prepared.
  destruct Hc as (new & ev & post & polls & -> & Hp & _). unfold posts. simpl. fold (posts (polls ++ CPost tc BuyerStop prepared answer :: reads)).
  rewrite posts_app, (posts_polls tc before polls Hp). simpl.
  apply preflight_posts in Hpre. unfold posted_nothing in *. unfold posts in *. simpl. congruence.
Qed.

Lemma settle_slot_result note tc s (p : process) (w : world) :
  posted_at_most_once tc BuyerStop (trace p) Spent (snd w) ->
  stop_answer_is_honest note tc (trace p) s (snd w) ->
  resulting note tc p (settle_slot tc s (mkProcess (pr_slots p) w)).
Proof.
  intros Hp Hs. simpl. split_and!; [|apply slot_set|done].
  by apply effect_set.
Qed.

Lemma terminal_after_step note tc submitted (p : process) x (w : world) :
  posted_at_most_once tc BuyerStop (trace p) x (snd w) ->
  match terminal_after normalize_addr note tc submitted (mkProcess (pr_slots p) w) with
  | (Some (Ok seen), p') =>
      exists w', p' = mkProcess (pr_slots p) w' /\ posted_at_most_once tc BuyerStop (trace p) x (snd w') /\
        forall s, seen = Some s -> stop_answer_is_honest note tc (trace p) s (snd w')
  | (Some (Err _), _) => False
  | _ => True
  end.
Proof.
  intros Hw. unfold terminal_after, bind, in_world.
  pose proof (outcome_of_traces _ _ _ _ (observed_traces note tc submitted (snd w)
    (fun s t => s = Panicked \/ s = Spent \/ posted_nothing (snd w) t) (fun _ _ Hn => or_intror (or_intror Hn))) w eq_refl) as Ho.
  cbn [pr_world pr_slots]. pose proof (outcome_of_value (observed_buyer_terminal_settlement normalize_addr note tc submitted) w) as Hv.
  destruct (outcome_of _ w) as [[[seen|e|]|] w']; simpl in *; try done.
  exists w'. split; [done|].
  destruct seen as [[s|]|e|]; simpl in *.
  - destruct Ho as [Ho Hb]. split; [by eapply posts_nothing_extends|]. intros s' [= <-].
    destruct (Hb s eq_refl) as (b & -> & Hb'). simpl. by destruct submitted; [right|left].
  - destruct Ho as [Ho _]. split; [by eapply posts_nothing_extends|done].
  - destruct Ho as [?|[?|Ho]]; try done. split; [by eapply posts_nothing_extends|done].
  - done.
Qed.

Lemma after_stop_result note tc x (p : process) (w : world) :
  match x with
  | Ok su => proved_stop normalize_addr external_message_hash tc note (trace p) su (snd w)
  | Err e => posted_at_most_once tc BuyerStop (trace p) (Threw e) (snd w)
  | Panic => True
  end ->
  resulting note tc p (after_stop normalize_addr note tc x (mkProcess (pr_slots p) w)).
Proof.
  intros Hx. destruct x as [su|e|]; [| |done].
  - unfold after_stop, bind, in_world. simpl.
    pose proof (fact_traces note tc su (snd w) w eq_refl) as Hf.
    destruct (submitted_buyer_stop_fact_on_chain _ _ _ _ w) as [[[fact|e|]|] w']; simpl in *; try done.
    destruct Hf as (Hn & more & Et & Hf). apply settle_slot_result.
    + eapply posts_nothing_extends; [|by eapply proved_posts|exact Hn]. done.
    + destruct Hf as [-> | [-> Hev]]; simpl; [by right|]. by exists su, (snd w), more.
  - assert (Hseen : forall submitted k,
      (forall w' : world, posted_at_most_once tc BuyerStop (trace p) (Threw e) (snd w') ->
         resulting note tc p (k (mkProcess (pr_slots p) w'))) ->
      resulting note tc p (bind (terminal_after normalize_addr note tc submitted)
                 (fun seen => match seen with Some s => settle_slot tc s | None => k end)
                 (mkProcess (pr_slots p) w))).
    { intros submitted k Hk. unfold bind at 1.
      pose proof (terminal_after_step note tc submitted p (Threw e) w Hx) as Ht.
      destruct (terminal_after _ _ _ _ _) as [[[[s|]|e'|]|] p']; try done.
      - destruct Ht as (w' & -> & Hw' & Hs). apply settle_slot_result; [by eapply posts_nothing_extends|auto].
      - destruct Ht as (w' & -> & Hw' & _). by apply Hk. }
    unfold after_stop. destruct e; try (apply Hseen; intros w' Hw'; by apply (effect_keep tc p w' _ Hw')).
    apply Hseen. intros w' Hw'. simpl. apply effect_set; [done|]. by eapply posts_nothing_extends.
Qed.

Lemma idle_stop_result fuel note tc (before : prog world unit) (p : process) :
  (forall w, posts (snd (snd (before w))) = posts (snd w)) ->
  explicit_stop_slot tc p = Idle ->
  resulting note tc p (explicit_buyer_stop_with normalize_addr external_message_hash fuel note tc before p).
Proof.
  intros Hgas Hidle. unfold explicit_buyer_stop_with. unfold bind at 1. cbn [get]. rewrite Hidle.
  unfold bind at 1, in_world at 1.
  pose proof (observed_traces note tc false (trace p) (fun _ t => posted_nothing (trace p) t) ltac:(done)
                (pr_world p) eq_refl) as Ho.
  destruct (observed_buyer_terminal_settlement _ _ _ _ _) as [[[seen|e|]|] w1]; simpl in *; try done;
    [|by (split; [|left])].
  destruct Ho as [Hn1 Hb]. destruct seen as [s|].
  { destruct (Hb s eq_refl) as (b & -> & Hb'). apply settle_slot_result; [by left|by left]. }
  unfold bind at 1, in_world at 1. cbn [pr_world pr_slots]. pose proof (Hgas w1) as Hg.
  destruct (before w1) as [[[u|e|]|] w2]; cbn [snd] in Hg; try done;
    assert (Hn2 : posted_nothing (trace p) (snd w2)) by (unfold posted_nothing in *; congruence);
    [|by (split; [|left])].
  unfold bind at 1, in_world at 1. cbn [pr_world pr_slots].
  pose proof (outcome_of_traces _ _ _ _ (stream_stop_traces normalize_addr external_message_hash fuel note tc (trace p))
                w2 Hn2) as Hs.
  pose proof (outcome_of_value (stream_stop normalize_addr external_message_hash fuel note tc) w2) as Hv.
  destruct (outcome_of _ w2) as [[[x|e|]|] w3]; try done.
  apply after_stop_result. by destruct x.
Qed.

Lemma busy_stop_effect fuel note tc (before : prog world unit) (p p' : process) r :
  explicit_stop_slot tc p <> Idle ->
  explicit_buyer_stop_with normalize_addr external_message_hash fuel note tc before p = (r, p') -> p' = p.
Proof.
  intros Hslot. unfold explicit_buyer_stop_with, bind. cbn [get].
  destruct (explicit_stop_slot tc p); [done|intros [= _ <-]; done..].
Qed.

(** Explicit stops of one process, one after another, and anything else in between
    that posts no STOP.  A stop that ends its task by a panic ends the sequence. *)
Inductive stop_step : process -> process -> Prop :=
| step_stop fuel note tc (before : prog world unit) r p p' :
    (forall w, posts (snd (snd (before w))) = posts (snd w)) ->
    explicit_buyer_stop_with normalize_addr external_message_hash fuel note tc before p = (Some r, p') ->
    r <> Panic -> stop_step p p'
| step_elsewhere p w :
    (forall key, stop_answers key (snd w) = stop_answers key (trace p)) ->
    stop_step p (mkProcess (pr_slots p) w).

(** Every POST but the last was provably not landed, and the last one too while the
    slot is free. *)
Definition slot_inv (key : string) (p : process) : Prop :=
  match default Idle (pr_slots p !! key) with
  | Idle => Forall refused (stop_answers key (trace p))
  | _ => Forall refused (tail (stop_answers key (trace p)))
  end.
Lemma refused_tail answers : Forall refused answers -> Forall refused (tail answers).
Proof. by destruct 1. Qed.
Lemma slot_inv_tail key p : slot_inv key p -> Forall refused (tail (stop_answers key (trace p))).
Proof. unfold slot_inv. destruct (default _ _); try done. apply refused_tail. Qed.

Lemma slot_inv_effect key tc p p' :
  explicit_stop_slot tc p = Idle -> stop_effect tc p p' -> slot_inv key p -> slot_inv key p'.
Proof.
  intros Hidle [Hslots Hposts] Hinv. destruct (decide (key = slot_key tc)) as [->|Hk].
  - unfold slot_inv in Hinv. unfold explicit_stop_slot in Hidle. rewrite Hidle in Hinv. clear Hidle.
    destruct Hposts as [Hn | (answer & (prepared & Hp) & Ha)].
    + unfold slot_inv. rewrite (stop_answers_eq _ _ _ Hn). destruct (default _ _); [done|by apply refused_tail..].
    + assert (stop_answers (slot_key tc) (trace p') = answer :: stop_answers (slot_key tc) (trace p)) as Hs.
      { rewrite (stop_answers_posts _ (trace p')), Hp. unfold stop_answers at 1. simpl.
        rewrite bool_decide_eq_true_2 by done. f_equal. symmetry. apply stop_answers_posts. }
      unfold slot_inv. rewrite Hs. destruct Ha as [Hbusy|Href].
      * unfold explicit_stop_slot in Hbusy. by destruct (default _ _).
      * destruct (default _ _); [by constructor|done..].
  - unfold slot_inv. rewrite (Hslots key Hk).
    assert (stop_answers key (trace p') = stop_answers key (trace p)) as ->; [|done].
    destruct Hposts as [Hn | (answer & (prepared & Hp) & _)]; [by apply stop_answers_eq|].
    rewrite (stop_answers_posts _ (trace p')), Hp. unfold stop_answers at 1. simpl.
    rewrite bool_decide_eq_false_2 by done. symmetry. apply stop_answers_posts.
Qed.
Lemma slot_inv_step key p p' : stop_step p p' -> slot_inv key p -> slot_inv key p'.
Proof.
  destruct 1 as [fuel note tc before r p p' Hgas Hrun Hr|p w Hw]; [|by unfold slot_inv, trace in *; simpl; rewrite Hw].
  destruct (explicit_stop_slot tc p) eqn:Es; cycle 1.
  1, 2: apply busy_stop_effect in Hrun as ->; by rewrite ?Es.
  pose proof (idle_stop_result fuel note tc before p Hgas Es) as Hres.
  rewrite Hrun in Hres. unfold resulting, stop_result in Hres. simpl in Hres.
  apply (slot_inv_effect key tc p p' Es). destruct r; [by destruct Hres|done|done].
Qed.

(** C7: From a process that has stopped nothing, whatever the chain does: when a deal's STOP
    has been posted several times, every POST but the newest was answered with a proof
    that it did not land. *)
Theorem stops_are_posted_until_one_may_land (p0 p : process) (key : string)
    (Hslots : pr_slots p0 = ∅) (Hfresh : stop_answers key (trace p0) = [])
    (Hrun : rtc stop_step p0 p) :
  Forall refused (tail (stop_answers key (trace p))).
Proof.
  apply slot_inv_tail. assert (slot_inv key p0) as Hinv.
  { unfold slot_inv. rewrite Hslots, Hfresh, lookup_empty. simpl. constructor. }
  clear Hslots Hfresh. induction Hrun as [|p1 p2 p3 Hs _ IH]; [done|]. by apply IH, (slot_inv_step key p1).
Qed.

(** C33: A stop of a free slot that answers with a settlement answers honestly: it claims the
    STOP as its own only when the deal was closed by a call [stop] from the buyer's note
    in a message that the note sent on for this very submission, with a proved receipt;
    otherwise it says that the deal was already closed and that it sent nothing, or that
    it does not know who closed it. *)
Theorem stops_are_claimed_on_evidence (fuel : nat) (note : string) (tc : TokenContract)
    (before : prog world unit) (p p' : process) (s : Settlement)
    (Hgas : forall w, posts (snd (snd (before w))) = posts (snd w))
    (Hidle : explicit_stop_slot tc p = Idle)
    (Hrun : explicit_buyer_stop_with normalize_addr external_message_hash fuel note tc before p = (Some (Ok s), p')) :
  explicit_stop_slot tc p' = Terminal s /\ stop_answer_is_honest note tc (trace p) s (trace p').
Proof.
  pose proof (idle_stop_result fuel note tc before p Hgas Hidle) as Hres.
  rewrite Hrun in Hres. unfold resulting, stop_result in Hres. simpl in Hres. tauto.
Qed.
End Stops.
