(* ===== verification/SettlementSample.v ===== *)
(** * SettlementSample: the settlement theorems on concrete runs

    A small network: each POST takes the next scripted answer, and may land, which
    appends the stop to the deal's log and clears the deal. *)
From S2P Require Import Prelude Text Params MarketTypes Machine MockDeal MockMarket.
From S2P Require Import Backend Offer Receipt Trace Settlement Stop SettlementSafety SettlementSpec StopSafety.

Record SimNet : Type := mkSim {
  si_now : Z;
  si_log : Events;
  si_snapshot : option DealChainSnapshot;
  si_script : list (outcome ChainError unit * bool) }.

Definition sim_deal (opened : bool) (deposit bond : Z) : DealChainSnapshot := {|
  sn_account_code_hash := "code"; sn_account_boc_hash := "boc";
  sn_state := mkDealState true opened true false deposit 700 5000 5000 0 (Some 10) 20 30 0;
  sn_subscription := mkSub 0 0 0 0 5000 0 0 0;
  sn_seller_bond := mkSellerBond true bond 200;
  sn_buyer_bond := mkBuyerBond 0 0 |}.
Definition sim_stop : TokenContractSettlementReceipt :=
  mkEvent "stop-event" 77 "cursor" (StreamStopped "0:bb" 700 300).

#[export] Instance sim_chain : SettlementChain SimNet := {|
  sx_receipts _ w := (Ok (si_log w), w);
  sx_snapshot _ w := (Ok (si_snapshot w), w);
  sx_buyer_note _ w := (Ok (Some "0:bb"), w);
  sx_shell _ w := (Ok (Some 1000000000), w);
  sx_prepare _ _ _ w := (Ok (mkPrepared "endpoint" "boc" "account" "dapp"), w);
  sx_post _ _ _ w :=
    match si_script w with
    | [] => (Err (MoneySubmitRejected "no node"), w)
    | (answer, lands) :: script =>
        (answer,
         if lands then mkSim (si_now w) (si_log w ++ [sim_stop]) (Some (sim_deal false 0 0)) script
         else mkSim (si_now w) (si_log w) (si_snapshot w) script)
    end;
  sx_out_messages _ _ w := (Ok (Some ["m1"; "m2"]), w);
  sx_inbound_call _ _ w := (Ok (mkInbound "m2" "0:BB" "stop"), w) |}.
#[export] Instance sim_clock : Clock SimNet := {|
  clock_now := si_now;
  sleep d w := mkSim (si_now w + d) (si_log w) (si_snapshot w) (si_script w) |}.
#[export] Instance sim_clock_laws : ClockLaws SimNet.
Proof. constructor. intros d w _. simpl. lia. Qed.
#[export] Instance sim_timer : Timer SimNet := {| timer_won _ _ := false |}.

Definition sim_parse (s : string) : option string := Some s.
Definition sim_hash (boc : string) : option string := Some "client".
Definition sim_world (script : list (outcome ChainError unit * bool)) : traced SimNet Call :=
  (mkSim 1000 [] (Some (sim_deal true 300 200)) script, []).
Definition rejected : outcome ChainError unit := Err (MoneySubmitRejected "refused").
Definition fuel : nat := confirmation_fuel.

Lemma prior_history_decides_witness :
  reject_prior_settlement_action sim_parse BuyerStop (Some "0:bb") [] = Ok tt /\
  reject_prior_settlement_action sim_parse Dispute (Some "0:bb") [sim_stop] <> Ok tt.
Proof.
  split; [apply (prior_history_decides sim_parse); reflexivity|].
  destruct (proj2 (prior_history_decides sim_parse Dispute None [sim_stop]) "0:tc" "0:bb" _ eq_refl) as [_ Hno].
  apply Hno.
Defined.

Lemma settlement_receipts_are_proved_witness :
  exists r w', settle sim_parse sim_hash fuel BuyerStop "0:bb" "0:tc" (sim_world [(Ok tt, true)]) = (Some (Ok r), w') /\
    sr_event r = MarketTypes.StreamStopped "0:bb" 700 300 /\
    exists prepared, proved_since sim_parse "0:tc" BuyerStop (Some "0:bb") prepared [] r (snd w').
Proof.
  eexists _, _. split; [vm_compute; reflexivity|]. split; [reflexivity|].
  refine (settlement_receipts_are_proved sim_parse sim_hash fuel BuyerStop "0:bb" "0:tc"
            (sim_world [(Ok tt, true)]) _ _ _).
  vm_compute. reflexivity.
Defined.

Lemma posted_failures_are_ambiguous_witness :
  exists e w', settle sim_parse sim_hash fuel SellerStop "0:bb" "0:tc" (sim_world [(Ok tt, false)]) = (Some (Err e), w') /\
    (posts (snd w') = [] \/
     exists prepared answer, posts (snd w') = [CPost "0:tc" SellerStop prepared answer] /\
       ((exists m, e = AmbiguousSubmit m) \/ (answer = Err e /\ proves_no_post e = true))).
Proof.
  eexists _, _. split; [vm_compute; reflexivity|].
  refine (posted_failures_are_ambiguous sim_parse sim_hash fuel SellerStop "0:bb" "0:tc"
            (sim_world [(Ok tt, false)]) _ _ _).
  vm_compute. reflexivity.
Defined.

Lemma sim_forward : forward_calls (W := SimNet).
Proof.
  split; intros; intros w; simpl; try lia.
  destruct (si_script w) as [|[? []] ?]; simpl; lia.
Qed.
Lemma settlement_actions_end_witness :
  fst (settle sim_parse sim_hash confirmation_fuel Dispute "0:bb" "0:tc" (fst (sim_world [(Ok tt, false)]))) <> None.
Proof. apply (settlement_actions_end sim_parse sim_hash sim_forward). Defined.

(** ** Several stops of one process *)
Definition sim_process (script : list (outcome ChainError unit * bool)) : Process (traced SimNet Call) :=
  mkProcess ∅ (sim_world script).
Definition stop_once (p : Process (traced SimNet Call)) : Process (traced SimNet Call) :=
  snd (explicit_buyer_stop sim_parse sim_hash fuel "0:bb" "0:tc" p).
(** A rejected POST, then one that is accepted without ever showing, then nothing more. *)
Definition three_stops : Process (traced SimNet Call) :=
  stop_once (stop_once (stop_once (sim_process [(rejected, false); (Ok tt, false); (Ok tt, true)]))).

Lemma stop_once_step p :
  match fst (explicit_buyer_stop sim_parse sim_hash fuel "0:bb" "0:tc" p) with Some Panic | None => false | _ => true end = true ->
  stop_step sim_parse sim_hash p (stop_once p).
Proof.
  intros Hr. unfold stop_once. destruct (explicit_buyer_stop _ _ _ _ _ p) as [[r|] p'] eqn:E; [|done].
  refine (step_stop _ _ _ _ _ (ret tt) r _ _ (fun _ => eq_refl) E _). by destruct r.
Qed.
Lemma stops_are_posted_until_one_may_land_witness :
  stop_answers "0:tc" (trace three_stops) = [Ok tt; rejected] /\
  Forall refused (tail (stop_answers "0:tc" (trace three_stops))).
Proof.
  split; [vm_compute; reflexivity|].
  refine (stops_are_posted_until_one_may_land sim_parse sim_hash (sim_process _) three_stops "0:tc" eq_refl eq_refl _).
  unfold three_stops. do 3 (eapply rtc_r; [|apply stop_once_step; vm_compute; reflexivity]). apply rtc_refl.
Defined.

Lemma stops_are_claimed_on_evidence_witness :
  exists s p', explicit_buyer_stop_with sim_parse sim_hash fuel "0:bb" "0:tc" (ret tt) (sim_process [(Ok tt, true)])
                 = (Some (Ok s), p') /\
    stop_answer_is_honest sim_parse sim_hash "0:bb" "0:tc" [] s (trace p').
Proof.
  eexists _, _. split; [vm_compute; reflexivity|].
  refine (proj2 (stops_are_claimed_on_evidence sim_parse sim_hash fuel "0:bb" "0:tc" (ret tt)
            (sim_process [(Ok tt, true)]) _ _ _ _ _)); [done|reflexivity|vm_compute; reflexivity].
Defined.

(** ** What the slot does not cover

    The stop of the heartbeat policy takes no slot: after one whose POST may still
    land, the next explicit stop signs and posts a second STOP for the deal. *)
Definition heartbeat_then_stop : traced SimNet Call :=
  let w1 := snd (backend_stop_if_heartbeat sim_parse sim_hash fuel "0:bb" "0:tc" (ret tt) (fun _ => true)
                   (sim_world [(Ok tt, false); (Ok tt, true)])) in
  pr_world (stop_once (mkProcess ∅ w1)).
Example a_heartbeat_stop_is_posted_again :
  stop_answers "0:tc" (snd heartbeat_then_stop) = [Ok tt; Ok tt].
Proof. vm_compute. reflexivity. Qed.
