(* ===== verification/Buy.v ===== *)
(** * Buy: from the preflight of a buy to its fill
    (crates/core/src/chain/backends.rs and client.rs)

    A buyer's order names a model, so everything that can be known about the deal it
    will fund is read before escrow moves: the book, the rows that can be executed, the
    state and the gas of the deal.  The durable path writes the identity of the signed
    message down before it posts it, and keeps what it expects to be filled until the
    outcome is known.  The chain is any world with these calls; the address parser, the
    hash of a message and the classification of transport failures are parameters. *)
From Stdlib Require Import Ascii.
From S2P Require Import Prelude Text Params MarketTypes Accounting Machine MockDeal MockMarket Backend Select.

(** ** Data *)
Record RealBuyerBackend : Type := mkBuyer {
  bb_model_hash : string; bb_max_price_per_tick : Z; bb_ticks : Z; bb_escrow : Z;
  bb_wait_for_seller : bool }.
Record PendingBuyerFill : Type := mkPending {
  pf_cursor : MatchWatchCursor; pf_expected : option MatchedFill }.
(** The arguments of [placeInferenceBuy]. *)
Record BuyOrder : Type := mkBuyOrder {
  bo_model_hash : string; bo_max_price_per_tick : Z; bo_ticks : Z; bo_escrow : Z;
  bo_flags : Z; bo_deadline : Z }.

(** An outgoing message of the note: when it was made, and what its body decodes to. *)
Record NoteFill : Type := mkNoteFill {
  nf_order_book : string; nf_token_contract : string; nf_order_id : Z; nf_ticks : Z;
  nf_price_per_tick : Z; nf_is_buy : bool }.
Record NoteMessage : Type := mkNoteMessage {
  nm_created_at : option Z; nm_fill : outcome string (option NoteFill) }.

(** The reads and submits of the client.  [by_unix_now] is the local clock, refused
    before the epoch; [by_note_details] is the field [hasWithdrawn] of the note's
    details; [by_note_ecc] its account's own SHELL.  [by_sign] signs one message,
    [by_route] finds where it goes, [by_post] posts it as a plain write and
    [by_post_money] as a money write, whose failure says whether it may have landed. *)
Class BuyChain (W : Type) : Type := {
  by_unix_now : W -> outcome ChainError Z;
  by_chain_time : W -> outcome ChainError Z * W;
  by_book : W -> outcome ChainError OrderBookSnapshot * W;
  by_deal_state : TokenContract -> W -> outcome ChainError (option DealChainState) * W;
  by_subscription : TokenContract -> W -> outcome ChainError (option DealSubscription) * W;
  by_account_active : TokenContract -> W -> outcome ChainError bool * W;
  by_balance : TokenContract -> W -> outcome ChainError Z * W;
  by_max_ticks : TokenContract -> W -> outcome ChainError (option Z) * W;
  by_owner_matches : W -> outcome ChainError unit * W;
  by_note_details : W -> outcome ChainError (option (option bool)) * W;
  by_note_ecc : W -> outcome ChainError (option Z) * W;
  by_note_shell : W -> outcome ChainError Z * W;
  by_book_address : W -> outcome ChainError string * W;
  by_note_messages : W -> outcome ChainError (list NoteMessage) * W;
  by_sign : BuyOrder -> W -> outcome ChainError string * W;
  by_route : string -> W -> outcome ChainError unit * W;
  by_post : string -> W -> outcome ChainError unit * W;
  by_post_money : string -> W -> outcome ChainError unit * W;
  by_settle_week : TokenContract -> W -> outcome ChainError unit * W
}.

(** Durations are milliseconds. *)
Definition ACTIVE_CONTRACT_GAS_HEALTH_MIN_NANOVMSHELL : Z := 5000000000.
Definition TRANSIENT_SUBMIT_RETRIES_BEFORE_FINAL : nat := 8.
Definition TRANSIENT_SUBMIT_INITIAL_BACKOFF : Z := 2000.
Definition TRANSIENT_SUBMIT_MAX_BACKOFF : Z := 8000.
Definition TRANSIENT_SUBMIT_BACKOFF_MULTIPLIER : Z := 2.
Definition INFERENCE_FILL_POLL_INTERVAL : Z := 2000.
Definition BUYER_NOTE_PREFLIGHT_MAX_ATTEMPTS : nat := 3.
Definition BUYER_NOTE_PREFLIGHT_INITIAL_BACKOFF : Z := 250.
Definition BUYER_NOTE_PREFLIGHT_BACKOFF_MULTIPLIER : Z := 2.
Definition CLAIM_CONFIRMATION_MAX_READS : nat := 40.
Definition CLAIM_CONFIRMATION_POLL_INTERVAL : Z := 3000.
Definition BUY_ORDER_GAS_RAW : Z := 25000000.
Definition CHAIN_CLOCK_SKEW_SAFETY_MARGIN_SECS : Z := 10.
Definition SDK_MESSAGE_EXPIRY_SECS : Z := 40.
Definition CONTRACT_MESSAGE_WINDOW_SECS : Z := 300.
Definition MAX_CLOCK_BEHIND_SECS : Z := SDK_MESSAGE_EXPIRY_SECS - CHAIN_CLOCK_SKEW_SAFETY_MARGIN_SECS.
Definition MAX_CLOCK_AHEAD_SECS : Z :=
  CONTRACT_MESSAGE_WINDOW_SECS - SDK_MESSAGE_EXPIRY_SECS - CHAIN_CLOCK_SKEW_SAFETY_MARGIN_SECS.

(** ** Refusals that need no chain *)
(** The status of the check. *)
Definition clock_skew_check (local_unix chain_unix : Z) : bool :=
  if chain_unix <=? local_unix then local_unix - chain_unix <=? MAX_CLOCK_AHEAD_SECS
  else chain_unix - local_unix <=? MAX_CLOCK_BEHIND_SECS.
Definition buy_order_shortfall (private_balance account_ecc escrow : Z) : option string :=
  if private_balance <? escrow then Some "the order escrows more than this note holds"
  else if account_ecc <? BUY_ORDER_GAS_RAW then Some "the placement charge is not covered"
  else None.
Definition buyer_note_withdrawn_guard (details : option (option bool)) : outcome ChainError unit :=
  match details with
  | Some (Some true) => Err (Chain "buyer place aborted: this note has withdrawn")
  | _ => Ok tt
  end.
(** The text of an error, and the answers a plain or money submit is repeated after. *)
Definition message_of (e : ChainError) : string :=
  match e with
  | EndpointsFile m | Chain m | Transport m | Contract m | DuplicateSell m | AmbiguousSubmit m
  | MoneySubmitPreparation m | MoneySubmitRejected m | Limit m => m
  | _ => EmptyString
  end.
Definition is_queue_overflow_submit (e : ChainError) : bool :=
  let message := to_ascii_lowercase (to_text (message_of e)) in
  contains_text (to_text "queue_overflow") message || contains_text (to_text "queue overflow") message
  || contains_text (to_text "message queue is full") message.
Definition is_transient_transport_failure (e : ChainError) : bool :=
  match e with Transport _ => true | _ => false end.
Definition is_transient_submit_failure (e : ChainError) : bool :=
  is_queue_overflow_submit e || is_transient_transport_failure e.
Definition is_decoded_transient_money_rejection (e : ChainError) : bool :=
  match e with MoneySubmitRejected _ => is_transient_submit_failure e | _ => false end.
Definition is_ambiguous_submit (e : ChainError) : bool := match e with AmbiguousSubmit _ => true | _ => false end.

Definition deal_gas_health_floor_raw (max_ticks : Z) : Z := deal_gas_health_floor_raw_with_overhead max_ticks 0.
(** [token_contract_used_reason] under its only caller. *)
Definition token_contract_non_executable_reason (state : option DealChainState) : option string :=
  match state with
  | None => Some "not readable by getState"
  | Some state => match used_reason state with Some _ => Some "already used by chain state" | None => None end
  end.
Definition check_selected_token_contract_unused (state : option DealChainState) : outcome ChainError unit :=
  match token_contract_non_executable_reason state with
  | Some _ => Err (Chain "buyer selected-TC preflight failed: refusing to move escrow")
  | None => Ok tt
  end.
(** [result.map_err(ChainError::Chain)] with its context *)
Definition as_chain {A} (r : outcome string A) : outcome ChainError A :=
  match r with Ok a => Ok a | Err e => Err (Chain e) | Panic => Panic end.
Definition canonical_cli_buy_deadline (now : Z) : outcome ChainError Z :=
  ok_or (default_buy_deadline now) (Chain "current unix time plus the canonical BUY lifetime overflows u64").
Definition validate_cli_buy_deadline_at (deadline now : Z) : outcome ChainError unit :=
  if cli_buy_deadline_is_valid deadline now then Ok tt
  else if deadline =? 0 then Err (Chain "deadline 0 requests GTC, which the strict CLI policy forbids")
  else Err (Chain "BUY deadline must be strictly later than current unix time").

(** ** Fills of the note *)

(** [cmp] by time, contract, ticks and price. *)
Definition fill_key_le (a b : Z * MatchedFill) : bool :=
  if fst a =? fst b then
    let x := snd a in let y := snd b in
    if bool_decide (mf_token_contract x = mf_token_contract y) then
      if mf_ticks x =? mf_ticks y then mf_price_per_tick x <=? mf_price_per_tick y
      else mf_ticks x <? mf_ticks y
    else String.leb (mf_token_contract x) (mf_token_contract y)
  else fst a <? fst b.
(** The key of the set [unique_new]. *)
Definition fill_key (f : Z * MatchedFill) : Z * TokenContract * Z * Z :=
  (fst f, mf_token_contract (snd f), mf_ticks (snd f), mf_price_per_tick (snd f)).
Fixpoint new_fills (cursor : MatchWatchCursor) (fills : list (Z * MatchedFill))
    (unique_new : list (Z * TokenContract * Z * Z)) : list (Z * MatchedFill) :=
  match fills with
  | [] => []
  | fill :: rest =>
      if has_seen cursor (fst fill) (mf_token_contract (snd fill)) then new_fills cursor rest unique_new
      else if bool_decide (fill_key fill ∈ unique_new) then new_fills cursor rest unique_new
      else fill :: new_fills cursor rest (fill_key fill :: unique_new)
  end.
Definition consume_new_fill_batch (cursor : MatchWatchCursor) (fills : list (Z * MatchedFill))
    : list MatchedFill * MatchWatchCursor :=
  let out := new_fills cursor (sort_by fill_key_le fills) [] in
  (map snd out, record_seen_batch cursor (map (fun f => (fst f, mf_token_contract (snd f))) out)).

Definition same_fill (expected fill : MatchedFill) : bool :=
  bool_decide (mf_token_contract fill = mf_token_contract expected)
  && (mf_ticks fill =? mf_ticks expected) && (mf_price_per_tick fill =? mf_price_per_tick expected).
Definition correlate_fill_batch (expected : option MatchedFill) (fills : list MatchedFill)
    : outcome ChainError (option MatchedFill) :=
  match expected with
  | None => Ok (last fills)
  | Some expected =>
      match List.find (same_fill expected) fills with
      | Some fill => Ok (Some fill)
      | None =>
          match fills with
          | [] => Ok None
          | _ :: _ => Err (Chain "buyer fill correlation failed; refusing wrong-fill attribution")
          end
      end
  end.

Section Buyer.
Context (parse_address : string -> option string) (money_submit_identity : string -> string).
Context {W : Type} `{HB : BuyChain W} `{HC : Clock W}.

Definition parse_tc (tc : TokenContract) : outcome ChainError TokenContract :=
  ok_or (parse_address tc) (Chain "bad token_contract").
Definition now_secs : prog W Z := fun w => (Some (by_unix_now w), w).

(** ** Executable rows *)

Definition gas_floor (tc : TokenContract) : prog W Z :=
  let! max_ticks := lift (by_max_ticks tc) in
  ret (match max_ticks with
       | Some max_ticks => deal_gas_health_floor_raw max_ticks
       | None => ACTIVE_CONTRACT_GAS_HEALTH_MIN_NANOVMSHELL
       end).
(** One row: its deal is unused and above its own floor of gas. *)
Definition row_executable (tc : TokenContract) : prog W bool :=
  let! state := lift (by_deal_state tc) in
  match token_contract_non_executable_reason state with
  | Some _ => ret false
  | None =>
      let! balance := lift (by_balance tc) in
      let! floor := gas_floor tc in
      ret (floor <? balance)
  end.
Fixpoint executable_rows (asks : list OrderBookOrder) : prog W (list OrderBookOrder) :=
  match asks with
  | [] => ret []
  | ask :: rest =>
      match ob_token_contract ask with
      | None => executable_rows rest
      | Some token_contract =>
          match parse_address token_contract with
          | None => executable_rows rest
          | Some tc =>
              let! keep := row_executable tc in
              let! rows := executable_rows rest in
              ret (if keep then ask :: rows else rows)
          end
      end
  end.
Definition executable_resting_asks (orders : list OrderBookOrder) : prog W (list OrderBookOrder) :=
  let! now := now_secs in
  let! asks := of_outcome (as_chain (coalesce_equivalent_resting_asks
                 (List.filter (fun ask => is_live_resting_ask_at ask now) orders))) in
  executable_rows asks.

Definition submit_safe_model_buy_ask (snapshot : OrderBookSnapshot) (ticks max_price_per_tick : Z)
    : prog W OrderBookOrder :=
  let! fetch_now := now_secs in
  let raw_asks := resting_asks snapshot in
  let! executable := executable_resting_asks (fst (live_selection_candidates raw_asks fetch_now)) in
  let! now := now_secs in
  of_outcome (as_chain (selected_model_buy_ask_matching_executable_depth raw_asks executable
                          max_price_per_tick ticks now)).

Definition listing (ask : OrderBookOrder) : OfferListing := {|
  ol_seller_id := ob_owner_note ask;
  ol_token_contract := default EmptyString (ob_token_contract ask);
  ol_price_per_tick := Z.min (ob_price_per_tick ask) U64_MAX;
  ol_max_ticks := Z.min (ob_ticks ask) U64_MAX |}.
Definition discover_offers : prog W (list OfferListing) :=
  let! snapshot := lift by_book in
  let! asks := executable_resting_asks (bk_orders snapshot) in
  ret (map listing asks).

(** ** Preflights *)

Definition require_tc_gas (tc : TokenContract) : prog W unit :=
  let! balance := lift (by_balance tc) in
  let! floor := gas_floor tc in
  if balance <=? floor then throw (Chain "native balance is at/below its gas-health floor") else ret tt.

Definition model_buy_preflight_selection_once (me : RealBuyerBackend) (ticks max_price_per_tick : Z)
    : prog W (string * option OrderBookOrder) :=
  let! snapshot := lift by_book in
  if bb_wait_for_seller me then ret (bk_order_book snapshot, None)
  else
    let! selected := submit_safe_model_buy_ask snapshot ticks max_price_per_tick in
    ret (bk_order_book snapshot, Some selected).

Definition checked_target (snapshot : OrderBookSnapshot) (tc : TokenContract) (ticks max_price_per_tick : Z)
    : prog W unit :=
  let! now := now_secs in
  of_outcome (as_chain (check_expected_buy_target (resting_asks snapshot)
                          (of_text (to_ascii_lowercase (to_text tc))) max_price_per_tick ticks now)).
Definition assert_expected_buy_target (tc : TokenContract) (ticks max_price_per_tick : Z) : prog W string :=
  let! snapshot := lift by_book in
  checked_target snapshot tc ticks max_price_per_tick >>!
  ret (bk_order_book snapshot).
Definition assert_selected_tc_unused (token_contract : TokenContract) : prog W unit :=
  let! tc := of_outcome (parse_tc token_contract) in
  let! state := lift (by_deal_state tc) in
  of_outcome (check_selected_token_contract_unused state).

Definition assert_explicit_buy_matches_executable_quote (token_contract : TokenContract)
    (ticks max_price_per_tick : Z) : prog W unit :=
  let! expected := of_outcome (parse_tc token_contract) in
  require_tc_gas expected >>!
  lift by_owner_matches >>!
  assert_expected_buy_target expected ticks max_price_per_tick >>!
  assert_selected_tc_unused expected.
Definition submit_safe_explicit_buy_quote_order (token_contract : TokenContract)
    (ticks max_price_per_tick : Z) : prog W (option OrderBookOrder) :=
  let! expected := of_outcome (parse_tc token_contract) in
  require_tc_gas expected >>!
  lift by_owner_matches >>!
  let! snapshot := lift by_book in
  checked_target snapshot expected ticks max_price_per_tick >>!
  let! selected := submit_safe_model_buy_ask snapshot ticks max_price_per_tick in
  if negb (names expected selected) then throw (Chain "submit-safe executable quote selected another ask")
  else
    assert_selected_tc_unused expected >>!
    ret (Some selected).

(** ** The fill a buyer waits for *)

(** The backend's own memory and the cursor its caller lends it, beside the chain. *)
Record BuyState : Type := mkBuyState {
  bs_pending : option PendingBuyerFill; bs_cursor : MatchWatchCursor; bs_chain : W }.
Definition on_chain {A} (m : prog W A) : prog BuyState A := fun s =>
  let '(r, w) := m (bs_chain s) in (r, mkBuyState (bs_pending s) (bs_cursor s) w).
Definition with_pending (pending : option PendingBuyerFill) (s : BuyState) : BuyState :=
  mkBuyState pending (bs_cursor s) (bs_chain s).
Definition set_pending_fill (pending : option PendingBuyerFill) : prog BuyState unit := run (with_pending pending).
Definition take_pending_fill : prog BuyState (option PendingBuyerFill) :=
  get (fun s => (bs_pending s, with_pending None s)).
Definition set_cursor (cursor : MatchWatchCursor) : prog BuyState unit :=
  run (fun s => mkBuyState (bs_pending s) cursor (bs_chain s)).

(** The fills of the note's messages on one book, for one side of it. *)
Fixpoint fills_of (want_ob : string) (want_is_buy : bool) (messages : list NoteMessage)
    : outcome ChainError (list (Z * MatchedFill)) :=
  match messages with
  | [] => Ok []
  | node :: rest =>
      match nm_fill node with
      | Ok None => fills_of want_ob want_is_buy rest
      | Ok (Some fill) =>
          if negb (Bool.eqb (nf_is_buy fill) want_is_buy) then fills_of want_ob want_is_buy rest
          else
            let got_ob := default (nf_order_book fill) (parse_address (nf_order_book fill)) in
            if negb (bool_decide (got_ob = want_ob)) then fills_of want_ob want_is_buy rest
            else
              let* created_at := ok_or (nm_created_at node) (Chain "InferenceFilledConfirmed has no created_at cursor") in
              let* tc := ok_or (parse_address (nf_token_contract fill)) (Chain "InferenceFilledConfirmed tokenContract") in
              let* more := fills_of want_ob want_is_buy rest in
              Ok ((created_at, mkMatchedFill (nf_order_id fill) tc (nf_ticks fill) (nf_price_per_tick fill)) :: more)
      | Err e => Err (Chain "decode InferenceFilledConfirmed ext-out")
      | Panic => Panic
      end
  end.
(** The cursor moves only when the whole read succeeds. *)
Definition poll_inference_filled_tcs (order_book : string) (cursor : MatchWatchCursor)
    : prog W (list MatchedFill * MatchWatchCursor) :=
  let! messages := lift by_note_messages in
  let! fills := of_outcome (fills_of (default order_book (parse_address order_book)) true messages) in
  ret (consume_new_fill_batch cursor fills).

(** ** One submit *)

Definition clock_skew_preflight : prog W unit :=
  let! local_unix := now_secs in
  let! chain_unix := lift by_chain_time in
  if clock_skew_check local_unix chain_unix then ret tt else throw (Chain "CLOCK_SKEW").

(** [for attempt in 1..=RETRIES], then the final attempt as it is: the loop of
    [retry_submit] and of [retry_buyer_money_submit]. *)
Fixpoint retry_sends (again : ChainError -> bool) (send : W -> outcome ChainError unit * W)
    (attempts : nat) (delay : Z) : prog W unit :=
  match attempts with
  | O => lift send
  | S attempts =>
      let! sent := attempt send in
      match sent with
      | Ok _ => ret tt
      | Err error =>
          if again error then
            run (sleep delay) >>!
            retry_sends again send attempts
              (Z.min (delay * TRANSIENT_SUBMIT_BACKOFF_MULTIPLIER) TRANSIENT_SUBMIT_MAX_BACKOFF)
          else throw error
      | Panic => panic
      end
  end.
Definition retry_submit (boc : string) : prog W unit :=
  clock_skew_preflight >>!
  retry_sends is_transient_submit_failure (by_post boc)
    TRANSIENT_SUBMIT_RETRIES_BEFORE_FINAL TRANSIENT_SUBMIT_INITIAL_BACKOFF.
Definition retry_buyer_money_submit (boc : string) : prog W unit :=
  retry_sends is_decoded_transient_money_rejection (by_post_money boc)
    TRANSIENT_SUBMIT_RETRIES_BEFORE_FINAL TRANSIENT_SUBMIT_INITIAL_BACKOFF.

(** A balance that does not read is not a shortfall. *)
Definition refuse_buy_order_the_note_cannot_place (escrow : Z) : prog W unit :=
  let! account := attempt by_note_ecc in
  match account with
  | Ok (Some account_ecc) =>
      let! shell := attempt by_note_shell in
      match shell with
      | Ok private_balance =>
          match buy_order_shortfall private_balance account_ecc escrow with
          | Some reason => throw (Chain "placeInferenceBuy refused before submit")
          | None => ret tt
          end
      | _ => ret tt
      end
  | _ => ret tt
  end.
Definition place_inference_buy (order : BuyOrder) : prog W unit :=
  refuse_buy_order_the_note_cannot_place (bo_escrow order) >>!
  let! boc := lift (by_sign order) in
  retry_submit boc.

Fixpoint note_details (attempts : nat) (delay : Z) : prog W (option (option bool)) :=
  match attempts with
  | O => panic
  | S O => lift by_note_details
  | S attempts =>
      let! details := attempt by_note_details in
      match details with
      | Ok value => ret value
      | Err _ =>
          run (sleep delay) >>!
          note_details attempts (delay * BUYER_NOTE_PREFLIGHT_BACKOFF_MULTIPLIER)
      | Panic => panic
      end
  end.
Definition assert_note_can_place_inference_buy : prog W unit :=
  let! details := note_details BUYER_NOTE_PREFLIGHT_MAX_ATTEMPTS BUYER_NOTE_PREFLIGHT_INITIAL_BACKOFF in
  of_outcome (buyer_note_withdrawn_guard details).

(** ** The order *)

Definition buyer_order (me : RealBuyerBackend) (max_price_per_tick ticks escrow deadline : Z) : BuyOrder :=
  mkBuyOrder (bb_model_hash me) max_price_per_tick ticks escrow (buyer_order_flags (bb_wait_for_seller me)) deadline.

Definition place_buy (me : RealBuyerBackend) (token_contract : TokenContract) : prog W unit :=
  let! expected := of_outcome (parse_tc token_contract) in
  require_tc_gas expected >>!
  lift by_owner_matches >>!
  assert_note_can_place_inference_buy >>!
  assert_expected_buy_target expected (bb_ticks me) (bb_max_price_per_tick me) >>!
  assert_selected_tc_unused expected >>!
  let! now := now_secs in
  let! deadline := of_outcome (canonical_cli_buy_deadline now) in
  place_inference_buy (buyer_order me (bb_max_price_per_tick me) (bb_ticks me) (bb_escrow me) deadline).

(** What the selected ask will be filled as. *)
Definition expected_fill (selected : OrderBookOrder) (ticks : Z) : prog W MatchedFill :=
  let! selected_tc := of_outcome (ok_or (ob_token_contract selected)
                        (Chain "selected order has no TokenContract")) in
  assert_selected_tc_unused selected_tc >>!
  let! tc := of_outcome (parse_tc selected_tc) in
  ret (mkMatchedFill (ob_order_id selected) tc ticks (ob_price_per_tick selected)).
Definition parse_order_book (order_book : string) : outcome ChainError string :=
  ok_or (parse_address order_book) (Chain "invalid InferenceOrderBook").

(** [if submit.is_err() { forget }; submit?] *)
Definition forgetting (forget : ChainError -> bool) (m : prog W unit) : prog BuyState unit := fun s =>
  match on_chain m s with
  | (Some (Err e), s') => (Some (Err e), if forget e then with_pending None s' else s')
  | r => r
  end.

Definition place_buy_by_model (me : RealBuyerBackend) (ticks max_price_per_tick escrow deadline : Z)
    : prog BuyState unit :=
  let! now := on_chain now_secs in
  of_outcome (validate_cli_buy_deadline_at deadline now) >>!
  of_outcome (as_chain (check_buy_deposit_headroom escrow ticks max_price_per_tick)) >>!
  on_chain (lift by_owner_matches) >>!
  on_chain (assert_note_can_place_inference_buy) >>!
  let! '(order_book, selected) := on_chain (model_buy_preflight_selection_once me ticks max_price_per_tick) in
  let! expected :=
    match selected with
    | Some selected => let! fill := on_chain (expected_fill selected ticks) in ret (Some fill)
    | None => ret None
    end in
  let! ob := of_outcome (parse_order_book order_book) in
  let! '(_, cursor) := on_chain (poll_inference_filled_tcs ob (cursor_new 0)) in
  set_pending_fill (Some (mkPending cursor expected)) >>!
  forgetting (fun _ => true) (place_inference_buy (buyer_order me max_price_per_tick ticks escrow deadline)).

(** ** The durable submit *)

(** [.map_err(|source| MoneySubmitError::Preparation { source })] *)
Definition preparing {V A} (m : prog V A) : prog V A := fun s =>
  match m s with
  | (Some (Err e), s') => (Some (Err (MoneySubmitPreparation (message_of e))), s')
  | r => r
  end.
Definition prepare_money_post (order : BuyOrder) : prog W string :=
  preparing clock_skew_preflight >>!
  let! boc := preparing (lift (by_sign order)) in
  preparing (lift (by_route boc)) >>!
  ret boc.
Definition place_inference_buy_with_submit_identity (order_book : string) (order : BuyOrder)
    (before_post : string -> MatchWatchCursor -> Z -> prog BuyState unit) : prog BuyState unit :=
  let! boc := on_chain (prepare_money_post order) in
  let! '(_, final_cursor) := preparing (on_chain (poll_inference_filled_tcs order_book (cursor_new 0))) in
  set_cursor final_cursor >>!
  let! note_shell_balance := preparing (on_chain (lift by_note_shell)) in
  preparing (before_post (money_submit_identity boc) final_cursor note_shell_balance) >>!
  on_chain (retry_buyer_money_submit boc).

Definition forget_unless_ambiguous (m : prog BuyState unit) : prog BuyState unit := fun s =>
  match m s with
  | (Some (Ok _), s') => (Some (Ok tt), s')
  | (Some (Err e), s') => (Some (Err e), if is_ambiguous_submit e then s' else with_pending None s')
  | (Some Panic, s') => (Some Panic, s')
  | (None, s') => (None, s')
  end.

Definition place_buy_by_model_with_submit_identity (me : RealBuyerBackend)
    (quoted_order : option OrderBookOrder) (ticks max_price_per_tick escrow : Z)
    (before_post : string -> MatchWatchCursor -> Z -> prog W unit) : prog BuyState unit :=
  of_outcome (as_chain (check_buy_deposit_headroom escrow ticks max_price_per_tick)) >>!
  on_chain (lift by_owner_matches) >>!
  on_chain (assert_note_can_place_inference_buy) >>!
  let! '(order_book, selected) := on_chain (model_buy_preflight_selection_once me ticks max_price_per_tick) in
  let! expected :=
    match selected with
    | Some selected =>
        of_outcome (ensure_pre_submit_quote_unchanged quoted_order selected) >>!
        let! fill := on_chain (expected_fill selected ticks) in ret (Some fill)
    | None =>
        match quoted_order with
        | Some _ => throw (Chain "buyer wait-for-seller preflight unexpectedly received a quoted ask")
        | None => ret None
        end
    end in
  let! ob := of_outcome (parse_order_book order_book) in
  set_pending_fill (Some (mkPending (cursor_new 0) expected)) >>!
  let! now := on_chain now_secs in
  let! deadline := of_outcome (canonical_cli_buy_deadline now) in
  forget_unless_ambiguous
    (place_inference_buy_with_submit_identity ob (buyer_order me max_price_per_tick ticks escrow deadline)
       (fun identity final_cursor note_shell_balance =>
          set_pending_fill (Some (mkPending final_cursor expected)) >>!
          on_chain (before_post identity final_cursor note_shell_balance))).

(** ** The fill *)

Fixpoint wait_correlated_inference_fill (fuel : nat) (order_book : string) (cursor : MatchWatchCursor)
    (expected : option MatchedFill) (start timeout : Z) : prog W MatchedFill :=
  match fuel with
  | O => out_of_fuel
  | S fuel =>
      let! '(fills, cursor) := poll_inference_filled_tcs order_book cursor in
      let! found := of_outcome (correlate_fill_batch expected fills) in
      match found with
      | Some fill => ret fill
      | None =>
          let! now := get (fun w => (clock_now w, w)) in
          if timeout <=? now - start then throw (Chain "timed out waiting for InferenceFilledConfirmed")
          else
            run (sleep INFERENCE_FILL_POLL_INTERVAL) >>!
            wait_correlated_inference_fill fuel order_book cursor expected start timeout
      end
  end.
Definition wait_matched_token_contract (fuel : nat) (since timeout : Z) : prog BuyState (option MatchedFill) :=
  let! ob := on_chain (lift by_book_address) in
  let! pending := take_pending_fill in
  let cursor := from_option pf_cursor (cursor_new since) pending in
  let expected := pending ≫= pf_expected in
  let! start := get (fun s => (clock_now (bs_chain s), s)) in
  let! fill := on_chain (wait_correlated_inference_fill fuel ob cursor expected start timeout) in
  ret (Some fill).

Definition poll_matched_model_buys_for_order_book (order_book : string) (cursor : MatchWatchCursor)
    : prog W (list MatchedFill * MatchWatchCursor) :=
  let! ob := of_outcome (parse_order_book order_book) in
  poll_inference_filled_tcs ob cursor.

(** ** The buyer's own week *)

Definition required_subscription_week_index (subscription : option DealSubscription) : outcome ChainError Z :=
  ok_or (option_map week_index subscription) (Chain "getSubscription() returned no data").
Definition settle_week_post_confirmed (pre_week_index : Z) (subscription : option DealSubscription)
    (token_contract_active : bool) : outcome ChainError bool :=
  match subscription with
  | Some state => Ok (pre_week_index <? week_index state)
  | None =>
      if negb token_contract_active then Ok true
      else Err (Chain "getSubscription() returned no data after settleWeek while still active")
  end.
Fixpoint confirm_week (reads : nat) (tc : TokenContract) (pre : Z) : prog W unit :=
  match reads with
  | O => throw (Chain "settleWeek did not advance weekIndex")
  | S reads =>
      let! post := lift (by_subscription tc) in
      let! active := match post with None => lift (by_account_active tc) | Some _ => ret true end in
      let! confirmed := of_outcome (settle_week_post_confirmed pre post active) in
      if confirmed then ret tt
      else run (sleep CLAIM_CONFIRMATION_POLL_INTERVAL) >>! confirm_week reads tc pre
  end.
Definition settle_week (token_contract : TokenContract) : prog W unit :=
  let! tc := of_outcome (parse_tc token_contract) in
  let! before := lift (by_subscription tc) in
  let! pre := of_outcome (required_subscription_week_index before) in
  require_tc_gas tc >>!
  lift (by_settle_week tc) >>!
  confirm_week CLAIM_CONFIRMATION_MAX_READS tc pre.
End Buyer.
Arguments BuyState : clear implicits.
