(* ===== verification/BuySafety.v ===== *)
(** * BuySafety: what a buy rests on when it is posted

    A traced chain records the reads and the posts of a buy.  The reads have one lemma
    each, and the last section puts them together: what is known when the book's best
    ask was chosen and its deal found unused. *)
From S2P Require Import Prelude Text Params MarketTypes Accounting Machine MockDeal MockMarket Backend Offer.
From S2P Require Import Trace Quote Select SelectSpec Buy MarketTypes.

Inductive BuyCall : Type :=
| KBook (answer : outcome ChainError OrderBookSnapshot)
| KState (tc : TokenContract) (answer : outcome ChainError (option DealChainState))
| KMessages (answer : outcome ChainError (list NoteMessage))
| KAddress (answer : outcome ChainError string)
| KBeforePost (identity : string) (cursor : MatchWatchCursor) (balance : Z) (answer : outcome ChainError unit)
| KPost (boc : string) (answer : outcome ChainError unit)
| KPostMoney (boc : string) (answer : outcome ChainError unit)
| KSettleWeek (tc : TokenContract) (answer : outcome ChainError unit)
| KSubscription (tc : TokenContract) (answer : outcome ChainError (option DealSubscription))
| KActive (tc : TokenContract) (answer : outcome ChainError bool).

#[export] Instance traced_buys {W} `{BuyChain W} : BuyChain (traced W BuyCall) := {|
  by_unix_now w := by_unix_now (fst w);
  by_chain_time := silent by_chain_time;
  by_book := entered KBook by_book;
  by_deal_state tc := entered (KState tc) (by_deal_state tc);
  by_subscription tc := entered (KSubscription tc) (by_subscription tc);
  by_account_active tc := entered (KActive tc) (by_account_active tc);
  by_balance tc := silent (by_balance tc);
  by_max_ticks tc := silent (by_max_ticks tc);
  by_owner_matches := silent by_owner_matches;
  by_note_details := silent by_note_details;
  by_note_ecc := silent by_note_ecc;
  by_note_shell := silent by_note_shell;
  by_book_address := entered KAddress by_book_address;
  by_note_messages := entered KMessages by_note_messages;
  by_sign order := silent (by_sign order);
  by_route boc := silent (by_route boc);
  by_post boc := entered (KPost boc) (by_post boc);
  by_post_money boc := entered (KPostMoney boc) (by_post_money boc);
  by_settle_week tc := entered (KSettleWeek tc) (by_settle_week tc) |}.

(** The calls that move money or change the deal. *)
#[export] Instance buy_posting : Posting BuyCall := fun c =>
  match c with KPost _ _ | KPostMoney _ _ | KSettleWeek _ _ => true | _ => false end.

(** A message is sent again and again, and nothing else is recorded. *)
Lemma learns_retry_sends {W E} `{Clock W} (ok : E -> bool) again (e : outcome ChainError unit -> E)
    (f : W -> outcome ChainError unit * W) attempts delay : (forall r, ok (e r) = true) ->
  learns (S:=traced W E) snd ok (retry_sends again (entered e f) attempts delay) knows_nothing.
Proof.
  intros He. revert delay. induction attempts as [|attempts IH]; intros delay; simpl.
  { by eapply learns_weak, learns_entered. }
  apply learns_after.
  - intros t0 w <-. unfold attempt, entered. destruct (f (fst w)) as [[] ?]; simpl;
      try (by apply grown_cons, grown_refl); (split; [by apply grown_cons, grown_refl|done]).
  - intros [[]|error|]; [by apply learns_ret| |apply learns_panic].
    destruct (again error); [|apply learns_throw]. apply learns_after; [by apply learns_run|]. intros ?. apply IH.
Qed.

(** ** Reads that leave no mark of their own

    Over a world whose buyer calls add only calls of one kind to its trace, every
    program made of reads does. *)
Lemma learns_attempt {S E} (tr : S -> list E) (ok : E -> bool) {A} (f : S -> outcome ChainError A * S) :
  learns tr ok (lift f) knows_nothing -> learns tr ok (attempt f) knows_nothing.
Proof.
  intros Hf t0 s Hs. specialize (Hf t0 s Hs). unfold lift, attempt in *. destruct (f s) as [[] s']; simpl in *; first [exact Hf|by split].
Qed.
Class QuietBuys {S E} (tr : S -> list E) (ok : E -> bool) `{BuyChain S} : Prop := {
  quiet_chain_time : learns tr ok (lift by_chain_time) knows_nothing;
  quiet_book : learns tr ok (lift by_book) knows_nothing;
  quiet_deal_state tc : learns tr ok (lift (by_deal_state tc)) knows_nothing;
  quiet_balance tc : learns tr ok (lift (by_balance tc)) knows_nothing;
  quiet_max_ticks tc : learns tr ok (lift (by_max_ticks tc)) knows_nothing;
  quiet_owner_matches : learns tr ok (lift by_owner_matches) knows_nothing;
  quiet_note_details : learns tr ok (lift by_note_details) knows_nothing;
  quiet_note_ecc : learns tr ok (lift by_note_ecc) knows_nothing;
  quiet_note_shell : learns tr ok (lift by_note_shell) knows_nothing;
  quiet_book_address : learns tr ok (lift by_book_address) knows_nothing;
  quiet_note_messages : learns tr ok (lift by_note_messages) knows_nothing;
  quiet_sign order : learns tr ok (lift (by_sign order)) knows_nothing;
  quiet_route boc : learns tr ok (lift (by_route boc)) knows_nothing }.
Class QuietSleep {S E} (tr : S -> list E) `{Clock S} : Prop := quiet_sleep d s : tr (sleep d s) = tr s.
#[export] Instance traced_sleep {W E} `{Clock W} : QuietSleep (S:=traced W E) snd.
Proof. done. Qed.

Section Quiet.
Context (parse_address : string -> option string) (money_submit_identity : string -> string).
Context {S E : Type} (tr : S -> list E) (ok : E -> bool) `{HB : BuyChain S} `{HQ : !QuietBuys tr ok}.
Abbreviation quiet m := (learns tr ok m knows_nothing).
Hint Resolve quiet_chain_time quiet_book quiet_deal_state quiet_balance quiet_max_ticks quiet_owner_matches
  quiet_note_details quiet_note_ecc quiet_note_shell quiet_book_address quiet_note_messages quiet_sign quiet_route : learns.
Hint Extern 1 (learns _ _ (attempt _) knows_nothing) => apply learns_attempt : learns.
Hint Extern 2 (learns _ _ (run (sleep _)) knows_nothing) => apply learns_run, quiet_sleep : learns.

Lemma quiet_now : quiet now_secs.
Proof. intros t0 s <-. unfold now_secs. destruct (by_unix_now s); try apply grown_refl. split; [apply grown_refl|done]. Qed.
Hint Resolve quiet_now : learns.
Lemma quiet_gas_floor tc : quiet (gas_floor tc).
Proof. unfold gas_floor. knowing. Qed.
Hint Resolve quiet_gas_floor : learns.
Lemma quiet_require_tc_gas tc : quiet (require_tc_gas tc).
Proof. unfold require_tc_gas. knowing. Qed.
Lemma quiet_row tc : quiet (row_executable tc).
Proof. unfold row_executable. knowing. Qed.
Hint Resolve quiet_row quiet_require_tc_gas : learns.
Lemma quiet_rows asks : quiet (executable_rows parse_address asks).
Proof. induction asks; simpl; knowing. Qed.
Hint Resolve quiet_rows : learns.
Lemma quiet_executable orders : quiet (executable_resting_asks parse_address orders).
Proof. unfold executable_resting_asks. knowing. Qed.
Hint Resolve quiet_executable : learns.
Lemma quiet_details `{Clock S, !QuietSleep tr} attempts delay : quiet (note_details attempts delay).
Proof.
  revert delay. induction attempts as [|attempts IH]; intros delay; simpl; [knowing|].
  destruct attempts; knowing.
Qed.
Hint Resolve quiet_details : learns.
Lemma quiet_can_place `{Clock S, !QuietSleep tr} : quiet assert_note_can_place_inference_buy.
Proof. unfold assert_note_can_place_inference_buy. knowing. Qed.
Lemma quiet_skew : quiet clock_skew_preflight.
Proof. unfold clock_skew_preflight. knowing. Qed.
Lemma quiet_shortfall escrow : quiet (refuse_buy_order_the_note_cannot_place escrow).
Proof. unfold refuse_buy_order_the_note_cannot_place. knowing. Qed.
Hint Resolve quiet_can_place quiet_skew quiet_shortfall : learns.
Lemma quiet_preparing {A} (m : prog S A) F : learns tr ok m F -> learns tr ok (preparing m) F.
Proof. intros Hm t0 s Hs. specialize (Hm t0 s Hs). unfold preparing. by destruct (m s) as [[[a|e|]|] s']. Qed.
Hint Resolve quiet_preparing : learns.
Lemma quiet_prepare order : quiet (prepare_money_post order).
Proof. unfold prepare_money_post. knowing. Qed.
Lemma quiet_safe_ask snapshot ticks cap : quiet (submit_safe_model_buy_ask parse_address snapshot ticks cap).
Proof. unfold submit_safe_model_buy_ask. knowing. Qed.
Hint Resolve quiet_safe_ask : learns.
Lemma quiet_selection me ticks cap : quiet (model_buy_preflight_selection_once parse_address me ticks cap).
Proof. unfold model_buy_preflight_selection_once. knowing. Qed.
Lemma quiet_unused_check tc : quiet (assert_selected_tc_unused parse_address tc).
Proof. unfold assert_selected_tc_unused. knowing. Qed.
Hint Resolve quiet_unused_check : learns.
Lemma quiet_expected_fill ask ticks : quiet (expected_fill parse_address ask ticks).
Proof. unfold expected_fill. knowing. Qed.

(** A poll reports fills of messages the note was read to hold. *)
Lemma learns_poll_of (F : list NoteMessage -> list E -> Prop) ob cursor :
  learns tr ok (lift by_note_messages) F -> (forall ms t0 t, grown ok t0 t -> F ms t0 -> F ms t) ->
  learns tr ok (poll_inference_filled_tcs parse_address ob cursor)
    (fun r t => exists messages fills, F messages t /\
       fills_of parse_address (default ob (parse_address ob)) true messages = Ok fills /\
       r = consume_new_fill_batch cursor fills).
Proof.
  intros Hm HF. unfold poll_inference_filled_tcs. eapply learns_bind; [exact Hm| |].
  - intros messages. eapply (learns_bind _ _ _ _ _ (fun fills r _ => r = consume_new_fill_batch cursor fills)
      (fun r _ => exists fills, fills_of parse_address (default ob (parse_address ob)) true messages = Ok fills /\
                   r = consume_new_fill_batch cursor fills)); [apply learns_outcome| |].
    + intros fills. by apply learns_ret.
    + intros fills r t t' Hf _ ->. by exists fills.
  - simpl. intros messages r t t' Ht Hg (fills & Hf & ->). exists messages, fills. split; [by eapply HF|done].
Qed.
Lemma quiet_poll ob cursor : quiet (poll_inference_filled_tcs parse_address ob cursor).
Proof.
  eapply learns_weak, (learns_poll_of knows_nothing); [apply quiet_note_messages|done].
Qed.
End Quiet.

#[export] Instance quiet_buys {W} `{BuyChain W} : QuietBuys (S:=traced W BuyCall) snd is_read.
Proof. constructor; intros; first [apply learns_silent | eapply learns_weak, learns_entered; done | done]. Qed.

Section Reads.
Context (parse_address : string -> option string) (money_submit_identity : string -> string).
Context {W : Type} `{HB : BuyChain W} `{HC : Clock W}.
Abbreviation world := (traced W BuyCall).
Abbreviation read := (learns (S:=world) snd is_read).

(** The composite reads of a buyer's chain. *)
Lemma learns_now : read (now_secs (W:=world)) knows_nothing.
Proof. apply (quiet_now snd is_read). Qed.
Lemma learns_row tc : read (row_executable (W:=world) tc) knows_nothing.
Proof. apply (quiet_row snd is_read). Qed.
Lemma learns_require_tc_gas tc : read (require_tc_gas (W:=world) tc) knows_nothing.
Proof. apply (quiet_require_tc_gas snd is_read). Qed.
Lemma learns_can_place : read (assert_note_can_place_inference_buy (W:=world)) knows_nothing.
Proof. apply (quiet_can_place snd is_read). Qed.
Lemma learns_skew : read (clock_skew_preflight (W:=world)) knows_nothing.
Proof. apply (quiet_skew snd is_read). Qed.
Lemma learns_shortfall escrow : read (refuse_buy_order_the_note_cannot_place (W:=world) escrow) knows_nothing.
Proof. apply (quiet_shortfall snd is_read). Qed.
Lemma learns_prepare order : read (prepare_money_post (W:=world) order) knows_nothing.
Proof. apply (quiet_prepare snd is_read). Qed.

(** What the reads of a book and of a deal leave in the trace. *)
Definition saw_book (snapshot : OrderBookSnapshot) (t : list BuyCall) : Prop := KBook (Ok snapshot) ∈ t.
Definition saw_unused (tc : TokenContract) (t : list BuyCall) : Prop :=
  exists state, KState tc (Ok (Some state)) ∈ t /\ used_reason state = None.

Lemma learns_book : read (lift (by_book (W:=world))) saw_book.
Proof. by apply learns_entered. Qed.
Lemma learns_state tc : read (lift (by_deal_state (W:=world) tc)) (fun state t => KState tc (Ok state) ∈ t).
Proof. by apply learns_entered. Qed.
Lemma learns_messages : read (lift (by_note_messages (W:=world))) (fun ms t => KMessages (Ok ms) ∈ t).
Proof. by apply learns_entered. Qed.

Lemma learns_poll ob cursor :
  read (poll_inference_filled_tcs parse_address (W:=world) ob cursor)
    (fun r t => exists messages fills, KMessages (Ok messages) ∈ t /\
       fills_of parse_address (default ob (parse_address ob)) true messages = Ok fills /\
       r = consume_new_fill_batch cursor fills).
Proof. apply learns_poll_of; [apply learns_messages|]. intros ms t0 t Hg. by eapply grown_elem. Qed.
End Reads.

(** ** The evidence behind a post *)
Section Evidence.
Context (parse_address : string -> option string).
Context {W : Type} `{HB : BuyChain W} `{HC : Clock W}.
Abbreviation world := (traced W BuyCall).
Abbreviation read := (learns (S:=world) snd is_read).

(** The book was read and its best ask for this volume, at some time the client's clock
    showed, is this one. *)
Definition chosen (ticks cap : Z) (ask : OrderBookOrder) (t : list BuyCall) : Prop :=
  exists snapshot now raw_ask,
    saw_book snapshot t /\ selected_model_buy_ask (resting_asks snapshot) cap ticks now = Ok raw_ask /\
    In ask (resting_asks snapshot) /\ ob_order_id ask = ob_order_id raw_ask.
(** The deal an ask names was read unused. *)
Definition unused (ask : OrderBookOrder) (tc : TokenContract) (t : list BuyCall) : Prop :=
  exists raw, ob_token_contract ask = Some raw /\ parse_address raw = Some tc /\ saw_unused tc t.

Lemma saw_unused_grown ok tc t0 t : grown ok t0 t -> saw_unused tc t0 -> saw_unused tc t.
Proof. intros Hg (state & Hs & Hu). exists state. split; [by eapply grown_elem|done]. Qed.
Lemma chosen_grown ok ticks cap ask t0 t : grown ok t0 t -> chosen ticks cap ask t0 -> chosen ticks cap ask t.
Proof. intros Hg (b & now & a & Hb & Ha). exists b, now, a. split; [by eapply grown_elem|done]. Qed.
Lemma unused_grown ok ask tc t0 t : grown ok t0 t -> unused ask tc t0 -> unused ask tc t.
Proof. intros Hg (raw & Hr & Hp & Hu). exists raw. split_and!; [done..|]. by eapply saw_unused_grown. Qed.

Lemma coalesce_in orders asks a :
  coalesce_equivalent_resting_asks orders = Ok asks -> In a asks -> In a orders.
Proof.
  intros Hc Ha. destruct (coalesce_spec _ _ Hc) as (Hf & _). rewrite Forall_forall in Hf.
  by apply Hf, list_elem_of_In.
Qed.
Lemma selected_in asks cap ticks now a : selected_model_buy_ask asks cap ticks now = Ok a -> In a asks.
Proof.
  intros Hs. destruct (coalesced_live_candidates asks now) as [[live lapsed]| |] eqn:Ec.
  - pose proof (selected_least asks cap ticks now _ _ Ec) as Hl. rewrite Hs in Hl. by destruct Hl.
  - unfold selected_model_buy_ask in Hs. by rewrite Ec in Hs.
  - unfold selected_model_buy_ask in Hs. by rewrite Ec in Hs.
Qed.
Lemma matching_depth raw_asks executable cap ticks now a :
  selected_model_buy_ask_matching_executable_depth raw_asks executable cap ticks now = Ok a ->
  In a executable /\ exists raw, selected_model_buy_ask raw_asks cap ticks now = Ok raw /\ ob_order_id a = ob_order_id raw.
Proof.
  unfold selected_model_buy_ask_matching_executable_depth, wrap. intros Hs.
  destruct (selected_model_buy_ask raw_asks cap ticks now) as [r| |]; try done.
  destruct (selected_model_buy_ask executable cap ticks now) as [b| |] eqn:Eb; try done.
  repeat ok_step Hs. simplify_eq. apply orb_false_iff in E as [_ E]. apply negb_false_iff, Z.eqb_eq in E.
  split; [by eapply selected_in|]. by exists r.
Qed.
Lemma as_chain_ok {A} (r : outcome string A) a : as_chain r = Ok a -> r = Ok a.
Proof. by destruct r; intros [= ->]. Qed.

Lemma learns_rows_in asks :
  read (executable_rows parse_address (W:=world) asks) (fun rows _ => forall a, In a rows -> In a asks).
Proof.
  induction asks as [|ask asks IH]; simpl; [by apply learns_ret|].
  assert (read (executable_rows parse_address (W:=world) asks) (fun rows _ => forall a, In a rows -> ask = a \/ In a asks))
    as IH'.
  { intros t0 w Hw. specialize (IH t0 w Hw). destruct (executable_rows _ asks w) as [[[a|e|]|] w']; naive_solver. }
  destruct (ob_token_contract ask); [|done]. destruct (parse_address _); [|done].
  eapply learns_bind; [apply learns_row|intros keep|].
  - eapply (learns_bind _ _ _ _ _ (fun rows out _ => out = if keep : bool then ask :: rows else rows)); [exact IH| |].
    + intros rows. by apply learns_ret.
    + intros rows out t t' Hr _ ->. cbn beta in Hr.
      instantiate (1 := fun _ out _ => forall a, In a out -> ask = a \/ In a asks).
      intros a. destruct keep; simpl; naive_solver.
  - simpl. auto.
Qed.
Lemma learns_executable_in orders :
  read (executable_resting_asks parse_address (W:=world) orders) (fun rows _ => forall a, In a rows -> In a orders).
Proof.
  unfold executable_resting_asks. apply learns_after; [apply learns_now|]. intros now.
  eapply learns_bind; [apply learns_outcome|intros asks; apply learns_rows_in|].
  simpl. intros asks rows t t' Ha%as_chain_ok _ Hr a Hin. eapply coalesce_in in Ha; [|by apply Hr].
  apply filter_In in Ha. tauto.
Qed.

Lemma learns_submit_safe snapshot ticks cap :
  read (submit_safe_model_buy_ask parse_address (W:=world) snapshot ticks cap)
    (fun a _ => In a (resting_asks snapshot) /\ exists now raw,
       selected_model_buy_ask (resting_asks snapshot) cap ticks now = Ok raw /\ ob_order_id a = ob_order_id raw).
Proof.
  unfold submit_safe_model_buy_ask. apply learns_after; [apply learns_now|]. intros fetch_now.
  eapply learns_bind; [apply learns_executable_in|intros rows; apply learns_after; [apply learns_now|]|].
  - intros now.
    instantiate (1 := fun rows a _ => exists now raw, In a rows /\
      selected_model_buy_ask (resting_asks snapshot) cap ticks now = Ok raw /\ ob_order_id a = ob_order_id raw).
    intros t0 w <-. pose proof (learns_outcome (S:=world) snd is_read
      (as_chain (selected_model_buy_ask_matching_executable_depth (resting_asks snapshot) rows cap ticks now)) _ w eq_refl) as Ho.
    destruct (of_outcome _ w) as [[[a|e|]|] w']; [|exact Ho..]. destruct Ho as [? Ho%as_chain_ok]. split; [done|].
    apply matching_depth in Ho as (? & raw & ? & ?). by exists now, raw.
  - simpl. intros rows a t t' Hr _ (now & raw & Hin & Hs & Hid). split; [|by exists now, raw].
    apply Hr in Hin. apply filter_In in Hin as [Hin _].
    apply filter_In in Hin. tauto.
Qed.

(** ** Preflights *)
Lemma learns_preflight me ticks cap :
  read (model_buy_preflight_selection_once parse_address (W:=world) me ticks cap)
    (fun r t => if bb_wait_for_seller me then snd r = None
                else exists ask, snd r = Some ask /\ chosen ticks cap ask t).
Proof.
  unfold model_buy_preflight_selection_once. eapply learns_bind; [apply learns_book|intros snapshot|].
  - instantiate (1 := fun snapshot r _ => if bb_wait_for_seller me then snd r = None else exists ask now raw,
      snd r = Some ask /\ In ask (resting_asks snapshot) /\
      selected_model_buy_ask (resting_asks snapshot) cap ticks now = Ok raw /\ ob_order_id ask = ob_order_id raw).
    destruct (bb_wait_for_seller me); [by apply learns_ret|].
    eapply (learns_bind _ _ _ _ _ (fun ask r _ => snd r = Some ask)); [apply learns_submit_safe|intros ask; by apply learns_ret|].
    simpl. intros ask r t t' (Hin & now & raw & Hs & Hid) _ Hr. exists ask, now, raw. done.
  - simpl. intros snapshot r t t' Hb Hg Hr. destruct (bb_wait_for_seller me); [done|].
    destruct Hr as (ask & now & raw & Hr & Hin & Hs & Hid). exists ask. split; [done|].
    exists snapshot, now, raw. split_and!; try done. by eapply grown_elem.
Qed.
Lemma learns_unused tc :
  read (assert_selected_tc_unused parse_address (W:=world) tc)
    (fun _ t => exists tc', parse_address tc = Some tc' /\ saw_unused tc' t).
Proof.
  unfold assert_selected_tc_unused. eapply learns_bind; [apply learns_outcome|intros tc'|].
  - instantiate (1 := fun tc' _ t => saw_unused tc' t).
    eapply learns_bind; [apply learns_state|intros state; apply learns_outcome|].
    cbn beta. intros state [] t t' Hs Hg Hu. unfold check_selected_token_contract_unused in Hu.
    destruct state as [state|]; [|done]. simpl in Hu. exists state. split; [by eapply grown_elem|].
    by destruct (used_reason state).
  - cbn beta. intros tc' _ t t' Hp%ok_or_ok _ Hu. by exists tc'.
Qed.
Lemma learns_expected ask ticks :
  read (expected_fill parse_address (W:=world) ask ticks)
    (fun fill t => exists tc, unused ask tc t /\ fill = mkMatchedFill (ob_order_id ask) tc ticks (ob_price_per_tick ask)).
Proof.
  unfold expected_fill. eapply learns_bind; [apply learns_outcome|intros raw|].
  - instantiate (1 := fun raw fill t => exists tc, parse_address raw = Some tc /\ saw_unused tc t /\
      fill = mkMatchedFill (ob_order_id ask) tc ticks (ob_price_per_tick ask)).
    eapply learns_bind; [apply learns_unused|intros []|].
    + instantiate (1 := fun _ fill _ => exists tc, parse_address raw = Some tc /\
        fill = mkMatchedFill (ob_order_id ask) tc ticks (ob_price_per_tick ask)).
      eapply (learns_bind _ _ _ _ _ (fun tc fill _ => fill = mkMatchedFill (ob_order_id ask) tc ticks (ob_price_per_tick ask)));
        [apply learns_outcome|intros tc; by apply learns_ret|].
      cbn beta. intros tc fill t t' Hp%ok_or_ok _ ->. by exists tc.
    + cbn beta. intros [] fill t t' (tc & Hp & Hu) Hg (tc' & Hp' & ->). assert (tc' = tc) as -> by congruence.
      exists tc. split_and!; [done| |done]. by eapply saw_unused_grown.
  - cbn beta. intros raw fill t t' Hr%ok_or_ok _ (tc & Hp & Hu & ->). exists tc. split; [|done]. by exists raw.
Qed.
Lemma learns_target tc ticks cap :
  read (assert_expected_buy_target (W:=world) tc ticks cap)
    (fun _ t => exists snapshot now, saw_book snapshot t /\
       check_expected_buy_target (resting_asks snapshot) (of_text (to_ascii_lowercase (to_text tc))) cap ticks now = Ok tt).
Proof.
  unfold assert_expected_buy_target. eapply learns_bind; [apply learns_book|intros snapshot|].
  - instantiate (1 := fun snapshot _ _ => exists now,
       check_expected_buy_target (resting_asks snapshot) (of_text (to_ascii_lowercase (to_text tc))) cap ticks now = Ok tt).
    eapply (learns_bind _ _ _ _ (fun _ _ => exists now,
       check_expected_buy_target (resting_asks snapshot) (of_text (to_ascii_lowercase (to_text tc))) cap ticks now = Ok tt)
       (fun _ _ _ => True)); [|intros []; by apply learns_ret|done].
    unfold checked_target. apply learns_after; [apply learns_now|]. intros now.
    intros t0 w Hw. pose proof (learns_outcome (S:=world) snd is_read (as_chain (check_expected_buy_target
      (resting_asks snapshot) (of_text (to_ascii_lowercase (to_text tc))) cap ticks now)) t0 w Hw) as Ho.
    destruct (of_outcome _ w) as [[[[]|e|]|] w']; [|exact Ho..]. destruct Ho as [? Ho%as_chain_ok]. eauto.
  - cbn beta. intros snapshot _ t t' Hb Hg (now & Hc). exists snapshot, now. split; [|done]. by eapply grown_elem.
Qed.
End Evidence.
