(* ===== verification/BuySpec.v ===== *)
(** * BuySpec: what a buy funds, and what it leaves behind

    Over the traced chain: a post of a buy comes after the evidence for the ask it
    crosses; a durable buy is written down before it is posted, is repeated only after a
    decoded refusal and remembers its fill exactly when it may have landed; the fill a
    buyer takes is a new one of its own book, and the one it was promised. *)
From S2P Require Import Prelude Text Params MarketTypes Accounting Machine MockDeal MockMarket Backend Offer.
From S2P Require Import Trace Quote Select SelectSpec Buy BuySafety.

Section BuySpec.
Context (parse_address : string -> option string) (money_submit_identity : string -> string).
Context {W : Type} `{HB : BuyChain W} `{HC : Clock W}.
Abbreviation world := (traced W BuyCall).
Abbreviation state := (BuyState world).
Definition btr (s : state) : list BuyCall := snd (bs_chain s).
Abbreviation reads := (learns btr is_read).

Lemma on_chain_learns ok {A} (m : prog world A) F : learns snd ok m F -> learns btr ok (on_chain m) F.
Proof.
  intros Hm t0 s Hs. specialize (Hm t0 (bs_chain s) Hs). unfold on_chain, btr in *.
  by destruct (m (bs_chain s)) as [[[a|e|]|] w'].
Qed.

(** ** Submits *)
Lemma learns_send e (f : W -> outcome ChainError unit * W) :
  learns (S:=world) snd any_call (lift (entered e f)) knows_nothing.
Proof. by eapply learns_weak, learns_entered. Qed.
Lemma learns_retry again e (f : W -> outcome ChainError unit * W) attempts delay :
  learns (S:=world) snd any_call (retry_sends again (entered e f) attempts delay) knows_nothing.
Proof. by apply learns_retry_sends. Qed.
Lemma learns_place order : learns (S:=world) snd any_call (place_inference_buy order) knows_nothing.
Proof.
  unfold place_inference_buy, retry_submit.
  apply learns_after; [eapply learns_any, learns_shortfall|intros _].
  apply learns_after; [eapply learns_any, (learns_silent is_read)|intros boc].
  apply learns_after; [eapply learns_any, learns_skew|intros _]. apply learns_retry.
Qed.
Lemma learns_set_pending pending ok : learns btr ok (set_pending_fill pending) knows_nothing.
Proof. by apply learns_run. Qed.
Lemma learns_set_cursor cursor ok : learns btr ok (set_cursor cursor) knows_nothing.
Proof. by apply learns_run. Qed.

(** ** The rules for a whole buy *)
Lemma posts_after_forgetting K E forget (m : prog world unit) :
  posts_after btr K E (on_chain m) -> posts_after btr K E (forgetting forget m).
Proof.
  intros Hm s Hs. specialize (Hm s Hs). unfold forgetting.
  destruct (on_chain m s) as [[[a|e|]|] s']; try done. by destruct (forget e).
Qed.
Lemma posts_after_unless_ambiguous K E (m : prog state unit) :
  posts_after btr K E m -> posts_after btr K E (forget_unless_ambiguous m).
Proof.
  intros Hm s Hs. specialize (Hm s Hs). unfold forget_unless_ambiguous.
  destruct (m s) as [[[a|e|]|] s']; try done. by destruct (is_ambiguous_submit e).
Qed.
Lemma lasting_chosen ok ticks cap ask : lasting ok (chosen ticks cap ask).
Proof. intros t0 t. apply chosen_grown. Qed.
Lemma lasting_unused ok ask tc : lasting ok (unused parse_address ask tc).
Proof. intros t0 t. apply unused_grown. Qed.

Hint Resolve lasting_pure lasting_and lasting_ex lasting_chosen lasting_unused : learns.
Hint Resolve learns_set_pending learns_set_cursor : learns.
Hint Extern 2 (learns btr _ (on_chain _) knows_nothing) =>
  apply on_chain_learns; first [apply learns_now|apply learns_can_place|apply learns_silent
    |apply learns_prepare|apply learns_require_tc_gas|eapply learns_weak, learns_poll] : learns.
Hint Extern 2 (learns btr _ (preparing _) knows_nothing) => apply quiet_preparing : learns.

Definition model_evidence (escrow ticks cap : Z) (t : list BuyCall) : Prop :=
  check_buy_deposit_headroom escrow ticks cap = Ok tt /\
  exists ask tc, chosen ticks cap ask t /\ unused parse_address ask tc t.
Lemma lasting_model_evidence ok escrow ticks cap : lasting ok (model_evidence escrow ticks cap).
Proof. unfold model_evidence. eauto 10 with learns. Qed.

(** The buy of a model, plain and durable. *)
Inductive model_buy (me : RealBuyerBackend) (ticks cap escrow : Z) : prog state unit -> Prop :=
| plain_buy deadline : model_buy me ticks cap escrow (place_buy_by_model parse_address me ticks cap escrow deadline)
| durable_buy quoted cb :
    model_buy me ticks cap escrow
      (place_buy_by_model_with_submit_identity parse_address money_submit_identity me quoted ticks cap escrow
         (fun identity cursor balance => lift (entered (KBeforePost identity cursor balance) (cb identity cursor balance)))).

Lemma selected_posts me ticks cap {B} (K : list BuyCall -> Prop)
    (k : string * option OrderBookOrder -> prog state B) E :
  bb_wait_for_seller me = false -> lasting is_read K ->
  (forall ob ask, posts_after btr (fun t => K t /\ chosen ticks cap ask t) E (k (ob, Some ask))) ->
  posts_after btr K E (bind (on_chain (model_buy_preflight_selection_once parse_address me ticks cap)) k).
Proof.
  intros Hw HK Hk. eapply posts_after_bind; [apply on_chain_learns, learns_preflight|done|].
  rewrite Hw. intros [ob sel] s [Hb (HKs & ask & Hs & Hc)]. simpl in Hs. subst sel. apply Hk. done.
Qed.
Definition promised (ask : OrderBookOrder) (ticks : Z) (fill : MatchedFill) (t : list BuyCall) : Prop :=
  exists tc, unused parse_address ask tc t /\
             fill = mkMatchedFill (ob_order_id ask) tc ticks (ob_price_per_tick ask).
Lemma learns_some ask ticks :
  reads (let! fill := on_chain (expected_fill parse_address ask ticks) in ret (Some fill))
    (fun r t => exists fill, r = Some fill /\ promised ask ticks fill t).
Proof.
  eapply (learns_bind _ _ _ _ _ (fun fill r _ => r = Some fill));
    [apply on_chain_learns, learns_expected|intros fill; by apply learns_ret|].
  cbn beta. intros fill r t t' (tc & Hu & Hf) Hg ->. exists fill. split; [done|]. exists tc. split; [|done].
  by eapply unused_grown.
Qed.
Lemma expected_posts ask escrow ticks cap (K : list BuyCall -> Prop) {B} (k : option MatchedFill -> prog state B) :
  check_buy_deposit_headroom escrow ticks cap = Ok tt ->
  lasting is_read K -> (forall t, K t -> chosen ticks cap ask t) ->
  (forall fill, posts_after btr (model_evidence escrow ticks cap) (model_evidence escrow ticks cap) (k (Some fill))) ->
  posts_after btr K (model_evidence escrow ticks cap)
    (let! expected := (let! fill := on_chain (expected_fill parse_address ask ticks) in ret (Some fill)) in k expected).
Proof.
  intros He HK Hc Hk. eapply posts_after_bind; [apply learns_some|done|].
  intros r s [Hb (HKs & fill & -> & tc & Hu & _)]. apply Hk. split; [done|]. split; [done|]. exists ask, tc. auto.
Qed.

(** The callback of a durable buy: the pending fill, then the caller's record. *)
Definition write_down (expected : option MatchedFill) (cb : string -> MatchWatchCursor -> Z -> W -> outcome ChainError unit * W)
    (identity : string) (cursor : MatchWatchCursor) (balance : Z) : prog state unit :=
  set_pending_fill (Some (mkPending cursor expected)) >>!
  on_chain (lift (entered (KBeforePost identity cursor balance) (cb identity cursor balance))).
Lemma learns_write_down expected cb identity cursor balance :
  reads (write_down expected cb identity cursor balance) knows_nothing.
Proof.
  apply learns_after; [apply learns_set_pending|intros _]. apply on_chain_learns. by eapply learns_weak, learns_entered.
Qed.
Hint Resolve learns_write_down : learns.

Lemma model_buys_are_backed me ticks cap escrow m :
  bb_wait_for_seller me = false -> model_buy me ticks cap escrow m ->
  posts_after btr (fun _ => True) (model_evidence escrow ticks cap) m.
Proof.
  intros Hw Hm. destruct Hm as [deadline|quoted cb].
  - unfold place_buy_by_model. do 2 (apply posts_after_skip; [done|solve [eauto with learns]|intros ?]).
    apply posts_after_outcome; [done|]. intros [] He%as_chain_ok.
    do 2 (apply posts_after_skip; [done|solve [eauto with learns]|intros ?]).
    apply selected_posts; [done..|]. intros ob ask.
    apply expected_posts; [done|eauto with learns|tauto|]. intros fill.
    apply posts_after_skip; [apply lasting_model_evidence|eauto with learns|intros ob'].
    apply posts_after_skip; [apply lasting_model_evidence|eauto with learns|intros [fs cursor]].
    apply posts_after_skip; [apply lasting_model_evidence|eauto with learns|intros []].
    apply posts_after_forgetting. eapply posts_after_evidence; [apply lasting_model_evidence|done|].
    apply on_chain_learns, learns_place.
  - unfold place_buy_by_model_with_submit_identity.
    apply posts_after_outcome; [done|]. intros [] He%as_chain_ok.
    do 2 (apply posts_after_skip; [done|solve [eauto with learns]|intros ?]).
    apply selected_posts; [done..|]. intros ob ask. cbn beta iota.
    eapply (posts_after_bind _ _ (fun r t => exists fill, r = Some fill /\ promised ask ticks fill t));
      [|eauto with learns|].
    { apply learns_after; [eauto with learns|intros _; apply learns_some]. }
    intros expected. apply (posts_after_know _ _ (model_evidence escrow ticks cap)).
    { intros t [[_ Hc] (fill & _ & tc & Hu & _)]. split; [done|]. exists ask, tc. auto. }
    pose proof (lasting_model_evidence is_read escrow ticks cap) as Hlast.
    do 4 (apply posts_after_skip; [done|solve [eauto with learns]|intros ?]).
    apply posts_after_unless_ambiguous. unfold place_inference_buy_with_submit_identity.
    apply posts_after_skip; [done|eauto with learns|intros boc].
    apply posts_after_skip; [done|eauto with learns|intros [fs cursor]].
    do 2 (apply posts_after_skip; [done|solve [eauto with learns]|intros ?]).
    apply posts_after_skip; [done|apply quiet_preparing, learns_write_down|intros _].
    eapply posts_after_evidence; [apply lasting_model_evidence|done|]. apply on_chain_learns, learns_retry.
Qed.

(** A book whose rows are typed and whose ids are its own, and whose asks that fit the
    buy carry none of the flags the client does not judge. *)
Definition readable_book (cap ticks now flags : Z) (orders : list OrderBookOrder) : Prop :=
  Forall order_typed orders /\ NoDup (map ob_order_id orders) /\
  forall a, In a orders -> fits cap ticks now a = true -> plain flags a = true.

Lemma id_unique orders a b :
  NoDup (map ob_order_id orders) -> In a orders -> In b orders -> ob_order_id a = ob_order_id b -> a = b.
Proof.
  induction orders as [|o orders IH]; simpl; [done|]. intros [Hn Hnd]%NoDup_cons Ha Hb Hid.
  assert (forall x, In x orders -> ob_order_id o <> ob_order_id x) as Ho.
  { intros x Hx Hox. apply Hn. rewrite Hox. apply list_elem_of_In, in_map, Hx. }
  destruct Ha as [<-|Ha], Hb as [<-|Hb]; [done|by destruct (Ho _ Hb)|by destruct (Ho _ Ha)|auto].
Qed.
Lemma coalesced_of_selected asks cap ticks now a :
  selected_model_buy_ask asks cap ticks now = Ok a -> is_ok (coalesced_live_candidates asks now) = true.
Proof. unfold selected_model_buy_ask. by destruct (coalesced_live_candidates asks now) as [[]| |]. Qed.


(** ** A buy of a named deal *)
Definition named_evidence (me : RealBuyerBackend) (tc : TokenContract) (t : list BuyCall) : Prop :=
  exists named tc' snapshot now,
    parse_address tc = Some named /\ parse_address named = Some tc' /\ saw_unused tc' t /\ saw_book snapshot t /\
    check_expected_buy_target (resting_asks snapshot) (of_text (to_ascii_lowercase (to_text named)))
      (bb_max_price_per_tick me) (bb_ticks me) now = Ok tt.
Lemma lasting_saw_book ok snapshot : lasting ok (saw_book snapshot).
Proof. intros t0 t. apply grown_elem. Qed.
Lemma lasting_saw_unused ok tc : lasting ok (saw_unused tc).
Proof. intros t0 t. apply saw_unused_grown. Qed.
Hint Resolve lasting_saw_book lasting_saw_unused : learns.
Lemma lasting_named_evidence ok me tc : lasting ok (named_evidence me tc).
Proof. unfold named_evidence. repeat (apply lasting_ex; intros ?). eauto 10 with learns. Qed.

Lemma named_buys_are_backed me tc :
  posts_after (S:=world) snd (fun _ => True) (named_evidence me tc) (place_buy parse_address me tc).
Proof.
  unfold place_buy. apply posts_after_outcome; [done|]. intros named Hn%ok_or_ok.
  apply posts_after_skip; [done|apply learns_require_tc_gas|intros _].
  apply posts_after_skip; [done|apply learns_silent|intros _].
  apply posts_after_skip; [done|apply learns_can_place|intros _].
  eapply posts_after_bind; [apply learns_target|done|intros ob].
  eapply posts_after_bind; [apply learns_unused|apply lasting_and; [done|repeat (apply lasting_ex; intros ?); eauto with learns]|intros ?].
  apply (posts_after_know _ _ (named_evidence me tc)).
  { intros t [[_ (snapshot & now & Hb & Hc)] (tc' & Hp & Hu)]. by exists named, tc', snapshot, now. }
  apply posts_after_skip; [apply lasting_named_evidence|apply learns_now|intros now].
  apply posts_after_outcome; [apply lasting_named_evidence|]. intros deadline _.
  eapply posts_after_evidence; [apply lasting_named_evidence|done|apply learns_place].
Qed.

(** A buy of a named deal is posted only for that deal.  Over a chain whose answers are
    arbitrary, every message it posts comes after a read of the named deal, unused, and
    of a book that, walked as it was read with an escrow for the whole request, gives
    the whole volume to an ask of that deal or meets its own bound. *)
Theorem named_buys_are_posted_for_the_named_deal (me : RealBuyerBackend) (tc : TokenContract) (w : world)
    (later earlier : list BuyCall) (c : BuyCall) :
  snd w = [] -> snd (snd (place_buy parse_address me tc w)) = later ++ c :: earlier -> is_post c = true ->
  exists named tc' snapshot now,
    parse_address tc = Some named /\ parse_address named = Some tc' /\ saw_unused tc' earlier /\
    saw_book snapshot earlier /\
    (2 <= bb_ticks me -> check_buy_deposit_headroom (bb_escrow me) (bb_ticks me) (bb_max_price_per_tick me) = Ok tt ->
     readable_book (bb_max_price_per_tick me) (bb_ticks me) now (buyer_order_flags (bb_wait_for_seller me))
       (resting_asks snapshot) ->
     let r := match_buy (sell_side (resting_asks snapshot)) (bb_max_price_per_tick me)
                (buyer_order_flags (bb_wait_for_seller me)) now (bb_ticks me) (bb_escrow me) 0 0 [] in
     mr_capped r = true /\ mr_fills r = [] \/
     exists ask, mr_fills r = [(ask, bb_ticks me)] /\ names (of_text (to_ascii_lowercase (to_text named))) ask = true).
Proof.
  clear money_submit_identity. intros Hs Ht Hp. pose proof (named_buys_are_backed me tc w) as Hb. cbn beta in Hb. rewrite Hs in Hb.
  specialize (Hb (conj (backed_nil _) I)).
  assert (backed (named_evidence me tc) (snd (snd (place_buy parse_address me tc w)))) as Hback
    by (destruct (place_buy parse_address me tc w) as [[[[]|e|]|] w']; exact Hb).
  destruct (Hback _ _ _ Ht Hp) as (named & tc' & snapshot & now & Hn & Hn' & Hu & Hbook & Htgt).
  exists named, tc', snapshot, now. split_and!; [done..|]. intros H2 He (Hty & Hnd & Hplain).
  destruct (target_is_selected _ _ _ _ _ Htgt) as (a & Hsel & Hname).
  destruct (walk_is_selection _ _ _ _ _ (bb_wait_for_seller me) Hty Hnd H2 He Hplain (coalesced_of_selected _ _ _ _ _ Hsel))
    as [?|[_ Hr]]; [by left|right]. rewrite Hsel in Hr. exists a. tauto.
Qed.
End BuySpec.
