(* ===== verification/BuyDurable.v ===== *)
(** * BuyDurable: the durable buy and the fill it waits for

    What a durable buy leaves in the trace, in its own memory and in its caller's
    cursor; what a wait for its fill can return; and that the submit and the wait end. *)
From S2P Require Import Prelude Text Params MarketTypes Machine Accounting MockDeal.
From S2P Require Import MockMarket Backend Offer Trace Select SelectSpec Buy BuySafety BuySpec.

(** ** Fills and the cursor *)
Lemma new_fills_unseen c fills u f :
  In f (new_fills c fills u) -> In f fills /\ has_seen c (fst f) (mf_token_contract (snd f)) = false.
Proof.
  revert u. induction fills as [|g fills IH]; intros u; simpl; [done|].
  destruct (has_seen c (fst g) _) eqn:E; [intros Hf%IH; tauto|]. case_bool_decide; [intros Hf%IH; tauto|].
  intros [->|Hf%IH]; [|tauto]. auto.
Qed.
Lemma new_fills_cover c fills u f :
  In f fills -> has_seen c (fst f) (mf_token_contract (snd f)) = true \/ fill_key f ∈ u \/
  exists g, In g (new_fills c fills u) /\ fill_key g = fill_key f.
Proof.
  revert u. induction fills as [|g fills IH]; intros u; [done|]. intros Hin. simpl.
  destruct (has_seen c (fst g) _) eqn:Eg.
  { destruct Hin as [<-|Hin]; [by left|by apply IH]. }
  case_bool_decide as Eu.
  { destruct Hin as [<-|Hin]; [by right; left|by apply IH]. }
  destruct Hin as [<-|Hin]; [right; right; exists g; by split; [left|]|].
  destruct (IH (fill_key g :: u) Hin) as [?|[Hk|(h & Hh & Hk)]]; [by left| |right; right; exists h; split; [by right|done]].
  apply elem_of_cons in Hk as [Hk|Hk]; [|by right; left]. right; right. exists g. split; [by left|done].
Qed.
Lemma sorted_fills fills f : In f (sort_by fill_key_le fills) <-> In f fills.
Proof. by rewrite <- !list_elem_of_In, sort_by_perm. Qed.

Lemma consume_unseen c fills f :
  In f (fst (consume_new_fill_batch c fills)) ->
  exists t, In (t, f) fills /\ has_seen c t (mf_token_contract f) = false.
Proof.
  unfold consume_new_fill_batch. simpl. intros ([t g] & <- & Hf)%in_map_iff.
  apply new_fills_unseen in Hf as [Hin Hs]. exists t. split; [by apply sorted_fills|done].
Qed.
Lemma consume_covers c fills t f :
  In (t, f) fills -> has_seen (snd (consume_new_fill_batch c fills)) t (mf_token_contract f) = true.
Proof.
  intros Hin%sorted_fills. unfold consume_new_fill_batch. simpl.
  destruct (new_fills_cover c _ [] _ Hin) as [Hs|[Hk|([t' g] & Hg & Hk)]]; [by apply seen_kept|by apply not_elem_of_nil in Hk|].
  unfold fill_key in Hk. simpl in Hk. apply (recorded_seen _ _ _ _ (mf_token_contract f)); [|by apply tc_same_iff].
  apply in_map_iff. exists (t', g). split; [|done]. simpl. congruence.
Qed.
Lemma consume_keeps c fills t tc :
  has_seen c t tc = true -> has_seen (snd (consume_new_fill_batch c fills)) t tc = true.
Proof. intros Hs. by apply seen_kept. Qed.

(** Reading the same fills again with the new cursor reports nothing. *)
Lemma new_fills_none c fills u :
  (forall f, In f fills -> has_seen c (fst f) (mf_token_contract (snd f)) = true) -> new_fills c fills u = [].
Proof.
  induction fills as [|f fills IH]; intros Hs; simpl; [done|]. rewrite (Hs f) by by left. apply IH. intros g Hg. apply Hs. by right.
Qed.
Lemma consume_again c fills : fst (consume_new_fill_batch (snd (consume_new_fill_batch c fills)) fills) = [].
Proof.
  unfold consume_new_fill_batch at 1. rewrite new_fills_none; [done|]. intros [t f] Hf.
  apply (consume_covers c fills t f). by apply (proj1 (sorted_fills _ _)).
Qed.

Lemma correlate_ok expected fills f :
  correlate_fill_batch expected fills = Ok (Some f) ->
  In f fills /\ forall e, expected = Some e -> same_fill e f = true.
Proof.
  unfold correlate_fill_batch. destruct expected as [e|].
  - destruct (List.find (same_fill e) fills) as [g|] eqn:E; [|by destruct fills].
    intros [= <-]. apply List.find_some in E as [? ?]. split; [done|]. by intros e' [= <-].
  - intros [= Hl]. split; [|done]. apply last_Some in Hl as (l & ->). apply in_app_iff. right. by left.
Qed.
Lemma correlate_refuses e fills :
  (forall f, In f fills -> same_fill e f = false) -> fills <> [] -> is_ok (correlate_fill_batch (Some e) fills) = false.
Proof.
  intros Hf Hn. unfold correlate_fill_batch. destruct (List.find (same_fill e) fills) as [g|] eqn:E.
  - apply List.find_some in E as [Hin Hs]. by rewrite Hf in Hs.
  - by destruct fills.
Qed.

Section Durable.
Context (parse_address : string -> option string) (money_submit_identity : string -> string).
Context {W : Type} `{HB : BuyChain W} `{HC : Clock W}.
Abbreviation world := (traced W BuyCall).
Abbreviation state := (BuyState world).

Definition unposted (t : list BuyCall) : Prop := Forall (fun c => is_post c = false) t.
Lemma unposted_grown t0 t : grown is_read t0 t -> unposted t0 -> unposted t.
Proof.
  intros (more & -> & Hm) H0. apply Forall_app. split; [|done]. eapply Forall_impl; [exact Hm|].
  intros c Hc. by apply negb_true_iff.
Qed.

(** The trace of a submit and its repetitions: the newest answer, over refusals that
    allowed another try. *)
Definition tries (again : ChainError -> bool) (n : nat) (e : outcome ChainError unit -> BuyCall)
    (answer : outcome ChainError unit) (t0 t : list BuyCall) : Prop :=
  exists errors, t = e answer :: map (fun x => e (Err x)) errors ++ t0 /\
    Forall (fun x => again x = true) errors /\ (length errors <= n)%nat.
Lemma retry_sends_tries again e (f : W -> outcome ChainError unit * W) n delay (w : world) :
  exists answer, fst (retry_sends again (entered e f) n delay w) = Some answer /\
    tries again n e answer (snd w) (snd (snd (retry_sends again (entered e f) n delay w))).
Proof.
  revert delay w. induction n as [|n IH]; intros delay w; simpl.
  { unfold lift, entered. destruct (f (fst w)) as [r w'] eqn:E. exists r. split; [done|]. by exists []. }
  unfold bind, attempt, entered. destruct (f (fst w)) as [[u|error|] w'] eqn:E; simpl.
  - exists (Ok tt). split; [done|]. destruct u. exists []. simpl. split_and!; [done..|lia].
  - destruct (again error) eqn:Ea.
    + destruct (IH (Z.min (delay * TRANSIENT_SUBMIT_BACKOFF_MULTIPLIER) TRANSIENT_SUBMIT_MAX_BACKOFF)
        (sleep delay (w', e (Err error) :: snd w) : world)) as (answer & Hr & errors & Ht & Hf & Hl).
      exists answer. split; [exact Hr|]. exists (errors ++ [error]). unfold bind, run in *. simpl in *. unfold entered in *.
      rewrite Ht. split_and!.
      * by rewrite map_app, <- app_assoc.
      * by apply Forall_app_2; [|constructor].
      * rewrite length_app. simpl. lia.
    + exists (Err error). split; [done|]. exists []. simpl. split_and!; [done..|lia].
  - exists Panic. split; [done|]. exists []. simpl. split_and!; [done..|lia].
Qed.

(** Where a state is before its post: nothing posted, and this of its own memory. *)
Definition quietly (X : option PendingBuyerFill -> MatchWatchCursor -> Prop) (K : list BuyCall -> Prop) (s : state) : Prop :=
  unposted (btr s) /\ X (bs_pending s) (bs_cursor s) /\ K (btr s).
Definition stopped_quietly (_ : stopped) (s : state) : Prop := unposted (btr s).

Lemma on_chain_quietly {A} (m : prog world A) F X K :
  learns snd is_read m F -> lasting is_read K ->
  leads (quietly X K) (on_chain m) (fun a => quietly X (fun t => K t /\ F a t)) stopped_quietly.
Proof.
  intros Hm HK s (Hu & HX & HKs). specialize (Hm _ (bs_chain s) eq_refl). unfold on_chain, stopped_quietly, btr in *.
  destruct (m (bs_chain s)) as [[[a|e|]|] w']; simpl; [|by eapply unposted_grown..].
  destruct Hm as [Hg Ha]. split; [by eapply unposted_grown|]. split; [done|]. split; [by eapply HK|done].
Qed.
Lemma on_chain_skip {A} (m : prog world A) X K :
  learns snd is_read m knows_nothing -> lasting is_read K ->
  leads (quietly X K) (on_chain m) (fun _ => quietly X K) stopped_quietly.
Proof.
  intros Hm HK. eapply leads_conseq; [by apply on_chain_quietly|done| |done].
  intros a s (? & ? & ? & _). done.
Qed.
Lemma outcome_quietly {A} (r : outcome ChainError A) X K :
  leads (quietly X K) (of_outcome r) (fun a => quietly X (fun t => K t /\ r = Ok a)) stopped_quietly.
Proof. intros s (? & ? & ?). unfold of_outcome. by destruct r. Qed.
Lemma preparing_quietly {A} P (m : prog state A) Q : leads P m Q stopped_quietly -> leads P (preparing m) Q stopped_quietly.
Proof. intros Hm s Hs. specialize (Hm s Hs). unfold preparing. by destruct (m s) as [[[a|e|]|] s']. Qed.
Lemma pending_quietly pending X K :
  leads (quietly X K) (set_pending_fill pending) (fun _ => quietly (fun p c => p = pending /\ exists p0, X p0 c) K) stopped_quietly.
Proof. intros s (? & ? & ?). split_and!; try done. by eexists. Qed.
Lemma cursor_quietly cursor X K :
  leads (quietly X K) (set_cursor cursor) (fun _ => quietly (fun p c => c = cursor) K) stopped_quietly.
Proof. by intros s (? & ? & ?). Qed.

(** The best ask of this snapshot for this volume, at some time the client's clock showed. *)
Definition chosen_from (snapshot : OrderBookSnapshot) (ticks cap : Z) (ask : OrderBookOrder) : Prop :=
  exists now raw, selected_model_buy_ask (resting_asks snapshot) cap ticks now = Ok raw /\
    In ask (resting_asks snapshot) /\ ob_order_id ask = ob_order_id raw.
(** What the preflight leaves: the book it read, its ask and its address. *)
Definition selected_on (me : RealBuyerBackend) (ticks cap : Z) (r : string * option OrderBookOrder)
    (snapshot : OrderBookSnapshot) (t : list BuyCall) : Prop :=
  saw_book snapshot t /\ fst r = bk_order_book snapshot /\
  if bb_wait_for_seller me then snd r = None else exists ask, snd r = Some ask /\ chosen_from snapshot ticks cap ask.
Lemma learns_selected me ticks cap :
  learns (S:=world) snd is_read (model_buy_preflight_selection_once parse_address me ticks cap)
    (fun r t => exists snapshot, selected_on me ticks cap r snapshot t).
Proof.
  unfold model_buy_preflight_selection_once. eapply learns_bind; [apply learns_book|intros snapshot|].
  - instantiate (1 := fun snapshot r _ => fst r = bk_order_book snapshot /\
      if bb_wait_for_seller me then snd r = None else exists ask, snd r = Some ask /\ chosen_from snapshot ticks cap ask).
    destruct (bb_wait_for_seller me); [by apply learns_ret|].
    eapply (learns_bind _ _ _ _ _ (fun ask r _ => r = (bk_order_book snapshot, Some ask)));
      [apply learns_submit_safe|intros ask; by apply learns_ret|].
    simpl. intros ask r t t' (Hin & now & raw & Hs & Hid) _ ->. split; [done|]. exists ask. split; [done|]. by exists now, raw.
  - simpl. intros snapshot r t t' Hb Hg Hr. exists snapshot. split; [by eapply grown_elem|done].
Qed.

(** What the buyer expects of a durable buy on this book. *)
Definition expectation_of (me : RealBuyerBackend) (quoted : option OrderBookOrder) (ticks cap : Z)
    (expected : option MatchedFill) (snapshot : OrderBookSnapshot) (t : list BuyCall) : Prop :=
  saw_book snapshot t /\
  if bb_wait_for_seller me then expected = None /\ quoted = None
  else exists ask fill, expected = Some fill /\ chosen_from snapshot ticks cap ask /\
         promised parse_address ask ticks fill t /\ ensure_pre_submit_quote_unchanged quoted ask = Ok tt.
Lemma lasting_expectation ok me quoted ticks cap expected snapshot :
  lasting ok (expectation_of me quoted ticks cap expected snapshot).
Proof.
  intros t0 t Hg [Hb H]. split; [by eapply grown_elem|]. destruct (bb_wait_for_seller me); [done|].
  destruct H as (ask & fill & He & Hc & (tc & Hu & Hf) & Hq). exists ask, fill. split_and!; [done..| |done].
  exists tc. split; [|done]. by eapply unused_grown.
Qed.
(** The cursor of a durable buy holds all that the note's messages, read last of all,
    report of this book. *)
Definition primed (ob : string) (cursor : MatchWatchCursor) (t : list BuyCall) : Prop :=
  exists messages fills older, t = KMessages (Ok messages) :: older /\
    fills_of parse_address (default ob (parse_address ob)) true messages = Ok fills /\
    cursor = snd (consume_new_fill_batch (cursor_new 0) fills).
Lemma poll_reads ob cursor (w : world) :
  match poll_inference_filled_tcs parse_address ob cursor w with
  | (Some (Ok r), w') => exists messages fills, snd w' = KMessages (Ok messages) :: snd w /\
      fills_of parse_address (default ob (parse_address ob)) true messages = Ok fills /\
      r = consume_new_fill_batch cursor fills
  | (_, w') => exists answer, snd w' = KMessages answer :: snd w
  end.
Proof.
  unfold poll_inference_filled_tcs, bind, lift. simpl. unfold entered.
  destruct (by_note_messages (fst w)) as [[ms|e|] w1]; simpl; [|by eexists..].
  unfold of_outcome. destruct (fills_of _ _ _ ms) as [fl|e|] eqn:Ef; simpl; [|by eexists..]. by exists ms, fl.
Qed.
Lemma primes_quietly ob X K :
  lasting is_read K ->
  leads (quietly X K) (preparing (on_chain (poll_inference_filled_tcs parse_address ob (cursor_new 0))))
    (fun r => quietly X (fun t => K t /\ primed ob (snd r) t)) stopped_quietly.
Proof.
  intros HK. apply preparing_quietly. intros s (Hu & HX & HKs). unfold on_chain, stopped_quietly, quietly, btr in *.
  pose proof (poll_reads ob (cursor_new 0) (bs_chain s)) as Hp.
  assert (forall a, unposted (KMessages a :: snd (bs_chain s))) as Hun by by constructor.
  destruct (poll_inference_filled_tcs _ _ _ (bs_chain s)) as [[[r|e|]|] w']; simpl;
    [|by destruct Hp as (a & ->); apply Hun..].
  destruct Hp as (ms & fl & -> & Hf & ->). split_and!; [apply Hun|done| |by exists ms, fl, (snd (bs_chain s))].
  eapply HK; [|done]. by apply grown_cons, grown_refl.
Qed.
(** A call no one hears of leaves any fact of the trace. *)
Lemma silent_quietly {A} (f : W -> outcome ChainError A * W) X K :
  leads (quietly X K) (preparing (on_chain (lift (silent f)))) (fun _ => quietly X K) stopped_quietly.
Proof.
  apply preparing_quietly. intros s H. unfold on_chain, lift, silent, quietly, stopped_quietly, btr in *.
  destruct (f (fst (bs_chain s))) as [[a|e|] w']; simpl; tauto.
Qed.

Definition remembered (answer : outcome ChainError unit) (pending : PendingBuyerFill) : option PendingBuyerFill :=
  match answer with Err e => if is_ambiguous_submit e then Some pending else None | _ => Some pending end.
Definition posted_durably (me : RealBuyerBackend) (quoted : option OrderBookOrder) (ticks cap : Z)
    (answer : outcome ChainError unit) (s : state) : Prop :=
  exists boc cursor balance expected snapshot ob earlier,
    tries is_decoded_transient_money_rejection TRANSIENT_SUBMIT_RETRIES_BEFORE_FINAL (KPostMoney boc) answer
      (KBeforePost (money_submit_identity boc) cursor balance (Ok tt) :: earlier) (btr s) /\
    unposted earlier /\ expectation_of me quoted ticks cap expected snapshot earlier /\
    parse_address (bk_order_book snapshot) = Some ob /\ primed ob cursor earlier /\
    bs_cursor s = cursor /\ bs_pending s = remembered answer (mkPending cursor expected).

Lemma write_down_quietly expected cb identity cursor balance K :
  leads (quietly (fun _ c => c = cursor) K)
    (preparing (set_pending_fill (Some (mkPending cursor expected)) >>!
                on_chain (lift (entered (KBeforePost identity cursor balance) (cb identity cursor balance)))))
    (fun _ s => exists earlier, btr s = KBeforePost identity cursor balance (Ok tt) :: earlier /\ unposted earlier /\
       K earlier /\ bs_cursor s = cursor /\ bs_pending s = Some (mkPending cursor expected)) stopped_quietly.
Proof.
  apply preparing_quietly. eapply leads_bind; [apply pending_quietly|]. intros [] s (Hu & (Hp & p0 & Hc) & HK).
  unfold on_chain, lift, entered, btr in *. destruct (cb identity cursor balance (fst (bs_chain s))) as [[[]|e|] w'];
    simpl; [|by constructor..].
  exists (snd (bs_chain s)). done.
Qed.

(** The outcome a program stopped with. *)
Definition stopping (P : outcome ChainError unit -> state -> Prop) (x : stopped) (s : state) : Prop :=
  unposted (btr s) \/ match x with Threw e => P (Err e) s | Panicked => P Panic s | Spent => False end.
(** The state right after the last POST. *)
Definition sent (E : list BuyCall -> Prop) (ob : string) (expected : option MatchedFill) (answer : outcome ChainError unit) (s : state) : Prop :=
  exists boc cursor balance earlier,
    tries is_decoded_transient_money_rejection TRANSIENT_SUBMIT_RETRIES_BEFORE_FINAL (KPostMoney boc) answer
      (KBeforePost (money_submit_identity boc) cursor balance (Ok tt) :: earlier) (btr s) /\
    unposted earlier /\ E earlier /\ primed ob cursor earlier /\ bs_cursor s = cursor /\
    bs_pending s = Some (mkPending cursor expected).

Lemma stops_before {A} P (m : prog state A) Q R : leads P m Q stopped_quietly -> leads P m Q (stopping R).
Proof. intros Hm. eapply leads_conseq; [exact Hm|done|done|]. intros x s Hx. by left. Qed.

Lemma durable_sends E order expected ob cb :
  lasting is_read E ->
  leads (quietly (fun _ _ => True) E)
    (place_inference_buy_with_submit_identity parse_address money_submit_identity ob order
       (fun identity cursor balance => set_pending_fill (Some (mkPending cursor expected)) >>!
          on_chain (lift (entered (KBeforePost identity cursor balance) (cb identity cursor balance)))))
    (fun _ s => sent E ob expected (Ok tt) s) (stopping (sent E ob expected)).
Proof.
  intros HlE. unfold place_inference_buy_with_submit_identity.
  eapply leads_bind; [apply stops_before, on_chain_skip; [apply learns_prepare|done]|intros boc].
  eapply leads_bind; [by apply stops_before, primes_quietly|intros [fs cursor]].
  eapply leads_bind; [apply stops_before, cursor_quietly|intros []].
  eapply leads_bind; [apply stops_before, silent_quietly|]. intros balance. eapply leads_bind; [apply stops_before, write_down_quietly|intros []].
  intros s (earlier & Ht & Hu & (HE & Hprimed) & Hc & Hp).
  unfold on_chain, retry_buyer_money_submit.
  destruct (retry_sends_tries is_decoded_transient_money_rejection (KPostMoney boc) (by_post_money boc)
    TRANSIENT_SUBMIT_RETRIES_BEFORE_FINAL TRANSIENT_SUBMIT_INITIAL_BACKOFF (bs_chain s)) as (answer & Hr & Htr).
  simpl by_post_money. unfold btr in *. rewrite Ht in Htr.
  destruct (retry_sends _ (entered (KPostMoney boc) (by_post_money boc)) _ _ (bs_chain s)) as [r w'].
  simpl in Hr. subst r. destruct answer as [[]|e|]; simpl; [|right|right]; by exists boc, cursor, balance, earlier.
Qed.

Lemma forgets_unless_ambiguous P (m : prog state unit) me quoted ticks cap expected snapshot ob :
  parse_address (bk_order_book snapshot) = Some ob ->
  leads P m (fun _ s => sent (expectation_of me quoted ticks cap expected snapshot) ob expected (Ok tt) s)
    (stopping (sent (expectation_of me quoted ticks cap expected snapshot) ob expected)) ->
  leads P (forget_unless_ambiguous m) (fun _ s => posted_durably me quoted ticks cap (Ok tt) s)
    (stopping (posted_durably me quoted ticks cap)).
Proof.
  intros Hob.
  assert (forall answer s s', sent (expectation_of me quoted ticks cap expected snapshot) ob expected answer s ->
    btr s' = btr s -> bs_cursor s' = bs_cursor s -> (forall p, bs_pending s = Some p -> bs_pending s' = remembered answer p) ->
    posted_durably me quoted ticks cap answer s') as Hkeep.
  { intros answer s s' (boc & cursor & balance & earlier & Ht & Hu & HE & Hp & Hc & Hpend) H1 H2 H3.
    exists boc, cursor, balance, expected, snapshot, ob, earlier. rewrite H1, H2. split_and!; try done. by apply H3. }
  intros Hm s Hs. specialize (Hm s Hs). unfold forget_unless_ambiguous.
  destruct (m s) as [[[[]|e|]|] s']; [by eapply Hkeep| | |].
  - destruct Hm as [Hm|Hm]; [left; by destruct (is_ambiguous_submit e)|right].
    eapply Hkeep; [exact Hm|by destruct (is_ambiguous_submit e)..|]. intros p Hp. unfold remembered. by destruct (is_ambiguous_submit e).
  - destruct Hm as [Hm|Hm]; [by left|right]. by eapply Hkeep.
  - destruct Hm as [Hm|[]]. by left.
Qed.

Lemma expected_quietly me quoted ticks cap book (selected : option OrderBookOrder) snapshot X (K : list BuyCall -> Prop) :
  leads (quietly X (fun t => K t /\ selected_on me ticks cap (book, selected) snapshot t))
    match selected with
    | Some selected =>
        of_outcome (ensure_pre_submit_quote_unchanged quoted selected) >>!
        let! fill := on_chain (expected_fill parse_address selected ticks) in ret (Some fill)
    | None =>
        match quoted with
        | Some _ => throw (Chain "buyer wait-for-seller preflight unexpectedly received a quoted ask")
        | None => ret None
        end
    end (fun expected => quietly X (fun t => book = bk_order_book snapshot /\
                                              expectation_of me quoted ticks cap expected snapshot t)) stopped_quietly.
Proof.
  unfold expectation_of, selected_on. cbn [fst snd]. destruct selected as [ask|].
  - intros s (Hu & HX & _ & Hb & Hbook & Hc). destruct (bb_wait_for_seller me); [done|]. destruct Hc as (ask' & [= <-] & Hc).
    unfold bind at 1, of_outcome. destruct (ensure_pre_submit_quote_unchanged quoted ask) as [[]|e|] eqn:Eq; [|done..].
    unfold bind, on_chain, btr, quietly, stopped_quietly in *.
    pose proof (learns_expected parse_address ask ticks _ (bs_chain s) eq_refl) as Hl.
    destruct (expected_fill parse_address ask ticks (bs_chain s)) as [[[fill|e|]|] w']; simpl;
      [|by eapply unposted_grown..]. destruct Hl as [Hg Hf]. split_and!; [by eapply unposted_grown|done..|by eapply grown_elem|].
    by exists ask, fill.
  - intros s (Hu & HX & _ & Hb & Hbook & Hc). destruct quoted; [done|]. split_and!; [done..|].
    destruct (bb_wait_for_seller me); [done|]. by destruct Hc as (? & ? & _).
Qed.

Lemma leads_exists_quietly {A B} X (K : list BuyCall -> Prop) (K' : B -> list BuyCall -> Prop) (m : prog state A) Q R :
  (forall t, K t -> exists b, K' b t) -> (forall b, leads (quietly X (K' b)) m Q R) -> leads (quietly X K) m Q R.
Proof. intros HK Hm s (Hu & HX & Hs). destruct (HK _ Hs) as [b Hb]. by apply (Hm b). Qed.
Lemma leads_pure_quietly {A} X (P : Prop) (K' K : list BuyCall -> Prop) (m : prog state A) Q R :
  (forall t, K t -> P /\ K' t) -> (P -> leads (quietly X K') m Q R) -> leads (quietly X K) m Q R.
Proof. intros HK Hm s (Hu & HX & Hs). destruct (HK _ Hs) as [HP Hs']. by apply Hm. Qed.

Lemma durable_buy_leads me quoted ticks cap escrow cb :
  leads (fun s => btr s = [])
    (place_buy_by_model_with_submit_identity parse_address money_submit_identity me quoted ticks cap escrow
       (fun identity cursor balance => lift (entered (KBeforePost identity cursor balance) (cb identity cursor balance))))
    (fun _ s => posted_durably me quoted ticks cap (Ok tt) s) (stopping (posted_durably me quoted ticks cap)).
Proof.
  apply (leads_pre _ (quietly (fun _ _ => True) (fun _ => True)));
    [|intros s Hs; split; [unfold unposted; by rewrite Hs|done]].
  unfold place_buy_by_model_with_submit_identity.
  eapply leads_bind; [apply stops_before, outcome_quietly|intros []].
  eapply leads_bind; [apply stops_before, on_chain_skip; [apply learns_silent|apply lasting_pure]|intros []].
  eapply leads_bind; [apply stops_before, on_chain_skip; [apply learns_can_place|apply lasting_pure]|intros []].
  eapply leads_bind; [apply stops_before, on_chain_quietly; [apply learns_selected|apply lasting_pure]|intros [book sel]].
  cbn beta iota. apply (leads_exists_quietly _ _ (fun snapshot t => True /\ selected_on me ticks cap (book, sel) snapshot t));
    [intros t (_ & snapshot & H); by exists snapshot|intros snapshot].
  eapply leads_bind; [apply stops_before, expected_quietly|intros expected].
  eapply leads_bind; [apply stops_before, outcome_quietly|intros ob].
  apply (leads_pure_quietly _ (parse_address (bk_order_book snapshot) = Some ob)
    (expectation_of me quoted ticks cap expected snapshot)); [by intros t [[-> HE] Hob%ok_or_ok]|intros Hob].
  eapply leads_bind; [apply stops_before, pending_quietly|intros []].
  eapply leads_bind; [apply stops_before, on_chain_skip; [apply learns_now|]|intros now].
  { apply lasting_expectation. }
  eapply leads_bind; [apply stops_before, outcome_quietly|intros deadline].
  apply (forgets_unless_ambiguous _ _ _ _ _ _ expected snapshot ob Hob).
  eapply leads_pre; [apply durable_sends, lasting_expectation|]. intros s (Hu & _ & HE & _). done.
Qed.

(** C17: A durable buy is written down, posted, repeated and remembered in that order.  Over a
    chain whose answers are arbitrary, a durable buy either posts nothing, or its trace
    ends with one signed message: its identity was written down by the caller's own
    record before the first POST, every repetition of it follows a decoded refusal that
    may be retried, there are at most nine POSTs, and the answer of the last is the
    answer of the buy.  The cursor it was recorded with is the one that consumed, from
    nothing, every fill the note reports of the book whose snapshot the buy was chosen
    on, in the read that is the last call before the record is written; what is expected
    is that snapshot's chosen, unused ask; and the expectation is kept unless the last
    answer proves that nothing landed. *)
Theorem durable_buys_are_written_down_first (me : RealBuyerBackend) (quoted : option OrderBookOrder)
    (ticks cap escrow : Z) (cb : string -> MatchWatchCursor -> Z -> W -> outcome ChainError unit * W) (s : state) :
  btr s = [] ->
  let '(r, s') := place_buy_by_model_with_submit_identity parse_address money_submit_identity me quoted ticks cap escrow
    (fun identity cursor balance => lift (entered (KBeforePost identity cursor balance) (cb identity cursor balance))) s in
  (unposted (btr s') /\ r <> Some (Ok tt)) \/
  exists answer, r = Some answer /\ posted_durably me quoted ticks cap answer s'.
Proof.
  intros Hs. pose proof (durable_buy_leads me quoted ticks cap escrow cb s Hs) as Hl.
  destruct (place_buy_by_model_with_submit_identity _ _ _ _ _ _ _ _ s) as [[[[]|e|]|] s'].
  - right. by exists (Ok tt).
  - destruct Hl as [Hl|Hl]; [by left|right]. by exists (Err e).
  - destruct Hl as [Hl|Hl]; [by left|right]. by exists Panic.
  - destruct Hl as [Hl|[]]. by left.
Qed.
End Durable.

(** ** The fill a buyer takes, and the week he settles

    A wait takes only a fill that its cursor had not seen, and the promised one when
    there is a promise; after a durable buy this means a fill of that buy.  The wait
    ends with the clock; a settled week is confirmed by the chain. *)
Section Fill.
Context (parse_address : string -> option string) (money_submit_identity : string -> string).
Context {W : Type} `{HB : BuyChain W} `{HC : Clock W}.
Abbreviation world := (traced W BuyCall).
Abbreviation state := (BuyState world).

(** The note reported this fill of that book at time [t]. *)
Definition reported_fill (ob : string) (t : Z) (fill : MatchedFill) (trace : list BuyCall) : Prop :=
  exists messages fills, KMessages (Ok messages) ∈ trace /\
    fills_of parse_address (default ob (parse_address ob)) true messages = Ok fills /\ In (t, fill) fills.
Definition taken (ob : string) (cursor : MatchWatchCursor) (expected : option MatchedFill) (fill : MatchedFill)
    (trace : list BuyCall) : Prop :=
  (forall e, expected = Some e -> same_fill e fill = true) /\
  exists t, reported_fill ob t fill trace /\ has_seen cursor t (mf_token_contract fill) = false.

(** What a wait takes was reported in a read of its own. *)
Lemma wait_takes fuel ob cursor expected start timeout (w : world) fill w' :
  wait_correlated_inference_fill parse_address fuel ob cursor expected start timeout w = (Some (Ok fill), w') ->
  exists waited, snd w' = waited ++ snd w /\ taken ob cursor expected fill waited.
Proof.
  revert cursor w. induction fuel as [|fuel IH]; intros cursor w; [done|]. cbn [wait_correlated_inference_fill]. unfold bind at 1.
  pose proof (poll_reads parse_address ob cursor w) as Hr.
  destruct (poll_inference_filled_tcs _ _ _ w) as [[[[out c']|e|]|] w1]; [|done..]. destruct Hr as (ms & fs & Ht & Hf & Hc).
  assert (forall l, KMessages (Ok ms) ∈ l ++ [KMessages (Ok ms)]) as Hin by (intros l; apply elem_of_app; right; left).
  unfold bind at 1, of_outcome. destruct (correlate_fill_batch expected out) as [[f|]|e|] eqn:Ecor; [| |done..].
  - intros [= <- <-]. apply correlate_ok in Ecor as [Hfin Hsame]. exists [KMessages (Ok ms)]. split; [done|]. split; [done|].
    replace out with (fst (consume_new_fill_batch cursor fs)) in Hfin by by rewrite <- Hc.
    apply consume_unseen in Hfin as (t & Hfin & Hs). exists t. split; [|done]. exists ms, fs. split; [apply (Hin [])|done].
  - unfold bind at 1, get. destruct (timeout <=? _); [done|]. unfold bind, run. intros Hrun.
    apply IH in Hrun as (waited & Hw & Hsame & t & (ms' & fs' & Hm & Hf') & Hs). exists (waited ++ [KMessages (Ok ms)]).
    rewrite Hw. simpl. rewrite Ht, <- app_assoc. split; [done|]. split; [done|]. exists t. split.
    + exists ms', fs'. split; [apply elem_of_app; by left|done].
    + destruct (has_seen cursor t (mf_token_contract fill)) eqn:E; [|done].
      apply (consume_keeps cursor fs) in E. rewrite <- Hc in E. simpl in E. congruence.
Qed.

Lemma has_seen_same c t a b : tc_same a b = true -> has_seen c t a = true -> has_seen c t b = true.
Proof. rewrite tc_same_iff, !has_seen_behind. apply behind_same. Qed.

(** The wait of a buyer with a pending fill. *)
Lemma wait_matched_takes fuel since timeout (s : state) fill s' pending :
  bs_pending s = Some pending ->
  wait_matched_token_contract parse_address fuel since timeout s = (Some (Ok (Some fill)), s') ->
  exists ob waited, btr s' = waited ++ KAddress (Ok ob) :: btr s /\
    taken ob (pf_cursor pending) (pf_expected pending) fill waited.
Proof.
  intros Hp. unfold wait_matched_token_contract, bind, on_chain, lift, take_pending_fill, get, with_pending, btr. simpl. unfold entered.
  destruct (by_book_address (fst (bs_chain s))) as [[ob|e|] w1]; simpl; [|done..]. rewrite Hp. simpl.
  destruct (wait_correlated_inference_fill _ _ _ _ _ _ _ _) as [[[f|e|]|] w2] eqn:Ew; [|done..].
  intros [= <- <-]. apply wait_takes in Ew as (waited & Hw & Ht). by exists ob, waited.
Qed.

(** A durable buy and then the wait for its fill. *)
Definition buy_and_wait (me : RealBuyerBackend) (quoted : option OrderBookOrder) (ticks cap escrow : Z)
    (cb : string -> MatchWatchCursor -> Z -> W -> outcome ChainError unit * W) (fuel : nat) (since timeout : Z)
    : prog state (option MatchedFill) :=
  place_buy_by_model_with_submit_identity parse_address money_submit_identity me quoted ticks cap escrow
    (fun identity cursor balance => lift (entered (KBeforePost identity cursor balance) (cb identity cursor balance))) >>!
  wait_matched_token_contract parse_address fuel since timeout.

(** C18: The fill a durable buy takes is its own.  Over a chain whose answers are arbitrary,
    a durable buy followed by its wait takes only a fill that the note reported, in a read
    made after the POSTs, on the book the chain names for the model.  The last read before
    the buy was written down was of the note too, and on the book whose snapshot the buy
    was chosen on it reported no fill of that time in any spelling of that contract.  And
    when a seller was there, the fill is of the ask chosen from that snapshot: of its
    deal, unused before the POST, for the whole volume at the ask's price. *)
Theorem the_fill_taken_is_the_buys_own (me : RealBuyerBackend) (quoted : option OrderBookOrder) (ticks cap escrow : Z)
    (cb : string -> MatchWatchCursor -> Z -> W -> outcome ChainError unit * W) (fuel : nat) (since timeout : Z)
    (s s' : state) (fill : MatchedFill) :
  btr s = [] ->
  buy_and_wait me quoted ticks cap escrow cb fuel since timeout s = (Some (Ok (Some fill)), s') ->
  exists waited ob t posts identity cursor balance before fills0 ob0 snapshot older,
    btr s' = waited ++ KAddress (Ok ob) :: posts
               ++ KBeforePost identity cursor balance (Ok tt) :: KMessages (Ok before) :: older /\
    Forall (fun c => is_post c = true) posts /\ unposted older /\ reported_fill ob t fill waited /\
    saw_book snapshot older /\ parse_address (bk_order_book snapshot) = Some ob0 /\
    fills_of parse_address (default ob0 (parse_address ob0)) true before = Ok fills0 /\
    (forall f0, In (t, f0) fills0 -> tc_same (mf_token_contract f0) (mf_token_contract fill) = false) /\
    (bb_wait_for_seller me = false -> exists ask, chosen_from snapshot ticks cap ask /\
       unused parse_address ask (mf_token_contract fill) older /\
       mf_ticks fill = ticks /\ mf_price_per_tick fill = ob_price_per_tick ask).
Proof.
  intros Hs Hrun. unfold buy_and_wait, bind in Hrun.
  pose proof (durable_buy_leads parse_address money_submit_identity me quoted ticks cap escrow cb s Hs) as Hl.
  destruct (place_buy_by_model_with_submit_identity _ _ _ _ _ _ _ _ s) as [[[[]|e|]|] s1]; [|done..].
  destruct Hl as (boc & cursor & balance & expected & snapshot & ob0 & earlier & (errors & Htr & _) & Hu & [Hb HE] & Hob
    & (before & fills0 & older & -> & Hf & Hc) & _ & Hp).
  destruct (wait_matched_takes fuel since timeout s1 fill s' _ Hp Hrun) as (ob & waited & Ht & Hsame & t & Hrep & Hunseen).
  simpl in Hsame, Hunseen.
  exists waited, ob, t, (KPostMoney boc (Ok tt) :: map (fun x => KPostMoney boc (Err x)) errors), (money_submit_identity boc),
    cursor, balance, before, fills0, ob0, snapshot, older.
  split_and!; try done.
  - by rewrite Ht, Htr.
  - constructor; [done|]. apply Forall_map. by apply Forall_forall.
  - by inversion Hu.
  - by apply elem_of_cons in Hb as [?|Hb].
  - intros f0 Hin. destruct (tc_same _ _) eqn:E; [|done].
    apply (consume_covers (cursor_new 0)), (has_seen_same _ _ _ _ E) in Hin. rewrite <- Hc in Hin. congruence.
  - intros Hw. rewrite Hw in HE. destruct HE as (ask & f & -> & Hchosen & (tc & Hun & ->) & _).
    specialize (Hsame _ eq_refl). unfold same_fill in Hsame. simpl in Hsame.
    rewrite !andb_true_iff, bool_decide_eq_true, !Z.eqb_eq in Hsame. destruct Hsame as [[Htc Ht'] Hprice].
    exists ask. rewrite Htc. split_and!; try done.
    destruct Hun as (raw & Hr & Hpa & st & Hst & Hus). exists raw. split_and!; [done..|]. exists st.
    by apply elem_of_cons in Hst as [?|Hst].
Qed.

(** ** The wait ends *)
Lemma poll_runs ob cursor : forward (W:=W) by_note_messages -> runs (poll_inference_filled_tcs parse_address (W:=W) ob cursor).
Proof.
  intros Hf. apply runs_bind; [by apply runs_lift|intros ms]. apply runs_bind; [apply runs_outcome|intros fl]. apply runs_ret.
Qed.
Lemma wait_ends `{!ClockLaws W} fuel ob cursor expected start timeout (w : W) :
  forward (W:=W) by_note_messages -> (1 <= fuel)%nat ->
  timeout - (clock_now w - start) <= INFERENCE_FILL_POLL_INTERVAL * (Z.of_nat fuel - 1) ->
  fst (wait_correlated_inference_fill parse_address fuel ob cursor expected start timeout w) <> None.
Proof.
  intros Hf. revert cursor w. induction fuel as [|fuel IH]; intros cursor w Hfuel Ht; [lia|]. cbn [wait_correlated_inference_fill].
  apply bind_ends; [by apply poll_runs|]. intros [out c'] w1 H1.
  apply bind_ends; [apply runs_outcome|]. intros [fill|] w2 H2; [done|].
  unfold bind, get, run. simpl. destruct (Z.leb_spec timeout (clock_now w2 - start)); [done|].
  pose proof (sleep_moves INFERENCE_FILL_POLL_INTERVAL w2 ltac:(done)) as Hsl.
  unfold INFERENCE_FILL_POLL_INTERVAL in *. apply IH; lia.
Qed.

(** A wait for a fill ends.  On a clock that moves in sleeps and that no read turns back,
    the loop ends with a fill or an error before its fuel does, when the fuel is one
    read more than the polls its timeout leaves room for. *)
Theorem fill_waits_end `{!ClockLaws W} (fuel : nat) (ob : string) (cursor : MatchWatchCursor)
    (expected : option MatchedFill) (timeout : Z) (w : W) :
  forward (W:=W) by_note_messages -> (1 <= fuel)%nat ->
  timeout <= INFERENCE_FILL_POLL_INTERVAL * (Z.of_nat fuel - 1) ->
  fst (wait_correlated_inference_fill parse_address fuel ob cursor expected (clock_now w) timeout w) <> None.
Proof. intros Hf H1 Ht. apply wait_ends; [done..|]. lia. Qed.

(** ** The settled week *)
(** What the chain showed when a week was accepted as settled. *)
Definition week_confirmed (tc : TokenContract) (before : Z) (t : list BuyCall) : Prop :=
  (exists after, KSubscription tc (Ok (Some after)) ∈ t /\ before < week_index after) \/
  (KSubscription tc (Ok None) ∈ t /\ KActive tc (Ok false) ∈ t).
Lemma week_confirmed_grown ok tc before t0 t : grown ok t0 t -> week_confirmed tc before t0 -> week_confirmed tc before t.
Proof.
  intros Hg [(after & Ha & Hlt)|[Ha Hb]]; [left; exists after|right]; split; try done; by eapply grown_elem.
Qed.
Definition polled_since (t0 t : list BuyCall) : Prop := exists polls, t = polls ++ t0 /\ unposted polls.
Definition confirmed_since (tc : TokenContract) (before : Z) (t0 t : list BuyCall) : Prop :=
  exists polls, t = polls ++ t0 /\ unposted polls /\ week_confirmed tc before polls.
Lemma polled_here t : polled_since t t.
Proof. exists []. split; [done|constructor]. Qed.
Lemma polled_one c t0 t : is_post c = false -> polled_since (c :: t0) t -> polled_since t0 t.
Proof.
  intros Hc (polls & -> & Hp). exists (polls ++ [c]). rewrite <- app_assoc. split; [done|].
  apply Forall_app. split; [done|by constructor].
Qed.
Lemma confirmed_one tc before c t0 t : is_post c = false -> confirmed_since tc before (c :: t0) t -> confirmed_since tc before t0 t.
Proof.
  intros Hc (polls & -> & Hp & Hw). exists (polls ++ [c]). rewrite <- app_assoc. split_and!; [done| |].
  - apply Forall_app. split; [done|by constructor].
  - destruct Hw as [(after & Ha & ?)|[Ha Hb]]; [left; exists after|right]; (split; [|try done]); apply elem_of_app; by left.
Qed.

Lemma confirm_week_traces reads tc before t0 :
  leads (S:=world) (fun w => snd w = t0) (confirm_week reads tc before)
    (fun _ w => confirmed_since tc before t0 (snd w)) (fun _ w => polled_since t0 (snd w)).
Proof.
  revert t0. induction reads as [|reads IH]; intros t0; cbn [confirm_week]; [intros w <-; apply polled_here|].
  intros w <-. unfold bind at 1, lift. simpl. unfold entered.
  destruct (by_subscription tc (fst w)) as [[[post|]|e|] w1]; simpl; try (eapply polled_one; [|apply polled_here]; done).
  - unfold bind, of_outcome, ret. simpl. destruct (Z.ltb_spec before (week_index post)) as [Hlt|_]; simpl.
    + exists [KSubscription tc (Ok (Some post))]. split_and!; [done|by repeat constructor|]. left. exists post. split; [left|done].
    + specialize (IH _ (sleep CLAIM_CONFIRMATION_POLL_INTERVAL w1, KSubscription tc (Ok (Some post)) :: snd w) eq_refl).
      unfold run. simpl. destruct (confirm_week reads tc before _) as [[[[]|e|]|] w2]; simpl in IH;
        first [by apply (confirmed_one _ _ (KSubscription tc (Ok (Some post))))|by apply (polled_one (KSubscription tc (Ok (Some post))))].
  - unfold bind, of_outcome. simpl. destruct (by_account_active tc w1) as [[[]|e|] w2]; simpl;
      try (apply (polled_one (KSubscription tc (Ok None))); [done|]; eapply polled_one; [|apply polled_here]; done).
    eexists [_; _]. split_and!; [reflexivity|by repeat constructor|]. right. split; [right; left|left].
Qed.

Lemma reads_keep {A} (m : prog world A) F (K : list BuyCall -> Prop) (R : stopped -> world -> Prop) :
  learns snd is_read m F -> lasting is_read K -> (forall x w, unposted (snd w) -> R x w) ->
  leads (fun w => unposted (snd w) /\ K (snd w)) m (fun _ w => unposted (snd w) /\ K (snd w)) R.
Proof.
  intros Hm HK HR w [Hu HKw]. specialize (Hm _ w eq_refl).
  destruct (m w) as [[[a|e|]|] w']; [|by eapply HR, unposted_grown..].
  destruct Hm as [Hg _]. split; [by eapply unposted_grown|by eapply HK].
Qed.
Lemma settle_week_leads tc0 tc :
  parse_address tc0 = Some tc ->
  leads (S:=world) (fun w => snd w = []) (settle_week parse_address tc0)
    (fun _ w => exists before earlier, KSubscription tc (Ok (Some before)) ∈ earlier /\ unposted earlier /\
       confirmed_since tc (week_index before) (KSettleWeek tc (Ok tt) :: earlier) (snd w))
    (fun _ w => unposted (snd w) \/ exists before answer earlier,
       KSubscription tc (Ok (Some before)) ∈ earlier /\ unposted earlier /\
       polled_since (KSettleWeek tc answer :: earlier) (snd w)).
Proof.
  intros Htc. unfold settle_week. set (R := fun (x : stopped) (w : world) => _).
  assert (forall x w, unposted (snd w) -> R x w) as HR by (intros x w Hu; by left).
  apply (leads_pre _ (fun w => unposted (snd w))); [|intros w Hw; unfold unposted; by rewrite Hw].
  eapply (leads_bind _ _ _ (fun tc' w => unposted (snd w) /\ tc' = tc)).
  { intros w Hu. unfold parse_tc. rewrite Htc. done. }
  intros tc'. eapply (leads_bind _ _ _ (fun sub w => unposted (snd w) /\ tc' = tc /\ KSubscription tc (Ok sub) ∈ snd w)).
  { intros w [Hu ->]. pose proof (learns_entered is_read (KSubscription tc) (by_subscription tc) ltac:(done) _ w eq_refl) as Hl.
    change (by_subscription (W:=world) tc) with (entered (KSubscription tc) (by_subscription (W:=W) tc)).
    destruct (lift (entered (KSubscription tc) (by_subscription tc)) w) as [[[sub|e|]|] w']; try (by eapply HR, unposted_grown).
    destruct Hl. split; [by eapply unposted_grown|done]. }
  intros sub. eapply (leads_bind _ _ _ (fun pre w => unposted (snd w) /\ tc' = tc /\ exists before,
    pre = week_index before /\ KSubscription tc (Ok (Some before)) ∈ snd w)).
  { intros w (Hu & -> & Hin). destruct sub as [before|]; [|by apply HR]. split_and!; [done..|]. by exists before. }
  intros pre. eapply (leads_bind _ _ _ (fun _ w => unposted (snd w) /\ tc' = tc /\ exists before,
    pre = week_index before /\ KSubscription tc (Ok (Some before)) ∈ snd w)).
  { apply (reads_keep _ knows_nothing (fun t => tc' = tc /\ exists before,
      pre = week_index before /\ KSubscription tc (Ok (Some before)) ∈ t)); [apply learns_require_tc_gas| |done].
    apply lasting_and; [apply lasting_pure|]. apply lasting_ex. intros before. apply lasting_and; [apply lasting_pure|].
    intros t0 t Hg. by eapply grown_elem. }
  intros [] w (Hu & -> & before & -> & Hin).
  change (by_settle_week (W:=world) tc) with (entered (KSettleWeek tc) (by_settle_week (W:=W) tc)).
  unfold bind at 1, lift, entered.
  destruct (by_settle_week tc (fst w)) as [[[]|e|] w3].
  2,3: right; by eexists before, _, (snd w); split_and!; [done..|apply polled_here].
  pose proof (confirm_week_traces CLAIM_CONFIRMATION_MAX_READS tc (week_index before) _
    (w3, KSettleWeek tc (Ok tt) :: snd w) eq_refl) as Hc. cbn beta iota.
  destruct (confirm_week _ tc _ _) as [[[[]|e|]|] w4]; cbn beta iota in Hc; [by exists before, (snd w)|..];
    right; by exists before, (Ok tt), (snd w).
Qed.

(** A settled week is the chain's.  Over a chain whose answers are arbitrary,
    [settleWeek] is posted at most once, after a read of the subscription; when it is
    accepted, a read made after the POST showed a later week, or the deal no longer
    active and its subscription gone. *)
Theorem settled_weeks_are_confirmed_by_the_chain (tc0 : TokenContract) (w : world) :
  snd w = [] ->
  let '(r, w') := settle_week parse_address tc0 w in
  (unposted (snd w') /\ r <> Some (Ok tt)) \/
  exists tc before answer earlier,
    parse_address tc0 = Some tc /\ KSubscription tc (Ok (Some before)) ∈ earlier /\ unposted earlier /\
    polled_since (KSettleWeek tc answer :: earlier) (snd w') /\
    (r = Some (Ok tt) -> answer = Ok tt /\
       confirmed_since tc (week_index before) (KSettleWeek tc answer :: earlier) (snd w')).
Proof.
  intros Hw.
  destruct (parse_address tc0) as [tc|] eqn:Etc.
  2:{ unfold settle_week, bind, of_outcome, parse_tc. rewrite Etc. left. unfold unposted. by rewrite Hw. }
  pose proof (settle_week_leads tc0 tc Etc w Hw) as Hl.
  destruct (settle_week parse_address tc0 w) as [[[[]|e|]|] w'].
  1:{ destruct Hl as (before & earlier & H1 & H2 & Hc). right. exists tc, before, (Ok tt), earlier. split_and!; [done..| |done].
      destruct Hc as (polls & ? & ? & _). by exists polls. }
  all: destruct Hl as [Hl|(before & answer & earlier & H1 & H2 & H3)]; [by left|right]; by exists tc, before, answer, earlier.
Qed.
End Fill.

(** ** The submit and the wait answer *)
Section BuyAnswers.
Context (parse_address : string -> option string) (money_submit_identity : string -> string).
Context {W : Type} `{HB : BuyChain W} `{HC : Clock W}.
Lemma answers_on_chain {A} (m : prog W A) : answers m -> answers (on_chain m).
Proof. intros Hm s. specialize (Hm (bs_chain s)). unfold on_chain. by destruct (m (bs_chain s)). Qed.
Lemma answers_preparing {V A} (m : prog V A) : answers m -> answers (preparing m).
Proof. intros Hm s. specialize (Hm s). unfold preparing. by destruct (m s) as [[[]|] ?]. Qed.
Lemma answers_forget {m : prog (BuyState W) unit} : answers m -> answers (forget_unless_ambiguous m).
Proof. intros Hm s. specialize (Hm s). unfold forget_unless_ambiguous. by destruct (m s) as [[[]|] ?]. Qed.
Lemma answers_retry_sends again (send : W -> outcome ChainError unit * W) n delay : answers (retry_sends again send n delay).
Proof. revert delay. induction n; intros; cbn [retry_sends]; answering. Qed.
Lemma answers_note_details n delay : answers (note_details (W:=W) n delay).
Proof. revert delay. induction n as [|[|n] IH]; intros; cbn [note_details]; answering. Qed.
Lemma answers_executable asks : answers (executable_rows parse_address (W:=W) asks).
Proof. induction asks; cbn [executable_rows]; [answering|]. unfold row_executable, gas_floor. answering. Qed.
#[local] Hint Resolve answers_retry_sends answers_note_details answers_executable : answers.
Lemma answers_selection me ticks cap : answers (model_buy_preflight_selection_once parse_address (W:=W) me ticks cap).
Proof. unfold model_buy_preflight_selection_once, submit_safe_model_buy_ask, executable_resting_asks. answering. Qed.
Lemma answers_expected selected ticks : answers (expected_fill parse_address (W:=W) selected ticks).
Proof. unfold expected_fill, assert_selected_tc_unused. answering. Qed.
Lemma answers_prepare order : answers (prepare_money_post (W:=W) order).
Proof.
  unfold prepare_money_post, clock_skew_preflight.
  repeat (apply answers_bind; [apply answers_preparing|intros]); answering.
Qed.
#[local] Hint Resolve answers_selection answers_expected answers_prepare answers_on_chain : answers.
Lemma answers_poll ob cursor : answers (poll_inference_filled_tcs parse_address (W:=W) ob cursor).
Proof. unfold poll_inference_filled_tcs. answering. Qed.
Lemma answers_durable_buy me quoted ticks cap escrow (cb : string -> MatchWatchCursor -> Z -> prog W unit) :
  (forall identity cursor balance, answers (cb identity cursor balance)) ->
  answers (place_buy_by_model_with_submit_identity parse_address money_submit_identity me quoted ticks cap escrow cb).
Proof.
  intros Hcb. pose proof answers_poll.
  unfold place_buy_by_model_with_submit_identity, assert_note_can_place_inference_buy, place_inference_buy_with_submit_identity,
    retry_buyer_money_submit.
  repeat first [apply answers_forget | apply answers_preparing | apply answers_on_chain | progress answering].
Qed.
Lemma answers_wait `{!ClockLaws W} fuel since timeout :
  forward (W:=W) by_note_messages -> (1 <= fuel)%nat -> timeout <= INFERENCE_FILL_POLL_INTERVAL * (Z.of_nat fuel - 1) ->
  answers (wait_matched_token_contract parse_address (W:=W) fuel since timeout).
Proof.
  intros Hf H1 Ht. unfold wait_matched_token_contract.
  apply answers_bind; [apply answers_on_chain, answers_lift|intros ob].
  apply answers_bind; [apply answers_get|intros pending]. intros s. unfold bind at 1. cbn [get].
  revert s. cut (answers (fun s : BuyState W => bind (on_chain (wait_correlated_inference_fill parse_address fuel ob
    (from_option pf_cursor (cursor_new since) pending) (pending ≫= pf_expected) (clock_now (bs_chain s)) timeout))
    (fun fill => ret (Some fill)) s)); [done|].
  intros s. unfold bind, on_chain.
  assert (timeout - (clock_now (bs_chain s) - clock_now (bs_chain s)) <= INFERENCE_FILL_POLL_INTERVAL * (Z.of_nat fuel - 1)) as Hl by lia.
  pose proof (wait_ends parse_address fuel ob (from_option pf_cursor (cursor_new since) pending) (pending ≫= pf_expected)
    _ _ (bs_chain s) Hf H1 Hl) as Hw.
  by destruct (wait_correlated_inference_fill _ _ _ _ _ _ _ _) as [[[]|] ?].
Qed.
End BuyAnswers.
