(* ===== verification/BuySample.v ===== *)
(** * BuySample: a desk with two deals, and the buys made at it *)
From S2P Require Import Prelude Text Params MarketTypes Accounting Machine MockDeal MockMarket Backend Offer.
From S2P Require Import Trace Quote Select SelectSpec Buy BuySafety BuySpec BuyDurable.

Definition row (id : Z) (tc : string) (price ticks : Z) : OrderBookOrder :=
  {| ob_order_id := id; ob_owner_note := "0:seller"; ob_token_contract := Some tc; ob_is_buy := false;
     ob_price_per_tick := price; ob_ticks := ticks; ob_escrow := 0; ob_deadline := 900;
     ob_flags := 0; ob_timestamp := 0 |}.
Definition desk_book : OrderBookSnapshot :=
  mkBook "model" "hash" "0:book" None [row 7 "0:C" 40 10; row 5 "0:B" 20 10].
Definition fresh_deal : DealChainState := mkDealState false false false false 0 0 0 0 0 None 0 0 0.

(** The desk: its clock, the answers of the POSTs to come, whether one landed, and the
    week of the subscription. *)
Record Desk : Type := mkDesk { dk_now : Z; dk_answers : list (outcome ChainError unit); dk_landed : bool; dk_week : Z }.
Definition answered (d : Desk) : outcome ChainError unit * Desk :=
  match dk_answers d with
  | [] => (Ok tt, mkDesk (dk_now d) [] true (dk_week d))
  | Ok _ :: rest => (Ok tt, mkDesk (dk_now d) rest true (dk_week d))
  | r :: rest => (r, mkDesk (dk_now d) rest (dk_landed d) (dk_week d))
  end.
Definition fill_message (created ticks : Z) (book tc : string) : NoteMessage :=
  mkNoteMessage (Some created) (Ok (Some (mkNoteFill book tc 5 ticks 20 true))).
#[local] Instance desk_chain : BuyChain Desk := {|
  by_unix_now d := Ok (500 + dk_now d / 1000);
  by_chain_time d := (Ok 495, d);
  by_book d := (Ok desk_book, d);
  by_deal_state tc d := (Ok (Some fresh_deal), d);
  by_subscription tc d := (Ok (Some (mkSub 64 4 (dk_week d) 0 0 0 0 0)), d);
  by_account_active tc d := (Ok true, d);
  by_balance tc d := (Ok 1000000000000, d);
  by_max_ticks tc d := (Ok (Some 10), d);
  by_owner_matches d := (Ok tt, d);
  by_note_details d := (Ok (Some (Some false)), d);
  by_note_ecc d := (Ok (Some 25000000), d);
  by_note_shell d := (Ok 204, d);
  by_book_address d := (Ok "0:book", d);
  by_note_messages d :=
    (Ok (fill_message 500 4 "0:book" "0:C" :: if dk_landed d then [fill_message 500 4 "0:book" "0:B"] else []), d);
  by_sign order d := (Ok "boc", d);
  by_route boc d := (Ok tt, d);
  by_post boc d := answered d;
  by_post_money boc d := answered d;
  by_settle_week tc d := (Ok tt, mkDesk (dk_now d) (dk_answers d) (dk_landed d) (dk_week d + 1)) |}.
#[local] Instance desk_clock : Clock Desk := {|
  clock_now := dk_now; sleep d w := mkDesk (dk_now w + d) (dk_answers w) (dk_landed w) (dk_week w) |}.
#[local] Instance desk_clock_laws : ClockLaws Desk.
Proof. constructor. intros d w Hd. simpl. lia. Qed.

Definition buyer : RealBuyerBackend := mkBuyer "hash" 50 4 204 false.
Definition at_desk (answers : list (outcome ChainError unit)) : BuyState (traced Desk BuyCall) :=
  mkBuyState None (cursor_new 0) (mkDesk 0 answers false 1, []).
Definition wrote (identity : string) (cursor : MatchWatchCursor) (balance : Z) (d : Desk) : outcome ChainError unit * Desk :=
  (Ok tt, d).
Definition durable : prog (BuyState (traced Desk BuyCall)) unit :=
  place_buy_by_model_with_submit_identity Some id buyer (Some (row 5 "0:B" 20 10)) 4 50 204
    (fun identity cursor balance => lift (entered (KBeforePost identity cursor balance) (wrote identity cursor balance))).
Definition overflow : ChainError := MoneySubmitRejected "QUEUE_OVERFLOW".


Definition named_run : option (outcome ChainError unit) * traced Desk BuyCall :=
  place_buy Some buyer "0:B" (mkDesk 0 [] false 1, []).
Lemma named_run_trace : snd (snd named_run) = [] ++ KPost "boc" (Ok tt) :: tl (snd (snd named_run)).
Proof. vm_compute. reflexivity. Qed.
Lemma named_buys_are_posted_for_the_named_deal_witness :
  exists tc, saw_unused tc (tl (snd (snd named_run))).
Proof.
  destruct (named_buys_are_posted_for_the_named_deal (W:=Desk) Some buyer "0:B" (mkDesk 0 [] false 1, []) []
    (tl (snd (snd named_run))) (KPost "boc" (Ok tt)) eq_refl named_run_trace eq_refl)
    as (named & tc & snapshot & now & _ & _ & Hu & _).
  by exists tc.
Defined.

(** A queue that overflows once: the same message is posted again and the expectation kept. *)
Lemma durable_buys_are_written_down_first_witness :
  posted_durably Some id buyer (Some (row 5 "0:B" 20 10)) 4 50 (Ok tt) (snd (durable (at_desk [Err overflow]))) /\
  length (List.filter is_post (btr (snd (durable (at_desk [Err overflow]))))) = 2%nat.
Proof.
  pose proof (durable_buys_are_written_down_first Some id buyer (Some (row 5 "0:B" 20 10)) 4 50 204 wrote
    (at_desk [Err overflow]) eq_refl) as Hd.
  change (let '(r, s') := durable (at_desk [Err overflow]) in
    (unposted (btr s') /\ r <> Some (Ok tt)) \/
    exists answer, r = Some answer /\ posted_durably Some id buyer (Some (row 5 "0:B" 20 10)) 4 50 answer s') in Hd.
  assert (fst (durable (at_desk [Err overflow])) = Some (Ok tt)) as Hr by (vm_compute; reflexivity).
  split; [|by vm_compute].
  destruct (durable (at_desk [Err overflow])) as [r s']. simpl in Hr. subst r.
  destruct Hd as [[_ []]|(answer & [= <-] & Hd)]; done.
Defined.

(** The old fill of the other deal is passed over. *)
Definition quoted_row : option OrderBookOrder := Some (row 5 "0:B" 20 10).
Definition own_fill : MatchedFill := mkMatchedFill 5 "0:B" 4 20.
Definition waited : BuyState (traced Desk BuyCall) :=
  snd (buy_and_wait Some id buyer quoted_row 4 50 204 wrote 3 0 4000 (at_desk [])).
Lemma sample_wait : buy_and_wait Some id buyer quoted_row 4 50 204 wrote 3 0 4000 (at_desk []) = (Some (Ok (Some own_fill)), waited).
Proof. vm_compute. reflexivity. Qed.
Lemma the_fill_taken_is_the_buys_own_witness :
  exists ob t since, reported_fill Some ob t own_fill since /\ exists before, btr waited = since ++ KAddress (Ok ob) :: before.
Proof.
  destruct (the_fill_taken_is_the_buys_own (W:=Desk) Some id buyer quoted_row 4 50 204 wrote 3 0 4000
    (at_desk []) waited own_fill eq_refl sample_wait) as (since & ob & t & posts & i & c & b & ms & fs & ob0 & sn & older & Ht & _ & _ & Hr & _).
  exists ob, t, since. split; [exact Hr|]. by eexists.
Defined.

Lemma fill_waits_end_witness :
  fst (wait_correlated_inference_fill Some 3 "0:book" (cursor_new 600) None (clock_now (mkDesk 0 [] false 1)) 4000
         (mkDesk 0 [] false 1)) <> None.
Proof.
  apply (fill_waits_end Some 3 "0:book" (cursor_new 600) None 4000 (mkDesk 0 [] false 1));
    [intros w; simpl; lia|lia|by vm_compute].
Defined.

Lemma settled_weeks_are_confirmed_by_the_chain_witness :
  let '(r, w') := settle_week Some "0:B" (mkDesk 0 [] false 1, []) in
  (unposted (snd w') /\ r <> Some (Ok tt)) \/
  exists tc before answer earlier, Some "0:B" = Some tc /\ KSubscription tc (Ok (Some before)) ∈ earlier /\
    unposted earlier /\ polled_since (KSettleWeek tc answer :: earlier) (snd w') /\
    (r = Some (Ok tt) -> answer = Ok tt /\
       confirmed_since tc (week_index before) (KSettleWeek tc answer :: earlier) (snd w')).
Proof. apply (settled_weeks_are_confirmed_by_the_chain Some "0:B" (mkDesk 0 [] false 1, [])). reflexivity. Defined.

(** ** Where the two submits part *)

(** A transport failure of the plain submit is retried, and then the promised fill is
    forgotten although one of the nine POSTs may have landed; the durable submit posts
    once and keeps it. *)
Definition dropped : outcome ChainError unit := Err (Transport "timeout").
Definition plain : prog (BuyState (traced Desk BuyCall)) unit := place_buy_by_model Some buyer 4 50 204 900.
Example a_plain_buy_is_posted_nine_times_and_forgotten :
  let s := snd (plain (at_desk (repeat dropped 9))) in
  length (List.filter is_post (btr s)) = 9%nat /\ bs_pending s = None.
Proof. by vm_compute. Qed.
Example an_ambiguous_durable_buy_is_posted_once_and_remembered :
  let s := snd (durable (at_desk [Err (AmbiguousSubmit "timeout")])) in
  length (List.filter is_post (btr s)) = 1%nat /\ is_Some (bs_pending s).
Proof. vm_compute. by eauto. Qed.
