(* ===== verification/Seller.v ===== *)
(** * Seller: the seller's half of the chain client
    (crates/core/src/chain/backends.rs and client.rs)

    The seller reads its deal through the strict getters, keeps the deal's gas reserve
    filled, posts the bond that opening needs, and treats no POST as done before a read
    of the chain shows its effect.  The chain is any world with these calls; the address
    parser, the hash of an account and the key conversion are parameters, and so is the
    test whether an error says that a response could not be decoded.  Durations are
    milliseconds; an error is its fixed text in its class. *)
From Stdlib Require Import Ascii.
From S2P Require Import Prelude Text Params MarketTypes Accounting Machine MockDeal MockMarket Json Getters.
From S2P Require Import Rows Backend Offer Buy.

(** ** The chain *)
Inductive Getter : Type := GetState | GetSubscription | GetSellerBond | GetBuyerBond | GetOffer | GetDeal | GetConfig.
(** An account of the node; its balances are those of its own SHELL. *)
Record Account : Type := mkAccount {
  ac_active : bool; ac_code_hash : option string; ac_boc : option string; ac_ecc : Z }.
(** The signed messages of the seller. *)
Inductive SellerWrite : Type :=
| FundDeal (nonce gas_shell amount : Z)
| FundDeployShell (nonce tc_shell : Z)
| OpenStream (tc : TokenContract) (endpoint_cipher : string)
| AcceptProbe (tc : TokenContract)
| ClaimTokens (tc : TokenContract) (cumulative_tokens : Z)
| FinalizeClaims (tc : TokenContract)
| SettleWeek (tc : TokenContract)
| DeployOrderBook (model_hash model_name : string) (tick_size : Z)
| PostSellOffer (flags nonce ttl : Z)
| ExpireOrder (order_book : string) (order_id : Z)
| CancelOrder (model_hash : string) (order_id : Z).

(** A message of the note: when it was made, what its body decodes to when it has one,
    who sent it and what it carried. *)
Record NotePlaced : Type := mkNotePlaced {
  pl_order_book : string; pl_token_contract : string; pl_order_id : Z; pl_is_buy : bool }.
Record OfferMessage : Type := mkOfferMessage {
  om_created_at : option Z;
  om_body : option (outcome string (option NotePlaced) * outcome string (option NoteFill));
  om_source : option string;
  om_value : option Z }.

Class SellerChain (W : Type) : Type := {
  sl_unix_now : W -> outcome ChainError Z;
  sl_chain_time : W -> outcome ChainError Z * W;
  sl_getter : TokenContract -> Getter -> W -> outcome ChainError (option Value) * W;
  sl_note_details : W -> outcome ChainError (option Value) * W;
  sl_account : string -> W -> outcome ChainError (option Account) * W;
  sl_buyer_pubkey : TokenContract -> W -> outcome ChainError (option (list Z)) * W;
  sl_owner_matches : W -> outcome ChainError unit * W;
  sl_book_address : W -> outcome ChainError string * W;
  sl_book_stats : string -> W -> outcome ChainError (option Value) * W;
  sl_book_storage : string -> W -> outcome ChainError Value * W;
  sl_note_messages : W -> outcome ChainError (list OfferMessage) * W;
  sl_sign : SellerWrite -> W -> outcome ChainError string * W;
  sl_route : string -> W -> outcome ChainError unit * W;
  sl_post : string -> W -> outcome ChainError unit * W
}.

Record RealSellerBackend : Type := mkSeller {
  sb_note : string; sb_nonce : Z; sb_model_hash : string; sb_model_name : string; sb_tick_size : Z;
  sb_supplied_overhead : option Z }.

Definition SHELL_CURRENCY_ID : Z := 2.
Definition DEAL_SNAPSHOT_MAX_ATTEMPTS : nat := 3.
Definition SELLER_BOND_CONFIRM_MAX_READS : nat := 20.
Definition SELLER_BOND_CONFIRM_POLL_INTERVAL : Z := 3000.
Definition TC_BOOL_CONFIRM_MAX_READS : nat := 40.
Definition TC_BOOL_CONFIRM_POLL_INTERVAL : Z := 3000.
Definition CLEANUP_UNOPENED_CONFIRM_MAX_READS : nat := 40.
Definition CLEANUP_UNOPENED_CONFIRM_POLL_INTERVAL : Z := 3000.
Definition DEAL_DESTROY_CONFIRM_MAX_READS : nat := 40.
Definition DEAL_DESTROY_CONFIRM_POLL_INTERVAL : Z := 3000.
Definition GAS_BALANCE_CONFIRM_MAX_READS : nat := 20.
Definition GAS_BALANCE_CONFIRM_POLL_INTERVAL : Z := 2000.
Definition SELLER_READ_BACKOFF : list Z := [250; 500; 1000; 2000].
Definition POST_SELL_OFFER_SUBMIT_TIMEOUT : Z := 120000.
Definition OFFER_ACCEPTANCE_TIMEOUT : Z := 45000.
Definition SELLER_OFFER_OUTCOME_POLL_INTERVAL : Z := 2000.
Definition SELLER_OFFER_EVENT_LOOKBACK_SECS : Z := 1.

(** ** Decisions that need no chain *)
Definition gas_health_top_up_amount (balance min target : Z) : option Z :=
  if balance <=? min then
    let amount := saturating_sub target balance in if 0 <? amount then Some amount else None
  else None.

Definition seller_bond_prewrite_state (bond : Value) (price_per_tick : Z) : outcome ChainError (bool * Z) :=
  let* bond := as_chain (decode_seller_bond bond) in
  let* expected := ok_or (u128_checked_mul price_per_tick 2) (Chain "pricePerTick cannot form the exact seller bond 2P") in
  fail_if negb (sb_bond_required bond =? expected)
    with Chain "getSellerBond().bondRequired does not equal the canonical seller bond 2P" in
  fail_if negb (if sb_bond_funded bond then sb_bond_held bond =? sb_bond_required bond else sb_bond_held bond =? 0)
    with Chain "getSellerBond() tuple is inconsistent" in
  Ok (sb_bond_funded bond, sb_bond_required bond).
Definition validate_seller_bond_note_record (note_spendable_shell post_amount : Z) : outcome ChainError unit :=
  fail_if note_spendable_shell <? post_amount with Chain "getDetails.balance[2] is below required seller bond 2P" in Ok tt.
Definition validate_seller_bond_note_reserve_with_overhead
    (note_spendable_shell note_physical_shell post_amount tc_reserve_ecc max_ticks overhead : Z) : outcome ChainError Z :=
  let pending_tc_top_up := default 0 (gas_health_top_up_amount tc_reserve_ecc
    (deal_gas_health_floor_raw_with_overhead max_ticks overhead)
    (deal_gas_health_target_raw_with_overhead max_ticks overhead)) in
  let* _ := validate_seller_bond_note_record note_spendable_shell post_amount in
  fail_if note_physical_shell <? pending_tc_top_up with Chain "physical ECC[2] gas is below pending TokenContract gas top-up" in
  Ok pending_tc_top_up.

Inductive ClaimHighWaterRead : Type := Behind (on_chain : Z) | Equal | Ahead (on_chain : Z).
Definition claim_high_water_read (state : option Value) (attempted : Z) : outcome ChainError ClaimHighWaterRead :=
  let* state := ok_or state (Chain "getState() returned no data while reconciling claimTokens") in
  let* raw := ok_or (field_str state "tokensPending") (Chain "getState().tokensPending is missing or not a string") in
  let* on_chain := ok_or (parse_uint U128_MAX (to_text raw)) (Chain "getState().tokensPending value is malformed") in
  Ok (match on_chain ?= attempted with Lt => Behind on_chain | Eq => Equal | Gt => Ahead on_chain end).

Definition finalize_post_confirmed (before_tokens_final : Z) (state : option DealChainState)
    (token_contract_active : bool) : outcome ChainError bool :=
  match state with
  | Some state =>
      if ds_tokens_final state <? before_tokens_final then Err (Chain "tokensFinal regressed after finalize")
      else if is_stopped state then Ok true
      else if ds_disputed state then Err (Chain "deal became disputed while reconciling finalize")
      else Ok (before_tokens_final <? ds_tokens_final state)
  | None =>
      if negb token_contract_active then Ok true
      else Err (Chain "getState() returned no data after finalize while still active")
  end.
Definition cleanup_unopened_confirmed (state : option DealChainState) : bool :=
  match state with None => true | Some state => negb (ds_funded state) end.

Definition validate_seller_resume_state (state : DealChainState) (price_per_tick : Z) : outcome ChainError unit :=
  let blocked (b : bool) : list unit := if b then [tt] else [] in
  let blockers :=
    blocked (negb (ds_funded state)) ++ blocked (ds_disputed state)
    ++ blocked (ds_probe_accepted state && negb (ds_opened state))
    ++ (if negb (ds_opened state) then
          blocked (ds_deposit state <? price_per_tick) ++ blocked (0 <? ds_probe_tick state)
          ++ blocked (0 <? ds_finalized_owed state) ++ blocked (0 <? ds_tokens_final state)
          ++ blocked (0 <? ds_tokens_pending state)
        else []) in
  match blockers with [] => Ok tt | _ => Err (Chain "matched but not openable for seller resume") end.

(** [try_fold] of checked additions *)
Definition snapshot_total (parts : list Z) : option Z :=
  foldl (fun sum part => match sum with Some sum => u128_checked_add sum part | None => None end) (Some 0) parts.
Definition token_value_floor (tokens price_per_tick tick_size : Z) : option Z :=
  if tick_size =? 0 then None
  else
    match u128_checked_mul (tokens / tick_size) price_per_tick, u128_checked_mul (tokens mod tick_size) price_per_tick with
    | Some whole, Some part => u128_checked_add whole (part / tick_size)
    | _, _ => None
    end.

Definition duplicate_sell_from_offer_latch (latch : option DealOfferLatch) : ChainError :=
  match latch with
  | Some latch =>
      if offer_posted latch then DuplicateSell "this TokenContract already has a live resting SELL"
      else Chain "getOffer() reports no live offer; the book refused this post for another reason"
  | None => Chain "getOffer() is unreadable; whether a live offer blocks a successor post is unknown"
  end.
Record SellerOfferEvents : Type := mkOfferEvents {
  oe_placed_order_id : option Z; oe_matched : bool; oe_placement_value_returned : bool }.
Definition classify_seller_offer_outcome (events : SellerOfferEvents) (matched_state : bool)
    : outcome ChainError (option SellOfferOutcome) :=
  if oe_matched events || matched_state then Ok (Some Matched)
  else match oe_placed_order_id events with
       | Some order_id => Ok (Some (Rested order_id))
       | None =>
           if oe_placement_value_returned events
           then Err (DuplicateSell "this TokenContract already has a live resting SELL")
           else Ok None
       end.
Definition same_address (a b : string) : bool := eq_ignore_ascii_case (to_text a) (to_text b).
Definition add_placed (want_ob want_tc : string) (placed : option NotePlaced) (e : SellerOfferEvents) : SellerOfferEvents :=
  match placed with
  | Some p =>
      if negb (pl_is_buy p) && same_address (pl_order_book p) want_ob && same_address (pl_token_contract p) want_tc
      then mkOfferEvents (Some (pl_order_id p)) (oe_matched e) (oe_placement_value_returned e) else e
  | None => e
  end.
Definition add_filled (want_ob want_tc : string) (fill : option NoteFill) (e : SellerOfferEvents) : SellerOfferEvents :=
  match fill with
  | Some f =>
      if negb (nf_is_buy f) && same_address (nf_order_book f) want_ob && same_address (nf_token_contract f) want_tc
      then mkOfferEvents (oe_placed_order_id e) true (oe_placement_value_returned e) else e
  | None => e
  end.
Definition add_returned (want_ob : string) (m : OfferMessage) (e : SellerOfferEvents) : SellerOfferEvents :=
  if match om_source m with Some source => same_address source want_ob | None => false end
     && bool_decide (om_value m = Some 1000000000)
  then mkOfferEvents (oe_placed_order_id e) (oe_matched e) true else e.
(** The fold over the messages since a second. *)
Fixpoint seller_offer_events_since (want_ob want_tc : string) (since : Z) (messages : list OfferMessage)
    (e : SellerOfferEvents) : outcome ChainError SellerOfferEvents :=
  match messages with
  | [] => Ok e
  | m :: rest =>
      if match om_created_at m with Some created_at => created_at <? since | None => true end
      then seller_offer_events_since want_ob want_tc since rest e
      else
        match om_body m with
        | Some (placed, filled) =>
            let* placed := as_chain placed in
            let* filled := as_chain filled in
            seller_offer_events_since want_ob want_tc since rest
              (add_filled want_ob want_tc filled (add_placed want_ob want_tc placed e))
        | None => seller_offer_events_since want_ob want_tc since rest (add_returned want_ob m e)
        end
  end.

Section Seller.
Context (parse_address : string -> option string) (account_boc_hash : string -> string)
        (normalize_code_hash : string -> option string) (x25519_pub_from_ed25519_pub : list Z -> option (list Z))
        (unusable_response : ChainError -> bool).
Context {W : Type} `{HS : SellerChain W} `{HC : Clock W}.

(** The result of a program as a value, for a [match] on the [Result]. *)
Definition caught {A} (m : prog W A) : prog W (outcome ChainError A) := fun w =>
  match m w with
  | (Some Panic, w') => (Some Panic, w')
  | (Some r, w') => (Some (Ok r), w')
  | (None, w') => (None, w')
  end.

(** ** Reads of the deal *)

Definition token_contract_state (tc : TokenContract) : prog W (option Value) := lift (sl_getter tc GetState).
Definition token_contract_seller_bond (tc : TokenContract) : prog W (option Value) := lift (sl_getter tc GetSellerBond).
Definition strict {A} (decode : Value -> outcome string A) (value : option Value) : outcome ChainError (option A) :=
  match value with
  | None => Ok None
  | Some value => let* a := as_chain (decode value) in Ok (Some a)
  end.
Definition read_strict {A} (getter : Getter) (decode : Value -> outcome string A) (tc : TokenContract) : prog W (option A) :=
  let! value := lift (sl_getter tc getter) in of_outcome (strict decode value).
Definition token_contract_deal_state := read_strict GetState decode_state.
Definition token_contract_subscription := read_strict GetSubscription decode_subscription.
Definition token_contract_deal_seller_bond := read_strict GetSellerBond decode_seller_bond.
Definition token_contract_deal_buyer_bond := read_strict GetBuyerBond decode_buyer_bond.
Definition token_contract_offer := read_strict GetOffer decode_offer.
Definition token_contract_price_per_tick (tc : TokenContract) : prog W (option Z) :=
  let! value := lift (sl_getter tc GetDeal) in ret (value ≫= fun v => lenient_u128 v "pricePerTick").
(** Tick size, price and ticks; a field that does not read is no answer. *)
Definition deal_terms_of (v : Value) : option (Z * Z * Z) :=
  match lenient_u128 v "tickSize", lenient_u128 v "pricePerTick", lenient_u128 v "maxTicks" with
  | Some tick_size, Some price_per_tick, Some max_ticks => Some (tick_size, price_per_tick, max_ticks)
  | _, _, _ => None
  end.
Definition token_contract_deal_terms (tc : TokenContract) : prog W (option (Z * Z * Z)) :=
  let! value := lift (sl_getter tc GetDeal) in ret (value ≫= deal_terms_of).
Definition account_is_active (tc : TokenContract) : prog W bool :=
  let! account := lift (sl_account tc) in ret (from_option ac_active false account).

(** ** One coherent snapshot *)

Record DealAccountIdentity : Type := mkDealIdentity { id_code_hash : string; id_boc_hash : string }.
Definition identity_of (account : option Account) : outcome ChainError (option DealAccountIdentity) :=
  match account with
  | None => Ok None
  | Some account =>
      if negb (ac_active account) then Ok None
      else
        let* code_hash := ok_or (ac_code_hash account ≫= normalize_code_hash) (Chain "active but has no code hash") in
        let* boc := ok_or (ac_boc account) (Chain "active but has no account BOC") in
        Ok (Some (mkDealIdentity code_hash (account_boc_hash boc)))
  end.
Definition account_identity (tc : TokenContract) : prog W (option DealAccountIdentity) :=
  let! account := lift (sl_account tc) in of_outcome (identity_of account).
Definition same_identity (a b : option DealAccountIdentity) : bool :=
  match a, b with
  | Some a, Some b => bool_decide (id_code_hash a = id_code_hash b) && bool_decide (id_boc_hash a = id_boc_hash b)
  | _, _ => false
  end.
Definition assemble (before : DealAccountIdentity) (state : option DealChainState) (subscription : option DealSubscription)
    (seller_bond : option DealSellerBond) (buyer_bond : option DealBuyerBond) : outcome ChainError DealChainSnapshot :=
  let* state := ok_or state (Chain "getState() returned no data for an active contract") in
  let* subscription := ok_or subscription (Chain "getSubscription() returned no data for an active contract") in
  let* seller_bond := ok_or seller_bond (Chain "getSellerBond() returned no data for an active contract") in
  let* buyer_bond := ok_or buyer_bond (Chain "getBuyerBond() returned no data for an active contract") in
  let snapshot := mkSnapshot (id_code_hash before) (id_boc_hash before) state subscription seller_bond buyer_bond in
  let* _ := as_chain (validate_cross_getter_invariants snapshot) in
  Ok snapshot.
Definition read_deal_snapshot_round (tc : TokenContract) : prog W (option DealChainSnapshot) :=
  let! before := account_identity tc in
  match before with
  | None => ret None
  | Some before =>
      let! state := token_contract_deal_state tc in
      let! subscription := token_contract_subscription tc in
      let! seller_bond := token_contract_deal_seller_bond tc in
      let! buyer_bond := token_contract_deal_buyer_bond tc in
      let! after := account_identity tc in
      if negb (same_identity after (Some before))
      then throw (Chain "TokenContract changed or was destroyed while its accounting getters were read")
      else
        let! snapshot := of_outcome (assemble before state subscription seller_bond buyer_bond) in
        ret (Some snapshot)
  end.
Fixpoint coherent_rounds (attempts : nat) (tc : TokenContract) : prog W (option DealChainSnapshot) :=
  match attempts with
  | O => throw (Chain "could not obtain a coherent TokenContract snapshot")
  | S attempts =>
      let! round := caught (read_deal_snapshot_round tc) in
      match round with Ok snapshot => ret snapshot | _ => coherent_rounds attempts tc end
  end.
Definition token_contract_deal_snapshot (tc : TokenContract) : prog W (option DealChainSnapshot) :=
  coherent_rounds DEAL_SNAPSHOT_MAX_ATTEMPTS tc.

(** ** One signed message *)

Definition seller_clock_preflight : prog W unit :=
  let! local_unix := fun w => (Some (sl_unix_now w), w) in
  let! chain_unix := lift sl_chain_time in
  if clock_skew_check local_unix chain_unix then ret tt else throw (Chain "CLOCK_SKEW").
Definition send_with_retry (boc : string) : prog W unit :=
  seller_clock_preflight >>!
  retry_sends is_transient_submit_failure (sl_post boc)
    TRANSIENT_SUBMIT_RETRIES_BEFORE_FINAL TRANSIENT_SUBMIT_INITIAL_BACKOFF.
Definition submit (write : SellerWrite) : prog W unit :=
  let! boc := lift (sl_sign write) in send_with_retry boc.
(** The message without a leg for the root model; a failed one is only explained further. *)
Definition note_fund_deploy_shell (nonce tc_shell : Z) : prog W unit :=
  let! boc := lift (sl_sign (FundDeployShell nonce tc_shell)) in
  lift (sl_route boc) >>!
  send_with_retry boc.

(** ** Gas *)

(** A read that fails is a read that did not see the balance. *)
Fixpoint wait_ecc_balance_at_least (reads : nat) (tc : TokenContract) (min : Z) : prog W unit :=
  match reads with
  | O => throw (Chain "ECC[2] reserve did not reach the target after the top-up was submitted")
  | S reads =>
      let! account := attempt (sl_account tc) in
      match account with
      | Ok (Some account) =>
          if min <=? ac_ecc account then ret tt
          else run (sleep GAS_BALANCE_CONFIRM_POLL_INTERVAL) >>! wait_ecc_balance_at_least reads tc min
      | _ => run (sleep GAS_BALANCE_CONFIRM_POLL_INTERVAL) >>! wait_ecc_balance_at_least reads tc min
      end
  end.
Definition ensure_deal_contract_gas_with_overhead (me : RealSellerBackend) (tc : TokenContract) (overhead : Z) : prog W unit :=
  let! account := lift (sl_account tc) in
  match account with
  | None => ret tt
  | Some account =>
      if negb (ac_active account) then ret tt
      else
        let! terms := token_contract_deal_terms tc in
        match terms with
        | None => ret tt
        | Some (_, _, max_ticks) =>
            match gas_health_top_up_amount (ac_ecc account)
                    (deal_gas_health_floor_raw_with_overhead max_ticks overhead)
                    (deal_gas_health_target_raw_with_overhead max_ticks overhead) with
            | None => ret tt
            | Some short =>
                note_fund_deploy_shell (sb_nonce me) short >>!
                wait_ecc_balance_at_least GAS_BALANCE_CONFIRM_MAX_READS tc
                  (saturating_add U128_MAX (ac_ecc account) short)
            end
        end
  end.
Definition ensure_tc_gas (me : RealSellerBackend) (tc : TokenContract) : prog W unit :=
  let! overhead := of_outcome (as_chain (resolve_deal_gas_overhead_raw (sb_supplied_overhead me))) in
  ensure_deal_contract_gas_with_overhead me tc overhead.

(** ** The bond *)

Definition seller_note_spendable_shell : prog W Z :=
  let! details := lift sl_note_details in
  let! details := of_outcome (ok_or details (Chain "getDetails returned no data; spendable balance is unknown")) in
  of_outcome (as_chain (private_note_balance_currency details SHELL_CURRENCY_ID)).
Definition seller_note_physical_shell (me : RealSellerBackend) : prog W Z :=
  let! account := lift (sl_account (sb_note me)) in
  let! account := of_outcome (ok_or account (Chain "seller note disappeared before the seller-bond fundDeal")) in
  ret (ac_ecc account).
Definition deal_reserve_ecc (tc : TokenContract) : prog W Z :=
  let! account := lift (sl_account tc) in
  let! account := of_outcome (ok_or account (Chain "contract is missing; cannot read its ECC[2] reserve")) in
  ret (ac_ecc account).

Definition assert_note_record_covers_seller_bond (tc : TokenContract) : prog W unit :=
  let! bond := token_contract_seller_bond tc in
  let! bond := of_outcome (ok_or bond (Chain "getSellerBond() returned no data; refusing postSellOffer")) in
  let! price := token_contract_price_per_tick tc in
  let! price := of_outcome (ok_or price (Chain "getDeal().pricePerTick returned no data; refusing postSellOffer")) in
  let! '(bond_funded, post_amount) := of_outcome (seller_bond_prewrite_state bond price) in
  if bond_funded : bool then ret tt
  else
    let! spendable := seller_note_spendable_shell in
    of_outcome (validate_seller_bond_note_record spendable post_amount).

Fixpoint wait_bond_funded (reads : nat) (tc : TokenContract) : prog W unit :=
  match reads with
  | O =>
      token_contract_state tc >>!
      token_contract_seller_bond tc >>!
      caught seller_note_spendable_shell >>!
      throw (Chain "fundDeal submitted but getSellerBond().bondFunded stayed false")
  | S reads =>
      let! bond := token_contract_deal_seller_bond tc in
      if from_option sb_bond_funded false bond then ret tt
      else run (sleep SELLER_BOND_CONFIRM_POLL_INTERVAL) >>! wait_bond_funded reads tc
  end.
Definition post_seller_bond_and_wait (me : RealSellerBackend) (tc : TokenContract) : prog W unit :=
  let! overhead := of_outcome (as_chain (resolve_deal_gas_overhead_raw (sb_supplied_overhead me))) in
  let! bond_before := token_contract_seller_bond tc in
  let! bond_before := of_outcome (ok_or bond_before (Chain "getSellerBond() returned no data before the seller-bond fundDeal")) in
  let! terms := token_contract_deal_terms tc in
  let! '(_, price_per_tick, max_ticks) := of_outcome (ok_or terms (Chain "getDeal().pricePerTick returned no data; refusing fundDeal")) in
  let! '(bond_funded, post_amount) := of_outcome (seller_bond_prewrite_state bond_before price_per_tick) in
  if bond_funded : bool then ret tt
  else
    let! tc_reserve_ecc := deal_reserve_ecc tc in
    let! spendable := seller_note_spendable_shell in
    let! physical := seller_note_physical_shell me in
    of_outcome (validate_seller_bond_note_reserve_with_overhead spendable physical post_amount tc_reserve_ecc max_ticks overhead) >>!
    ensure_deal_contract_gas_with_overhead me tc overhead >>!
    let! spendable := seller_note_spendable_shell in
    if spendable <? post_amount then throw (Chain "below required seller bond 2P after the gas-health step; refusing fundDeal")
    else
      submit (FundDeal (sb_nonce me) 0 post_amount) >>!
      wait_bond_funded SELLER_BOND_CONFIRM_MAX_READS tc.

(** ** Writes confirmed by a read *)

(** [Ok(_) => None, Err(Transport | AmbiguousSubmit) => Some(error)], any other error ends it. *)
Definition perhaps_landed (m : prog W unit) : prog W unit :=
  let! sent := caught m in
  match sent with
  | Ok _ | Err (Transport _) | Err (AmbiguousSubmit _) => ret tt
  | Err error => throw error
  | Panic => panic
  end.

Fixpoint confirm_claim (reads : nat) (read : prog W (option Value)) (pause : prog W unit) (cumulative_tokens : Z) : prog W unit :=
  match reads with
  | O => throw (Chain "claimTokens did not apply")
  | S reads =>
      let! state := read in
      let! observed := of_outcome (claim_high_water_read state cumulative_tokens) in
      match observed with
      | Equal => ret tt
      | Ahead on_chain => throw (ClaimHighWaterResync cumulative_tokens on_chain)
      | Behind _ =>
          (match reads with O => ret tt | S _ => pause end) >>!
          confirm_claim reads read pause cumulative_tokens
      end
  end.
Definition submit_claim_confirmed_with (cumulative_tokens : Z) (read : prog W (option Value)) (submit pause : prog W unit) : prog W unit :=
  let! state := read in
  let! observed := of_outcome (claim_high_water_read state cumulative_tokens) in
  match observed with
  | Equal => ret tt
  | Ahead on_chain => throw (ClaimHighWaterResync cumulative_tokens on_chain)
  | Behind _ =>
      perhaps_landed submit >>!
      confirm_claim CLAIM_CONFIRMATION_MAX_READS read pause cumulative_tokens
  end.
Definition map_claim_submit_err (error : ChainError) : ChainError :=
  if unusable_response error then AmbiguousSubmit (message_of error) else error.
Definition mapping_err {A} (f : ChainError -> ChainError) (m : prog W A) : prog W A := fun w =>
  match m w with (Some (Err e), w') => (Some (Err (f e)), w') | r => r end.
Definition submit_claim_confirmed (tc : TokenContract) (cumulative_tokens : Z) : prog W unit :=
  submit_claim_confirmed_with cumulative_tokens (token_contract_state tc)
    (mapping_err map_claim_submit_err (submit (ClaimTokens tc cumulative_tokens)))
    (run (sleep CLAIM_CONFIRMATION_POLL_INTERVAL)).

Fixpoint confirm_finalize (reads : nat) (tc : TokenContract) (before : DealChainState) : prog W unit :=
  match reads with
  | O => throw (Chain "finalize did not advance tokensFinal")
  | S reads =>
      let! state := token_contract_deal_state tc in
      let! active := match state with None => account_is_active tc | Some _ => ret true end in
      let! confirmed := of_outcome (finalize_post_confirmed (ds_tokens_final before) state active) in
      if confirmed : bool then ret tt
      else
        (match reads with O => ret tt | S _ => run (sleep CLAIM_CONFIRMATION_POLL_INTERVAL) end) >>!
        confirm_finalize reads tc before
  end.
Definition submit_finalize_confirmed (tc : TokenContract) (before : DealChainState) : prog W unit :=
  perhaps_landed (submit (FinalizeClaims tc)) >>!
  confirm_finalize CLAIM_CONFIRMATION_MAX_READS tc before.

Inductive StateBool : Type := Funded | Opened | ProbeAccepted | Disputed.
Definition state_bool (key : StateBool) (st : DealChainState) : bool :=
  match key with
  | Funded => ds_funded st | Opened => ds_opened st
  | ProbeAccepted => ds_probe_accepted st | Disputed => ds_disputed st
  end.
Fixpoint wait_tc_bool (reads : nat) (tc : TokenContract) (key : StateBool) (want : bool) : prog W unit :=
  match reads with
  | O => throw (Chain "field did not change within the allotted time")
  | S reads =>
      let! state := token_contract_deal_state tc in
      if match state with Some st => Bool.eqb (state_bool key st) want | None => false end then ret tt
      else run (sleep TC_BOOL_CONFIRM_POLL_INTERVAL) >>! wait_tc_bool reads tc key want
  end.
Fixpoint confirm_seller_week (reads : nat) (tc : TokenContract) (pre : Z) : prog W unit :=
  match reads with
  | O => throw (Chain "settleWeek did not advance weekIndex")
  | S reads =>
      let! post := token_contract_subscription tc in
      let! active := match post with None => account_is_active tc | Some _ => ret true end in
      let! confirmed := of_outcome (settle_week_post_confirmed pre post active) in
      if confirmed : bool then ret tt
      else run (sleep CLAIM_CONFIRMATION_POLL_INTERVAL) >>! confirm_seller_week reads tc pre
  end.
Fixpoint wait_cleanup_unopened_with (reads : nat) (read : prog W (option DealChainState)) (pause : prog W unit) : prog W unit :=
  match reads with
  | O => throw (Chain "cleanupUnopened outcome is bounded-ambiguous")
  | S reads =>
      let! state := read in
      if cleanup_unopened_confirmed state then ret tt
      else pause >>! wait_cleanup_unopened_with reads read pause
  end.
Definition wait_cleanup_unopened (tc : TokenContract) : prog W unit :=
  wait_cleanup_unopened_with CLEANUP_UNOPENED_CONFIRM_MAX_READS (token_contract_deal_state tc)
    (run (sleep CLEANUP_UNOPENED_CONFIRM_POLL_INTERVAL)).
Fixpoint deal_destroyed (reads : nat) (tc : TokenContract) : prog W unit :=
  match reads with
  | O => throw (Chain "still answers getState through the observation window")
  | S reads =>
      let! state := token_contract_deal_state tc in
      match state with
      | None => ret tt
      | Some _ => run (sleep DEAL_DESTROY_CONFIRM_POLL_INTERVAL) >>! deal_destroyed reads tc
      end
  end.
Definition wait_deal_destroyed (tc : TokenContract) : prog W unit := deal_destroyed DEAL_DESTROY_CONFIRM_MAX_READS tc.

(** ** Reads retried and judged *)

Fixpoint retry_seller_read {A} (backoff : list Z) (read : prog W A) : prog W A :=
  match backoff with
  | [] => read
  | delay :: backoff =>
      let! r := caught read in
      match r with
      | Ok value => ret value
      | Err (Transport _) => run (sleep delay) >>! retry_seller_read backoff read
      | Err error => throw error
      | Panic => panic
      end
  end.
Definition retried {A} (read : prog W A) : prog W A := retry_seller_read SELLER_READ_BACKOFF read.

Definition sell_offer_terms (me : RealSellerBackend) (token_contract : TokenContract) : prog W (option (Z * Z)) :=
  let! tc := of_outcome (parse_tc parse_address token_contract) in
  let! terms := retried (token_contract_deal_terms tc) in
  match terms with
  | None => ret None
  | Some (tick_size, price_per_tick, max_ticks) =>
      if negb (tick_size =? sb_tick_size me) then throw (Chain "tickSize is not canonical")
      else
        let! price := of_outcome (ok_or (try_from U64_MAX price_per_tick) (Chain "pricePerTick exceeds CLI Shell range")) in
        let! ticks := of_outcome (ok_or (try_from U64_MAX max_ticks) (Chain "maxTicks exceeds CLI range")) in
        ret (Some (price, ticks))
  end.
Definition read_openable_match_once (me : RealSellerBackend) (token_contract : TokenContract) : prog W (option Match) :=
  let! tc := of_outcome (parse_tc parse_address token_contract) in
  let! state := token_contract_deal_state tc in
  match state with
  | None => ret None
  | Some state =>
      if negb (ds_funded state) then ret None
      else
        let! terms := sell_offer_terms me token_contract in
        let! price_per_tick := of_outcome (ok_or (fst <$> terms) (Chain "getDeal unavailable after match")) in
        of_outcome (validate_seller_resume_state state price_per_tick) >>!
        let! ed := lift (sl_buyer_pubkey tc) in
        let! ed := of_outcome (ok_or ed (Chain "funded, but buyerPubkey is empty")) in
        let! x := of_outcome (ok_or (x25519_pub_from_ed25519_pub ed) (Chain "buyerPubkey is an invalid ed25519 point")) in
        ret (Some (mkMatch token_contract (mkNotePubkey x ed) price_per_tick))
  end.
Definition read_openable_match_now (me : RealSellerBackend) (token_contract : TokenContract) : prog W (option Match) :=
  retried (read_openable_match_once me token_contract).
Definition read_match (me : RealSellerBackend) (token_contract : TokenContract) : prog W Match :=
  let! found := read_openable_match_once me token_contract in
  of_outcome (ok_or found (NoMatch token_contract)).
Definition assert_token_contract_fresh (tc : TokenContract) : prog W unit :=
  let! addr := of_outcome (parse_tc parse_address tc) in
  let! state := retried (token_contract_deal_state addr) in
  match state ≫= used_reason with
  | Some _ => throw (Chain "deal TokenContract is already USED; a per-deal TC is single-use")
  | None => ret tt
  end.
Definition assert_note_covers_seller_bond (token_contract : TokenContract) : prog W unit :=
  let! tc := of_outcome (parse_tc parse_address token_contract) in
  retried (assert_note_record_covers_seller_bond tc).
Definition assert_note_can_post_sell_offer : prog W unit :=
  retried
    (let! details := lift sl_note_details in
     let! details := of_outcome (ok_or details (Chain "returned no PrivateNote.getDetails")) in
     let! withdrawn := of_outcome (ok_or (details_has_withdrawn details) (Chain "PrivateNote.getDetails has no hasWithdrawn field")) in
     if withdrawn : bool then throw (Chain "this note has withdrawn and can no longer post sell offers") else ret tt).

Definition raw_resting_sell_orders_for_tc (token_contract : TokenContract) : prog W (list OrderBookOrder) :=
  let! tc := of_outcome (parse_tc parse_address token_contract) in
  let! order_book := retried (lift sl_book_address) in
  retried
    (let! stats := lift (sl_book_stats order_book) in
     match stats with
     | None => ret []
     | Some _ =>
         let! storage := lift (sl_book_storage order_book) in
         let! slots := of_outcome (as_chain (orderbook_slots_from_storage storage)) in
         of_outcome (as_chain (resting_sells parse_address tc slots))
     end).
Definition token_contract_offer_latch (token_contract : TokenContract) : prog W (option DealOfferLatch) :=
  let! tc := of_outcome (parse_tc parse_address token_contract) in
  retried (token_contract_offer tc).
Definition expire_resting_sell_order (token_contract : TokenContract) (order_id : Z) : prog W unit :=
  of_outcome (parse_tc parse_address token_contract) >>!
  let! order_book := retried (lift sl_book_address) in
  submit (ExpireOrder order_book order_id).
Definition cancel_resting_sell_order (me : RealSellerBackend) (token_contract : TokenContract) (order_id : Z) : prog W unit :=
  of_outcome (parse_tc parse_address token_contract) >>!
  let! orders := raw_resting_sell_orders_for_tc token_contract in
  if negb (existsb (fun order => ob_order_id order =? order_id) orders)
  then throw (Chain "resting SELL is absent for TokenContract")
  else submit (CancelOrder (sb_model_hash me) order_id).

(** ** Posting the ask *)

(** The backend remembers from which second on the outcome of its post may be found. *)
Record SellerState : Type := mkSellerState { ss_offer_post_started_at : option Z; ss_world : W }.
Definition on_world {A} (m : prog W A) : prog SellerState A := fun s =>
  let '(r, w) := m (ss_world s) in (r, mkSellerState (ss_offer_post_started_at s) w).
Definition set_started (started : Z) : prog SellerState unit :=
  run (fun s => mkSellerState (Some started) (ss_world s)).

Definition ensure_order_book (me : RealSellerBackend) : prog W unit :=
  let! ob := retried (lift sl_book_address) in
  let! stats := retried (lift (sl_book_stats ob)) in
  match stats with
  | Some _ => ret tt
  | None => submit (DeployOrderBook (sb_model_hash me) (sb_model_name me) (sb_tick_size me))
  end.
(** The terms are the deal's own, whatever the offer says; the reads that only explain a
    timeout are left out. *)
Definition post_offer `{HT : Timer W} (me : RealSellerBackend) (offer : SellOffer) : prog SellerState unit :=
  of_outcome (parse_tc parse_address (so_token_contract offer)) >>!
  on_world assert_note_can_post_sell_offer >>!
  on_world (retried (lift sl_owner_matches)) >>!
  on_world (ensure_order_book me) >>!
  let! terms := on_world (sell_offer_terms me (so_token_contract offer)) in
  of_outcome (ok_or terms (Chain "getDeal unavailable: run provision for a deployed per-deal TC")) >>!
  let! now := on_world (fun w => (Some (sl_unix_now w), w)) in
  set_started (saturating_sub now SELLER_OFFER_EVENT_LOOKBACK_SECS) >>!
  let! start := get (fun s => (clock_now (ss_world s), s)) in
  let! posted := on_world (timeout_at (start + POST_SELL_OFFER_SUBMIT_TIMEOUT)
                   (submit (PostSellOffer (so_flags offer) (sb_nonce me) MAX_SELL_TTL))) in
  match posted with
  | Done r => of_outcome r
  | Elapsed => throw (Chain "postSellOffer submit timed out")
  end.

Fixpoint offer_outcome (fuel : nat) (me : RealSellerBackend) (ob : string) (tc token_contract : TokenContract)
    (since start : Z) : prog W (option SellOfferOutcome) :=
  match fuel with
  | O => out_of_fuel
  | S fuel =>
      let! now := get (fun w => (clock_now w, w)) in
      if OFFER_ACCEPTANCE_TIMEOUT <=? now - start
      then throw (Chain "seller postSellOffer outcome is not yet confirmed")
      else
        let! events := retried (let! messages := lift sl_note_messages in
                                of_outcome (seller_offer_events_since ob tc since messages (mkOfferEvents None false false))) in
        let! matched := retried (read_openable_match_once me token_contract) in
        match classify_seller_offer_outcome events (bool_decide (is_Some matched)) with
        | Ok (Some outcome) => ret (Some outcome)
        | Ok None =>
            run (sleep SELLER_OFFER_OUTCOME_POLL_INTERVAL) >>!
            offer_outcome fuel me ob tc token_contract since start
        | Err (DuplicateSell _) =>
            let! latch := retried (token_contract_offer tc) in
            throw (duplicate_sell_from_offer_latch latch)
        | Err other => throw other
        | Panic => panic
        end
  end.
Definition confirm_offer_outcome (fuel : nat) (me : RealSellerBackend) (token_contract : TokenContract)
    : prog SellerState (option SellOfferOutcome) :=
  let! ob := on_world (retried (lift sl_book_address)) in
  let! tc := of_outcome (parse_tc parse_address token_contract) in
  let! since := get (fun s => (ss_offer_post_started_at s, s)) in
  let! since := of_outcome (ok_or since (Chain "seller offer submission marker is missing")) in
  let! start := get (fun s => (clock_now (ss_world s), s)) in
  on_world (offer_outcome fuel me ob tc token_contract since start).

(** ** The calls of the trait *)

Definition wrong_role : ChainError := Chain "a role action on a backend of a different role".
Definition open_stream (me : RealSellerBackend) (token_contract : TokenContract) (enc_endpoint : string) : prog W unit :=
  let! tc := of_outcome (parse_tc parse_address token_contract) in
  post_seller_bond_and_wait me tc >>!
  ensure_tc_gas me tc >>!
  submit (OpenStream tc enc_endpoint) >>!
  wait_tc_bool TC_BOOL_CONFIRM_MAX_READS tc Opened true.
Definition accept_probe (me : RealSellerBackend) (token_contract : TokenContract) : prog W unit :=
  let! tc := of_outcome (parse_tc parse_address token_contract) in
  ensure_tc_gas me tc >>!
  submit (AcceptProbe tc) >>!
  wait_tc_bool TC_BOOL_CONFIRM_MAX_READS tc ProbeAccepted true.
Definition claim_tokens (me : RealSellerBackend) (token_contract : TokenContract) (cumulative_tokens : Z) : prog W unit :=
  let! tc := of_outcome (parse_tc parse_address token_contract) in
  ensure_tc_gas me tc >>!
  submit_claim_confirmed tc cumulative_tokens.
Definition finalize (me : RealSellerBackend) (token_contract : TokenContract) : prog W unit :=
  let! tc := of_outcome (parse_tc parse_address token_contract) in
  let! before := token_contract_deal_state tc in
  let! before := of_outcome (ok_or before (Chain "getState() returned no data")) in
  if ds_tokens_pending before <=? ds_tokens_final before then ret tt
  else
    ensure_tc_gas me tc >>!
    submit_finalize_confirmed tc before.
Definition settle_week (me : RealSellerBackend) (token_contract : TokenContract) : prog W unit :=
  let! tc := of_outcome (parse_tc parse_address token_contract) in
  let! before := token_contract_subscription tc in
  let! pre := of_outcome (required_subscription_week_index before) in
  ensure_tc_gas me tc >>!
  submit (SettleWeek tc) >>!
  confirm_seller_week CLAIM_CONFIRMATION_MAX_READS tc pre.
Definition deal_snapshot (token_contract : TokenContract) : prog W (option DealChainSnapshot) :=
  let! tc := of_outcome (parse_tc parse_address token_contract) in
  token_contract_deal_snapshot tc.
Definition deal_subscription (token_contract : TokenContract) : prog W (option DealSubscription) :=
  let! snapshot := deal_snapshot token_contract in ret (sn_subscription <$> snapshot).
Definition deal_state (token_contract : TokenContract) : prog W (option DealChainState) :=
  let! snapshot := deal_snapshot token_contract in ret (sn_state <$> snapshot).
Definition config_field (cfg : Value) (name : string) : outcome ChainError Z :=
  ok_or (field_str cfg name ≫= fun x => parse_uint U64_MAX (to_text x))
    (Chain "getConfig() field is missing or malformed; refusing to guess the claim cadence").
Definition deal_claim_bounds (token_contract : TokenContract) : prog W ClaimBounds :=
  let! tc := of_outcome (parse_tc parse_address token_contract) in
  let! cfg := lift (sl_getter tc GetConfig) in
  let! cfg := of_outcome (ok_or cfg (Chain "getConfig() returned no data for claim bounds")) in
  let! interval := of_outcome (config_field cfg "minClaimInterval") in
  let! seconds_per_tick := of_outcome (config_field cfg "minSecondsPerTick") in
  let! dispute := of_outcome (config_field cfg "disputeWindow") in
  ret (from_config interval seconds_per_tick dispute).

(** Every failure on the way to a stream snapshot is "no snapshot". *)
Definition stream_snapshot (snapshot : DealChainSnapshot) (terms : Z * Z * Z) : option StreamSnapshot :=
  let '(tick_size, price_per_tick, _) := terms in
  let state := sn_state snapshot in
  match token_value_floor (contested_tokens state) price_per_tick tick_size with
  | None => None
  | Some pending_exposure =>
      match snapshot_buyer_locked snapshot, snapshot_total [ds_probe_tick state; pending_exposure] with
      | Ok buyer_locked, Some buyer_lead =>
          Some {| ss_seller_locked := sb_bond_held (sn_seller_bond snapshot);
                  ss_buyer_locked := buyer_locked; ss_buyer_lead := buyer_lead;
                  ss_tokens_final := ds_tokens_final state;
                  ss_seller_received := ds_finalized_owed state;
                  ss_buyer_refunded := 0; ss_burned := 0; ss_closed := is_stopped state |}
      | _, _ => None
      end
  end.
Definition real_tc_snapshot (token_contract : TokenContract) : prog W (option StreamSnapshot) :=
  match parse_address token_contract with
  | None => ret None
  | Some tc =>
      let! snapshot := caught (token_contract_deal_snapshot tc) in
      match snapshot with
      | Ok (Some snapshot) =>
          let! terms := caught (token_contract_deal_terms tc) in
          match terms with
          | Ok (Some terms) => ret (stream_snapshot snapshot terms)
          | _ => ret None
          end
      | _ => ret None
      end
  end.
End Seller.
Arguments SellerState : clear implicits.
