(* ===== verification/SellerSafety.v ===== *)
(** * SellerSafety: what the seller signs, and what it takes as done

    A traced chain records the reads, the signatures and the posts of the seller.  Every
    signature of a message comes after the reads that authorise it; a call that returns
    has seen its effect on the chain. *)
From Stdlib Require Import Ascii.
From S2P Require Import Prelude Text Params MarketTypes Accounting Machine MockDeal MockMarket Json Getters.
From S2P Require Import Rows Backend Offer Trace Buy BuySafety Seller.

Inductive SellerCall : Type :=
| SGetter (tc : TokenContract) (getter : Getter) (answer : outcome ChainError (option Value))
| SAccount (address : string) (answer : outcome ChainError (option Account))
| SDetails (answer : outcome ChainError (option Value))
| SSign (write : SellerWrite) (answer : outcome ChainError string)
| SPost (boc : string) (answer : outcome ChainError unit).

#[export] Instance traced_seller {W} `{SellerChain W} : SellerChain (traced W SellerCall) := {|
  sl_unix_now w := sl_unix_now (fst w);
  sl_chain_time := silent sl_chain_time;
  sl_getter tc getter := entered (SGetter tc getter) (sl_getter tc getter);
  sl_note_details := entered SDetails sl_note_details;
  sl_account address := entered (SAccount address) (sl_account address);
  sl_buyer_pubkey tc := silent (sl_buyer_pubkey tc);
  sl_owner_matches := silent sl_owner_matches;
  sl_book_address := silent sl_book_address;
  sl_book_stats ob := silent (sl_book_stats ob);
  sl_book_storage ob := silent (sl_book_storage ob);
  sl_note_messages := silent sl_note_messages;
  sl_sign write := entered (SSign write) (sl_sign write);
  sl_route boc := silent (sl_route boc);
  sl_post boc := entered (SPost boc) (sl_post boc) |}.

(** The calls of a program that signs messages of one kind only. *)
Definition signs (p : SellerWrite -> bool) (c : SellerCall) : bool :=
  match c with SSign write _ => p write | _ => true end.
Definition none (_ : SellerWrite) : bool := false.
Definition is_gas (write : SellerWrite) : bool := match write with FundDeployShell _ _ => true | _ => false end.

Lemma signs_weak (p q : SellerWrite -> bool) t0 t :
  (forall write, p write = true -> q write = true) -> grown (signs p) t0 t -> grown (signs q) t0 t.
Proof.
  intros Hpq (more & -> & Hm). exists more. split; [done|]. eapply Forall_impl; [exact Hm|].
  intros []; simpl; auto.
Qed.
Lemma learns_signs {W A} (p q : SellerWrite -> bool) (m : prog (traced W SellerCall) A) F :
  (forall write, p write = true -> q write = true) -> learns snd (signs p) m F -> learns snd (signs q) m F.
Proof.
  intros Hpq Hm t0 w Hw. specialize (Hm t0 w Hw).
  destruct (m w) as [[[a|e|]|] w']; [destruct Hm as [Hm ?]; split; [|done]|..]; by eapply signs_weak.
Qed.
(** Known for good, whatever is signed. *)
Lemma lasting_elem (ok : SellerCall -> bool) c : lasting ok (fun t => c ∈ t).
Proof. intros t0 t Hg Hc. by eapply grown_elem. Qed.

Section Rules.
Context {W : Type} `{HS : SellerChain W} `{HC : Clock W}.
Abbreviation world := (traced W SellerCall).
Abbreviation quiet := (learns (S:=world) snd (signs none)).

Lemma quiet_entered {A} (e : outcome ChainError A -> SellerCall) (f : W -> outcome ChainError A * W) :
  (forall r, signs none (e r) = true) -> quiet (lift (entered e f)) (fun a t => e (Ok a) ∈ t).
Proof. apply learns_entered. Qed.
Lemma quiet_getter tc g : quiet (lift (sl_getter tc g)) (fun v t => SGetter tc g (Ok v) ∈ t).
Proof. by apply quiet_entered. Qed.
Lemma quiet_account a : quiet (lift (sl_account a)) (fun v t => SAccount a (Ok v) ∈ t).
Proof. by apply quiet_entered. Qed.
Lemma quiet_seller_details : quiet (lift sl_note_details) (fun v t => SDetails (Ok v) ∈ t).
Proof. by apply quiet_entered. Qed.
(** A read and the pure step after it. *)
Lemma quiet_then {A B} (m : prog world A) (k : A -> prog world B) F G H :
  quiet m F -> (forall a, quiet (k a) (G a)) -> (forall a, lasting (signs none) (F a)) ->
  (forall a b t, F a t -> G a b t -> H b t) -> quiet (bind m k) H.
Proof.
  intros Hm Hk HF HH. eapply learns_bind; [exact Hm|exact Hk|]. intros a b t t' Ha Hg Hb.
  eapply HH; [|exact Hb]. by eapply HF.
Qed.
Lemma quiet_strict {A} tc g (decode : Value -> outcome string A) :
  quiet (read_strict g decode tc)
    (fun a t => match a with
                | Some x => exists v, SGetter tc g (Ok (Some v)) ∈ t /\ decode v = Ok x
                | None => SGetter tc g (Ok None) ∈ t
                end).
Proof.
  unfold read_strict. eapply quiet_then; [apply quiet_getter|intros v; apply learns_outcome| |].
  - intros v. apply lasting_elem.
  - simpl. intros [v|] a t Hv Ha; simpl in Ha; [|by injection Ha as <-].
    destruct (decode v) as [x|e|] eqn:E; try done. injection Ha as <-. by exists v.
Qed.
Lemma quiet_caught {A} ok (m : prog world A) F :
  learns snd ok m F -> learns snd ok (caught m) (fun r t => match r with Ok a => F a t | _ => True end).
Proof.
  intros Hm t0 w Hw. specialize (Hm t0 w Hw). unfold caught.
  destruct (m w) as [[[a|e|]|] w']; [exact Hm|by split|exact Hm..].
Qed.
Lemma quiet_conseq {A} (m : prog world A) F G : quiet m F -> (forall a t, F a t -> G a t) -> quiet m G.
Proof.
  intros Hm HFG t0 w Hw. specialize (Hm t0 w Hw). destruct (m w) as [[[a|e|]|] w']; [|exact Hm..].
  destruct Hm. auto.
Qed.
Lemma quiet_outcome {A B} (r : outcome ChainError A) (k : A -> prog world B) F :
  (forall a, r = Ok a -> quiet (k a) F) -> quiet (let! a := of_outcome r in k a) F.
Proof.
  intros Hk t0 w Hw. unfold of_outcome, bind. destruct r as [a|e|]; [by apply (Hk a)|subst; apply grown_refl..].
Qed.
(** One round of a poll: the read shows what is waited for, or a later round does. *)
Lemma quiet_seller_poll {A} (m : prog world A) (test : A -> bool) (rest : prog world unit) F (H : list SellerCall -> Prop) :
  quiet m F -> (forall a, lasting (signs none) (F a)) -> (forall a t, test a = true -> F a t -> H t) ->
  quiet rest (fun _ => H) -> quiet (let! a := m in if test a then ret tt else rest) (fun _ => H).
Proof.
  intros Hm HF HH Hr. apply (quiet_then _ _ F (fun a _ t => test a = true \/ H t)); [done| |done|].
  - intros a. destruct (test a); [apply learns_ret; by left|]. eapply quiet_conseq; [exact Hr|]. by right.
  - intros a [] t Ha [Ht|Ht]; [by eapply HH|done].
Qed.
Lemma quiet_attempt {A} (e : outcome ChainError A -> SellerCall) (f : W -> outcome ChainError A * W) :
  (forall r, signs none (e r) = true) ->
  quiet (attempt (entered e f)) (fun r t => e r ∈ t).
Proof.
  intros He t0 w <-. unfold attempt, entered.
  destruct (f (fst w)) as [r w']. specialize (He r). destruct r; simpl;
    try (split; [|by left]); by apply grown_cons, grown_refl.
Qed.
Lemma quiet_seller_now : quiet (fun w => (Some (sl_unix_now w), w)) knows_nothing.
Proof. intros t0 w <-. simpl. destruct (sl_unix_now (fst w)); try apply grown_refl. split; [apply grown_refl|done]. Qed.

Lemma quiet_clock : quiet (seller_clock_preflight (W:=world)) knows_nothing.
Proof.
  unfold seller_clock_preflight. apply learns_after; [apply quiet_seller_now|]. intros local.
  apply learns_after; [apply learns_silent|]. intros chain. destruct (clock_skew_check local chain); [by apply learns_ret|apply learns_throw].
Qed.
Lemma quiet_send boc : quiet (send_with_retry (W:=world) boc) knows_nothing.
Proof. apply learns_after; [apply quiet_clock|]. intros _. by apply learns_retry_sends. Qed.

(** ** Signatures and what authorises them *)
Definition signed (E : SellerWrite -> list SellerCall -> Prop) (t : list SellerCall) : Prop :=
  forall later write answer earlier, t = later ++ SSign write answer :: earlier -> E write earlier.

Lemma signed_nil E : signed E [].
Proof. by intros [] ???. Qed.
Lemma signed_cons E c t : signed E t -> (forall write answer, c = SSign write answer -> E write t) -> signed E (c :: t).
Proof.
  intros Ht Hc [|c' later] write answer earlier Heq; simpl in Heq; injection Heq as E1 E2.
  - subst. by eapply Hc.
  - by eapply Ht.
Qed.
Lemma signed_quiet E t0 t : signed E t0 -> grown (signs none) t0 t -> signed E t.
Proof.
  intros H0 (more & -> & Hm). induction Hm as [|c more Hc _ IH]; [done|]. apply signed_cons; [done|].
  by intros write answer ->.
Qed.

(** From a trace with [K]: every signature is authorised, and a value means [F]. *)
Definition follows (E : SellerWrite -> list SellerCall -> Prop) (K : list SellerCall -> Prop) {A} (m : prog world A)
    (F : A -> list SellerCall -> Prop) : Prop :=
  leads (fun w => signed E (snd w) /\ K (snd w)) m (fun a w => signed E (snd w) /\ F a (snd w)) (fun _ w => signed E (snd w)).
Lemma follows_bind {A B} E K (m : prog world A) (k : A -> prog world B) F G :
  follows E K m F -> (forall a, follows E (F a) (k a) G) -> follows E K (bind m k) G.
Proof. intros Hm Hk. eapply leads_bind; [exact Hm|exact Hk]. Qed.
Lemma follows_conseq {A} E (K K' : list SellerCall -> Prop) (m : prog world A) (F F' : A -> list SellerCall -> Prop) :
  follows E K' m F' -> (forall t, K t -> K' t) -> (forall a t, F' a t -> F a t) -> follows E K m F.
Proof.
  intros Hm HK HF. eapply leads_conseq; [exact Hm|..]; [|by intros a w [? ?%HF]|done].
  intros w [? ?%HK]. done.
Qed.
Lemma follows_quiet {A} E K (m : prog world A) F :
  quiet m F -> lasting (signs none) K -> follows E K m (fun a t => K t /\ F a t).
Proof.
  intros Hm HK w [Hs HKw]. specialize (Hm _ w eq_refl).
  destruct (m w) as [[[a|e|]|] w']; [|by eapply signed_quiet..]. destruct Hm as [Hg Ha].
  split; [by eapply signed_quiet|]. split; [by eapply HK|done].
Qed.
Lemma follows_keep {A} E K (m : prog world A) F :
  quiet m F -> lasting (signs none) K -> follows E K m (fun _ => K).
Proof. intros Hm HK. eapply follows_conseq; [by apply follows_quiet|done|by intros a t [? _]]. Qed.
Lemma follows_known {A} E K (m : prog world A) F : quiet m F -> follows E K m F.
Proof.
  intros Hm. eapply (follows_conseq _ _ (fun _ => True)); [apply follows_quiet; [exact Hm|by intros t0 t _]|done|by intros a t [_ ?]].
Qed.
(** A read, and then the rest with what it showed. *)
Lemma follows_read {A B} E K (m : prog world A) (k : A -> prog world B) F G :
  quiet m F -> lasting (signs none) K -> (forall a, follows E (fun t => K t /\ F a t) (k a) G) ->
  follows E K (bind m k) G.
Proof. intros Hm HK Hk. eapply follows_bind; [by apply follows_quiet|exact Hk]. Qed.
Lemma follows_ret {A} E (K : list SellerCall -> Prop) (a : A) (F : A -> list SellerCall -> Prop) : (forall t, K t -> F a t) -> follows E K (ret a) F.
Proof. intros H w [Hs Hk]. split; [done|]. by apply H. Qed.
Lemma follows_throw {A} E K e F : follows E K (throw (A := A) e) F.
Proof. by intros w [Hs _]. Qed.
Lemma follows_outcome {A B} E K (r : outcome ChainError A) (k : A -> prog world B) F :
  (forall a, r = Ok a -> follows E K (k a) F) -> follows E K (bind (of_outcome r) k) F.
Proof.
  intros Hk w Hw. unfold of_outcome, bind. destruct r as [a|e|]; [by apply (Hk a)|by destruct Hw..].
Qed.

(** One signed message: authorised when it is signed, and then only posted. *)
Lemma follows_sign E (K Q : list SellerCall -> Prop) (p : SellerWrite -> bool) write :
  (forall t, K t -> E write t /\ Q t) -> p write = true -> lasting (signs p) Q ->
  follows E K (lift (sl_sign (W:=world) write)) (fun _ => Q).
Proof.
  intros HE Hp HQ w [Hs HKw]. unfold lift, sl_sign, traced_seller, entered. destruct (sl_sign write (fst w)) as [r w'].
  apply HE in HKw as [HEw HQw].
  assert (signed E (SSign write r :: snd w)) as Hs' by (apply signed_cons; [done|]; by intros ? ? [= <- <-]).
  destruct r; [|done..]. split; [done|]. eapply HQ; [|exact HQw]. by apply grown_cons, grown_refl.
Qed.
Lemma lasting_signs (p q : SellerWrite -> bool) K :
  (forall write, p write = true -> q write = true) -> lasting (signs q) K -> lasting (signs p) K.
Proof. intros Hpq HK t0 t Hg. apply HK. by eapply signs_weak. Qed.
Lemma lasting_none p K : lasting (signs p) K -> lasting (signs none) K.
Proof. by apply lasting_signs. Qed.
Lemma follows_submit E (K Q : list SellerCall -> Prop) (p : SellerWrite -> bool) write :
  (forall t, K t -> E write t /\ Q t) -> p write = true -> lasting (signs p) Q ->
  follows E K (submit (W:=world) write) (fun _ => Q).
Proof.
  intros HE Hp HQ. eapply follows_bind; [by apply (follows_sign E K Q p)|]. intros boc.
  eapply follows_keep; [apply quiet_send|by eapply lasting_none].
Qed.
End Rules.

(** ** The evidence *)
Section Evidence.
Context (me : RealSellerBackend) (tc : TokenContract).
Abbreviation overhead := (default 0 (sb_supplied_overhead me)).

Definition read_raw_state (v : Value) (t : list SellerCall) : Prop := SGetter tc GetState (Ok (Some v)) ∈ t.
Definition read_state (s : DealChainState) (t : list SellerCall) : Prop :=
  exists v, read_raw_state v t /\ decode_state v = Ok s.
Definition read_bond (b : DealSellerBond) (t : list SellerCall) : Prop :=
  exists v, SGetter tc GetSellerBond (Ok (Some v)) ∈ t /\ decode_seller_bond v = Ok b.
Definition read_week (s : DealSubscription) (t : list SellerCall) : Prop :=
  exists v, SGetter tc GetSubscription (Ok (Some v)) ∈ t /\ decode_subscription v = Ok s.
Definition read_terms (price max_ticks : Z) (t : list SellerCall) : Prop :=
  exists v tick_size, SGetter tc GetDeal (Ok (Some v)) ∈ t /\ deal_terms_of v = Some (tick_size, price, max_ticks).
Definition read_record (n : Z) (t : list SellerCall) : Prop :=
  exists d, SDetails (Ok (Some d)) ∈ t /\ private_note_balance_currency d SHELL_CURRENCY_ID = Ok n.
Definition read_reserve (e : Z) (t : list SellerCall) : Prop :=
  exists a, SAccount tc (Ok (Some a)) ∈ t /\ ac_active a = true /\ ac_ecc a = e.
Definition read_absent (t : list SellerCall) : Prop :=
  SAccount tc (Ok None) ∈ t \/ exists a, SAccount tc (Ok (Some a)) ∈ t /\ ac_active a = false.
(** Nothing else was signed so far. *)
Definition only (p : SellerWrite -> bool) (t : list SellerCall) : Prop :=
  forall write answer, SSign write answer ∈ t -> p write = true.
Definition pending_tokens (v : Value) : option Z :=
  field_str v "tokensPending" ≫= fun raw => parse_uint U128_MAX (to_text raw).
Definition before_opening (write : SellerWrite) : bool :=
  match write with FundDeployShell _ _ | FundDeal _ _ _ => true | _ => false end.

(** What the deal, its bond and the seller's record showed before a message was signed.
    A message of a kind is signed at most once. *)
Definition authorised (write : SellerWrite) (t : list SellerCall) : Prop :=
  match write with
  | FundDeployShell nonce short =>
      nonce = sb_nonce me /\ 0 < short /\ exists reserve price max_ticks,
        read_reserve reserve t /\ read_terms price max_ticks t /\
        reserve <= deal_gas_health_floor_raw_with_overhead max_ticks overhead /\
        reserve + short = deal_gas_health_target_raw_with_overhead max_ticks overhead
  | FundDeal nonce gas_shell amount =>
      nonce = sb_nonce me /\ gas_shell = 0 /\ only is_gas t /\ exists b price max_ticks record,
        read_bond b t /\ sb_bond_funded b = false /\ sb_bond_held b = 0 /\ sb_bond_required b = amount /\
        read_terms price max_ticks t /\ amount = price * 2 /\ read_record record t /\ amount <= record
  | OpenStream tc' _ =>
      tc' = tc /\ only before_opening t /\ exists b, read_bond b t /\ sb_bond_funded b = true
  | AcceptProbe tc' => tc' = tc /\ only is_gas t
  | ClaimTokens tc' cumulative =>
      tc' = tc /\ only is_gas t /\ exists v n, read_raw_state v t /\ pending_tokens v = Some n /\ n < cumulative
  | FinalizeClaims tc' =>
      tc' = tc /\ only is_gas t /\ exists s, read_state s t /\ ds_tokens_final s < ds_tokens_pending s
  | SettleWeek tc' => tc' = tc /\ only is_gas t /\ exists s, read_week s t
  | _ => False
  end.

Lemma only_nil p : only p [].
Proof. by intros write answer ?%not_elem_of_nil. Qed.
Lemma lasting_only (p : SellerWrite -> bool) : lasting (signs p) (only p).
Proof.
  intros t0 t (more & -> & Hm) H write answer [Hin|Hin]%elem_of_app; [|by eapply H].
  rewrite Forall_forall in Hm. exact (Hm _ Hin).
Qed.
Lemma only_weak (p q : SellerWrite -> bool) t : (forall write, p write = true -> q write = true) -> only p t -> only q t.
Proof. intros Hpq H write answer Hin. eapply Hpq, H, Hin. Qed.
Lemma lasting_read_state ok s : lasting ok (read_state s).
Proof. intros t0 t Hg (v & Hv & Hd). exists v. split; [by eapply grown_elem|done]. Qed.
Lemma lasting_read_bond ok b : lasting ok (read_bond b).
Proof. intros t0 t Hg (v & Hv & Hd). exists v. split; [by eapply grown_elem|done]. Qed.
Lemma lasting_read_week ok s : lasting ok (read_week s).
Proof. intros t0 t Hg (v & Hv & Hd). exists v. split; [by eapply grown_elem|done]. Qed.
Lemma lasting_read_terms ok p m : lasting ok (read_terms p m).
Proof. intros t0 t Hg (v & ts & Hv & Hd). exists v, ts. split; [by eapply grown_elem|done]. Qed.
Lemma lasting_read_record ok n : lasting ok (read_record n).
Proof. intros t0 t Hg (v & Hv & Hd). exists v. split; [by eapply grown_elem|done]. Qed.
Lemma lasting_read_reserve ok n : lasting ok (read_reserve n).
Proof. intros t0 t Hg (v & Hv & Hd). exists v. split; [by eapply grown_elem|done]. Qed.
Lemma lasting_raw_state ok v : lasting ok (read_raw_state v).
Proof. intros t0 t Hg Hv. by eapply grown_elem. Qed.
End Evidence.
Lemma lasting_only_none p : lasting (signs none) (only p).
Proof. by eapply lasting_none, lasting_only. Qed.
Create HintDb lasting.
#[export] Hint Resolve lasting_only_none lasting_pure lasting_and lasting_ex lasting_elem lasting_only lasting_read_state lasting_read_bond
  lasting_read_week lasting_read_terms lasting_read_record lasting_read_reserve lasting_raw_state : lasting.

(** A top-up fills the reserve up to the target, and never past it. *)
Lemma floor_below_target max_ticks overhead :
  deal_gas_health_floor_raw_with_overhead max_ticks overhead <= deal_gas_health_target_raw_with_overhead max_ticks overhead.
Proof.
  unfold deal_gas_health_floor_raw_with_overhead, deal_gas_health_target_raw_with_overhead, min_deploy_shells_with_overhead.
  assert (deal_gas_requirement_raw_with_overhead max_ticks overhead <= U128_MAX) as Hmax
    by (unfold deal_gas_requirement_raw_with_overhead, saturating_add; lia).
  set (r := deal_gas_requirement_raw_with_overhead max_ticks overhead) in *. clearbody r.
  unfold saturating_mul, div_ceil, SHELL_UNIT. pose proof (Z.mod_pos_bound (r + 1000000000 - 1) 1000000000 ltac:(lia)).
  pose proof (Z.div_mod (r + 1000000000 - 1) 1000000000 ltac:(lia)). lia.
Qed.
Lemma top_up_exact have max_ticks overhead short :
  gas_health_top_up_amount have (deal_gas_health_floor_raw_with_overhead max_ticks overhead)
    (deal_gas_health_target_raw_with_overhead max_ticks overhead) = Some short ->
  0 < short /\ have <= deal_gas_health_floor_raw_with_overhead max_ticks overhead /\
  have + short = deal_gas_health_target_raw_with_overhead max_ticks overhead.
Proof.
  pose proof (floor_below_target max_ticks overhead) as Hft. unfold gas_health_top_up_amount, saturating_sub.
  destruct (Z.leb_spec have (deal_gas_health_floor_raw_with_overhead max_ticks overhead)); [|done].
  destruct (Z.ltb_spec 0 (Z.max (deal_gas_health_target_raw_with_overhead max_ticks overhead - have) 0)); [|done].
  intros [= <-]. lia.
Qed.

Section Writes.
Context (parse_address : string -> option string) (unusable_response : ChainError -> bool).
Context {W : Type} `{HS : SellerChain W} `{HC : Clock W}.
Abbreviation world := (traced W SellerCall).
Abbreviation quiet := (learns (S:=world) snd (signs none)).
Context (me : RealSellerBackend) (tc : TokenContract).
Abbreviation overhead := (default 0 (sb_supplied_overhead me)).
Abbreviation follows_me := (follows (W:=W) (authorised me tc)).

(** ** Reads *)
Lemma quiet_state : quiet (token_contract_deal_state (W:=world) tc)
  (fun a t => match a with Some s => read_state tc s t | None => SGetter tc GetState (Ok None) ∈ t end).
Proof. apply quiet_strict. Qed.
Lemma quiet_week : quiet (token_contract_subscription (W:=world) tc)
  (fun a t => match a with Some s => read_week tc s t | None => SGetter tc GetSubscription (Ok None) ∈ t end).
Proof. apply quiet_strict. Qed.
Lemma quiet_bond : quiet (token_contract_deal_seller_bond (W:=world) tc)
  (fun a t => match a with Some b => read_bond tc b t | None => SGetter tc GetSellerBond (Ok None) ∈ t end).
Proof. apply quiet_strict. Qed.
Lemma quiet_terms : quiet (token_contract_deal_terms (W:=world) tc)
  (fun a t => match a with Some (_, price, max_ticks) => read_terms tc price max_ticks t | None => True end).
Proof.
  unfold token_contract_deal_terms. eapply quiet_then; [apply quiet_getter|intros v| |].
  - apply (learns_ret _ _ _ (fun a _ => a = v ≫= deal_terms_of)). done.
  - intros v. apply lasting_elem.
  - cbn beta. intros v a t Hv ->. destruct v as [v|]; [|done]. simpl.
    destruct (deal_terms_of v) as [[[ts p] m]|] eqn:E; [|done]. by exists v, ts.
Qed.
Lemma quiet_record : quiet (seller_note_spendable_shell (W:=world)) (fun n t => read_record n t).
Proof.
  unfold seller_note_spendable_shell.
  apply (quiet_then _ _ (fun d t => SDetails (Ok d) ∈ t)
           (fun d n _ => exists d', d = Some d' /\ private_note_balance_currency d' SHELL_CURRENCY_ID = Ok n)).
  - apply quiet_seller_details.
  - intros d. eapply quiet_then; [apply learns_outcome|intros d'; apply learns_outcome|by intros d' t0 t _|].
    cbn beta. intros d' n t Hd%ok_or_ok Hn%as_chain_ok. by exists d'.
  - intros d. apply lasting_elem.
  - intros d n t Hd (d' & -> & Hn). by exists d'.
Qed.
Lemma quiet_active : quiet (account_is_active (W:=world) tc) (fun b t => b = false -> read_absent tc t).
Proof.
  unfold account_is_active. eapply quiet_then; [apply quiet_account|intros a| |].
  - apply (learns_ret _ _ _ (fun b _ => b = from_option ac_active false a)). done.
  - intros a. apply lasting_elem.
  - cbn beta. intros [a|] b t Ha -> Hb; [right; by exists a|by left].
Qed.

(** ** Gas *)
Lemma quiet_wait_ecc reads min : quiet (wait_ecc_balance_at_least (W:=world) reads tc min) knows_nothing.
Proof.
  induction reads as [|reads IH]; cbn [wait_ecc_balance_at_least]; [apply learns_throw|].
  apply learns_after; [by eapply learns_weak, quiet_attempt|]. intros r.
  assert (quiet (run (sleep GAS_BALANCE_CONFIRM_POLL_INTERVAL) >>! wait_ecc_balance_at_least reads tc min) knows_nothing)
    by (apply learns_after; [by apply learns_run|intros _; exact IH]).
  destruct r as [[a|]| |]; try done. destruct (min <=? ac_ecc a); [by apply learns_ret|done].
Qed.
Lemma follows_gas K : lasting (signs is_gas) K ->
  follows_me K (ensure_deal_contract_gas_with_overhead me tc overhead) (fun _ => K).
Proof.
  intros HK. pose proof (lasting_none _ _ HK) as HK'. unfold ensure_deal_contract_gas_with_overhead.
  eapply follows_read; [apply quiet_account|done|]. intros [a|]; [|by apply follows_ret; intros t [? _]].
  destruct (ac_active a) eqn:Ea; [|by apply follows_ret; intros t [? _]]. cbn [negb].
  eapply follows_read; [apply quiet_terms|by auto with lasting|]. intros [[[ts p] m]|]; [|by apply follows_ret; intros t [[? _] _]].
  destruct (gas_health_top_up_amount _ _ _) as [short|] eqn:Es; [|by apply follows_ret; intros t [[? _] _]].
  apply top_up_exact in Es as (Hpos & Hfl & Htg).
  apply (follows_bind _ _ _ _ (fun _ => K)); [|intros []; eapply follows_keep; [apply quiet_wait_ecc|done]].
  unfold note_fund_deploy_shell. apply (follows_bind _ _ _ _ (fun _ => K)).
  - apply (follows_sign _ _ _ is_gas); [|done..]. intros t [[HKt Ha] Ht]. split; [|done]. split_and!; [done..|].
    exists (ac_ecc a), p, m. split_and!; [by exists a|done..].
  - intros boc. apply (follows_bind _ _ _ _ (fun _ => K)); [|intros []]; eapply follows_keep;
      try apply learns_silent; try apply quiet_send; done.
Qed.
Lemma follows_tc_gas K : lasting (signs is_gas) K -> follows_me K (ensure_tc_gas me tc) (fun _ => K).
Proof.
  intros HK. unfold ensure_tc_gas. apply follows_outcome. intros o Ho%as_chain_ok. injection Ho as <-. by apply follows_gas.
Qed.

(** ** The bond *)
Lemma prewrite_exact v price funded amount :
  seller_bond_prewrite_state v price = Ok (funded, amount) ->
  exists b, decode_seller_bond v = Ok b /\ sb_bond_funded b = funded /\ sb_bond_required b = amount /\
    amount = price * 2 /\ (funded = false -> sb_bond_held b = 0).
Proof.
  unfold seller_bond_prewrite_state. intros H. repeat ok_step H. checked_facts. simplify_eq.
  apply as_chain_ok in E. apply negb_false_iff, Z.eqb_eq in E1. apply negb_false_iff in E2. exists a.
  split_and!; [done..|]. intros Hf. rewrite Hf in E2. by apply Z.eqb_eq in E2.
Qed.
Definition bonded (t : list SellerCall) : Prop := exists b, read_bond tc b t /\ sb_bond_funded b = true.
Lemma lasting_bonded ok : lasting ok bonded.
Proof. apply lasting_ex. intros b. apply lasting_and; auto with lasting. Qed.
Lemma quiet_reserve : quiet (deal_reserve_ecc (W:=world) tc) knows_nothing.
Proof. unfold deal_reserve_ecc. knowing. by eapply learns_weak, quiet_account. Qed.
Lemma quiet_physical : quiet (seller_note_physical_shell (W:=world) me) knows_nothing.
Proof. unfold seller_note_physical_shell. knowing. by eapply learns_weak, quiet_account. Qed.
Lemma quiet_wait_bond reads : quiet (wait_bond_funded (W:=world) reads tc) (fun _ => bonded).
Proof.
  induction reads as [|reads IH]; cbn [wait_bond_funded].
  - do 2 (apply learns_after; [by eapply learns_weak, quiet_getter|intros ?]).
    apply learns_after; [|intros ?; apply learns_throw].
    eapply learns_weak, quiet_caught, quiet_record.
  - eapply quiet_seller_poll; [apply quiet_bond|intros [b|]; auto with lasting| |].
    + intros [b|] t E Hb; [by exists b|done].
    + apply learns_after; [by apply learns_run|by intros _].
Qed.
Lemma follows_bond :
  follows_me (only is_gas) (post_seller_bond_and_wait me tc) (fun _ t => only before_opening t /\ bonded t).
Proof.
  assert (forall t, only is_gas t -> only before_opening t) as Hweak by (intros t; apply only_weak; by intros []).
  unfold post_seller_bond_and_wait. apply follows_outcome. intros o Ho%as_chain_ok. injection Ho as <-.
  eapply follows_read; [apply quiet_getter|auto with lasting|]. intros bond.
  apply follows_outcome. intros v ->%ok_or_ok.
  eapply follows_read; [apply quiet_terms|auto with lasting|]. intros terms.
  apply follows_outcome. intros [[ts price] ticks] ->%ok_or_ok.
  apply follows_outcome. intros [funded amount] (b & Hb & Hf & Hreq & Hamt & Hheld)%prewrite_exact.
  destruct funded.
  { apply follows_ret. intros t [[Ho Hv] _]. split; [auto|]. exists b. split; [by exists v|done]. }
  eapply follows_bind; [eapply follows_keep; [apply quiet_reserve|auto with lasting]|]. intros reserve.
  eapply follows_bind; [eapply follows_keep; [apply quiet_record|auto with lasting]|]. intros spendable.
  eapply follows_bind; [eapply follows_keep; [apply quiet_physical|auto with lasting]|]. intros physical.
  apply follows_outcome. intros ? _.
  eapply follows_bind; [apply follows_gas; auto 6 with lasting|]. intros [].
  eapply follows_read; [apply quiet_record|auto with lasting|]. intros record.
  destruct (Z.ltb_spec record amount) as [|Hle]; [apply follows_throw|].
  apply (follows_bind _ _ _ _ (fun _ => only before_opening)).
  - apply (follows_submit _ _ _ before_opening); [|done|apply lasting_only].
    intros t [[[Ho Hv] Ht] Hr]. split; [|by apply Hweak]. split_and!; [done..|].
    exists b, price, ticks, record. split_and!; try done; [by exists v|auto].
  - intros []. apply follows_quiet with (F := fun _ => bonded); [apply quiet_wait_bond|auto with lasting].
Qed.

(** ** The calls of the trait *)
Definition shows (test : DealChainState -> bool) (t : list SellerCall) : Prop :=
  exists s, read_state tc s t /\ test s = true.
Lemma lasting_shows ok test : lasting ok (shows test).
Proof. apply lasting_ex. intros s. apply lasting_and; auto with lasting. Qed.
Lemma quiet_wait_bool reads key : quiet (wait_tc_bool (W:=world) reads tc key true) (fun _ => shows (state_bool key)).
Proof.
  induction reads as [|reads IH]; cbn [wait_tc_bool]; [apply learns_throw|].
  eapply quiet_seller_poll; [apply quiet_state|intros [s|]; auto with lasting| |].
  - intros [s|] t E Hs; [|done]. exists s. split; [done|]. by apply Bool.eqb_prop in E.
  - apply learns_after; [by apply learns_run|by intros _].
Qed.
Lemma follows_open token_contract cipher : parse_tc parse_address token_contract = Ok tc ->
  follows_me (only is_gas) (open_stream parse_address me token_contract cipher)
    (fun _ => shows ds_opened).
Proof.
  intros Hp. unfold open_stream. rewrite Hp. apply follows_outcome. intros ? [= <-].
  eapply follows_bind; [apply follows_bond|]. intros [].
  eapply follows_bind; [apply follows_tc_gas|].
  { apply lasting_and; [|apply lasting_bonded]. eapply (lasting_signs _ before_opening); [by intros []|apply lasting_only]. }
  intros []. apply (follows_bind _ _ _ _ (fun _ _ => True)); [|intros []].
  - apply (follows_submit _ _ _ (fun _ => true)); [|done|by intros t0 t _]. by intros t [? ?].
  - apply follows_known, quiet_wait_bool.
Qed.
Lemma follows_accept token_contract : parse_tc parse_address token_contract = Ok tc ->
  follows_me (only is_gas) (accept_probe parse_address me token_contract) (fun _ => shows ds_probe_accepted).
Proof.
  intros Hp. unfold accept_probe. rewrite Hp. apply follows_outcome. intros ? [= <-].
  eapply follows_bind; [apply follows_tc_gas, lasting_only|].
  intros []. apply (follows_bind _ _ _ _ (fun _ _ => True)); [|intros []].
  - apply (follows_submit _ _ _ (fun _ => true)); [|done|by intros t0 t _]. done.
  - apply follows_known, quiet_wait_bool.
Qed.

(** A submit whose failure may still have landed is left to the reads that follow. *)
Lemma follows_perhaps E (K Q : list SellerCall -> Prop) p F (m : prog world unit) :
  follows E K m F -> learns snd (signs p) m knows_nothing -> lasting (signs p) Q -> (forall t, K t -> Q t) ->
  follows E K (perhaps_landed m) (fun _ => Q).
Proof.
  intros Hm Hg HQ HK w Hw. specialize (Hm w Hw). specialize (Hg _ w eq_refl). destruct Hw as [_ HKw%HK].
  unfold perhaps_landed, bind, caught.
  destruct (m w) as [[[[]|[]|]|] w']; simpl; try done.
  - destruct Hm, Hg. split; [done|]. by eapply HQ.
  - split; [done|]. by eapply HQ.
  - split; [done|]. by eapply HQ.
Qed.
Lemma follows_mapping {A} E K F f (m : prog world A) : follows E K m F -> follows E K (mapping_err f m) F.
Proof. intros Hm w Hw. specialize (Hm w Hw). unfold mapping_err. by destruct (m w) as [[[a|e|]|] w']. Qed.
Lemma learns_mapping {A} ok f (m : prog world A) : learns snd ok m knows_nothing -> learns snd ok (mapping_err f m) knows_nothing.
Proof. intros Hm t0 w Hw. specialize (Hm t0 w Hw). unfold mapping_err. by destruct (m w) as [[[a|e|]|] w']. Qed.
Lemma learns_submit p write : p write = true -> learns snd (signs p) (submit (W:=world) write) knows_nothing.
Proof.
  intros Hp. apply learns_after; [by eapply learns_weak, learns_entered|]. intros boc.
  eapply learns_signs; [|apply quiet_send]. done.
Qed.

Definition pending (test : Z -> bool) (t : list SellerCall) : Prop :=
  exists v n, read_raw_state tc v t /\ pending_tokens v = Some n /\ test n = true.
Lemma lasting_pending ok test : lasting ok (pending test).
Proof. do 2 (apply lasting_ex; intros ?). repeat apply lasting_and; auto with lasting; apply lasting_pure. Qed.
Lemma high_water_exact state attempted o t :
  claim_high_water_read state attempted = Ok o -> SGetter tc GetState (Ok state) ∈ t ->
  match o with
  | Behind _ => pending (fun n => n <? attempted) t
  | Equal => pending (fun n => n =? attempted) t
  | Ahead on_chain => pending (fun n => (n =? on_chain) && (attempted <? n)) t
  end.
Proof.
  unfold claim_high_water_read. intros H Hin. repeat ok_step H. injection H as <-. apply ok_or_ok in E as ->.
  checked_facts. assert (pending_tokens a = Some a1) as Ha by (unfold pending_tokens; by rewrite E0).
  destruct (Z.compare_spec a1 attempted); exists a, a1; split_and!; try done; lia.
Qed.
Lemma quiet_confirm_claim reads cumulative :
  quiet (confirm_claim reads (token_contract_state (W:=world) tc) (run (sleep CLAIM_CONFIRMATION_POLL_INTERVAL)) cumulative)
    (fun _ => pending (fun n => n =? cumulative)).
Proof.
  induction reads as [|reads IH]; cbn [confirm_claim]; [apply learns_throw|].
  apply (quiet_then _ _ _ (fun state _ t => claim_high_water_read state cumulative = Ok Equal \/ pending (fun n => n =? cumulative) t)
           _ (quiet_getter tc GetState)).
  - intros state. apply quiet_outcome. intros [n| |n] Ho; [|apply learns_ret; by left|apply learns_throw].
    apply learns_after; [destruct reads; [by apply learns_ret|by apply learns_run]|intros _].
    eapply quiet_conseq; [exact IH|by right].
  - intros state. apply lasting_elem.
  - intros state [] t Hin [Ho|Ht]; [|done]. by eapply high_water_exact in Ho.
Qed.
Lemma follows_claim token_contract cumulative : parse_tc parse_address token_contract = Ok tc ->
  follows_me (only is_gas) (claim_tokens parse_address unusable_response me token_contract cumulative)
    (fun _ => pending (fun n => n =? cumulative)).
Proof.
  intros Hp. unfold claim_tokens. rewrite Hp. apply follows_outcome. intros ? [= <-].
  eapply follows_bind; [apply follows_tc_gas, lasting_only|]. intros [].
  unfold submit_claim_confirmed, submit_claim_confirmed_with.
  eapply follows_read; [apply quiet_getter|apply lasting_only_none|]. intros state.
  apply follows_outcome. intros o Ho. pose proof (fun t => high_water_exact _ _ _ t Ho) as Hh.
  destruct o as [n| |n]; [| |apply follows_throw].
  - apply (follows_bind _ _ _ _ (fun _ _ => True)); [|intros []; apply follows_known, quiet_confirm_claim].
    eapply (follows_perhaps _ _ _ (fun _ => true));
      [apply follows_mapping|by apply learns_mapping, learns_submit|by intros t0 t _|done].
    apply (follows_submit _ _ (fun _ => True) (fun _ => true)); [|done|by intros t0 t _].
    intros t [Ho' (v & m & Hv & Hm & Hlt)%Hh]. split; [|done]. split_and!; [done..|]. exists v, m. split_and!; [done..|lia].
  - apply follows_ret. intros t [_ ?]. by apply Hh.
Qed.

(** One round of a confirmation: what was read, or that the account is gone. *)
Lemma quiet_round {A} (m : prog world (option A)) (confirmed : option A -> bool -> outcome ChainError bool) (rest : prog world unit)
    F (H : list SellerCall -> Prop) :
  quiet m F -> (forall a, lasting (signs none) (F a)) ->
  (forall a active t, F a t -> confirmed a active = Ok true -> (a = None -> active = false -> read_absent tc t) -> H t) ->
  quiet rest (fun _ => H) ->
  quiet (let! a := m in
         let! active := match a with None => account_is_active tc | Some _ => ret true end in
         let! c := of_outcome (confirmed a active) in
         if c : bool then ret tt else rest) (fun _ => H).
Proof.
  intros Hm HF HH Hr.
  set (gone (a : option A) (active : bool) t := a = None -> active = false -> read_absent tc t).
  assert (forall a active, lasting (signs none) (gone a active)) as Hl.
  { intros a active t0 t Hg Hgone Ha Hb. destruct (Hgone Ha Hb) as [?|(x & ? & ?)]; [left|right; exists x; split; [|done]];
      by eapply grown_elem. }
  apply (quiet_then _ _ F (fun a _ t => (exists active, confirmed a active = Ok true /\ gone a active t) \/ H t)); [done| |done|].
  - intros a. apply (quiet_then _ _ (gone a) (fun active _ t => confirmed a active = Ok true \/ H t)).
    + destruct a; [by apply learns_ret|]. eapply quiet_conseq; [apply quiet_active|]. by intros active t Ha _.
    + intros active. apply quiet_outcome. intros [] Hc; [apply learns_ret; by left|].
      eapply quiet_conseq; [exact Hr|by right].
    + done.
    + intros active [] t Hg [Hc|Ht]; [left; by exists active|by right].
  - intros a [] t Ha [(active & Hc & Hg)|Ht]; [by eapply HH|done].
Qed.
Definition finalized (before : Z) (t : list SellerCall) : Prop :=
  shows (fun s => is_stopped s || (before <? ds_tokens_final s)) t \/ read_absent tc t.
Lemma quiet_confirm_finalize reads before :
  quiet (confirm_finalize (W:=world) reads tc before) (fun _ => finalized (ds_tokens_final before)).
Proof.
  induction reads as [|reads IH]; cbn [confirm_finalize]; [apply learns_throw|].
  eapply (quiet_round _ (finalize_post_confirmed (ds_tokens_final before)));
    [apply quiet_state|intros [s|]; auto with lasting| |].
  - intros [s|] active t Hs Hc Hgone; simpl in Hc.
    + left. exists s. split; [done|]. destruct (_ <? _); [done|]. destruct (is_stopped s); [done|].
      destruct (ds_disputed s); [done|]. by injection Hc.
    + right. apply Hgone; [done|]. by destruct active.
  - apply learns_after; [destruct reads; [by apply learns_ret|by apply learns_run]|by intros _].
Qed.
Lemma follows_finalize token_contract : parse_tc parse_address token_contract = Ok tc ->
  follows_me (only is_gas) (finalize parse_address me token_contract)
    (fun _ t => exists s, read_state tc s t /\ (ds_tokens_pending s <= ds_tokens_final s \/ finalized (ds_tokens_final s) t)).
Proof.
  intros Hp. unfold finalize. rewrite Hp. apply follows_outcome. intros ? [= <-].
  eapply follows_read; [apply quiet_state|apply lasting_only_none|]. intros before.
  apply follows_outcome. intros s ->%ok_or_ok.
  destruct (Z.leb_spec (ds_tokens_pending s) (ds_tokens_final s)) as [Hle|Hlt].
  { apply follows_ret. intros t [_ Hs]. exists s. auto. }
  eapply follows_bind; [apply follows_tc_gas|intros []].
  { apply lasting_and; [apply lasting_only|apply lasting_read_state]. }
  unfold submit_finalize_confirmed. apply (follows_bind _ _ _ _ (fun _ => read_state tc s)).
  - eapply (follows_perhaps _ _ _ (fun _ => true)); [|by apply learns_submit|apply lasting_read_state|by intros t [_ ?]].
    apply (follows_submit _ _ (fun _ => True) (fun _ => true)); [|done|by intros t0 t _].
    intros t [Ho Hs]. split; [|done]. split_and!; [done..|]. by exists s.
  - intros []. eapply (follows_conseq _ _ (read_state tc s)); [apply follows_quiet; [apply quiet_confirm_finalize|by auto with lasting]|done|].
    intros [] t [Hs Hf]. exists s. auto.
Qed.

Definition settled (pre : Z) (t : list SellerCall) : Prop :=
  (exists s, read_week tc s t /\ pre < week_index s) \/ read_absent tc t.
Lemma quiet_confirm_week reads pre : quiet (confirm_seller_week (W:=world) reads tc pre) (fun _ => settled pre).
Proof.
  induction reads as [|reads IH]; cbn [confirm_seller_week]; [apply learns_throw|].
  eapply (quiet_round _ (settle_week_post_confirmed pre)); [apply quiet_week|intros [s|]; auto with lasting| |].
  - intros [s|] active t Hs Hc Hgone; simpl in Hc.
    + left. exists s. injection Hc as ?%Z.ltb_lt. done.
    + right. apply Hgone; [done|]. by destruct active.
  - apply learns_after; [by apply learns_run|by intros _].
Qed.
Lemma follows_settle_week token_contract : parse_tc parse_address token_contract = Ok tc ->
  follows_me (only is_gas) (settle_week parse_address me token_contract)
    (fun _ t => exists s, read_week tc s t /\ settled (week_index s) t).
Proof.
  intros Hp. unfold settle_week. rewrite Hp. apply follows_outcome. intros ? [= <-].
  eapply follows_read; [apply quiet_week|apply lasting_only_none|]. intros before.
  apply follows_outcome. intros pre Hpre%ok_or_ok. destruct before as [s|]; [|done]. injection Hpre as <-.
  eapply follows_bind; [apply follows_tc_gas|intros []].
  { apply lasting_and; [apply lasting_only|apply lasting_read_week]. }
  apply (follows_bind _ _ _ _ (fun _ => read_week tc s)).
  - apply (follows_submit _ _ _ (fun _ => true)); [|done|apply lasting_read_week].
    intros t [Ho Hs]. split; [|done]. split_and!; [done..|]. by exists s.
  - intros []. eapply (follows_conseq _ _ (read_week tc s)); [apply follows_quiet; [apply quiet_confirm_week|by auto with lasting]|done|].
    intros [] t [Hs Hf]. exists s. auto.
Qed.
End Writes.
(** ** The theorems *)
Inductive DealCall : Type :=
| DoOpen (cipher : string) | DoAccept | DoClaim (cumulative : Z) | DoFinalize | DoSettleWeek.

Section Calls.
Context (parse_address : string -> option string) (unusable_response : ChainError -> bool).
Context {W : Type} `{HS : SellerChain W} `{HC : Clock W}.
Context (me : RealSellerBackend) (token_contract : TokenContract).

Definition perform (c : DealCall) : prog (traced W SellerCall) unit :=
  match c with
  | DoOpen cipher => open_stream parse_address me token_contract cipher
  | DoAccept => accept_probe parse_address me token_contract
  | DoClaim cumulative => claim_tokens parse_address unusable_response me token_contract cumulative
  | DoFinalize => finalize parse_address me token_contract
  | DoSettleWeek => settle_week parse_address me token_contract
  end.
(** What a call that returned has read. *)
Definition effect_read (tc : TokenContract) (c : DealCall) (t : list SellerCall) : Prop :=
  match c with
  | DoOpen _ => shows tc ds_opened t
  | DoAccept => shows tc ds_probe_accepted t
  | DoClaim cumulative => exists v, read_raw_state tc v t /\ pending_tokens v = Some cumulative
  | DoFinalize => exists s, read_state tc s t /\
      (ds_tokens_pending s <= ds_tokens_final s \/
       shows tc (fun s' => is_stopped s' || (ds_tokens_final s <? ds_tokens_final s')) t \/ read_absent tc t)
  | DoSettleWeek => exists s, read_week tc s t /\
      ((exists s', read_week tc s' t /\ week_index s < week_index s') \/ read_absent tc t)
  end.
Lemma follows_perform tc c : parse_tc parse_address token_contract = Ok tc ->
  follows (W:=W) (authorised me tc) (only is_gas) (perform c) (fun _ => effect_read tc c).
Proof.
  intros Hp. destruct c; simpl; [by apply follows_open|by apply follows_accept| |by apply follows_finalize|by apply follows_settle_week].
  eapply follows_conseq; [by apply follows_claim|done|]. intros _ t (v & n & Hv & Hn & ->%Z.eqb_eq). by exists v.
Qed.
Lemma performed tc c w : parse_tc parse_address token_contract = Ok tc ->
  signed (authorised me tc) (snd (snd (perform c (w, [])))) /\
  (fst (perform c (w, [])) = Some (Ok tt) -> effect_read tc c (snd (snd (perform c (w, []))))).
Proof.
  intros Hp. pose proof (follows_perform tc c Hp (w, []) (conj (signed_nil _) (only_nil _))) as H.
  destruct (perform c (w, [])) as [[[[]|e|]|] w']; [|done..]. by destruct H.
Qed.

(** C13: Nothing is signed for a deal without the reads that justify it.  Whatever a call
    of the seller does, each message it signs comes after reads of the same call: a gas
    top-up fills a reserve seen at or below the floor exactly to the target; the bond is
    the canonical double price of the deal, once, unfunded and covered by the note's own
    record; the stream opens over a bond seen funded; a claim raises the pending tokens
    last read; a finalize has tokens to finalize; a week is settled against a week read.
    Beyond the gas and the bond, a call signs one message. *)
Theorem signatures_are_authorised tc c w : parse_tc parse_address token_contract = Ok tc ->
  signed (authorised me tc) (snd (snd (perform c (w, [])))).
Proof. intros Hp. by apply performed. Qed.

(** C14: A call that returns has read its effect on the chain, however the posts went: the
    stream open, the probe accepted, the claimed tokens pending, the final tokens grown or
    the deal stopped, the week advanced, or the account of the deal gone. *)
Theorem returned_calls_have_read_their_effect tc c w w' t :
  parse_tc parse_address token_contract = Ok tc -> perform c (w, []) = (Some (Ok tt), (w', t)) -> effect_read tc c t.
Proof. intros Hp Hr. pose proof (proj2 (performed tc c w Hp)) as H. rewrite Hr in H. by apply H. Qed.
End Calls.

(** ** One instant of the deal *)
Section Coherent.
Context (account_boc_hash : string -> string) (normalize_code_hash : string -> option string).
Context {W : Type} `{HS : SellerChain W}.
Context (tc : TokenContract) (time : W -> Z) (account_at : Z -> option Account) (getter_at : Z -> Getter -> option Value).
Abbreviation identity := (identity_of account_boc_hash normalize_code_hash).

(** Reads that answer for an instant of their own, on a chain that does not go back; and
    two instants with one identity have one state, for an account names its last
    transaction. *)
Definition answers_in_time {A} (f : W -> outcome ChainError A * W) (at_ : Z -> A) : Prop :=
  forall w, time w <= time (snd (f w)) /\
    forall a, fst (f w) = Ok a -> exists i, time w <= i <= time (snd (f w)) /\ a = at_ i.
Definition honest_node : Prop :=
  answers_in_time (sl_account tc) account_at /\ forall g, answers_in_time (sl_getter tc g) (fun i => getter_at i g).
Definition identity_pins_state : Prop :=
  forall i j k x, i <= j <= k -> identity (account_at i) = Ok (Some x) -> identity (account_at k) = Ok (Some x) ->
    forall g, getter_at j g = getter_at i g.

(** The snapshot is the deal at [i]. *)
Definition snapshot_at (i : Z) (sn : DealChainSnapshot) : Prop :=
  identity (account_at i) = Ok (Some (mkDealIdentity (sn_account_code_hash sn) (sn_account_boc_hash sn))) /\
  strict decode_state (getter_at i GetState) = Ok (Some (sn_state sn)) /\
  strict decode_subscription (getter_at i GetSubscription) = Ok (Some (sn_subscription sn)) /\
  strict decode_seller_bond (getter_at i GetSellerBond) = Ok (Some (sn_seller_bond sn)) /\
  strict decode_buyer_bond (getter_at i GetBuyerBond) = Ok (Some (sn_buyer_bond sn)) /\
  validate_cross_getter_invariants sn = Ok tt.

(** From [lo] on: the chain does not go back, and a value means [Q] at the instant reached. *)
Definition from_on (lo : Z) {A} (m : prog W A) (Q : A -> Z -> Prop) : Prop :=
  forall w, lo <= time w -> lo <= time (snd (m w)) /\ forall a, fst (m w) = Some (Ok a) -> Q a (time (snd (m w))).
Lemma from_on_bind {A B} lo (m : prog W A) (k : A -> prog W B) F Q :
  from_on lo m F -> (forall a mid, lo <= mid -> F a mid -> from_on mid (k a) Q) -> from_on lo (bind m k) Q.
Proof.
  intros Hm Hk w Hw. destruct (Hm w Hw) as [Ht Ha]. unfold bind. destruct (m w) as [[[a|e|]|] w']; simpl in *; try by split.
  destruct (Hk a (time w') Ht (Ha _ eq_refl) w') as [Ht' Hb]; [done|]. split; [lia|done].
Qed.
Lemma from_on_ret {A} lo (a : A) (Q : A -> Z -> Prop) : (forall i, lo <= i -> Q a i) -> from_on lo (ret a) Q.
Proof. intros H w Hw. simpl. split; [done|]. intros ? [= <-]. auto. Qed.
Lemma from_on_throw {A} lo e (Q : A -> Z -> Prop) : from_on lo (throw e) Q.
Proof. by intros w Hw. Qed.
Lemma from_on_outcome {A B} lo (r : outcome ChainError A) (k : A -> prog W B) Q :
  (forall a, r = Ok a -> from_on lo (k a) Q) -> from_on lo (bind (of_outcome r) k) Q.
Proof. intros Hk w Hw. unfold of_outcome, bind. destruct r as [a|e|]; [by apply (Hk a)|done..]. Qed.
Lemma from_on_caught {A} lo (m : prog W A) Q :
  from_on lo m Q -> from_on lo (caught m) (fun r i => match r with Ok a => Q a i | _ => True end).
Proof.
  intros Hm w Hw. destruct (Hm w Hw) as [Ht Ha]. unfold caught.
  destruct (m w) as [[[a|e|]|] w']; simpl in *; (split; [done|]); intros ? [= <-]; auto.
Qed.
Lemma from_on_lift {A} lo (f : W -> outcome ChainError A * W) at_ :
  answers_in_time f at_ -> from_on lo (lift f) (fun a now => exists j, lo <= j <= now /\ a = at_ j).
Proof.
  intros Hf w Hw. destruct (Hf w) as [Ht Ha]. unfold lift. destruct (f w) as [r w']; simpl in *. split; [lia|].
  intros a [= ->]. destruct (Ha _ eq_refl) as (j & ? & ->). exists j. split; [lia|done].
Qed.

Context (Hnode : honest_node) (Hpins : identity_pins_state).
Lemma from_on_strict {A} lo g (decode : Value -> outcome string A) :
  from_on lo (read_strict g decode tc) (fun a now => exists j, lo <= j <= now /\ strict decode (getter_at j g) = Ok a).
Proof.
  eapply from_on_bind; [apply from_on_lift, (proj2 Hnode)|]. intros v mid Hmid (j & Hj & ->) w Hw. simpl.
  split; [done|]. intros a [= Ha]. exists j. split; [lia|done].
Qed.
Lemma from_on_identity lo :
  from_on lo (account_identity account_boc_hash normalize_code_hash tc)
    (fun a now => exists j, lo <= j <= now /\ identity (account_at j) = Ok a).
Proof.
  eapply from_on_bind; [apply from_on_lift, (proj1 Hnode)|]. intros v mid Hmid (j & Hj & ->) w Hw. simpl.
  split; [done|]. intros a [= Ha]. exists j. split; [lia|done].
Qed.
Definition seen_between (lo : Z) (r : option DealChainSnapshot) (now : Z) : Prop :=
  exists i, lo <= i <= now /\
    match r with None => identity (account_at i) = Ok None | Some sn => snapshot_at i sn end.
Lemma same_identity_eq a b : same_identity a (Some b) = true -> a = Some b.
Proof.
  destruct a as [[c h]|]; [|done]. destruct b as [c' h']. simpl. intros [E1%bool_decide_eq_true_1 E2%bool_decide_eq_true_1]%andb_true_iff.
  by subst.
Qed.
Lemma from_on_round lo :
  from_on lo (read_deal_snapshot_round account_boc_hash normalize_code_hash tc) (seen_between lo).
Proof.
  unfold read_deal_snapshot_round. eapply from_on_bind; [apply from_on_identity|].
  intros [idn|] t0 H0 (i & Hi & Ei); [|apply from_on_ret; intros now Hnow; exists i; split; [lia|done]].
  eapply from_on_bind; [apply from_on_strict|]. intros state t1 H1 (j1 & Hj1 & E1).
  eapply from_on_bind; [apply from_on_strict|]. intros sub t2 H2 (j2 & Hj2 & E2).
  eapply from_on_bind; [apply from_on_strict|]. intros sbond t3 H3 (j3 & Hj3 & E3).
  eapply from_on_bind; [apply from_on_strict|]. intros bbond t4 H4 (j4 & Hj4 & E4).
  eapply from_on_bind; [apply from_on_identity|]. intros after t5 H5 (l & Hl & El).
  destruct (same_identity after (Some idn)) eqn:Es; [|apply from_on_throw]. cbn [negb].
  apply same_identity_eq in Es as ->. apply from_on_outcome. intros sn Ha. apply from_on_ret. intros now Hnow.
  exists i. split; [lia|]. rewrite (Hpins i j1 l idn) in E1 by (done || lia). rewrite (Hpins i j2 l idn) in E2 by (done || lia).
  rewrite (Hpins i j3 l idn) in E3 by (done || lia). rewrite (Hpins i j4 l idn) in E4 by (done || lia).
  unfold assemble in Ha. repeat ok_step Ha. injection Ha as <-. checked_facts. simplify_eq.
  match goal with H : as_chain _ = Ok ?u |- _ => apply as_chain_ok in H; destruct u end. by destruct idn.
Qed.
Lemma from_on_rounds attempts lo :
  from_on lo (coherent_rounds account_boc_hash normalize_code_hash attempts tc) (seen_between lo).
Proof.
  revert lo. induction attempts as [|attempts IH]; intros lo; cbn [coherent_rounds]; [apply from_on_throw|].
  eapply from_on_bind; [apply from_on_caught, from_on_round|]. intros [r|e|] mid Hmid Hr.
  - apply from_on_ret. intros now Hnow. destruct Hr as (i & Hi & Hs). exists i. split; [lia|done].
  - intros w Hw. destruct (IH mid w Hw) as [Ht Hq]. split; [done|]. intros a Ha%Hq. destruct Ha as (i & ? & ?). exists i. split; [lia|done].
  - intros w Hw. destruct (IH mid w Hw) as [Ht Hq]. split; [done|]. intros a Ha%Hq. destruct Ha as (i & ? & ?). exists i. split; [lia|done].
Qed.

(** C15: A snapshot is the deal at one instant.  The six reads of a round answer for
    instants of their own; when the account had the same identity before and after, the
    state, the subscription and both bonds returned are those of one instant inside the
    call, and hold together.  An answer without a snapshot means that the account was
    inactive at an instant of the call. *)
Theorem snapshots_are_of_one_instant w w' r :
  token_contract_deal_snapshot account_boc_hash normalize_code_hash tc w = (Some (Ok r), w') ->
  exists i, time w <= i <= time w' /\
    match r with None => identity (account_at i) = Ok None | Some sn => snapshot_at i sn end.
Proof.
  intros Hr. destruct (from_on_rounds DEAL_SNAPSHOT_MAX_ATTEMPTS (time w) w (Z.le_refl _)) as [_ H].
  unfold token_contract_deal_snapshot in Hr. rewrite Hr in H. by apply H.
Qed.
End Coherent.
(** ** A deal at its stall

    Its gas is low and its bond unposted; a message is applied when it is posted, and the
    second post only says that the transport failed. *)
Record Stall : Type := mkStall {
  st_now : Z; st_ecc : Z; st_bonded : bool; st_opened : bool; st_pending : Z; st_letter : option SellerWrite }.
Definition numeral_of (n : Z) : Value := VString (of_text (print_u128 n)).
Definition stall_state (d : Stall) : Value :=
  VObject [("deposit", numeral_of 50); ("disputeTime", numeral_of 0); ("disputed", VBool false);
           ("finalizedOwed", numeral_of 0); ("funded", VBool true); ("fundedTime", numeral_of 100);
           ("lastClaimTime", numeral_of 0); ("opened", VBool (st_opened d)); ("probeAccepted", VBool (st_opened d));
           ("probeTick", numeral_of 0); ("probeTime", numeral_of 0); ("tokensFinal", numeral_of 0);
           ("tokensPending", numeral_of (st_pending d))].
Definition stall_bond (d : Stall) : Value :=
  VObject [("bondFunded", VBool (st_bonded d)); ("bondHeld", numeral_of (if st_bonded d then 10 else 0));
           ("bondRequired", numeral_of 10)].
Definition stall_buyer_bond : Value := VObject [("bondHeld", numeral_of 0); ("bondRequired", numeral_of 0)].
Definition stall_week : Value :=
  VObject [("dealFlags", numeral_of 0); ("fundedTokens", numeral_of (10 * TICK_SIZE)); ("periodStart", numeral_of 0);
           ("subWeeks", numeral_of 0); ("tokensPaid", numeral_of 0); ("tokensPerWeek", numeral_of (10 * TICK_SIZE));
           ("weekBaseTokens", numeral_of 0); ("weekIndex", numeral_of 0)].
Definition stall_terms : Value :=
  VObject [("maxTicks", numeral_of 10); ("pricePerTick", numeral_of 5); ("tickSize", numeral_of TICK_SIZE)].
Definition stall_getter (d : Stall) (g : Getter) : option Value :=
  match g with
  | GetState => Some (stall_state d) | GetSellerBond => Some (stall_bond d) | GetBuyerBond => Some stall_buyer_bond
  | GetSubscription => Some stall_week | GetDeal => Some stall_terms | GetOffer | GetConfig => None
  end.
Definition stall_account (d : Stall) : Account :=
  mkAccount true (Some "code") (Some (if st_bonded d then "bonded" else "unbonded")) (st_ecc d).
Definition apply_letter (d : Stall) : Stall :=
  match st_letter d with
  | Some (FundDeployShell _ short) => mkStall (st_now d) (st_ecc d + short) (st_bonded d) (st_opened d) (st_pending d) None
  | Some (FundDeal _ _ _) => mkStall (st_now d) (st_ecc d) true (st_opened d) (st_pending d) None
  | Some (OpenStream _ _) => mkStall (st_now d) (st_ecc d) (st_bonded d) true (st_pending d) None
  | Some (ClaimTokens _ n) => mkStall (st_now d) (st_ecc d) (st_bonded d) (st_opened d) n None
  | _ => d
  end.
#[local] Instance stall_chain : SellerChain Stall := {|
  sl_unix_now d := Ok (500 + st_now d / 1000);
  sl_chain_time d := (Ok 495, d);
  sl_getter tc g d := (Ok (stall_getter d g), d);
  sl_note_details d := (Ok (Some (VObject [("balance", VObject [("2", numeral_of 100)])])), d);
  sl_account a d :=
    (Ok (Some (if bool_decide (a = "0:note") then mkAccount true None None 90000000000000 else stall_account d)), d);
  sl_buyer_pubkey tc d := (Ok None, d);
  sl_owner_matches d := (Ok tt, d);
  sl_book_address d := (Ok "0:book", d);
  sl_book_stats ob d := (Ok None, d);
  sl_book_storage ob d := (Ok Null, d);
  sl_note_messages d := (Ok [], d);
  sl_sign write d := (Ok "boc", mkStall (st_now d) (st_ecc d) (st_bonded d) (st_opened d) (st_pending d) (Some write));
  sl_route boc d := (Ok tt, d);
  sl_post boc d :=
    (match st_letter d with Some (ClaimTokens _ _) => Err (AmbiguousSubmit "lost") | _ => Ok tt end, apply_letter d) |}.
#[local] Instance stall_clock : Clock Stall := {|
  clock_now := st_now;
  sleep d w := mkStall (st_now w + d) (st_ecc w) (st_bonded w) (st_opened w) (st_pending w) (st_letter w) |}.
Definition vendor : RealSellerBackend := mkSeller "0:note" 7 "hash" "model" TICK_SIZE None.
Definition stall : Stall := mkStall 0 0 false false 0 None.
Definition at_stall (c : DealCall) (d : Stall) : option (outcome ChainError unit) * traced Stall SellerCall :=
  perform Some (fun _ => false) vendor "0:D" c (d, []).
Definition signatures (t : list SellerCall) : list SellerWrite :=
  omap (fun c => match c with SSign write _ => Some write | _ => None end) (rev t).

Lemma signatures_are_authorised_witness :
  let t := snd (snd (at_stall (DoOpen "ct") stall)) in
  signed (authorised vendor "0:D") t /\
  exists short, signatures t = [FundDeployShell 7 short; FundDeal 7 0 10; OpenStream "0:D" "ct"].
Proof.
  split; [exact (signatures_are_authorised (W:=Stall) Some (fun _ => false) vendor "0:D" "0:D" (DoOpen "ct") stall eq_refl)|].
  eexists. vm_compute. reflexivity.
Defined.
(** The answer to the claim is lost, and the claim is found on the chain. *)
Definition claim_run : option (outcome ChainError unit) * traced Stall SellerCall :=
  Eval vm_compute in at_stall (DoClaim 30) (mkStall 0 1000000000000 true true 0 None).
Lemma returned_calls_have_read_their_effect_witness :
  SPost "boc" (Err (AmbiguousSubmit "lost")) ∈ snd (snd claim_run) /\ effect_read "0:D" (DoClaim 30) (snd (snd claim_run)).
Proof.
  split; [vm_compute; repeat first [left|right]|].
  apply (returned_calls_have_read_their_effect (W:=Stall) Some (fun _ => false) vendor "0:D" "0:D" (DoClaim 30)
    (mkStall 0 1000000000000 true true 0 None) (fst (snd claim_run)) _ eq_refl).
  vm_compute. reflexivity.
Defined.

(** A deal whose bond is posted at instant three, read by calls of one instant each. *)
Definition aged (i : Z) : Stall := mkStall i 5 (3 <=? i) false 0 None.
#[local] Instance aging_chain : SellerChain Z := {|
  sl_unix_now d := Ok d;
  sl_chain_time d := (Ok d, d);
  sl_getter tc g i := (Ok (stall_getter (aged i) g), i + 1);
  sl_note_details d := (Ok None, d);
  sl_account a i := (Ok (Some (stall_account (aged i))), i + 1);
  sl_buyer_pubkey tc d := (Ok None, d);
  sl_owner_matches d := (Ok tt, d);
  sl_book_address d := (Ok "0:book", d);
  sl_book_stats ob d := (Ok None, d);
  sl_book_storage ob d := (Ok Null, d);
  sl_note_messages d := (Ok [], d);
  sl_sign write d := (Ok "boc", d);
  sl_route boc d := (Ok tt, d);
  sl_post boc d := (Ok tt, d) |}.
Definition account_of (i : Z) : option Account := Some (stall_account (aged i)).
Definition getter_of (i : Z) (g : Getter) : option Value := stall_getter (aged i) g.
Lemma aging_honest : honest_node "0:D" id account_of getter_of.
Proof. split; [|intros g]; intros w; simpl; (split; [lia|]); intros a [= <-]; exists w; (split; [lia|done]). Qed.
Lemma aging_pins : identity_pins_state id Some account_of getter_of.
Proof.
  intros i j k x Hi E1 E2 g. unfold getter_of, aged. simpl in *.
  destruct (Z.leb_spec 3 i), (Z.leb_spec 3 k); simpl in *; try congruence;
    destruct (Z.leb_spec 3 j); try lia; by destruct g.
Qed.
(** The first round sees the account change, and the second is of one instant. *)
Lemma snapshots_are_of_one_instant_witness :
  exists sn i, token_contract_deal_snapshot id Some "0:D" 0 = (Some (Ok (Some sn)), 12) /\
    0 <= i <= 12 /\ snapshot_at id Some account_of getter_of i sn.
Proof.
  eexists. edestruct (snapshots_are_of_one_instant (W:=Z) id Some "0:D" id account_of getter_of aging_honest aging_pins 0 12)
    as (i & Hi & Hs); [vm_compute; reflexivity|].
  exists i. split; [vm_compute; reflexivity|]. by split.
Defined.
