(* ===== verification/Journal.v ===== *)
(** * Journal: the buyer's durable money record (crates/dexdo/src/cli/buyer.rs)

    Before a buy is posted, the command writes down what it is about to send: the
    identity of the signed message, the terms, the quote and the cursor its fill will be
    looked for from.  The record keeps a second POST from happening until the outcome
    of the first is known, across restarts: a fill, a decoded refusal, or the book's own
    facts about the order.  The desk of one note is any world that has the buyer's chain
    calls, the note's record, its lock and its pool; a record is read as the JSON library
    leaves it, with the schema it declares.  The address parser, the hash of a model's
    name and the identity of a message are parameters. *)
From Stdlib Require Import Ascii.
From S2P Require Import Prelude Text Params Address MarketTypes Accounting Machine MockDeal MockMarket Backend Continuity.
From S2P Require Import Select Buy.

(** ** What a record says *)
Inductive BuyerSubmitIntentKind : Type :=
| LegacyUnknown | Foreground | OnDemand | PolicyNextSeller | ContinuityNextSeller | ContinuityRenewal.
#[export] Instance intent_kind_eq : EqDecision BuyerSubmitIntentKind.
Proof. solve_decision. Defined.
Record BuyerSubmitIntent : Type := mkIntent {
  in_kind : BuyerSubmitIntentKind; in_predecessor : option TokenContract }.
#[export] Instance intent_eq : EqDecision BuyerSubmitIntent.
Proof. solve_decision. Defined.
Record BuyerJournalMatch : Type := mkJournalMatch {
  jm_token_contract : TokenContract; jm_order_id : Z; jm_ticks : Z; jm_clearing_price : Z }.
#[export] Instance journal_match_eq : EqDecision BuyerJournalMatch.
Proof. solve_decision. Defined.
#[export] Instance quote_fill_eq : EqDecision QuoteFill.
Proof. solve_decision. Defined.
#[export] Instance quote_eq : EqDecision ExecutableQuote.
Proof. solve_decision. Defined.
#[export] Instance order_eq : EqDecision OrderBookOrder.
Proof. solve_decision. Defined.

Record BuyerSubmitJournal : Type := mkJournal {
  j_schema : string; j_note_addr : string; j_order_book : string; j_intent : BuyerSubmitIntent;
  j_expected_token_contract : option TokenContract; j_quoted_order : option OrderBookOrder;
  j_quote : ExecutableQuote; j_cursor : MatchWatchCursor; j_ticks : Z; j_max_price_per_tick : Z;
  j_escrow : Z; j_order_id : option Z; j_submit_identity : string; j_created_at_unix : Z;
  j_resolved_match : option BuyerJournalMatch; j_resolved_matches : list BuyerJournalMatch }.
(** The second schema had no order id of the note's own; the first had no intent, one
    resolved match, and always a quoted order. *)
Record BuyerSubmitJournalV2 : Type := mkJournalV2 {
  j2_note_addr : string; j2_order_book : string; j2_intent : BuyerSubmitIntent;
  j2_expected_token_contract : option TokenContract; j2_quoted_order : option OrderBookOrder;
  j2_quote : ExecutableQuote; j2_cursor : MatchWatchCursor; j2_ticks : Z; j2_max_price_per_tick : Z;
  j2_escrow : Z; j2_submit_identity : string; j2_created_at_unix : Z;
  j2_resolved_match : option BuyerJournalMatch; j2_resolved_matches : list BuyerJournalMatch }.
Record BuyerSubmitJournalV1 : Type := mkJournalV1 {
  j1_note_addr : string; j1_order_book : string; j1_expected_token_contract : option TokenContract;
  j1_quoted_order : OrderBookOrder; j1_quote : ExecutableQuote; j1_cursor : MatchWatchCursor;
  j1_ticks : Z; j1_max_price_per_tick : Z; j1_escrow : Z; j1_submit_identity : string;
  j1_created_at_unix : Z; j1_resolved_match : option BuyerJournalMatch }.
Record BuyerSubscriptionSubmitJournal : Type := mkSubscriptionJournal {
  sj_note_addr : string; sj_order_book : string; sj_frame_model : string; sj_model_hash : string;
  sj_max_price_per_tick : Z; sj_ticks : Z; sj_deposit : Z; sj_buyer_bond : Z; sj_escrow : Z;
  sj_flags : Z; sj_deadline : Z; sj_order_id_floor : Z; sj_fill_cursor : MatchWatchCursor;
  sj_submit_identity : string; sj_created_at_unix : Z }.
Inductive BuyerMoneyJournal : Type :=
| BuyJournal (journal : BuyerSubmitJournal)
| SubscriptionJournal (journal : BuyerSubscriptionSubmitJournal).

Definition BUYER_SUBMIT_JOURNAL_SCHEMA : string := "dexdo.buyer.submit.v3".
Definition DEAL_WAIT_SECS : Z := 300.
Definition BUYER_SUBMIT_RECONCILE_POLL_INTERVAL : Z := 100.

(** The bytes of a record, parsed: the schema it declares and the fields that schema has. *)
Inductive JournalDocument : Type :=
| SchemaV3 (journal : BuyerSubmitJournal)
| SchemaV2 (journal : BuyerSubmitJournalV2)
| SchemaV1 (journal : BuyerSubmitJournalV1)
| SubscriptionV2 (journal : BuyerSubscriptionSubmitJournal)
| SubscriptionV1
| OtherSchema (schema : string)
| InvalidDocument.

Definition from_v2 (previous : BuyerSubmitJournalV2) : BuyerSubmitJournal := {|
  j_schema := BUYER_SUBMIT_JOURNAL_SCHEMA; j_note_addr := j2_note_addr previous;
  j_order_book := j2_order_book previous; j_intent := j2_intent previous;
  j_expected_token_contract := j2_expected_token_contract previous;
  j_quoted_order := j2_quoted_order previous; j_quote := j2_quote previous;
  j_cursor := j2_cursor previous; j_ticks := j2_ticks previous;
  j_max_price_per_tick := j2_max_price_per_tick previous; j_escrow := j2_escrow previous;
  j_order_id := None; j_submit_identity := j2_submit_identity previous;
  j_created_at_unix := j2_created_at_unix previous; j_resolved_match := j2_resolved_match previous;
  j_resolved_matches := j2_resolved_matches previous |}.
Definition from_v1 (legacy : BuyerSubmitJournalV1) : BuyerSubmitJournal := {|
  j_schema := BUYER_SUBMIT_JOURNAL_SCHEMA; j_note_addr := j1_note_addr legacy;
  j_order_book := j1_order_book legacy; j_intent := mkIntent LegacyUnknown None;
  j_expected_token_contract := j1_expected_token_contract legacy;
  j_quoted_order := Some (j1_quoted_order legacy); j_quote := j1_quote legacy;
  j_cursor := j1_cursor legacy; j_ticks := j1_ticks legacy;
  j_max_price_per_tick := j1_max_price_per_tick legacy; j_escrow := j1_escrow legacy;
  j_order_id := None; j_submit_identity := j1_submit_identity legacy;
  j_created_at_unix := j1_created_at_unix legacy; j_resolved_match := j1_resolved_match legacy;
  j_resolved_matches := option_list (j1_resolved_match legacy) |}.

(** What a written record is read back as: its addresses go through their adapters. *)
Definition reload_match_record (m : BuyerJournalMatch) : BuyerJournalMatch :=
  mkJournalMatch (reload_tc (jm_token_contract m)) (jm_order_id m) (jm_ticks m) (jm_clearing_price m).
Definition reload_quote_fill (f : QuoteFill) : QuoteFill :=
  mkQuoteFill (qf_order_id f) (reload_tc (qf_token_contract f)) (qf_ticks f) (qf_price_per_tick f) (qf_cost_with_fee f).
Definition reload_quote (q : ExecutableQuote) : ExecutableQuote :=
  mkQuote (eq_filled_ticks q) (eq_total_with_fee q) (eq_complete q) (map reload_quote_fill (eq_fills q)).
Definition reload_intent (i : BuyerSubmitIntent) : BuyerSubmitIntent :=
  mkIntent (in_kind i) (option_map reload_tc (in_predecessor i)).
Definition reload_cursor (c : MatchWatchCursor) : MatchWatchCursor :=
  mkCursor (since_unix c) (last_seen_created_at c) (map reload_tc (seen_token_contracts_at_last_seen c)).
Definition respelled (j : BuyerSubmitJournal) : BuyerSubmitJournal := {|
  j_schema := j_schema j; j_note_addr := reload_note (j_note_addr j); j_order_book := reload_note (j_order_book j);
  j_intent := reload_intent (j_intent j);
  j_expected_token_contract := option_map reload_tc (j_expected_token_contract j);
  j_quoted_order := option_map reload_order (j_quoted_order j); j_quote := reload_quote (j_quote j);
  j_cursor := reload_cursor (j_cursor j); j_ticks := j_ticks j; j_max_price_per_tick := j_max_price_per_tick j;
  j_escrow := j_escrow j; j_order_id := j_order_id j; j_submit_identity := j_submit_identity j; j_created_at_unix := j_created_at_unix j;
  j_resolved_match := option_map reload_match_record (j_resolved_match j);
  j_resolved_matches := map reload_match_record (j_resolved_matches j) |}.
(** A load goes through [serde_json::Value], built without arbitrary precision: a number
    above [u64::MAX] becomes a float there, and no float is read as a [u128].  The
    [u128] fields of a record, and the document the written file is read as. *)
Definition order_numbers (o : OrderBookOrder) : list Z := [ob_order_id o; ob_price_per_tick o; ob_ticks o; ob_escrow o].
Definition quote_numbers (q : ExecutableQuote) : list Z :=
  eq_filled_ticks q :: eq_total_with_fee q
  :: flat_map (fun f => [qf_order_id f; qf_ticks f; qf_price_per_tick f; qf_cost_with_fee f]) (eq_fills q).
Definition match_numbers (m : BuyerJournalMatch) : list Z := [jm_order_id m; jm_ticks m; jm_clearing_price m].
Definition json_numbers (j : BuyerSubmitJournal) : list Z :=
  flat_map order_numbers (option_list (j_quoted_order j)) ++ quote_numbers (j_quote j)
  ++ [j_ticks j; j_max_price_per_tick j; j_escrow j] ++ option_list (j_order_id j)
  ++ flat_map match_numbers (option_list (j_resolved_match j) ++ j_resolved_matches j).
Definition reads_back (j : BuyerSubmitJournal) : bool := forallb (fun n => n <=? U64_MAX) (json_numbers j).
Definition reload_journal (j : BuyerSubmitJournal) : JournalDocument :=
  if reads_back j then SchemaV3 (respelled j) else InvalidDocument.

(** ** What the book says of an order of the note *)
Inductive BuyerOrderFactKind : Type :=
| FactPlaced (order_id price_per_tick ticks deadline : Z)
| FactCancelled (order_id refunded : Z)
| FactExpired (order_id : Z)
| FactRefunded (order_id amount : Z)
| FactRejected (reason refund : Z).
Record BuyerOrderFact : Type := mkOrderFact {
  of_created_at : Z; of_note : string; of_kind : BuyerOrderFactKind }.
Definition fact_order_id (fact : BuyerOrderFact) : option Z :=
  match of_kind fact with
  | FactPlaced order_id _ _ _ | FactCancelled order_id _ | FactExpired order_id | FactRefunded order_id _ => Some order_id
  | FactRejected _ _ => None
  end.
(** A message of the book: when it was made, and what its body decodes to. *)
Record OrderMessage : Type := mkOrderMessage {
  om_at : Z; om_fact : outcome string (option (string * BuyerOrderFactKind)) }.

Inductive EscrowRelease : Type := ProvenByChain | Unproven.
Inductive BuyerSubmitStanding : Type :=
| StandingCancelled (order_id refunded : Z) (release : EscrowRelease)
| StandingRejected (reason refund : Z) (release : EscrowRelease)
| StandingExpired (order_id : Z) (cleared : bool) (release : EscrowRelease)
| StandingResting (order_id deadline : Z) (release : EscrowRelease)
| StandingUnresolved (order_id : option Z) (release : EscrowRelease).
Definition standing_order_id (s : BuyerSubmitStanding) : option Z :=
  match s with
  | StandingCancelled order_id _ _ | StandingExpired order_id _ _ | StandingResting order_id _ _ => Some order_id
  | StandingRejected _ _ _ => None
  | StandingUnresolved order_id _ => order_id
  end.
Definition standing_release (s : BuyerSubmitStanding) : EscrowRelease :=
  match s with
  | StandingCancelled _ _ release | StandingRejected _ _ release | StandingExpired _ _ release
  | StandingResting _ _ release | StandingUnresolved _ release => release
  end.
Definition closes_record (s : BuyerSubmitStanding) : bool :=
  match standing_release s with ProvenByChain => true | Unproven => false end.

Definition printed_number (n : Z) : string := of_text (print_u128 n).
Definition describe (s : BuyerSubmitStanding) (journal : BuyerSubmitJournal) : string :=
  let order_book := of_text (display (to_text (j_order_book journal))) in
  let identity := j_submit_identity journal in
  match s with
  | StandingCancelled order_id refunded _ =>
      "durable buyer submit " ++ identity ++ ": buy order #" ++ printed_number order_id
      ++ " was cancelled in order book " ++ order_book ++ " and refunded " ++ printed_number refunded
  | StandingRejected reason refund _ =>
      "durable buyer submit " ++ identity ++ ": order book " ++ order_book ++ " rejected the order (reason "
      ++ printed_number reason ++ ") and refunded " ++ printed_number refund
  | StandingExpired order_id cleared _ =>
      "your buy order #" ++ printed_number order_id ++ " in order book " ++ order_book ++ " has expired"
      ++ (if cleared then " and was cleared from the book" else "")
      ++ "; the record is kept because expiry alone does not prove where its escrow ended up, and no BOC was sent"
      ++ " (durable buyer submit " ++ identity ++ ")"
  | StandingResting order_id deadline _ =>
      "your buy order #" ++ printed_number order_id ++ " is resting in order book " ++ order_book
      ++ ", not filled (deadline " ++ printed_number deadline ++ "); the record is kept until it fills or you cancel"
      ++ " it with `dexdo orders cancel " ++ printed_number order_id ++ "`, and no BOC was sent (durable buyer submit "
      ++ identity ++ ")"
  | StandingUnresolved (Some order_id) _ =>
      "durable buyer submit " ++ identity ++ " names buy order #" ++ printed_number order_id ++ ", but order book "
      ++ order_book ++ " reports neither a fill nor a cancellation, rejection or expiry for it; journal retained"
      ++ " and no BOC was sent"
  | StandingUnresolved None _ =>
      "durable buyer submit " ++ identity ++ " is unresolved: order book " ++ order_book
      ++ " reports no order for this note since the submit; journal retained and no BOC was sent"
  end%string.

(** The record's own order: its own id once known, or the one placement made since the
    record was written that carries its terms. *)
Definition mine (journal : BuyerSubmitJournal) (fact : BuyerOrderFact) : bool :=
  saturate I64_MAX (j_created_at_unix journal) <=? of_created_at fact.
Definition own_placement (journal : BuyerSubmitJournal) (fact : BuyerOrderFact) : bool :=
  mine journal fact
  && match of_kind fact with
     | FactPlaced _ price_per_tick ticks _ =>
         (price_per_tick =? j_max_price_per_tick journal) && (ticks =? j_ticks journal)
     | _ => false
     end.
Definition own_order_id (journal : BuyerSubmitJournal) (facts : list BuyerOrderFact) : option Z :=
  or_else (j_order_id journal)
    (match List.filter (own_placement journal) facts with
     | [first] => fact_order_id first
     | _ => None
     end).
Definition rejected_standing (fact : BuyerOrderFact) : option BuyerSubmitStanding :=
  match of_kind fact with
  | FactRejected reason refund => Some (StandingRejected reason refund ProvenByChain)
  | _ => None
  end.
Definition refunds (order_id : Z) (fact : BuyerOrderFact) : bool :=
  match of_kind fact with FactRefunded refunded_order_id _ => refunded_order_id =? order_id | _ => false end.
Definition fold_standing (order_id now_unix : Z) (refunded_this_order : bool) (standing : BuyerSubmitStanding)
    (fact : BuyerOrderFact) : BuyerSubmitStanding :=
  match of_kind fact with
  | FactRefunded _ _ => standing
  | FactCancelled _ refunded => StandingCancelled order_id refunded ProvenByChain
  | FactExpired _ => StandingExpired order_id true (if refunded_this_order then ProvenByChain else Unproven)
  | FactPlaced _ _ _ deadline =>
      if negb (deadline =? 0) && (deadline <? now_unix) then StandingExpired order_id false Unproven
      else StandingResting order_id deadline Unproven
  | FactRejected _ _ => StandingUnresolved (Some order_id) Unproven
  end.
Definition names_order (order_id : Z) (fact : BuyerOrderFact) : bool := bool_decide (fact_order_id fact = Some order_id).
Definition classify_buyer_submit_standing (journal : BuyerSubmitJournal) (facts : list BuyerOrderFact)
    (now_unix : Z) : BuyerSubmitStanding :=
  match own_order_id journal facts with
  | None =>
      default (StandingUnresolved None Unproven)
        (head (omap rejected_standing (List.filter (mine journal) facts)))
  | Some order_id =>
      fold_left (fold_standing order_id now_unix (existsb (refunds order_id) facts))
        (List.filter (names_order order_id) facts) (StandingUnresolved (Some order_id) Unproven)
  end.

(** ** Errors of the command *)

(** What the rest of the client reads of an unresolved submit. *)
Inductive BuyerSubmitReconciliationState : Type := FreshUnresolved | DurableUnresolved | RecoveredProven.
Inductive BuyerSubmitReconciliationOrigin : Type := FreshSubmit | DurableJournal.
Record BuyerSubmitRecoveryAnchor : Type := mkAnchor { ra_order_id : Z; ra_token_contract : TokenContract }.
Record BuyerSubmitReconciliation : Type := mkReconciliation {
  br_submit_identity : string; br_recovery_anchor : BuyerSubmitRecoveryAnchor;
  br_state : BuyerSubmitReconciliationState; br_origin : BuyerSubmitReconciliationOrigin }.

(** An [anyhow] error is what the command finds when it walks its chain: a plain message,
    a chain error, a message over another error, or one of the buyer's own types. *)
Inductive BuyerError : Type :=
| Said (message : string)
| OfChain (error : ChainError)
| WithContext (message : string) (error : BuyerError)
| BuyerAlreadyResting (order : string)
| DurableReconciliationError (message : string) (reconciliation : BuyerSubmitReconciliation)
| DealInitError (message : string) (reconciliation : BuyerSubmitReconciliation).
Fixpoint is_ambiguous_submit_error (error : BuyerError) : bool :=
  match error with
  | Said _ | BuyerAlreadyResting _ => false
  | OfChain error => is_ambiguous_submit error
  | WithContext _ error => is_ambiguous_submit_error error
  | DurableReconciliationError _ _ | DealInitError _ _ => true
  end.
Fixpoint money_submit_error_clears_journal (error : BuyerError) : bool :=
  match error with
  | OfChain (MoneySubmitPreparation _) | OfChain (MoneySubmitRejected _) => true
  | WithContext _ error => money_submit_error_clears_journal error
  | _ => false
  end.
(** [{error:#}], less the prefix each class puts before its message. *)
Fixpoint error_text (error : BuyerError) : string :=
  match error with
  | Said message | BuyerAlreadyResting message | DurableReconciliationError message _ | DealInitError message _ => message
  | OfChain error => message_of error
  | WithContext message error => message ++ ": " ++ error_text error
  end%string.

(** The order of a standing described as resting: the word after ["buy order #"]. *)
Fixpoint split_after (pattern t : text) : option text :=
  match strip_prefix pattern t with
  | Some rest => Some rest
  | None => match t with [] => None | _ :: t => split_after pattern t end
  end.
Fixpoint first_word (t : text) : text :=
  match t with
  | [] => []
  | c :: t => if is_ws c then [] else c :: first_word t
  end.
Definition resting_order_already_placed (error : BuyerError) : option string :=
  let message := to_text (error_text error) in
  if negb (contains_text (to_text "is resting in order book") message) then None
  else
    Some (match split_after (to_text "buy order #") message with
          | Some rest => match first_word (trim_start rest) with [] => "?" | word => of_text word end
          | None => "?"
          end)%string.

(** ** Checks of a record *)
Section Checks.
Context (parse_address : string -> option string) (model_hash_for : string -> string).

Definition said {A} (message : string) : outcome BuyerError A := Err (Said message).
Definition saying {A} (r : outcome string A) : outcome BuyerError A := map_err Said r.
Definition parsed (address message : string) : outcome BuyerError string := ok_or (parse_address address) (Said message).

Definition intent_foreground : BuyerSubmitIntent := mkIntent Foreground None.
Definition intent_on_demand : BuyerSubmitIntent := mkIntent OnDemand None.
Definition intent_after (kind : BuyerSubmitIntentKind) (predecessor : string) : BuyerSubmitIntent :=
  mkIntent kind (Some predecessor).
Definition validate_intent (intent : BuyerSubmitIntent) : outcome BuyerError unit :=
  let requires_predecessor :=
    match in_kind intent with PolicyNextSeller | ContinuityNextSeller | ContinuityRenewal => true | _ => false end in
  fail_if negb (Bool.eqb requires_predecessor (bool_decide (is_Some (in_predecessor intent))))
    with Said "buyer submit intent has invalid predecessor presence" in
  match in_predecessor intent with
  | Some predecessor => let* _ := parsed predecessor "buyer submit predecessor TokenContract" in Ok tt
  | None => Ok tt
  end.

Definition IDENTITY_PREFIX : text := to_text "boc-sha256:".
Definition validate_buyer_submit_identity (identity : string) : outcome BuyerError unit :=
  match strip_prefix IDENTITY_PREFIX (to_text identity) with
  | None => said "no BOC identity"
  | Some digest =>
      fail_if negb (length digest =? 64)%nat || negb (forallb is_hexdigit digest) with Said "malformed BOC identity" in
      Ok tt
  end.

(** The quote of a record is the one fill of the order it quotes. *)
Definition validate_quote (quoted_order : OrderBookOrder) (quoted_tc : TokenContract) (journal : BuyerSubmitJournal)
    : outcome BuyerError unit :=
  fail_if negb (is_resting_ask quoted_order) || (ob_ticks quoted_order <? j_ticks journal)
          || (j_max_price_per_tick journal <? ob_price_per_tick quoted_order)
    with Said "quote is not executable for its recorded request" in
  fail_if negb (match eq_fills (j_quote journal) with
     | [fill] =>
         eq_complete (j_quote journal) && (eq_filled_ticks (j_quote journal) =? j_ticks journal)
         && (qf_order_id fill =? ob_order_id quoted_order) && tc_same (qf_token_contract fill) quoted_tc
         && (qf_ticks fill =? j_ticks journal) && (qf_price_per_tick fill =? ob_price_per_tick quoted_order)
         && (qf_cost_with_fee fill =? eq_total_with_fee (j_quote journal))
     | _ => false
     end)
    with Said "executable quote differs from its recorded order/request" in
  Ok tt.
Definition validate_quoted_order (quoted_order : OrderBookOrder) (journal : BuyerSubmitJournal)
    : outcome BuyerError unit :=
  let* quoted_tc := ok_or (ob_token_contract quoted_order) (Said "quote has no TokenContract") in
  let* _ := parsed quoted_tc "quoted TokenContract" in
  let* _ := match j_expected_token_contract journal with
            | Some expected =>
                let* expected := parsed expected "expected TokenContract" in
                fail_if negb (tc_same expected quoted_tc) with Said "expected TokenContract differs from quoted" in Ok tt
            | None => Ok tt
            end in
  validate_quote quoted_order quoted_tc journal.
Definition validate_resting (journal : BuyerSubmitJournal) : outcome BuyerError unit :=
  fail_if bool_decide (is_Some (j_expected_token_contract journal)) || eq_complete (j_quote journal)
          || negb (eq_filled_ticks (j_quote journal) =? 0) || negb (eq_total_with_fee (j_quote journal) =? 0)
          || negb (match eq_fills (j_quote journal) with [] => true | _ => false end)
    with Said "resting buy has contradictory executable-quote facts" in
  Ok tt.
(** Every contract once, in its canonical spelling. *)
Fixpoint validate_resolved (seen : list TokenContract) (matches : list BuyerJournalMatch) : outcome BuyerError unit :=
  match matches with
  | [] => Ok tt
  | resolved :: rest =>
      let* token_contract := parsed (jm_token_contract resolved) "resolved TokenContract" in
      fail_if bool_decide (token_contract ∈ seen) with Said "repeats resolved TokenContract" in
      validate_resolved (token_contract :: seen) rest
  end.
Definition validate_journal (journal : BuyerSubmitJournal) (expected_note_addr : string) : outcome BuyerError unit :=
  fail_if negb (bool_decide (j_schema journal = BUYER_SUBMIT_JOURNAL_SCHEMA))
    with Said "unsupported buyer submit journal schema" in
  let* note_addr := parsed (j_note_addr journal) "buyer submit journal note_addr" in
  fail_if negb (tc_same note_addr expected_note_addr) with Said "buyer submit journal belongs to another note" in
  let* _ := parsed (j_order_book journal) "buyer submit journal order_book" in
  let* _ := validate_intent (j_intent journal) in
  let* _ := saying (check_buy_deposit_headroom (j_escrow journal) (j_ticks journal) (j_max_price_per_tick journal)) in
  let* _ := match j_quoted_order journal with
            | Some quoted_order => validate_quoted_order quoted_order journal
            | None => validate_resting journal
            end in
  let* _ := validate_buyer_submit_identity (j_submit_identity journal) in
  let* _ := match j_resolved_match journal with
            | Some resolved => let* _ := parsed (jm_token_contract resolved) "resolved TokenContract" in Ok tt
            | None => Ok tt
            end in
  let* _ := validate_resolved [] (j_resolved_matches journal) in
  match j_resolved_matches journal, j_resolved_match journal with
  | first :: _, Some resolved =>
      fail_if negb (bool_decide (first = resolved)) with Said "scalar/vector resolved match disagree" in Ok tt
  | _, _ => Ok tt
  end.

(** The terms of a subscription order. *)
Definition validate_price_step (price_per_tick : Z) : outcome BuyerError unit :=
  fail_if price_per_tick =? 0 with Said "price 0 SHELL is invalid" in
  fail_if negb (price_per_tick mod PRICE_STEP =? 0) with Said "price is not a whole number of SHELL a tick" in
  Ok tt.
Definition subscription_order_flags : Z := Z.lor flags.AON flags.SUBSCRIPTION.
Definition validate_subscription_order_terms (max_price_per_tick ticks escrow order_flags deadline created_at_unix : Z)
    : outcome BuyerError SubscriptionBuyReserve :=
  let* _ := validate_price_step max_price_per_tick in
  fail_if negb ((SUBSCRIPTION_WEEKS <=? ticks) && (ticks <=? SUBSCRIPTION_MAX_TICKS))
          || negb (ticks mod SUBSCRIPTION_WEEKS =? 0)
    with Said "subscription ticks are out of range or not divisible by the weeks" in
  let* reserve := saying (check_subscription_buy_reserve escrow ticks max_price_per_tick) in
  fail_if has_flag order_flags flags.SUBSCRIPTION && has_flag order_flags flags.MARKET
    with Said "subscription MARKET orders are unsupported" in
  fail_if negb (order_flags =? subscription_order_flags) with Said "subscription flags must be exactly AON|SUBSCRIPTION" in
  fail_if (deadline =? 0) || (deadline <=? created_at_unix) with Said "subscription deadline must be finite and ahead" in
  Ok reserve.
Definition validate_subscription_fund_split (deposit buyer_bond : Z) (reserve : SubscriptionBuyReserve)
    : outcome BuyerError unit :=
  fail_if negb (deposit =? Accounting.deposit reserve) || negb (buyer_bond =? Accounting.buyer_bond reserve)
    with Said "money split conflicts with total escrow" in
  Ok tt.
Definition validate_subscription_journal (journal : BuyerSubscriptionSubmitJournal) (expected_note_addr : string)
    : outcome BuyerError unit :=
  let* note_addr := parsed (sj_note_addr journal) "buyer subscription journal note_addr" in
  fail_if negb (tc_same note_addr expected_note_addr) with Said "buyer subscription journal belongs to another note" in
  let* _ := parsed (sj_order_book journal) "buyer subscription journal order_book" in
  fail_if bool_decide (trim (to_text (sj_frame_model journal)) = [])
          || negb (eq_ignore_ascii_case (to_text (model_hash_for (sj_frame_model journal))) (to_text (sj_model_hash journal)))
    with Said "buyer subscription journal model identity is inconsistent" in
  let* reserve := validate_subscription_order_terms (sj_max_price_per_tick journal) (sj_ticks journal) (sj_escrow journal)
                    (sj_flags journal) (sj_deadline journal) (sj_created_at_unix journal) in
  let* _ := validate_subscription_fund_split (sj_deposit journal) (sj_buyer_bond journal) reserve in
  validate_buyer_submit_identity (sj_submit_identity journal).

(** [load_buyer_money_journal], once the file was read. *)
Definition money_journal_of (document : JournalDocument) (expected_note_addr : string)
    : outcome BuyerError BuyerMoneyJournal :=
  let buy (journal : BuyerSubmitJournal) :=
    let* _ := validate_journal journal expected_note_addr in Ok (BuyJournal journal) in
  match document with
  | SchemaV3 journal => buy journal
  | SchemaV2 previous => buy (from_v2 previous)
  | SchemaV1 legacy => buy (from_v1 legacy)
  | SubscriptionV2 journal =>
      let* _ := validate_subscription_journal journal expected_note_addr in Ok (SubscriptionJournal journal)
  | SubscriptionV1 => said "legacy buyer subscription submit journal schema is not compatible"
  | OtherSchema _ => said "unsupported buyer money journal schema"
  | InvalidDocument => said "buyer money journal is invalid"
  end.

(** ** Recovery facts *)
Definition buyer_submit_recovery_anchor (journal : BuyerSubmitJournal) : outcome BuyerError BuyerSubmitRecoveryAnchor :=
  let* '(order_id, token_contract) :=
    match j_quoted_order journal with
    | Some order =>
        let* token_contract := ok_or (ob_token_contract order) (Said "buyer recovery anchor has no TokenContract") in
        Ok (ob_order_id order, token_contract)
    | None =>
        match or_else (head (j_resolved_matches journal)) (j_resolved_match journal) with
        | Some matched => Ok (jm_order_id matched, jm_token_contract matched)
        | None => said "buyer resting submit has no matched recovery anchor yet"
        end
    end in
  let* token_contract := parsed token_contract "buyer recovery anchor TokenContract" in
  Ok (mkAnchor order_id token_contract).
Definition buyer_submit_reconciliation (journal : BuyerSubmitJournal) (state : BuyerSubmitReconciliationState)
    (origin : BuyerSubmitReconciliationOrigin) : outcome BuyerError BuyerSubmitReconciliation :=
  let* _ := validate_buyer_submit_identity (j_submit_identity journal) in
  let* anchor := buyer_submit_recovery_anchor journal in
  Ok (mkReconciliation (j_submit_identity journal) anchor state origin).

Record BuyerQuoteSelection : Type := mkSelection {
  se_escrow : Z; se_quote : ExecutableQuote; se_resting_buy : bool; se_quoted_order : option OrderBookOrder }.
Definition ensure_pending_buyer_submit_matches_invocation (pending : BuyerSubmitJournal) (intent : BuyerSubmitIntent)
    (expected_token_contract : option string) (selection : BuyerQuoteSelection) (ticks max_price_per_tick escrow : Z)
    : outcome BuyerError unit :=
  let* expected := match expected_token_contract with
                   | Some address => let* tc := parsed address "buyer restart expected TokenContract" in Ok (Some tc)
                   | None => Ok None
                   end in
  if bool_decide (j_intent pending = intent) && bool_decide (j_expected_token_contract pending = expected)
     && bool_decide (se_quoted_order selection = j_quoted_order pending)
     && bool_decide (se_quote selection = j_quote pending) && (se_escrow selection =? j_escrow pending)
     && (ticks =? j_ticks pending) && (max_price_per_tick =? j_max_price_per_tick pending) && (escrow =? j_escrow pending)
  then Ok tt
  else Err (OfChain (AmbiguousSubmit "durable buyer submit belongs to a different logical invocation")).
Definition durable_buyer_submit_reconciliation_error (error : BuyerError) (journal : BuyerSubmitJournal) : BuyerError :=
  if negb (is_ambiguous_submit_error error) then error
  else
    match buyer_submit_reconciliation journal DurableUnresolved DurableJournal with
    | Ok reconciliation => DurableReconciliationError (error_text error) reconciliation
    | Err _ | Panic => WithContext "could not preserve durable buyer submit recovery facts" error
    end.

(** ** Fills of a record *)
Definition journal_match (fill : MatchedFill) : BuyerJournalMatch :=
  mkJournalMatch (mf_token_contract fill) (mf_order_id fill) (mf_ticks fill) (mf_price_per_tick fill).
Definition fill_of_match (matched : BuyerJournalMatch) : MatchedFill :=
  mkMatchedFill (jm_order_id matched) (jm_token_contract matched) (jm_ticks matched) (jm_clearing_price matched).
Definition matching_fills (journal : BuyerSubmitJournal) (fills : list MatchedFill) : list MatchedFill :=
  List.filter (fun fill => is_ok (correlated_buy_token_contract fill (head (eq_fills (j_quote journal)))
                                    (j_ticks journal) (j_max_price_per_tick journal))) fills.

(** The facts of one note among the messages of a book. *)
Fixpoint facts_of (buyer_note : string) (messages : list OrderMessage) : outcome ChainError (list BuyerOrderFact) :=
  match messages with
  | [] => Ok []
  | message :: rest =>
      fail_if I64_MAX <? om_at message with Chain "InferenceOrderBook ext-out created_at exceeds i64" in
      match om_fact message with
      | Ok None => facts_of buyer_note rest
      | Ok (Some (note, kind)) =>
          let* owner := ok_or (parse_address note) (Chain "InferenceOrderBook event note") in
          let* facts := facts_of buyer_note rest in
          Ok (if tc_same owner buyer_note then mkOrderFact (om_at message) owner kind :: facts else facts)
      | Err e => Err (Chain "decode order event body")
      | Panic => Panic
      end
  end.
End Checks.

(** ** The desk of one note *)

(** What the caller hears of a submit before its fill is known. *)
Record BuyerSubmitProgress : Type := mkProgress {
  bp_reconciled_ambiguous_submit : bool; bp_submit_reconciliation : option BuyerSubmitReconciliation }.
(** [md_unix_now] is 0 before the epoch; [md_order_book] is the address derived from the
    model; [md_pool_ready] finds the note in its pool and [md_pool_record] adds a deal to
    it; [md_lock true] also takes over from a holder that is provably gone.  A file
    call that fails says so; [md_remove] is content with a file that is not there. *)
Class MoneyDesk (W : Type) : Type := {
  md_unix_now : W -> Z;
  md_order_book : W -> option string;
  md_pool_ready : string -> W -> outcome string unit * W;
  md_pool_record : string -> TokenContract -> W -> outcome string unit * W;
  md_lock : bool -> W -> outcome string unit * W;
  md_unlock : W -> W;
  md_read : W -> outcome string (option JournalDocument) * W;
  md_write : BuyerSubmitJournal -> W -> outcome string unit * W;
  md_remove : W -> outcome string unit * W;
  md_order_messages : string -> W -> outcome ChainError (list OrderMessage) * W;
  md_observed : BuyerSubmitProgress -> W -> outcome string unit * W
}.

(** A command over a state: it ends with a value, an error or a panic, or without fuel. *)
Definition money (S A : Type) : Type := S -> option (outcome BuyerError A) * S.
#[export] Instance money_ret {S} : MRet (money S) := fun A a s => (Some (Ok a), s).
#[export] Instance money_bind {S} : MBind (money S) := fun A B k m s =>
  match m s with
  | (Some (Ok a), s') => k a s'
  | (Some (Err e), s') => (Some (Err e), s')
  | (Some Panic, s') => (Some Panic, s')
  | (None, s') => (None, s')
  end.
Definition fails {S A} (e : BuyerError) : money S A := fun s => (Some (Err e), s).
Definition unreachable {S A} : money S A := fun s => (Some Panic, s).
Definition starved {S A} : money S A := fun s => (None, s).
Definition from_outcome {S A} (r : outcome BuyerError A) : money S A := fun s => (Some r, s).
Definition asks {S A} (f : S -> A) : money S A := fun s => (Some (Ok (f s)), s).
(** A program of the chain client, its error named by the command. *)
Definition from_prog {S A} (f : ChainError -> BuyerError) (m : prog S A) : money S A := fun s =>
  let '(r, s') := m s in (option_map (map_err f) r, s').
(** The result of a command as a value. *)
Definition tries_to {S A} (m : money S A) : money S (outcome BuyerError A) := fun s =>
  match m s with
  | (Some Panic, s') => (Some Panic, s')
  | (Some r, s') => (Some (Ok r), s')
  | (None, s') => (None, s')
  end.
(** [map_err] on a command. *)
Definition mapping_error {S A} (f : BuyerError -> BuyerError) (m : money S A) : money S A := fun s =>
  let '(r, s') := m s in (option_map (map_err f) r, s').
Definition ambiguous (message : string) : BuyerError := OfChain (AmbiguousSubmit message).

Section Desk.
Context (parse_address : string -> option string) (money_submit_identity : string -> string).
Context (model_hash_for : string -> string).
Context {W : Type} `{HB : BuyChain W} `{HC : Clock W} `{HM : MoneyDesk W}.
Abbreviation desk := (BuyState W).

Definition on_desk {A} (f : W -> outcome string A * W) : money desk A := fun s =>
  let '(r, w) := f (bs_chain s) in (Some (saying r), mkBuyState (bs_pending s) (bs_cursor s) w).
Definition unix_now_secs : money desk Z := asks (fun s => md_unix_now (bs_chain s)).
Definition canonical_address (address message : string) : money desk string := from_outcome (parsed parse_address address message).

(** ** The record on disk *)
Definition load_buyer_money_journal (expected_note_addr : string) : money desk (option BuyerMoneyJournal) :=
  document ← on_desk md_read;
  match document with
  | None => mret None
  | Some document =>
      journal ← from_outcome (money_journal_of parse_address model_hash_for document expected_note_addr);
      mret (Some journal)
  end.
Definition load_buyer_submit_journal (expected_note_addr : string) : money desk (option BuyerSubmitJournal) :=
  journal ← load_buyer_money_journal expected_note_addr;
  match journal with
  | None => mret None
  | Some (BuyJournal journal) => mret (Some journal)
  | Some (SubscriptionJournal _) => fails (Said "buyer note has unresolved subscription submit")
  end.
Definition write_buyer_submit_journal (journal : BuyerSubmitJournal) (w : W) : outcome BuyerError unit * W :=
  match validate_journal parse_address journal (j_note_addr journal) with
  | Ok _ => let '(r, w') := md_write journal w in (saying r, w')
  | r => (r, w)
  end.
Definition write_journal (journal : BuyerSubmitJournal) : money desk unit := fun s =>
  let '(r, w) := write_buyer_submit_journal journal (bs_chain s) in (Some r, mkBuyState (bs_pending s) (bs_cursor s) w).
Definition clear_buyer_submit_journal : money desk unit := on_desk md_remove.

(** The money lock of the note, for as long as the command runs. *)
Definition releasing {A} (m : money desk A) : money desk A := fun s =>
  let '(r, s') := m s in (r, mkBuyState (bs_pending s') (bs_cursor s') (md_unlock (bs_chain s'))).
Definition with_money_lock {A} (recovery : bool) (note_addr : option string) (body : string -> money desk A)
    : money desk A :=
  note_addr ← from_outcome (ok_or note_addr (Said "buyer money submit requires --note-addr before locking"));
  note ← canonical_address note_addr "buyer note money lock address";
  on_desk (md_lock recovery);;
  releasing (body note).

(** ** The submit *)
Definition set_identity (journal : BuyerSubmitJournal) (submit_identity : string) (cursor : MatchWatchCursor)
    : BuyerSubmitJournal :=
  mkJournal (j_schema journal) (j_note_addr journal) (j_order_book journal) (j_intent journal)
    (j_expected_token_contract journal) (j_quoted_order journal) (j_quote journal) cursor (j_ticks journal)
    (j_max_price_per_tick journal) (j_escrow journal) (j_order_id journal) submit_identity
    (j_created_at_unix journal) (j_resolved_match journal) (j_resolved_matches journal).
(** The callback: the balance covers the reserve, and the record is on disk. *)
Definition before_post (template : BuyerSubmitJournal) (identity : string) (final_cursor : MatchWatchCursor)
    (note_shell_balance : Z) : prog W unit :=
  let! reserve := of_outcome (as_chain (ordinary_buy_reserve (j_ticks template) (j_max_price_per_tick template))) in
  if note_shell_balance <? total_escrow reserve then throw (Chain "buyer preflight failed: insufficient Note SHELL balance")
  else
    lift (fun w =>
      let '(r, w') := write_buyer_submit_journal (set_identity template identity final_cursor) w in
      (map_err (fun _ => Chain "persist buyer submit journal before POST; no BOC was sent") r, w')).
Definition template_of (canonical_note order_book : string) (intent : BuyerSubmitIntent)
    (expected : option TokenContract) (selection : BuyerQuoteSelection) (ticks max_price_per_tick escrow now : Z)
    : BuyerSubmitJournal := {|
  j_schema := BUYER_SUBMIT_JOURNAL_SCHEMA; j_note_addr := canonical_note; j_order_book := order_book; j_intent := intent;
  j_expected_token_contract := expected; j_quoted_order := se_quoted_order selection; j_quote := se_quote selection;
  j_cursor := cursor_new 0; j_ticks := ticks; j_max_price_per_tick := max_price_per_tick; j_escrow := escrow;
  j_order_id := None; j_submit_identity := EmptyString; j_created_at_unix := now; j_resolved_match := None;
  j_resolved_matches := [] |}.
Definition place_quote_bound_buy_with_journal (me : RealBuyerBackend) (intent : BuyerSubmitIntent)
    (expected_token_contract : option string) (selection : BuyerQuoteSelection) (ticks max_price_per_tick escrow : Z)
    (note_addr : string) : money desk unit :=
  order_book ← asks (fun s => md_order_book (bs_chain s));
  order_book ← from_outcome (ok_or order_book (Said "no canonical model order-book identity; no BOC was sent"));
  canonical_note ← canonical_address note_addr "buyer submit journal note address";
  expected ← match expected_token_contract with
             | Some address => tc ← canonical_address address "buyer submit journal expected TokenContract"; mret (Some tc)
             | None => mret None
             end;
  now ← unix_now_secs;
  from_prog OfChain
    (set_cursor (cursor_new 0) >>!
     place_buy_by_model_with_submit_identity parse_address money_submit_identity me (se_quoted_order selection)
       ticks max_price_per_tick escrow
       (before_post (template_of canonical_note order_book intent expected selection ticks max_price_per_tick escrow now))).

(** ** The outcome of a submit *)
Definition set_resolved (journal : BuyerSubmitJournal) (first : BuyerJournalMatch) (matches : list BuyerJournalMatch)
    : BuyerSubmitJournal :=
  mkJournal (j_schema journal) (j_note_addr journal) (j_order_book journal) (j_intent journal)
    (j_expected_token_contract journal) (j_quoted_order journal) (j_quote journal) (j_cursor journal) (j_ticks journal)
    (j_max_price_per_tick journal) (j_escrow journal) (j_order_id journal) (j_submit_identity journal)
    (j_created_at_unix journal) (Some first) matches.
Definition set_order_id (journal : BuyerSubmitJournal) (order_id : Z) : BuyerSubmitJournal :=
  mkJournal (j_schema journal) (j_note_addr journal) (j_order_book journal) (j_intent journal)
    (j_expected_token_contract journal) (j_quoted_order journal) (j_quote journal) (j_cursor journal) (j_ticks journal)
    (j_max_price_per_tick journal) (j_escrow journal) (Some order_id) (j_submit_identity journal)
    (j_created_at_unix journal) (j_resolved_match journal) (j_resolved_matches journal).
Fixpoint record_in_pool (note_addr : string) (matches : list BuyerJournalMatch) : money desk unit :=
  match matches with
  | [] => mret tt
  | matched :: rest => on_desk (md_pool_record note_addr (jm_token_contract matched));; record_in_pool note_addr rest
  end.
Definition persist_resolved_buyer_submits (note_addr : string) (matches : list BuyerJournalMatch) : money desk unit :=
  match matches with
  | [] => fails (Said "cannot persist an empty buyer submit reconciliation")
  | first :: _ =>
      journal ← load_buyer_submit_journal note_addr;
      journal ← from_outcome (ok_or journal (Said "buyer submit journal disappeared after money moved"));
      write_journal (set_resolved journal first matches);;
      record_in_pool note_addr matches
  end.
Definition persist_buyer_submit_order_id (note_addr : string) (order_id : Z) : money desk unit :=
  journal ← load_buyer_submit_journal note_addr;
  match journal with
  | None => mret tt
  | Some journal =>
      if bool_decide (j_order_id journal = Some order_id) then mret tt
      else write_journal (set_order_id journal order_id)
  end.
Definition reported_match_state (token_contract : TokenContract) : prog W MatchedTokenContractStatus :=
  let! tc := of_outcome (parse_tc parse_address token_contract) in
  let! state := lift (by_deal_state tc) in
  let! state := of_outcome (ok_or state (Chain "reported match has no readable TokenContract state")) in
  fun w => (Some (as_chain (check_matched_token_contract_state state (md_unix_now w) MATCH_OPEN_TIMEOUT_SECS)), w).
Definition validate_reported_match_state (token_contract : TokenContract) : prog desk MatchedTokenContractStatus :=
  on_chain (reported_match_state token_contract).

(** The fill a quoted order would be filled as. *)
Definition quoted_fill (order : OrderBookOrder) (ticks : Z) : option QuoteFill :=
  option_map (fun tc => mkQuoteFill (ob_order_id order) tc ticks (ob_price_per_tick order) 0) (ob_token_contract order).
Definition complete_buyer_submit_with_journal (fuel : nat) (quoted_order : option OrderBookOrder)
    (ticks max_price_per_tick : Z) (submit_result : outcome BuyerError unit) (note_addr : string)
    : money desk (TokenContract * MatchedTokenContractStatus) :=
  match submit_result with
  | Err error =>
      if money_submit_error_clears_journal error then clear_buyer_submit_journal;; fails error
      else if is_ambiguous_submit_error error then mret tt
      else fails (ambiguous ("unclassified money submit outcome; journal retained and no resubmit is safe: " ++ error_text error))
  | _ => mret tt
  end;;
  fill ← from_prog (fun error => ambiguous ("its MatchedFill is not yet provable; journal retained: " ++ message_of error))
           (wait_matched_token_contract parse_address fuel 0 (DEAL_WAIT_SECS * 1000));
  fill ← from_outcome (ok_or fill (ambiguous "buyer money POST returned no MatchedFill; journal retained"));
  token_contract ← from_outcome (map_err (fun error => ambiguous ("could not be correlated; journal retained: " ++ message_of error))
                     (correlated_buy_token_contract fill (quoted_order ≫= fun order => quoted_fill order ticks)
                        ticks max_price_per_tick));
  mapping_error (fun error => ambiguous ("could not be persisted; journal retained: " ++ error_text error))
    (persist_resolved_buyer_submits note_addr [journal_match fill]);;
  status ← from_prog (fun error => ambiguous ("state is not yet provable; journal retained: " ++ message_of error))
             (validate_reported_match_state token_contract);
  clear_buyer_submit_journal;;
  mret (token_contract, status).

(** ** Reconciling a record *)
Definition buyer_order_facts_for_note (order_book buyer_note : string) : prog desk (list BuyerOrderFact) :=
  let! ob := of_outcome (ok_or (parse_address order_book) (Chain "buyer order recovery has invalid InferenceOrderBook address")) in
  let! note := of_outcome (ok_or (parse_address buyer_note) (Chain "buyer order recovery has invalid buyer note address")) in
  let! messages := on_chain (lift (md_order_messages ob)) in
  of_outcome (facts_of parse_address note messages).
Definition persist_standing_order_id (note_addr : string) (standing : BuyerSubmitStanding) : money desk unit :=
  match standing_order_id standing with
  | Some order_id => persist_buyer_submit_order_id note_addr order_id
  | None => mret tt
  end.
Definition resolve_unfilled_buyer_submit (note_addr : string) (journal : BuyerSubmitJournal)
    : money desk (option (TokenContract * MatchedTokenContractStatus)) :=
  facts ← from_prog (fun error => ambiguous ("could not read order book outcomes; journal retained and no BOC was sent: "
                                             ++ message_of error))
            (buyer_order_facts_for_note (j_order_book journal) note_addr);
  now ← unix_now_secs;
  let standing := classify_buyer_submit_standing journal facts now in
  persist_standing_order_id note_addr standing;;
  if closes_record standing then clear_buyer_submit_journal;; mret None
  else fails (ambiguous (describe standing journal)).

(** The fills of a record: those it already knows, or those the note reports, polled
    while the caller has time. *)
Fixpoint poll_fills (fuel : nat) (order_book : string) (cursor : MatchWatchCursor) (wait : option Z) (started : Z)
    : money desk (list MatchedFill) :=
  match fuel with
  | O => starved
  | S fuel =>
      '(fills, cursor) ← from_prog (fun error => match error with
                           | Transport _ => OfChain error
                           | _ => ambiguous ("could not reconcile durable buyer submit; journal retained: " ++ message_of error)
                           end) (on_chain (poll_matched_model_buys_for_order_book parse_address order_book cursor));
      match fills with
      | _ :: _ => mret fills
      | [] =>
          match wait with
          | None => mret []
          | Some timeout =>
              now ← asks (fun s => clock_now (bs_chain s));
              if timeout <=? now - started then mret []
              else
                from_prog OfChain (on_chain (run (sleep BUYER_SUBMIT_RECONCILE_POLL_INTERVAL)));;
                poll_fills fuel order_book cursor wait started
          end
      end
  end.
Definition reconcile_fills (note_addr : string) (journal : BuyerSubmitJournal) (fills : list MatchedFill)
    : money desk (option (TokenContract * MatchedTokenContractStatus)) :=
  let matching := matching_fills journal fills in
  match matching with
  | [] => mret tt
  | _ :: _ => persist_resolved_buyer_submits note_addr (map journal_match matching)
  end;;
  match matching with
  | [fill] =>
      status ← from_prog OfChain (validate_reported_match_state (mf_token_contract fill));
      mret (Some (mf_token_contract fill, status))
  | _ => fails (ambiguous "durable buyer submit produced several or no correlated fills; journal retained")
  end.
Definition reconcile_pending_buyer_submit (fuel : nat) (note_addr : string) (wait : option Z)
    : money desk (option (TokenContract * MatchedTokenContractStatus)) :=
  journal ← load_buyer_submit_journal note_addr;
  match journal with
  | None => mret None
  | Some journal =>
      match j_resolved_matches journal with
      | _ :: _ => reconcile_fills note_addr journal (map fill_of_match (j_resolved_matches journal))
      | [] =>
          started ← asks (fun s => clock_now (bs_chain s));
          fills ← poll_fills fuel (j_order_book journal) (j_cursor journal) wait started;
          match fills with
          | [] => resolve_unfilled_buyer_submit note_addr journal
          | _ :: _ => reconcile_fills note_addr journal fills
          end
      end
  end.

(** ** One invocation *)
Record BuyerJournalResumeProof : Type := mkResumeProof {
  rp_submit_reconciliation : BuyerSubmitReconciliation; rp_ticks : Z; rp_max_price_per_tick : Z; rp_escrow : Z }.
Definition resume_proof_from_journal (journal : BuyerSubmitJournal) : outcome BuyerError BuyerJournalResumeProof :=
  let* reconciliation := buyer_submit_reconciliation parse_address journal RecoveredProven DurableJournal in
  Ok (mkResumeProof reconciliation (j_ticks journal) (j_max_price_per_tick journal) (j_escrow journal)).
Inductive DurableBuyerSubmitStart : Type :=
| Submitted (result : outcome BuyerError unit)
| Reconciled (proof : BuyerJournalResumeProof) (token_contract : TokenContract) (status : MatchedTokenContractStatus)
| Closed (submit_identity : string).
Record BuyerQuoteSubmitOutcome : Type := mkSubmitOutcome {
  qo_token_contract : TokenContract; qo_status : MatchedTokenContractStatus; qo_ticks : Z; qo_max_price_per_tick : Z;
  qo_escrow : Z; qo_submit_reconciliation : option BuyerSubmitReconciliation }.

(** What an invocation asks for. *)
Record Invocation : Type := mkInvocation {
  iv_intent : BuyerSubmitIntent; iv_expected_token_contract : option string; iv_ticks : Z;
  iv_max_price_per_tick : Z; iv_escrow : Z }.

Definition resume_error (pending : BuyerSubmitJournal) (error : BuyerError) : BuyerError :=
  match resting_order_already_placed error with
  | Some resting => BuyerAlreadyResting resting
  | None => durable_buyer_submit_reconciliation_error parse_address error pending
  end.
Definition resume_pending (fuel : nat) (inv : Invocation) (selection : BuyerQuoteSelection) (note_addr : string)
    (pending : BuyerSubmitJournal) : money desk DurableBuyerSubmitStart :=
  if bool_decide (in_kind (j_intent pending) = LegacyUnknown) then
    reconcile_pending_buyer_submit fuel note_addr None;;
    left ← load_buyer_submit_journal note_addr;
    match left with
    | None => mret (Closed (j_submit_identity pending))
    | Some _ => fails (ambiguous "legacy durable buyer submit was reconciled for facts but cannot be adopted as a fresh intent")
    end
  else
    current ← asks (fun s => md_order_book (bs_chain s));
    current ← from_outcome (ok_or current (Said "no canonical model order-book identity; no BOC was sent"));
    if negb (tc_same (j_order_book pending) current)
    then fails (ambiguous "durable buyer submit belongs to another order book; no chain read or new BOC was performed")
    else
      from_outcome (ensure_pending_buyer_submit_matches_invocation parse_address pending (iv_intent inv)
        (iv_expected_token_contract inv) selection (iv_ticks inv) (iv_max_price_per_tick inv) (iv_escrow inv));;
      reconciled ← mapping_error (resume_error pending) (reconcile_pending_buyer_submit fuel note_addr None);
      match reconciled with
      | Some (token_contract, status) =>
          proof ← from_outcome (resume_proof_from_journal pending);
          mret (Reconciled proof token_contract status)
      | None => mret (Closed (j_submit_identity pending))
      end.
Definition start_durable_buyer_submit (fuel : nat) (me : RealBuyerBackend) (inv : Invocation)
    (selection : BuyerQuoteSelection) (note_addr : string) : money desk DurableBuyerSubmitStart :=
  from_outcome (validate_intent parse_address (iv_intent inv));;
  pending ← load_buyer_submit_journal note_addr;
  match pending with
  | Some pending => resume_pending fuel inv selection note_addr pending
  | None =>
      on_desk (md_pool_ready note_addr);;
      result ← tries_to (place_quote_bound_buy_with_journal me (iv_intent inv) (iv_expected_token_contract inv) selection
                 (iv_ticks inv) (iv_max_price_per_tick inv) (iv_escrow inv) note_addr);
      mret (Submitted result)
  end.

Definition submitted_reconciliation (note_addr : string) (result : outcome BuyerError unit)
    : money desk (option BuyerSubmitReconciliation) :=
  match result with
  | Err error =>
      if is_ambiguous_submit_error error then
        journal ← load_buyer_submit_journal note_addr;
        journal ← from_outcome (ok_or journal (Said "buyer submit journal disappeared after an ambiguous money submit"));
        reconciliation ← from_outcome (buyer_submit_reconciliation parse_address journal FreshUnresolved FreshSubmit);
        mret (Some reconciliation)
      else mret None
  | _ => mret None
  end.
Definition finish_submitted (fuel : nat) (inv : Invocation) (selection : BuyerQuoteSelection) (note_addr : string)
    (result : outcome BuyerError unit) : money desk BuyerQuoteSubmitOutcome :=
  reconciliation ← submitted_reconciliation note_addr result;
  on_desk (md_observed (mkProgress (match result with Err error => is_ambiguous_submit_error error | _ => false end)
                          reconciliation));;
  match in_kind (iv_intent inv), reconciliation with
  | OnDemand, Some reconciliation =>
      fails (DealInitError "ambiguous submit; durable journal retained -- resume without creating a fresh BOC" reconciliation)
  | _, _ =>
      '(token_contract, status) ← complete_buyer_submit_with_journal fuel (se_quoted_order selection) (iv_ticks inv)
        (iv_max_price_per_tick inv) result note_addr;
      mret (mkSubmitOutcome token_contract status (iv_ticks inv) (iv_max_price_per_tick inv) (iv_escrow inv) reconciliation)
  end.
Definition resumed_outcome (proof : BuyerJournalResumeProof) (token_contract : TokenContract)
    (status : MatchedTokenContractStatus) : BuyerQuoteSubmitOutcome :=
  mkSubmitOutcome token_contract status (rp_ticks proof) (rp_max_price_per_tick proof) (rp_escrow proof)
    (Some (rp_submit_reconciliation proof)).
Definition finish_started (fuel : nat) (inv : Invocation) (selection : BuyerQuoteSelection) (note_addr : string)
    (start : DurableBuyerSubmitStart) : money desk BuyerQuoteSubmitOutcome :=
  match start with
  | Closed _ => fails (Said "durable buyer submit was closed but a pending record reappeared; no BOC was sent")
  | Reconciled proof token_contract status =>
      on_desk (md_observed (mkProgress true (Some (rp_submit_reconciliation proof))));;
      mret (resumed_outcome proof token_contract status)
  | Submitted result => finish_submitted fuel inv selection note_addr result
  end.
(** The real chain's half: a closed record is closed once, and then the buy is placed. *)
Definition execute_buyer_quote_submit (fuel : nat) (me : RealBuyerBackend) (note_addr : option string) (inv : Invocation)
    (selection : BuyerQuoteSelection) : money desk BuyerQuoteSubmitOutcome :=
  with_money_lock false note_addr (fun note =>
    start ← start_durable_buyer_submit fuel me inv selection note;
    start ← match start with
            | Closed _ => start_durable_buyer_submit fuel me inv selection note
            | start => mret start
            end;
    finish_started fuel inv selection note start).

(** ** Recovery without a new buy *)
Definition pending_selection (pending : BuyerSubmitJournal) : BuyerQuoteSelection :=
  mkSelection (j_escrow pending) (j_quote pending) (bool_decide (j_quoted_order pending = None)) (j_quoted_order pending).
(** A pending record's own quote, for the invocation that made it. *)
Definition pending_buyer_submit_selection (note_addr : string) (inv : Invocation) : money desk (option BuyerQuoteSelection) :=
  pending ← load_buyer_submit_journal note_addr;
  match pending with
  | None => mret None
  | Some pending =>
      if bool_decide (in_kind (j_intent pending) = LegacyUnknown)
      then fails (ambiguous "legacy durable buyer submit cannot be adopted as a fresh intent; no BOC was sent")
      else
        from_outcome (ensure_pending_buyer_submit_matches_invocation parse_address pending (iv_intent inv)
          (iv_expected_token_contract inv) (pending_selection pending) (iv_ticks inv) (iv_max_price_per_tick inv) (iv_escrow inv));;
        mret (Some (pending_selection pending))
  end.
Definition raise_pending_buyer_money_before_fresh_reads (fuel : nat) (me : RealBuyerBackend) (note_addr : option string)
    (inv : Invocation) (recovery : bool) : money desk (option BuyerQuoteSubmitOutcome) :=
  with_money_lock recovery note_addr (fun note =>
    journal ← load_buyer_money_journal note;
    match journal with
    | None => mret None
    | Some (SubscriptionJournal _) => fails (Said "buyer note has unresolved subscription submit")
    | Some (BuyJournal pending) =>
        start ← start_durable_buyer_submit fuel me inv (pending_selection pending) note;
        match start with
        | Reconciled proof token_contract status => mret (Some (resumed_outcome proof token_contract status))
        | Closed _ => mret None
        | Submitted _ => unreachable
        end
    end).

(** After the deal is adopted its record has done its work. *)
Definition resolved_to (journal : BuyerSubmitJournal) (token_contract : TokenContract) : bool :=
  existsb (fun matched => tc_same (jm_token_contract matched) token_contract)
    (j_resolved_matches journal ++ option_list (j_resolved_match journal)).
Definition clear_adopted_buyer_money_journal (note_addr : option string) (submit_identity : option string)
    (token_contract : TokenContract) : money desk unit :=
  match submit_identity with
  | None => mret tt
  | Some submit_identity =>
      with_money_lock false note_addr (fun note =>
        journal ← load_buyer_submit_journal note;
        journal ← from_outcome (ok_or journal (Said "adopted buyer journal disappeared before service start"));
        if negb (bool_decide (j_submit_identity journal = submit_identity)) || negb (resolved_to journal token_contract)
        then fails (Said "adopted buyer journal changed before service start; refusing to clear it")
        else clear_buyer_submit_journal)
  end.

(** The operator's recovery of one record: closed by one fill of its terms, or by what
    the book proves of its order.  The record's own note of fills is not asked. *)
Definition close_by_facts (note_addr : string) (journal : BuyerSubmitJournal) : money desk unit :=
  facts ← from_prog (fun error => Said ("cancellation/rejection is unproven; journal retained: " ++ message_of error))
            (buyer_order_facts_for_note (j_order_book journal) note_addr);
  now ← unix_now_secs;
  let standing := classify_buyer_submit_standing journal facts now in
  persist_standing_order_id note_addr standing;;
  if negb (closes_record standing) then fails (Said ("refusing to close buyer submit journal: " ++ describe standing journal))
  else
    match standing with
    | StandingResting _ _ _ | StandingUnresolved _ _ => unreachable
    | _ => clear_buyer_submit_journal
    end.
Definition run_buyer_submit_journal (note_addr : string) : money desk unit :=
  with_money_lock true (Some note_addr) (fun _ =>
    journal ← load_buyer_submit_journal note_addr;
    match journal with
    | None => mret tt
    | Some journal =>
        canonical_address note_addr "--note-addr";;
        order_book ← canonical_address (j_order_book journal) "buyer submit journal order book";
        '(fills, _) ← from_prog (fun error => Said ("a terminal fill is unproven; journal retained: " ++ message_of error))
          (on_chain (poll_inference_filled_tcs parse_address order_book (j_cursor journal)));
        match matching_fills journal fills with
        | [_] => clear_buyer_submit_journal
        | _ :: _ :: _ => fails (Said "a unique terminal fill is unproven; journal retained")
        | [] => close_by_facts note_addr journal
        end
    end).
End Desk.
