(* ===== verification/JournalSafety.v ===== *)
(** * JournalSafety: what the money record guards

    A traced desk records the posts, the reads they rest on and every access to the
    record's file.  A trace is lawful when each post is over a record just written where
    none was, each later write keeps the record's terms, and each removal comes after
    what closes the record; the commands keep their traces lawful, and they end. *)
From S2P Require Import Prelude Text Params Address MarketTypes Accounting Machine MockDeal MockMarket Backend Continuity Offer.
From S2P Require Import Trace Select Buy BuySafety BuySpec BuyDurable Journal.

Inductive MoneyCall : Type :=
| MPost (boc : string) (answer : outcome ChainError unit)
| MBook (answer : outcome ChainError string)
| MMessages (answer : outcome ChainError (list NoteMessage))
| MState (tc : TokenContract) (answer : outcome ChainError (option DealChainState))
| MOrders (order_book : string) (answer : outcome ChainError (list OrderMessage))
| MRead (answer : outcome string (option JournalDocument))
| MWrite (journal : BuyerSubmitJournal) (answer : outcome string unit)
| MRemove (answer : outcome string unit).

#[export] Instance traced_money_buys {W} `{BuyChain W} : BuyChain (traced W MoneyCall) := {|
  by_unix_now w := by_unix_now (fst w);
  by_chain_time := silent by_chain_time;
  by_book := silent by_book;
  by_deal_state tc := entered (MState tc) (by_deal_state tc);
  by_subscription tc := silent (by_subscription tc);
  by_account_active tc := silent (by_account_active tc);
  by_balance tc := silent (by_balance tc);
  by_max_ticks tc := silent (by_max_ticks tc);
  by_owner_matches := silent by_owner_matches;
  by_note_details := silent by_note_details;
  by_note_ecc := silent by_note_ecc;
  by_note_shell := silent by_note_shell;
  by_book_address := entered MBook by_book_address;
  by_note_messages := entered MMessages by_note_messages;
  by_sign order := silent (by_sign order);
  by_route boc := silent (by_route boc);
  by_post boc := entered (MPost boc) (by_post boc);
  by_post_money boc := entered (MPost boc) (by_post_money boc);
  by_settle_week tc := silent (by_settle_week tc) |}.
#[export] Instance traced_desk {W} `{MoneyDesk W} : MoneyDesk (traced W MoneyCall) := {|
  md_unix_now w := md_unix_now (fst w);
  md_order_book w := md_order_book (fst w);
  md_pool_ready note := silent (md_pool_ready note);
  md_pool_record note tc := silent (md_pool_record note tc);
  md_lock recovery := silent (md_lock recovery);
  md_unlock w := (md_unlock (fst w), snd w);
  md_read := entered MRead md_read;
  md_write j := entered (MWrite j) (md_write j);
  md_remove := entered MRemove md_remove;
  md_order_messages ob := entered (MOrders ob) (md_order_messages ob);
  md_observed progress := silent (md_observed progress) |}.

#[export] Instance money_posting : Posting MoneyCall := fun c => match c with MPost _ _ => true | _ => false end.
(** Reads of the chain. *)
Definition plain (c : MoneyCall) : bool :=
  match c with MBook _ | MMessages _ | MState _ _ | MOrders _ _ => true | _ => false end.
#[export] Instance quiet_money {W} `{BuyChain W} : QuietBuys (S:=traced W MoneyCall) snd plain.
Proof. constructor; intros; first [apply learns_silent | eapply learns_weak, learns_entered; done]. Qed.

(** ** Lawful traces *)

(** What the trace says the file holds. *)
Fixpoint on_file (t : list MoneyCall) : option (option JournalDocument) :=
  match t with
  | [] => None
  | MRead (Ok document) :: _ => Some document
  | MWrite j (Ok _) :: _ => Some (Some (reload_journal j))
  | MRemove (Ok _) :: _ => Some None
  | MWrite _ _ :: _ | MRemove _ :: _ => None
  | _ :: t => on_file t
  end.
(** A read that contradicts it: someone else was at the file. *)
Definition disturbed (t : list MoneyCall) : Prop :=
  exists later found earlier known,
    t = later ++ MRead (Ok found) :: earlier /\ on_file earlier = Some known /\ known <> found.

Section Law.
Context (parse_address : string -> option string) (money_submit_identity : string -> string).
Context (model_hash_for : string -> string).
(** The spellings of the note, the records an invocation may write, when it may place
    at all and the fills it may take as its own. *)
Context (ours : string -> Prop) (Q : BuyerSubmitJournal -> Prop) (may : list MoneyCall -> Prop).
Context (takes : MatchedFill -> Prop).

Definition journal_in (document : JournalDocument) (j : BuyerSubmitJournal) : Prop :=
  exists note, ours note /\ money_journal_of parse_address model_hash_for document note = Ok (BuyJournal j).
Definition valid (j : BuyerSubmitJournal) : Prop := validate_journal parse_address j (j_note_addr j) = Ok tt.
(** The record [j] was read, or is what the file holds now. *)
Definition recorded (j : BuyerSubmitJournal) (t : list MoneyCall) : Prop :=
  exists document, MRead (Ok (Some document)) ∈ t /\ journal_in document j.
Definition holds (j : BuyerSubmitJournal) (t : list MoneyCall) : Prop :=
  exists document, on_file t = Some (Some document) /\ journal_in document j.
(** The file was read to be absent, and only the chain has been read since. *)
Definition absent (t : list MoneyCall) : Prop :=
  exists mid before, t = mid ++ MRead (Ok None) :: before /\ Forall (fun c => plain c = true) mid.

(** A post is one of the tries of the message the newest record names. *)
Definition refused_try (boc : string) (c : MoneyCall) : Prop :=
  exists e, c = MPost boc (Err e) /\ is_decoded_transient_money_rejection e = true.
Definition posted_over (boc : string) (earlier : list MoneyCall) : Prop :=
  exists tries j before,
    earlier = tries ++ MWrite j (Ok tt) :: before /\ Forall (refused_try boc) tries /\ absent before /\ may before /\
    valid j /\ Q j /\ j_submit_identity j = money_submit_identity boc.
(** A write makes the record of a new submit, or completes the one on file. *)
Definition completes (j0 j : BuyerSubmitJournal) : Prop :=
  (exists order_id, j = set_order_id j0 order_id) \/ (exists first matches, j = set_resolved j0 first matches).
Definition written_over (j : BuyerSubmitJournal) (earlier : list MoneyCall) : Prop :=
  valid j /\ ((absent earlier /\ Q j) \/ exists j0, holds j0 earlier /\ completes j0 j).

(** A buy filled on the model's book, among the note's messages. *)
Definition filled_on (ob : string) (fill : MatchedFill) (t : list MoneyCall) : Prop :=
  exists messages fills at_, MMessages (Ok messages) ∈ t /\
    fills_of parse_address (default ob (parse_address ob)) true messages = Ok fills /\ In (at_, fill) fills.
Definition fill_seen (fill : MatchedFill) (t : list MoneyCall) : Prop :=
  exists ob, MBook (Ok ob) ∈ t /\ filled_on ob fill t.
Definition sound_state (tc : TokenContract) (t : list MoneyCall) : Prop :=
  exists address state now status,
    parse_address tc = Some address /\ MState address (Ok (Some state)) ∈ t /\
    check_matched_token_contract_state state now MATCH_OPEN_TIMEOUT_SECS = Ok status.
Definition facts_seen (j : BuyerSubmitJournal) (facts : list BuyerOrderFact) (t : list MoneyCall) : Prop :=
  exists ob note own messages,
    parse_address (j_order_book j) = Some ob /\ ours note /\ parse_address note = Some own /\
    MOrders ob (Ok messages) ∈ t /\ facts_of parse_address own messages = Ok facts.
(** The newest access to the file wrote this record. *)
Definition written_last (j : BuyerSubmitJournal) (t : list MoneyCall) : Prop :=
  exists mid before, t = mid ++ MWrite j (Ok tt) :: before /\ Forall (fun c => plain c = true) mid.
(** What a record may be removed on. *)
Inductive closable (earlier : list MoneyCall) : Prop :=
| closed_refused boc e before :
    earlier = MPost boc (Err e) :: before -> money_submit_error_clears_journal (OfChain e) = true -> closable earlier
| closed_unposted mid before :
    earlier = mid ++ MRead (Ok None) :: before ->
    Forall (fun c => plain c = true \/ exists j e, c = MWrite j (Err e)) mid -> closable earlier
| closed_filled j fill :
    recorded j earlier -> fill_seen fill earlier -> takes fill -> sound_state (mf_token_contract fill) earlier ->
    written_last (set_resolved j (journal_match fill) [journal_match fill]) earlier -> closable earlier
| closed_by_one_fill j fill messages fills ob :
    holds j earlier -> parse_address (j_order_book j) = Some ob -> MMessages (Ok messages) ∈ earlier ->
    fills_of parse_address (default ob (parse_address ob)) true messages = Ok fills ->
    matching_fills j (fst (consume_new_fill_batch (j_cursor j) fills)) = [fill] -> closable earlier
| closed_by_book j facts now :
    recorded j earlier -> facts_seen j facts earlier ->
    closes_record (classify_buyer_submit_standing j facts now) = true -> closable earlier
| closed_adopted j tc :
    holds j earlier -> resolved_to j tc = true -> closable earlier.

Definition law (c : MoneyCall) (earlier : list MoneyCall) : Prop :=
  match c with
  | MPost boc _ => posted_over boc earlier
  | MWrite j _ => written_over j earlier
  | MRemove _ => closable earlier
  | _ => True
  end.
Definition lawful (t : list MoneyCall) : Prop := forall later c earlier, t = later ++ c :: earlier -> law c earlier.

Lemma lawful_nil : lawful [].
Proof. by intros [] ?? ?. Qed.
Lemma lawful_cons c t : law c t -> lawful t -> lawful (c :: t).
Proof. intros Hc Ht [|c' later] c'' earlier [= <- Heq]; [by subst|by eapply Ht]. Qed.
Lemma lawful_plain t0 t : lawful t0 -> grown plain t0 t -> lawful t.
Proof.
  intros H0 (more & -> & Hm). induction Hm as [|c more Hc _ IH]; [done|]. apply lawful_cons; [|done]. by destruct c.
Qed.

(** ** What lasts *)
Lemma on_file_plain t0 t : grown plain t0 t -> on_file t = on_file t0.
Proof. intros (more & -> & Hm). induction Hm as [|c more Hc _ IH]; [done|]. rewrite <- IH. by destruct c. Qed.
Lemma absent_plain t0 t : grown plain t0 t -> absent t0 -> absent t.
Proof.
  intros (more & -> & Hm) (mid & before & -> & Hp). exists (more ++ mid), before. rewrite app_assoc. split; [done|].
  by apply Forall_app.
Qed.
Lemma written_last_plain j t0 t : grown plain t0 t -> written_last j t0 -> written_last j t.
Proof.
  intros (more & -> & Hm) (mid & before & -> & Hp). exists (more ++ mid), before. rewrite app_assoc. split; [done|].
  by apply Forall_app.
Qed.
Lemma holds_plain j t0 t : grown plain t0 t -> holds j t0 -> holds j t.
Proof. intros Hg (d & Hd & Hj). exists d. by rewrite (on_file_plain _ _ Hg). Qed.
Lemma recorded_grown ok j t0 t : grown ok t0 t -> recorded j t0 -> recorded j t.
Proof. intros Hg (d & Hd & Hj). exists d. split; [by eapply grown_elem|done]. Qed.
Lemma filled_on_grown ok ob fill t0 t : grown ok t0 t -> filled_on ob fill t0 -> filled_on ob fill t.
Proof. intros Hg (ms & fs & a & Hm & H). exists ms, fs, a. split; [by eapply grown_elem|done]. Qed.
Lemma fill_seen_grown ok fill t0 t : grown ok t0 t -> fill_seen fill t0 -> fill_seen fill t.
Proof. intros Hg (ob & Hb & H). exists ob. split; [by eapply grown_elem|by eapply filled_on_grown]. Qed.
Lemma sound_state_grown ok tc t0 t : grown ok t0 t -> sound_state tc t0 -> sound_state tc t.
Proof. intros Hg (a & st & now & s & Ha & Hs & H). exists a, st, now, s. split_and!; [done| |done]. by eapply grown_elem. Qed.
Lemma facts_seen_grown ok j facts t0 t : grown ok t0 t -> facts_seen j facts t0 -> facts_seen j facts t.
Proof. intros Hg (ob & n & own & ms & Ho & Hn & Hp & Hm & H). exists ob, n, own, ms. split_and!; try done. by eapply grown_elem. Qed.
End Law.

(** ** Triples of commands *)
Section Ensures.
Context {W : Type} (L : list MoneyCall -> Prop).
Context (L_plain : forall t0 t, L t0 -> grown plain t0 t -> L t).
Abbreviation desk := (BuyState (traced W MoneyCall)).
Definition jtr (s : desk) : list MoneyCall := snd (bs_chain s).

(** The law is kept on every way out; a value and an error know their own. *)
Definition ensures {A} (P : list MoneyCall -> Prop) (m : money desk A) (F : A -> list MoneyCall -> Prop)
    (R : BuyerError -> list MoneyCall -> Prop) : Prop :=
  forall s, L (jtr s) -> P (jtr s) ->
    L (jtr (snd (m s))) /\
    match fst (m s) with
    | Some (Ok a) => F a (jtr (snd (m s)))
    | Some (Err e) => R e (jtr (snd (m s)))
    | _ => True
    end.
Definition anyhow (_ : BuyerError) (_ : list MoneyCall) : Prop := True.

Lemma ensures_bind {A B} P (m : money desk A) (k : A -> money desk B) F F' R :
  ensures P m F R -> (forall a, ensures (F a) (k a) F' R) -> ensures P (m ≫= k) F' R.
Proof.
  intros Hm Hk s Hl Hs. specialize (Hm s Hl Hs). unfold mbind, money_bind.
  destruct (m s) as [[[a|e|]|] s']; simpl in *; try tauto. destruct Hm. by apply Hk.
Qed.
Lemma ensures_conseq {A} (P P' : list MoneyCall -> Prop) (m : money desk A) (F F' : A -> list MoneyCall -> Prop)
    (R R' : BuyerError -> list MoneyCall -> Prop) :
  ensures P' m F' R' -> (forall t, P t -> P' t) -> (forall a t, F' a t -> F a t) -> (forall e t, R' e t -> R e t) ->
  ensures P m F R.
Proof.
  intros Hm HP HF HR s Hl Hs. specialize (Hm s Hl (HP _ Hs)). destruct (m s) as [[[a|e|]|] s']; naive_solver.
Qed.
Lemma ensures_pre {A} (P P' : list MoneyCall -> Prop) (m : money desk A) F R :
  ensures P' m F R -> (forall t, P t -> P' t) -> ensures P m F R.
Proof. intros Hm HP. by eapply ensures_conseq. Qed.
Lemma ensures_post {A} P (m : money desk A) (F F' : A -> list MoneyCall -> Prop) R :
  ensures P m F' R -> (forall a t, F' a t -> F a t) -> ensures P m F R.
Proof. intros Hm HF. by eapply ensures_conseq. Qed.
Lemma ensures_pure {A} (X : Prop) (P : list MoneyCall -> Prop) (m : money desk A) F R :
  (X -> ensures P m F R) -> ensures (fun t => X /\ P t) m F R.
Proof. intros H s Hl [Hx Hs]. by apply H. Qed.
Lemma ensures_ret {A} (P : list MoneyCall -> Prop) (a : A) (F : A -> list MoneyCall -> Prop) R :
  (forall t, P t -> F a t) -> ensures P (mret a) F R.
Proof. intros H s Hl Hs. split; [done|by apply H]. Qed.
Lemma ensures_fails {A} (P : list MoneyCall -> Prop) e (F : A -> list MoneyCall -> Prop) (R : BuyerError -> _ -> Prop) :
  (forall t, P t -> R e t) -> ensures P (fails e) F R.
Proof. intros H s Hl Hs. split; [done|by apply H]. Qed.
Lemma ensures_refuses {A} P e (F : A -> list MoneyCall -> Prop) : ensures P (fails e) F anyhow.
Proof. by apply ensures_fails. Qed.
Lemma ensures_unreachable {A} P (F : A -> list MoneyCall -> Prop) R : ensures P unreachable F R.
Proof. by intros s Hl Hs. Qed.
Lemma ensures_starved {A} P (F : A -> list MoneyCall -> Prop) R : ensures P starved F R.
Proof. by intros s Hl Hs. Qed.
Lemma ensures_outcome {A} (P : list MoneyCall -> Prop) (r : outcome BuyerError A) (R : BuyerError -> _ -> Prop) :
  (forall e t, P t -> R e t) -> ensures P (from_outcome r) (fun a t => r = Ok a /\ P t) R.
Proof. intros H s Hl Hs. split; [done|]. destruct r; simpl; auto. Qed.
Lemma ensures_asks {A} P (f : desk -> A) R : ensures P (asks f) (fun _ => P) R.
Proof. by intros s Hl Hs. Qed.

(** Chain programs that read. *)
Lemma ensures_prog {A} P f (m : prog desk A) F (R : BuyerError -> list MoneyCall -> Prop) :
  learns jtr plain m F -> lasting plain P -> (forall e t, P t -> R e t) ->
  ensures P (from_prog f m) (fun a t => P t /\ F a t) R.
Proof.
  intros Hm HP HR s Hl Hs. specialize (Hm _ s eq_refl). unfold from_prog.
  destruct (m s) as [[[a|e|]|] s']; simpl.
  - destruct Hm as [Hg Ha]. split; [by eapply L_plain|]. split; [by eapply HP|done].
  - split; [by eapply L_plain|]. apply HR. by eapply HP.
  - split; [by eapply L_plain|done].
  - split; [by eapply L_plain|done].
Qed.
Lemma ensures_mapping {A} P f (m : money desk A) F : ensures P m F anyhow -> ensures P (mapping_error f m) F anyhow.
Proof.
  intros Hm s Hl Hs. specialize (Hm s Hl Hs). unfold mapping_error. by destruct (m s) as [[[a|e|]|] s'].
Qed.
Lemma ensures_tries {A} P (m : money desk A) F R R' :
  ensures P m F R ->
  ensures P (tries_to m) (fun r t => match r with Ok a => F a t | Err e => R e t | Panic => False end) R'.
Proof.
  intros Hm s Hl Hs. specialize (Hm s Hl Hs). unfold tries_to.
  destruct (m s) as [[[a|e|]|] s']; simpl in *; tauto.
Qed.
Lemma ensures_releasing {A} `{MoneyDesk W} P (m : money desk A) F R : ensures P m F R -> ensures P (releasing m) F R.
Proof.
  intros Hm s Hl Hs. specialize (Hm s Hl Hs). unfold releasing. by destruct (m s) as [[[a|e|]|] s'].
Qed.
(** Calls on the desk that no one hears of. *)
Lemma ensures_silent {A} P (f : W -> outcome string A * W) (R : BuyerError -> _ -> Prop) :
  (forall e t, P t -> R e t) -> ensures P (on_desk (W:=traced W MoneyCall) (silent f)) (fun _ => P) R.
Proof.
  intros H s Hl Hs. unfold on_desk, silent, jtr in *.
  destruct (f (fst (bs_chain s))) as [[a|e|] w']; simpl; auto.
Qed.
End Ensures.

Create HintDb desk.
#[export] Hint Resolve ensures_refuses ensures_unreachable ensures_starved ensures_asks : desk.

Section Loads.
Context (parse_address : string -> option string) (money_submit_identity : string -> string).
Context (model_hash_for : string -> string).
Context (ours : string -> Prop) (Q : BuyerSubmitJournal -> Prop) (may : list MoneyCall -> Prop).
Context (takes : MatchedFill -> Prop).
Context {W : Type} `{HB : BuyChain W} `{HC : Clock W} `{HM : MoneyDesk W}.
Abbreviation desk := (BuyState (traced W MoneyCall)).
Abbreviation L := (lawful parse_address money_submit_identity model_hash_for ours Q may takes).
Abbreviation ensures := (ensures (W:=W) L).
Abbreviation holds := (holds parse_address model_hash_for ours).
Abbreviation recorded := (recorded parse_address model_hash_for ours).

(** A load says what the file holds. *)
Definition money_loaded (r : option BuyerMoneyJournal) (t : list MoneyCall) : Prop :=
  match r with
  | None => absent t
  | Some (BuyJournal j) => holds j t /\ recorded j t
  | Some (SubscriptionJournal _) => True
  end.
Definition loaded (r : option BuyerSubmitJournal) (t : list MoneyCall) : Prop :=
  match r with None => absent t | Some j => holds j t /\ recorded j t end.
Lemma ensures_load_money (K : list MoneyCall -> Prop) note :
  ours note -> (forall r t, K t -> K (MRead r :: t)) ->
  ensures K (load_buyer_money_journal parse_address model_hash_for (W:=traced W MoneyCall) note)
    (fun r t => K t /\ money_loaded r t) (fun _ => K).
Proof.
  intros Hn HK s Hl Hs. unfold load_buyer_money_journal, on_desk, mbind, money_bind, jtr in *. simpl. unfold entered.
  destruct (md_read (fst (bs_chain s))) as [[[d|]|e|] w'] eqn:Er; simpl; try (split; [by apply lawful_cons|]; eauto; fail).
  - unfold from_outcome. destruct (money_journal_of parse_address model_hash_for d note) as [[j|j]|e|] eqn:Ed; simpl;
      (split; [by apply lawful_cons|]); eauto.
    split; [eauto|]. split; [exists d; split; [done|by exists note]|].
    exists d. split; [left|by exists note].
  - split; [by apply lawful_cons|]. split; [eauto|]. by exists [], (snd (bs_chain s)).
Qed.
Lemma ensures_load (K : list MoneyCall -> Prop) note :
  ours note -> (forall r t, K t -> K (MRead r :: t)) ->
  ensures K (load_buyer_submit_journal parse_address model_hash_for (W:=traced W MoneyCall) note)
    (fun r t => K t /\ loaded r t) (fun _ => K).
Proof.
  intros Hn HK. unfold load_buyer_submit_journal. eapply ensures_bind; [by apply ensures_load_money|].
  intros [[j|j]|]; [apply ensures_ret; tauto| |apply ensures_ret; tauto].
  apply ensures_fails. tauto.
Qed.

(** A write of a lawful record, and a removal of a closable one. *)
Lemma ensures_write P j :
  (forall t, P t -> valid parse_address j -> written_over parse_address model_hash_for ours Q j t) ->
  ensures P (write_journal parse_address (W:=traced W MoneyCall) j)
    (fun _ t => exists t0, P t0 /\ t = MWrite j (Ok tt) :: t0) anyhow.
Proof.
  intros HP s Hl Hs. unfold write_journal, write_buyer_submit_journal, jtr in *.
  destruct (validate_journal parse_address j (j_note_addr j)) as [[]|e|] eqn:Ev; simpl; [|done..]. unfold entered.
  destruct (md_write j (fst (bs_chain s))) as [[[]|e|] w']; simpl;
    (split; [apply lawful_cons; [by apply HP|done]|]); try done. by exists (snd (bs_chain s)).
Qed.
Lemma ensures_clear P (F : list MoneyCall -> Prop) :
  (forall t, P t -> closable parse_address model_hash_for ours takes t) -> (forall t, P t -> F (MRemove (Ok tt) :: t)) ->
  ensures P (clear_buyer_submit_journal (W:=traced W MoneyCall)) (fun _ => F) anyhow.
Proof.
  intros HP HF s Hl Hs. unfold clear_buyer_submit_journal, on_desk, jtr in *. simpl. unfold entered.
  destruct (md_remove (fst (bs_chain s))) as [[[]|e|] w']; simpl;
    (split; [apply lawful_cons; [by apply HP|done]|]); try done. by apply HF.
Qed.
Lemma ensures_lock {A} (K : list MoneyCall -> Prop) recovery note_addr (body : string -> money desk A) F :
  (forall note, (note_addr ≫= parse_address) = Some note -> ensures K (body note) F anyhow) ->
  ensures K (with_money_lock parse_address recovery note_addr body) F anyhow.
Proof.
  intros Hb. unfold with_money_lock, canonical_address.
  eapply ensures_bind; [by apply ensures_outcome|intros addr; apply ensures_pure; intros ->%ok_or_ok].
  eapply ensures_bind; [by apply ensures_outcome|intros note; apply ensures_pure; intros Hn%ok_or_ok].
  eapply ensures_bind; [by apply ensures_silent|intros []]. by apply ensures_releasing, Hb.
Qed.
End Loads.

(** ** The submit *)
Section Submit.
Context (parse_address : string -> option string) (money_submit_identity : string -> string).
Context (model_hash_for : string -> string).
Context (ours : string -> Prop) (Q : BuyerSubmitJournal -> Prop) (may : list MoneyCall -> Prop).
Context (takes : MatchedFill -> Prop).
Context (may_lasts : lasting plain may).
Context {W : Type} `{HB : BuyChain W} `{HC : Clock W} `{HM : MoneyDesk W}.
Abbreviation world := (traced W MoneyCall).
Abbreviation desk := (BuyState world).
Abbreviation L := (lawful parse_address money_submit_identity model_hash_for ours Q may takes).
Abbreviation closable := (closable parse_address model_hash_for ours takes).

(** An error that would remove the record does so rightly. *)
Definition clears_rightly (e : BuyerError) (t : list MoneyCall) : Prop :=
  money_submit_error_clears_journal e = true -> closable t.
Definition sends (P : list MoneyCall -> Prop) {A} (m : prog desk A) (F : A -> list MoneyCall -> Prop) : Prop :=
  ensures (W:=W) L P (from_prog OfChain m) F clears_rightly.
Definition free (t : list MoneyCall) : Prop := absent t /\ may t.

Lemma sends_bind {A B} P (m : prog desk A) (k : A -> prog desk B) F F' :
  sends P m F -> (forall a, sends (F a) (k a) F') -> sends P (bind m k) F'.
Proof.
  intros Hm Hk s Hl Hs. specialize (Hm s Hl Hs). unfold from_prog, bind in *.
  destruct (m s) as [[[a|e|]|] s']; simpl in *; try tauto. destruct Hm. by apply Hk.
Qed.
Lemma lasting_free : lasting plain free.
Proof. intros t0 t Hg [Ha Hm]. split; [by eapply absent_plain|by eapply may_lasts]. Qed.
Lemma absent_closable t : absent t -> closable t.
Proof.
  intros (mid & before & -> & Hp). eapply closed_unposted; [done|]. eapply Forall_impl; [exact Hp|]. by left.
Qed.
Lemma free_clears e t : free t -> clears_rightly e t.
Proof. intros [Ha _] _. by apply absent_closable. Qed.
Lemma sends_skip {A B} (m : prog desk A) (k : A -> prog desk B) F :
  learns jtr plain m knows_nothing -> (forall a, sends free (k a) F) -> sends free (bind m k) F.
Proof.
  intros Hm Hk. eapply sends_bind; [apply ensures_prog; [apply lawful_plain|exact Hm|apply lasting_free|]|].
  - intros e t. apply free_clears.
  - intros a. eapply ensures_pre; [apply Hk|]. tauto.
Qed.

Lemma quiet_on_chain {A} (m : prog world A) F : learns snd plain m F -> learns jtr plain (on_chain m) F.
Proof.
  intros Hm t0 s Hs. specialize (Hm t0 (bs_chain s) Hs). unfold on_chain, jtr in *.
  by destruct (m (bs_chain s)) as [[[a|e|]|] w'].
Qed.
Lemma quiet_own (f : desk -> desk) : (forall s, bs_chain (f s) = bs_chain s) -> learns jtr plain (run f) knows_nothing.
Proof. intros Hf. apply learns_run. intros s. unfold jtr. by rewrite Hf. Qed.

(** The tries of one message over one record. *)
Definition over (boc : string) (t : list MoneyCall) : Prop :=
  posted_over parse_address money_submit_identity Q may boc t.
Lemma sends_lift boc t0 (s : desk) :
  L (jtr s) -> over boc (jtr s) -> jtr s = t0 ->
  forall r w', by_post_money boc (bs_chain s) = (r, w') ->
  L (snd w') /\ snd w' = MPost boc r :: t0.
Proof.
  intros Hl Ho <- r w'. simpl. unfold entered. destruct (by_post_money boc (fst (bs_chain s))) as [r0 w0].
  intros [= <- <-]. split; [by apply lawful_cons|done].
Qed.
Lemma over_again boc e t : over boc t -> is_decoded_transient_money_rejection e = true -> over boc (MPost boc (Err e) :: t).
Proof.
  intros (tries & j & before & -> & Ht & H) He. exists (MPost boc (Err e) :: tries), j, before.
  split; [done|]. split; [|done]. constructor; [by exists e|done].
Qed.
Lemma sends_retries boc n delay :
  sends (over boc) (on_chain (retry_sends is_decoded_transient_money_rejection (by_post_money boc) n delay)) (fun _ _ => True).
Proof.
  revert delay. induction n as [|n IH]; intros delay s Hl Ho; unfold from_prog, on_chain; simpl.
  { unfold lift. destruct (entered (MPost boc) (by_post_money boc) (bs_chain s)) as [r w'] eqn:E.
    destruct (sends_lift boc _ s Hl Ho eq_refl r w' E) as [Hl' Ht]. simpl. split; [done|].
    destruct r as [[]|e|]; simpl; [done| |done]. intros Hc. by eapply closed_refused. }
  unfold bind, attempt. destruct (entered (MPost boc) (by_post_money boc) (bs_chain s)) as [r w'] eqn:E.
  destruct (sends_lift boc _ s Hl Ho eq_refl r w' E) as [Hl' Ht].
  destruct r as [[]|e|]; simpl; [done| |done]. destruct (is_decoded_transient_money_rejection e) eqn:Ee; simpl.
  - unfold run. set (s1 := mkBuyState (bs_pending s) (bs_cursor s) (sleep delay w')).
    specialize (IH (Z.min (delay * TRANSIENT_SUBMIT_BACKOFF_MULTIPLIER) TRANSIENT_SUBMIT_MAX_BACKOFF) s1).
    unfold from_prog, on_chain in IH. apply IH; [done|]. change (jtr s1) with (snd w'). rewrite Ht. by apply over_again.
  - split; [done|]. intros Hc. by eapply closed_refused.
Qed.

(** The callback writes the record, or the record stays away. *)
Lemma preparing_sends {A} P (m : prog desk A) F :
  ensures (W:=W) L P (from_prog OfChain m) F (fun _ t => closable t) -> sends P (preparing m) F.
Proof.
  intros Hm s Hl Hs. specialize (Hm s Hl Hs). unfold from_prog, preparing in *.
  destruct (m s) as [[[a|e|]|] s']; simpl in *; [done| |done..]. destruct Hm. split; [done|]. by intros _.
Qed.
Lemma sends_callback template identity cursor balance pending :
  Q (set_identity template identity cursor) ->
  sends free (preparing (set_pending_fill pending >>! on_chain (before_post parse_address template identity cursor balance)))
    (fun _ t => forall boc, money_submit_identity boc = identity -> over boc t).
Proof.
  intros HQ. apply preparing_sends. intros s Hl [Ha Hm].
  unfold from_prog, set_pending_fill, run, on_chain, before_post, of_outcome, bind, jtr in *. simpl.
  destruct (ordinary_buy_reserve (j_ticks template) (j_max_price_per_tick template)) as [reserve|e|]; simpl;
    [|split; [done|by apply absent_closable]|done].
  destruct (balance <? total_escrow reserve); simpl; [split; [done|by apply absent_closable]|].
  unfold lift, write_buyer_submit_journal. set (j := set_identity template identity cursor) in *.
  destruct (validate_journal parse_address j (j_note_addr j)) as [[]|e|] eqn:Ev; simpl;
    [|split; [done|by apply absent_closable]|done].
  unfold entered. destruct (md_write j (fst (bs_chain s))) as [[[]|e|] w']; simpl;
    (split; [apply lawful_cons; [by split; [|left]|done]|]); [|destruct Ha as (mid & before & -> & Hp)|done].
  - intros boc <-. by exists [], j, (snd (bs_chain s)).
  - eapply (closed_unposted _ _ _ _ _ (MWrite j (Err e) :: mid)); [done|]. constructor; [right; by eauto|].
    eapply Forall_impl; [exact Hp|]. by left.
Qed.

Lemma sends_pure {A} (X : Prop) P (m : prog desk A) F : (X -> sends P m F) -> sends (fun t => X /\ P t) m F.
Proof. apply ensures_pure. Qed.
Lemma sends_unless_ambiguous P (m : prog desk unit) F : sends P m F -> sends P (forget_unless_ambiguous m) F.
Proof.
  intros Hm s Hl Hs. specialize (Hm s Hl Hs). unfold from_prog, forget_unless_ambiguous in *.
  destruct (m s) as [[[[]|e|]|] s']; simpl in *; try done. by destruct (is_ambiguous_submit e).
Qed.

Lemma sends_durable template ob order expected :
  (forall identity cursor, Q (set_identity template identity cursor)) ->
  sends free
    (place_inference_buy_with_submit_identity parse_address money_submit_identity ob order
       (fun identity cursor balance => set_pending_fill (Some (mkPending cursor expected)) >>!
          on_chain (before_post parse_address template identity cursor balance)))
    (fun _ _ => True).
Proof.
  intros HQ. unfold place_inference_buy_with_submit_identity.
  apply sends_skip; [apply quiet_on_chain, (quiet_prepare snd plain)|intros boc].
  apply sends_skip; [apply quiet_preparing, quiet_on_chain, (quiet_poll parse_address snd plain)|intros [fills cursor]].
  apply sends_skip; [by apply quiet_own|intros _].
  apply sends_skip; [apply quiet_preparing, quiet_on_chain, (quiet_note_shell (tr:=snd) (ok:=plain))|intros balance].
  eapply sends_bind; [apply sends_callback, HQ|intros []].
  eapply ensures_pre; [apply sends_retries|]. cbn beta. intros t Ht. by apply Ht.
Qed.
Lemma sends_buy me template quoted ticks cap escrow :
  (forall identity cursor, Q (set_identity template identity cursor)) ->
  sends free
    (place_buy_by_model_with_submit_identity parse_address money_submit_identity me quoted ticks cap escrow
       (before_post parse_address template)) (fun _ _ => True).
Proof.
  intros HQ. unfold place_buy_by_model_with_submit_identity.
  assert (forall A (r : outcome ChainError A), learns (S:=desk) jtr plain (of_outcome r) knows_nothing) as Ho
    by (intros A r; eapply learns_weak, learns_outcome).
  apply sends_skip; [apply Ho|intros _].
  apply sends_skip; [apply quiet_on_chain, (quiet_owner_matches (tr:=snd) (ok:=plain))|intros _].
  apply sends_skip; [apply quiet_on_chain, (quiet_can_place snd plain)|intros _].
  apply sends_skip; [apply quiet_on_chain, (quiet_selection parse_address snd plain)|intros [ob sel]].
  apply sends_skip.
  { destruct sel as [ask|]; [|destruct quoted; [apply learns_throw|by apply learns_ret]].
    apply learns_after; [apply Ho|intros _].
    apply learns_after; [apply quiet_on_chain, (quiet_expected_fill parse_address snd plain)|intros fill]. by apply learns_ret. }
  intros expected. apply sends_skip; [apply Ho|intros book].
  apply sends_skip; [by apply quiet_own|intros _].
  apply sends_skip; [apply quiet_on_chain, (quiet_now snd plain)|intros now].
  apply sends_skip; [apply Ho|intros deadline].
  by apply sends_unless_ambiguous, sends_durable.
Qed.

(** The records of one invocation. *)
Definition record_of (inv : Invocation) (selection : BuyerQuoteSelection) (j : BuyerSubmitJournal) : Prop :=
  exists note book expected now identity cursor,
    j = set_identity (template_of note book (iv_intent inv) expected selection (iv_ticks inv) (iv_max_price_per_tick inv)
                        (iv_escrow inv) now) identity cursor.
Lemma ensures_place me inv selection note :
  (forall j, record_of inv selection j -> Q j) ->
  ensures (W:=W) L free
    (place_quote_bound_buy_with_journal parse_address money_submit_identity me (iv_intent inv)
       (iv_expected_token_contract inv) selection (iv_ticks inv) (iv_max_price_per_tick inv) (iv_escrow inv) note)
    (fun _ _ => True) clears_rightly.
Proof.
  intros HQ. unfold place_quote_bound_buy_with_journal, canonical_address.
  eapply ensures_bind; [apply ensures_asks|intros book].
  eapply ensures_bind; [apply ensures_outcome, free_clears|intros ob; apply ensures_pure; intros _].
  eapply ensures_bind; [apply ensures_outcome, free_clears|intros own; apply ensures_pure; intros _].
  eapply (ensures_bind _ _ _ _ (fun _ => free)).
  { destruct (iv_expected_token_contract inv) as [address|]; [|by apply ensures_ret].
    eapply ensures_bind; [apply ensures_outcome, free_clears|intros tc; apply ensures_pure; intros _]. by apply ensures_ret. }
  intros expected. eapply ensures_bind; [apply ensures_asks|intros now].
  apply sends_skip; [by apply quiet_own|intros _]. apply sends_buy.
  intros identity cursor. apply HQ. by exists own, ob, expected, now, identity, cursor.
Qed.

(** ** The fill of a submit *)
Abbreviation fill_seen := (fill_seen parse_address).
Lemma learns_poll_fills ob cursor :
  learns (S:=world) snd plain (poll_inference_filled_tcs parse_address ob cursor)
    (fun r t => exists messages fills, MMessages (Ok messages) ∈ t /\
       fills_of parse_address (default ob (parse_address ob)) true messages = Ok fills /\
       r = consume_new_fill_batch cursor fills).
Proof.
  apply learns_poll_of; [|intros ms t0 t Hg; by eapply grown_elem]. by apply (learns_entered plain MMessages).
Qed.
Lemma learns_wait fuel ob cursor expected start timeout :
  learns (S:=world) snd plain (wait_correlated_inference_fill parse_address fuel ob cursor expected start timeout) (filled_on parse_address ob).
Proof.
  revert cursor. induction fuel as [|fuel IH]; intros cursor; [intros t0 w <-; apply grown_refl|]. cbn [wait_correlated_inference_fill].
  eapply learns_bind; [apply learns_poll_fills|intros [out c']|].
  { instantiate (1 := fun r fill t => In fill (fst r) \/ filled_on parse_address ob fill t).
    eapply (learns_bind _ _ _ _ _ (fun found fill t => found = Some fill \/ filled_on parse_address ob fill t)); [apply learns_outcome| |].
    - intros [fill|]; [apply learns_ret; intros t; by left|].
      apply learns_after; [intros t0 w <-; split; [apply grown_refl|done]|intros now].
      destruct (timeout <=? now - start); [apply learns_throw|]. apply learns_after; [by apply learns_run|intros _].
      specialize (IH c'). intros t0 w Hw. specialize (IH t0 w Hw).
      destruct (wait_correlated_inference_fill _ _ _ _ _ _ _ _) as [[[f|e|]|] w']; [|exact IH..]. destruct IH. split; [done|by right].
    - cbn beta. intros found fill t t' Hc Hg [->|H]; [left|by right]. by apply correlate_ok in Hc as [Hin _]. }
  cbn beta. intros r fill t t' (ms & fs & Hm & Hf & ->) Hg [Hin|H]; [|done].
  apply consume_unseen in Hin as (at_ & Hin & _). exists ms, fs, at_.
  split; [by eapply grown_elem|done].
Qed.
Lemma learns_wait_matched fuel since timeout :
  learns jtr plain (wait_matched_token_contract parse_address fuel since timeout)
    (fun fill t => match fill with Some fill => fill_seen fill t | None => True end).
Proof.
  unfold wait_matched_token_contract.
  eapply (learns_bind _ _ _ _ (fun ob t => MBook (Ok ob) ∈ t) (fun ob fill t =>
    match fill with Some fill => filled_on parse_address ob fill t | None => True end));
    [apply quiet_on_chain; by apply (learns_entered plain MBook)|intros ob|].
  2:{ cbn beta. intros ob [fill|] t t' Hb Hg H; [|done]. exists ob. split; [by eapply grown_elem|done]. }
  apply learns_after; [intros t0 s <-; split; [apply grown_refl|done]|intros pending].
  apply learns_after; [intros t0 s <-; split; [apply grown_refl|done]|intros start].
  eapply learns_bind; [apply quiet_on_chain, learns_wait|intros fill; by apply (learns_ret _ _ _ (fun r _ => r = Some fill))|].
  cbn beta. intros fill r t t' Hf Hg ->. by eapply filled_on_grown.
Qed.
Lemma learns_matched_state tc :
  learns jtr plain (validate_reported_match_state parse_address tc) (fun _ t => sound_state parse_address tc t).
Proof.
  apply quiet_on_chain. unfold reported_match_state, parse_tc.
  eapply learns_bind; [apply learns_outcome|intros address|].
  { eapply (learns_bind _ _ _ _ _ (fun state status _ => exists state' now, state = Some state' /\
      check_matched_token_contract_state state' now MATCH_OPEN_TIMEOUT_SECS = Ok status));
      [by apply (learns_entered plain (MState address))| |].
    - intros state. eapply (learns_bind _ _ _ _ _ (fun state' status _ => exists now,
        check_matched_token_contract_state state' now MATCH_OPEN_TIMEOUT_SECS = Ok status)); [apply learns_outcome| |].
      + intros state' t0 w <-. simpl. destruct (check_matched_token_contract_state _ _ _) eqn:E; try apply grown_refl.
        split; [apply grown_refl|]. by eexists.
      + cbn beta. intros state' status t t' Hs%ok_or_ok _ (now & Hn). by exists state', now.
    - cbn beta. instantiate (1 := fun address status t => exists state now, MState address (Ok (Some state)) ∈ t /\
        check_matched_token_contract_state state now MATCH_OPEN_TIMEOUT_SECS = Ok status).
      intros state status t t' Hs Hg (state' & now & -> & Hn). exists state', now. split; [by eapply grown_elem|done]. }
  cbn beta. intros address status t t' Ha%ok_or_ok Hg (state & now & Hs & Hn). by exists address, state, now, status.
Qed.
End Submit.

(** ** Commands answer

    With fuel for the wait of a submit every part of a command ends. *)
Section Telling.
Context (parse_address : string -> option string) (money_submit_identity : string -> string).
Context (model_hash_for : string -> string).
Context {W : Type} `{HB : BuyChain W} `{HC : Clock W} `{HM : MoneyDesk W}.
Abbreviation desk := (BuyState W).

Lemma says_bind {S A B} (m : money S A) (k : A -> money S B) : answers m -> (forall a, answers (k a)) -> answers (m ≫= k).
Proof. intros Hm Hk s. specialize (Hm s). unfold mbind, money_bind. destruct (m s) as [[[a|e|]|] s']; [apply Hk|done..]. Qed.
Lemma says_prog {A} f (m : prog desk A) : answers m -> answers (from_prog f m).
Proof. intros Hm s. specialize (Hm s). unfold from_prog. by destruct (m s) as [[]?]. Qed.
Lemma says_mapped {A} f (m : money desk A) : answers m -> answers (mapping_error f m).
Proof. intros Hm s. specialize (Hm s). unfold mapping_error. by destruct (m s) as [[]?]. Qed.
Lemma says_tried {A} (m : money desk A) : answers m -> answers (tries_to m).
Proof. intros Hm s. specialize (Hm s). unfold tries_to. by destruct (m s) as [[[]|]?]. Qed.
Lemma says_desk {A} (f : W -> outcome string A * W) : answers (on_desk f).
Proof. intros s. unfold on_desk. by destruct (f (bs_chain s)). Qed.
Lemma says_written j : answers (write_journal parse_address (W:=W) j).
Proof. intros s. unfold write_journal. by destruct (write_buyer_submit_journal _ _ _). Qed.
Lemma says_locked {A} recovery note (body : string -> money desk A) :
  (forall own, answers (body own)) -> answers (with_money_lock parse_address recovery note body).
Proof.
  intros Hb. unfold with_money_lock. do 3 (apply says_bind; [first [apply says_desk|done]|intros ?]).
  intros s. unfold releasing. specialize (Hb a0 s). by destruct (body a0 s) as [[]?].
Qed.

Lemma says_facts book note : answers (buyer_order_facts_for_note parse_address (W:=W) book note).
Proof. unfold buyer_order_facts_for_note. answering. by apply answers_on_chain, answers_lift. Qed.
Lemma says_state tc : answers (validate_reported_match_state parse_address (W:=W) tc).
Proof. apply answers_on_chain. unfold reported_match_state. answering. Qed.
Lemma says_load note : answers (load_buyer_money_journal parse_address model_hash_for (W:=W) note).
Proof. unfold load_buyer_money_journal. apply says_bind; [apply says_desk|intros [document|]; [|done]]. by apply says_bind. Qed.
Lemma says_pool note matches : answers (record_in_pool (W:=W) note matches).
Proof. induction matches as [|m ms IH]; [done|]. cbn [record_in_pool]. by apply says_bind; [apply says_desk|]. Qed.
End Telling.
(** Goes through a command; [known] first, for the parts that have a lemma. *)
Ltac telling_by known :=
  repeat match goal with
  | |- forall _, _ => intros ?
  | |- answers _ => known
  | |- answers (mbind _ _) => apply says_bind
  | |- answers (with_money_lock _ _ _ _) => apply says_locked
  | |- answers (load_buyer_money_journal _ _ _) => apply says_load
  | |- answers (buyer_order_facts_for_note _ _ _) => apply says_facts
  | |- answers (validate_reported_match_state _ _) => apply says_state
  | |- answers (record_in_pool _ _) => apply says_pool
  | |- answers (write_journal _ _) => apply says_written
  | |- answers (mapping_error _ _) => apply says_mapped
  | |- answers (tries_to _) => apply says_tried
  | |- answers (from_prog _ _) => apply says_prog
  | |- answers (on_desk _) => apply says_desk
  | |- answers (on_chain _) => apply answers_on_chain
  | |- answers (poll_inference_filled_tcs _ _ _) => apply answers_poll
  | |- answers (match ?x with _ => _ end) => destruct x
  | |- answers _ => assumption
  | |- answers (mret _) => done
  | |- answers (fails _) => done
  | |- answers unreachable => done
  | |- answers (from_outcome _) => done
  | |- answers (of_outcome _) => done
  | |- answers (asks _) => done
  | |- answers unix_now_secs => done
  | |- answers (canonical_address _ _ _) => done
  | |- answers (set_cursor _) => done
  | |- answers (load_buyer_submit_journal _ _ _) => unfold load_buyer_submit_journal
  | |- answers (clear_buyer_submit_journal) => unfold clear_buyer_submit_journal
  | |- answers (persist_buyer_submit_order_id _ _ _ _) => unfold persist_buyer_submit_order_id
  | |- answers (persist_resolved_buyer_submits _ _ _ _) => unfold persist_resolved_buyer_submits
  | |- answers (poll_matched_model_buys_for_order_book _ _ _) => unfold poll_matched_model_buys_for_order_book
  | |- answers (bind _ _) => apply answers_bind
  end.
Ltac telling := telling_by fail.

Section CommandAnswers.
Context (parse_address : string -> option string) (money_submit_identity : string -> string).
Context (model_hash_for : string -> string).
Context {W : Type} `{HB : BuyChain W} `{HC : Clock W} `{HM : MoneyDesk W} `{!ClockLaws W}.
Context (note_reads_forward : forward (W:=W) by_note_messages).
Context (fuel : nat) (enough : (1 <= fuel)%nat)
  (deal_wait : DEAL_WAIT_SECS * 1000 <= INFERENCE_FILL_POLL_INTERVAL * (Z.of_nat fuel - 1)).
Lemma says_poll_once book cursor started : answers (poll_fills parse_address (W:=W) fuel book cursor None started).
Proof.
  destruct fuel as [|f]; [lia|]. cbn [poll_fills]. telling.
Qed.
Lemma says_reconciled note : answers (reconcile_pending_buyer_submit parse_address model_hash_for (W:=W) fuel note None).
Proof.
  unfold reconcile_pending_buyer_submit, reconcile_fills, resolve_unfilled_buyer_submit, persist_standing_order_id.
  telling; apply says_poll_once.
Qed.
Lemma says_placed me intent expected selection ticks cap escrow note :
  answers (place_quote_bound_buy_with_journal parse_address money_submit_identity (W:=W) me intent expected selection ticks cap escrow note).
Proof.
  unfold place_quote_bound_buy_with_journal. telling; apply answers_durable_buy; intros; unfold before_post; answering.
Qed.
Lemma says_started me inv selection note :
  answers (start_durable_buyer_submit parse_address money_submit_identity model_hash_for (W:=W) fuel me inv selection note).
Proof.
  unfold start_durable_buyer_submit, resume_pending. telling_by ltac:(first [apply says_reconciled | apply says_placed]).
Qed.
Lemma says_finished inv selection note start :
  answers (finish_started parse_address model_hash_for (W:=W) fuel inv selection note start).
Proof.
  unfold finish_started, finish_submitted, submitted_reconciliation, complete_buyer_submit_with_journal.
  telling; by apply answers_wait.
Qed.
End CommandAnswers.
