(* ===== verification/JournalSpec.v ===== *)
(** * JournalSpec: the commands that keep the money record

    Every command that touches the record keeps its trace lawful; the theorems say what
    that means for a post, for a removal and for a resume, that every command ends, when
    the book's facts close a record, and what a written record is read back as.  A desk with one note shows them
    on runs. *)
From Stdlib Require Import Ascii.
From S2P Require Import Prelude Text Params Address MarketTypes Accounting Machine MockDeal MockMarket Backend Continuity Offer.
From S2P Require Import Trace Select Buy BuySafety BuySpec BuyDurable Journal JournalSafety.

(** A fill of the terms of a buy: all its ticks, at no more than its cap, and when the buy
    quoted an order, in that order's contract at that order's price. *)
Definition fills_the_terms (quoted : option OrderBookOrder) (ticks cap : Z) (fill : MatchedFill) : Prop :=
  mf_ticks fill = ticks /\ mf_price_per_tick fill <= cap /\
  forall order tc, quoted = Some order -> ob_token_contract order = Some tc ->
    tc_same (mf_token_contract fill) tc = true /\ mf_price_per_tick fill = ob_price_per_tick order.
Lemma correlated_deal fill quoted ticks cap tc :
  correlated_buy_token_contract fill (quoted ≫= fun order => quoted_fill order ticks) ticks cap = Ok tc ->
  tc = mf_token_contract fill /\ fills_the_terms quoted ticks cap fill.
Proof.
  unfold correlated_buy_token_contract, fills_the_terms. case_match eqn:E; [|done]. intros [= <-].
  apply andb_true_iff in E as [[Ht%Z.eqb_eq Hp%Z.leb_le]%andb_true_iff He]. split_and!; [done..|].
  intros order tc' -> Htc. unfold quoted_fill in He. simpl in He. rewrite Htc in He. simpl in He.
  apply andb_true_iff in He as [[Hs _]%andb_true_iff Hq%Z.eqb_eq]. by split.
Qed.

(** No error is both: a POST that may have landed never removes the record. *)
Lemma ambiguous_keeps e : is_ambiguous_submit_error e = true -> money_submit_error_clears_journal e = false.
Proof. induction e as [|[]| | | |]; simpl; naive_solver. Qed.

Section Commands.
Context (parse_address : string -> option string) (money_submit_identity : string -> string).
Context (model_hash_for : string -> string).
Context {W : Type} `{HB : BuyChain W} `{HC : Clock W} `{HM : MoneyDesk W}.
Abbreviation world := (traced W MoneyCall).
Abbreviation desk := (BuyState world).
Abbreviation sound_state := (sound_state parse_address).

Section Parts.
Context (ours : string -> Prop) (Q : BuyerSubmitJournal -> Prop) (may : list MoneyCall -> Prop).
Context (takes : MatchedFill -> Prop) (may_lasts : lasting plain may).
Abbreviation closable := (closable parse_address model_hash_for ours takes).
Abbreviation recorded := (recorded parse_address model_hash_for ours).
Abbreviation holds := (holds parse_address model_hash_for ours).
Abbreviation facts_seen := (facts_seen parse_address ours).
Abbreviation L := (lawful parse_address money_submit_identity model_hash_for ours Q may takes).
Abbreviation ensures := (ensures (W:=W) L).
Abbreviation done_with := (fun _ _ => True).

Lemma L_plain t0 t : L t0 -> grown plain t0 t -> L t.
Proof. apply lawful_plain. Qed.
Lemma prog_knows {A} P f (m : prog desk A) F :
  learns jtr plain m F -> lasting plain P -> ensures P (from_prog f m) (fun a t => P t /\ F a t) anyhow.
Proof. intros Hm HP. by apply ensures_prog; [apply L_plain|..]. Qed.
Lemma lasting_read (K : list MoneyCall -> Prop) r t : lasting any_call K -> K t -> K (MRead r :: t).
Proof. intros HK. apply HK. by apply grown_cons, grown_refl. Qed.
Lemma load_knows (K : list MoneyCall -> Prop) note :
  ours note -> lasting any_call K ->
  ensures K (load_buyer_submit_journal parse_address model_hash_for note)
    (fun r t => K t /\ loaded parse_address model_hash_for ours r t) anyhow.
Proof.
  intros Hn HK. eapply ensures_conseq; [apply (ensures_load _ _ _ ours Q may takes K note Hn)|done|done|done].
  intros r t. by apply lasting_read.
Qed.
Lemma outcome_knows {A} (P : list MoneyCall -> Prop) (r : outcome BuyerError A) :
  ensures P (from_outcome r) (fun a t => r = Ok a /\ P t) anyhow.
Proof. by apply ensures_outcome. Qed.

Lemma ensures_pool P note matches : ensures P (record_in_pool (W:=world) note matches) (fun _ => P) anyhow.
Proof.
  induction matches as [|m matches IH]; [by apply ensures_ret|]. cbn [record_in_pool].
  eapply ensures_bind; [by apply ensures_silent|intros []; exact IH].
Qed.

(** The record on file names these fills. *)
Definition resolved_on_file (matches : list BuyerJournalMatch) (t : list MoneyCall) : Prop :=
  exists j first rest, matches = first :: rest /\ recorded j t /\ written_last (set_resolved j first matches) t.
Lemma ensures_resolved (K : list MoneyCall -> Prop) note matches :
  ours note -> lasting any_call K ->
  ensures K (persist_resolved_buyer_submits parse_address model_hash_for note matches)
    (fun _ t => K t /\ resolved_on_file matches t) anyhow.
Proof.
  intros Hn HK. destruct matches as [|first rest]; [apply ensures_refuses|]. cbn [persist_resolved_buyer_submits].
  eapply ensures_bind; [by apply load_knows|intros r].
  eapply ensures_bind; [apply outcome_knows|intros j; apply ensures_pure; intros Hj%ok_or_ok; subst r].
  eapply ensures_bind; [apply ensures_write|intros []].
  { intros t (_ & Hh & _) Hv. split; [done|]. right. exists j. split; [done|]. right. by exists first, (first :: rest). }
  eapply ensures_pre; [apply ensures_pool|]. intros t (t0 & (HKt & _ & Hr) & ->).
  assert (grown any_call t0 (MWrite (set_resolved j first (first :: rest)) (Ok tt) :: t0)) as Hg by by apply grown_cons, grown_refl.
  split; [by eapply HK|]. exists j, first, rest. split_and!; [done|by eapply recorded_grown|]. by exists [], t0.
Qed.
Lemma ensures_order_id (K : list MoneyCall -> Prop) note standing :
  ours note -> lasting any_call K ->
  ensures K (persist_standing_order_id parse_address model_hash_for note standing) (fun _ => K) anyhow.
Proof.
  intros Hn HK. unfold persist_standing_order_id. destruct (standing_order_id standing) as [id|]; [|by apply ensures_ret].
  unfold persist_buyer_submit_order_id. eapply ensures_bind; [by apply load_knows|intros [j|]]; [|by apply ensures_ret; intros t []].
  destruct (bool_decide _); [by apply ensures_ret; intros t []|].
  eapply ensures_post; [apply ensures_write|].
  - intros t (_ & Hh & _) Hv. split; [done|]. right. exists j. split; [done|]. left. by exists id.
  - intros [] t (t0 & (HKt & _) & ->). eapply HK; [|done]. by apply grown_cons, grown_refl.
Qed.

(** ** The outcome of a submit *)
Lemma lasting_true {C} (ok : C -> bool) : lasting ok (fun _ => True).
Proof. done. Qed.
Lemma lasting_recorded ok j : lasting ok (recorded j).
Proof. intros t0 t. apply recorded_grown. Qed.
Lemma ensures_complete fuel quoted ticks cap result note :
  ours note -> (forall fill, fills_the_terms quoted ticks cap fill -> takes fill) ->
  ensures (fun t => match result with Err e => clears_rightly parse_address model_hash_for ours takes e t | _ => True end)
    (complete_buyer_submit_with_journal parse_address model_hash_for fuel quoted ticks cap result note) done_with anyhow.
Proof.
  intros Hn Htakes. unfold complete_buyer_submit_with_journal. eapply (ensures_bind _ _ _ _ (fun _ _ => True)).
  { destruct result as [[]|e|]; [by apply ensures_ret| |by apply ensures_ret].
    destruct (money_submit_error_clears_journal e) eqn:Ec.
    - eapply ensures_bind; [apply (ensures_clear _ _ _ _ _ _ _ _ (fun _ => True)); [intros t Ht; by apply Ht|done]|].
      intros []. apply ensures_refuses.
    - destruct (is_ambiguous_submit_error e); [by apply ensures_ret|apply ensures_refuses]. }
  intros []. eapply ensures_bind; [apply prog_knows; [apply learns_wait_matched|apply lasting_true]|intros fill].
  eapply ensures_bind; [apply outcome_knows|intros found; apply ensures_pure; intros Hf%ok_or_ok; subst fill].
  eapply ensures_bind; [apply outcome_knows|intros tc; apply ensures_pure; intros Hc].
  assert (tc = mf_token_contract found /\ takes found) as [-> Htake].
  { destruct (correlated_buy_token_contract _ _ _ _) as [c|e|] eqn:E; [|done..]. injection Hc as <-.
    apply correlated_deal in E as [-> E]. split; [done|by apply Htakes]. }
  eapply ensures_bind; [apply ensures_mapping, ensures_resolved; [done|]|intros []].
  { apply lasting_and; [done|]. intros t0 t. apply fill_seen_grown. }
  eapply ensures_bind; [apply prog_knows; [apply learns_matched_state|]|intros status].
  { apply lasting_and; [apply lasting_and; [done|]|].
    - intros t0 t. apply fill_seen_grown.
    - intros t0 t Hg (j & first & rest & Hm & Hr & Ho). exists j, first, rest.
      split_and!; [done|by eapply recorded_grown|by eapply written_last_plain]. }
  eapply ensures_bind; [apply (ensures_clear _ _ _ _ _ _ _ _ (fun _ => True)); [|done]|intros []; by apply ensures_ret].
  intros t (((_ & Hs) & j & first & rest & [= <- <-] & Hr & Ho) & Hst). by eapply closed_filled.
Qed.

(** ** Reconciling a record *)
Lemma learns_facts j note :
  ours note ->
  learns (S:=desk) jtr plain (buyer_order_facts_for_note parse_address (j_order_book j) note) (facts_seen j).
Proof.
  intros Hn. unfold buyer_order_facts_for_note. eapply learns_bind; [apply learns_outcome|intros ob|].
  { eapply (learns_bind _ _ _ _ _ (fun own facts t => exists ms, MOrders ob (Ok ms) ∈ t /\ facts_of parse_address own ms = Ok facts));
      [apply learns_outcome|intros own|].
    - eapply learns_bind; [apply quiet_on_chain; by apply (learns_entered plain (MOrders ob))|intros ms; apply learns_outcome|].
      cbn beta. intros ms facts t t' Hm Hg Hf. exists ms. split; [by eapply grown_elem|done].
    - cbn beta. instantiate (1 := fun ob facts t => exists own ms,
        parse_address note = Some own /\ MOrders ob (Ok ms) ∈ t /\ facts_of parse_address own ms = Ok facts).
      intros own facts t t' Hown%ok_or_ok Hg (ms & Hm & Hf). by exists own, ms. }
  cbn beta. intros ob facts t t' Hob%ok_or_ok Hg (own & ms & Hown & Hm & Hf). by exists ob, note, own, ms.
Qed.
Lemma ensures_unfilled note j :
  ours note ->
  ensures (recorded j) (resolve_unfilled_buyer_submit parse_address model_hash_for note j) done_with anyhow.
Proof.
  intros Hn. unfold resolve_unfilled_buyer_submit.
  eapply ensures_bind; [apply prog_knows; [by apply learns_facts|apply lasting_recorded]|intros facts].
  eapply ensures_bind; [apply ensures_asks|intros now].
  eapply ensures_bind; [apply ensures_order_id, lasting_and; [done|apply lasting_recorded|intros t0 t; apply facts_seen_grown]|intros []].
  destruct (closes_record _) eqn:Ec; [|apply ensures_refuses].
  eapply ensures_bind; [apply (ensures_clear _ _ _ _ _ _ _ _ (fun _ => True)); [|done]|intros []; by apply ensures_ret].
  intros t [Hr Hf]. by eapply closed_by_book.
Qed.
Lemma ensures_close_by_facts note j :
  ours note ->
  ensures (recorded j) (close_by_facts parse_address model_hash_for note j) done_with anyhow.
Proof.
  intros Hn. unfold close_by_facts.
  eapply ensures_bind; [apply prog_knows; [by apply learns_facts|apply lasting_recorded]|intros facts].
  eapply ensures_bind; [apply ensures_asks|intros now].
  eapply ensures_bind; [apply ensures_order_id, lasting_and; [done|apply lasting_recorded|intros t0 t; apply facts_seen_grown]|intros []].
  destruct (closes_record _) eqn:Ec; [|apply ensures_refuses]. cbn [negb].
  assert (ensures (fun t => recorded j t /\ facts_seen j facts t) clear_buyer_submit_journal done_with anyhow).
  { apply (ensures_clear _ _ _ _ _ _ _ _ (fun _ => True)); [|done]. intros t [Hr Hf]. by eapply closed_by_book. }
  by destruct (classify_buyer_submit_standing j facts now); try apply ensures_unreachable.
Qed.
Lemma ensures_fills P fuel book cursor wait started :
  lasting plain P -> ensures P (poll_fills parse_address (W:=world) fuel book cursor wait started) (fun _ => P) anyhow.
Proof.
  intros HP. revert cursor. induction fuel as [|fuel IH]; intros cursor; [apply ensures_starved|]. cbn [poll_fills].
  eapply ensures_bind; [apply prog_knows; [apply quiet_on_chain|exact HP]|].
  { unfold poll_matched_model_buys_for_order_book.
    apply learns_after; [eapply learns_weak, learns_outcome|intros ob]. apply (quiet_poll parse_address snd plain). }
  intros [[|fill fills] c']; [|apply ensures_ret; tauto]. destruct wait as [timeout|]; [|apply ensures_ret; tauto].
  eapply ensures_bind; [apply ensures_asks|intros now]. destruct (_ <=? _); [apply ensures_ret; tauto|].
  eapply ensures_bind; [apply prog_knows; [by apply quiet_on_chain, learns_run|]|intros []].
  - apply lasting_and; [done|apply lasting_true].
  - eapply ensures_pre; [apply IH|]. tauto.
Qed.
Lemma ensures_reconcile_fills P note j fills :
  ours note ->
  ensures P (reconcile_fills parse_address model_hash_for note j fills) done_with anyhow.
Proof.
  intros Hn. unfold reconcile_fills. eapply (ensures_bind _ _ _ _ done_with).
  - destruct (matching_fills j fills); [by apply ensures_ret|].
    eapply ensures_conseq; [by apply (ensures_resolved (fun _ => True) note)|..]; done.
  - intros []. destruct (matching_fills j fills) as [|fill [|]]; [apply ensures_refuses| |apply ensures_refuses].
    eapply ensures_bind; [apply prog_knows; [apply learns_matched_state|done]|intros status; by apply ensures_ret].
Qed.
Lemma ensures_reconcile fuel note wait :
  ours note ->
  ensures (fun _ => True) (reconcile_pending_buyer_submit parse_address model_hash_for fuel note wait) done_with anyhow.
Proof.
  intros Hn. unfold reconcile_pending_buyer_submit. eapply ensures_bind; [by apply load_knows|intros [j|]; [|by apply ensures_ret]].
  destruct (j_resolved_matches j); [|by apply ensures_reconcile_fills].
  eapply ensures_bind; [apply ensures_asks|intros started].
  eapply (ensures_bind _ _ _ _ (fun _ => recorded j)); [eapply ensures_pre; [apply ensures_fills, lasting_recorded|]|].
  - intros t (_ & _ & Hr). exact Hr.
  - intros [|fill fills]; [by apply ensures_unfilled|by apply ensures_reconcile_fills].
Qed.

(** ** Whole commands *)
Lemma ensures_resume_pending fuel inv selection note pending :
  ours note ->
  ensures (fun _ => True) (resume_pending parse_address model_hash_for fuel inv selection note pending)
    (fun r _ => match r with Submitted _ => False | _ => True end) anyhow.
Proof.
  intros Hn. unfold resume_pending. destruct (bool_decide (in_kind _ = _)).
  - eapply ensures_bind; [by apply ensures_reconcile|intros r]. eapply ensures_bind; [by apply load_knows|intros [j|]];
      [apply ensures_refuses|by apply ensures_ret].
  - eapply ensures_bind; [apply ensures_asks|intros book].
    eapply ensures_bind; [apply outcome_knows|intros current; apply ensures_pure; intros _].
    destruct (negb _); [apply ensures_refuses|].
    eapply ensures_bind; [apply outcome_knows|intros []; apply ensures_pure; intros _].
    eapply ensures_bind; [apply ensures_mapping; by apply ensures_reconcile|intros [[tc status]|]]; [|by apply ensures_ret].
    eapply ensures_bind; [apply outcome_knows|intros proof; apply ensures_pure; intros _]. by apply ensures_ret.
Qed.
(** Placing is allowed when the file was just read to be absent. *)
Definition start_known (r : DurableBuyerSubmitStart) (t : list MoneyCall) : Prop :=
  match r with Submitted (Err e) => clears_rightly parse_address model_hash_for ours takes e t | _ => True end.
Lemma ensures_start (K : list MoneyCall -> Prop) fuel me inv selection note :
  ours note ->
  (forall r t, K t -> K (MRead r :: t)) -> (forall t, absent t -> K t -> may t) ->
  (forall j, record_of inv selection j -> Q j) ->
  ensures K (start_durable_buyer_submit parse_address money_submit_identity model_hash_for fuel me inv selection note)
    start_known anyhow.
Proof.
  intros Hn HK Hmay HQ. unfold start_durable_buyer_submit.
  eapply ensures_bind; [apply outcome_knows|intros []; apply ensures_pure; intros _].
  eapply ensures_bind; [eapply ensures_conseq; [by apply (ensures_load _ _ _ ours Q may takes K)|..]; try done|intros [pending|]]; cbn beta.
  - eapply ensures_conseq; [by apply ensures_resume_pending|done| |done]. by intros [].
  - eapply ensures_bind; [by apply ensures_silent|intros []].
    eapply (ensures_bind _ _ _ _ (fun r => start_known (Submitted r))); [|intros result; by apply ensures_ret].
    eapply ensures_conseq; [eapply (ensures_tries _ _ _ _ _ anyhow), (ensures_place _ _ _ _ _ _ _ may_lasts me inv selection note HQ)| | |done].
    + intros t [HKt Ha]. split; [done|by apply Hmay].
    + by intros [[]|e|] t.
Qed.
Lemma ensures_finish fuel inv selection note start :
  ours note ->
  (forall fill, fills_the_terms (se_quoted_order selection) (iv_ticks inv) (iv_max_price_per_tick inv) fill -> takes fill) ->
  ensures (start_known start) (finish_started parse_address model_hash_for fuel inv selection note start) done_with anyhow.
Proof.
  intros Hn Htakes. unfold finish_started. destruct start as [result|proof tc status|identity]; [|..|apply ensures_refuses].
  2: eapply ensures_bind; [by apply ensures_silent|intros []; by apply ensures_ret].
  unfold finish_submitted, submitted_reconciliation.
  set (P := fun t => match result with Err e => clears_rightly parse_address model_hash_for ours takes e t | _ => True end).
  eapply (ensures_bind _ P _ _ (fun _ => P)).
  { destruct result as [[]|e|]; [by apply ensures_ret| |by apply ensures_ret].
    destruct (is_ambiguous_submit_error e) eqn:Ea; [|by apply ensures_ret].
    eapply ensures_pre; [eapply (ensures_bind _ (fun _ => money_submit_error_clears_journal e = false))|].
    - by apply load_knows; [|intros t0 t _].
    - intros j. eapply ensures_bind; [apply outcome_knows|intros journal; apply ensures_pure; intros _].
      eapply ensures_bind; [apply outcome_knows|intros reconciliation; apply ensures_pure; intros _].
      apply ensures_ret. intros t [Hc _]. unfold P, clears_rightly. by rewrite Hc.
    - intros t _. by apply ambiguous_keeps. }
  intros reconciliation. eapply ensures_bind; [by apply ensures_silent|intros []].
  destruct (in_kind (iv_intent inv)), reconciliation; try apply ensures_refuses;
    (eapply ensures_bind; [by apply ensures_complete|intros [tc status]; by apply ensures_ret]).
Qed.
End Parts.
(** The commands that keep the record, and what each may write and when it may place. *)
Inductive MoneyCommand : Type :=
| Buys (me : RealBuyerBackend) (inv : Invocation) (selection : BuyerQuoteSelection)
| Resumes (me : RealBuyerBackend) (inv : Invocation) (recovery : bool)
| Adopts (submit_identity : option string) (token_contract : TokenContract)
| Closes.
Definition obeys (fuel : nat) (note_addr : string) (c : MoneyCommand) : money desk unit :=
  match c with
  | Buys me inv selection =>
      execute_buyer_quote_submit parse_address money_submit_identity model_hash_for fuel me (Some note_addr) inv selection;;
      mret tt
  | Resumes me inv recovery =>
      raise_pending_buyer_money_before_fresh_reads parse_address money_submit_identity model_hash_for fuel me
        (Some note_addr) inv recovery;;
      mret tt
  | Adopts submit_identity token_contract =>
      clear_adopted_buyer_money_journal parse_address model_hash_for (Some note_addr) submit_identity token_contract
  | Closes => run_buyer_submit_journal parse_address model_hash_for note_addr
  end.
Definition may_write (c : MoneyCommand) (j : BuyerSubmitJournal) : Prop :=
  match c with
  | Buys _ inv selection => record_of inv selection j
  | Resumes _ inv _ => exists selection, record_of inv selection j
  | _ => False
  end.
Definition may_place (c : MoneyCommand) (t : list MoneyCall) : Prop :=
  match c with Buys _ _ _ => True | Resumes _ _ _ => disturbed t | _ => False end.
Lemma lasting_disturbed ok : lasting ok disturbed.
Proof.
  intros t0 t (more & -> & _) (later & found & earlier & known & -> & H). exists (more ++ later), found, earlier, known.
  by rewrite app_assoc.
Qed.
Lemma may_place_lasts c : lasting plain (may_place c).
Proof. intros t0 t Hg. destruct c; simpl; [done|by apply (lasting_disturbed plain)|done|done]. Qed.

(** The note as the command names it, or as it is parsed; and the fills a command may take
    as its own: a buy's, those of its terms. *)
Definition names_note (note n : string) : Prop := n = note \/ parse_address note = Some n.
Definition may_take (c : MoneyCommand) (fill : MatchedFill) : Prop :=
  match c with
  | Buys _ inv selection =>
      fills_the_terms (se_quoted_order selection) (iv_ticks inv) (iv_max_price_per_tick inv) fill
  | _ => False
  end.

Abbreviation law_of note c :=
  (lawful parse_address money_submit_identity model_hash_for (names_note note) (may_write c) (may_place c) (may_take c)).
Abbreviation keeps_law fuel note c :=
  (ensures (W:=W) (law_of note c) (fun _ => True) (obeys fuel note c) (fun _ _ => True) anyhow).
Lemma buys_lawful fuel note me inv selection : keeps_law fuel note (Buys me inv selection).
Proof.
  cbn [obeys]. eapply (ensures_bind _ _ _ _ (fun _ _ => True)); [apply ensures_lock; intros own Hown|intros r; by apply ensures_ret].
  assert (names_note note own) as Hn by by right.
  assert (ensures (W:=W) (law_of note (Buys me inv selection)) (fun _ => True)
    (start_durable_buyer_submit parse_address money_submit_identity model_hash_for fuel me inv selection own)
    (start_known (names_note note) (may_take (Buys me inv selection))) anyhow)
    as Hstart by by apply (ensures_start _ _ _ _ (may_place_lasts (Buys me inv selection)) (fun _ => True)).
  eapply ensures_bind; [apply Hstart|intros start].
  eapply (ensures_bind _ _ _ _ (start_known (names_note note) (may_take (Buys me inv selection))));
    [|intros start'; by apply ensures_finish].
  destruct start as [r|proof tc status|identity]; [by apply ensures_ret..|].
  eapply ensures_pre; [apply Hstart|done].
Qed.
(** A file that was seen to hold a record, or someone else at it. *)
Definition present (t : list MoneyCall) : Prop := (exists document, on_file t = Some (Some document)) \/ disturbed t.
Lemma present_read r t : present t -> present (MRead r :: t).
Proof.
  assert (grown any_call t (MRead r :: t)) as Hg by by apply grown_cons, grown_refl.
  intros [[d Hd]|Hd]; [|right; by eapply lasting_disturbed].
  destruct r as [[d'|]|e|]; [left; by exists d'|right|left; by exists d..]. by exists [], None, t, (Some d).
Qed.
Lemma absent_on_file t : absent t -> on_file t = Some None.
Proof.
  intros (mid & before & -> & Hm). apply (on_file_plain (MRead (Ok None) :: before)). by exists mid.
Qed.
Lemma resumes_lawful fuel note me inv recovery : keeps_law fuel note (Resumes me inv recovery).
Proof.
  cbn [obeys]. eapply (ensures_bind _ _ _ _ (fun _ _ => True)); [apply ensures_lock; intros own Hown|intros r; by apply ensures_ret].
  assert (names_note note own) as Hn by by right.
  eapply ensures_bind; [eapply ensures_conseq; [by apply (ensures_load_money _ _ _ _ _ _ _ (fun _ => True))|done..]|].
  intros [[pending|pending]|]; [|apply ensures_refuses|by apply ensures_ret].
  eapply ensures_bind; [eapply ensures_pre; [apply (ensures_start _ _ _ _ (may_place_lasts (Resumes me inv recovery)) present)|]|].
  - exact Hn.
  - apply present_read.
  - intros t Ha [[d Hd]|Hd]; [|done]. by rewrite (absent_on_file _ Ha) in Hd.
  - intros j Hj. by exists (pending_selection pending).
  - intros t (_ & (d & Hd & _) & _). left. by exists d.
  - intros [r|proof tc status|identity]; [apply ensures_unreachable|by apply ensures_ret..].
Qed.
Lemma adopts_lawful fuel note identity tc : keeps_law fuel note (Adopts identity tc).
Proof.
  cbn [obeys]. unfold clear_adopted_buyer_money_journal. destruct identity as [identity|]; [|by apply ensures_ret].
  apply ensures_lock. intros own Hown. assert (names_note note own) as Hn by by right. eapply ensures_bind; [by apply load_knows|intros r].
  eapply ensures_bind; [apply outcome_knows|intros j; apply ensures_pure; intros Hj%ok_or_ok; subst r].
  destruct (_ || _) eqn:E; [apply ensures_refuses|]. apply orb_false_iff in E as [_ E]. apply negb_false_iff in E.
  apply (ensures_clear _ _ _ _ _ _ _ _ (fun _ => True)); [|done]. intros t (_ & Hh & _). by eapply closed_adopted.
Qed.
Lemma closes_lawful fuel note : keeps_law fuel note Closes.
Proof.
  cbn [obeys]. unfold run_buyer_submit_journal. apply ensures_lock. intros own Hown.
  assert (names_note note note) as Hn by by left.
  eapply ensures_bind; [by apply load_knows|intros [j|]; [|by apply ensures_ret]].
  eapply ensures_bind; [apply outcome_knows|intros canonical_note; apply ensures_pure; intros _].
  eapply ensures_bind; [apply outcome_knows|intros book; apply ensures_pure; intros Hbook%ok_or_ok].
  eapply (ensures_bind _ _ _ _ (fun r t => (holds parse_address model_hash_for (names_note note) j t /\
    recorded parse_address model_hash_for (names_note note) j t) /\ exists messages fills,
    MMessages (Ok messages) ∈ t /\ fills_of parse_address (default book (parse_address book)) true messages = Ok fills /\
    r = consume_new_fill_batch (j_cursor j) fills)).
  { eapply ensures_pre; [apply prog_knows; [apply quiet_on_chain, learns_poll_fills|]|].
    - apply lasting_and; [intros t0 t; apply holds_plain|apply lasting_recorded].
    - intros t (_ & H). exact H. }
  intros [fills cursor]. destruct (matching_fills j fills) as [|fill [|]] eqn:Em; [| |apply ensures_refuses].
  - eapply ensures_pre; [by apply ensures_close_by_facts|]. intros t ((_ & Hr) & _). exact Hr.
  - apply (ensures_clear _ _ _ _ _ _ _ _ (fun _ => True)); [|done].
    intros t ((Hh & _) & ms & fs & Hm & Hf & [= -> ->]). by eapply closed_by_one_fill.
Qed.
Lemma commands_lawful fuel note c : keeps_law fuel note c.
Proof. destruct c; [apply buys_lawful|apply resumes_lawful|apply adopts_lawful|apply closes_lawful]. Qed.
(** The law read off a run that starts with nothing on its trace. *)
Lemma obeyed fuel note c (s : desk) : jtr s = [] -> law_of note c (jtr (snd (obeys fuel note c s))).
Proof.
  intros Hs. apply (commands_lawful fuel note c s); [|done]. rewrite Hs. apply lawful_nil.
Qed.
End Commands.

(** ** What the commands promise *)
Section Promises.
Context (parse_address : string -> option string) (money_submit_identity : string -> string).
Context (model_hash_for : string -> string).
Context {W : Type} `{HB : BuyChain W} `{HC : Clock W} `{HM : MoneyDesk W}.
Abbreviation desk := (BuyState (traced W MoneyCall)).
Abbreviation run_of fuel note c := (fun s : desk => jtr (snd (obeys parse_address money_submit_identity model_hash_for fuel note c s))).

(** C8: Money is posted only over its own record.  Over a desk whose chain and files answer
    anything, whatever command runs: before a POST the file was read to be absent, and
    then a record that validates, that carries the terms of this invocation and the
    identity of this very message was written without an error; since then there were
    only refusals of the same message that were decoded and transient. *)
Theorem posts_are_over_their_own_record (fuel : nat) (note : string) (c : MoneyCommand) (s : desk)
    (later earlier : list MoneyCall) (boc : string) (answer : outcome ChainError unit) :
  jtr s = [] -> run_of fuel note c s = later ++ MPost boc answer :: earlier ->
  exists tries j before,
    earlier = tries ++ MWrite j (Ok tt) :: before /\ Forall (refused_try boc) tries /\ absent before /\
    valid parse_address j /\ may_write c j /\ j_submit_identity j = money_submit_identity boc.
Proof.
  intros Hs Ht. pose proof (obeyed parse_address money_submit_identity model_hash_for fuel note c s Hs _ _ _ Ht)
    as (tries & j & before & He & Htries & Ha & _ & Hv & Hw & Hi).
  by exists tries, j, before.
Qed.


(** C10: Recovery posts nothing.  A resume, an adoption and the operator's close never POST
    while nobody else is at the file: however the chain answers, when every read of the
    file finds what the command itself last left or saw there, no message is sent. *)
Theorem recovery_posts_nothing (fuel : nat) (note : string) (c : MoneyCommand) (s : desk) :
  jtr s = [] -> (forall me inv selection, c <> Buys me inv selection) -> ~ disturbed (run_of fuel note c s) ->
  Forall (fun call => is_post call = false) (run_of fuel note c s).
Proof.
  intros Hs Hc Hd. cbv beta in *. pose proof (obeyed parse_address money_submit_identity model_hash_for fuel note c s Hs) as Hl.
  apply Forall_forall. intros call Hin. destruct (is_post call) eqn:Ep; [|done]. exfalso.
  destruct call as [boc answer| | | | | | |]; try done. apply list_elem_of_split in Hin as (later & earlier & Ht).
  pose proof (Hl _ _ _ Ht) as (tries & j & before & He & _ & _ & Hm & _). rewrite Ht in Hd. subst earlier.
  assert (grown any_call before (later ++ MPost boc answer :: tries ++ MWrite j (Ok tt) :: before)) as Hg.
  { exists (later ++ MPost boc answer :: tries ++ [MWrite j (Ok tt)]). rewrite <- app_assoc. simpl. rewrite <- app_assoc.
    split; [done|]. by apply Forall_forall. }
  destruct c as [me inv sel| | |]; [by eapply Hc|..|done|done]. by eapply Hd, lasting_disturbed.
Qed.

(** A record in use keeps its identity and its terms: each write makes the record of a
    new submit over an absent file, or completes the one on file. *)
Theorem records_keep_their_terms (fuel : nat) (note : string) (c : MoneyCommand) (s : desk)
    (later earlier : list MoneyCall) (j : BuyerSubmitJournal) (answer : outcome string unit) :
  jtr s = [] -> run_of fuel note c s = later ++ MWrite j answer :: earlier ->
  valid parse_address j /\
  ((absent earlier /\ may_write c j) \/
   exists j0, holds parse_address model_hash_for (names_note parse_address note) j0 earlier /\ completes j0 j).
Proof. intros Hs Ht. exact (obeyed parse_address money_submit_identity model_hash_for fuel note c s Hs _ _ _ Ht). Qed.

(** Every command ends.  On a clock that moves in sleeps and that no read of the note
    turns back, it returns a value or an error before its fuel is spent, when the fuel is
    one read more than the polls that the wait for a deal leaves room for. *)
Theorem money_commands_end `{!ClockLaws W} (fuel : nat) (note : string) (c : MoneyCommand) (s : desk) :
  forward (W:=W) by_note_messages ->
  DEAL_WAIT_SECS * 1000 <= INFERENCE_FILL_POLL_INTERVAL * (Z.of_nat fuel - 1) ->
  fst (obeys parse_address money_submit_identity model_hash_for fuel note c s) <> None.
Proof.
  intros Hf Hd. assert (1 <= fuel)%nat as H1 by (unfold DEAL_WAIT_SECS, INFERENCE_FILL_POLL_INTERVAL in Hd; lia).
  assert (forward (W:=traced W MoneyCall) by_note_messages) as Hft.
  { intros [w t]. specialize (Hf w). simpl in *. unfold entered. simpl. by destruct (by_note_messages w). }
  revert s. change (answers (obeys parse_address money_submit_identity model_hash_for fuel note c)).
  destruct c as [me inv selection|me inv recovery|identity tc|]; cbn [obeys].
  - unfold execute_buyer_quote_submit.
    telling_by ltac:(by apply says_started).
    apply (says_finished (W:=traced W MoneyCall) parse_address model_hash_for Hft fuel H1 Hd).
  - unfold raise_pending_buyer_money_before_fresh_reads. telling_by ltac:(by apply says_started).
  - unfold clear_adopted_buyer_money_journal. telling.
  - unfold run_buyer_submit_journal, close_by_facts, persist_standing_order_id. telling.
Qed.
End Promises.

(** ** When the book's facts close a record *)

(** What the book must have said: of the record's own order, once it is known, the last
    thing but refunds is its cancellation, or its expiry with a refund of the same order;
    of a record without an order, that an order of the note was rejected since. *)
Definition is_refund (fact : BuyerOrderFact) : Prop := exists id amount, of_kind fact = FactRefunded id amount.
Definition proven_exit (order_id : Z) (facts : list BuyerOrderFact) (fact : BuyerOrderFact) : Prop :=
  match of_kind fact with
  | FactCancelled _ _ => True
  | FactExpired _ => exists refund amount, In refund facts /\ of_kind refund = FactRefunded order_id amount
  | _ => False
  end.
Definition released (j : BuyerSubmitJournal) (facts : list BuyerOrderFact) : Prop :=
  match own_order_id j facts with
  | Some order_id =>
      exists before fact after,
        List.filter (names_order order_id) facts = before ++ fact :: after /\ Forall is_refund after /\
        proven_exit order_id facts fact
  | None => exists fact reason refund, In fact facts /\ mine j fact = true /\ of_kind fact = FactRejected reason refund
  end.

Lemma refunds_iff order_id facts :
  existsb (refunds order_id) facts = true <->
  exists refund amount, In refund facts /\ of_kind refund = FactRefunded order_id amount.
Proof.
  rewrite existsb_exists. split.
  - intros (f & Hin & Hf). unfold refunds in Hf. destruct (of_kind f) as [| | |id amount|] eqn:E; try done.
    apply Z.eqb_eq in Hf as ->. by exists f, amount.
  - intros (f & amount & Hin & Hf). exists f. split; [done|]. unfold refunds. rewrite Hf. apply Z.eqb_refl.
Qed.
Definition exits (order_id : Z) (facts : list BuyerOrderFact) (l : list BuyerOrderFact) : Prop :=
  exists before fact after, l = before ++ fact :: after /\ Forall is_refund after /\ proven_exit order_id facts fact.
Lemma exits_snoc_refund order_id facts l f : is_refund f -> exits order_id facts (l ++ [f]) <-> exits order_id facts l.
Proof.
  intros (id & amount & Hf). split.
  - intros (before & fact & after & He & Hr & Hp). destruct after as [|f' after _] using rev_ind.
    + apply app_inj_tail in He as [<- <-]. unfold proven_exit in Hp. by rewrite Hf in Hp.
    + rewrite app_comm_cons, app_assoc in He. apply app_inj_tail in He as [-> <-].
      apply Forall_app in Hr as [Hr _]. by exists before, fact, after.
  - intros (before & fact & after & -> & Hr & Hp). exists before, fact, (after ++ [f]).
    rewrite <- app_assoc. split_and!; [done| |done]. apply Forall_app. split; [done|]. constructor; [|done]. by eexists _, _.
Qed.
Lemma exits_snoc order_id facts l f : ~ is_refund f -> exits order_id facts (l ++ [f]) <-> proven_exit order_id facts f.
Proof.
  intros Hf. split.
  - intros (before & fact & after & He & Hr & Hp). destruct after as [|f' after _] using rev_ind.
    + by apply app_inj_tail in He as [_ ->].
    + rewrite app_comm_cons, app_assoc in He. apply app_inj_tail in He as [_ ->].
      apply Forall_app in Hr as [_ Hr]. inversion Hr. done.
  - intros Hp. by exists l, f, [].
Qed.
Lemma fold_closes order_id now facts l :
  (forall f, In f l -> fact_order_id f <> None) ->
  closes_record (fold_left (fold_standing order_id now (existsb (refunds order_id) facts)) l
    (StandingUnresolved (Some order_id) Unproven)) = true <-> exits order_id facts l.
Proof.
  induction l as [|f l IH] using rev_ind; intros Hids.
  { split; [done|]. intros ([] & fact & after & He & _); done. }
  assert (forall g, In g l -> fact_order_id g <> None) as Hl by (intros g Hg; apply Hids, in_app_iff; by left).
  assert (fact_order_id f <> None) as Hid by (apply Hids, in_app_iff; right; by left).
  rewrite fold_left_app. cbn [fold_left]. unfold fold_standing at 1. unfold fact_order_id in Hid.
  destruct (of_kind f) as [id price ticks deadline|id refunded|id|id amount|reason refund] eqn:Ek.
  1-3: rewrite exits_snoc by (intros (? & ? & Hr); congruence); unfold proven_exit; rewrite Ek.
  - split; [|done]. by destruct (_ && _).
  - done.
  - rewrite <- refunds_iff. by destruct (existsb _ _).
  - rewrite exits_snoc_refund by (by eexists _, _). by apply IH.
  - done.
Qed.

(** C11: The book closes a record exactly when it proved the escrow released.  Whatever facts
    the book reports, and whatever the client's clock says, the standing of the order
    closes its record if and only if the last of its facts but refunds is a
    cancellation, or an expiry for whose order a refund is reported too; or, for a
    record no placement can be attributed to, a rejection was reported since it was written. *)
Theorem standings_close_on_released_escrow (j : BuyerSubmitJournal) (facts : list BuyerOrderFact) (now : Z) :
  closes_record (classify_buyer_submit_standing j facts now) = true <-> released j facts.
Proof.
  unfold classify_buyer_submit_standing, released. destruct (own_order_id j facts) as [order_id|].
  - apply fold_closes. intros f Hf. apply filter_In in Hf as [_ Hf]. unfold names_order in Hf.
    apply bool_decide_eq_true in Hf. by rewrite Hf.
  - split.
    + destruct (omap rejected_standing (List.filter (mine j) facts)) as [|st l] eqn:E; [done|]. simpl. intros _.
      assert (st ∈ omap rejected_standing (List.filter (mine j) facts)) as Hst by (rewrite E; left).
      apply list_elem_of_omap in Hst as (f & Hin & Hf). apply list_elem_of_In, filter_In in Hin as [Hin Hm].
      unfold rejected_standing in Hf. destruct (of_kind f) as [| | | |reason refund] eqn:Ek; try done. by exists f, reason, refund.
    + intros (f & reason & refund & Hin & Hm & Hk).
      assert (StandingRejected reason refund ProvenByChain ∈ omap rejected_standing (List.filter (mine j) facts)) as Hst.
      { apply list_elem_of_omap. exists f. split; [by apply list_elem_of_In, filter_In|]. unfold rejected_standing. by rewrite Hk. }
      assert (Forall (fun st => closes_record st = true) (omap rejected_standing (List.filter (mine j) facts))) as Hall.
      { apply Forall_forall. intros st Hin'. apply list_elem_of_omap in Hin' as (g & _ & Hg). unfold rejected_standing in Hg.
        by destruct (of_kind g); try done; injection Hg as <-. }
      destruct (omap rejected_standing _) as [|st l]; [by apply not_elem_of_nil in Hst|]. simpl. by inversion Hall.
Qed.

(** ** A record and its file *)
Lemma case_iff a b : tc_same a b = true <-> to_ascii_lowercase (to_text a) = to_ascii_lowercase (to_text b).
Proof. apply tc_same_iff. Qed.
Lemma reload_same a b : tc_same a b = true -> tc_same (reload_tc a) (reload_tc b) = true.
Proof. rewrite !case_iff. unfold reload_tc. rewrite !to_of_text. apply reload_case. Qed.
Lemma reload_spelled a : half_ok (account_id a) -> reload_tc (of_text (legacy a)) = of_text (legacy a).
Proof. intros Ha. unfold reload_tc. rewrite to_of_text. by rewrite (reload_self_dapp_ok (legacy a) _ (parse_legacy _ Ha)). Qed.

Section Reading.
Context (parse_address : string -> option string) (model_hash_for : string -> string).
(** The SDK's parser gives the legacy spelling of an account, and reads what the
    adapters of a file make of an address as that address. *)
Context (parsed_is_legacy : forall s c, parse_address s = Some c -> exists a, half_ok (account_id a) /\ c = of_text (legacy a)).
Context (reads_reloaded : forall s c, parse_address s = Some c ->
  parse_address (reload_tc s) = Some c /\ parse_address (reload_note s) = Some c).

Lemma parsed_ok s m c : parsed parse_address s m = Ok c <-> parse_address s = Some c.
Proof. apply ok_or_ok. Qed.
Lemma parsed_reload s m m' c : parsed parse_address s m = Ok c -> parsed parse_address (reload_tc s) m' = Ok c.
Proof. rewrite !parsed_ok. intros H. exact (proj1 (reads_reloaded _ _ H)). Qed.
Lemma parsed_reload_note s m m' c : parsed parse_address s m = Ok c -> parsed parse_address (reload_note s) m' = Ok c.
Proof. rewrite !parsed_ok. intros H. exact (proj2 (reads_reloaded _ _ H)). Qed.
Lemma canonical_reload s m c q : parsed parse_address s m = Ok c -> tc_same c q = true -> tc_same c (reload_tc q) = true.
Proof.
  intros Hp Hs%reload_same. apply parsed_ok, parsed_is_legacy in Hp as (a & Ha & ->). by rewrite reload_spelled in Hs.
Qed.

Lemma reload_intent_ok i : validate_intent parse_address i = Ok tt -> validate_intent parse_address (reload_intent i) = Ok tt.
Proof.
  unfold validate_intent. destruct i as [kind [p|]]; cbn [in_kind in_predecessor reload_intent option_map]; [|done].
  rewrite !(bool_decide_eq_true_2 (is_Some (Some _))) by done.
  destruct (negb _); [done|]. destruct (parsed parse_address p _) as [c|e|] eqn:E; try done. intros _.
  by rewrite (parsed_reload _ _ _ _ E).
Qed.
Lemma reload_resolved_ok seen ms :
  validate_resolved parse_address seen ms = Ok tt -> validate_resolved parse_address seen (map reload_match_record ms) = Ok tt.
Proof.
  revert seen. induction ms as [|m ms IH]; intros seen; [done|]. cbn [validate_resolved map reload_match_record jm_token_contract].
  destruct (parsed parse_address (jm_token_contract m) _) as [c|e|] eqn:E; try done.
  rewrite (parsed_reload _ _ _ _ E). destruct (bool_decide _); [done|]. apply IH.
Qed.
Lemma reload_quote_ok o tc j :
  ob_token_contract o = Some tc ->
  validate_quote o tc j = Ok tt -> validate_quote (reload_order o) (reload_tc tc) (respelled j) = Ok tt.
Proof.
  intros Hob. unfold validate_quote.
  assert (is_resting_ask (reload_order o) = is_resting_ask o) as -> by (unfold is_resting_ask, reload_order; simpl; by rewrite Hob).
  cbn [reload_order ob_ticks ob_price_per_tick ob_order_id respelled j_ticks j_max_price_per_tick j_quote reload_quote
       eq_fills eq_complete eq_filled_ticks eq_total_with_fee].
  destruct (_ || _); [done|]. destruct (eq_fills (j_quote j)) as [|f [|]]; [done| |done]. cbn [map reload_quote_fill
    qf_order_id qf_token_contract qf_ticks qf_price_per_tick qf_cost_with_fee].
  destruct (tc_same (qf_token_contract f) tc) eqn:E; [|by rewrite !andb_false_r].
  by rewrite (reload_same _ _ E).
Qed.
Lemma reload_quoted_ok o j :
  validate_quoted_order parse_address o j = Ok tt ->
  validate_quoted_order parse_address (reload_order o) (respelled j) = Ok tt.
Proof.
  unfold validate_quoted_order. cbn [reload_order ob_token_contract respelled j_expected_token_contract].
  destruct (ob_token_contract o) as [tc|] eqn:Eo; [|done]. cbn [ok_or fmap option_fmap option_map].
  destruct (parsed parse_address tc _) as [c|e|] eqn:E; try done. rewrite (parsed_reload _ _ _ _ E).
  destruct (j_expected_token_contract j) as [x|]; cbn [option_map].
  2: by apply reload_quote_ok.
  destruct (parsed parse_address x _) as [cx|e|] eqn:Ex; try done. rewrite (parsed_reload _ _ _ _ Ex).
  destruct (tc_same cx tc) eqn:Es; [|done]. rewrite (canonical_reload _ _ _ _ Ex Es). cbn [negb]. by apply reload_quote_ok.
Qed.
Lemma reload_request_ok j :
  match j_quoted_order j with Some o => validate_quoted_order parse_address o j | None => validate_resting j end = Ok tt ->
  match option_map reload_order (j_quoted_order j) with
  | Some o => validate_quoted_order parse_address o (respelled j)
  | None => validate_resting (respelled j)
  end = Ok tt.
Proof.
  destruct (j_quoted_order j) as [o|]; [apply reload_quoted_ok|]. cbn [option_map]. unfold validate_resting.
  cbn [respelled j_expected_token_contract j_quote reload_quote eq_complete eq_filled_ticks eq_total_with_fee eq_fills].
  by destruct (j_expected_token_contract j), (eq_fills (j_quote j)).
Qed.

(** C12: A record that was written is read back, or refused as invalid.  For an address
    parser that yields legacy spellings and reads what the adapters of a file make of an
    address: when a record validates for its note, the file it is written to loads as that
    record with its addresses respelled when every number of it is at most [u64::MAX], and
    as no record at all when one is larger. *)
Theorem written_records_are_read_back (j : BuyerSubmitJournal) (note : string) :
  validate_journal parse_address j note = Ok tt ->
  money_journal_of parse_address model_hash_for (reload_journal j) note
  = if forallb (fun n => n <=? U64_MAX) (json_numbers j) then Ok (BuyJournal (respelled j))
    else Err (Said "buyer money journal is invalid").
Proof.
  intros Hv. unfold money_journal_of, reload_journal, reads_back. destruct (forallb _ _); [|done].
  enough (validate_journal parse_address (respelled j) note = Ok tt) as -> by done.
  unfold validate_journal in *. cbn [respelled j_schema j_note_addr j_order_book j_intent j_escrow j_ticks
    j_max_price_per_tick j_quoted_order j_submit_identity j_resolved_match j_resolved_matches].
  destruct (bool_decide (j_schema j = _)); [|done]. cbn [negb] in *.
  destruct (parsed parse_address (j_note_addr j) _) as [own|e|] eqn:En; try done. rewrite (parsed_reload_note _ _ _ _ En).
  destruct (tc_same own note); [|done]. cbn [negb] in *.
  destruct (parsed parse_address (j_order_book j) _) as [book|e|] eqn:Eb; try done. rewrite (parsed_reload_note _ _ _ _ Eb).
  destruct (validate_intent parse_address (j_intent j)) as [[]|e|] eqn:Ei; try done. rewrite (reload_intent_ok _ Ei).
  destruct (saying _) as [[]|e|]; try done.
  destruct (match j_quoted_order j with Some o => _ | None => _ end) as [[]|e|] eqn:Eq; try done.
  rewrite (reload_request_ok _ Eq). destruct (validate_buyer_submit_identity _) as [[]|e|]; try done.
  destruct (j_resolved_match j) as [m|]; cbn [option_map reload_match_record jm_token_contract].
  - destruct (parsed parse_address (jm_token_contract m) _) as [c|e|] eqn:Em; try done. rewrite (parsed_reload _ _ _ _ Em).
    destruct (validate_resolved _ [] _) as [[]|e|] eqn:Er; try done. rewrite (reload_resolved_ok _ _ Er).
    destruct (j_resolved_matches j) as [|first rest]; [done|]. cbn [map].
    destruct (bool_decide (first = m)) eqn:E; [|done]. apply bool_decide_eq_true in E as ->. by rewrite bool_decide_eq_true_2.
  - destruct (validate_resolved _ [] _) as [[]|e|] eqn:Er; try done. rewrite (reload_resolved_ok _ _ Er).
    by destruct (j_resolved_matches j).
Qed.
End Reading.

(** ** A desk with one note *)

(** Its clock, the answers of the POSTs to come, whether one landed, the file, and the
    book's messages about the note's order. *)
Record Till : Type := mkTill {
  ti_now : Z; ti_answers : list (outcome ChainError unit); ti_landed : bool; ti_file : option JournalDocument;
  ti_orders : list OrderMessage }.
Definition set_file (file : option JournalDocument) (d : Till) : Till :=
  mkTill (ti_now d) (ti_answers d) (ti_landed d) file (ti_orders d).
Definition answer_post (d : Till) : outcome ChainError unit * Till :=
  match ti_answers d with
  | [] => (Ok tt, mkTill (ti_now d) [] true (ti_file d) (ti_orders d))
  | Ok _ :: rest => (Ok tt, mkTill (ti_now d) rest true (ti_file d) (ti_orders d))
  | r :: rest => (r, mkTill (ti_now d) rest (ti_landed d) (ti_file d) (ti_orders d))
  end.
Definition letters (c : ascii) : string := of_text (replicate 64 c).
Definition deal_b : string := ("0:" ++ letters "b")%string.
Definition note_addr : string := ("0:" ++ letters "1")%string.
Definition book_addr : string := ("0:" ++ letters "d")%string.
Definition ask_b : OrderBookOrder := {|
  ob_order_id := 5; ob_owner_note := "0:seller"; ob_token_contract := Some deal_b; ob_is_buy := false;
  ob_price_per_tick := 20; ob_ticks := 10; ob_escrow := 0; ob_deadline := 900; ob_flags := 0; ob_timestamp := 0 |}.
Definition unused_deal : DealChainState := mkDealState false false false false 0 0 0 0 0 None 0 0 0.
Definition funded_deal : DealChainState := mkDealState true false false false 80 0 0 0 0 (Some 500) 0 500 0.
(** The address parser of the desk: the client's own. *)
Definition sdk_parse (s : string) : option string :=
  match parse (to_text s) with Ok a => Some (of_text (legacy a)) | _ => None end.
#[local] Instance till_chain : BuyChain Till := {|
  by_unix_now d := Ok (500 + ti_now d / 1000);
  by_chain_time d := (Ok 495, d);
  by_book d := (Ok (mkBook "model" "hash" book_addr None [ask_b]), d);
  by_deal_state tc d := (Ok (Some (if ti_landed d then funded_deal else unused_deal)), d);
  by_subscription tc d := (Ok None, d);
  by_account_active tc d := (Ok true, d);
  by_balance tc d := (Ok 1000000000000, d);
  by_max_ticks tc d := (Ok (Some 10), d);
  by_owner_matches d := (Ok tt, d);
  by_note_details d := (Ok (Some (Some false)), d);
  by_note_ecc d := (Ok (Some 25000000), d);
  by_note_shell d := (Ok 1000, d);
  by_book_address d := (Ok book_addr, d);
  by_note_messages d :=
    (Ok (if ti_landed d then [mkNoteMessage (Some 500) (Ok (Some (mkNoteFill book_addr deal_b 5 4 20 true)))] else []), d);
  by_sign order d := (Ok "boc", d);
  by_route boc d := (Ok tt, d);
  by_post boc d := answer_post d;
  by_post_money boc d := answer_post d;
  by_settle_week tc d := (Ok tt, d) |}.
#[local] Instance till_clock : Clock Till := {|
  clock_now := ti_now; sleep d w := mkTill (ti_now w + d) (ti_answers w) (ti_landed w) (ti_file w) (ti_orders w) |}.
#[local] Instance till_desk : MoneyDesk Till := {|
  md_unix_now d := 500 + ti_now d / 1000;
  md_order_book d := Some book_addr;
  md_pool_ready note d := (Ok tt, d);
  md_pool_record note tc d := (Ok tt, d);
  md_lock recovery d := (Ok tt, d);
  md_unlock d := d;
  md_read d := (Ok (ti_file d), d);
  md_write j d := (Ok tt, set_file (Some (reload_journal j)) d);
  md_remove d := (Ok tt, set_file None d);
  md_order_messages book d := (Ok (ti_orders d), d);
  md_observed progress d := (Ok tt, d) |}.

Definition identity_of_boc (boc : string) : string := ("boc-sha256:" ++ letters "e")%string.
Definition the_quote : ExecutableQuote := mkQuote 4 82 true [mkQuoteFill 5 deal_b 4 20 82].
Definition the_backend : RealBuyerBackend := mkBuyer "hash" 50 4 204 false.
Definition the_invocation : Invocation := mkInvocation intent_foreground None 4 50 204.
Definition the_selection : BuyerQuoteSelection := mkSelection 204 the_quote false (Some ask_b).
Definition at_till (answers : list (outcome ChainError unit)) (file : option JournalDocument) (orders : list OrderMessage)
    : BuyState (traced Till MoneyCall) :=
  mkBuyState None (cursor_new 0) (mkTill 0 answers false file orders, []).
Abbreviation obeyed_at := (obeys sdk_parse identity_of_boc id (W:=Till) 400 note_addr).
Definition the_buy : MoneyCommand := Buys the_backend the_invocation the_selection.
Definition trace_at (c : MoneyCommand) (s : BuyState (traced Till MoneyCall)) : list MoneyCall := jtr (snd (obeyed_at c s)).
Definition file_at (c : MoneyCommand) (s : BuyState (traced Till MoneyCall)) : option JournalDocument :=
  ti_file (fst (bs_chain (snd (obeyed_at c s)))).

#[local] Instance till_clock_laws : ClockLaws Till.
Proof. constructor. intros d w _. simpl. lia. Qed.
Lemma money_commands_end_witness : fst (obeyed_at the_buy (at_till [] None [])) <> None.
Proof.
  apply (money_commands_end sdk_parse identity_of_boc id (W:=Till) 400 note_addr the_buy); [intros w; simpl; lia|by vm_compute].
Defined.

(** A buy that is filled: one POST over one record, which is removed at the end. *)
Definition filled : list MoneyCall := trace_at the_buy (at_till [] None []).
Definition kinds (t : list MoneyCall) : list string :=
  map (fun c => match c with
                | MPost _ _ => "post" | MBook _ => "book" | MMessages _ => "messages" | MState _ _ => "state" | MOrders _ _ => "orders"
                | MRead _ => "read" | MWrite _ _ => "write" | MRemove _ => "remove"
                end)%string t.
Example a_filled_buy : kinds filled = ["remove"; "state"; "write"; "read"; "messages"; "book"; "post"; "write"; "messages"; "state"; "state"; "read"]%string.
Proof. vm_compute. reflexivity. Qed.
Lemma filled_post :
  jtr (snd (obeyed_at the_buy (at_till [] None []))) = take 6 filled ++ MPost "boc" (Ok tt) :: drop 7 filled.
Proof. vm_compute. reflexivity. Qed.
Lemma filled_removal : jtr (snd (obeyed_at the_buy (at_till [] None []))) = [] ++ MRemove (Ok tt) :: drop 1 filled.
Proof. vm_compute. reflexivity. Qed.
Lemma filled_write : match drop 7 filled with MWrite _ _ :: _ => True | _ => False end.
Proof. vm_compute. exact I. Qed.
Lemma posts_are_over_their_own_record_witness :
  exists j before, absent before /\ valid sdk_parse j /\ record_of the_invocation the_selection j /\
    drop 7 filled = MWrite j (Ok tt) :: before.
Proof.
  destruct (posts_are_over_their_own_record sdk_parse identity_of_boc id (W:=Till) 400 note_addr the_buy (at_till [] None [])
    (take 6 filled) (drop 7 filled) "boc" (Ok tt) eq_refl filled_post) as (tries & j & before & He & Ht & Ha & Hv & Hw & _).
  exists j, before. split; [exact Ha|]. split; [exact Hv|]. split; [exact Hw|].
  destruct tries as [|c tries]; [exact He|].
  apply Forall_cons in Ht as [(e & -> & _) _]. pose proof filled_write as Hf. rewrite He in Hf. destruct Hf.
Defined.

(** A buy whose POST is in doubt leaves its record; a resume finds it and posts nothing. *)
Definition doubt : outcome ChainError unit := Err (AmbiguousSubmit "timeout").
Definition in_doubt : option JournalDocument := file_at the_buy (at_till [doubt] None []).
Definition a_resume : MoneyCommand := Resumes the_backend the_invocation true.
Lemma undisturbed_reads found t :
  Forall (fun c => match c with MRead (Ok d) => d = found | MWrite _ _ | MRemove _ => False | _ => True end) t -> ~ disturbed t.
Proof.
  intros Hf (later & d & earlier & known & -> & Hk & Hn).
  apply Forall_app in Hf as [_ Hf]. apply Forall_cons in Hf as [-> Hf]. apply Hn. clear Hn later.
  revert Hk. induction Hf as [|c t Hc _ IH]; [done|].
  destruct c as [| | | | |[d|e|]| |]; simpl in *; try done. intros [= <-]. done.
Qed.
Lemma recovery_posts_nothing_witness :
  Forall (fun call => is_post call = false) (trace_at a_resume (at_till [] in_doubt [])) /\ is_Some in_doubt.
Proof.
  split; [|vm_compute; by eexists].
  apply (recovery_posts_nothing sdk_parse identity_of_boc id (W:=Till) 400 note_addr a_resume (at_till [] in_doubt []));
    [reflexivity|done|].
  apply (undisturbed_reads in_doubt). vm_compute. repeat constructor.
Defined.

(** ** The parser of the desk, and a record on its file *)
Lemma sdk_is_legacy s c : sdk_parse s = Some c -> exists a, half_ok (account_id a) /\ c = of_text (legacy a).
Proof.
  unfold sdk_parse. destruct (parse (to_text s)) as [a|e|] eqn:E; try done. intros [= <-]. exists a.
  split; [|done]. by apply parse_wf in E as [_ Ha].
Qed.
Lemma sdk_reads_reloaded s c :
  sdk_parse s = Some c -> sdk_parse (reload_tc s) = Some c /\ sdk_parse (reload_note s) = Some c.
Proof.
  unfold sdk_parse, reload_tc, reload_note. destruct (parse (to_text s)) as [a|e|] eqn:E; try done. intros [= <-].
  pose proof (parse_wf _ _ E) as [_ Ha].
  assert (parse (legacy a) = Ok (mkAddress DEXDO_DAPP_ID (account_id a))) as Hl by exact (parse_legacy _ Ha).
  by rewrite !to_of_text, (reload_self_dapp_ok _ _ E), (reload_canonical_ok _ _ E), Hl.
Qed.
Definition the_record : BuyerSubmitJournal :=
  set_identity (template_of note_addr book_addr intent_foreground None the_selection 4 50 204 500) (identity_of_boc "boc")
    (cursor_new 0).
Lemma written_records_are_read_back_witness :
  money_journal_of sdk_parse id (reload_journal the_record) note_addr = Ok (BuyJournal (respelled the_record)).
Proof.
  apply (written_records_are_read_back sdk_parse id sdk_is_legacy sdk_reads_reloaded the_record note_addr).
  vm_compute. reflexivity.
Defined.

(** ** Where the code and its words part *)

(** A record of a valid submit is written, and refused by every load, once a number of it
    does not fit 64 bits: here the id the book gave its order. *)
Example a_large_order_id_blocks_its_record :
  let j := set_order_id the_record (2 ^ 64) in
  validate_journal sdk_parse j note_addr = Ok tt /\
  money_journal_of sdk_parse id (reload_journal j) note_addr = Err (Said "buyer money journal is invalid").
Proof. vm_compute. split; reflexivity. Qed.
Definition placed (id at_ deadline : Z) : BuyerOrderFact := mkOrderFact at_ note_addr (FactPlaced id 50 4 deadline).
Definition outcome_of (kind : BuyerOrderFactKind) : BuyerOrderFact := mkOrderFact 520 note_addr kind.
Example a_cancelled_order_closes_its_record :
  closes_record (classify_buyer_submit_standing the_record [placed 9 501 900; outcome_of (FactCancelled 9 204)] 600) = true.
Proof. vm_compute. reflexivity. Qed.
Example a_swept_order_closes_it_with_a_refund_only :
  closes_record (classify_buyer_submit_standing the_record [placed 9 501 510; outcome_of (FactExpired 9)] 600) = false /\
  closes_record (classify_buyer_submit_standing the_record
    [placed 9 501 510; outcome_of (FactExpired 9); outcome_of (FactRefunded 9 204)] 600) = true.
Proof. by vm_compute. Qed.
(** Two placements of these terms leave the order unknown; a rejection of any submit of
    the note then closes the record. *)
Example a_rejection_closes_over_two_candidates :
  classify_buyer_submit_standing the_record [placed 9 501 900; placed 10 502 900; outcome_of (FactRejected 3 204)] 600
  = StandingRejected 3 204 ProvenByChain.
Proof. vm_compute. reflexivity. Qed.

(** A refusal before the message is made is reported as a submit in doubt. *)
Example a_refused_preflight_is_called_ambiguous :
  let s := at_till [] None [] in
  let dear := mkInvocation intent_foreground None 4 50 205 in
  trace_at (Buys the_backend dear (mkSelection 205 the_quote false (Some ask_b))) s = [MRead (Ok None)] /\
  fst (obeyed_at (Buys the_backend dear (mkSelection 205 the_quote false (Some ask_b))) s)
  = Some (Err (ambiguous ("unclassified money submit outcome; journal retained and no resubmit is safe: "
                          ++ "escrow > required: the surplus strands"))).
Proof. vm_compute. split; reflexivity. Qed.

(** A resting buy has no quoted order.  In doubt, its command fails before it waits; filled
    since, its first resume persists the fill and fails, and the second succeeds. *)
Definition resting_backend : RealBuyerBackend := mkBuyer "hash" 50 4 204 true.
Definition resting_selection : BuyerQuoteSelection := mkSelection 204 (mkQuote 0 0 false []) true None.
Definition a_resting_buy : MoneyCommand := Buys resting_backend the_invocation resting_selection.
Definition a_resting_resume : MoneyCommand := Resumes resting_backend the_invocation true.
Definition landed_till (file : option JournalDocument) : BuyState (traced Till MoneyCall) :=
  mkBuyState None (cursor_new 0) (mkTill 0 [] true file [], []).
Definition no_anchor : option (outcome BuyerError unit) :=
  Some (Err (Said "buyer resting submit has no matched recovery anchor yet")).
Definition resting_file : option JournalDocument := file_at a_resting_buy (at_till [doubt] None []).
Example a_resting_buy_in_doubt_has_no_anchor : fst (obeyed_at a_resting_buy (at_till [doubt] None [])) = no_anchor.
Proof. vm_compute. reflexivity. Qed.
Example a_filled_resting_buy_is_resumed_twice :
  fst (obeyed_at a_resting_resume (landed_till resting_file)) = no_anchor /\
  fst (obeyed_at a_resting_resume (landed_till (file_at a_resting_resume (landed_till resting_file)))) = Some (Ok tt).
Proof. vm_compute. split; reflexivity. Qed.
