(* ===== verification/ClientSample.v ===== *)
(** * ClientSample: the clients of the market on the sample deal *)
From S2P Require Import Prelude Text Params Settle Address MarketTypes Machine MockDeal MockMarket MockSample.
From S2P Require Import MockDealInv MockDealOps MockDealLive MockInvariant MockReach MockLife MockSafety MockReads.
From S2P Require Import Backend Advance AdvanceSafety Keeper KeeperLive.
From S2P Require Import Json Diagnostics DiagnosticsSafety WithdrawGate Accumulator Continuity ContinuitySafety Session SessionSafety Budget BudgetSafety.

(** ** The claim driver on the opened sample deal, three ticks delivered *)
#[export] Instance finished_delivery (n : Z) : Delivery MockWorld := {|
  load_delivered w := (n, w);
  load_done w := (true, w) |}.
Definition sample_windows : AdvanceWindows := from_bounds bounds_canonical.
Definition opened_world : MockWorld := mkMockWorld w_open 1020.
Definition sample_drive (fuel : nat) (n : Z) : option (outcome ChainError Z) * MockWorld :=
  drive_advance_with_observer (H := MockChainBackend canonical) (H1 := finished_delivery n)
    (H2 := unit_observer MockWorld) sample_tc alice sample_windows fuel 4 TICK_SIZE true opened_world.

Lemma advance_claims_are_backed_witness :
  exists log, log_ok (4 * TICK_SIZE) log /\ high_water log = 3 * TICK_SIZE.
Proof.
  destruct (advance_claims_are_backed (MockChainBackend canonical) MockClock (finished_delivery (3 * TICK_SIZE))
    (unit_observer MockWorld) sample_tc alice sample_windows 6 4 TICK_SIZE true opened_world) as (log & _ & Hok & Hc);
    [by vm_compute|].
  exists log. split; [exact Hok|].
  destruct (Hc (3 * TICK_SIZE)) as [H|[H _]]; [by vm_compute|discriminate H|by rewrite <- H].
Defined.
Lemma advance_terminates_witness : exists r, fst (sample_drive 6 (3 * TICK_SIZE)) = Some r.
Proof.
  exact (advance_terminates (MockChainBackend canonical) MockClock (finished_delivery (3 * TICK_SIZE))
    (unit_observer MockWorld) sample_tc alice sample_windows (3 * TICK_SIZE) 6 4 TICK_SIZE true opened_world
    (fun _ => eq_refl) (fun _ => eq_refl) ltac:(lia) ltac:(done) ltac:(by vm_compute) ltac:(by vm_compute)).
Defined.

(** ** The keeper on the accepted sample subscription *)
Definition sub_view : KeeperSnapshot :=
  match fst (deal_snapshot canonical "tc-2" 5000 w_sub_live) with
  | Ok (Some sn) => keeper_snapshot_from sn
  | _ => mkKeeperSnapshot (mkDealState false false false false 0 0 0 0 0 None 0 0 0) (mkSub 0 0 0 0 0 0 0 0)
  end.
Lemma keeper_plan_is_exact_witness :
  plan sub_view bounds_canonical 5000 = Ok (PlanWait 60) /\
  (forall t, 5000 <= t < 5000 + 60 -> nothing_due sub_view bounds_canonical t) /\
  plan sub_view bounds_canonical (5000 + 3 * SUB_WEEK_LEN) = Ok (PlanSettleWeek 3).
Proof.
  split; [by vm_compute|]. split; [|by vm_compute].
  destruct (keeper_plan_is_exact sub_view bounds_canonical 5000 (PlanWait 60)) as [_ H]; [by vm_compute|by vm_compute|].
  apply H. by vm_compute.
Defined.

Lemma keeper_ends_the_subscription_witness : exists w' seller m c' s',
  drive_subscription_keeper (H := MockChainBackend canonical) "tc-2" bounds_canonical (Z.to_nat 3000000)
    (mkMockWorld w_sub_live 5000) = (Some (Ok TICK_SIZE), w') /\
  life_in (mw_files w') "tc-2" = Ended seller m c' s' /\ week_index s' = 4 /\ tokens_paid s' = 8 * TICK_SIZE.
Proof.
  edestruct (keeper_ends_the_subscription canonical dob_canonical sample_order_id bounds_canonical "tc-2"
    5000 w_sub_live) with (fuel := Z.to_nat 3000000) as (w' & c' & s' & E & Hl & _ & Hw & Hp & _).
  - apply canonical_sane.
  - by vm_compute.
  - by vm_compute.
  - by vm_compute.
  - apply sub_live_reachable.
  - lia.
  - vm_compute. reflexivity.
  - by vm_compute.
  - by vm_compute.
  - by vm_compute.
  - by vm_compute.
  - by vm_compute.
  - by vm_compute.
  - rewrite Z2Nat.id by lia. by vm_compute.
  - eexists w', _, _, c', s'. split; [exact E|]. split; [exact Hl|]. split; [exact Hw|exact Hp].
Defined.

(** ** The exchange, the withdraw gate and the submit diagnostics *)
Definition sample_plan : SellPlan :=
  mkSellPlan (push_lots ACCUMULATOR_DENOMS 1203) 1203 (1203 * ACCUMULATOR_SHELL_PER_USDC_RAW) (1203 * USDC_UNIT).
Lemma sell_plan_is_exact_and_minimal_witness :
  lot_count sample_plan = 6%nat /\
  (forall lots, Forall takes lots -> sum_of sl_denom lots = 1203 -> (6 <= length lots)%nat) /\
  sell_require_funded sample_plan (1203 * ACCUMULATOR_SHELL_PER_USDC_RAW + 5) = Ok tt.
Proof.
  destruct (sell_plan_is_exact_and_minimal (fun _ => true) 1203 sample_plan) as (_ & _ & _ & _ & _ & Hmin & Hfund);
    [lia|by vm_compute|].
  split_and!; [by vm_compute|exact Hmin|].
  apply (Hfund (1203 * ACCUMULATOR_SHELL_PER_USDC_RAW + 5)); [by vm_compute|by vm_compute].
Defined.

Definition sample_note : NoteState := mkNoteState false None 0 0 [(1, 0); (2, 9)] 0 0 0 0 0 0.
Definition sample_storage : Value :=
  VObject [("_busy", Null); ("_debt", VString "0x0"); ("_hasWithdrawn", VString " False"); ("_liveDeals", VArray []);
    ("_lockedInOrders", VArray [VObject [("key", VString "1"); ("value", VString "0")];
                                  VArray [VString "0x2"; VNumber (PosInt 9)]]); ("_openOrderCount", VNumber (PosInt 0));
    ("_pendingBatchBuyLock", VString " 0 "); ("_pendingInf", VObject []); ("_pendingPlaceBuyLock", VString "0");
    ("_restingInf", VObject []); ("_stakes", VObject [])].

Definition sample_response : Value :=
  VObject [("api_key", VString "key-12345678");
           ("error", VObject [("message", VString "denied for key-12345678")])].
Lemma refusals_echo_no_credential_witness :
  contains_text (to_text "key-12345678") (to_text "denied for <redacted>") = false.
Proof.
  eapply (refusals_echo_no_credential (fun l => l) sample_response);
    [done|vm_compute; reflexivity| |by vm_compute; lia| |by vm_compute; tauto].
  - eexists _, "api_key", (VString "key-12345678").
    split_and!; [apply within_here|by left|reflexivity|reflexivity|apply within_here|done].
  - split_and!; [done|by vm_compute; intuition discriminate..|by vm_compute].
Defined.

(** Two ticks on a closed deal with the order cleared in between, and two cleanups
    with the deal kept active in between. *)
Definition closed_tick : PlannerCall :=
  CallTick (Some (closed_facts "tc")) None ContinuityConfig_default ActiveOrRecent.
Definition no_show_tick : PlannerCall :=
  CallTick (Some (funded_never_opened "tc" 600)) None ContinuityConfig_default DemandIdle.
Definition planner_calls : list PlannerCall :=
  [closed_tick; closed_tick; CallClearPending "tc"; closed_tick].
Lemma duplicate_ticks_move_money_once_witness :
  Exists (releases "tc") [(closed_tick, Some (Noop "next-deal-already-pending")); (CallClearPending "tc", None)].
Proof.
  apply (duplicate_ticks_move_money_once planner_calls BuyerContinuity_default "tc" []
    [(closed_tick, Some (Noop "next-deal-already-pending")); (CallClearPending "tc", None)] []
    (closed_tick, Some (PlaceNextDeal "closed-current")) (closed_tick, Some (PlaceNextDeal "closed-current")));
    reflexivity.
Defined.

Lemma planned_cleanups_refund_witness :
  exists w', execute_buyer_monitor_recovery (fun tc => cleanup_unopened canonical tc 1610 1610) None
      (CleanupUnopened sample_tc) w_funded =
    (Some (RecoverCleanupUnopened, sample_tc,
       Ok (Some (SellerNoShow (cost_of canonical (4 * TICK_SIZE) (2 * PRICE_STEP) + 0) (2 * (2 * PRICE_STEP))))), w').
Proof.
  edestruct (planned_cleanups_refund canonical canonical_typed dob_canonical sample_order_id
    1010 1610 1610 1610 1610 0 0 w_funded sample_tc) with
    (mode := OnDemand) (observed := DemandIdle) (p := BuyerContinuity_default) as (ds & s & Hd & Hs & H);
    [apply funded_reachable|vm_compute; reflexivity|lia|lia|vm_compute; discriminate|set_solver|].
  apply (f_equal fst) in Hs. vm_compute in Hs. injection Hs as <-.
  apply (f_equal fst) in Hd. vm_compute in Hd. injection Hd as <-.
  cbv zeta in H. specialize (H ltac:(vm_compute; discriminate)).
  match type of H with context [tick_with_mode ?a ?b ?c ?d ?e ?f] =>
    assert (E : tick_with_mode a b c d e f = (CleanupUnopened sample_tc, mark_stale sample_tc BuyerContinuity_default))
      by reflexivity end.
  rewrite E in H. destruct (Z.ltb_spec 1610 (1010 + MATCH_OPEN_TIMEOUT_SECS)); [by vm_compute in H0|].
  destruct H as (w' & H1 & _). exists w'. exact H1.
Defined.

(** A session whose first STOP is in doubt: the service stops retrying. *)
#[local] Instance doubtful_chain : SessionChain unit := {|
  sn_deal_state _ w := (Ok None, w);
  sn_cleanup_unopened _ w := (Err (Chain "refused"), w);
  sn_stop _ _ w := (Err (AmbiguousSubmit "sent, no receipt"), w);
  sn_stop_if_heartbeat _ _ _ w := (Ok None, w);
  sn_dispute _ _ w := (Err (Chain "refused"), w);
  sn_now _ := 0 |}.
Definition doubtful_calls : list (SessionCall (unit * list Post)) :=
  [CallSettle; CallSettle; CallVerificationBail; CallEnsureOpen; CallMonitorCleanup; CallSettleOnExit].
Lemma terminal_writes_are_final_witness :
  session_log sample_tc bob BuyerApiFailurePolicy_default SettleOnExit session_new doubtful_calls tt =
    [mkPost KStop MayHaveLanded] /\
  Forall (fun q => post_kind q = KDispute) [].
Proof.
  split; [by vm_compute|].
  apply (terminal_writes_are_final sample_tc bob BuyerApiFailurePolicy_default SettleOnExit doubtful_calls tt
    [] [] (mkPost KStop MayHaveLanded)); by vm_compute.
Defined.
Lemma implicit_ends_write_nothing_witness :
  session_log sample_tc bob BuyerApiFailurePolicy_default Preserve session_new
    [CallVerificationBail; CallDeadGateway (fun _ => true); CallSettleOnExit] tt = [] /\
  session_log sample_tc bob BuyerApiFailurePolicy_default SettleOnExit (bind_route_delivery 0 session_new)
    [CallRequestDropped; CallSettleOnExit] tt = [].
Proof.
  split.
  - by eapply (proj1 (implicit_ends_write_nothing sample_tc bob BuyerApiFailurePolicy_default Preserve _ _ _)).
  - by eapply (proj2 (implicit_ends_write_nothing sample_tc bob BuyerApiFailurePolicy_default SettleOnExit _ _ _)).
Defined.

Lemma exit_settles_the_deal_witness :
  exists seller m c s x w' s' c' sub', life_in w_claimed sample_tc = Live seller m c s /\
    settle_on_exit (H := MockSessionChain canonical) sample_tc bob SettleOnExit
      (mkSession false false None false false false true None (Some 3), mkMockWorld w_claimed 5200) =
      (Some (Ok true), (s', mkMockWorld w' 5200)) /\
    life_in w' sample_tc = Ended seller m c' sub' /\ stop_result canonical c s 5200 5200 x c' sub'.
Proof.
  do 4 eexists. edestruct (exit_settles_the_deal canonical canonical_typed dob_canonical sample_order_id
    5100 5200 w_claimed sample_tc bob (Some 3)) as (x & w' & s' & c' & sub' & H1 & _ & _ & _ & H2 & H3 & _);
    [apply canonical_sane|apply claimed_reachable|vm_compute; reflexivity| | | | | | |].
  7: { exists x, w', s', c', sub'. split; [vm_compute; reflexivity|].
       split; [exact H1|]. split; [exact H2|exact H3]. }
  all: vm_compute; repeat split; reflexivity || discriminate.
Defined.

(** Two requests on one route of ten tokens: the first takes six, the second what is
    left, and a third attempt that read the counter before loses. *)
Lemma route_grants_are_deliverable_witness :
  exists x, route_run (route_new (api_deal_new 10) []) x /\ promised (rt_requests x) = 6 /\
    ad_delivered_tokens (rt_deal x) + promised (rt_requests x) = ad_reserved_tokens (rt_deal x).
Proof.
  eexists. split; [|split; [|apply (route_grants_are_deliverable 10)]].
  1,4: eapply rtc_l; [apply (step_observe _ _ _ _ (Some 6) 0 6); [done|by intros a [= <-]|reflexivity]|].
  1,2: eapply rtc_l; [eapply (step_observe _ _ _ _ None 0 10); [done|done|reflexivity]|].
  1,2: eapply rtc_l; [eapply (step_commit _ [_] _ []); reflexivity|].
  1,2: eapply rtc_l; [eapply (step_lost _ [] _ []); reflexivity|]; apply rtc_refl.
  - reflexivity.
  - split; by vm_compute.
Defined.

Definition subscribed_state : DealChainState :=
  mkDealState true true true false 100000 0 TICK_SIZE TICK_SIZE 0 (Some 1000) 1020 1100 0.
Definition subscribed : DealSubscription := mkSub flags.SUBSCRIPTION 4 0 (2 * TICK_SIZE) (8 * TICK_SIZE) TICK_SIZE 1000 0.
Lemma weekly_route_stays_within_the_claim_cap_witness :
  let d := with_weekly_budget (weekly_new subscribed_state subscribed) (api_deal_new TICK_SIZE) in
  exists w, ad_weekly d = Some w /\
    forall n held r' d', 0 <= n -> guard_record_delivered n held d = Ok (r', d') ->
      wb_claim_anchor w + ad_delivered_tokens d' <= 2 * TICK_SIZE.
Proof.
  destruct (weekly_route_stays_within_the_claim_cap subscribed_state subscribed TICK_SIZE
    (route_new (with_weekly_budget (weekly_new subscribed_state subscribed) (api_deal_new TICK_SIZE))
       [(subscribed_state, subscribed)])) as (w & Hw & _ & H);
    [by vm_compute|by vm_compute|apply rtc_refl|].
  exists w. split; [exact Hw|]. injection Hw as <-.
  destruct (H eq_refl) as (st' & sub' & cap & Hin & Hcap & _ & Hd).
  apply list_elem_of_singleton in Hin as [= -> ->]. vm_compute in Hcap. injection Hcap as <-. exact Hd.
Defined.
